(* ===== verification/_CoqProject ===== *)
-Q . S2P
Prelude.v
CheckSum.v
Addressing.v
TLogEntry.v
TLogIO.v
TLogIOFacts.v
TLogs.v
Snapshots.v
SnapshotPersistor.v
SnapshotFacts.v
SnapshotTheorems.v
SnapshotQueries.v
PageGenerator.v
MetaDataStore.v
MetaDataBackends.v
MetaDataFacts.v
MetaDataTheorems.v
MetaDataClaims.v
Replay.v
Scrubbing.v
SCOPool.v
Scrubber.v
ScrubbingFacts.v
ScrubbingTheorems.v
SCOPoolFacts.v
CutterFacts.v
ScrubberTheorems.v
ScrubbingClaims.v
ScrubApply.v
ClusterCacheMap.v
ClusterCacheMapFacts.v
ClusterCache.v
ClusterCacheFacts.v
ClusterCacheOffline.v
ClusterCacheOps.v
ClusterCacheAdmin.v
ClusterCacheDevices.v
ClusterCacheClaims.v
DTLStream.v
DTLStreamFacts.v
DTLBackend.v
DTLBackendFacts.v
DTLLog.v
DTLServer.v
DTLServerFacts.v
DTLWire.v
DTLBridge.v
DTLBridgeFacts.v
DTLBridgeLive.v
DTLClaims.v
SCOCache.v
SCOCacheFacts.v
SCOCacheOps.v
SCOCacheAdmin.v
SCOCacheClean.v
SCOCacheRestart.v
SCOCacheTheorems.v
DataStore.v
DataStoreTheorems.v
SnapshotManagement.v
SnapshotManagementFacts.v
SnapshotManagementOps.v
SnapshotManagementTheorems.v
Volume.v
VolumeFacts.v
VolumeTheorems.v
