(* ===== verification/Prelude.v ===== *)
(** * Open vStorage VolumeDriver: a verification library

    The volume driver (src/src/volumedriver) presents block devices over an object
    store.  Writes are gathered in SCOs (storage container objects), where each
    cluster (4 KiB) has a location; every location written is logged in TLogs
    (transaction logs); TLogs are grouped into snapshots; a metadata store maps
    cluster addresses to locations and is rebuilt from the TLogs when it is lost.
    This library models that chain, from bytes to the map:

    - CheckSum.v: src/src/youtils/CheckSum.{h,cpp}.  Module [CRC] has both CRC32C
      routines (slicing by eight, for every alignment, and the one on the CRC32
      instruction) over the literal tables of the code, module [CheckSum] the
      class.  The state is the 32-bit register.
    - Addressing.v: SCO.{h,cpp}, ClusterLocation.{h,cpp}, ClusterLocationAndHash.h.
      Records with the fields of the structs, bounded by [wf]; text and stream
      forms.
    - TLogEntry.v: Entry.{h,cpp}, EntryProcessor.h.  The four kinds of entries in
      their 32-byte image, and the processors that check a TLog.
    - TLogIO.v, TLogIOFacts.v: TLogReader, BackwardTLogReader, OneFileTLogReader,
      CombinedTLogReader, TLogReaderInterface, TLogWriter (.h and .cpp).  A file is
      a list of bytes; readers and writer are records with their buffers and
      positions, and their methods are steps on them.
    - TLogs.v: TLog.{h,cpp}, lists of TLogs with their flag "written to backend".
    - Snapshots.v: Snapshot.{h,cpp}.
    - SnapshotPersistor.v: SnapshotPersistor.{h,cpp}, the current TLogs and the
      snapshots of a volume; SnapshotFacts.v, SnapshotTheorems.v and
      SnapshotQueries.v prove its properties.
    - PageGenerator.v: PageGenerator.{h,cpp}, entries grouped by metadata page.
    - MetaDataStore.v: CachedMetaDataPage.h, CachedMetaDataStore.{h,cpp}: corks, an
      LRU cache of pages, and their backend, which is a class
      ([Backend.MetaDataBackendInterface], after MetaDataBackendInterface.h) with
      its contract in a second class ([Backend.MetaDataBackendSpec]).
    - MetaDataBackends.v: TokyoCabinetMetaDataBackend and RocksDBMetaDataBackend
      (.h and .cpp) over a key-value library, which is a class with a contract;
      TokyoCabinet is an instance of the backend contract.
    - MetaDataFacts.v, MetaDataTheorems.v, MetaDataClaims.v, Replay.v: the theorems
      on the store.
    - Scrubbing.v: TLogSplitter, PartScrubber, TLogMerger, TLogCutter,
      TheSonOfTLogCutter and ScrubbingSCOData (.h and .cpp), the tools that take the
      log of a snapshot apart and put it together again.  A TLog file is the list of
      its entries here (TLogIO.v shows that readers return it); the backend they
      write to is a class ([ObjectStore.ObjectStore]) with its contract.
    - SCOPool.v: SCOPool.{h,cpp}, NormalizedSCOAccessData.cpp and [FilePool::newFile]:
      the clusters still in use of sparse SCOs go to new SCOs.  The access
      probabilities are binary32 numbers of the library's [SpecFloat].
    - Scrubber.v: Scrubber.{h,cpp}, from the snapshots file of a volume to the
      [ScrubberResult], which is stored or applied, and
      [Volume::cleanupScrubbingOnError_].
    - ScrubbingFacts.v, ScrubbingTheorems.v, SCOPoolFacts.v, CutterFacts.v,
      ScrubberTheorems.v, ScrubbingClaims.v, ScrubApply.v: the theorems on the
      scrubber.
    - ClusterCacheMap.v: ClusterCacheKey.h and ClusterCacheMap.h, the hash map of the
      cluster cache; its size comes from a quotient of binary64 numbers.
    - ClusterCache.v: ClusterCache.h, ClusterCacheEntry.h, ClusterCacheMode.h and the
      devices (ClusterCacheDeviceT.h, ClusterCacheDiskStore.h,
      ClusterCacheDeviceManagerT.h): a read cache of clusters.  Entries live in the
      memory of their device and are known by their address; lists and maps share
      them, so that a change of an entry is seen through both.
    - ClusterCacheMapFacts.v, ClusterCacheFacts.v, ClusterCacheOffline.v,
      ClusterCacheOps.v, ClusterCacheAdmin.v, ClusterCacheDevices.v,
      ClusterCacheClaims.v: the theorems on the cluster cache.
    - DTLStream.v: the distributed transaction log (DTL, failovercache/fungilib and
      FailOverCacheStreamers.{h,cpp}): streams, the framing of sockets, messages.
      DTLStreamFacts.v: what is written is read back, on every stream ([reader]).
    - DTLBackend.v: failovercache/Backend.{h,cpp} over a class [BackendStore] (its
      virtual methods), with the instances MemoryBackend and FileBackend.
      DTLBackendFacts.v: both keep the contract [BackendStoreSpec]; DTLLog.v: on it a
      backend is a list of entries ([LogSpec]).
    - DTLServer.v: FailOverCacheProtocol, FailOverCacheAcceptor and FailOverCacheProxy:
      a connection, from the call of the proxy over bytes to the server's thread and
      back.  DTLServerFacts.v, DTLWire.v: a call over the wire is a call of the backend.
    - DTLBridge.v: FailOverCacheSyncBridge and FailOverCacheAsyncBridge over a class
      [FailOverCache] that the proxy is an instance of; the thread of the asynchronous
      bridge takes turns with the volume.  DTLBridgeFacts.v, DTLBridgeLive.v,
      DTLClaims.v: the theorems on the bridges and on the whole chain.
    - SCOCache.v: SCOCache, SCOCacheMountPoint, SCOCacheNamespace, CachedSCO (.h and .cpp),
      MountPointConfig.h, SCOFetcher.h: the cache of SCOs on several mount points.  Disks are part of the
      state and may fail; the SCOs in memory live in a heap with reference counts; the
      sections under a lock are the steps that interleave.  SCOCacheFacts.v, SCOCacheOps.v,
      SCOCacheAdmin.v, SCOCacheClean.v, SCOCacheRestart.v: the invariant and what keeps it;
      SCOCacheTheorems.v: the theorems.
    - DataStore.v: DataStoreNG.{h,cpp}, OpenSCO.cpp, WriteSCOCache.cpp, SCOFetcher.cpp and
      [BackendConnectionInterface::partial_read]: clusters in SCOs, over the SCO cache.  A mount
      point error is retried with a list of what happens in between.  DataStoreTheorems.v:
      the theorems.
    - SnapshotManagement.v: SnapshotManagement.{h,cpp} and the tasks WriteTLog and
      WriteSnapshot of BackendTasks.cpp: the log of a volume, with the TLog writer, the
      files, the snapshots file and the tasks that are queued; the volume is a class
      ([VolumeInterface], after VolumeInterface.h).  SnapshotManagementFacts.v has what the log needs of the
      volume ([VolumeSpec]) and the invariant, SnapshotManagementOps.v the
      operations, SnapshotManagementTheorems.v the theorems.
    - Volume.v: Volume.cpp: reading, writing, sync, snapshots, replay of the DTL and
      resize, over classes for its components; the [VolumeInterface] of the
      log is implemented by the rest of the volume ([rest_interface]).  VolumeFacts.v says what the volume
      needs of each component, and proves the specification of each operation;
      VolumeTheorems.v has the theorems, and a volume on which they are tried.

    How the code is rendered.  Unsigned integers are [Z] with their wrap written
    out ([u8] to [u64]); a method that throws returns [res], or runs in the state
    and exception monad [M], in which the state survives a throw.  [VERIFY] and
    [THROW_UNLESS] throw; [ASSERT] is [AssertFailed], as in a debug build; uses the
    language leaves undefined are [UndefinedBehaviour].  Methods keep their names.
    Log messages, tracing and locks are left out: one operation runs at a time, except
    in the asynchronous bridge, where the sections under its locks are the steps that
    interleave.

    What the theorems show.
    - Check sums: the two routines agree with the bit-serial CRC32C on every buffer,
      start value and alignment, and pieces add up.
    - Text, stream and memory forms of addresses and entries are read back as
      written, and exactly the well-formed strings are accepted.
    - TLogs: what a writer was given is what readers return, in both directions,
      for every buffer size; refused entries leave no trace; a closed TLog passes
      the checking processors and one with a wrong check sum does not.
    - Snapshots: every reachable state keeps the TLogs on the backend a prefix of the
      history; each operation acts on the history as a list operation; queries
      return the stretches of the history their names say; errors are exact.
    - Metadata store: on a backend that keeps its contract the store is
      indistinguishable from one map, over all sequences of operations; what was
      uncorked survives a restart; the count of used clusters is exact; replay
      grouped by pages equals replay in order; relocations touch what they should.
    - Scrubber: on a snapshot whose log is in order ([ScrubberTheorems.scrubbable]: the
      locations of the log increase, one SCO stands for a number, the SCOs are in the
      backend with every cluster of the log, a SCO has a free version, ids drawn are
      new) the scrubber completes; the TLogs it returns give every cluster the data it
      had, without the SCOs it reports as deleted; its relocations turn the old map
      into the new one; what it returns can be scrubbed again; applied, it leaves the
      other snapshots alone.  The steps are exact on their own: metadata scrub, merge,
      the two cutters.
    - Cluster cache: over all sequences of calls ([CacheClaims.admissible] says what is
      asked of each), reads serve the last cluster added, never one that was
      invalidated; lists, maps, limits and devices agree.
    - Distributed transaction log: either backend, directly or over the wire, gives out
      what was added in that order, less what was removed; a new owner that writes
      before it reads starts an empty log.  The asynchronous bridge delivers what it
      accepted, in order and unchanged, for every interleaving and every failure that
      it does not report; a refused batch gets in after three turns of the thread, and
      what is queued is in the server's log after two rounds.
    - SCO cache: in every reachable state, with any number of fetches and cleanups under way,
      namespaces, SCOs, mount points and files agree; a cleanup removes
      only what can be fetched again; a mount point is chosen as the code means to, and
      one that went offline is not used again; reporting an error ends.
    - Data store: what is written is read back, over restarts of the SCO and fetches; a
      batch of reads equals single reads; the check sum of a SCO is that of its bytes.
    - Log of a volume: whatever is called, and whenever tasks run or fail, the TLogs
      hold what was logged, in order; after a crash a prefix, all of it after a sync;
      restoring a snapshot gives the log it was taken of.
    - Volume: over components that keep their promises a volume is a disk: reads return
      the bytes written last, writes are applied or torn at a byte, and the
      log says where the clusters are.  The promises are those that the theorems on data store, metadata
      store, cluster cache and DTL show for these, each within its bounds.
    - What does not hold, each by a theorem: the result of a scrub names its new SCOs;
      a request behind the end of a volume is refused; [removeMountPoint] leaves the SCOs of the
      other mount points alone; a failed fetch gives its space back; purging a SCO
      leaves its mount point online; a current SCO that was lost is fetched or missed; the
      remaining capacity of a SCO may be negative;
      callbacks that come late after a restore are tolerated; a store survives a failed
      eviction, counts right after it is cleared or on RocksDB, can be cleared while
      dirty; a device of the cluster cache can be taken offline at any time; the request
      timeout of the DTL can be changed without losing its log; a client of the DTL
      sees that the server could not read the log; a flush of the asynchronous bridge
      delivers what is queued; a failure to fetch a SCO is an error.

    Bounds.  Loops whose recursion is not structural take fuel: readers run with one
    step more than the entries of their file, the store's emptying loop with one
    more than its pages, [processPages] with one more than the entries replayed, the
    merger with one more than the entries of its inputs, the walks over the SCOs in
    [SCOPool] with one more than the SCOs, the server's thread and
    the loop of [getObject_] with one more than the bytes that have arrived, the loops that take
    mount points offline and that choose one with one or two more than the mount points there
    are (squared where one starts again), the loop of [write_aligned_] with two more than the bytes; a DTL
    that refuses a batch is asked [attempts] times, more than it refuses ([FailOverSpec]); the theorems
    state that the result is reached.  Cluster addresses have 35 bits
    ([Entry::max_valid_cluster_address_]); a cork or a replay has less than 2^32
    entries (the width of the page counters); [page_bits] is below 31.

    Not modelled: XML and boost serialization, reports and counters of performance, files and
    directories beyond their contents, RDMA, connecting and polling sockets, several connections of a
    DTL server at once: they are I/O, or change nothing that is modelled.  Threads and
    locks are modelled where sections under a lock interleave (asynchronous bridge, SCO
    cache, tasks of the backend); elsewhere one operation runs at a time.  The remote metadata backends
    and the metadata server are clients and servers of services outside the sources.  Of the
    volume its construction, cloning, restart and configuration are left out, and the volume
    manager: they put components together.  The file system, the file driver
    and the bindings are front ends.

    This file holds what all others share: results and the monad, machine integers,
    tactics and hint databases, bits and bytes. *)

From stdpp Require Export base tactics decidable list gmap strings.
From Stdlib Require Export ZArith Lia ZifyNat Sorted.

(** ** Exceptions and results

    The C++ code reports failures by throwing.  [exn] lists the exception
    classes the modelled code throws; [VerifyFailed] is the IOException thrown
    by [VERIFY] and [ThrowUnless] the one thrown by [THROW_UNLESS]
    (src/src/youtils/Assert.h).  [AssertFailed] is a failing [ASSERT], which stops
    a debug build and is skipped in a release build; [UndefinedBehaviour] marks a
    use the language leaves undefined.  [OutOfFuel] is no exception of the code: it marks
    a loop of the model whose fuel ran out, and the theorems on the loops show
    that the fuel they are given suffices. *)
Inductive exn : Type :=
  | VerifyFailed
  | ThrowUnless
  | IOException
  | InvalidEntryException
  | SCOSwitchWithoutSCOCRC
  | SCOCRCWithoutActiveSCO
  | TLogWrongCRC
  | CorkNotOnBackendException
  | CorkNotFoundException
  | SnapshotNotFoundException
  | SnapshotNameAlreadyExists
  | ExcessiveMetaDataException
  | BackendException
  | MetaDataStoreBackendException
  | ScrubberException
  | MountPointNotConfigured
  | InvalidClusterCacheConfig
  | InvalidClusterCacheHandle
  | InvalidClusterCacheOperation
  | FailOverCacheNotConfiguredException
  | TransientException
  | SCOCacheNoMountPointsException
  | SCOCacheMountPointIOException
  | SCONotFoundException
  | CheckSumException
  | BackendOutputException
  | BackendInputException
  | BackendConnectFailureException
  | BackendAssertionFailedException
  | BadAlloc
  | OwnerTagMismatchException
  | VolumeHaltedException
  | VolumeIsTemplateException
  | AccessBeyondEndOfVolumeException
  | PreviousSnapshotNotOnBackendException
  | InvalidOperation
  | CannotShrinkVolumeException
  | CannotGrowVolumeBeyondLimitException
  | SocketWaits
  | AssertFailed
  | UndefinedBehaviour
  | OutOfFuel.

#[global] Instance exn_eq_dec : EqDecision exn.
Proof. solve_decision. Defined.

Inductive res (A : Type) : Type :=
  | Ok (a : A)
  | Throw (e : exn).
Arguments Ok {A} a.
Arguments Throw {A} e.

Definition rbind {A B} (r : res A) (k : A -> res B) : res B :=
  match r with Ok a => k a | Throw e => Throw e end.

Definition is_ok {A} (r : res A) : bool :=
  match r with Ok _ => true | Throw _ => false end.

Declare Scope res_scope.
Delimit Scope res_scope with res.
Notation "'let?' x := r 'in' k" := (rbind r (fun x => k))
  (at level 10, x pattern, r at level 100, k at level 200) : res_scope.
Notation "'verify' b 'in' k" := (if b then k else Throw VerifyFailed)
  (at level 10, b at level 100, k at level 200) : res_scope.
Notation "'throw_unless' b 'in' k" := (if b then k else Throw ThrowUnless)
  (at level 10, b at level 100, k at level 200) : res_scope.
Open Scope res_scope.

(** Left fold whose body may throw: the shape of every [for] loop of the code
    that leaves early only by an exception. *)
Fixpoint rfold {A S} (f : S -> A -> res S) (s : S) (l : list A) : res S :=
  match l with
  | [] => Ok s
  | a :: l' => let? s' := f s a in rfold f s' l'
  end.

(** Code that mutates an object and may throw: the state survives a throw. *)
Definition M (S A : Type) : Type := S -> S * res A.
Definition mret {S A} (a : A) : M S A := fun s => (s, Ok a).
Definition mthrow {S A} (e : exn) : M S A := fun s => (s, Throw e).
Definition mbind {S A B} (m : M S A) (k : A -> M S B) : M S B := fun s =>
  match m s with (s', Ok a) => k a s' | (s', Throw e) => (s', Throw e) end.
Definition mget {S} : M S S := fun s => (s, Ok s).
Definition mmodify {S} (f : S -> S) : M S unit := fun s => (f s, Ok tt).
Definition mlift {S A} (r : res A) : M S A := fun s => (s, r).
Notation "'let!' x := m 'in' k" := (mbind m (fun x => k))
  (at level 10, x pattern, m at level 100, k at level 200) : res_scope.
Notation "m ;! k" := (mbind m (fun _ => k))
  (at level 90, right associativity) : res_scope.

Fixpoint miter {A S} (f : A -> M S unit) (l : list A) : M S unit :=
  match l with
  | [] => mret tt
  | a :: l' => f a ;! miter f l'
  end.

(** Total correctness: [m] returns from [s], and what it returns and leaves
    satisfies [Q]. *)
Definition runs {S A} (m : M S A) (s : S) (Q : A -> S -> Prop) : Prop :=
  exists a s', m s = (s', Ok a) /\ Q a s'.

Section Runs.
Context {S : Type}.

Lemma runs_ret {A} (a : A) (s : S) (Q : A -> S -> Prop) : Q a s -> runs (mret a) s Q.
Proof. intros. by exists a, s. Qed.

Lemma runs_get (s : S) (Q : S -> S -> Prop) : Q s s -> runs mget s Q.
Proof. intros. by exists s, s. Qed.

Lemma runs_modify f (s : S) (Q : unit -> S -> Prop) : Q tt (f s) -> runs (mmodify f) s Q.
Proof. intros. by exists tt, (f s). Qed.

Lemma runs_bind {A B} (m : M S A) (k : A -> M S B) s (Q : B -> S -> Prop) :
  runs m s (fun a s' => runs (k a) s' Q) -> runs (mbind m k) s Q.
Proof. intros (a & s' & E & b & s'' & E' & HQ). exists b, s''. split; [|done]. unfold mbind. by rewrite E. Qed.

Lemma runs_mono {A} (m : M S A) s (Q Q' : A -> S -> Prop) :
  runs m s Q -> (forall a s', Q a s' -> Q' a s') -> runs m s Q'.
Proof. intros (a & s' & E & HQ) HI. exists a, s'. auto. Qed.

Lemma runs_lift {A} (r : res A) a (s : S) (Q : A -> S -> Prop) : r = Ok a -> Q a s -> runs (mlift r) s Q.
Proof. intros -> HQ. by exists a, s. Qed.

(** An invariant of the loop, in terms of what is left of the list. *)
Lemma runs_iter {A} (f : A -> M S unit) (I : list A -> S -> Prop) l s :
  I l s -> (forall a l' t, I (a :: l') t -> runs (f a) t (fun _ t' => I l' t')) ->
  runs (miter f l) s (fun _ s' => I [] s').
Proof.
  intros H0 Hs. revert s H0. induction l as [|a l IH]; intros s H0; cbn; [by apply runs_ret|].
  apply runs_bind. eapply runs_mono; [by apply Hs|]. intros [] t Ht. by apply IH.
Qed.
End Runs.

Open Scope Z_scope.

(** ** Machine integers: a w-bit unsigned value is a [Z] in [0, 2^w). *)
Definition wrap (w : Z) (z : Z) : Z := z mod 2 ^ w.
Abbreviation u8 := (wrap 8).
Abbreviation u16 := (wrap 16).
Abbreviation u32 := (wrap 32).
Abbreviation u64 := (wrap 64).

Definition fits (w : Z) (z : Z) : Prop := 0 <= z < 2 ^ w.

#[global] Instance fits_dec w z : Decision (fits w z).
Proof. unfold fits. apply _. Defined.

Create HintDb vd discriminated.
Create Rewrite HintDb vdr.
#[export] Hint Constants Opaque : vd.

(** ** Tactics *)

(** Closed decidable side conditions, by evaluation. *)
Ltac by_decide := refine (bool_decide_unpack _ _); vm_compute; exact I.

(** Equality of lists up to associativity of append. *)
Ltac list_norm := repeat (progress (rewrite <- ?app_assoc; cbn [app])); reflexivity.

(** [lia] with quotients and remainders by constants. *)
Ltac dm := Z.to_euclidean_division_equations; lia.

(** The same for naturals. *)
Ltac ndm := zify; Z.to_euclidean_division_equations; lia.

(** Splits the matches and ifs of a hypothesis or of the goal. *)
Ltac split_match :=
  match goal with
  | H : context [match ?x with _ => _ end] |- _ => destruct x eqn:?; try discriminate
  | |- context [match ?x with _ => _ end] => destruct x eqn:?; try discriminate
  end.

Ltac inv_ok :=
  repeat match goal with
  | H : Ok _ = Ok _ |- _ => injection H as H; subst
  | H : Some _ = Some _ |- _ => injection H as H; subst
  | H : (_, _) = (_, _) |- _ => injection H as ? ?; subst
  | H : Ok _ = Throw _ |- _ => discriminate H
  | H : Throw _ = Ok _ |- _ => discriminate H
  end.

(** Decomposes an equation [rbind r k = Ok v] into its two halves. *)
Lemma rbind_ok {A B} (r : res A) (k : A -> res B) v :
  rbind r k = Ok v <-> exists a, r = Ok a /\ k a = Ok v.
Proof. destruct r; cbn; split; [by eauto|by intros (? & ? & ?); inv_ok|done|by intros (? & ? & ?)]. Qed.

Ltac inv_bind H :=
  let a := fresh "a" in let H1 := fresh H in let H2 := fresh H in
  apply rbind_ok in H as (a & H1 & H2).

Lemma rfold_app {A S} (f : S -> A -> res S) s l1 l2 :
  rfold f s (l1 ++ l2) = (let? s' := rfold f s l1 in rfold f s' l2).
Proof. revert s; induction l1 as [|a l1 IH]; intros s; cbn; [done|].
  destruct (f s a); cbn; auto. Qed.

(** An invariant of the loop body is an invariant of the loop. *)
Lemma rfold_ind {A S} (f : S -> A -> res S) (P : list A -> S -> Prop) l s s' :
  P [] s ->
  (forall l1 a t t', P l1 t -> f t a = Ok t' -> P (l1 ++ [a]) t') ->
  rfold f s l = Ok s' -> P l s'.
Proof.
  intros H0 Hs. rewrite <- (rev_involutive l). generalize (rev l) as k. clear l.
  intros k; revert s'. induction k as [|a k IH]; cbn; intros s' H; [by inv_ok|].
  rewrite rfold_app in H. inv_bind H. cbn in H2. inv_bind H2. inv_ok. eauto.
Qed.

(** ** Lists, filtered by a boolean *)
Section ListFilter.
Context {A : Type}.
Implicit Types (f g : A -> bool) (l : list A).

Lemma elem_of_lfilter f l x : x ∈ List.filter f l <-> x ∈ l /\ f x = true.
Proof. by rewrite !list_elem_of_In, filter_In. Qed.

Lemma elem_of_concat (ls : list (list A)) x : x ∈ concat ls <-> exists l, l ∈ ls /\ x ∈ l.
Proof. rewrite list_elem_of_In, in_concat. by setoid_rewrite list_elem_of_In. Qed.

Lemma Forall_lfilter (P : A -> Prop) f l : Forall P l -> Forall P (List.filter f l).
Proof. rewrite !Forall_forall. setoid_rewrite elem_of_lfilter. intros H x [Hx _]. by apply H. Qed.

Lemma lfilter_sublist f l : List.filter f l `sublist_of` l.
Proof. induction l as [|x l IH]; cbn; [done|]. destruct (f x); [by apply sublist_skip|by apply sublist_cons]. Qed.

Lemma lfilter_ext f g l : (forall x, x ∈ l -> f x = g x) -> List.filter f l = List.filter g l.
Proof.
  induction l as [|x l IH]; intros H; cbn; [done|]. rewrite (H x) by left.
  rewrite IH; [done|]. intros y Hy. apply H. by right.
Qed.

Lemma lfilter_comm f g l : List.filter f (List.filter g l) = List.filter g (List.filter f l).
Proof.
  induction l as [|x l IH]; cbn; [done|]. destruct (f x) eqn:Ef, (g x) eqn:Eg; cbn; rewrite ?Ef, ?Eg; by rewrite IH.
Qed.

Lemma lfilter_all f l : (forall x, x ∈ l -> f x = true) -> List.filter f l = l.
Proof.
  induction l as [|x l IH]; intros H; cbn; [done|]. rewrite (H x) by left.
  f_equal. apply IH. intros y Hy. apply H. by right.
Qed.

Lemma lfilter_none f l : (forall x, x ∈ l -> f x = false) -> List.filter f l = [].
Proof.
  induction l as [|x l IH]; intros H; cbn; [done|]. rewrite (H x) by left.
  apply IH. intros y Hy. apply H. by right.
Qed.

Lemma lfilter_split f l : List.filter f l ++ List.filter (fun x => negb (f x)) l ≡ₚ l.
Proof. induction l as [|x l IH]; cbn; [done|]. destruct (f x); cbn; by rewrite <- ?Permutation_middle, IH. Qed.

(** Grouping a list by the value of a key. *)
Lemma concat_by_key (key : A -> Z) (ks : list Z) l : NoDup ks -> (forall x, x ∈ l -> key x ∈ ks) ->
  concat ((fun k => List.filter (fun x => key x =? k) l) <$> ks) ≡ₚ l.
Proof.
  revert l. induction ks as [|k ks IH]; intros l Hnd Hk; cbn.
  - destruct l as [|x l]; [done|]. by pose proof (Hk x ltac:(left)) as ?%elem_of_nil.
  - apply NoDup_cons in Hnd as [Hnk Hnd].
    replace ((fun k0 => List.filter (fun x => key x =? k0) l) <$> ks)
      with ((fun k0 => List.filter (fun x => key x =? k0) (List.filter (fun x => negb (key x =? k)) l)) <$> ks).
    + rewrite IH; [apply lfilter_split|done|].
      intros x [Hx Hne]%elem_of_lfilter. apply Hk in Hx as [E|?]%elem_of_cons; [|done]. by rewrite E, Z.eqb_refl in Hne.
    + apply list_fmap_ext. intros i k0 Hi. rewrite lfilter_comm. apply lfilter_all.
      intros x [_ Hx]%elem_of_lfilter. apply negb_true_iff, Z.eqb_neq. intros E.
      apply Hnk. apply list_elem_of_lookup. exists i. rewrite Hi. f_equal. lia.
Qed.
End ListFilter.

Lemma sorted_lookup {A} (R : A -> A -> Prop) l i j a b : StronglySorted R l ->
  l !! i = Some a -> l !! j = Some b -> (i < j)%nat -> R a b.
Proof.
  intros Hl. revert i j. induction Hl as [|x l Hl IH Hx]; intros i j Hi Hj Hij; [done|].
  destruct j as [|j]; [lia|]. cbn in Hj. destruct i as [|i]; [|by apply (IH i j); [..|lia]].
  injection Hi as ->. rewrite Forall_forall in Hx. apply Hx. by apply list_elem_of_lookup_2 in Hj.
Qed.

Lemma sorted_sublist {A} (R : A -> A -> Prop) l l' : l' `sublist_of` l -> StronglySorted R l -> StronglySorted R l'.
Proof.
  induction 1 as [|x l' l Hs IH|x l' l Hs IH]; intros H; [done| |];
    apply StronglySorted_inv in H as [H Hx]; [|by apply IH]. constructor; [by apply IH|].
  rewrite Forall_forall in *. intros y Hy. apply Hx. by eapply elem_of_sublist.
Qed.

(** ** Machine-integer lemmas *)
Lemma wrap_fits w z : 0 <= w -> fits w (wrap w z).
Proof. intros. apply Z.mod_pos_bound. lia. Qed.

Lemma wrap_id w z : fits w z -> wrap w z = z.
Proof. intros. by apply Z.mod_small. Qed.

Lemma wrap_wrap w z : wrap w (wrap w z) = wrap w z.
Proof. apply Zmod_mod. Qed.

Lemma wrap_add_l w a b : wrap w (wrap w a + b) = wrap w (a + b).
Proof. apply Zplus_mod_idemp_l. Qed.

Lemma wrap_sub_l w a b : wrap w (wrap w a - b) = wrap w (a - b).
Proof. apply Zminus_mod_idemp_l. Qed.

Lemma wrap_sub_r w a b : wrap w (a - wrap w b) = wrap w (a - b).
Proof. apply Zminus_mod_idemp_r. Qed.

Lemma fits_mono w w' z : w <= w' -> fits w z -> fits w' z.
Proof. unfold fits. intros ? [? ?]. split; [done|].
  eapply Z.lt_le_trans; [done|]. destruct (Z_le_gt_dec 0 w).
  - apply Z.pow_le_mono_r; lia.
  - rewrite Z.pow_neg_r in * by lia. lia. Qed.

#[export] Hint Resolve wrap_fits wrap_id : vd.

(** ** Bit lemmas *)
Lemma wrap_land w z : 0 <= w -> wrap w z = Z.land z (Z.ones w).
Proof. intros. by rewrite Z.land_ones. Qed.

Lemma fits_iff_land w z : 0 <= w -> fits w z <-> Z.land z (Z.ones w) = z.
Proof. intros Hw. rewrite <- wrap_land by done. split; [apply wrap_id|].
  intros <-. by apply wrap_fits. Qed.

Lemma lxor_fits w a b : 0 <= w -> fits w a -> fits w b -> fits w (Z.lxor a b).
Proof. intros Hw. rewrite !fits_iff_land by done. intros Ha Hb.
  rewrite <- Ha, <- Hb. apply Z.bits_inj'. intros i Hi.
  rewrite ?Z.land_spec, ?Z.lxor_spec, ?Z.land_spec.
  by destruct (Z.testbit (Z.ones w) i), (Z.testbit a i), (Z.testbit b i). Qed.

Lemma lor_fits w a b : 0 <= w -> fits w a -> fits w b -> fits w (Z.lor a b).
Proof. intros Hw. rewrite !fits_iff_land by done. intros Ha Hb.
  rewrite <- Ha, <- Hb. by rewrite <- Z.land_lor_distr_l, <- Z.land_assoc, Z.land_diag. Qed.

Lemma shiftr_fits w n a : 0 <= n -> fits w a -> fits w (Z.shiftr a n).
Proof. unfold fits. intros Hn [H0 H1]. rewrite Z.shiftr_div_pow2 by done. split.
  - apply Z.div_pos; lia.
  - apply Z.div_lt_upper_bound; [lia|]. nia. Qed.

Lemma lxor_land_shift a n : 0 <= n ->
  a = Z.lxor (Z.land a (Z.ones n)) (Z.shiftl (Z.shiftr a n) n).
Proof.
  intros Hn. apply Z.bits_inj'. intros i Hi.
  rewrite Z.lxor_spec, Z.land_spec, Z.shiftl_spec by done.
  destruct (Z.ltb_spec i n).
  - rewrite Z.ones_spec_low, (Z.testbit_neg_r _ (i - n)) by lia.
    by rewrite andb_true_r, xorb_false_r.
  - rewrite Z.ones_spec_high, Z.shiftr_spec by lia.
    rewrite andb_false_r, xorb_false_l. f_equal. lia.
Qed.

Lemma lor_shiftl_lxor a r n : 0 <= n -> fits n a ->
  Z.lor a (Z.shiftl r n) = Z.lxor a (Z.shiftl r n).
Proof.
  intros Hn Ha%fits_iff_land; [|done]. rewrite <- Ha. apply Z.bits_inj'. intros i Hi.
  rewrite Z.lxor_spec, Z.lor_spec, Z.land_spec, Z.shiftl_spec by done.
  destruct (Z.ltb_spec i n).
  - rewrite (Z.testbit_neg_r _ (i - n)) by lia. by rewrite orb_false_r, xorb_false_r.
  - rewrite Z.ones_spec_high by lia. rewrite andb_false_r. by destruct (Z.testbit r (i - n)).
Qed.

#[export] Hint Resolve lxor_fits lor_fits shiftr_fits : vd.

(** ** Bytes and little-endian words

    A buffer is a list of unsigned bytes; an integer in memory is its
    little-endian byte list. *)
Abbreviation bytes := (Forall (fits 8)).

Fixpoint le_load (l : list Z) : Z :=
  match l with
  | [] => 0
  | b :: l' => Z.lor b (Z.shiftl (le_load l') 8)
  end.

Fixpoint le_store (n : nat) (z : Z) : list Z :=
  match n with
  | O => []
  | S n' => wrap 8 z :: le_store n' (Z.shiftr z 8)
  end.

Lemma le_load_fits l : bytes l -> fits (8 * Z.of_nat (length l)) (le_load l).
Proof.
  induction 1 as [|b l Hb Hl IH]; [done|]. cbn [le_load length].
  apply lor_fits; [lia| |].
  - eapply fits_mono; [|done]. lia.
  - unfold fits in *. rewrite Z.shiftl_mul_pow2 by lia.
    replace (8 * Z.of_nat (S (length l))) with (8 * Z.of_nat (length l) + 8) by lia.
    rewrite Z.pow_add_r by lia. nia.
Qed.

Lemma le_load_app l1 l2 : bytes l1 ->
  le_load (l1 ++ l2) = Z.lxor (le_load l1) (Z.shiftl (le_load l2) (8 * Z.of_nat (length l1))).
Proof.
  induction 1 as [|b l Hb Hl IH]; cbn [app le_load length].
  - rewrite Z.shiftl_0_r. by rewrite Z.lxor_0_l.
  - rewrite IH, !lor_shiftl_lxor by (done || lia).
    rewrite Z.shiftl_lxor, Z.shiftl_shiftl, Z.lxor_assoc by lia. do 3 f_equal. lia.
Qed.

Lemma le_store_bytes n z : bytes (le_store n z).
Proof. revert z. induction n as [|n IH]; intros z; cbn [le_store]; constructor; [|done].
  apply wrap_fits. lia. Qed.

Lemma length_le_store n z : length (le_store n z) = n.
Proof. revert z. induction n as [|n IH]; intros z; cbn; congruence. Qed.

Lemma le_load_store n z : fits (8 * Z.of_nat n) z -> le_load (le_store n z) = z.
Proof.
  revert z. induction n as [|n IH]; intros z Hz.
  - unfold fits in Hz. cbn in *. lia.
  - cbn [le_store le_load]. rewrite IH.
    + rewrite lor_shiftl_lxor by (lia || by apply wrap_fits).
      rewrite wrap_land by lia. symmetry. by apply lxor_land_shift.
    + unfold fits in *. rewrite Z.shiftr_div_pow2 by lia.
      replace (8 * Z.of_nat (S n)) with (8 * Z.of_nat n + 8) in Hz by lia.
      rewrite Z.pow_add_r in Hz by lia. change (2 ^ 8) with 256 in *. split.
      * apply Z.div_pos; lia.
      * apply Z.div_lt_upper_bound; lia.
Qed.

Lemma le_store_load l : bytes l -> le_store (length l) (le_load l) = l.
Proof.
  induction 1 as [|b l Hb Hl IH]; [done|]. cbn [length le_store le_load].
  rewrite lor_shiftl_lxor by (done || lia). f_equal.
  - rewrite wrap_land by lia.
    apply Z.bits_inj'. intros i Hi. rewrite Z.land_spec, Z.lxor_spec, Z.shiftl_spec by done.
    destruct (Z.ltb_spec i 8).
    + rewrite Z.ones_spec_low, (Z.testbit_neg_r _ (i - 8)) by lia.
      by rewrite xorb_false_r, andb_true_r.
    + rewrite Z.ones_spec_high, andb_false_r by lia.
      apply fits_iff_land in Hb; [|lia]. rewrite <- Hb, Z.land_spec, Z.ones_spec_high by lia.
      by rewrite andb_false_r.
  - rewrite Z.shiftr_lxor, Z.shiftr_shiftl_l by lia.
    replace (Z.shiftr b 8) with 0
      by (symmetry; rewrite Z.shiftr_div_pow2 by lia; by apply Z.div_small).
    by rewrite Z.lxor_0_l, Z.shiftl_0_r.
Qed.

#[export] Hint Resolve le_store_bytes : vd.
