(* ===== verification/Addressing.v ===== *)
(** * Addresses of clusters on the backend

    src/src/volumedriver/SCO.{h,cpp}, ClusterLocation.{h,cpp} and
    ClusterLocationAndHash.h: the name of a storage container object (SCO), the
    location of a cluster inside one, their textual and stream formats, and the
    ordering that keys the maps of the code.  A [std::string] is a list of
    characters; reading one at its size gives NUL. *)

From Stdlib Require Export Ascii.
From S2P Require Import Prelude.

Abbreviation str := (list ascii).
Abbreviation chars s := (String.list_ascii_of_string s).

(** ** Characters and hexadecimal text *)
Module Hex.

Definition code (c : ascii) : Z := Z.of_N (N_of_ascii c).
Definition NUL : ascii := ascii_of_N 0.
Definition char_at (s : str) (i : nat) : ascii := nth i s NUL.

Definition between (a b x : Z) : bool := (a <=? x) && (x <=? b).

(** [std::isxdigit] *)
Definition isxdigit (c : ascii) : bool :=
  between 48 57 (code c) || between 97 102 (code c) || between 65 70 (code c).

(** The [switch] of [SCO::gethexnum]. *)
Definition hexval (c : ascii) : option Z :=
  if between 48 57 (code c) then Some (code c - 48)
  else if between 97 102 (code c) then Some (code c - 97 + 0xa)
  else if between 65 70 (code c) then Some (code c - 65 + 0xa)
  else None.

(** Digits printed under [std::hex]. *)
Definition hexdigit (d : Z) : ascii :=
  ascii_of_N (Z.to_N (if d <? 10 then 48 + d else 87 + d)).

(** [os << std::hex << n], without leading zeroes; sixteen digits hold every
    64-bit value. *)
Fixpoint to_hex (fuel : nat) (n : Z) : str :=
  match fuel with
  | O => []
  | S f => if n <? 16 then [hexdigit n] else to_hex f (n / 16) ++ [hexdigit (n mod 16)]
  end.

(** [os << std::setfill('0') << std::setw(w) << n] *)
Definition hex_field (w : nat) (n : Z) : str :=
  let s := to_hex 16 n in replicate (w - length s) "0"%char ++ s.

(** Fixed width, most significant digit first. *)
Fixpoint hexk (k : nat) (n : Z) : str :=
  match k with
  | O => []
  | S k' => hexk k' (n / 16) ++ [hexdigit (n mod 16)]
  end.

(** Short-circuit conjunction of two tests that may throw. *)
Definition rand (a : res bool) (b : res bool) : res bool :=
  let? x := a in if x then b else Ok false.

Definition hasonlyhexdigits (s : str) (i1 i2 : nat) : res bool :=
  verify (i1 <=? i2)%nat in
  Ok (forallb (fun i => isxdigit (char_at s i)) (seq i1 (i2 - i1))).

Definition gethexnum (s : str) (i1 i2 : nat) : res Z :=
  verify (i1 <? i2)%nat in
  rfold (fun r i =>
    let r := u64 (Z.shiftl r 4) in
    match hexval (char_at s i) with
    | Some d => Ok (u64 (r + d))
    | None => Throw IOException
    end) 0 (seq i1 (i2 - i1)).

End Hex.

(** ** [SCO] *)
Module SCO.
Import Hex.

Record SCO : Type := mkSCO { version_ : Z; number_ : Z; cloneID_ : Z }.

#[global] Instance sco_eq_dec : EqDecision SCO.
Proof. solve_decision. Defined.

(** The explicit constructor: number, clone id, version. *)
Definition make (number cloneID version : Z) : SCO := mkSCO version number cloneID.

Definition wf (s : SCO) : Prop :=
  fits 8 (version_ s) /\ fits 32 (number_ s) /\ fits 8 (cloneID_ s).

#[global] Instance wf_dec s : Decision (wf s).
Proof. unfold wf. apply _. Defined.

Definition asBool (s : SCO) : bool :=
  negb (number_ s =? 0) || negb (version_ s =? 0) || negb (cloneID_ s =? 0).

Definition eqb (a b : SCO) : bool :=
  (version_ a =? version_ b) && (number_ a =? number_ b) && (cloneID_ a =? cloneID_ b).

Definition neqb (a b : SCO) : bool :=
  negb (version_ a =? version_ b) || negb (number_ a =? number_ b) || negb (cloneID_ a =? cloneID_ b).

Definition ltb (a b : SCO) : bool :=
  (number_ a <? number_ b) ||
  ((number_ a =? number_ b) && (version_ a <? version_ b)) ||
  ((number_ a =? number_ b) && (version_ a =? version_ b) && (cloneID_ a <? cloneID_ b)).

Definition gtb (a b : SCO) : bool :=
  (number_ a >? number_ b) ||
  ((number_ a =? number_ b) && (version_ a >? version_ b)) ||
  ((number_ a =? number_ b) && (version_ a =? version_ b) && (cloneID_ a >? cloneID_ b)).

Definition set_version (v : Z) (s : SCO) : SCO := mkSCO v (number_ s) (cloneID_ s).
Definition set_cloneID (c : Z) (s : SCO) : SCO := mkSCO (version_ s) (number_ s) c.
Definition set_number (n : Z) (s : SCO) : SCO := mkSCO (version_ s) n (cloneID_ s).

Definition incrementNumber (inc : Z) (s : SCO) : SCO := set_number (u32 (number_ s + inc)) s.
Definition incrementVersion (inc : Z) (s : SCO) : SCO := set_version (u8 (version_ s + inc)) s.
Definition incrementCloneID (inc : Z) (s : SCO) : SCO := set_cloneID (u8 (cloneID_ s + inc)) s.
Definition decrementNumber (dec : Z) (s : SCO) : SCO := set_number (u32 (number_ s - dec)) s.
Definition decrementVersion (dec : Z) (s : SCO) : SCO := set_version (u8 (version_ s - dec)) s.
Definition decrementCloneID (dec : Z) (s : SCO) : SCO := set_cloneID (u8 (cloneID_ s - dec)) s.

Definition isSCOString (s : str) : res bool :=
  rand (Ok (length s =? 14)%nat)
  (rand (hasonlyhexdigits s 0 2)
  (rand (Ok (bool_decide (char_at s 2 = "_"%char)))
  (rand (hasonlyhexdigits s 3 11)
  (rand (Ok (bool_decide (char_at s 11 = "_"%char)))
        (hasonlyhexdigits s 12 14))))).

Definition to_str (s : SCO) : str :=
  hex_field 2 (cloneID_ s) ++ ["_"%char] ++ hex_field 8 (number_ s) ++ ["_"%char] ++
  hex_field 2 (version_ s).

(** The constructor from a string; assignments truncate to the field. *)
Definition of_str (s : str) : res SCO :=
  let? b := isSCOString s in
  if negb b then Throw IOException else
  let? c := gethexnum s 0 2 in
  let? n := gethexnum s 3 11 in
  let? v := gethexnum s 12 14 in
  Ok (mkSCO (u8 v) (u32 n) (u8 c)).

(** Streams: a packed struct field by field, integers little-endian. *)
Definition to_bytes (s : SCO) : list Z :=
  le_store 1 (version_ s) ++ le_store 4 (number_ s) ++ le_store 1 (cloneID_ s).

(** A stream extraction consumes a prefix; a short stream throws. *)
Definition take_bytes (n : nat) (l : list Z) : res (Z * list Z) :=
  if (n <=? length l)%nat then Ok (le_load (take n l), drop n l) else Throw IOException.

Definition of_bytes (l : list Z) : res (SCO * list Z) :=
  let? (v, l) := take_bytes 1 l in
  let? (n, l) := take_bytes 4 l in
  let? (c, l) := take_bytes 1 l in
  Ok (mkSCO v n c, l).

End SCO.

(** ** [ClusterLocation] *)
Module ClusterLocation.
Import Hex.
Import SCO (SCO).

Record ClusterLocation : Type := mkCL { offset_ : Z; sco_ : SCO }.

#[global] Instance cl_eq_dec : EqDecision ClusterLocation.
Proof. solve_decision. Defined.

Definition make (number offset cloneID version : Z) : ClusterLocation :=
  mkCL offset (SCO.make number cloneID version).
Definition of_sco (sco : SCO) (offset : Z) : ClusterLocation := mkCL offset sco.
Definition null : ClusterLocation := mkCL 0 (SCO.make 0 0 0).

Definition wf (l : ClusterLocation) : Prop := fits 16 (offset_ l) /\ SCO.wf (sco_ l).

#[global] Instance wf_dec l : Decision (wf l).
Proof. unfold wf. apply _. Defined.

Definition number (l : ClusterLocation) : Z := SCO.number_ (sco_ l).
Definition version (l : ClusterLocation) : Z := SCO.version_ (sco_ l).
Definition cloneID (l : ClusterLocation) : Z := SCO.cloneID_ (sco_ l).
Definition isNull (l : ClusterLocation) : bool := number l =? 0.

Definition set_offset (o : Z) (l : ClusterLocation) : ClusterLocation := mkCL o (sco_ l).
Definition set_cloneID (c : Z) (l : ClusterLocation) : ClusterLocation :=
  mkCL (offset_ l) (SCO.set_cloneID c (sco_ l)).

Definition eqb (a b : ClusterLocation) : bool :=
  SCO.eqb (sco_ a) (sco_ b) && (offset_ a =? offset_ b).

Definition incrementOffset (inc : Z) (l : ClusterLocation) : ClusterLocation :=
  set_offset (u16 (offset_ l + inc)) l.
Definition on_sco (f : SCO -> SCO) (l : ClusterLocation) : ClusterLocation :=
  mkCL (offset_ l) (f (sco_ l)).
Definition incrementCloneID (inc : Z) := on_sco (SCO.incrementCloneID inc).
Definition decrementCloneID (dec : Z) := on_sco (SCO.decrementCloneID dec).
Definition incrementVersion (inc : Z) := on_sco (SCO.incrementVersion inc).
Definition decrementVersion (dec : Z) := on_sco (SCO.decrementVersion dec).
Definition incrementNumber (inc : Z) := on_sco (SCO.incrementNumber inc).
Definition decrementNumber (dec : Z) := on_sco (SCO.decrementNumber dec).

Definition isClusterLocationString (s : str) (test_sco_string : bool) : res bool :=
  if negb (length s =? 19)%nat then Ok false else
  rand (if test_sco_string then SCO.isSCOString (take 14 s) else Ok true)
  (if bool_decide (char_at s 14 = ":"%char) then hasonlyhexdigits s 15 19 else Ok false).

Definition to_str (l : ClusterLocation) : str :=
  SCO.to_str (sco_ l) ++ [":"%char] ++ hex_field 4 (offset_ l).

Definition of_str (s : str) : res ClusterLocation :=
  let? sco := SCO.of_str (take 14 s) in
  let? b := isClusterLocationString s false in
  if negb b then Throw IOException else
  let? o := gethexnum s 15 19 in
  Ok (mkCL (u16 o) sco).

Definition to_bytes (l : ClusterLocation) : list Z :=
  le_store 2 (offset_ l) ++ SCO.to_bytes (sco_ l).

Definition of_bytes (l : list Z) : res (ClusterLocation * list Z) :=
  let? (o, l) := SCO.take_bytes 2 l in
  let? (s, l) := SCO.of_bytes l in
  Ok (mkCL o s, l).

End ClusterLocation.

(** ** [ClusterLocationAndHash] (built with ENABLE_MD5_HASH, the default) *)
Module CLH.
Import ClusterLocation (ClusterLocation).

(** A [youtils::Weed] is a 16-byte MD5 digest. *)
Definition Weed := Z.

Record ClusterLocationAndHash : Type :=
  mkCLH { clusterLocation : ClusterLocation; weed_ : Weed }.

#[global] Instance clh_eq_dec : EqDecision ClusterLocationAndHash.
Proof. unfold Weed in *. intros [] []. solve_decision. Defined.

Definition wf (l : ClusterLocationAndHash) : Prop :=
  ClusterLocation.wf (clusterLocation l) /\ fits 128 (weed_ l).

#[global] Instance wf_dec l : Decision (wf l).
Proof. unfold wf. apply _. Defined.

Definition use_hash : bool := true.

Definition eqb (a b : ClusterLocationAndHash) : bool :=
  ClusterLocation.eqb (clusterLocation a) (clusterLocation b) && (weed_ a =? weed_ b).

Definition set_cloneID (c : Z) (l : ClusterLocationAndHash) : ClusterLocationAndHash :=
  mkCLH (ClusterLocation.set_cloneID c (clusterLocation l)) (weed_ l).

(** The location of a discarded cluster: the null location with the digest of
    a zeroed cluster.  The digest function is OpenSSL's, so its value on the
    zeroed cluster is a parameter of whatever uses this. *)
Definition discarded_location_and_hash (zero_weed : Weed) : ClusterLocationAndHash :=
  mkCLH (ClusterLocation.make 0 0 0 0) zero_weed.

Definition to_bytes (l : ClusterLocationAndHash) : list Z :=
  ClusterLocation.to_bytes (clusterLocation l) ++ le_store 16 (weed_ l).

End CLH.

(** ** Facts on the textual format *)
Module AddressingFacts.
Import Hex.

Lemma hexval_hexdigit d : 0 <= d < 16 ->
  hexval (hexdigit d) = Some d /\ isxdigit (hexdigit d) = true.
Proof.
  intros Hd. replace d with (Z.of_nat (Z.to_nat d)) by lia.
  assert (Hn : (Z.to_nat d < 16)%nat) by lia. revert Hn. generalize (Z.to_nat d). clear.
  intros n Hn. do 16 (destruct n as [|n]; [by vm_compute|]). lia.
Qed.

Lemma length_hexk k n : length (hexk k n) = k.
Proof. revert n. induction k as [|k IH]; intros n; cbn; [done|].
  rewrite length_app, IH. cbn. lia. Qed.

Lemma hexk_0 k : hexk k 0 = replicate k "0"%char.
Proof. induction k as [|k IH]; cbn [hexk]; [done|].
  change (0 / 16) with 0. by rewrite IH, replicate_S_end. Qed.

Lemma to_hex_hexk fuel k n : (1 <= k <= fuel)%nat -> 0 <= n < 16 ^ Z.of_nat k ->
  (length (to_hex fuel n) <= k)%nat /\
  replicate (k - length (to_hex fuel n)) "0"%char ++ to_hex fuel n = hexk k n.
Proof.
  revert fuel n. induction k as [|k IH]; intros fuel n Hk Hn; [lia|].
  destruct fuel as [|fuel]; [lia|]. cbn [to_hex hexk].
  destruct (Z.ltb_spec n 16) as [Hlt|Hge].
  - rewrite Z.div_small, Z.mod_small, hexk_0 by lia. cbn [length].
    replace (S k - 1)%nat with k by lia. split; [lia|done].
  - assert (Hq : 0 <= n / 16 < 16 ^ Z.of_nat k).
    { rewrite Nat2Z.inj_succ, Z.pow_succ_r in Hn by lia. split; [apply Z.div_pos; lia|].
      apply Z.div_lt_upper_bound; lia. }
    assert (1 <= k)%nat.
    { destruct k; [cbn in Hn; lia|lia]. }
    destruct (IH fuel (n / 16) ltac:(lia) Hq) as [Hl He].
    rewrite length_app. cbn [length]. split; [lia|].
    replace (S k - (length (to_hex fuel (n / 16)) + 1))%nat
      with (k - length (to_hex fuel (n / 16)))%nat by lia.
    by rewrite app_assoc, He.
Qed.

Lemma hex_field_hexk k n : (1 <= k <= 16)%nat -> 0 <= n < 16 ^ Z.of_nat k -> hex_field k n = hexk k n.
Proof. intros. by apply (to_hex_hexk 16 k n). Qed.

Lemma hexk_isxdigit k n : 0 <= n -> Forall (fun c => isxdigit c = true) (hexk k n).
Proof.
  revert n. induction k as [|k IH]; intros n Hn; cbn [hexk]; [constructor|].
  apply Forall_app; split; [apply IH, Z.div_pos; lia|].
  apply Forall_singleton, hexval_hexdigit, Z.mod_pos_bound. lia.
Qed.

(** Reading a slice of a string character by character. *)
Definition hex_fold (r : Z) (c : ascii) : res Z :=
  let r := u64 (Z.shiftl r 4) in
  match hexval c with Some d => Ok (u64 (r + d)) | None => Throw IOException end.

Lemma slice_seq (s : str) i n : (i + n <= length s)%nat ->
  char_at s <$> seq i n = take n (drop i s).
Proof.
  revert i. induction n as [|n IH]; intros i Hl; [done|]. cbn [seq fmap list_fmap].
  fold (fmap (M:=list) (char_at s)). rewrite IH by lia.
  destruct (lookup_lt_is_Some_2 s i ltac:(lia)) as [c Hc].
  rewrite (drop_S s c i) by done. cbn [take]. f_equal.
  unfold char_at. by apply nth_lookup_Some.
Qed.

Lemma rfold_map {A B S} (f : S -> B -> res S) (g : A -> B) s l :
  rfold (fun s a => f s (g a)) s l = rfold f s (g <$> l).
Proof. revert s. induction l as [|a l IH]; intros s; cbn; [done|].
  destruct (f s (g a)); cbn; auto. Qed.

Lemma gethexnum_slice s i1 i2 : (i1 < i2)%nat -> (i2 <= length s)%nat ->
  gethexnum s i1 i2 = rfold hex_fold 0 (take (i2 - i1) (drop i1 s)).
Proof.
  intros H1 H2. unfold gethexnum. rewrite (proj2 (Nat.ltb_lt i1 i2)) by done.
  rewrite <- slice_seq by lia. apply (rfold_map hex_fold (char_at s)).
Qed.

Lemma hasonly_slice s i1 i2 : (i1 <= i2)%nat -> (i2 <= length s)%nat ->
  hasonlyhexdigits s i1 i2 = Ok (forallb isxdigit (take (i2 - i1) (drop i1 s))).
Proof.
  intros H1 H2. unfold hasonlyhexdigits. rewrite (proj2 (Nat.leb_le i1 i2)) by done.
  rewrite <- slice_seq by lia. f_equal. generalize (seq i1 (i2 - i1)).
  intros l. induction l as [|i l IH]; cbn; congruence.
Qed.

Lemma fold_hexk k n r : (k <= 15)%nat -> 0 <= n < 16 ^ Z.of_nat k -> 0 <= r ->
  r * 16 ^ Z.of_nat k + n < 2 ^ 64 ->
  rfold hex_fold r (hexk k n) = Ok (r * 16 ^ Z.of_nat k + n).
Proof.
  revert n r. induction k as [|k IH]; intros n r Hk Hn Hr Hb; cbn [hexk].
  - cbn in *. f_equal. lia.
  - rewrite Nat2Z.inj_succ, Z.pow_succ_r in * by lia.
    assert (Hq : 0 <= n / 16 < 16 ^ Z.of_nat k)
      by (split; [apply Z.div_pos; lia | apply Z.div_lt_upper_bound; lia]).
    pose proof (Z.mod_pos_bound n 16 ltac:(lia)) as Hm.
    pose proof (Z.div_mod n 16 ltac:(lia)) as Hdm.
    rewrite rfold_app, IH by (lia || nia). cbn [rbind rfold]. unfold hex_fold.
    destruct (hexval_hexdigit (n mod 16) Hm) as [-> _]. cbn [rbind].
    rewrite Z.shiftl_mul_pow2 by lia. change (2 ^ 4) with 16.
    rewrite (wrap_id 64 (_ * 16)) by (unfold fits; nia).
    rewrite wrap_id by (unfold fits; nia). f_equal. nia.
Qed.

Lemma forallb_hexk k n : 0 <= n -> forallb isxdigit (hexk k n) = true.
Proof. intros Hn. apply List.forallb_forall.
  by apply List.Forall_forall, hexk_isxdigit. Qed.

Lemma field_fits w k n : fits w n -> 4 * Z.of_nat k = w -> 0 <= n < 16 ^ Z.of_nat k.
Proof. unfold fits. intros Hn <-. by rewrite Z.pow_mul_r in Hn by lia. Qed.

(** The three fields of a SCO name, located. *)
Lemma sco_str_fields s : SCO.wf s ->
  SCO.to_str s = hexk 2 (SCO.cloneID_ s) ++ "_"%char :: hexk 8 (SCO.number_ s) ++
                 "_"%char :: hexk 2 (SCO.version_ s).
Proof.
  intros (Hv & Hn & Hc). unfold SCO.to_str.
  by rewrite !hex_field_hexk by (lia || by eapply field_fits).
Qed.

Lemma length_sco_str s : SCO.wf s -> length (SCO.to_str s) = 14%nat.
Proof. intros. rewrite sco_str_fields by done.
  rewrite ?length_app, ?length_cons, ?length_app, ?length_cons, !length_hexk. done. Qed.

(** Field lookups in a SCO name with an arbitrary tail. *)
Lemma sco_str_slices s (t : str) : SCO.wf s ->
  take 2 (drop 0 (SCO.to_str s ++ t)) = hexk 2 (SCO.cloneID_ s) /\
  take 8 (drop 3 (SCO.to_str s ++ t)) = hexk 8 (SCO.number_ s) /\
  take 2 (drop 12 (SCO.to_str s ++ t)) = hexk 2 (SCO.version_ s) /\
  char_at (SCO.to_str s ++ t) 2 = "_"%char /\ char_at (SCO.to_str s ++ t) 11 = "_"%char.
Proof.
  intros Hs. rewrite sco_str_fields by done. repeat split; reflexivity.
Qed.

Lemma is_sco_string_str s : SCO.wf s -> SCO.isSCOString (SCO.to_str s) = Ok true.
Proof.
  intros Hs. destruct (sco_str_slices s [] Hs) as (E1 & E2 & E3 & E4 & E5).
  rewrite app_nil_r in *. pose proof (length_sco_str s Hs) as HL.
  destruct Hs as (Hv & Hn & Hc). unfold SCO.isSCOString, rand.
  rewrite !hasonly_slice by lia. rewrite HL. cbn [Nat.eqb Nat.sub rbind].
  rewrite E1, E2, E3, E4, E5, !forallb_hexk by (unfold fits in *; lia).
  cbn [rbind]. by rewrite bool_decide_true.
Qed.

Lemma sco_of_to_str s : SCO.wf s -> SCO.of_str (SCO.to_str s) = Ok s.
Proof.
  intros Hs. destruct (sco_str_slices s [] Hs) as (E1 & E2 & E3 & _).
  rewrite app_nil_r in *. pose proof (length_sco_str s Hs) as HL.
  unfold SCO.of_str. rewrite is_sco_string_str by done. destruct Hs as (Hv & Hn & Hc).
  cbn [rbind negb]. rewrite !gethexnum_slice by lia. cbn [Nat.sub]. rewrite E1, E2, E3.
  rewrite !fold_hexk by (try lia; first [by eapply field_fits | unfold fits in *; lia]).
  cbn [rbind]. rewrite !Z.mul_0_l, !Z.add_0_l, !wrap_id by done. by destruct s.
Qed.

Lemma cl_of_to_str l : ClusterLocation.wf l ->
  ClusterLocation.isClusterLocationString (ClusterLocation.to_str l) true = Ok true /\
  ClusterLocation.of_str (ClusterLocation.to_str l) = Ok l.
Proof.
  intros [Ho Hs]. unfold ClusterLocation.of_str, ClusterLocation.isClusterLocationString.
  assert (E : ClusterLocation.to_str l =
              SCO.to_str (ClusterLocation.sco_ l) ++ ":"%char :: hexk 4 (ClusterLocation.offset_ l)).
  { unfold ClusterLocation.to_str. by rewrite hex_field_hexk by (lia || by eapply field_fits). }
  rewrite E. pose proof (length_sco_str _ Hs) as HL.
  rewrite length_app, length_cons, length_hexk, HL. cbn [Nat.add Nat.eqb negb].
  rewrite take_app_length', sco_of_to_str, is_sco_string_str by done.
  unfold rand. cbn [rbind].
  assert (char_at (SCO.to_str (ClusterLocation.sco_ l) ++ ":"%char :: hexk 4 (ClusterLocation.offset_ l)) 14
          = ":"%char) as ->.
  { unfold char_at. by rewrite app_nth2, HL by lia. }
  rewrite bool_decide_true by done.
  rewrite hasonly_slice, gethexnum_slice
    by (rewrite ?length_app, ?length_cons, ?length_hexk, ?HL; lia).
  assert (take (19 - 15) (drop 15 (SCO.to_str (ClusterLocation.sco_ l) ++
            ":"%char :: hexk 4 (ClusterLocation.offset_ l))) = hexk 4 (ClusterLocation.offset_ l)) as ->.
  { rewrite drop_app_ge, HL by lia. reflexivity. }
  rewrite forallb_hexk by (unfold fits in Ho; lia). split; [done|]. cbn [rbind negb].
  rewrite fold_hexk by (try lia; first [by eapply field_fits | unfold fits in *; lia]).
  cbn [rbind]. rewrite Z.mul_0_l, Z.add_0_l, wrap_id by done. by destruct l.
Qed.

(** ** From text to a SCO *)
Definition lower (c : ascii) : ascii :=
  if between 65 70 (code c) then ascii_of_N (Z.to_N (code c + 32)) else c.

Lemma isxdigit_hexval c : isxdigit c = true ->
  exists d, hexval c = Some d /\ 0 <= d < 16 /\ hexdigit d = lower c.
Proof.
  assert (forall c, (if isxdigit c then
     match hexval c with
     | Some d => (0 <=? d) && (d <? 16) && bool_decide (hexdigit d = lower c)
     | None => false end else true) = true) as H.
  { clear. intros [[] [] [] [] [] [] [] []]; vm_compute; reflexivity. }
  intros Hc. specialize (H c). rewrite Hc in H. destruct (hexval c) as [d|]; [|done].
  apply andb_prop in H as [H H3]. apply andb_prop in H as [H1 H2].
  exists d. repeat split; [lia|lia|]. by apply bool_decide_eq_true in H3.
Qed.

Lemma fold_hex_digits (l : str) : forallb isxdigit l = true -> (length l <= 15)%nat ->
  exists v, rfold hex_fold 0 l = Ok v /\ 0 <= v < 16 ^ Z.of_nat (length l) /\
            hexk (length l) v = lower <$> l.
Proof.
  induction l as [|c l IH] using rev_ind; intros Hx Hl.
  - exists 0. cbn. split; [done|]. split; [lia|done].
  - rewrite forallb_app in Hx. apply andb_prop in Hx as [Hx Hc]. cbn in Hc.
    rewrite andb_true_r in Hc. rewrite length_app in *. cbn [length] in *.
    destruct (IH Hx ltac:(lia)) as (v & Hv & Hb & Hk).
    destruct (isxdigit_hexval c Hc) as (d & Hd & Hdr & Hdl).
    assert (16 ^ Z.of_nat (length l) <= 16 ^ 15) by (apply Z.pow_le_mono_r; lia).
    exists (v * 16 + d). rewrite rfold_app, Hv. cbn [rbind rfold]. unfold hex_fold. rewrite Hd. cbn [rbind].
    rewrite Z.shiftl_mul_pow2 by lia. change (2 ^ 4) with 16. change (16 ^ 15) with (2 ^ 60) in *.
    rewrite (wrap_id 64 (v * 16)) by (unfold fits; lia).
    rewrite wrap_id by (unfold fits; lia). split; [done|].
    rewrite Nat.add_1_r, Nat2Z.inj_succ, Z.pow_succ_r by lia. split; [lia|].
    cbn [hexk]. rewrite fmap_app. cbn [fmap list_fmap].
    replace ((v * 16 + d) / 16) with v by (apply (Z.div_unique_pos _ _ _ d); lia).
    replace ((v * 16 + d) mod 16) with d by (apply (Z.mod_unique_pos _ _ v); lia).
    by rewrite Hk, Hdl.
Qed.

Lemma rand_true a b : rand a b = Ok true <-> a = Ok true /\ b = Ok true.
Proof. unfold rand. destruct a as [[]|]; cbn; intuition congruence. Qed.

(** [isSCOString] never throws and is exact. *)
Lemma is_sco_string_total s : exists b, SCO.isSCOString s = Ok b.
Proof.
  unfold SCO.isSCOString, rand, hasonlyhexdigits. cbn [Nat.leb].
  repeat (cbn [rbind]; case_match); eauto.
Qed.

Lemma sco_string_shape s : SCO.isSCOString s = Ok true ->
  exists c n v, s = c ++ "_"%char :: n ++ "_"%char :: v /\
    length c = 2%nat /\ length n = 8%nat /\ length v = 2%nat /\
    forallb isxdigit c = true /\ forallb isxdigit n = true /\ forallb isxdigit v = true.
Proof.
  unfold SCO.isSCOString. rewrite !rand_true. intros (HL & H1 & H2 & H3 & H4 & H5).
  injection HL as HL%Nat.eqb_eq. rewrite hasonly_slice in H1, H3, H5 by lia.
  injection H1 as H1. injection H3 as H3. injection H5 as H5.
  injection H2 as H2%bool_decide_eq_true. injection H4 as H4%bool_decide_eq_true.
  do 14 (destruct s as [|? s]; [discriminate HL|]). destruct s; [|discriminate HL].
  cbn in H2, H4. subst. cbn [Nat.sub take drop] in H1, H3, H5.
  by eexists [_; _], [_; _; _; _; _; _; _; _], [_; _].
Qed.

Lemma shape_slices (c n v : str) :
  length c = 2%nat -> length n = 8%nat -> length v = 2%nat ->
  take (2 - 0) (drop 0 (c ++ "_"%char :: n ++ "_"%char :: v)) = c /\
  take (11 - 3) (drop 3 (c ++ "_"%char :: n ++ "_"%char :: v)) = n /\
  take (14 - 12) (drop 12 (c ++ "_"%char :: n ++ "_"%char :: v)) = v.
Proof.
  intros Lc Ln Lv. rewrite drop_0, !(drop_app_ge c) by lia. rewrite Lc.
  change (drop (3 - 2) ("_"%char :: n ++ "_"%char :: v)) with (n ++ "_"%char :: v).
  change (drop (12 - 2) ("_"%char :: n ++ "_"%char :: v)) with (drop 9 (n ++ "_"%char :: v)).
  rewrite (drop_app_ge n), Ln by lia. change (drop (9 - 8) ("_"%char :: v)) with v.
  by rewrite !take_app_length', take_ge by lia.
Qed.

Lemma sco_of_str_inv s : SCO.isSCOString s = Ok true ->
  exists x, SCO.of_str s = Ok x /\ SCO.wf x /\ SCO.to_str x = lower <$> s.
Proof.
  intros Hs. destruct (sco_string_shape s Hs) as (c & n & v & -> & Lc & Ln & Lv & Xc & Xn & Xv).
  unfold SCO.of_str. rewrite Hs. cbn [rbind negb].
  rewrite !gethexnum_slice by (rewrite ?length_app, ?length_cons, ?length_app, ?length_cons; lia).
  destruct (shape_slices c n v Lc Ln Lv) as (-> & -> & ->).
  destruct (fold_hex_digits c Xc ltac:(lia)) as (zc & -> & Bc & Kc).
  destruct (fold_hex_digits n Xn ltac:(lia)) as (zn & -> & Bn & Kn).
  destruct (fold_hex_digits v Xv ltac:(lia)) as (zv & -> & Bv & Kv). cbn [rbind].
  rewrite Lc, Ln, Lv in *. 
  assert (fits 8 zc) by (unfold fits; cbn in Bc; lia).
  assert (fits 32 zn) by (unfold fits; cbn in Bn; lia).
  assert (fits 8 zv) by (unfold fits; cbn in Bv; lia).
  rewrite !wrap_id by done. eexists. split; [done|].
  assert (W : SCO.wf (SCO.mkSCO zv zn zc)) by (by split_and!). split; [done|].
  rewrite sco_str_fields by done. cbn [SCO.cloneID_ SCO.number_ SCO.version_].
  by rewrite Kc, Kn, Kv, !fmap_app, !fmap_cons, fmap_app.
Qed.

Lemma cl_bytes_roundtrip l t : ClusterLocation.wf l ->
  ClusterLocation.of_bytes (ClusterLocation.to_bytes l ++ t) = Ok (l, t).
Proof.
  intros (Ho & Hv & Hn & Hc). destruct l as [o [v n c]].
  cbn [ClusterLocation.offset_ ClusterLocation.sco_ SCO.version_ SCO.number_ SCO.cloneID_] in *.
  unfold ClusterLocation.of_bytes, ClusterLocation.to_bytes, SCO.of_bytes, SCO.to_bytes, SCO.take_bytes.
  cbn [ClusterLocation.offset_ ClusterLocation.sco_ SCO.version_ SCO.number_ SCO.cloneID_].
  rewrite <- !app_assoc.
  assert (G : forall k z (r : list Z), fits (8 * Z.of_nat k) z ->
    (if (k <=? length (le_store k z ++ r))%nat
     then Ok (le_load (take k (le_store k z ++ r)), drop k (le_store k z ++ r))
     else Throw IOException) = Ok (z, r)).
  { intros k z r Hz. rewrite length_app, length_le_store.
    rewrite (proj2 (Nat.leb_le _ _)) by lia.
    by rewrite take_app_length', drop_app_length', le_load_store by (done || by rewrite length_le_store). }
  rewrite (G 2%nat) by done. cbn [rbind]. rewrite (G 1%nat) by done. cbn [rbind].
  rewrite (G 4%nat) by done. cbn [rbind]. by rewrite (G 1%nat) by done.
Qed.

Lemma sco_eqb_eq a b : SCO.eqb a b = true <-> a = b.
Proof.
  destruct a as [v n c], b as [v' n' c']. unfold SCO.eqb. cbn.
  rewrite !andb_true_iff, !Z.eqb_eq. split; [intros [[] ?]; congruence | by intros [= -> -> ->]].
Qed.

Lemma cl_eqb_eq a b : ClusterLocation.eqb a b = true <-> a = b.
Proof.
  destruct a as [o s], b as [o' s']. unfold ClusterLocation.eqb. cbn.
  rewrite andb_true_iff, sco_eqb_eq, Z.eqb_eq. split; [intros []; congruence | by intros [= -> ->]].
Qed.

Lemma clh_eqb_eq a b : CLH.eqb a b = true <-> a = b.
Proof.
  destruct a as [o s], b as [o' s']. unfold CLH.eqb. cbn.
  rewrite andb_true_iff, cl_eqb_eq, Z.eqb_eq. split; [intros []; congruence | by intros [= -> ->]].
Qed.

Lemma length_cl_bytes l : length (ClusterLocation.to_bytes l) = 8%nat.
Proof. unfold ClusterLocation.to_bytes, SCO.to_bytes. by rewrite !length_app, !length_le_store. Qed.

(** a SCO name printed by [str()] is accepted by [isSCOString] and parsed
    back to the same SCO; a cluster location likewise. *)
Theorem location_text_roundtrip (l : ClusterLocation.ClusterLocation) :
  ClusterLocation.wf l ->
  SCO.isSCOString (SCO.to_str (ClusterLocation.sco_ l)) = Ok true /\
  SCO.of_str (SCO.to_str (ClusterLocation.sco_ l)) = Ok (ClusterLocation.sco_ l) /\
  ClusterLocation.isClusterLocationString (ClusterLocation.to_str l) true = Ok true /\
  ClusterLocation.of_str (ClusterLocation.to_str l) = Ok l.
Proof.
  intros Hl. pose proof (proj2 Hl) as Hs.
  split; [by apply is_sco_string_str|]. split; [by apply sco_of_to_str|]. by apply cl_of_to_str.
Qed.

Lemma location_text_roundtrip_witness :
  ClusterLocation.of_str (chars "0a_00000fff_01:0010") = Ok (ClusterLocation.make 4095 16 10 1).
Proof.
  destruct (location_text_roundtrip (ClusterLocation.make 4095 16 10 1) ltac:(by_decide))
    as (_ & _ & _ & H).
  exact H.
Defined.

(** the constructor from a string succeeds exactly on the strings
    [isSCOString] accepts, throws IOException on all others, and what it builds
    fits its fields and prints back as the string in lower case. *)
Theorem sco_of_str_exact (s : str) :
  match SCO.of_str s with
  | Ok x => SCO.isSCOString s = Ok true /\ SCO.wf x /\ SCO.to_str x = lower <$> s
  | Throw e => SCO.isSCOString s = Ok false /\ e = IOException
  end.
Proof.
  destruct (is_sco_string_total s) as [[] Hb].
  - destruct (sco_of_str_inv s Hb) as (x & -> & Hw & Ht). done.
  - unfold SCO.of_str. by rewrite Hb.
Qed.

(** A location streamed to a peer is read back as it was written, and the
    rest of the stream is untouched. *)
Theorem location_stream_roundtrip (l : ClusterLocation.ClusterLocation) (rest : list Z) :
  ClusterLocation.wf l ->
  ClusterLocation.of_bytes (ClusterLocation.to_bytes l ++ rest) = Ok (l, rest) /\
  length (ClusterLocation.to_bytes l) = 8%nat.
Proof. intros. split; [by apply cl_bytes_roundtrip | apply length_cl_bytes]. Qed.

Lemma location_stream_roundtrip_witness :
  ClusterLocation.of_bytes (ClusterLocation.to_bytes (ClusterLocation.make 4095 16 10 1) ++ [7])
  = Ok (ClusterLocation.make 4095 16 10 1, [7]).
Proof. apply (location_stream_roundtrip (ClusterLocation.make 4095 16 10 1) [7]). by_decide. Defined.

(** [SCO::operator<] is a strict total order agreeing with [operator==], and
    [operator>] is its converse: the SCO-keyed maps of the code are well formed. *)
Theorem sco_order_total (a b c : SCO.SCO) :
  SCO.ltb a a = false /\
  (SCO.ltb a b = true -> SCO.ltb b c = true -> SCO.ltb a c = true) /\
  (SCO.ltb a b = false /\ SCO.ltb b a = false <-> SCO.eqb a b = true) /\
  SCO.gtb a b = SCO.ltb b a /\ SCO.neqb a b = negb (SCO.eqb a b).
Proof.
  destruct a as [v n k], b as [v' n' k'], c as [v'' n'' k''].
  unfold SCO.ltb, SCO.gtb, SCO.eqb, SCO.neqb. cbn [SCO.version_ SCO.number_ SCO.cloneID_].
  rewrite !Z.gtb_ltb. split_and!; try lia.
Qed.

End AddressingFacts.
