(* ===== verification/TLogEntry.v ===== *)
(** * Entries of a transaction log

    src/src/volumedriver/Entry.{h,cpp}: the 32-byte record of a TLog, its four
    kinds and their encoding; src/src/volumedriver/EntryProcessor.h: the
    dispatch over the kinds and the processors that check a TLog while reading
    it. *)

From S2P Require Import Prelude CheckSum Addressing.

Module Entry.
Import CheckSum ClusterLocation CLH.

Inductive Type_ : Type := SyncTC | TLogCRC | SCOCRC | LOC.

#[global] Instance type_eq_dec : EqDecision Type_.
Proof. solve_decision. Defined.

(** The enumerators' values. *)
Definition type_value (t : Type_) : Z :=
  match t with SyncTC => 0 | TLogCRC => 1 | SCOCRC => 2 | LOC => 3 end.

Record Entry : Type := mkEntry { clusteraddress_ : Z; loc_and_hash_ : ClusterLocationAndHash }.

#[global] Instance entry_eq_dec : EqDecision Entry.
Proof. solve_decision. Defined.

Definition wf (e : Entry) : Prop := fits 64 (clusteraddress_ e) /\ CLH.wf (loc_and_hash_ e).

#[global] Instance wf_dec e : Decision (wf e).
Proof. unfold wf. apply _. Defined.

Definition max_valid_cluster_address : Z := Z.shiftl 1 35 - 1.
Definition checksum_shift_ : Z := 32.
Definition checksum_mask_ : Z := Z.shiftl 1 checksum_shift_ - 1.

(** The constructors.  A default-constructed [Weed] is left uninitialised, so
    the entries that carry no location keep the digest bytes of the memory they
    are built in: [w]. *)
Definition Entry_sync (w : Weed) : Entry := mkEntry 0 (mkCLH ClusterLocation.null w).

Definition Entry_loc (ca : Z) (loc : ClusterLocationAndHash) : res Entry :=
  verify (negb (isNull (clusterLocation loc))) in
  throw_unless (ca <=? max_valid_cluster_address) in
  Ok (mkEntry ca loc).

Definition Entry_crc (checksum : CheckSum) (type : Type_) (w : Weed) : res Entry :=
  verify (bool_decide (type = TLogCRC) || bool_decide (type = SCOCRC)) in
  Ok (mkEntry (Z.lor (getValue checksum) (Z.shiftl (type_value type) checksum_shift_))
              (mkCLH ClusterLocation.null w)).

Definition clusterAddress (e : Entry) : res Z :=
  if negb (isNull (clusterLocation (loc_and_hash_ e)))
  then throw_unless (clusteraddress_ e <=? max_valid_cluster_address) in Ok (clusteraddress_ e)
  else Ok (clusteraddress_ e).

Definition clusterLocationAndHash (e : Entry) : ClusterLocationAndHash := loc_and_hash_ e.
Definition clusterLocation_ (e : Entry) : ClusterLocation := clusterLocation (loc_and_hash_ e).

Definition type (e : Entry) : res Type_ :=
  if negb (isNull (clusterLocation (loc_and_hash_ e))) then Ok LOC
  else
    let crc_type := Z.shiftr (clusteraddress_ e) checksum_shift_ in
    if crc_type =? type_value TLogCRC then Ok TLogCRC
    else if crc_type =? type_value SCOCRC then Ok SCOCRC
    else if clusteraddress_ e =? type_value SyncTC then Ok SyncTC
    else Throw InvalidEntryException.

(** MAKE_CHECKER: InvalidEntryException is caught, and nothing else is thrown. *)
Definition is_type (t : Type_) (e : Entry) : bool :=
  match type e with
  | Ok t' => bool_decide (t' = t)
  | Throw _ => false
  end.
Definition isLocation : Entry -> bool := is_type LOC.
Definition isTLogCRC : Entry -> bool := is_type TLogCRC.
Definition isSCOCRC : Entry -> bool := is_type SCOCRC.
Definition isSync : Entry -> bool := is_type SyncTC.

Definition getCheckSum (e : Entry) : value_type := Z.land (clusteraddress_ e) checksum_mask_.

Definition eqb (x y : Entry) : res bool :=
  let? a := clusterAddress x in
  let? b := clusterAddress y in
  if a =? b then Ok (ClusterLocation.eqb (clusterLocation_ x) (clusterLocation_ y)) else Ok false.

(** Memory image: a TLog file is a sequence of these. *)
Definition getDataSize : nat := 32.

Definition to_bytes (e : Entry) : list Z :=
  le_store 8 (clusteraddress_ e) ++ CLH.to_bytes (loc_and_hash_ e).

Definition of_bytes (l : list Z) : Entry :=
  let ca := le_load (take 8 l) in
  let o := le_load (take 2 (drop 8 l)) in
  let v := le_load (take 1 (drop 10 l)) in
  let n := le_load (take 4 (drop 11 l)) in
  let c := le_load (take 1 (drop 15 l)) in
  let w := le_load (take 16 (drop 16 l)) in
  mkEntry ca (mkCLH (mkCL o (SCO.mkSCO v n c)) w).

End Entry.

(** ** Processors *)
Module EntryProcessor.
Import CheckSum ClusterLocation CLH Entry.

(** [BasicDispatchProcessor::dispatch] over the four virtual callbacks. *)
Section Dispatch.
Context {S : Type}.
Variable processLoc : S -> Z -> ClusterLocationAndHash -> res S.
Variable processTLogCRC : S -> value_type -> res S.
Variable processSCOCRC : S -> value_type -> res S.
Variable processSync : S -> res S.

Definition dispatch (s : S) (e : Entry) : res S :=
  if isLocation e then
    let? ca := clusterAddress e in processLoc s ca (clusterLocationAndHash e)
  else if isTLogCRC e then processTLogCRC s (getCheckSum e)
  else if isSCOCRC e then processSCOCRC s (getCheckSum e)
  else if isSync e then processSync s
  else Throw IOException.

End Dispatch.

(** [CombinedProcessor]: the two processors see every entry, in this order. *)
Definition combined {S1 S2} (p1 : S1 -> Entry -> res S1) (p2 : S2 -> Entry -> res S2)
  (s : S1 * S2) (e : Entry) : res (S1 * S2) :=
  let? s1 := p1 (fst s) e in
  let? s2 := p2 (snd s) e in
  Ok (s1, s2).

(** [ClusterLocationProcessor]: remembers the last location. *)
Definition cl_processLoc (s : ClusterLocation) (a : Z) (l : ClusterLocationAndHash) : res ClusterLocation :=
  Ok (clusterLocation l).
Definition cl_processEntry : ClusterLocation -> Entry -> res ClusterLocation :=
  dispatch cl_processLoc (fun s _ => Ok s) (fun s _ => Ok s) Ok.

(** [CheckSCOCRCProcessor] *)
Record CheckSCOCRC : Type := mkCSC {
  current_clusterlocation_ : ClusterLocation;
  seen_final_sco_crc_ : bool }.

Definition csc_init : CheckSCOCRC := mkCSC ClusterLocation.null true.

Definition csc_processLoc (s : CheckSCOCRC) (a : Z) (l : ClusterLocationAndHash) : res CheckSCOCRC :=
  if SCO.neqb (sco_ (current_clusterlocation_ s)) (sco_ (clusterLocation l)) &&
     negb (isNull (current_clusterlocation_ s)) && negb (seen_final_sco_crc_ s)
  then Throw SCOSwitchWithoutSCOCRC
  else Ok (mkCSC (clusterLocation l) false).

Definition csc_processSCOCRC (s : CheckSCOCRC) (t : value_type) : res CheckSCOCRC :=
  if isNull (current_clusterlocation_ s) then Throw SCOCRCWithoutActiveSCO
  else Ok (mkCSC (current_clusterlocation_ s) true).

Definition csc_processEntry : CheckSCOCRC -> Entry -> res CheckSCOCRC :=
  dispatch csc_processLoc (fun s _ => Ok s) csc_processSCOCRC Ok.

(** [CheckTLogAndSCOCRCProcessor] *)
Record CheckTLogAndSCOCRC : Type := mkCTC {
  base_ : CheckSCOCRC;
  last_entry_was_tlog_crc_ : bool;
  checksum_ : CheckSum;
  num_entries_ : Z }.

Definition ctc_init : CheckTLogAndSCOCRC := mkCTC csc_init false CheckSum_default 0.

Definition with_base (s : CheckTLogAndSCOCRC) (b : CheckSCOCRC) : CheckTLogAndSCOCRC :=
  mkCTC b (last_entry_was_tlog_crc_ s) (checksum_ s) (num_entries_ s).

Definition ctc_processTLogCRC (s : CheckTLogAndSCOCRC) (t : value_type) : res CheckTLogAndSCOCRC :=
  if negb (t =? getValue (checksum_ s)) then Throw TLogWrongCRC else Ok s.

Definition ctc_dispatch : CheckTLogAndSCOCRC -> Entry -> res CheckTLogAndSCOCRC :=
  dispatch
    (fun s a l => let? b := csc_processLoc (base_ s) a l in Ok (with_base s b))
    ctc_processTLogCRC
    (fun s t => let? b := csc_processSCOCRC (base_ s) t in Ok (with_base s b))
    Ok.

(** [CheckSum::update] on the image of an entry.  Which CRC32C routine runs is
    the choice of the CPU and makes no difference, by the equivalence of CheckSum.v. *)
Definition update_entry (cs : CheckSum) (e : Entry) : CheckSum :=
  update Crc32cHw cs (to_bytes e).

Definition ctc_processEntry (s : CheckTLogAndSCOCRC) (e : Entry) : res CheckTLogAndSCOCRC :=
  let? s' := ctc_dispatch s e in
  let? t := type e in
  Ok (mkCTC (base_ s') (bool_decide (t = TLogCRC)) (update_entry (checksum_ s') e)
            (u64 (num_entries_ s' + 1))).

End EntryProcessor.

(** ** Facts *)
Module EntryFacts.
Import CheckSum ClusterLocation CLH Entry.

Lemma length_clh_bytes l : length (CLH.to_bytes l) = 24%nat.
Proof. unfold CLH.to_bytes. by rewrite length_app, AddressingFacts.length_cl_bytes, length_le_store. Qed.

Lemma length_to_bytes e : length (to_bytes e) = getDataSize.
Proof. unfold to_bytes. by rewrite length_app, length_le_store, length_clh_bytes. Qed.

Lemma to_bytes_bytes e : bytes (to_bytes e).
Proof. unfold to_bytes, CLH.to_bytes, ClusterLocation.to_bytes, SCO.to_bytes.
  rewrite !Forall_app. split_and!; apply le_store_bytes. Qed.

Lemma slice_le n z (a b : list Z) i :
  length a = i -> fits (8 * Z.of_nat n) z -> le_load (take n (drop i (a ++ le_store n z ++ b))) = z.
Proof. intros <- Hz. by rewrite drop_app_length, take_app_length', le_load_store
  by (done || by rewrite length_le_store). Qed.

Lemma of_to_bytes e t : wf e -> of_bytes (to_bytes e ++ t) = e.
Proof.
  destruct e as [ca [[o [v n c]] w]].
  intros (Hca & (Ho & Hv & Hn & Hc) & Hw).
  unfold to_bytes, CLH.to_bytes, ClusterLocation.to_bytes, SCO.to_bytes.
  cbn [clusteraddress_ loc_and_hash_ clusterLocation weed_ offset_ sco_ SCO.version_ SCO.number_ SCO.cloneID_] in *.
  rewrite <- !app_assoc. unfold of_bytes.
  set (A := le_store 8 ca). set (B := le_store 2 o). set (C := le_store 1 v).
  set (D := le_store 4 n). set (E := le_store 1 c). set (F := le_store 16 w).
  assert (LA : length A = 8%nat) by apply length_le_store.
  assert (LB : length B = 2%nat) by apply length_le_store.
  assert (LC : length C = 1%nat) by apply length_le_store.
  assert (LD : length D = 4%nat) by apply length_le_store.
  assert (LE : length E = 1%nat) by apply length_le_store.
  f_equal; [|f_equal; [f_equal; [|f_equal]|]].
  - exact (slice_le 8 ca [] _ 0 eq_refl Hca).
  - exact (slice_le 2 o A _ 8 LA Ho).
  - replace (A ++ B ++ C ++ D ++ E ++ F ++ t) with ((A ++ B) ++ C ++ D ++ E ++ F ++ t) by list_norm.
    apply (slice_le 1 v); [rewrite length_app; lia|done].
  - replace (A ++ B ++ C ++ D ++ E ++ F ++ t) with ((A ++ B ++ C) ++ D ++ E ++ F ++ t) by list_norm.
    apply (slice_le 4 n); [rewrite !length_app; lia|done].
  - replace (A ++ B ++ C ++ D ++ E ++ F ++ t) with ((A ++ B ++ C ++ D) ++ E ++ F ++ t) by list_norm.
    apply (slice_le 1 c); [rewrite !length_app; lia|done].
  - replace (A ++ B ++ C ++ D ++ E ++ F ++ t) with ((A ++ B ++ C ++ D ++ E) ++ F ++ t) by list_norm.
    apply (slice_le 16 w); [rewrite !length_app; lia|done].
Qed.

(** The encoding of a CRC entry's address. *)
Lemma crc_address v t : fits 32 v -> 0 <= t < 4 ->
  Z.shiftr (Z.lor v (Z.shiftl t 32)) 32 = t /\
  Z.land (Z.lor v (Z.shiftl t 32)) checksum_mask_ = v /\
  fits 64 (Z.lor v (Z.shiftl t 32)).
Proof.
  intros Hv Ht. rewrite lor_shiftl_lxor by (done || lia). split_and!.
  - rewrite Z.shiftr_lxor, Z.shiftr_shiftl_l, Z.shiftl_0_r by lia.
    replace (Z.shiftr v 32) with 0; [apply Z.lxor_0_l|].
    symmetry. rewrite Z.shiftr_div_pow2 by lia. by apply Z.div_small.
  - change checksum_mask_ with (Z.ones 32). rewrite CRC.land_lxor_distr.
    rewrite (proj1 (fits_iff_land 32 v ltac:(lia)) Hv).
    replace (Z.land (Z.shiftl t 32) (Z.ones 32)) with 0; [apply Z.lxor_0_r|].
    symmetry. rewrite Z.land_ones, Z.shiftl_mul_pow2 by lia. by apply Z.mod_mul.
  - apply lxor_fits; [lia|by apply (fits_mono 32)|].
    unfold fits. rewrite Z.shiftl_mul_pow2 by lia. lia.
Qed.

Lemma crc_entry cs t w : CheckSum.wf cs -> t = TLogCRC \/ t = SCOCRC ->
  exists e, Entry_crc cs t w = Ok e /\ type e = Ok t /\ getCheckSum e = getValue cs /\
            weed_ (loc_and_hash_ e) = w /\ (fits 128 w -> Entry.wf e).
Proof.
  intros Hc Ht. unfold Entry_crc. assert (bool_decide (t = TLogCRC) || bool_decide (t = SCOCRC) = true) as ->
    by (by destruct Ht as [-> | ->]).
  eexists. split; [done|].
  destruct (crc_address (getValue cs) (type_value t)) as (E1 & E2 & E3);
    [apply bnot32_fits | by destruct Ht as [-> | ->] |].
  unfold type, getCheckSum. cbn [loc_and_hash_ clusterLocation clusteraddress_ weed_].
  change (isNull ClusterLocation.null) with true. unfold checksum_shift_. cbn [negb].
  rewrite E1, E2.
  split_and!; [by destruct Ht as [-> | ->] | done | done |].
  intros Hw. repeat split; try apply E3; try apply Hw; try (vm_compute; congruence).
Qed.

Lemma loc_entry ca loc e : Entry_loc ca loc = Ok e ->
  e = mkEntry ca loc /\ isNull (clusterLocation loc) = false /\ ca <= max_valid_cluster_address /\
  type e = Ok LOC /\ clusterAddress e = Ok ca.
Proof.
  unfold Entry_loc. intros H. repeat split_match. inv_ok.
  apply negb_true_iff in Heqb.
  unfold type, clusterAddress. cbn [loc_and_hash_ clusteraddress_]. rewrite Heqb. cbn [negb].
  rewrite Heqb0. split_and!; try done. lia.
Qed.

Lemma is_type_true t e : is_type t e = true <-> type e = Ok t.
Proof. unfold is_type. destruct (type e) as [t'|].
  - rewrite bool_decide_eq_true. split; congruence.
  - split; congruence. Qed.

(** the 32-byte image of an entry determines it: what is read back from a
    TLog file is the entry that was written, whatever follows it. *)
Theorem entry_image_roundtrip (e : Entry) (rest : list Z) :
  wf e -> of_bytes (to_bytes e ++ rest) = e /\ length (to_bytes e) = getDataSize /\ bytes (to_bytes e).
Proof. intros. split; [by apply of_to_bytes|]. split; [apply length_to_bytes | apply to_bytes_bytes]. Qed.

Lemma entry_image_roundtrip_witness :
  of_bytes (to_bytes (mkEntry 77 (mkCLH (ClusterLocation.make 5 6 7 8) 9)) ++ [1; 2])
  = mkEntry 77 (mkCLH (ClusterLocation.make 5 6 7 8) 9).
Proof. apply entry_image_roundtrip. by_decide. Defined.

(** Each constructor of [Entry] yields an entry of its own kind carrying its
    payload, and the checks of the constructors are exact: a location entry is
    built iff the location is not null and the address is at most the maximum,
    a CRC entry iff its type is one of the two CRC types. *)
Theorem entry_kinds (ca : Z) (loc : ClusterLocationAndHash) (cs : CheckSum) (t : Type_) (w : Weed) :
  CheckSum.wf cs ->
  type (Entry_sync w) = Ok SyncTC /\
  (match Entry_loc ca loc with
   | Ok e => isNull (clusterLocation loc) = false /\ ca <= max_valid_cluster_address /\
             type e = Ok LOC /\ clusterAddress e = Ok ca /\ clusterLocationAndHash e = loc
   | Throw ThrowUnless => isNull (clusterLocation loc) = false /\ ca > max_valid_cluster_address
   | Throw x => x = VerifyFailed /\ isNull (clusterLocation loc) = true
   end) /\
  (match Entry_crc cs t w with
   | Ok e => type e = Ok t /\ getCheckSum e = getValue cs
   | Throw x => x = VerifyFailed /\ t <> TLogCRC /\ t <> SCOCRC
   end).
Proof.
  intros Hc. split; [done|]. split.
  - destruct (Entry_loc ca loc) as [e|x] eqn:E.
    + apply loc_entry in E as (-> & ? & ? & ? & ?). done.
    + unfold Entry_loc in E. destruct (isNull (clusterLocation loc)); cbn in E; [by simplify_eq|].
      destruct (Z.leb_spec ca max_valid_cluster_address); simplify_eq. split; [done|lia].
  - destruct t; try (destruct (crc_entry cs _ w Hc (or_introl eq_refl)) as (e & -> & ? & ? & _); done);
      try (destruct (crc_entry cs _ w Hc (or_intror eq_refl)) as (e & -> & ? & ? & _); done); done.
Qed.

Lemma entry_kinds_witness :
  type (Entry_sync 3) = Ok SyncTC /\ is_ok (Entry_loc 5 (mkCLH (ClusterLocation.make 1 2 0 0) 4)) = true.
Proof.
  split; [|reflexivity].
  apply (entry_kinds 5 (mkCLH (ClusterLocation.make 1 2 0 0) 4) CheckSum_default TLogCRC 3). by_decide.
Defined.

End EntryFacts.
