(* ===== verification/TLogIO.v ===== *)
(** * Reading and writing transaction logs

    src/src/volumedriver/TLogReaderInterface.{h,cpp} (the interface every TLog
    reader implements and the generic operations over it), OneFileTLogReader.cpp,
    TLogReader.cpp, BackwardTLogReader.cpp, CombinedTLogReader.h, and
    TLogWriter.{h,cpp}.

    A file is its list of bytes; the operating system reads and writes regular
    files completely.  [TLogReaderInterface] is the class of readers,
    [TLogReaderSpec] what a reader promises: it hands out the entries of [rest]
    one by one. *)

From S2P Require Import Prelude CheckSum Addressing TLogEntry.

(** ** The interface *)
Module ReaderInterface.
Import ClusterLocation CLH Entry EntryProcessor.

(** [budget] bounds the entries still to come; it is only fuel for the loops. *)
Class TLogReaderInterface (R : Type) : Type := {
  nextAny : R -> res (option Entry * R);
  budget : R -> nat }.

Class TLogReaderSpec (R : Type) `{TLogReaderInterface R} : Type := {
  reader_ok : R -> Prop;
  rest : R -> list Entry;
  rest_budget : forall r, reader_ok r -> (length (rest r) <= budget r)%nat;
  nextAny_spec : forall r, reader_ok r ->
    exists r', nextAny r = Ok (head (rest r), r') /\ reader_ok r' /\ rest r' = tail (rest r) }.

Section Generic.
Context {R : Type} `{TLogReaderInterface R}.

Fixpoint nextLocation_ (fuel : nat) (r : R) : res (option Entry * R) :=
  match fuel with
  | O => Throw OutOfFuel
  | S f =>
      let? (oe, r') := nextAny r in
      match oe with
      | Some e => if negb (isLocation e) then nextLocation_ f r' else Ok (Some e, r')
      | None => Ok (None, r')
      end
  end.

Definition nextLocation (r : R) : res (option Entry * R) := nextLocation_ (S (budget r)) r.

Definition nextClusterLocation (r : R) : res (ClusterLocation * R) :=
  let? (oe, r') := nextLocation r in
  Ok (match oe with Some e => clusterLocation_ e | None => ClusterLocation.null end, r').

(** [while ((e = next())) body]: a loop over a reader whose body may throw. *)
Section Loop.
Context {S : Type}.
Variable next : R -> res (option Entry * R).
Variable body : S -> Entry -> res S.

Fixpoint loop_ (fuel : nat) (s : S) (r : R) : res (S * R) :=
  match fuel with
  | O => Throw OutOfFuel
  | Datatypes.S f =>
      let? (oe, r') := next r in
      match oe with
      | Some e => let? s' := body s e in loop_ f s' r'
      | None => Ok (s, r')
      end
  end.

Definition loop (s : S) (r : R) : res (S * R) := loop_ (Datatypes.S (budget r)) s r.
End Loop.

Definition for_each {S} (processEntry : S -> Entry -> res S) : S -> R -> res (S * R) :=
  loop nextAny processEntry.

Definition for_each_location {S} (body : S -> Entry -> res S) : S -> R -> res (S * R) :=
  loop nextLocation body.

(** [SCONames]: the state is the out-parameter and [prevContainer]. *)
Definition sconames_step (s : list SCO.SCO * SCO.SCO) (e : Entry) : res (list SCO.SCO * SCO.SCO) :=
  let '(out, prev) := s in
  let tmp := sco_ (clusterLocation_ e) in
  if negb (SCO.eqb tmp prev) then Ok (out ++ [tmp], tmp) else Ok (out, prev).

Definition SCONames (out : list SCO.SCO) (r : R) : res (list SCO.SCO * R) :=
  let? (s, r') := for_each_location sconames_step (out, SCO.make 0 0 0) r in
  Ok (fst s, r').

End Generic.

(** *** [SCONamesAndChecksums] *)
Global Instance sco_countable : Countable SCO.SCO.
Proof.
  refine (inj_countable' (fun s => (SCO.version_ s, SCO.number_ s, SCO.cloneID_ s))
            (fun t => SCO.mkSCO (fst (fst t)) (snd (fst t)) (snd t)) _).
  by intros [].
Defined.

Section Checksums.
Context {R : Type} `{TLogReaderInterface R}.

Abbreviation checksums := (gmap SCO.SCO CheckSum.CheckSum).

(** [SCONamesAndCheckSumsHelper]: a [CheckSCOCRCProcessor] whose SCO-CRC
    callback also records the check sum of the current SCO. *)
Definition snc_processSCOCRC (s : CheckSCOCRC * checksums) (cs : CheckSum.value_type)
  : res (CheckSCOCRC * checksums) :=
  let? b := csc_processSCOCRC (fst s) cs in
  Ok (b, <[sco_ (current_clusterlocation_ b) := CheckSum.CheckSum_value cs]> (snd s)).

Definition snc_processEntry : CheckSCOCRC * checksums -> Entry -> res (CheckSCOCRC * checksums) :=
  dispatch (fun s a l => let? b := csc_processLoc (fst s) a l in Ok (b, snd s))
           (fun s _ => Ok s) snc_processSCOCRC Ok.

Definition SCONamesAndChecksums (out : checksums) (r : R) : res (checksums * R) :=
  let? (s, r') := for_each snc_processEntry (csc_init, out) r in
  Ok (snd s, r').

End Checksums.

(** *** The generic operations, against the interface *)
Section GenericFacts.
Context {R : Type} `{TLogReaderSpec R}.

(** A loop over a source of entries that hands out a list. *)
Lemma loop_spec {St} (next : R -> res (option Entry * R)) (body : St -> Entry -> res St)
    (todo : R -> list Entry) :
  (forall r, reader_ok r -> (length (todo r) <= budget r)%nat) ->
  (forall r, reader_ok r -> exists r', next r = Ok (head (todo r), r') /\ reader_ok r' /\
     todo r' = tail (todo r)) ->
  forall s r, reader_ok r ->
  match rfold body s (todo r) with
  | Ok s' => exists r', loop next body s r = Ok (s', r') /\ reader_ok r' /\ todo r' = []
  | Throw x => loop next body s r = Throw x
  end.
Proof.
  intros Hb Hn s r Hr. unfold loop.
  assert (Hf : (length (todo r) < S (budget r))%nat) by (specialize (Hb r Hr); lia).
  revert Hf. generalize (S (budget r)) as fuel. intros fuel. revert s r Hr.
  induction fuel as [|fuel IH]; intros s r Hr Hf; [lia|].
  cbn [loop_]. destruct (Hn r Hr) as (r' & -> & Hr' & Ht). cbn [rbind].
  destruct (todo r) as [|e l] eqn:E; cbn in *; [eauto|].
  destruct (body s e) as [s1|x]; cbn [rbind]; [|done].
  specialize (IH s1 r' Hr'). rewrite Ht in IH. apply IH. lia.
Qed.

Lemma nextLocation_spec r : reader_ok r ->
  exists r', nextLocation r = Ok (head (List.filter isLocation (rest r)), r') /\ reader_ok r' /\
    List.filter isLocation (rest r') = tail (List.filter isLocation (rest r)).
Proof.
  intros Hr. unfold nextLocation.
  assert (Hf : (length (rest r) < S (budget r))%nat) by (pose proof (rest_budget r Hr); lia).
  revert Hf. generalize (S (budget r)) as fuel. intros fuel. revert r Hr.
  induction fuel as [|fuel IH]; intros r Hr Hf; [lia|].
  cbn [nextLocation_]. destruct (nextAny_spec r Hr) as (r' & -> & Hr' & Ht). cbn [rbind].
  destruct (rest r) as [|e l] eqn:E; cbn in *.
  - exists r'. by rewrite Ht.
  - destruct (isLocation e); cbn [negb].
    + exists r'. by rewrite Ht.
    + destruct (IH r' Hr') as (r2 & -> & ? & ?); [rewrite Ht; lia|]. rewrite Ht in *. eauto.
Qed.

Lemma length_filter_le {A} (f : A -> bool) l : (length (List.filter f l) <= length l)%nat.
Proof. induction l as [|a l IH]; cbn; [lia|]. destruct (f a); cbn; lia. Qed.

Lemma for_each_spec {St} (f : St -> Entry -> res St) s r : reader_ok r ->
  match rfold f s (rest r) with
  | Ok s' => exists r', for_each f s r = Ok (s', r') /\ reader_ok r' /\ rest r' = []
  | Throw x => for_each f s r = Throw x
  end.
Proof. apply loop_spec; [apply rest_budget | apply nextAny_spec]. Qed.

Lemma for_each_location_spec {St} (f : St -> Entry -> res St) s r : reader_ok r ->
  match rfold f s (List.filter isLocation (rest r)) with
  | Ok s' => exists r', for_each_location f s r = Ok (s', r') /\ reader_ok r' /\
                        List.filter isLocation (rest r') = []
  | Throw x => for_each_location f s r = Throw x
  end.
Proof.
  apply (loop_spec nextLocation f (fun r => List.filter isLocation (rest r))).
  - intros. etrans; [apply length_filter_le | by apply rest_budget].
  - apply nextLocation_spec.
Qed.

(** The loop that reads everything returns [rest]. *)
Definition read_all (r : R) : res (list Entry) :=
  let? (l, _) := for_each (fun l e => Ok (l ++ [e])) [] r in Ok l.

Lemma rfold_snoc {A} (l0 l : list A) : rfold (fun l e => Ok (l ++ [e])) l0 l = Ok (l0 ++ l).
Proof. revert l0. induction l as [|a l IH]; intros l0; cbn; [by rewrite app_nil_r|].
  by rewrite IH, <- app_assoc. Qed.

Lemma read_all_spec r : reader_ok r -> read_all r = Ok (rest r).
Proof. intros Hr. unfold read_all. pose proof (for_each_spec (fun l e => Ok (l ++ [e])) [] r Hr) as Hs.
  rewrite rfold_snoc in Hs. destruct Hs as (r' & -> & _). done. Qed.

(** Adjacent repetitions removed, as [SCONames] does. *)
Fixpoint collapse (prev : SCO.SCO) (l : list SCO.SCO) : list SCO.SCO :=
  match l with
  | [] => []
  | x :: l' => if SCO.eqb x prev then collapse prev l' else x :: collapse x l'
  end.

Definition scos_of (l : list Entry) : list SCO.SCO :=
  (fun e => sco_ (clusterLocation_ e)) <$> List.filter isLocation l.

Lemma sconames_fold out prev l : exists p,
  rfold sconames_step (out, prev) l =
    Ok (out ++ collapse prev ((fun e => sco_ (clusterLocation_ e)) <$> l), p).
Proof.
  revert out prev. induction l as [|e l IH]; intros out prev; cbn.
  - rewrite app_nil_r. eauto.
  - destruct (SCO.eqb _ prev); cbn; [apply IH|].
    destruct (IH (out ++ [sco_ (clusterLocation_ e)]) (sco_ (clusterLocation_ e))) as [p ->].
    rewrite <- app_assoc. eauto.
Qed.

Lemma SCONames_spec out r : reader_ok r -> exists r',
  SCONames out r = Ok (out ++ collapse (SCO.make 0 0 0) (scos_of (rest r)), r').
Proof.
  intros Hr. unfold SCONames.
  pose proof (for_each_location_spec sconames_step (out, SCO.make 0 0 0) r Hr) as Hs.
  destruct (sconames_fold out (SCO.make 0 0 0) (List.filter isLocation (rest r))) as [p Hp].
  rewrite Hp in Hs. destruct Hs as (r' & -> & _). cbn. eauto.
Qed.

Lemma elem_of_collapse x prev l : x <> prev -> x ∈ collapse prev l <-> x ∈ l.
Proof.
  revert prev. induction l as [|y l IH]; intros prev Hx; cbn; [done|].
  destruct (SCO.eqb y prev) eqn:E.
  - apply AddressingFacts.sco_eqb_eq in E as ->. rewrite IH by done. rewrite elem_of_cons. tauto.
  - rewrite !elem_of_cons. destruct (decide (x = y)) as [->|]; [tauto|]. by rewrite IH.
Qed.

Lemma collapse_runs prev l i : (prev :: collapse prev l) !! i <> (prev :: collapse prev l) !! S i \/
  (length (collapse prev l) < i)%nat.
Proof.
  revert prev i. induction l as [|y l IH]; intros prev i; cbn.
  - destruct i as [|i]; [by left|]. destruct i; right; lia || (cbn; lia).
  - destruct (SCO.eqb y prev) eqn:E; [apply IH|].
    destruct i as [|i]; cbn.
    + left. intros [= ->]. rewrite (proj2 (AddressingFacts.sco_eqb_eq y y) eq_refl) in E. done.
    + destruct (IH y i); [by left|right; lia].
Qed.

End GenericFacts.
End ReaderInterface.

(** ** Files *)
Module TLogFile.
Import Entry.

(** The entries of [k] consecutive images. *)
Fixpoint parse (k : nat) (l : list Z) : list Entry :=
  match k with
  | O => []
  | S k' => of_bytes (take getDataSize l) :: parse k' (drop getDataSize l)
  end.

Definition entries_of (file : list Z) : list Entry := parse (length file / getDataSize) file.

Definition image (l : list Entry) : list Z := concat (to_bytes <$> l).

(** [OneFileTLogReader::setFileSize_]: trailing garbage is cut off the file. *)
Definition setFileSize_ (file : list Z) : list Z :=
  let rest := (length file mod getDataSize)%nat in
  if negb (rest =? 0)%nat then take (length file - rest) file else file.

Lemma length_parse k l : length (parse k l) = k.
Proof. revert l. induction k; intros l; cbn; auto. Qed.

Lemma parse_take k l m : (k * getDataSize <= m)%nat -> parse k (take m l) = parse k l.
Proof.
  revert l m. induction k as [|k IH]; intros l m Hm; cbn [parse]; [done|].
  unfold getDataSize in *. rewrite take_take, Nat.min_l by lia. f_equal.
  rewrite <- (IH (drop 32 l) (m - 32)%nat) by lia. by rewrite skipn_firstn_comm.
Qed.

Lemma parse_add a b l : parse (a + b) l = parse a l ++ parse b (drop (a * getDataSize) l).
Proof.
  revert l. induction a as [|a IH]; intros l; cbn [parse Nat.add app]; [done|].
  rewrite IH, drop_drop. by do 4 f_equal.
Qed.

Lemma entries_of_split m l : (m mod getDataSize = 0)%nat -> (m <= length l)%nat ->
  entries_of l = parse (m / getDataSize) (take m l) ++ entries_of (drop m l).
Proof.
  intros Hm Hl. unfold entries_of, getDataSize in *. rewrite length_drop.
  rewrite parse_take by (unfold getDataSize; ndm).
  replace (length l / 32)%nat with (m / 32 + (length l - m) / 32)%nat by ndm.
  rewrite parse_add. unfold getDataSize. by replace (m / 32 * 32)%nat with m by ndm.
Qed.

Lemma entries_of_nil : entries_of [] = [].
Proof. done. Qed.

Lemma length_image l : length (image l) = (length l * getDataSize)%nat.
Proof. unfold image. induction l as [|e l IH]; [done|].
  cbn [fmap list_fmap concat length]. rewrite length_app, IH, EntryFacts.length_to_bytes. done. Qed.

Lemma image_app l1 l2 : image (l1 ++ l2) = image l1 ++ image l2.
Proof. unfold image. by rewrite fmap_app, concat_app. Qed.

Lemma image_one e : image [e] = to_bytes e.
Proof. unfold image. cbn [fmap list_fmap concat]. apply app_nil_r. Qed.

Lemma image_bytes l : bytes (image l).
Proof. induction l as [|e l IH]; [constructor|]. unfold image. cbn [fmap list_fmap concat].
  apply Forall_app. split; [apply EntryFacts.to_bytes_bytes | apply IH]. Qed.

(** What is written is what is parsed. *)
Lemma entries_of_image l : Forall Entry.wf l -> entries_of (image l) = l.
Proof.
  intros Hl. unfold entries_of. rewrite length_image.
  replace (length l * getDataSize / getDataSize)%nat with (length l) by (unfold getDataSize; ndm).
  induction Hl as [|e l He Hl IH]; [done|]. cbn [length parse].
  unfold image. cbn [fmap list_fmap concat]. f_equal.
  - rewrite take_app_length' by (by rewrite EntryFacts.length_to_bytes).
    rewrite <- (app_nil_r (to_bytes e)). by apply EntryFacts.of_to_bytes.
  - rewrite drop_app_length' by (by rewrite EntryFacts.length_to_bytes). apply IH.
Qed.

Lemma setFileSize_length file : length (setFileSize_ file) = (length file / getDataSize * getDataSize)%nat.
Proof. unfold setFileSize_, getDataSize.
  destruct (Nat.eqb_spec (length file mod 32) 0); cbn [negb]; rewrite ?length_take; ndm. Qed.

Lemma setFileSize_entries file : entries_of (setFileSize_ file) = entries_of file.
Proof.
  unfold entries_of. rewrite setFileSize_length. unfold setFileSize_, getDataSize.
  destruct (Nat.eqb_spec (length file mod 32) 0); cbn [negb].
  - f_equal. ndm.
  - rewrite parse_take by (unfold getDataSize; ndm). f_equal. ndm.
Qed.

End TLogFile.

(** ** [TLogReader] *)
Module TLogReader.
Import Entry EntryProcessor TLogFile.

Record TLogReader : Type := mkR {
  file_ : list Z;
  pos_ : nat;
  buf_pos : nat;
  entries : list Entry;
  max_pos : nat;
  checksum_ : CheckSum.CheckSum;
  buf_size : nat }.

(** [256*256] *)
Definition max_num_cached : nat := Z.to_nat 65536.

Definition blank : Entry := mkEntry 0 (CLH.mkCLH ClusterLocation.null 0).

Definition open (file : list Z) (cache_size : nat) : TLogReader :=
  mkR (setFileSize_ file) 0 0 (replicate cache_size blank) 0 CheckSum.CheckSum_default
    (Z.to_nat (u32 (Z.of_nat cache_size * Z.of_nat getDataSize))).

Definition maybe_refresh_buffer (r : TLogReader) : res (bool * TLogReader) :=
  if (buf_pos r =? max_pos r)%nat then
    let got := take (buf_size r) (drop (pos_ r) (file_ r)) in
    verify (length got mod getDataSize =? 0)%nat in
    let n := (length got / getDataSize)%nat in
    let es := parse n got in
    Ok (negb (n =? 0)%nat,
        mkR (file_ r) (pos_ r + length got) 0 (es ++ drop n (entries r)) n (checksum_ r) (buf_size r))
  else Ok (true, r).

Definition nextAny (r : TLogReader) : res (option Entry * TLogReader) :=
  verify (buf_pos r <=? max_pos r)%nat in
  let? (b, r) := maybe_refresh_buffer r in
  if b then
    let e := nth (buf_pos r) (entries r) blank in
    Ok (Some e, mkR (file_ r) (pos_ r) (buf_pos r + 1) (entries r) (max_pos r)
                    (update_entry (checksum_ r) e) (buf_size r))
  else Ok (None, r).

Definition budget (r : TLogReader) : nat :=
  (max_pos r - buf_pos r) + length (drop (pos_ r) (file_ r)) / getDataSize.

Global Instance reader_interface : ReaderInterface.TLogReaderInterface TLogReader :=
  {| ReaderInterface.nextAny := nextAny; ReaderInterface.budget := budget |}.

(** The reader's invariant, and the entries it has still to return. *)
Definition ok (r : TLogReader) : Prop :=
  (buf_pos r <= max_pos r <= length (entries r))%nat /\
  (length (file_ r) mod getDataSize = 0)%nat /\ (pos_ r mod getDataSize = 0)%nat /\
  (pos_ r <= length (file_ r))%nat /\
  (buf_size r mod getDataSize = 0)%nat /\ (0 < buf_size r)%nat.

Definition rest (r : TLogReader) : list Entry :=
  drop (buf_pos r) (take (max_pos r) (entries r)) ++ entries_of (drop (pos_ r) (file_ r)).

Lemma refresh_spec r : ok r -> exists b r',
  maybe_refresh_buffer r = Ok (b, r') /\ ok r' /\ rest r' = rest r /\
  (if b then (buf_pos r' < max_pos r')%nat else rest r' = []).
Proof.
  destruct r as [f p bp es mp cs bs].
  unfold ok, rest, maybe_refresh_buffer, getDataSize.
  cbn [file_ pos_ buf_pos entries max_pos checksum_ buf_size].
  intros (H1 & H2 & H3 & H4 & H5 & H6).
  destruct (Nat.eqb_spec bp mp) as [->|Hne].
  2: { eexists _, _. split; [done|]. cbn. split_and!; try done; lia. }
  set (got := take bs (drop p f)).
  assert (Hg : length got = Nat.min bs (length f - p)) by (unfold got; by rewrite length_take, length_drop).
  assert (Hm : (length got mod 32 = 0)%nat) by ndm.
  rewrite (proj2 (Nat.eqb_eq _ _) Hm).
  eexists _, _. split; [done|]. cbn [file_ pos_ buf_pos entries max_pos checksum_ buf_size].
  set (n := (length got / 32)%nat).
  rewrite length_app, length_parse, drop_0, take_app_length' by (by rewrite length_parse).
  assert (Hs : parse n got ++ entries_of (drop (p + length got) f) = entries_of (drop p f)).
  { rewrite (entries_of_split (length got) (drop p f)) by (unfold getDataSize; rewrite ?length_drop; lia).
    rewrite drop_drop. f_equal. rewrite (parse_take _ (drop p f)) by (unfold getDataSize; ndm).
    apply parse_take. unfold getDataSize, n. ndm. }
  rewrite Hs, (drop_ge (take _ _)) by (rewrite length_take; lia).
  split_and!; try done; try (ndm || lia).
  destruct (Nat.eqb_spec n 0) as [Hn|Hn]; cbn [negb].
  - assert (length f = p) as Hp by ndm. by rewrite drop_ge by lia.
  - lia.
Qed.

Lemma nextAny_ok r : ok r -> exists r',
  nextAny r = Ok (head (rest r), r') /\ ok r' /\ rest r' = tail (rest r).
Proof.
  intros Hok. pose proof Hok as ((Hb & _) & _). unfold nextAny.
  rewrite (proj2 (Nat.leb_le _ _) Hb). cbn match.
  destruct (refresh_spec r Hok) as (b & r' & -> & Hok' & <- & Hb'). cbn [rbind]. destruct b.
  - eexists. split.
    + do 3 f_equal. unfold rest. destruct Hok' as ((? & ?) & _).
      destruct (drop (buf_pos r') (take (max_pos r') (entries r'))) as [|e l] eqn:E.
      * apply (f_equal length) in E. rewrite length_drop, length_take in E. cbn in E. lia.
      * cbn. rewrite nth_lookup. 
        assert ((entries r') !! buf_pos r' = Some e) as ->; [|done].
        rewrite <- (lookup_take_lt _ (max_pos r')) by lia.
        rewrite <- (Nat.add_0_r (buf_pos r')), <- lookup_drop, E. done.
    + split.
      * destruct Hok' as ((? & ?) & ?). split; [cbn; lia|done].
      * unfold rest. cbn [file_ pos_ buf_pos entries max_pos]. destruct Hok' as ((? & ?) & _).
        rewrite <- drop_drop. destruct (drop (buf_pos r') (take (max_pos r') (entries r'))) as [|e l] eqn:E.
        { apply (f_equal length) in E. rewrite length_drop, length_take in E. cbn in E. lia. }
        cbn. by rewrite drop_0.
  - rewrite Hb'. eauto.
Qed.

Lemma rest_length r : ok r -> (length (rest r) <= budget r)%nat.
Proof. intros (? & _). unfold rest, budget, entries_of.
  rewrite length_app, length_parse, length_drop, length_take. lia. Qed.

Global Instance reader_spec : ReaderInterface.TLogReaderSpec TLogReader :=
  {| ReaderInterface.reader_ok := ok; ReaderInterface.rest := rest;
     ReaderInterface.rest_budget := rest_length; ReaderInterface.nextAny_spec := nextAny_ok |}.

Lemma open_ok file n : (0 < Z.of_nat n < 2 ^ 27) -> ok (open file n) /\ rest (open file n) = entries_of file.
Proof.
  intros Hn. unfold ok, rest, open. cbn [file_ pos_ buf_pos entries max_pos checksum_ buf_size].
  rewrite length_replicate, setFileSize_length, drop_0. unfold getDataSize, wrap.
  rewrite Z.mod_small by (cbn; lia). split; [split_and!; try ndm|].
  rewrite take_0. cbn. apply setFileSize_entries.
Qed.

End TLogReader.

(** ** [BackwardTLogReader] *)
Module BackwardTLogReader.
Import Entry TLogFile.

Record BackwardTLogReader : Type := mkB {
  file_ : list Z;
  pos_ : nat;
  buf_pos : nat;
  entries : list Entry;
  buf_size : nat }.

(** Positioned at the end of the file. *)
Definition open (file : list Z) (cache_size : nat) : BackwardTLogReader :=
  mkB (setFileSize_ file) (length (setFileSize_ file)) 0 (replicate cache_size TLogReader.blank)
    (Z.to_nat (u64 (Z.of_nat cache_size * Z.of_nat getDataSize))).

Definition maybe_refresh_buffer (r : BackwardTLogReader) : res (bool * BackwardTLogReader) :=
  if (buf_pos r =? 0)%nat then
    let pos := pos_ r in
    let min := Nat.min (buf_size r) pos in
    let offset := (pos - min)%nat in
    let got := take min (drop offset (file_ r)) in
    verify (length got mod getDataSize =? 0)%nat in
    verify (length got =? min)%nat in
    let n := (length got / getDataSize)%nat in
    Ok (negb (n =? 0)%nat,
        mkB (file_ r) offset n (parse n got ++ drop n (entries r)) (buf_size r))
  else Ok (true, r).

Definition nextAny (r : BackwardTLogReader) : res (option Entry * BackwardTLogReader) :=
  let? (b, r) := maybe_refresh_buffer r in
  if b then
    let p := (buf_pos r - 1)%nat in
    Ok (Some (nth p (entries r) TLogReader.blank), mkB (file_ r) (pos_ r) p (entries r) (buf_size r))
  else Ok (None, r).

Definition budget (r : BackwardTLogReader) : nat := buf_pos r + pos_ r / getDataSize.

Global Instance reader_interface : ReaderInterface.TLogReaderInterface BackwardTLogReader :=
  {| ReaderInterface.nextAny := nextAny; ReaderInterface.budget := budget |}.

Definition ok (r : BackwardTLogReader) : Prop :=
  (buf_pos r <= length (entries r))%nat /\
  (pos_ r mod getDataSize = 0)%nat /\ (pos_ r <= length (file_ r))%nat /\
  (buf_size r mod getDataSize = 0)%nat /\ (0 < buf_size r)%nat.

Definition rest (r : BackwardTLogReader) : list Entry :=
  rev (take (buf_pos r) (entries r)) ++ rev (entries_of (take (pos_ r) (file_ r))).

Lemma bw_refresh_spec r : ok r -> exists b r',
  maybe_refresh_buffer r = Ok (b, r') /\ ok r' /\ rest r' = rest r /\
  (if b then (0 < buf_pos r')%nat else rest r' = []).
Proof.
  destruct r as [f p bp es bs]. unfold ok, rest, maybe_refresh_buffer, getDataSize.
  cbn [file_ pos_ buf_pos entries buf_size]. intros (H1 & H3 & H4 & H5 & H6).
  destruct (Nat.eqb_spec bp 0) as [->|Hne].
  2: { eexists _, _. split; [done|]. cbn. split_and!; try done; lia. }
  set (m := Nat.min bs p). set (got := take m (drop (p - m) f)).
  assert (Hg : length got = m) by (unfold got; rewrite length_take, length_drop; lia).
  assert (Hm : (m mod 32 = 0)%nat) by ndm.
  rewrite Hg, (proj2 (Nat.eqb_eq _ _) Hm), Nat.eqb_refl.
  eexists _, _. split; [done|]. cbn [file_ pos_ buf_pos entries buf_size].
  set (n := (m / 32)%nat).
  rewrite length_app, length_parse, take_app_length' by (by rewrite length_parse).
  assert (Hs : entries_of (take p f) = entries_of (take (p - m) f) ++ parse n got).
  { rewrite (entries_of_split (p - m) (take p f)) by (unfold getDataSize; rewrite ?length_take; ndm).
    f_equal.
    - unfold entries_of. rewrite take_take, length_take, !Nat.min_l by lia. done.
    - rewrite skipn_firstn_comm. replace (p - (p - m))%nat with m by lia.
      unfold entries_of. fold got. by rewrite Hg. }
  split_and!; try done; try (ndm || lia).
  - by rewrite Hs, rev_app_distr.
  - destruct (Nat.eqb_spec n 0) as [Hn|Hn]; cbn [negb]; [|lia].
    assert (p = 0)%nat as -> by ndm. by rewrite Hn, take_0.
Qed.

Lemma bw_nextAny_ok r : ok r -> exists r',
  nextAny r = Ok (head (rest r), r') /\ ok r' /\ rest r' = tail (rest r).
Proof.
  intros Hok. unfold nextAny.
  destruct (bw_refresh_spec r Hok) as (b & r' & -> & Hok' & <- & Hb'). cbn [rbind]. destruct b.
  - pose proof Hok' as (Hl & _). unfold rest.
    destruct (lookup_lt_is_Some_2 (entries r') (buf_pos r' - 1)) as [e He]; [lia|].
    assert (rev (take (buf_pos r') (entries r')) = e :: rev (take (buf_pos r' - 1) (entries r'))) as ->.
    { replace (buf_pos r') with (S (buf_pos r' - 1)) at 1 by lia.
      by rewrite (take_S_r _ _ e He), rev_app_distr. }
    eexists. split; [|split].
    + cbn. by rewrite nth_lookup, He.
    + destruct Hok' as (? & ?). split; [cbn; lia|done].
    + done.
  - rewrite Hb'. eauto.
Qed.

Lemma bw_rest_length r : ok r -> (length (rest r) <= budget r)%nat.
Proof. intros (? & ? & ? & _). unfold rest, budget, entries_of.
  rewrite length_app, !length_rev, length_parse, !length_take.
  apply Nat.add_le_mono; [lia|]. apply Nat.Div0.div_le_mono. lia. Qed.

Global Instance reader_spec : ReaderInterface.TLogReaderSpec BackwardTLogReader :=
  {| ReaderInterface.reader_ok := ok; ReaderInterface.rest := rest;
     ReaderInterface.rest_budget := bw_rest_length; ReaderInterface.nextAny_spec := bw_nextAny_ok |}.

Lemma bw_open_ok file n : (0 < Z.of_nat n < 2 ^ 32) ->
  ok (open file n) /\ rest (open file n) = rev (entries_of file).
Proof.
  intros Hn. unfold ok, rest, open. cbn [file_ pos_ buf_pos entries buf_size].
  rewrite length_replicate, firstn_all, take_0, setFileSize_length, setFileSize_entries.
  unfold getDataSize, wrap.
  rewrite Z.mod_small by (cbn; lia). split; [split_and!; try ndm|done].
Qed.

End BackwardTLogReader.

(** ** [CombinedTLogReader] over a [TLogReaderGen] *)
Module CombinedTLogReader.
Import Entry ReaderInterface.

Section Combined.
Context {R I : Type} `{TLogReaderInterface R}.
(** Opening the reader of an item: from the local file or from the backend. *)
Variable open_item : I -> res R.

Record Combined : Type := mkC { current_ : option R; items_ : list I }.

(** [TLogReaderGen::update] *)
Definition update (c : Combined) : res Combined :=
  match items_ c with
  | i :: items' => let? r := open_item i in Ok (mkC (Some r) items')
  | [] => Ok (mkC None [])
  end.

Definition create (items : list I) : res Combined := update (mkC None items).

Definition create_backward_reader (items : list I) : res Combined := create (rev items).

Fixpoint nextAny_ (fuel : nat) (c : Combined) : res (option Entry * Combined) :=
  match fuel with
  | O => Throw OutOfFuel
  | S f =>
      match current_ c with
      | Some r =>
          let? (oe, r') := nextAny r in
          match oe with
          | Some e => Ok (Some e, mkC (Some r') (items_ c))
          | None => let? c' := update (mkC (Some r') (items_ c)) in nextAny_ f c'
          end
      | None => Ok (None, c)
      end
  end.

(** One round per item left, one for the current reader, one to see the end. *)
Definition combined_nextAny (c : Combined) : res (option Entry * Combined) :=
  nextAny_ (2 + length (items_ c)) c.

Definition combined_budget (c : Combined) : nat :=
  match current_ c with Some r => budget r | None => 0 end +
  sum_list ((fun i => match open_item i with Ok r => budget r | Throw _ => 0%nat end) <$> items_ c).

Definition combined_interface : TLogReaderInterface Combined :=
  {| nextAny := combined_nextAny; budget := combined_budget |}.

#[local] Existing Instance combined_interface.
Context `{!TLogReaderSpec R}.

Definition item_ok (i : I) : Prop := exists r, open_item i = Ok r /\ reader_ok r.
Definition item_rest (i : I) : list Entry :=
  match open_item i with Ok r => rest r | Throw _ => [] end.

Definition combined_ok (c : Combined) : Prop :=
  Forall item_ok (items_ c) /\
  match current_ c with Some r => reader_ok r | None => items_ c = [] end.

Definition combined_rest (c : Combined) : list Entry :=
  match current_ c with Some r => rest r | None => [] end ++ concat (item_rest <$> items_ c).

(** Readers still to be exhausted. *)
Definition pending (c : Combined) : nat :=
  length (items_ c) + match current_ c with Some _ => 1 | None => 0 end.

Lemma update_spec cur items : Forall item_ok items -> exists c',
  update (mkC cur items) = Ok c' /\ combined_ok c' /\
  combined_rest c' = concat (item_rest <$> items) /\
  (pending c' <= length items)%nat.
Proof.
  intros [|i items' (r & E & Hr) Hl]; unfold update; cbn.
  - eexists. split; [done|]. split_and!; done.
  - rewrite E. cbn. eexists. split; [done|]. split; [done|].
    split; [|unfold pending; cbn; lia]. unfold combined_rest, item_rest. cbn. by rewrite E.
Qed.

Lemma combined_nextAny_ok c : combined_ok c -> exists c',
  combined_nextAny c = Ok (head (combined_rest c), c') /\ combined_ok c' /\
  combined_rest c' = tail (combined_rest c).
Proof.
  intros Hc. unfold combined_nextAny.
  assert (Hf : (pending c < 2 + length (items_ c))%nat) by (unfold pending; destruct (current_ c); lia).
  revert Hf. generalize (2 + length (items_ c))%nat as fuel. intros fuel. revert c Hc.
  induction fuel as [|fuel IH]; intros c Hc Hf; [lia|]. cbn [nextAny_].
  destruct Hc as [Hi Hcur]. destruct c as [[r|] items]; cbn [current_ items_] in *.
  - destruct (nextAny_spec r Hcur) as (r' & -> & Hr' & Ht). cbn [rbind].
    unfold combined_rest. cbn [current_ items_].
    destruct (rest r) as [|e l]; cbn [head tail app] in *.
    + destruct (update_spec (Some r') items Hi) as (c1 & -> & Hok & Hrest & Hlen). cbn [rbind].
      destruct (IH c1 Hok) as (c2 & -> & Hok2 & Hr2); [unfold pending at 1 in Hf; cbn in Hf; lia|]. rewrite Hrest in *. eauto.
    + eexists. split; [done|]. split; [by split|]. cbn. by rewrite Ht.
  - exists (mkC None items). subst. by split_and!.
Qed.

Lemma items_rest_length l : Forall item_ok l ->
  (length (concat (item_rest <$> l)) <=
   sum_list ((fun i => match open_item i with Ok r => budget r | Throw _ => 0%nat end) <$> l))%nat.
Proof.
  induction 1 as [|i l (r & E & Hr) Hl IH]; cbn; [lia|].
  rewrite length_app. unfold item_rest at 1. rewrite E. pose proof (rest_budget r Hr).
  unfold sum_list, fmap, list_fmap in *. cbn in *. lia.
Qed.

Lemma combined_rest_length c : combined_ok c -> (length (combined_rest c) <= combined_budget c)%nat.
Proof.
  intros [Hi Hc]. unfold combined_rest, combined_budget. rewrite length_app.
  apply Nat.add_le_mono; [|by apply items_rest_length].
  destruct (current_ c); [by apply rest_budget | cbn; lia].
Qed.

Definition combined_spec : TLogReaderSpec Combined :=
  {| reader_ok := combined_ok; rest := combined_rest;
     rest_budget := combined_rest_length; nextAny_spec := combined_nextAny_ok |}.

Lemma create_spec items : Forall item_ok items -> exists c,
  create items = Ok c /\ combined_ok c /\ combined_rest c = concat (item_rest <$> items).
Proof. intros Hi. destruct (update_spec None items Hi) as (c & ? & ? & ? & _). eauto. Qed.

End Combined.
Arguments Combined : clear implicits.
End CombinedTLogReader.

(** ** [TLogWriter] *)
Module TLogWriter.
Import CheckSum ClusterLocation CLH Entry EntryProcessor TLogFile.

Record TLogWriter : Type := mkW {
  file_ : list Z;
  checksum_ : CheckSum;
  entriesWritten_ : Z;
  lastClusterLocation : ClusterLocation;
  buf : list Entry;
  current_entry_ : nat }.

(** [FileUtils::calculate_checksum]: page by page until a read returns nothing. *)
Fixpoint calculate_checksum_ (fuel page : nat) (cs : CheckSum) (f : list Z) : CheckSum :=
  match fuel with
  | O => cs
  | S n => match take page f with
           | [] => cs
           | chunk => calculate_checksum_ n page (update Crc32cHw cs chunk) (drop page f)
           end
  end.

(** [page_size] is the value of [sysconf(_SC_PAGESIZE)]. *)
Definition calculate_checksum (page_size : nat) (f : list Z) : CheckSum :=
  calculate_checksum_ (S (length f)) page_size CheckSum_default f.

(** The constructor ([checksum] must be null); a missing file is an empty one. *)
Definition open (page_size : nat) (file : list Z) (numBuffered : nat) : res TLogWriter :=
  let? (cs, last) :=
    (if negb (length file =? 0)%nat then
       if negb (length file mod getDataSize =? 0)%nat then Throw IOException
       else
         let cs := calculate_checksum page_size file in
         let? (l, _) := ReaderInterface.nextClusterLocation (BackwardTLogReader.open file TLogReader.max_num_cached) in
         Ok (cs, l)
     else Ok (CheckSum_default, ClusterLocation.null)) in
  Ok (mkW file cs 0 last (replicate numBuffered TLogReader.blank) 0).

Definition maybe_refresh_buffer_ (force : bool) : M TLogWriter unit := mmodify (fun w =>
  if (force && negb (current_entry_ w =? 0)%nat) || (current_entry_ w =? length (buf w))%nat
  then mkW (file_ w ++ image (take (current_entry_ w) (buf w))) (checksum_ w) (entriesWritten_ w)
           (lastClusterLocation w) (buf w) 0
  else w).

(** Placement new: the members are written into the slot, whose digest bytes
    [Entry] may leave as they are, before the constructor's checks run. *)
Definition place (synch : bool) (raw : Weed -> Entry) (ctor : Weed -> res Entry) : M TLogWriter unit :=
  maybe_refresh_buffer_ false ;!
  let! w := mget in
  let slot := weed_ (loc_and_hash_ (nth (current_entry_ w) (buf w) TLogReader.blank)) in
  mmodify (fun w => mkW (file_ w) (checksum_ w) (entriesWritten_ w) (lastClusterLocation w)
                        (<[current_entry_ w := raw slot]> (buf w)) (current_entry_ w)) ;!
  let! e := mlift (ctor slot) in
  mmodify (fun w => mkW (file_ w) (update_entry (checksum_ w) e) (u64 (entriesWritten_ w + 1))
                        (lastClusterLocation w) (buf w) (current_entry_ w + 1)) ;!
  if synch then maybe_refresh_buffer_ true else mret tt.

Definition raw_crc (cs : CheckSum) (t : Type_) (w : Weed) : Entry :=
  mkEntry (Z.lor (getValue cs) (Z.shiftl (type_value t) checksum_shift_)) (mkCLH ClusterLocation.null w).

Definition add (address : Z) (loc : ClusterLocationAndHash) : M TLogWriter unit :=
  mmodify (fun w => mkW (file_ w) (checksum_ w) (entriesWritten_ w) (clusterLocation loc)
                        (buf w) (current_entry_ w)) ;!
  place false (fun _ => mkEntry address loc) (fun _ => Entry_loc address loc).

Definition add_crc (cs : CheckSum) : M TLogWriter unit :=
  place false (raw_crc cs SCOCRC) (Entry_crc cs SCOCRC).

Definition add_sync : M TLogWriter unit := place true Entry_sync (fun w => Ok (Entry_sync w)).

Definition close : M TLogWriter CheckSum :=
  let! w := mget in
  place true (raw_crc (checksum_ w) TLogCRC) (Entry_crc (checksum_ w) TLogCRC) ;!
  let! w := mget in mret (checksum_ w).

Definition addWrongTLogCRC : M TLogWriter unit :=
  let! w := mget in
  let cs := CheckSum_value (u32 (getValue (checksum_ w) + 1)) in
  place true (raw_crc cs TLogCRC) (Entry_crc cs TLogCRC).

Definition sync : M TLogWriter unit := maybe_refresh_buffer_ true.

Definition getCheckSum (w : TLogWriter) : CheckSum := checksum_ w.
Definition getEntriesWritten (w : TLogWriter) : Z := entriesWritten_ w.
Definition getClusterLocation (w : TLogWriter) : ClusterLocation := lastClusterLocation w.

(** The operations a client calls, and a session of them. *)
Inductive op : Type :=
  | OpLoc (address : Z) (loc : ClusterLocationAndHash)
  | OpSCOCRC (cs : CheckSum)
  | OpSyncEntry
  | OpSync.

Definition run_op (o : op) : M TLogWriter unit :=
  match o with
  | OpLoc a l => add a l
  | OpSCOCRC cs => add_crc cs
  | OpSyncEntry => add_sync
  | OpSync => sync
  end.

(** The destructor flushes; what is left is the file. *)
Definition destroy (w : TLogWriter) : list Z := file_ (fst (maybe_refresh_buffer_ true w)).

End TLogWriter.
