(* ===== verification/TLogIOFacts.v ===== *)
(** * What the TLog readers and the TLog writer guarantee

    The writer's invariant (file and buffer together hold the entries added so
    far, the running check sum is the check sum of their image), the round trip
    from the writer to each reader, and the detection of a damaged TLog check
    sum by the checking processor. *)

From S2P Require Import Prelude CheckSum Addressing TLogEntry TLogIO.

Module TLogWriterFacts.
Import CheckSum ClusterLocation CLH Entry EntryProcessor TLogFile TLogWriter.

(** What the writer has been given so far, flushed or not. *)
Definition contents (w : TLogWriter) : list Z := file_ w ++ image (take (current_entry_ w) (buf w)).

Definition inv (w : TLogWriter) (es : list Entry) : Prop :=
  contents w = image es /\ Forall Entry.wf es /\ Forall Entry.wf (buf w) /\
  checksum_ w = update Crc32cHw CheckSum_default (image es) /\
  (current_entry_ w <= length (buf w))%nat /\ (0 < length (buf w))%nat.

Ltac wcbn := cbn [file_ checksum_ entriesWritten_ lastClusterLocation buf current_entry_].

Lemma blank_wf : Entry.wf TLogReader.blank.
Proof. by_decide. Qed.

Lemma calculate_checksum_ok fuel page cs f : (0 < page)%nat -> (length f < fuel)%nat ->
  CheckSum.wf cs -> bytes f -> calculate_checksum_ fuel page cs f = update Crc32cHw cs f.
Proof.
  intros Hp. revert cs f. induction fuel as [|fuel IH]; intros cs f Hf Hc Hb; [lia|].
  cbn [calculate_checksum_]. destruct (take page f) as [|c l] eqn:E.
  - apply (f_equal length) in E. rewrite length_take in E. cbn in E.
    assert (f = []) as -> by (destruct f; [done|cbn in *; lia]).
    rewrite update_ref by done. by destruct cs.
  - rewrite <- E. destruct f as [|b f]; [by rewrite take_nil in E|]. clear E c l.
    assert (bytes (take page (b :: f)) /\ bytes (drop page (b :: f))) as [H1 H2]
      by (by apply Forall_app; rewrite take_drop).
    rewrite IH; [| |by apply update_wf|done].
    + rewrite (update_app _ _ Crc32cHw) by done. by rewrite take_drop.
    + rewrite length_drop. cbn in *. lia.
Qed.

Lemma refresh_inv force w es : inv w es ->
  exists w', maybe_refresh_buffer_ force w = (w', Ok tt) /\ inv w' es /\
    (current_entry_ w' < length (buf w'))%nat /\ buf w' = buf w /\
    lastClusterLocation w' = lastClusterLocation w /\ entriesWritten_ w' = entriesWritten_ w /\
    (force = true -> current_entry_ w' = 0%nat).
Proof.
  intros (Hc & Hes & Hb & Hs & Hle & Hpos). unfold maybe_refresh_buffer_, mmodify.
  eexists. split; [done|].
  destruct ((force && negb (current_entry_ w =? 0)%nat) || (current_entry_ w =? length (buf w))%nat) eqn:E.
  - split_and!; try done. unfold inv, contents. cbn. rewrite app_nil_r. by split_and!; try lia.
  - apply orb_false_iff in E as [E1 E2]. apply Nat.eqb_neq in E2.
    split_and!; try done; try lia. intros ->. cbn in E1.
    apply negb_false_iff, Nat.eqb_eq in E1. done.
Qed.

Lemma update_entry_image cs es e :
  cs = update Crc32cHw CheckSum_default (image es) ->
  update_entry cs e = update Crc32cHw CheckSum_default (image (es ++ [e])).
Proof. intros ->. unfold update_entry. rewrite (update_app _ _ Crc32cHw), image_app, image_one;
  [done| apply default_wf | apply image_bytes | apply EntryFacts.to_bytes_bytes]. Qed.

Definition put (w : TLogWriter) (e : Entry) : TLogWriter :=
  mkW (file_ w) (checksum_ w) (entriesWritten_ w) (lastClusterLocation w)
      (<[current_entry_ w := e]> (buf w)) (current_entry_ w).

Definition bump (w : TLogWriter) (e : Entry) : TLogWriter :=
  mkW (file_ w) (update_entry (checksum_ w) e) (u64 (entriesWritten_ w + 1))
      (lastClusterLocation w) (buf w) (current_entry_ w + 1).

Definition slot (w : TLogWriter) : Weed :=
  weed_ (loc_and_hash_ (nth (current_entry_ w) (buf w) TLogReader.blank)).

Lemma place_eq synch raw ctor w : place synch raw ctor w =
  let w1 := fst (maybe_refresh_buffer_ false w) in
  let w2 := put w1 (raw (slot w1)) in
  match ctor (slot w1) with
  | Ok e => if (synch : bool) then maybe_refresh_buffer_ true (bump w2 e) else (bump w2 e, Ok tt)
  | Throw x => (w2, Throw x)
  end.
Proof. unfold place, mbind, mget, mlift, mmodify, mret, maybe_refresh_buffer_, mmodify. cbn [fst].
  fold (slot (fst (maybe_refresh_buffer_ false w))). cbn [fst maybe_refresh_buffer_ mmodify].
  by destruct (ctor _), synch. Qed.

Lemma slot_fits w es : inv w es -> fits 128 (slot w).
Proof.
  intros (_ & _ & Hb & _). unfold slot. rewrite nth_lookup.
  destruct (buf w !! current_entry_ w) as [b|] eqn:E; cbn.
  - apply (proj1 (Forall_lookup _ _) Hb _ _ E).
  - apply blank_wf.
Qed.

Lemma put_inv w es e : inv w es -> Entry.wf e -> inv (put w e) es.
Proof.
  intros (Hc & Hes & Hb & Hs & Hle & Hpos) He. unfold inv, contents, put in *. wcbn.
  rewrite length_insert, take_insert_ge by lia. split_and!; try done. by apply Forall_insert.
Qed.

Lemma bump_inv w es e : inv w es -> Entry.wf e -> (current_entry_ w < length (buf w))%nat ->
  inv (bump (put w e) e) (es ++ [e]).
Proof.
  intros (Hc & Hes & Hb & Hs & Hle & Hpos) He Hlt. unfold inv, contents, bump, put in *. wcbn.
  rewrite length_insert. split_and!; try lia.
  - rewrite Nat.add_1_r, (take_S_r _ _ e) by (by apply list_lookup_insert_eq).
    rewrite take_insert_ge, !image_app, app_assoc by lia. by f_equal.
  - apply Forall_app. split; [done|]. by constructor.
  - by apply Forall_insert.
  - by apply update_entry_image.
Qed.

(** Placing an entry: appended when its constructor accepts it, dropped when it throws. *)
Lemma place_inv synch raw ctor w es : inv w es -> (forall s, fits 128 s -> Entry.wf (raw s)) ->
  (forall s e, ctor s = Ok e -> e = raw s) ->
  exists w' s, fits 128 s /\ lastClusterLocation w' = lastClusterLocation w /\
  match ctor s with
  | Ok e => place synch raw ctor w = (w', Ok tt) /\ inv w' (es ++ [e]) /\
            (synch = true -> current_entry_ w' = 0%nat) /\ entriesWritten_ w' = u64 (entriesWritten_ w + 1)
  | Throw x => place synch raw ctor w = (w', Throw x) /\ inv w' es /\ entriesWritten_ w' = entriesWritten_ w
  end.
Proof.
  intros Hi Hraw Hctor.
  destruct (refresh_inv false w es Hi) as (w1 & E1 & Hi1 & Hlt & _ & Hl1 & He1 & _).
  pose proof (place_eq synch raw ctor w) as Ep. rewrite E1 in Ep. cbn [fst] in Ep. cbv zeta in Ep.
  pose proof (slot_fits w1 es Hi1) as Hs. pose proof (Hraw _ Hs) as Hw.
  destruct (ctor (slot w1)) as [e|x] eqn:Ec.
  - pose proof (Hctor _ _ Ec) as ->. pose proof (bump_inv w1 es _ Hi1 Hw Hlt) as Hi3. destruct synch.
    + destruct (refresh_inv true _ _ Hi3) as (w4 & E4 & Hi4 & _ & _ & Hl4 & He4 & H0).
      exists w4, (slot w1). rewrite Ec, Ep, Hl4, He4, <- Hl1, <- He1.
      by split_and!.
    + exists (bump (put w1 (raw (slot w1))) (raw (slot w1))), (slot w1).
      rewrite Ec, Ep, <- Hl1, <- He1. by split_and!.
  - exists (put w1 (raw (slot w1))), (slot w1). rewrite Ec, Ep, <- Hl1, <- He1.
    split; [done|]. split; [done|]. split; [done|]. split; [by apply put_inv|done].
Qed.

(** *** Sessions *)
Definition op_wf (o : op) : Prop :=
  match o with
  | OpLoc a l => fits 64 a /\ CLH.wf l
  | OpSCOCRC cs => CheckSum.wf cs
  | _ => True
  end.

#[global] Instance op_wf_dec o : Decision (op_wf o).
Proof. destruct o; cbn; apply _. Defined.

(** The checks of the entry constructors. *)
Definition op_accepted (o : op) : bool :=
  match o with OpLoc a l => is_ok (Entry_loc a l) | _ => true end.

(** The entry an operation stands for, up to the digest bytes of the entries
    that carry none. *)
Definition op_entry (o : op) (e : Entry) : Prop :=
  match o with
  | OpLoc a l => Entry_loc a l = Ok e
  | OpSCOCRC cs => type e = Ok SCOCRC /\ Entry.getCheckSum e = getValue cs
  | OpSyncEntry => type e = Ok SyncTC
  | OpSync => False
  end.

Definition is_entry_op (o : op) : bool := match o with OpSync => false | _ => true end.

Lemma raw_crc_ok cs t s : CheckSum.wf cs -> t = TLogCRC \/ t = SCOCRC ->
  Entry_crc cs t s = Ok (raw_crc cs t s) /\ type (raw_crc cs t s) = Ok t /\
  Entry.getCheckSum (raw_crc cs t s) = getValue cs /\ (fits 128 s -> Entry.wf (raw_crc cs t s)).
Proof.
  intros Hc Ht. destruct (EntryFacts.crc_entry cs t s Hc Ht) as (e & E & ? & ? & ? & ?).
  assert (Entry_crc cs t s = Ok (raw_crc cs t s)) as E2 by (by destruct Ht as [-> | ->]).
  rewrite E in E2. injection E2 as ->. by split_and!.
Qed.

Lemma place_crc synch cs t w es : inv w es -> CheckSum.wf cs -> t = TLogCRC \/ t = SCOCRC ->
  exists w' e, place synch (raw_crc cs t) (Entry_crc cs t) w = (w', Ok tt) /\ inv w' (es ++ [e]) /\
    type e = Ok t /\ Entry.getCheckSum e = getValue cs /\ lastClusterLocation w' = lastClusterLocation w /\
    (synch = true -> current_entry_ w' = 0%nat).
Proof.
  intros Hi Hc Ht.
  destruct (place_inv synch (raw_crc cs t) (Entry_crc cs t) w es Hi) as (w' & s & Hs & Hl & Hp).
  - intros s Hs. by apply raw_crc_ok.
  - intros s e E. destruct (raw_crc_ok cs t s Hc Ht) as (E2 & _). congruence.
  - destruct (raw_crc_ok cs t s Hc Ht) as (E2 & ? & ? & _). rewrite E2 in Hp.
    destruct Hp as (? & ? & ? & _). eauto 10.
Qed.

Lemma sync_wf s : fits 128 s -> Entry.wf (Entry_sync s).
Proof. intros. unfold Entry_sync. split; [by_decide|]. split; [by_decide|done]. Qed.

(** One operation. *)
Lemma run_op_spec o w es : inv w es -> op_wf o ->
  if op_accepted o then exists w', run_op o w = (w', Ok tt) /\
      (if is_entry_op o then exists e, inv w' (es ++ [e]) /\ op_entry o e else inv w' es)
  else exists w' x, run_op o w = (w', Throw x) /\ inv w' es.
Proof.
  intros Hi Ho. destruct o as [a l|cs| |]; cbn [op_accepted is_entry_op run_op op_wf] in *.
  - unfold add, mbind, mmodify. set (w0 := mkW _ _ _ (clusterLocation l) _ _).
    assert (Hi0 : inv w0 es) by exact Hi.
    destruct (place_inv false (fun _ => mkEntry a l) (fun _ => Entry_loc a l) w0 es Hi0)
      as (w' & s & _ & _ & Hp); [done| |].
    { intros _ e E. by apply EntryFacts.loc_entry in E as (? & _). }
    destruct (Entry_loc a l) as [e|x] eqn:E; cbn [is_ok].
    + destruct Hp as (Hp & ? & _). exists w'. split; [exact Hp|]. by exists e.
    + destruct Hp as (Hp & ? & _). exists w', x. split; [exact Hp|done].
  - destruct (place_crc false cs SCOCRC w es Hi Ho) as (w' & e & ? & ? & ? & ? & _); [by right|].
    exists w'. split; [done|]. by exists e.
  - destruct (place_inv true Entry_sync (fun s => Ok (Entry_sync s)) w es Hi) as (w' & s & _ & _ & Hp).
    + apply sync_wf.
    + intros s e [= <-]. done.
    + destruct Hp as (? & ? & _). exists w'. split; [done|]. by exists (Entry_sync s).
  - destruct (refresh_inv true w es Hi) as (w' & ? & ? & _). eauto.
Qed.

Lemma run_session ops w es : inv w es -> Forall op_wf ops -> forallb op_accepted ops = true ->
  exists w' new, miter run_op ops w = (w', Ok tt) /\ inv w' (es ++ new) /\
    Forall2 op_entry (List.filter is_entry_op ops) new.
Proof.
  intros Hi Hw. revert w es Hi. induction Hw as [|o ops Ho Hops IH]; intros w es Hi Ha; cbn in *.
  - exists w, []. rewrite app_nil_r. eauto.
  - apply andb_true_iff in Ha as [Ha1 Ha2]. pose proof (run_op_spec o w es Hi Ho) as Hs.
    rewrite Ha1 in Hs. destruct Hs as (w1 & E1 & H1). unfold mbind. rewrite E1.
    destruct (is_entry_op o) eqn:Ee.
    + destruct H1 as (e & Hi1 & He). destruct (IH w1 _ Hi1 Ha2) as (w2 & new & -> & Hi2 & Hf).
      exists w2, (e :: new). rewrite <- app_assoc in Hi2. split; [done|]. split; [done|]. by constructor.
    + destruct (IH w1 es H1 Ha2) as (w2 & new & ? & ? & ?). eauto.
Qed.

Lemma destroy_image w es : inv w es -> destroy w = image es.
Proof.
  intros Hi. unfold destroy. destruct (refresh_inv true w es Hi) as (w' & -> & (Hc & _) & _ & _ & _ & _ & H0).
  cbn [fst]. unfold contents in Hc. rewrite H0, take_0 in Hc by done. by rewrite app_nil_r in Hc.
Qed.

(** Opening an existing TLog, or a new one. *)
Lemma open_inv page es n : (0 < page)%nat -> (0 < n)%nat -> Forall Entry.wf es ->
  exists w, open page (image es) n = Ok w /\ inv w es /\ entriesWritten_ w = 0 /\
    lastClusterLocation w = default ClusterLocation.null
      (clusterLocation_ <$> head (List.filter isLocation (rev es))).
Proof.
  intros Hp Hn Hes. unfold open.
  assert (Hinv : forall cs last, cs = update Crc32cHw CheckSum_default (image es) ->
    inv (mkW (image es) cs 0 last (replicate n TLogReader.blank) 0) es).
  { intros cs last ->. unfold inv, contents. wcbn. rewrite length_replicate, take_0, app_nil_r.
    split_and!; try done; try lia. apply Forall_replicate, blank_wf. }
  destruct (Nat.eqb_spec (length (image es)) 0) as [H0|H0]; cbn [negb rbind].
  - rewrite length_image in H0. assert (es = []) as -> by (destruct es; [done|cbn in H0; lia]).
    eexists. split; [done|]. split; [by apply Hinv|]. done.
  - assert ((length (image es) mod getDataSize = 0)%nat) as Hm
      by (rewrite length_image; unfold getDataSize; ndm).
    rewrite Hm. cbn [Nat.eqb negb].
    destruct (BackwardTLogReader.bw_open_ok (image es) TLogReader.max_num_cached) as [Hok Hr];
      [unfold TLogReader.max_num_cached; lia|].
    unfold ReaderInterface.nextClusterLocation.
    pose proof (ReaderInterface.nextLocation_spec
      (BackwardTLogReader.open (image es) TLogReader.max_num_cached)) as Hnl.
    destruct (Hnl Hok) as (r' & -> & _).
    cbn [ReaderInterface.rest BackwardTLogReader.reader_spec].
    rewrite Hr, entries_of_image by done. cbn [rbind].
    eexists. split; [done|]. split.
    + apply Hinv. unfold calculate_checksum. apply calculate_checksum_ok; [done|lia|apply default_wf|apply image_bytes].
    + wcbn. split; [done|]. by destruct (List.filter isLocation (rev es)).
Qed.

End TLogWriterFacts.

(** ** Theorems *)
Module TLogIOTheorems.
Import CheckSum ClusterLocation CLH Entry EntryProcessor TLogFile ReaderInterface TLogWriter TLogWriterFacts.

Lemma read_all_forward file n : 0 < Z.of_nat n < 2 ^ 27 ->
  read_all (TLogReader.open file n) = Ok (entries_of file).
Proof.
  intros Hn. destruct (TLogReader.open_ok file n Hn) as [Hok Hr].
  pose proof (read_all_spec (TLogReader.open file n)) as Hs. rewrite (Hs Hok). by f_equal.
Qed.

Lemma read_all_backward file n : 0 < Z.of_nat n < 2 ^ 32 ->
  read_all (BackwardTLogReader.open file n) = Ok (rev (entries_of file)).
Proof.
  intros Hn. destruct (BackwardTLogReader.bw_open_ok file n Hn) as [Hok Hr].
  pose proof (read_all_spec (BackwardTLogReader.open file n)) as Hs. rewrite (Hs Hok). by f_equal.
Qed.

(** C20: whatever its cache size, a forward reader returns exactly the complete
    entries of its file, in order, and then stops; a backward reader returns
    the same entries in the opposite order.  Trailing garbage is ignored. *)
Theorem readers_exact (file : list Z) (n : nat) :
  0 < Z.of_nat n < 2 ^ 27 ->
  read_all (TLogReader.open file n) = Ok (entries_of file) /\
  read_all (BackwardTLogReader.open file n) = Ok (rev (entries_of file)) /\
  length (entries_of file) = (length file / getDataSize)%nat.
Proof.
  intros Hn. split; [by apply read_all_forward|]. split; [apply read_all_backward; lia|].
  apply length_parse.
Qed.

Lemma readers_exact_witness :
  read_all (TLogReader.open (image [Entry_sync 1; Entry_sync 2; Entry_sync 3] ++ [9; 9]) 2)
  = Ok [Entry_sync 1; Entry_sync 2; Entry_sync 3].
Proof.
  etrans; [apply (readers_exact (image [Entry_sync 1; Entry_sync 2; Entry_sync 3] ++ [9; 9]) 2); lia
          | vm_compute; reflexivity].
Defined.

Section Combine.
Context {R I : Type} `{TLogReaderSpec R}.
Variable open_item : I -> res R.

Lemma combined_read items : Forall (CombinedTLogReader.item_ok open_item) items ->
  (let? c := CombinedTLogReader.create open_item items in
   @read_all _ (CombinedTLogReader.combined_interface open_item) c)
  = Ok (concat (CombinedTLogReader.item_rest open_item <$> items)).
Proof.
  intros Hi. destruct (CombinedTLogReader.create_spec open_item items Hi) as (c & -> & Hok & Hr).
  cbn [rbind].
  pose proof (@read_all_spec _ (CombinedTLogReader.combined_interface open_item)
                (CombinedTLogReader.combined_spec open_item) c) as Hs.
  rewrite (Hs Hok). by f_equal.
Qed.
End Combine.

Lemma concat_rev_fmap {A B} (f : A -> list B) l : concat ((fun x => rev (f x)) <$> rev l) = rev (concat (f <$> l)).
Proof. induction l as [|a l IH]; [done|]. cbn.
  rewrite fmap_app, concat_app, rev_app_distr, IH. cbn. by rewrite app_nil_r. Qed.

(** reading a sequence of TLogs through a combined reader yields the
    concatenation of their entries; the backward combined reader yields exactly
    the reverse of that, over any number of files, empty ones included. *)
Theorem combined_readers_exact (files : list (list Z)) (n : nat) :
  0 < Z.of_nat n < 2 ^ 27 ->
  (let? c := CombinedTLogReader.create (fun f => Ok (TLogReader.open f n)) files in
   @read_all _ (CombinedTLogReader.combined_interface (fun f => Ok (TLogReader.open f n))) c)
  = Ok (concat (entries_of <$> files)) /\
  (let? c := CombinedTLogReader.create_backward_reader (fun f => Ok (BackwardTLogReader.open f n)) files in
   @read_all _ (CombinedTLogReader.combined_interface (fun f => Ok (BackwardTLogReader.open f n))) c)
  = Ok (rev (concat (entries_of <$> files))).
Proof.
  intros Hn. split.
  - rewrite combined_read.
    + do 2 f_equal. apply list_fmap_ext. intros i f _. by apply TLogReader.open_ok.
    + apply Forall_true. intros f. eexists. split; [done|]. by apply TLogReader.open_ok.
  - unfold CombinedTLogReader.create_backward_reader. rewrite combined_read.
    + rewrite <- concat_rev_fmap. do 2 f_equal. apply list_fmap_ext. intros i f _.
      apply BackwardTLogReader.bw_open_ok. lia.
    + apply Forall_true. intros f. eexists. split; [done|]. apply BackwardTLogReader.bw_open_ok. lia.
Qed.

Lemma combined_readers_exact_witness :
  (let? c := CombinedTLogReader.create_backward_reader (fun f => Ok (BackwardTLogReader.open f 1))
               [image [Entry_sync 1; Entry_sync 2]; []; image [Entry_sync 3]] in
   @read_all _ (CombinedTLogReader.combined_interface (fun f => Ok (BackwardTLogReader.open f 1))) c)
  = Ok [Entry_sync 3; Entry_sync 2; Entry_sync 1].
Proof.
  etrans; [apply (combined_readers_exact [image [Entry_sync 1; Entry_sync 2]; []; image [Entry_sync 3]] 1); lia
          | vm_compute; reflexivity].
Defined.

(** C19: what is written is what is read.  A writer opened on a TLog (empty or
    holding [es]) accepts every sequence of well-formed additions and syncs;
    when it goes away the file holds [es] followed by one entry per addition,
    in order, for every size of the write buffer; a reader returns them all,
    and the writer's running check sum is that of the whole file. *)
Theorem writer_reader_roundtrip (page numBuffered n : nat) (es : list Entry) (ops : list op) :
  (0 < page)%nat -> (0 < numBuffered)%nat -> 0 < Z.of_nat n < 2 ^ 27 ->
  Forall Entry.wf es -> Forall op_wf ops -> forallb op_accepted ops = true ->
  exists w w' new, TLogWriter.open page (image es) numBuffered = Ok w /\
    miter run_op ops w = (w', Ok tt) /\
    Forall2 op_entry (List.filter is_entry_op ops) new /\
    read_all (TLogReader.open (destroy w') n) = Ok (es ++ new) /\
    read_all (BackwardTLogReader.open (destroy w') n) = Ok (rev (es ++ new)) /\
    getCheckSum w' = update Crc32cHw CheckSum_default (destroy w').
Proof.
  intros Hp Hb Hn Hes Hops Hacc.
  destruct (open_inv page es numBuffered Hp Hb Hes) as (w & Ho & Hi & _).
  destruct (run_session ops w es Hi Hops Hacc) as (w' & new & Hr & Hi' & Hf).
  exists w, w', new. pose proof Hi' as (_ & Hwf & _ & Hcs & _).
  rewrite (destroy_image w' _ Hi'), read_all_forward, read_all_backward, entries_of_image by (done || lia).
  by split_and!.
Qed.

Definition sample_loc : ClusterLocationAndHash := mkCLH (ClusterLocation.make 1 2 3 4) 5.

Lemma writer_reader_roundtrip_witness :
  exists w w' new, TLogWriter.open 4096 (image [Entry_sync 1]) 2 = Ok w /\
    miter run_op [OpLoc 7 sample_loc; OpSCOCRC (CheckSum_value 12); OpSyncEntry; OpSync; OpLoc 8 sample_loc] w
    = (w', Ok tt) /\
    read_all (TLogReader.open (destroy w') 3) = Ok (Entry_sync 1 :: new).
Proof.
  destruct (writer_reader_roundtrip 4096 2 3 [Entry_sync 1]
    [OpLoc 7 sample_loc; OpSCOCRC (CheckSum_value 12); OpSyncEntry; OpSync; OpLoc 8 sample_loc])
    as (w & w' & new & ? & ? & _ & ? & _);
    [apply Nat.ltb_lt; reflexivity | apply Nat.ltb_lt; reflexivity | by_decide | by_decide | by_decide | reflexivity | ].
  exists w, w', new. by split_and!.
Defined.

(** an addition the entry constructor refuses (null location, or an address
    above the maximum) throws and leaves no trace in the TLog: contents and
    check sum are as before, and later additions still work. *)
Theorem writer_rejection_leaves_no_trace (page numBuffered : nat) (es : list Entry) (o : op) (ops : list op) :
  (0 < page)%nat -> (0 < numBuffered)%nat -> Forall Entry.wf es ->
  op_wf o -> op_accepted o = false -> Forall op_wf ops -> forallb op_accepted ops = true ->
  exists w w1 w2 x new, TLogWriter.open page (image es) numBuffered = Ok w /\
    run_op o w = (w1, Throw x) /\ destroy w1 = image es /\ getCheckSum w1 = getCheckSum w /\
    miter run_op ops w1 = (w2, Ok tt) /\ destroy w2 = image (es ++ new) /\
    Forall2 op_entry (List.filter is_entry_op ops) new.
Proof.
  intros Hp Hb Hes Ho Hrej Hops Hacc.
  destruct (open_inv page es numBuffered Hp Hb Hes) as (w & Hopen & Hi & _).
  pose proof (run_op_spec o w es Hi Ho) as Hs. rewrite Hrej in Hs. destruct Hs as (w1 & x & E1 & Hi1).
  destruct (run_session ops w1 es Hi1 Hops Hacc) as (w2 & new & Hr & Hi2 & Hf).
  exists w, w1, w2, x, new. rewrite (destroy_image _ _ Hi1), (destroy_image _ _ Hi2).
  destruct Hi as (_ & _ & _ & Hc & _), Hi1 as (_ & _ & _ & Hc1 & _).
  unfold getCheckSum. rewrite Hc, Hc1. by split_and!.
Qed.

Lemma writer_rejection_leaves_no_trace_witness :
  exists w w1 x, TLogWriter.open 4096 (image [Entry_sync 1]) 2 = Ok w /\
    run_op (OpLoc (2 ^ 36) sample_loc) w = (w1, Throw x) /\ destroy w1 = image [Entry_sync 1].
Proof.
  destruct (writer_rejection_leaves_no_trace 4096 2 [Entry_sync 1] (OpLoc (2 ^ 36) sample_loc) [])
    as (w & w1 & w2 & x & new & ? & ? & ? & _);
    [apply Nat.ltb_lt; reflexivity | apply Nat.ltb_lt; reflexivity | by_decide | by_decide | reflexivity | constructor | reflexivity |].
  exists w, w1, x. by split_and!.
Defined.

(** *** The check over a closed TLog *)
Definition no_tlog_crc (es : list Entry) : Prop := Forall (fun e => isTLogCRC e = false) es.

(** Evaluates the comparisons of entry kinds. *)
Ltac kinds := repeat match goal with
  | |- context [bool_decide (?a = ?b)] =>
      let v := eval vm_compute in (bool_decide (a = b)) in change (bool_decide (a = b)) with v
  end.

Lemma ctc_step s e b : isTLogCRC e = false -> csc_processEntry (base_ s) e = Ok b ->
  exists l, ctc_processEntry s e =
    Ok (mkCTC b l (update_entry (EntryProcessor.checksum_ s) e) (u64 (num_entries_ s + 1))).
Proof.
  intros Ht. unfold ctc_processEntry, ctc_dispatch, csc_processEntry, dispatch.
  destruct s as [bs l cs n]. cbn [base_ EntryProcessor.checksum_ num_entries_].
  rewrite Ht. unfold isLocation, isSCOCRC, isSync, isTLogCRC, is_type in *.
  destruct (type e) as [t|]; [|done]. destruct t; try done; kinds; cbn.
  - intros [= <-]. eauto.
  - intros E. rewrite E. cbn. eauto.
  - destruct (clusterAddress e); [|done]. cbn. intros E. rewrite E. cbn. eauto.
Qed.

Lemma op_entry_kind o e : op_entry o e -> isTLogCRC e = false.
Proof.
  intros Ho. unfold isTLogCRC, is_type. destruct o as [a l|c| |]; cbn in Ho; [| | |done].
  - by apply EntryFacts.loc_entry in Ho as (_ & _ & _ & -> & _).
  - by destruct Ho as [-> _].
  - by rewrite Ho.
Qed.

Lemma ctc_fold es b : no_tlog_crc es -> rfold csc_processEntry csc_init es = Ok b ->
  exists l n, rfold ctc_processEntry ctc_init es =
    Ok (mkCTC b l (update Crc32cHw CheckSum_default (image es)) n).
Proof.
  revert b. induction es as [|e es IH] using rev_ind; intros b Ht Hb.
  - cbn in Hb. inv_ok. rewrite update_ref by (apply default_wf || constructor). eauto.
  - apply Forall_app in Ht as [Ht He]. apply Forall_cons in He as [He _].
    rewrite rfold_app in Hb. rewrite rfold_app. inv_bind Hb. destruct (IH a Ht Hb0) as (l & n & ->).
    cbn in Hb1 |- *. inv_bind Hb1. inv_ok.
    destruct (ctc_step (mkCTC a l (update Crc32cHw CheckSum_default (image es)) n) e b He Hb2) as (l' & ->).
    cbn [rbind EntryProcessor.checksum_]. eexists _, _. do 2 f_equal. by apply update_entry_image.
Qed.

Lemma ctc_final s e : type e = Ok TLogCRC ->
  ctc_processEntry s e =
    if Entry.getCheckSum e =? getValue (EntryProcessor.checksum_ s)
    then Ok (mkCTC (base_ s) true (update_entry (EntryProcessor.checksum_ s) e) (u64 (num_entries_ s + 1)))
    else Throw TLogWrongCRC.
Proof.
  intros Ht. unfold ctc_processEntry, ctc_dispatch, dispatch, isLocation, isTLogCRC, is_type.
  rewrite Ht. cbn. unfold ctc_processTLogCRC.
  destruct (Entry.getCheckSum e =? getValue (EntryProcessor.checksum_ s)); done.
Qed.

Lemma check_file file n es b e v : 0 < Z.of_nat n < 2 ^ 27 ->
  entries_of file = es ++ [e] -> no_tlog_crc es -> rfold csc_processEntry csc_init es = Ok b ->
  type e = Ok TLogCRC -> Entry.getCheckSum e = v ->
  let r := for_each ctc_processEntry ctc_init (TLogReader.open file n) in
  if v =? getValue (update Crc32cHw CheckSum_default (image es))
  then exists s r', r = Ok (s, r') /\ last_entry_was_tlog_crc_ s = true
  else r = Throw TLogWrongCRC.
Proof.
  intros Hn Hf Ht Hb Hte Hv.
  destruct (TLogReader.open_ok file n Hn) as [Hok Hr].
  pose proof (for_each_spec ctc_processEntry ctc_init (TLogReader.open file n)) as Hs. specialize (Hs Hok).
  cbn [rest TLogReader.reader_spec] in Hs. rewrite Hr, Hf, rfold_app in Hs.
  destruct (ctc_fold es b Ht Hb) as (l & k & E). rewrite E in Hs. cbn [rbind rfold] in Hs.
  rewrite (ctc_final _ e Hte), Hv in Hs. cbn [EntryProcessor.checksum_] in Hs.
  destruct (v =? _); cbn [rbind] in Hs; [|done].
  destruct Hs as (r' & -> & _). eauto.
Qed.

Lemma next_value_differs v : fits 32 v -> u32 (v + 1) <> v.
Proof. unfold fits, wrap. intros. dm. Qed.

(** The SCO CRC discipline, on the operations of a session. *)
Definition csc_op (s : CheckSCOCRC) (o : op) : res CheckSCOCRC :=
  match o with
  | OpLoc a l => csc_processLoc s a l
  | OpSCOCRC cs => csc_processSCOCRC s (getValue cs)
  | _ => Ok s
  end.

Lemma csc_op_entry s o e : op_entry o e -> csc_processEntry s e = csc_op s o.
Proof.
  intros Ho. unfold csc_processEntry, dispatch, isLocation, isTLogCRC, isSCOCRC, isSync, is_type.
  destruct o as [a l|c| |]; cbn [op_entry] in Ho; [| | |done].
  - apply EntryFacts.loc_entry in Ho as (-> & _ & _ & -> & ->). by kinds.
  - destruct Ho as [-> ->]. by kinds.
  - rewrite Ho. by kinds.
Qed.

Lemma csc_ops ops es s b : Forall2 op_entry (List.filter is_entry_op ops) es ->
  rfold csc_op s ops = Ok b -> rfold csc_processEntry s es = Ok b.
Proof.
  revert es s. induction ops as [|o ops IH]; intros es s Hf Hb; cbn in Hf.
  - inversion Hf; subst. done.
  - cbn in Hb. destruct (is_entry_op o) eqn:Eo.
    + inversion Hf as [|? e ? es' Ho Hf']; subst. cbn. rewrite (csc_op_entry _ _ _ Ho).
      inv_bind Hb. rewrite Hb0. cbn. eauto.
    + destruct o; try done. cbn in Hb. eauto.
Qed.

(** a closed TLog verifies and a damaged one does not.  After [close] the
    checking processor run over the file accepts it and has seen the TLog CRC
    last; had the writer ended with a wrong check sum, the same run throws
    [TLogWrongCRC].  The entries must switch SCOs only after a SCO CRC. *)
Theorem closed_tlog_verifies (page numBuffered n : nat) (ops : list op) (b : CheckSCOCRC) :
  (0 < page)%nat -> (0 < numBuffered)%nat -> 0 < Z.of_nat n < 2 ^ 27 ->
  Forall op_wf ops -> forallb op_accepted ops = true ->
  rfold csc_op csc_init ops = Ok b ->
  exists w w' wc cs we, TLogWriter.open page (image []) numBuffered = Ok w /\ miter run_op ops w = (w', Ok tt) /\
    close w' = (wc, Ok cs) /\ cs = update Crc32cHw CheckSum_default (destroy wc) /\
    addWrongTLogCRC w' = (we, Ok tt) /\
    (exists s r, for_each ctc_processEntry ctc_init (TLogReader.open (destroy wc) n) = Ok (s, r) /\
                 last_entry_was_tlog_crc_ s = true) /\
    for_each ctc_processEntry ctc_init (TLogReader.open (destroy we) n) = Throw TLogWrongCRC.
Proof.
  intros Hp Hb Hn Hops Hacc Hcsc0.
  destruct (open_inv page [] numBuffered Hp Hb (Forall_nil_2 _)) as (w & Ho & Hi & _).
  destruct (run_session ops w [] Hi Hops Hacc) as (w' & es & Hr & Hi' & Hf). cbn [app] in Hi'.
  pose proof Hi' as (_ & _ & _ & Hcs & _). pose proof (csc_ops _ _ _ _ Hf Hcsc0) as Hcsc.
  assert (Hwf : CheckSum.wf (checksum_ w'))
    by (rewrite Hcs; apply update_wf; [apply default_wf | apply image_bytes]).
  assert (Hno : no_tlog_crc es).
  { clear -Hf. induction Hf; constructor; [by eapply op_entry_kind|done]. }
  destruct (place_crc true (checksum_ w') TLogCRC w' es Hi' Hwf) as (wc & e & Ec & Hic & Hte & Hve & _); [by left|].
  set (cs2 := CheckSum_value (u32 (getValue (checksum_ w') + 1))).
  destruct (place_crc true cs2 TLogCRC w' es Hi' ltac:(apply bnot32_fits)) as (we & e2 & Ee & Hie & Hte2 & Hve2 & _); [by left|].
  assert (close w' = (wc, Ok (checksum_ wc))) by (unfold close, mbind, mget; by rewrite Ec).
  assert (addWrongTLogCRC w' = (we, Ok tt)) by (unfold addWrongTLogCRC, mbind, mget; exact Ee).
  exists w, w', wc, (checksum_ wc), we.
  pose proof Hic as (_ & Hwfc & _ & Hcsc' & _). pose proof Hie as (_ & Hwfe & _).
  rewrite (destroy_image _ _ Hic), (destroy_image _ _ Hie).
  split_and!; try done.
  - pose proof (check_file (image (es ++ [e])) n es b e _ Hn (entries_of_image _ Hwfc) Hno Hcsc Hte Hve) as Hc.
    cbv zeta in Hc. by rewrite Hcs, Z.eqb_refl in Hc.
  - pose proof (check_file (image (es ++ [e2])) n es b e2 _ Hn (entries_of_image _ Hwfe) Hno Hcsc Hte2 Hve2) as Hc.
    cbv zeta in Hc. unfold cs2 in Hc. rewrite <- Hcs in Hc.
    assert (getValue (CheckSum_value (u32 (getValue (checksum_ w') + 1))) = u32 (getValue (checksum_ w') + 1)) as E
      by (unfold getValue at 1, CheckSum_value; cbn [crc_]; apply bnot32_invol, wrap_fits; lia).
    rewrite E, (proj2 (Z.eqb_neq _ _) (next_value_differs (getValue (checksum_ w')) (bnot32_fits _))) in Hc. done.
Qed.

Lemma closed_tlog_verifies_witness :
  exists w', for_each ctc_processEntry ctc_init (TLogReader.open (destroy w') 2) = Throw TLogWrongCRC.
Proof.
  destruct (closed_tlog_verifies 4096 3 2 [OpLoc 7 sample_loc; OpSCOCRC (CheckSum_value 12); OpSyncEntry]
    (mkCSC (clusterLocation sample_loc) true)) as (w & w' & wc & cs & we & _ & _ & _ & _ & _ & _ & H);
    [apply Nat.ltb_lt; reflexivity | apply Nat.ltb_lt; reflexivity | by_decide | by_decide | reflexivity | reflexivity |].
  by exists we.
Defined.

(** [SCONames] lists the SCOs a TLog refers to: every non-null SCO of a
    location entry is listed, nothing else is, and no SCO is listed twice in a
    row; names already in the vector are kept. *)
Theorem SCONames_exact (file : list Z) (n : nat) (out : list SCO.SCO) :
  0 < Z.of_nat n < 2 ^ 27 ->
  exists names r, SCONames out (TLogReader.open file n) = Ok (out ++ names, r) /\
    (forall s, s <> SCO.make 0 0 0 ->
       s ∈ names <-> exists e, e ∈ entries_of file /\ type e = Ok LOC /\ sco_ (clusterLocation_ e) = s) /\
    (forall i s, names !! i = Some s -> names !! S i <> Some s).
Proof.
  intros Hn. destruct (TLogReader.open_ok file n Hn) as [Hok Hr].
  pose proof (SCONames_spec out (TLogReader.open file n)) as Hs. destruct (Hs Hok) as (r & ->). clear Hs.
  cbn [rest TLogReader.reader_spec]. rewrite Hr. eexists _, r. split; [done|]. split.
  - intros s Hs. rewrite elem_of_collapse by done. unfold scos_of. rewrite list_elem_of_fmap.
    setoid_rewrite list_elem_of_In. setoid_rewrite filter_In. unfold isLocation.
    setoid_rewrite EntryFacts.is_type_true. naive_solver.
  - intros i s Hi Hi2. destruct (collapse_runs (SCO.make 0 0 0) (scos_of (entries_of file)) (S i)) as [H|H].
    + apply H. transitivity (Some s); [exact Hi | symmetry; exact Hi2].
    + apply lookup_lt_Some in Hi. lia.
Qed.

Lemma SCONames_exact_witness : exists names r,
  SCONames [] (TLogReader.open (image [mkEntry 7 sample_loc; mkEntry 8 sample_loc; Entry_sync 0]) 2) = Ok (names, r).
Proof.
  destruct (SCONames_exact (image [mkEntry 7 sample_loc; mkEntry 8 sample_loc; Entry_sync 0]) 2 [])
    as (names & r & H & _); [by_decide|]. by exists names, r.
Defined.

End TLogIOTheorems.
