(* ===== verification/TLogs.v ===== *)
(** * TLog bookkeeping

    src/src/volumedriver/TLog.{h,cpp}: the record kept per TLog and the ordered
    lists of TLogs a snapshot, or the current state, consists of.

    A [TLogId] is a UUID, a 128-bit number.  [TLog()] draws a random one, so the
    identifier of a new TLog is an argument here.  Out-parameters are arguments
    the function returns extended. *)

From S2P Require Import Prelude.

Module TLog.

Definition UUID := Z.
Definition TLogId := UUID.

Record TLog : Type := mkTLog { uuid : TLogId; written_to_backend : bool; size : Z }.

#[global] Instance tlog_eq_dec : EqDecision TLog.
Proof. solve_decision. Defined.

Definition make (tlog_id : TLogId) : TLog := mkTLog tlog_id false 0.

Definition set_writtenToBackend (in_backend : bool) (t : TLog) : TLog :=
  mkTLog (uuid t) in_backend (size t).

Definition add_to_backend_size (s : Z) (t : TLog) : TLog :=
  mkTLog (uuid t) (written_to_backend t) (u64 (size t + s)).

Definition eqb (a b : TLog) : bool :=
  (uuid a =? uuid b) && Bool.eqb (written_to_backend a) (written_to_backend b) && (size a =? size b).

End TLog.

Module TLogs.
Import TLog.

Abbreviation TLogs := (list TLog).
Abbreviation OrderedTLogIds := (list TLogId).

Fixpoint tlogsOnBackend (l : TLogs) : TLogs :=
  match l with
  | [] => []
  | tl :: l' => if written_to_backend tl then tl :: tlogsOnBackend l' else []
  end.

Definition getOrderedTLogIds (l : TLogs) (out : OrderedTLogIds) : OrderedTLogIds :=
  out ++ (uuid <$> l).

Definition getReverseOrderedTLogIds (l : TLogs) (out : OrderedTLogIds) : OrderedTLogIds :=
  out ++ (uuid <$> rev l).

Fixpoint tlogReferenced (l : TLogs) (tlog_id : TLogId) : bool :=
  match l with
  | [] => false
  | t :: l' => if uuid t =? tlog_id then true else tlogReferenced l' tlog_id
  end.

(** The comparison loop of [replace]; the sizes are equal. *)
Fixpoint same_ids (l : TLogs) (ids : OrderedTLogIds) : bool :=
  match l, ids with
  | t :: l', i :: ids' => if negb (uuid t =? i) then false else same_ids l' ids'
  | _, _ => true
  end.

Definition replace (l : TLogs) (ids : OrderedTLogIds) (out : list TLog) : res TLogs :=
  if negb (length ids =? length l)%nat then Throw IOException
  else if negb (same_ids l ids) then Throw IOException
  else if (length out =? 0)%nat then Throw IOException
  else Ok out.

Fixpoint snip (l : TLogs) (tlog_id : TLogId) (backend_size : option Z) : bool * TLogs :=
  match l with
  | [] => (false, [])
  | t :: l' =>
      if tlog_id =? uuid t then
        (true, [match backend_size with
                | Some s => mkTLog (uuid t) (written_to_backend t) s
                | None => t
                end])
      else let '(found, r) := snip l' tlog_id backend_size in (found, t :: r)
  end.

Fixpoint setTLogWrittenToBackend (l : TLogs) (tid : TLogId) (on_backend : bool) : res (bool * TLogs) :=
  match l with
  | [] => Ok (false, [])
  | t :: l' =>
      if uuid t =? tid then Ok (true, set_writtenToBackend on_backend t :: l')
      else if on_backend && negb (written_to_backend t) then Throw IOException
      else let? (b, r) := setTLogWrittenToBackend l' tid on_backend in Ok (b, t :: r)
  end.

(** [boost::tribool]: [None] is [indeterminate]. *)
Fixpoint isTLogWrittenToBackend (l : TLogs) (tid : TLogId) : option bool :=
  match l with
  | [] => None
  | t :: l' => if tid =? uuid t then Some (written_to_backend t) else isTLogWrittenToBackend l' tid
  end.

Fixpoint writtenToBackend (l : TLogs) : bool :=
  match l with
  | [] => true
  | t :: l' => if negb (written_to_backend t) then false else writtenToBackend l'
  end.

Fixpoint checkAndGetAllTLogsWrittenToBackendAndRemoveLaterOnes (l : TLogs) (vec : OrderedTLogIds)
  : option TLogId * OrderedTLogIds * TLogs :=
  match l with
  | [] => (None, vec, [])
  | t :: l' =>
      if written_to_backend t then
        let '(r, vec', rest) := checkAndGetAllTLogsWrittenToBackendAndRemoveLaterOnes l' (vec ++ [uuid t]) in
        (r, vec', t :: rest)
      else (Some (uuid t), vec, [])
  end.

(** The loop, over the TLogs from the last to the first. *)
Fixpoint since_cork_ (rl : TLogs) (cork : option UUID) (seen : bool) (reverse_vec : OrderedTLogIds)
  : res (bool * OrderedTLogIds) :=
  match rl with
  | [] => Ok (false, reverse_vec)
  | t :: rl' =>
      if bool_decide (cork = Some (uuid t)) then
        if negb (written_to_backend t) then Throw CorkNotOnBackendException
        else Ok (true, reverse_vec)
      else if written_to_backend t then since_cork_ rl' cork true (reverse_vec ++ [uuid t])
      else verify (negb seen) in since_cork_ rl' cork seen reverse_vec
  end.

Definition getReversedTLogsOnBackendSinceLastCork (l : TLogs) (cork : option UUID)
  (reverse_vec : OrderedTLogIds) : res (bool * OrderedTLogIds) :=
  since_cork_ (rev l) cork false reverse_vec.

Definition backend_size (l : TLogs) : Z := fold_left (fun s t => u64 (s + size t)) l 0.

(** ** The order of writing

    TLogs reach the backend in order: a list is sane when no TLog is marked as
    written after one that is not. *)
Fixpoint sane (l : TLogs) : bool :=
  match l with
  | [] => true
  | t :: l' => if written_to_backend t then sane l' else forallb (fun u => negb (written_to_backend u)) l'
  end.

Definition ids (l : TLogs) : OrderedTLogIds := uuid <$> l.

Definition written (l : TLogs) : TLogs := List.filter written_to_backend l.
Definition unwritten (l : TLogs) : TLogs := List.filter (fun t => negb (written_to_backend t)) l.

End TLogs.
