(* ===== verification/Snapshots.v ===== *)
(** * Snapshots

    src/src/volumedriver/Snapshot.{h,cpp}: a snapshot is a named list of TLogs,
    [Snapshots] the list of all snapshots of a volume, oldest first.  The date
    of a snapshot and a drawn UUID are arguments. *)

From S2P Require Import Prelude TLogs.

Module Snapshot.
Import TLog TLogs.

Abbreviation SnapshotNum := Z.
Abbreviation SnapshotName := string.
Abbreviation SnapshotMetaData := (list Z).

Record Snapshot : Type := mkSnapshot {
  tlogs : TLogs;
  num : SnapshotNum;
  name : SnapshotName;
  uuid_ : UUID;
  metadata_ : SnapshotMetaData;
  scrubbed : bool;
  date : string;
  hasUUIDSpecified_ : bool;
  cork_uuid_ : UUID }.

(** The constructor; [drawn] is the UUID it draws for an empty list. *)
Definition make (i_num : SnapshotNum) (i_name : SnapshotName) (tlogs : TLogs)
  (metadata : SnapshotMetaData) (uuid : UUID) (set_scrubbed : bool) (now : string) (drawn : UUID) : Snapshot :=
  mkSnapshot tlogs i_num i_name uuid metadata set_scrubbed now true
    (match last tlogs with None => drawn | Some t => TLog.uuid t end).

Definition set_tlogs (l : TLogs) (s : Snapshot) : Snapshot :=
  mkSnapshot l (num s) (name s) (uuid_ s) (metadata_ s) (scrubbed s) (date s) (hasUUIDSpecified_ s) (cork_uuid_ s).
Definition set_scrubbed (b : bool) (s : Snapshot) : Snapshot :=
  mkSnapshot (tlogs s) (num s) (name s) (uuid_ s) (metadata_ s) b (date s) (hasUUIDSpecified_ s) (cork_uuid_ s).

Fixpoint inBackend_ (l : TLogs) : bool :=
  match l with
  | [] => true
  | tl :: l' => if negb (written_to_backend tl) then false else inBackend_ l'
  end.
Definition inBackend (s : Snapshot) : bool := inBackend_ (tlogs s).

Definition getReversedTLogsOnBackendSinceLastCork (s : Snapshot) (cork : option UUID)
  (reverse_vec : OrderedTLogIds) : res (bool * OrderedTLogIds) :=
  if bool_decide (cork = Some (cork_uuid_ s)) && writtenToBackend (tlogs s)
  then Ok (true, reverse_vec)
  else TLogs.getReversedTLogsOnBackendSinceLastCork (tlogs s) cork reverse_vec.

Definition backend_size (s : Snapshot) : Z := fold_left (fun r t => u64 (r + size t)) (tlogs s) 0.

End Snapshot.

Module Snapshots.
Import TLog TLogs Snapshot.

Abbreviation Snapshots := (list Snapshot).

Fixpoint tlogReferenced (ss : Snapshots) (tlog_id : TLogId) : bool :=
  match ss with
  | [] => false
  | s :: ss' => if TLogs.tlogReferenced (tlogs s) tlog_id then true else tlogReferenced ss' tlog_id
  end.

Fixpoint setTLogWrittenToBackend (ss : Snapshots) (tid : TLogId) (on_backend : bool) : res (bool * Snapshots) :=
  match ss with
  | [] => Ok (false, [])
  | s :: ss' =>
      let? (b, l) := TLogs.setTLogWrittenToBackend (tlogs s) tid on_backend in
      if b then Ok (true, set_tlogs l s :: ss')
      else let? (b', r) := setTLogWrittenToBackend ss' tid on_backend in Ok (b', set_tlogs l s :: r)
  end.

Fixpoint isTLogWrittenToBackend (ss : Snapshots) (tid : TLogId) : bool :=
  match ss with
  | [] => false
  | s :: ss' =>
      match TLogs.isTLogWrittenToBackend (tlogs s) tid with
      | Some true => true
      | Some false => false
      | None => isTLogWrittenToBackend ss' tid
      end
  end.

(** [find_]: the position of the first match; [None] is [end()]. *)
Fixpoint find_ (p : Snapshot -> bool) (ss : Snapshots) : option nat :=
  match ss with
  | [] => None
  | s :: ss' => if p s then Some O else S <$> find_ p ss'
  end.
Definition by_name (n : SnapshotName) (s : Snapshot) : bool := bool_decide (name s = n).
Definition by_uuid (u : UUID) (s : Snapshot) : bool := uuid_ s =? u.
Definition by_num (n : SnapshotNum) (s : Snapshot) : bool := num s =? n.

Definition find_or_throw_ (p : Snapshot -> bool) (ss : Snapshots) : res nat :=
  match find_ p ss with
  | Some i => Ok i
  | None => Throw SnapshotNotFoundException
  end.

Definition getSnapshot (p : Snapshot -> bool) (ss : Snapshots) : res Snapshot :=
  let? i := find_or_throw_ p ss in
  match ss !! i with Some s => Ok s | None => Throw SnapshotNotFoundException end.

Definition getTLogsInSnapshot (ss : Snapshots) (n : SnapshotNum) (out : OrderedTLogIds) : bool * OrderedTLogIds :=
  match find_ (by_num n) ss with
  | None => (false, out)
  | Some i => match ss !! i with
              | Some s => (true, getOrderedTLogIds (tlogs s) out)
              | None => (false, out)
              end
  end.

Definition checkSnapshotUUID (ss : Snapshots) (n : SnapshotName) (u : UUID) : bool :=
  match find_ (by_name n) ss with
  | None => false
  | Some i => match ss !! i with Some s => uuid_ s =? u | None => false end
  end.

Definition getNextSnapshotNum (ss : Snapshots) : SnapshotNum :=
  match last ss with None => 0 | Some s => u64 (num s + 1) end.

Definition exists_ (p : Snapshot -> bool) (ss : Snapshots) : bool :=
  match find_ p ss with Some _ => true | None => false end.
Definition snapshotExists (ss : Snapshots) (n : SnapshotName) : bool := exists_ (by_name n) ss.
Definition snapshotExists_num (ss : Snapshots) (n : SnapshotNum) : bool := exists_ (by_num n) ss.
Definition hasSnapshotWithUUID (ss : Snapshots) (u : UUID) : bool := exists_ (by_uuid u) ss.

Definition getTotalBackendSize (ss : Snapshots) : Z :=
  fold_left (fun r s => u64 (r + backend_size s)) ss 0.

(** The loop of [getBackendSize] from index [i] to [stop]; it throws when it
    runs off the end of the list. *)
Fixpoint size_loop (fuel : nat) (ss : Snapshots) (i stop : nat) (result : Z) : res Z :=
  match fuel with
  | O => Throw OutOfFuel
  | S f =>
      if (i =? stop)%nat then Ok result
      else match ss !! i with
           | None => Throw IOException
           | Some s => size_loop f ss (S i) stop (u64 (result + backend_size s))
           end
  end.

Definition getBackendSize (ss : Snapshots) (end_snapshot : SnapshotName) (start_snapshot : option SnapshotName) : res Z :=
  verify (negb (length ss =? 0)%nat) in
  let start := match start_snapshot with
               | Some n => match find_ (by_name n) ss with Some i => i | None => length ss end
               | None => O
               end in
  verify (negb (start =? length ss)%nat) in
  let start := match start_snapshot with Some _ => S start | None => start end in
  match find_ (by_name end_snapshot) ss with
  | None => Throw VerifyFailed
  | Some stop => size_loop (S (S (length ss))) ss start (S stop) 0
  end.

Fixpoint getSnapshotsTill (ss : Snapshots) (n : SnapshotNum) (out : list SnapshotNum) (including : bool)
  : res (list SnapshotNum) :=
  match ss with
  | [] => Throw SnapshotNotFoundException
  | s :: ss' =>
      if num s =? n then (if including then Ok (out ++ [num s]) else Ok out)
      else getSnapshotsTill ss' n (out ++ [num s]) including
  end.

Fixpoint snapshots_after_ (rss : Snapshots) (n : SnapshotNum) (out : list SnapshotNum) : res (list SnapshotNum) :=
  match rss with
  | [] => Throw SnapshotNotFoundException
  | s :: rss' => if num s =? n then Ok (rev out) else snapshots_after_ rss' n (out ++ [num s])
  end.
Definition getSnapshotsAfter (ss : Snapshots) (n : SnapshotNum) (out : list SnapshotNum) : res (list SnapshotNum) :=
  snapshots_after_ (rev ss) n out.

(** The TLogs of the deleted snapshot go, in front, to the next one or to the
    current TLogs [io]. *)
Definition deleteSnapshot (ss : Snapshots) (n : SnapshotNum) (io : TLogs) : res (Snapshots * TLogs) :=
  let? i := find_or_throw_ (by_num n) ss in
  match ss !! i with
  | None => Throw SnapshotNotFoundException
  | Some s =>
      match ss !! S i with
      | None => Ok (take i ss ++ drop (S i) ss, tlogs s ++ io)
      | Some s2 =>
          Ok (take i ss ++ set_scrubbed false (set_tlogs (tlogs s ++ tlogs s2) s2) :: drop (S (S i)) ss, io)
      end
  end.

(** The snapshots before the last one, from the last to the first, are spliced
    in front of the last one. *)
Definition splice_front (last : Snapshot) (s : Snapshot) : Snapshot :=
  set_scrubbed false (set_tlogs (tlogs s ++ tlogs last) last).

Definition deleteAllButLastSnapshot (ss : Snapshots) : res Snapshots :=
  match rev ss with
  | [] => Throw VerifyFailed
  | the_last :: before => Ok [fold_left splice_front before the_last]
  end.

Fixpoint getTLogsTillSnapshot (ss : Snapshots) (n : SnapshotNum) (out : OrderedTLogIds) : res OrderedTLogIds :=
  match ss with
  | [] => Throw SnapshotNotFoundException
  | s :: ss' =>
      if num s =? n then Ok (getOrderedTLogIds (tlogs s) out)
      else getTLogsTillSnapshot ss' n (getOrderedTLogIds (tlogs s) out)
  end.

Fixpoint tlogs_after_ (rss : Snapshots) (n : SnapshotNum) (out : OrderedTLogIds) : res OrderedTLogIds :=
  match rss with
  | [] => Throw SnapshotNotFoundException
  | s :: rss' =>
      if num s =? n then Ok (rev out) else tlogs_after_ rss' n (getReverseOrderedTLogIds (tlogs s) out)
  end.
Definition getTLogsAfterSnapshot (ss : Snapshots) (n : SnapshotNum) (out : OrderedTLogIds) : res OrderedTLogIds :=
  tlogs_after_ (rev ss) n out.

Fixpoint between_ (ss : Snapshots) (start end_snap : SnapshotNum) (start_seen : bool) (out : OrderedTLogIds)
  (include_last : bool) : res OrderedTLogIds :=
  match ss with
  | [] => Throw SnapshotNotFoundException
  | s :: ss' =>
      let start_seen := if num s =? start then true else start_seen in
      if (num s >? start) && (num s <? end_snap) then
        if negb start_seen then Throw SnapshotNotFoundException
        else between_ ss' start end_snap start_seen (getOrderedTLogIds (tlogs s) out) include_last
      else if num s =? end_snap then
        if negb start_seen then Throw SnapshotNotFoundException
        else if include_last then Ok (getOrderedTLogIds (tlogs s) out) else Ok out
      else between_ ss' start end_snap start_seen out include_last
  end.
Definition getTLogsBetweenSnapshots (ss : Snapshots) (start end_snap : SnapshotNum) (out : OrderedTLogIds)
  (include_last : bool) : res OrderedTLogIds :=
  if start >? end_snap then Throw IOException
  else between_ ss start end_snap false out include_last.

(** The snapshot that holds the TLog is cut behind it, later ones are erased. *)
Fixpoint snip (ss : Snapshots) (tlog_id : TLogId) (backend_size : option Z) : bool * Snapshots :=
  match ss with
  | [] => (false, [])
  | s :: ss' =>
      let '(found, l) := TLogs.snip (tlogs s) tlog_id backend_size in
      if found then (true, [set_tlogs l s])
      else let '(found', r) := snip ss' tlog_id backend_size in (found', set_tlogs l s :: r)
  end.

Definition deleteTLogsAndSnapshotsAfterSnapshot (ss : Snapshots) (n : SnapshotNum) : res Snapshots :=
  let? i := find_or_throw_ (by_num n) ss in
  Ok (take (S i) ss).

Definition getAllSnapshots (ss : Snapshots) (out : list SnapshotNum) : list SnapshotNum := out ++ (num <$> ss).

Fixpoint all_equal (l vec : list TLog) : bool :=
  match l, vec with
  | t :: l', v :: vec' => if negb (TLog.eqb t v) then false else all_equal l' vec'
  | _, _ => true
  end.
Definition already_replaced (vec : list TLog) (l : TLogs) : bool :=
  negb (length vec =? 0)%nat && (length vec =? length l)%nat && all_equal l vec.

Definition replace (ss : Snapshots) (ids : OrderedTLogIds) (out : list TLog) (n : SnapshotNum) : res Snapshots :=
  verify (forallb written_to_backend out) in
  let? i := find_or_throw_ (by_num n) ss in
  match ss !! i with
  | None => Throw SnapshotNotFoundException
  | Some s =>
      if already_replaced out (tlogs s) then Ok ss
      else let? l := TLogs.replace (tlogs s) ids out in Ok (<[i := set_tlogs l s]> ss)
  end.

Definition setSnapshotScrubbed (ss : Snapshots) (n : SnapshotNum) (b : bool) : res Snapshots :=
  let? i := find_or_throw_ (by_num n) ss in
  Ok (alter (set_scrubbed b) i ss).

(** The search loop of [getSnapshotScrubbingWork]: positions behind the
    requested start and end snapshots. *)
Fixpoint work_bounds (ss : Snapshots) (i : nat) (start_snap end_snap : option SnapshotName)
  (sit eit : option nat) : res (option nat * option nat) :=
  match ss with
  | [] => Ok (sit, eit)
  | s :: ss' =>
      let? sit :=
        (if bool_decide (start_snap = Some (name s)) then
           verify (bool_decide (sit = None)) in
           match eit with Some _ => Throw IOException | None => Ok (Some (S i)) end
         else Ok sit) in
      let? eit :=
        (if bool_decide (end_snap = Some (name s)) then
           verify (bool_decide (eit = None)) in Ok (Some (S i))
         else Ok eit) in
      work_bounds ss' (S i) start_snap end_snap sit eit
  end.

Definition getSnapshotScrubbingWork (ss : Snapshots) (start_snap end_snap : option SnapshotName)
  (out : list SnapshotName) : res (list SnapshotName) :=
  let? (sit, eit) := work_bounds ss 0 start_snap end_snap None None in
  match sit, start_snap with
  | None, Some _ => Throw SnapshotNotFoundException
  | _, _ =>
      match eit, end_snap with
      | None, Some _ => Throw SnapshotNotFoundException
      | _, _ =>
          let first := default O sit in
          let stop := default (length ss) eit in
          Ok (out ++ (name <$> List.filter (fun s => negb (scrubbed s) && writtenToBackend (tlogs s))
                                 (drop first (take stop ss))))
      end
  end.

End Snapshots.
