(* ===== verification/SnapshotPersistor.v ===== *)
(** * The snapshot persistor

    src/src/volumedriver/SnapshotPersistor.{h,cpp}: the TLogs of a volume, grouped
    by snapshot, and the current ones.  Every operation that throws does so
    before it changes the object, so an operation is a function to [res].
    Serialization to XML and the traversal of the parents in the backend are
    not modelled. *)

From S2P Require Import Prelude TLogs Snapshots.
From Stdlib Require Import Mergesort Orders.

Module ZOrder <: TotalLeBool.
Definition t := Z.
Definition leb := Z.leb.
Lemma leb_total : forall a b, Z.leb a b = true \/ Z.leb b a = true.
Proof. intros a b. rewrite !Z.leb_le. lia. Qed.
End ZOrder.

(** [std::sort] on snapshot numbers. *)
Module ZSort := Sort ZOrder.

Module SnapshotPersistor.
Import TLog TLogs Snapshot.

Record SnapshotPersistor : Type := mkSP {
  current : TLogs;
  snapshots : Snapshots.Snapshots;
  parent_ : option (string * SnapshotName);
  scrub_id_ : UUID }.

Definition with_current (l : TLogs) (p : SnapshotPersistor) : SnapshotPersistor :=
  mkSP l (snapshots p) (parent_ p) (scrub_id_ p).
Definition with_snapshots (ss : Snapshots.Snapshots) (p : SnapshotPersistor) : SnapshotPersistor :=
  mkSP (current p) ss (parent_ p) (scrub_id_ p).

Definition newTLog (fresh : TLogId) (p : SnapshotPersistor) : SnapshotPersistor :=
  with_current (current p ++ [TLog.make fresh]) p.

Definition create (parent : option (string * SnapshotName)) (scrub_id : UUID) (fresh : TLogId) : SnapshotPersistor :=
  newTLog fresh (mkSP [] [] parent scrub_id).

Definition isSnapshotInBackend (p : SnapshotPersistor) (n : SnapshotNum) : res bool :=
  let? s := Snapshots.getSnapshot (Snapshots.by_num n) (snapshots p) in Ok (inBackend s).

Definition setTLogWrittenToBackend (p : SnapshotPersistor) (tlogid : TLogId) (on_backend : bool) : res SnapshotPersistor :=
  let? (found, ss) := Snapshots.setTLogWrittenToBackend (snapshots p) tlogid on_backend in
  if found then Ok (with_snapshots ss p)
  else let? (found', l) := TLogs.setTLogWrittenToBackend (current p) tlogid on_backend in
       Ok (with_current l (with_snapshots ss p)).

Definition isTLogWrittenToBackend (p : SnapshotPersistor) (tlogid : TLogId) : bool :=
  match TLogs.isTLogWrittenToBackend (current p) tlogid with
  | Some b => b
  | None => Snapshots.isTLogWrittenToBackend (snapshots p) tlogid
  end.

Definition getCurrentTLogsWrittenToBackend (p : SnapshotPersistor) (out : OrderedTLogIds) : OrderedTLogIds :=
  fold_left (fun o t => if written_to_backend t then o ++ [uuid t] else o) (current p) out.

Definition getCurrentTLogsNotWrittenToBackend (p : SnapshotPersistor) (out : OrderedTLogIds) : OrderedTLogIds :=
  fold_left (fun o t => if negb (written_to_backend t) then o ++ [uuid t] else o) (current p) out.

Definition getTLogsInSnapshot (p : SnapshotPersistor) (n : SnapshotNum) (out : OrderedTLogIds) : bool * OrderedTLogIds :=
  Snapshots.getTLogsInSnapshot (snapshots p) n out.

Definition getCurrentTLogs (p : SnapshotPersistor) (out : OrderedTLogIds) : OrderedTLogIds :=
  getOrderedTLogIds (current p) out.

Definition getAllSnapshots (p : SnapshotPersistor) (vec : list SnapshotNum) : list SnapshotNum :=
  Snapshots.getAllSnapshots (snapshots p) vec.

Definition getAllTLogs (p : SnapshotPersistor) (vec : OrderedTLogIds) (with_current : bool) : OrderedTLogIds :=
  let snaps := ZSort.sort (getAllSnapshots p []) in
  let vec := fold_left (fun v n => snd (getTLogsInSnapshot p n v)) snaps vec in
  if with_current then getCurrentTLogs p vec else vec.

(** The loop of the two functions below: the flag is [no_non_written_tlog_seen]. *)
Fixpoint written_loop (p : SnapshotPersistor) (want : bool) (tmp : OrderedTLogIds) (none_seen : bool)
  (out : OrderedTLogIds) : res OrderedTLogIds :=
  match tmp with
  | [] => Ok out
  | t :: tmp' =>
      if isTLogWrittenToBackend p t then
        verify none_seen in written_loop p want tmp' none_seen (if want then out ++ [t] else out)
      else written_loop p want tmp' false (if want then out else out ++ [t])
  end.

Definition getTLogsNotWrittenToBackend (p : SnapshotPersistor) (out : OrderedTLogIds) : res OrderedTLogIds :=
  written_loop p false (getAllTLogs p [] true) true out.

Definition getTLogsWrittenToBackend (p : SnapshotPersistor) (out : OrderedTLogIds) : res OrderedTLogIds :=
  written_loop p true (getAllTLogs p [] true) true out.

Definition max_snapshot_metadata_size : nat := Z.to_nat 4096.

Definition snapshotExists (p : SnapshotPersistor) (n : SnapshotName) : bool :=
  Snapshots.snapshotExists (snapshots p) n.
Definition snapshotExists_num (p : SnapshotPersistor) (n : SnapshotNum) : bool :=
  Snapshots.snapshotExists_num (snapshots p) n.

Definition snapshot (p : SnapshotPersistor) (n : SnapshotName) (metadata : SnapshotMetaData) (u : UUID)
  (create_scrubbed : bool) (now : string) (drawn fresh : UUID) : res SnapshotPersistor :=
  if snapshotExists p n then Throw SnapshotNameAlreadyExists
  else if (max_snapshot_metadata_size <? length metadata)%nat then Throw ExcessiveMetaDataException
  else
    let s := Snapshot.make (Snapshots.getNextSnapshotNum (snapshots p)) n (current p) metadata u
               create_scrubbed now drawn in
    Ok (newTLog fresh (with_current [] (with_snapshots (snapshots p ++ [s]) p))).

Definition checkSnapshotUUID (p : SnapshotPersistor) (n : SnapshotName) (u : UUID) : bool :=
  Snapshots.checkSnapshotUUID (snapshots p) n u.

Definition getCurrentTLog (p : SnapshotPersistor) : res TLogId :=
  match last (current p) with Some t => Ok (uuid t) | None => Throw VerifyFailed end.

Definition getSnapshot (p : SnapshotPersistor) (n : SnapshotName) : res Snapshot :=
  Snapshots.getSnapshot (Snapshots.by_name n) (snapshots p).
Definition getSnapshotNum (p : SnapshotPersistor) (n : SnapshotName) : res SnapshotNum :=
  let? s := getSnapshot p n in Ok (num s).
Definition getSnapshotName (p : SnapshotPersistor) (n : SnapshotNum) : res SnapshotName :=
  let? s := Snapshots.getSnapshot (Snapshots.by_num n) (snapshots p) in Ok (name s).
Definition getUUID (p : SnapshotPersistor) (n : SnapshotNum) : res UUID :=
  let? s := Snapshots.getSnapshot (Snapshots.by_num n) (snapshots p) in Ok (uuid_ s).
Definition hasSnapshotWithUUID (p : SnapshotPersistor) (u : UUID) : bool :=
  Snapshots.hasSnapshotWithUUID (snapshots p) u.

Definition getSnapshotsTill (p : SnapshotPersistor) := Snapshots.getSnapshotsTill (snapshots p).
Definition getSnapshotsAfter (p : SnapshotPersistor) := Snapshots.getSnapshotsAfter (snapshots p).

Definition deleteSnapshot (p : SnapshotPersistor) (n : SnapshotNum) : res SnapshotPersistor :=
  let? (ss, l) := Snapshots.deleteSnapshot (snapshots p) n (current p) in
  Ok (with_current l (with_snapshots ss p)).

Definition deleteAllButLastSnapshot (p : SnapshotPersistor) : res SnapshotPersistor :=
  let? ss := Snapshots.deleteAllButLastSnapshot (snapshots p) in Ok (with_snapshots ss p).

Definition getTLogsTillSnapshot (p : SnapshotPersistor) (n : SnapshotNum) (out : OrderedTLogIds) : res OrderedTLogIds :=
  Snapshots.getTLogsTillSnapshot (snapshots p) n out.
Definition getTLogsTillSnapshot_name (p : SnapshotPersistor) (n : SnapshotName) (out : OrderedTLogIds) : res OrderedTLogIds :=
  let? i := getSnapshotNum p n in getTLogsTillSnapshot p i out.

Definition getTLogsAfterSnapshot (p : SnapshotPersistor) (n : SnapshotNum) (out : OrderedTLogIds) : res OrderedTLogIds :=
  let? out := Snapshots.getTLogsAfterSnapshot (snapshots p) n out in
  Ok (getOrderedTLogIds (current p) out).

Definition getTLogsBetweenSnapshots (p : SnapshotPersistor) := Snapshots.getTLogsBetweenSnapshots (snapshots p).

Definition deleteTLogsAndSnapshotsAfterSnapshot (p : SnapshotPersistor) (n : SnapshotNum) (fresh : TLogId)
  : res SnapshotPersistor :=
  let? ss := Snapshots.deleteTLogsAndSnapshotsAfterSnapshot (snapshots p) n in
  Ok (newTLog fresh (with_current [] (with_snapshots ss p))).

Definition snip (p : SnapshotPersistor) (tlog_id : TLogId) (backend_size : option Z) : bool * SnapshotPersistor :=
  let '(found, ss) := Snapshots.snip (snapshots p) tlog_id backend_size in
  if found then
    (true, with_current (match last ss with Some s => tlogs s | None => [] end)
             (with_snapshots (removelast ss) p))
  else
    let '(found', l) := TLogs.snip (current p) tlog_id backend_size in
    (found', with_current l (with_snapshots ss p)).

Definition tlogReferenced (p : SnapshotPersistor) (tlog_id : TLogId) : bool :=
  Snapshots.tlogReferenced (snapshots p) tlog_id || TLogs.tlogReferenced (current p) tlog_id.

(** [new_id] is the scrub id drawn by [new_scrub_id]. *)
Definition replace (p : SnapshotPersistor) (ids : OrderedTLogIds) (out : list TLog) (n : SnapshotNum) (new_id : UUID)
  : res (UUID * SnapshotPersistor) :=
  let? ss := Snapshots.replace (snapshots p) ids out n in
  Ok (new_id, mkSP (current p) ss (parent_ p) new_id).

Definition getSnapshotScrubbed (p : SnapshotPersistor) (n : SnapshotNum) (nothrow : bool) : res bool :=
  if negb (snapshotExists_num p n) then (if nothrow then Ok true else Throw IOException)
  else let? s := Snapshots.getSnapshot (Snapshots.by_num n) (snapshots p) in Ok (scrubbed s).

Definition setSnapshotScrubbed (p : SnapshotPersistor) (n : SnapshotNum) (b : bool) : res SnapshotPersistor :=
  let? ss := Snapshots.setSnapshotScrubbed (snapshots p) n b in Ok (with_snapshots ss p).

Definition getSnapshotScrubbingWork (p : SnapshotPersistor) := Snapshots.getSnapshotScrubbingWork (snapshots p).

Fixpoint since_cork_snapshots (rss : list Snapshot) (cork : option UUID) (vec : OrderedTLogIds)
  : res (bool * OrderedTLogIds) :=
  match rss with
  | [] => Ok (false, vec)
  | s :: rss' =>
      let? (b, vec) := Snapshot.getReversedTLogsOnBackendSinceLastCork s cork vec in
      if b then Ok (true, vec) else since_cork_snapshots rss' cork vec
  end.

Definition getTLogsOnBackendSinceLastCork (p : SnapshotPersistor) (cork implicit_start_cork : option UUID)
  : res OrderedTLogIds :=
  verify (Bool.eqb (bool_decide (parent_ p = None)) (bool_decide (implicit_start_cork = None))) in
  let? (b, vec) := TLogs.getReversedTLogsOnBackendSinceLastCork (current p) cork [] in
  if b then Ok (rev vec)
  else
    let? (b, vec) := since_cork_snapshots (rev (snapshots p)) cork vec in
    if b then Ok (rev vec)
    else if bool_decide (cork = implicit_start_cork) then Ok (rev vec)
    else Throw CorkNotFoundException.

Fixpoint last_written (rl : TLogs) : option UUID :=
  match rl with
  | [] => None
  | t :: rl' => if written_to_backend t then Some (uuid t) else last_written rl'
  end.
Fixpoint last_written_snapshot (rss : list Snapshot) : option UUID :=
  match rss with
  | [] => None
  | s :: rss' => if writtenToBackend (tlogs s) then Some (cork_uuid_ s) else last_written_snapshot rss'
  end.
Definition lastCork (p : SnapshotPersistor) : option UUID :=
  match last_written (rev (current p)) with
  | Some c => Some c
  | None => last_written_snapshot (rev (snapshots p))
  end.

(** The first snapshot that is not in the backend is cut off, with all that follow. *)
Fixpoint trim_loop (ss : list Snapshot) : option TLogs * list Snapshot :=
  match ss with
  | [] => (None, [])
  | s :: ss' =>
      if negb (inBackend s) then (Some (tlogsOnBackend (tlogs s)), [])
      else let '(c, r) := trim_loop ss' in (c, s :: r)
  end.
Definition trimToBackend (p : SnapshotPersistor) (fresh : TLogId) : SnapshotPersistor :=
  let '(c, ss) := trim_loop (snapshots p) in
  newTLog fresh (with_current (match c with Some l => l | None => tlogsOnBackend (current p) end)
                   (with_snapshots ss p)).

Definition getSnapshotBackendSize (p : SnapshotPersistor) (n : SnapshotName) : res Z :=
  let? s := getSnapshot p n in Ok (Snapshot.backend_size s).
Definition getCurrentBackendSize (p : SnapshotPersistor) : Z := TLogs.backend_size (current p).
Definition getTotalBackendSize (p : SnapshotPersistor) : Z :=
  u64 (Snapshots.getTotalBackendSize (snapshots p) + getCurrentBackendSize p).

Fixpoint add_to_last (s : Z) (l : TLogs) : TLogs :=
  match l with
  | [] => []
  | [t] => [add_to_backend_size s t]
  | t :: l' => t :: add_to_last s l'
  end.
Definition addCurrentBackendSize (p : SnapshotPersistor) (s : Z) : res SnapshotPersistor :=
  verify (negb (length (current p) =? 0)%nat) in Ok (with_current (add_to_last s (current p)) p).

(** [WrittenToBackendVerifier]; the flag is shared by the copies of the functor. *)
Definition verifier (unwritten_tlog_seen : bool) (t : TLog) : res bool :=
  if written_to_backend t then (if unwritten_tlog_seen then Throw IOException else Ok unwritten_tlog_seen)
  else Ok true.
Definition verifySanity_ (p : SnapshotPersistor) : res unit :=
  let? seen := rfold (fun b s => rfold verifier b (tlogs s)) false (snapshots p) in
  let? _ := rfold verifier seen (current p) in Ok tt.

Definition hasUUIDSpecified (p : SnapshotPersistor) : bool :=
  match snapshots p with [] => true | s :: _ => hasUUIDSpecified_ s end.

Definition getBackendSize (p : SnapshotPersistor) := Snapshots.getBackendSize (snapshots p).

Definition getSnapshotCork (p : SnapshotPersistor) (n : SnapshotName) : res UUID :=
  let? s := getSnapshot p n in Ok (cork_uuid_ s).

End SnapshotPersistor.
