(* ===== verification/SnapshotFacts.v ===== *)
(** * The snapshot persistor as one log

    The abstract view of a [SnapshotPersistor] is the list of all its TLogs,
    [flat]: the snapshots only group a prefix of it.  The operations on the
    groups are shown to be the list operations of TLogs.v on [flat], and the
    invariant of the persistor (TLogs reach the backend in order, identifiers
    are unique, snapshot numbers increase) is preserved by every operation. *)

From S2P Require Import Prelude TLogs Snapshots SnapshotPersistor.
From Stdlib Require Import Sorted.

Module TLogsFacts.
Import TLog TLogs.

Abbreviation W := written_to_backend.

Lemma writtenToBackend_forallb l : writtenToBackend l = forallb W l.
Proof. induction l as [|t l IH]; cbn; [done|]. rewrite IH. by destruct (W t). Qed.

Lemma writtenToBackend_app a b : writtenToBackend (a ++ b) = writtenToBackend a && writtenToBackend b.
Proof. rewrite !writtenToBackend_forallb. apply forallb_app. Qed.

Lemma inBackend_written l : Snapshot.inBackend_ l = writtenToBackend l.
Proof. induction l as [|t l IH]; cbn; [done|]. by rewrite IH. Qed.

Lemma sane_app a b : sane (a ++ b) =
  if writtenToBackend a then sane b else sane a && forallb (fun t => negb (W t)) b.
Proof. induction a as [|t a IH]; cbn; [done|]. destruct (W t); cbn; [done|]. by rewrite forallb_app. Qed.

Lemma sane_all_written l : writtenToBackend l = true -> sane l = true.
Proof. induction l as [|t l IH]; cbn; [done|]. by destruct (W t). Qed.

Lemma sane_all_unwritten l : forallb (fun t => negb (W t)) l = true -> sane l = true.
Proof. destruct l as [|t l]; cbn; [done|]. by destruct (W t). Qed.

Lemma sane_prefix a b : sane (a ++ b) = true -> sane a = true.
Proof. rewrite sane_app. destruct (writtenToBackend a) eqn:E; [by intros; apply sane_all_written|].
  by intros [? _]%andb_true_iff. Qed.

(** A fresh TLog, not yet written, may always be appended. *)
Lemma sane_snoc_unwritten l t : W t = false -> sane l = true -> sane (l ++ [t]) = true.
Proof. intros Ht Hl. rewrite sane_app. destruct (writtenToBackend l); cbn; by rewrite Ht, ?Hl. Qed.

Lemma filter_none {A} (f : A -> bool) l : forallb (fun x => negb (f x)) l = true -> List.filter f l = [].
Proof. induction l as [|x l IH]; cbn; [done|]. destruct (f x); cbn; [done|auto]. Qed.

Lemma filter_all {A} (f : A -> bool) l : forallb f l = true -> List.filter f l = l.
Proof. induction l as [|x l IH]; cbn; [done|]. destruct (f x); cbn; [|done]. intros. by rewrite IH. Qed.

Lemma forallb_negb_negb {A} (f : A -> bool) l : forallb (fun x => negb (negb (f x))) l = forallb f l.
Proof. induction l as [|x l IH]; cbn; [done|]. by rewrite negb_involutive, IH. Qed.

Lemma sane_split l : sane l = true -> l = written l ++ unwritten l.
Proof.
  unfold written, unwritten. induction l as [|t l IH]; cbn; [done|]. destruct (W t); cbn.
  - intros H. f_equal. auto.
  - intros H. rewrite filter_none by done. cbn. by rewrite (filter_all (fun t => negb (W t))).
Qed.

Lemma written_app a b : written (a ++ b) = written a ++ written b.
Proof. apply List.filter_app. Qed.

Lemma tlogsOnBackend_app a b : tlogsOnBackend (a ++ b) =
  if writtenToBackend a then a ++ tlogsOnBackend b else tlogsOnBackend a.
Proof. induction a as [|t a IH]; cbn; [done|]. destruct (W t); cbn; [|done].
  rewrite IH. by destruct (writtenToBackend a). Qed.

Lemma tlogsOnBackend_written l : sane l = true -> tlogsOnBackend l = written l.
Proof. unfold written. induction l as [|t l IH]; cbn; [done|]. destruct (W t); intros H.
  - f_equal. auto.
  - by rewrite filter_none. Qed.

Lemma tlogsOnBackend_all l : writtenToBackend (tlogsOnBackend l) = true.
Proof. induction l as [|t l IH]; cbn; [done|]. destruct (W t) eqn:E; cbn; [|done]. by rewrite E. Qed.

Lemma tlogsOnBackend_prefix l : exists r, l = tlogsOnBackend l ++ r.
Proof. induction l as [|t l [r IH]]; cbn; [by exists []|]. destruct (W t).
  - exists r. cbn. by f_equal.
  - by exists (t :: l). Qed.

(** ** The list operations distribute over append *)
Lemma set_app a b tid on : setTLogWrittenToBackend (a ++ b) tid on =
  let? (f, a') := setTLogWrittenToBackend a tid on in
  if (f : bool) then Ok (true, a' ++ b)
  else let? (g, b') := setTLogWrittenToBackend b tid on in Ok (g, a' ++ b').
Proof.
  induction a as [|t a IH]; cbn.
  - by destruct (setTLogWrittenToBackend b tid on) as [[g b']|].
  - destruct (uuid t =? tid); [done|]. destruct (on && negb (W t)); [done|].
    rewrite IH. destruct (setTLogWrittenToBackend a tid on) as [[[] a']|]; cbn; try done.
    by destruct (setTLogWrittenToBackend b tid on) as [[g b']|].
Qed.

Lemma snip_app a b i s : snip (a ++ b) i s =
  let '(f, a') := snip a i s in
  if (f : bool) then (true, a') else let '(g, b') := snip b i s in (g, a' ++ b').
Proof.
  induction a as [|t a IH]; cbn.
  - by destruct (snip b i s).
  - destruct (i =? uuid t); [done|]. rewrite IH. destruct (snip a i s) as [[] a']; [done|].
    by destruct (snip b i s).
Qed.

Lemma snip_false l i s : fst (snip l i s) = false -> snip l i s = (false, l).
Proof. induction l as [|t l IH]; cbn; [done|]. destruct (i =? uuid t); [done|].
  destruct (snip l i s) as [f r]; cbn in *. intros ->. by injection (IH eq_refl) as ->. Qed.

Lemma set_false l i on r : setTLogWrittenToBackend l i on = Ok (false, r) -> r = l.
Proof.
  revert r. induction l as [|t l IH]; cbn; intros r; [by intros [= <-]|].
  destruct (uuid t =? i); [done|]. destruct (on && negb (W t)); [done|].
  destruct (setTLogWrittenToBackend l i on) as [[f l']|]; cbn; [|done].
  intros [= -> <-]. f_equal. auto.
Qed.

Lemma referenced_app a b i : tlogReferenced (a ++ b) i = tlogReferenced a i || tlogReferenced b i.
Proof. induction a as [|t a IH]; cbn; [done|]. by destruct (uuid t =? i). Qed.

Lemma referenced_elem l i : tlogReferenced l i = true <-> i ∈ ids l.
Proof.
  unfold ids. induction l as [|t l IH]; cbn; [split; [done|by intros ?%elem_of_nil]|].
  rewrite elem_of_cons. destruct (Z.eqb_spec (uuid t) i) as [->|Hne].
  - split; [by left|done].
  - rewrite IH. split; [by right|by intros [->|]].
Qed.

Lemma ids_app a b : ids (a ++ b) = ids a ++ ids b.
Proof. apply fmap_app. Qed.

(** What [snip] keeps: everything up to the TLog, included. *)
Lemma snip_spec l i s : i ∈ ids l -> exists l1 t l2 t',
  l = l1 ++ t :: l2 /\ uuid t = i /\ (i ∉ ids l1) /\ snip l i s = (true, l1 ++ [t']) /\
  uuid t' = i /\ W t' = W t /\ size t' = match s with Some z => z | None => size t end.
Proof.
  unfold ids. induction l as [|t l IH]; cbn; [by intros ?%elem_of_nil|].
  intros Hi. destruct (Z.eqb_spec i (uuid t)) as [->|Hne].
  - exists [], t, l. eexists. split_and!; try done; [by intros ?%elem_of_nil|..]; by destruct s.
  - apply elem_of_cons in Hi as [->|Hi]; [done|].
    destruct (IH Hi) as (l1 & u & l2 & t' & -> & ? & Hn & -> & ?). exists (t :: l1), u, l2, t'.
    split_and!; try done; try apply H0. by rewrite fmap_cons, not_elem_of_cons.
Qed.

(** What [setTLogWrittenToBackend] does, on a sane list. *)
Lemma set_true_spec l i : sane l = true ->
  match setTLogWrittenToBackend l i true with
  | Ok (found, l') => ids l' = ids l /\ sane l' = true /\ found = tlogReferenced l i /\ length l' = length l
  | Throw x => x = IOException
  end.
Proof.
  induction l as [|t l IH]; cbn; [done|]. intros Hs.
  destruct (uuid t =? i) eqn:E; cbn.
  - split_and!; try done. destruct (W t); [done|]. by apply sane_all_unwritten.
  - destruct (W t) eqn:Ew; cbn; [|done]. specialize (IH Hs).
    destruct (setTLogWrittenToBackend l i true) as [[f l']|x]; cbn; [|done].
    destruct IH as (Hi & Hs' & -> & Hl). rewrite Ew. split_and!; try done; [|by f_equal].
    unfold ids in *. cbn. by f_equal.
Qed.

Lemma set_true_exact tid l :
  match setTLogWrittenToBackend l tid true with
  | Ok (_, l') => (exists l1 t l2, l = l1 ++ t :: l2 /\ uuid t = tid /\ writtenToBackend l1 = true /\
                     l' = l1 ++ set_writtenToBackend true t :: l2) \/
                  ((tid ∉ ids l) /\ writtenToBackend l = true /\ l' = l)
  | Throw x => x = IOException /\ exists l1 t l2, l = l1 ++ t :: l2 /\ W t = false /\ (tid ∉ ids (l1 ++ [t]))
  end.
Proof.
  induction l as [|t l IH]; cbn; [right; split_and!; [by intros ?%elem_of_nil|done|done]|].
  destruct (Z.eqb_spec (uuid t) tid) as [Ht|Ht]; [left; by exists [], t, l|].
  destruct (W t) eqn:Ew; cbn.
  - destruct (setTLogWrittenToBackend l tid true) as [[f l']|x]; cbn.
    + destruct IH as [(l1 & u & l2 & -> & ? & ? & ->)|(? & ? & ->)].
      * left. exists (t :: l1), u, l2. split_and!; try done. cbn. by rewrite Ew.
      * right. split_and!; try done. apply not_elem_of_cons. by split; [congruence|].
    + destruct IH as (-> & l1 & u & l2 & -> & ? & ?). split; [done|]. exists (t :: l1), u, l2.
      split_and!; try done. apply not_elem_of_cons. by split; [congruence|].
  - split; [done|]. exists [], t, l. split_and!; try done. cbn.
    apply not_elem_of_cons. split; [congruence|by intros ?%elem_of_nil].
Qed.

Lemma sane_suffix a b : sane (a ++ b) = true -> sane b = true.
Proof. rewrite sane_app. destruct (writtenToBackend a); [done|].
  intros [_ ?]%andb_true_iff. by apply sane_all_unwritten. Qed.

Lemma written_written l : forallb W (written l) = true.
Proof. unfold written. induction l as [|t l IH]; cbn; [done|]. destruct (W t) eqn:E; cbn; [by rewrite E|done]. Qed.

Lemma unwritten_unwritten l : forallb (fun t => negb (W t)) (unwritten l) = true.
Proof. unfold unwritten. induction l as [|t l IH]; cbn; [done|]. destruct (W t) eqn:E; cbn; [done|by rewrite E]. Qed.

(** ** The cork search *)
Definition no_cork (cork : option UUID) (l : TLogs) : Prop := forall c, cork = Some c -> c ∉ ids l.

Lemma no_cork_cons cork t l : no_cork cork (t :: l) <-> cork <> Some (uuid t) /\ no_cork cork l.
Proof.
  unfold no_cork, ids. rewrite fmap_cons. setoid_rewrite not_elem_of_cons. split.
  - intros H. split; [intros ->; by destruct (H _ eq_refl)|]. intros c Hc. by apply H.
  - intros [H1 H2] c ->. split; [intros E; apply H1; by rewrite E|by apply H2].
Qed.

Lemma no_cork_app cork a b : no_cork cork (a ++ b) <-> no_cork cork a /\ no_cork cork b.
Proof. unfold no_cork. setoid_rewrite ids_app. setoid_rewrite not_elem_of_app.
  split; [intros H; split; intros c Hc; by apply H | intros [H1 H2] c Hc; split; auto]. Qed.

Lemma no_cork_rev cork l : no_cork cork (rev l) <-> no_cork cork l.
Proof. unfold no_cork, ids. setoid_rewrite list_elem_of_fmap.
  setoid_rewrite list_elem_of_In. by setoid_rewrite <- in_rev. Qed.

Lemma since_skip_unwritten u r cork vec : forallb (fun t => negb (W t)) u = true -> no_cork cork u ->
  since_cork_ (u ++ r) cork false vec = since_cork_ r cork false vec.
Proof.
  revert vec. induction u as [|t u IH]; intros vec Hu Hc; [done|]. cbn in *.
  apply andb_true_iff in Hu as [Ht Hu]. apply no_cork_cons in Hc as [Hc1 Hc2].
  rewrite bool_decide_false by done. destruct (W t); [done|]. auto.
Qed.

Lemma since_take_written w r cork vec seen : forallb W w = true -> no_cork cork w ->
  exists seen', since_cork_ (w ++ r) cork seen vec = since_cork_ r cork seen' (vec ++ ids w).
Proof.
  revert vec seen. induction w as [|t w IH]; intros vec seen Hw Hc; cbn in *.
  - rewrite app_nil_r. eauto.
  - apply andb_true_iff in Hw as [Ht Hw]. apply no_cork_cons in Hc as [Hc1 Hc2].
    rewrite bool_decide_false, Ht by done. destruct (IH (vec ++ [uuid t]) true Hw Hc2) as [s' ->].
    rewrite <- app_assoc. eauto.
Qed.

Lemma forallb_rev {A} (f : A -> bool) l : forallb f (rev l) = forallb f l.
Proof. induction l as [|x l IH]; cbn; [done|]. rewrite forallb_app, IH. cbn. rewrite andb_true_r. apply andb_comm. Qed.

Lemma ids_rev l : ids (rev l) = rev (ids l).
Proof. unfold ids. induction l as [|t l IH]; cbn; [done|]. by rewrite fmap_app, IH. Qed.

(** Everything behind position [r] is collected when the cork is not there. *)
Lemma since_suffix l r cork vec : sane l = true -> no_cork cork l ->
  exists seen, since_cork_ (rev l ++ r) cork false vec = since_cork_ r cork seen (vec ++ rev (ids (written l))).
Proof.
  intros Hs Hc.
  assert (no_cork cork (written l) /\ no_cork cork (unwritten l)) as [Hcw Hcu]
    by (apply no_cork_app; by rewrite <- sane_split).
  assert (rev l = rev (unwritten l) ++ rev (written l)) as ->
    by (rewrite <- rev_app_distr; f_equal; by apply sane_split).
  rewrite <- app_assoc.
  rewrite since_skip_unwritten by (rewrite ?forallb_rev, ?no_cork_rev; done || apply unwritten_unwritten).
  rewrite <- ids_rev. apply since_take_written; [rewrite forallb_rev; apply written_written | by apply no_cork_rev].
Qed.

Lemma since_absent l cork vec : sane l = true -> no_cork cork l ->
  getReversedTLogsOnBackendSinceLastCork l cork vec = Ok (false, vec ++ rev (ids (written l))).
Proof. intros Hs Hc. unfold getReversedTLogsOnBackendSinceLastCork.
  destruct (since_suffix l [] cork vec Hs Hc) as [seen H]. by rewrite app_nil_r in H. Qed.

Lemma since_found l1 t l2 vec : sane l2 = true -> uuid t ∉ ids l2 -> W t = true ->
  getReversedTLogsOnBackendSinceLastCork (l1 ++ t :: l2) (Some (uuid t)) vec
  = Ok (true, vec ++ rev (ids (written l2))).
Proof.
  intros Hs Hc Ht. unfold getReversedTLogsOnBackendSinceLastCork.
  rewrite rev_app_distr. cbn [rev]. rewrite <- app_assoc.
  destruct (since_suffix l2 ([t] ++ rev l1) (Some (uuid t)) vec Hs) as [seen ->]; [by intros c [= <-]|].
  cbn. by rewrite bool_decide_true, Ht.
Qed.

(** ** Sizes *)
Lemma sum_shift {A} (f : A -> Z) l z :
  u64 (fold_left (fun s t => u64 (s + f t)) l z) = u64 (z + fold_right (fun t s => f t + s) 0 l).
Proof.
  revert z. induction l as [|t l IH]; intros z; cbn.
  - by rewrite Z.add_0_r.
  - rewrite IH. unfold wrap. rewrite Z.add_mod_idemp_l by lia. f_equal. lia.
Qed.

Lemma sum_fits {A} (f : A -> Z) l z : fits 64 z -> fits 64 (fold_left (fun s t => u64 (s + f t)) l z).
Proof. revert z. induction l as [|t l IH]; intros z Hz; cbn; [done|]. apply IH, wrap_fits. lia. Qed.

(** The size of a list of TLogs, without wrap-around. *)
Definition total (l : TLogs) : Z := fold_right (fun t s => size t + s) 0 l.

Lemma total_app a b : total (a ++ b) = total a + total b.
Proof. unfold total. induction a as [|t a IH]; cbn; [lia|]. rewrite IH. lia. Qed.

Lemma backend_size_total l : TLogs.backend_size l = u64 (total l).
Proof. unfold TLogs.backend_size, total. rewrite <- (Z.add_0_l (fold_right _ _ _)), <- sum_shift.
  symmetry. apply wrap_id, sum_fits. by_decide. Qed.

End TLogsFacts.

Module PersistorFacts.
Import TLog TLogs Snapshot SnapshotPersistor TLogsFacts.

Abbreviation nums ss := (num <$> (ss : list Snapshot)).
Abbreviation names ss := (name <$> (ss : list Snapshot)).

Definition flats (ss : list Snapshot) : TLogs := concat (tlogs <$> ss).
Definition flat (p : SnapshotPersistor) : TLogs := flats (snapshots p) ++ current p.

Ltac spcbn := unfold with_current, with_snapshots; cbn [snapshots current parent_ scrub_id_].

Lemma flats_app a b : flats (a ++ b) = flats a ++ flats b.
Proof. unfold flats. by rewrite fmap_app, concat_app. Qed.

Lemma flats_cons s ss : flats (s :: ss) = tlogs s ++ flats ss.
Proof. done. Qed.

(** What the bookkeeping of snapshots, TLogs apart, looks like. *)
Definition skeleton (s : Snapshot) := set_tlogs [] s.

Lemma set_tlogs_same s : set_tlogs (tlogs s) s = s.
Proof. by destruct s. Qed.

Lemma skeleton_nums ss1 ss2 : skeleton <$> ss1 = skeleton <$> ss2 -> nums ss1 = nums ss2 /\ names ss1 = names ss2.
Proof.
  revert ss2. induction ss1 as [|s1 ss1 IH]; intros [|s2 ss2]; cbn; try done.
  intros H. injection H as ? ? ? ? ? ? ? ? Hr. destruct (IH ss2 Hr) as [-> ->]. split; by f_equal.
Qed.

(** ** Grouped operations are operations on [flat] *)
Lemma snaps_set ss tid on :
  match TLogs.setTLogWrittenToBackend (flats ss) tid on with
  | Ok (f, l) => exists ss', Snapshots.setTLogWrittenToBackend ss tid on = Ok (f, ss') /\
                   flats ss' = l /\ skeleton <$> ss' = skeleton <$> ss
  | Throw x => Snapshots.setTLogWrittenToBackend ss tid on = Throw x
  end.
Proof.
  induction ss as [|s ss IH]; [by exists []|]. rewrite flats_cons, set_app. cbn [Snapshots.setTLogWrittenToBackend].
  destruct (TLogs.setTLogWrittenToBackend (tlogs s) tid on) as [[[] l]|x]; cbn [rbind]; [by eexists|..|done].
  destruct (TLogs.setTLogWrittenToBackend (flats ss) tid on) as [[g l']|x]; cbn [rbind].
  - destruct IH as (ss' & -> & <- & Hs). cbn. eexists. split; [done|]. split; [done|]. cbn. by f_equal.
  - by rewrite IH.
Qed.

Lemma set_flat p tid on :
  match TLogs.setTLogWrittenToBackend (flat p) tid on with
  | Ok (_, l) => exists p', setTLogWrittenToBackend p tid on = Ok p' /\ flat p' = l /\
                   skeleton <$> snapshots p' = skeleton <$> snapshots p /\ length (current p') = length (current p)
  | Throw x => setTLogWrittenToBackend p tid on = Throw x
  end.
Proof.
  unfold flat, setTLogWrittenToBackend. rewrite set_app. pose proof (snaps_set (snapshots p) tid on) as Hs.
  destruct (TLogs.setTLogWrittenToBackend (flats (snapshots p)) tid on) as [[[] l]|x]; cbn [rbind].
  - destruct Hs as (ss' & -> & <- & Hs). cbn. eexists. split; [done|]. by split_and!.
  - destruct Hs as (ss' & -> & <- & Hs). cbn.
    destruct (TLogs.setTLogWrittenToBackend (current p) tid on) as [[g l']|x] eqn:E; cbn; [|done].
    eexists. split; [done|]. split_and!; try done. cbn.
    clear -E. revert g l' E. induction (current p) as [|t l IH]; cbn; intros g l'; [by intros [= <- <-]|].
    destruct (uuid t =? tid); [by intros [= <- <-]|]. destruct (on && negb (W t)); [done|].
    destruct (TLogs.setTLogWrittenToBackend l tid on) as [[g2 l2]|]; cbn; [|done].
    intros [= <- <-]. cbn. f_equal. eauto.
  - by rewrite Hs.
Qed.

Lemma snaps_snip ss i z : exists ss', Snapshots.snip ss i z = (fst (TLogs.snip (flats ss) i z), ss') /\
  flats ss' = snd (TLogs.snip (flats ss) i z) /\ skeleton <$> ss' = skeleton <$> take (length ss') ss /\
  (fst (TLogs.snip (flats ss) i z) = true -> ss' <> [] /\
     exists s l, last ss' = Some s /\ tlogs s = l /\ l <> []) /\
  (fst (TLogs.snip (flats ss) i z) = false -> ss' = ss).
Proof.
  induction ss as [|s ss IH]; [by exists []|]. rewrite flats_cons, snip_app. cbn [Snapshots.snip].
  destruct (TLogs.snip (tlogs s) i z) as [[] l] eqn:E.
  - eexists. split; [done|]. cbn. rewrite app_nil_r. split_and!; try done. intros _. split; [done|].
    eexists _, _. split; [done|]. split; [done|]. cbn. intros ->.
    clear -E. destruct (tlogs s) as [|t l]; cbn in E; [done|].
    destruct (i =? uuid t); [done|]. by destruct (TLogs.snip l i z).
  - destruct IH as (ss' & -> & Hf & Hsk & Ht & Hff).
    destruct (TLogs.snip (flats ss) i z) as [g l'] eqn:E2. cbn [fst snd] in *.
    assert (l = tlogs s) as -> by (assert (TLogs.snip (tlogs s) i z = (false, tlogs s)) by (apply snip_false; by rewrite E); congruence).
    exists (s :: ss'). rewrite set_tlogs_same. split; [done|].
    split; [rewrite flats_cons; by f_equal|]. split; [cbn; by f_equal|]. split.
    + intros Hg. destruct (Ht Hg) as (Hne & s' & l & Hl & ?). split; [done|]. exists s', l.
      split; [|done]. destruct ss'; [done|]. done.
    + intros Hg. f_equal. auto.
Qed.

Lemma flats_removelast ss s : last ss = Some s -> flats (removelast ss) ++ tlogs s = flats ss.
Proof.
  destruct ss as [|x ss] using rev_ind; [done|]. rewrite last_snoc. intros [= <-].
  rewrite removelast_last, flats_app. cbn. by rewrite app_nil_r.
Qed.

Lemma snip_found l i z : fst (TLogs.snip l i z) = TLogs.tlogReferenced l i.
Proof. induction l as [|t l IH]; cbn; [done|]. rewrite (Z.eqb_sym i).
  destruct (uuid t =? i); [done|]. by destruct (TLogs.snip l i z). Qed.

Lemma snaps_referenced ss i : Snapshots.tlogReferenced ss i = TLogs.tlogReferenced (flats ss) i.
Proof. induction ss as [|s ss IH]; cbn; [done|]. rewrite referenced_app, IH.
  by destruct (TLogs.tlogReferenced (tlogs s) i). Qed.

Lemma referenced_flat p i : tlogReferenced p i = TLogs.tlogReferenced (flat p) i.
Proof. unfold tlogReferenced, flat. by rewrite referenced_app, snaps_referenced. Qed.

Lemma snip_nonempty l i z : l <> [] -> snd (TLogs.snip l i z) <> [].
Proof. destruct l as [|t l]; [done|]. intros _. cbn. destruct (i =? uuid t); [done|].
  by destruct (TLogs.snip l i z). Qed.

Lemma removelast_take {A} (l : list A) : removelast l = take (pred (length l)) l.
Proof. destruct l as [|x l _] using rev_ind; [done|]. rewrite removelast_last, length_app. cbn.
  replace (pred (length l + 1)) with (length l) by lia. by rewrite take_app_length. Qed.

(** [snip] cuts the log behind the TLog, whatever group holds it. *)
Lemma snip_flat p i z : exists p', snip p i z = (tlogReferenced p i, p') /\
  flat p' = snd (TLogs.snip (flat p) i z) /\
  (exists k, skeleton <$> snapshots p' = skeleton <$> take k (snapshots p)) /\
  (current p <> [] -> current p' <> []).
Proof.
  unfold snip. rewrite referenced_flat. unfold flat at 1 3.
  rewrite referenced_app, snip_app, <- !(snip_found _ i z).
  destruct (snaps_snip (snapshots p) i z) as (ss' & -> & Hf & Hsk & Ht & Hff).
  destruct (TLogs.snip (flats (snapshots p)) i z) as [[] l]; cbn [fst snd orb] in *.
  - destruct (Ht eq_refl) as (Hne & s & l' & Hl & Hs & Hn). rewrite Hl.
    eexists. split; [done|]. unfold flat. spcbn. rewrite (flats_removelast ss' s Hl). split; [done|].
    split; [|by intros _; subst]. exists (pred (length ss')).
    rewrite removelast_take, fmap_take, Hsk, <- fmap_take, take_take. do 2 f_equal. lia.
  - rewrite Hff in * by done. pose proof (snip_nonempty (current p) i z) as Hne.
    destruct (TLogs.snip (current p) i z) as [g l2]. cbn [fst snd] in *.
    eexists. split; [done|]. unfold flat. spcbn. split; [by rewrite Hf|]. split; [|done].
    exists (length (snapshots p)). by rewrite firstn_all.
Qed.

Lemma snaps_trim ss : exists c ss', trim_loop ss = (c, ss') /\
  match c with
  | Some l => flats ss' ++ l = tlogsOnBackend (flats ss) /\ writtenToBackend (flats ss) = false
  | None => ss' = ss /\ writtenToBackend (flats ss) = true
  end /\ ss' = take (length ss') ss.
Proof.
  induction ss as [|s ss IH]; [by exists None, []|]. cbn [trim_loop]. unfold inBackend.
  rewrite inBackend_written, flats_cons, tlogsOnBackend_app, writtenToBackend_app.
  destruct (writtenToBackend (tlogs s)) eqn:E; cbn [negb andb].
  - destruct IH as (c & ss' & -> & Hc & Ht). exists c, (s :: ss'). split; [done|]. split.
    + destruct c as [l|]; [|by destruct Hc as [-> ?]]. destruct Hc as [Hc ?]. split; [|done].
      by rewrite flats_cons, <- app_assoc, Hc.
    + cbn. by f_equal.
  - exists (Some (tlogsOnBackend (tlogs s))), []. by split_and!.
Qed.

(** [trimToBackend] keeps the TLogs on the backend and starts a new one. *)
Lemma trim_flat p fresh : flat (trimToBackend p fresh) = tlogsOnBackend (flat p) ++ [TLog.make fresh] /\
  (exists k, snapshots (trimToBackend p fresh) = take k (snapshots p)).
Proof.
  unfold trimToBackend, flat. destruct (snaps_trim (snapshots p)) as (c & ss' & -> & Hc & Ht).
  rewrite tlogsOnBackend_app. destruct c as [l|]; destruct Hc as [Hc Hw]; unfold newTLog; spcbn.
  - rewrite Hw, app_assoc, Hc. split; [done|]. by exists (length ss').
  - rewrite Hw, Hc, app_assoc. split; [done|]. exists (length (snapshots p)). by rewrite firstn_all.
Qed.

(** ** Searching *)
Lemma find_split (f : Snapshot -> bool) ss i : Snapshots.find_ f ss = Some i ->
  exists a s b, ss = a ++ s :: b /\ length a = i /\ f s = true /\ Forall (fun x => f x = false) a.
Proof.
  revert i. induction ss as [|s ss IH]; intros i; cbn; [done|]. destruct (f s) eqn:E.
  - intros [= <-]. by exists [], s, ss.
  - destruct (Snapshots.find_ f ss) as [j|]; cbn; [|done]. intros [= <-].
    destruct (IH j eq_refl) as (a & x & b & -> & <- & ? & ?). exists (s :: a), x, b. split_and!; try done. by constructor.
Qed.

Lemma find_none (f : Snapshot -> bool) ss : Snapshots.find_ f ss = None <-> Forall (fun x => f x = false) ss.
Proof.
  induction ss as [|s ss IH]; cbn; [split; [constructor|done]|]. rewrite Forall_cons. destruct (f s).
  - split; [done|by intros [? _]].
  - rewrite <- IH. destruct (Snapshots.find_ f ss); cbn; split; [done|by intros [_ ?]|done|done].
Qed.

Lemma find_app (f : Snapshot -> bool) a s b : Forall (fun x => f x = false) a -> f s = true ->
  Snapshots.find_ f (a ++ s :: b) = Some (length a).
Proof. intros Ha Hs. induction Ha as [|x a Hx Ha IH]; cbn; [by rewrite Hs|]. by rewrite Hx, IH. Qed.

Lemma lookup_mid {A} (a : list A) s b : (a ++ s :: b) !! length a = Some s.
Proof. by rewrite lookup_app_r, Nat.sub_diag by done. Qed.

Lemma getSnapshot_split (f : Snapshot -> bool) ss : 
  match Snapshots.getSnapshot f ss with
  | Ok s => exists a b, ss = a ++ s :: b /\ f s = true /\ Forall (fun x => f x = false) a
  | Throw x => x = SnapshotNotFoundException /\ Forall (fun x => f x = false) ss
  end.
Proof.
  unfold Snapshots.getSnapshot, Snapshots.find_or_throw_. destruct (Snapshots.find_ f ss) as [i|] eqn:E; cbn.
  - apply find_split in E as (a & s & b & -> & <- & ? & ?). rewrite lookup_mid. eauto.
  - by apply find_none in E.
Qed.

Lemma getSnapshot_app (f : Snapshot -> bool) a s b : Forall (fun x => f x = false) a -> f s = true ->
  Snapshots.getSnapshot f (a ++ s :: b) = Ok s.
Proof. intros. unfold Snapshots.getSnapshot, Snapshots.find_or_throw_. rewrite find_app by done.
  cbn. by rewrite lookup_mid. Qed.

Lemma drop_mid {A} (a : list A) s b : drop (S (length a)) (a ++ s :: b) = b.
Proof. rewrite cons_middle, app_assoc. apply drop_app_length'. rewrite length_app. cbn. lia. Qed.

(** ** Operations that regroup *)
Lemma delete_split p n p' : deleteSnapshot p n = Ok p' -> exists a s b,
  snapshots p = a ++ s :: b /\ num s = n /\ flat p' = flat p /\ parent_ p' = parent_ p /\
  match b with
  | [] => snapshots p' = a /\ current p' = tlogs s ++ current p
  | s2 :: b' => snapshots p' = a ++ Snapshots.splice_front s2 s :: b' /\ current p' = current p
  end.
Proof.
  unfold deleteSnapshot, Snapshots.deleteSnapshot, Snapshots.find_or_throw_.
  destruct (Snapshots.find_ (Snapshots.by_num n) (snapshots p)) as [i|] eqn:E; cbn [rbind]; [|done].
  apply find_split in E as (a & s & b & Hss & <- & Hn & _). rewrite Hss, lookup_mid.
  assert ((a ++ s :: b) !! S (length a) = head b) as ->.
  { rewrite lookup_app_r by lia. replace (S (length a) - length a)%nat with 1%nat by lia. by destruct b. }
  assert (Ht : take (length a) (a ++ s :: b) = a) by by rewrite take_app_length.
  rewrite Ht, drop_mid. destruct b as [|s2 b']; cbn [head]; intros [= <-]; exists a, s; eexists; (split; [done|]).
  - unfold flat. spcbn. rewrite Hss, app_nil_r, flats_app.
    split_and!; try done; [by apply Z.eqb_eq|]. cbn. by rewrite app_nil_r, <- app_assoc.
  - unfold flat. spcbn. rewrite Hss, !flats_app.
    replace (a ++ s :: s2 :: b') with ((a ++ [s]) ++ s2 :: b') by list_norm.
    assert (S (length a) = length (a ++ [s])) as -> by (rewrite length_app; cbn; lia). rewrite drop_mid.
    split_and!; try done; [by apply Z.eqb_eq|]. cbn. by rewrite <- (app_assoc (tlogs s)).
Qed.

Lemma delete_exists p n : is_ok (deleteSnapshot p n) = snapshotExists_num p n.
Proof.
  unfold deleteSnapshot, Snapshots.deleteSnapshot, Snapshots.find_or_throw_, snapshotExists_num,
    Snapshots.snapshotExists_num, Snapshots.exists_.
  destruct (Snapshots.find_ (Snapshots.by_num n) (snapshots p)) as [i|] eqn:E; cbn [rbind]; [|done].
  apply find_split in E as (a & s & b & -> & <- & _). rewrite lookup_mid.
  by destruct ((a ++ s :: b) !! S (length a)).
Qed.

Lemma splice_fold before the_last : 
  tlogs (fold_left Snapshots.splice_front before the_last) = flats (rev before) ++ tlogs the_last /\
  num (fold_left Snapshots.splice_front before the_last) = num the_last /\
  name (fold_left Snapshots.splice_front before the_last) = name the_last.
Proof.
  revert the_last. induction before as [|s before IH]; intros l; cbn [fold_left rev]; [done|].
  destruct (IH (Snapshots.splice_front l s)) as (-> & -> & ->). split_and!; try done.
  rewrite flats_app, <- app_assoc. cbn. by rewrite app_nil_r.
Qed.

Lemma delete_all_split p p' : deleteAllButLastSnapshot p = Ok p' -> exists a s s',
  snapshots p = a ++ [s] /\ snapshots p' = [s'] /\ num s' = num s /\ name s' = name s /\
  current p' = current p /\ flat p' = flat p.
Proof.
  unfold deleteAllButLastSnapshot, Snapshots.deleteAllButLastSnapshot, flat.
  destruct (snapshots p) as [|s a _] using rev_ind; [done|]. rewrite rev_app_distr. cbn.
  intros [= <-]. destruct (splice_fold (rev a) s) as (Ht & Hn & Hm).
  exists a, s. eexists. split; [done|]. spcbn. split_and!; try done.
  unfold flats at 1. cbn. by rewrite Ht, rev_involutive, flats_app, app_nil_r; cbn; rewrite app_nil_r.
Qed.

Lemma delete_after_split p n fresh p' : deleteTLogsAndSnapshotsAfterSnapshot p n fresh = Ok p' ->
  exists a s b, snapshots p = a ++ s :: b /\ num s = n /\ snapshots p' = a ++ [s] /\
    current p' = [TLog.make fresh] /\ flat p' = flats (a ++ [s]) ++ [TLog.make fresh].
Proof.
  unfold deleteTLogsAndSnapshotsAfterSnapshot, Snapshots.deleteTLogsAndSnapshotsAfterSnapshot, Snapshots.find_or_throw_.
  destruct (Snapshots.find_ (Snapshots.by_num n) (snapshots p)) as [i|] eqn:E; cbn [rbind]; [|done].
  apply find_split in E as (a & s & b & Hss & <- & Hn & _). intros [= <-]. exists a, s, b.
  assert (take (S (length a)) (snapshots p) = a ++ [s]) as Ht.
  { rewrite Hss, cons_middle, app_assoc. apply take_app_length'. rewrite length_app. cbn. lia. }
  rewrite Ht. split_and!; try done. by apply Z.eqb_eq.
Qed.

Lemma snapshot_split p n md u sc now drawn fresh p' : snapshot p n md u sc now drawn fresh = Ok p' ->
  (n ∉ names (snapshots p)) /\ exists s, snapshots p' = snapshots p ++ [s] /\ name s = n /\ tlogs s = current p /\
  num s = Snapshots.getNextSnapshotNum (snapshots p) /\
  current p' = [TLog.make fresh] /\ flat p' = flat p ++ [TLog.make fresh].
Proof.
  unfold snapshot, snapshotExists, Snapshots.snapshotExists, Snapshots.exists_.
  destruct (Snapshots.find_ (Snapshots.by_name n) (snapshots p)) as [i|] eqn:E; [done|].
  destruct (max_snapshot_metadata_size <? length md)%nat; [done|]. intros [= <-]. split.
  - apply find_none in E. rewrite list_elem_of_fmap. intros (s & -> & Hs).
    pose proof (proj1 (Forall_forall _ _) E s Hs) as Hb. unfold Snapshots.by_name in Hb.
    by rewrite bool_decide_true in Hb.
  - eexists. split; [done|]. unfold flat, newTLog. spcbn. split_and!; try done.
    rewrite flats_app. cbn. by rewrite app_nil_r.
Qed.

Lemma tlog_eqb_eq a b : TLog.eqb a b = true <-> a = b.
Proof.
  destruct a as [i w z], b as [i' w' z']. unfold TLog.eqb. cbn.
  rewrite !andb_true_iff, !Z.eqb_eq, Bool.eqb_true_iff. split; [by intros [[-> ->] ->]|by intros [= -> -> ->]].
Qed.

Lemma all_equal_eq l vec : length l = length vec -> Snapshots.all_equal l vec = true -> l = vec.
Proof.
  revert vec. induction l as [|t l IH]; intros [|v vec]; cbn; try done. intros [= Hl].
  destruct (TLog.eqb t v) eqn:E; cbn; [|done]. apply tlog_eqb_eq in E as ->. intros. f_equal. auto.
Qed.

Lemma same_ids_eq l i : length l = length i -> same_ids l i = true -> i = TLogs.ids l.
Proof.
  revert i. unfold TLogs.ids. induction l as [|t l IH]; intros [|v i]; cbn; try done. intros [= Hl].
  destruct (Z.eqb_spec (uuid t) v) as [->|]; cbn; [|done]. intros. f_equal. auto.
Qed.

Lemma replace_split p i out n new_id u p' : replace p i out n new_id = Ok (u, p') -> exists a s b,
  snapshots p = a ++ s :: b /\ num s = n /\ Forall (fun x => Snapshots.by_num n x = false) a /\
  forallb W out = true /\ out <> [] /\
  (out = tlogs s \/ i = TLogs.ids (tlogs s)) /\
  u = new_id /\ p' = mkSP (current p) (a ++ set_tlogs out s :: b) (parent_ p) new_id.
Proof.
  unfold replace, Snapshots.replace, Snapshots.find_or_throw_.
  destruct (forallb W out) eqn:Ew; cbn [rbind]; [|done].
  destruct (Snapshots.find_ (Snapshots.by_num n) (snapshots p)) as [k|] eqn:E; cbn [rbind]; [|done].
  apply find_split in E as (a & s & b & Hss & <- & Hn & Ha). rewrite Hss, lookup_mid. apply Z.eqb_eq in Hn.
  unfold Snapshots.already_replaced. destruct (Nat.eqb_spec (length out) 0) as [H0|H0]; cbn [negb andb].
  { unfold TLogs.replace. destruct (negb _); [done|]. destruct (negb _); [done|]. by rewrite H0. }
  assert (out <> []) by by destruct out.
  destruct ((length out =? length (tlogs s))%nat && Snapshots.all_equal (tlogs s) out) eqn:Ea; cbn [rbind].
  - apply andb_true_iff in Ea as [El%Nat.eqb_eq Ea]. apply all_equal_eq in Ea; [|done].
    intros [= <- <-]. exists a, s, b. rewrite <- Ea, set_tlogs_same. split_and!; try done; [by rewrite Ea|by left].
  - unfold TLogs.replace. destruct (Nat.eqb_spec (length i) (length (tlogs s))) as [El|]; cbn [negb]; [|done].
    destruct (same_ids (tlogs s) i) eqn:Es; cbn [negb]; [|done].
    rewrite (proj2 (Nat.eqb_neq _ _) H0). cbn. intros [= <- <-]. exists a, s, b. split_and!; try done.
    + right. by apply same_ids_eq.
    + f_equal. by rewrite insert_app_r_alt, Nat.sub_diag by done.
Qed.

Lemma scrubbed_split p n v p' : setSnapshotScrubbed p n v = Ok p' -> exists a s b,
  snapshots p = a ++ s :: b /\ num s = n /\
  p' = with_snapshots (a ++ set_scrubbed v s :: b) p.
Proof.
  unfold setSnapshotScrubbed, Snapshots.setSnapshotScrubbed, Snapshots.find_or_throw_.
  destruct (Snapshots.find_ (Snapshots.by_num n) (snapshots p)) as [k|] eqn:E; cbn [rbind]; [|done].
  apply find_split in E as (a & s & b & Hss & <- & Hn & _). intros [= <-]. exists a, s, b.
  split_and!; [done|by apply Z.eqb_eq|]. rewrite Hss. f_equal.
  clear. induction a as [|x a IH]; cbn; [done|]. by f_equal.
Qed.

Lemma add_to_last_spec z l : TLogs.ids (add_to_last z l) = TLogs.ids l /\
  W <$> add_to_last z l = W <$> l /\ (l <> [] -> add_to_last z l <> []).
Proof.
  unfold TLogs.ids. induction l as [|t l (H1 & H2 & _)]; cbn; [done|]. destruct l as [|u l]; [done|].
  split_and!; [|..|done].
  - rewrite !fmap_cons in *. by f_equal.
  - rewrite !fmap_cons in *. by f_equal.
Qed.

Lemma sane_written_map a b : W <$> a = W <$> b -> sane a = sane b.
Proof.
  revert b. induction a as [|t a IH]; intros [|u b]; cbn; try done. intros H. injection H as Hw H. rewrite Hw.
  destruct (W u); [auto|]. clear IH Hw. revert b H. induction a as [|x a IH]; intros [|y b]; cbn; try done.
  intros H. injection H as Hw H. rewrite Hw. f_equal. auto.
Qed.

(** ** The invariant *)
Definition keys (ss : list Snapshot) : list (SnapshotNum * SnapshotName) := (fun s => (num s, name s)) <$> ss.

Record inv (p : SnapshotPersistor) : Prop := {
  inv_sane : sane (flat p) = true;
  inv_ids : NoDup (TLogs.ids (flat p));
  inv_nums : StronglySorted Z.lt (nums (snapshots p));
  inv_fits : Forall (fits 64) (nums (snapshots p));
  inv_names : NoDup (names (snapshots p));
  inv_current : current p <> [] }.

Lemma sublist_sorted (l k : list Z) : sublist l k -> StronglySorted Z.lt k -> StronglySorted Z.lt l.
Proof.
  induction 1 as [|x l k Hs IH|x l k Hs IH]; intros H; [done|..]; inversion H as [|? ? H1 H2]; subst; [|auto].
  constructor; [auto|]. eapply Forall_forall. intros y Hy.
  eapply (proj1 (Forall_forall _ _) H2). by eapply elem_of_submseteq; [|apply sublist_submseteq].
Qed.

Lemma keys_nums ss : nums ss = fst <$> keys ss.
Proof. unfold keys. by rewrite <- list_fmap_compose. Qed.
Lemma keys_names ss : names ss = snd <$> keys ss.
Proof. unfold keys. by rewrite <- list_fmap_compose. Qed.

Lemma sublist_fmap {A B} (f : A -> B) l k : sublist l k -> sublist (f <$> l) (f <$> k).
Proof. induction 1; cbn; by constructor. Qed.

Lemma inv_sub p p' : inv p -> sublist (keys (snapshots p')) (keys (snapshots p)) ->
  sane (flat p') = true -> NoDup (TLogs.ids (flat p')) -> current p' <> [] -> inv p'.
Proof.
  intros [? ? Hn Hf Hm ?] Hs ? ? ?. pose proof (sublist_fmap fst _ _ Hs) as Hk1. pose proof (sublist_fmap snd _ _ Hs) as Hk2.
  rewrite <- !keys_nums in Hk1. rewrite <- !keys_names in Hk2. constructor; try done.
  - by eapply sublist_sorted.
  - eapply Forall_forall. intros y Hy. eapply (proj1 (Forall_forall _ _) Hf).
    by eapply elem_of_submseteq; [|apply sublist_submseteq].
  - by eapply sublist_NoDup.
Qed.

Lemma skeleton_keys ss1 ss2 : skeleton <$> ss1 = skeleton <$> ss2 -> keys ss1 = keys ss2.
Proof.
  intros H. unfold keys. revert ss2 H. induction ss1 as [|s1 ss1 IH]; intros [|s2 ss2]; cbn; try done.
  intros H. injection H as H1 H2 _ _ _ _ _ _ Hr. rewrite H1, H2. f_equal. auto.
Qed.

End PersistorFacts.
