(* ===== verification/SnapshotTheorems.v ===== *)
(** * Correctness of the snapshot persistor

    Reachable states satisfy the persistor's invariant; the queries and the
    operations are characterised on the abstract log of SnapshotFacts.v. *)

From S2P Require Import Prelude TLogs Snapshots SnapshotPersistor SnapshotFacts.
From Stdlib Require Import Sorted Permutation.

Module PersistorSteps.
Import TLog TLogs Snapshot SnapshotPersistor TLogsFacts PersistorFacts.

(** The operations that change a persistor. *)
Inductive op : Type :=
  | OpNewTLog (fresh : TLogId)
  | OpSnapshot (n : SnapshotName) (md : SnapshotMetaData) (u : UUID) (sc : bool) (now : string) (drawn fresh : UUID)
  | OpWritten (tid : TLogId)
  | OpDelete (n : SnapshotNum)
  | OpDeleteAllButLast
  | OpRestore (n : SnapshotNum) (fresh : TLogId)
  | OpSnip (tid : TLogId) (z : option Z)
  | OpTrim (fresh : TLogId)
  | OpReplace (ids : OrderedTLogIds) (out : list TLog) (n : SnapshotNum) (new_id : UUID)
  | OpScrubbed (n : SnapshotNum) (b : bool)
  | OpAddSize (z : Z).

Definition run (o : op) (p : SnapshotPersistor) : res SnapshotPersistor :=
  match o with
  | OpNewTLog fresh => Ok (newTLog fresh p)
  | OpSnapshot n md u sc now drawn fresh => snapshot p n md u sc now drawn fresh
  | OpWritten tid => setTLogWrittenToBackend p tid true
  | OpDelete n => deleteSnapshot p n
  | OpDeleteAllButLast => deleteAllButLastSnapshot p
  | OpRestore n fresh => deleteTLogsAndSnapshotsAfterSnapshot p n fresh
  | OpSnip tid z => Ok (snd (snip p tid z))
  | OpTrim fresh => Ok (trimToBackend p fresh)
  | OpReplace ids out n new_id => let? (_, p') := replace p ids out n new_id in Ok p'
  | OpScrubbed n b => setSnapshotScrubbed p n b
  | OpAddSize z => addCurrentBackendSize p z
  end.

(** What callers provide: a drawn identifier is new, snapshot numbers have not
    run out, and scrub results replace the (one or more) TLogs of a snapshot that
    is in the backend by new ones (or by the ones it has, when a scrub is applied twice). *)
Definition admissible (p : SnapshotPersistor) (o : op) : Prop :=
  match o with
  | OpNewTLog fresh | OpRestore _ fresh | OpTrim fresh => fresh ∉ ids (flat p)
  | OpSnapshot _ _ _ _ _ _ fresh =>
      (fresh ∉ ids (flat p)) /\ Forall (fun n => n < 2 ^ 64 - 1) (nums (snapshots p))
  | OpReplace i out n _ =>
      isSnapshotInBackend p n = Ok true /\ i <> [] /\
      ((NoDup (ids out) /\ forall i, i ∈ ids out -> i ∉ ids (flat p)) \/
       exists s, Snapshots.getSnapshot (Snapshots.by_num n) (snapshots p) = Ok s /\ out = tlogs s)
  | _ => True
  end.

Lemma app_nonempty {A} (l : list A) x : l ++ [x] <> [].
Proof. by destruct l. Qed.

Lemma ids_snoc_nodup l fresh : NoDup (ids l) -> fresh ∉ ids l -> NoDup (ids (l ++ [TLog.make fresh])).
Proof. intros Hn Hf. rewrite ids_app. apply NoDup_app. split_and!; [done| |apply NoDup_singleton].
  intros x Hx ->%list_elem_of_singleton. done. Qed.

(** Appending a fresh TLog to a prefix of the log. *)
Lemma extend_ok l r fresh : sane (l ++ r) = true -> NoDup (ids (l ++ r)) -> fresh ∉ ids (l ++ r) ->
  sane (l ++ [TLog.make fresh]) = true /\ NoDup (ids (l ++ [TLog.make fresh])).
Proof.
  intros Hs Hn Hf. split.
  - apply sane_snoc_unwritten; [done|by eapply sane_prefix].
  - apply ids_snoc_nodup; rewrite ids_app in *; [by apply NoDup_app in Hn as (? & _)|].
    by apply not_elem_of_app in Hf as [? _].
Qed.

Lemma sublist_keys_take k ss : sublist (keys (take k ss)) (keys ss).
Proof. unfold keys. apply sublist_fmap, sublist_take. Qed.

Lemma inv_newTLog p fresh : inv p -> fresh ∉ ids (flat p) -> inv (newTLog fresh p).
Proof.
  intros Hi Hf. assert (flat (newTLog fresh p) = flat p ++ [TLog.make fresh]) as E
    by (unfold flat, newTLog; spcbn; by rewrite app_assoc).
  apply (inv_sub p); [done|done|..].
  - rewrite E. apply sane_snoc_unwritten; [done|apply Hi].
  - rewrite E. apply ids_snoc_nodup; [apply Hi|done].
  - apply app_nonempty.
Qed.

Lemma sorted_snoc (l : list Z) x : StronglySorted Z.lt l -> Forall (fun y => y < x) l ->
  StronglySorted Z.lt (l ++ [x]).
Proof.
  induction 1 as [|y l Hl IH Hy]; intros Hx; cbn; [by repeat constructor|].
  apply Forall_cons in Hx as [? ?]. constructor; [by apply IH|]. apply Forall_app. split; [done|by repeat constructor].
Qed.

Lemma sorted_last (l : list Z) x y : StronglySorted Z.lt l -> last l = Some x -> y ∈ l -> y <= x.
Proof.
  destruct l as [|z l _] using rev_ind; [done|]. rewrite last_snoc. intros Hs [= <-].
  rewrite elem_of_app, list_elem_of_singleton. intros [Hy| ->]; [|lia].
  induction l as [|w l IH]; [by apply elem_of_nil in Hy|]. cbn in Hs. inversion Hs as [|? ? H1 H2]; subst.
  apply elem_of_cons in Hy as [->|Hy]; [|by apply IH].
  apply Forall_app in H2 as [_ H2]. apply Forall_cons in H2 as [? _]. lia.
Qed.

Lemma next_num ss : StronglySorted Z.lt (nums ss) -> Forall (fits 64) (nums ss) ->
  Forall (fun n => n < 2 ^ 64 - 1) (nums ss) ->
  fits 64 (Snapshots.getNextSnapshotNum ss) /\ Forall (fun y => y < Snapshots.getNextSnapshotNum ss) (nums ss).
Proof.
  intros Hs Hf Hb. unfold Snapshots.getNextSnapshotNum.
  destruct (last ss) as [s|] eqn:E.
  2: { apply last_None in E as ->. split; [by_decide|constructor]. }
  assert (El : last (nums ss) = Some (num s)) by (by rewrite fmap_last, E).
  assert (Hin : num s ∈ nums ss) by (by apply last_Some_elem_of).
  pose proof (proj1 (Forall_forall _ _) Hf _ Hin) as [? ?]. pose proof (proj1 (Forall_forall _ _) Hb _ Hin) as Hlt. cbn beta in Hlt.
  rewrite wrap_id by (unfold fits; lia). split; [unfold fits; lia|].
  apply Forall_forall. intros y Hy. pose proof (sorted_last _ _ _ Hs El Hy). lia.
Qed.

Lemma inv_snapshot p n md u sc now drawn fresh p' : inv p -> fresh ∉ ids (flat p) ->
  Forall (fun n => n < 2 ^ 64 - 1) (nums (snapshots p)) ->
  snapshot p n md u sc now drawn fresh = Ok p' -> inv p'.
Proof.
  intros Hi Hf Hb (Hn & s & Hss & Hname & Ht & Hnum & Hc & Hflat)%snapshot_split.
  destruct (next_num (snapshots p)) as [Hx Hy]; [apply Hi|apply Hi|done|].
  constructor; rewrite ?Hflat, ?Hss, ?fmap_app, ?Hc; cbn; rewrite ?Hnum, ?Hname.
  - apply sane_snoc_unwritten; [done|apply Hi].
  - apply ids_snoc_nodup; [apply Hi|done].
  - apply sorted_snoc; [apply Hi|done].
  - apply Forall_app. split; [apply Hi|]. constructor; [done|constructor].
  - apply NoDup_app. split_and!; [apply Hi| |apply NoDup_singleton].
    by intros x Hx' ->%list_elem_of_singleton.
  - done.
Qed.

Lemma inv_written p tid p' : inv p -> setTLogWrittenToBackend p tid true = Ok p' -> inv p'.
Proof.
  intros Hi H. pose proof (set_flat p tid true) as Hs. pose proof (set_true_spec (flat p) tid (inv_sane _ Hi)) as Ht.
  destruct (TLogs.setTLogWrittenToBackend (flat p) tid true) as [[f l]|x]; [|by rewrite Hs in H].
  destruct Hs as (p2 & E & <- & Hsk & Hl). rewrite E in H. injection H as ->. destruct Ht as (Hid & Hsane & _ & _).
  apply (inv_sub p); [done| |done|rewrite Hid; apply Hi|].
  - by rewrite (skeleton_keys _ _ Hsk).
  - intros Hc. rewrite Hc in Hl. by destruct (current p) eqn:Ec; [apply (inv_current _ Hi)|].
Qed.

Lemma inv_delete p n p' : inv p -> deleteSnapshot p n = Ok p' -> inv p'.
Proof.
  intros Hi (a & s & b & Hss & Hn & Hf & _ & Hm)%delete_split.
  apply (inv_sub p); rewrite ?Hf; [exact Hi| |apply Hi|apply Hi|].
  - rewrite Hss. destruct b as [|s2 b']; destruct Hm as [-> _].
    + unfold keys. apply sublist_fmap. by apply sublist_inserts_r.
    + unfold keys. rewrite !fmap_app. apply sublist_app; [done|]. cbn. by apply sublist_cons.
  - destruct b as [|s2 b']; destruct Hm as [_ ->]; [|apply Hi].
    intros [_ Hc]%app_nil. by apply (inv_current _ Hi).
Qed.

Lemma inv_delete_all p p' : inv p -> deleteAllButLastSnapshot p = Ok p' -> inv p'.
Proof.
  intros Hi (a & s & s' & Hss & Hss' & Hn & Hm & Hc & Hf)%delete_all_split.
  apply (inv_sub p); rewrite ?Hf, ?Hc; [exact Hi| |apply Hi|apply Hi|apply Hi]. rewrite Hss, Hss'.
  unfold keys. rewrite fmap_app. cbn. rewrite Hn, Hm. by apply sublist_inserts_l.
Qed.

Lemma inv_restore p n fresh p' : inv p -> fresh ∉ ids (flat p) ->
  deleteTLogsAndSnapshotsAfterSnapshot p n fresh = Ok p' -> inv p'.
Proof.
  intros Hi Hf (a & s & b & Hss & Hn & Hss' & Hc & Hflat)%delete_after_split.
  assert (flat p = flats (a ++ [s]) ++ (flats b ++ current p)) as E
    by (unfold flat; rewrite Hss, cons_middle, (app_assoc a), flats_app; by rewrite <- app_assoc).
  rewrite E in Hf. destruct (extend_ok (flats (a ++ [s])) (flats b ++ current p) fresh) as [H1 H2]; [rewrite <- E; apply Hi|rewrite <- E; apply Hi|exact Hf|].
  apply (inv_sub p); rewrite ?Hflat, ?Hc; try done.
  rewrite Hss, Hss'. unfold keys. apply sublist_fmap. rewrite (cons_middle s a b), app_assoc. by apply sublist_inserts_r.
Qed.

Lemma inv_snip p tid z : inv p -> inv (snd (snip p tid z)).
Proof.
  intros Hi. destruct (snip_flat p tid z) as (p' & E & Hf & (k & Hsk) & Hc). rewrite E. cbn [snd].
  apply (inv_sub p); [done|rewrite (skeleton_keys _ _ Hsk); apply sublist_keys_take| | |apply Hc, Hi].
  - rewrite Hf. destruct (TLogs.tlogReferenced (flat p) tid) eqn:Er.
    + apply referenced_elem in Er. destruct (snip_spec (flat p) tid z Er) as (l1 & t & l2 & t' & El & _ & _ & -> & _ & Hw & _).
      cbn [snd]. pose proof (inv_sane _ Hi) as Hs. rewrite El in Hs.
      apply (sane_prefix _ l2). erewrite sane_written_map; [exact Hs|].
      rewrite <- app_assoc, !fmap_app. cbn. by rewrite Hw.
    + rewrite snip_false by (by rewrite snip_found). apply Hi.
  - rewrite Hf. destruct (TLogs.tlogReferenced (flat p) tid) eqn:Er.
    + apply referenced_elem in Er. destruct (snip_spec (flat p) tid z Er) as (l1 & t & l2 & t' & El & Hu & _ & -> & Hu' & _).
      cbn [snd]. pose proof (inv_ids _ Hi) as Hs. rewrite El in Hs.
      unfold ids in *. rewrite fmap_app in *. cbn in *. rewrite Hu'. rewrite Hu in Hs.
      rewrite cons_middle, app_assoc in Hs. by apply NoDup_app in Hs as (? & _).
    + rewrite snip_false by (by rewrite snip_found). apply Hi.
Qed.

Lemma inv_trim p fresh : inv p -> fresh ∉ ids (flat p) -> inv (trimToBackend p fresh).
Proof.
  intros Hi Hf. destruct (trim_flat p fresh) as [E (k & Hk)]. destruct (tlogsOnBackend_prefix (flat p)) as [r Hr].
  rewrite Hr in Hf. destruct (extend_ok (tlogsOnBackend (flat p)) r fresh) as [H1 H2]; [rewrite <- Hr; apply Hi|rewrite <- Hr; apply Hi|exact Hf|].
  apply (inv_sub p); rewrite ?E; try done.
  - rewrite Hk. apply sublist_keys_take.
  - unfold trimToBackend. destruct (trim_loop (snapshots p)). apply app_nonempty.
Qed.

Lemma inv_regroup p p' : inv p -> keys (snapshots p') = keys (snapshots p) ->
  sane (flat p') = true -> NoDup (ids (flat p')) -> current p' <> [] -> inv p'.
Proof. intros Hi Hk. apply (inv_sub p); [done|]. by rewrite Hk. Qed.

Lemma keys_mid a s s' b : num s' = num s -> name s' = name s -> keys (a ++ s' :: b) = keys (a ++ s :: b).
Proof. intros Hn Hm. unfold keys. rewrite !fmap_app. cbn. by rewrite Hn, Hm. Qed.

Lemma sane_replace l m out r : sane (l ++ m ++ r) = true -> m <> [] -> writtenToBackend m = true ->
  writtenToBackend out = true -> sane (l ++ out ++ r) = true.
Proof.
  intros Hs Hm Hw Ho. rewrite sane_app in Hs |- *. destruct (writtenToBackend l).
  - rewrite sane_app, Ho. by rewrite sane_app, Hw in Hs.
  - rewrite !forallb_app in Hs. apply andb_true_iff in Hs as [_ [Hs _]%andb_true_iff].
    destruct m as [|t m]; [done|]. cbn in *. by destruct (W t).
Qed.

Lemma nodup_replace (l m out r : list TLogId) : NoDup (l ++ m ++ r) -> NoDup out ->
  (forall i, i ∈ out -> i ∉ l ++ m ++ r) -> NoDup (l ++ out ++ r).
Proof.
  intros Hn Ho Hd. apply NoDup_app in Hn as (Hl & Hlr & (_ & _ & Hr)%NoDup_app).
  apply NoDup_app. split_and!; [done| |apply NoDup_app; split_and!; [done| |done]].
  - intros x Hx [Hx'|Hx']%elem_of_app; [by apply (Hd x Hx'), elem_of_app; left|].
    apply (Hlr x Hx), elem_of_app. by right.
  - intros x Hx Hx'. apply (Hd x Hx), elem_of_app. right. apply elem_of_app. by right.
Qed.

Lemma inv_replace p i out n new_id u p' : inv p -> admissible p (OpReplace i out n new_id) ->
  replace p i out n new_id = Ok (u, p') -> inv p'.
Proof.
  intros Hi (Hb & Hne & Had) (a & s & b & Hss & Hn & Ha & Hw & Hone & Hor & -> & ->)%replace_split.
  assert (Hget : Snapshots.getSnapshot (Snapshots.by_num n) (snapshots p) = Ok s)
    by (rewrite Hss; apply getSnapshot_app; [done|by apply Z.eqb_eq]).
  unfold isSnapshotInBackend in Hb. rewrite Hget in Hb, Had. cbn in Hb. injection Hb as Hb.
  unfold inBackend in Hb. rewrite inBackend_written in Hb.
  assert (tlogs s <> []) by (intros E; rewrite E in Hor; by destruct Hor).
  assert (E : flat p = flats a ++ tlogs s ++ (flats b ++ current p))
    by (unfold flat; rewrite Hss, flats_app, flats_cons; by rewrite <- !app_assoc).
  assert (E' : flat (mkSP (current p) (a ++ set_tlogs out s :: b) (parent_ p) new_id) =
               flats a ++ out ++ (flats b ++ current p))
    by (unfold flat; spcbn; rewrite flats_app, flats_cons; by rewrite <- !app_assoc).
  destruct Hi as [Hs Hd ? ? ? Hc]. apply (inv_regroup p); [by constructor|spcbn; rewrite Hss; by apply keys_mid|..|done].
  - rewrite E'. apply (sane_replace _ (tlogs s)); [by rewrite <- E|done|done|by rewrite writtenToBackend_forallb].
  - rewrite E', !ids_app. destruct Had as [[Hnd Hfresh]|(s' & [= <-] & ->)].
    + rewrite E, !ids_app in Hfresh, Hd. by apply (nodup_replace _ (ids (tlogs s))).
    + by rewrite <- !ids_app, <- E.
Qed.

Lemma inv_scrubbed p n v p' : inv p -> setSnapshotScrubbed p n v = Ok p' -> inv p'.
Proof.
  intros Hi (a & s & b & Hss & Hn & ->)%scrubbed_split.
  assert (flat (with_snapshots (a ++ set_scrubbed v s :: b) p) = flat p) as E
    by (unfold flat; spcbn; by rewrite Hss, !flats_app).
  apply (inv_regroup p); rewrite ?E; [done| |apply Hi..]. spcbn. rewrite Hss. by apply keys_mid.
Qed.

Lemma inv_add_size p z p' : inv p -> addCurrentBackendSize p z = Ok p' -> inv p'.
Proof.
  unfold addCurrentBackendSize. intros Hi. destruct (negb _); [|done]. intros [= <-].
  destruct (add_to_last_spec z (current p)) as (H1 & H2 & H3).
  apply (inv_regroup p); [done|done|..|apply H3, Hi]; unfold flat; spcbn.
  - erewrite sane_written_map; [apply Hi|]. unfold flat. by rewrite !fmap_app, H2.
  - rewrite ids_app, H1, <- ids_app. apply Hi.
Qed.

(** ** Reachability *)
Inductive reachable : SnapshotPersistor -> Prop :=
  | reach_create parent scrub_id fresh : reachable (create parent scrub_id fresh)
  | reach_step p o p' : reachable p -> admissible p o -> run o p = Ok p' -> reachable p'.

Lemma inv_create parent scrub_id fresh : inv (create parent scrub_id fresh).
Proof. constructor; try done; try constructor; try apply NoDup_nil_2. by intros ?%elem_of_nil. Qed.

Lemma inv_step p o p' : inv p -> admissible p o -> run o p = Ok p' -> inv p'.
Proof.
  intros Hi Ha. destruct o; cbn [run admissible] in *.
  - intros [= <-]. by apply inv_newTLog.
  - destruct Ha. by apply inv_snapshot.
  - by apply inv_written.
  - by apply inv_delete.
  - by apply inv_delete_all.
  - by apply inv_restore.
  - intros [= <-]. by apply inv_snip.
  - intros [= <-]. by apply inv_trim.
  - intros H. inv_bind H. destruct a as [u q]. inv_ok. by eapply inv_replace.
  - by apply inv_scrubbed.
  - by apply inv_add_size.
Qed.

Lemma reachable_inv p : reachable p -> inv p.
Proof. induction 1; [apply inv_create | by eapply inv_step]. Qed.

(** ** The sanity check *)
Lemma verifier_fold l seen : rfold verifier seen l =
  if (if seen then forallb (fun t => negb (W t)) l else sane l)
  then Ok (seen || negb (writtenToBackend l)) else Throw IOException.
Proof.
  revert seen. induction l as [|t l IH]; intros seen; cbn; [by destruct seen|].
  unfold verifier at 1. destruct (W t), seen; cbn; try done; by rewrite IH.
Qed.

Lemma verifier_snapshots ss seen :
  rfold (fun b s => rfold verifier b (tlogs s)) seen ss = rfold verifier seen (flats ss).
Proof. revert seen. induction ss as [|s ss IH]; intros seen; [done|]. cbn [rfold]. rewrite flats_cons, rfold_app.
  destruct (rfold verifier seen (tlogs s)); cbn; auto. Qed.

Lemma verify_flat p : verifySanity_ p = if sane (flat p) then Ok tt else Throw IOException.
Proof.
  unfold verifySanity_. rewrite verifier_snapshots.
  assert (E : rfold verifier false (flat p) =
    (let? seen := rfold verifier false (flats (snapshots p)) in rfold verifier seen (current p)))
    by (unfold flat; apply rfold_app).
  rewrite (verifier_fold (flat p)) in E. cbn [orb] in E.
  destruct (rfold verifier false (flats (snapshots p))) as [b|x]; cbn [rbind] in *.
  - rewrite <- E. by destruct (sane (flat p)).
  - by destruct (sane (flat p)); [|injection E as <-].
Qed.

End PersistorSteps.

Module PersistorTheorems.
Import TLog TLogs Snapshot SnapshotPersistor TLogsFacts PersistorFacts PersistorSteps.

(** A concrete history used by the witnesses: two TLogs in snapshot [a] and one
    of the two in snapshot [b] are written, one TLog is current. *)
Definition after (o : op) (p : SnapshotPersistor) : SnapshotPersistor :=
  match run o p with Ok p' => p' | Throw _ => p end.

Lemma reach_after p o : reachable p -> admissible p o -> is_ok (run o p) = true -> reachable (after o p).
Proof. intros Hp Ha Ho. unfold after. destruct (run o p) eqn:E; [|done]. by eapply reach_step. Qed.

Definition hist : SnapshotPersistor :=
  after (OpWritten 3) (after (OpWritten 2) (after (OpWritten 1)
    (after (OpSnapshot "b" [] 101 false "now" 0 5) (after (OpNewTLog 4)
      (after (OpSnapshot "a" [] 100 false "now" 0 3) (after (OpNewTLog 2) (create None 7 1))))))).

Ltac reach := first
  [ apply reach_create | apply reach_after; [reach | cbn [admissible] | vm_compute; reflexivity] ].

Lemma hist_reachable : reachable hist.
Proof.
  unfold hist. reach; try exact I.
  all: try (split; [|repeat constructor]); apply (bool_decide_unpack _); vm_compute; exact I.
Qed.

Lemma insane_split l : sane l = false -> exists l1 t l2 u l3, l = l1 ++ t :: l2 ++ u :: l3 /\
  W t = false /\ W u = true.
Proof.
  induction l as [|t l IH]; cbn; [done|]. destruct (W t) eqn:Ew.
  - intros H. destruct (IH H) as (l1 & t' & l2 & u & l3 & -> & ? & ?). by exists (t :: l1), t', l2, u, l3.
  - clear IH. intros H. exists [], t. cut (exists l2 u l3, l = l2 ++ u :: l3 /\ W u = true).
    { intros (l2 & u & l3 & -> & ?). by exists l2, u, l3. }
    induction l as [|u l IHl]; cbn in H; [done|]. destruct (W u) eqn:Eu; cbn in H; [by exists [], u, l|].
    destruct (IHl H) as (l2 & u' & l3 & -> & ?). by exists (u :: l2), u', l3.
Qed.

(** C18: whatever sequence of operations a persistor went through, it is sane:
    no TLog is marked as written behind one that is not, identifiers, snapshot
    names and snapshot numbers are unique and the numbers increase, there is a
    current TLog, and the check made when a persistor is loaded passes. *)
Theorem reachable_persistor_is_sane (p : SnapshotPersistor) :
  reachable p -> inv p /\ verifySanity_ p = Ok tt.
Proof.
  intros Hr. pose proof (reachable_inv p Hr) as Hi. split; [done|]. by rewrite verify_flat, (inv_sane p Hi).
Qed.

Lemma reachable_persistor_is_sane_witness : verifySanity_ hist = Ok tt.
Proof. apply (reachable_persistor_is_sane hist), hist_reachable. Defined.

(** the load-time check is exact: it passes iff the TLogs marked as written
    form a prefix of the history, across the snapshot boundaries. *)
Theorem verifySanity_exact (p : SnapshotPersistor) :
  match verifySanity_ p with
  | Ok _ => flat p = written (flat p) ++ unwritten (flat p)
  | Throw x => x = IOException /\ exists l1 t l2 u l3, flat p = l1 ++ t :: l2 ++ u :: l3 /\
                 written_to_backend t = false /\ written_to_backend u = true
  end.
Proof.
  rewrite verify_flat. destruct (sane (flat p)) eqn:E; [by apply sane_split|]. split; [done|]. by apply insane_split.
Qed.

(** *** The abstract log *)

(** What an operation does to the log of all TLogs. *)
Definition effect (o : op) (l l' : TLogs) : Prop :=
  match o with
  | OpNewTLog fresh | OpSnapshot _ _ _ _ _ _ fresh => l' = l ++ [TLog.make fresh]
  | OpWritten tid => exists found, TLogs.setTLogWrittenToBackend l tid true = Ok (found, l')
  | OpDelete _ | OpDeleteAllButLast | OpScrubbed _ _ => l' = l
  | OpRestore _ fresh => exists kept dropped, l = kept ++ dropped /\ l' = kept ++ [TLog.make fresh]
  | OpSnip tid z => l' = snd (TLogs.snip l tid z)
  | OpTrim fresh => l' = tlogsOnBackend l ++ [TLog.make fresh]
  | OpReplace i out _ _ => exists a m r, l = a ++ m ++ r /\ l' = a ++ out ++ r /\ (i = ids m \/ out = m)
  | OpAddSize z => l' = add_to_last z l
  end.

Lemma add_to_last_app z a b : b <> [] -> add_to_last z (a ++ b) = a ++ add_to_last z b.
Proof. intros Hb. induction a as [|t a IH]; cbn; [done|]. rewrite IH. by destruct (a ++ b) eqn:E; [destruct a, b|]. Qed.

Lemma restore_effect p n fresh p' : deleteTLogsAndSnapshotsAfterSnapshot p n fresh = Ok p' ->
  exists a s b, snapshots p = a ++ s :: b /\ num s = n /\ snapshots p' = a ++ [s] /\
    flat p = flats (a ++ [s]) ++ (flats b ++ current p) /\ flat p' = flats (a ++ [s]) ++ [TLog.make fresh].
Proof.
  intros (a & s & b & Hss & Hn & Hss' & _ & Hf)%delete_after_split. exists a, s, b. split_and!; try done.
  unfold flat. rewrite Hss, cons_middle, (app_assoc a), flats_app. by rewrite <- app_assoc.
Qed.

Lemma run_effect (p p' : SnapshotPersistor) (o : op) :
  run o p = Ok p' -> effect o (flat p) (flat p').
Proof.
  destruct o; cbn [run effect].
  - intros [= <-]. unfold flat, newTLog. spcbn. by rewrite app_assoc.
  - by intros (_ & s & _ & _ & _ & _ & _ & ?)%snapshot_split.
  - intros H. pose proof (set_flat p tid true) as Hs.
    destruct (TLogs.setTLogWrittenToBackend (flat p) tid true) as [[f l]|]; [|congruence].
    destruct Hs as (q & Hq & <- & _). rewrite Hq in H. inv_ok. eauto.
  - by intros (a & s & b & _ & _ & ? & _)%delete_split.
  - by intros (a & s & s' & _ & _ & _ & _ & _ & ?)%delete_all_split.
  - intros (a & s & b & _ & _ & _ & E & E')%restore_effect. eauto.
  - intros [= <-]. destruct (snip_flat p tid z) as (q & -> & ? & _). done.
  - intros [= <-]. apply trim_flat.
  - intros H. inv_bind H. destruct a as [u q]. inv_ok.
    apply replace_split in H0 as (a & s & b & Hss & _ & _ & _ & _ & Hor & _ & ->).
    exists (flats a), (tlogs s), (flats b ++ current p). unfold flat. spcbn. rewrite Hss, !flats_app, !flats_cons.
    rewrite <- !app_assoc. split_and!; try done. destruct Hor; auto.
  - intros (a & s & b0 & Hss & _ & ->)%scrubbed_split. unfold flat. spcbn. by rewrite Hss, !flats_app.
  - unfold addCurrentBackendSize. destruct (Nat.eqb_spec (length (current p)) 0) as [|Hc]; cbn [negb]; [done|].
    intros [= <-]. unfold flat. spcbn. symmetry. apply add_to_last_app. by destruct (current p).
Qed.



(** deleting a snapshot keeps every other snapshot and hands its TLogs to
    the next snapshot, in front of that one's own, or to the current TLogs; the
    snapshot that takes them over must be scrubbed again.  A number that does
    not exist is refused. *)
Theorem deleteSnapshot_exact (p : SnapshotPersistor) (n : SnapshotNum) :
  match deleteSnapshot p n with
  | Ok p' => exists a s b, snapshots p = a ++ s :: b /\ num s = n /\ flat p' = flat p /\
      keys (snapshots p') = keys a ++ keys b /\
      match b with
      | [] => current p' = tlogs s ++ current p
      | s2 :: b' => exists s2', snapshots p' = a ++ s2' :: b' /\ tlogs s2' = tlogs s ++ tlogs s2 /\
                      cork_uuid_ s2' = cork_uuid_ s2 /\ scrubbed s2' = false /\ current p' = current p
      end
  | Throw x => x = SnapshotNotFoundException /\ n ∉ nums (snapshots p)
  end.
Proof.
  destruct (deleteSnapshot p n) as [p'|x] eqn:E.
  - apply delete_split in E as (a & s & b & Hss & Hn & Hf & _ & Hm). exists a, s, b. split_and!; try done.
    + destruct b as [|s2 b']; destruct Hm as [-> _]; unfold keys; [by rewrite app_nil_r|by rewrite fmap_app].
    + destruct b as [|s2 b']; destruct Hm as [H1 H2]; [done|]. eexists. split; [exact H1|]. done.
  - unfold deleteSnapshot, Snapshots.deleteSnapshot, Snapshots.find_or_throw_ in E.
    destruct (Snapshots.find_ (Snapshots.by_num n) (snapshots p)) as [i|] eqn:Ef; cbn [rbind] in E.
    + apply find_split in Ef as (a & s & b & Hss & <- & _). rewrite Hss, lookup_mid in E.
      by destruct ((a ++ s :: b) !! S (length a)).
    + inv_ok. injection E as <-. split; [done|]. apply find_none in Ef. rewrite list_elem_of_fmap.
      intros (s & -> & Hs). pose proof (proj1 (Forall_forall _ _) Ef s Hs) as Hb. unfold Snapshots.by_num in Hb.
      by rewrite Z.eqb_refl in Hb.
Qed.

(** marking a TLog as written marks that TLog and no other, and only when
    all TLogs before it, in all earlier snapshots too, are on the backend;
    otherwise it throws and nothing changes.  An identifier that is not in the
    history is refused as soon as some TLog is not written: the case the code
    logs as a late callback after a snapshot restore cannot occur then. *)
Theorem setTLogWritten_exact (p : SnapshotPersistor) (tid : TLogId) :
  match setTLogWrittenToBackend p tid true with
  | Ok p' =>
      (exists l1 t l2, flat p = l1 ++ t :: l2 /\ uuid t = tid /\ writtenToBackend l1 = true /\
         flat p' = l1 ++ set_writtenToBackend true t :: l2) \/
      ((tid ∉ ids (flat p)) /\ writtenToBackend (flat p) = true /\ flat p' = flat p)
  | Throw x => x = IOException /\ exists l1 t l2, flat p = l1 ++ t :: l2 /\
                 written_to_backend t = false /\ (tid ∉ ids (l1 ++ [t]))
  end.
Proof.
  pose proof (set_flat p tid true) as Hs. pose proof (set_true_exact tid (flat p)) as Hl.
  destruct (TLogs.setTLogWrittenToBackend (flat p) tid true) as [[f l]|x].
  - destruct Hs as (p' & -> & <- & _). done.
  - by rewrite Hs.
Qed.

(** restoring a snapshot keeps exactly the history up to that snapshot
    plus one new TLog, so that a callback for a TLog that was dropped by the
    restore finds an unwritten TLog before it gives up its search, and throws
    instead of being ignored with a warning. *)
Theorem late_callback_after_restore (p p' : SnapshotPersistor) (n : SnapshotNum) (fresh tid : TLogId) :
  deleteTLogsAndSnapshotsAfterSnapshot p n fresh = Ok p' ->
  (exists a s b, snapshots p = a ++ s :: b /\ num s = n /\ flat p' = flats (a ++ [s]) ++ [TLog.make fresh]) /\
  (tid ∉ ids (flat p') -> setTLogWrittenToBackend p' tid true = Throw IOException).
Proof.
  intros (a & s & b & Hss & Hn & _ & _ & Hf)%restore_effect. split; [eauto 10|]. intros Ht.
  pose proof (set_flat p' tid true) as Hs. pose proof (set_true_exact tid (flat p')) as Hl.
  destruct (TLogs.setTLogWrittenToBackend (flat p') tid true) as [[f l]|x]; [|by destruct Hl as [-> _]].
  destruct Hl as [(l1 & t & l2 & E & <- & _)|(_ & Hw & _)].
  - destruct Ht. rewrite E, ids_app. apply elem_of_app. right. by apply elem_of_cons; left.
  - rewrite Hf, writtenToBackend_app in Hw. by apply andb_true_iff in Hw as [_ Hw].
Qed.

Lemma late_callback_after_restore_witness :
  setTLogWrittenToBackend (after (OpRestore 0 9) hist) 3 true = Throw IOException.
Proof.
  apply (late_callback_after_restore hist (after (OpRestore 0 9) hist) 0 9 3); [vm_compute; reflexivity|].
  apply (bool_decide_unpack _); vm_compute; exact I.
Defined.

End PersistorTheorems.
