(* ===== verification/SnapshotQueries.v ===== *)
(** * Queries of the snapshot persistor

    The lists of TLogs the persistor hands to the backup, restore, replay and
    scrubbing code, characterised on the abstract log. *)

From S2P Require Import Prelude TLogs Snapshots SnapshotPersistor SnapshotFacts SnapshotTheorems.
From stdpp Require Import sorting.
From Stdlib Require Import Sorted Permutation.
Open Scope Z_scope.

Module QueryFacts.
Import TLog TLogs Snapshot SnapshotPersistor TLogsFacts PersistorFacts PersistorSteps.

Abbreviation not_num n := (Forall (fun x => Snapshots.by_num n x = false)).

Lemma till_spec a s b n out : not_num n a -> num s = n ->
  Snapshots.getTLogsTillSnapshot (a ++ s :: b) n out = Ok (out ++ ids (flats (a ++ [s]))).
Proof.
  intros Ha Hn. revert out. induction Ha as [|x a Hx Ha IH]; intros out; cbn [app Snapshots.getTLogsTillSnapshot].
  - rewrite Hn, Z.eqb_refl. unfold getOrderedTLogIds, flats, ids. cbn. by rewrite app_nil_r.
  - unfold Snapshots.by_num in Hx. rewrite Hx, IH. unfold getOrderedTLogIds. rewrite flats_cons, ids_app.
    by rewrite <- app_assoc.
Qed.

Lemma till_none ss n out : not_num n ss -> Snapshots.getTLogsTillSnapshot ss n out = Throw SnapshotNotFoundException.
Proof. intros H. revert out. induction H as [|x ss Hx Hs IH]; intros out; cbn; [done|].
  unfold Snapshots.by_num in Hx. by rewrite Hx, IH. Qed.

Lemma after_rev_spec b s ra n out : not_num n b -> num s = n ->
  Snapshots.tlogs_after_ (b ++ s :: ra) n out = Ok (rev (out ++ concat ((fun x => rev (ids (tlogs x))) <$> b))).
Proof.
  intros Hb Hn. revert out. induction Hb as [|x b Hx Hb IH]; intros out; cbn [app Snapshots.tlogs_after_].
  - rewrite Hn, Z.eqb_refl. cbn. by rewrite app_nil_r.
  - unfold Snapshots.by_num in Hx. rewrite Hx, IH. unfold getReverseOrderedTLogIds. cbn.
    fold (ids (rev (tlogs x))). by rewrite ids_rev, <- app_assoc.
Qed.

Lemma ids_flats ss : ids (flats ss) = concat ((fun x => ids (tlogs x)) <$> ss).
Proof. induction ss as [|s ss IH]; [done|]. rewrite flats_cons, ids_app, IH. done. Qed.

Lemma concat_rev {A B} (f : A -> list B) l : rev (concat ((fun x => rev (f x)) <$> rev l)) = concat (f <$> l).
Proof. induction l as [|a l IH]; [done|]. cbn.
  rewrite fmap_app, concat_app, rev_app_distr, IH. cbn. by rewrite app_nil_r, rev_involutive. Qed.

Lemma after_spec a s b n : not_num n b -> num s = n ->
  Snapshots.getTLogsAfterSnapshot (a ++ s :: b) n [] = Ok (ids (flats b)).
Proof.
  intros Hb Hn. unfold Snapshots.getTLogsAfterSnapshot. rewrite rev_app_distr. cbn [rev]. rewrite <- app_assoc. cbn [app].
  rewrite (after_rev_spec (rev b)); [|by apply Forall_rev|done]. cbn [app]. f_equal.
  rewrite concat_rev. symmetry. apply ids_flats.
Qed.

(** Numbers are unique. *)
Lemma sorted_mid a s b : StronglySorted Z.lt (nums (a ++ s :: b)) ->
  not_num (num s) a /\ not_num (num s) b /\
  Forall (fun x => num x < num s) a /\ Forall (fun x => num s < num x) b.
Proof.
  rewrite fmap_app. cbn. intros H.
  assert (Forall (fun x => num x < num s) a /\ Forall (fun x => num s < num x) b) as [H1 H2].
  { induction a as [|x a IH]; cbn in H; inversion H as [|? ? Hs Hf]; subst.
    - split; [constructor|]. apply Forall_forall. intros x Hx.
      apply (proj1 (Forall_forall _ _) Hf), list_elem_of_fmap. eauto.
    - destruct (IH Hs) as [? ?]. split; [|done]. constructor; [|done].
      apply Forall_app in Hf as [_ Hf]. by apply Forall_cons in Hf as [? _]. }
  split_and!; try done; eapply Forall_impl; try done; intros x Hx; unfold Snapshots.by_num; apply Z.eqb_neq;
    cbn in Hx; lia.
Qed.

Lemma exists_num_split ss n : n ∈ nums ss -> StronglySorted Z.lt (nums ss) -> exists a s b,
  ss = a ++ s :: b /\ num s = n /\ not_num n a /\ not_num n b /\
  Forall (fun x => num x < n) a /\ Forall (fun x => n < num x) b.
Proof.
  intros (s & -> & Hs)%list_elem_of_fmap H. apply list_elem_of_split in Hs as (a & b & ->).
  destruct (sorted_mid a s b H) as (? & ? & ? & ?). exists a, s, b. by split_and!.
Qed.

Lemma not_in_nums ss n : n ∉ nums ss -> not_num n ss.
Proof. intros H. apply Forall_forall. intros x Hx. unfold Snapshots.by_num. apply Z.eqb_neq. intros <-.
  apply H, list_elem_of_fmap. eauto. Qed.

(** [std::sort] leaves increasing numbers alone. *)
Lemma sort_sorted (l : list Z) : StronglySorted Z.lt l -> ZSort.sort l = l.
Proof.
  intros Hs.
  assert (Ht : Transitive (fun x y => is_true (ZOrder.leb x y)))
    by (intros x y z; unfold is_true, ZOrder.leb; rewrite !Z.leb_le; lia).
  pose proof (ZSort.StronglySorted_sort l Ht) as H1. pose proof (ZSort.Permuted_sort l) as H2.
  assert (H3 : StronglySorted Z.le (ZSort.sort l)).
  { clear -H1. induction H1 as [|x k Hk IH Hx]; constructor; [done|].
    eapply Forall_impl; [exact Hx|]. intros y Hy. by apply Z.leb_le. }
  assert (H4 : StronglySorted Z.le l).
  { clear -Hs. induction Hs as [|x k Hk IH Hx]; constructor; [done|].
    eapply Forall_impl; [exact Hx|]. cbn. lia. }
  eapply (StronglySorted_unique Z.le); [done|done|by symmetry].
Qed.

Lemma in_snapshot a s b v : not_num (num s) a ->
  Snapshots.getTLogsInSnapshot (a ++ s :: b) (num s) v = (true, v ++ ids (tlogs s)).
Proof. intros Ha. unfold Snapshots.getTLogsInSnapshot.
  rewrite find_app by (done || apply Z.eqb_refl). by rewrite lookup_mid. Qed.

Lemma all_tlogs p v wc : inv p ->
  getAllTLogs p v wc = v ++ ids (flats (snapshots p)) ++ (if wc then ids (current p) else []).
Proof.
  intros Hi. unfold getAllTLogs, getAllSnapshots, Snapshots.getAllSnapshots. cbn [app].
  rewrite sort_sorted by apply Hi.
  assert (H : forall b a, snapshots p = a ++ b -> forall v,
    fold_left (fun v n => snd (getTLogsInSnapshot p n v)) (nums b) v = v ++ ids (flats b)).
  { induction b as [|s b IH]; intros a Hab v'; cbn [fmap list_fmap fold_left]; [by rewrite app_nil_r|].
    unfold getTLogsInSnapshot at 2. pose proof (inv_nums _ Hi) as Hs. rewrite Hab in Hs |- *.
    destruct (sorted_mid a s b Hs) as (? & _). rewrite in_snapshot by done. cbn [snd].
    rewrite (IH (a ++ [s])), flats_cons, ids_app by (by rewrite Hab, <- app_assoc). by rewrite <- app_assoc. }
  rewrite (H (snapshots p) [] eq_refl). destruct wc; [|by rewrite app_nil_r].
  unfold getCurrentTLogs, getOrderedTLogIds. by rewrite <- app_assoc.
Qed.

(** ** Between two snapshots *)
Lemma between_skip x r st en out inc : Forall (fun s => num s < st) x -> st <= en ->
  Snapshots.between_ (x ++ r) st en false out inc = Snapshots.between_ r st en false out inc.
Proof.
  intros Hx Hse. induction Hx as [|s x Hs Hx IH]; cbn [app Snapshots.between_]; [done|].
  rewrite (proj2 (Z.eqb_neq (num s) st)), (proj2 (Z.eqb_neq (num s) en)) by lia.
  rewrite Z.gtb_ltb, (proj2 (Z.ltb_ge st (num s))) by lia. done.
Qed.

Lemma between_middle y r st en out inc : Forall (fun s => st < num s < en) y ->
  Snapshots.between_ (y ++ r) st en true out inc = Snapshots.between_ r st en true (out ++ ids (flats y)) inc.
Proof.
  intros Hy. revert out. induction Hy as [|s y Hs Hy IH]; intros out; cbn [app Snapshots.between_].
  - by rewrite app_nil_r.
  - rewrite Z.gtb_ltb, (proj2 (Z.ltb_lt st (num s))), (proj2 (Z.ltb_lt (num s) en)) by lia.
    rewrite (proj2 (Z.eqb_neq (num s) st)) by lia. cbn [negb andb]. rewrite IH.
    unfold getOrderedTLogIds. by rewrite flats_cons, ids_app, <- app_assoc.
Qed.

Lemma between_end s r st en out inc : num s = en -> st < en ->
  Snapshots.between_ (s :: r) st en true out inc = Ok (if inc then out ++ ids (tlogs s) else out).
Proof.
  intros <- Hse. cbn. rewrite Z.ltb_irrefl, andb_false_r, Z.eqb_refl.
  destruct (num s =? st); cbn; by destruct inc.
Qed.

Lemma between_start s r st en out inc : num s = st -> st < en ->
  Snapshots.between_ (s :: r) st en false out inc = Snapshots.between_ r st en true out inc.
Proof.
  intros <- Hse. cbn. rewrite Z.eqb_refl, Z.gtb_ltb, Z.ltb_irrefl.
  by rewrite (proj2 (Z.eqb_neq (num s) en)) by lia.
Qed.

Lemma between_no_end ss st en seen out inc : not_num en ss ->
  Snapshots.between_ ss st en seen out inc = Throw SnapshotNotFoundException.
Proof.
  intros H. revert seen out. induction H as [|s ss Hs Hss IH]; intros seen out; cbn; [done|].
  unfold Snapshots.by_num in Hs. rewrite Hs. destruct (_ && _); [|apply IH]. destruct (negb _); [done|apply IH].
Qed.

Lemma between_no_start ss st en out inc : not_num st ss ->
  Snapshots.between_ ss st en false out inc = Throw SnapshotNotFoundException.
Proof.
  intros H. revert out. induction H as [|s ss Hs Hss IH]; intros out; cbn; [done|].
  unfold Snapshots.by_num in Hs. rewrite Hs. cbn. destruct (_ && _); [done|]. by destruct (num s =? en).
Qed.

(** ** Written and not yet written *)
Lemma is_written_list l t : NoDup (ids l) -> t ∈ l -> TLogs.isTLogWrittenToBackend l (uuid t) = Some (W t).
Proof.
  induction l as [|u l IH]; [by intros _ ?%elem_of_nil|]. unfold ids. rewrite fmap_cons.
  intros [Hu Hn]%NoDup_cons [->|Ht]%elem_of_cons; cbn; [by rewrite Z.eqb_refl|].
  rewrite (proj2 (Z.eqb_neq (uuid t) (uuid u))); [auto|]. intros E. apply Hu. rewrite <- E.
  apply list_elem_of_fmap. eauto.
Qed.

Lemma is_written_absent l i : i ∉ ids l -> TLogs.isTLogWrittenToBackend l i = None.
Proof.
  induction l as [|u l IH]; [done|]. unfold ids. rewrite fmap_cons. intros [Hu Hn]%not_elem_of_cons. cbn.
  rewrite (proj2 (Z.eqb_neq i (uuid u)) Hu). auto.
Qed.

Lemma is_written_snaps ss t : NoDup (ids (flats ss)) -> t ∈ flats ss ->
  Snapshots.isTLogWrittenToBackend ss (uuid t) = W t.
Proof.
  induction ss as [|s ss IH]; [by intros _ ?%elem_of_nil|]. rewrite flats_cons, ids_app.
  intros (H1 & H2 & H3)%NoDup_app [Ht|Ht]%elem_of_app; cbn.
  - rewrite (is_written_list _ t) by done. by destruct (W t).
  - rewrite is_written_absent; [by apply IH|]. intros Hin. apply (H2 _ Hin), list_elem_of_fmap. eauto.
Qed.

Lemma is_written_flat p t : NoDup (ids (flat p)) -> t ∈ flat p -> isTLogWrittenToBackend p (uuid t) = W t.
Proof.
  unfold flat, isTLogWrittenToBackend. rewrite ids_app. intros (H1 & H2 & H3)%NoDup_app [Ht|Ht]%elem_of_app.
  - rewrite is_written_absent; [by apply is_written_snaps|]. intros Hin.
    refine (H2 _ _ Hin). apply list_elem_of_fmap. eauto.
  - by rewrite (is_written_list _ t).
Qed.

Lemma written_loop_rest p want l out : (forall t, t ∈ l -> isTLogWrittenToBackend p (uuid t) = W t) ->
  forallb (fun t => negb (W t)) l = true ->
  written_loop p want (ids l) false out = Ok (out ++ (if want then [] else ids l)).
Proof.
  revert out. induction l as [|t l IH]; intros out Hp Hu; cbn in *; [by destruct want; rewrite app_nil_r|].
  apply andb_true_iff in Hu as [Ht Hu]. rewrite (Hp t) by (by left). destruct (W t); [done|].
  rewrite IH; [|intros u Hin; apply Hp; by right|done]. destruct want; [done|]. by rewrite <- app_assoc.
Qed.

Lemma written_loop_spec p want l out : (forall t, t ∈ l -> isTLogWrittenToBackend p (uuid t) = W t) ->
  sane l = true ->
  written_loop p want (ids l) true out = Ok (out ++ ids (if want then written l else unwritten l)).
Proof.
  revert out. unfold written, unwritten. induction l as [|t l IH]; intros out Hp Hs; cbn in *;
    [by destruct want; rewrite app_nil_r|].
  rewrite (Hp t) by (by left). destruct (W t) eqn:Ew; cbn.
  - rewrite IH; [|intros u Hin; apply Hp; by right|done]. destruct want; [|done]. by rewrite <- app_assoc.
  - rewrite written_loop_rest; [|intros u Hin; apply Hp; by right|done].
    destruct want; [by rewrite filter_none|]. rewrite (filter_all (fun t => negb (W t))) by done. by rewrite <- app_assoc.
Qed.

(** ** TLogs since a cork *)
Lemma since_snaps_absent ss r cork vec : sane (flats ss) = true -> no_cork cork (flats ss) ->
  Forall (fun s => cork <> Some (cork_uuid_ s)) ss ->
  since_cork_snapshots (rev ss ++ r) cork vec = since_cork_snapshots r cork (vec ++ rev (ids (written (flats ss)))).
Proof.
  revert vec. induction ss as [|s ss IH] using rev_ind; intros vec Hs Hn Hc; [by rewrite app_nil_r|].
  apply Forall_app in Hc as [Hc1 Hc2]. apply Forall_cons in Hc2 as [Hc2 _].
  rewrite flats_app in *. change (flats [s]) with (tlogs s ++ []) in *. rewrite app_nil_r in *.
  apply no_cork_app in Hn as [Hn1 Hn2]. rewrite rev_app_distr. cbn [rev app since_cork_snapshots].
  unfold Snapshot.getReversedTLogsOnBackendSinceLastCork. rewrite bool_decide_false by done. cbn [andb].
  rewrite since_absent by (done || by eapply sane_suffix). cbn [rbind].
  rewrite IH by (done || by eapply sane_prefix). by rewrite written_app, ids_app, rev_app_distr, app_assoc.
Qed.

Lemma NoDup_mid {A} (a b c : list A) : NoDup (a ++ b ++ c) -> forall x, x ∈ b -> x ∉ c.
Proof. intros (_ & _ & (_ & H & _)%NoDup_app)%NoDup_app. done. Qed.

(** ** Sizes *)
Lemma size_loop_spec m : forall a z fuel r, (length m < fuel)%nat ->
  Snapshots.size_loop fuel (a ++ m ++ z) (length a) (length a + length m) r =
  Ok (fold_left (fun r s => u64 (r + Snapshot.backend_size s)) m r).
Proof.
  induction m as [|s m IH]; intros a z [|fuel] r Hf; cbn in Hf; try lia; cbn [Snapshots.size_loop].
  - by rewrite Nat.add_0_r, Nat.eqb_refl.
  - rewrite (proj2 (Nat.eqb_neq _ _)) by (cbn; lia). cbn [app]. rewrite lookup_mid.
    replace (a ++ s :: m ++ z) with ((a ++ [s]) ++ m ++ z) by list_norm.
    replace (S (length a)) with (length (a ++ [s])) by (rewrite length_app; cbn; lia).
    replace (length a + length (s :: m))%nat with (length (a ++ [s]) + length m)%nat
      by (rewrite length_app; cbn; lia).
    rewrite IH by lia. done.
Qed.

Lemma size_loop_off fuel ss i stop r : (stop < i)%nat -> (length ss - i < fuel)%nat ->
  Snapshots.size_loop fuel ss i stop r = Throw IOException.
Proof.
  revert i r. induction fuel as [|fuel IH]; intros i r Hi Hf; [lia|]. cbn [Snapshots.size_loop].
  rewrite (proj2 (Nat.eqb_neq i stop)) by lia. destruct (ss !! i) eqn:E; [|done].
  apply lookup_lt_Some in E. apply IH; lia.
Qed.

Lemma snapshot_size s : Snapshot.backend_size s = u64 (total (tlogs s)).
Proof. exact (backend_size_total (tlogs s)). Qed.

Lemma sizes_total m r : fits 64 r ->
  fold_left (fun r s => u64 (r + Snapshot.backend_size s)) m r = u64 (r + total (flats m)).
Proof.
  revert r. induction m as [|s m IH]; intros r Hr; cbn [fold_left].
  - cbn. rewrite Z.add_0_r. symmetry. by apply wrap_id.
  - rewrite IH by (apply wrap_fits; lia). rewrite flats_cons, total_app, snapshot_size.
    unfold wrap. rewrite Z.add_mod_idemp_r, Z.add_mod_idemp_l by lia. f_equal. lia.
Qed.

Lemma not_name_before a s b : NoDup (names (a ++ s :: b)) ->
  Forall (fun x => Snapshots.by_name (name s) x = false) a.
Proof.
  rewrite fmap_app. intros (_ & H & _)%NoDup_app. apply Forall_forall. intros x Hx.
  apply bool_decide_eq_false. intros E. apply (H (name x)); [apply list_elem_of_fmap; eauto|].
  rewrite E. by left.
Qed.

Lemma find_name a s b : NoDup (names (a ++ s :: b)) ->
  Snapshots.find_ (Snapshots.by_name (name s)) (a ++ s :: b) = Some (length a).
Proof. intros H. apply find_app; [by eapply not_name_before|by apply bool_decide_eq_true]. Qed.

(** ** Scrubbing work *)
Definition position (n : option SnapshotName) (ss : list Snapshot) : option nat :=
  match n with Some n => S <$> Snapshots.find_ (Snapshots.by_name n) ss | None => None end.

Lemma position_cons n s ss : NoDup (names (s :: ss)) -> position n (s :: ss) =
  if bool_decide (n = Some (name s)) then Some 1%nat else S <$> position n ss.
Proof.
  intros _. unfold position. destruct n as [n|]; [|by rewrite bool_decide_false].
  cbn. unfold Snapshots.by_name at 1. destruct (decide (name s = n)) as [<-|Hne].
  - by rewrite !bool_decide_true.
  - rewrite !bool_decide_false by congruence. by destruct (Snapshots.find_ _ ss).
Qed.

Lemma position_absent n s ss : NoDup (names (s :: ss)) -> n = Some (name s) -> position n ss = None.
Proof.
  intros [Hn _]%NoDup_cons ->. unfold position. 
  rewrite (proj2 (find_none _ _)); [done|]. apply Forall_forall. intros x Hx. apply bool_decide_eq_false.
  intros E. apply Hn. rewrite <- E. apply list_elem_of_fmap. eauto.
Qed.

(** The search loop with what it has found so far. *)
Lemma work_bounds_spec ss : forall k st en sit eit, NoDup (names ss) ->
  (sit <> None -> position st ss = None) -> (eit <> None -> position en ss = None) ->
  (forall j, eit = Some j -> (j <= k)%nat) ->
  Snapshots.work_bounds ss k st en sit eit =
  let i := match sit with Some x => Some x | None => (fun x => k + x)%nat <$> position st ss end in
  let j := match eit with Some x => Some x | None => (fun x => k + x)%nat <$> position en ss end in
  match sit, i, j with
  | None, Some i, Some j => if (j <? i)%nat then Throw IOException else Ok (Some i, Some j)
  | _, i, j => Ok (i, j)
  end.
Proof.
  induction ss as [|s ss IH]; intros k st en sit eit Hn Hs He Hk.
  - cbn. destruct st, en, sit, eit; cbn; done.
  - pose proof (position_absent st s ss Hn) as Ps. pose proof (position_absent en s ss Hn) as Pe.
    rewrite !position_cons in * by done. cbn [Snapshots.work_bounds].
    assert (Hn' : NoDup (names ss)) by by apply NoDup_cons in Hn as [_ ?].
    destruct (decide (st = Some (name s))) as [Est|Est];
      [rewrite (bool_decide_true (st = _)) in * by done|rewrite (bool_decide_false (st = _)) in * by done];
    (destruct (decide (en = Some (name s))) as [Een|Een];
      [rewrite (bool_decide_true (en = _)) in * by done|rewrite (bool_decide_false (en = _)) in * by done]).
    all: destruct sit as [x|], eit as [y|]; try (by specialize (Hs ltac:(done))); try (by specialize (He ltac:(done))); cbn [rbind].
    all: rewrite ?bool_decide_true by done; cbn [rbind].
    all: assert (Hsh : forall o : option nat, (fun x => k + x)%nat <$> (S <$> o) = (fun x => S k + x)%nat <$> o)
      by (intros [o|]; cbn; [f_equal; lia|done]).
    all: rewrite ?Hsh; try change ((fun x => k + x)%nat <$> Some 1%nat) with (Some (k + 1)%nat); rewrite ?Nat.add_1_r.
    2: { by rewrite (proj2 (Nat.ltb_lt y (S k))) by (specialize (Hk y eq_refl); lia). }
    all: rewrite IH; [cbv zeta | done | | | ]; try (intros j [= <-]; lia); try (by intros ? [=]);
      try (intros j Hj; specialize (Hk j Hj); lia); try (by intros _; apply Ps); try (by intros _; apply Pe); try done;
      try (intros H'; specialize (Hs H'); by destruct (position st ss));
      try (intros H'; specialize (He H'); by destruct (position en ss)).
    + by rewrite Nat.ltb_irrefl.
    + destruct (position en ss) as [q|]; cbn [fmap option_fmap option_map]; [|done].
      by rewrite (proj2 (Nat.ltb_ge (S k + q) (S k))) by lia.
Qed.

End QueryFacts.

Module QueryTheorems.
Import TLog TLogs Snapshot SnapshotPersistor TLogsFacts PersistorFacts PersistorSteps QueryFacts.

(** the TLogs up to a snapshot followed by those after it are all TLogs of
    the volume; both queries refuse a snapshot that does not exist. *)
Theorem till_and_after_partition (p : SnapshotPersistor) (n : SnapshotNum) :
  reachable p ->
  if snapshotExists_num p n then
    exists t a, getTLogsTillSnapshot p n [] = Ok t /\ getTLogsAfterSnapshot p n [] = Ok a /\
      getAllTLogs p [] true = t ++ a /\ t ++ a = ids (flat p)
  else getTLogsTillSnapshot p n [] = Throw SnapshotNotFoundException /\
       getTLogsAfterSnapshot p n [] = Throw SnapshotNotFoundException.
Proof.
  intros Hi%reachable_inv.
  unfold snapshotExists_num, Snapshots.snapshotExists_num, Snapshots.exists_, getTLogsTillSnapshot, getTLogsAfterSnapshot.
  destruct (Snapshots.find_ (Snapshots.by_num n) (snapshots p)) as [i|] eqn:E.
  - apply find_split in E as (a & s & b & Hss & _ & Hn%Z.eqb_eq & Ha).
    pose proof (inv_nums _ Hi) as Hs. rewrite Hss in Hs. destruct (sorted_mid a s b Hs) as (_ & Hb & _).
    rewrite Hn in Hb. rewrite Hss, till_spec, after_spec by done. cbn [rbind app].
    eexists _, _. split; [done|]. split; [done|]. rewrite all_tlogs by done. unfold flat, getOrderedTLogIds.
    rewrite Hss, ids_app, (cons_middle s a b), (app_assoc a), flats_app, ids_app. cbn [app].
    by rewrite <- !app_assoc.
  - apply find_none in E. rewrite till_none by done. split; [done|].
    unfold Snapshots.getTLogsAfterSnapshot. assert (Hr : not_num n (rev (snapshots p))) by by apply Forall_rev.
    revert Hr. generalize (rev (snapshots p)) as r. generalize (@nil TLogId) as out.
    intros out r Hr. revert out. induction Hr as [|x r Hx Hr IH]; intros out; cbn; [done|].
    unfold Snapshots.by_num in Hx. by rewrite Hx.
Qed.

Lemma till_and_after_partition_witness :
  exists t a, getTLogsTillSnapshot PersistorTheorems.hist 0 [] = Ok t /\
    getTLogsAfterSnapshot PersistorTheorems.hist 0 [] = Ok a /\ t ++ a = [1; 2; 3; 4; 5].
Proof.
  destruct (till_and_after_partition PersistorTheorems.hist 0 PersistorTheorems.hist_reachable) as (t & a & ? & ? & _ & E).
  exists t, a. split_and!; [done|done|rewrite E; vm_compute; reflexivity].
Defined.

(** the TLogs between two snapshots are exactly what the later one has on
    top of the earlier one; with the end snapshot left out, what it has on top
    of the earlier one without its own.  Reversed bounds and snapshots that do
    not exist are refused. *)
Theorem between_snapshots_exact (p : SnapshotPersistor) (m n : SnapshotNum) :
  reachable p ->
  if m >? n then forall inc, getTLogsBetweenSnapshots p m n [] inc = Throw IOException
  else if negb (snapshotExists_num p m && snapshotExists_num p n) then
    forall inc, getTLogsBetweenSnapshots p m n [] inc = Throw SnapshotNotFoundException
  else m < n -> exists tm tn b b' own,
    getTLogsTillSnapshot p m [] = Ok tm /\ getTLogsTillSnapshot p n [] = Ok tn /\
    getTLogsBetweenSnapshots p m n [] true = Ok b /\ getTLogsBetweenSnapshots p m n [] false = Ok b' /\
    getTLogsInSnapshot p n [] = (true, own) /\ tn = tm ++ b /\ b = b' ++ own.
Proof.
  intros Hi%reachable_inv. unfold getTLogsBetweenSnapshots, Snapshots.getTLogsBetweenSnapshots.
  destruct (Z.gtb_spec m n) as [Hmn|Hmn]; [done|].
  unfold snapshotExists_num, Snapshots.snapshotExists_num, Snapshots.exists_, getTLogsTillSnapshot.
  destruct (Snapshots.find_ (Snapshots.by_num m) (snapshots p)) as [i|] eqn:Em; cbn [andb negb].
  2: { intros inc. apply between_no_start. by apply find_none. }
  destruct (Snapshots.find_ (Snapshots.by_num n) (snapshots p)) as [j|] eqn:En; cbn [negb].
  2: { intros inc. apply between_no_end. by apply find_none. }
  intros Hlt. apply find_split in Em as (x & s & r & Hss & _ & Hs%Z.eqb_eq & Hx). subst m.
  pose proof (inv_nums _ Hi) as Hsort. rewrite Hss in Hsort. destruct (sorted_mid x s r Hsort) as (_ & _ & Hxl & Hrl).
  apply find_split in En as (y0 & e & z & Hss2 & _ & He%Z.eqb_eq & Hy0). subst n.
  assert (exists y, r = y ++ e :: z /\ y0 = x ++ s :: y) as (y & -> & ->).
  { rewrite Hss in Hss2. apply app_eq_inv in Hss2 as [(k & -> & Hk)|(k & -> & Hk)].
    - destruct k as [|k0 k]; cbn in Hk; injection Hk as <- ->; [lia|].
      exfalso. apply Forall_app in Hxl as [_ Hxl]. apply Forall_cons in Hxl as [? _]. lia.
    - destruct k as [|k0 k]; cbn in Hk; injection Hk as <- ->; [lia|]. eauto. }
  assert (Hmid : Forall (fun t => num s < num t < num e) y).
  { apply Forall_app in Hrl as [Hy _]. rewrite fmap_app in Hsort. cbn in Hsort.
    assert (Hs2 : StronglySorted Z.lt (nums ((x ++ s :: y) ++ e :: z)))
      by (rewrite <- app_assoc; by rewrite fmap_app).
    destruct (sorted_mid _ _ _ Hs2) as (_ & _ & Hlt2 & _). apply Forall_app in Hlt2 as [_ Hlt2].
    apply Forall_cons in Hlt2 as [_ Hlt2]. apply Forall_forall. intros t Ht.
    pose proof (proj1 (Forall_forall _ _) Hy t Ht). pose proof (proj1 (Forall_forall _ _) Hlt2 t Ht). cbn in *. lia. }
  assert (Hss3 : snapshots p = (x ++ s :: y) ++ e :: z) by (rewrite Hss; by rewrite <- app_assoc).
  assert (E1 : Snapshots.getTLogsTillSnapshot (snapshots p) (num s) [] = Ok (ids (flats (x ++ [s]))))
    by (rewrite Hss; by apply till_spec).
  assert (E2 : Snapshots.getTLogsTillSnapshot (snapshots p) (num e) [] = Ok (ids (flats ((x ++ s :: y) ++ [e]))))
    by (rewrite Hss3; by apply till_spec).
  assert (E3 : Snapshots.getTLogsInSnapshot (snapshots p) (num e) [] = (true, ids (tlogs e)))
    by (rewrite Hss3; by apply in_snapshot).
  assert (Hb : forall inc, Snapshots.between_ (snapshots p) (num s) (num e) false [] inc =
    Ok (if inc then ids (flats y) ++ ids (tlogs e) else ids (flats y)))
    by (intros inc; rewrite Hss, between_skip, between_start, between_middle, between_end by (done || lia); done).
  unfold getTLogsInSnapshot. rewrite E1, E2, E3, !Hb. eexists _, _, _, _, _. do 5 (split; [done|]). split; [|done].
  rewrite (cons_middle s x y), <- !app_assoc, (app_assoc x), (flats_app (x ++ [s])), ids_app. f_equal.
  rewrite flats_app, ids_app. f_equal. cbn. by rewrite app_nil_r.
Qed.

Lemma between_snapshots_exact_witness :
  exists tm tn b, getTLogsTillSnapshot PersistorTheorems.hist 0 [] = Ok tm /\
    getTLogsTillSnapshot PersistorTheorems.hist 1 [] = Ok tn /\
    getTLogsBetweenSnapshots PersistorTheorems.hist 0 1 [] true = Ok b /\ tn = tm ++ b.
Proof.
  destruct (between_snapshots_exact PersistorTheorems.hist 0 1 PersistorTheorems.hist_reachable)
    as (tm & tn & b & b' & own & ? & ? & ? & _ & _ & ? & _); [lia|].
  exists tm, tn, b. by split_and!.
Defined.

(** the written TLogs followed by the unwritten ones are all TLogs, in
    order: neither query trips over its own consistency check, and trimming to
    the backend keeps exactly the former, with one new TLog behind them. *)
Theorem written_and_unwritten_partition (p : SnapshotPersistor) (fresh : TLogId) :
  reachable p ->
  exists w u, getTLogsWrittenToBackend p [] = Ok w /\ getTLogsNotWrittenToBackend p [] = Ok u /\
    getAllTLogs p [] true = w ++ u /\ ids (flat (trimToBackend p fresh)) = w ++ [fresh] /\
    forall t, t ∈ flat p -> (uuid t ∈ w <-> written_to_backend t = true).
Proof.
  intros Hi%reachable_inv. pose proof (inv_sane _ Hi) as Hs. pose proof (inv_ids _ Hi) as Hn.
  assert (Hw : forall t, t ∈ flat p -> isTLogWrittenToBackend p (uuid t) = W t) by (intros; by apply is_written_flat).
  assert (Ha : getAllTLogs p [] true = ids (flat p)) by (rewrite all_tlogs by done; unfold flat; by rewrite ids_app).
  exists (ids (written (flat p))), (ids (unwritten (flat p))).
  unfold getTLogsWrittenToBackend, getTLogsNotWrittenToBackend.
  rewrite Ha, !written_loop_spec by done. split_and!; try done.
  - rewrite <- ids_app. f_equal. by apply sane_split.
  - destruct (trim_flat p fresh) as [-> _]. by rewrite ids_app, tlogsOnBackend_written.
  - intros t Ht. unfold ids, written. rewrite list_elem_of_fmap. split.
    + intros (u & Hu & Hin). rewrite list_elem_of_In, filter_In, <- list_elem_of_In in Hin. destruct Hin as [Hin Hwu].
      rewrite <- (Hw t Ht), Hu, (Hw u Hin). done.
    + intros Hwt. exists t. split; [done|]. rewrite list_elem_of_In, filter_In, <- list_elem_of_In. done.
Qed.

Lemma written_and_unwritten_partition_witness :
  exists w u, getTLogsWrittenToBackend PersistorTheorems.hist [] = Ok w /\
    getTLogsNotWrittenToBackend PersistorTheorems.hist [] = Ok u /\
    getAllTLogs PersistorTheorems.hist [] true = w ++ u.
Proof.
  destruct (written_and_unwritten_partition PersistorTheorems.hist 9 PersistorTheorems.hist_reachable)
    as (w & u & ? & ? & ? & _).
  exists w, u. by split_and!.
Defined.

(** C32: what has to be replayed since a cork.  From the cork of a snapshot that
    is in the backend, also after its TLogs were replaced by a scrub, it is
    every written TLog behind that snapshot; from the identifier of a current
    TLog, every written one behind that TLog; an unknown cork gives all written
    TLogs if it is the cork the volume started from and is refused otherwise. *)
Theorem since_last_cork_exact (p : SnapshotPersistor) (start : option UUID) :
  reachable p -> (parent_ p = None <-> start = None) ->
  (forall a s b, snapshots p = a ++ s :: b -> writtenToBackend (tlogs s) = true ->
     cork_uuid_ s ∉ ids (flats b ++ current p) -> Forall (fun x => cork_uuid_ x <> cork_uuid_ s) b ->
     getTLogsOnBackendSinceLastCork p (Some (cork_uuid_ s)) start = Ok (ids (written (flats b ++ current p)))) /\
  (forall l1 t l2, current p = l1 ++ t :: l2 -> written_to_backend t = true ->
     getTLogsOnBackendSinceLastCork p (Some (uuid t)) start = Ok (ids (written l2))) /\
  (forall cork, no_cork cork (flat p) -> Forall (fun s => cork <> Some (cork_uuid_ s)) (snapshots p) ->
     getTLogsOnBackendSinceLastCork p cork start =
       if bool_decide (cork = start) then Ok (ids (written (flat p))) else Throw CorkNotFoundException).
Proof.
  intros Hi%reachable_inv Hp. pose proof (inv_sane _ Hi) as Hs. pose proof (inv_ids _ Hi) as Hn.
  assert (Hsc : sane (current p) = true) by (by eapply sane_suffix).
  assert (Hss : sane (flats (snapshots p)) = true) by (by eapply sane_prefix).
  unfold getTLogsOnBackendSinceLastCork.
  rewrite (bool_decide_ext _ _ Hp), Bool.eqb_reflx. split_and!.
  - intros a s b E Hw Hc Hb. rewrite E in *. rewrite ids_app in Hc. apply not_elem_of_app in Hc as [Hcb Hcc].
    rewrite since_absent; [|done|by intros c [= <-]]. cbn [rbind app].
    rewrite rev_app_distr. cbn [rev]. rewrite <- app_assoc. cbn [app].
    rewrite flats_app, flats_cons in Hss. apply sane_suffix, sane_suffix in Hss.
    rewrite since_snaps_absent; [|done|by intros c [= <-]|eapply Forall_impl; [exact Hb|]; cbn; congruence].
    cbn [since_cork_snapshots]. unfold Snapshot.getReversedTLogsOnBackendSinceLastCork.
    rewrite bool_decide_true, Hw by done. cbn [andb rbind]. f_equal.
    by rewrite <- rev_app_distr, rev_involutive, <- ids_app, <- written_app.
  - intros l1 t l2 E Ht. rewrite E in *.
    assert (uuid t ∉ ids l2).
    { unfold flat in Hn. rewrite E, (ids_app _ (l1 ++ _)), (ids_app l1) in Hn.
      apply NoDup_app in Hn as (_ & _ & (_ & _ & [? _]%NoDup_cons)%NoDup_app). done. }
    apply sane_suffix in Hsc. change (t :: l2) with ([t] ++ l2) in Hsc. apply sane_suffix in Hsc.
    rewrite since_found by done. cbn. by rewrite rev_involutive.
  - intros cork Hc Hsn. unfold flat in Hc. apply no_cork_app in Hc as [Hc1 Hc2].
    rewrite since_absent by done. cbn [rbind app].
    pose proof (since_snaps_absent (snapshots p) [] cork (rev (ids (written (current p)))) Hss Hc1 Hsn) as E.
    rewrite app_nil_r in E. rewrite E. cbn [since_cork_snapshots rbind].
    destruct (bool_decide (cork = start)); [|done]. f_equal.
    rewrite <- rev_app_distr, rev_involutive, <- ids_app, <- written_app. done.
Qed.

Lemma since_last_cork_exact_witness :
  getTLogsOnBackendSinceLastCork PersistorTheorems.hist (Some 2) None = Ok [3].
Proof.
  destruct (since_last_cork_exact PersistorTheorems.hist None PersistorTheorems.hist_reachable) as (H & _); [done|].
  destruct (snapshots PersistorTheorems.hist) as [|s b] eqn:E; [by vm_compute in E|].
  assert (E' := E). vm_compute in E'. injection E' as Es Eb.
  etrans; [etrans; [|apply (H [] s b eq_refl)]|].
  - by rewrite <- Es.
  - by rewrite <- Es.
  - rewrite <- Es, <- Eb. apply (bool_decide_unpack _). vm_compute. exact I.
  - rewrite <- Es, <- Eb. apply (bool_decide_unpack _). vm_compute. exact I.
  - rewrite <- Eb. vm_compute. reflexivity.
Defined.

(** backend sizes are sums over the log: the size between two snapshots is
    that of the TLogs behind the first up to the second, the total size that of
    all TLogs, all modulo 2^64. *)
Theorem backend_sizes_exact (p : SnapshotPersistor) :
  reachable p ->
  getTotalBackendSize p = u64 (total (flat p)) /\
  (forall a e z, snapshots p = a ++ e :: z ->
     getBackendSize p (name e) None = Ok (u64 (total (flats (a ++ [e]))))) /\
  (forall a s m e z, snapshots p = a ++ s :: m ++ e :: z ->
     getBackendSize p (name e) (Some (name s)) = Ok (u64 (total (flats (m ++ [e])))) /\
     getBackendSize p (name s) (Some (name e)) = Throw IOException).
Proof.
  intros Hi%reachable_inv. pose proof (inv_names _ Hi) as Hn. unfold getBackendSize, Snapshots.getBackendSize. split_and!.
  - unfold getTotalBackendSize, Snapshots.getTotalBackendSize, getCurrentBackendSize, flat.
    rewrite sizes_total by by_decide. rewrite backend_size_total, total_app. unfold wrap.
    by rewrite Z.add_mod_idemp_l, Z.add_mod_idemp_r by lia.
  - intros a e z E. rewrite E in *. rewrite find_name by done.
    assert ((length (a ++ e :: z) =? 0)%nat = false) as -> by (apply Nat.eqb_neq; rewrite length_app; cbn; lia).
    assert ((0 =? length (a ++ e :: z))%nat = false) as -> by (apply Nat.eqb_neq; rewrite length_app; cbn; lia).
    cbn [negb]. replace (a ++ e :: z) with ([] ++ (a ++ [e]) ++ z) by list_norm.
    replace (S (length a)) with (length (@nil Snapshot) + length (a ++ [e]))%nat by (rewrite length_app; cbn; lia).
    rewrite (size_loop_spec (a ++ [e]) []) by (rewrite !length_app; cbn; lia).
    by rewrite sizes_total by by_decide.
  - intros a s m e z E. rewrite E in *.
    assert (Hn2 : NoDup (names ((a ++ s :: m) ++ e :: z))) by by rewrite <- app_assoc.
    assert (Hf : Snapshots.find_ (Snapshots.by_name (name e)) (a ++ s :: m ++ e :: z) = Some (length (a ++ s :: m)))
      by (rewrite <- (find_name _ _ _ Hn2); by rewrite <- app_assoc).
    rewrite Hf, (find_name a s (m ++ e :: z)) by done. cbn zeta.
    assert (Hlen : length (a ++ s :: m ++ e :: z) = (length a + S (length m) + S (length z))%nat)
      by (rewrite !length_app; cbn; rewrite length_app; cbn; lia).
    rewrite length_app at 1. cbn [length].
    rewrite !(proj2 (Nat.eqb_neq _ _)) by (rewrite ?Hlen, ?length_app; cbn; lia). cbn [negb]. split.
    + replace (a ++ s :: m ++ e :: z) with ((a ++ [s]) ++ (m ++ [e]) ++ z) by list_norm.
      replace (S (length a)) with (length (a ++ [s])) by (rewrite length_app; cbn; lia).
      replace (S (length (a ++ s :: m))) with (length (a ++ [s]) + length (m ++ [e]))%nat
        by (rewrite !length_app; cbn; lia).
      rewrite size_loop_spec by (rewrite !length_app; cbn; lia). by rewrite sizes_total by by_decide.
    + apply size_loop_off; rewrite ?length_app; cbn; lia.
Qed.

Lemma backend_sizes_exact_witness :
  getTotalBackendSize PersistorTheorems.hist = u64 (total (flat PersistorTheorems.hist)).
Proof. apply (backend_sizes_exact PersistorTheorems.hist), PersistorTheorems.hist_reachable. Defined.

(** scrubbing work for the snapshots behind the start snapshot (or from the
    first one) up to and including the end snapshot (or to the last one): every
    snapshot in that range that is on the backend and not scrubbed, in order,
    and nothing else.  An end before the start and names that do not exist are
    refused. *)
Theorem scrubbing_work_exact (p : SnapshotPersistor) (st en : option SnapshotName) (out : list SnapshotName) :
  reachable p ->
  let first := position st (snapshots p) in
  let last := position en (snapshots p) in
  getSnapshotScrubbingWork p st en out =
  match first, last with
  | Some i, Some j => if (j <? i)%nat then Throw IOException
                      else Ok (out ++ (name <$> List.filter (fun s => negb (scrubbed s) && writtenToBackend (tlogs s))
                                                   (drop i (take j (snapshots p)))))
  | _, _ =>
      if bool_decide (st <> None /\ first = None) || bool_decide (en <> None /\ last = None)
      then Throw SnapshotNotFoundException
      else Ok (out ++ (name <$> List.filter (fun s => negb (scrubbed s) && writtenToBackend (tlogs s))
                                   (drop (default O first) (take (default (length (snapshots p)) last) (snapshots p)))))
  end.
Proof.
  intros Hi%reachable_inv. cbv zeta. unfold getSnapshotScrubbingWork, Snapshots.getSnapshotScrubbingWork.
  rewrite work_bounds_spec by (done || apply Hi). cbv zeta.
  assert (forall o : option nat, (fun x => 0 + x)%nat <$> o = o) as Hid by by intros [].
  rewrite !Hid. destruct (position st (snapshots p)) as [i|] eqn:Est, (position en (snapshots p)) as [j|] eqn:Een;
    destruct st as [sn|]; try discriminate Est; destruct en as [e|]; try discriminate Een.
  all: rewrite ?(bool_decide_false (_ /\ Some _ = None)) by (by intros [? ?]).
  all: rewrite ?(bool_decide_true (Some _ <> None /\ None = None)) by done.
  all: rewrite ?(bool_decide_false (None <> None /\ _)) by (by intros [? ?]).
  all: cbn [rbind orb default]; try done; try (destruct (j <? i)%nat; done).
Qed.

Lemma scrubbing_work_exact_witness :
  getSnapshotScrubbingWork PersistorTheorems.hist None (Some "b"%string) [] = Ok ["a"%string].
Proof.
  rewrite (scrubbing_work_exact PersistorTheorems.hist None (Some "b"%string) [] PersistorTheorems.hist_reachable).
  vm_compute. reflexivity.
Defined.

End QueryTheorems.
