(* ===== verification/PageGenerator.v ===== *)
(** * Grouping a TLog into pages for replay

    src/src/volumedriver/PageGenerator.{h,cpp}: location entries are read ahead and
    grouped by the metadata page they belong to, so that replay touches each page
    once per batch.  Pages are handed out in the order of an unordered map, which
    is a parameter here, [pick].  Shown: all entries are handed out, and for every
    page in the order of the log, whatever the order of the pages. *)

From S2P Require Import Prelude Addressing TLogEntry.

Module PageGenerator.
Import Entry.

Section PageGenerator.
(** [CachePage::pageAddress], and the element [unordered_map::begin] yields. *)
Variable pageAddress : Z -> Z.
Abbreviation PageData := (list Entry).
Variable pick : list (Z * PageData) -> nat.

Record PageGenerator : Type := mkGen {
  pages_ : list (Z * PageData);
  tlog_finished_ : bool;
  cached_max_ : Z;
  cached_ : Z;
  reader_ : list Entry;
  current_ : PageData;
  current_size_ : Z }.

(** The page is found, or a new one is made; the entry goes to its end. *)
Fixpoint push (pa : Z) (e : Entry) (ps : list (Z * PageData)) : list (Z * PageData) :=
  match ps with
  | [] => [(pa, [e])]
  | (q, d) :: r => if q =? pa then (q, d ++ [e]) :: r else (q, d) :: push pa e r
  end.

(** The loop of [get_more_data_]; the flag says that the reader ran dry. *)
Fixpoint fill (max : Z) (reader : list Entry) (ps : list (Z * PageData)) (cached : Z)
  : res (list (Z * PageData) * Z * list Entry * bool) :=
  match reader with
  | [] => Ok (ps, cached, [], true)
  | e :: r =>
      let? ca := clusterAddress e in
      let ps' := push (pageAddress ca) e ps in
      let cached' := u64 (cached + 1) in
      if max <=? cached' then Ok (ps', cached', r, false) else fill max r ps' cached'
  end.

Definition get_more_data_ (g : PageGenerator) : res PageGenerator :=
  if tlog_finished_ g then Ok g
  else
    verify cached_ g <? cached_max_ g in
    let? (ps, cached, r, dry) := fill (cached_max_ g) (reader_ g) (pages_ g) (cached_ g) in
    Ok (mkGen ps dry (cached_max_ g) cached r (current_ g) (current_size_ g)).

Definition update_current_ (g : PageGenerator) : res PageGenerator :=
  if 0 <? cached_ g then
    verify negb (length (pages_ g) =? 0)%nat in
    let i := (pick (pages_ g) mod length (pages_ g))%nat in
    let d := snd (nth i (pages_ g) (0, [])) in
    verify negb (length d =? 0)%nat in
    Ok (mkGen (take i (pages_ g) ++ drop (S i) (pages_ g)) (tlog_finished_ g) (cached_max_ g) (cached_ g) (reader_ g)
              d (Z.of_nat (length d)))
  else
    verify (length (pages_ g) =? 0)%nat in
    Ok (mkGen (pages_ g) (tlog_finished_ g) (cached_max_ g) (cached_ g) (reader_ g) [] 0).

Definition update_ (g : PageGenerator) : res PageGenerator :=
  let? g' := get_more_data_ g in update_current_ g'.

Definition create (cached_max : Z) (reader : list Entry) : res PageGenerator :=
  verify 0 <? cached_max in
  update_ (mkGen [] false cached_max 0 reader [] 0).

Definition next (g : PageGenerator) : res PageGenerator :=
  update_ (mkGen (pages_ g) (tlog_finished_ g) (cached_max_ g) (u64 (cached_ g - current_size_ g)) (reader_ g) (current_ g) 0).

Definition current (g : PageGenerator) : PageData := current_ g.
Definition finished (g : PageGenerator) : bool := cached_ g =? 0.
End PageGenerator.
End PageGenerator.

Module PageGeneratorFacts.
Import ClusterLocation CLH Entry PageGenerator.

Definition loc_entry (e : Entry) : Prop :=
  fits 35 (clusteraddress_ e) /\ isNull (clusterLocation (loc_and_hash_ e)) = false.

Lemma loc_entry_address e : loc_entry e -> clusterAddress e = Ok (clusteraddress_ e).
Proof.
  intros [[? Hf] Hn]. unfold clusterAddress. rewrite Hn. cbn [negb].
  rewrite (proj2 (Z.leb_le _ _)); [done|]. change max_valid_cluster_address with (2 ^ 35 - 1). lia.
Qed.

Section Facts.
Variable pageAddress : Z -> Z.
Variable pick : list (Z * list Entry) -> nat.

(** The entries of a page, in order. *)
Definition of_page (pa : Z) (l : list Entry) : list Entry := List.filter (fun e => pageAddress (clusteraddress_ e) =? pa) l.

Fixpoint lookup_page (pa : Z) (ps : list (Z * list Entry)) : list Entry :=
  match ps with
  | [] => []
  | (q, d) :: r => if q =? pa then d else lookup_page pa r
  end.

Definition size_of (ps : list (Z * list Entry)) : nat := length (concat (snd <$> ps)).

Record pages_ok (ps : list (Z * list Entry)) : Prop := {
  po_nodup : NoDup (fst <$> ps);
  po_page : Forall (fun p => snd p <> [] /\ Forall (fun e => pageAddress (clusteraddress_ e) = fst p /\ loc_entry e) (snd p)) ps }.

Lemma of_page_app pa l1 l2 : of_page pa (l1 ++ l2) = of_page pa l1 ++ of_page pa l2.
Proof. apply List.filter_app. Qed.

Lemma lookup_push pa q e ps : lookup_page pa (push q e ps) = lookup_page pa ps ++ (if q =? pa then [e] else []).
Proof.
  induction ps as [|[k d] ps IH]; cbn.
  - by destruct (q =? pa).
  - destruct (Z.eqb_spec k q) as [->|Hkq]; cbn.
    + destruct (q =? pa); [done|]. by rewrite app_nil_r.
    + destruct (Z.eqb_spec k pa) as [->|]; [|done]. rewrite (proj2 (Z.eqb_neq q pa)) by done. by rewrite app_nil_r.
Qed.

Lemma push_keys q e ps k : k ∈ fst <$> push q e ps -> k = q \/ k ∈ fst <$> ps.
Proof.
  induction ps as [|[k' d] ps IH]; cbn; [intros ->%list_elem_of_singleton; by left|].
  destruct (Z.eqb_spec k' q) as [->|]; cbn; intros [->|H]%elem_of_cons.
  - by left.
  - right. by apply elem_of_cons; right.
  - right. by left.
  - destruct (IH H) as [?|?]; [by left|right]. by apply elem_of_cons; right.
Qed.

Lemma push_ok q e ps : pages_ok ps -> pageAddress (clusteraddress_ e) = q -> loc_entry e -> pages_ok (push q e ps).
Proof.
  intros [Hnd Hp] Hq He. split.
  - clear Hp. induction ps as [|[k d] ps IH]; cbn in *; [apply NoDup_singleton|]. apply NoDup_cons in Hnd as [Hk Hnd].
    destruct (Z.eqb_spec k q) as [->|Hne]; cbn; apply NoDup_cons; split; [done|done| |by apply IH].
    intros [->|?]%push_keys; done.
  - clear Hnd. induction Hp as [|[k d] ps [Hd1 Hd2] Hps IH]; cbn; [constructor; [split; [done|by constructor]|constructor]|].
    destruct (Z.eqb_spec k q) as [->|Hne]; constructor; try done; cbn in *. split; [by destruct d|].
    apply Forall_app. split; [done|]. by constructor.
Qed.

Lemma push_size q e ps : size_of (push q e ps) = S (size_of ps).
Proof.
  unfold size_of. induction ps as [|[k d] ps IH]; cbn; [done|].
  destruct (k =? q); cbn; rewrite !length_app; cbn in *; lia.
Qed.

(** Reading ahead moves entries from the log to the pages, in order. *)
Lemma fill_ok max reader ps cached :
  pages_ok ps -> Forall loc_entry reader -> 0 <= cached < max -> max < 2 ^ 64 ->
  exists ps' cached' r' dry, fill pageAddress max reader ps cached = Ok (ps', cached', r', dry) /\
    pages_ok ps' /\ Forall loc_entry r' /\ (dry = true -> r' = []) /\ cached' <= max /\
    (reader <> [] -> cached < cached') /\
    cached' - cached = Z.of_nat (size_of ps') - Z.of_nat (size_of ps) /\
    (size_of ps' + length r' = size_of ps + length reader)%nat /\
    forall pa, lookup_page pa ps' ++ of_page pa r' = lookup_page pa ps ++ of_page pa reader.
Proof.
  revert ps cached. induction reader as [|e r IH]; intros ps cached Hps Hr Hc Hm; cbn [fill].
  - exists ps, cached, [], true. split_and!; try done; lia.
  - apply Forall_cons in Hr as [He Hr]. rewrite (loc_entry_address e He). cbn [rbind].
    set (q := pageAddress (clusteraddress_ e)). pose proof (push_ok q e ps Hps eq_refl He) as Hps'.
    assert (forall pa, lookup_page pa (push q e ps) ++ of_page pa r = lookup_page pa ps ++ of_page pa (e :: r)) as Hl.
    { intros pa. rewrite lookup_push, <- app_assoc. f_equal. cbn. fold q. by destruct (q =? pa). }
    rewrite wrap_id by (unfold fits; lia). pose proof (push_size q e ps) as Hz.
    destruct (Z.leb_spec max (cached + 1)).
    + exists (push q e ps), (cached + 1), r, false. cbn [length]. split_and!; try done; lia.
    + destruct (IH (push q e ps) (cached + 1) Hps' Hr ltac:(lia) Hm)
        as (ps' & c' & r' & dry & E & H1 & H2 & H3 & H4 & H5 & H6 & H7 & H8).
      exists ps', c', r', dry. cbn [length]. split_and!; try done; try lia.
      * intros _. destruct r as [|e' r]; [|specialize (H5 ltac:(done)); lia]. cbn in E. injection E as <- <- <- <-. lia.
      * intros pa. by rewrite H8, Hl.
Qed.
Lemma lookup_none pa ps : pa ∉ fst <$> ps -> lookup_page pa ps = [].
Proof.
  induction ps as [|[k d] ps IH]; cbn; [done|]. intros [Hne Hps]%not_elem_of_cons.
  rewrite (proj2 (Z.eqb_neq k pa)) by done. by apply IH.
Qed.

Lemma lookup_app pa l1 l2 : pa ∉ fst <$> l1 -> lookup_page pa (l1 ++ l2) = lookup_page pa l2.
Proof.
  induction l1 as [|[k d] l1 IH]; cbn; [done|]. intros [Hne Hl]%not_elem_of_cons.
  rewrite (proj2 (Z.eqb_neq k pa)) by done. by apply IH.
Qed.

Lemma of_page_all q d : Forall (fun e => pageAddress (clusteraddress_ e) = q /\ loc_entry e) d ->
  forall pa, of_page pa d = if q =? pa then d else [].
Proof.
  unfold of_page. intros Hd pa. induction Hd as [|e d [He _] Hd IH]; cbn; [by destruct (q =? pa)|].
  rewrite IH, He. by destruct (q =? pa).
Qed.

(** Handing out a page takes it, and nothing else, from the cache. *)
Lemma remove_page l1 q d l2 : pages_ok (l1 ++ (q, d) :: l2) ->
  pages_ok (l1 ++ l2) /\ d <> [] /\ Forall loc_entry d /\
  size_of (l1 ++ (q, d) :: l2) = (length d + size_of (l1 ++ l2))%nat /\
  forall pa, of_page pa d ++ lookup_page pa (l1 ++ l2) = lookup_page pa (l1 ++ (q, d) :: l2).
Proof.
  intros [Hnd Hp]. rewrite fmap_app in Hnd. cbn in Hnd.
  apply Forall_app in Hp as [Hp1 [[Hne Hd] Hp2]%Forall_cons]. cbn [fst snd] in *.
  assert ((q ∉ fst <$> l1 ++ l2) /\ NoDup (fst <$> l1 ++ l2)) as [Hq Hnd'].
  { rewrite <- Permutation_middle in Hnd. rewrite fmap_app. by apply NoDup_cons in Hnd. }
  split_and!; [split; [done|by apply Forall_app]|done| | |].
  - eapply Forall_impl; [exact Hd|]. by intros e [_ ?].
  - unfold size_of. rewrite !fmap_app, !concat_app. cbn. rewrite !length_app. lia.
  - intros pa. rewrite (of_page_all q d Hd). destruct (Z.eqb_spec q pa) as [->|Hne'].
    + rewrite lookup_none by done. rewrite fmap_app in Hq. apply not_elem_of_app in Hq as [Hq1 _].
      rewrite lookup_app by done. cbn. by rewrite Z.eqb_refl, app_nil_r.
    + clear - Hne'. induction l1 as [|[k x] l1 IH]; cbn; [by rewrite (proj2 (Z.eqb_neq q pa))|]. by destruct (k =? pa).
Qed.

(** *** The generator *)
Record gen_ok (g : PageGenerator) : Prop := {
  go_pages : pages_ok (pages_ g);
  go_reader : Forall loc_entry (reader_ g);
  go_max : 0 < cached_max_ g < 2 ^ 64;
  go_cached : cached_ g = Z.of_nat (length (current_ g) + size_of (pages_ g));
  go_bound : cached_ g <= cached_max_ g;
  go_size : current_size_ g = Z.of_nat (length (current_ g));
  go_dry : tlog_finished_ g = true -> reader_ g = [];
  go_current : Forall loc_entry (current_ g);
  go_nonempty : 0 < cached_ g -> current_ g <> [];
  go_done : cached_ g = 0 -> reader_ g = [] }.

(** What is still to be handed out. *)
Definition pending (g : PageGenerator) (pa : Z) : list Entry :=
  of_page pa (current_ g) ++ lookup_page pa (pages_ g) ++ of_page pa (reader_ g).
Definition left (g : PageGenerator) : nat := (length (current_ g) + size_of (pages_ g) + length (reader_ g))%nat.

Lemma size_zero ps : pages_ok ps -> size_of ps = 0%nat -> ps = [].
Proof.
  intros [_ Hp] Hz. destruct ps as [|[q d] ps]; [done|]. apply Forall_cons in Hp as [[Hd _] _]. cbn in *.
  unfold size_of in Hz. cbn in Hz. rewrite length_app in Hz. destruct d; [done|]. cbn in Hz. lia.
Qed.

Lemma update_current_ok g :
  pages_ok (pages_ g) -> Forall loc_entry (reader_ g) -> 0 < cached_max_ g < 2 ^ 64 ->
  cached_ g = Z.of_nat (size_of (pages_ g)) -> cached_ g <= cached_max_ g ->
  (tlog_finished_ g = true -> reader_ g = []) -> (cached_ g = 0 -> reader_ g = []) ->
  exists g', update_current_ pick g = Ok g' /\ gen_ok g' /\ left g' = (size_of (pages_ g) + length (reader_ g))%nat /\
    forall pa, pending g' pa = lookup_page pa (pages_ g) ++ of_page pa (reader_ g).
Proof.
  intros Hp Hr Hm Hc Hb Hdry Hdone. unfold update_current_. destruct (Z.ltb_spec 0 (cached_ g)) as [Hpos|Hz].
  - destruct (Nat.eqb_spec (length (pages_ g)) 0) as [E|Hlen].
    { apply nil_length_inv in E. rewrite E in Hc. cbn in Hc. lia. }
    cbn [negb]. set (i := (pick (pages_ g) mod length (pages_ g))%nat).
    assert (i < length (pages_ g))%nat as Hi by (apply Nat.mod_upper_bound; done).
    destruct (lookup_lt_is_Some_2 _ _ Hi) as [[q d] Eq]. rewrite (nth_lookup_Some _ _ _ _ Eq). cbn [snd].
    assert (pages_ g = take i (pages_ g) ++ (q, d) :: drop (S i) (pages_ g)) as Es by (symmetry; by apply take_drop_middle).
    rewrite Es in Hp. destruct (remove_page _ _ _ _ Hp) as (Hp' & Hd & Hld & Hsz & Hl). rewrite <- Es in Hsz, Hl.
    destruct (Nat.eqb_spec (length d) 0) as [E|_]; [by apply nil_length_inv in E|]. cbn [negb].
    eexists. split; [done|]. split_and!.
    + split; cbn [pages_ tlog_finished_ cached_max_ cached_ reader_ current_ current_size_]; try done; lia.
    + unfold left. cbn [pages_ tlog_finished_ cached_max_ cached_ reader_ current_ current_size_]. lia.
    + intros pa. unfold pending. cbn [pages_ tlog_finished_ cached_max_ cached_ reader_ current_ current_size_]. by rewrite app_assoc, Hl.
  - assert (pages_ g = []) as E by (apply size_zero; [done|lia]). rewrite E. cbn [length Nat.eqb].
    eexists. split; [done|]. rewrite E in *. assert (cached_ g = 0) as Ez by (cbn in Hc; lia).
    split_and!; [split; cbn; try done; rewrite Ez; lia|done|done].
Qed.

Lemma update_ok g :
  pages_ok (pages_ g) -> Forall loc_entry (reader_ g) -> 0 < cached_max_ g < 2 ^ 64 ->
  cached_ g = Z.of_nat (size_of (pages_ g)) -> cached_ g < cached_max_ g ->
  (tlog_finished_ g = true -> reader_ g = []) ->
  exists g', update_ pageAddress pick g = Ok g' /\ gen_ok g' /\ left g' = (size_of (pages_ g) + length (reader_ g))%nat /\
    forall pa, pending g' pa = lookup_page pa (pages_ g) ++ of_page pa (reader_ g).
Proof.
  intros Hp Hr Hm Hc Hb Hdry. unfold update_, get_more_data_. destruct (tlog_finished_ g) eqn:Et; cbn [rbind].
  - specialize (Hdry eq_refl). apply update_current_ok; try done. lia.
  - rewrite (proj2 (Z.ltb_lt _ _)) by done.
    destruct (fill_ok (cached_max_ g) (reader_ g) (pages_ g) (cached_ g))
      as (ps & c & r & dry & E & H1 & H2 & H3 & H4 & H5 & H6 & H7 & H8); [done|done|lia|lia|].
    rewrite E. cbn [rbind].
    destruct (update_current_ok (mkGen ps dry (cached_max_ g) c r (current_ g) (current_size_ g)))
      as (g' & E' & Hg & Hl & Hpd); cbn [pages_ tlog_finished_ cached_max_ cached_ reader_ current_ current_size_]; try done; try lia.
    { intros Ez. destruct (reader_ g) as [|e rd] eqn:Er; [cbn in E; injection E; intros; by subst|].
      specialize (H5 ltac:(done)). lia. }
    exists g'. split_and!; [done|done|cbn [pages_ tlog_finished_ cached_max_ cached_ reader_ current_ current_size_] in Hl; lia|]. intros pa. by rewrite Hpd.
Qed.

Lemma create_ok max reader : Forall loc_entry reader -> 0 < max < 2 ^ 64 ->
  exists g, create pageAddress pick max reader = Ok g /\ gen_ok g /\ left g = length reader /\
    forall pa, pending g pa = of_page pa reader.
Proof.
  intros Hr Hm. unfold create. rewrite (proj2 (Z.ltb_lt 0 max)) by lia.
  apply update_ok; cbn; try done; try lia. split; [constructor|constructor].
Qed.

(** Going on drops the current page, which was not empty. *)
Lemma next_ok g : gen_ok g -> finished g = false ->
  exists g', next pageAddress pick g = Ok g' /\ gen_ok g' /\ (left g = length (current g) + left g')%nat /\
    (0 < length (current g))%nat /\ forall pa, pending g pa = of_page pa (current g) ++ pending g' pa.
Proof.
  intros Hg Hf. apply Z.eqb_neq in Hf. pose proof (go_cached _ Hg) as Hc. pose proof (go_bound _ Hg). pose proof (go_max _ Hg).
  assert (current_ g <> []) as Hne by (apply Hg; lia).
  assert (0 < length (current_ g))%nat as Hpos by (destruct (current_ g); [done|cbn; lia]).
  unfold next. rewrite (go_size _ Hg), wrap_id by (unfold fits; lia).
  destruct (update_ok (mkGen (pages_ g) (tlog_finished_ g) (cached_max_ g) (cached_ g - Z.of_nat (length (current_ g)))
    (reader_ g) (current_ g) 0)) as (g' & E & Hg' & Hl & Hp); cbn [pages_ tlog_finished_ cached_max_ cached_ reader_ current_ current_size_]; try apply Hg; try lia.
  exists g'. split_and!; [done|done| |done|].
  - cbn [pages_ tlog_finished_ cached_max_ cached_ reader_ current_ current_size_] in Hl. rewrite Hl. unfold left, current. lia.
  - intros pa. rewrite Hp. done.
Qed.

Lemma finished_pending g : gen_ok g -> finished g = true -> left g = 0%nat.
Proof.
  intros Hg Hf%Z.eqb_eq. pose proof (go_cached _ Hg). unfold left. rewrite (go_done _ Hg Hf). cbn. lia.
Qed.
End Facts.
End PageGeneratorFacts.
