(* ===== verification/MetaDataStore.v ===== *)
(** * The cached metadata store

    src/src/volumedriver/CachedMetaDataPage.h and CachedMetaDataStore.{h,cpp}: the
    map from cluster addresses to locations.  New entries are held back in
    corks, one per TLog; when a TLog is on the backend its cork is moved into a
    least-recently-used cache of pages, which are written to a metadata backend
    (src/src/volumedriver/MetaDataBackendInterface.h, a class here).

    The store is a state of its own, its operations are in the state and
    exception monad [M]; one operation runs at a time, which the locks of the
    code guarantee.  [page_bits] is [CachePage::page_bits_], read from the
    environment at startup. *)

From S2P Require Import Prelude Addressing TLogEntry TLogs PageGenerator.
From Stdlib Require Import Sorted.

(** ** [std::map] with [uint64_t] keys: an association list in key order *)
Module OMap.
Section OMap.
Context {V : Type}.

Fixpoint insert (k : Z) (v : V) (m : list (Z * V)) : list (Z * V) :=
  match m with
  | [] => [(k, v)]
  | (k', v') :: m' =>
      if k <? k' then (k, v) :: m
      else if k =? k' then (k, v) :: m'
      else (k', v') :: insert k v m'
  end.

Fixpoint find (k : Z) (m : list (Z * V)) : option V :=
  match m with
  | [] => None
  | (k', v') :: m' => if k =? k' then Some v' else find k m'
  end.

Definition sorted (m : list (Z * V)) : Prop := StronglySorted Z.lt (fst <$> m).
End OMap.
End OMap.

(** ** [CachePage] *)
Module CachePage.
Import ClusterLocation CLH.

Abbreviation PageAddress := Z (only parsing).
Abbreviation ClusterAddress := Z (only parsing).

Record CachePage : Type := mkPage {
  page_address_ : PageAddress;
  data_ : list ClusterLocationAndHash;
  dirty : bool;
  written_clusters_since_last_backend_write : Z;
  discarded_clusters_since_last_backend_write : Z }.

(** A zeroed entry. *)
Definition zero : ClusterLocationAndHash := mkCLH ClusterLocation.null 0.

Definition make (pa : PageAddress) (data : list ClusterLocationAndHash) : CachePage := mkPage pa data false 0 0.

Definition with_data (p : CachePage) (d : list ClusterLocationAndHash) : CachePage :=
  mkPage (page_address_ p) d (dirty p) (written_clusters_since_last_backend_write p)
         (discarded_clusters_since_last_backend_write p).

Definition empty (p : CachePage) : bool := forallb (fun l => isNull (clusterLocation l)) (data_ p).

Definition incrementPageCloneID (increase : Z) (set_dirty : bool) (p : CachePage) : CachePage :=
  mkPage (page_address_ p)
    ((fun l => if negb (isNull (clusterLocation l))
               then mkCLH (ClusterLocation.incrementCloneID increase (clusterLocation l)) (weed_ l) else l) <$> data_ p)
    set_dirty (written_clusters_since_last_backend_write p) (discarded_clusters_since_last_backend_write p).

Section Geometry.
Variable page_bits : Z.
Definition capacity : Z := u32 (Z.shiftl 1 page_bits).
Definition offset (ca : ClusterAddress) : nat := Z.to_nat (u32 (Z.land ca (capacity - 1))).
Definition pageAddress (ca : ClusterAddress) : PageAddress := Z.shiftr ca page_bits.
Definition clusterAddress (pa : PageAddress) : ClusterAddress := u64 (Z.shiftl pa page_bits).
Definition reset (p : CachePage) : CachePage := with_data p (replicate (Z.to_nat capacity) zero).
End Geometry.

End CachePage.

(** ** The backend of the store *)
Module Backend.
Import CLH CachePage TLog.

Class MetaDataBackendInterface (B : Type) : Type := {
  getPage : PageAddress -> M B (option (list ClusterLocationAndHash));
  putPage : PageAddress -> list ClusterLocationAndHash -> Z -> M B unit;
  discardPage : PageAddress -> Z -> M B unit;
  pageExistsInParent : PageAddress -> M B bool;
  be_sync : M B unit;
  be_clear_all_keys : M B unit;
  be_set_scrub_id : UUID -> M B unit;
  be_scrub_id : M B (option UUID);
  setCork : UUID -> M B unit;
  lastCorkUUID : M B (option UUID);
  getUsedClusters : B -> Z }.

(** The entries of a page that hold a location. *)
Definition in_use (l : ClusterLocationAndHash) : bool := negb (ClusterLocation.isNull (clusterLocation l)).
Definition nonnull (d : list ClusterLocationAndHash) : Z := Z.of_nat (length (List.filter in_use d)).
(** The number of clusters in use in a set of pages. *)
Definition used_of (m : gmap Z (list ClusterLocationAndHash)) : Z := map_fold (fun _ d n => nonnull d + n) 0 m.

(** The addresses a page can have: the backends keep three keys of the
    64-bit key space for themselves. *)
Definition page_ok (pa : PageAddress) : Prop := 0 <= pa < 2 ^ 64 - 3.

(** What a backend that works promises: pages stay stored, those of a parent
    included, and the clusters in use are counted. *)
Class MetaDataBackendSpec (page_bits : Z) (B : Type) `{MetaDataBackendInterface B} : Type := {
  ready : B -> Prop;
  stored : B -> gmap Z (list ClusterLocationAndHash);
  in_parent : B -> PageAddress -> bool;
  cork_of : B -> option UUID;
  scrub_of : B -> option UUID;
  lastCorkUUID_spec : forall b, ready b -> lastCorkUUID b = (b, Ok (cork_of b));
  scrub_id_spec : forall b, ready b -> be_scrub_id b = (b, Ok (scrub_of b));
  getPage_spec : forall pa b, ready b -> page_ok pa -> getPage pa b = (b, Ok (stored b !! pa));
  pageExistsInParent_spec : forall pa b, pageExistsInParent pa b = (b, Ok (in_parent b pa));
  putPage_spec : forall pa d z b, ready b -> page_ok pa -> Z.of_nat (length d) = capacity page_bits ->
    0 <= getUsedClusters b + z < 2 ^ 63 ->
    exists b', putPage pa d z b = (b', Ok tt) /\ ready b' /\ stored b' = <[pa := d]> (stored b) /\
      in_parent b' = in_parent b /\ getUsedClusters b' = getUsedClusters b + z /\
      cork_of b' = cork_of b /\ scrub_of b' = scrub_of b;
  discardPage_spec : forall pa z b, ready b -> page_ok pa -> 0 <= getUsedClusters b + z < 2 ^ 63 ->
    in_parent b pa = false -> (stored b !! pa = None -> z = 0) ->
    exists b', discardPage pa z b = (b', Ok tt) /\ ready b' /\ stored b' = delete pa (stored b) /\
      in_parent b' = in_parent b /\ getUsedClusters b' = getUsedClusters b + z /\
      cork_of b' = cork_of b /\ scrub_of b' = scrub_of b;
  setCork_spec : forall c b, ready b -> exists b', setCork c b = (b', Ok tt) /\ ready b' /\
    cork_of b' = Some c /\ scrub_of b' = scrub_of b /\ stored b' = stored b /\
    in_parent b' = in_parent b /\ getUsedClusters b' = getUsedClusters b;
  set_scrub_id_spec : forall i b, ready b -> exists b', be_set_scrub_id i b = (b', Ok tt) /\ ready b' /\
    scrub_of b' = Some i /\ cork_of b' = cork_of b /\ stored b' = stored b /\
    in_parent b' = in_parent b /\ getUsedClusters b' = getUsedClusters b;
  sync_spec : forall b, ready b -> exists b', be_sync b = (b', Ok tt) /\ ready b' /\
    scrub_of b' = scrub_of b /\ cork_of b' = cork_of b /\ stored b' = stored b /\
    in_parent b' = in_parent b /\ getUsedClusters b' = getUsedClusters b;
  clear_spec : forall b, ready b -> exists b', be_clear_all_keys b = (b', Ok tt) /\ ready b' /\
    stored b' = ∅ /\ in_parent b' = in_parent b /\ cork_of b' = None /\ scrub_of b' = None }.

End Backend.

(** ** The store *)
Module CachedMetaDataStore.
Import ClusterLocation CLH CachePage TLog Backend.

Section Store.
Context {B : Type} `{MetaDataBackendInterface B}.
Variable page_bits : Z.
(** The digest of a zeroed cluster. *)
Variable zero_weed : Weed.

Abbreviation cork_map := (list (ClusterAddress * ClusterLocationAndHash)).

(** [page_map_] maps page addresses to slots of [pages_], [page_list_] holds the
    slots in use, least recently used first. *)
Record Store : Type := mkStore {
  backend_ : B;
  pages_ : list CachePage;
  page_map_ : gmap Z nat;
  page_list_ : list nat;
  num_pages_ : nat;
  cache_hits_ : Z;
  cache_misses_ : Z;
  written_clusters_ : Z;
  discarded_clusters_ : Z;
  cork_uuid_ : option UUID;
  scrub_id_ : option UUID;
  corks_ : list (UUID * cork_map) }.

Definition with_backend b s := mkStore b (pages_ s) (page_map_ s) (page_list_ s) (num_pages_ s) (cache_hits_ s)
  (cache_misses_ s) (written_clusters_ s) (discarded_clusters_ s) (cork_uuid_ s) (scrub_id_ s) (corks_ s).
Definition with_pages p s := mkStore (backend_ s) p (page_map_ s) (page_list_ s) (num_pages_ s) (cache_hits_ s)
  (cache_misses_ s) (written_clusters_ s) (discarded_clusters_ s) (cork_uuid_ s) (scrub_id_ s) (corks_ s).
Definition with_links m l n s := mkStore (backend_ s) (pages_ s) m l n (cache_hits_ s)
  (cache_misses_ s) (written_clusters_ s) (discarded_clusters_ s) (cork_uuid_ s) (scrub_id_ s) (corks_ s).
Definition with_stats h m s := mkStore (backend_ s) (pages_ s) (page_map_ s) (page_list_ s) (num_pages_ s) h
  m (written_clusters_ s) (discarded_clusters_ s) (cork_uuid_ s) (scrub_id_ s) (corks_ s).
Definition with_counts w d s := mkStore (backend_ s) (pages_ s) (page_map_ s) (page_list_ s) (num_pages_ s) (cache_hits_ s)
  (cache_misses_ s) w d (cork_uuid_ s) (scrub_id_ s) (corks_ s).
Definition with_corks u c s := mkStore (backend_ s) (pages_ s) (page_map_ s) (page_list_ s) (num_pages_ s) (cache_hits_ s)
  (cache_misses_ s) (written_clusters_ s) (discarded_clusters_ s) u (scrub_id_ s) c.
Definition with_scrub_id i s := mkStore (backend_ s) (pages_ s) (page_map_ s) (page_list_ s) (num_pages_ s) (cache_hits_ s)
  (cache_misses_ s) (written_clusters_ s) (discarded_clusters_ s) (cork_uuid_ s) i (corks_ s).

(** A call of the backend. *)
Definition on_backend {A} (m : M B A) : M Store A := fun s =>
  let '(b, r) := m (backend_ s) in (with_backend b s, r).

Definition fail_unless (b : bool) (e : exn) : M Store unit := if b then mret tt else mthrow e.

Definition blank_page : CachePage := CachePage.make 0 [].
Definition page_at (s : Store) (i : nat) : CachePage := nth i (pages_ s) blank_page.
Definition set_page (i : nat) (p : CachePage) (s : Store) : Store := with_pages (<[i := p]> (pages_ s)) s.

Definition init_pages_ (cap : nat) : list CachePage :=
  (fun i => CachePage.make (Z.of_nat i) (replicate (Z.to_nat (capacity page_bits)) zero)) <$> seq 0 cap.

Definition create (b : B) (cap : nat) : B * res Store :=
  if (0 <? cap)%nat then
    (let! cork_uuid := lastCorkUUID in
     let! scrub_id := be_scrub_id in
     let! b := mget in
     mret (mkStore b (init_pages_ cap) ∅ [] 0 0 0 0 0 cork_uuid scrub_id [])) b
  else (b, Throw VerifyFailed).

(** *** Writing pages *)
Definition int32 (z : Z) : Z := let v := u32 z in if v <? 2 ^ 31 then v else v - 2 ^ 32.

Definition dispose_page (dispose : CachePage -> Z -> M B unit) (i : nat) : M Store unit :=
  let! s := mget in
  let p := page_at s i in
  let w := written_clusters_since_last_backend_write p in
  let d := discarded_clusters_since_last_backend_write p in
  on_backend (dispose p (int32 (w - d))) ;!
  mmodify (fun s => with_counts (u64 (written_clusters_ s - w)) (u64 (discarded_clusters_ s - d)) s) ;!
  mmodify (fun s => set_page i (mkPage (page_address_ p) (data_ p) false 0 0) s).

Definition put_page : nat -> M Store unit := dispose_page (fun p z => putPage (page_address_ p) (data_ p) z).
Definition discard_page : nat -> M Store unit := dispose_page (fun p z => discardPage (page_address_ p) z).

Definition possibly_discard_page_ (i : nat) : M Store bool :=
  let! s := mget in
  fail_unless (dirty (page_at s i)) AssertFailed ;!
  let! b := on_backend (pageExistsInParent (page_address_ (page_at s i))) in
  if b then mret false else discard_page i ;! mret true.

(** The [try] block; what it did before a throw stays done. *)
Definition write_dirty_page (i : nat) : M Store bool :=
  let! s := mget in
  if empty (page_at s i) then
    let! discarded := possibly_discard_page_ i in
    if discarded then mret false else put_page i ;! mret true
  else put_page i ;! mret true.

Definition maybeWritePage_locked_context (i : nat) (ignore_errors : bool) : M Store bool := fun s =>
  if dirty (page_at s i) then
    match write_dirty_page i s with
    | (s', Throw e) => if ignore_errors then (s', Ok false) else (s', Throw e)
    | r => r
    end
  else (s, Ok false).

(** *** Finding a page *)
Definition unlink_from_list (i : nat) (s : Store) : Store :=
  with_links (page_map_ s) (List.filter (fun j => negb (j =? i)%nat) (page_list_ s)) (num_pages_ s) s.
Definition unlink_from_set (i : nat) (s : Store) : Store :=
  with_links (delete (page_address_ (page_at s i)) (page_map_ s)) (page_list_ s) (num_pages_ s) s.
Definition is_in_list (i : nat) (s : Store) : bool := bool_decide (i ∈ page_list_ s).
Definition is_in_set (i : nat) (s : Store) : bool :=
  bool_decide (page_map_ s !! page_address_ (page_at s i) = Some i).

(** The slot for a page that is not cached: a free one, or the least recently
    used one, which is written out first. *)
Definition victim : M Store nat :=
  let! s := mget in
  if (num_pages_ s <? length (pages_ s))%nat then mret (num_pages_ s)
  else match page_list_ s with
       | [] => mthrow UndefinedBehaviour
       | i :: _ =>
           mmodify (fun s => unlink_from_set i (unlink_from_list i s)) ;!
           mmodify (fun s => with_links (page_map_ s) (page_list_ s) (num_pages_ s - 1) s) ;!
           maybeWritePage_locked_context i false ;!
           mret i
       end.

Definition load_page (pa : PageAddress) : M Store nat :=
  mmodify (fun s => with_stats (cache_hits_ s) (u64 (cache_misses_ s + 1)) s) ;!
  let! i := victim in
  let! s := mget in
  fail_unless (negb (dirty (page_at s i)) && negb (is_in_set i s) && negb (is_in_list i s) &&
               (num_pages_ s <? length (pages_ s))%nat) AssertFailed ;!
  mmodify (fun s => set_page i (CachePage.make pa (data_ (page_at s i))) s) ;!
  let! found := on_backend (getPage pa) in
  mmodify (fun s => set_page i (match found with
                                | Some d => with_data (page_at s i) d
                                | None => CachePage.reset page_bits (page_at s i)
                                end) s) ;!
  mmodify (fun s => with_links (<[pa := i]> (page_map_ s)) (page_list_ s) (num_pages_ s + 1) s) ;!
  mret i.

Definition get_page_ (ca : ClusterAddress) : M Store (nat * bool) :=
  let pa := pageAddress page_bits ca in
  let! s := mget in
  let! r := (match page_map_ s !! pa with
             | None => let! i := load_page pa in mret (i, false)
             | Some i =>
                 mmodify (fun s => unlink_from_list i (with_stats (u64 (cache_hits_ s + 1)) (cache_misses_ s) s)) ;!
                 mret (i, true)
             end) in
  let! s := mget in
  fail_unless (negb (is_in_list (fst r) s) && is_in_set (fst r) s) AssertFailed ;!
  mmodify (fun s => with_links (page_map_ s) (page_list_ s ++ [fst r]) (num_pages_ s) s) ;!
  mret r.

(** *** Reading and writing an entry *)
Definition entry_at (s : Store) (i : nat) (ca : ClusterAddress) : ClusterLocationAndHash :=
  nth (offset page_bits ca) (data_ (page_at s i)) zero.

Definition write_entry (i : nat) (ca : ClusterAddress) (loc : ClusterLocationAndHash) (s : Store) : Store :=
  let p := page_at s i in
  let clh := entry_at s i ca in
  let old := isNull (clusterLocation clh) in
  let new := isNull (clusterLocation loc) in
  let w := written_clusters_since_last_backend_write p in
  let d := discarded_clusters_since_last_backend_write p in
  let data := <[offset page_bits ca := loc]> (data_ p) in
  if old && negb new then
    with_counts (u64 (written_clusters_ s + 1)) (discarded_clusters_ s)
      (set_page i (mkPage (page_address_ p) data true (u32 (w + 1)) d) s)
  else if negb old && new then
    with_counts (written_clusters_ s) (u64 (discarded_clusters_ s + 1))
      (set_page i (mkPage (page_address_ p) data true w (u32 (d + 1))) s)
  else set_page i (mkPage (page_address_ p) data true w d) s.

(** [get_cluster_location_unlocked_] for writing and for reading. *)
Definition put_cluster_location (ca : ClusterAddress) (loc : ClusterLocationAndHash) : M Store bool :=
  let! (i, hit) := get_page_ ca in
  mmodify (write_entry i ca loc) ;! mret hit.

Definition get_cluster_location (ca : ClusterAddress) : M Store (ClusterLocationAndHash * bool) :=
  let! (i, hit) := get_page_ ca in
  let! s := mget in
  mret (entry_at s i ca, hit).

Fixpoint find_in_corks (ca : ClusterAddress) (rcorks : list (UUID * cork_map)) : option ClusterLocationAndHash :=
  match rcorks with
  | [] => None
  | c :: r => match OMap.find ca (snd c) with Some l => Some l | None => find_in_corks ca r end
  end.

Definition readCluster (ca : ClusterAddress) : M Store ClusterLocationAndHash :=
  let! s := mget in
  match find_in_corks ca (rev (corks_ s)) with
  | Some l => mmodify (fun s => with_stats (u64 (cache_hits_ s + 1)) (cache_misses_ s) s) ;! mret l
  | None =>
      let! (l, _) := get_cluster_location ca in
      if use_hash && isNull (clusterLocation l) then mret (discarded_location_and_hash zero_weed) else mret l
  end.

Fixpoint write_last (ca : ClusterAddress) (l : ClusterLocationAndHash) (cs : list (UUID * cork_map)) : list (UUID * cork_map) :=
  match cs with
  | [] => []
  | [(u, m)] => [(u, OMap.insert ca l m)]
  | c :: cs' => c :: write_last ca l cs'
  end.

Definition writeCluster (ca : ClusterAddress) (l : ClusterLocationAndHash) : M Store unit :=
  let! s := mget in
  fail_unless (negb (length (corks_ s) =? 0)%nat) AssertFailed ;!
  mmodify (fun s => with_corks (cork_uuid_ s) (write_last ca l (corks_ s)) s).

Definition discardCluster (ca : ClusterAddress) : M Store unit :=
  writeCluster ca (discarded_location_and_hash zero_weed).

(** *** Corks *)
Definition lastCork (s : Store) : option UUID := cork_uuid_ s.

Definition cork (c : UUID) : M Store unit := mmodify (fun s =>
  if match last (corks_ s) with Some (u, _) => u =? c | None => false end then s
  else with_corks (cork_uuid_ s) (corks_ s ++ [(c, [])]) s).

Definition unCork (c : option UUID) : M Store unit :=
  let! s := mget in
  (match c with
   | Some c => fail_unless (match head (corks_ s) with Some (u, _) => u =? c | None => false end) VerifyFailed
   | None => mret tt
   end) ;!
  match corks_ s with
  | [] => mthrow UndefinedBehaviour
  | (u, m) :: rest =>
      (** The first and the last cork are the same object iff there is one only. *)
      fail_unless (negb (length rest =? 0)%nat) VerifyFailed ;!
      miter (fun e => put_cluster_location (fst e) (snd e) ;! mret tt) m ;!
      let! s := mget in
      miter (fun i => maybeWritePage_locked_context i false ;! mret tt) (page_list_ s) ;!
      on_backend (setCork u) ;!
      mmodify (fun s => with_corks (Some u) (tail (corks_ s)) s)
  end.

Definition getCorkedClusters (s : Store) : list (UUID * nat) := (fun c => (fst c, length (snd c))) <$> corks_ s.

(** *** The whole cache *)
Definition drop_front (i : nat) (sync ignore_errors : bool) : M Store unit :=
  mmodify (fun s => unlink_from_set i (unlink_from_list i s)) ;!
  mmodify (fun s => with_links (page_map_ s) (page_list_ s) (num_pages_ s - 1) s) ;!
  if sync then maybeWritePage_locked_context i ignore_errors ;! mret tt else mret tt.

Fixpoint clear_loop (fuel : nat) (sync ignore_errors : bool) : M Store unit :=
  match fuel with
  | O => mthrow OutOfFuel
  | S f =>
      let! s := mget in
      match page_list_ s with
      | [] => mret tt
      | i :: _ => drop_front i sync ignore_errors ;! clear_loop f sync ignore_errors
      end
  end.

Definition write_dirty_pages_to_backend_and_clear_page_list (sync ignore_errors : bool) : M Store unit :=
  let! s := mget in
  clear_loop (S (length (page_list_ s))) sync ignore_errors ;!
  let! s := mget in
  fail_unless (bool_decide (page_map_ s = ∅) && (num_pages_ s =? 0)%nat) AssertFailed ;!
  mmodify (fun s => with_pages (CachePage.reset page_bits <$> pages_ s) s).

Definition write_dirty_pages_to_backend_keeping_page_list : M Store unit :=
  let! s := mget in
  miter (fun i =>
    let! s := mget in
    let p := page_at s i in
    if dirty p && negb (empty p) then
      maybeWritePage_locked_context i false ;! put_page i
    else mret tt) (page_list_ s).

Definition sync : M Store unit := mret tt.

Definition scrub_id (s : Store) : option UUID := scrub_id_ s.

Definition set_scrub_id (i : UUID) : M Store unit :=
  on_backend (be_set_scrub_id i) ;! mmodify (with_scrub_id (Some i)).

Definition clear_all_keys : M Store unit :=
  mmodify (fun s => with_corks (cork_uuid_ s) [] s) ;!
  write_dirty_pages_to_backend_and_clear_page_list false false ;!
  on_backend be_clear_all_keys ;!
  mmodify (fun s => with_scrub_id None (with_corks None (corks_ s) s)).

Definition drop_cache_including_dirty_pages : M Store unit :=
  write_dirty_pages_to_backend_and_clear_page_list false true.

Definition set_cache_capacity (new_capacity : nat) : M Store unit :=
  fail_unless (0 <? new_capacity)%nat VerifyFailed ;!
  let! s := mget in
  if negb (new_capacity =? length (pages_ s))%nat then
    write_dirty_pages_to_backend_and_clear_page_list true true ;!
    mmodify (fun s => with_pages (init_pages_ new_capacity) s)
  else mret tt.

(** The number of clusters in use, as [getStats] computes it. *)
Definition used_clusters (s : Store) : Z :=
  u64 (written_clusters_ s - discarded_clusters_ s + getUsedClusters (backend_ s)).

Record MetaDataStoreStats : Type := mkStats {
  stats_used_clusters : Z;
  stats_cache_hits : Z;
  stats_cache_misses : Z;
  stats_cached_pages : nat;
  stats_max_pages : nat;
  stats_corked_clusters : list (UUID * nat) }.

Definition getStats : M Store MetaDataStoreStats :=
  let! s := mget in
  fail_unless (used_clusters s <? 2 ^ 63) AssertFailed ;!
  mret (mkStats (used_clusters s) (cache_hits_ s) (cache_misses_ s) (num_pages_ s) (length (pages_ s)) (getCorkedClusters s)).

(** The locations of a page, clusters with corked entries shown as discarded. *)
Definition hide_corked (pa : PageAddress) (tmp : list ClusterLocationAndHash) (c : UUID * cork_map)
  : list ClusterLocationAndHash :=
  let ca_start := clusterAddress page_bits pa in
  let ca_end := u64 (ca_start + capacity page_bits) in
  fold_left (fun tmp e =>
    if (ca_start <=? fst e) && (fst e <? ca_end)
    then <[offset page_bits (fst e) := discarded_location_and_hash zero_weed]> tmp else tmp) (snd c) tmp.

Definition get_page (ca : ClusterAddress) : M Store (list ClusterLocation) :=
  let! (i, _) := get_page_ ca in
  let! s := mget in
  mret (clusterLocation <$> fold_left (hide_corked (pageAddress page_bits ca)) (corks_ s) (data_ (page_at s i))).

(** *** Relocations and replay *)
Fixpoint applyRelocs_loop (scid : Z) (entries : list Entry.Entry) (relocNum : Z) : M Store Z :=
  match entries with
  | [] => mret relocNum
  | [_] => mthrow IOException
  | e_old :: e_new :: rest =>
      let! a_old := mlift (Entry.clusterAddress e_old) in
      let! a_new := mlift (Entry.clusterAddress e_new) in
      if negb (a_old =? a_new) then mthrow IOException
      else
        let l_old := ClusterLocation.set_cloneID scid (Entry.clusterLocation_ e_old) in
        let! (l_current, _) := get_cluster_location a_old in
        (if ClusterLocation.eqb (clusterLocation l_current) l_old then
           put_cluster_location a_old (CLH.set_cloneID scid (Entry.clusterLocationAndHash e_new)) ;! mret tt
         else mret tt) ;!
        applyRelocs_loop scid rest (u64 (relocNum + 1))
  end.

(** [entries] are the location entries of the relocation log; [tmp_id] is the
    scrub id drawn for the time the relocations are being applied. *)
Definition applyRelocs (entries : list Entry.Entry) (scid : Z) (scrub_id tmp_id : UUID) : M Store Z :=
  set_scrub_id tmp_id ;!
  let! n := applyRelocs_loop scid entries 0 in
  write_dirty_pages_to_backend_keeping_page_list ;!
  set_scrub_id scrub_id ;!
  sync ;!
  mret n.

(** The order of an unordered map, and METADATASTORE_REPLAY_CLUSTERS_CACHED. *)
Variable pick : list (Z * list Entry.Entry) -> nat.
Variable replayClustersCached : Z.

Definition process_entry (cloneid : Z) (e : Entry.Entry) : M Store unit :=
  let! ca := mlift (Entry.clusterAddress e) in
  put_cluster_location ca (CLH.set_cloneID cloneid (Entry.clusterLocationAndHash e)) ;! mret tt.

Fixpoint processPages (fuel : nat) (g : PageGenerator.PageGenerator) (cloneid : Z) (pages : Z) : M Store Z :=
  match fuel with
  | O => mthrow OutOfFuel
  | S f =>
      if PageGenerator.finished g then mret pages
      else
        miter (process_entry cloneid) (PageGenerator.current g) ;!
        let! g' := mlift (PageGenerator.next (pageAddress page_bits) pick g) in
        processPages f g' cloneid (u64 (pages + 1))
  end.

(** [r] is the sequence of location entries of the reader; every page handed out
    has one of them at least. *)
Definition processTLogReaderInterface (r : list Entry.Entry) (cloneid : Z) : M Store Z :=
  let! g := mlift (PageGenerator.create (pageAddress page_bits) pick replayClustersCached r) in
  processPages (S (length r)) g cloneid 0.

(** The logs of the clones, each with the location entries of its TLogs. *)
Fixpoint clone_logs (prev : option Z) (ctl : list (Z * list Entry.Entry)) : M Store unit :=
  match ctl with
  | [] => mret tt
  | (cloneid, r) :: rest =>
      fail_unless (match prev with Some p => cloneid <? p | None => true end) VerifyFailed ;!
      processTLogReaderInterface r cloneid ;!
      clone_logs (Some cloneid) rest
  end.

Definition processCloneTLogs (ctl : list (Z * list Entry.Entry)) (sync : bool) (c : option UUID) : M Store unit :=
  let! s := mget in
  fail_unless (match corks_ s with [] => true | [(_, m)] => (length m =? 0)%nat | _ => false end) VerifyFailed ;!
  clone_logs None ctl ;!
  (if sync then
     let! s := mget in
     miter (fun i => maybeWritePage_locked_context i false ;! mret tt) (page_list_ s) ;!
     match c with
     | Some u => on_backend (setCork u) ;! on_backend be_sync
     | None => mret tt
     end
   else mret tt) ;!
  mmodify (fun s => with_corks c (corks_ s) s).

End Store.
Arguments Store : clear implicits.
End CachedMetaDataStore.
