(* ===== verification/MetaDataBackends.v ===== *)
(** * The metadata backends on a local key-value store

    src/src/volumedriver/TokyoCabinetMetaDataBackend.{h,cpp} and
    RocksDBMetaDataBackend.{h,cpp}: pages are stored under their address, three
    further keys hold the last cork, the scrub id and the number of clusters in
    use.  The key-value library is a class, [KeyValueStore], with what the code
    relies on in [KeyValueSpec]; values are typed, the code tells them apart by
    their size.  TokyoCabinet is shown to be what the cached store expects of a
    backend, and RocksDB is shown not to be: it does not count. *)

From S2P Require Import Prelude Addressing TLogEntry TLogs MetaDataStore.

Module KV.
Import CLH.

Inductive value : Type :=
  | VPage (d : list ClusterLocationAndHash)
  | VNum (n : Z)
  | VUUID (u : TLog.UUID).

Inductive get_result : Type := Found (v : value) | Missing | GetFailed.
Inductive status : Type := Done | NoRecord | Failed.

Class KeyValueStore (D : Type) : Type := {
  kv_get : Z -> D -> get_result;
  kv_put : Z -> value -> D -> D * bool;
  kv_out : Z -> D -> D * status;
  kv_sync : D -> D * bool;
  kv_vanish : D -> D * bool }.

Class KeyValueSpec (D : Type) `{KeyValueStore D} : Type := {
  contents : D -> gmap Z value;
  kv_get_spec : forall k d, kv_get k d = match contents d !! k with Some v => Found v | None => Missing end;
  kv_put_spec : forall k v d, exists d', kv_put k v d = (d', true) /\ contents d' = <[k := v]> (contents d);
  kv_out_spec : forall k d, exists d',
    kv_out k d = (d', match contents d !! k with Some _ => Done | None => NoRecord end) /\
    contents d' = delete k (contents d);
  kv_sync_spec : forall d, exists d', kv_sync d = (d', true) /\ contents d' = contents d;
  kv_vanish_spec : forall d, exists d', kv_vanish d = (d', true) /\ contents d' = ∅ }.

(** A finite map is such a library. *)
#[export] Instance gmap_kv : KeyValueStore (gmap Z value) := {|
  kv_get := fun k d => match d !! k with Some v => Found v | None => Missing end;
  kv_put := fun k v d => (<[k := v]> d, true);
  kv_out := fun k d => (delete k d, match d !! k with Some _ => Done | None => NoRecord end);
  kv_sync := fun d => (d, true);
  kv_vanish := fun d => (∅, true) |}.

#[export] Instance gmap_kv_spec : KeyValueSpec (gmap Z value).
Proof. refine {| contents := fun d => d |}; cbn; eauto. Defined.

(** The keys, the same in both backends. *)
Definition cork_key_ : Z := 2 ^ 64 - 1.
Definition used_clusters_key_ : Z := 2 ^ 64 - 2.
Definition scrub_id_key_ : Z := 2 ^ 64 - 3.

Definition internal_key (pa : Z) : bool := (pa =? cork_key_) || (pa =? used_clusters_key_) || (pa =? scrub_id_key_).

Definition int64 (z : Z) : Z := let v := u64 z in if v <? 2 ^ 63 then v else v - 2 ^ 64.

Lemma int64_id z : 0 <= z < 2 ^ 63 -> int64 z = z.
Proof. intros Hz. unfold int64. rewrite wrap_id by (unfold fits; lia). by rewrite (proj2 (Z.ltb_lt _ _)) by lia. Qed.

Lemma page_ok_key pa : Backend.page_ok pa -> internal_key pa = false.
Proof. unfold Backend.page_ok, internal_key, cork_key_, used_clusters_key_, scrub_id_key_. lia. Qed.
End KV.

(** ** The state and the calls both backends share *)
Module LocalBackend.
Import CLH CachePage KV.

(** [page_bits] is a parameter of the type, so that the instances below know the
    size of a page. *)
Record Local (page_bits : Z) (D : Type) : Type := mkLocal { database_ : D; used_clusters_ : Z }.
Arguments mkLocal {page_bits D} database_ used_clusters_.
Arguments database_ {page_bits D} _.
Arguments used_clusters_ {page_bits D} _.

Section LocalBackend.
Variable page_bits : Z.
Context {D : Type} `{KeyValueStore D}.
Abbreviation Local := (Local page_bits D).

Definition with_db (d : D) (b : Local) : Local := mkLocal d (used_clusters_ b).
Definition with_used (n : Z) (b : Local) : Local := mkLocal (database_ b) n.

Definition check_page_address_ (pa : PageAddress) : M Local unit :=
  if internal_key pa then mthrow MetaDataStoreBackendException else mret tt.

Definition assert_ (c : bool) : M Local unit := if c then mret tt else mthrow AssertFailed.

(** A put whose failure throws ([HANDLE]). *)
Definition put (k : Z) (v : value) : M Local unit := fun b =>
  let '(d, ok) := kv_put k v (database_ b) in
  (with_db d b, if ok then Ok tt else Throw MetaDataStoreBackendException).

(** A page found under a key: its size is checked. *)
Definition as_page (v : value) : res (option (list ClusterLocationAndHash)) :=
  match v with
  | VPage d => verify Z.of_nat (length d) =? capacity page_bits in Ok (Some d)
  | _ => Throw VerifyFailed
  end.
End LocalBackend.
End LocalBackend.

Module TokyoCabinet.
Import CLH CachePage KV LocalBackend Backend.
Section TokyoCabinet.
Variable page_bits : Z.
Context {D : Type} `{KeyValueStore D}.
Abbreviation TC := (Local page_bits D).

Definition tc_open (d : D) : res TC :=
  match kv_get used_clusters_key_ d with
  | Found (VNum n) => Ok (mkLocal d n)
  | Found _ => Throw VerifyFailed
  | _ => Ok (mkLocal d 0)
  end.

Definition tc_getPage (pa : PageAddress) : M TC (option (list ClusterLocationAndHash)) :=
  check_page_address_ page_bits pa ;!
  let! b := mget in
  match kv_get pa (database_ b) with
  | Found v => mlift (as_page page_bits v)
  | _ => mret None
  end.

Definition tc_putPage (pa : PageAddress) (data : list ClusterLocationAndHash) (used_clusters_diff : Z) : M TC unit :=
  check_page_address_ page_bits pa ;!
  let! b := mget in
  let used_clusters := int64 (used_clusters_ b + used_clusters_diff) in
  assert_ page_bits (0 <=? used_clusters) ;!
  put page_bits pa (VPage data) ;!
  mmodify (with_used page_bits (u64 used_clusters)) ;!
  put page_bits used_clusters_key_ (VNum (u64 used_clusters)).

Definition tc_discardPage (pa : PageAddress) (used_clusters_diff : Z) : M TC unit :=
  check_page_address_ page_bits pa ;!
  let! b := mget in
  let used_clusters := int64 (used_clusters_ b + used_clusters_diff) in
  assert_ page_bits (0 <=? used_clusters) ;!
  let '(d, r) := kv_out pa (database_ b) in
  mmodify (with_db page_bits d) ;!
  match r with
  | NoRecord => mret tt
  | Failed => mthrow MetaDataStoreBackendException
  | Done =>
      mmodify (with_used page_bits (u64 used_clusters)) ;!
      put page_bits used_clusters_key_ (VNum (u64 used_clusters))
  end.

Definition tc_sync : M TC unit := fun b =>
  let '(d, ok) := kv_sync (database_ b) in
  (with_db page_bits d b, if ok then Ok tt else Throw MetaDataStoreBackendException).

(** The result of the call is not looked at, and the count is not reset. *)
Definition tc_clear_all_keys : M TC unit := fun b => (with_db page_bits (fst (kv_vanish (database_ b))) b, Ok tt).

Definition get_uuid (k : Z) : M TC (option TLog.UUID) := fun b =>
  (b, match kv_get k (database_ b) with
      | Found (VUUID u) => Ok (Some u)
      | Found _ => Throw VerifyFailed
      | _ => Ok None
      end).

#[export] Instance tokyo_cabinet : MetaDataBackendInterface TC := {|
  getPage := tc_getPage;
  putPage := tc_putPage;
  discardPage := tc_discardPage;
  pageExistsInParent := fun _ => mret false;
  be_sync := tc_sync;
  be_clear_all_keys := tc_clear_all_keys;
  be_set_scrub_id := fun i => put page_bits scrub_id_key_ (VUUID i);
  be_scrub_id := get_uuid scrub_id_key_;
  setCork := fun c => put page_bits cork_key_ (VUUID c);
  lastCorkUUID := get_uuid cork_key_;
  getUsedClusters := used_clusters_ |}.
End TokyoCabinet.
End TokyoCabinet.

(** ** TokyoCabinet is a backend as the cached store expects it *)
Module TokyoCabinetFacts.
Import CLH CachePage KV LocalBackend Backend TokyoCabinet.
Section Facts.
Variable page_bits : Z.
Context {D : Type} {K : KeyValueStore D} {KS : KeyValueSpec D}.
Abbreviation TC := (Local page_bits D).

Definition page_of (v : value) : option (list ClusterLocationAndHash) := match v with VPage d => Some d | _ => None end.
Definition uuid_of (v : value) : option TLog.UUID := match v with VUUID u => Some u | _ => None end.

(** What is found under which key. *)
Definition typed (k : Z) (v : value) : Prop :=
  if internal_key k then if k =? used_clusters_key_ then exists n, v = VNum n else exists u, v = VUUID u
  else exists d, v = VPage d /\ Z.of_nat (length d) = capacity page_bits.

Definition tc_ready (b : TC) : Prop := map_Forall typed (contents (database_ b)).
Definition tc_stored (b : TC) : gmap Z (list ClusterLocationAndHash) := omap page_of (contents (database_ b)).
Definition tc_uuid (k : Z) (b : TC) : option TLog.UUID := contents (database_ b) !! k ≫= uuid_of.

(** The contents of the two states are what a put of [v] makes of them. *)
Record put_to (k : Z) (v : value) (b b' : TC) : Prop := {
  pt_contents : contents (database_ b') = <[k := v]> (contents (database_ b));
  pt_ready : tc_ready b' }.

Lemma kv_put_runs k v (b : TC) : tc_ready b -> typed k v ->
  runs (put page_bits k v) b (fun _ b' => put_to k v b b' /\ used_clusters_ b' = used_clusters_ b).
Proof.
  intros Hr Hv. destruct (kv_put_spec k v (database_ b)) as (d & E & Ed).
  exists tt, (with_db page_bits d b). split; [unfold put; by rewrite E|].
  split; [|done]. split; [done|]. unfold tc_ready. cbn. rewrite Ed. by apply map_Forall_insert_2.
Qed.

Lemma internal_stored k (b : TC) : tc_ready b -> internal_key k = true -> tc_stored b !! k = None.
Proof.
  intros Hr Hk. unfold tc_stored. rewrite lookup_omap. destruct (contents (database_ b) !! k) as [v|] eqn:E; [|done].
  apply Hr in E. unfold typed in E. rewrite Hk in E. cbn.
  destruct (k =? used_clusters_key_); by destruct E as [? ->].
Qed.

(** A page goes where it belongs, an internal value touches no page. *)
Lemma put_to_page pa d b b' : internal_key pa = false -> put_to pa (VPage d) b b' ->
  tc_stored b' = <[pa := d]> (tc_stored b) /\ tc_uuid cork_key_ b' = tc_uuid cork_key_ b /\
  tc_uuid scrub_id_key_ b' = tc_uuid scrub_id_key_ b.
Proof.
  intros Hk H. unfold tc_stored, tc_uuid. rewrite (pt_contents _ _ _ _ H). split; [by apply omap_insert_Some|].
  rewrite !lookup_insert_ne; [done|by intros ->|by intros ->].
Qed.

Lemma put_to_internal k v b b' : tc_ready b -> internal_key k = true -> page_of v = None -> put_to k v b b' ->
  tc_stored b' = tc_stored b /\ (forall k', k' <> k -> tc_uuid k' b' = tc_uuid k' b) /\ tc_uuid k b' = uuid_of v.
Proof.
  intros Hr Hk Hv H. unfold tc_uuid. unfold tc_stored at 1. rewrite (pt_contents _ _ _ _ H). split_and!.
  - rewrite omap_insert_None by done. apply delete_id. by apply internal_stored.
  - intros k' Hne. by rewrite lookup_insert_ne.
  - by rewrite lookup_insert_eq.
Qed.

Lemma typed_uuid k u : k = cork_key_ \/ k = scrub_id_key_ -> internal_key k = true /\ typed k (VUUID u).
Proof. by intros [-> | ->]; split; [| |..]; try (exists u). Qed.

Lemma check_runs pa (b : TC) : page_ok pa -> runs (check_page_address_ page_bits pa) b (fun _ b' => b' = b).
Proof. intros H. unfold check_page_address_. rewrite page_ok_key by done. by apply runs_ret. Qed.

Lemma assert_runs z (b : TC) : 0 <= z -> runs (assert_ page_bits (0 <=? z)) b (fun _ b' => b' = b).
Proof. intros H. unfold assert_. rewrite (proj2 (Z.leb_le 0 z)) by done. by apply runs_ret. Qed.

(** The count, once changed, is stored too. *)
Lemma count_runs (b : TC) n : tc_ready b ->
  runs (mmodify (with_used page_bits n) ;! put page_bits used_clusters_key_ (VNum n)) b
    (fun _ b' => tc_ready b' /\ tc_stored b' = tc_stored b /\ used_clusters_ b' = n /\
       tc_uuid cork_key_ b' = tc_uuid cork_key_ b /\ tc_uuid scrub_id_key_ b' = tc_uuid scrub_id_key_ b).
Proof.
  intros Hr. apply runs_bind, runs_modify.
  eapply runs_mono; [apply kv_put_runs; [exact Hr|by exists n]|]. intros [] b' [Hp Hu].
  destruct (put_to_internal used_clusters_key_ (VNum n) (with_used page_bits n b) b') as (Hs & Ho & _); [done..|].
  split_and!; [apply Hp|done|done|by apply Ho|by apply Ho].
Qed.
Definition frame (b b' : TC) : Prop :=
  tc_uuid cork_key_ b' = tc_uuid cork_key_ b /\ tc_uuid scrub_id_key_ b' = tc_uuid scrub_id_key_ b.

Lemma tc_putPage_runs pa d z (b : TC) :
  tc_ready b -> page_ok pa -> Z.of_nat (length d) = capacity page_bits -> 0 <= used_clusters_ b + z < 2 ^ 63 ->
  runs (tc_putPage page_bits pa d z) b (fun _ b' => tc_ready b' /\ tc_stored b' = <[pa := d]> (tc_stored b) /\
    used_clusters_ b' = used_clusters_ b + z /\ frame b b').
Proof.
  intros Hr Hpa Hd Hz. pose proof (page_ok_key pa Hpa) as Hk. unfold tc_putPage. apply runs_bind.
  eapply runs_mono; [by apply check_runs|]. intros [] ? ->. apply runs_bind, runs_get, runs_bind.
  rewrite int64_id by done. eapply runs_mono; [apply assert_runs; lia|]. intros [] ? ->. apply runs_bind.
  eapply runs_mono; [apply kv_put_runs; [done|]|].
  { unfold typed. rewrite Hk. by exists d. }
  intros [] b1 [Hp1 Hu1]. rewrite wrap_id by (unfold fits; lia).
  eapply runs_mono; [apply count_runs, Hp1|]. intros [] b' (Hr' & Hs' & Hu' & Hc' & Hi').
  destruct (put_to_page pa d b b1 Hk Hp1) as (Hs1 & Hc1 & Hi1).
  split_and!; [done|congruence|done|split; congruence].
Qed.

Lemma tc_discardPage_runs pa z (b : TC) :
  tc_ready b -> page_ok pa -> 0 <= used_clusters_ b + z < 2 ^ 63 -> (tc_stored b !! pa = None -> z = 0) ->
  runs (tc_discardPage page_bits pa z) b (fun _ b' => tc_ready b' /\ tc_stored b' = delete pa (tc_stored b) /\
    used_clusters_ b' = used_clusters_ b + z /\ frame b b').
Proof.
  intros Hr Hpa Hz Hno. pose proof (page_ok_key pa Hpa) as Hk. unfold tc_discardPage. apply runs_bind.
  eapply runs_mono; [by apply check_runs|]. intros [] ? ->. apply runs_bind, runs_get, runs_bind.
  rewrite int64_id by done. eapply runs_mono; [apply assert_runs; lia|]. intros [] ? ->.
  destruct (kv_out_spec pa (database_ b)) as (d' & E & Ed). rewrite E. apply runs_bind, runs_modify.
  assert (tc_ready (with_db page_bits d' b)) as Hr'.
  { unfold tc_ready. cbn. rewrite Ed. by apply map_Forall_delete. }
  assert (tc_stored (with_db page_bits d' b) = delete pa (tc_stored b)) as Hs'.
  { unfold tc_stored. cbn. rewrite Ed. apply omap_delete. }
  assert (frame b (with_db page_bits d' b)) as [Hc' Hi'].
  { unfold frame, tc_uuid. cbn. rewrite Ed, !lookup_delete_ne by (by intros ->). done. }
  rewrite wrap_id by (unfold fits; lia).
  destruct (contents (database_ b) !! pa) as [v|] eqn:Ev.
  - eapply runs_mono; [by apply count_runs|]. intros [] b'' (? & ? & ? & ? & ?).
    split_and!; [done|congruence|done|split; congruence].
  - apply runs_ret. split_and!; [done|done| |done]. cbn. rewrite Hno; [lia|].
    unfold tc_stored. by rewrite lookup_omap, Ev.
Qed.

Lemma tc_getPage_eq pa (b : TC) : tc_ready b -> page_ok pa -> tc_getPage page_bits pa b = (b, Ok (tc_stored b !! pa)).
Proof.
  intros Hr Hpa. pose proof (page_ok_key pa Hpa) as Hk. unfold tc_getPage, check_page_address_, mbind, mget.
  rewrite Hk. cbn. rewrite kv_get_spec. unfold tc_stored. rewrite lookup_omap.
  destruct (contents (database_ b) !! pa) as [v|] eqn:E; [|done]. apply Hr in E. unfold typed in E. rewrite Hk in E.
  destruct E as (d & -> & Hd). unfold mlift, as_page. cbn. by rewrite Hd, Z.eqb_refl.
Qed.

Lemma get_uuid_eq k (b : TC) : tc_ready b -> k = cork_key_ \/ k = scrub_id_key_ ->
  get_uuid page_bits k b = (b, Ok (tc_uuid k b)).
Proof.
  intros Hr Hk. destruct (typed_uuid k 0 Hk) as [Hi _]. unfold get_uuid, tc_uuid. rewrite kv_get_spec.
  destruct (contents (database_ b) !! k) as [v|] eqn:E; [|done]. apply Hr in E. unfold typed in E. rewrite Hi in E.
  destruct Hk as [-> | ->]; destruct E as [u ->]; done.
Qed.

Lemma put_uuid_runs k u (b : TC) : tc_ready b -> k = cork_key_ \/ k = scrub_id_key_ ->
  runs (put page_bits k (VUUID u)) b (fun _ b' => tc_ready b' /\ tc_stored b' = tc_stored b /\
    used_clusters_ b' = used_clusters_ b /\ tc_uuid k b' = Some u /\ (forall k', k' <> k -> tc_uuid k' b' = tc_uuid k' b)).
Proof.
  intros Hr Hk. destruct (typed_uuid k u Hk) as [Hi Ht].
  eapply runs_mono; [by apply kv_put_runs|]. intros [] b' [Hp Hu].
  destruct (put_to_internal k (VUUID u) b b') as (Hs & Ho & Hn); [done..|]. split_and!; [apply Hp|done..].
Qed.

#[export] Instance tokyo_cabinet_spec : MetaDataBackendSpec page_bits TC.
Proof.
  refine {| ready := tc_ready; stored := tc_stored; in_parent := fun _ _ => false;
            cork_of := tc_uuid cork_key_; scrub_of := tc_uuid scrub_id_key_ |}.
  - intros b Hr. apply get_uuid_eq; [done|by left].
  - intros b Hr. apply get_uuid_eq; [done|by right].
  - apply tc_getPage_eq.
  - done.
  - intros pa d z b Hr Hpa Hd Hz. destruct (tc_putPage_runs pa d z b) as ([] & b' & E & ? & ? & ? & ? & ?); [done..|].
    by exists b'.
  - intros pa z b Hr Hpa Hz _ Hno. destruct (tc_discardPage_runs pa z b) as ([] & b' & E & ? & ? & ? & ? & ?); [done..|].
    by exists b'.
  - intros c b Hr. destruct (put_uuid_runs cork_key_ c b) as ([] & b' & E & ? & ? & ? & ? & Ho); [done|by left|].
    exists b'. split_and!; try done. by apply Ho.
  - intros i b Hr. destruct (put_uuid_runs scrub_id_key_ i b) as ([] & b' & E & ? & ? & ? & ? & Ho); [done|by right|].
    exists b'. split_and!; try done. by apply Ho.
  - intros b Hr. destruct (kv_sync_spec (database_ b)) as (d & E & Ed). exists (with_db page_bits d b).
    split; [cbn; unfold tc_sync; by rewrite E|]. unfold tc_ready, tc_stored, tc_uuid. cbn. by rewrite Ed.
  - intros b Hr. destruct (kv_vanish_spec (database_ b)) as (d & E & Ed). exists (with_db page_bits d b).
    split; [cbn; unfold tc_clear_all_keys; by rewrite E|]. unfold tc_ready, tc_stored, tc_uuid. cbn. rewrite Ed.
    split_and!; [apply map_Forall_empty|apply omap_empty|done|done|done].
Defined.
End Facts.
End TokyoCabinetFacts.

Module RocksDB.
Import CLH CachePage KV LocalBackend Backend.
Section RocksDB.
Variable page_bits : Z.
Context {D : Type} `{KeyValueStore D}.
Abbreviation RDB := (Local page_bits D).

Definition rdb_open (d : D) : res RDB :=
  match kv_get used_clusters_key_ d with
  | Found (VNum n) => Ok (mkLocal d n)
  | Found _ => Throw AssertFailed
  | Missing => Ok (mkLocal d 0)
  | GetFailed => Throw MetaDataStoreBackendException
  end.

Definition rdb_getPage (pa : PageAddress) : M RDB (option (list ClusterLocationAndHash)) :=
  check_page_address_ page_bits pa ;!
  let! b := mget in
  match kv_get pa (database_ b) with
  | Found v => mlift (as_page page_bits v)
  | Missing => mret None
  | GetFailed => mthrow MetaDataStoreBackendException
  end.

(** The new count goes to the database; the member keeps the old one. *)
Definition rdb_putPage (pa : PageAddress) (data : list ClusterLocationAndHash) (used_clusters_diff : Z) : M RDB unit :=
  check_page_address_ page_bits pa ;!
  let! b := mget in
  let used_clusters := int64 (used_clusters_ b + used_clusters_diff) in
  assert_ page_bits (0 <=? used_clusters) ;!
  put page_bits pa (VPage data) ;!
  put page_bits used_clusters_key_ (VNum (u64 used_clusters)).

Definition rdb_discardPage (pa : PageAddress) (used_clusters_diff : Z) : M RDB unit :=
  check_page_address_ page_bits pa ;!
  let! b := mget in
  let used_clusters := int64 (used_clusters_ b + used_clusters_diff) in
  assert_ page_bits (0 <=? used_clusters) ;!
  let '(d, r) := kv_out pa (database_ b) in
  mmodify (with_db page_bits d) ;!
  match r with
  | Failed => mthrow MetaDataStoreBackendException
  | _ => put page_bits used_clusters_key_ (VNum (u64 used_clusters))
  end.

Definition rdb_get_uuid (k : Z) : M RDB (option TLog.UUID) := fun b =>
  (b, match kv_get k (database_ b) with
      | Found (VUUID u) => Ok (Some u)
      | Found _ => Throw AssertFailed
      | Missing => Ok None
      | GetFailed => Throw MetaDataStoreBackendException
      end).

(** The database is destroyed and opened again. *)
Definition rdb_clear_all_keys : M RDB unit := fun b =>
  let '(d, ok) := kv_vanish (database_ b) in
  (with_db page_bits d b, if ok then Ok tt else Throw MetaDataStoreBackendException).

Definition rdb_sync : M RDB unit := fun b =>
  let '(d, ok) := kv_sync (database_ b) in
  (with_db page_bits d b, if ok then Ok tt else Throw MetaDataStoreBackendException).

Definition rocksdb : MetaDataBackendInterface RDB := {|
  getPage := rdb_getPage;
  putPage := rdb_putPage;
  discardPage := rdb_discardPage;
  pageExistsInParent := fun _ => mret false;
  be_sync := rdb_sync;
  be_clear_all_keys := rdb_clear_all_keys;
  be_set_scrub_id := fun i => put page_bits scrub_id_key_ (VUUID i);
  be_scrub_id := rdb_get_uuid scrub_id_key_;
  setCork := fun c => put page_bits cork_key_ (VUUID c);
  lastCorkUUID := rdb_get_uuid cork_key_;
  getUsedClusters := used_clusters_ |}.
End RocksDB.
End RocksDB.
