(* ===== verification/MetaDataFacts.v ===== *)
(** * Lemmas on the cached metadata store

    Pages and their counts, the invariant of the store, and what each of its
    operations does to the map the store stands for.  The theorems built from
    them are in MetaDataTheorems.v. *)

From S2P Require Import Prelude Addressing TLogEntry TLogs MetaDataStore.
From Stdlib Require Import Sorted.

(** ** Pages *)
Module PageFacts.
Import ClusterLocation CLH CachePage Backend.

Definition b2z (b : bool) : Z := if b then 1 else 0.

Lemma nonnull_cons l d : nonnull (l :: d) = b2z (in_use l) + nonnull d.
Proof. unfold nonnull, b2z. cbn. destruct (in_use l); cbn [length]; lia. Qed.

Lemma nonnull_bounds d : 0 <= nonnull d <= Z.of_nat (length d).
Proof. induction d as [|l d IH]; [done|]. rewrite nonnull_cons. unfold b2z. destruct (in_use l); cbn [length]; lia. Qed.

Lemma nonnull_insert d i l :
  (i < length d)%nat -> nonnull (<[i := l]> d) = nonnull d - b2z (in_use (nth i d zero)) + b2z (in_use l).
Proof.
  revert i. induction d as [|x d IH]; intros [|i] Hi; cbn [length] in Hi; try lia; cbn [insert list_insert nth];
    rewrite !nonnull_cons; [lia|]. rewrite IH by lia. lia.
Qed.

Lemma nonnull_zeros n : nonnull (replicate n zero) = 0.
Proof. induction n as [|n IH]; [done|]. cbn [replicate]. by rewrite nonnull_cons, IH. Qed.

Lemma in_use_zero : in_use zero = false.
Proof. done. Qed.

(** *** Sets of pages *)
Abbreviation page_map := (gmap Z (list ClusterLocationAndHash)).
Definition nonnull_at (m : page_map) (pa : Z) : Z := match m !! pa with Some d => nonnull d | None => 0 end.

Lemma used_of_insert_None (m : page_map) pa d :
  m !! pa = None -> used_of (<[pa := d]> m) = nonnull d + used_of m.
Proof. intros Hm. unfold used_of. rewrite map_fold_insert_L; [done| |done]. intros; lia. Qed.

Lemma used_of_split (m : page_map) pa : used_of m = nonnull_at m pa + used_of (delete pa m).
Proof.
  unfold nonnull_at. destruct (m !! pa) as [d|] eqn:E.
  - rewrite <- (insert_delete_id m pa d E) at 1. apply used_of_insert_None. apply lookup_delete_eq.
  - by rewrite delete_id.
Qed.

Lemma used_of_insert (m : page_map) pa d : used_of (<[pa := d]> m) = used_of m - nonnull_at m pa + nonnull d.
Proof. rewrite <- insert_delete_eq, used_of_insert_None by apply lookup_delete_eq. rewrite (used_of_split m pa). lia. Qed.

Lemma used_of_delete (m : page_map) pa : used_of (delete pa m) = used_of m - nonnull_at m pa.
Proof. rewrite (used_of_split m pa). lia. Qed.

Lemma used_of_size (m : page_map) n :
  map_Forall (fun _ d => nonnull d <= n) m -> 0 <= used_of m <= n * Z.of_nat (size m).
Proof.
  induction m as [|pa d m Hm IH] using map_ind; intros HF.
  - unfold used_of. rewrite map_fold_empty, map_size_empty. lia.
  - apply map_Forall_insert in HF as [Hd HF]; [|done]. rewrite used_of_insert_None, map_size_insert_None by done.
    specialize (IH HF). pose proof (nonnull_bounds d). lia.
Qed.

Lemma size_bounded {A} (m : gmap Z A) k : 0 <= k ->
  (forall pa d, m !! pa = Some d -> 0 <= pa < k) -> Z.of_nat (size m) <= k.
Proof.
  intros Hk Hm. rewrite <- size_dom.
  assert (dom m ⊆ (list_to_set (seqZ 0 k) : gset Z)) as Hs.
  { intros pa [d E]%elem_of_dom. apply elem_of_list_to_set, elem_of_seqZ. apply Hm in E. lia. }
  apply subseteq_size in Hs. rewrite size_list_to_set, length_seqZ in Hs by apply NoDup_seqZ. lia.
Qed.

(** *** Sums over the slots *)
Definition sumZ {A} (f : A -> Z) (l : list A) : Z := foldr (fun p z => f p + z) 0 l.

Lemma sumZ_insert {A} (f : A -> Z) l i p p0 :
  (i < length l)%nat -> sumZ f (<[i := p]> l) = sumZ f l - f (nth i l p0) + f p.
Proof.
  unfold sumZ. revert i. induction l as [|x l IH]; intros [|i] Hi; cbn in *; try lia.
  etransitivity; [apply (f_equal (Z.add (f x))), (IH i); lia|]. lia.
Qed.

Lemma sumZ_zero {A} (f : A -> Z) l : Forall (fun p => f p = 0) l -> sumZ f l = 0.
Proof. unfold sumZ. induction 1 as [|x l Hx Hl IH]; cbn; lia. Qed.

(** *** Locations up to the two ways of saying "nothing here" *)
Section Norm.
Variable zero_weed : Weed.

Definition norm (l : ClusterLocationAndHash) : ClusterLocationAndHash :=
  if isNull (clusterLocation l) then discarded_location_and_hash zero_weed else l.

Definition same (d d' : list ClusterLocationAndHash) : Prop := norm <$> d = norm <$> d'.

#[global] Instance same_equiv : Equivalence same.
Proof. unfold same. split; [by intros ?|by intros ??|intros ???; congruence]. Qed.

Lemma norm_in_use l : in_use (norm l) = in_use l.
Proof. unfold norm, in_use. destruct (isNull (clusterLocation l)) eqn:E; [done|]. by rewrite E. Qed.

Lemma norm_norm l : norm (norm l) = norm l.
Proof. unfold norm. destruct (isNull (clusterLocation l)) eqn:E; [done|]. by rewrite E. Qed.

Lemma nonnull_norm d : nonnull (norm <$> d) = nonnull d.
Proof. induction d as [|l d IH]; [done|]. cbn [fmap list_fmap]. by rewrite !nonnull_cons, norm_in_use, <- IH. Qed.

#[global] Instance nonnull_proper : Proper (same ==> eq) nonnull.
Proof. intros d d' E. rewrite <- (nonnull_norm d), <- (nonnull_norm d'). by rewrite E. Qed.

Lemma same_length d d' : same d d' -> length d = length d'.
Proof. intros E. apply (f_equal length) in E. by rewrite !length_fmap in E. Qed.

Lemma same_insert d d' i l : same d d' -> same (<[i := l]> d) (<[i := l]> d').
Proof. unfold same. intros E. by rewrite !list_fmap_insert, E. Qed.

Lemma same_nth d d' i : same d d' -> norm (nth i d zero) = norm (nth i d' zero).
Proof.
  intros E. assert (forall x, norm (nth i x zero) = nth i (norm <$> x) (norm zero)) as H.
  { intros x. symmetry. apply map_nth. }
  by rewrite !H, E.
Qed.

Lemma empty_same p : empty p = true -> same (data_ p) (replicate (length (data_ p)) zero).
Proof.
  unfold empty, same. rewrite forallb_forall. intros HF. rewrite fmap_replicate.
  induction (data_ p) as [|l d IH]; [done|]. cbn [fmap list_fmap replicate length]. f_equal.
  - unfold norm. by rewrite (HF l (or_introl eq_refl)).
  - apply IH. intros x Hx. apply HF. by right.
Qed.
End Norm.
End PageFacts.

(** ** The store *)
Module StoreFacts.
Import ClusterLocation CLH CachePage TLog Backend CachedMetaDataStore PageFacts.

Section StoreFacts.
Variable page_bits : Z.
Context {B : Type} {I : MetaDataBackendInterface B} {SP : MetaDataBackendSpec page_bits B}.
Variable zero_weed : Weed.
Hypothesis Hbits : 0 <= page_bits < 31.

Abbreviation Store := (Store B).
Abbreviation norm := (norm zero_weed).
Abbreviation same := (same zero_weed).

(** *** Geometry *)
Definition cap : nat := Z.to_nat (capacity page_bits).
Definition zeros : list ClusterLocationAndHash := replicate cap zero.
Definition addr_ok (pa : PageAddress) : Prop := 0 <= pa < 2 ^ (35 - page_bits).

Lemma capacity_eq : capacity page_bits = 2 ^ page_bits.
Proof.
  unfold capacity. rewrite Z.shiftl_1_l. apply wrap_id. split; [lia|].
  apply Z.pow_lt_mono_r; lia.
Qed.

Lemma cap_eq : Z.of_nat cap = 2 ^ page_bits.
Proof. unfold cap. rewrite capacity_eq. lia. Qed.

Lemma cap_bound : Z.of_nat cap < 2 ^ 31.
Proof. rewrite cap_eq. apply Z.pow_lt_mono_r; lia. Qed.

Lemma pageAddress_eq ca : pageAddress page_bits ca = ca / 2 ^ page_bits.
Proof. unfold pageAddress. apply Z.shiftr_div_pow2. lia. Qed.

Lemma offset_eq ca : 0 <= ca -> offset page_bits ca = Z.to_nat (ca mod 2 ^ page_bits).
Proof.
  intros Hca. unfold offset. rewrite capacity_eq. f_equal.
  replace (2 ^ page_bits - 1) with (Z.ones page_bits) by (rewrite Z.ones_equiv; lia).
  rewrite Z.land_ones by lia. apply wrap_id. split; [apply Z.mod_pos_bound; lia|].
  eapply Z.lt_trans; [apply Z.mod_pos_bound; lia|]. apply Z.pow_lt_mono_r; lia.
Qed.

Lemma offset_lt ca : 0 <= ca -> (offset page_bits ca < cap)%nat.
Proof.
  intros Hca. rewrite offset_eq by done. pose proof cap_eq. pose proof (Z.mod_pos_bound ca (2 ^ page_bits)). lia.
Qed.

Lemma pageAddress_ok ca : fits 35 ca -> addr_ok (pageAddress page_bits ca).
Proof.
  intros [H0 H1]. rewrite pageAddress_eq. split; [apply Z.div_pos; lia|].
  apply Z.div_lt_upper_bound; [lia|]. rewrite <- Z.pow_add_r by lia.
  by replace (page_bits + (35 - page_bits)) with 35 by lia.
Qed.

(** An address is its page and its offset in there. *)
Lemma address_inj ca ca' : 0 <= ca -> 0 <= ca' ->
  pageAddress page_bits ca = pageAddress page_bits ca' -> offset page_bits ca = offset page_bits ca' -> ca = ca'.
Proof.
  intros H H'. rewrite !pageAddress_eq, !offset_eq by done. intros E1 E2.
  pose proof (Z.mod_pos_bound ca (2 ^ page_bits)). pose proof (Z.mod_pos_bound ca' (2 ^ page_bits)).
  rewrite (Z.div_mod ca (2 ^ page_bits)), (Z.div_mod ca' (2 ^ page_bits)) by lia. f_equal; [congruence|lia].
Qed.

Lemma addr_page_ok pa : addr_ok pa -> page_ok pa.
Proof.
  unfold addr_ok, page_ok. intros [H0 H1]. split; [done|]. eapply Z.lt_trans; [done|].
  eapply Z.le_lt_trans; [apply (Z.pow_le_mono_r _ _ 35); lia|]. done.
Qed.

(** *** The invariant *)
Definition base (b : B) (pa : PageAddress) : list ClusterLocationAndHash := default zeros (stored b !! pa).

(** A page in use: its counters say how it differs from what is stored, and a
    clean page does not differ.  [n] bounds the counters. *)
Record page_inv (n : Z) (b : B) (p : CachePage) : Prop := {
  pi_addr : addr_ok (page_address_ p);
  pi_written : 0 <= written_clusters_since_last_backend_write p <= n;
  pi_discarded : 0 <= discarded_clusters_since_last_backend_write p <= n;
  pi_delta : written_clusters_since_last_backend_write p - discarded_clusters_since_last_backend_write p =
             nonnull (data_ p) - nonnull (base b (page_address_ p));
  pi_clean : dirty p = false -> same (data_ p) (base b (page_address_ p)) /\
             written_clusters_since_last_backend_write p = 0 /\ discarded_clusters_since_last_backend_write p = 0 }.

Record backend_inv (b : B) : Prop := {
  bi_ready : ready b;
  bi_stored : forall pa d, stored b !! pa = Some d -> addr_ok pa /\ length d = cap;
  bi_used : getUsedClusters b = used_of (stored b) }.

Definition sum_written (ps : list CachePage) : Z := sumZ written_clusters_since_last_backend_write ps.
Definition sum_discarded (ps : list CachePage) : Z := sumZ discarded_clusters_since_last_backend_write ps.

Record core (n : Z) (s : Store) : Prop := {
  c_backend : backend_inv (backend_ s);
  c_len : forall i, (i < length (pages_ s))%nat -> length (data_ (page_at s i)) = cap;
  c_written : written_clusters_ s = u64 (sum_written (pages_ s));
  c_discarded : discarded_clusters_ s = u64 (sum_discarded (pages_ s));
  c_nodup : NoDup (page_list_ s);
  c_bound : forall i, i ∈ page_list_ s -> (i < length (pages_ s))%nat;
  c_num : num_pages_ s = length (page_list_ s);
  c_map : forall pa i, page_map_ s !! pa = Some i <-> i ∈ page_list_ s /\ page_address_ (page_at s i) = pa;
  c_linked : forall i, i ∈ page_list_ s -> page_inv n (backend_ s) (page_at s i) }.

(** Slots out of use are clean. *)
Definition idle (s : Store) (i : nat) : Prop :=
  dirty (page_at s i) = false /\ written_clusters_since_last_backend_write (page_at s i) = 0 /\
  discarded_clusters_since_last_backend_write (page_at s i) = 0.

Record inv (n : Z) (s : Store) : Prop := {
  i_core : core n s;
  i_cap : (0 < length (pages_ s))%nat;
  i_dense : forall i, i ∈ page_list_ s -> (i < num_pages_ s)%nat;
  i_idle : forall i, (i < length (pages_ s))%nat -> i ∉ page_list_ s -> idle s i }.

Lemma base_length b pa : backend_inv b -> length (base b pa) = cap.
Proof.
  intros Hb. unfold base. destruct (stored b !! pa) as [d|] eqn:E; cbn.
  - by destruct (bi_stored b Hb pa d E) as [_ ?].
  - apply length_replicate.
Qed.

Lemma nonnull_base b pa : nonnull (base b pa) = nonnull_at (stored b) pa.
Proof. unfold base, nonnull_at. destruct (stored b !! pa); [done|]. apply nonnull_zeros. Qed.

Lemma used_bounds (m : page_map) :
  (forall pa d, m !! pa = Some d -> addr_ok pa /\ length d = cap) -> 0 <= used_of m < 2 ^ 63.
Proof.
  intros Hm.
  assert (map_Forall (fun _ d => nonnull d <= Z.of_nat cap) m) as HF.
  { intros pa d E. apply Hm in E as [_ <-]. apply nonnull_bounds. }
  apply used_of_size in HF. split; [lia|].
  assert (Z.of_nat (base.size m) <= 2 ^ (35 - page_bits)) as Hs.
  { apply size_bounded; [lia|]. intros pa d E. apply Hm in E as [E _]. exact E. }
  eapply Z.le_lt_trans; [apply HF|]. eapply Z.le_lt_trans; [apply Z.mul_le_mono_nonneg_l; [lia|done]|].
  rewrite cap_eq, <- Z.pow_add_r by lia. replace (page_bits + (35 - page_bits)) with 35 by lia. done.
Qed.

(** *** Slots *)
Lemma page_at_set i p (s : Store) j : (i < length (pages_ s))%nat ->
  page_at (set_page i p s) j = if decide (j = i) then p else page_at s j.
Proof.
  intros Hi. unfold page_at, set_page. cbn [with_pages pages_]. rewrite !nth_lookup. case_decide as E.
  - subst. by rewrite list_lookup_insert_eq.
  - by rewrite list_lookup_insert_ne by done.
Qed.

Lemma page_at_set_eq i p (s : Store) : (i < length (pages_ s))%nat -> page_at (set_page i p s) i = p.
Proof. intros. rewrite page_at_set by done. by case_decide. Qed.

Lemma page_at_set_ne i p (s : Store) j : (i < length (pages_ s))%nat -> j <> i -> page_at (set_page i p s) j = page_at s j.
Proof. intros. rewrite page_at_set by done. by case_decide. Qed.

Lemma length_set_page i p (s : Store) : length (pages_ (set_page i p s)) = length (pages_ s).
Proof. apply length_insert. Qed.

(** The page as it is after it was written out. *)
Definition cleaned (p : CachePage) : CachePage := mkPage (page_address_ p) (data_ p) false 0 0.

(** *** Writing out a page *)

(** The backend keeps its cork and its scrub id. *)
Definition same_ids (b b' : B) : Prop := cork_of b' = cork_of b /\ scrub_of b' = scrub_of b.

#[global] Instance same_ids_preorder : PreOrder same_ids.
Proof. split; [by intros b|]. intros b b' b'' [E1 E2] [E1' E2']. split; congruence. Qed.

(** What writing out the page in slot [i] changes. *)
Record wrote (i : nat) (s s' : Store) : Prop := {
  wr_map : page_map_ s' = page_map_ s;
  wr_list : page_list_ s' = page_list_ s;
  wr_num : num_pages_ s' = num_pages_ s;
  wr_corks : corks_ s' = corks_ s;
  wr_uuid : cork_uuid_ s' = cork_uuid_ s;
  wr_length : length (pages_ s') = length (pages_ s);
  wr_page : page_at s' i = cleaned (page_at s i);
  wr_others : forall j, j <> i -> page_at s' j = page_at s j;
  wr_base : same (base (backend_ s') (page_address_ (page_at s i))) (data_ (page_at s i));
  wr_bases : forall pa, pa <> page_address_ (page_at s i) -> base (backend_ s') pa = base (backend_ s) pa;
  wr_parent : in_parent (backend_ s') = in_parent (backend_ s);
  wr_ids : same_ids (backend_ s) (backend_ s') }.

(** A slot that may be written out: no other page in use has its address. *)
Record writable (n : Z) (s : Store) (i : nat) : Prop := {
  wa_bound : (i < length (pages_ s))%nat;
  wa_page : page_inv n (backend_ s) (page_at s i);
  wa_alone : forall j, j ∈ page_list_ s -> j <> i -> page_address_ (page_at s j) <> page_address_ (page_at s i) }.

Lemma linked_writable n s i : core n s -> i ∈ page_list_ s -> writable n s i.
Proof.
  intros H Hi. split; [by apply H|by apply H|]. intros j Hj Hne E.
  apply Hne. assert (page_map_ s !! page_address_ (page_at s i) = Some j) as Ej by (by apply H).
  assert (page_map_ s !! page_address_ (page_at s i) = Some i) as Ei by (by apply H). congruence.
Qed.

Lemma int32_id z : - 2 ^ 31 <= z < 2 ^ 31 -> int32 z = z.
Proof.
  intros Hz. unfold int32, wrap. destruct (Z.ltb_spec (z mod 2 ^ 32) (2 ^ 31)) as [E|E].
  - destruct (Z.ltb_spec z 0); [|by rewrite Z.mod_small by lia].
    rewrite <- (Z.mod_add _ 1), Z.mod_small in E by lia. lia.
  - destruct (Z.ltb_spec z 0).
    + rewrite <- (Z.mod_add _ 1), Z.mod_small by lia. lia.
    + rewrite Z.mod_small in E by lia. lia.
Qed.

(** The backend is given the exact difference. *)
Lemma page_delta n s i : core n s -> writable n s i ->
  int32 (written_clusters_since_last_backend_write (page_at s i) -
         discarded_clusters_since_last_backend_write (page_at s i)) =
  nonnull (data_ (page_at s i)) - nonnull (base (backend_ s) (page_address_ (page_at s i))).
Proof.
  intros Hc Hw. rewrite <- (pi_delta _ _ _ (wa_page _ _ _ Hw)). apply int32_id.
  rewrite (pi_delta _ _ _ (wa_page _ _ _ Hw)).
  pose proof (nonnull_bounds (data_ (page_at s i))) as H1.
  pose proof (nonnull_bounds (base (backend_ s) (page_address_ (page_at s i)))) as H2.
  rewrite base_length in H2 by apply Hc. rewrite (c_len _ _ Hc i (wa_bound _ _ _ Hw)) in H1.
  pose proof cap_bound. lia.
Qed.

Lemma cleaned_inv n m b b' p : page_inv n b p -> 0 <= m ->
  same (base b' (page_address_ p)) (data_ p) -> page_inv m b' (cleaned p).
Proof.
  intros Hp Hm Hs. split; cbn [cleaned page_address_ data_ dirty written_clusters_since_last_backend_write
    discarded_clusters_since_last_backend_write]; [apply Hp|lia|lia| |by symmetry in Hs].
  rewrite (nonnull_proper zero_weed _ _ Hs). lia.
Qed.

(** [written_clusters_] and its like follow the counters of the slots. *)
Lemma count_follows (f : CachePage -> Z) c (s : Store) i p :
  (i < length (pages_ s))%nat -> c = u64 (sumZ f (pages_ s)) ->
  u64 (c - f (page_at s i)) = u64 (sumZ f (<[i := p]> (pages_ s)) - f p).
Proof. intros Hi ->. rewrite wrap_sub_l. rewrite (sumZ_insert f _ i p blank_page) by done. unfold page_at. f_equal. lia. Qed.

Lemma page_inv_base n b b' p :
  page_inv n b p -> base b' (page_address_ p) = base b (page_address_ p) -> page_inv n b' p.
Proof. intros Hp E. destruct Hp as [? ? ? Hd Hc]. split; rewrite ?E; done. Qed.

(** The state after the page in slot [i] went to the backend. *)
Definition disposed (i : nat) (b' : B) (s : Store) : Store :=
  set_page i (cleaned (page_at s i))
    (with_counts (u64 (written_clusters_ s - written_clusters_since_last_backend_write (page_at s i)))
                 (u64 (discarded_clusters_ s - discarded_clusters_since_last_backend_write (page_at s i)))
                 (with_backend b' s)).

Lemma disposed_core n s i b' :
  0 <= n -> core n s -> writable n s i -> backend_inv b' ->
  same (base b' (page_address_ (page_at s i))) (data_ (page_at s i)) ->
  (forall pa, pa <> page_address_ (page_at s i) -> base b' pa = base (backend_ s) pa) ->
  core n (disposed i b' s).
Proof.
  intros Hn Hc Hw Hb' Hs Ho. pose proof (wa_bound _ _ _ Hw) as Hi.
  assert (forall j, page_at (disposed i b' s) j = if decide (j = i) then cleaned (page_at s i) else page_at s j) as Hat.
  { intros j. unfold disposed. by rewrite page_at_set. }
  split; try apply Hc.
  - done.
  - intros j Hj. rewrite Hat. unfold disposed in Hj. rewrite length_set_page in Hj.
    case_decide as E; [subst|]; by apply Hc.
  - apply (eq_trans (count_follows _ _ _ _ (cleaned (page_at s i)) Hi (c_written _ _ Hc))). cbn. by rewrite Z.sub_0_r.
  - apply (eq_trans (count_follows _ _ _ _ (cleaned (page_at s i)) Hi (c_discarded _ _ Hc))). cbn. by rewrite Z.sub_0_r.
  - intros j Hj. unfold disposed. rewrite length_set_page. by apply Hc.
  - intros pa j. rewrite Hat. etransitivity; [apply Hc|]. case_decide as E; [subst|]; done.
  - intros j Hj. rewrite Hat. case_decide as E; [subst; by eapply cleaned_inv, Hs; [apply Hw|]|].
    eapply page_inv_base; [by apply Hc|]. apply Ho. by apply Hw.
Qed.

Lemma disposed_wrote n s i b' :
  writable n s i -> in_parent b' = in_parent (backend_ s) -> same_ids (backend_ s) b' ->
  same (base b' (page_address_ (page_at s i))) (data_ (page_at s i)) ->
  (forall pa, pa <> page_address_ (page_at s i) -> base b' pa = base (backend_ s) pa) ->
  wrote i s (disposed i b' s).
Proof.
  intros Hw Hp Hid Hs Ho. pose proof (wa_bound _ _ _ Hw) as Hi. split; try done.
  - unfold disposed. by rewrite length_set_page.
  - unfold disposed. by rewrite page_at_set_eq.
  - intros j Hj. unfold disposed. by rewrite page_at_set_ne.
Qed.

Lemma dispose_runs n s i dispose b' :
  0 <= n -> core n s -> writable n s i ->
  dispose (page_at s i) (nonnull (data_ (page_at s i)) - nonnull (base (backend_ s) (page_address_ (page_at s i))))
    (backend_ s) = (b', Ok tt) ->
  backend_inv b' -> in_parent b' = in_parent (backend_ s) -> same_ids (backend_ s) b' ->
  same (base b' (page_address_ (page_at s i))) (data_ (page_at s i)) ->
  (forall pa, pa <> page_address_ (page_at s i) -> base b' pa = base (backend_ s) pa) ->
  runs (dispose_page dispose i) s (fun _ s' => core n s' /\ wrote i s s').
Proof.
  intros Hn Hc Hw Hd Hb' Hp Hid Hs Ho. exists tt, (disposed i b' s). split.
  - unfold dispose_page, mbind, mget, on_backend, mmodify.
    by rewrite (page_delta _ _ _ Hc Hw), Hd.
  - split; [by apply disposed_core|by eapply disposed_wrote].
Qed.

Lemma new_used n s i : core n s -> writable n s i ->
  used_of (<[page_address_ (page_at s i) := data_ (page_at s i)]> (stored (backend_ s))) =
  getUsedClusters (backend_ s) +
    (nonnull (data_ (page_at s i)) - nonnull (base (backend_ s) (page_address_ (page_at s i)))).
Proof.
  intros Hc Hw. rewrite used_of_insert, nonnull_base, (bi_used _ (c_backend _ _ Hc)). lia.
Qed.

Lemma put_page_runs n s i : 0 <= n -> core n s -> writable n s i ->
  runs (put_page i) s (fun _ s' => core n s' /\ wrote i s s').
Proof.
  intros Hn Hc Hw. set (p := page_at s i). pose proof (c_backend _ _ Hc) as Hb.
  pose proof (pi_addr _ _ _ (wa_page _ _ _ Hw)) as Ha.
  assert (forall pa d, <[page_address_ p := data_ p]> (stored (backend_ s)) !! pa = Some d -> addr_ok pa /\ length d = cap) as Hst.
  { intros pa d [[<- <-]|[_ E]]%lookup_insert_Some; [|by apply Hb in E].
    split; [done|]. apply Hc, Hw. }
  pose proof (used_bounds _ Hst) as Hu. subst p. rewrite (new_used _ _ _ Hc Hw) in Hu.
  edestruct (putPage_spec (page_address_ (page_at s i)) (data_ (page_at s i))) as (b' & E & R & St & Pa & U & Hid);
    [apply Hb|by apply addr_page_ok| |exact Hu|].
  { rewrite (c_len _ _ Hc i (wa_bound _ _ _ Hw)), cap_eq. symmetry. apply capacity_eq. }
  eapply dispose_runs; [done|done|done|exact E| |done|done| |].
  - split; [done|by rewrite St|]. by rewrite U, St, (new_used _ _ _ Hc Hw).
  - unfold base. by rewrite St, lookup_insert_eq.
  - intros pa Hne. unfold base. by rewrite St, lookup_insert_ne.
Qed.

Lemma discard_page_runs n s i : 0 <= n -> core n s -> writable n s i ->
  empty (page_at s i) = true -> in_parent (backend_ s) (page_address_ (page_at s i)) = false ->
  runs (discard_page i) s (fun _ s' => core n s' /\ wrote i s s').
Proof.
  intros Hn Hc Hw He Hpar. pose proof (c_backend _ _ Hc) as Hb.
  pose proof (pi_addr _ _ _ (wa_page _ _ _ Hw)) as Ha.
  apply (empty_same zero_weed) in He. rewrite (c_len _ _ Hc i (wa_bound _ _ _ Hw)) in He.
  assert (nonnull (data_ (page_at s i)) = 0) as Hz.
  { rewrite (nonnull_proper zero_weed _ _ He). apply nonnull_zeros. }
  assert (forall pa d, delete (page_address_ (page_at s i)) (stored (backend_ s)) !! pa = Some d ->
            addr_ok pa /\ length d = cap) as Hst.
  { intros pa d [_ E]%lookup_delete_Some. by apply Hb in E. }
  pose proof (used_bounds _ Hst) as Hu.
  assert (used_of (delete (page_address_ (page_at s i)) (stored (backend_ s))) = getUsedClusters (backend_ s) +
    (nonnull (data_ (page_at s i)) - nonnull (base (backend_ s) (page_address_ (page_at s i))))) as Ed.
  { rewrite used_of_delete, nonnull_base, (bi_used _ Hb), Hz. lia. }
  rewrite Ed in Hu.
  edestruct (discardPage_spec (page_address_ (page_at s i))) as (b' & E & R & St & Pa & U & Hid);
    [apply Hb|by apply addr_page_ok|exact Hu|done| |].
  { intros E. unfold base. rewrite E, Hz. cbn. unfold zeros. by rewrite nonnull_zeros. }
  eapply dispose_runs; [done|done|done|exact E| |done|done| |].
  - split; [done|by rewrite St|]. by rewrite U, St, Ed.
  - unfold base. by rewrite St, lookup_delete_eq.
  - intros pa Hne. unfold base. by rewrite St, lookup_delete_ne.
Qed.

Lemma with_backend_id (s : Store) : with_backend (backend_ s) s = s.
Proof. by destruct s. Qed.

Lemma write_dirty_page_runs n s i : 0 <= n -> core n s -> writable n s i -> dirty (page_at s i) = true ->
  runs (write_dirty_page i) s (fun _ s' => core n s' /\ wrote i s s').
Proof.
  intros Hn Hc Hw Hd. unfold write_dirty_page. apply runs_bind, runs_get.
  assert (runs (put_page i ;! mret true) s (fun _ s' => core n s' /\ wrote i s s')) as Hput.
  { apply runs_bind. eapply runs_mono; [by eapply put_page_runs|]. intros ? s' H. by apply runs_ret. }
  destruct (empty (page_at s i)) eqn:He; [|exact Hput].
  apply runs_bind. unfold possibly_discard_page_. apply runs_bind, runs_get, runs_bind. rewrite Hd.
  apply runs_ret, runs_bind. exists (in_parent (backend_ s) (page_address_ (page_at s i))), s. split.
  { unfold on_backend. by rewrite pageExistsInParent_spec, with_backend_id. }
  destruct (in_parent (backend_ s) (page_address_ (page_at s i))) eqn:Hp; [by apply runs_ret|].
  apply runs_bind. eapply runs_mono; [by eapply discard_page_runs|]. intros ? s' H. by apply runs_ret, runs_ret.
Qed.

(** Writing out a page in use always works, and leaves it clean. *)
Lemma maybeWrite_runs n s i ie : 0 <= n -> core n s -> writable n s i ->
  runs (maybeWritePage_locked_context i ie) s (fun _ s' => core n s' /\ wrote i s s').
Proof.
  intros Hn Hc Hw. unfold maybeWritePage_locked_context. destruct (dirty (page_at s i)) eqn:Hd.
  - destruct (write_dirty_page_runs n s i Hn Hc Hw Hd) as (a & s' & E & H). exists a, s'. split; [cbv beta; by rewrite Hd, E|done].
  - exists false, s. split; [cbv beta; by rewrite Hd|]. split; [done|].
    destruct (pi_clean _ _ _ (wa_page _ _ _ Hw) Hd) as (Hs & Ew & Ed).
    split; try done. unfold cleaned. destruct (page_at s i) as [? ? ? ? ?]; cbn in *. congruence.
Qed.

(** *** Taking a page out of use *)
Lemma filter_out i l : i ∉ l -> List.filter (fun j => negb (j =? i)%nat) l = l.
Proof.
  induction l as [|j l IH]; [done|]. intros [Hj Hl]%not_elem_of_cons. cbn.
  rewrite (proj2 (Nat.eqb_neq j i)) by done. cbn. by rewrite IH.
Qed.

Lemma filter_perm i l : NoDup l -> i ∈ l -> l ≡ₚ i :: List.filter (fun j => negb (j =? i)%nat) l.
Proof.
  induction 1 as [|j l Hj Hl IH]; intros Hi; [by apply elem_of_nil in Hi|].
  destruct (decide (j = i)) as [->|Hne]; cbn.
  - rewrite Nat.eqb_refl. cbn. by rewrite filter_out.
  - rewrite (proj2 (Nat.eqb_neq j i)) by done. cbn. apply elem_of_cons in Hi as [->|Hi]; [done|].
    rewrite IH at 1 by done. apply Permutation_swap.
Qed.

(** The front page taken out of the list and the map. *)
Definition unlinked (i : nat) (s : Store) : Store :=
  let t := unlink_from_set i (unlink_from_list i s) in
  with_links (page_map_ t) (page_list_ t) (num_pages_ t - 1) t.

Lemma unlinked_eq i l s : NoDup (page_list_ s) -> page_list_ s = i :: l ->
  unlinked i s = with_links (delete (page_address_ (page_at s i)) (page_map_ s)) l (num_pages_ s - 1) s.
Proof.
  intros Hnd E. unfold unlinked, unlink_from_set, unlink_from_list, with_links. cbn. f_equal.
  rewrite E. cbn. rewrite Nat.eqb_refl. cbn. apply filter_out. rewrite E in Hnd. by inv Hnd.
Qed.

Lemma unlink_core n s i l : core n s -> page_list_ s = i :: l ->
  core n (unlinked i s) /\ page_list_ (unlinked i s) = l /\ writable n (unlinked i s) i /\ i ∉ l.
Proof.
  intros Hc E. pose proof (c_nodup _ _ Hc) as Hnd. rewrite (unlinked_eq i l) by done.
  assert (forall j, j ∈ l -> j ∈ page_list_ s) as Hsub by (intros j Hj; rewrite E; by right).
  assert (i ∈ page_list_ s) as Hi by (rewrite E; by left).
  pose proof (linked_writable _ _ _ Hc Hi) as Hw.
  rewrite E in Hnd. apply NoDup_cons in Hnd as [Hil Hl].
  split; [|split; [done|split; [|done]]].
  - split; try apply Hc; try done.
    + intros j Hj. by apply Hc, Hsub.
    + cbn. rewrite (c_num _ _ Hc), E. cbn. lia.
    + intros pa j. change (page_at _ j) with (page_at s j). cbn [with_links page_map_ page_list_].
      rewrite lookup_delete_Some. rewrite (c_map _ _ Hc), E, elem_of_cons. split.
      * intros (Hne & [->|Hj] & <-); [done|by split].
      * intros (Hj & <-). split_and!; [|by right|done]. intros Eq.
        eapply (wa_alone _ _ _ Hw j); [by apply Hsub| |done]. by intros ->.
    + intros j Hj. by apply Hc, Hsub.
  - split; [apply Hw|apply Hw|]. intros j Hj Hne. apply Hw; [by apply Hsub|done].
Qed.

(** *** The map the pages stand for *)
Definition pview (s : Store) (pa : Z) : list ClusterLocationAndHash :=
  match page_map_ s !! pa with
  | Some i => data_ (page_at s i)
  | None => base (backend_ s) pa
  end.

(** What bookkeeping on the cache leaves alone. *)
Record keeps (s s' : Store) : Prop := {
  k_pages : forall pa, same (pview s' pa) (pview s pa);
  k_corks : corks_ s' = corks_ s;
  k_uuid : cork_uuid_ s' = cork_uuid_ s;
  k_length : length (pages_ s') = length (pages_ s);
  k_parent : in_parent (backend_ s') = in_parent (backend_ s);
  k_ids : same_ids (backend_ s) (backend_ s') }.

#[global] Instance keeps_preorder : PreOrder keeps.
Proof.
  split; [by intros s; split|]. intros s s' s'' H H'. split.
  - intros pa. by rewrite (k_pages _ _ H'), (k_pages _ _ H).
  - by rewrite (k_corks _ _ H'), (k_corks _ _ H).
  - by rewrite (k_uuid _ _ H'), (k_uuid _ _ H).
  - by rewrite (k_length _ _ H'), (k_length _ _ H).
  - by rewrite (k_parent _ _ H'), (k_parent _ _ H).
  - transitivity (backend_ s'); [apply H|apply H'].
Qed.

Lemma pview_length n s pa : core n s -> length (pview s pa) = cap.
Proof.
  intros Hc. unfold pview. destruct (page_map_ s !! pa) as [i|] eqn:E.
  - apply Hc in E as [Hi _]. by apply Hc, Hc.
  - apply base_length, Hc.
Qed.

(** Writing out a page that stays in use changes nothing. *)
Lemma wrote_keeps n s s' i : core n s -> i ∈ page_list_ s -> wrote i s s' -> keeps s s'.
Proof.
  intros Hc Hi W. split; try apply W. intros pa. unfold pview. rewrite (wr_map _ _ _ W).
  destruct (page_map_ s !! pa) as [j|] eqn:E.
  - destruct (decide (j = i)) as [->|Hne]; [by rewrite (wr_page _ _ _ W)|by rewrite (wr_others _ _ _ W)].
  - rewrite (wr_bases _ _ _ W); [done|]. intros ->.
    assert (page_map_ s !! page_address_ (page_at s i) = Some i) by (by apply Hc). congruence.
Qed.

(** Neither does writing out a page that was just taken out of use. *)
Lemma evict_keeps n s s' i l : core n s -> page_list_ s = i :: l -> wrote i (unlinked i s) s' -> keeps s s'.
Proof.
  intros Hc E W. rewrite (unlinked_eq i l) in W by (done || apply Hc).
  split; try apply W. intros pa. unfold pview. rewrite (wr_map _ _ _ W). cbn [with_links page_map_].
  assert (page_map_ s !! page_address_ (page_at s i) = Some i) as Ei by (apply Hc; rewrite E; split; [by left|done]).
  destruct (decide (pa = page_address_ (page_at s i))) as [->|Hne].
  - rewrite lookup_delete_eq, Ei. apply (wr_base _ _ _ W).
  - rewrite lookup_delete_ne by done. destruct (page_map_ s !! pa) as [j|] eqn:Ej.
    + rewrite (wr_others _ _ _ W); [done|]. intros ->. apply Hc in Ej as [_ <-]. done.
    + by rewrite (wr_bases _ _ _ W).
Qed.

(** *** Bringing a page into use *)

(** A slot that is free to take a page. *)
Record free (n : Z) (s : Store) (i : nat) : Prop := {
  f_core : core n s;
  f_bound : (i < length (pages_ s))%nat;
  f_out : i ∉ page_list_ s;
  f_slot : (i <= num_pages_ s)%nat;
  f_num : (num_pages_ s < length (pages_ s))%nat;
  f_dense : forall j, j ∈ page_list_ s -> (j <= num_pages_ s)%nat;
  f_idle : forall j, (j < length (pages_ s))%nat -> j ∉ page_list_ s -> idle s j }.

Lemma NoDup_bounded (l : list nat) k : NoDup l -> (forall i, i ∈ l -> (i < k)%nat) -> (length l <= k)%nat.
Proof.
  intros Hnd Hb. rewrite <- (length_seq k 0). apply submseteq_length, NoDup_submseteq; [done|].
  intros i Hi. apply elem_of_seq. apply Hb in Hi. lia.
Qed.

Lemma wrote_idle s s' i j : wrote i s s' -> j = i \/ idle s j -> idle s' j.
Proof.
  intros W H. unfold idle. destruct (decide (j = i)) as [->|Hne]; [by rewrite (wr_page _ _ _ W)|].
  rewrite (wr_others _ _ _ W) by done. by destruct H.
Qed.

Lemma victim_runs n s : 0 <= n -> inv n s ->
  runs victim s (fun i s' => free n s' i /\ keeps s s' /\
    forall pa, page_map_ s !! pa = None -> page_map_ s' !! pa = None).
Proof.
  intros Hn [Hc Hcap Hd Hidle]. unfold victim. apply runs_bind, runs_get.
  destruct (Nat.ltb_spec (num_pages_ s) (length (pages_ s))) as [Hlt|Hge].
  - apply runs_ret. split; [|done]. split; try done; [by intros Hi%Hd; lia|by intros j Hj%Hd; lia].
  - destruct (page_list_ s) as [|i l] eqn:E; [rewrite (c_num _ _ Hc), E in Hge; cbn in Hge; lia|].
    apply runs_bind, runs_modify, runs_bind, runs_modify, runs_bind. fold (unlinked i s).
    destruct (unlink_core n s i l Hc E) as (Hc1 & El & Hw & Hil).
    eapply runs_mono; [by eapply maybeWrite_runs|]. intros _b s' [Hc' W]. apply runs_ret.
    pose proof (evict_keeps n s s' i l Hc E W) as HK.
    assert (num_pages_ s' = length l) as En.
    { rewrite (c_num _ _ Hc'), (wr_list _ _ _ W), El. done. }
    assert (length (pages_ s') = length (pages_ s)) as Ep by apply HK.
    assert (S (length l) = length (pages_ s)) as El'.
    { pose proof (NoDup_bounded (page_list_ s) (length (pages_ s)) (c_nodup _ _ Hc) (c_bound _ _ Hc)) as Hle.
      rewrite (c_num _ _ Hc) in Hge. rewrite E in *. cbn in *. lia. }
    split; [|split; [done|]].
    + split; rewrite ?En, ?Ep, ?(wr_list _ _ _ W), ?El; try done.
      * apply Hc. rewrite E. by left.
      * assert (i < length (pages_ s))%nat by (apply Hc; rewrite E; by left). lia.
      * lia.
      * intros j Hj. assert (j < length (pages_ s))%nat by (apply Hc; rewrite E; by right). lia.
      * intros j Hj Hjl. eapply wrote_idle; [done|]. destruct (decide (j = i)) as [->|Hne]; [by left|right].
        apply Hidle; [done|]. by apply not_elem_of_cons.
    + intros pa Hpa. rewrite (wr_map _ _ _ W), (unlinked_eq i l) by (done || apply Hc).
      cbn. by rewrite lookup_delete_None; right.
Qed.

(** The state in which the page at [pa] is loaded into slot [i]. *)
Definition loaded (i : nat) (pa : Z) (s : Store) : Store :=
  let t := set_page i (CachePage.make pa (base (backend_ s) pa)) s in
  with_links (<[pa := i]> (page_map_ t)) (page_list_ t ++ [i]) (num_pages_ t + 1) t.

Lemma sum_loaded (f : CachePage -> Z) i pa (s : Store) :
  (i < length (pages_ s))%nat -> f (CachePage.make pa (base (backend_ s) pa)) = 0 -> f (page_at s i) = 0 ->
  sumZ f (pages_ (loaded i pa s)) = sumZ f (pages_ s).
Proof.
  intros Hi H0 H1. unfold loaded, set_page. cbn [with_links with_pages pages_].
  rewrite (sumZ_insert _ _ i _ blank_page) by done. fold (page_at s i). lia.
Qed.

Lemma loaded_core n s i pa : 0 <= n -> free n s i -> addr_ok pa -> page_map_ s !! pa = None -> core n (loaded i pa s).
Proof.
  intros Hn [Hc Hi Hout Hslot Hnum Hdense Hidle] Hpa Hno.
  assert (forall j, page_at (loaded i pa s) j =
    if decide (j = i) then CachePage.make pa (base (backend_ s) pa) else page_at s j) as Hat.
  { intros j. by apply page_at_set. }
  destruct (Hidle i Hi Hout) as (Hdi & Hwi & Hdsi).
  split; try apply Hc.
  - intros j Hj. rewrite Hat. case_decide; [cbn; apply base_length, Hc|]. apply Hc. unfold loaded in Hj. cbn in Hj.
    by rewrite length_insert in Hj.
  - etransitivity; [apply Hc|]. f_equal. symmetry. by apply sum_loaded.
  - etransitivity; [apply Hc|]. f_equal. symmetry. by apply sum_loaded.
  - apply NoDup_app. split_and!; [apply Hc| |apply NoDup_singleton].
    intros j Hj ->%list_elem_of_singleton. done.
  - intros j Hj. cbn. rewrite length_insert. apply elem_of_app in Hj as [Hj| ->%list_elem_of_singleton]; [by apply Hc|done].
  - cbn. rewrite length_app, (c_num _ _ Hc). done.
  - intros q j. rewrite Hat. cbn [loaded with_links set_page with_pages page_map_ page_list_].
    rewrite lookup_insert_Some, elem_of_app, list_elem_of_singleton, (c_map _ _ Hc).
    case_decide as Ej.
    + subst j. cbn. split; [intros [[<- _]|(_ & ? & _)]; [by split; [right|]|done]|]. intros [_ <-]. by left.
    + split; [intros [[_ ?]|(Hne & Hj & Ea)]; [done|]; by split; [left|]|].
      intros [[Hj|?] Ea]; [|done]. right. split; [|done]. intros <-.
      assert (page_map_ s !! pa = Some j) by (by apply Hc). congruence.
  - intros j Hj. rewrite Hat. case_decide as Ej.
    + split; cbn; try lia; [done|]. intros _. done.
    + apply elem_of_app in Hj as [Hj|?%list_elem_of_singleton]; [|done]. by apply Hc.
Qed.

Lemma inv_stats n s h m : inv n s -> inv n (with_stats h m s).
Proof. intros [[] ? ? ?]. split; [split|..]; done. Qed.

Lemma keeps_stats s h m : keeps s (with_stats h m s).
Proof. by split. Qed.

Lemma not_in_set n s i : core n s -> i ∉ page_list_ s -> is_in_set i s = false /\ is_in_list i s = false.
Proof.
  intros Hc Hi. unfold is_in_set, is_in_list. rewrite !bool_decide_eq_false. split; [|done].
  intros [? _]%(c_map _ _ Hc). done.
Qed.

Lemma set_page_set_page i p q (s : Store) : set_page i q (set_page i p s) = set_page i q s.
Proof. unfold set_page, with_pages. cbn. f_equal. apply list_insert_insert_eq. Qed.

Lemma load_page_runs n s pa : 0 <= n -> inv n s -> addr_ok pa -> page_map_ s !! pa = None ->
  runs (load_page page_bits pa) s (fun i s2 => exists s1, free n s1 i /\ keeps s s1 /\ page_map_ s1 !! pa = None /\
    is_in_list i s2 = false /\ is_in_set i s2 = true /\
    with_links (page_map_ s2) (page_list_ s2 ++ [i]) (num_pages_ s2) s2 = loaded i pa s1).
Proof.
  intros Hn Hinv Hpa Hno. unfold load_page. apply runs_bind, runs_modify, runs_bind.
  eapply runs_mono; [apply victim_runs; [done|by apply inv_stats]|].
  intros i s1 (Hf & HK & Hno1). apply runs_bind, runs_get, runs_bind.
  exists tt, s1. split.
  { destruct (not_in_set _ _ _ (f_core _ _ _ Hf) (f_out _ _ _ Hf)) as [-> ->].
    destruct (f_idle _ _ _ Hf i (f_bound _ _ _ Hf) (f_out _ _ _ Hf)) as (-> & _).
    by rewrite (proj2 (Nat.ltb_lt _ _) (f_num _ _ _ Hf)). }
  apply runs_bind, runs_modify, runs_bind.
  set (t := set_page i _ s1). exists (stored (backend_ s1) !! pa), t. split.
  { unfold on_backend. rewrite getPage_spec; [by rewrite with_backend_id|apply Hf|by apply addr_page_ok]. }
  apply runs_bind, runs_modify, runs_bind, runs_modify, runs_ret.
  exists s1. split_and!; [done|by transitivity (with_stats (cache_hits_ s) (u64 (cache_misses_ s + 1)) s)|by apply Hno1|..].
  { by apply (not_in_set _ _ _ (f_core _ _ _ Hf)), Hf. }
  { unfold is_in_set. apply bool_decide_eq_true. unfold t. rewrite set_page_set_page.
    change (page_at (with_links _ _ _ ?x) i) with (page_at x i). rewrite page_at_set_eq by apply (f_bound _ _ _ Hf).
    rewrite page_at_set_eq by apply (f_bound _ _ _ Hf). cbn [with_links page_map_].
    destruct (stored (backend_ s1) !! pa); apply lookup_insert_eq. }
  assert (page_at t i = CachePage.make pa (data_ (page_at s1 i))) as ->
    by (exact (page_at_set_eq _ _ _ (f_bound _ _ _ Hf))).
  unfold t. rewrite set_page_set_page. unfold loaded, base, zeros, cap.
  by destruct (stored (backend_ s1) !! pa).
Qed.

Lemma loaded_keeps n s i pa : free n s i -> page_map_ s !! pa = None -> keeps s (loaded i pa s).
Proof.
  intros Hf Hno. pose proof (f_core _ _ _ Hf) as Hc. split; try done; [|apply length_insert].
  intros q. unfold pview. unfold loaded at 1. cbn [with_links page_map_ set_page with_pages].
  destruct (decide (q = pa)) as [->|Hne].
  - rewrite lookup_insert_eq, Hno. unfold loaded. change (page_at (with_links _ _ _ ?t) i) with (page_at t i).
    by rewrite page_at_set_eq by exact (f_bound _ _ _ Hf).
  - rewrite lookup_insert_ne by done. destruct (page_map_ s !! q) as [j|] eqn:E; [|done].
    unfold loaded. change (page_at (with_links _ _ _ ?t) j) with (page_at t j).
    rewrite page_at_set_ne; [done|exact (f_bound _ _ _ Hf)|]. intros ->. apply Hc in E as [E _]. by destruct (f_out _ _ _ Hf).
Qed.

Lemma loaded_inv n s i pa : 0 <= n -> free n s i -> addr_ok pa -> page_map_ s !! pa = None -> inv n (loaded i pa s).
Proof.
  intros Hn Hf Hpa Hno. pose proof (f_num _ _ _ Hf). pose proof (f_slot _ _ _ Hf). split.
  - by apply loaded_core.
  - unfold loaded. cbn. rewrite length_insert. lia.
  - intros j. cbn. intros [Hj%(f_dense _ _ _ Hf)| ->%list_elem_of_singleton]%elem_of_app; lia.
  - intros j Hj. cbn in Hj. rewrite length_insert in Hj. intros [Hj' Hji]%not_elem_of_app.
    rewrite list_elem_of_singleton in Hji. unfold idle, loaded.
    change (page_at (with_links _ _ _ ?t) j) with (page_at t j).
    rewrite page_at_set_ne by (done || exact (f_bound _ _ _ Hf)). by apply Hf.
Qed.

(** Reordering the list changes nothing else. *)
Lemma relist_inv n s l : inv n s -> l ≡ₚ page_list_ s -> inv n (with_links (page_map_ s) l (num_pages_ s) s).
Proof.
  intros [Hc Hcap Hd Hi] E. assert (forall i, i ∈ l <-> i ∈ page_list_ s) as Hin by (intros i; by rewrite E).
  split; [|done| |].
  - split; try apply Hc.
    + cbn. rewrite E. apply Hc.
    + intros i Hl%Hin. by apply Hc.
    + cbn. rewrite E. apply Hc.
    + intros pa i. change (page_at _ i) with (page_at s i). cbn [with_links page_map_ page_list_].
      rewrite Hin. apply Hc.
    + intros i Hl%Hin. by apply Hc.
  - intros i Hl%Hin. by apply Hd.
  - intros i Hi' Hl. apply Hi; [done|]. by rewrite <- Hin.
Qed.

Lemma elem_of_filter_out i j l : j ∈ List.filter (fun j => negb (j =? i)%nat) l -> j ∈ l /\ j <> i.
Proof.
  induction l as [|k l IH]; cbn; [by intros ?%elem_of_nil|]. destruct (Nat.eqb_spec k i); cbn [negb].
  - intros [? ?]%IH. split; [by right|done].
  - intros [->|[? ?]%IH]%elem_of_cons; [by split; [left|]|split; [by right|done]].
Qed.

Lemma assert_linked i (s : Store) : i ∉ page_list_ s -> page_map_ s !! page_address_ (page_at s i) = Some i ->
  runs (fail_unless (negb (is_in_list i s) && is_in_set i s) AssertFailed) s (fun _ s' => s' = s).
Proof.
  intros Hi E. unfold is_in_list, is_in_set. rewrite bool_decide_eq_false_2, bool_decide_eq_true_2 by done.
  by apply runs_ret.
Qed.

(** A page is found, at its address, whether it was cached or not. *)
Lemma get_page_runs n s ca : 0 <= n -> inv n s -> fits 35 ca ->
  runs (get_page_ page_bits ca) s (fun r s' => inv n s' /\ keeps s s' /\
    fst r ∈ page_list_ s' /\ page_map_ s' !! pageAddress page_bits ca = Some (fst r)).
Proof.
  intros Hn Hinv Hca. pose proof (pageAddress_ok ca Hca) as Hpa. unfold get_page_.
  apply runs_bind, runs_get, runs_bind. destruct (page_map_ s !! pageAddress page_bits ca) as [i|] eqn:E.
  - pose proof (i_core _ _ Hinv) as Hc. pose proof E as [Hi Ea]%(c_map _ _ Hc).
    apply runs_bind, runs_modify, runs_ret, runs_bind, runs_get, runs_bind. cbn [fst].
    eapply runs_mono; [apply (assert_linked i); cbn; [by intros [_ ?]%elem_of_filter_out|by rewrite <- Ea in E]|].
    intros [] ? ->. apply runs_bind, runs_modify, runs_ret. cbn [fst].
    split_and!; [|done|by apply elem_of_app; right; left|done].
    apply (relist_inv n (with_stats (u64 (cache_hits_ s + 1)) (cache_misses_ s) s)); [by apply inv_stats|].
    cbn. rewrite (filter_perm i (page_list_ s)) at 2 by (done || apply Hc). by rewrite (Permutation_app_comm _ [i]).
  - apply runs_bind. eapply runs_mono; [by apply load_page_runs with (n := n)|].
    intros i s2 (s1 & Hf & HK & Hno & Hil & His & Es). apply runs_ret, runs_bind, runs_get, runs_bind. cbn [fst].
    rewrite Hil, His. apply runs_ret, runs_bind, runs_modify, runs_ret. cbn [fst].
    rewrite Es. split_and!.
    + by apply loaded_inv.
    + transitivity s1; [done|by eapply loaded_keeps].
    + cbn. apply elem_of_app; right; left.
    + cbn. by rewrite lookup_insert_eq.
Qed.

(** *** Entries *)
Definition pentry (s : Store) (ca : Z) : ClusterLocationAndHash :=
  nth (offset page_bits ca) (pview s (pageAddress page_bits ca)) zero.

Lemma page_inv_mono n m b p : n <= m -> page_inv n b p -> page_inv m b p.
Proof. intros Hnm [? ? ? ? ?]. split; try done; lia. Qed.

Lemma inv_mono n m s : n <= m -> inv n s -> inv m s.
Proof.
  intros Hnm [Hc ? ? ?]. split; [|done..]. destruct Hc as [? ? ? ? ? ? ? ? Hl]. split; try done.
  intros i Hi. by eapply page_inv_mono, Hl.
Qed.

(** How an entry written over another one counts. *)
Definition gained (o l : ClusterLocationAndHash) : Z := b2z (negb (in_use o) && in_use l).
Definition lost (o l : ClusterLocationAndHash) : Z := b2z (in_use o && negb (in_use l)).

Definition entered (i : nat) (ca : Z) (l : ClusterLocationAndHash) (s : Store) : Store :=
  let p := page_at s i in
  let o := entry_at page_bits s i ca in
  with_counts (u64 (written_clusters_ s + gained o l)) (u64 (discarded_clusters_ s + lost o l))
    (set_page i (mkPage (page_address_ p) (<[offset page_bits ca := l]> (data_ p)) true
      (written_clusters_since_last_backend_write p + gained o l)
      (discarded_clusters_since_last_backend_write p + lost o l)) s).

Lemma gained_lost o l : 0 <= gained o l <= 1 /\ 0 <= lost o l <= 1 /\
  gained o l - lost o l = b2z (in_use l) - b2z (in_use o).
Proof. unfold gained, lost, b2z. destruct (in_use o), (in_use l); cbn; lia. Qed.

Lemma write_entry_eq n s i ca l : core n s -> i ∈ page_list_ s -> n + 1 < 2 ^ 32 ->
  write_entry page_bits i ca l s = entered i ca l s.
Proof.
  intros Hc Hi Hn. destruct (c_linked _ _ Hc i Hi) as [_ Hw Hd _ _].
  assert (u64 (written_clusters_ s + 0) = written_clusters_ s) as E1.
  { by rewrite Z.add_0_r, (c_written _ _ Hc), wrap_wrap. }
  assert (u64 (discarded_clusters_ s + 0) = discarded_clusters_ s) as E2.
  { by rewrite Z.add_0_r, (c_discarded _ _ Hc), wrap_wrap. }
  unfold write_entry, entered, gained, lost, b2z, in_use. rewrite !negb_involutive.
  destruct (isNull (clusterLocation (entry_at page_bits s i ca))), (isNull (clusterLocation l));
    cbn [andb negb]; rewrite ?E1, ?E2, ?Z.add_0_r, ?(wrap_id 32) by (unfold fits; lia); try done; by destruct s.
Qed.

Lemma page_at_entered i ca l (s : Store) j : (i < length (pages_ s))%nat ->
  page_at (entered i ca l s) j = if decide (j = i) then
    mkPage (page_address_ (page_at s i)) (<[offset page_bits ca := l]> (data_ (page_at s i))) true
      (written_clusters_since_last_backend_write (page_at s i) + gained (entry_at page_bits s i ca) l)
      (discarded_clusters_since_last_backend_write (page_at s i) + lost (entry_at page_bits s i ca) l)
  else page_at s j.
Proof.
  intros Hi. unfold entered. change (page_at (with_counts _ _ ?t) j) with (page_at t j). by apply page_at_set.
Qed.

Lemma sum_entered (f : CachePage -> Z) c i ca l (s : Store) k :
  (i < length (pages_ s))%nat -> c = u64 (sumZ f (pages_ s)) ->
  f (page_at (entered i ca l s) i) = f (page_at s i) + k ->
  u64 (c + k) = u64 (sumZ f (pages_ (entered i ca l s))).
Proof.
  intros Hi -> Hk. rewrite page_at_entered in Hk by done. case_decide; [|done].
  rewrite wrap_add_l. f_equal. unfold entered, set_page. cbn [with_counts with_pages pages_].
  rewrite (sumZ_insert _ _ i _ blank_page) by done. fold (page_at s i). lia.
Qed.

Lemma entered_page_inv n s i ca l : core n s -> i ∈ page_list_ s -> 0 <= ca ->
  page_inv (n + 1) (backend_ s) (page_at (entered i ca l s) i).
Proof.
  intros Hc Hi Hca. pose proof (c_bound _ _ Hc i Hi) as Hb. rewrite page_at_entered by done. case_decide; [|done].
  destruct (c_linked _ _ Hc i Hi) as [Ha Hw Hd Hdelta _].
  destruct (gained_lost (entry_at page_bits s i ca) l) as (G & L & GL).
  split; cbn [page_address_ written_clusters_since_last_backend_write discarded_clusters_since_last_backend_write
              data_ dirty]; [done|lia|lia| |done].
  rewrite nonnull_insert by (rewrite (c_len _ _ Hc i Hb); by apply offset_lt). fold (entry_at page_bits s i ca). lia.
Qed.

Lemma entered_inv n s i ca l : inv n s -> i ∈ page_list_ s -> 0 <= ca -> inv (n + 1) (entered i ca l s).
Proof.
  intros [Hc Hcap Hd Hidle] Hi Hca. pose proof (c_bound _ _ Hc i Hi) as Hb.
  assert (length (pages_ (entered i ca l s)) = length (pages_ s)) as El by apply length_insert.
  assert (forall j, page_address_ (page_at (entered i ca l s) j) = page_address_ (page_at s j)) as Ea.
  { intros j. rewrite page_at_entered by done. by case_decide; subst. }
  split; [|by rewrite El|done|].
  - split; try apply Hc; rewrite ?El; try apply Hc.
    + intros j Hj. rewrite page_at_entered by done. case_decide; [cbn; rewrite length_insert; by apply Hc|by apply Hc].
    + apply sum_entered; [done|apply Hc|]. rewrite page_at_entered by done. by case_decide.
    + apply sum_entered; [done|apply Hc|]. rewrite page_at_entered by done. by case_decide.
    + intros pa j. rewrite Ea. apply Hc.
    + intros j Hj. destruct (decide (j = i)) as [->|Hne]; [exact (entered_page_inv n s i ca l Hc Hi Hca)|].
      rewrite page_at_entered by done. case_decide; [done|]. eapply page_inv_mono; [|by apply Hc]. lia.
  - intros j. rewrite El. intros Hj Hjl. unfold idle. rewrite page_at_entered by done.
    case_decide as E; [by subst|]. by apply Hidle.
Qed.

(** What writing an entry changes: the page of its address, there. *)
Record puts (ca : Z) (l : ClusterLocationAndHash) (s s' : Store) : Prop := {
  p_page : same (pview s' (pageAddress page_bits ca)) (<[offset page_bits ca := l]> (pview s (pageAddress page_bits ca)));
  p_pages : forall pa, pa <> pageAddress page_bits ca -> same (pview s' pa) (pview s pa);
  p_corks : corks_ s' = corks_ s;
  p_uuid : cork_uuid_ s' = cork_uuid_ s;
  p_length : length (pages_ s') = length (pages_ s);
  p_parent : in_parent (backend_ s') = in_parent (backend_ s);
  p_ids : same_ids (backend_ s) (backend_ s') }.

Lemma entered_puts n s i ca l : core n s -> page_map_ s !! pageAddress page_bits ca = Some i ->
  puts ca l s (entered i ca l s).
Proof.
  intros Hc E. pose proof E as [Hi Ea]%(c_map _ _ Hc). pose proof (c_bound _ _ Hc i Hi) as Hb.
  split; try done; [..|apply length_insert].
  - unfold pview. change (page_map_ (entered i ca l s)) with (page_map_ s). rewrite E.
    rewrite page_at_entered by done. by case_decide.
  - intros pa Hne. unfold pview. change (page_map_ (entered i ca l s)) with (page_map_ s).
    destruct (page_map_ s !! pa) as [j|] eqn:Ej; [|done]. rewrite page_at_entered by done.
    case_decide; [|done]. subst j. apply Hc in Ej as [_ Ej]. congruence.
Qed.

Lemma keeps_puts ca l s s' s'' : keeps s s' -> puts ca l s' s'' -> puts ca l s s''.
Proof.
  intros HK HP. split.
  - rewrite (p_page _ _ _ _ HP). apply same_insert, HK.
  - intros pa Hne. rewrite (p_pages _ _ _ _ HP) by done. apply HK.
  - by rewrite (p_corks _ _ _ _ HP), (k_corks _ _ HK).
  - by rewrite (p_uuid _ _ _ _ HP), (k_uuid _ _ HK).
  - by rewrite (p_length _ _ _ _ HP), (k_length _ _ HK).
  - by rewrite (p_parent _ _ _ _ HP), (k_parent _ _ HK).
  - transitivity (backend_ s'); [apply HK|apply HP].
Qed.

Lemma pages_entry s s' ca : (forall pa, same (pview s' pa) (pview s pa)) -> norm (pentry s' ca) = norm (pentry s ca).
Proof. intros HK. apply same_nth, HK. Qed.

Lemma keeps_entry s s' ca : keeps s s' -> norm (pentry s' ca) = norm (pentry s ca).
Proof. intros HK. apply pages_entry, HK. Qed.

Lemma puts_entry n s s' ca l ca' : core n s -> 0 <= ca -> 0 <= ca' -> puts ca l s s' ->
  norm (pentry s' ca') = if decide (ca' = ca) then norm l else norm (pentry s ca').
Proof.
  intros Hc H0 H0' HP. unfold pentry.
  destruct (decide (pageAddress page_bits ca' = pageAddress page_bits ca)) as [E|Hne].
  - rewrite E, (same_nth _ _ _ _ (p_page _ _ _ _ HP)). rewrite !nth_lookup. case_decide as Eca.
    + subst. rewrite list_lookup_insert_eq; [done|]. rewrite (pview_length n) by done. by apply offset_lt.
    + rewrite list_lookup_insert_ne; [done|]. intros Eo. apply Eca. symmetry. by apply address_inj.
  - case_decide as Eca; [by subst|]. by apply same_nth, HP.
Qed.

Lemma put_runs n s ca l : 0 <= n -> n + 1 < 2 ^ 32 -> inv n s -> fits 35 ca ->
  runs (put_cluster_location page_bits ca l) s (fun _ s' => inv (n + 1) s' /\ puts ca l s s').
Proof.
  intros Hn Hn1 Hinv Hca. unfold put_cluster_location. apply runs_bind.
  eapply runs_mono; [by apply get_page_runs with (n := n)|]. intros [i hit] s' (Hinv' & HK & Hi & E). cbn [fst] in *.
  apply runs_bind, runs_modify, runs_ret. pose proof (i_core _ _ Hinv') as Hc'.
  rewrite (write_entry_eq n) by done. split; [apply entered_inv; [done..|apply Hca]|].
  eapply keeps_puts; [done|]. by eapply entered_puts.
Qed.

Lemma get_runs n s ca : 0 <= n -> inv n s -> fits 35 ca ->
  runs (get_cluster_location page_bits ca) s (fun r s' => inv n s' /\ keeps s s' /\ fst r = pentry s' ca).
Proof.
  intros Hn Hinv Hca. unfold get_cluster_location. apply runs_bind.
  eapply runs_mono; [by apply get_page_runs with (n := n)|]. intros [i hit] s' (Hinv' & HK & Hi & E). cbn [fst] in *.
  apply runs_bind, runs_get, runs_ret. split_and!; [done..|]. unfold pentry, pview. by rewrite E.
Qed.

(** *** Writing out all pages *)
Definition clean (s : Store) : Prop := forall i, i ∈ page_list_ s -> dirty (page_at s i) = false.

Lemma clean_core n s : core n s -> clean s -> core 0 s.
Proof.
  intros Hc Hcl. split; try apply Hc. intros i Hi. destruct (c_linked _ _ Hc i Hi) as [Ha Hw Hd Hdl Hp].
  destruct (Hp (Hcl i Hi)) as (Hs & E1 & E2). split; rewrite ?E1, ?E2; try done. by rewrite <- Hdl, E1, E2.
Qed.

Lemma clean_inv n s : inv n s -> clean s -> inv 0 s.
Proof. intros [Hc ? ? ?] Hcl. split; [by eapply clean_core|done..]. Qed.

Lemma wrote_inv n s s' i : inv n s -> i ∈ page_list_ s -> core n s' -> wrote i s s' -> inv n s'.
Proof.
  intros [Hc Hcap Hd Hidle] Hi Hc' W. split; [done|by rewrite (wr_length _ _ _ W)| |].
  - intros j. rewrite (wr_list _ _ _ W), (wr_num _ _ _ W). apply Hd.
  - intros j. rewrite (wr_length _ _ _ W), (wr_list _ _ _ W). intros Hj Hjl.
    eapply wrote_idle; [done|]. right. by apply Hidle.
Qed.

Lemma flush_runs n s : 0 <= n -> inv n s ->
  runs (miter (fun i => maybeWritePage_locked_context i false ;! mret tt) (page_list_ s)) s
    (fun _ s' => inv 0 s' /\ keeps s s' /\ clean s').
Proof.
  intros Hn Hinv. eapply runs_mono.
  - apply (runs_iter _ (fun l t => inv n t /\ keeps s t /\ page_list_ t = page_list_ s /\
      (forall i, i ∈ l -> i ∈ page_list_ s) /\
      forall i, i ∈ page_list_ s -> i ∈ l \/ dirty (page_at t i) = false)).
    + split_and!; [done|done|done|done|by left].
    + intros i l t (Hi & HK & El & Hsub & Hrest). apply runs_bind.
      assert (i ∈ page_list_ t) as Hit by (rewrite El; apply Hsub; by left).
      eapply runs_mono; [eapply maybeWrite_runs; [done|apply Hi|by eapply linked_writable; [apply Hi|]]|].
      intros b t' [Hc' W]. apply runs_ret. split_and!.
      * by eapply wrote_inv.
      * transitivity t; [done|]. eapply wrote_keeps; [apply Hi|done..].
      * by rewrite (wr_list _ _ _ W).
      * intros j Hj. apply Hsub. by right.
      * intros j Hj. destruct (decide (j = i)) as [->|Hne]; [right; by rewrite (wr_page _ _ _ W)|].
        rewrite (wr_others _ _ _ W) by done. destruct (Hrest j Hj) as [[?|?]%elem_of_cons|?]; [done|by left|by right].
  - intros a s' (Hi & HK & El & _ & Hrest).
    assert (clean s') as Hcl by (intros i; rewrite El; intros [?%elem_of_nil|?]%Hrest; done).
    split_and!; [by eapply clean_inv|done..].
Qed.

(** *** Emptying the cache *)
Lemma drop_front_runs n s i l sy ie : 0 <= n -> core n s -> page_list_ s = i :: l ->
  (sy = true \/ clean s) ->
  runs (drop_front i sy ie) s (fun _ s' => core n s' /\ keeps s s' /\ wrote i (unlinked i s) s' /\ page_list_ s' = l).
Proof.
  intros Hn Hc E Hsy. destruct (unlink_core n s i l Hc E) as (Hc1 & El & Hw & Hil).
  unfold drop_front. apply runs_bind, runs_modify, runs_bind, runs_modify. fold (unlinked i s).
  destruct (maybeWrite_runs n (unlinked i s) i ie Hn Hc1 Hw) as (b & s' & Em & Hc' & W).
  assert (core n s' /\ keeps s s' /\ wrote i (unlinked i s) s' /\ page_list_ s' = l) as HQ.
  { split_and!; [done|by eapply evict_keeps|done|]. by rewrite (wr_list _ _ _ W). }
  destruct sy.
  - apply runs_bind. exists b, s'. split; [done|]. by apply runs_ret.
  - destruct Hsy as [|Hcl]; [done|]. assert (s' = unlinked i s) as ->.
    { unfold maybeWritePage_locked_context in Em. change (page_at (unlinked i s) i) with (page_at s i) in Em.
      rewrite Hcl in Em by (rewrite E; by left). by injection Em. }
    exists tt, (unlinked i s). by split.
Qed.

Lemma unlinked_clean s s' i l : page_list_ s = i :: l -> wrote i (unlinked i s) s' -> page_list_ s' = l ->
  clean s -> clean s'.
Proof.
  intros E W El Hcl j. rewrite El. intros Hj. destruct (decide (j = i)) as [->|Hne]; [by rewrite (wr_page _ _ _ W)|].
  rewrite (wr_others _ _ _ W) by done. apply Hcl. rewrite E. by right.
Qed.

Lemma clear_loop_runs n f s sy ie : 0 <= n -> core n s -> (length (page_list_ s) < f)%nat -> (sy = true \/ clean s) ->
  (forall i, (i < length (pages_ s))%nat -> i ∉ page_list_ s -> idle s i) ->
  runs (clear_loop f sy ie) s (fun _ s' => core n s' /\ keeps s s' /\ page_list_ s' = [] /\
    forall i, (i < length (pages_ s'))%nat -> idle s' i).
Proof.
  intros Hn. revert s. induction f as [|f IH]; intros s Hc Hf Hsy Hidle; [lia|].
  cbn [clear_loop]. apply runs_bind, runs_get. destruct (page_list_ s) as [|i l] eqn:E.
  - apply runs_ret. split_and!; [done..|]. intros i Hi. apply Hidle; [done|]. apply not_elem_of_nil.
  - apply runs_bind. eapply runs_mono; [by apply drop_front_runs with (n := n) (l := l)|].
    intros u s' (Hc' & HK & W & El). cbn in Hf. eapply runs_mono; [apply IH|].
    + done.
    + rewrite El. lia.
    + destruct Hsy as [|Hcl]; [by left|right]. by eapply unlinked_clean.
    + intros j. rewrite (k_length _ _ HK), El. intros Hj Hjl. eapply wrote_idle; [done|].
      destruct (decide (j = i)) as [->|Hne]; [by left|right]. apply Hidle; [done|]. by apply not_elem_of_cons.
    + intros a s'' (? & ? & ? & ?). split_and!; [done| |done..]. by transitivity s'.
Qed.

Lemma map_empty n s : core n s -> page_list_ s = [] -> page_map_ s = ∅.
Proof.
  intros Hc E. apply map_empty. intros pa. destruct (page_map_ s !! pa) as [i|] eqn:Ei; [|done].
  apply Hc in Ei as [Hi _]. rewrite E in Hi. by apply elem_of_nil in Hi.
Qed.

(** A store with nothing cached is its backend. *)
Lemma pview_uncached s pa : page_map_ s = ∅ -> pview s pa = base (backend_ s) pa.
Proof. intros E. unfold pview. by rewrite E, lookup_empty. Qed.

(** Fresh slots for a store with nothing cached. *)
Lemma fresh_slots_inv s (ps : list CachePage) :
  core 0 s -> page_list_ s = [] -> (forall i, (i < length (pages_ s))%nat -> idle s i) -> (0 < length ps)%nat ->
  Forall (fun p => length (data_ p) = cap /\ dirty p = false /\ written_clusters_since_last_backend_write p = 0 /\
    discarded_clusters_since_last_backend_write p = 0) ps ->
  inv 0 (with_pages ps s).
Proof.
  intros Hc El Hidle Hps HF.
  assert (forall j, (j < length ps)%nat -> length (data_ (page_at (with_pages ps s) j)) = cap /\ idle (with_pages ps s) j) as HF'.
  { intros j Hj. rewrite (Forall_nth _ blank_page) in HF. apply (HF j Hj). }
  assert (forall f : CachePage -> Z, (forall i, (i < length (pages_ s))%nat -> f (page_at s i) = 0) ->
    Forall (fun p => f p = 0) ps -> sumZ f (pages_ s) = sumZ f ps) as Hsum.
  { intros f H1 H2. rewrite (sumZ_zero f ps) by done. apply sumZ_zero, (Forall_nth _ blank_page). intros i Hi. by apply H1. }
  split; [|done|cbn; rewrite El; by intros j ?%elem_of_nil|by intros j Hj _; apply HF'].
  split; try apply Hc.
  - intros j Hj. by apply HF'.
  - etransitivity; [apply Hc|]. f_equal. apply Hsum; [by intros i [_ [? _]]%Hidle|].
    eapply Forall_impl; [exact HF|]. by intros p (? & ? & ? & ?).
  - etransitivity; [apply Hc|]. f_equal. apply Hsum; [by intros i [_ [_ ?]]%Hidle|].
    eapply Forall_impl; [exact HF|]. by intros p (? & ? & ? & ?).
  - cbn. rewrite El. by intros j ?%elem_of_nil.
  - cbn. rewrite El, (map_empty 0 s) by done. intros pa j. rewrite lookup_empty. split; [done|].
    by intros [?%elem_of_nil _].
  - cbn. rewrite El. by intros j ?%elem_of_nil.
Qed.

Lemma clear_page_list_runs n s sy ie : 0 <= n -> inv n s -> (sy = true \/ clean s) ->
  runs (write_dirty_pages_to_backend_and_clear_page_list page_bits sy ie) s (fun _ s' =>
    inv 0 s' /\ keeps s s' /\ page_list_ s' = [] /\ page_map_ s' = ∅ /\ forall i, (i < length (pages_ s'))%nat -> idle s' i).
Proof.
  intros Hn [Hc Hcap Hd Hidle] Hsy. unfold write_dirty_pages_to_backend_and_clear_page_list.
  apply runs_bind, runs_get, runs_bind.
  eapply runs_mono; [apply (clear_loop_runs n); [done|done|lia|done|done]|].
  intros a s1 (Hc1 & HK & El & Hi1). apply runs_bind, runs_get, runs_bind.
  pose proof (map_empty n s1 Hc1 El) as Em. exists tt, s1. split.
  { by rewrite bool_decide_eq_true_2, (c_num _ _ Hc1), El. }
  apply runs_modify.
  assert (inv 0 (with_pages (CachePage.reset page_bits <$> pages_ s1) s1)) as Hinv.
  { apply fresh_slots_inv; [|done|done| |].
    - eapply clean_core; [done|]. intros i. rewrite El. by intros ?%elem_of_nil.
    - rewrite length_fmap, (k_length _ _ HK). done.
    - apply Forall_fmap, (Forall_nth _ blank_page). intros i Hi. cbn.
      destruct (Hi1 i Hi) as (? & ? & ?). unfold cap. by rewrite length_replicate. }
  split_and!; [done| |done|done|].
  - transitivity s1; [done|]. split; try done; [|apply length_fmap]. intros pa.
    by rewrite !pview_uncached.
  - intros i Hi. apply Hinv; [done|]. cbn. rewrite El. apply not_elem_of_nil.
Qed.

Lemma set_cache_capacity_runs n s k : 0 <= n -> inv n s -> (0 < k)%nat ->
  runs (set_cache_capacity page_bits k) s (fun _ s' => inv n s' /\ length (pages_ s') = k /\
    (forall pa, same (pview s' pa) (pview s pa)) /\ corks_ s' = corks_ s /\ cork_uuid_ s' = cork_uuid_ s).
Proof.
  intros Hn Hinv Hk. unfold set_cache_capacity. apply runs_bind. exists tt, s. split.
  { by rewrite (proj2 (Nat.ltb_lt 0 k) Hk). }
  apply runs_bind, runs_get. destruct (Nat.eqb_spec k (length (pages_ s))) as [E|Hne]; cbn [negb].
  { apply runs_ret. by split_and!. }
  apply runs_bind. eapply runs_mono; [apply (clear_page_list_runs n); [done|done|by left]|].
  intros a s1 (Hi1 & HK & El & Em & Hidle). apply runs_modify.
  assert (length (init_pages_ page_bits k) = k) as Elen by (unfold init_pages_; by rewrite length_fmap, length_seq).
  split_and!; [|done| |apply HK|apply HK].
  - apply (inv_mono 0); [done|]. apply fresh_slots_inv; [apply Hi1|done|done|by rewrite Elen|].
    apply Forall_fmap, Forall_forall. intros i _. cbn. by rewrite length_replicate.
  - intros pa. rewrite <- (k_pages _ _ HK). by rewrite !pview_uncached.
Qed.

(** Pages that are dirty and hold something are written out, the list stays. *)
Lemma keep_list_runs n s : 0 <= n -> inv n s ->
  runs write_dirty_pages_to_backend_keeping_page_list s (fun _ s' => inv n s' /\ keeps s s').
Proof.
  intros Hn Hinv. unfold write_dirty_pages_to_backend_keeping_page_list. apply runs_bind, runs_get.
  eapply runs_mono.
  - apply (runs_iter _ (fun l t => inv n t /\ keeps s t /\ page_list_ t = page_list_ s /\
      forall i, i ∈ l -> i ∈ page_list_ s)); [by split_and!|].
    intros i l t (Hi & HK & El & Hsub). apply runs_bind, runs_get.
    assert (i ∈ page_list_ t) as Hit by (rewrite El; apply Hsub; by left).
    assert (forall j, j ∈ l -> j ∈ page_list_ s) as Hsub' by (intros j Hj; apply Hsub; by right).
    destruct (dirty (page_at t i) && negb (empty (page_at t i))); [|by apply runs_ret].
    apply runs_bind. eapply runs_mono; [by eapply (maybeWrite_runs n), linked_writable; try apply Hi|].
    intros b t1 [Hc1 W1]. pose proof (wrote_inv _ _ _ _ Hi Hit Hc1 W1) as Hi1.
    assert (i ∈ page_list_ t1) as Hit1 by (by rewrite (wr_list _ _ _ W1)).
    eapply runs_mono; [by eapply (put_page_runs n), linked_writable; try apply Hi1|].
    intros [] t2 [Hc2 W2]. split_and!; [by eapply wrote_inv| | |done].
    + transitivity t; [done|]. transitivity t1; eapply wrote_keeps; [apply Hi|done|done|apply Hi1|done|done].
    + by rewrite (wr_list _ _ _ W2), (wr_list _ _ _ W1).
  - by intros a s' (? & ? & ?).
Qed.

(** A clean store is on its backend. *)
Lemma clean_durable n s pa : core n s -> clean s -> same (pview s pa) (base (backend_ s) pa).
Proof.
  intros Hc Hcl. unfold pview. destruct (page_map_ s !! pa) as [i|] eqn:E; [|done].
  apply Hc in E as [Hi <-]. by apply (c_linked _ _ Hc i Hi), Hcl.
Qed.

(** *** The number of clusters in use *)

(** What the backend would hold if all pages were written out. *)
Definition flat (s : Store) : page_map :=
  foldr (fun i m => <[page_address_ (page_at s i) := data_ (page_at s i)]> m) (stored (backend_ s)) (page_list_ s).

Lemma flat_lookup n s pa : core n s -> default zeros (flat s !! pa) = pview s pa.
Proof.
  intros Hc. unfold flat, pview.
  assert (forall l, (forall i, i ∈ l -> i ∈ page_list_ s) ->
    (foldr (fun i m => <[page_address_ (page_at s i) := data_ (page_at s i)]> m) (stored (backend_ s)) l) !! pa =
    match page_map_ s !! pa with
    | Some i => if decide (i ∈ l) then Some (data_ (page_at s i)) else stored (backend_ s) !! pa
    | None => stored (backend_ s) !! pa
    end) as H.
  { induction l as [|i l IH]; intros Hl; cbn [foldr].
    - destruct (page_map_ s !! pa); [|done]. case_decide as D; [by apply elem_of_nil in D|done].
    - rewrite (lookup_insert (M := gmap Z)), IH by (intros j Hj; apply Hl; by right).
      assert (page_map_ s !! page_address_ (page_at s i) = Some i) as Ei by (apply Hc; split; [apply Hl; by left|done]).
      case_decide as Ea.
      + subst pa. rewrite Ei. case_decide as D; [done|]. destruct D. by left.
      + destruct (page_map_ s !! pa) as [j|] eqn:Ej; [|done].
        assert (j <> i) as Hne by (intros ->; apply Hc in Ej as [_ ?]; done).
        apply decide_ext. rewrite elem_of_cons. split; [by right|by intros [?|?]]. }
  rewrite H by done. destruct (page_map_ s !! pa) as [i|] eqn:E; [|done].
  case_decide as D; [done|]. apply Hc in E as [? _]. done.
Qed.

Lemma used_of_flat n s : core n s ->
  used_of (flat s) = used_of (stored (backend_ s)) +
    (sumZ (fun i => written_clusters_since_last_backend_write (page_at s i)) (page_list_ s) -
     sumZ (fun i => discarded_clusters_since_last_backend_write (page_at s i)) (page_list_ s)).
Proof.
  intros Hc. unfold flat.
  assert (forall l, NoDup l -> (forall i, i ∈ l -> i ∈ page_list_ s) ->
    let m := foldr (fun i m => <[page_address_ (page_at s i) := data_ (page_at s i)]> m) (stored (backend_ s)) l in
    (forall i, i ∈ page_list_ s -> i ∉ l ->
       m !! page_address_ (page_at s i) = stored (backend_ s) !! page_address_ (page_at s i)) /\
    used_of m = used_of (stored (backend_ s)) +
      (sumZ (fun i => written_clusters_since_last_backend_write (page_at s i)) l -
       sumZ (fun i => discarded_clusters_since_last_backend_write (page_at s i)) l)) as H.
  { induction 1 as [|i l Hi Hl IH]; intros Hsub; cbn [foldr sumZ]; [split; [done|lia]|].
    destruct IH as [IH1 IH2]; [intros j Hj; apply Hsub; by right|].
    assert (i ∈ page_list_ s) as Hil by (apply Hsub; by left). split.
    - intros j Hj [Hne Hjl]%not_elem_of_cons. rewrite lookup_insert_ne; [by apply IH1|].
      intros E. by apply (wa_alone _ _ _ (linked_writable _ _ _ Hc Hil) j Hj Hne).
    - cbv zeta in *. rewrite used_of_insert, IH2. unfold nonnull_at. rewrite IH1 by done.
      fold (nonnull_at (stored (backend_ s)) (page_address_ (page_at s i))). rewrite <- nonnull_base.
      pose proof (pi_delta _ _ _ (c_linked _ _ Hc i Hil)). unfold sumZ. lia. }
  by apply H; [apply Hc|].
Qed.

Lemma sumZ_app {A} (f : A -> Z) l1 l2 : sumZ f (l1 ++ l2) = sumZ f l1 + sumZ f l2.
Proof. unfold sumZ. induction l1 as [|a l1 IH]; cbn; lia. Qed.

#[global] Instance sumZ_perm {A} (f : A -> Z) : Proper ((≡ₚ) ==> eq) (sumZ f).
Proof. unfold sumZ. induction 1; cbn; lia. Qed.

Lemma sumZ_fmap {A C} (g : A -> C) (f : C -> Z) l : sumZ f (g <$> l) = sumZ (fun a => f (g a)) l.
Proof. unfold sumZ. induction l as [|a l IH]; cbn; [done|]. f_equal. exact IH. Qed.

Lemma pages_seq (s : Store) : pages_ s = page_at s <$> seq 0 (length (pages_ s)).
Proof.
  apply list_eq. intros i. rewrite list_lookup_fmap. destruct (decide (i < length (pages_ s))%nat) as [Hi|Hi].
  - rewrite lookup_seq_lt by done. cbn. unfold page_at. rewrite nth_lookup.
    by destruct (lookup_lt_is_Some_2 _ _ Hi) as [p ->].
  - rewrite lookup_seq_ge, lookup_ge_None_2 by lia. done.
Qed.

Lemma list_perm n s : inv n s -> page_list_ s ≡ₚ seq 0 (num_pages_ s).
Proof.
  intros Hi. pose proof (i_core _ _ Hi) as Hc. apply submseteq_length_Permutation.
  - apply NoDup_submseteq; [apply Hc|]. intros i H%(i_dense _ _ Hi). apply elem_of_seq. lia.
  - rewrite length_seq, (c_num _ _ Hc). done.
Qed.

(** A count that slots out of use have none of may be taken over the list. *)
Lemma sum_list n s (f : CachePage -> Z) : inv n s ->
  (forall i, (i < length (pages_ s))%nat -> i ∉ page_list_ s -> f (page_at s i) = 0) ->
  sumZ f (pages_ s) = sumZ (fun i => f (page_at s i)) (page_list_ s).
Proof.
  intros Hi Hf. pose proof (i_core _ _ Hi) as Hc. rewrite (list_perm n s Hi), (pages_seq s), sumZ_fmap.
  assert (num_pages_ s <= length (pages_ s))%nat as Hle.
  { rewrite (c_num _ _ Hc). apply NoDup_bounded; apply Hc. }
  replace (length (pages_ s)) with (num_pages_ s + (length (pages_ s) - num_pages_ s))%nat by lia.
  rewrite seq_app, sumZ_app. rewrite (sumZ_zero _ (seq (0 + _) _)); [lia|].
  apply Forall_forall. intros i Hs%elem_of_seq. apply Hf; [lia|]. intros H%(i_dense _ _ Hi). lia.
Qed.

Lemma flat_ok n s pa d : core n s -> flat s !! pa = Some d -> addr_ok pa /\ length d = cap.
Proof.
  intros Hc. unfold flat.
  assert (forall l, (forall i, i ∈ l -> i ∈ page_list_ s) ->
    (foldr (fun i m => <[page_address_ (page_at s i) := data_ (page_at s i)]> m) (stored (backend_ s)) l) !! pa = Some d ->
    addr_ok pa /\ length d = cap) as H; [|by apply H].
  induction l as [|i l IH]; cbn [foldr]; intros Hl; [apply Hc|].
  intros [[<- <-]|[_ E]]%lookup_insert_Some.
  - assert (i ∈ page_list_ s) as Hi by (apply Hl; by left). split; [by apply (c_linked _ _ Hc i Hi)|].
    by apply Hc, Hc.
  - apply IH; [|done]. intros j Hj. apply Hl. by right.
Qed.

(** [getStats] counts the clusters in use, whatever was written out so far. *)
Lemma used_clusters_flat n s : inv n s -> used_clusters s = used_of (flat s).
Proof.
  intros Hi. pose proof (i_core _ _ Hi) as Hc. unfold used_clusters.
  rewrite (c_written _ _ Hc), (c_discarded _ _ Hc), (bi_used _ (c_backend _ _ Hc)).
  unfold sum_written, sum_discarded.
  rewrite !(sum_list n s) by (done || (intros i H1 H2; by apply (i_idle _ _ Hi i H1 H2))).
  rewrite <- wrap_add_l, wrap_sub_l, wrap_sub_r, wrap_add_l.
  rewrite <- (wrap_id 64 (used_of (flat s))).
  - rewrite (used_of_flat n s Hc). f_equal. lia.
  - pose proof (used_bounds (flat s) (fun pa d => flat_ok n s pa d Hc)). unfold fits. lia.
Qed.

End StoreFacts.
End StoreFacts.
