(* ===== verification/MetaDataTheorems.v ===== *)
(** * What the cached metadata store promises

    The store stands for one map from cluster addresses to locations, [view]:
    the corks, latest first, over the cached pages, over the backend.  The
    theorems say what each operation does to that map, that none of the
    assertions of the code fires on a backend that works, and that what was
    uncorked is on the backend. *)

From S2P Require Import Prelude Addressing TLogEntry TLogs PageGenerator MetaDataStore MetaDataBackends MetaDataFacts.
From Stdlib Require Import Sorted.

(** ** Ordered maps *)
Module OMapFacts.
Section OMapFacts.
Context {V : Type}.
Implicit Types m : list (Z * V).

Lemma find_insert k v m k' : OMap.find k' (OMap.insert k v m) = if decide (k' = k) then Some v else OMap.find k' m.
Proof.
  induction m as [|[a x] m IH]; cbn.
  - case_decide as E; [subst; by rewrite Z.eqb_refl|]. by rewrite (proj2 (Z.eqb_neq _ _) E).
  - destruct (Z.ltb_spec k a); [|destruct (Z.eqb_spec k a) as [->|]]; cbn.
    + case_decide as E; [subst; by rewrite Z.eqb_refl|]. by rewrite (proj2 (Z.eqb_neq _ _) E).
    + case_decide as E; [subst; by rewrite Z.eqb_refl|]. by rewrite (proj2 (Z.eqb_neq _ _) E).
    + rewrite IH. case_decide as E; [|done]. subst. by rewrite (proj2 (Z.eqb_neq k a)) by done.
Qed.

Lemma insert_keys k v m y : y ∈ fst <$> OMap.insert k v m -> y = k \/ y ∈ fst <$> m.
Proof.
  induction m as [|[a x] m IH]; cbn.
  - intros [->|?]%elem_of_cons; [by left|by right].
  - destruct (k <? a); [|destruct (k =? a)]; cbn.
    + intros [->|?]%elem_of_cons; [by left|by right].
    + intros [->|?]%elem_of_cons; [by left|]. right. by apply elem_of_cons; right.
    + intros [->|[->|?]%IH]%elem_of_cons; [right; by left|by left|]. right. by apply elem_of_cons; right.
Qed.

Lemma insert_sorted k v m : OMap.sorted m -> OMap.sorted (OMap.insert k v m).
Proof.
  unfold OMap.sorted. induction m as [|[a x] m IH]; cbn; [by intros _; repeat constructor|].
  intros [Hs Ha]%StronglySorted_inv. rewrite Forall_forall in Ha.
  destruct (Z.ltb_spec k a); [|destruct (Z.eqb_spec k a) as [->|]]; cbn.
  - constructor; [by constructor; [|apply Forall_forall]|]. constructor; [lia|]. apply Forall_forall.
    intros y Hy. pose proof (Ha y Hy). cbn in *. lia.
  - by constructor; [|apply Forall_forall].
  - constructor; [by apply IH|]. apply Forall_forall. intros y Hy.
    apply insert_keys in Hy as [->|Hy]; [lia|]. by apply Ha.
Qed.

Lemma find_elem k m v : OMap.find k m = Some v -> (k, v) ∈ m.
Proof.
  induction m as [|[a x] m IH]; cbn; [done|]. destruct (Z.eqb_spec k a) as [->|]; intros E; [injection E as ->; by left|].
  right. by apply IH.
Qed.

Lemma omap_find_none k m : k ∉ fst <$> m -> OMap.find k m = None.
Proof.
  induction m as [|[a x] m IH]; cbn; [done|]. intros [Hne Hm]%not_elem_of_cons.
  rewrite (proj2 (Z.eqb_neq k a)) by done. by apply IH.
Qed.

Lemma insert_elem k v m e : e ∈ OMap.insert k v m -> e = (k, v) \/ e ∈ m.
Proof.
  induction m as [|[a x] m IH]; cbn; [intros ->%list_elem_of_singleton; by left|].
  destruct (k <? a); [|destruct (k =? a)]; intros [->|H]%elem_of_cons; auto.
  - right. by right.
  - right. by left.
  - destruct (IH H) as [?|?]; [by left|right]. by right.
Qed.

Lemma sorted_head k v m : OMap.sorted ((k, v) :: m) -> OMap.sorted m /\ k ∉ fst <$> m.
Proof.
  intros [Hs Hk]%StronglySorted_inv. split; [done|]. rewrite Forall_forall in Hk.
  intros H%Hk. cbn in H. lia.
Qed.
End OMapFacts.
End OMapFacts.

(** ** Relocations, on a map *)
Module Relocations.
Import ClusterLocation CLH PageFacts PageGeneratorFacts.
Section Relocations.
Variable zero_weed : Weed.
Abbreviation norm := (norm zero_weed).

Definition upd (f : Z -> ClusterLocationAndHash) (ca : Z) (l : ClusterLocationAndHash) : Z -> ClusterLocationAndHash :=
  fun ca' => if decide (ca' = ca) then l else f ca'.

(** One relocation: an entry that still has the old location gets the new one. *)
Definition relocate (scid : Z) (f : Z -> ClusterLocationAndHash) (p : Entry.Entry * Entry.Entry) : Z -> ClusterLocationAndHash :=
  let a := Entry.clusteraddress_ (fst p) in
  if ClusterLocation.eqb (clusterLocation (f a)) (ClusterLocation.set_cloneID scid (Entry.clusterLocation_ (fst p)))
  then upd f a (CLH.set_cloneID scid (Entry.clusterLocationAndHash (snd p)))
  else f.

Definition reloc_ok (p : Entry.Entry * Entry.Entry) : Prop :=
  loc_entry (fst p) /\ loc_entry (snd p) /\ Entry.clusteraddress_ (fst p) = Entry.clusteraddress_ (snd p).

Definition unpair (ps : list (Entry.Entry * Entry.Entry)) : list Entry.Entry := concat ((fun p => [fst p; snd p]) <$> ps).

(** A location that is not null is compared as it is read. *)
Lemma eqb_norm l l' : isNull l' = false ->
  ClusterLocation.eqb (clusterLocation (norm l)) l' = ClusterLocation.eqb (clusterLocation l) l'.
Proof.
  intros Hn. unfold PageFacts.norm. destruct (isNull (clusterLocation l)) eqn:E; [|done].
  assert (forall x, isNull x = true -> ClusterLocation.eqb x l' = false) as H; [|by rewrite !H].
  intros x Hx. destruct (ClusterLocation.eqb x l') eqn:Eq; [|done]. exfalso.
  unfold isNull, number in *. unfold ClusterLocation.eqb, SCO.eqb in Eq. apply Z.eqb_eq in Hx. apply Z.eqb_neq in Hn.
  lia.
Qed.

(** Relocations only look at the map through [norm]. *)
Lemma relocate_ext scid f g ps : Forall reloc_ok ps ->
  (forall ca, fits 35 ca -> norm (f ca) = norm (g ca)) -> forall ca, fits 35 ca ->
  norm (fold_left (relocate scid) ps f ca) = norm (fold_left (relocate scid) ps g ca).
Proof.
  revert f g. induction ps as [|p ps IH]; intros f g Hok Hfg; [done|]. apply Forall_cons in Hok as [Hp Hok].
  cbn [fold_left]. apply IH; [done|]. intros ca Hca. unfold relocate. destruct Hp as (Ho & _ & _).
  rewrite <- (eqb_norm (f _)), <- (eqb_norm (g _)), Hfg by apply Ho.
  destruct (ClusterLocation.eqb _ _); [|by apply Hfg]. unfold upd. case_decide; [done|]. by apply Hfg.
Qed.

End Relocations.
End Relocations.

(** ** The store *)
Module StoreTheory.
Import ClusterLocation CLH CachePage TLog Backend CachedMetaDataStore PageFacts StoreFacts OMapFacts PageGeneratorFacts Relocations.

Section StoreTheory.
Variable page_bits : Z.
Variable zero_weed : Weed.
Context {B : Type} {I : MetaDataBackendInterface B} {SP : MetaDataBackendSpec page_bits B}.
Hypothesis Hbits : 0 <= page_bits < 31.

Abbreviation Store := (Store B).
Abbreviation norm := (norm zero_weed).
Abbreviation inv := (inv page_bits zero_weed).
Abbreviation keeps := (keeps page_bits zero_weed).
Abbreviation pentry := (pentry page_bits).
Abbreviation flat := (flat page_bits).

(** *** Corks *)

(** Entries of a cork say "nothing here" in the one way readers know. *)
Definition cork_entry_ok (e : Z * ClusterLocationAndHash) : Prop := fits 35 (fst e) /\ norm (snd e) = snd e.
Definition cork_ok (c : UUID * list (Z * ClusterLocationAndHash)) : Prop :=
  OMap.sorted (snd c) /\ Forall cork_entry_ok (snd c).

Record good (n : Z) (s : Store) : Prop := {
  g_inv : inv n s;
  g_corks : Forall cork_ok (corks_ s) }.

Definition view (s : Store) (ca : Z) : ClusterLocationAndHash :=
  match find_in_corks ca (rev (corks_ s)) with
  | Some l => l
  | None => norm (pentry s ca)
  end.

Lemma find_in_corks_app ca c1 c2 :
  find_in_corks ca (c1 ++ c2) = match find_in_corks ca c1 with Some l => Some l | None => find_in_corks ca c2 end.
Proof. induction c1 as [|[u m] c1 IH]; cbn; [done|]. by destruct (OMap.find ca m). Qed.

Lemma write_last_app ca l cs u m : write_last ca l (cs ++ [(u, m)]) = cs ++ [(u, OMap.insert ca l m)].
Proof.
  induction cs as [|c cs IH]; [done|]. change ((c :: cs) ++ [(u, m)]) with (c :: (cs ++ [(u, m)])).
  cbn [write_last]. rewrite IH. destruct c as [u' m']. by destruct cs.
Qed.

Lemma keeps_view s s' ca : keeps s s' -> view s' ca = view s ca.
Proof. intros HK. unfold view. rewrite (k_corks _ _ _ _ HK). by rewrite (keeps_entry _ _ _ _ _ HK). Qed.

Lemma keeps_good n s s' : good n s -> inv n s' -> keeps s s' -> good n s'.
Proof. intros [_ Hc] Hi HK. split; [done|]. by rewrite (k_corks _ _ _ _ HK). Qed.

(** *** Reading *)
Lemma readCluster_runs n s ca : 0 <= n -> good n s -> fits 35 ca ->
  runs (readCluster page_bits zero_weed ca) s (fun l s' => l = view s ca /\ good n s' /\ keeps s s').
Proof.
  intros Hn Hg Hca. unfold readCluster. apply runs_bind, runs_get. unfold view.
  destruct (find_in_corks ca (rev (corks_ s))) as [l|].
  - apply runs_bind, runs_modify, runs_ret. split_and!; [done| |apply keeps_stats].
    eapply keeps_good; [done| |apply keeps_stats]. apply inv_stats, Hg.
  - apply runs_bind. eapply runs_mono; [apply get_runs with (n := n); [done|done|apply Hg|done]|].
    intros [l h] s' (Hi & HK & El). cbn [fst] in El. subst l. rewrite <- (keeps_entry _ _ _ _ _ HK).
    unfold PageFacts.norm, use_hash. cbn [andb].
    destruct (isNull (clusterLocation (pentry s' ca))) eqn:E; apply runs_ret;
      (split_and!; [done|by eapply keeps_good|done]).
Qed.

(** *** Writing *)
Lemma writeCluster_runs n s ca l : good n s -> cork_entry_ok (ca, l) -> corks_ s <> [] ->
  runs (writeCluster ca l) s (fun _ s' => good n s' /\
    (forall ca', view s' ca' = if decide (ca' = ca) then l else view s ca') /\
    fst <$> corks_ s' = fst <$> corks_ s /\ cork_uuid_ s' = cork_uuid_ s /\ pages_ s' = pages_ s /\ backend_ s' = backend_ s).
Proof.
  intros [Hi Hc] He Hne. unfold writeCluster. apply runs_bind, runs_get, runs_bind. exists tt, s. split.
  { destruct (Nat.eqb_spec (length (corks_ s)) 0) as [E|]; [|done]. by apply nil_length_inv in E. }
  apply runs_modify. destruct (exists_last Hne) as [cs [[u m] E]].
  rewrite E in Hc.
  apply Forall_app in Hc as [Hcs [[Hms Hme] _]%Forall_cons]. split_and!; try done.
  - split; [by destruct Hi as [[] ? ? ?]; split; [split|..]|]. cbn [with_corks corks_]. rewrite E, write_last_app.
    apply Forall_app. split; [done|]. apply Forall_cons. split; [|done]. split; [by apply insert_sorted|].
    apply Forall_forall. cbn. intros e [->|H]%insert_elem; [done|]. rewrite Forall_forall in Hme. by apply Hme.
  - intros ca'. unfold view. cbn [with_corks corks_]. rewrite E, write_last_app, !rev_unit. cbn [find_in_corks snd].
    rewrite find_insert. by case_decide.
  - cbn [with_corks corks_]. by rewrite E, write_last_app, !fmap_app.
Qed.

Lemma writeCluster_uncorked (s : Store) ca l : corks_ s = [] -> writeCluster ca l s = (s, Throw AssertFailed).
Proof. intros E. unfold writeCluster, mbind, mget, fail_unless. by rewrite E. Qed.

(** *** Corking *)
Lemma cork_runs n s c : good n s ->
  runs (cork c) s (fun _ s' => good n s' /\ (forall ca, view s' ca = view s ca) /\ cork_uuid_ s' = cork_uuid_ s /\
    corks_ s' = (if decide (fst <$> last (corks_ s) = Some c) then corks_ s else corks_ s ++ [(c, [])])).
Proof.
  intros [Hi Hc]. unfold cork. apply runs_modify.
  assert ((match last (corks_ s) with Some (u, _) => u =? c | None => false end) =
          bool_decide (fst <$> last (corks_ s) = Some c)) as ->.
  { destruct (last (corks_ s)) as [[u m]|]; cbn; [|done]. destruct (Z.eqb_spec u c) as [->|Hne].
    - by rewrite bool_decide_eq_true_2.
    - rewrite bool_decide_eq_false_2; [done|]. by intros [= ->]. }
  case_bool_decide as E.
  - rewrite decide_True by done. by split_and!.
  - rewrite decide_False by done. split_and!; [|intros ca; unfold view; cbn; by rewrite rev_unit|done..].
    split; [by destruct Hi as [[] ? ? ?]; split; [split|..]|]. cbn. apply Forall_app. split; [done|].
    apply Forall_cons. split; [|done]. split; [constructor|constructor].
Qed.

(** *** Uncorking *)
Record moved (m : list (Z * ClusterLocationAndHash)) (s s' : Store) : Prop := {
  m_entries : forall ca, fits 35 ca -> norm (pentry s' ca) =
    match OMap.find ca m with Some l => norm l | None => norm (pentry s ca) end;
  m_corks : corks_ s' = corks_ s;
  m_uuid : cork_uuid_ s' = cork_uuid_ s;
  m_length : length (pages_ s') = length (pages_ s) }.

Lemma move_runs n s m : 0 <= n -> n + Z.of_nat (length m) < 2 ^ 32 -> inv n s ->
  OMap.sorted m -> Forall cork_entry_ok m ->
  runs (miter (fun e => put_cluster_location page_bits (fst e) (snd e) ;! mret tt) m) s
    (fun _ s' => inv (n + Z.of_nat (length m)) s' /\ moved m s s').
Proof.
  revert n s. induction m as [|[ca l] m IH]; intros n s Hn Hb Hi Hs Hok.
  - apply runs_ret. cbn. rewrite Z.add_0_r. by split.
  - apply sorted_head in Hs as [Hs Hca]. apply Forall_cons in Hok as [[Hfit Hl] Hok]. cbn [length fst snd] in *.
    cbn [miter]. apply runs_bind, runs_bind. eapply runs_mono; [apply put_runs with (n := n); [exact Hbits|exact Hn|lia|exact Hi|exact Hfit]|].
    intros hit s1 [Hi1 HP]. apply runs_ret.
    eapply runs_mono; [apply (IH (n + 1)); [lia|lia|done..]|]. intros [] s2 [Hi2 HM]. cbn [length] in *.
    replace (n + Z.of_nat (S (length m))) with (n + 1 + Z.of_nat (length m)) by lia. split; [done|].
    destruct HM as [He Hco Hu Hle]. destruct HP as [HP1 HP2 HP3 HP4 HP5 HP6 HP7]. split; try congruence.
    intros ca' Hfit'. rewrite He by done.
    pose proof (puts_entry page_bits zero_weed Hbits n s s1 ca l ca' (i_core _ _ _ _ Hi) (proj1 Hfit) (proj1 Hfit')
      (Build_puts _ _ _ _ _ _ HP1 HP2 HP3 HP4 HP5 HP6 HP7)) as E. cbn [OMap.find].
    destruct (Z.eqb_spec ca' ca) as [->|Hne].
    + rewrite (omap_find_none ca m Hca), E. by rewrite decide_True.
    + rewrite E, decide_False by done. done.
Qed.

(** A change of the backend that leaves its pages alone. *)
Lemma swap_backend n s b' : inv n s -> ready b' -> stored b' = stored (backend_ s) ->
  getUsedClusters b' = getUsedClusters (backend_ s) -> in_parent b' = in_parent (backend_ s) ->
  inv n (with_backend b' s) /\
  (forall pa, PageFacts.same zero_weed (pview page_bits (with_backend b' s) pa) (pview page_bits s pa)) /\ (clean s -> clean (with_backend b' s)).
Proof.
  intros [Hc Hcap Hd Hidle] Hr Hs Hu Hp.
  assert (forall pa, base page_bits b' pa = base page_bits (backend_ s) pa) as Hb by (intros pa; unfold base; by rewrite Hs).
  assert (backend_inv page_bits b') as Hbi.
  { destruct (c_backend _ _ _ _ Hc) as [_ H1 H2]. split; rewrite ?Hs, ?Hu; done. }
  split_and!; [|intros pa; unfold pview; change (page_map_ (with_backend b' s)) with (page_map_ s);
    destruct (page_map_ s !! pa); [done|]; change (backend_ (with_backend b' s)) with b'; by rewrite Hb|done].
  split; try done. destruct Hc as [? ? ? ? ? ? ? ? Hl]. split; try done.
  intros i Hi. eapply page_inv_base; [by apply Hl|apply Hb].
Qed.

Lemma on_backend_runs {A} (m : M B A) (s : Store) b a Q :
  m (backend_ s) = (b, Ok a) -> Q a (with_backend b s) -> runs (on_backend m) s Q.
Proof. intros E HQ. exists a, (with_backend b s). split; [|done]. unfold on_backend. by rewrite E. Qed.

Record uncorked (u : UUID) (m : list (Z * ClusterLocationAndHash)) (rest : list (UUID * list (Z * ClusterLocationAndHash)))
    (s s' : Store) : Prop := {
  u_good : good 0 s';
  u_clean : clean s';
  u_view : forall ca, fits 35 ca -> view s' ca = view s ca;
  u_pages : forall ca, fits 35 ca -> norm (pentry s' ca) =
    match OMap.find ca m with Some l => l | None => norm (pentry s ca) end;
  u_corks : corks_ s' = rest;
  u_uuid : cork_uuid_ s' = Some u;
  u_length : length (pages_ s') = length (pages_ s);
  u_backend : cork_of (backend_ s') = Some u }.

Lemma find_ok ca m l : Forall cork_entry_ok m -> OMap.find ca m = Some l -> norm l = l.
Proof. rewrite Forall_forall. intros H E%find_elem%H. apply E. Qed.

Lemma unCork_runs n s c u m rest : 0 <= n -> good n s -> corks_ s = (u, m) :: rest -> rest <> [] ->
  (forall u', c = Some u' -> u' = u) -> n + Z.of_nat (length m) < 2 ^ 32 ->
  runs (unCork page_bits c) s (fun _ s' => uncorked u m rest s s').
Proof.
  intros Hn [Hi Hc] E Hrest Hcu Hb. rewrite E in Hc. apply Forall_cons in Hc as [[Hms Hme] Hrc]. cbn [snd] in *.
  unfold unCork. apply runs_bind, runs_get, runs_bind. exists tt, s. split.
  { destruct c as [u'|]; [|done]. rewrite E, (Hcu u' eq_refl). cbn. by rewrite Z.eqb_refl. }
  rewrite E. apply runs_bind. exists tt, s. split.
  { destruct (Nat.eqb_spec (length rest) 0) as [El|]; [|done]. by apply nil_length_inv in El. }
  apply runs_bind. eapply runs_mono; [by apply (move_runs n)|]. intros [] s1 [Hi1 HM].
  apply runs_bind, runs_get, runs_bind. eapply runs_mono; [eapply flush_runs; [done| |exact Hi1]; lia|].
  intros [] s2 (Hi2 & HK & Hcl). apply runs_bind.
  destruct (setCork_spec u (backend_ s2)) as (b' & Eb & R & Hco & Hsc & Hst & Hpa & Hus); [apply Hi2|].
  destruct (swap_backend 0 s2 b') as (Hi3 & HK3 & Hcl3); [done..|].
  eapply on_backend_runs; [exact Eb|]. apply runs_modify.
  assert (corks_ s2 = (u, m) :: rest) as E2 by (rewrite (k_corks _ _ _ _ HK), (m_corks _ _ _ HM); done).
  set (s3 := with_backend b' s2) in *.
  assert (forall ca, fits 35 ca -> norm (pentry s3 ca) =
    match OMap.find ca m with Some l => l | None => norm (pentry s ca) end) as Hp.
  { intros ca Hca. rewrite (pages_entry _ _ _ _ _ HK3), (keeps_entry _ _ _ _ _ HK), (m_entries _ _ _ HM ca Hca).
    destruct (OMap.find ca m) eqn:Ef; [|done]. by eapply find_ok. }
  assert (tail (corks_ s3) = rest) as Et by (unfold s3; cbn [with_backend corks_]; by rewrite E2).
  split; try done.
  - split; [by destruct Hi3 as [[] ? ? ?]; split; [split|..]|]. cbn [with_corks corks_]. by rewrite Et.
  - intros ca Hca. unfold view. cbn [with_corks corks_]. rewrite Et, E. cbn [rev]. rewrite find_in_corks_app.
    destruct (find_in_corks ca (rev rest)); [done|]. cbn [find_in_corks snd].
    change (pentry (with_corks (Some u) rest s3) ca) with (pentry s3 ca). rewrite Hp by done.
    by destruct (OMap.find ca m).
  - cbn [with_corks pages_]. by rewrite <- (m_length _ _ _ HM), <- (k_length _ _ _ _ HK).
Qed.

(** *** Uncorking something else *)
Lemma unCork_refused (s : Store) c u' : c = Some u' -> fst <$> head (corks_ s) <> Some u' ->
  unCork page_bits c s = (s, Throw VerifyFailed).
Proof.
  intros -> Hne. unfold unCork, mbind, mget, fail_unless, mthrow.
  destruct (corks_ s) as [|[u m] r]; [done|]. cbn in *. destruct (Z.eqb_spec u u') as [->|]; done.
Qed.

Lemma unCork_single (s : Store) c u m : corks_ s = [(u, m)] -> (forall u', c = Some u' -> u' = u) ->
  unCork page_bits c s = (s, Throw VerifyFailed).
Proof.
  intros E Hc. unfold unCork, mbind, mget, fail_unless, mthrow, mret. rewrite E. destruct c as [u'|]; [|done].
  rewrite (Hc u' eq_refl). cbn. by rewrite Z.eqb_refl.
Qed.

(** *** The map, abstractly

    One map, the names of the open corks and the last one closed: neither
    caching, nor pages, nor the backend. *)
Record MapSpec : Type := mkSpec {
  a_map : Z -> ClusterLocationAndHash;
  a_names : list UUID;
  a_last : option UUID }.

Inductive op : Type :=
  | Read (ca : Z)
  | Write (ca : Z) (l : ClusterLocationAndHash)
  | Discard (ca : Z)
  | Cork (c : UUID)
  | UnCork (c : option UUID)
  | SetCapacity (k : nat).

Inductive answer : Type :=
  | Location (l : ClusterLocationAndHash)
  | Success
  | Failure (e : exn).

Definition answered {A} (f : A -> answer) (x : Store * res A) : Store * answer :=
  (fst x, match snd x with Ok a => f a | Throw e => Failure e end).

Definition exec (o : op) (s : Store) : Store * answer :=
  match o with
  | Read ca => answered Location (readCluster page_bits zero_weed ca s)
  | Write ca l => answered (fun _ => Success) (writeCluster ca l s)
  | Discard ca => answered (fun _ => Success) (discardCluster zero_weed ca s)
  | Cork c => answered (fun _ => Success) (cork c s)
  | UnCork c => answered (fun _ => Success) (unCork page_bits c s)
  | SetCapacity k => answered (fun _ => Success) (set_cache_capacity page_bits k s)
  end.

Definition spec_write (ca : Z) (l : ClusterLocationAndHash) (a : MapSpec) : MapSpec * answer :=
  match a_names a with
  | [] => (a, Failure AssertFailed)
  | _ => (mkSpec (fun ca' => if decide (ca' = ca) then l else a_map a ca') (a_names a) (a_last a), Success)
  end.

Definition spec_exec (o : op) (a : MapSpec) : MapSpec * answer :=
  match o with
  | Read ca => (a, Location (a_map a ca))
  | Write ca l => spec_write ca l a
  | Discard ca => spec_write ca (discarded_location_and_hash zero_weed) a
  | Cork c =>
      (mkSpec (a_map a) (if decide (last (a_names a) = Some c) then a_names a else a_names a ++ [c]) (a_last a), Success)
  | UnCork c =>
      if match c with Some u => bool_decide (head (a_names a) <> Some u) | None => false end then (a, Failure VerifyFailed)
      else match a_names a with
           | [] => (a, Failure UndefinedBehaviour)
           | [u] => (a, Failure VerifyFailed)
           | u :: rest => (mkSpec (a_map a) rest (Some u), Success)
           end
  | SetCapacity k => (a, if (0 <? k)%nat then Success else Failure VerifyFailed)
  end.

Definition op_ok (o : op) : Prop :=
  match o with
  | Read ca | Discard ca => fits 35 ca
  | Write ca l => cork_entry_ok (ca, l)
  | _ => True
  end.

Definition run_step {S} (step : op -> S -> S * answer) (x : S * list answer) (o : op) : S * list answer :=
  let '(s, r) := x in let '(s', a) := step o s in (s', r ++ [a]).

(** A sequence of operations, with all answers. *)
Definition run {S} (step : op -> S -> S * answer) (os : list op) (s : S) : S * list answer :=
  fold_left (run_step step) os (s, []).

(** The store stands for the map; no cork has more than [k] entries. *)
Record stands_for (k : nat) (s : Store) (a : MapSpec) : Prop := {
  sf_good : good 0 s;
  sf_view : forall ca, fits 35 ca -> view s ca = a_map a ca;
  sf_names : fst <$> corks_ s = a_names a;
  sf_last : cork_uuid_ s = a_last a;
  sf_size : Forall (fun c => (length (snd c) <= k)%nat) (corks_ s) }.

Lemma runs_answered {A} (f : A -> answer) (m : M Store A) s Q (P : Store * answer -> Prop) :
  runs m s Q -> (forall a s', Q a s' -> P (s', f a)) -> P (answered f (m s)).
Proof. intros (a & s' & E & HQ) HP. unfold answered. rewrite E. by apply HP. Qed.

Lemma sf_mono k k' s a : (k <= k')%nat -> stands_for k s a -> stands_for k' s a.
Proof.
  intros Hk [? ? ? ? Hs]. split; try done. eapply Forall_impl; [exact Hs|]. intros c H. cbn in H. lia.
Qed.

Lemma omap_insert_length k (v : ClusterLocationAndHash) m : (length (OMap.insert k v m) <= S (length m))%nat.
Proof. induction m as [|[a x] m IH]; cbn; [lia|]. destruct (k <? a), (k =? a); cbn in *; lia. Qed.

Lemma write_last_size k ca l cs : Forall (fun c => (length (snd c) <= k)%nat) cs ->
  Forall (fun c : UUID * list (Z * ClusterLocationAndHash) => (length (snd c) <= S k)%nat) (write_last ca l cs).
Proof.
  induction 1 as [|[u m] cs Hc Hcs IH]; [constructor|]. cbn [snd] in Hc. cbn [write_last]. destruct cs as [|c cs].
  - constructor; [|constructor]. cbn [snd]. pose proof (omap_insert_length ca l m). lia.
  - constructor; [cbn [snd]; lia|exact IH].
Qed.

Lemma sim_write k s a ca l : stands_for k s a -> cork_entry_ok (ca, l) ->
  let '(s', r) := answered (fun _ => Success) (writeCluster ca l s) in
  let '(a', r') := spec_write ca l a in stands_for (S k) s' a' /\ r = r'.
Proof.
  intros Hsf He. unfold spec_write. destruct (a_names a) as [|u us] eqn:En.
  - assert (corks_ s = []) as Ec.
    { apply fmap_nil_inv with (f := fst). by rewrite (sf_names _ _ _ Hsf). }
    rewrite writeCluster_uncorked by done. cbn. split; [|done]. eapply sf_mono; [|done]. lia.
  - assert (corks_ s <> []) as Hne by (intros E; pose proof (sf_names _ _ _ Hsf) as Hn; rewrite E, En in Hn; done).
    destruct (writeCluster_runs 0 s ca l (sf_good _ _ _ Hsf) He Hne) as ([] & s' & E & Hg & Hv & Hn & Hu & _ & _).
    unfold answered. rewrite E. cbn [fst snd]. split; [|done]. split; cbn [a_map a_names a_last]; try done.
    + intros ca' Hca'. rewrite Hv. case_decide; [done|]. by apply Hsf.
    + by rewrite Hn, (sf_names _ _ _ Hsf).
    + by rewrite Hu, (sf_last _ _ _ Hsf).
    + unfold writeCluster, mbind, mget, fail_unless, mmodify, mret in E.
      destruct (negb (length (corks_ s) =? 0)%nat); [|discriminate]. injection E as <-. cbn [with_corks corks_].
      apply write_last_size, Hsf.
Qed.

Lemma sim_cork k s a c : stands_for k s a ->
  let '(s', r) := exec (Cork c) s in let '(a', r') := spec_exec (Cork c) a in stands_for k s' a' /\ r = r'.
Proof.
  intros Hsf. cbn [exec spec_exec]. eapply runs_answered; [apply cork_runs, Hsf|].
  intros [] s' (Hg & Hv & Hu & Hc). split; [|done]. split; cbn [a_map a_names a_last]; try done.
  - intros ca Hca. rewrite Hv. by apply Hsf.
  - rewrite Hc, <- (sf_names _ _ _ Hsf), fmap_last. case_decide; [done|]. by rewrite fmap_app.
  - by rewrite Hu, (sf_last _ _ _ Hsf).
  - rewrite Hc. case_decide; [apply Hsf|]. apply Forall_app. split; [apply Hsf|]. constructor; [cbn; lia|constructor].
Qed.

Lemma sim_uncork k s a c : Z.of_nat k < 2 ^ 32 -> stands_for k s a ->
  let '(s', r) := exec (UnCork c) s in let '(a', r') := spec_exec (UnCork c) a in stands_for k s' a' /\ r = r'.
Proof.
  intros Hk Hsf. cbn [exec spec_exec]. pose proof (sf_names _ _ _ Hsf) as Hn.
  destruct (match c with Some u => bool_decide (head (a_names a) <> Some u) | None => false end) eqn:Ec.
  - destruct c as [u|]; [|done]. apply bool_decide_eq_true in Ec.
    rewrite (unCork_refused s (Some u) u); [done|done|]. rewrite <- Hn in Ec. by destruct (corks_ s).
  - assert (forall u', c = Some u' -> head (a_names a) = Some u') as Hc.
    { intros u' ->. apply bool_decide_eq_false in Ec. by apply dec_stable. }
    clear Ec. destruct (corks_ s) as [|[u m] rest] eqn:Es; cbn in Hn; rewrite <- Hn in *.
    + assert (c = None) as -> by (destruct c as [u'|]; [by specialize (Hc u' eq_refl)|done]).
      unfold unCork, mbind, mget. cbn. by rewrite Es.
    + assert (forall u', c = Some u' -> u' = u) as Hcu by (intros u' E; specialize (Hc u' E); by injection Hc).
      destruct rest as [|[u2 m2] rest]; cbn [fmap list_fmap fst].
      * rewrite (unCork_single s c u m Es Hcu). done.
      * pose proof (sf_size _ _ _ Hsf) as Hz. rewrite Es in Hz. apply Forall_cons in Hz as [Hm Hz]. cbn [snd] in Hm.
        eapply runs_answered; [apply (unCork_runs 0) with (u := u) (m := m) (rest := (u2, m2) :: rest);
          [done|apply Hsf|done|done|done|lia]|].
        intros [] s' []. split; [|done]. split; cbn [a_map a_names a_last]; try done.
        -- intros ca Hca. rewrite u_view0 by done. by apply Hsf.
        -- by rewrite u_corks0.
        -- by rewrite u_corks0.
Qed.

Lemma sim_capacity k s a n : stands_for k s a ->
  let '(s', r) := exec (SetCapacity n) s in let '(a', r') := spec_exec (SetCapacity n) a in stands_for k s' a' /\ r = r'.
Proof.
  intros Hsf. cbn [exec spec_exec]. destruct (Nat.ltb_spec 0 n) as [Hn|Hn].
  - eapply runs_answered; [eapply (set_cache_capacity_runs page_bits zero_weed Hbits 0); [done|apply Hsf|done]|].
    intros [] s' (Hi & Hl & Hp & Hc & Hu). split; [|done]. destruct Hsf as [[? Hgc] Hv Hnm Hla Hz].
    split; rewrite ?Hc, ?Hu; try done; [by split; [|rewrite Hc]|].
    intros ca Hca. rewrite <- Hv by done. unfold view. rewrite Hc.
    destruct (find_in_corks ca (rev (corks_ s))); [done|]. unfold StoreFacts.pentry. by apply same_nth.
  - unfold set_cache_capacity, mbind, fail_unless. rewrite (proj2 (Nat.ltb_ge 0 n)) by done. done.
Qed.

Lemma sim_step k s a o : Z.of_nat k < 2 ^ 32 -> stands_for k s a -> op_ok o ->
  let '(s', r) := exec o s in let '(a', r') := spec_exec o a in stands_for (S k) s' a' /\ r = r'.
Proof.
  intros Hk Hsf Ho.
  assert (forall x y, (let '(s', r) := x in let '(a', r') := y in stands_for k s' a' /\ r = r') ->
    let '(s', r) := x in let '(a', r') := y in stands_for (S k) s' a' /\ r = r' :> answer) as Hmono.
  { intros [s' r] [a' r'] [H ->]. split; [|done]. eapply sf_mono; [|done]. lia. }
  destruct o as [ca|ca l|ca|c|c|n]; cbn [op_ok] in Ho.
  - apply Hmono. cbn [exec spec_exec].
    eapply runs_answered; [apply (readCluster_runs 0); [done|apply Hsf|done]|].
    intros l s' (-> & Hg & HK). split; [|f_equal; by apply Hsf].
    split; rewrite ?(k_corks _ _ _ _ HK), ?(k_uuid _ _ _ _ HK); try done; try apply Hsf.
    intros ca' Hca'. rewrite (keeps_view _ _ _ HK). by apply Hsf.
  - by apply sim_write.
  - apply sim_write; [done|]. split; [done|]. done.
  - apply Hmono. by apply sim_cork.
  - apply Hmono. by apply sim_uncork.
  - apply Hmono. by apply sim_capacity.
Qed.

Lemma sim_run os k s a ra : Z.of_nat (k + length os) <= 2 ^ 32 -> stands_for k s a -> Forall op_ok os ->
  let '(s', r) := fold_left (run_step exec) os (s, ra) in
  let '(a', r') := fold_left (run_step spec_exec) os (a, ra) in
  stands_for (k + length os) s' a' /\ r = r'.
Proof.
  revert k s a ra. induction os as [|o os IH]; intros k s a ra Hk Hsf Ho; cbn [length] in *.
  - cbn. split; [|done]. by rewrite Nat.add_0_r.
  - apply Forall_cons in Ho as [Ho Hos]. cbn [fold_left run_step].
    pose proof (sim_step k s a o ltac:(lia) Hsf Ho) as Hstep.
    destruct (exec o s) as [s1 r1], (spec_exec o a) as [a1 r1']. destruct Hstep as [Hsf1 ->].
    rewrite Nat.add_succ_r, <- Nat.add_succ_l. apply IH; [lia|done|done].
Qed.

(** *** A new store *)
Definition stored_at (b : B) (ca : Z) : ClusterLocationAndHash :=
  norm (nth (offset page_bits ca) (base page_bits b (pageAddress page_bits ca)) zero).

Lemma fresh_inv b k c i cs : backend_inv page_bits b -> (0 < k)%nat ->
  inv 0 (mkStore b (init_pages_ page_bits k) ∅ [] 0 0 0 0 0 c i cs).
Proof.
  intros Hb Hk.
  assert (length (init_pages_ page_bits k) = k) as El by (unfold init_pages_; by rewrite length_fmap, length_seq).
  change (inv 0 (with_pages (init_pages_ page_bits k) (mkStore b [] ∅ [] 0 0 0 0 0 c i cs))).
  apply fresh_slots_inv; [|done|cbn; lia|by rewrite El|].
  - split; try done; cbn.
    + intros j. lia.
    + constructor.
    + intros j ?%elem_of_nil. done.
    + intros pa j. rewrite lookup_empty. split; [done|]. by intros [?%elem_of_nil _].
    + intros j ?%elem_of_nil. done.
  - apply Forall_fmap, Forall_forall. intros j _. cbn. by rewrite length_replicate.
Qed.

Lemma create_runs b k : backend_inv page_bits b -> (0 < k)%nat ->
  exists s, create page_bits b k = (b, Ok s) /\ good 0 s /\ backend_ s = b /\ corks_ s = [] /\
    cork_uuid_ s = cork_of b /\ forall ca, view s ca = stored_at b ca.
Proof.
  intros Hb Hk. unfold create. rewrite (proj2 (Nat.ltb_lt 0 k) Hk). unfold mbind, mget, mret.
  rewrite lastCorkUUID_spec, scrub_id_spec by apply Hb. eexists. split; [done|].
  split_and!; try done. split; [by apply fresh_inv|constructor].
Qed.

(** *** The number of clusters in use *)
Lemma used_of_nothing (m : page_map) : (forall pa, nonnull_at m pa = 0) -> used_of m = 0.
Proof.
  induction m as [|pa d m Hm IH] using map_ind; intros H0; [done|]. rewrite used_of_insert_None by done.
  assert (nonnull d = 0) as ->. { specialize (H0 pa). unfold nonnull_at in H0. by rewrite lookup_insert_eq in H0. }
  apply IH. intros q. destruct (decide (q = pa)) as [->|Hne]; [unfold nonnull_at; by rewrite Hm|].
  specialize (H0 q). unfold nonnull_at in *. by rewrite lookup_insert_ne in H0.
Qed.

Lemma used_of_pointwise (m m' : page_map) : (forall pa, nonnull_at m pa = nonnull_at m' pa) -> used_of m = used_of m'.
Proof.
  revert m'. induction m as [|pa d m Hm IH] using map_ind; intros m' H.
  - symmetry. rewrite used_of_nothing; [done|]. intros pa. rewrite <- H. unfold nonnull_at. by rewrite lookup_empty.
  - rewrite used_of_insert_None, (used_of_split m' pa), <- H by done. unfold nonnull_at at 1. rewrite lookup_insert_eq.
    f_equal. apply IH. intros q. specialize (H q). unfold nonnull_at in *.
    destruct (decide (q = pa)) as [->|Hne]; [by rewrite Hm, lookup_delete_eq|].
    rewrite lookup_insert_ne in H by done. by rewrite lookup_delete_ne.
Qed.

Lemma nonnull_at_flat n s pa : inv n s -> nonnull_at (flat s) pa = nonnull (pview page_bits s pa).
Proof.
  intros Hi. rewrite <- (flat_lookup page_bits zero_weed n s pa) by apply Hi. unfold nonnull_at.
  destruct (flat s !! pa); [done|]. symmetry. apply nonnull_zeros.
Qed.

Lemma pages_used n n' s s' : inv n s -> inv n' s' ->
  (forall pa, PageFacts.same zero_weed (pview page_bits s' pa) (pview page_bits s pa)) -> used_clusters s' = used_clusters s.
Proof.
  intros Hi Hi' HK. rewrite (used_clusters_flat page_bits zero_weed Hbits n s Hi).
  rewrite (used_clusters_flat page_bits zero_weed Hbits n' s' Hi'). apply used_of_pointwise. intros pa.
  rewrite (nonnull_at_flat n s), (nonnull_at_flat n' s') by done. by apply (nonnull_proper zero_weed), HK.
Qed.

Lemma puts_used n n' s s' ca l : inv n s -> inv n' s' -> 0 <= ca -> puts page_bits zero_weed ca l s s' ->
  used_clusters s' = used_clusters s - b2z (in_use (pentry s ca)) + b2z (in_use l).
Proof.
  intros Hi Hi' Hca HP. set (pa := pageAddress page_bits ca).
  rewrite (used_clusters_flat page_bits zero_weed Hbits n s Hi).
  rewrite (used_clusters_flat page_bits zero_weed Hbits n' s' Hi').
  transitivity (used_of (<[pa := <[offset page_bits ca := l]> (pview page_bits s pa)]> (flat s))).
  - apply used_of_pointwise. intros q. rewrite (nonnull_at_flat n' s') by done. unfold nonnull_at.
    destruct (decide (q = pa)) as [->|Hne].
    + rewrite lookup_insert_eq. apply (nonnull_proper zero_weed), HP.
    + rewrite lookup_insert_ne by done. fold (nonnull_at (flat s) q). rewrite (nonnull_at_flat n s) by done.
      by apply (nonnull_proper zero_weed), HP.
  - rewrite used_of_insert, (nonnull_at_flat n s) by done. rewrite nonnull_insert; [unfold StoreFacts.pentry; fold pa; lia|].
    rewrite (pview_length page_bits zero_weed n) by apply Hi. by apply offset_lt.
Qed.

(** What relocating and replaying change: the entries, to [f]. *)
Record rewritten (f : Z -> ClusterLocationAndHash) (s s' : Store) : Prop := {
  rw_entries : forall ca, fits 35 ca -> norm (pentry s' ca) = norm (f ca);
  rw_corks : corks_ s' = corks_ s;
  rw_uuid : cork_uuid_ s' = cork_uuid_ s;
  rw_ids : same_ids page_bits (backend_ s) (backend_ s') }.

Lemma reloc_one n s scid p : 0 <= n -> n + 1 < 2 ^ 32 -> inv n s -> reloc_ok p ->
  exists s', inv (n + 1) s' /\ rewritten (relocate scid (fun ca => norm (pentry s ca)) p) s s' /\
    forall k rest, applyRelocs_loop page_bits scid (fst p :: snd p :: rest) k s =
      applyRelocs_loop page_bits scid rest (u64 (k + 1)) s'.
Proof.
  intros Hn Hb Hi (Ho & Hnw & Ea). destruct p as [e e']. cbn [fst snd] in *.
  set (a := Entry.clusteraddress_ e). pose proof (proj1 Ho) as Ha.
  destruct (get_runs page_bits zero_weed Hbits n s a Hn Hi Ha) as ([l h] & s1 & E1 & Hi1 & HK1 & El). cbn [fst] in El.
  unfold relocate. cbn [fst snd]. fold a.
  assert (ClusterLocation.eqb (clusterLocation (norm (pentry s a))) (ClusterLocation.set_cloneID scid (Entry.clusterLocation_ e)) =
          ClusterLocation.eqb (clusterLocation l) (ClusterLocation.set_cloneID scid (Entry.clusterLocation_ e))) as Eq.
  { rewrite <- (keeps_entry _ _ _ _ a HK1), El. apply eqb_norm. apply Ho. }
  rewrite Eq. destruct (ClusterLocation.eqb (clusterLocation l) _) eqn:Em.
  - destruct (put_runs page_bits zero_weed Hbits n s1 a (CLH.set_cloneID scid (Entry.clusterLocationAndHash e')) Hn Hb Hi1 Ha)
      as (hit & s2 & E2 & Hi2 & HP). exists s2. split_and!; [done| |].
    + split.
      * intros ca Hca. rewrite (puts_entry page_bits zero_weed Hbits n s1 s2 a _ ca (i_core _ _ _ _ Hi1) (proj1 Ha) (proj1 Hca) HP).
        unfold upd. case_decide; [done|]. by rewrite (keeps_entry _ _ _ _ _ HK1), norm_norm.
      * by rewrite (p_corks _ _ _ _ _ _ HP), (k_corks _ _ _ _ HK1).
      * by rewrite (p_uuid _ _ _ _ _ _ HP), (k_uuid _ _ _ _ HK1).
      * transitivity (backend_ s1); [apply HK1|apply HP].
    + intros k rest. cbn [applyRelocs_loop]. unfold mbind, mlift. rewrite (loc_entry_address e Ho), (loc_entry_address e' Hnw).
      rewrite <- Ea, Z.eqb_refl. cbn [negb]. fold a. rewrite E1. cbv beta iota. rewrite Em, E2. done.
  - exists s1. split_and!.
    + apply (inv_mono page_bits zero_weed Hbits n); [lia|exact Hi1].
    + split; [|apply HK1..]. intros ca Hca. by rewrite (keeps_entry _ _ _ _ _ HK1), norm_norm.
    + intros k rest. cbn [applyRelocs_loop]. unfold mbind, mlift. rewrite (loc_entry_address e Ho), (loc_entry_address e' Hnw).
      rewrite <- Ea, Z.eqb_refl. cbn [negb]. fold a. rewrite E1. cbv beta iota. rewrite Em. done.
Qed.

Lemma reloc_pairs n s scid ps k : 0 <= n -> n + Z.of_nat (length ps) < 2 ^ 32 -> inv n s -> Forall reloc_ok ps ->
  0 <= k -> k + Z.of_nat (length ps) < 2 ^ 64 ->
  exists s', inv (n + Z.of_nat (length ps)) s' /\
    rewritten (fold_left (relocate scid) ps (fun ca => norm (pentry s ca))) s s' /\
    forall rest, applyRelocs_loop page_bits scid (unpair ps ++ rest) k s =
      applyRelocs_loop page_bits scid rest (k + Z.of_nat (length ps)) s'.
Proof.
  revert n s k. induction ps as [|p ps IH]; intros n s k Hn Hb Hi Hok Hk Hkb.
  - exists s. cbn. rewrite !Z.add_0_r. split_and!; [done| |done]. split; try done. intros ca Hca. by rewrite norm_norm.
  - apply Forall_cons in Hok as [Hp Hok]. cbn [length] in *.
    destruct (reloc_one n s scid p Hn ltac:(lia) Hi Hp) as (s1 & Hi1 & HR1 & E1).
    destruct (IH (n + 1) s1 (k + 1)) as (s2 & Hi2 & HR2 & E2); [lia|lia|done|done|lia|lia|].
    replace (n + Z.of_nat (S (length ps))) with (n + 1 + Z.of_nat (length ps)) by lia.
    replace (k + Z.of_nat (S (length ps))) with (k + 1 + Z.of_nat (length ps)) by lia.
    exists s2. split_and!; [done| |].
    + split.
      * intros ca Hca. rewrite (rw_entries _ _ _ HR2 ca Hca). cbn [fold_left].
        apply relocate_ext; [done| |done]. intros ca' Hca'. rewrite norm_norm. by apply HR1.
      * by rewrite (rw_corks _ _ _ HR2), (rw_corks _ _ _ HR1).
      * by rewrite (rw_uuid _ _ _ HR2), (rw_uuid _ _ _ HR1).
      * transitivity (backend_ s1); [apply HR1|apply HR2].
    + intros rest. rewrite <- E2. rewrite <- (wrap_id 64 (k + 1)) by (unfold fits; lia). apply E1.
Qed.

(** Setting a scrub id touches no page. *)
Lemma set_scrub_id_runs n s i : inv n s ->
  runs (set_scrub_id i) s (fun _ s' => inv n s' /\
    (forall pa, PageFacts.same zero_weed (pview page_bits s' pa) (pview page_bits s pa)) /\ corks_ s' = corks_ s /\
    cork_uuid_ s' = cork_uuid_ s /\ scrub_id_ s' = Some i /\ scrub_of (backend_ s') = Some i).
Proof.
  intros Hi. unfold set_scrub_id. apply runs_bind.
  destruct (set_scrub_id_spec i (backend_ s)) as (b' & Eb & R & Hsc & Hco & Hst & Hpa & Hus); [apply Hi|].
  destruct (swap_backend n s b') as (Hi' & HK & _); [done..|].
  eapply on_backend_runs; [exact Eb|]. apply runs_modify.
  split_and!; [by destruct Hi' as [[] ? ? ?]; split; [split|..]|done..].
Qed.

End StoreTheory.
End StoreTheory.
