(* ===== verification/MetaDataClaims.v ===== *)
(** * Theorems on the cached metadata store and its backends

    Each is instantiated on a TokyoCabinet backend over a finite map. *)

From S2P Require Import Prelude Addressing TLogEntry TLogs PageGenerator MetaDataStore MetaDataBackends MetaDataFacts MetaDataTheorems.

Module MetaDataClaims.
Import ClusterLocation CLH CachePage TLog Backend CachedMetaDataStore PageFacts StoreFacts PageGeneratorFacts Relocations StoreTheory.
Import KV LocalBackend TokyoCabinet TokyoCabinetFacts.

Section Claims.
Variable page_bits : Z.
Variable zero_weed : Weed.
Context {B : Type} {I : MetaDataBackendInterface B} {SP : MetaDataBackendSpec page_bits B}.

(** C2: a store opened on a backend that works behaves, for every sequence of
    reads, writes, discards, corks, uncorks and changes of the cache size, like
    one map with a list of open corks: every read returns what was written last,
    whatever was evicted or written out in between, a write without a cork fails
    an assertion, uncorking the wrong or the only cork is refused, and no other
    assertion fires. *)
Theorem store_refines_map b k os :
  0 <= page_bits < 31 -> backend_inv page_bits b -> (0 < k)%nat -> Forall (op_ok zero_weed) os ->
  Z.of_nat (length os) <= 2 ^ 32 ->
  exists s, create page_bits b k = (b, Ok s) /\
    snd (run (exec page_bits zero_weed) os s) =
    snd (run (spec_exec zero_weed) os (mkSpec (stored_at page_bits zero_weed b) [] (cork_of b))).
Proof.
  intros Hbits Hb Hk Hos Hlen.
  destruct (create_runs page_bits zero_weed Hbits b k Hb Hk) as (s & E & Hg & _ & Hc & Hu & Hv).
  exists s. split; [done|].
  set (a := mkSpec (stored_at page_bits zero_weed b) [] (cork_of b)).
  assert (stands_for page_bits zero_weed 0 s a) as Hsf.
  { split; rewrite ?Hc; try done. }
  pose proof (sim_run page_bits zero_weed Hbits os 0 s a [] Hlen Hsf Hos) as H. unfold run.
  destruct (fold_left _ os (s, [])), (fold_left _ os (a, [])). apply H.
Qed.

(** C15: what was uncorked survives: a store opened again on the backend after an
    uncork knows that cork as its last one, shows its entries over those the
    pages held before, and shows with the later corks on top exactly what the
    old store showed. *)
Theorem uncorked_survives_restart n s u m rest k :
  0 <= page_bits < 31 -> 0 <= n -> good page_bits zero_weed n s ->
  corks_ s = (u, m) :: rest -> rest <> [] -> n + Z.of_nat (length m) < 2 ^ 32 -> (0 < k)%nat ->
  exists s' s0, unCork page_bits (Some u) s = (s', Ok tt) /\ create page_bits (backend_ s') k = (backend_ s', Ok s0) /\
    lastCork s' = Some u /\ lastCork s0 = Some u /\
    forall ca, fits 35 ca ->
      view page_bits zero_weed s0 ca = match OMap.find ca m with
                                       | Some l => l
                                       | None => norm zero_weed (pentry page_bits s ca)
                                       end /\
      view page_bits zero_weed s' ca = view page_bits zero_weed s ca /\
      view page_bits zero_weed s ca = match find_in_corks ca (rev rest) with
                                      | Some l => l
                                      | None => view page_bits zero_weed s0 ca
                                      end.
Proof.
  intros Hbits Hn Hg Hc Hr Hlen Hk.
  destruct (unCork_runs page_bits zero_weed Hbits n s (Some u) u m rest) as ([] & s' & E & HU); [done..| |done|].
  { by intros u' [= ->]. }
  pose proof (i_core _ _ _ _ (g_inv _ _ _ _ (u_good _ _ _ _ _ _ _ HU))) as Hcore.
  destruct (create_runs page_bits zero_weed Hbits (backend_ s') k) as (s0 & E0 & Hg0 & Hb0 & Hc0 & Hu0 & Hv0); [apply Hcore|done|].
  exists s', s0. split_and!; [done|done|apply HU| |].
  { unfold lastCork. rewrite Hu0. apply HU. }
  intros ca Hca.
  assert (view page_bits zero_weed s0 ca = norm zero_weed (pentry page_bits s' ca)) as Ev.
  { rewrite Hv0. unfold stored_at, pentry. apply same_nth. symmetry. eapply clean_durable; [exact Hcore|apply HU]. }
  split_and!.
  - rewrite Ev. by apply HU.
  - by apply HU.
  - rewrite <- (u_view _ _ _ _ _ _ _ HU) by done. unfold view at 1. rewrite (u_corks _ _ _ _ _ _ _ HU), Ev. done.
Qed.

(** The number of used clusters reported is the number of entries in use in
    the pages, written out or not; reading does not change it, and writing an
    entry changes it by what that entry gains or loses. *)
Theorem used_clusters_exact n s ca l :
  0 <= page_bits < 31 -> 0 <= n -> n + 1 < 2 ^ 32 -> inv page_bits zero_weed n s -> fits 35 ca ->
  (exists st, getStats s = (s, Ok st) /\ stats_used_clusters st = used_of (flat page_bits s)) /\
  (forall pa, default (zeros page_bits) (flat page_bits s !! pa) = pview page_bits s pa) /\
  (exists r s', get_cluster_location page_bits ca s = (s', Ok r) /\ used_clusters s' = used_clusters s) /\
  (exists r s', put_cluster_location page_bits ca l s = (s', Ok r) /\
     used_clusters s' = used_clusters s - b2z (in_use (pentry page_bits s ca)) + b2z (in_use l)).
Proof.
  intros Hbits Hn Hn1 Hi Hca. split_and!.
  - pose proof (used_clusters_flat page_bits zero_weed Hbits n s Hi) as E.
    pose proof (used_bounds page_bits Hbits (flat page_bits s) (fun pa d => flat_ok page_bits zero_weed n s pa d (i_core _ _ _ _ Hi))).
    eexists. split; [unfold getStats, mbind, mget, fail_unless; by rewrite (proj2 (Z.ltb_lt _ _)) by lia|exact E].
  - intros pa. eapply flat_lookup, Hi.
  - destruct (get_runs page_bits zero_weed Hbits n s ca Hn Hi Hca) as (r & s' & E & Hi' & HK & _).
    exists r, s'. split; [done|]. eapply pages_used; [done|exact Hi|exact Hi'|apply HK].
  - destruct (put_runs page_bits zero_weed Hbits n s ca l Hn Hn1 Hi Hca) as (r & s' & E & Hi' & HP).
    exists r, s'. split; [done|]. eapply puts_used; [done|exact Hi|exact Hi'|apply Hca|done].
Qed.

(** C27: applying relocations replaces exactly the entries that still have the old
    location, in the order of the log, and then records the scrub id; a log with
    an odd number of entries, or with a pair for two different clusters, throws,
    and leaves the temporary scrub id behind. *)
Theorem relocations_exact n s scid ps tl scrub_id tmp_id :
  0 <= page_bits < 31 -> 0 <= n -> n + Z.of_nat (length ps) < 2 ^ 32 -> inv page_bits zero_weed n s ->
  Forall reloc_ok ps ->
  match tl with
  | [] => True
  | [e] => True
  | e :: e' :: _ => loc_entry e /\ loc_entry e' /\ Entry.clusteraddress_ e <> Entry.clusteraddress_ e'
  end ->
  exists s', fst (applyRelocs page_bits (unpair ps ++ tl) scid scrub_id tmp_id s) = s' /\
    corks_ s' = corks_ s /\
    (forall ca, fits 35 ca -> norm zero_weed (pentry page_bits s' ca) =
      norm zero_weed (fold_left (relocate scid) ps (fun ca => norm zero_weed (pentry page_bits s ca)) ca)) /\
    match tl with
    | [] => snd (applyRelocs page_bits (unpair ps ++ tl) scid scrub_id tmp_id s) = Ok (Z.of_nat (length ps)) /\
            scrub_of (backend_ s') = Some scrub_id
    | _ => snd (applyRelocs page_bits (unpair ps ++ tl) scid scrub_id tmp_id s) = Throw IOException /\
           scrub_of (backend_ s') = Some tmp_id
    end.
Proof.
  intros Hbits Hn Hlen Hi Hps Htl. set (f := fold_left (relocate scid) ps (fun ca => norm zero_weed (pentry page_bits s ca))).
  destruct (set_scrub_id_runs page_bits zero_weed n s tmp_id Hi) as ([] & s1 & E1 & Hi1 & HK1 & Hc1 & _ & _ & Hs1).
  destruct (reloc_pairs page_bits zero_weed Hbits n s1 scid ps 0) as (s2 & Hi2 & HR2 & E2); [done..|lia|].
  assert (forall ca, fits 35 ca -> norm zero_weed (pentry page_bits s2 ca) = norm zero_weed (f ca)) as Hf.
  { intros ca Hca. rewrite (rw_entries _ _ _ _ _ HR2 ca Hca).
    apply relocate_ext; try done. intros ca' Hca'. by rewrite !norm_norm, (pages_entry _ _ _ _ _ HK1). }
  assert (corks_ s2 = corks_ s) as Hc2 by (by rewrite (rw_corks _ _ _ _ _ HR2), Hc1).
  assert (scrub_of (backend_ s2) = Some tmp_id) as Hs2 by (by rewrite (proj2 (rw_ids _ _ _ _ _ HR2)), Hs1).
  assert (tl <> [] -> applyRelocs_loop page_bits scid tl (0 + Z.of_nat (length ps)) s2 = (s2, Throw IOException)) as Herr.
  { intros Hne. destruct tl as [|e [|e' r]]; [done|done|]. destruct Htl as (He & He' & Hd).
    cbn [applyRelocs_loop]. unfold mbind, mlift. rewrite (loc_entry_address e He), (loc_entry_address e' He').
    by rewrite (proj2 (Z.eqb_neq _ _) Hd). }
  unfold applyRelocs, mbind. rewrite E1, E2. destruct tl as [|e r].
  - cbn [applyRelocs_loop]. unfold mret at 1 4.
    destruct (keep_list_runs page_bits zero_weed Hbits (n + Z.of_nat (length ps)) s2) as ([] & s3 & E3 & Hi3 & HK3); [lia|done|].
    destruct (set_scrub_id_runs page_bits zero_weed (n + Z.of_nat (length ps)) s3 scrub_id Hi3)
      as ([] & s4 & E4 & Hi4 & HK4 & Hc4 & _ & _ & Hs4).
    exists s4. unfold sync, mret. rewrite E3, E4. split_and!; [done| | |done|done].
    + by rewrite Hc4, (k_corks _ _ _ _ HK3).
    + intros ca Hca. by rewrite (pages_entry _ _ _ _ _ HK4), (keeps_entry _ _ _ _ _ HK3), Hf.
  - rewrite Herr by done. by exists s2.
Qed.

Lemma clear_all_keys_runs n s :
  0 <= page_bits < 31 -> 0 <= n -> inv page_bits zero_weed n s -> clean s ->
  exists s1 b', be_clear_all_keys (backend_ s1) = (b', Ok tt) /\ inv page_bits zero_weed 0 s1 /\
    (forall pa, same zero_weed (pview page_bits s1 pa) (pview page_bits s pa)) /\
    page_map_ s1 = ∅ /\ page_list_ s1 = [] /\ stored b' = ∅ /\
    clear_all_keys page_bits s = (with_scrub_id None (with_corks None [] (with_backend b' s1)), Ok tt) /\
    runs (write_dirty_pages_to_backend_and_clear_page_list page_bits false false) (with_corks (cork_uuid_ s) [] s)
      (fun _ s' => s' = s1).
Proof.
  intros Hbits Hn Hi Hcl.
  assert (inv page_bits zero_weed n (with_corks (cork_uuid_ s) [] s)) as Hi0 by (by destruct Hi as [[] ? ? ?]; split; [split|..]).
  destruct (clear_page_list_runs page_bits zero_weed Hbits n (with_corks (cork_uuid_ s) [] s) false false)
    as ([] & s1 & E1 & Hi1 & HK1 & El & Em & _); [done|done|by right|].
  destruct (clear_spec (backend_ s1)) as (b' & Eb & R & St & _); [apply Hi1|].
  exists s1, b'. split_and!; try done; [apply HK1| |by exists tt, s1].
  unfold clear_all_keys, mbind, mmodify, on_backend. rewrite E1, Eb. unfold with_corks, with_scrub_id, with_backend.
  cbn. by rewrite (k_corks _ _ _ _ HK1).
Qed.

Lemma cleared_view s b' ca : page_map_ s = ∅ -> stored b' = ∅ ->
  view page_bits zero_weed (with_scrub_id None (with_corks None [] (with_backend b' s))) ca =
  discarded_location_and_hash zero_weed.
Proof.
  intros Em St. unfold view. cbn [with_scrub_id with_corks corks_ rev find_in_corks].
  assert (pview page_bits (with_scrub_id None (with_corks None [] (with_backend b' s))) (pageAddress page_bits ca) = zeros page_bits) as Ez.
  { rewrite pview_uncached by done. unfold base. cbn [with_scrub_id with_corks with_backend backend_]. by rewrite St, lookup_empty. }
  unfold pentry. rewrite Ez. unfold zeros. rewrite nth_lookup.
  destruct (replicate (cap page_bits) zero !! offset page_bits ca) eqn:El; [|done].
  by apply lookup_replicate in El as [-> _].
Qed.

(** Clearing a store without dirty pages empties it: no cork, no scrub id and
    no location is left, in the cache and in the backend. *)
Theorem clear_all_keys_empties n s :
  0 <= page_bits < 31 -> 0 <= n -> inv page_bits zero_weed n s -> clean s ->
  exists s', clear_all_keys page_bits s = (s', Ok tt) /\ corks_ s' = [] /\ lastCork s' = None /\ scrub_id_ s' = None /\
    stored (backend_ s') = ∅ /\
    forall ca, view page_bits zero_weed s' ca = discarded_location_and_hash zero_weed.
Proof.
  intros Hbits Hn Hi Hcl. destruct (clear_all_keys_runs n s Hbits Hn Hi Hcl) as (s1 & b' & Eb & Hi1 & _ & Em & _ & St & E & _).
  eexists. split; [exact E|]. split_and!; try done. intros ca. by apply cleared_view.
Qed.

End Claims.

(** ** TokyoCabinet and RocksDB *)
Section LocalClaims.
Variable page_bits : Z.
Variable zero_weed : Weed.
Context {D : Type} {K : KeyValueStore D}.

(** on TokyoCabinet a store that was cleared is empty, but it still reports
    the clusters it had before as in use. *)
Theorem cleared_store_keeps_count {KS : KeyValueSpec D} n (s : Store (Local page_bits D)) :
  0 <= page_bits < 31 -> 0 <= n -> inv page_bits zero_weed n s -> clean s ->
  exists s', clear_all_keys page_bits s = (s', Ok tt) /\
    (forall ca, view page_bits zero_weed s' ca = discarded_location_and_hash zero_weed) /\
    used_clusters s' = used_clusters s.
Proof.
  intros Hbits Hn Hi Hcl.
  destruct (clear_all_keys_runs page_bits zero_weed n s Hbits Hn Hi Hcl) as (s1 & b' & Eb & Hi1 & HK & Em & _ & St & E & _).
  eexists. split; [exact E|]. split.
  - intros ca. by apply cleared_view.
  - rewrite <- (pages_used page_bits zero_weed Hbits n 0 s s1 Hi Hi1 HK).
    unfold used_clusters. cbn in Eb. unfold tc_clear_all_keys in Eb. by injection Eb as <-.
Qed.

(** RocksDB does not count: a page that was put or discarded leaves the
    number of used clusters it reports as it was, whatever the difference. *)
Theorem rocksdb_does_not_count pa d z (b b' : Local page_bits D) :
  (RocksDB.rdb_putPage page_bits pa d z b = (b', Ok tt) \/ RocksDB.rdb_discardPage page_bits pa z b = (b', Ok tt)) ->
  getUsedClusters (MetaDataBackendInterface := RocksDB.rocksdb page_bits) b' = used_clusters_ b.
Proof.
  intros H. change (used_clusters_ b' = used_clusters_ b).
  assert (forall k v (x y : Local page_bits D) r, put page_bits k v x = (y, r) -> used_clusters_ y = used_clusters_ x) as Hput.
  { intros k v x y r. unfold put. destruct (kv_put k v (database_ x)) as [d' ok]. by intros [= <- _]. }
  destruct H as [H|H]; unfold RocksDB.rdb_putPage, RocksDB.rdb_discardPage, mbind, mget, check_page_address_, assert_, mret,
    mthrow, mmodify in H; repeat split_match; simplify_eq; repeat match goal with
    | G : put _ _ _ _ = _ |- _ => apply Hput in G end; try congruence; by cbn in H.
Qed.
End LocalClaims.

(** ** A backend that fails *)
Section Failing.
Variable page_bits : Z.
Context {B : Type} {I : MetaDataBackendInterface B}.


Lemma clear_loop_pages f ie (s s' : Store B) r : clear_loop f false ie s = (s', r) -> pages_ s' = pages_ s.
Proof.
  revert s. induction f as [|f IH]; intros s; cbn [clear_loop]; [by intros [= <- _]|].
  unfold mbind at 1, mget at 1. destruct (page_list_ s) as [|i l]; [by intros [= <- _]|].
  unfold mbind, drop_front, mmodify, mret. intros E. by rewrite (IH _ E).
Qed.

(** clearing a store does not clean its slots: if the first one holds a dirty
    page, a store that was cleared fails an assertion on its next access. *)
Theorem cleared_dirty_store_asserts (s s' : Store B) ca :
  (0 < length (pages_ s))%nat -> dirty (page_at s 0) = true -> clear_all_keys page_bits s = (s', Ok tt) ->
  snd (get_page_ page_bits ca s') = Throw AssertFailed.
Proof.
  intros Hpos Hd E. unfold clear_all_keys, write_dirty_pages_to_backend_and_clear_page_list, mbind, mmodify, mget, on_backend in E.
  destruct (clear_loop _ false false _) as [s1 [[]|e1]] eqn:El; [|done]. pose proof (clear_loop_pages _ _ _ _ _ El) as Hp.
  unfold fail_unless in E. destruct (bool_decide (page_map_ s1 = ∅) && (num_pages_ s1 =? 0)%nat) eqn:Ea; [|done].
  unfold mret in E. destruct (be_clear_all_keys _) as [b' [[]|e2]]; [|done]. injection E as <-.
  apply andb_true_iff in Ea as [Em%bool_decide_eq_true En%Nat.eqb_eq].
  change (pages_ (with_corks (cork_uuid_ s) [] s)) with (pages_ s) in Hp.
  unfold get_page_, load_page, victim, mbind, mget, mmodify, mret, fail_unless.
  unfold with_scrub_id, with_corks, with_backend, with_pages, with_stats, page_at.
  cbn [page_map_ num_pages_ pages_]. rewrite Em, lookup_empty. cbn [num_pages_ pages_]. rewrite En, Hp, length_fmap.
  rewrite (proj2 (Nat.ltb_lt 0 _)) by done. cbn [pages_].
  unfold page_at in Hd. destruct (pages_ s) as [|p ps]; [cbn in Hpos; lia|]. cbn in Hd |- *. by rewrite Hd.
Qed.
End Failing.

(** ** Concrete stores *)
Section Concrete.
Abbreviation db := (gmap Z value).
Definition loc (n : Z) : ClusterLocationAndHash := mkCLH (ClusterLocation.make n 0 0 0) 7.

(** An empty TokyoCabinet with pages of four entries. *)
Definition empty_backend : Local 2 db := mkLocal ∅ 0.

Lemma empty_backend_inv : backend_inv 2 empty_backend.
Proof. split; [exact (map_Forall_empty (typed 2))| |done]. intros pa d E.
  change (omap page_of (∅ : db) !! pa = Some d) in E. by rewrite omap_empty, lookup_empty in E. Qed.

(** A store with a cork to be moved and one being filled. *)
Definition corked_store : Store (Local 2 db) :=
  mkStore empty_backend (init_pages_ 2 1) ∅ [] 0 0 0 0 0 None None
    [(1, [(3, loc 5); (9, loc 6)]); (2, [(3, loc 8)])].

Lemma corked_store_inv : inv 2 0 0 corked_store.
Proof. apply fresh_inv; [done|apply empty_backend_inv|lia]. Qed.

Lemma corked_store_good : good 2 0 0 corked_store.
Proof. split; [apply corked_store_inv|]. repeat constructor; cbn; lia. Qed.

Lemma store_refines_map_witness : exists s, create 2 empty_backend 1 = (empty_backend, Ok s) /\
  snd (run (exec 2 0) [Cork 1; Write 3 (loc 5); Write 9 (loc 6); Cork 2; UnCork (Some 1); Read 3; Read 9; Read 0] s) =
  [Success; Success; Success; Success; Success; Location (loc 5); Location (loc 6);
   Location (discarded_location_and_hash 0)].
Proof.
  destruct (store_refines_map 2 0 empty_backend 1
    [Cork 1; Write 3 (loc 5); Write 9 (loc 6); Cork 2; UnCork (Some 1); Read 3; Read 9; Read 0]) as (s & E & R);
    [lia|apply empty_backend_inv|lia|repeat constructor; cbn; lia|cbn; lia|].
  exists s. split; [exact E|]. rewrite R. vm_compute. reflexivity.
Defined.

Lemma uncorked_survives_restart_witness : exists s' s0,
  unCork 2 (Some 1) corked_store = (s', Ok tt) /\ create 2 (backend_ s') 1 = (backend_ s', Ok s0) /\
  view 2 0 s0 3 = loc 5 /\ view 2 0 s' 3 = loc 8.
Proof.
  destruct (uncorked_survives_restart 2 0 0 corked_store 1 [(3, loc 5); (9, loc 6)] [(2, [(3, loc 8)])] 1)
    as (s' & s0 & E & E0 & _ & _ & H); [lia|lia|apply corked_store_good|done|done|cbn; lia|lia|].
  exists s', s0. destruct (H 3) as (H1 & H2 & _); [split; lia|]. split_and!; [exact E|exact E0|exact H1|].
  rewrite H2. reflexivity.
Defined.

Lemma used_clusters_exact_witness : exists r s', put_cluster_location 2 9 (loc 6) corked_store = (s', Ok r) /\ used_clusters s' = 1.
Proof.
  destruct (used_clusters_exact 2 0 0 corked_store 9 (loc 6)) as (_ & _ & _ & r & s' & E & U);
    [lia|lia|lia|apply corked_store_inv|split; lia|]. exists r, s'. split; [exact E|]. rewrite U. reflexivity.
Defined.

Lemma relocations_exact_witness : exists s',
  fst (applyRelocs 2 (unpair [(Entry.mkEntry 9 (loc 6), Entry.mkEntry 9 (loc 7))]) 0 21 22 corked_store) = s' /\
  snd (applyRelocs 2 (unpair [(Entry.mkEntry 9 (loc 6), Entry.mkEntry 9 (loc 7))] ++ []) 0 21 22 corked_store) = Ok 1 /\
  scrub_of (backend_ s') = Some 21.
Proof.
  destruct (relocations_exact 2 0 0 corked_store 0 [(Entry.mkEntry 9 (loc 6), Entry.mkEntry 9 (loc 7))] [] 21 22)
    as (s' & E & _ & _ & H1 & H2); [lia|lia|cbn; lia|apply corked_store_inv| |done|].
  { constructor; [|constructor]. repeat split; cbn; lia. }
  exists s'. split_and!; [exact E|exact H1|exact H2].
Defined.

Lemma clear_all_keys_empties_witness : exists s', clear_all_keys 2 corked_store = (s', Ok tt) /\ corks_ s' = [].
Proof.
  destruct (clear_all_keys_empties 2 0 0 corked_store) as (s' & E & Hc & _);
    [lia|lia|apply corked_store_inv|by intros i ?%elem_of_nil|]. exists s'. split; [exact E|exact Hc].
Defined.

(** A store on a backend with one page of four used entries. *)
Definition full_backend : Local 2 db := mkLocal {[ 0 := VPage [loc 1; loc 2; loc 3; loc 4] ]} 4.
Definition full_store : Store (Local 2 db) := mkStore full_backend (init_pages_ 2 1) ∅ [] 0 0 0 0 0 None None [].

Lemma full_store_inv : inv 2 0 0 full_store.
Proof.
  apply fresh_inv; [done| |lia]. split; [| |done].
  - apply (map_Forall_singleton (typed 2)). by eexists.
  - intros pa d E. assert (stored full_backend = {[0 := [loc 1; loc 2; loc 3; loc 4]]}) as Es.
    { by apply (omap_singleton_Some page_of 0 (VPage [loc 1; loc 2; loc 3; loc 4])). }
    rewrite Es in E. apply lookup_singleton_Some in E as [<- <-]. split; [|done]. split; [lia|]. done.
Qed.

(** A backend whose puts fail while its flag is up. *)
Definition through {A} (m : M (Local 2 db) A) : M (bool * Local 2 db) A := fun b =>
  let '(t, r) := m (snd b) in ((fst b, t), r).

#[local] Instance flaky : MetaDataBackendInterface (bool * Local 2 db) := {|
  getPage := fun pa => through (getPage pa);
  putPage := fun pa d z b => if fst b then (b, Throw MetaDataStoreBackendException) else through (putPage pa d z) b;
  discardPage := fun pa z => through (discardPage pa z);
  pageExistsInParent := fun pa => through (pageExistsInParent pa);
  be_sync := through be_sync;
  be_clear_all_keys := through be_clear_all_keys;
  be_set_scrub_id := fun i => through (be_set_scrub_id i);
  be_scrub_id := through be_scrub_id;
  setCork := fun c => through (setCork c);
  lastCorkUUID := through lastCorkUUID;
  getUsedClusters := fun b => getUsedClusters (snd b) |}.

(** Two slots, both with a dirty page. *)
Definition dirty_page (pa : Z) : CachePage := mkPage pa [loc 1; zero; zero; zero] true 1 0.
Definition dirty_store (broken : bool) : Store (bool * Local 2 db) :=
  mkStore (broken, empty_backend) [dirty_page 0; dirty_page 1] {[ 0 := 0%nat; 1 := 1%nat ]} [0; 1]%nat 2 0 0 2 0 None None [].


Lemma cleared_dirty_store_asserts_witness : snd (get_page_ 2 0 (fst (clear_all_keys 2 (dirty_store false)))) = Throw AssertFailed.
Proof. apply (cleared_dirty_store_asserts 2 (dirty_store false)); [cbn; lia|reflexivity|vm_compute; reflexivity]. Defined.

Lemma cleared_store_keeps_count_witness : exists s', clear_all_keys 2 full_store = (s', Ok tt) /\ used_clusters s' = 4.
Proof.
  destruct (cleared_store_keeps_count 2 0 0 full_store) as (s' & E & _ & U);
    [lia|lia|apply full_store_inv|by intros i ?%elem_of_nil|]. exists s'. split; [exact E|rewrite U; reflexivity].
Defined.

Lemma rocksdb_does_not_count_witness : exists b',
  RocksDB.rdb_putPage 2 0 [loc 1; loc 2; loc 3; loc 4] 4 empty_backend = (b', Ok tt) /\ used_clusters_ b' = 0.
Proof.
  exists (fst (RocksDB.rdb_putPage 2 0 [loc 1; loc 2; loc 3; loc 4] 4 empty_backend)). split; [vm_compute; reflexivity|].
  exact (rocksdb_does_not_count 2 0 [loc 1; loc 2; loc 3; loc 4] 4 empty_backend
    (fst (RocksDB.rdb_putPage 2 0 [loc 1; loc 2; loc 3; loc 4] 4 empty_backend)) (or_introl eq_refl)).
Defined.
End Concrete.
End MetaDataClaims.
