(* ===== verification/Replay.v ===== *)
(** * Replaying TLogs into the metadata store

    [processCloneTLogs] of src/src/volumedriver/CachedMetaDataStore.cpp over the
    generator of PageGenerator.v: grouping the entries by page, in whatever order
    the pages come, has the effect of the entries in the order of the logs. *)

From S2P Require Import Prelude Addressing TLogEntry TLogs PageGenerator MetaDataStore MetaDataBackends MetaDataFacts MetaDataTheorems MetaDataClaims.

Module Replay.
Import ClusterLocation CLH CachePage TLog Backend CachedMetaDataStore PageFacts StoreFacts PageGenerator PageGeneratorFacts
  Relocations StoreTheory.

(** ** On a map *)
Definition replay (cloneid : Z) (l : list Entry.Entry) (f : Z -> ClusterLocationAndHash) : Z -> ClusterLocationAndHash :=
  fold_left (fun f e => upd f (Entry.clusteraddress_ e) (CLH.set_cloneID cloneid (Entry.clusterLocationAndHash e))) l f.

Definition of_address (ca : Z) (l : list Entry.Entry) : list Entry.Entry :=
  List.filter (fun e => Entry.clusteraddress_ e =? ca) l.

(** What is at an address depends on the entries for that address only. *)
Lemma replay_of_address cid l f g ca : f ca = g ca -> replay cid l f ca = replay cid (of_address ca l) g ca.
Proof.
  revert f g. induction l as [|e l IH]; intros f g Hfg; [done|]. cbn. destruct (Z.eqb_spec (Entry.clusteraddress_ e) ca) as [E|Hne].
  - cbn. apply IH. unfold upd. repeat case_decide; congruence.
  - apply IH. unfold upd. case_decide; [|done]. by subst.
Qed.

Lemma replay_app cid l1 l2 f : replay cid (l1 ++ l2) f = replay cid l2 (replay cid l1 f).
Proof. apply fold_left_app. Qed.

Lemma of_address_page pageAddress ca l : of_address ca l = of_address ca (of_page pageAddress (pageAddress ca) l).
Proof.
  unfold of_address, of_page. induction l as [|e l IH]; [done|]. cbn.
  destruct (Z.eqb_spec (Entry.clusteraddress_ e) ca) as [E|Hne].
  - rewrite E, Z.eqb_refl. cbn. rewrite E, Z.eqb_refl. by f_equal.
  - destruct (pageAddress (Entry.clusteraddress_ e) =? pageAddress ca); [|done]. cbn.
    by rewrite (proj2 (Z.eqb_neq _ _) Hne).
Qed.

(** Logs with the same entries for every page replay alike. *)
Lemma replay_pages pageAddress cid l l' f ca :
  (forall pa, of_page pageAddress pa l = of_page pageAddress pa l') -> replay cid l f ca = replay cid l' f ca.
Proof.
  intros H. rewrite (replay_of_address cid l f f), (replay_of_address cid l' f f) by done.
  by rewrite (of_address_page pageAddress ca l), (of_address_page pageAddress ca l'), H.
Qed.

Lemma replay_norm zw cid l f g ca : norm zw (f ca) = norm zw (g ca) -> norm zw (replay cid l f ca) = norm zw (replay cid l g ca).
Proof.
  revert f g. induction l as [|e l IH]; intros f g Hfg; [done|]. cbn. apply IH. unfold upd. by case_decide.
Qed.

(** ** On the store *)
Section Store.
Variable page_bits : Z.
Variable zero_weed : Weed.
Context {B : Type} {I : MetaDataBackendInterface B} {SP : MetaDataBackendSpec page_bits B}.
Hypothesis Hbits : 0 <= page_bits < 31.
Variable pick : list (Z * list Entry.Entry) -> nat.

Abbreviation inv := (inv page_bits zero_weed).
Abbreviation rewritten := (rewritten page_bits zero_weed).
Abbreviation norm := (norm zero_weed).

Lemma rewritten_trans f (s s' s'' : Store B) (g : (Z -> ClusterLocationAndHash) -> Z -> ClusterLocationAndHash) :
  rewritten f s s' -> rewritten (g (pentry page_bits s')) s' s'' ->
  (forall ca, fits 35 ca -> norm (g (pentry page_bits s') ca) = norm (g f ca)) -> rewritten (g f) s s''.
Proof.
  intros H1 H2 Hg. split.
  - intros ca Hca. by rewrite (rw_entries _ _ _ _ _ H2 ca Hca), Hg.
  - by rewrite (rw_corks _ _ _ _ _ H2), (rw_corks _ _ _ _ _ H1).
  - by rewrite (rw_uuid _ _ _ _ _ H2), (rw_uuid _ _ _ _ _ H1).
  - transitivity (backend_ s'); [apply H1|apply H2].
Qed.

Lemma rewritten_refl (s : Store B) : rewritten (pentry page_bits s) s s.
Proof. by split. Qed.

Lemma entries_runs n s cid l : 0 <= n -> n + Z.of_nat (length l) < 2 ^ 32 -> inv n s -> Forall loc_entry l ->
  runs (miter (process_entry page_bits cid) l) s
    (fun _ s' => inv (n + Z.of_nat (length l)) s' /\ rewritten (replay cid l (pentry page_bits s)) s s').
Proof.
  revert n s. induction l as [|e l IH]; intros n s Hn Hb Hi Hl.
  - apply runs_ret. cbn. rewrite Z.add_0_r. split; [done|apply rewritten_refl].
  - apply Forall_cons in Hl as [He Hl]. cbn [length miter] in *. apply runs_bind. unfold process_entry at 1.
    apply runs_bind. exists (Entry.clusteraddress_ e), s. split; [unfold mlift; by rewrite loc_entry_address|].
    apply runs_bind. eapply runs_mono; [apply (put_runs page_bits zero_weed Hbits n); [done|lia|done|apply He]|].
    intros hit s1 [Hi1 HP]. apply runs_ret.
    eapply runs_mono; [apply (IH (n + 1)); [lia|lia|done|done]|]. intros [] s2 [Hi2 HR].
    replace (n + Z.of_nat (S (length l))) with (n + 1 + Z.of_nat (length l)) by lia. split; [done|].
    cbn [replay fold_left]. fold (replay cid l). apply (rewritten_trans _ s s1 s2 (replay cid l)); [|done|].
    + split; try apply HP. intros ca Hca. pose proof (proj1 He) as Hfe.
      rewrite (puts_entry page_bits zero_weed Hbits n s s1 _ _ ca (i_core _ _ _ _ Hi) (proj1 Hfe) (proj1 Hca) HP).
      unfold upd. by case_decide.
    + intros ca Hca. apply replay_norm. pose proof (proj1 He) as Hfe.
      rewrite (puts_entry page_bits zero_weed Hbits n s s1 _ _ ca (i_core _ _ _ _ Hi) (proj1 Hfe) (proj1 Hca) HP).
      unfold upd. by case_decide.
Qed.

Abbreviation of_page := (of_page (pageAddress page_bits)).

Lemma processPages_runs fuel g n s cid k : 0 <= n -> gen_ok (pageAddress page_bits) g -> (left g < fuel)%nat ->
  n + Z.of_nat (left g) < 2 ^ 32 -> inv n s ->
  runs (processPages page_bits pick fuel g cid k) s (fun _ s' => inv (n + Z.of_nat (left g)) s' /\
    exists out, (forall pa, of_page pa out = pending (pageAddress page_bits) g pa) /\
      rewritten (replay cid out (pentry page_bits s)) s s').
Proof.
  intros Hn. revert n g s k Hn. induction fuel as [|fuel IH]; intros n g s k Hn Hg Hf Hb Hi; [lia|].
  cbn [processPages]. destruct (finished g) eqn:Ef.
  - pose proof (finished_pending _ _ Hg Ef) as Hz. apply runs_ret. rewrite Hz, Z.add_0_r. split; [done|].
    exists []. split; [|apply rewritten_refl]. intros pa. unfold left in Hz. unfold pending.
    assert (current_ g = []) as -> by (apply nil_length_inv; lia).
    assert (reader_ g = []) as -> by (apply nil_length_inv; lia).
    rewrite (size_zero _ pick (pages_ g) (go_pages _ _ Hg)) by lia. done.
  - destruct (next_ok (pageAddress page_bits) pick g Hg Ef) as (g' & E & Hg' & Hl & Hpos & Hp).
    apply runs_bind. eapply runs_mono; [apply (entries_runs n); [done|lia|done|apply Hg]|].
    intros [] s1 [Hi1 HR1]. apply runs_bind. exists g', s1. split; [unfold mlift; by rewrite E|].
    eapply runs_mono; [apply (IH (n + Z.of_nat (length (current g)))); [lia|done|lia|lia|done]|].
    intros pages s2 (Hi2 & out & Ho & HR2). split.
    { replace (n + Z.of_nat (left g)) with (n + Z.of_nat (length (current g)) + Z.of_nat (left g')) by lia. done. }
    exists (current g ++ out). split; [intros pa; by rewrite of_page_app, Ho, Hp|].
    rewrite replay_app. eapply (rewritten_trans _ s s1 s2 (replay cid out)); [done|done|].
    intros ca Hca. apply replay_norm. by apply HR1.
Qed.

Lemma reader_runs n s max r cid : 0 <= n -> n + Z.of_nat (length r) < 2 ^ 32 -> 0 < max < 2 ^ 64 -> inv n s -> Forall loc_entry r ->
  runs (processTLogReaderInterface page_bits pick max r cid) s
    (fun _ s' => inv (n + Z.of_nat (length r)) s' /\ rewritten (replay cid r (pentry page_bits s)) s s').
Proof.
  intros Hn Hb Hm Hi Hr. unfold processTLogReaderInterface.
  destruct (create_ok (pageAddress page_bits) pick max r Hr Hm) as (g & E & Hg & Hl & Hp).
  apply runs_bind. exists g, s. split; [unfold mlift; by rewrite E|]. rewrite <- Hl in *.
  eapply runs_mono; [apply (processPages_runs _ g n); [done|done|lia|done|done]|].
  intros k s' (Hi' & out & Ho & [He Hc Hu Hd]). split; [done|]. split; try done. intros ca Hca. rewrite (He ca Hca). f_equal.
  apply (replay_pages (pageAddress page_bits)). intros pa. by rewrite Ho, Hp.
Qed.
(** The logs of all clones, oldest clone first. *)
Definition replay_clones (ctl : list (Z * list Entry.Entry)) (f : Z -> ClusterLocationAndHash) : Z -> ClusterLocationAndHash :=
  fold_left (fun f c => replay (fst c) (snd c) f) ctl f.

Definition entries_of (ctl : list (Z * list Entry.Entry)) : nat := length (concat (snd <$> ctl)).

(** The clone ids go down. *)
Fixpoint descending (prev : option Z) (ctl : list (Z * list Entry.Entry)) : bool :=
  match ctl with
  | [] => true
  | (c, _) :: rest => match prev with Some p => c <? p | None => true end && descending (Some c) rest
  end.

Lemma replay_clones_fits ctl f g ca : fits 35 ca -> (forall ca, fits 35 ca -> norm (f ca) = norm (g ca)) ->
  norm (replay_clones ctl f ca) = norm (replay_clones ctl g ca).
Proof.
  intros Hca. revert f g. induction ctl as [|c ctl IH]; intros f g Hfg; [by apply Hfg|]. cbn. apply IH.
  intros ca' Hca'. by apply replay_norm, Hfg.
Qed.

Lemma clone_logs_runs n s max ctl prev : 0 <= n -> n + Z.of_nat (entries_of ctl) < 2 ^ 32 -> 0 < max < 2 ^ 64 -> inv n s ->
  Forall (fun c => Forall loc_entry (snd c)) ctl -> descending prev ctl = true ->
  runs (clone_logs page_bits pick max prev ctl) s
    (fun _ s' => inv (n + Z.of_nat (entries_of ctl)) s' /\ rewritten (replay_clones ctl (pentry page_bits s)) s s').
Proof.
  intros Hn. revert n s prev Hn. induction ctl as [|[cid r] ctl IH]; intros n s prev Hn Hb Hm Hi Hl Hd.
  - apply runs_ret. cbn. rewrite Z.add_0_r. split; [done|apply rewritten_refl].
  - apply Forall_cons in Hl as [Hr Hl]. cbn [descending] in Hd. apply andb_true_iff in Hd as [Hp Hd].
    assert (entries_of ((cid, r) :: ctl) = (length r + entries_of ctl)%nat) as Ee by (unfold entries_of; cbn; by rewrite length_app).
    rewrite Ee in *. cbn [clone_logs]. apply runs_bind. rewrite Hp. apply runs_ret, runs_bind.
    eapply runs_mono; [apply (reader_runs n); [done|lia|done|done|done]|]. intros k s1 [Hi1 HR1].
    eapply runs_mono; [apply (IH (n + Z.of_nat (length r))); [lia|lia|done..]|]. intros [] s2 [Hi2 HR2].
    replace (n + Z.of_nat (length r + entries_of ctl)) with (n + Z.of_nat (length r) + Z.of_nat (entries_of ctl)) by lia.
    split; [done|]. change (replay_clones ((cid, r) :: ctl) (pentry page_bits s))
      with (replay_clones ctl (replay cid r (pentry page_bits s))).
    eapply (rewritten_trans _ s s1 s2 (replay_clones ctl)); [done|done|].
    intros ca Hca. apply replay_clones_fits; [done|]. intros ca' Hca'. by apply HR1.
Qed.

Lemma set_cork_runs n s u : inv n s ->
  runs (on_backend (setCork u) ;! on_backend be_sync) s (fun _ s' => inv n s' /\ (clean s -> clean s') /\
    (forall pa, same zero_weed (pview page_bits s' pa) (pview page_bits s pa)) /\ corks_ s' = corks_ s /\
    cork_of (backend_ s') = Some u).
Proof.
  intros Hi. apply runs_bind.
  destruct (setCork_spec u (backend_ s)) as (b1 & E1 & R1 & Hco & Hsc & Hst & Hpa & Hus); [apply Hi|].
  destruct (swap_backend page_bits zero_weed n s b1) as (Hi1 & HK1 & Hc1); [done..|].
  eapply on_backend_runs; [exact E1|].
  destruct (sync_spec b1 R1) as (b2 & E2 & R2 & Hsc2 & Hco2 & Hst2 & Hpa2 & Hus2).
  destruct (swap_backend page_bits zero_weed n (with_backend b1 s) b2) as (Hi2 & HK2 & Hc2); [done..|].
  eapply on_backend_runs; [exact E2|]. split_and!; [done|auto| |done|by rewrite <- Hco].
  intros pa. by rewrite HK2, HK1.
Qed.

(** C21: replaying the logs of a clone's ancestors, grouped into pages in any
    order, has the effect of writing their entries one by one, oldest clone
    first, with the clone id of their log; with [sync] the result and the cork
    are on the backend. *)
Theorem replay_exact n s max ctl sync c :
  0 <= n -> n + Z.of_nat (entries_of ctl) < 2 ^ 32 -> 0 < max < 2 ^ 64 -> inv n s ->
  (corks_ s = [] \/ exists u, corks_ s = [(u, [])]) ->
  Forall (fun c => Forall loc_entry (snd c)) ctl -> descending None ctl = true ->
  exists s', processCloneTLogs page_bits pick max ctl sync c s = (s', Ok tt) /\ lastCork s' = c /\
    forall ca, fits 35 ca ->
      view page_bits zero_weed s' ca = norm (replay_clones ctl (pentry page_bits s) ca) /\
      (sync = true -> stored_at page_bits zero_weed (backend_ s') ca = norm (replay_clones ctl (pentry page_bits s) ca)) /\
      (sync = true -> forall u, c = Some u -> cork_of (backend_ s') = Some u).
Proof.
  intros Hn Hb Hm Hi Hck Hl Hd.
  destruct (clone_logs_runs n s max ctl None Hn Hb Hm Hi Hl Hd) as ([] & s1 & E1 & Hi1 & HR1).
  assert (forall ca, find_in_corks ca (rev (corks_ s)) = None) as Hf by (intros ca; by destruct Hck as [-> |[u ->]]).
  assert (runs (if sync then
     let! s := mget in
     miter (fun i => maybeWritePage_locked_context i false ;! mret tt) (page_list_ s) ;!
     match c with
     | Some u => on_backend (setCork u) ;! on_backend be_sync
     | None => mret tt
     end
   else mret tt) s1 (fun _ s2 => inv (n + Z.of_nat (entries_of ctl)) s2 /\ (sync = true -> clean s2) /\
     (forall pa, same zero_weed (pview page_bits s2 pa) (pview page_bits s1 pa)) /\ corks_ s2 = corks_ s1 /\
     (sync = true -> forall u, c = Some u -> cork_of (backend_ s2) = Some u))) as ([] & s2 & E2 & Hi2 & Hc2 & HK2 & Hk2 & Hu2).
  { destruct sync; [|by apply runs_ret]. apply runs_bind, runs_get, runs_bind.
    eapply runs_mono; [eapply flush_runs; [done| |exact Hi1]; lia|]. intros [] s2 (Hi2 & HK & Hcl).
    assert (inv (n + Z.of_nat (entries_of ctl)) s2) as Hi2' by (eapply inv_mono; [done| |exact Hi2]; lia).
    destruct c as [u|].
    - eapply runs_mono; [by eapply set_cork_runs|]. intros [] s3 (Hi3 & Hcl3 & HK3 & Hk3 & Hu3).
      split_and!; [done|auto| |by rewrite Hk3, (k_corks _ _ _ _ HK)|by intros _ u' [= <-]].
      intros pa. by rewrite HK3, (k_pages _ _ _ _ HK).
    - apply runs_ret. split_and!; [done|done|apply HK|apply HK|done]. }
  exists (with_corks c (corks_ s2) s2). split.
  { unfold processCloneTLogs. unfold mbind at 1, mget at 1. unfold mbind at 1. unfold fail_unless.
    assert (match corks_ s with [] => true | [(_, m)] => (length m =? 0)%nat | _ => false end = true) as ->
      by (by destruct Hck as [-> |[u ->]]).
    unfold mret at 1, mbind at 1. rewrite E1. unfold mbind at 1. rewrite E2. done. }
  split; [done|]. intros ca Hca.
  assert (norm (pentry page_bits s2 ca) = norm (replay_clones ctl (pentry page_bits s) ca)) as Ee.
  { rewrite (pages_entry _ _ _ _ _ HK2). by apply HR1. }
  split_and!; [|intros Hs|done].
  - unfold view. cbn [with_corks corks_]. by rewrite Hk2, (rw_corks _ _ _ _ _ HR1), Hf.
  - rewrite <- Ee. change (backend_ (with_corks c (corks_ s2) s2)) with (backend_ s2). unfold stored_at, pentry. apply same_nth. symmetry.
    eapply clean_durable; [apply Hi2|by apply Hc2].
Qed.
End Store.

Import KV LocalBackend TokyoCabinet TokyoCabinetFacts MetaDataClaims.

(** Two clones, the second log overwriting an entry of the first. *)
Lemma replay_exact_witness : exists s',
  processCloneTLogs 2 (fun _ => 7%nat) 2 [(1, [Entry.mkEntry 3 (loc 5); Entry.mkEntry 9 (loc 6)]); (0, [Entry.mkEntry 9 (loc 7)])]
    true (Some 4) full_store = (s', Ok tt) /\
  view 2 0 s' 9 = loc 7 /\ cork_of (backend_ s') = Some 4.
Proof.
  destruct (replay_exact 2 0 ltac:(lia) (fun _ => 7%nat) 0 full_store 2
    [(1, [Entry.mkEntry 3 (loc 5); Entry.mkEntry 9 (loc 6)]); (0, [Entry.mkEntry 9 (loc 7)])] true (Some 4))
    as (s' & E & _ & H); [lia|cbn; lia|lia|apply full_store_inv|by left| |done|].
  { repeat (constructor; cbn [snd]); cbn; lia. }
  exists s'. destruct (H 9) as (Hv & _ & Hc); [split; lia|]. split_and!; [exact E| |by apply Hc].
  rewrite Hv. reflexivity.
Defined.
End Replay.
