(* ===== verification/Scrubbing.v ===== *)
(** * Scrubbing TLogs

    The steps of src/src/volumedriver/Scrubber.cpp that work on TLogs: TLogSplitter
    cuts the log of a snapshot into regions of the address space, PartScrubber
    keeps the latest entry of every cluster of a region, TLogMerger puts the
    regions together again, TLogCutter and TheSonOfTLogCutter cut the result and
    the relocations into TLogs of bounded size.

    A TLog file is the list of its entries: that what a writer was given is what
    the readers return is shown in TLogIOFacts.v.  [BackwardTLogReader] reads that
    list from its end.  The object store is a class. *)

From S2P Require Import Prelude Addressing TLogEntry TLogs MetaDataStore.

(** ** TLog files as lists of entries *)
Module EntryFile.
Import CLH Entry.

(** [TLogWriter::add] of a location. *)
Definition add (e : Entry) (file : list Entry) : res (list Entry) :=
  let? ca := clusterAddress e in
  let? e' := Entry_loc ca (clusterLocationAndHash e) in
  Ok (file ++ [e']).

(** What [nextLocation] yields, one after the other. *)
Definition locations (file : list Entry) : list Entry := List.filter isLocation file.
Definition backward (file : list Entry) : list Entry := rev (locations file).
End EntryFile.

(** ** [ScrubbingSCOData] *)
Module ScrubbingSCOData.
Inductive State : Type := Unknown | Scrubbed | NotScrubbed | Reused.

Record ScrubbingSCOData : Type := mkSCOData {
  sconame_ : SCO.SCO;
  usageCount : Z;
  size : Z;
  state : State }.

Definition make (sconame : SCO.SCO) : ScrubbingSCOData := mkSCOData sconame 0 1 Unknown.
Definition grow (s : ScrubbingSCOData) : ScrubbingSCOData :=
  mkSCOData (sconame_ s) (usageCount s) (u16 (size s + 1)) (state s).
Definition use (s : ScrubbingSCOData) : ScrubbingSCOData :=
  mkSCOData (sconame_ s) (u16 (usageCount s + 1)) (size s) (state s).
End ScrubbingSCOData.

(** ** [TLogSplitter] *)
Module TLogSplitter.
Import ClusterLocation CLH Entry EntryFile ScrubbingSCOData.
Section TLogSplitter.
Variable region_exponent_ : Z.

(** The files of the regions, by index, and the SCOs met so far. *)
Record TLogSplitter : Type := mkSplitter {
  tlogs_ : list (Z * list Entry);
  sco_data_ : list ScrubbingSCOData }.

Definition count_sco (sco : SCO.SCO) (d : list ScrubbingSCOData) : list ScrubbingSCOData :=
  match last d with
  | Some s => if SCO.eqb sco (sconame_ s) then removelast d ++ [grow s] else d ++ [make sco]
  | None => d ++ [make sco]
  end.

Definition doEntry (t : TLogSplitter) (e : Entry) : res TLogSplitter :=
  let? ca := clusterAddress e in
  if 64 <=? region_exponent_ then Throw UndefinedBehaviour else
  let index := Z.shiftr ca region_exponent_ in
  let file := match OMap.find index (tlogs_ t) with Some f => f | None => [] end in
  let? file' := add e file in
  Ok (mkSplitter (OMap.insert index file' (tlogs_ t)) (count_sco (sco_ (clusterLocation_ e)) (sco_data_ t))).

Definition split (reader : list Entry) : res TLogSplitter := rfold doEntry (mkSplitter [] []) (locations reader).
End TLogSplitter.
End TLogSplitter.

(** ** [PartScrubber] *)
Module PartScrubber.
Import ClusterLocation CLH Entry EntryFile ScrubbingSCOData.
Section PartScrubber.
Variable region_exponent_ : Z.

Record Part : Type := mkPart {
  out_tlog : list Entry;
  bitset : gset Z;
  scodata_ : list ScrubbingSCOData;
  (** the position of the reverse iterator, counted from the end *)
  scodata_iterator : nat }.

(** The first slot at or behind [k], from the end, that has the name. *)
Fixpoint seek (sconame : SCO.SCO) (k : nat) (rd : list ScrubbingSCOData) : option nat :=
  match rd with
  | [] => None
  | s :: rd' =>
      match k with
      | S k' => option_map S (seek sconame k' rd')
      | O => if SCO.eqb (sconame_ s) sconame then Some O else option_map S (seek sconame O rd')
      end
  end.

Definition updateIterator (sconame : SCO.SCO) (p : Part) : res Part :=
  match seek sconame (scodata_iterator p) (rev (scodata_ p)) with
  | None => Throw IOException
  | Some k =>
      let i := (length (scodata_ p) - 1 - k)%nat in
      match scodata_ p !! i with
      | None => Throw UndefinedBehaviour
      | Some s =>
          let s' := use s in
          verify usageCount s' <=? size s' in
          Ok (mkPart (out_tlog p) (bitset p) (<[i := s']> (scodata_ p)) k)
      end
  end.

Definition doEntry (cluster_begin_ : Z) (p : Part) (e : Entry) : res Part :=
  let? ca := clusterAddress e in
  let bit := u64 (ca - cluster_begin_) in
  verify bit <? Z.shiftl 1 region_exponent_ in
  if bool_decide (bit ∈ bitset p) then Ok p
  else
    let? out := add e (out_tlog p) in
    let? p' := updateIterator (sco_ (clusterLocation_ e)) (mkPart out (bitset p) (scodata_ p) (scodata_iterator p)) in
    Ok (mkPart (out_tlog p') ({[bit]} ∪ bitset p') (scodata_ p') (scodata_iterator p')).

(** One region: its file without entries that were overwritten later, latest
    first, and the data on the SCOs. *)
Definition scrub (region : Z * list Entry) (d : list ScrubbingSCOData) : res (list Entry * list ScrubbingSCOData) :=
  verify region_exponent_ <? 64 in
  let cluster_begin_ := u64 (Z.shiftl (fst region) region_exponent_) in
  let? p := rfold (doEntry cluster_begin_) (mkPart [] ∅ d 0) (backward (snd region)) in
  Ok (out_tlog p, scodata_ p).
End PartScrubber.
End PartScrubber.

(** ** [TLogMerger] *)
Module TLogMerger.
Import ClusterLocation CLH Entry EntryFile.

(** A reader with the entry it is at: what it still has to yield. *)
Definition Reader : Type := (Entry * list Entry)%type.

Definition addTLogReader (entries : list Entry) (rs : list Reader) : list Reader :=
  match entries with
  | [] => rs
  | e :: r => rs ++ [(e, r)]
  end.

(** Whether the first of two readers goes first. *)
Definition compare (a b : Reader) : bool :=
  let fst_n := number (clusterLocation_ (fst a)) in
  let snd_n := number (clusterLocation_ (fst b)) in
  if fst_n <? snd_n then true
  else if snd_n <? fst_n then false
  else offset_ (clusterLocation_ (fst a)) <? offset_ (clusterLocation_ (fst b)).

(** The loop over the readers: [t] is the one chosen so far, at position [ti]. *)
Fixpoint choose (t : Reader) (ti i : nat) (rs : list Reader) : nat :=
  match rs with
  | [] => ti
  | r :: rs' => if compare t r then choose t ti (S i) rs' else choose r i (S i) rs'
  end.

Definition next (rs : list Reader) : option (Entry * list Reader) :=
  match rs with
  | [] => None
  | r0 :: rs' =>
      let t := choose r0 0 1 rs' in
      let r := nth t rs r0 in
      Some (fst r, match snd r with
                   | [] => take t rs ++ drop (S t) rs
                   | e :: l => <[t := (e, l)]> rs
                   end)
  end.

Fixpoint merge_loop (fuel : nat) (out : list Entry) (rs : list Reader) : res (list Entry) :=
  match fuel with
  | O => Throw OutOfFuel
  | S f =>
      match next rs with
      | None => Ok out
      | Some (e, rs') => let? out' := add e out in merge_loop f out' rs'
      end
  end.

Definition remaining (rs : list Reader) : nat := length (concat ((fun r => fst r :: snd r) <$> rs)).

(** All entries of the inputs, each input being what its reader yields, and the
    location of the last entry, as [TLogWriter::getClusterLocation] has it. *)
Definition merge (inputs : list (list Entry)) : res (list Entry * ClusterLocation) :=
  let rs := fold_left (fun rs l => addTLogReader l rs) inputs [] in
  let? out := merge_loop (S (remaining rs)) [] rs in
  Ok (out, match last out with Some e => clusterLocation_ e | None => ClusterLocation.null end).
End TLogMerger.

(** ** The metadata scrub: [Scrubber::operator()] up to the data scrub *)
Module MetaDataScrub.
Import Entry EntryFile ScrubbingSCOData.
Section MetaDataScrub.
Variable region_exponent_ : Z.

Fixpoint scrub_parts (regions : list (Z * list Entry)) (tlogs : list (list Entry)) (d : list ScrubbingSCOData)
  : res (list (list Entry) * list ScrubbingSCOData) :=
  match regions with
  | [] => Ok (tlogs, d)
  | r :: rest =>
      let? (out, d') := PartScrubber.scrub region_exponent_ r d in
      scrub_parts rest (tlogs ++ [out]) d'
  end.

(** The log of the snapshot without overwritten entries, the location of its last
    entry and the data on the SCOs.  The files' sizes are compared in a debug
    build. *)
Definition metadata_scrub (log : list Entry) : res (list Entry * ClusterLocation.ClusterLocation * list ScrubbingSCOData) :=
  let? t := TLogSplitter.split region_exponent_ log in
  let? (tlogs, d) := scrub_parts (TLogSplitter.tlogs_ t) [] (TLogSplitter.sco_data_ t) in
  let? (merged, last) := TLogMerger.merge (backward <$> tlogs) in
  verify (length (concat tlogs) =? length merged)%nat in
  Ok (merged, last, d).
End MetaDataScrub.
End MetaDataScrub.

(** ** The cutters *)
Module ObjectStore.
Import Entry TLog.

(** The namespace of the volume in the backend, as far as the cutters use it. *)
Class ObjectStore (O : Type) : Type := {
  objectExists : TLogId -> O -> bool;
  os_read : TLogId -> O -> res (list Entry);
  os_write : TLogId -> list Entry -> M O unit;
  os_remove : TLogId -> M O unit }.

Class ObjectStoreSpec (O : Type) `{ObjectStore O} : Type := {
  objects : O -> gmap TLogId (list Entry);
  objectExists_spec : forall n o, objectExists n o = bool_decide (is_Some (objects o !! n));
  os_read_spec : forall n o f, os_read n o = Ok f <-> objects o !! n = Some f;
  os_write_spec : forall n f o, exists o', os_write n f o = (o', Ok tt) /\ objects o' = <[n := f]> (objects o);
  os_remove_spec : forall n o, is_Some (objects o !! n) -> exists o', os_remove n o = (o', Ok tt) /\ objects o' = delete n (objects o) }.
End ObjectStore.

Module TLogCutter.
Import ClusterLocation CLH Entry EntryFile TLog ObjectStore.
Section TLogCutter.
Context {O : Type} `{ObjectStore O}.
Variable max_entries_ : Z.
Variable cluster_size_ : Z.
(** The ids drawn for new TLogs. *)
Variable new_id : nat -> TLogId.

Record Cutter : Type := mkCutter {
  bi_ : O;
  tlog_writer : option (list Entry);
  tlogs_ : list TLog }.

Definition makeNewTLog : M Cutter unit := mmodify (fun c =>
  mkCutter (bi_ c) (Some []) (tlogs_ c ++ [TLog.make (new_id (length (tlogs_ c)))])).

Definition verify_ (b : bool) : M Cutter unit := if b then mret tt else mthrow VerifyFailed.

Definition on_last (f : TLog -> TLog) (l : list TLog) : list TLog :=
  match last l with Some t => removelast l ++ [f t] | None => l end.

Definition writeTLogToBackend : M Cutter unit :=
  let! c := mget in
  match tlog_writer c, last (tlogs_ c) with
  | Some file, Some t =>
      verify_ (negb (objectExists (uuid t) (bi_ c))) ;!
      (fun c => let '(o, r) := os_write (uuid t) file (bi_ c) in (mkCutter o (tlog_writer c) (tlogs_ c), r)) ;!
      mmodify (fun c => mkCutter (bi_ c) (tlog_writer c) (on_last (set_writtenToBackend true) (tlogs_ c)))
  | _, _ => mthrow VerifyFailed
  end.

Definition append (e : Entry) : M Cutter unit :=
  let! c := mget in
  match tlog_writer c with
  | None => mthrow UndefinedBehaviour
  | Some file =>
      let! file' := mlift (add e file) in
      mmodify (fun c => mkCutter (bi_ c) (Some file') (on_last (add_to_backend_size cluster_size_) (tlogs_ c)))
  end.

Fixpoint cut_loop (entries_written prev_sco_num : Z) (r : list Entry) : M Cutter unit :=
  match r with
  | [] => mret tt
  | e :: r' =>
      let current_sco_num := number (clusterLocation_ e) in
      let full := (max_entries_ <=? entries_written) && negb (prev_sco_num =? current_sco_num) in
      (if full then writeTLogToBackend ;! makeNewTLog else mret tt) ;!
      append e ;!
      cut_loop (u64 ((if full then 0 else entries_written) + 1)) current_sco_num r'
  end.

Definition cut (file : list Entry) : M Cutter (list TLog) :=
  makeNewTLog ;!
  cut_loop 0 0 (locations file) ;!
  writeTLogToBackend ;!
  let! c := mget in mret (tlogs_ c).
End TLogCutter.
Arguments Cutter : clear implicits.
End TLogCutter.

Module TheSonOfTLogCutter.
Import ClusterLocation CLH Entry EntryFile TLog ObjectStore.
Section TheSonOfTLogCutter.
Context {O : Type} `{ObjectStore O}.
Variable max_entries_ : Z.
Variable new_name : nat -> TLogId.

Record Cutter : Type := mkCutter {
  bi_ : O;
  tlog_writer : option (list Entry);
  tlog_names_ : list TLogId }.

Definition makeNewTLog : M Cutter unit := mmodify (fun c =>
  mkCutter (bi_ c) (Some []) (tlog_names_ c ++ [new_name (length (tlog_names_ c))])).

Definition verify_ (b : bool) : M Cutter unit := if b then mret tt else mthrow VerifyFailed.

Definition writeTLogToBackend : M Cutter unit :=
  let! c := mget in
  match tlog_writer c, last (tlog_names_ c) with
  | Some file, Some name =>
      verify_ (negb (objectExists name (bi_ c))) ;!
      (fun c => let '(o, r) := os_write name file (bi_ c) in (mkCutter o (tlog_writer c) (tlog_names_ c), r))
  | _, _ => mthrow VerifyFailed
  end.

Definition append (e : Entry) : M Cutter unit :=
  let! c := mget in
  match tlog_writer c with
  | None => mthrow UndefinedBehaviour
  | Some file =>
      let! file' := mlift (add e file) in
      mmodify (fun c => mkCutter (bi_ c) (Some file') (tlog_names_ c))
  end.

Fixpoint cut_loop (entries_written : Z) (r : list Entry) : M Cutter unit :=
  match r with
  | [] => mret tt
  | e :: r' =>
      let full := (max_entries_ <=? entries_written) && (entries_written mod 2 =? 0) in
      (if full then writeTLogToBackend ;! makeNewTLog else mret tt) ;!
      append e ;!
      cut_loop (u64 ((if full then 0 else entries_written) + 1)) r'
  end.

Definition cut (file : list Entry) : M Cutter unit :=
  makeNewTLog ;!
  cut_loop 0 (locations file) ;!
  writeTLogToBackend.
End TheSonOfTLogCutter.
Arguments Cutter : clear implicits.
End TheSonOfTLogCutter.
