(* ===== verification/SCOPool.v ===== *)
(** * The data scrub

    src/src/volumedriver/SCOPool.cpp: reads the clusters of SCOs that are little
    used, writes them together into new SCOs and puts out where each cluster went.
    A name of a file in the pool or of an object in the backend is [SCO::str] of
    its SCO; the SCO itself stands for it here, as different SCOs have different
    names (Addressing.v).  Access frequencies are binary32 floating point numbers. *)

From Stdlib Require Import SpecFloat.
From S2P Require Import Prelude CheckSum Addressing TLogEntry TLogs MetaDataStore Scrubbing.

#[global] Instance sco_countable : Countable SCO.SCO.
Proof.
  apply (inj_countable' (fun s => (SCO.version_ s, SCO.number_ s, SCO.cloneID_ s)) (fun '(v, n, c) => SCO.mkSCO v n c)).
  by intros [].
Defined.

(** ** [std::map] with SCOs for keys *)
Module SMap.
Section SMap.
Context {V : Type}.

Fixpoint insert (k : SCO.SCO) (v : V) (m : list (SCO.SCO * V)) : list (SCO.SCO * V) :=
  match m with
  | [] => [(k, v)]
  | (k', v') :: m' =>
      if SCO.ltb k k' then (k, v) :: m
      else if SCO.eqb k k' then (k, v) :: m'
      else (k', v') :: insert k v m'
  end.

Fixpoint find (k : SCO.SCO) (m : list (SCO.SCO * V)) : option V :=
  match m with
  | [] => None
  | (k', v') :: m' => if SCO.eqb k k' then Some v' else find k m'
  end.
End SMap.
End SMap.

(** ** [float] *)
Module Float.
Definition prec : Z := 24.
Definition emax : Z := 128.
Definition zero : spec_float := S754_zero false.
Definition add : spec_float -> spec_float -> spec_float := SFadd prec emax.
Definition div : spec_float -> spec_float -> spec_float := SFdiv prec emax.
Definition of_Z (z : Z) : spec_float := binary_normalize prec emax z 0 false.
End Float.

(** ** [NormalizedSCOAccessData] *)
Module NormalizedSCOAccessData.
(** From the vector in the backend, if there is one that can be read. *)
Definition NormalizedSCOAccessData (vec : option (list (SCO.SCO * spec_float))) : list (SCO.SCO * spec_float) :=
  match vec with
  | None => []
  | Some vec =>
      if forallb (fun p => SFleb Float.zero (snd p)) vec then
        let total := fold_left (fun t p => Float.add t (snd p)) vec Float.zero in
        if SFltb Float.zero total then
          fold_left (fun m p => match SMap.find (fst p) m with
                                | Some _ => m
                                | None => SMap.insert (fst p) (Float.div (snd p) total) m
                                end) vec []
        else []
      else []
  end.
End NormalizedSCOAccessData.

(** ** The backend, as far as SCOs are concerned *)
Module SCOStore.
Import CheckSum.

Class SCOStore (O : Type) : Type := {
  sco_exists : SCO.SCO -> O -> bool;
  sco_read : SCO.SCO -> O -> res (list Z);
  sco_write : SCO.SCO -> list Z -> CheckSum -> M O unit;
  sco_remove : SCO.SCO -> M O unit }.

(** A write succeeds if the check sum is that of the data. *)
Class SCOStoreSpec (O : Type) `{SCOStore O} : Type := {
  scos_of : O -> gmap SCO.SCO (list Z);
  sco_exists_spec : forall n o, sco_exists n o = bool_decide (is_Some (scos_of o !! n));
  sco_read_spec : forall n o d, scos_of o !! n = Some d -> sco_read n o = Ok d;
  sco_write_spec : forall n d cs o, cs = update Crc32cHw CheckSum_default d ->
    exists o', sco_write n d cs o = (o', Ok tt) /\ scos_of o' = <[n := d]> (scos_of o);
  sco_remove_spec : forall n o, is_Some (scos_of o !! n) -> exists o', sco_remove n o = (o', Ok tt) /\ scos_of o' = delete n (scos_of o) }.
End SCOStore.

(** ** [SCOPool] *)
Module SCOPool.
Import CheckSum ClusterLocation CLH Entry EntryFile ScrubbingSCOData SCOStore.
Section SCOPool.
Context {OS : Type} `{SCOStore OS}.
Variable cluster_size_ : Z.
(** in clusters *)
Variable sco_size_ : Z.
Variable minimum_used_entries_ : Z.

(** The members, by what they are for: the walk over the SCOs, ... *)
Record Walk : Type := mkWalk {
  scodata_ : list ScrubbingSCOData;
  scodata_iterator_ : nat;
  to_be_reused_iterator_ : nat;
  current_usage_count_ : Z }.

(** ... the SCOs that are read; a descriptor is closed by setting it to null, ... *)
Record Input : Type := mkInput {
  sconame_map_ : list (SCO.SCO * bool);
  buffer_ : list Z }.

(** ... the SCO that is written, ... *)
Record Output : Type := mkOutput {
  current_sco_ : option SCO.SCO;
  current_offset_ : Z;
  current_sco_name_ : SCO.SCO;
  checksum_ : CheckSum }.

(** ... the TLogs, ... *)
Record TLogWriters : Type := mkWriters {
  nonrewritten_tlog : list Entry;
  rewritten_tlog : list Entry;
  relocations_tlog : list Entry }.

(** ... and what is counted. *)
Record Statistics : Type := mkStatistics {
  access_data_ : list (SCO.SCO * spec_float);
  new_sco_access_data : list (SCO.SCO * spec_float);
  backend_size_ : Z;
  number_of_scos_read_from_backend : Z;
  number_of_scos_written_to_backend : Z }.

(** [filepool_]: the SCO files in the directory; [new_scos_] is a copy. *)
Record Pool : Type := mkPool {
  walk : Walk;
  input : Input;
  output : Output;
  tlogs : TLogWriters;
  statistics : Statistics;
  new_scos_ : list SCO.SCO;
  filepool_ : gmap SCO.SCO (list Z);
  backendinterface_ : OS }.

Definition on_walk (f : Walk -> Walk) : M Pool unit := mmodify (fun p =>
  mkPool (f (walk p)) (input p) (output p) (tlogs p) (statistics p) (new_scos_ p) (filepool_ p) (backendinterface_ p)).
Definition on_input (f : Input -> Input) : M Pool unit := mmodify (fun p =>
  mkPool (walk p) (f (input p)) (output p) (tlogs p) (statistics p) (new_scos_ p) (filepool_ p) (backendinterface_ p)).
Definition on_output (f : Output -> Output) : M Pool unit := mmodify (fun p =>
  mkPool (walk p) (input p) (f (output p)) (tlogs p) (statistics p) (new_scos_ p) (filepool_ p) (backendinterface_ p)).
Definition on_tlogs (f : TLogWriters -> TLogWriters) : M Pool unit := mmodify (fun p =>
  mkPool (walk p) (input p) (output p) (f (tlogs p)) (statistics p) (new_scos_ p) (filepool_ p) (backendinterface_ p)).
Definition on_statistics (f : Statistics -> Statistics) : M Pool unit := mmodify (fun p =>
  mkPool (walk p) (input p) (output p) (tlogs p) (f (statistics p)) (new_scos_ p) (filepool_ p) (backendinterface_ p)).
Definition on_new_scos (f : list SCO.SCO -> list SCO.SCO) : M Pool unit := mmodify (fun p =>
  mkPool (walk p) (input p) (output p) (tlogs p) (statistics p) (f (new_scos_ p)) (filepool_ p) (backendinterface_ p)).
Definition on_filepool (f : gmap SCO.SCO (list Z) -> gmap SCO.SCO (list Z)) : M Pool unit := mmodify (fun p =>
  mkPool (walk p) (input p) (output p) (tlogs p) (statistics p) (new_scos_ p) (f (filepool_ p)) (backendinterface_ p)).
Definition on_backend (m : M OS unit) : M Pool unit := fun p =>
  let '(o, r) := m (backendinterface_ p) in
  (mkPool (walk p) (input p) (output p) (tlogs p) (statistics p) (new_scos_ p) (filepool_ p) o, r).

Definition verify_ (b : bool) : M Pool unit := if b then mret tt else mthrow VerifyFailed.

(** [FilePool::newFile] *)
Definition newFile (name : SCO.SCO) : M Pool unit :=
  let! p := mget in
  match filepool_ p !! name with
  | Some _ => mthrow IOException
  | None => on_filepool (fun m => <[name := []]> m)
  end.

Definition set_state (i : nat) (st : State) (w : Walk) : Walk :=
  mkWalk (alter (fun s => mkSCOData (sconame_ s) (usageCount s) (size s) st) i (scodata_ w))
         (scodata_iterator_ w) (to_be_reused_iterator_ w) (current_usage_count_ w).
Definition set_iterator (i : nat) (w : Walk) : Walk :=
  mkWalk (scodata_ w) i (to_be_reused_iterator_ w) (current_usage_count_ w).
Definition set_reused (i : nat) (w : Walk) : Walk :=
  mkWalk (scodata_ w) (scodata_iterator_ w) i (current_usage_count_ w).
Definition set_usage (n : Z) (w : Walk) : Walk :=
  mkWalk (scodata_ w) (scodata_iterator_ w) (to_be_reused_iterator_ w) n.

Definition state_eqb (a b : State) : bool := match a, b with
  | Unknown, Unknown | Scrubbed, Scrubbed | NotScrubbed, NotScrubbed | Reused, Reused => true
  | _, _ => false end.

(** *** The walk to the SCO of an entry *)
Fixpoint seek_sco (fuel : nat) (sco_name : SCO.SCO) : M Pool unit :=
  match fuel with
  | O => mthrow OutOfFuel
  | S f =>
      let! p := mget in
      let it := scodata_iterator_ (walk p) in
      match scodata_ (walk p) !! it with
      | None => mret tt
      | Some s =>
          if SCO.eqb sco_name (sconame_ s) then mret tt
          else
            (if state_eqb (state s) Unknown
             then verify_ (usageCount s =? 0) ;! on_walk (set_state it Scrubbed)
             else verify_ (current_usage_count_ (walk p) =? 0)) ;!
            on_walk (set_iterator (S it)) ;!
            seek_sco f sco_name
      end
  end.

(** *** Names of new SCOs *)
Definition nextVersion (version : Z) : Z := if version =? 255 then 0 else u8 (version + 1).

Fixpoint free_version (n : nat) (o : OS) (num clone version : Z) : res SCO.SCO :=
  match n with
  | O => Throw IOException
  | S n' =>
      let version' := nextVersion version in
      let sconame := SCO.make num clone version' in
      if negb (sco_exists sconame o) then Ok sconame else free_version n' o num clone version'
  end.

Definition makeNewSCOName (o : OS) (s : SCO.SCO) : res SCO.SCO :=
  free_version 255 o (SCO.number_ s) (SCO.cloneID_ s) (SCO.version_ s).

(** *** The SCO being written *)
Definition divide_access (name : SCO.SCO) (n : Z) (s : Statistics) : Statistics :=
  let v := default Float.zero (SMap.find name (new_sco_access_data s)) in
  mkStatistics (access_data_ s) (SMap.insert name (Float.div v (Float.of_Z n)) (new_sco_access_data s)) (backend_size_ s)
    (number_of_scos_read_from_backend s) (u64 (number_of_scos_written_to_backend s + 1)).

(** The file of the current SCO goes to the backend. *)
Definition upload (name path : SCO.SCO) : M Pool unit :=
  let! p := mget in
  verify_ (negb (sco_exists name (backendinterface_ p))) ;!
  match filepool_ p !! path with
  | None => mthrow BackendException
  | Some data => on_backend (sco_write name data (checksum_ (output p)))
  end ;!
  on_new_scos (fun l => l ++ [name]).

Fixpoint seek_reusable (fuel : nat) : M Pool unit :=
  match fuel with
  | O => mthrow OutOfFuel
  | S f =>
      let! p := mget in
      let it := to_be_reused_iterator_ (walk p) in
      match scodata_ (walk p) !! it with
      | None => mthrow UndefinedBehaviour
      | Some s =>
          if state_eqb (state s) Scrubbed then mret tt
          else on_walk (set_reused (S it)) ;! seek_reusable f
      end
  end.

Definition put_current (out : Output) (old_sco_path : SCO.SCO) : M Pool unit :=
  on_output (fun o => mkOutput None (current_offset_ o) (current_sco_name_ o) (checksum_ o)) ;!
  verify_ (0 <? sco_size_) ;!
  on_statistics (divide_access (current_sco_name_ out) sco_size_) ;!
  upload (current_sco_name_ out) old_sco_path ;!
  on_filepool (delete (current_sco_name_ out)).

Definition reuse_sco : M Pool unit :=
  on_output (fun o => mkOutput (current_sco_ o) 0 (current_sco_name_ o) (checksum_ o)) ;!
  let! p := mget in
  seek_reusable (S (length (scodata_ (walk p)))) ;!
  let! p := mget in
  let r := to_be_reused_iterator_ (walk p) in
  match scodata_ (walk p) !! r with
  | None => mthrow VerifyFailed
  | Some s =>
      verify_ (r <=? scodata_iterator_ (walk p))%nat ;!
      on_walk (set_state r Reused) ;!
      let! name := mlift (makeNewSCOName (backendinterface_ p) (sconame_ s)) in
      on_output (fun o => mkOutput (current_sco_ o) (current_offset_ o) name (checksum_ o)) ;!
      newFile name ;!
      on_output (fun o => mkOutput (Some name) (current_offset_ o) (current_sco_name_ o) (reset (checksum_ o)))
  end.

Definition MaybeUpdateCurrentSCO : M Pool unit :=
  let! p := mget in
  let out := output p in
  if bool_decide (current_sco_ out = None) || (sco_size_ <=? current_offset_ out) then
    match current_sco_ out with
    | None => mret tt
    | Some old_sco_path => put_current out old_sco_path
    end ;!
    reuse_sco
  else mret tt.

(** *** The SCO being read *)
Definition pread (data : list Z) (off : nat) (buf : list Z) : list Z :=
  let got := take (length buf) (drop off data) in got ++ drop (length got) buf.

(** The last key of the map. *)
Definition rbegin {V} (m : list (SCO.SCO * V)) : option SCO.SCO := fst <$> last m.

Definition fetch_sco (sco_name : SCO.SCO) : M Pool unit :=
  newFile sco_name ;!
  let! p := mget in
  let! data := mlift (sco_read sco_name (backendinterface_ p)) in
  on_filepool (fun m => <[sco_name := data]> m) ;!
  on_statistics (fun s => mkStatistics (access_data_ s) (new_sco_access_data s) (backend_size_ s)
    (u64 (number_of_scos_read_from_backend s + 1)) (number_of_scos_written_to_backend s)) ;!
  on_input (fun i => mkInput (SMap.insert sco_name true (sconame_map_ i)) (buffer_ i)).

Definition open_sco (sco_name : SCO.SCO) : M Pool unit :=
  let! p := mget in
  match SMap.find sco_name (sconame_map_ (input p)) with
  | None =>
      match rbegin (sconame_map_ (input p)) with
      | None => mret tt
      | Some r =>
          on_input (fun i => mkInput (SMap.insert r false (sconame_map_ i)) (buffer_ i)) ;!
          on_filepool (delete r)
      end ;!
      fetch_sco sco_name
  | Some is_open =>
      verify_ (bool_decide (rbegin (sconame_map_ (input p)) = Some sco_name)) ;!
      verify_ is_open
  end.

Definition read_cluster (sco_name : SCO.SCO) (offset : Z) : M Pool unit :=
  let! p := mget in
  match filepool_ p !! sco_name with
  | None => mthrow UndefinedBehaviour
  | Some data => on_input (fun i => mkInput (sconame_map_ i) (pread data (Z.to_nat (u64 (offset * cluster_size_))) (buffer_ i)))
  end.

(** [new_sco_access_data[current_sco_name_] += access_data_[sco_name]]; reading a
    map with brackets makes the entry. *)
Definition count_access (name sco_name : SCO.SCO) (s : Statistics) : Statistics :=
  let a := default Float.zero (SMap.find sco_name (access_data_ s)) in
  let v := default Float.zero (SMap.find name (new_sco_access_data s)) in
  mkStatistics (SMap.insert sco_name a (access_data_ s)) (SMap.insert name (Float.add v a) (new_sco_access_data s)) (backend_size_ s)
    (number_of_scos_read_from_backend s) (number_of_scos_written_to_backend s).

(** The buffer goes to the end of the current SCO. *)
Definition write_cluster : M Pool unit :=
  let! p := mget in
  match current_sco_ (output p) with
  | None => mthrow UndefinedBehaviour
  | Some path =>
      on_filepool (alter (fun d => d ++ buffer_ (input p)) path) ;!
      on_output (fun o => mkOutput (current_sco_ o) (current_offset_ o) (current_sco_name_ o)
                                   (update Crc32cHw (checksum_ o) (buffer_ (input p))))
  end.

Definition add_rewritten (e : Entry) : M Pool unit :=
  let! p := mget in
  let loc := ClusterLocation.of_sco (current_sco_name_ (output p)) (current_offset_ (output p)) in
  let loc_and_hash := mkCLH loc (weed_ (clusterLocationAndHash e)) in
  let! ca := mlift (clusterAddress e) in
  let! e' := mlift (Entry_loc ca loc_and_hash) in
  on_tlogs (fun t => mkWriters (nonrewritten_tlog t) (rewritten_tlog t ++ [e']) (relocations_tlog t)) ;!
  let! old := mlift (add e (relocations_tlog (tlogs p))) in
  on_tlogs (fun t => mkWriters (nonrewritten_tlog t) (rewritten_tlog t) (old ++ [e'])) ;!
  on_output (fun o => mkOutput (current_sco_ o) (u16 (current_offset_ o + 1)) (current_sco_name_ o) (checksum_ o)).

Definition add_nonrewritten (e : Entry) : M Pool unit :=
  let! p := mget in
  let! l := mlift (add e (nonrewritten_tlog (tlogs p))) in
  on_tlogs (fun t => mkWriters l (rewritten_tlog t) (relocations_tlog t)).

(** *** One entry of the log *)
Definition rewrite_entry (e : Entry) : M Pool unit :=
  let sco_name := sco_ (clusterLocation_ e) in
  open_sco sco_name ;!
  read_cluster sco_name (offset_ (clusterLocation_ e)) ;!
  MaybeUpdateCurrentSCO ;!
  let! p := mget in
  on_statistics (count_access (current_sco_name_ (output p)) sco_name) ;!
  write_cluster ;!
  add_rewritten e.

Definition decide_state (it : nat) (s : ScrubbingSCOData) : M Pool unit :=
  if state_eqb (state s) Unknown then
    on_walk (set_state it (if usageCount s <? minimum_used_entries_ then Scrubbed else NotScrubbed)) ;!
    on_walk (set_usage (usageCount s))
  else mret tt.

Definition doEntry (e : Entry) : M Pool unit :=
  on_statistics (fun s => mkStatistics (access_data_ s) (new_sco_access_data s) (u64 (backend_size_ s + cluster_size_))
    (number_of_scos_read_from_backend s) (number_of_scos_written_to_backend s)) ;!
  let! p := mget in
  seek_sco (S (length (scodata_ (walk p)))) (sco_ (clusterLocation_ e)) ;!
  let! p := mget in
  let it := scodata_iterator_ (walk p) in
  match scodata_ (walk p) !! it with
  | None => mthrow VerifyFailed
  | Some s =>
      verify_ (negb (usageCount s =? 0)) ;!
      decide_state it s ;!
      let! p := mget in
      match state <$> scodata_ (walk p) !! it with
      | Some Scrubbed | Some Reused => rewrite_entry e
      | Some NotScrubbed => add_nonrewritten e
      | _ => mthrow VerifyFailed
      end ;!
      on_walk (fun w => set_usage (u16 (current_usage_count_ w - 1)) w)
  end.

(** *** The constructor and the call operator *)
Definition initial (scos : list ScrubbingSCOData) (access_data : list (SCO.SCO * spec_float)) (lastSCOName : SCO.SCO)
  (new_scos : list SCO.SCO) (o : OS) : res Pool :=
  verify forallb (fun s => SCO.number_ (sconame_ s) <=? SCO.number_ lastSCOName) scos in
  Ok (mkPool (mkWalk ((fun s => if SCO.eqb (sconame_ s) lastSCOName
                                then mkSCOData (sconame_ s) (usageCount s) (size s) NotScrubbed else s) <$> scos) 0 0 0)
             (mkInput [] (replicate (Z.to_nat cluster_size_) 0))
             (mkOutput None 0 (SCO.mkSCO 0 0 0) CheckSum_default)
             (mkWriters [] [] []) (mkStatistics access_data [] 0 0 0) new_scos ∅ o).

(** The last SCO is written, whatever is in it. *)
Definition finish : M Pool unit :=
  let! p := mget in
  let out := output p in
  (if 0 <? current_offset_ out then
     on_statistics (divide_access (current_sco_name_ out) (current_offset_ out)) ;!
     match current_sco_ out with
     | None => mthrow UndefinedBehaviour
     | Some new_sco_path => upload (current_sco_name_ out) new_sco_path
     end
   else mret tt) ;!
  on_output (fun o => mkOutput None (current_offset_ o) (current_sco_name_ o) (checksum_ o)).

(** The check sum of the relocations and how many there are. *)
Definition run (metadatascrubbed_tlog : list Entry) : M Pool (CheckSum * Z) :=
  miter doEntry (locations metadatascrubbed_tlog) ;!
  let! p := mget in
  verify_ ((scodata_iterator_ (walk p) =? length (scodata_ (walk p)))%nat ||
           (S (scodata_iterator_ (walk p)) =? length (scodata_ (walk p)))%nat) ;!
  finish ;!
  mret (fold_left EntryProcessor.update_entry (relocations_tlog (tlogs p)) CheckSum_default,
        Z.of_nat (length (relocations_tlog (tlogs p))) / 2).

Definition getSCONamesToBeDeleted (p : Pool) : res (list SCO.SCO) :=
  rfold (fun out s =>
    verify negb (state_eqb (state s) Unknown) in
    Ok (if state_eqb (state s) Scrubbed || state_eqb (state s) Reused then out ++ [sconame_ s] else out))
    [] (scodata_ (walk p)).

Definition get_access_data (p : Pool) : list (SCO.SCO * spec_float) := new_sco_access_data (statistics p).
End SCOPool.
Arguments Pool : clear implicits.
End SCOPool.
