(* ===== verification/Scrubber.v ===== *)
(** * The scrubber

    [Scrubber::operator()] of src/src/volumedriver/Scrubber.cpp over the steps of
    Scrubbing.v and SCOPool.v: the TLogs of a snapshot in, the TLogs that replace
    them, the relocations and the SCOs that are no longer used out.

    The namespace of the volume in the backend is four stores: for the TLogs, the
    SCOs, the snapshots file and the results of scrubs.  The ids drawn for TLogs are a
    sequence; the snapshots file is the persistor that it holds. *)

From Stdlib Require Import SpecFloat.
From S2P Require Import Prelude CheckSum Addressing TLogEntry TLogs Snapshots SnapshotPersistor MetaDataStore Scrubbing SCOPool.

Module Scrubber.
Import CheckSum ClusterLocation CLH Entry EntryFile TLog ObjectStore SCOStore.

Record ScrubberArgs : Type := mkArgs {
  snapshot_name : Snapshot.SnapshotName;
  region_size_exponent : Z;
  sco_size : Z;
  cluster_size_exponent : Z;
  fill_ratio : spec_float }.

Record ScrubberResult : Type := mkResult {
  tlog_names_in : list TLogId;
  tlogs_out : list TLog;
  relocs : list TLogId;
  relocNum : Z;
  sconames_to_be_deleted : list SCO.SCO;
  prefetch : list (SCO.SCO * spec_float);
  new_sconames : list SCO.SCO }.

(** [static_cast] of a non-negative [float] that fits to an integer. *)
Definition float_to_u16 (f : spec_float) : Z :=
  match f with
  | S754_finite false m e => u16 (Z.shiftl (Z.pos m) e)
  | _ => 0
  end.

(** The constructor: the use of a SCO that saves it from being scrubbed. *)
Definition Scrubber (args : ScrubberArgs) : res Z :=
  if SFltb (Float.of_Z 1) (fill_ratio args) || SFltb (fill_ratio args) Float.zero then Throw IOException
  else Ok (float_to_u16 (SFmul Float.prec Float.emax (Float.of_Z (sco_size args)) (fill_ratio args))).

(** [Volume::cleanupScrubbingOnError_]: the objects that are queued for removal. *)
Inductive Garbage : Type := GarbageSCO (s : SCO.SCO) | GarbageTLog (id : TLogId) | GarbageReloc (id : TLogId) | GarbageResult.

Definition cleanup_garbage (tlogReferenced : TLogId -> bool) (r : ScrubberResult) : list Garbage :=
  if existsb (fun t => tlogReferenced (uuid t)) (tlogs_out r) then []
  else (GarbageSCO <$> new_sconames r) ++ ((fun t => GarbageTLog (uuid t)) <$> tlogs_out r) ++ (GarbageReloc <$> relocs r) ++ [GarbageResult].

(** The snapshots file and the scrub results in the backend. *)
Class SnapshotsFile (F : Type) : Type := {
  snapshots_read : F -> res SnapshotPersistor.SnapshotPersistor;
  snapshots_write : SnapshotPersistor.SnapshotPersistor -> M F unit }.

Class SnapshotsFileSpec (F : Type) `{SnapshotsFile F} : Type := {
  snapshots_in : F -> option SnapshotPersistor.SnapshotPersistor;
  snapshots_read_spec : forall f p, snapshots_read f = Ok p <-> snapshots_in f = Some p;
  snapshots_write_spec : forall p f, exists f', snapshots_write p f = (f', Ok tt) /\ snapshots_in f' = Some p }.

Class ResultStore (R : Type) : Type := {
  result_exists : UUID -> R -> bool;
  result_write : UUID -> ScrubberResult -> M R unit }.

Class ResultStoreSpec (R : Type) `{ResultStore R} : Type := {
  results : R -> gmap UUID ScrubberResult;
  result_exists_spec : forall n o, result_exists n o = bool_decide (is_Some (results o !! n));
  result_write_spec : forall n r o, exists o', result_write n r o = (o', Ok tt) /\ results o' = <[n := r]> (results o) }.

Section Scrubber.
Context {TS OS : Type} `{ObjectStore TS} `{SCOStore OS}.
Variable max_entries_ : Z.
Variable new_id new_reloc_id : nat -> TLogId.

Record Namespace : Type := mkNS { ns_tlogs : TS; ns_scos : OS }.

(** [CombinedTLogReader::create]: the TLogs one after the other. *)
Fixpoint read_tlogs (ids : list TLogId) (o : TS) : res (list Entry) :=
  match ids with
  | [] => Ok []
  | i :: ids' =>
      let? f := os_read i o in
      let? r := read_tlogs ids' o in
      Ok (f ++ r)
  end.

(** A step on one of the stores. *)
Definition on_scos {A} (f : OS -> OS * res A) : M Namespace A := fun ns =>
  let '(o, r) := f (ns_scos ns) in (mkNS (ns_tlogs ns) o, r).
Definition on_tlogs {A} (f : TS -> TS * res A) : M Namespace A := fun ns =>
  let '(o, r) := f (ns_tlogs ns) in (mkNS o (ns_scos ns), r).

Definition verify_ (b : bool) : M Namespace unit := if b then mret tt else mthrow VerifyFailed.

(** The data scrub, with the pool it leaves behind. *)
Definition data_scrub (cluster_size sco_size minimum : Z) (d : list ScrubbingSCOData.ScrubbingSCOData)
  (access : list (SCO.SCO * spec_float)) (last : SCO.SCO) (new_scos : list SCO.SCO) (metadata_scrubbed : list Entry) : M Namespace (Z * SCOPool.Pool OS) :=
  on_scos (fun o =>
    match SCOPool.initial cluster_size d access last new_scos o with
    | Throw e => (o, Throw e)
    | Ok p =>
        let '(p', r) := SCOPool.run cluster_size sco_size minimum metadata_scrubbed p in
        (SCOPool.backendinterface_ p', let? (_, n) := r in Ok (n, p'))
    end).

Definition cut_tlog (cluster_size : Z) (file : list Entry) : M Namespace (list TLog) :=
  on_tlogs (fun o => let '(c, r) := TLogCutter.cut max_entries_ cluster_size new_id file (TLogCutter.mkCutter o None []) in
                     (TLogCutter.bi_ c, r)).

Definition cut_relocations (file : list Entry) : M Namespace (list TLogId) :=
  on_tlogs (fun o => let '(c, r) := TheSonOfTLogCutter.cut max_entries_ new_reloc_id file (TheSonOfTLogCutter.mkCutter o None []) in
                     (TheSonOfTLogCutter.bi_ c, let? _ := r in Ok (TheSonOfTLogCutter.tlog_names_ c))).

(** The [try] block around the snapshots file: whatever is thrown leaves it as a
    [ScrubberException]. *)
Definition no_cleanup {A} (r : res A) : res A := match r with Ok a => Ok a | Throw _ => Throw ScrubberException end.

(** [access] is what [NormalizedSCOAccessData] has from the backend. *)
Definition scrub (args : ScrubberArgs) (minimum_number_of_used_entries : Z) (access : list (SCO.SCO * spec_float))
  (snapshot_persistor_ : SnapshotPersistor.SnapshotPersistor) : M Namespace ScrubberResult :=
  let! snapshot_num_ := mlift (no_cleanup (SnapshotPersistor.getSnapshotNum snapshot_persistor_ (snapshot_name args))) in
  let ids := snd (SnapshotPersistor.getTLogsInSnapshot snapshot_persistor_ snapshot_num_ []) in
  verify_ (negb (length ids =? 0)%nat) ;!
  let! ns := mget in
  let! log := mlift (read_tlogs ids (ns_tlogs ns)) in
  let! (metadata_scrubbed, last, d) := mlift (MetaDataScrub.metadata_scrub (region_size_exponent args) log) in
  let cluster_size := u64 (Z.shiftl 1 (cluster_size_exponent args)) in
  let result_new_sconames := [] in
  let! (relocNum, pool) := data_scrub cluster_size (sco_size args) minimum_number_of_used_entries d access (sco_ last) result_new_sconames metadata_scrubbed in
  let t := SCOPool.tlogs pool in
  let! (result_tlog, _) := mlift (TLogMerger.merge [locations (SCOPool.rewritten_tlog t); locations (SCOPool.nonrewritten_tlog t)]) in
  let! tlogs_out := cut_tlog (u32 (Z.shiftl 1 (cluster_size_exponent args))) result_tlog in
  verify_ (negb (length tlogs_out =? 0)%nat) ;!
  let! relocs :=
    (if (0 <? length (SCOPool.relocations_tlog t))%nat then
       let! names := cut_relocations (SCOPool.relocations_tlog t) in
       verify_ (negb (length names =? 0)%nat) ;! mret names
     else mret []) in
  let! deleted := mlift (SCOPool.getSCONamesToBeDeleted pool) in
  mret (mkResult ids tlogs_out relocs relocNum deleted (SCOPool.get_access_data pool) result_new_sconames).

(** *** The whole run *)
Context {F R : Type} `{SnapshotsFile F} `{ResultStore R}.

Record Backend : Type := mkBackend { b_ns : Namespace; b_snapshots : F; b_results : R }.

Definition on_ns {A} (m : M Namespace A) : M Backend A := fun b =>
  let '(n, r) := m (b_ns b) in (mkBackend n (b_snapshots b) (b_results b), r).
Definition on_snapshots {A} (m : M F A) : M Backend A := fun b =>
  let '(f, r) := m (b_snapshots b) in (mkBackend (b_ns b) f (b_results b), r).
Definition on_results {A} (m : M R A) : M Backend A := fun b =>
  let '(o, r) := m (b_results b) in (mkBackend (b_ns b) (b_snapshots b) o, r).

(** The snapshots file; reading one checks it. *)
Definition load_snapshots : M Backend SnapshotPersistor.SnapshotPersistor :=
  let! b := mget in
  mlift (no_cleanup (let? p := snapshots_read (b_snapshots b) in
                     let? _ := SnapshotPersistor.verifySanity_ p in Ok p)).

(** [not args_.apply_immediately]: the result becomes an object of its own. *)
Definition store_result (result_id : UUID) (result_ : ScrubberResult) : M Backend (option UUID) :=
  let! b := mget in
  (if result_exists result_id (b_results b) then mthrow VerifyFailed else mret tt) ;!
  on_results (result_write result_id result_) ;!
  mret (Some result_id).

(** [args_.apply_immediately]: the snapshot gets its new TLogs, and what is no longer
    needed is removed. *)
Definition apply_result (cork : UUID) (snapshot_num_ : Snapshot.SnapshotNum)
  (snapshot_persistor_ : SnapshotPersistor.SnapshotPersistor) (result_ : ScrubberResult) : M Backend (option UUID) :=
  let! (_, p) := mlift (SnapshotPersistor.replace snapshot_persistor_ (tlog_names_in result_) (tlogs_out result_) snapshot_num_ cork) in
  let! p' := mlift (SnapshotPersistor.setSnapshotScrubbed p snapshot_num_ true) in
  on_snapshots (snapshots_write p') ;!
  miter (fun s => on_ns (on_scos (sco_remove s))) (sconames_to_be_deleted result_) ;!
  miter (fun i => on_ns (on_tlogs (os_remove i))) (tlog_names_in result_) ;!
  mret None.

(** [Scrubber::operator()]; the ids that it may draw are arguments. *)
Definition run (args : ScrubberArgs) (apply_immediately : bool) (minimum_number_of_used_entries : Z)
  (access : list (SCO.SCO * spec_float)) (result_id cork : UUID) : M Backend (option UUID) :=
  let! snapshot_persistor_ := load_snapshots in
  let! result_ := on_ns (scrub args minimum_number_of_used_entries access snapshot_persistor_) in
  if apply_immediately then
    let! snapshot_num_ := mlift (SnapshotPersistor.getSnapshotNum snapshot_persistor_ (snapshot_name args)) in
    apply_result cork snapshot_num_ snapshot_persistor_ result_
  else store_result result_id result_.
End Scrubber.
Arguments Namespace : clear implicits.
Arguments Backend : clear implicits.
End Scrubber.
