(* ===== verification/ScrubbingFacts.v ===== *)
(** * The scrubber's steps, one by one

    Lemmas on Scrubbing.v: the merger terminates, loses nothing and sorts; the
    splitter partitions the log by region and counts the runs of SCOs; the part
    scrubber keeps the latest entry of each cluster and counts its SCO. *)

From stdpp Require Import sorting.
From S2P Require Import Prelude Addressing TLogEntry TLogs PageGenerator MetaDataStore MetaDataBackends MetaDataFacts MetaDataTheorems Scrubbing.

(** ** Files of locations, and the order of their entries *)
Module EntryFileFacts.
Import ClusterLocation CLH Entry EntryFile PageGeneratorFacts.

Lemma add_loc e f : loc_entry e -> add e f = Ok (f ++ [e]).
Proof.
  intros He. unfold add. rewrite (loc_entry_address e He). cbn [rbind]. unfold Entry_loc.
  destruct He as [[_ Hf] Hn]. unfold clusterLocationAndHash. rewrite Hn. cbn [negb].
  rewrite (proj2 (Z.leb_le _ _)) by (change max_valid_cluster_address with (2 ^ 35 - 1); lia).
  cbn [rbind]. by destruct e.
Qed.

Lemma isLocation_loc e : loc_entry e -> isLocation e = true.
Proof. intros [_ Hn]. unfold isLocation. apply EntryFacts.is_type_true. unfold type. by rewrite Hn. Qed.

Lemma locations_all l : Forall loc_entry l -> locations l = l.
Proof. unfold locations. induction 1 as [|e l He Hl IH]; cbn; [done|]. rewrite isLocation_loc by done. by f_equal. Qed.

Lemma backward_all l : Forall loc_entry l -> backward l = rev l.
Proof. intros H. unfold backward. by rewrite locations_all. Qed.

(** Entries by the place of their cluster in the data. *)
Definition loc_le (a b : Entry) : Prop :=
  number (clusterLocation_ a) < number (clusterLocation_ b) \/
  (number (clusterLocation_ a) = number (clusterLocation_ b) /\ offset_ (clusterLocation_ a) <= offset_ (clusterLocation_ b)).

Definition loc_lt (a b : Entry) : Prop :=
  number (clusterLocation_ a) < number (clusterLocation_ b) \/
  (number (clusterLocation_ a) = number (clusterLocation_ b) /\ offset_ (clusterLocation_ a) < offset_ (clusterLocation_ b)).

#[export] Instance loc_le_dec a b : Decision (loc_le a b).
Proof. unfold loc_le. apply _. Defined.

#[export] Instance loc_lt_dec a b : Decision (loc_lt a b).
Proof. unfold loc_lt. apply _. Defined.

#[export] Instance loc_le_preorder : PreOrder loc_le.
Proof. split; red; unfold loc_le; lia. Qed.

#[export] Instance loc_lt_trans : Transitive loc_lt.
Proof. red; unfold loc_lt; lia. Qed.

Lemma loc_lt_le a b : loc_lt a b -> loc_le a b.
Proof. unfold loc_lt, loc_le. lia. Qed.

Lemma loc_lt_not a b : loc_lt a b -> ~ loc_le b a.
Proof. unfold loc_lt, loc_le. lia. Qed.

Lemma sorted_lt_le l : StronglySorted loc_lt l -> StronglySorted loc_le l.
Proof.
  induction 1 as [|e l Hl IH He]; constructor; [done|]. eapply Forall_impl; [exact He|]. apply loc_lt_le.
Qed.

(** A sorted arrangement of strictly sorted entries is that list itself. *)
Lemma sorted_unique l m : StronglySorted loc_lt l -> StronglySorted loc_le m -> m ≡ₚ l -> m = l.
Proof.
  intros Hl Hm Hp. apply (StronglySorted_unique_strong loc_le); [|done|by apply sorted_lt_le|done].
  intros x y Hx Hy Hxy Hyx. rewrite Hp in Hx.
  apply list_elem_of_lookup in Hx as [i Hi], Hy as [j Hj].
  destruct (Nat.lt_trichotomy i j) as [H|[->|H]].
  - exfalso. exact (loc_lt_not _ _ (sorted_lookup _ _ _ _ _ _ Hl Hi Hj H) Hyx).
  - congruence.
  - exfalso. exact (loc_lt_not _ _ (sorted_lookup _ _ _ _ _ _ Hl Hj Hi H) Hxy).
Qed.
End EntryFileFacts.

(** ** [TLogMerger] *)
Module MergerFacts.
Import ClusterLocation CLH Entry EntryFile TLogMerger PageGeneratorFacts EntryFileFacts.

Definition flat (r : Reader) : list Entry := fst r :: snd r.
Definition all (rs : list Reader) : list Entry := concat (flat <$> rs).

Lemma compare_true a b : compare a b = true -> loc_le (fst a) (fst b).
Proof. unfold compare, loc_le. intros H. repeat split_match; lia. Qed.

Lemma compare_false a b : compare a b = false -> loc_le (fst b) (fst a).
Proof. unfold compare, loc_le. intros H. repeat split_match; lia. Qed.

(** The loop finds a least reader. *)
Lemma choose_spec t ti i rs : exists m,
  ((choose t ti i rs = ti /\ m = t) \/ (exists j, choose t ti i rs = (i + j)%nat /\ rs !! j = Some m)) /\
  loc_le (fst m) (fst t) /\ Forall (fun r => loc_le (fst m) (fst r)) rs.
Proof.
  revert t ti i. induction rs as [|r rs IH]; intros t ti i; cbn [choose].
  - exists t. split_and!; [by left|done|done].
  - destruct (compare t r) eqn:E.
    + destruct (IH t ti (S i)) as (m & Hk & Ht & Hall). exists m. split_and!; [|done|].
      * destruct Hk as [?|(j & -> & Hj)]; [by left|right]. exists (S j). split; [lia|done].
      * constructor; [|done]. etransitivity; [done|]. by apply compare_true.
    + destruct (IH r i (S i)) as (m & Hk & Ht & Hall). exists m. split_and!; [| |by constructor].
      * right. destruct Hk as [[-> ->]|(j & -> & Hj)]; [exists O|exists (S j)]; (split; [lia|done]).
      * etransitivity; [done|]. by apply compare_false.
Qed.

Definition advance (l : list Entry) : list Reader := match l with [] => [] | e :: l' => [(e, l')] end.

Lemma next_spec (r0 : Reader) (rs' : list Reader) : exists (rs1 : list Reader) e l (rs2 : list Reader), r0 :: rs' = rs1 ++ (e, l) :: rs2 /\
  Forall (fun r => loc_le e (fst r)) (r0 :: rs') /\ next (r0 :: rs') = Some (e, rs1 ++ advance l ++ rs2).
Proof.
  destruct (choose_spec r0 0 1 rs') as ([e l] & Hk & H0 & Hall). cbn [next fst] in *.
  set (t := choose r0 0 1 rs') in *. clearbody t.
  assert ((r0 :: rs') !! t = Some (e, l)) as Ht.
  { destruct Hk as [[-> <-]|(j & -> & Hj)]; done. }
  exists (take t (r0 :: rs')), e, l, (drop (S t) (r0 :: rs')). split_and!.
  - symmetry. by apply take_drop_middle.
  - by constructor.
  - rewrite (nth_lookup_Some _ _ _ _ Ht). cbn [fst snd]. destruct l as [|e' l]; [done|].
    by rewrite insert_take_drop by (by apply lookup_lt_Some in Ht).
Qed.

Lemma all_app a b : all (a ++ b) = all a ++ all b.
Proof. unfold all. by rewrite fmap_app, concat_app. Qed.

Lemma all_advance l : all (advance l) = l.
Proof. destruct l; [done|]. cbn. by rewrite app_nil_r. Qed.

Lemma all_cons r rs : all (r :: rs) = fst r :: snd r ++ all rs.
Proof. done. Qed.

(** Enough fuel for every entry: the loop ends, and it has put out every entry
    once, in the order of its input. *)
Lemma merge_loop_spec fuel out rs : Forall loc_entry (all rs) -> (length (all rs) < fuel)%nat ->
  exists m, merge_loop fuel out rs = Ok (out ++ m) /\ m ≡ₚ all rs /\ Forall (fun r => flat r `sublist_of` m) rs /\
    (Forall (fun r => StronglySorted loc_le (flat r)) rs -> StronglySorted loc_le m).
Proof.
  revert out rs. induction fuel as [|f IH]; intros out rs Hloc Hf; [lia|]. cbn [merge_loop].
  destruct rs as [|r0 rs']; [exists []; cbn; rewrite app_nil_r; split_and!; (done || constructor)|].
  destruct (next_spec r0 rs') as (rs1 & e & l & rs2 & E & Hle & ->).
  set (rs := r0 :: rs') in *. clearbody rs. subst rs.
  assert (all (rs1 ++ (e, l) :: rs2) ≡ₚ e :: all (rs1 ++ advance l ++ rs2)) as Hp.
  { rewrite !all_app, all_cons, all_advance. cbn [fst snd].
    symmetry. apply Permutation_middle. }
  rewrite Hp in Hloc, Hf. apply Forall_cons in Hloc as [He Hloc]. rewrite add_loc by done. cbn [rbind].
  destruct (IH (out ++ [e]) _ Hloc ltac:(cbn in Hf; lia)) as (m & -> & Hm & Hsub & Hsort).
  exists (e :: m). split_and!; [by rewrite <- app_assoc|by rewrite Hm, Hp| |].
  - apply Forall_app in Hsub as [H1 [Ha H2]%Forall_app]. apply Forall_app.
    split; [eapply Forall_impl; [exact H1|]; intros; by apply sublist_cons|].
    constructor; [|eapply Forall_impl; [exact H2|]; intros; by apply sublist_cons].
    unfold flat. cbn. apply sublist_skip. destruct l; cbn in *; [apply sublist_nil_l|].
    apply Forall_cons in Ha as [Ha _]. exact Ha.
  - intros Hs. constructor.
    + apply Hsort. apply Forall_app in Hs as [H1 [Ha H2]%Forall_cons]. apply Forall_app; split; [done|].
      apply Forall_app; split; [|done]. destruct l; cbn; constructor; [|done]. cbn in Ha. by apply StronglySorted_inv in Ha as [Ha _].
    + rewrite Hm. apply Forall_forall. intros x Hx.
      assert (x ∈ all (rs1 ++ (e, l) :: rs2)) as Hx' by (rewrite Hp; by right).
      apply elem_of_concat in Hx' as (fl & (r & -> & Hr)%list_elem_of_fmap & Hxf).
      rewrite Forall_forall in Hle, Hs. transitivity (fst r); [by apply Hle|].
      apply elem_of_cons in Hxf as [->|Hxr]; [done|].
      pose proof (Hs r Hr) as [_ Hr']%StronglySorted_inv. rewrite Forall_forall in Hr'. by apply Hr'.
Qed.

Lemma readers_of inputs rs :
  flat <$> fold_left (fun rs l => addTLogReader l rs) inputs rs = (flat <$> rs) ++ List.filter (fun l => negb (bool_decide (l = []))) inputs.
Proof.
  revert rs. induction inputs as [|l inputs IH]; intros rs; cbn [fold_left List.filter]; [by rewrite app_nil_r|].
  rewrite IH. destruct l as [|e l]; cbn [addTLogReader]; [done|].
  rewrite fmap_app. by rewrite <- app_assoc.
Qed.

Lemma concat_nonempty (inputs : list (list Entry)) : concat (List.filter (fun l => negb (bool_decide (l = []))) inputs) = concat inputs.
Proof. induction inputs as [|l inputs IH]; [done|]. cbn [List.filter concat]. destruct l; cbn; [done|]. by rewrite IH. Qed.

Definition last_location (out : list Entry) : ClusterLocation :=
  match last out with Some e => clusterLocation_ e | None => ClusterLocation.null end.

Lemma merge_spec inputs : Forall loc_entry (concat inputs) ->
  exists out, merge inputs = Ok (out, last_location out) /\ out ≡ₚ concat inputs /\
    Forall (fun l => l `sublist_of` out) inputs /\
    (Forall (StronglySorted loc_le) inputs -> StronglySorted loc_le out).
Proof.
  intros Hloc. unfold merge. set (rs := fold_left _ inputs []).
  pose proof (readers_of inputs []) as Hrs. change (fold_left _ inputs []) with rs in Hrs. cbn [fmap list_fmap app] in Hrs.
  assert (all rs = concat inputs) as Ha by (unfold all; by rewrite Hrs, concat_nonempty).
  destruct (merge_loop_spec (S (remaining rs)) [] rs) as (m & -> & Hm & Hsub & Hsort); [by rewrite Ha|change (remaining rs) with (length (all rs)); lia|].
  exists m. cbn [rbind app]. split_and!; [done|by rewrite Hm, Ha| |].
  - apply Forall_forall. intros l Hl. destruct l as [|e l]; [apply sublist_nil_l|].
    assert (e :: l ∈ flat <$> rs) as (r & -> & Hr)%list_elem_of_fmap.
    { rewrite Hrs. by apply elem_of_lfilter. }
    rewrite Forall_forall in Hsub. by apply Hsub.
  - intros Hs. apply Hsort. rewrite Forall_forall in Hs. apply Forall_forall. intros r Hr. apply Hs.
    assert (flat r ∈ flat <$> rs) as Hf by (by apply list_elem_of_fmap_2).
    rewrite Hrs in Hf. by apply elem_of_lfilter in Hf as [Hf _].
Qed.
End MergerFacts.

(** ** Logs, their SCOs and their live entries *)
Module LogFacts.
Import ClusterLocation CLH Entry EntryFile PageGeneratorFacts EntryFileFacts ScrubbingSCOData.

Definition sco_of (e : Entry) : SCO.SCO := sco_ (clusterLocation_ e).
Definition num_lt (a b : SCO.SCO) : Prop := SCO.number_ a < SCO.number_ b.

(** Clusters are written to ever higher places, and the version and clone of a
    SCO go with its number. *)
Record sane_log (l : list Entry) : Prop := mkSane {
  sl_loc : Forall loc_entry l;
  sl_sorted : StronglySorted loc_lt l;
  sl_sco : Forall (fun e => Forall (fun e' => SCO.number_ (sco_of e) = SCO.number_ (sco_of e') -> sco_of e = sco_of e') l) l }.

Lemma sane_sco l e e' : sane_log l -> e ∈ l -> e' ∈ l -> SCO.number_ (sco_of e) = SCO.number_ (sco_of e') -> sco_of e = sco_of e'.
Proof. intros [_ _ H]. rewrite Forall_forall in H. intros He He'. pose proof (H e He) as H'. rewrite Forall_forall in H'. auto. Qed.

Lemma sane_sublist l l' : l' `sublist_of` l -> sane_log l -> sane_log l'.
Proof.
  intros Hs [H1 H2 H3]. split.
  - rewrite Forall_forall in *. intros x Hx. apply H1. by eapply elem_of_sublist.
  - by eapply sorted_sublist.
  - rewrite Forall_forall in *. intros x Hx. assert (x ∈ l) as Hx' by (by eapply elem_of_sublist).
    pose proof (H3 x Hx') as H. rewrite Forall_forall in *. intros y Hy. apply H. by eapply elem_of_sublist.
Qed.

(** The SCOs of a log, in the order they are met. *)
Definition push_sco (d : list SCO.SCO) (e : Entry) : list SCO.SCO :=
  match last d with
  | Some s => if SCO.eqb (sco_of e) s then d else d ++ [sco_of e]
  | None => [sco_of e]
  end.
Definition scos (l : list Entry) : list SCO.SCO := fold_left push_sco l [].

Definition in_sco (s : SCO.SCO) (e : Entry) : bool := SCO.eqb (sco_of e) s.
Definition count (s : SCO.SCO) (l : list Entry) : Z := Z.of_nat (length (List.filter (in_sco s) l)).

Lemma scos_app l e : scos (l ++ [e]) = push_sco (scos l) e.
Proof. unfold scos. by rewrite fold_left_app. Qed.

Lemma count_app s l1 l2 : count s (l1 ++ l2) = count s l1 + count s l2.
Proof. unfold count. rewrite List.filter_app, length_app. lia. Qed.

Lemma count_cons s e l : count s (e :: l) = (if in_sco s e then 1 else 0) + count s l.
Proof. unfold count. cbn. destruct (in_sco s e); cbn [length]; lia. Qed.

Lemma count_perm s l1 l2 : l1 ≡ₚ l2 -> count s l1 = count s l2.
Proof.
  induction 1 as [|x l1 l2 H IH|x y l|l1 l2 l3 H1 IH1 H2 IH2]; rewrite ?count_cons; [done|by rewrite IH|lia|congruence].
Qed.

Lemma count_sublist s l1 l2 : l1 `sublist_of` l2 -> count s l1 <= count s l2.
Proof. induction 1 as [|x l1 l2 H IH|x l1 l2 H IH]; rewrite ?count_cons; [done|lia|]. destruct (in_sco s x); lia. Qed.

Lemma count_nonneg s l : 0 <= count s l.
Proof. unfold count. lia. Qed.

Lemma in_sco_eq s e : in_sco s e = true <-> sco_of e = s.
Proof. apply AddressingFacts.sco_eqb_eq. Qed.

Lemma count_none s l : (forall e, e ∈ l -> sco_of e <> s) -> count s l = 0.
Proof.
  intros H. unfold count. rewrite lfilter_none; [done|]. intros e He. destruct (in_sco s e) eqn:E; [|done].
  apply in_sco_eq in E. by destruct (H e He).
Qed.

Lemma last_num_max ss s s' : StronglySorted num_lt ss -> last ss = Some s' -> s ∈ ss -> s = s' \/ num_lt s s'.
Proof.
  intros Hs Hl Hin. rewrite last_lookup in Hl. apply list_elem_of_lookup in Hin as [i Hi].
  pose proof (lookup_lt_Some _ _ _ Hi) as Hlt.
  destruct (decide (i = pred (length ss))) as [->|]; [left; congruence|right].
  eapply sorted_lookup; [exact Hs|exact Hi|exact Hl|lia].
Qed.

Lemma scos_spec l : sane_log l ->
  StronglySorted num_lt (scos l) /\ (forall s, s ∈ scos l <-> exists e, e ∈ l /\ sco_of e = s).
Proof.
  induction l as [|e l IH] using rev_ind; intros Hsane.
  { split; [constructor|]. intros s. split; [by intros ?%elem_of_nil|]. by intros (e & ?%elem_of_nil & _). }
  destruct IH as [Hs He]; [eapply sane_sublist; [|done]; by apply sublist_inserts_r|].
  assert (e ∈ l ++ [e]) as Hee by (apply elem_of_app; right; by left).
  assert (forall s, s ∈ scos l -> s = sco_of e \/ num_lt s (sco_of e)) as Hle.
  { intros s (e' & He' & <-)%He. pose proof (sl_sorted _ Hsane) as Hlt.
    apply (StronglySorted_app_1_elem_of loc_lt _ _ e' e) in Hlt; [|done|by left].
    destruct (decide (SCO.number_ (sco_of e') = SCO.number_ (sco_of e))) as [E|Hne].
    - left. apply (sane_sco _ _ _ Hsane); [by apply elem_of_app; left|done|done].
    - right. unfold loc_lt, num_lt, sco_of, number in *. lia. }
  assert (forall ss : list SCO.SCO, (forall s, s ∈ ss <-> s ∈ scos l \/ s = sco_of e) ->
    forall s, s ∈ ss <-> exists e', e' ∈ l ++ [e] /\ sco_of e' = s) as Hin.
  { intros ss H s. rewrite H, He. setoid_rewrite elem_of_app. setoid_rewrite list_elem_of_singleton. split.
    - intros [(e' & ? & ?)|E]; [|rewrite E]; eauto.
    - intros (e' & Hor & <-). destruct Hor as [?|E]; [left; eauto|right; by rewrite E]. }
  rewrite scos_app. unfold push_sco. destruct (last (scos l)) as [s'|] eqn:El.
  - destruct (SCO.eqb (sco_of e) s') eqn:Eq.
    + apply AddressingFacts.sco_eqb_eq in Eq. subst s'. split; [done|]. apply Hin. intros s. split; [by left|].
      intros [?|E]; [done|]. rewrite E. by apply last_Some_elem_of.
    + assert (Forall (fun s => num_lt s (sco_of e)) (scos l)) as Hall.
      { apply Forall_forall. intros s Hin'. destruct (Hle s Hin') as [->|]; [|done]. exfalso.
        assert (sco_of e <> s') as Hne by (intros <-; by rewrite (proj2 (AddressingFacts.sco_eqb_eq _ _) eq_refl) in Eq).
        pose proof (last_num_max _ _ _ Hs El Hin') as [?|Hlt]; [done|].
        destruct (Hle s' (last_Some_elem_of _ _ El)) as [?|]; [done|]. unfold num_lt in *. lia. }
      split.
      * apply StronglySorted_app_2; [|done|repeat constructor].
        intros x y Hx ->%list_elem_of_singleton. rewrite Forall_forall in Hall. by apply Hall.
      * apply Hin. intros s. by rewrite elem_of_app, list_elem_of_singleton.
  - apply last_None in El. rewrite El in *. split; [repeat constructor|]. apply Hin. intros s.
    rewrite list_elem_of_singleton, elem_of_nil. tauto.
Qed.

(** ** The entries that no later one overwrites *)
Definition addresses (l : list Entry) : list Z := clusteraddress_ <$> l.

Fixpoint live (l : list Entry) : list Entry :=
  match l with
  | [] => []
  | e :: r => if bool_decide (clusteraddress_ e ∈ addresses r) then live r else e :: live r
  end.

Lemma live_sublist l : live l `sublist_of` l.
Proof. induction l as [|e l IH]; cbn; [done|]. case_bool_decide; [by apply sublist_cons|by apply sublist_skip]. Qed.

Lemma live_addresses l a : a ∈ addresses (live l) <-> a ∈ addresses l.
Proof.
  unfold addresses. induction l as [|e l IH]; [done|]. cbn [live]. case_bool_decide as H.
  - rewrite IH. cbn. rewrite elem_of_cons. split; [by right|]. intros [->|?]; [|done]. exact H.
  - cbn. by rewrite !elem_of_cons, IH.
Qed.

Lemma live_NoDup l : NoDup (addresses (live l)).
Proof.
  induction l as [|e l IH]; cbn [live]; [apply NoDup_nil_2|]. case_bool_decide as H; [done|]. apply NoDup_cons.
  split; [|done]. by rewrite live_addresses.
Qed.

Lemma live_lfilter (f : Z -> bool) l :
  live (List.filter (fun e => f (clusteraddress_ e)) l) = List.filter (fun e => f (clusteraddress_ e)) (live l).
Proof.
  induction l as [|e l IH]; [done|]. cbn [live List.filter].
  assert (f (clusteraddress_ e) = true ->
    clusteraddress_ e ∈ addresses (List.filter (fun e => f (clusteraddress_ e)) l) <-> clusteraddress_ e ∈ addresses l) as H.
  { intros Hf. unfold addresses. rewrite !list_elem_of_fmap. setoid_rewrite elem_of_lfilter. split.
    - intros (y & E & Hy & _). eauto.
    - intros (y & E & Hy). exists y. split_and!; [done|done|by rewrite <- E]. }
  destruct (f (clusteraddress_ e)) eqn:Ef; cbn [live].
  - rewrite (bool_decide_ext _ _ (H eq_refl)). case_bool_decide; [done|]. cbn [List.filter]. by rewrite Ef, IH.
  - case_bool_decide; [done|]. cbn [List.filter]. by rewrite Ef, IH.
Qed.

Lemma last_live l : last (live l) = last l.
Proof.
  induction l as [|e l IH]; [done|]. cbn [live]. case_bool_decide as H.
  - rewrite IH. destruct l as [|e' l]; [by apply elem_of_nil in H|done].
  - by rewrite (last_cons e (live l)), (last_cons e l), IH.
Qed.

(** ** The scrubber's records on the SCOs [ss], by what is counted *)
Definition data_of (ss : list SCO.SCO) (us sz : SCO.SCO -> Z) : list ScrubbingSCOData :=
  (fun s => mkSCOData s (us s) (sz s) Unknown) <$> ss.

Lemma data_of_ext ss us sz us' sz' : (forall s, s ∈ ss -> us s = us' s) -> (forall s, s ∈ ss -> sz s = sz' s) ->
  data_of ss us sz = data_of ss us' sz'.
Proof.
  intros Hu Hz. unfold data_of. apply list_fmap_ext. intros i s Hi. apply list_elem_of_lookup_2 in Hi.
  by rewrite Hu, Hz.
Qed.

Lemma data_of_names ss us sz : sconame_ <$> data_of ss us sz = ss.
Proof. unfold data_of. rewrite <- list_fmap_compose. by apply list_fmap_id. Qed.

Lemma num_sorted_NoDup ss : StronglySorted num_lt ss -> NoDup ss.
Proof.
  induction 1 as [|s ss H IH Hs]; [apply NoDup_nil_2|]. apply NoDup_cons. split; [|done]. intros Hin.
  rewrite Forall_forall in Hs. specialize (Hs s Hin). unfold num_lt in Hs. lia.
Qed.
End LogFacts.
