(* ===== verification/ScrubbingTheorems.v ===== *)
(** * The metadata scrub

    The steps of ScrubbingFacts.v put together: what [Scrubber::operator()] hands to
    the data scrub is exactly the log without the entries that a later one
    overwrites, in the order of the log, with the use of every SCO. *)

From stdpp Require Import sorting.
From S2P Require Import Prelude Addressing TLogEntry TLogs PageGenerator MetaDataStore MetaDataBackends MetaDataFacts MetaDataTheorems MetaDataClaims Replay Scrubbing ScrubbingFacts.

(** ** [TLogSplitter] *)
Module SplitterFacts.
Import ClusterLocation CLH Entry EntryFile ScrubbingSCOData TLogSplitter PageGeneratorFacts EntryFileFacts LogFacts OMapFacts.
Section SplitterFacts.
Variable ex : Z.
Hypothesis Hex : 0 <= ex < 64.

Definition region (e : Entry) : Z := Z.shiftr (clusteraddress_ e) ex.
Definition of_region (i : Z) (l : list Entry) : list Entry := List.filter (fun e => region e =? i) l.

Lemma of_region_app i l1 l2 : of_region i (l1 ++ l2) = of_region i l1 ++ of_region i l2.
Proof. apply List.filter_app. Qed.

Lemma sorted_find {V} k (v : V) m : OMap.sorted m -> (k, v) ∈ m -> OMap.find k m = Some v.
Proof.
  induction m as [|[a x] m IH]; intros Hs; [by intros ?%elem_of_nil|]. pose proof (sorted_head _ _ _ Hs) as [Hs' Ha].
  intros [[= -> ->]|Hin]%elem_of_cons; cbn; [by rewrite Z.eqb_refl|].
  rewrite (proj2 (Z.eqb_neq k a)); [by apply IH|]. intros ->. apply Ha. apply list_elem_of_fmap. by exists (a, v).
Qed.

(** What is in the files after the entries [l]. *)
Definition file_at (t : TLogSplitter) (i : Z) : list Entry :=
  match OMap.find i (tlogs_ t) with Some f => f | None => [] end.

Record split_ok (l : list Entry) (t : TLogSplitter) : Prop := mkSplitOk {
  sp_sorted : OMap.sorted (tlogs_ t);
  sp_files : forall i, file_at t i = of_region i l;
  sp_known : forall e, e ∈ l -> region e ∈ fst <$> tlogs_ t;
  sp_data : sco_data_ t = fold_left (fun d e => count_sco (sco_of e) d) l [] }.

Lemma insert_keys_in {V} k (v : V) m y : y = k \/ y ∈ fst <$> m -> y ∈ fst <$> OMap.insert k v m.
Proof.
  induction m as [|[a x] m IH]; cbn.
  - intros [->|H%elem_of_nil]; [by left|done].
  - destruct (Z.ltb_spec k a); [|destruct (Z.eqb_spec k a) as [->|]]; cbn; rewrite ?elem_of_cons in *; tauto.
Qed.

Lemma split_entry l t e : loc_entry e -> split_ok l t -> exists t', doEntry ex t e = Ok t' /\ split_ok (l ++ [e]) t'.
Proof.
  intros He [Hs Hf Hk Hd]. unfold doEntry. rewrite (loc_entry_address e He). cbn [rbind].
  rewrite (proj2 (Z.leb_gt 64 ex)) by lia. fold (region e). fold (file_at t (region e)).
  rewrite add_loc by done. cbn [rbind]. eexists. split; [done|]. split; cbn [tlogs_ sco_data_].
  - by apply insert_sorted.
  - intros i. unfold file_at. cbn [tlogs_]. rewrite find_insert, of_region_app, <- (Hf i). unfold of_region. cbn.
    case_decide as E; [|].
    + subst i. by rewrite Z.eqb_refl.
    + rewrite (proj2 (Z.eqb_neq (region e) i)) by done. by rewrite app_nil_r.
  - intros x [Hx| ->%list_elem_of_singleton]%elem_of_app; apply insert_keys_in; [right; by apply Hk|by left].
  - by rewrite fold_left_app, <- Hd.
Qed.

Lemma split_runs l : Forall loc_entry l -> exists t, split ex l = Ok t /\ split_ok l t.
Proof.
  intros Hl. unfold split. rewrite locations_all by done.
  assert (split_ok [] (mkSplitter [] [])) as H0.
  { split; [constructor|done|by intros ? ?%elem_of_nil|done]. }
  induction l as [|e l IH] using rev_ind; [eauto|].
  apply Forall_app in Hl as [Hl [He _]%Forall_cons]. destruct (IH Hl) as (t & Ht & Hok).
  destruct (split_entry l t e He Hok) as (t' & Ht' & Hok'). exists t'. rewrite rfold_app, Ht. cbn [rbind rfold]. by rewrite Ht'.
Qed.

(** The files in the order of the regions. *)
Lemma split_files l t : split_ok l t -> tlogs_ t = (fun i => (i, of_region i l)) <$> (fst <$> tlogs_ t).
Proof.
  intros [Hs Hf Hk Hd]. rewrite <- list_fmap_compose. rewrite <- (list_fmap_id (tlogs_ t)) at 1.
  apply list_fmap_ext. intros j [i f] Hi. apply list_elem_of_lookup_2, sorted_find in Hi; [|done].
  specialize (Hf i). unfold file_at in Hf. rewrite Hi in Hf. cbn. by rewrite Hf.
Qed.

Lemma split_regions l t : split_ok l t -> NoDup (fst <$> tlogs_ t).
Proof.
  clear Hex. intros [Hs _ _ _]. unfold OMap.sorted in Hs. induction Hs as [|i ks H IH Hi]; [apply NoDup_nil_2|].
  apply NoDup_cons. split; [|done]. intros Hin. rewrite Forall_forall in Hi. specialize (Hi i Hin). lia.
Qed.

End SplitterFacts.

(** The counted runs are the SCOs with the number of their entries. *)
Lemma count_snoc s l e : count s (l ++ [e]) = count s l + (if in_sco s e then 1 else 0).
Proof. rewrite count_app, count_cons. change (count s []) with 0. lia. Qed.

Lemma old_runs ss l e : sco_of e ∉ ss ->
  data_of ss (fun _ => 0) (fun s => count s l) = data_of ss (fun _ => 0) (fun s => count s (l ++ [e])).
Proof.
  intros Hn. apply data_of_ext; [done|]. intros s Hs. rewrite count_snoc.
  destruct (in_sco s e) eqn:E; [|lia]. apply in_sco_eq in E. by subst s.
Qed.

Lemma new_run l e : sane_log l -> sco_of e ∉ scos l ->
  data_of (scos l) (fun _ => 0) (fun s => count s l) ++ [make (sco_of e)] =
  data_of (scos l ++ [sco_of e]) (fun _ => 0) (fun s => count s (l ++ [e])).
Proof.
  intros Hl Hn. rewrite (old_runs _ l e Hn). unfold data_of. rewrite fmap_app. f_equal. cbn. unfold make. do 2 f_equal.
  rewrite count_snoc, (proj2 (in_sco_eq (sco_of e) e)) by done. rewrite count_none; [done|].
  intros e' He' E. apply Hn. apply (scos_spec l Hl). eauto.
Qed.

Lemma count_sco_runs l : sane_log l -> (forall s, count s l < 2 ^ 16) ->
  fold_left (fun d e => count_sco (sco_of e) d) l [] = data_of (scos l) (fun _ => 0) (fun s => count s l).
Proof.
  induction l as [|e l IH] using rev_ind; intros Hsane Hc; [done|].
  assert (sane_log l) as Hl by (eapply sane_sublist; [|done]; by apply sublist_inserts_r).
  pose proof (scos_spec _ Hsane) as [Hs _]. rewrite scos_app in Hs.
  rewrite fold_left_app. cbn [fold_left]. rewrite IH; [|done|].
  2: { intros s. pose proof (Hc s) as H. rewrite count_snoc in H. destruct (in_sco s e); lia. }
  rewrite scos_app. unfold count_sco, push_sco in *.
  unfold data_of at 1. rewrite fmap_last. fold (data_of (scos l) (fun _ => 0) (fun s => count s l)).
  destruct (last (scos l)) as [s|] eqn:El; cbn [fmap option_fmap option_map].
  - cbn [sconame_]. apply num_sorted_NoDup in Hs. destruct (SCO.eqb (sco_of e) s) eqn:Eq.
    + apply AddressingFacts.sco_eqb_eq in Eq. apply last_Some in El as [ss Ess]. rewrite Ess in *.
      apply NoDup_app in Hs as (_ & Hs & _). unfold data_of. rewrite !fmap_app. cbn [fmap list_fmap].
      rewrite removelast_last. f_equal.
      * apply old_runs. intros Hin. apply (Hs _ Hin). rewrite Eq. by left.
      * unfold grow. cbn [sconame_ usageCount size state]. do 2 f_equal. pose proof (Hc s) as H. pose proof (count_nonneg s l).
        rewrite count_snoc, (proj2 (in_sco_eq s e)) in * by done. apply wrap_id. unfold fits. lia.
    + apply new_run; [done|]. apply NoDup_app in Hs as (_ & Hs & _). intros Hin. apply (Hs _ Hin). by left.
  - apply last_None in El. rewrite (new_run l e Hl); [by rewrite El|]. rewrite El. apply not_elem_of_nil.
Qed.
End SplitterFacts.

(** ** [PartScrubber] *)
Module PartFacts.
Import ClusterLocation CLH Entry EntryFile ScrubbingSCOData PartScrubber PageGeneratorFacts EntryFileFacts LogFacts.
Import SplitterFacts (region, of_region).

(** With the names distinct, the search finds the one slot there is. *)
Lemma seek_at s k rd j : NoDup (sconame_ <$> rd) -> (sconame_ <$> rd) !! j = Some s -> (k <= j)%nat -> seek s k rd = Some j.
Proof.
  revert k j. induction rd as [|x rd IH]; intros k j Hnd Hj Hk; [done|]. cbn in Hnd. apply NoDup_cons in Hnd as [Hx Hnd]. cbn [seek].
  destruct j as [|j].
  - injection Hj as Hj. replace k with O by lia. by rewrite (proj2 (AddressingFacts.sco_eqb_eq _ _) Hj).
  - cbn in Hj. destruct k as [|k]; [|by rewrite (IH k j) by (done || lia)].
    destruct (SCO.eqb (sconame_ x) s) eqn:E.
    + apply AddressingFacts.sco_eqb_eq in E. subst s. exfalso. apply Hx. by apply list_elem_of_lookup_2 in Hj.
    + by rewrite (IH O j) by (done || lia).
Qed.

Lemma seek_data ss us sz i s k : NoDup ss -> ss !! i = Some s -> (k + i < length ss)%nat ->
  seek s k (rev (data_of ss us sz)) = Some (length ss - 1 - i)%nat.
Proof.
  intros Hnd Hi Hk.
  assert (sconame_ <$> rev (data_of ss us sz) = reverse ss) as E.
  { rewrite rev_alt. fold (reverse (data_of ss us sz)). by rewrite fmap_reverse, data_of_names. }
  apply seek_at; [| |lia]; rewrite E.
  - by rewrite reverse_Permutation.
  - rewrite reverse_lookup by lia. by replace (length ss - S (length ss - 1 - i))%nat with i by lia.
Qed.

Definition bump (us : SCO.SCO -> Z) (s : SCO.SCO) : SCO.SCO -> Z := fun s' => us s' + (if SCO.eqb s s' then 1 else 0).

Lemma use_data ss us sz i s : NoDup ss -> ss !! i = Some s -> 0 <= us s < 2 ^ 16 - 1 ->
  <[i := use (mkSCOData s (us s) (sz s) Unknown)]> (data_of ss us sz) = data_of ss (bump us s) sz.
Proof.
  intros Hnd Hi Hu. apply list_eq. intros j. unfold data_of.
  destruct (decide (i = j)) as [<-|Hne].
  - rewrite list_lookup_insert_eq by (rewrite length_fmap; by apply lookup_lt_Some in Hi).
    rewrite list_lookup_fmap, Hi. cbn. unfold use, bump. cbn [sconame_ usageCount size state].
    rewrite (proj2 (AddressingFacts.sco_eqb_eq s s) eq_refl). rewrite wrap_id by (unfold fits; lia). done.
  - rewrite list_lookup_insert_ne by done. rewrite !list_lookup_fmap. destruct (ss !! j) as [s'|] eqn:Hj; [|done].
    cbn. unfold bump. destruct (SCO.eqb s s') eqn:E; [|by rewrite Z.add_0_r].
    apply AddressingFacts.sco_eqb_eq in E. subst s'. destruct Hne. by eapply NoDup_lookup.
Qed.

Section PartFacts.
Variable ex : Z.
Hypothesis Hex : 0 <= ex < 64.
(** The SCOs of the log, and the log's entries for them. *)
Variable ss : list SCO.SCO.
Variable sz : SCO.SCO -> Z.
Hypothesis Hss : StronglySorted num_lt ss.
Hypothesis Hsz : forall s, sz s < 2 ^ 16.

(** One region: its file [f], and what was counted before. *)
Variable i : Z.
Variable f : list Entry.
Variable us : SCO.SCO -> Z.
Hypothesis Hf : sane_log f.
Hypothesis Hi : forall e, e ∈ f -> region ex e = i.
Hypothesis Hin : forall e, e ∈ f -> sco_of e ∈ ss.
Hypothesis Hus : forall s, 0 <= us s.
Hypothesis Hroom : forall s, us s + count s f <= sz s.

Definition begin_ : Z := u64 (Z.shiftl i ex).
Definition bit_of (e : Entry) : Z := u64 (clusteraddress_ e - begin_).

Lemma bit_mod e : e ∈ f -> bit_of e = clusteraddress_ e mod 2 ^ ex /\ clusteraddress_ e = i * 2 ^ ex + bit_of e.
Proof.
  intros He. pose proof (Hi e He) as Hr. unfold region in Hr. rewrite Z.shiftr_div_pow2 in Hr by lia.
  pose proof (sl_loc f Hf) as Hl. rewrite Forall_forall in Hl. destruct (Hl e He) as [Hfit _].
  unfold bit_of, begin_. rewrite wrap_sub_r, Z.shiftl_mul_pow2 by lia.
  assert (0 < 2 ^ ex) by lia. rewrite <- Hr.
  pose proof (Z.div_mod (clusteraddress_ e) (2 ^ ex) ltac:(lia)) as Hdm.
  pose proof (Z.mod_pos_bound (clusteraddress_ e) (2 ^ ex) ltac:(lia)) as Hb.
  pose proof (Z.mod_le (clusteraddress_ e) (2 ^ ex) ltac:(unfold fits in Hfit; lia) ltac:(lia)) as Hm.
  replace (clusteraddress_ e - clusteraddress_ e / 2 ^ ex * 2 ^ ex) with (clusteraddress_ e mod 2 ^ ex) by lia.
  rewrite wrap_id; [split; [done|lia]|]. unfold fits in *. split; [lia|]. change (2 ^ 64) with (2 ^ 35 * 2 ^ 29). lia.
Qed.

(** After the entries [x] at the end of the file, with [y] left in front. *)
Record part_ok (y x : list Entry) (p : Part) : Prop := mkPartOk {
  pt_out : out_tlog p = rev (live x);
  pt_bits : forall b, b ∈ bitset p <-> b ∈ bit_of <$> x;
  pt_data : scodata_ p = data_of ss (fun s => us s + count s (live x)) sz;
  pt_iter : forall e, e ∈ y -> exists j, ss !! j = Some (sco_of e) /\ (scodata_iterator p + j < length ss)%nat }.

Lemma part_seen x e : e ∈ f -> (forall e', e' ∈ x -> e' ∈ f) -> bit_of e ∈ bit_of <$> x <-> clusteraddress_ e ∈ addresses x.
Proof.
  intros He Hx. unfold addresses. rewrite !list_elem_of_fmap. split; intros (e' & E & He').
  - exists e'. split; [|done]. rewrite (proj2 (bit_mod e He)), (proj2 (bit_mod e' (Hx e' He'))). lia.
  - exists e'. split; [|done]. unfold bit_of. by rewrite E.
Qed.

Lemma updateIterator_ok y x e p : f = y ++ e :: x -> clusteraddress_ e ∉ addresses x ->
  part_ok (y ++ [e]) x p ->
  exists p', updateIterator (sco_of e) (mkPart (rev (live (e :: x))) (bitset p) (scodata_ p) (scodata_iterator p)) = Ok p' /\
    out_tlog p' = rev (live (e :: x)) /\ bitset p' = bitset p /\
    scodata_ p' = data_of ss (fun s => us s + count s (live (e :: x))) sz /\
    (forall e', e' ∈ y -> exists j, ss !! j = Some (sco_of e') /\ (scodata_iterator p' + j < length ss)%nat).
Proof.
  intros Ef Hnew [Ho Hb Hd Hit]. pose proof (num_sorted_NoDup _ Hss) as Hnd.
  assert (e ∈ f) as He by (rewrite Ef; apply elem_of_app; right; by left).
  destruct (Hit e ltac:(apply elem_of_app; right; by left)) as (j & Hj & Hk).
  unfold updateIterator. cbn [scodata_ scodata_iterator out_tlog bitset]. rewrite Hd.
  rewrite (seek_data ss _ sz j (sco_of e) _ Hnd Hj Hk). cbv beta iota zeta.
  assert (length (data_of ss (fun s => us s + count s (live x)) sz) = length ss) as Hlen by (unfold data_of; apply length_fmap).
  pose proof (lookup_lt_Some _ _ _ Hj) as Hjl.
  rewrite Hlen. replace (length ss - 1 - (length ss - 1 - j))%nat with j by lia.
  unfold data_of at 1. rewrite list_lookup_fmap, Hj. cbn [fmap option_fmap option_map].
  assert (count (sco_of e) (live x) + 1 <= count (sco_of e) f) as Hc.
  { rewrite Ef, count_app, count_cons, (proj2 (in_sco_eq _ e)) by done.
    pose proof (count_sublist (sco_of e) _ _ (live_sublist x)). pose proof (count_nonneg (sco_of e) y). lia. }
  pose proof (Hroom (sco_of e)) as Hr. pose proof (Hsz (sco_of e)). pose proof (Hus (sco_of e)). pose proof (count_nonneg (sco_of e) (live x)).
  replace (usageCount (use _) <=? size (use _)) with true.
  2: { unfold use. cbn [usageCount size]. rewrite wrap_id by (unfold fits; lia). symmetry. apply Z.leb_le. lia. }
  eexists. split; [done|]. cbn [out_tlog bitset scodata_ scodata_iterator]. split_and!; [done|done| |].
  - rewrite (use_data ss (fun s => us s + count s (live x)) sz j (sco_of e)) by (done || lia).
    apply data_of_ext; [|done]. intros s _. cbn [live]. rewrite bool_decide_eq_false_2 by done.
    unfold bump. rewrite count_cons. unfold in_sco. destruct (SCO.eqb (sco_of e) s); lia.
  - intros e' He'. destruct (Hit e' ltac:(apply elem_of_app; by left)) as (j' & Hj' & Hk'). exists j'. split; [done|].
    destruct (decide (j' <= j)%nat) as [|Hgt]; [lia|]. exfalso.
    pose proof (sorted_lookup _ _ _ _ _ _ Hss Hj Hj' ltac:(lia)) as Hlt.
    pose proof (sl_sorted f Hf) as Hsrt. rewrite Ef in Hsrt.
    apply (StronglySorted_app_1_elem_of loc_lt _ _ e' e) in Hsrt; [|done|by left].
    unfold num_lt, loc_lt, sco_of, number in *. lia.
Qed.

Lemma part_entry y x e p : f = y ++ e :: x -> part_ok (y ++ [e]) x p ->
  exists p', doEntry ex begin_ p e = Ok p' /\ part_ok y (e :: x) p'.
Proof.
  intros Ef Hok. assert (e ∈ f) as He by (rewrite Ef; apply elem_of_app; right; by left).
  assert (forall e', e' ∈ x -> e' ∈ f) as Hx by (intros e' ?; rewrite Ef; apply elem_of_app; right; by right).
  pose proof (sl_loc f Hf) as Hl. rewrite Forall_forall in Hl.
  unfold doEntry. rewrite (loc_entry_address e (Hl e He)). cbn [rbind]. fold (bit_of e).
  pose proof (bit_mod e He) as [Hbm _]. rewrite Z.shiftl_mul_pow2, Z.mul_1_l by lia.
  rewrite (proj2 (Z.ltb_lt _ _)) by (rewrite Hbm; apply Z.mod_pos_bound; lia).
  rewrite (bool_decide_ext _ _ (iff_trans (pt_bits _ _ _ Hok _) (part_seen x e He Hx))).
  case_bool_decide as Hseen.
  - exists p. split; [done|]. destruct Hok as [Ho Hb Hd Hit]. split.
    + rewrite Ho. cbn [live]. by rewrite bool_decide_eq_true_2.
    + intros b. rewrite Hb. cbn. rewrite elem_of_cons. split; [by right|]. intros [->|]; [|done]. by apply part_seen.
    + rewrite Hd. cbn [live]. by rewrite bool_decide_eq_true_2.
    + intros e' He'. apply Hit. apply elem_of_app. by left.
  - rewrite add_loc by (by apply Hl). cbn [rbind].
    replace (out_tlog p ++ [e]) with (rev (live (e :: x))).
    2: { rewrite (pt_out _ _ _ Hok). cbn [live]. by rewrite bool_decide_eq_false_2. }
    destruct (updateIterator_ok y x e p Ef Hseen Hok) as (p' & Hp' & Ho & Hb & Hd & Hit).
    fold (sco_of e). rewrite Hp'. cbn [rbind]. eexists. split; [done|].
    split; cbn [out_tlog bitset scodata_ scodata_iterator]; [done| |done|done].
    intros b. rewrite Hb. cbn. rewrite elem_of_union, elem_of_singleton, elem_of_cons. by rewrite (pt_bits _ _ _ Hok).
Qed.

Lemma part_loop y x p : f = y ++ x -> part_ok y x p -> exists p', rfold (doEntry ex begin_) p (rev y) = Ok p' /\ part_ok [] f p'.
Proof.
  revert x p. induction y as [|e y IH] using rev_ind; intros x p Ef Hok.
  - exists p. by rewrite Ef.
  - rewrite <- app_assoc in Ef. destruct (part_entry y x e p Ef Hok) as (p1 & Hp1 & Hok1).
    rewrite rev_app_distr. cbn [rev app rfold]. rewrite Hp1. cbn [rbind]. by apply (IH (e :: x)).
Qed.

(** A region's part is its live entries, backwards, each counted for its SCO. *)
Lemma scrub_part : scrub ex (i, f) (data_of ss us sz) =
  Ok (rev (live f), data_of ss (fun s => us s + count s (live f)) sz).
Proof.
  unfold scrub. rewrite (proj2 (Z.ltb_lt ex 64)) by lia. cbn [fst snd]. fold begin_.
  rewrite (backward_all f (sl_loc f Hf)).
  destruct (part_loop f [] (mkPart [] ∅ (data_of ss us sz) 0)) as (p' & -> & Hok); [by rewrite app_nil_r| |].
  - split; cbn [out_tlog bitset scodata_ scodata_iterator]; [done| | |].
    + intros b. cbn. rewrite elem_of_nil. split; [by intros ?%elem_of_empty|done].
    + apply data_of_ext; [|done]. intros s _. cbn. change (count s []) with 0. lia.
    + intros e He. apply Hin, list_elem_of_lookup in He as [j Hj]. exists j. split; [done|]. by apply lookup_lt_Some in Hj.
  - cbn [rbind]. by rewrite (pt_out _ _ _ Hok), (pt_data _ _ _ Hok).
Qed.
End PartFacts.
End PartFacts.

(** ** The steps together *)
Module MetaDataScrubFacts.
Import ClusterLocation CLH Entry EntryFile ScrubbingSCOData MetaDataScrub PageGeneratorFacts EntryFileFacts LogFacts MergerFacts.
Import SplitterFacts (region, of_region, split_ok, split_runs, split_files, split_regions, count_sco_runs).
Section MetaDataScrubFacts.
Variable ex : Z.
Hypothesis Hex : 0 <= ex < 64.
Variable l : list Entry.
Hypothesis Hl : sane_log l.
Hypothesis Hcount : forall s, count s l < 2 ^ 16.

Lemma of_region_sublist i : of_region ex i l `sublist_of` l.
Proof. apply lfilter_sublist. Qed.

Lemma parts_run ks tlogs us : (forall s, 0 <= us s) ->
  (forall s, us s + count s (concat ((fun i => of_region ex i l) <$> ks)) <= count s l) ->
  scrub_parts ex ((fun i => (i, of_region ex i l)) <$> ks) tlogs (data_of (scos l) us (fun s => count s l)) =
  Ok (tlogs ++ ((fun i => rev (live (of_region ex i l))) <$> ks),
      data_of (scos l) (fun s => us s + count s (concat ((fun i => live (of_region ex i l)) <$> ks))) (fun s => count s l)).
Proof.
  revert tlogs us. induction ks as [|k ks IH]; intros tlogs us Hus Hroom; cbn [fmap list_fmap concat scrub_parts].
  - rewrite app_nil_r. do 2 f_equal. apply data_of_ext; [|done]. intros s _. change (count s []) with 0. lia.
  - cbn [fmap list_fmap concat] in Hroom. pose proof (scos_spec l Hl) as [Hss Hmem].
    assert (forall s, us s + count s (of_region ex k l) <= count s l) as Hk.
    { intros s. specialize (Hroom s). rewrite count_app in Hroom. pose proof (count_nonneg s (concat ((fun i => of_region ex i l) <$> ks))). lia. }
    rewrite (PartFacts.scrub_part ex Hex (scos l) (fun s => count s l) Hss Hcount k (of_region ex k l) us);
      [|by eapply sane_sublist; [apply of_region_sublist|]| | |done|done].
    + cbn [rbind]. rewrite IH.
      * rewrite <- app_assoc. do 2 f_equal. apply data_of_ext; [|done]. intros s _. rewrite count_app. lia.
      * intros s. pose proof (Hus s). pose proof (count_nonneg s (live (of_region ex k l))). lia.
      * intros s. specialize (Hroom s). rewrite count_app in Hroom.
        pose proof (count_sublist s _ _ (live_sublist (of_region ex k l))). lia.
    + intros e [_ He]%elem_of_lfilter. by apply Z.eqb_eq.
    + intros e [He _]%elem_of_lfilter. apply Hmem. eauto.
Qed.

Lemma live_region i : live (of_region ex i l) = of_region ex i (live l).
Proof. apply (live_lfilter (fun a => Z.shiftr a ex =? i)). Qed.

Lemma live_regions ks : NoDup ks -> (forall e, e ∈ l -> region ex e ∈ ks) ->
  concat ((fun i => live (of_region ex i l)) <$> ks) ≡ₚ live l.
Proof.
  intros Hnd Hk. rewrite (list_fmap_ext _ (fun i => of_region ex i (live l))) by (intros; apply live_region).
  apply (concat_by_key (region ex)); [done|]. intros e He. apply Hk. eapply elem_of_sublist; [done|apply live_sublist].
Qed.

Lemma merge_live ks : NoDup ks -> (forall e, e ∈ l -> region ex e ∈ ks) ->
  TLogMerger.merge ((fun i => live (of_region ex i l)) <$> ks) = Ok (live l, last_location (live l)).
Proof.
  intros Hnd Hk. pose proof (live_regions ks Hnd Hk) as Hp.
  assert (forall x, x `sublist_of` l -> Forall loc_entry x) as Hloc.
  { intros x Hx. by apply (sl_loc x), (sane_sublist l). }
  destruct (merge_spec ((fun i => live (of_region ex i l)) <$> ks)) as (out & -> & Ho & _ & Hs).
  - rewrite Hp. apply Hloc, live_sublist.
  - replace out with (live l); [done|]. symmetry. apply sorted_unique.
    + apply (sorted_sublist _ l), (sl_sorted l Hl). apply live_sublist.
    + apply Hs. apply Forall_forall. intros x (i & -> & _)%list_elem_of_fmap.
      apply sorted_lt_le, (sorted_sublist _ l), (sl_sorted l Hl).
      etransitivity; [apply live_sublist|apply of_region_sublist].
    + by rewrite Ho.
Qed.

Lemma metadata_scrub_live : metadata_scrub ex l =
  Ok (live l, last_location l, data_of (scos l) (fun s => count s (live l)) (fun s => count s l)).
Proof.
  unfold metadata_scrub. destruct (split_runs ex Hex l (sl_loc l Hl)) as (t & -> & Hok). cbn [rbind].
  pose proof (split_regions ex l t Hok) as Hnd. pose proof (SplitterFacts.sp_known ex l t Hok) as Hknown.
  rewrite (split_files ex l t Hok), (SplitterFacts.sp_data ex l t Hok), count_sco_runs by done.
  set (ks := fst <$> TLogSplitter.tlogs_ t) in *.
  assert (concat ((fun i => of_region ex i l) <$> ks) ≡ₚ l) as Hp by (by apply (concat_by_key (region ex))).
  rewrite parts_run; [|done|]. 2: { intros s. rewrite (count_perm s _ _ Hp). lia. }
  cbn [rbind app]. rewrite <- list_fmap_compose.
  rewrite (list_fmap_ext _ (fun i => live (of_region ex i l))).
  2: { intros j i _. unfold compose. rewrite backward_all; [by rewrite rev_involutive|]. apply Forall_rev.
       apply (sl_loc _ (sane_sublist l _ ltac:(etransitivity; [apply live_sublist|apply of_region_sublist]) Hl)). }
  rewrite merge_live by done. cbn [rbind].
  assert (length (concat ((fun i => rev (live (of_region ex i l))) <$> ks)) = length (live l)) as ->.
  { rewrite <- (Permutation_length (live_regions ks Hnd Hknown)). clear. induction ks as [|k ks IH]; [done|].
    cbn. rewrite !length_app, length_rev. by rewrite IH. }
  rewrite Nat.eqb_refl. unfold last_location. rewrite last_live. do 2 f_equal.
  apply data_of_ext; [|done]. intros s _. by rewrite (count_perm s _ _ (live_regions ks Hnd Hknown)).
Qed.
End MetaDataScrubFacts.

(** The part of a log that is read: what is no location is skipped. *)
Lemma metadata_scrub_locations ex log : Forall loc_entry (locations log) ->
  metadata_scrub ex log = metadata_scrub ex (locations log).
Proof. intros H. unfold metadata_scrub, TLogSplitter.split. by rewrite (locations_all _ H). Qed.

(** Live entries have the effect of the whole log. *)
Import Replay.Replay Relocations.

Lemma replay_cons cid e l f :
  replay cid (e :: l) f = replay cid l (upd f (clusteraddress_ e) (CLH.set_cloneID cid (clusterLocationAndHash e))).
Proof. done. Qed.

Lemma replay_overwritten cid l f g ca : ca ∈ addresses l -> replay cid l f ca = replay cid l g ca.
Proof.
  revert f g. induction l as [|e l IH]; intros f g H; [by apply elem_of_nil in H|]. rewrite !replay_cons.
  destruct (decide (ca ∈ addresses l)) as [Hin|Hnin]; [by apply IH|].
  apply elem_of_cons in H as [->|?]; [|done].
  rewrite (replay_of_address cid l _ (upd g (clusteraddress_ e) (CLH.set_cloneID cid (clusterLocationAndHash e)))).
  - symmetry. by apply replay_of_address.
  - unfold upd. by rewrite !decide_True.
Qed.

Lemma replay_live cid l f ca : replay cid (live l) f ca = replay cid l f ca.
Proof.
  revert f. induction l as [|e l IH]; intros f; [done|]. cbn [live]. case_bool_decide as H; [|by rewrite !replay_cons, IH].
  rewrite IH, replay_cons. destruct (decide (ca = clusteraddress_ e)) as [->|Hne]; [by apply replay_overwritten|].
  rewrite (replay_of_address cid l f (upd f (clusteraddress_ e) (CLH.set_cloneID cid (clusterLocationAndHash e)))).
  - symmetry. by apply replay_of_address.
  - unfold upd. by rewrite decide_False.
Qed.
End MetaDataScrubFacts.
