(* ===== verification/SCOPoolFacts.v ===== *)
(** * The data scrub, step by step

    Lemmas on SCOPool.v.  Over a log without overwritten entries whose SCOs come in
    ascending order, the walk visits the SCOs in their order and decides each once;
    there is always a SCO to be reused when one is needed; and the files of the pool
    are the SCO being read and the one being written. *)

From stdpp Require Import sorting.
From Stdlib Require Import SpecFloat.
From S2P Require Import Prelude CheckSum Addressing TLogEntry TLogs PageGenerator MetaDataStore MetaDataBackends MetaDataFacts MetaDataTheorems Scrubbing SCOPool ScrubbingFacts.

Module SCOPoolFacts.
Import CheckSum ClusterLocation CLH Entry EntryFile ScrubbingSCOData SCOStore SCOPool PageGeneratorFacts EntryFileFacts LogFacts.

(** ** Small facts *)
Lemma runs_verify {OS} b (p : Pool OS) (Q : unit -> Pool OS -> Prop) : b = true -> Q tt p -> runs (verify_ b) p Q.
Proof. intros -> HQ. by apply runs_ret. Qed.

Lemma state_eqb_eq a b : state_eqb a b = true <-> a = b.
Proof. by destruct a, b. Qed.

Lemma sco_eqb_refl s : SCO.eqb s s = true.
Proof. by apply AddressingFacts.sco_eqb_eq. Qed.

Lemma sco_eqb_ne a b : a <> b -> SCO.eqb a b = false.
Proof. intros H. destruct (SCO.eqb a b) eqn:E; [|done]. by apply AddressingFacts.sco_eqb_eq in E. Qed.

Lemma free_version_spec {OS} `{SCOStore OS} n o num clone v s : free_version n o num clone v = Ok s ->
  SCO.number_ s = num /\ SCO.cloneID_ s = clone /\ sco_exists s o = false.
Proof.
  revert v. induction n as [|n IH]; intros v; cbn [free_version]; [done|].
  destruct (sco_exists (SCO.make num clone (nextVersion v)) o) eqn:E; cbn [negb]; [apply IH|]. intros [= <-]. done.
Qed.

Lemma free_version_ext {OS} `{SCOStore OS} n o o' num clone v :
  (forall v, sco_exists (SCO.make num clone v) o = sco_exists (SCO.make num clone v) o') ->
  free_version n o num clone v = free_version n o' num clone v.
Proof. intros H'. revert v. induction n as [|n IH]; intros v; cbn [free_version]; [done|]. by rewrite H', IH. Qed.

Lemma zip_with_snoc {A B C} (f : A -> B -> C) l k a b : l !! length k = Some a -> zip_with f l (k ++ [b]) = zip_with f l k ++ [f a b].
Proof.
  revert l. induction k as [|y k IH]; intros [|x l] Hl; try done; cbn in *.
  - injection Hl as ->. by destruct l.
  - by rewrite IH.
Qed.

Lemma deleted_loop (P : SCO.SCO -> bool) us sz f (l acc : list SCO.SCO) :
  (forall i s, l !! i = Some s -> negb (state_eqb (f i s) Unknown) = true /\
    state_eqb (f i s) Scrubbed || state_eqb (f i s) Reused = P s) ->
  rfold (fun out s =>
    verify negb (state_eqb (state s) Unknown) in
    Ok (if state_eqb (state s) Scrubbed || state_eqb (state s) Reused then out ++ [sconame_ s] else out))
    acc (imap (fun i s => mkSCOData s (us s) (sz s) (f i s)) l) = Ok (acc ++ List.filter P l).
Proof.
  revert f acc. induction l as [|s l IH]; intros f acc H; cbn [imap rfold List.filter]; [by rewrite app_nil_r|].
  destruct (H O s eq_refl) as [E1 E2]. cbn [state sconame_]. rewrite E1, E2. cbn [rbind].
  rewrite (IH (f ∘ S)) by (intros i x Hi; apply (H (S i) x Hi)). destruct (P s); [|done]. by rewrite <- app_assoc.
Qed.

(** A bounded number of entries in each of some SCOs. *)
Lemma count_bound (ds : list SCO.SCO) l b : NoDup ds -> (forall e, e ∈ l -> sco_of e ∈ ds) -> (forall s, s ∈ ds -> count s l <= b) ->
  Z.of_nat (length l) <= b * Z.of_nat (length ds).
Proof.
  revert l. induction ds as [|s ds IH]; intros l Hnd Hin Hb.
  - destruct l as [|e l]; [cbn; lia|]. by pose proof (Hin e ltac:(left)) as ?%elem_of_nil.
  - apply NoDup_cons in Hnd as [Hs Hnd].
    rewrite <- (Permutation_length (lfilter_split (in_sco s) l)), length_app.
    pose proof (Hb s ltac:(left)) as H1. unfold count in H1.
    enough (Z.of_nat (length (List.filter (fun e => negb (in_sco s e)) l)) <= b * Z.of_nat (length ds)) by (cbn [length]; lia).
    apply IH; [done| |].
    + intros e [He Hne]%elem_of_lfilter. apply Hin in He as [E|]%elem_of_cons; [|done].
      by rewrite (proj2 (in_sco_eq s e) E) in Hne.
    + intros s' Hs'. etransitivity; [|by apply Hb; right]. apply count_sublist, lfilter_sublist.
Qed.

(** ** [std::map]: keys in ascending order, at the end *)
Section SMapFacts.
Context {V : Type}.
Implicit Types m : list (SCO.SCO * V).

Lemma smap_find_none k m : k ∉ fst <$> m -> SMap.find k m = None.
Proof.
  induction m as [|[k' v'] m IH]; cbn; [done|]. intros [Hne Hm]%not_elem_of_cons. rewrite sco_eqb_ne by done. by apply IH.
Qed.

Lemma smap_find_last k v m : k ∉ fst <$> m -> SMap.find k (m ++ [(k, v)]) = Some v.
Proof.
  induction m as [|[k' v'] m IH]; cbn; [by rewrite sco_eqb_refl|].
  intros [Hne Hm]%not_elem_of_cons. rewrite sco_eqb_ne by done. by apply IH.
Qed.

Lemma num_not_ltb a b : num_lt a b -> SCO.ltb b a = false /\ SCO.eqb b a = false.
Proof. unfold num_lt, SCO.ltb, SCO.eqb. intros H. split; lia. Qed.

Lemma smap_insert_end k v m : Forall (fun a => num_lt a k) (fst <$> m) -> SMap.insert k v m = m ++ [(k, v)].
Proof.
  induction m as [|[k' v'] m IH]; cbn; [done|]. intros [H Hm]%Forall_cons. destruct (num_not_ltb k' k H) as [-> ->]. by rewrite IH.
Qed.

Lemma smap_insert_last k v v' m : Forall (fun a => num_lt a k) (fst <$> m) -> SMap.insert k v (m ++ [(k, v')]) = m ++ [(k, v)].
Proof.
  induction m as [|[k' v0] m IH]; cbn.
  - intros _. rewrite sco_eqb_refl. replace (SCO.ltb k k) with false by (unfold SCO.ltb; lia). done.
  - intros [H Hm]%Forall_cons. destruct (num_not_ltb k' k H) as [-> ->]. by rewrite IH.
Qed.
End SMapFacts.

(** ** The walk over the SCOs *)
Section Walk.
Context {OS : Type} `{SCOStore OS}.
(** The log, its SCOs in their order, the last of them, and the use of a SCO that
    is enough to keep it. *)
Variable L : list Entry.
Variable ss : list SCO.SCO.
Variable sz : SCO.SCO -> Z.
Variable lastsco : SCO.SCO.
Variable minu : Z.
Hypothesis HL : sane_log L.
Hypothesis Hss : StronglySorted num_lt ss.
Hypothesis Hmem : forall e, e ∈ L -> sco_of e ∈ ss.
Hypothesis Hlast : forall s, last ss = Some s -> s = lastsco.

Definition dead (s : SCO.SCO) : bool :=
  negb (SCO.eqb s lastsco) && ((count s L =? 0) || (count s L <? minu)).
Definition rank (i : nat) : nat := length (List.filter dead (take i ss)).

(** The state of the SCO at [i] when the first [d] are decided and the first [nr]
    dead ones are reused. *)
Definition st (d nr i : nat) (s : SCO.SCO) : State :=
  if SCO.eqb s lastsco then NotScrubbed
  else if (d <=? i)%nat then Unknown
  else if dead s then (if (rank i <? nr)%nat then Reused else Scrubbed)
  else NotScrubbed.

Definition dat (d nr : nat) : list ScrubbingSCOData := imap (fun i s => mkSCOData s (count s L) (sz s) (st d nr i s)) ss.

Lemma dat_lookup d nr i s : ss !! i = Some s -> dat d nr !! i = Some (mkSCOData s (count s L) (sz s) (st d nr i s)).
Proof. intros Hi. unfold dat. by rewrite list_lookup_imap, Hi. Qed.

Lemma length_dat d nr : length (dat d nr) = length ss.
Proof. apply length_imap. Qed.

Lemma dat_alter d nr d' nr' i s0 st0 : ss !! i = Some s0 ->
  (forall j s, ss !! j = Some s -> j <> i -> st d nr j s = st d' nr' j s) -> st d' nr' i s0 = st0 ->
  alter (fun s => mkSCOData (sconame_ s) (usageCount s) (size s) st0) i (dat d nr) = dat d' nr'.
Proof.
  intros Hi Ho Hst. apply list_eq. intros j. destruct (decide (i = j)) as [<-|Hne].
  - rewrite list_lookup_alter_eq, (dat_lookup _ _ _ _ Hi), (dat_lookup _ _ _ _ Hi). cbn. by rewrite Hst.
  - rewrite list_lookup_alter_ne by done. unfold dat. rewrite !list_lookup_imap. destruct (ss !! j) as [s|] eqn:Hj; [|done].
    cbn. by rewrite (Ho j s Hj) by done.
Qed.

Lemma rank_S i s : ss !! i = Some s -> rank (S i) = (rank i + if dead s then 1 else 0)%nat.
Proof.
  intros Hi. unfold rank. rewrite (take_S_r _ _ _ Hi), List.filter_app, length_app. cbn. destruct (dead s); cbn; lia.
Qed.

Lemma rank_mono i j : (i <= j)%nat -> (rank i <= rank j)%nat.
Proof.
  intros Hij. unfold rank. replace j with (i + (j - i))%nat by lia. rewrite <- take_take_drop, List.filter_app, length_app. lia.
Qed.

Lemma rank_lt i j s : ss !! i = Some s -> dead s = true -> (i < j)%nat -> (rank i < rank j)%nat.
Proof. intros Hi Hd Hij. pose proof (rank_S i s Hi) as E. rewrite Hd in E. pose proof (rank_mono (S i) j ltac:(lia)). lia. Qed.

(** A place inside has another SCO than the last one. *)
Lemma not_last i j s s' : ss !! i = Some s -> ss !! j = Some s' -> (i < j)%nat -> SCO.eqb s lastsco = false.
Proof.
  intros Hi Hj Hij. apply sco_eqb_ne. intros ->.
  destruct (last ss) as [x|] eqn:E; [|apply last_None in E; by rewrite E in Hi].
  pose proof (Hlast x eq_refl) as ->. rewrite last_lookup in E. pose proof (lookup_lt_Some _ _ _ Hj).
  pose proof (NoDup_lookup _ _ _ _ (num_sorted_NoDup _ Hss) Hi E). lia.
Qed.

Lemma ss_index i j a b : ss !! i = Some a -> ss !! j = Some b -> SCO.number_ a <= SCO.number_ b -> (i <= j)%nat.
Proof.
  intros Hi Hj Hn. destruct (decide (i <= j)%nat) as [|Hgt]; [done|].
  pose proof (sorted_lookup _ _ _ _ _ _ Hss Hj Hi ltac:(lia)) as Hlt. unfold num_lt in Hlt. lia.
Qed.

Lemma log_number P e rest x y : L = P ++ e :: rest -> x ∈ P ++ [e] -> y ∈ e :: rest -> SCO.number_ (sco_of x) <= SCO.number_ (sco_of y).
Proof.
  intros E Hx Hy. pose proof (sl_sorted L HL) as Hs. rewrite E in Hs.
  assert (x = e /\ y = e \/ loc_lt x y) as [[-> ->]|Hlt]; [|done|unfold loc_lt, sco_of, number in *; lia].
  apply StronglySorted_app in Hs as (Hpq & _ & [He _]%StronglySorted_cons).
  rewrite Forall_forall in He.
  apply elem_of_app in Hx as [Hx|Hx%list_elem_of_singleton]; [right; by apply Hpq|]. subst x.
  apply elem_of_cons in Hy as [->|Hy]; [by left|right; by apply He].
Qed.

(** The walk stands between the entries [P] and the rest. *)
Record walk_ok (P : list Entry) (d nr : nat) (w : Walk) : Prop := mkWalkOk {
  w_data : scodata_ w = dat d nr;
  w_start : P = [] -> d = O /\ scodata_iterator_ w = O;
  w_at : forall e, last P = Some e -> ss !! scodata_iterator_ w = Some (sco_of e) /\ d = S (scodata_iterator_ w);
  w_usage : forall e, last P = Some e -> sco_of e <> lastsco ->
    current_usage_count_ w = count (sco_of e) L - count (sco_of e) P;
  w_seen : forall e, e ∈ P -> exists j, (j < d)%nat /\ ss !! j = Some (sco_of e);
  w_reused : forall i s, (i < to_be_reused_iterator_ w)%nat -> ss !! i = Some s -> dead s = true -> (rank i < nr)%nat;
  w_rank : (nr <= rank d)%nat }.

Section Entry.
Variable P rest : list Entry.
Variable e : Entry.
Hypothesis HP : L = P ++ e :: rest.
Variable t : nat.
Hypothesis Ht : ss !! t = Some (sco_of e).

(** On its way to the SCO of [e], at [i]. *)
Record seeking (d nr : nat) (r : nat) (i : nat) (w : Walk) : Prop := mkSeeking {
  k_data : scodata_ w = dat d nr;
  k_it : scodata_iterator_ w = i;
  k_le : (i <= t)%nat;
  k_d : d = i \/ d = S i;
  k_usage : d = S i -> (i < t)%nat -> current_usage_count_ w = 0;
  k_here : d = S i -> i = t -> sco_of e <> lastsco -> current_usage_count_ w = count (sco_of e) L - count (sco_of e) P;
  k_seen : forall x, x ∈ P -> exists j, (j < d)%nat /\ ss !! j = Some (sco_of x);
  k_reused : to_be_reused_iterator_ w = r;
  k_rank : (nr <= rank d)%nat }.

Lemma unused_between d j s : (forall x, x ∈ P -> exists j, (j < d)%nat /\ ss !! j = Some (sco_of x)) ->
  ss !! j = Some s -> (j < t)%nat -> count s L = count s P /\ ((d <= j)%nat -> count s P = 0).
Proof.
  intros Hseen Hj Hjt. pose proof (num_sorted_NoDup _ Hss) as Hnd. split.
  - rewrite HP, count_app. rewrite (count_none s (e :: rest)); [lia|]. intros y Hy <-.
    pose proof (log_number P e rest e y HP ltac:(apply elem_of_app; right; by left) Hy) as Hn.
    pose proof (ss_index t j _ _ Ht Hj Hn). lia.
  - intros Hd. apply count_none. intros x Hx <-. destruct (Hseen x Hx) as (j' & Hj' & Hx').
    pose proof (NoDup_lookup _ _ _ _ Hnd Hx' Hj). lia.
Qed.

Lemma seeking_start d nr w : walk_ok P d nr w -> seeking d nr (to_be_reused_iterator_ w) (scodata_iterator_ w) w.
Proof.
  intros Hw. destruct (last P) as [x|] eqn:El.
  - destruct (w_at _ _ _ _ Hw x El) as [Hx Hd].
    assert (x ∈ P) as Hxin by (by apply last_Some_elem_of).
    assert ((scodata_iterator_ w <= t)%nat) as Hle.
    { apply (ss_index _ _ _ _ Hx Ht), (log_number P e rest x e HP); [by apply elem_of_app; left|by left]. }
    split; try apply Hw; try done; [by right| |].
    + intros _ Hlt. rewrite (w_usage _ _ _ _ Hw x El).
      * destruct (unused_between d _ _ (w_seen _ _ _ _ Hw) Hx Hlt) as [-> _]. lia.
      * intros E. pose proof (not_last _ _ _ _ Hx Ht Hlt) as Hn. rewrite E, sco_eqb_refl in Hn. done.
    + intros _ <-. rewrite Hx in Ht. injection Ht as <-. by apply (w_usage _ _ _ _ Hw x El).
  - apply last_None in El. destruct (w_start _ _ _ _ Hw El) as [Hd Hi]. rewrite Hi, Hd in *.
    split; try done; [apply (w_data _ _ _ _ Hw)|lia|by left|by subst P; intros ? ?%elem_of_nil|apply (w_rank _ _ _ _ Hw)].
Qed.

Definition with_walk (w : Walk) (p : Pool OS) : Pool OS :=
  mkPool w (input p) (output p) (tlogs p) (statistics p) (new_scos_ p) (filepool_ p) (backendinterface_ p).

Lemma st_unknown d nr i s : st d nr i s = Unknown <-> SCO.eqb s lastsco = false /\ (d <= i)%nat.
Proof.
  unfold st. destruct (SCO.eqb s lastsco); [by split; [|intros []]|]. destruct (Nat.leb_spec d i); [by split|].
  split; [|intros [_ ?]; lia]. by destruct (dead s), (rank i <? nr)%nat.
Qed.

Lemma st_frame d d' nr nr' j s : ((d <= j)%nat <-> (d' <= j)%nat) -> (dead s = true -> (rank j < nr)%nat <-> (rank j < nr')%nat) ->
  st d nr j s = st d' nr' j s.
Proof.
  intros Hd Hr. unfold st. destruct (SCO.eqb s lastsco); [done|].
  replace (d' <=? j)%nat with (d <=? j)%nat by (destruct (Nat.leb_spec d j), (Nat.leb_spec d' j); lia || done).
  destruct (d <=? j)%nat; [done|]. destruct (dead s); [|done].
  specialize (Hr eq_refl). by destruct (Nat.ltb_spec (rank j) nr), (Nat.ltb_spec (rank j) nr'); try lia.
Qed.

(** Skipping a SCO that has no entry left. *)
Lemma seek_skip d nr r i w s : seeking d nr r i w -> (i < t)%nat -> ss !! i = Some s ->
  (if state_eqb (st d nr i s) Unknown then count s L =? 0 else current_usage_count_ w =? 0) = true /\
  seeking (S i) nr r (S i) (set_iterator (S i) (if state_eqb (st d nr i s) Unknown then set_state i Scrubbed w else w)).
Proof.
  intros Hk Hit Hi. pose proof (not_last _ _ _ _ Hi Ht Hit) as Hnl.
  destruct (unused_between d i s (k_seen _ _ _ _ _ Hk) Hi Hit) as [HcL HcP].
  assert (forall x, x ∈ P -> exists j, (j < S i)%nat /\ ss !! j = Some (sco_of x)) as Hseen.
  { intros x Hx. destruct (k_seen _ _ _ _ _ Hk x Hx) as (j & Hj & ?). exists j. split; [|done].
    destruct (k_d _ _ _ _ _ Hk); lia. }
  destruct (state_eqb (st d nr i s) Unknown) eqn:E.
  - apply state_eqb_eq, st_unknown in E as [_ Hd]. assert (d = i) as -> by (destruct (k_d _ _ _ _ _ Hk); lia).
    rewrite HcL, (HcP ltac:(lia)). split; [done|].
    assert (dead s = true) as Hdead by (unfold dead; rewrite Hnl, HcL, (HcP ltac:(lia)); done).
    pose proof (rank_S _ _ Hi) as Hrk. rewrite Hdead in Hrk. pose proof (k_rank _ _ _ _ _ Hk) as Hnr.
    split; cbn [set_iterator set_state scodata_ scodata_iterator_ to_be_reused_iterator_ current_usage_count_];
      [|done|lia|by left|lia|lia|done|apply (k_reused _ _ _ _ _ Hk)|lia].
    rewrite (k_data _ _ _ _ _ Hk). apply (dat_alter _ _ _ _ _ s _ Hi).
    + intros j s' Hj Hne. apply st_frame; [lia|done].
    + unfold st. rewrite Hnl, Hdead. rewrite (proj2 (Nat.leb_gt (S i) i)), (proj2 (Nat.ltb_ge _ _)) by lia. done.
  - assert (d = S i) as ->.
    { destruct (k_d _ _ _ _ _ Hk) as [->|]; [|done]. rewrite (proj2 (st_unknown i nr i s)) in E; [done|by split]. }
    split; [apply Z.eqb_eq; by apply (k_usage _ _ _ _ _ Hk)|].
    split; cbn [set_iterator scodata_ scodata_iterator_ to_be_reused_iterator_ current_usage_count_];
      [apply (k_data _ _ _ _ _ Hk)|done|lia|by left|lia|lia|done|apply (k_reused _ _ _ _ _ Hk)|apply (k_rank _ _ _ _ _ Hk)].
Qed.

Lemma seek_runs fuel d nr r i p : seeking d nr r i (walk p) -> (t - i < fuel)%nat ->
  runs (seek_sco fuel (sco_of e)) p (fun _ p' => exists d' w', p' = with_walk w' p /\ seeking d' nr r t w').
Proof.
  revert d i p. induction fuel as [|f IH]; intros d i p Hk Hf; [lia|]. cbn [seek_sco].
  apply runs_bind, runs_get. rewrite (k_it _ _ _ _ _ Hk).
  assert (exists s, ss !! i = Some s) as [s Hi].
  { apply lookup_lt_is_Some. apply lookup_lt_Some in Ht. pose proof (k_le _ _ _ _ _ Hk). lia. }
  rewrite (k_data _ _ _ _ _ Hk), (dat_lookup _ _ _ _ Hi). cbn [sconame_ state usageCount].
  destruct (decide (i = t)) as [->|Hne].
  - rewrite Ht in Hi. injection Hi as <-. rewrite sco_eqb_refl. apply runs_ret. exists d, (walk p). split; [by destruct p|done].
  - pose proof (k_le _ _ _ _ _ Hk) as Hle.
    rewrite sco_eqb_ne by (intros <-; apply Hne; exact (NoDup_lookup _ _ _ _ (num_sorted_NoDup _ Hss) Hi Ht)).
    destruct (seek_skip _ _ _ _ _ _ Hk ltac:(lia) Hi) as [Hv Hk'].
    destruct (state_eqb (st d nr i s) Unknown); apply runs_bind.
    + apply runs_bind, runs_verify; [done|]. apply runs_modify, runs_bind, runs_modify.
      eapply runs_mono; [apply (IH (S i) (S i)); [exact Hk'|lia]|]. intros _ p' (d' & w' & -> & Hw). by exists d', w'.
    + apply runs_verify; [done|]. apply runs_bind, runs_modify.
      eapply runs_mono; [apply (IH (S i) (S i)); [exact Hk'|lia]|]. intros _ p' (d' & w' & -> & Hw). by exists d', w'.
Qed.

(** The SCO of the entry is decided. *)
Record decided (nr r : nat) (w : Walk) : Prop := mkDecided {
  c_data : scodata_ w = dat (S t) nr;
  c_it : scodata_iterator_ w = t;
  c_usage : sco_of e <> lastsco -> current_usage_count_ w = count (sco_of e) L - count (sco_of e) P;
  c_seen : forall x, x ∈ P ++ [e] -> exists j, (j < S t)%nat /\ ss !! j = Some (sco_of x);
  c_reused : to_be_reused_iterator_ w = r;
  c_rank : (nr <= rank (S t))%nat }.

Lemma here_count : 0 < count (sco_of e) L.
Proof.
  rewrite HP, count_app, count_cons, (proj2 (in_sco_eq _ e)) by done.
  pose proof (count_nonneg (sco_of e) P). pose proof (count_nonneg (sco_of e) rest). lia.
Qed.

Lemma decide_runs d nr r p : seeking d nr r t (walk p) ->
  runs (decide_state minu t (mkSCOData (sco_of e) (count (sco_of e) L) (sz (sco_of e)) (st d nr t (sco_of e)))) p
    (fun _ p' => exists w', p' = with_walk w' p /\ decided nr r w').
Proof.
  intros Hk. unfold decide_state. cbn [state usageCount].
  assert (forall x, x ∈ P ++ [e] -> exists j, (j < S t)%nat /\ ss !! j = Some (sco_of x)) as Hseen.
  { intros x [Hx|Hx%list_elem_of_singleton]%elem_of_app; [|subst x; exists t; by split; [lia|]].
    destruct (k_seen _ _ _ _ _ Hk x Hx) as (j & Hj & ?). exists j. split; [|done]. destruct (k_d _ _ _ _ _ Hk); lia. }
  assert (nr <= rank (S t))%nat as Hrank.
  { pose proof (k_rank _ _ _ _ _ Hk). pose proof (rank_mono d (S t) ltac:(destruct (k_d _ _ _ _ _ Hk); lia)). lia. }
  destruct (state_eqb (st d nr t (sco_of e)) Unknown) eqn:E.
  - apply state_eqb_eq, st_unknown in E as [Hnl Hd]. assert (d = t) as -> by (destruct (k_d _ _ _ _ _ Hk); lia).
    assert (count (sco_of e) P = 0) as HcP.
    { apply count_none. intros x Hx E. destruct (k_seen _ _ _ _ _ Hk x Hx) as (j & Hj & Hx'). rewrite E in Hx'.
      pose proof (NoDup_lookup _ _ _ _ (num_sorted_NoDup _ Hss) Hx' Ht). lia. }
    apply runs_bind, runs_modify, runs_modify. eexists. split; [done|].
    split; cbn [walk set_usage set_state scodata_ scodata_iterator_ to_be_reused_iterator_ current_usage_count_];
      [|apply (k_it _ _ _ _ _ Hk)|by rewrite HcP; lia|done|apply (k_reused _ _ _ _ _ Hk)|done].
    rewrite (k_data _ _ _ _ _ Hk). apply (dat_alter _ _ _ _ _ _ _ Ht).
    + intros j s' Hj Hne. apply st_frame; [lia|done].
    + pose proof here_count as Hc. unfold st, dead. rewrite Hnl, (proj2 (Nat.leb_gt (S t) t)) by lia. cbn [negb andb].
      rewrite (proj2 (Z.eqb_neq (count (sco_of e) L) 0)) by lia. cbn [orb]. destruct (count (sco_of e) L <? minu); [|done].
      pose proof (k_rank _ _ _ _ _ Hk). by rewrite (proj2 (Nat.ltb_ge _ _)) by lia.
  - apply runs_ret. exists (walk p). split; [by destruct p|]. split; [|apply (k_it _ _ _ _ _ Hk)| |done|apply (k_reused _ _ _ _ _ Hk)|done].
    + rewrite (k_data _ _ _ _ _ Hk). unfold dat. apply imap_ext. intros j s Hj. f_equal.
      destruct (k_d _ _ _ _ _ Hk) as [->| ->]; [|done].
      destruct (decide (j = t)) as [->|]; [|apply st_frame; [lia|done]].
      rewrite Ht in Hj. injection Hj as <-. unfold st in *. destruct (SCO.eqb (sco_of e) lastsco); [done|].
      by rewrite Nat.leb_refl in E.
    + intros Hne. apply (k_here _ _ _ _ _ Hk); [|done|done]. destruct (k_d _ _ _ _ _ Hk) as [->|]; [|done].
      unfold st in E. by rewrite sco_eqb_ne, Nat.leb_refl in E.
Qed.

(** ** A SCO to be reused *)
Definition reused_ok (nr r : nat) : Prop := forall i s, (i < r)%nat -> ss !! i = Some s -> dead s = true -> (rank i < nr)%nat.

Lemma nth_dead nr m : (nr < rank m)%nat -> exists i s, (i < m)%nat /\ ss !! i = Some s /\ dead s = true /\ rank i = nr.
Proof.
  induction m as [|m IH]; [unfold rank; rewrite take_0; cbn; lia|]. intros Hr.
  destruct (ss !! m) as [s|] eqn:Hm.
  - rewrite (rank_S _ _ Hm) in Hr. destruct (decide (nr < rank m)%nat) as [Hlt|Hge].
    + destruct (IH Hlt) as (i & s' & ? & ?). exists i, s'. split; [lia|done].
    + destruct (dead s) eqn:Hd; [|lia]. exists m, s. split_and!; [lia|done|done|lia].
  - unfold rank in *. apply lookup_ge_None in Hm. rewrite take_ge in Hr by lia.
    destruct IH as (i & s & ? & ?); [by rewrite take_ge by lia|]. exists i, s. split; [lia|done].
Qed.

Lemma nth_dead_dels i s : ss !! i = Some s -> dead s = true -> List.filter dead ss !! rank i = Some s.
Proof.
  intros Hi Hd. rewrite <- (take_drop_middle ss i s Hi), List.filter_app. cbn. rewrite Hd. unfold rank.
  by rewrite list_lookup_middle.
Qed.

Lemma reusable_runs fuel nr i s p : scodata_ (walk p) = dat (S t) nr -> ss !! i = Some s -> dead s = true -> rank i = nr ->
  (i < S t)%nat -> (to_be_reused_iterator_ (walk p) <= i)%nat -> (i - to_be_reused_iterator_ (walk p) < fuel)%nat ->
  runs (seek_reusable fuel) p (fun _ p' => p' = with_walk (set_reused i (walk p)) p).
Proof.
  intros Hdat Hi Hd Hrk Hit. revert p Hdat. induction fuel as [|f IH]; intros p Hdat Hle Hf; [lia|]. cbn [seek_reusable].
  apply runs_bind, runs_get. set (r := to_be_reused_iterator_ (walk p)) in *. rewrite Hdat.
  assert (exists s', ss !! r = Some s') as [s' Hr] by (apply lookup_lt_is_Some; apply lookup_lt_Some in Hi; lia).
  rewrite (dat_lookup _ _ _ _ Hr). cbn [state].
  assert (forall j x, ss !! j = Some x -> (j <= i)%nat -> dead x = true -> st (S t) nr j x = if (rank j <? nr)%nat then Reused else Scrubbed) as Hst.
  { intros j x Hj Hji Hdx. unfold st. destruct (SCO.eqb x lastsco) eqn:E.
    - unfold dead in Hdx. rewrite E in Hdx. done.
    - rewrite (proj2 (Nat.leb_gt (S t) j)) by lia. by rewrite Hdx. }
  destruct (decide (r = i)) as [E|Hne].
  - assert (s' = s) as -> by congruence. rewrite (Hst r s) by (done || lia). rewrite E, Hrk, Nat.ltb_irrefl. apply runs_ret.
    subst r. rewrite <- E. by destruct p as [[]].
  - replace (state_eqb (st (S t) nr r s') Scrubbed) with false.
    2: { symmetry. destruct (dead s') eqn:Hds'.
         - rewrite (Hst r s') by (done || lia). pose proof (rank_lt r i s' Hr Hds' ltac:(lia)).
           by rewrite (proj2 (Nat.ltb_lt _ _)) by lia.
         - unfold st. rewrite Hds'. by destruct (SCO.eqb s' lastsco), (S t <=? r)%nat. }
    apply runs_bind, runs_modify. eapply runs_mono; [apply IH|]; cbn [walk set_reused scodata_ to_be_reused_iterator_];
      [done|lia|lia|]. intros _ p' ->. done.
Qed.

Lemma reuse_walk nr i s w : decided nr (to_be_reused_iterator_ w) w -> ss !! i = Some s -> dead s = true -> rank i = nr -> (i < S t)%nat ->
  decided (S nr) i (set_state i Reused (set_reused i w)) /\ reused_ok (S nr) i.
Proof.
  intros Hc Hi Hd Hrk Hit. split.
  - split; cbn [set_state set_reused scodata_ scodata_iterator_ to_be_reused_iterator_ current_usage_count_];
      [|apply (c_it _ _ _ Hc)|apply (c_usage _ _ _ Hc)|apply (c_seen _ _ _ Hc)|done|].
    + rewrite (c_data _ _ _ Hc). apply (dat_alter _ _ _ _ _ _ _ Hi).
      * intros j x Hj Hne. apply st_frame; [done|]. intros Hdx. split; [lia|]. intros Hlt.
        destruct (decide (rank j = nr)); [|lia]. exfalso. destruct (Nat.lt_trichotomy i j) as [?|[?|?]]; [|lia|].
        -- pose proof (rank_lt i j s Hi Hd). lia.
        -- pose proof (rank_lt j i x Hj Hdx). lia.
      * unfold st. destruct (SCO.eqb s lastsco) eqn:E; [unfold dead in Hd; by rewrite E in Hd|].
        rewrite (proj2 (Nat.leb_gt (S t) i)), Hd, (proj2 (Nat.ltb_lt _ _)) by lia. done.
    + pose proof (rank_lt i (S t) s Hi Hd Hit). lia.
  - intros j x Hj Hx Hdx. pose proof (rank_lt j i x Hx Hdx Hj). lia.
Qed.

(** Dead SCOs have few entries, so those that were read fill fewer new ones. *)
Lemma capacity nr b w r : decided nr r w -> dead (sco_of e) = true -> minu <= b -> 0 < b ->
  Z.of_nat (length (List.filter (fun x => dead (sco_of x)) P)) = Z.of_nat nr * b -> (nr < rank (S t))%nat.
Proof.
  intros Hc Hd Hb Hb0 Hlen.
  assert (Z.of_nat (length (List.filter (fun x => dead (sco_of x)) (P ++ [e]))) <= b * Z.of_nat (rank (S t))) as H'.
  { apply count_bound.
    - apply (sublist_NoDup _ (take (S t) ss)); [|apply lfilter_sublist]. apply (sublist_NoDup _ ss); [by apply num_sorted_NoDup|apply sublist_take].
    - intros x [Hx Hdx]%elem_of_lfilter. apply elem_of_lfilter. split; [|done].
      destruct (c_seen _ _ _ Hc x Hx) as (j & Hj & Hxs). apply list_elem_of_lookup. exists j. by rewrite lookup_take_lt.
    - intros s [_ Hds]%elem_of_lfilter. etransitivity; [apply count_sublist, (lfilter_sublist _ (P ++ [e]))|].
      transitivity (count s L).
      + apply count_sublist. rewrite HP. apply sublist_app; [done|]. apply sublist_skip, sublist_nil_l.
      + unfold dead in Hds. lia. }
  rewrite List.filter_app in H'. cbn [List.filter] in H'. rewrite Hd, length_app in H'. cbn [length] in H'. nia.
Qed.
End Entry.

(** ** Reading and writing *)
Section IO.
Context {SP : SCOStoreSpec OS}.
Variable csz ssz : Z.
Variable o0 : OS.
Variable new0 : list SCO.SCO.
Hypothesis Hcsz : 0 < csz.
Hypothesis Hssz : 0 < ssz < 2 ^ 16.
Hypothesis Hmin : minu <= ssz.
(** The SCOs of the log are in the backend, with the clusters of its entries. *)
Hypothesis Hdata : forall e, e ∈ L -> exists d, scos_of o0 !! sco_of e = Some d /\ bytes d /\
  0 <= offset_ (clusterLocation_ e) /\ (offset_ (clusterLocation_ e) + 1) * csz <= Z.of_nat (length d) < 2 ^ 64.
(** There is a free name for every SCO that goes. *)
Hypothesis Hnames : forall s, s ∈ ss -> dead s = true -> exists n, makeNewSCOName o0 s = Ok n.
Hypothesis Hnum : forall s, s ∈ ss -> SCO.number_ s <> 0.

Definition newname (s : SCO.SCO) : SCO.SCO := match makeNewSCOName o0 s with Ok n => n | Throw _ => s end.
Definition dels : list SCO.SCO := List.filter dead ss.
Definition tgts : list SCO.SCO := newname <$> dels.

(** The cluster of an entry; a new SCO with the clusters of some entries; and where
    these entries point then. *)
Definition cluster (e : Entry) : list Z :=
  take (Z.to_nat csz) (drop (Z.to_nat (offset_ (clusterLocation_ e) * csz)) (default [] (scos_of o0 !! sco_of e))).
Definition image (g : list Entry) : list Z := concat (cluster <$> g).
Definition moved (name : SCO.SCO) (i : nat) (e : Entry) : Entry :=
  mkEntry (clusteraddress_ e) (mkCLH (ClusterLocation.of_sco name (Z.of_nat i)) (weed_ (loc_and_hash_ e))).
Definition place (name : SCO.SCO) (g : list Entry) : list Entry := imap (moved name) g.
Definition placed (gs : list (list Entry)) : list Entry := concat (zip_with place tgts gs).
Definition pairs (a b : list Entry) : list Entry := concat (zip_with (fun x y => [x; y]) a b).

Lemma newname_spec s : s ∈ ss -> dead s = true ->
  makeNewSCOName o0 s = Ok (newname s) /\ SCO.number_ (newname s) = SCO.number_ s /\ scos_of o0 !! newname s = None.
Proof.
  intros Hs Hd. destruct (Hnames s Hs Hd) as [n Hn]. unfold newname. rewrite Hn. split; [done|].
  apply free_version_spec in Hn as (E1 & _ & E2). split; [done|].
  rewrite sco_exists_spec in E2. apply bool_decide_eq_false, eq_None_not_Some in E2. done.
Qed.

Lemma dels_spec s : s ∈ dels <-> s ∈ ss /\ dead s = true.
Proof. apply elem_of_lfilter. Qed.

Lemma tgts_lookup i n : tgts !! i = Some n -> exists s, dels !! i = Some s /\ n = newname s /\ s ∈ ss /\ dead s = true.
Proof.
  unfold tgts. rewrite list_lookup_fmap. destruct (dels !! i) as [s|] eqn:Hs; [|done]. intros [= <-].
  exists s. split_and!; [done|done|..]; apply dels_spec; by apply list_elem_of_lookup_2 in Hs.
Qed.

Lemma tgts_sorted : StronglySorted num_lt tgts.
Proof.
  assert (forall l, (forall s, s ∈ l -> s ∈ ss /\ dead s = true) -> StronglySorted num_lt l -> StronglySorted num_lt (newname <$> l)) as H'.
  { induction l as [|s l IH]; intros Hin Hs; cbn; [constructor|]. apply StronglySorted_inv in Hs as [Hs Hx].
    constructor; [apply IH; [|done]; intros; apply Hin; by right|].
    apply Forall_fmap. apply Forall_forall. intros x Hxl. rewrite Forall_forall in Hx. specialize (Hx x Hxl). cbn. unfold num_lt in *.
    destruct (Hin s ltac:(left)) as [? ?], (Hin x ltac:(by right)) as [? ?].
    by rewrite (proj1 (proj2 (newname_spec s ltac:(done) ltac:(done)))), (proj1 (proj2 (newname_spec x ltac:(done) ltac:(done)))). }
  apply H'; [apply dels_spec|]. apply (sorted_sublist _ ss); [apply lfilter_sublist|done].
Qed.

Lemma tgts_NoDup : NoDup tgts.
Proof. apply num_sorted_NoDup, tgts_sorted. Qed.

Lemma tgt_fresh i n e : tgts !! i = Some n -> e ∈ L -> n <> sco_of e.
Proof.
  intros (s & _ & -> & Hs & Hd)%tgts_lookup He E. destruct (newname_spec s Hs Hd) as (_ & _ & Hn).
  destruct (Hdata e He) as (d & Hd' & _). rewrite E in Hn. congruence.
Qed.

Lemma cluster_spec e : e ∈ L -> length (cluster e) = Z.to_nat csz /\ bytes (cluster e).
Proof.
  intros He. destruct (Hdata e He) as (d & Hd & Hb & Ho & Hl). unfold cluster. rewrite Hd. cbn [default]. unfold id. split.
  - rewrite length_take, length_drop. set (o := offset_ (clusterLocation_ e)) in *.
    assert (0 <= o * csz) as H1 by nia. replace ((o + 1) * csz) with (o * csz + csz) in Hl by ring.
    revert H1 Hl. generalize (o * csz) as m. intros m H1 Hl. lia.
  - apply Forall_take, Forall_drop, Hb.
Qed.

Lemma clusters_app g e : image (g ++ [e]) = image g ++ cluster e.
Proof. unfold image. rewrite fmap_app, concat_app. cbn. by rewrite app_nil_r. Qed.

Lemma clusters_bytes g : (forall e, e ∈ g -> e ∈ L) -> bytes (image g).
Proof.
  intros Hg. unfold image. apply Forall_concat, Forall_fmap, Forall_forall. intros e He. by apply cluster_spec, Hg.
Qed.

Lemma place_app name g e : place name (g ++ [e]) = place name g ++ [moved name (length g) e].
Proof. unfold place. rewrite imap_app. cbn. by rewrite Nat.add_0_r. Qed.

Lemma length_place name g : length (place name g) = length g.
Proof. apply length_imap. Qed.

Lemma placed_snoc full g n : tgts !! length full = Some n -> placed (full ++ [g]) = placed full ++ place n g.
Proof.
  intros Hn. unfold placed. rewrite (zip_with_snoc _ _ _ _ _ Hn), concat_app. cbn. by rewrite app_nil_r.
Qed.

Lemma placed_empty full : placed (full ++ [[]]) = placed full.
Proof.
  unfold placed. generalize tgts. induction full as [|g full IH]; intros l; cbn.
  - by destruct l as [|? []].
  - destruct l; [done|]. cbn. by rewrite IH.
Qed.

Lemma length_placed gs : (length gs <= length tgts)%nat -> length (placed gs) = length (concat gs).
Proof.
  unfold placed. generalize tgts. induction gs as [|g gs IH]; intros l Hl; cbn; [by destruct l|].
  destruct l as [|n l]; cbn in *; [lia|]. rewrite !length_app, length_place, IH by lia. done.
Qed.

Lemma pairs_app a b x y : length a = length b -> pairs (a ++ [x]) (b ++ [y]) = pairs a b ++ [x; y].
Proof. intros Hl. unfold pairs. by rewrite zip_with_app, concat_app by done. Qed.

(** What the backend has when the SCOs of the groups [full] are written. *)
Definition written (full : list (list Entry)) : gmap SCO.SCO (list Z) :=
  list_to_map (zip tgts (image <$> full)) ∪ scos_of o0.

Lemma written_snoc full g n : tgts !! length full = Some n -> written (full ++ [g]) = <[n := image g]> (written full).
Proof.
  intros Hn. unfold written. rewrite insert_union_l. f_equal. rewrite fmap_app. cbn [fmap list_fmap].
  rewrite (zip_with_snoc _ _ _ n) by (by rewrite length_fmap). apply list_to_map_snoc.
  intros Hin. apply list_elem_of_fmap in Hin as ([n' x] & E & Hin). cbn in E. subst n'.
  apply list_elem_of_lookup in Hin as [i Hi]. apply lookup_zip_with_Some in Hi as (n' & x' & [= <- <-] & Hi & Hx).
  apply lookup_lt_Some in Hx. rewrite length_fmap in Hx.
  pose proof (NoDup_lookup _ _ _ _ tgts_NoDup Hi Hn). lia.
Qed.

Lemma written_lookup full n d : written full !! n = Some d -> (exists i, (i < length full)%nat /\ tgts !! i = Some n) \/ scos_of o0 !! n = Some d.
Proof.
  unfold written. rewrite lookup_union_Some_raw. intros [H'|[_ H']]; [left|by right].
  apply elem_of_list_to_map_2, list_elem_of_lookup in H' as [i Hi].
  apply lookup_zip_with_Some in Hi as (n' & x' & [= <- <-] & Hi & Hx). exists i. split; [|done].
  apply lookup_lt_Some in Hx. by rewrite length_fmap in Hx.
Qed.

Lemma written_none full n : scos_of o0 !! n = None -> (forall i, (i < length full)%nat -> tgts !! i <> Some n) -> written full !! n = None.
Proof.
  intros H0 Hi. destruct (written full !! n) as [d|] eqn:E; [|done].
  apply written_lookup in E as [(i & Hlt & Hn)|?]; [|congruence]. by destruct (Hi i Hlt).
Qed.

(** The name of a new SCO is what it would have been at the start. *)
Lemma makeNewSCOName_written o full s i : scos_of o = written full -> dels !! i = Some s -> (length full <= i)%nat ->
  makeNewSCOName o s = Ok (newname s) /\ tgts !! i = Some (newname s) /\ scos_of o !! newname s = None.
Proof.
  intros Ho Hi Hle. assert (s ∈ ss /\ dead s = true) as [Hs Hd] by (apply dels_spec; by apply list_elem_of_lookup_2 in Hi).
  destruct (newname_spec s Hs Hd) as (Hn & Hnn & Hfree).
  assert (forall n, SCO.number_ n = SCO.number_ s -> forall j, (j < length full)%nat -> tgts !! j <> Some n) as Hother.
  { intros n En j Hj (s' & Hs' & -> & Hin & Hd')%tgts_lookup. rewrite (proj1 (proj2 (newname_spec s' Hin Hd'))) in En.
    assert (StronglySorted num_lt dels) as Hsd by (apply (sorted_sublist _ ss); [apply lfilter_sublist|done]).
    pose proof (sorted_lookup _ _ _ _ _ _ Hsd Hs' Hi ltac:(lia)) as Hlt. unfold num_lt in Hlt. lia. }
  split_and!.
  - rewrite <- Hn. unfold makeNewSCOName. apply free_version_ext. intros v. rewrite !sco_exists_spec, Ho.
    apply bool_decide_ext. unfold written. rewrite lookup_union. set (n := SCO.make _ _ v).
    assert (list_to_map (M := gmap SCO.SCO (list Z)) (zip tgts (image <$> full)) !! n = None) as ->; [|by rewrite (left_id_L None _)].
    apply not_elem_of_list_to_map_1. intros ([n' x] & E & Hin)%list_elem_of_fmap. cbn in E. subst n'.
    apply list_elem_of_lookup in Hin as [j Hj]. apply lookup_zip_with_Some in Hj as (n' & x' & [= <- <-] & Hj & Hx).
    apply lookup_lt_Some in Hx. rewrite length_fmap in Hx. by apply (Hother n eq_refl j Hx).
  - unfold tgts. by rewrite list_lookup_fmap, Hi.
  - rewrite Ho. apply written_none; [done|]. by apply Hother.
Qed.

(** The SCO being read, [inn], is open and its file is in the pool. *)
Record in_ok (inn : option SCO.SCO) (i : Input) (fp : gmap SCO.SCO (list Z)) (c : option SCO.SCO) : Prop := mkIn {
  in_map : match inn with
           | None => sconame_map_ i = []
           | Some n => exists m, sconame_map_ i = m ++ [(n, true)] /\ Forall (fun a => num_lt a n) (fst <$> m)
           end;
  in_file : forall n, inn = Some n -> (exists e, e ∈ L /\ sco_of e = n) /\ fp !! n = scos_of o0 !! n;
  in_buf : length (buffer_ i) = Z.to_nat csz;
  in_files : forall n, is_Some (fp !! n) -> inn = Some n \/ c = Some n }.

(** The groups [full] are in the backend, [cur] is in the SCO being written. *)
Record out_ok (full : list (list Entry)) (cur : list Entry) (nr : nat) (out : Output) (fp : gmap SCO.SCO (list Z)) (o : OS)
  (ns : list SCO.SCO) (re rel : list Entry) : Prop := mkOut {
  out_sub : forall e, e ∈ concat full ++ cur -> e ∈ L;
  out_full : Forall (fun g => Z.of_nat (length g) = ssz) full;
  out_len : Z.of_nat (length cur) <= ssz;
  out_cur : (current_sco_ out = None /\ nr = length full /\ cur = [] /\ current_offset_ out = 0) \/
    (exists n, current_sco_ out = Some n /\ current_sco_name_ out = n /\ nr = S (length full) /\ tgts !! length full = Some n /\
       current_offset_ out = Z.of_nat (length cur) /\ fp !! n = Some (image cur) /\
       checksum_ out = update Crc32cHw CheckSum_default (image cur));
  out_backend : scos_of o = written full;
  out_new : ns = new0 ++ take (length full) tgts;
  out_room : (length full <= length tgts)%nat;
  out_re : re = placed (full ++ [cur]);
  out_rel : rel = pairs (concat full ++ cur) (placed (full ++ [cur])) }.

Lemma out_ok_files full cur nr out fp fp' o ns re rel : out_ok full cur nr out fp o ns re rel ->
  (forall n, current_sco_ out = Some n -> fp' !! n = fp !! n) -> out_ok full cur nr out fp' o ns re rel.
Proof.
  intros [H1 H2 H3 H4 H5 H6 H7 H8 H9] Hfp. split; try done. destruct H4 as [?|(n & Hn & ? & ? & ? & ? & Hf & ?)]; [by left|right].
  exists n. split_and!; try done. by rewrite (Hfp n Hn).
Qed.

Lemma cur_fresh full cur nr out fp o ns re rel n : out_ok full cur nr out fp o ns re rel -> current_sco_ out = Some n ->
  tgts !! length full = Some n /\ (forall e, e ∈ L -> n <> sco_of e).
Proof.
  intros Hout Hn. destruct (out_cur _ _ _ _ _ _ _ _ _ Hout) as [(E & _)|(n' & En & _ & _ & Ht' & _)]; [congruence|].
  assert (n' = n) as -> by congruence. split; [done|]. intros e He. by apply (tgt_fresh _ _ e Ht').
Qed.

(** What is left alone by the input side. *)
Definition same_output (p p' : Pool OS) : Prop :=
  walk p' = walk p /\ output p' = output p /\ tlogs p' = tlogs p /\ new_scos_ p' = new_scos_ p /\ backendinterface_ p' = backendinterface_ p.

Lemma fetch_runs e full p : e ∈ L -> scos_of (backendinterface_ p) = written full ->
  Forall (fun a => num_lt a (sco_of e)) (fst <$> sconame_map_ (input p)) -> length (buffer_ (input p)) = Z.to_nat csz ->
  (forall n, is_Some (filepool_ p !! n) -> current_sco_ (output p) = Some n) ->
  (forall n, current_sco_ (output p) = Some n -> n <> sco_of e) ->
  runs (fetch_sco (sco_of e)) p (fun _ p' => same_output p p' /\
    in_ok (Some (sco_of e)) (input p') (filepool_ p') (current_sco_ (output p)) /\
    (forall n, current_sco_ (output p) = Some n -> filepool_ p' !! n = filepool_ p !! n)).
Proof.
  intros He Ho Hm Hbuf Hfiles Hc. destruct (Hdata e He) as (d & Hd & _).
  assert (filepool_ p !! sco_of e = None) as Hnone.
  { destruct (filepool_ p !! sco_of e) eqn:E; [|done]. exfalso. apply (Hc (sco_of e)); [|done]. apply Hfiles. by eexists. }
  unfold fetch_sco, newFile. apply runs_bind, runs_bind, runs_get. rewrite Hnone. apply runs_modify.
  apply runs_bind, runs_get. apply runs_bind. apply runs_lift with d.
  { apply sco_read_spec. cbn [backendinterface_]. rewrite Ho. unfold written. rewrite lookup_union_r; [done|].
    apply not_elem_of_list_to_map_1. intros ([n' x] & E & Hin)%list_elem_of_fmap. cbn in E. subst n'.
    apply list_elem_of_lookup in Hin as [j Hj]. apply lookup_zip_with_Some in Hj as (n' & x' & [= <- <-] & Hj & _).
    by apply (tgt_fresh _ _ e Hj). }
  do 2 (apply runs_bind, runs_modify). apply runs_modify. split; [done|]. cbn [input filepool_ sconame_map_ buffer_]. split.
  - split; cbn [sconame_map_ buffer_].
    + exists (sconame_map_ (input p)). split; [by apply smap_insert_end|done].
    + intros n [= <-]. split; [eauto|]. by rewrite lookup_insert_eq, Hd.
    + done.
    + intros n. rewrite insert_insert_eq. destruct (decide (sco_of e = n)) as [->|Hne]; [by left|].
      rewrite lookup_insert_ne by done. intros Hn. right. by apply Hfiles.
  - intros n Hn. rewrite insert_insert_eq. apply lookup_insert_ne. intros E. by apply (Hc n Hn).
Qed.

Lemma open_runs inn full cur nr e p : e ∈ L ->
  in_ok inn (input p) (filepool_ p) (current_sco_ (output p)) ->
  out_ok full cur nr (output p) (filepool_ p) (backendinterface_ p) (new_scos_ p) (rewritten_tlog (tlogs p)) (relocations_tlog (tlogs p)) ->
  (forall n, inn = Some n -> n = sco_of e \/ num_lt n (sco_of e)) ->
  runs (open_sco (sco_of e)) p (fun _ p' => same_output p p' /\
    in_ok (Some (sco_of e)) (input p') (filepool_ p') (current_sco_ (output p)) /\
    (forall n, current_sco_ (output p) = Some n -> filepool_ p' !! n = filepool_ p !! n)).
Proof.
  intros He Hin Hout Hle. unfold open_sco. apply runs_bind, runs_get.
  assert (forall n, current_sco_ (output p) = Some n -> n <> sco_of e) as Hc by (intros n Hn; by apply (cur_fresh _ _ _ _ _ _ _ _ _ n Hout Hn)).
  pose proof (out_backend _ _ _ _ _ _ _ _ _ Hout) as Ho.
  destruct inn as [n|].
  - destruct (in_map _ _ _ _ Hin) as (m & Hm & Hlt).
    destruct (Hle n eq_refl) as [->|Hn].
    + rewrite Hm, smap_find_last.
      * apply runs_bind, runs_verify; [apply bool_decide_eq_true; unfold rbegin; by rewrite last_snoc|].
        apply runs_verify; [done|]. done.
      * intros Hk. rewrite Forall_forall in Hlt. specialize (Hlt _ Hk). unfold num_lt in Hlt. lia.
    + assert (Forall (fun a => num_lt a (sco_of e)) (fst <$> (m ++ [(n, true)]))) as Hall.
      { rewrite fmap_app. apply Forall_app. split; [|by repeat constructor].
        eapply Forall_impl; [exact Hlt|]. intros a Ha. cbn in Ha. unfold num_lt in *. lia. }
      rewrite Hm, smap_find_none.
      2: { intros Hk. rewrite Forall_forall in Hall. specialize (Hall _ Hk). unfold num_lt in Hall. lia. }
      unfold rbegin. rewrite last_snoc. cbn [fmap option_fmap option_map fst].
      apply runs_bind, runs_bind, runs_modify, runs_modify.
      eapply runs_mono; [apply (fetch_runs e full)|]; cbn [input filepool_ backendinterface_ output sconame_map_ buffer_]; [done|done| |by apply Hin| |done|].
      * rewrite Hm, smap_insert_last by done. rewrite fmap_app in *. exact Hall.
      * intros n' [d Hd]. apply lookup_delete_Some in Hd as [Hne Hd].
        destruct (in_files _ _ _ _ Hin n' ltac:(by exists d)) as [[= ->]|?]; [done|done].
      * intros _ p' (Hs & Hi' & Hf'). split; [done|]. split; [done|]. intros n' Hn'. rewrite (Hf' n' Hn').
        apply lookup_delete_ne. intros ->. destruct (in_file _ _ _ _ Hin n' eq_refl) as [(x & Hx & E) _].
        by apply (proj2 (cur_fresh _ _ _ _ _ _ _ _ _ n' Hout Hn') x Hx).
  - rewrite (in_map _ _ _ _ Hin). cbn [SMap.find rbegin last fmap option_fmap option_map].
    apply runs_bind, runs_ret. apply (fetch_runs e full); [done|done| |by apply Hin| |done].
    + by rewrite (in_map _ _ _ _ Hin).
    + intros n Hn. by destruct (in_files _ _ _ _ Hin n Hn).
Qed.

(** The buffer gets the cluster of the entry. *)
Lemma read_runs e p : e ∈ L -> in_ok (Some (sco_of e)) (input p) (filepool_ p) (current_sco_ (output p)) ->
  runs (read_cluster csz (sco_of e) (offset_ (clusterLocation_ e))) p (fun _ p' => same_output p p' /\ filepool_ p' = filepool_ p /\
    buffer_ (input p') = cluster e /\ in_ok (Some (sco_of e)) (input p') (filepool_ p') (current_sco_ (output p))).
Proof.
  intros He Hin. destruct (Hdata e He) as (d & Hd & Hb & Ho & Hl). destruct (in_file _ _ _ _ Hin _ eq_refl) as [_ Hf].
  unfold read_cluster. apply runs_bind, runs_get. rewrite Hf, Hd. apply runs_modify.
  set (off := offset_ (clusterLocation_ e)) in *.
  assert (0 <= off * csz) as H1 by nia. replace ((off + 1) * csz) with (off * csz + csz) in Hl by ring.
  rewrite wrap_id by (unfold fits; lia).
  assert (pread d (Z.to_nat (off * csz)) (buffer_ (input p)) = cluster e) as Hpr.
  { unfold pread. rewrite (in_buf _ _ _ _ Hin).
    replace (take (Z.to_nat csz) (drop (Z.to_nat (off * csz)) d)) with (cluster e) by (unfold cluster; by rewrite Hd).
    rewrite (proj1 (cluster_spec e He)), drop_ge; [by rewrite app_nil_r|]. by rewrite (in_buf _ _ _ _ Hin). }
  split; [done|]. cbn [input filepool_ buffer_]. split; [done|]. split; [done|].
  split; cbn [sconame_map_ buffer_]; try apply Hin. rewrite Hpr. by apply cluster_spec.
Qed.

Definition out_of (full : list (list Entry)) (cur : list Entry) (nr : nat) (p : Pool OS) : Prop :=
  out_ok full cur nr (output p) (filepool_ p) (backendinterface_ p) (new_scos_ p) (rewritten_tlog (tlogs p)) (relocations_tlog (tlogs p)).

(** A SCO of which the name is reused is opened for writing. *)
Lemma reuse_runs P e t nr full p :
  decided P e t nr (to_be_reused_iterator_ (walk p)) (walk p) -> reused_ok nr (to_be_reused_iterator_ (walk p)) ->
  (nr < rank (S t))%nat -> nr = length full -> current_sco_ (output p) = None ->
  in_ok (Some (sco_of e)) (input p) (filepool_ p) None -> e ∈ L ->
  out_ok full [] nr (mkOutput None 0 (current_sco_name_ (output p)) (checksum_ (output p))) (filepool_ p) (backendinterface_ p)
    (new_scos_ p) (rewritten_tlog (tlogs p)) (relocations_tlog (tlogs p)) ->
  runs reuse_sco p (fun _ p' => exists n, tlogs p' = tlogs p /\ input p' = input p /\ current_sco_ (output p') = Some n /\
    out_of full [] (S nr) p' /\ in_ok (Some (sco_of e)) (input p') (filepool_ p') (Some n) /\
    decided P e t (S nr) (to_be_reused_iterator_ (walk p')) (walk p') /\ reused_ok (S nr) (to_be_reused_iterator_ (walk p'))).
Proof.
  intros Hc Hr Hcap Hnr Hnone Hin HeL Hout. destruct (nth_dead nr (S t) Hcap) as (i & s & Hit & Hi & Hd & Hrk).
  unfold reuse_sco. apply runs_bind, runs_modify. cbn [current_sco_ output]. rewrite Hnone. cbn [current_sco_name_ checksum_].
  apply runs_bind, runs_get. cbn [walk]. rewrite (c_data _ _ _ _ _ _ Hc), length_dat.
  apply runs_bind. eapply runs_mono.
  { apply (reusable_runs t _ nr i s); cbn [walk]; try done; [apply (c_data _ _ _ _ _ _ Hc)| |].
    - destruct (decide (i < to_be_reused_iterator_ (walk p))%nat) as [Hlt|]; [|lia].
      pose proof (Hr i s Hlt Hi Hd). lia.
    - apply lookup_lt_Some in Hi. lia. }
  intros ? p' ->. apply runs_bind, runs_get. unfold with_walk.
  cbn [walk input output tlogs statistics new_scos_ filepool_ backendinterface_ set_reused scodata_ scodata_iterator_ to_be_reused_iterator_].
  rewrite (c_data _ _ _ _ _ _ Hc), (dat_lookup _ _ _ _ Hi). cbn [sconame_].
  destruct (reuse_walk P e t nr i s (walk p) Hc Hi Hd Hrk Hit) as [Hc' Hr'].
  apply runs_bind, runs_verify; [rewrite (c_it _ _ _ _ _ _ Hc); apply Nat.leb_le; lia|].
  apply runs_bind, runs_modify. cbn [walk].
  pose proof (nth_dead_dels i s Hi Hd) as Hdel. rewrite Hrk, Hnr in Hdel.
  destruct (makeNewSCOName_written _ full s _ (out_backend _ _ _ _ _ _ _ _ _ Hout) Hdel (le_n _)) as (Hname & Htgt & Hfree).
  apply runs_bind. apply runs_lift with (newname s); [done|].
  apply runs_bind, runs_modify. cbn [output current_sco_ current_offset_ checksum_].
  assert (filepool_ p !! newname s = None) as Hnf.
  { destruct (filepool_ p !! newname s) as [d|] eqn:E; [|done]. exfalso.
    destruct (in_files _ _ _ _ Hin (newname s) ltac:(by exists d)) as [[= E']|]; [|done].
    by apply (tgt_fresh _ _ e Htgt HeL). }
  unfold newFile. apply runs_bind, runs_bind, runs_get. cbn [filepool_]. rewrite Hnf. apply runs_modify. apply runs_modify.
  cbn [walk input output tlogs statistics new_scos_ filepool_ backendinterface_ current_sco_ current_offset_ current_sco_name_ checksum_].
  exists (newname s). split_and!; [done|done|done| | |exact Hc'|exact Hr'].
  - destruct Hout as [H1 H2 H3 H4 H5 H6 H7 H8 H9]. split; try done. right. exists (newname s).
    cbn [output current_sco_ current_offset_ current_sco_name_ checksum_ filepool_]. split_and!; try done; [by rewrite Hnr|].
    by rewrite lookup_insert_eq.
  - destruct Hin as [H1 H2 H3 H4]. split; try done.
    + intros n Hn. split; [by apply H2|]. rewrite lookup_insert_ne; [by apply H2|].
      injection Hn as <-. by apply (tgt_fresh _ _ e Htgt).
    + intros n. destruct (decide (newname s = n)) as [->|Hne]; [by right|]. rewrite lookup_insert_ne by done.
      intros Hn. left. by destruct (H4 n Hn).
Qed.

(** The SCO that was written goes to the backend. *)
Lemma upload_runs full cur n data p : tgts !! length full = Some n -> scos_of (backendinterface_ p) = written full ->
  filepool_ p !! n = Some data -> data = image cur -> checksum_ (output p) = update Crc32cHw CheckSum_default (image cur) ->
  new_scos_ p = new0 ++ take (length full) tgts ->
  runs (upload n n) p (fun _ p' => exists o', p' = mkPool (walk p) (input p) (output p) (tlogs p) (statistics p)
    (new0 ++ take (S (length full)) tgts) (filepool_ p) o' /\ scos_of o' = written (full ++ [cur])).
Proof.
  intros Hn Ho Hf -> Hcs Hns. unfold upload. apply runs_bind, runs_get.
  pose proof (tgts_lookup _ _ Hn) as (s & Hs & E & Hin & Hd).
  apply runs_bind, runs_verify.
  { rewrite sco_exists_spec, bool_decide_eq_false_2; [done|]. rewrite Ho. intros [d Hw].
    rewrite written_none in Hw; [done|rewrite E; by apply newname_spec|].
    intros i Hi Hi'. pose proof (NoDup_lookup _ _ _ _ tgts_NoDup Hi' Hn). lia. }
  rewrite Hf. destruct (sco_write_spec n (image cur) (checksum_ (output p)) (backendinterface_ p) Hcs) as (o' & Hw & Ho').
  apply runs_bind. unfold on_backend. eexists tt, _. rewrite Hw. split; [done|].
  apply runs_modify. exists o'. cbn. split.
  - f_equal. rewrite Hns, <- app_assoc. by rewrite (take_S_r _ _ _ Hn).
  - by rewrite Ho', Ho, (written_snoc _ _ _ Hn).
Qed.

Lemma pool_put_runs e full cur nr n p : current_sco_ (output p) = Some n -> out_of full cur nr p -> Z.of_nat (length cur) = ssz ->
  in_ok (Some (sco_of e)) (input p) (filepool_ p) (Some n) -> e ∈ L ->
  runs (put_current ssz (output p) n) p (fun _ p' => walk p' = walk p /\ tlogs p' = tlogs p /\ input p' = input p /\
    current_sco_ (output p') = None /\ in_ok (Some (sco_of e)) (input p') (filepool_ p') None /\ nr = length (full ++ [cur]) /\
    out_ok (full ++ [cur]) [] nr (mkOutput None 0 (current_sco_name_ (output p')) (checksum_ (output p'))) (filepool_ p') (backendinterface_ p')
      (new_scos_ p') (rewritten_tlog (tlogs p')) (relocations_tlog (tlogs p'))).
Proof.
  intros Hn Hout Hlen Hin HeL. pose proof (out_cur _ _ _ _ _ _ _ _ _ Hout) as [(E & _)|(n' & En & Enm & Hnr & Htgt & Hoff & Hf & Hcs)]; [congruence|].
  assert (n' = n) as -> by congruence. unfold put_current. rewrite Enm.
  apply runs_bind, runs_modify. apply runs_bind, runs_verify; [lia|]. apply runs_bind, runs_modify. apply runs_bind.
  eapply runs_mono; [apply (upload_runs full cur n (image cur)); cbn [backendinterface_ filepool_ output checksum_ new_scos_]; try done|].
  { by apply Hout. }
  { by apply Hout. }
  intros ? p' (o' & -> & Ho'). apply runs_modify.
  cbn [walk input output tlogs statistics new_scos_ filepool_ backendinterface_ current_sco_ current_offset_ current_sco_name_ checksum_].
  rewrite length_app. cbn [length]. split_and!; try done; [| |].
  - destruct Hin as [H1 H2 H3 H4]. split; try done.
    + intros m [= <-]. split; [by apply H2|]. rewrite lookup_delete_ne; [by apply H2|]. by apply (tgt_fresh _ _ e Htgt).
    + intros m [d Hm]. apply lookup_delete_Some in Hm as [Hne Hm]. destruct (H4 m ltac:(by exists d)) as [?|[= <-]]; [by left|done].
  - lia.
  - destruct Hout as [H1 H2 H3 H4 H5 H6 H7 H8 H9]. split; try done.
    + intros x Hx. apply H1. rewrite concat_app, app_nil_r in Hx. cbn in Hx. by rewrite app_nil_r in Hx.
    + apply Forall_app. split; [done|]. by repeat constructor.
    + cbn. lia.
    + left. rewrite length_app. cbn. split_and!; try done. lia.
    + rewrite length_app. cbn. by rewrite Nat.add_1_r.
    + rewrite length_app. cbn. apply lookup_lt_Some in Htgt. lia.
    + by rewrite placed_empty.
    + rewrite placed_empty, concat_app, app_nil_r. cbn. by rewrite app_nil_r.
Qed.

Lemma length_full (full : list (list Entry)) : Forall (fun g => Z.of_nat (length g) = ssz) full -> Z.of_nat (length (concat full)) = Z.of_nat (length full) * ssz.
Proof. induction 1 as [|g full Hg Hf IH]; [done|]. cbn [concat length]. rewrite length_app. lia. Qed.

Section Entry.
Variable P rest : list Entry.
Variable e : Entry.
Hypothesis HP : L = P ++ e :: rest.
Variable t : nat.
Hypothesis Ht : ss !! t = Some (sco_of e).

Lemma here_in : e ∈ L.
Proof. rewrite HP. apply elem_of_app. right. by left. Qed.

(** While an entry of a dead SCO is handled. *)
Record moving (full : list (list Entry)) (cur : list Entry) (nr : nat) (p : Pool OS) : Prop := mkMoving {
  mv_decided : decided P e t nr (to_be_reused_iterator_ (walk p)) (walk p);
  mv_reused : reused_ok nr (to_be_reused_iterator_ (walk p));
  mv_in : in_ok (Some (sco_of e)) (input p) (filepool_ p) (current_sco_ (output p));
  mv_out : out_of full cur nr p;
  mv_groups : concat full ++ cur = List.filter (fun x => dead (sco_of x)) P }.

Lemma maybe_runs full cur nr p : moving full cur nr p -> dead (sco_of e) = true ->
  runs (MaybeUpdateCurrentSCO ssz) p (fun _ p' => tlogs p' = tlogs p /\ input p' = input p /\
    exists full' cur' nr' n, current_sco_ (output p') = Some n /\ Z.of_nat (length cur') < ssz /\ moving full' cur' nr' p').
Proof.
  intros [Hc Hr Hin Hout Hg] Hd. unfold MaybeUpdateCurrentSCO. apply runs_bind, runs_get.
  pose proof (f_equal length Hg) as Hlen. rewrite length_app in Hlen.
  pose proof (length_full _ (out_full _ _ _ _ _ _ _ _ _ Hout)) as Hfl.
  pose proof (out_cur _ _ _ _ _ _ _ _ _ Hout) as [(Hn & Hnr & Hcur & Hoff)|(n & Hn & Hnm & Hnr & Htgt & Hoff & Hf & Hcs)].
  - rewrite Hn. rewrite bool_decide_eq_true_2 by done. cbn [orb]. subst cur. apply runs_bind, runs_ret.
    eapply runs_mono; [apply (reuse_runs P e t nr full p Hc Hr); try done|].
    + apply (capacity P rest e HP t nr ssz (walk p) _ Hc Hd Hmin ltac:(lia)). cbn [length] in Hlen. lia.
    + by rewrite <- Hn.
    + apply here_in.
    + unfold out_of in Hout. destruct (output p) as [c off nm cs]. cbn in Hn, Hoff |- *. by subst c off.
    + intros ? p' (n & Ht' & Hi' & Hn' & Hout' & Hin' & Hc' & Hr'). split; [done|]. split; [done|].
      exists full, [], (S nr), n. split; [done|]. split; [cbn; lia|]. by split; [| |rewrite Hn'| |].
  - rewrite Hn. rewrite bool_decide_eq_false_2 by done. cbn [orb]. rewrite Hoff.
    pose proof (out_len _ _ _ _ _ _ _ _ _ Hout) as Hle. destruct (Z.leb_spec ssz (Z.of_nat (length cur))) as [Hfull|Hlt].
    + rewrite Hn in Hin. apply runs_bind. eapply runs_mono; [apply (pool_put_runs e full cur nr n p Hn Hout ltac:(lia) Hin here_in)|].
      intros ? p1 (Hw1 & Ht1 & Hi1 & Hn1 & Hin1 & Hnr1 & Hout1).
      eapply runs_mono; [apply (reuse_runs P e t nr (full ++ [cur]) p1); try done; try (by rewrite Hw1)|].
      * apply (capacity P rest e HP t nr ssz (walk p) _ Hc Hd Hmin ltac:(lia)). lia.
      * apply here_in.
      * intros ? p' (n' & Ht' & Hi' & Hn' & Hout' & Hin' & Hc' & Hr'). split; [congruence|]. split; [congruence|].
        exists (full ++ [cur]), [], (S nr), n'. split; [done|]. split; [cbn; lia|]. split; [done|done|by rewrite Hn'|done|].
        rewrite app_nil_r, concat_app. cbn. by rewrite app_nil_r.
    + apply runs_ret. split; [done|]. split; [done|]. exists full, cur, nr, n. split; [done|]. split; [done|]. by split.
Qed.

(** The cluster is written and the entry put out. *)
Lemma pool_append_runs full cur nr n f p : out_of full cur nr p -> current_sco_ (output p) = Some n -> Z.of_nat (length cur) < ssz ->
  in_ok (Some (sco_of e)) (input p) (filepool_ p) (Some n) -> buffer_ (input p) = cluster e ->
  runs (on_statistics f ;! write_cluster ;! add_rewritten e) p (fun _ p' => walk p' = walk p /\
    nonrewritten_tlog (tlogs p') = nonrewritten_tlog (tlogs p) /\ current_sco_ (output p') = Some n /\
    out_of full (cur ++ [e]) nr p' /\ in_ok (Some (sco_of e)) (input p') (filepool_ p') (Some n)).
Proof.
  intros Hout Hn Hlt Hin Hbuf. pose proof here_in as He.
  pose proof (sl_loc L HL) as Hloc. rewrite Forall_forall in Hloc. specialize (Hloc e He).
  pose proof (out_cur _ _ _ _ _ _ _ _ _ Hout) as [(E & _)|(n' & En & Hnm & Hnr & Htgt & Hoff & Hf & Hcs)]; [congruence|].
  assert (n' = n) as -> by congruence. apply runs_bind, runs_modify. apply runs_bind. unfold write_cluster.
  apply runs_bind, runs_get. cbn [output input]. rewrite Hn. apply runs_bind, runs_modify, runs_modify.
  unfold add_rewritten. apply runs_bind, runs_get. cbn [output current_sco_name_ current_offset_ tlogs].
  rewrite (loc_entry_address e Hloc). apply runs_bind, runs_lift with (clusteraddress_ e); [done|].
  apply runs_bind, runs_lift with (moved n (length cur) e).
  { unfold Entry_loc, isNull, number. cbn [clusterLocation sco_ ClusterLocation.of_sco]. rewrite Hnm.
    apply tgts_lookup in Htgt as (s & _ & -> & Hs & Hd). rewrite (proj1 (proj2 (newname_spec s Hs Hd))).
    rewrite (proj2 (Z.eqb_neq _ 0)) by (by apply Hnum). cbn [negb]. destruct Hloc as [[_ Hfit] _].
    rewrite (proj2 (Z.leb_le _ _)) by (change max_valid_cluster_address with (2 ^ 35 - 1); lia).
    unfold moved. by rewrite Hoff. }
  apply runs_bind, runs_modify. apply runs_bind. apply runs_lift with (relocations_tlog (tlogs p) ++ [e]); [by apply add_loc|].
  apply runs_bind, runs_modify, runs_modify.
  cbn [walk input output tlogs statistics new_scos_ filepool_ backendinterface_ current_sco_ current_offset_ current_sco_name_ checksum_
       nonrewritten_tlog rewritten_tlog relocations_tlog].
  split_and!; try done.
  - destruct Hout as [H1 H2 H3 H4 H5 H6 H7 H8 H9].
    assert (placed (full ++ [cur ++ [e]]) = placed (full ++ [cur]) ++ [moved n (length cur) e]) as Hpl.
    { by rewrite !(placed_snoc _ _ _ Htgt), place_app, app_assoc. }
    assert (length (placed (full ++ [cur])) = length (concat full ++ cur)) as Hlp.
    { rewrite length_placed; [by rewrite concat_app; cbn; rewrite app_nil_r|]. rewrite length_app. cbn. apply lookup_lt_Some in Htgt. lia. }
    split; cbn [output tlogs filepool_ backendinterface_ new_scos_ rewritten_tlog relocations_tlog]; try done.
    + intros x. rewrite app_assoc. intros [Hx|Hx%list_elem_of_singleton]%elem_of_app; [by apply H1|by subst x].
    + rewrite length_app. cbn. lia.
    + right. exists n. cbn [current_sco_ current_offset_ current_sco_name_ checksum_]. rewrite Hbuf, clusters_app. split_and!; try done.
      * rewrite Hoff, wrap_id by (unfold fits; lia). rewrite length_app. cbn. lia.
      * by rewrite lookup_alter_eq, Hf.
      * rewrite Hcs. apply (update_app _ _ Crc32cHw); [apply default_wf| |by apply cluster_spec].
        apply clusters_bytes. intros x Hx. apply H1. apply elem_of_app. by right.
    + by rewrite H8, Hpl.
    + rewrite H9, Hpl, app_assoc, pairs_app by done. by rewrite <- app_assoc.
  - destruct Hin as [H1 H2 H3 H4]. split; try done.
    + intros m [= <-]. split; [by apply H2|]. rewrite lookup_alter_ne; [by apply H2|]. by apply (tgt_fresh _ _ e Htgt).
    + intros m. destruct (decide (n = m)) as [->|Hne]; [by right|]. rewrite lookup_alter_ne by done. apply H4.
Qed.

Lemma rewrite_runs inn full cur nr p : dead (sco_of e) = true ->
  decided P e t nr (to_be_reused_iterator_ (walk p)) (walk p) -> reused_ok nr (to_be_reused_iterator_ (walk p)) ->
  in_ok inn (input p) (filepool_ p) (current_sco_ (output p)) -> out_of full cur nr p ->
  concat full ++ cur = List.filter (fun x => dead (sco_of x)) P ->
  (forall n, inn = Some n -> n = sco_of e \/ num_lt n (sco_of e)) ->
  runs (rewrite_entry csz ssz e) p (fun _ p' => nonrewritten_tlog (tlogs p') = nonrewritten_tlog (tlogs p) /\
    exists full' cur' nr', decided P e t nr' (to_be_reused_iterator_ (walk p')) (walk p') /\ reused_ok nr' (to_be_reused_iterator_ (walk p')) /\
      in_ok (Some (sco_of e)) (input p') (filepool_ p') (current_sco_ (output p')) /\ out_of full' (cur' ++ [e]) nr' p' /\
      concat full' ++ cur' = List.filter (fun x => dead (sco_of x)) P).
Proof.
  intros Hd Hc Hr Hin Hout Hg Hle. pose proof here_in as He. unfold rewrite_entry. fold (sco_of e).
  apply runs_bind. eapply runs_mono; [apply (open_runs inn full cur nr e p He Hin Hout Hle)|].
  intros ? p1 ((Hw1 & Ho1 & Ht1 & Hs1 & Hb1) & Hin1 & Hf1).
  apply runs_bind. eapply runs_mono; [apply (read_runs e p1 He); by rewrite Ho1|].
  intros ? p2 ((Hw2 & Ho2 & Ht2 & Hs2 & Hb2) & Hf2 & Hbuf2 & Hin2).
  assert (moving full cur nr p2) as Hmv.
  { split; [by rewrite Hw2, Hw1|by rewrite Hw2, Hw1|by rewrite Ho2| |done].
    unfold out_of. rewrite Ho2, Ho1, Hf2, Hb2, Hb1, Hs2, Hs1, Ht2, Ht1. apply (out_ok_files _ _ _ _ (filepool_ p)); [done|]. done. }
  apply runs_bind. eapply runs_mono; [apply (maybe_runs full cur nr p2 Hmv Hd)|].
  intros ? p3 (Ht3 & Hi3 & full' & cur' & nr' & n & Hn3 & Hlen3 & [Hc3 Hr3 Hin3 Hout3 Hg3]).
  apply runs_bind, runs_get. eapply runs_mono.
  { apply (pool_append_runs full' cur' nr' n); [done|done|done|by rewrite <- Hn3|by rewrite Hi3]. }
  intros ? p4 (Hw4 & Hnon4 & Hn4 & Hout4 & Hin4). split; [congruence|]. exists full', cur', nr'. rewrite Hw4, Hn4. by split_and!.
Qed.
End Entry.

(** ** The loop *)
Hypothesis Hcnt : forall s, count s L < 2 ^ 16.
Hypothesis HlastL : last ss = sco_of <$> last L.

Record pool_ok (P : list Entry) (d nr : nat) (full : list (list Entry)) (cur : list Entry) (inn : option SCO.SCO) (p : Pool OS) : Prop := mkPoolOk {
  po_walk : walk_ok P d nr (walk p);
  po_in : in_ok inn (input p) (filepool_ p) (current_sco_ (output p));
  po_out : out_of full cur nr p;
  po_groups : concat full ++ cur = List.filter (fun x => dead (sco_of x)) P;
  po_tidy : cur = [] -> full = [] /\ current_sco_ (output p) = None;
  po_inn : forall n, inn = Some n -> exists x, x ∈ P /\ sco_of x = n;
  po_non : nonrewritten_tlog (tlogs p) = List.filter (fun x => negb (dead (sco_of x))) P }.

Lemma walk_next P rest e t nr w : L = P ++ e :: rest -> ss !! t = Some (sco_of e) ->
  decided P e t nr (to_be_reused_iterator_ w) w -> reused_ok nr (to_be_reused_iterator_ w) ->
  walk_ok (P ++ [e]) (S t) nr (set_usage (u16 (current_usage_count_ w - 1)) w).
Proof.
  intros HP Ht Hc Hr. split; cbn [set_usage scodata_ scodata_iterator_ to_be_reused_iterator_ current_usage_count_].
  - apply (c_data _ _ _ _ _ _ Hc).
  - intros E. by destruct P.
  - intros x Hx. rewrite last_snoc in Hx. injection Hx as <-. by rewrite (c_it _ _ _ _ _ _ Hc).
  - intros x Hx Hne. rewrite last_snoc in Hx. injection Hx as <-. rewrite (c_usage _ _ _ _ _ _ Hc Hne).
    pose proof (Hcnt (sco_of e)) as Hb. rewrite count_app, count_cons, (proj2 (in_sco_eq _ e)) by done.
    change (count (sco_of e) []) with 0. rewrite wrap_id; [lia|]. unfold fits.
    pose proof (count_nonneg (sco_of e) P). pose proof (count_nonneg (sco_of e) rest).
    rewrite HP, count_app, count_cons, (proj2 (in_sco_eq _ e)) in * by done. lia.
  - apply (c_seen _ _ _ _ _ _ Hc).
  - exact Hr.
  - apply (c_rank _ _ _ _ _ _ Hc).
Qed.

Lemma st_dead t nr s : (nr <= rank (S t))%nat -> st (S t) nr t s = if dead s then (if (rank t <? nr)%nat then Reused else Scrubbed) else NotScrubbed.
Proof.
  intros _. unfold st. destruct (SCO.eqb s lastsco) eqn:E; [unfold dead; by rewrite E|].
  by rewrite (proj2 (Nat.leb_gt (S t) t)) by lia.
Qed.

Lemma entry_runs P rest e d nr full cur inn p : L = P ++ e :: rest -> pool_ok P d nr full cur inn p ->
  runs (doEntry csz ssz minu e) p (fun _ p' => exists d' nr' full' cur' inn', pool_ok (P ++ [e]) d' nr' full' cur' inn' p').
Proof.
  intros HP [Hw Hin Hout Hg Htidy Hinn Hnon]. assert (e ∈ L) as He by (rewrite HP; apply elem_of_app; right; by left).
  pose proof (Hmem e He) as [t Ht]%list_elem_of_lookup.
  unfold doEntry. apply runs_bind, runs_modify. apply runs_bind, runs_get. fold (sco_of e). apply runs_bind.
  eapply runs_mono.
  { apply (seek_runs P rest e HP t Ht _ d nr (to_be_reused_iterator_ (walk p)) (scodata_iterator_ (walk p))); cbn [walk].
    - by apply (seeking_start P rest e HP).
    - rewrite (w_data _ _ _ _ Hw), length_dat. apply lookup_lt_Some in Ht. lia. }
  intros ? p1 (d1 & w1 & -> & Hk). apply runs_bind, runs_get. unfold with_walk.
  cbn [walk input output tlogs statistics new_scos_ filepool_ backendinterface_].
  rewrite (k_it _ _ _ _ _ _ _ _ Hk), (k_data _ _ _ _ _ _ _ _ Hk), (dat_lookup _ _ _ _ Ht). cbn [usageCount].
  apply runs_bind, runs_verify; [pose proof (here_count P rest e HP); lia|].
  apply runs_bind. eapply runs_mono; [apply (decide_runs P rest e HP t Ht d1 nr (to_be_reused_iterator_ (walk p))); exact Hk|].
  intros ? p2 (w2 & -> & Hc). pose proof (c_reused _ _ _ _ _ _ Hc) as Er. rewrite <- Er in Hc.
  assert (reused_ok nr (to_be_reused_iterator_ w2)) as Hr by (rewrite Er; exact (w_reused _ _ _ _ Hw)).
  apply runs_bind, runs_get. unfold with_walk. cbn [walk input output tlogs statistics new_scos_ filepool_ backendinterface_].
  rewrite (c_data _ _ _ _ _ _ Hc), (dat_lookup _ _ _ _ Ht). cbn [fmap option_fmap option_map state].
  rewrite (st_dead _ _ _ (c_rank _ _ _ _ _ _ Hc)). apply runs_bind.
  assert (forall n, inn = Some n -> n = sco_of e \/ num_lt n (sco_of e)) as Hle.
  { intros n Hn. destruct (Hinn n Hn) as (x & Hx & <-).
    pose proof (log_number P e rest x e HP ltac:(apply elem_of_app; by left) ltac:(by left)) as Hnum'.
    destruct (decide (SCO.number_ (sco_of x) = SCO.number_ (sco_of e))) as [E|]; [left|right; unfold num_lt; lia].
    apply (sane_sco L); [done|rewrite HP; apply elem_of_app; by left|done|done]. }
  destruct (dead (sco_of e)) eqn:Hd.
  - assert (forall (m1 m2 : M (Pool OS) unit), match (if (rank t <? nr)%nat then Reused else Scrubbed) with
      | Scrubbed | Reused => m1 | NotScrubbed => m2 | Unknown => mthrow VerifyFailed end = m1) as Hm by (intros; by destruct (rank t <? nr)%nat).
    replace (match Some (if (rank t <? nr)%nat then Reused else Scrubbed) with
      | Some Scrubbed | Some Reused => rewrite_entry csz ssz e | Some NotScrubbed => add_nonrewritten e | _ => mthrow VerifyFailed end)
      with (rewrite_entry csz ssz e) by (by destruct (rank t <? nr)%nat).
    eapply runs_mono; [apply (rewrite_runs P rest e HP t inn full cur nr); done|].
    intros ? p3 (Hnon3 & full' & cur' & nr' & Hc3 & Hr3 & Hin3 & Hout3 & Hg3). apply runs_modify.
    exists (S t), nr', full', (cur' ++ [e]), (Some (sco_of e)). split; cbn [walk input output tlogs filepool_]; try done.
    + by apply (walk_next P rest e).
    + rewrite List.filter_app, app_assoc, Hg3. cbn. by rewrite Hd.
    + intros E. by destruct cur'.
    + intros n [= <-]. exists e. split; [apply elem_of_app; right; by left|done].
    + rewrite Hnon3. cbn [tlogs]. rewrite Hnon, List.filter_app. cbn. rewrite Hd. by rewrite app_nil_r.
  - unfold add_nonrewritten. pose proof (sl_loc L HL) as Hloc. rewrite Forall_forall in Hloc.
    apply runs_bind, runs_get. apply runs_bind. cbn [tlogs]. apply runs_lift with (nonrewritten_tlog (tlogs p) ++ [e]); [apply add_loc; by apply Hloc|].
    apply runs_modify, runs_modify. cbn [walk].
    exists (S t), nr, full, cur, inn. split; cbn [walk input output tlogs filepool_]; try done.
    + by apply (walk_next P rest e).
    + rewrite List.filter_app, Hg. cbn. rewrite Hd. by rewrite app_nil_r.
    + intros n Hn. destruct (Hinn n Hn) as (x & Hx & E). exists x. split; [apply elem_of_app; by left|done].
    + cbn [nonrewritten_tlog]. rewrite Hnon, List.filter_app. cbn. by rewrite Hd.
Qed.

(** ** The whole scrub *)
Definition initial_pool (access : list (SCO.SCO * spec_float)) : Pool OS :=
  mkPool (mkWalk (dat 0 0) 0 0 0) (mkInput [] (replicate (Z.to_nat csz) 0)) (mkOutput None 0 (SCO.mkSCO 0 0 0) CheckSum_default)
    (mkWriters [] [] []) (mkStatistics access [] 0 0 0) new0 ∅ o0.

Lemma initial_ok access : pool_ok [] 0 0 [] [] None (initial_pool access).
Proof.
  split; try done; cbn [initial_pool walk input output tlogs filepool_].
  - split; try (done || lia); [by intros ? ?%elem_of_nil|cbn; intros; lia].
  - split; cbn; try done; [by rewrite length_replicate|]. intros n. rewrite lookup_empty. by intros [].
  - split; cbn; try done.
    + by intros ? ?%elem_of_nil.
    + lia.
    + by left.
    + unfold written. destruct tgts; cbn; by rewrite (left_id_L ∅ _).
    + by rewrite app_nil_r.
    + lia.
    + unfold placed. destruct tgts as [|? [|]]; done.
Qed.

Lemma run_loop access : runs (miter (doEntry csz ssz minu) L) (initial_pool access)
  (fun _ p' => exists d nr full cur inn, pool_ok L d nr full cur inn p').
Proof.
  eapply runs_mono.
  { apply (runs_iter _ (fun l p => exists P d nr full cur inn, L = P ++ l /\ pool_ok P d nr full cur inn p)).
    - exists [], O, O, [], [], None. split; [done|apply initial_ok].
    - intros e rest p (P & d & nr & full & cur & inn & HP & Hok).
      eapply runs_mono; [by apply (entry_runs P rest e d nr full cur inn)|].
      intros ? p' (d' & nr' & full' & cur' & inn' & Hok'). exists (P ++ [e]), d', nr', full', cur', inn'.
      split; [by rewrite <- app_assoc|done]. }
  intros ? p' (P & d & nr & full & cur & inn & E & Hok). rewrite app_nil_r in E. subst P. by exists d, nr, full, cur, inn.
Qed.

(** The groups of the clusters that were moved: all but the last fill a SCO. *)
Record groups_ok (gs : list (list Entry)) : Prop := mkGroupsOk {
  g_concat : concat gs = List.filter (fun x => dead (sco_of x)) L;
  g_room : (length gs <= length tgts)%nat;
  g_size : forall i g, gs !! i = Some g -> 0 < Z.of_nat (length g) <= ssz /\ (S i <> length gs -> Z.of_nat (length g) = ssz) }.

Lemma groups_of full cur nr p d inn : pool_ok L d nr full cur inn p ->
  exists gs, groups_ok gs /\ (nr = length gs) /\ placed (full ++ [cur]) = placed gs /\
    (cur = [] -> gs = full) /\ (cur <> [] -> gs = full ++ [cur]).
Proof.
  intros [Hw Hin Hout Hg Htidy Hinn Hnon].
  pose proof (out_cur _ _ _ _ _ _ _ _ _ Hout) as Hcur. pose proof (out_full _ _ _ _ _ _ _ _ _ Hout) as Hfull.
  destruct (decide (cur = [])) as [->|Hne].
  - destruct (Htidy eq_refl) as [-> Hn]. exists []. rewrite app_nil_r in Hg.
    split; [split; [done|cbn; lia|done]|]. split; [|by rewrite placed_empty].
    destruct Hcur as [(_ & ? & _)|(n & Hn' & _)]; [done|congruence].
  - destruct Hcur as [(_ & _ & ? & _)|(n & Hn & _ & Hnr & Htgt & _)]; [done|]. exists (full ++ [cur]). split.
    + split.
      * rewrite concat_app. cbn. by rewrite app_nil_r.
      * rewrite length_app. cbn. apply lookup_lt_Some in Htgt. lia.
      * intros i g Hi. rewrite length_app. cbn [length]. rewrite Forall_forall in Hfull.
        apply lookup_app_Some in Hi as [Hi|[Hge Hi]].
        -- rewrite (Hfull g) by (by apply list_elem_of_lookup_2 in Hi). lia.
        -- apply list_lookup_singleton_Some in Hi as [Hi <-]. pose proof (out_len _ _ _ _ _ _ _ _ _ Hout).
           destruct cur; [done|]. cbn [length] in *. split; [lia|]. intros. lia.
    + rewrite length_app. cbn. split_and!; [lia|done|done|done].
Qed.

Lemma finish_runs d nr full cur inn p : pool_ok L d nr full cur inn p ->
  runs finish p (fun _ p' => exists gs, groups_ok gs /\ walk p' = walk p /\ nr = length gs /\
    nonrewritten_tlog (tlogs p') = List.filter (fun x => negb (dead (sco_of x))) L /\
    rewritten_tlog (tlogs p') = placed gs /\ relocations_tlog (tlogs p') = pairs (concat gs) (placed gs) /\ tlogs p' = tlogs p /\
    scos_of (backendinterface_ p') = written gs /\ new_scos_ p' = new0 ++ take (length gs) tgts).
Proof.
  intros Hok. destruct (groups_of _ _ _ _ _ _ Hok) as (gs & Hgs & Hnr & Hpl & He & Hne). destruct Hok as [Hw Hin Hout Hg Htidy Hinn Hnon].
  pose proof (out_re _ _ _ _ _ _ _ _ _ Hout) as Hre. pose proof (out_rel _ _ _ _ _ _ _ _ _ Hout) as Hrel.
  rewrite Hpl in Hre, Hrel. rewrite Hg, <- (g_concat _ Hgs) in Hrel.
  unfold finish. apply runs_bind, runs_get. apply runs_bind.
  pose proof (out_cur _ _ _ _ _ _ _ _ _ Hout) as [(Hn & Hnr' & Hcur & Hoff)|(n & Hn & Hnm & Hnr' & Htgt & Hoff & Hf & Hcs)].
  - rewrite Hoff. cbn [Z.ltb Z.compare]. apply runs_ret, runs_modify. exists gs. specialize (He Hcur). subst gs cur.
    cbn [walk tlogs backendinterface_ new_scos_]. split_and!; try done; apply Hout.
  - assert (cur <> []) as Hc by (intros ->; destruct (Htidy eq_refl) as [_ E]; congruence).
    rewrite (proj2 (Z.ltb_lt 0 _)) by (rewrite Hoff; destruct cur; [done|cbn [length]; lia]).
    apply runs_bind, runs_modify. rewrite Hn, Hnm. eapply runs_mono.
    { apply (upload_runs full cur n (image cur)); cbn [backendinterface_ filepool_ output new_scos_]; try done; apply Hout. }
    intros ? p1 (o' & -> & Ho'). apply runs_modify. exists gs. rewrite (Hne Hc), length_app. cbn [length]. rewrite Nat.add_1_r.
    rewrite <- (Hne Hc) in Ho' |- *. rewrite (Hne Hc) in Hnr. rewrite length_app in Hnr. cbn [length] in Hnr.
    cbn [walk tlogs backendinterface_ new_scos_]. split_and!; done.
Qed.

Lemma run_runs access : runs (run csz ssz minu L) (initial_pool access) (fun r p' => exists gs, groups_ok gs /\
  snd r = Z.of_nat (length (concat gs)) /\ scodata_ (walk p') = dat (length ss) (length gs) /\
  nonrewritten_tlog (tlogs p') = List.filter (fun x => negb (dead (sco_of x))) L /\
  rewritten_tlog (tlogs p') = placed gs /\ relocations_tlog (tlogs p') = pairs (concat gs) (placed gs) /\
  scos_of (backendinterface_ p') = written gs /\ new_scos_ p' = new0 ++ take (length gs) tgts).
Proof.
  unfold run. rewrite (locations_all L (sl_loc L HL)). apply runs_bind. eapply runs_mono; [apply run_loop|].
  intros ? p (d & nr & full & cur & inn & Hok). apply runs_bind, runs_get. pose proof (po_walk _ _ _ _ _ _ _ Hok) as Hw.
  assert (length ss = d /\ (scodata_iterator_ (walk p) = length ss \/ S (scodata_iterator_ (walk p)) = length ss)) as [Hd Hit].
  { destruct (last L) as [e|] eqn:El; cbn in HlastL.
    - destruct (w_at _ _ _ _ Hw e El) as [Hi Hd]. rewrite last_lookup in HlastL.
      pose proof (NoDup_lookup _ _ _ _ (num_sorted_NoDup _ Hss) Hi HlastL) as E. apply lookup_lt_Some in Hi.
      assert (S (scodata_iterator_ (walk p)) = length ss) as E' by lia. split; [congruence|by right].
    - apply last_None in El, HlastL. destruct (w_start _ _ _ _ Hw El) as [-> ->]. rewrite HlastL. split; [done|by left]. }
  apply runs_bind, runs_verify.
  { rewrite (w_data _ _ _ _ Hw), length_dat. apply orb_true_iff. destruct Hit; [left|right]; by apply Nat.eqb_eq. }
  apply runs_bind. eapply runs_mono; [apply (finish_runs _ _ _ _ _ _ Hok)|].
  intros ? p' (gs & Hgs & Hw' & Hnr & Hnon & Hre & Hrel & Ht & Hb & Hns). apply runs_ret. exists gs. split; [done|].
  split_and!; try done; [|by rewrite Hw', Hd, <- Hnr; apply (w_data _ _ _ _ Hw)].
  rewrite <- Ht, Hrel. cbn [snd]. pose proof (length_placed gs (g_room _ Hgs)) as Hl. revert Hl. clear. generalize (placed gs) (concat gs).
  intros b a Hl. assert (length (pairs a b) = 2 * length a)%nat as ->.
  { unfold pairs. revert b Hl. induction a as [|x a IH]; intros [|y b] Hl; try done. cbn in *. rewrite IH by lia. lia. }
  rewrite Nat2Z.inj_mul, Z.mul_comm. apply Z.div_mul. done.
Qed.

(** The SCOs to be deleted are the dead ones. *)
Lemma deleted_dels nr (p : Pool OS) : scodata_ (walk p) = dat (length ss) nr -> getSCONamesToBeDeleted p = Ok dels.
Proof.
  intros Hdat. unfold getSCONamesToBeDeleted. rewrite Hdat. unfold dat, dels.
  assert (forall i s, ss !! i = Some s -> negb (state_eqb (st (length ss) nr i s) Unknown) = true /\
    state_eqb (st (length ss) nr i s) Scrubbed || state_eqb (st (length ss) nr i s) Reused = dead s) as H'.
  { intros i s Hi. apply lookup_lt_Some in Hi. unfold st. destruct (SCO.eqb s lastsco) eqn:E; [unfold dead; by rewrite E|].
    rewrite (proj2 (Nat.leb_gt _ _)) by lia. by destruct (dead s), (rank i <? nr)%nat. }
  exact (deleted_loop dead (fun s => count s L) sz (st (length ss) nr) ss [] H').
Qed.
End IO.
End Walk.
End SCOPoolFacts.
