(* ===== verification/CutterFacts.v ===== *)
(** * Cutting TLogs

    The cutters of Scrubbing.v: the objects they leave in the backend, one after the
    other, are the entries they were given; TLogCutter never separates the entries of
    a SCO, TheSonOfTLogCutter never separates the two halves of a relocation. *)

From S2P Require Import Prelude Addressing TLogEntry TLogs PageGenerator MetaDataStore MetaDataBackends MetaDataFacts MetaDataTheorems Scrubbing ScrubbingFacts.

Module CutterFacts.
Import ClusterLocation CLH Entry EntryFile TLog ObjectStore PageGeneratorFacts EntryFileFacts.

(** ** Cutting a list where a test says so *)
Section Chunk.
Variable full : list Entry -> Entry -> bool.

(** The chunks that are complete and the one that is not. *)
Fixpoint chunk (cur r : list Entry) : list (list Entry) * list Entry :=
  match r with
  | [] => ([], cur)
  | e :: r' =>
      if full cur e then (cur :: fst (chunk [e] r'), snd (chunk [e] r'))
      else chunk (cur ++ [e]) r'
  end.

Definition chunks (r : list Entry) : list (list Entry) := fst (chunk [] r) ++ [snd (chunk [] r)].

Lemma chunk_concat r cur : concat (fst (chunk cur r)) ++ snd (chunk cur r) = cur ++ r.
Proof.
  revert cur. induction r as [|e r IH]; intros cur; cbn [chunk]; [cbn; by rewrite app_nil_r|].
  destruct (full cur e); cbn [fst snd concat]; [by rewrite <- app_assoc, IH|]. rewrite IH. by rewrite <- app_assoc.
Qed.

Lemma chunks_concat r : concat (chunks r) = r.
Proof. unfold chunks. rewrite concat_app. cbn. rewrite app_nil_r. apply (chunk_concat r []). Qed.

Lemma chunk_head r cur : cur <> [] -> exists g, head (fst (chunk cur r) ++ [snd (chunk cur r)]) = Some g /\ head g = head cur.
Proof.
  revert cur. induction r as [|e r IH]; intros cur Hc; cbn [chunk]; [by exists cur|].
  destruct (full cur e); [by exists cur|]. destruct (IH (cur ++ [e])) as (g & Hg & Hh); [by destruct cur|].
  exists g. split; [done|]. rewrite Hh. by destruct cur.
Qed.

(** A chunk ends only where the test holds ... *)
Lemma chunk_cut r cur i g g' : (fst (chunk cur r) ++ [snd (chunk cur r)]) !! i = Some g ->
  (fst (chunk cur r) ++ [snd (chunk cur r)]) !! S i = Some g' -> exists e, head g' = Some e /\ full g e = true.
Proof.
  revert cur i. induction r as [|e r IH]; intros cur i; cbn [chunk]; [by destruct i|].
  destruct (full cur e) eqn:E; [|apply IH]. cbn [fst snd app]. destruct i as [|i].
  - intros [= <-] Hg'. destruct (chunk_head r [e]) as (x & Hx & Hh); [done|]. rewrite head_lookup in Hx.
    exists e. split; [|done]. assert (Some g' = Some x) as [= ->] by (rewrite <- Hg', <- Hx; done). done.
  - intros Hg Hg'. apply (IH [e] i); done.
Qed.

(** ... and at the first such place. *)
Definition early (g : list Entry) : Prop := forall g1 e g2, g = g1 ++ e :: g2 -> g1 <> [] -> full g1 e = false.

Lemma early_snoc g e : early g -> full g e = false -> early (g ++ [e]).
Proof.
  intros Hg He g1 x g2 E Hne. destruct g2 as [|y g2 _] using rev_ind.
  - apply app_inj_tail in E as [<- <-]. done.
  - change (g1 ++ x :: g2 ++ [y]) with (g1 ++ (x :: g2) ++ [y]) in E. rewrite app_assoc in E. apply app_inj_tail in E as [-> <-].
    by apply (Hg g1 x g2).
Qed.

Lemma chunk_early r cur : early cur -> (cur = [] -> forall e, full [] e = false) -> Forall early (fst (chunk cur r) ++ [snd (chunk cur r)]).
Proof.
  revert cur. induction r as [|e r IH]; intros cur Hc Hn; cbn [chunk]; [by repeat constructor|].
  assert (early [e]) as H1.
  { intros g1 x g2 E Hne. destruct g1 as [|y g1]; [done|]. injection E as _ E. by destruct g1. }
  destruct (full cur e) eqn:E; cbn [fst snd app].
  - constructor; [done|]. by apply IH.
  - apply IH; [by apply early_snoc|]. intros E'. by destruct cur.
Qed.
End Chunk.

Section Store.
Context {O : Type} `{OSI : ObjectStore O} {SP : ObjectStoreSpec O}.
Variable o0 : O.
(** The ids drawn are new and different. *)
Variable new_id : nat -> TLogId.
Hypothesis Hinj : forall i j, new_id i = new_id j -> i = j.
Hypothesis Hfresh : forall i, objects o0 !! new_id i = None.

Definition stored (gs : list (list Entry)) : gmap TLogId (list Entry) :=
  list_to_map (imap (fun i g => (new_id i, g)) gs) ∪ objects o0.

Lemma stored_keys (gs : list (list Entry)) i : (length gs <= i)%nat -> new_id i ∉ (imap (fun i g => (new_id i, g)) gs).*1.
Proof.
  intros Hi ([k g] & E & Hin)%list_elem_of_fmap. cbn in E. subst k.
  apply list_elem_of_lookup in Hin as [j Hj]. rewrite list_lookup_imap in Hj.
  destruct (gs !! j) as [g'|] eqn:Hg; [|done]. injection Hj as E _. apply Hinj in E. apply lookup_lt_Some in Hg. lia.
Qed.

Lemma stored_snoc gs g : stored (gs ++ [g]) = <[new_id (length gs) := g]> (stored gs).
Proof.
  unfold stored. rewrite insert_union_l. f_equal. rewrite imap_app. cbn. rewrite Nat.add_0_r.
  apply list_to_map_snoc. by apply stored_keys.
Qed.

Lemma stored_free gs : stored gs !! new_id (length gs) = None.
Proof. unfold stored. apply lookup_union_None. split; [|done]. apply not_elem_of_list_to_map_1. by apply stored_keys. Qed.

Lemma stored_lookup gs i g : gs !! i = Some g -> stored gs !! new_id i = Some g.
Proof.
  intros Hi. unfold stored. apply lookup_union_Some_l. apply elem_of_list_to_map_1.
  - assert (forall l (f : nat -> TLogId), (forall i j, f i = f j -> i = j) -> NoDup (imap (fun i (g : list Entry) => (f i, g)) l).*1) as Hnd.
    { intros l. induction l as [|x l IH]; intros f Hf; cbn; [apply NoDup_nil_2|]. apply NoDup_cons. split.
      - intros ([k y] & E & Hin)%list_elem_of_fmap. cbn in E. subst k.
        apply list_elem_of_lookup in Hin as [j Hj]. rewrite list_lookup_imap in Hj.
        destruct (l !! j); [|done]. injection Hj as E _. by apply Hf in E.
      - apply (IH (f ∘ S)). intros a b E. by injection (Hf _ _ E). }
    by apply Hnd.
  - apply list_elem_of_lookup. exists i. by rewrite list_lookup_imap, Hi.
Qed.

(** Writing the next object. *)
Lemma write_next gs g o : objects o = stored gs ->
  objectExists (new_id (length gs)) o = false /\
  exists o', os_write (new_id (length gs)) g o = (o', Ok tt) /\ objects o' = stored (gs ++ [g]).
Proof.
  intros Ho. split.
  - rewrite objectExists_spec, Ho, stored_free. by apply bool_decide_eq_false_2; intros [].
  - destruct (os_write_spec (new_id (length gs)) g o) as (o' & E & Ho'). exists o'. split; [done|]. by rewrite Ho', Ho, stored_snoc.
Qed.

(** ** [TLogCutter] *)
Section TLogCutter.
Import TLogCutter.
Variable max cluster_size : Z.
Hypothesis Hmax : 0 < max < 2 ^ 64.

Definition tlog_of (w : bool) (i : nat) (g : list Entry) : TLog := mkTLog (new_id i) w (u64 (Z.of_nat (length g) * cluster_size)).

Record cut_ok (done : list (list Entry)) (cur : list Entry) (c : Cutter O) : Prop := mkCut {
  cut_objects : objects (bi_ c) = stored done;
  cut_writer : tlog_writer c = Some cur;
  cut_tlogs : tlogs_ c = imap (tlog_of true) done ++ [tlog_of false (length done) cur] }.

Lemma cut_put_runs gs cur c : cut_ok gs cur c ->
  runs writeTLogToBackend c (fun _ c' => objects (bi_ c') = stored (gs ++ [cur]) /\ tlogs_ c' = imap (tlog_of true) (gs ++ [cur])).
Proof.
  intros [Ho Hw Ht]. unfold writeTLogToBackend. apply runs_bind, runs_get. rewrite Hw, Ht, last_snoc. cbn [uuid tlog_of].
  destruct (write_next gs cur (bi_ c) Ho) as [Hex (o' & E & Ho')].
  apply runs_bind. unfold verify_. rewrite Hex. cbn [negb]. apply runs_ret. apply runs_bind.
  exists tt. eexists. rewrite E. split; [done|]. apply runs_modify. cbn [bi_ tlogs_]. split; [done|].
  rewrite Ht. unfold on_last. rewrite last_snoc, removelast_last, imap_app. cbn. by rewrite Nat.add_0_r.
Qed.

Lemma next_runs gs cur c : cut_ok gs cur c ->
  runs (writeTLogToBackend ;! makeNewTLog new_id) c (fun _ c' => cut_ok (gs ++ [cur]) [] c').
Proof.
  intros Hok. apply runs_bind. eapply runs_mono; [by apply cut_put_runs|]. intros ? c' [Ho Ht]. apply runs_modify.
  split; cbn [bi_ tlog_writer tlogs_]; [done|done|]. rewrite Ht, length_imap. done.
Qed.

Lemma cut_append_runs gs cur e c : loc_entry e -> cut_ok gs cur c ->
  runs (append cluster_size e) c (fun _ c' => cut_ok gs (cur ++ [e]) c').
Proof.
  intros He [Ho Hw Ht]. unfold append. apply runs_bind, runs_get. rewrite Hw. rewrite (add_loc e cur He).
  apply runs_bind. exists (cur ++ [e]), c. split; [done|]. apply runs_modify. split; cbn [bi_ tlog_writer tlogs_]; [done|done|].
  rewrite Ht. unfold on_last. rewrite last_snoc, removelast_last. do 2 f_equal. unfold add_to_backend_size, tlog_of. cbn [uuid written_to_backend size].
  f_equal. rewrite wrap_add_l, length_app. f_equal. cbn [length]. lia.
Qed.

(** When the next entry starts a new TLog. *)
Definition full (cur : list Entry) (e : Entry) : bool :=
  (max <=? Z.of_nat (length cur)) &&
  match last cur with Some p => negb (number (clusterLocation_ p) =? number (clusterLocation_ e)) | None => true end.

Lemma loop_runs r : Forall loc_entry r -> forall gs cur prev c, cut_ok gs cur c -> Z.of_nat (length cur) + Z.of_nat (length r) < 2 ^ 64 ->
  (forall e, last cur = Some e -> prev = number (clusterLocation_ e)) ->
  runs (cut_loop max cluster_size new_id (Z.of_nat (length cur)) prev r) c
    (fun _ c' => cut_ok (gs ++ fst (chunk full cur r)) (snd (chunk full cur r)) c').
Proof.
  induction 1 as [|e r He Hr IH]; intros gs cur prev c Hok Hlen Hprev; cbn [cut_loop chunk fst snd].
  - apply runs_ret. by rewrite app_nil_r.
  - cbn [length] in Hlen.
    replace ((max <=? Z.of_nat (length cur)) && negb (prev =? number (clusterLocation_ e))) with (full cur e).
    2: { unfold full. destruct (last cur) as [x|] eqn:El; [by rewrite (Hprev x eq_refl)|].
         apply last_None in El. subst cur. by rewrite (proj2 (Z.leb_gt max _)) by (cbn; lia). }
    destruct (full cur e).
    + apply runs_bind. eapply runs_mono; [by apply next_runs|]. intros ? c1 Hok1.
      apply runs_bind. eapply runs_mono; [apply (cut_append_runs (gs ++ [cur]) [] e); done|]. intros ? c2 Hok2. cbn [app] in Hok2.
      rewrite wrap_id by (unfold fits; lia). change (0 + 1) with (Z.of_nat (length [e])).
      eapply runs_mono; [apply (IH (gs ++ [cur]) [e]); [done|cbn [length]; lia|by intros ? [= <-]]|].
      intros ? c3 Hok3. rewrite <- app_assoc in Hok3. by destruct (chunk full [e] r).
    + apply runs_bind, runs_ret. apply runs_bind. eapply runs_mono; [by apply (cut_append_runs gs cur e)|]. intros ? c2 Hok2.
      rewrite wrap_id by (unfold fits; lia). replace (Z.of_nat (length cur) + 1) with (Z.of_nat (length (cur ++ [e]))) by (rewrite length_app; cbn; lia).
      apply IH; [done|rewrite length_app; cbn; lia|]. intros x Hx. rewrite last_snoc in Hx. by injection Hx as <-.
Qed.

(** The TLogs and what is in the backend under their names. *)
Lemma cut_runs file : Forall loc_entry file -> Z.of_nat (length file) < 2 ^ 64 ->
  runs (cut max cluster_size new_id file) (mkCutter o0 None [])
    (fun tlogs c' => tlogs = imap (tlog_of true) (chunks full file) /\ objects (bi_ c') = stored (chunks full file)).
Proof.
  intros Hloc Hlen. unfold cut. apply runs_bind, runs_modify. rewrite (locations_all _ Hloc). apply runs_bind.
  eapply runs_mono.
  { apply (loop_runs file Hloc [] [] 0); [|cbn; lia|done]. split; cbn; try done. unfold stored. cbn. by rewrite (left_id_L ∅ _). }
  intros ? c1 Hok. apply runs_bind. eapply runs_mono; [exact (cut_put_runs _ _ _ Hok)|]. intros ? c2 [Ho Ht].
  apply runs_bind, runs_get, runs_ret. by split.
Qed.
End TLogCutter.

(** ** [TheSonOfTLogCutter] *)
Section TheSonOfTLogCutter.
Import TheSonOfTLogCutter.
Variable max : Z.
Hypothesis Hmax : 0 < max < 2 ^ 64.

Record son_ok (done : list (list Entry)) (cur : list Entry) (c : Cutter O) : Prop := mkSon {
  son_objects : objects (bi_ c) = stored done;
  son_writer : tlog_writer c = Some cur;
  son_names : tlog_names_ c = new_id <$> seq 0 (S (length done)) }.

Lemma son_put_runs gs cur c : son_ok gs cur c ->
  runs writeTLogToBackend c (fun _ c' => objects (bi_ c') = stored (gs ++ [cur]) /\ tlog_names_ c' = new_id <$> seq 0 (length (gs ++ [cur]))).
Proof.
  intros [Ho Hw Ht]. unfold writeTLogToBackend. apply runs_bind, runs_get. rewrite Hw, Ht, seq_S, fmap_app. cbn [fmap list_fmap Nat.add]. rewrite last_snoc.
  destruct (write_next gs cur (bi_ c) Ho) as [Hex (o' & E & Ho')].
  apply runs_bind. unfold verify_. rewrite Hex. cbn [negb]. apply runs_ret.
  exists tt. eexists. rewrite E. split; [done|]. cbn [bi_ tlog_names_]. split; [done|].
  rewrite Ht, length_app. cbn [length]. by rewrite Nat.add_1_r.
Qed.

Lemma son_append_runs gs cur e c : loc_entry e -> son_ok gs cur c -> runs (append e) c (fun _ c' => son_ok gs (cur ++ [e]) c').
Proof.
  intros He [Ho Hw Ht]. unfold append. apply runs_bind, runs_get. rewrite Hw. rewrite (add_loc e cur He).
  apply runs_bind. exists (cur ++ [e]), c. split; [done|]. apply runs_modify. by split.
Qed.

Definition son_full (cur : list Entry) (e : Entry) : bool := (max <=? Z.of_nat (length cur)) && (Z.of_nat (length cur) mod 2 =? 0).

Lemma son_loop_runs r : Forall loc_entry r -> forall gs cur c, son_ok gs cur c -> Z.of_nat (length cur) + Z.of_nat (length r) < 2 ^ 64 ->
  runs (cut_loop max new_id (Z.of_nat (length cur)) r) c
    (fun _ c' => son_ok (gs ++ fst (chunk son_full cur r)) (snd (chunk son_full cur r)) c').
Proof.
  induction 1 as [|e r He Hr IH]; intros gs cur c Hok Hlen; cbn [cut_loop chunk fst snd]; [apply runs_ret; by rewrite app_nil_r|].
  cbn [length] in Hlen. fold (son_full cur e). destruct (son_full cur e).
  - apply runs_bind, runs_bind. eapply runs_mono; [exact (son_put_runs _ _ _ Hok)|]. intros ? c1 [Ho1 Hn1].
    apply runs_modify. apply runs_bind. eapply runs_mono; [apply (son_append_runs (gs ++ [cur]) [] e); [done|]|].
    + split; cbn [bi_ tlog_writer tlog_names_]; [done|done|]. by rewrite Hn1, length_fmap, length_seq, seq_S, fmap_app.
    + intros ? c2 Hok2. cbn [app] in Hok2. rewrite wrap_id by (unfold fits; lia). change (0 + 1) with (Z.of_nat (length [e])).
      eapply runs_mono; [apply (IH (gs ++ [cur]) [e]); [done|cbn [length]; lia]|]. intros ? c3 Hok3. by rewrite <- app_assoc in Hok3.
  - apply runs_bind, runs_ret. apply runs_bind. eapply runs_mono; [by apply (son_append_runs gs cur e)|]. intros ? c2 Hok2.
    rewrite wrap_id by (unfold fits; lia). replace (Z.of_nat (length cur) + 1) with (Z.of_nat (length (cur ++ [e]))) by (rewrite length_app; cbn; lia).
    apply IH; [done|]. rewrite length_app. cbn. lia.
Qed.

Lemma son_cut_runs file : Forall loc_entry file -> Z.of_nat (length file) < 2 ^ 64 ->
  runs (cut max new_id file) (mkCutter o0 None [])
    (fun _ c' => tlog_names_ c' = new_id <$> seq 0 (length (chunks son_full file)) /\ objects (bi_ c') = stored (chunks son_full file)).
Proof.
  intros Hloc Hlen. unfold cut. apply runs_bind, runs_modify. rewrite (locations_all _ Hloc). apply runs_bind.
  eapply runs_mono.
  { apply (son_loop_runs file Hloc [] []); [|cbn; lia]. split; cbn; try done. unfold stored. cbn. by rewrite (left_id_L ∅ _). }
  intros ? c1 Hok. eapply runs_mono; [exact (son_put_runs _ _ _ Hok)|]. intros ? c2 [Ho Ht]. by split.
Qed.
End TheSonOfTLogCutter.
End Store.

(** ** Relocations: pairs of entries *)
Import Relocations.

Lemma length_unpair ps : length (unpair ps) = (2 * length ps)%nat.
Proof. unfold unpair. induction ps as [|p ps IH]; [done|]. cbn in *. rewrite IH. lia. Qed.

Lemma unpair_app a b : unpair (a ++ b) = unpair a ++ unpair b.
Proof. unfold unpair. by rewrite fmap_app, concat_app. Qed.

Lemma unpair_loc ps : Forall reloc_ok ps -> Forall loc_entry (unpair ps).
Proof.
  unfold unpair. induction 1 as [|p ps (H1 & H2 & _) Hps IH]; [done|]. cbn. constructor; [done|]. by constructor.
Qed.

Lemma son_full_odd max qs (p : Entry * Entry) x : son_full max (unpair qs ++ [fst p]) x = false.
Proof.
  unfold son_full. rewrite length_app, length_unpair. cbn [length]. apply andb_false_iff. right. apply Z.eqb_neq.
  replace (Z.of_nat (2 * length qs + 1)) with (1 + Z.of_nat (length qs) * 2) by lia. by rewrite Z.mod_add.
Qed.

(** Cut between pairs, a list of pairs is cut into lists of pairs. *)
Lemma unpair_chunk max ps qs : 0 < max ->
  exists pss r, chunk (son_full max) (unpair qs) (unpair ps) = (unpair <$> pss, unpair r) /\ concat pss ++ r = qs ++ ps.
Proof.
  intros Hmax. revert qs. induction ps as [|p ps IH]; intros qs.
  - exists [], qs. cbn. by rewrite app_nil_r.
  - change (unpair (p :: ps)) with (fst p :: snd p :: unpair ps). cbn [chunk].
    destruct (son_full max (unpair qs) (fst p)) eqn:E.
    + change [fst p] with (unpair [] ++ [fst p]). rewrite son_full_odd. change ((unpair [] ++ [fst p]) ++ [snd p]) with (unpair [p]).
      destruct (IH [p]) as (pss & r & -> & Hc). exists (qs :: pss), r. split; [done|]. cbn. by rewrite <- app_assoc, Hc.
    + rewrite son_full_odd. rewrite <- app_assoc. change ([fst p] ++ [snd p]) with (unpair [p]). rewrite <- unpair_app.
      destruct (IH (qs ++ [p])) as (pss & r & -> & Hc). exists pss, r. split; [done|]. by rewrite Hc, <- app_assoc.
Qed.

Lemma unpair_chunks max ps : 0 < max ->
  exists pss, concat pss = ps /\ pss <> [] /\ chunks (son_full max) (unpair ps) = unpair <$> pss.
Proof.
  intros Hmax. destruct (unpair_chunk max ps [] Hmax) as (pss & r & E & Hc). exists (pss ++ [r]). split_and!.
  - rewrite concat_app. cbn. by rewrite app_nil_r.
  - by destruct pss.
  - unfold chunks. change (@nil Entry) with (unpair []). rewrite E. by rewrite fmap_app.
Qed.
End CutterFacts.
