(* ===== verification/ScrubberTheorems.v ===== *)
(** * The scrubber preserves the volume

    [Scrubber.scrub] on a snapshot whose log and data are as the volume driver
    writes them: it returns; what the new TLogs say together with the new SCOs is
    what the old ones said, also without the SCOs it reports as deleted; and its
    relocations bring the metadata of the volume to the new TLogs. *)

From stdpp Require Import sorting.
From Stdlib Require Import SpecFloat.
From S2P Require Import Prelude CheckSum Addressing TLogEntry TLogs Snapshots SnapshotPersistor PageGenerator MetaDataStore MetaDataBackends MetaDataFacts MetaDataTheorems MetaDataClaims Replay Scrubbing SCOPool Scrubber ScrubbingFacts ScrubbingTheorems SCOPoolFacts CutterFacts.

Module ScrubberTheorems.
Import ClusterLocation CLH Entry EntryFile TLog ObjectStore SCOStore PageGeneratorFacts EntryFileFacts LogFacts MergerFacts
  ScrubbingSCOData Scrubber SCOPoolFacts CutterFacts Relocations Replay.

Lemma last_scos l : last (scos l) = sco_of <$> last l.
Proof.
  induction l as [|e l IH] using rev_ind; [done|]. rewrite scos_app, last_snoc. cbn. unfold push_sco.
  destruct (last (scos l)) as [s|] eqn:E; [|done]. destruct (SCO.eqb (sco_of e) s) eqn:Eq; [|by rewrite last_snoc].
  apply AddressingFacts.sco_eqb_eq in Eq. by rewrite E, Eq.
Qed.

(** ** What a snapshot holds: the data at an address *)
Definition cluster_in (csz : Z) (m : gmap SCO.SCO (list Z)) (e : Entry) : list Z :=
  take (Z.to_nat csz) (drop (Z.to_nat (offset_ (clusterLocation_ e) * csz)) (default [] (m !! sco_of e))).

Definition contents (csz : Z) (log : list Entry) (m : gmap SCO.SCO (list Z)) (ca : Z) : option (list Z) :=
  cluster_in csz m <$> last (of_address ca log).

Definition without (m : gmap SCO.SCO (list Z)) (dl : list SCO.SCO) : gmap SCO.SCO (list Z) := foldr delete m dl.

Lemma without_lookup m dl s : s ∉ dl -> without m dl !! s = m !! s.
Proof. induction dl as [|d dl IH]; [done|]. intros [Hne Hs]%not_elem_of_cons. cbn. rewrite lookup_delete_ne by done. by apply IH. Qed.

Lemma last_of_address_live ca l : last (of_address ca (live l)) = last (of_address ca l).
Proof.
  unfold of_address. rewrite <- (live_lfilter (fun a => a =? ca)). apply last_live.
Qed.

(** With every address once, the entry there is decides. *)
Lemma of_address_unique l e : NoDup (addresses l) -> e ∈ l -> of_address (clusteraddress_ e) l = [e].
Proof.
  unfold of_address, addresses. induction l as [|x l IH]; intros Hnd He; [by apply elem_of_nil in He|].
  cbn in Hnd. apply NoDup_cons in Hnd as [Hx Hnd]. cbn. apply elem_of_cons in He as [->|He].
  - rewrite Z.eqb_refl. f_equal. apply lfilter_none. intros y Hy. apply Z.eqb_neq. intros E. apply Hx.
    apply list_elem_of_fmap. by exists y.
  - destruct (Z.eqb_spec (clusteraddress_ x) (clusteraddress_ e)) as [E|_]; [|by apply IH].
    exfalso. apply Hx. rewrite E. apply list_elem_of_fmap. by exists e.
Qed.

Lemma of_address_none l ca : ca ∉ addresses l -> of_address ca l = [].
Proof.
  intros H. apply lfilter_none. intros e He. apply Z.eqb_neq. intros E. apply H. apply list_elem_of_fmap. by exists e.
Qed.

Lemma contents_unique csz log m ca e : NoDup (addresses log) -> e ∈ log -> clusteraddress_ e = ca -> contents csz log m ca = Some (cluster_in csz m e).
Proof. intros Hnd He <-. unfold contents. by rewrite (of_address_unique log e). Qed.

(** ** Maps by logs that have every address once *)
Lemma replay_unique cid l e f : NoDup (addresses l) -> e ∈ l -> replay cid l f (clusteraddress_ e) = CLH.set_cloneID cid (clusterLocationAndHash e).
Proof.
  intros Hnd He. rewrite (replay_of_address cid l f f) by done. rewrite (of_address_unique l e Hnd He). cbn. unfold upd. by rewrite decide_True.
Qed.

Lemma replay_elsewhere cid l f ca : ca ∉ addresses l -> replay cid l f ca = f ca.
Proof. intros H. rewrite (replay_of_address cid l f f) by done. by rewrite (of_address_none l ca H). Qed.

(** Relocations of different addresses do not meet. *)
Lemma relocate_elsewhere scid ps f ca : ca ∉ (fun p => clusteraddress_ (fst p)) <$> ps -> fold_left (relocate scid) ps f ca = f ca.
Proof.
  revert f. induction ps as [|p ps IH]; intros f H; [done|]. cbn in H. apply not_elem_of_cons in H as [Hne H]. cbn [fold_left].
  rewrite IH by done. unfold relocate. destruct (ClusterLocation.eqb _ _); [|done]. unfold upd. by rewrite decide_False.
Qed.

Lemma relocate_unique scid ps f p : NoDup ((fun p => clusteraddress_ (fst p)) <$> ps) -> p ∈ ps ->
  f (clusteraddress_ (fst p)) = CLH.set_cloneID scid (clusterLocationAndHash (fst p)) ->
  fold_left (relocate scid) ps f (clusteraddress_ (fst p)) = CLH.set_cloneID scid (clusterLocationAndHash (snd p)).
Proof.
  revert f. induction ps as [|q ps IH]; intros f Hnd Hin Hf; [by apply elem_of_nil in Hin|]. cbn in Hnd. apply NoDup_cons in Hnd as [Hq Hnd].
  cbn [fold_left]. apply elem_of_cons in Hin as [<-|Hin].
  - rewrite relocate_elsewhere by done. unfold relocate. rewrite Hf.
    replace (ClusterLocation.eqb _ _) with true by (symmetry; by apply AddressingFacts.cl_eqb_eq). unfold upd. by rewrite decide_True.
  - apply IH; [done|done|]. unfold relocate. destruct (ClusterLocation.eqb _ _); [|done]. unfold upd. rewrite decide_False; [done|].
    intros E. apply Hq. rewrite <- E. apply list_elem_of_fmap. by exists p.
Qed.

(** ** Groups of entries, moved *)
Definition moved_to (ts : list SCO.SCO) (gs : list (list Entry)) (e e' : Entry) : Prop :=
  exists j i g n, gs !! j = Some g /\ g !! i = Some e /\ ts !! j = Some n /\ e' = moved n i e.

Lemma placed_moved ts gs : (length gs <= length ts)%nat -> Forall2 (moved_to ts gs) (concat gs) (concat (zip_with place ts gs)).
Proof.
  revert ts. induction gs as [|g gs IH]; intros [|n ts] Hl; cbn in *; try constructor; [lia|].
  apply Forall2_app.
  - apply Forall2_same_length_lookup_2; [unfold place; by rewrite length_imap|].
    intros i e e' He He'. unfold place in He'. rewrite list_lookup_imap, He in He'. injection He' as <-. by exists O, i, g, n.
  - eapply Forall2_impl; [apply IH; lia|]. intros e e' (j & i & g' & n' & ? & ? & ? & ?). by exists (S j), i, g', n'.
Qed.

Lemma zip_lookup {A B} (a : list A) (b : list B) k x y : a !! k = Some x -> b !! k = Some y -> zip a b !! k = Some (x, y).
Proof. intros Ha Hb. apply lookup_zip_with_Some. by exists x, y. Qed.

Lemma place_sorted n i0 g : StronglySorted loc_lt (imap (fun i => moved n (i0 + i)) g).
Proof.
  revert i0. induction g as [|e g IH]; intros i0; cbn; constructor.
  - replace (imap _ g) with (imap (fun i => moved n (S i0 + i)) g); [apply IH|]. apply imap_ext. intros i x _. cbn. by rewrite Nat.add_succ_r.
  - apply Forall_lookup. intros k x Hx. rewrite list_lookup_imap in Hx. destruct (g !! k) as [y|]; [|done]. injection Hx as <-. right.
    cbn. split; [done|]. lia.
Qed.

Lemma placed_sorted ts gs : StronglySorted num_lt ts -> StronglySorted loc_lt (concat (zip_with place ts gs)).
Proof.
  intros Hs. revert gs. induction Hs as [|n ts Hs IH Hn]; intros [|g gs]; cbn; try constructor. apply StronglySorted_app_2; [|apply (place_sorted n 0)|apply IH].
  intros x y Hx Hy. left. rewrite Forall_forall in Hn.
  apply list_elem_of_lookup in Hx as [i Hi]. unfold place in Hi. rewrite list_lookup_imap in Hi. destruct (g !! i); [|done]. injection Hi as <-.
  apply elem_of_concat in Hy as (h & Hh & Hy). apply list_elem_of_lookup in Hh as [j Hj].
  apply lookup_zip_with_Some in Hj as (m & g' & -> & Hm & _). apply list_elem_of_lookup in Hy as [k Hk].
  unfold place in Hk. rewrite list_lookup_imap in Hk. destruct (g' !! k); [|done]. injection Hk as <-. cbn.
  apply Hn. by apply list_elem_of_lookup_2 in Hm.
Qed.

(** Two strictly sorted lists without a SCO in common, sorted together. *)
Lemma merged_sorted a b out : StronglySorted loc_lt a -> StronglySorted loc_lt b ->
  (forall x y, x ∈ a -> y ∈ b -> SCO.number_ (sco_of x) <> SCO.number_ (sco_of y)) ->
  out ≡ₚ a ++ b -> StronglySorted loc_le out -> StronglySorted loc_lt out.
Proof.
  intros Ha Hb Hab Hp Hout. set (key := fun e : Entry => (number (clusterLocation_ e), offset_ (clusterLocation_ e))).
  assert (forall l, StronglySorted loc_lt l -> NoDup (key <$> l)) as Hkey.
  { induction 1 as [|x l H IH Hx]; [apply NoDup_nil_2|]. cbn. apply NoDup_cons. split; [|done].
    intros (y & E & Hy)%list_elem_of_fmap. rewrite Forall_forall in Hx. specialize (Hx y Hy). injection E as E1 E2. unfold loc_lt in Hx. lia. }
  assert (NoDup (key <$> out)) as Hnd.
  { rewrite Hp, fmap_app. apply NoDup_app. split_and!; [by apply Hkey| |by apply Hkey].
    intros k (x & -> & Hx)%list_elem_of_fmap (y & E & Hy)%list_elem_of_fmap. apply (Hab x y Hx Hy). by injection E. }
  clear -Hnd Hout. induction Hout as [|x l H IH Hx]; constructor; cbn in Hnd; apply NoDup_cons in Hnd as [Hn Hnd]; [by apply IH|].
  rewrite Forall_forall in *. intros y Hy. specialize (Hx y Hy).
  destruct (decide (key x = key y)) as [E|Hne]; [exfalso; apply Hn; rewrite E; apply list_elem_of_fmap; by exists y|].
  unfold loc_le, loc_lt, key in *. destruct Hx as [?|[E1 Hle]]; [by left|right]. split; [done|].
  destruct (decide (offset_ (clusterLocation_ x) = offset_ (clusterLocation_ y))); [|lia]. congruence.
Qed.

(** Clusters of one size, one after the other. *)
Lemma concat_blocks n (bs : list (list Z)) i b : Forall (fun b => length b = n) bs -> bs !! i = Some b ->
  take n (drop (i * n) (concat bs)) = b.
Proof.
  intros Hall. revert i. induction Hall as [|c bs Hc Hall IH]; intros i Hi; [done|]. destruct i as [|i].
  - injection Hi as <-. cbn. rewrite drop_0. rewrite <- Hc. apply take_app_length.
  - cbn [concat]. rewrite drop_app. rewrite Hc. replace (S i * n - n)%nat with (i * n)%nat by lia.
    rewrite (drop_ge c) by lia. cbn. by apply IH.
Qed.

Section Scrub.
Context {TS OS : Type} `{OI : ObjectStore TS} {OSP : ObjectStoreSpec TS} `{SI : SCOStore OS} {SSP : SCOStoreSpec OS}.
Variable max : Z.
Variable new_id new_reloc_id : nat -> TLogId.
Variable args : ScrubberArgs.
Variable minu : Z.
Variable access : list (SCO.SCO * spec_float).
Variable sp : SnapshotPersistor.SnapshotPersistor.
Variable ns0 : Namespace TS OS.
Variable num : Snapshot.SnapshotNum.
Variable log : list Entry.

Definition csz : Z := 2 ^ cluster_size_exponent args.
Definition ids : list TLogId := snd (SnapshotPersistor.getTLogsInSnapshot sp num []).

(** What the scrubber relies on.  The log: entries in the order they were
    written, SCOs in the backend that hold their clusters, a free name for a new
    version of each.  Ids of new objects are new. *)
Record scrubbable : Prop := mkScrubbable {
  s_max : 0 < max < 2 ^ 64;
  s_region : 0 <= region_size_exponent args < 64;
  s_cluster : 0 <= cluster_size_exponent args < 32;
  s_sco : 0 < sco_size args < 2 ^ 16;
  s_min : minu <= sco_size args;
  s_snapshot : SnapshotPersistor.getSnapshotNum sp (snapshot_name args) = Ok num;
  s_ids : ids <> [];
  s_read : read_tlogs ids (ns_tlogs ns0) = Ok log;
  s_sane : sane_log (locations log);
  s_length : Z.of_nat (length (locations log)) < 2 ^ 63;
  s_count : forall s, count s (locations log) < 2 ^ 16;
  s_data : forall e, e ∈ locations log -> exists d, scos_of (ns_scos ns0) !! sco_of e = Some d /\ bytes d /\
    0 <= offset_ (clusterLocation_ e) /\ (offset_ (clusterLocation_ e) + 1) * csz <= Z.of_nat (length d) < 2 ^ 64;
  s_names : forall s, s ∈ scos (locations log) -> exists n, SCOPool.makeNewSCOName (ns_scos ns0) s = Ok n;
  s_inj : forall i j, new_id i = new_id j -> i = j;
  s_inj_reloc : forall i j, new_reloc_id i = new_reloc_id j -> i = j;
  s_fresh : forall i, objects (ns_tlogs ns0) !! new_id i = None;
  s_fresh_reloc : forall i, objects (ns_tlogs ns0) !! new_reloc_id i = None;
  s_disjoint : forall i j, new_id i <> new_reloc_id j }.

Hypothesis HS : scrubbable.

Abbreviation l := (locations log).
Abbreviation L := (live (locations log)).
Abbreviation ss := (scos (locations log)).
Definition lastsco : SCO.SCO := sco_ (last_location l).
Abbreviation deadb := (dead L lastsco minu).
Abbreviation newlog := (placed L ss lastsco minu (ns_scos ns0)).
Definition kept : list Entry := List.filter (fun x => negb (deadb (sco_of x))) L.

Lemma live_sane : sane_log L.
Proof. eapply sane_sublist; [apply live_sublist|apply (s_sane HS)]. Qed.

Lemma live_in e : e ∈ L -> e ∈ l.
Proof. intros He. eapply elem_of_sublist; [done|apply live_sublist]. Qed.

Lemma initial_dat : SCOPool.initial csz (data_of ss (fun s => count s L) (fun s => count s l)) access lastsco [] (ns_scos ns0) =
  Ok (initial_pool L ss (fun s => count s l) lastsco minu csz (ns_scos ns0) [] access).
Proof.
  unfold SCOPool.initial. pose proof (scos_spec l (s_sane HS)) as [Hss _].
  replace (forallb _ _) with true.
  2: { symmetry. apply forallb_forall. intros x Hx. apply list_elem_of_In in Hx. unfold data_of in Hx.
       apply list_elem_of_fmap in Hx as (s & -> & Hs). cbn [sconame_]. apply Z.leb_le. unfold lastsco, last_location.
       pose proof (last_scos l) as El. destruct (last l) as [e|] eqn:E.
       - destruct (last_num_max _ _ _ Hss El Hs) as [->|Hlt]; [done|]. unfold num_lt in Hlt. unfold sco_of in *. lia.
       - cbn in El. apply last_None in El. rewrite El in Hs. by apply elem_of_nil in Hs. }
  unfold initial_pool, SCOPoolFacts.dat, data_of. do 3 f_equal. rewrite <- list_fmap_compose. apply list_eq. intros i.
  rewrite list_lookup_fmap, list_lookup_imap. destruct (ss !! i) as [s|]; [|done]. cbn. unfold st. by destruct (SCO.eqb s lastsco).
Qed.

Lemma dead_names s : s ∈ ss -> deadb s = true -> exists n, SCOPool.makeNewSCOName (ns_scos ns0) s = Ok n.
Proof. intros Hs _. by apply (s_names HS). Qed.

Lemma scos_nonzero s : s ∈ ss -> SCO.number_ s <> 0.
Proof.
  intros (e & He & <-)%(proj2 (scos_spec l (s_sane HS))). pose proof (sl_loc _ (s_sane HS)) as Hl. rewrite Forall_forall in Hl.
  destruct (Hl e He) as [_ Hn]. unfold isNull, number in Hn. by apply Z.eqb_neq.
Qed.

(** The data scrub within the namespace. *)
Lemma data_scrub_runs : runs (data_scrub csz (sco_size args) minu (data_of ss (fun s => count s L) (fun s => count s l)) access lastsco [] L) ns0
  (fun r ns1 => exists gs, groups_ok L ss lastsco minu (sco_size args) (ns_scos ns0) gs /\ fst r = Z.of_nat (length (concat gs)) /\
    ns_tlogs ns1 = ns_tlogs ns0 /\ scos_of (ns_scos ns1) = written L ss lastsco minu csz (ns_scos ns0) gs /\
    SCOPool.getSCONamesToBeDeleted (snd r) = Ok (dels L ss lastsco minu) /\
    SCOPool.nonrewritten_tlog (SCOPool.tlogs (snd r)) = kept /\ SCOPool.rewritten_tlog (SCOPool.tlogs (snd r)) = newlog gs /\
    SCOPool.relocations_tlog (SCOPool.tlogs (snd r)) = pairs (concat gs) (newlog gs) /\
    SCOPool.new_scos_ (snd r) = take (length gs) (tgts L ss lastsco minu (ns_scos ns0))).
Proof.
  pose proof (scos_spec l (s_sane HS)) as [Hss Hmem].
  destruct (run_runs L ss (fun s => count s l) lastsco minu live_sane Hss) with (SP := SSP) (csz := csz) (ssz := sco_size args) (o0 := ns_scos ns0)
    (new0 := @nil SCO.SCO) (access := access) as ([cs n] & p' & Hrun & gs & Hgs & Hn & Hdat & Hnon & Hre & Hrel & Hb & Hns).
  - intros e He. apply Hmem. exists e. split; [by apply live_in|done].
  - intros s. unfold lastsco, last_location. rewrite last_scos. destruct (last l) as [e|]; [|done]. by intros [= <-].
  - unfold csz. apply Z.pow_pos_nonneg; [lia|apply (s_cluster HS)].
  - apply (s_sco HS).
  - apply (s_min HS).
  - intros e He. by apply (s_data HS), live_in.
  - apply dead_names.
  - apply scos_nonzero.
  - intros s. eapply Z.le_lt_trans; [apply count_sublist, live_sublist|apply (s_count HS)].
  - by rewrite last_live, last_scos.
  - unfold data_scrub, on_scos. exists (n, p'), (mkNS (ns_tlogs ns0) (SCOPool.backendinterface_ p')). rewrite initial_dat, Hrun.
    split; [done|]. exists gs. cbn [fst snd ns_tlogs ns_scos] in *. split_and!; try done. by apply (deleted_dels _ _ _ _ _ _ _ Hdat).
Qed.

Section Groups.
Variable gs : list (list Entry).
Hypothesis Hgs : groups_ok L ss lastsco minu (sco_size args) (ns_scos ns0) gs.

Abbreviation targets := (tgts L ss lastsco minu (ns_scos ns0)).
Abbreviation scos1 := (written L ss lastsco minu csz (ns_scos ns0) gs).

Lemma csz_pos : 0 < csz.
Proof. unfold csz. apply Z.pow_pos_nonneg; [lia|apply (s_cluster HS)]. Qed.

Lemma newlog_moved : Forall2 (moved_to targets gs) (concat gs) (newlog gs).
Proof. apply placed_moved, (g_room _ _ _ _ _ _ _ Hgs). Qed.

Lemma moved_live e : e ∈ concat gs <-> e ∈ L /\ deadb (sco_of e) = true.
Proof. by rewrite (g_concat _ _ _ _ _ _ _ Hgs), elem_of_lfilter. Qed.

Lemma group_live j g i e : gs !! j = Some g -> g !! i = Some e -> e ∈ L /\ deadb (sco_of e) = true.
Proof.
  intros Hj Hi. apply moved_live, elem_of_concat. exists g. split; [by apply list_elem_of_lookup_2 in Hj|by apply list_elem_of_lookup_2 in Hi].
Qed.

Lemma target_spec j n : targets !! j = Some n -> exists s, s ∈ ss /\ deadb s = true /\ SCO.number_ n = SCO.number_ s /\
  dels L ss lastsco minu !! j = Some s /\ scos_of (ns_scos ns0) !! n = None.
Proof.
  intros (s & Hd & -> & Hs & Hdd)%tgts_lookup. exists s.
  destruct (newname_spec L ss lastsco minu (ns_scos ns0) dead_names s Hs Hdd) as (_ & Hnum & Hfree). by split_and!.
Qed.

(** SCOs in the backend stay, new ones have the clusters that were moved. *)
Lemma scos1_keep s d : scos_of (ns_scos ns0) !! s = Some d -> scos1 !! s = Some d.
Proof.
  intros Hd. unfold written. rewrite lookup_union_r; [done|]. apply not_elem_of_list_to_map_1.
  intros ([n' x] & E & Hin)%list_elem_of_fmap. cbn in E. subst n'.
  apply list_elem_of_lookup in Hin as [j Hj]. apply lookup_zip_with_Some in Hj as (n' & x' & [= <- <-] & Hj & _).
  destruct (target_spec _ _ Hj) as (_ & _ & _ & _ & _ & Hn). congruence.
Qed.

Lemma scos1_old s : s ∈ ss -> scos1 !! s = scos_of (ns_scos ns0) !! s.
Proof.
  intros (e & He & <-)%(proj2 (scos_spec l (s_sane HS))). destruct (s_data HS e He) as (d & Hd & _).
  rewrite Hd. by apply scos1_keep.
Qed.

Lemma scos1_new j g n : gs !! j = Some g -> targets !! j = Some n -> scos1 !! n = Some (image csz (ns_scos ns0) g).
Proof.
  intros Hj Hn. unfold written. apply lookup_union_Some_l. apply elem_of_list_to_map_1.
  - apply (sublist_NoDup _ targets).
    + apply num_sorted_NoDup, tgts_sorted; [apply (scos_spec l (s_sane HS))|apply _|apply dead_names].
    + clear. generalize (image csz (ns_scos ns0) <$> gs). generalize targets. intros a b. revert b.
      induction a as [|x a IH]; intros [|y b]; cbn; try apply sublist_nil_l. by apply sublist_skip.
  - apply list_elem_of_lookup. exists j. apply zip_lookup; [done|]. by rewrite list_lookup_fmap, Hj.
Qed.

Lemma moved_cluster e e' : moved_to targets gs e e' -> cluster_in csz scos1 e' = cluster_in csz (scos_of (ns_scos ns0)) e.
Proof.
  intros (j & i & g & n & Hj & Hi & Hn & ->). unfold cluster_in, sco_of, moved. cbn [clusterLocation_ loc_and_hash_ clusterLocation ClusterLocation.of_sco offset_ sco_].
  rewrite (scos1_new j g n Hj Hn). cbn [default]. unfold id, image. pose proof csz_pos as Hc.
  replace (Z.to_nat (Z.of_nat i * csz)) with (i * Z.to_nat csz)%nat by lia.
  rewrite (concat_blocks (Z.to_nat csz) _ i (cluster csz (ns_scos ns0) e)).
  - done.
  - apply Forall_fmap, Forall_lookup. intros k x Hx. cbn.
    destruct (group_live _ _ _ _ Hj Hx) as [HxL _].
    apply (cluster_spec L (fun _ => 0) lastsco csz (ns_scos ns0) Hc); [|done]. intros y Hy. by apply (s_data HS), live_in.
  - by rewrite list_lookup_fmap, Hi.
Qed.

Lemma moved_loc e e' : moved_to targets gs e e' -> loc_entry e' /\ clusteraddress_ e' = clusteraddress_ e /\
  SCO.number_ (sco_of e') ∈ SCO.number_ <$> dels L ss lastsco minu.
Proof.
  intros (j & i & g & n & Hj & Hi & Hn & ->). destruct (group_live _ _ _ _ Hj Hi) as [HL _].
  destruct (target_spec _ _ Hn) as (s & Hs & _ & Hnum & Hd & _).
  pose proof (sl_loc _ live_sane) as Hloc. rewrite Forall_forall in Hloc. destruct (Hloc e HL) as [Hfit _].
  split_and!; [split; [done|]|done|].
  - unfold isNull, number. cbn. rewrite Hnum. apply Z.eqb_neq. by apply scos_nonzero.
  - change (sco_of (moved n i e)) with n. rewrite Hnum. apply list_elem_of_fmap. exists s. split; [done|]. by apply list_elem_of_lookup_2 in Hd.
Qed.

Lemma newlog_elem e' : e' ∈ newlog gs -> exists e, e ∈ concat gs /\ moved_to targets gs e e'.
Proof.
  intros [k Hk]%list_elem_of_lookup. destruct (Forall2_lookup_r _ _ _ _ _ newlog_moved Hk) as (e & He & Hm).
  exists e. split; [by apply list_elem_of_lookup_2 in He|done].
Qed.

Lemma newlog_addresses : addresses (newlog gs) = addresses (concat gs).
Proof.
  unfold addresses. pose proof newlog_moved as H. revert H. generalize (concat gs) (newlog gs). intros a b H.
  induction H as [|e e' a b He H IH]; [done|]. cbn. rewrite IH. f_equal. by apply moved_loc.
Qed.

Lemma parts_loc : Forall loc_entry (newlog gs) /\ Forall loc_entry kept.
Proof.
  split.
  - apply Forall_forall. intros e' (e & _ & Hm)%newlog_elem. by apply (moved_loc e).
  - apply Forall_lfilter, (sl_loc _ live_sane).
Qed.

Lemma parts_addresses : addresses (newlog gs ++ kept) ≡ₚ addresses L.
Proof.
  unfold addresses at 1. rewrite fmap_app. fold (addresses (newlog gs)). rewrite newlog_addresses, (g_concat _ _ _ _ _ _ _ Hgs).
  unfold addresses. rewrite <- fmap_app. unfold kept. by rewrite lfilter_split.
Qed.

(** Whatever order the entries come in, the data is what it was, and the SCOs to be
    deleted have no part in it. *)
Lemma contents_preserved out ca : out ≡ₚ newlog gs ++ kept ->
  contents csz out (without scos1 (dels L ss lastsco minu)) ca = contents csz l (scos_of (ns_scos ns0)) ca.
Proof.
  intros Hp.
  assert (NoDup (addresses out)) as Hnd.
  { unfold addresses. rewrite Hp. fold (addresses (newlog gs ++ kept)). rewrite parts_addresses. apply live_NoDup. }
  assert (contents csz l (scos_of (ns_scos ns0)) ca = contents csz L (scos_of (ns_scos ns0)) ca) as ->.
  { unfold contents. by rewrite last_of_address_live. }
  assert (forall s, s ∈ dels L ss lastsco minu <-> s ∈ ss /\ deadb s = true) as Hdels by (intros; apply elem_of_lfilter).
  destruct (decide (ca ∈ addresses L)) as [Hin|Hnin].
  - assert (ca ∈ addresses (newlog gs ++ kept)) as Hin' by (by rewrite parts_addresses).
    unfold addresses in Hin'. apply list_elem_of_fmap in Hin' as (e' & -> & He').
    rewrite (contents_unique csz out _ _ e' Hnd) by (rewrite ?Hp; done).
    apply elem_of_app in He' as [He'|[HL Hk]%elem_of_lfilter].
    + destruct (newlog_elem e' He') as (e & Hec & Hm). destruct (moved_loc e e' Hm) as (_ & Haddr & _).
      apply moved_live in Hec as [HeL _]. rewrite (contents_unique csz L _ _ e (live_NoDup l) HeL) by done.
      f_equal. rewrite <- (moved_cluster e e' Hm). unfold cluster_in. f_equal. f_equal. f_equal. apply without_lookup.
      intros [Hs _]%Hdels. destruct Hm as (j & i & g & n & _ & _ & Hn & ->). change (sco_of (moved n i e)) with n in Hs.
      destruct (target_spec _ _ Hn) as (_ & _ & _ & _ & _ & Hfree). apply (scos_spec l (s_sane HS)) in Hs as (x & Hx & E).
      destruct (s_data HS x Hx) as (d & Hd & _). congruence.
    + rewrite (contents_unique csz L _ _ e' (live_NoDup l) HL) by done. f_equal. unfold cluster_in. do 3 f_equal.
      rewrite without_lookup.
      * apply scos1_old. apply (scos_spec l (s_sane HS)). exists e'. split; [by apply live_in|done].
      * intros [_ Hd]%Hdels. by rewrite Hd in Hk.
  - unfold contents. rewrite (of_address_none L ca Hnin), (of_address_none out ca); [done|].
    unfold addresses. rewrite Hp. fold (addresses (newlog gs ++ kept)). by rewrite parts_addresses.
Qed.
End Groups.

(** ** The whole scrub *)
Lemma read_objects (o : TS) ks gs : Forall2 (fun i g => objects o !! i = Some g) ks gs -> read_tlogs ks o = Ok (concat gs).
Proof. induction 1 as [|i g ks gs Hi H IH]; [done|]. cbn. rewrite (proj2 (os_read_spec i o g) Hi), IH. done. Qed.

Lemma read_stored (o o1 : TS) (f : nat -> TLogId) gs : (forall i j, f i = f j -> i = j) ->
  (forall i g, gs !! i = Some g -> objects o1 !! f i = stored o f gs !! f i) -> read_tlogs (f <$> seq 0 (length gs)) o1 = Ok (concat gs).
Proof.
  intros Hinj H. apply read_objects, Forall2_same_length_lookup_2; [by rewrite length_fmap, length_seq|].
  intros i k g Hk Hg. rewrite list_lookup_fmap in Hk. destruct (seq 0 (length gs) !! i) as [x|] eqn:E; [|done].
  apply lookup_seq in E as [-> _]. injection Hk as <-. rewrite (H i g Hg). by apply stored_lookup.
Qed.

Lemma uuid_tlogs cs b gs : TLog.uuid <$> imap (tlog_of new_id cs b) gs = new_id <$> seq 0 (length gs).
Proof.
  apply list_eq. intros i. rewrite !list_lookup_fmap, list_lookup_imap. destruct (gs !! i) as [g|] eqn:E.
  - rewrite (lookup_seq_lt 0 (length gs) i) by (by apply lookup_lt_Some in E). done.
  - rewrite lookup_seq_ge by (by apply lookup_ge_None in E). done.
Qed.

Lemma stored_other (o : TS) (f : nat -> TLogId) gs k : (forall i, f i <> k) -> stored o f gs !! k = objects o !! k.
Proof.
  intros Hk. unfold stored. rewrite lookup_union_r; [done|]. apply not_elem_of_list_to_map_1.
  intros ([k' g] & E & Hin)%list_elem_of_fmap. cbn in E. subst k'.
  apply list_elem_of_lookup in Hin as [j Hj]. rewrite list_lookup_imap in Hj. destruct (gs !! j); [|done]. injection Hj as E _. by apply (Hk j).
Qed.

(** What the scrubber leaves: [gs] are the clusters it moved, [out] is the new log. *)
Record scrubbed (gs : list (list Entry)) (out : list Entry) (r : ScrubberResult) (ns1 : Namespace TS OS) : Prop := mkScrubbed {
  r_groups : groups_ok L ss lastsco minu (sco_size args) (ns_scos ns0) gs;
  r_out : out ≡ₚ newlog gs ++ kept;
  r_sorted : StronglySorted loc_le (newlog gs) -> StronglySorted loc_le out;
  r_ids : tlog_names_in r = ids;
  r_tlogs : tlogs_out r = imap (tlog_of new_id csz true) (chunks (full max) out);
  r_log : read_tlogs (TLog.uuid <$> tlogs_out r) (ns_tlogs ns1) = Ok out;
  r_relocs : read_tlogs (relocs r) (ns_tlogs ns1) = Ok (pairs (concat gs) (newlog gs));
  r_num : relocNum r = Z.of_nat (length (concat gs));
  r_deleted : sconames_to_be_deleted r = dels L ss lastsco minu;
  r_scos : scos_of (ns_scos ns1) = written L ss lastsco minu csz (ns_scos ns0) gs;
  r_new : new_sconames r = [];
  r_keep : forall k : TLogId, (forall i, new_id i <> k) -> (forall i, new_reloc_id i <> k) ->
    objects (ns_tlogs ns1) !! k = objects (ns_tlogs ns0) !! k }.

Lemma shift_csz w : cluster_size_exponent args < w -> wrap w (Z.shiftl 1 (cluster_size_exponent args)) = csz.
Proof.
  intros Hw. pose proof (s_cluster HS) as [H0 _]. rewrite Z.shiftl_mul_pow2, Z.mul_1_l by done. apply wrap_id. unfold fits.
  split; [by apply Z.pow_nonneg|]. apply Z.pow_lt_mono_r; lia.
Qed.

Lemma length_out gs out : groups_ok L ss lastsco minu (sco_size args) (ns_scos ns0) gs -> out ≡ₚ newlog gs ++ kept ->
  Z.of_nat (length out) < 2 ^ 63.
Proof.
  intros Hgs Hp. pose proof (Permutation_length (parts_addresses gs Hgs)) as Hl. unfold addresses in Hl. rewrite !length_fmap in Hl.
  rewrite (Permutation_length Hp), Hl. pose proof (sublist_length _ _ (live_sublist l)). pose proof (s_length HS). lia.
Qed.

(** The relocations are cut and read back. *)
Lemma cut_relocations_runs gs (ns1 : Namespace TS OS) : groups_ok L ss lastsco minu (sco_size args) (ns_scos ns0) gs ->
  (forall i, objects (ns_tlogs ns1) !! new_reloc_id i = None) ->
  runs (let file := pairs (concat gs) (newlog gs) in
        if (0 <? length file)%nat then
          let! names := cut_relocations max new_reloc_id file in
          verify_ (negb (length names =? 0)%nat) ;! mret names
        else mret []) ns1 (fun (names : list TLogId) (ns2 : Namespace TS OS) => ns_scos ns2 = ns_scos ns1 /\
    read_tlogs names (ns_tlogs ns2) = Ok (pairs (concat gs) (newlog gs)) /\
    (forall k : TLogId, (forall i, new_reloc_id i <> k) -> objects (ns_tlogs ns2) !! k = objects (ns_tlogs ns1) !! k)).
Proof.
  intros Hgs Hfree. cbv zeta. set (file := pairs (concat gs) (newlog gs)).
  assert (Forall2 (fun e e' => loc_entry e /\ loc_entry e') (concat gs) (newlog gs)) as Hlocs.
  { eapply Forall2_impl; [apply newlog_moved; done|]. intros e e' Hm. split; [|by apply (moved_loc gs Hgs e)].
    destruct Hm as (j & i & g & n & Hj & Hi & _). destruct (group_live gs Hgs _ _ _ _ Hj Hi) as [HeL _].
    pose proof (sl_loc _ live_sane) as Hl. rewrite Forall_forall in Hl. by apply Hl. }
  assert (Forall loc_entry file /\ length file = 2 * length (concat gs))%nat as [Hloc Hlen].
  { unfold file, pairs. clear -Hlocs. induction Hlocs as [|e e' a b [H1 H2] H IH]; [done|]. cbn. destruct IH as [IH1 IH2].
    split; [constructor; [done|by constructor]|]. rewrite IH2. lia. }
  destruct (0 <? length file)%nat eqn:E.
  - destruct (son_cut_runs (ns_tlogs ns1) new_reloc_id (s_inj_reloc HS) Hfree max file Hloc) as ([] & c' & Hrun & Hnames & Hobj).
    { pose proof (length_out gs _ Hgs (reflexivity _)) as Hb. rewrite length_app in Hb.
      rewrite (length_placed L ss (fun _ => 0) lastsco minu (ns_scos ns0) gs (g_room _ _ _ _ _ _ _ Hgs)) in Hb. lia. }
    apply runs_bind. unfold cut_relocations, on_tlogs. eexists _, (mkNS _ (ns_scos ns1)). rewrite Hrun. split; [done|].
    rewrite Hnames. apply runs_bind. unfold verify_.
    rewrite (proj2 (Nat.eqb_neq _ 0)) by (rewrite length_fmap, length_seq; unfold chunks; rewrite length_app; cbn; lia). cbn [negb].
    apply runs_ret, runs_ret. cbn [ns_scos ns_tlogs]. split; [done|]. split.
    + rewrite (read_stored (ns_tlogs ns1) _ new_reloc_id _ (s_inj_reloc HS)); [by rewrite chunks_concat|]. intros i g _. by rewrite Hobj.
    + intros k Hk. rewrite Hobj. by apply stored_other.
  - apply runs_ret. split; [done|]. split; [|done]. cbn. destruct file; [done|]. cbn in E. done.
Qed.

Lemma scrub_runs : runs (scrub max new_id new_reloc_id args minu access sp) ns0 (fun r ns1 => exists gs out, scrubbed gs out r ns1).
Proof.
  unfold scrub. apply runs_bind. apply runs_lift with num; [by rewrite (s_snapshot HS)|].
  fold ids. apply runs_bind. unfold verify_ at 1. rewrite (proj2 (Nat.eqb_neq (length ids) 0)) by (pose proof (s_ids HS); by destruct ids).
  cbn [negb]. apply runs_ret. apply runs_bind, runs_get. apply runs_bind. apply runs_lift with log; [apply (s_read HS)|].
  apply runs_bind. apply runs_lift with (L, last_location l, data_of ss (fun s => count s L) (fun s => count s l)).
  { rewrite MetaDataScrubFacts.metadata_scrub_locations by (apply (sl_loc _ (s_sane HS))).
    apply MetaDataScrubFacts.metadata_scrub_live; [apply (s_region HS)|apply (s_sane HS)|apply (s_count HS)]. }
  cbv zeta. fold lastsco. rewrite (shift_csz 64), (shift_csz 32) by (pose proof (s_cluster HS); lia).
  apply runs_bind. eapply runs_mono; [apply data_scrub_runs|].
  intros [n pool] ns1 (gs & Hgs & Hn & Ht1 & Hs1 & Hdel & Hnon & Hre & Hrel & _). cbn [fst snd] in *.
  destruct (parts_loc gs Hgs) as [Hl1 Hl2]. rewrite Hre, Hnon, (locations_all _ Hl1), (locations_all _ Hl2), Hrel, Hdel.
  destruct (merge_spec [newlog gs; kept]) as (out & Hmerge & Hp & _ & Hsort).
  { cbn [concat]. rewrite app_nil_r. by apply Forall_app. }
  cbn [concat] in Hp. rewrite app_nil_r in Hp.
  apply runs_bind. apply runs_lift with (out, last_location out); [done|].
  assert (Forall loc_entry out) as Hlo by (rewrite Hp; by apply Forall_app).
  destruct (cut_runs (ns_tlogs ns1) new_id (s_inj HS)) with (max := max) (cluster_size := csz) (file := out) as (tl & c' & Hcut & Htl & Hobj);
    [rewrite Ht1; apply (s_fresh HS)|apply (s_max HS)|done|pose proof (length_out gs out Hgs Hp); lia|].
  apply runs_bind. unfold cut_tlog, on_tlogs. exists tl, (mkNS (TLogCutter.bi_ c') (ns_scos ns1)). rewrite Hcut. split; [done|].
  apply runs_bind. unfold verify_ at 1.
  rewrite (proj2 (Nat.eqb_neq (length tl) 0)) by (rewrite Htl, length_imap; unfold chunks; rewrite length_app; cbn; lia). cbn [negb]. apply runs_ret.
  apply runs_bind. eapply runs_mono; [apply (cut_relocations_runs gs _ Hgs)|].
  { intros i. cbn [ns_tlogs]. rewrite Hobj, stored_other by (intros j; apply (s_disjoint HS)). rewrite Ht1. apply (s_fresh_reloc HS). }
  intros names ns2 (Hs2 & Hread & Hkeep). cbn [ns_scos ns_tlogs] in *.
  apply runs_bind. apply runs_lift with (dels L ss lastsco minu); [done|]. apply runs_ret. exists gs, out.
  split; cbn [tlog_names_in tlogs_out relocs relocNum sconames_to_be_deleted new_sconames]; try done.
  - intros Hs. apply Hsort. repeat constructor; [done|]. apply sorted_lt_le, (sorted_sublist _ L); [apply lfilter_sublist|apply (sl_sorted _ live_sane)].
  - rewrite Htl, uuid_tlogs, (read_stored (ns_tlogs ns1) (ns_tlogs ns2) new_id _ (s_inj HS)); [by rewrite chunks_concat|].
    intros i g _. rewrite Hkeep, Hobj; [done|]. intros j E. by apply (s_disjoint HS i j).
  - by rewrite Hs2.
  - intros k H1 H2. rewrite Hkeep, Hobj, stored_other by done. by rewrite Ht1.
Qed.

(** ** What follows *)
Section Result.
Variable gs : list (list Entry).
Variable out : list Entry.
Variable r : ScrubberResult.
Variable ns1 : Namespace TS OS.
Hypothesis HR : scrubbed gs out r ns1.

Lemma out_addresses : addresses out ≡ₚ addresses L.
Proof. unfold addresses at 1. rewrite (r_out _ _ _ _ HR). apply (parts_addresses gs (r_groups _ _ _ _ HR)). Qed.

Lemma out_NoDup : NoDup (addresses out).
Proof. rewrite out_addresses. apply live_NoDup. Qed.

Lemma ss_number s s' : s ∈ ss -> s' ∈ ss -> SCO.number_ s = SCO.number_ s' -> s = s'.
Proof.
  intros (e & He & <-)%(proj2 (scos_spec l (s_sane HS))) (e' & He' & <-)%(proj2 (scos_spec l (s_sane HS))) E.
  by apply (sane_sco l); [apply (s_sane HS)|..].
Qed.

Lemma kept_elem e : e ∈ kept -> e ∈ L /\ sco_of e ∈ ss /\ deadb (sco_of e) = false.
Proof.
  intros [He Hk]%elem_of_lfilter. apply negb_true_iff in Hk. split_and!; [done| |done].
  apply (scos_spec l (s_sane HS)). exists e. split; [by apply live_in|done].
Qed.

Lemma new_kept x y : x ∈ newlog gs -> y ∈ kept -> SCO.number_ (sco_of x) <> SCO.number_ (sco_of y).
Proof.
  intros (e & _ & Hm)%(newlog_elem gs (r_groups _ _ _ _ HR)) (_ & Hy & Hdead)%kept_elem E.
  destruct (moved_loc gs (r_groups _ _ _ _ HR) e x Hm) as (_ & _ & Hin). apply list_elem_of_fmap in Hin as (s & Es & Hs).
  apply elem_of_lfilter in Hs as [Hs Hd]. rewrite (ss_number s (sco_of y) Hs Hy ltac:(congruence)) in Hd. congruence.
Qed.

(** The new log can be scrubbed again. *)
Lemma out_sane : sane_log out.
Proof.
  pose proof (parts_loc gs (r_groups _ _ _ _ HR)) as [Hl1 Hl2].
  assert (StronglySorted num_lt (tgts L ss lastsco minu (ns_scos ns0))) as Hts.
  { apply tgts_sorted; [apply (scos_spec l (s_sane HS))|apply _|apply dead_names]. }
  assert (StronglySorted loc_lt (newlog gs)) as Hn by (by apply placed_sorted). split.
  - rewrite (r_out _ _ _ _ HR). by apply Forall_app.
  - apply (merged_sorted (newlog gs) kept); [done| |apply new_kept|apply (r_out _ _ _ _ HR)|].
    + apply (sorted_sublist _ L); [apply lfilter_sublist|apply (sl_sorted _ live_sane)].
    + apply (r_sorted _ _ _ _ HR). by apply sorted_lt_le.
  - apply Forall_forall. intros x Hx. apply Forall_forall. intros y Hy E. rewrite (r_out _ _ _ _ HR) in Hx, Hy.
    apply elem_of_app in Hx as [Hx|Hx], Hy as [Hy|Hy].
    + destruct (newlog_elem gs (r_groups _ _ _ _ HR) x Hx) as (ex & _ & j & i & g & n & _ & _ & Hj & ->).
      destruct (newlog_elem gs (r_groups _ _ _ _ HR) y Hy) as (ey & _ & j' & i' & g' & n' & _ & _ & Hj' & ->).
      change (sco_of (moved n i ex)) with n in *. change (sco_of (moved n' i' ey)) with n' in *.
      destruct (Nat.lt_trichotomy j j') as [Hlt|[->|Hlt]]; [|congruence|].
      * pose proof (sorted_lookup _ _ _ _ _ _ Hts Hj Hj' Hlt) as H. unfold num_lt in H. lia.
      * pose proof (sorted_lookup _ _ _ _ _ _ Hts Hj' Hj Hlt) as H. unfold num_lt in H. lia.
    + by destruct (new_kept x y Hx Hy).
    + by destruct (new_kept y x Hy Hx).
    + apply (sane_sco L); [apply live_sane|apply (kept_elem x Hx)|apply (kept_elem y Hy)|done].
Qed.

Lemma scrub_reloc_pairs : exists ps, pairs (concat gs) (newlog gs) = unpair ps /\ length ps = length (concat gs) /\ ps = zip (concat gs) (newlog gs) /\
  Forall reloc_ok ps /\ NoDup ((fun p => clusteraddress_ (fst p)) <$> ps).
Proof.
  pose proof (newlog_moved gs (r_groups _ _ _ _ HR)) as HF. exists (zip (concat gs) (newlog gs)). split_and!; [| |done| |].
  - unfold pairs, unpair. f_equal. generalize (concat gs) (newlog gs). intros a b. revert b. clear. induction a as [|x a IH]; intros [|y b]; [done..|]. cbn. by rewrite IH.
  - rewrite length_zip_with, (Forall2_length _ _ _ HF). lia.
  - apply Forall_lookup. intros k p Hp. apply lookup_zip_with_Some in Hp as (e & e' & -> & He & He').
    pose proof (Forall2_lookup_lr _ _ _ _ _ _ HF He He') as Hm. destruct (moved_loc gs (r_groups _ _ _ _ HR) e e' Hm) as (H1 & H2 & _).
    split; [|split; [done|by symmetry]]. cbn. pose proof (sl_loc _ live_sane) as Hl. rewrite Forall_forall in Hl. apply Hl.
    apply list_elem_of_lookup_2 in He. by apply (moved_live gs (r_groups _ _ _ _ HR)) in He as [He _].
  - replace ((fun p => clusteraddress_ (fst p)) <$> zip (concat gs) (newlog gs)) with (addresses (concat gs)).
    + apply (sublist_NoDup _ (addresses L)); [apply live_NoDup|]. unfold addresses. apply fmap_sublist.
      rewrite (g_concat _ _ _ _ _ _ _ (r_groups _ _ _ _ HR)). apply lfilter_sublist.
    + apply Forall2_length in HF. unfold addresses. revert HF. generalize (concat gs) (newlog gs). clear. intros a.
      induction a as [|x a IH]; intros [|y b] Hl; try done. cbn in *. f_equal. apply IH. lia.
Qed.

(** The relocations bring a map by the old log to the map by the new one. *)
Lemma relocations_follow cid f ca :
  fold_left (relocate cid) (zip (concat gs) (newlog gs)) (replay cid l f) ca = replay cid out f ca.
Proof.
  destruct scrub_reloc_pairs as (ps & _ & _ & Eps & Hok & Hnd). rewrite <- Eps.
  pose proof (newlog_moved gs (r_groups _ _ _ _ HR)) as HF.
  destruct (decide (ca ∈ addresses L)) as [Hin|Hnin].
  - assert (ca ∈ addresses (newlog gs ++ kept)) as Hin' by (by rewrite (parts_addresses gs (r_groups _ _ _ _ HR))).
    unfold addresses in Hin'. apply list_elem_of_fmap in Hin' as (e' & -> & He').
    assert (e' ∈ out) as Heo by (by rewrite (r_out _ _ _ _ HR)). rewrite (replay_unique cid out e' f out_NoDup Heo).
    apply elem_of_app in He' as [He'|He'].
    + apply list_elem_of_lookup in He' as [k Hk]. destruct (Forall2_lookup_r _ _ _ _ _ HF Hk) as (e & He & Hm).
      destruct (moved_loc gs (r_groups _ _ _ _ HR) e e' Hm) as (_ & Ea & _). rewrite Ea.
      assert (e ∈ L) as HeL by (apply list_elem_of_lookup_2 in He; by apply (moved_live gs (r_groups _ _ _ _ HR)) in He as [He _]).
      apply (relocate_unique cid ps _ (e, e') Hnd).
      * rewrite Eps. apply list_elem_of_lookup. exists k. by apply zip_lookup.
      * cbn [fst]. rewrite <- MetaDataScrubFacts.replay_live. apply replay_unique; [apply live_NoDup|done].
    + destruct (kept_elem e' He') as (HeL & _ & Hdead). rewrite relocate_elsewhere.
      * rewrite <- MetaDataScrubFacts.replay_live. apply replay_unique; [apply live_NoDup|done].
      * rewrite Eps. intros ([e x] & E & Hp)%list_elem_of_fmap. cbn in E.
        apply list_elem_of_lookup in Hp as [k Hk]. apply lookup_zip_with_Some in Hk as (e1 & x1 & [= <- <-] & Hk & _).
        apply list_elem_of_lookup_2 in Hk. apply (moved_live gs (r_groups _ _ _ _ HR)) in Hk as [HeL' Hd].
        pose proof (of_address_unique L e (live_NoDup l) HeL') as E1. rewrite <- E in E1.
        rewrite (of_address_unique L e' (live_NoDup l) HeL) in E1. injection E1 as <-. congruence.
  - rewrite (replay_elsewhere cid out) by (by rewrite out_addresses). rewrite relocate_elsewhere.
    + rewrite <- MetaDataScrubFacts.replay_live. by apply replay_elsewhere.
    + rewrite Eps. intros ([e x] & -> & Hp)%list_elem_of_fmap. cbn in Hnin.
      apply list_elem_of_lookup in Hp as [k Hk]. apply lookup_zip_with_Some in Hk as (e1 & x1 & [= <- <-] & Hk & _).
      apply list_elem_of_lookup_2 in Hk. apply (moved_live gs (r_groups _ _ _ _ HR)) in Hk as [HeL' Hd]. apply Hnin.
      apply list_elem_of_fmap. by exists e.
Qed.

Lemma groups_number : relocNum r <= Z.of_nat (length gs) * sco_size args < relocNum r + sco_size args.
Proof.
  rewrite (r_num _ _ _ _ HR). pose proof (g_size _ _ _ _ _ _ _ (r_groups _ _ _ _ HR)) as Hsz. pose proof (s_sco HS) as Hs. revert Hsz. clear -Hs.
  induction gs as [|g hs IH]; intros H; [cbn; lia|]. destruct (H O g eq_refl) as [H1 H2]. cbn [concat]. rewrite length_app. cbn [length] in *.
  destruct hs as [|g' hs]; [cbn; lia|]. assert (Z.of_nat (length g) = sco_size args) as Hg by (apply H2; cbn; lia).
  destruct IH as [I1 I2]; [|rewrite Nat2Z.inj_add; lia]. intros i x Hx. destruct (H (S i) x Hx) as [? Hx']. split; [done|]. intros. apply Hx'. lia.
Qed.

(** The SCOs that are in the backend now and were not before. *)
Lemma new_scos_spec : exists new, NoDup new /\ length new = length gs /\
  (forall s, s ∈ new <-> is_Some (scos_of (ns_scos ns1) !! s) /\ scos_of (ns_scos ns0) !! s = None).
Proof.
  set (ts := tgts L ss lastsco minu (ns_scos ns0)). pose proof (r_groups _ _ _ _ HR) as Hgs. pose proof (g_room _ _ _ _ _ _ _ Hgs) as Hroom.
  exists (take (length gs) ts). split_and!.
  - apply (sublist_NoDup _ ts); [|apply sublist_take].
    apply num_sorted_NoDup, tgts_sorted; [apply (scos_spec l (s_sane HS))|apply _|apply dead_names].
  - rewrite length_take. unfold ts. lia.
  - intros s. rewrite (r_scos _ _ _ _ HR). split.
    + intros [i Hi]%list_elem_of_lookup. apply lookup_take_Some in Hi as [Hi Hlt].
      destruct (gs !! i) as [g|] eqn:Hg; [|apply lookup_ge_None in Hg; lia]. split.
      * rewrite (scos1_new gs i g s Hg Hi). done.
      * by destruct (target_spec i s Hi) as (_ & _ & _ & _ & _ & ?).
    + intros [[d Hd] Hn]. apply written_lookup in Hd as [(i & Hlt & Hi)|?]; [|congruence].
      apply list_elem_of_lookup. exists i. by apply lookup_take_Some.
Qed.
End Result.
End Scrub.
End ScrubberTheorems.
