(* ===== verification/ScrubbingClaims.v ===== *)
(** * The scrubber: theorems

    The statements on the scrubber as a whole and on its steps, with the backend as
    maps for their concrete instances. *)

From stdpp Require Import sorting.
From Stdlib Require Import SpecFloat.
From S2P Require Import Prelude CheckSum Addressing TLogEntry TLogs Snapshots SnapshotPersistor PageGenerator MetaDataStore MetaDataBackends MetaDataFacts MetaDataTheorems MetaDataClaims Replay Scrubbing SCOPool Scrubber ScrubbingFacts ScrubbingTheorems SCOPoolFacts CutterFacts ScrubberTheorems.

(** ** A backend in memory *)
Module MemBackend.
Import CheckSum Entry TLog ObjectStore SCOStore.

#[export] Instance mem_tlogs : ObjectStore (gmap TLogId (list Entry)) := {
  objectExists n o := bool_decide (is_Some (o !! n));
  os_read n o := match o !! n with Some f => Ok f | None => Throw BackendException end;
  os_write n f o := (<[n := f]> o, Ok tt);
  os_remove n o := if bool_decide (is_Some (o !! n)) then (delete n o, Ok tt) else (o, Throw BackendException) }.

#[export, refine] Instance mem_tlogs_spec : ObjectStoreSpec (gmap TLogId (list Entry)) := { objects o := o }.
Proof.
  - done.
  - cbn. intros n o f. destruct (o !! n) as [g|]; [|done]. by split; intros [= ->].
  - intros n f o. by eexists.
  - cbn. intros n o Hn. rewrite bool_decide_eq_true_2 by done. by eexists.
Defined.

#[export] Instance checksum_eq_dec : EqDecision CheckSum.
Proof. solve_decision. Defined.

#[export] Instance mem_scos : SCOStore (gmap SCO.SCO (list Z)) := {
  sco_exists n o := bool_decide (is_Some (o !! n));
  sco_read n o := match o !! n with Some f => Ok f | None => Throw BackendException end;
  sco_write n d cs o := if bool_decide (cs = update Crc32cHw CheckSum_default d) then (<[n := d]> o, Ok tt) else (o, Throw BackendException);
  sco_remove n o := if bool_decide (is_Some (o !! n)) then (delete n o, Ok tt) else (o, Throw BackendException) }.

#[export, refine] Instance mem_scos_spec : SCOStoreSpec (gmap SCO.SCO (list Z)) := { scos_of o := o }.
Proof.
  - done.
  - cbn. by intros n o d ->.
  - intros n d cs o ->. cbn. rewrite bool_decide_eq_true_2 by done. by eexists.
  - cbn. intros n o Hn. rewrite bool_decide_eq_true_2 by done. by eexists.
Defined.
End MemBackend.

Module ScrubbingClaims.
Import ClusterLocation CLH Entry EntryFile TLog ObjectStore SCOStore PageGeneratorFacts EntryFileFacts LogFacts MergerFacts
  ScrubbingSCOData Scrubber CutterFacts Relocations Replay ScrubberTheorems MemBackend.

(** *** A small snapshot: three SCOs of two clusters of two bytes *)
Definition loc (num off : Z) : ClusterLocationAndHash := mkCLH (ClusterLocation.make num off 0 0) 7.
Definition ex_log : list Entry :=
  [mkEntry 0 (loc 1 0); mkEntry 1 (loc 1 1); mkEntry 0 (loc 2 0); mkEntry 2 (loc 2 1); mkEntry 3 (loc 3 0)].
Definition ex_args : ScrubberArgs := mkArgs "snap" 1 2 1 (Float.of_Z 1).
Definition ex_snapshot : Snapshot.Snapshot := Snapshot.mkSnapshot [TLog.mkTLog 1 true 0] 0 "snap" 5 [] false "" false 0.
Definition ex_id (i : nat) : TLogId := 100 + Z.of_nat i.
Definition ex_reloc_id (i : nat) : TLogId := - Z.of_nat i - 1.
Definition ex_scos : gmap SCO.SCO (list Z) :=
  {[SCO.make 1 0 0 := [10; 11; 12; 13]; SCO.make 2 0 0 := [20; 21; 22; 23]; SCO.make 3 0 0 := [30; 31]]}.
Definition ex_ns : Namespace (gmap TLogId (list Entry)) (gmap SCO.SCO (list Z)) := mkNS {[1 := ex_log]} ex_scos.
Definition ex_sp : SnapshotPersistor.SnapshotPersistor := SnapshotPersistor.mkSP [TLog.make 2] [ex_snapshot] None 0.

Definition ex_scrub : M (Namespace (gmap TLogId (list Entry)) (gmap SCO.SCO (list Z))) ScrubberResult :=
  scrub 10 ex_id ex_reloc_id ex_args 2 [] ex_sp.

Example ex_minimum : Scrubber ex_args = Ok 2.
Proof. vm_compute. reflexivity. Qed.

(** The one cluster in use of the first SCO goes to a new version of it. *)
Example ex_result : exists ns1, ex_scrub ex_ns = (ns1, Ok (mkResult [1] [TLog.mkTLog 100 true 8] [-1] 1 [SCO.make 1 0 0] [(SCO.make 1 0 1, S754_zero false)] [])) /\
  ns_scos ns1 !! SCO.make 1 0 1 = Some [12; 13].
Proof. eexists. split; vm_compute; reflexivity. Qed.

Lemma count_length s l : count s l <= Z.of_nat (length l).
Proof. unfold count. pose proof (sublist_length _ _ (lfilter_sublist (in_sco s) l)). lia. Qed.

#[local] Instance loc_entry_dec e : Decision (loc_entry e).
Proof. unfold loc_entry. apply _. Defined.

Lemma ex_sane : sane_log ex_log.
Proof. split; [by_decide| |by_decide]. repeat (constructor; [|by_decide]). constructor. Qed.

Lemma ex_scos_cases (Q : SCO.SCO -> Prop) : Q (SCO.make 1 0 0) -> Q (SCO.make 2 0 0) -> Q (SCO.make 3 0 0) -> forall s, s ∈ scos ex_log -> Q s.
Proof. intros H1 H2 H3. apply Forall_forall. change (scos ex_log) with [SCO.make 1 0 0; SCO.make 2 0 0; SCO.make 3 0 0]. by repeat constructor. Qed.

Lemma ex_scrubbable : scrubbable 10 ex_id ex_reloc_id ex_args 2 ex_sp ex_ns 0 ex_log.
Proof.
  split.
  - lia.
  - cbn. lia.
  - cbn. lia.
  - cbn. lia.
  - cbn. lia.
  - vm_compute. reflexivity.
  - by vm_compute.
  - vm_compute. reflexivity.
  - apply ex_sane.
  - by vm_compute.
  - intros s. eapply Z.le_lt_trans; [apply count_length|]. by vm_compute.
  - apply Forall_forall. change (locations ex_log) with ex_log.
    unfold ex_log. repeat apply Forall_cons_2; [..|apply Forall_nil_2]; eexists; (split; [vm_compute; reflexivity|]);
      (split; [by_decide|]); (split; [by vm_compute|]); split; by vm_compute.
  - apply ex_scos_cases; eexists; vm_compute; reflexivity.
  - unfold ex_id. intros. lia.
  - unfold ex_reloc_id. intros. lia.
  - intros i. apply lookup_singleton_ne. unfold ex_id. lia.
  - intros i. apply lookup_singleton_ne. unfold ex_reloc_id. lia.
  - unfold ex_id, ex_reloc_id. intros. lia.
Qed.

(** *** The steps *)

(** C30: for logs written in order, what the splitter, the part scrubbers and the
    merger hand on, whatever the size of the regions, is exactly the log without the
    entries that a later one for the same cluster overwrites, in the order of the
    log, the place of the last entry, and every SCO with how many of its entries are
    left and how many there were; replaying it has the effect of the whole log. *)
Theorem metadata_scrub_exact (ex : Z) (log : list Entry) :
  0 <= ex < 64 -> sane_log (locations log) -> (forall s, count s (locations log) < 2 ^ 16) ->
  MetaDataScrub.metadata_scrub ex log =
    Ok (live (locations log), last_location (locations log),
        data_of (scos (locations log)) (fun s => count s (live (locations log))) (fun s => count s (locations log))) /\
  (forall cid f ca, replay cid (live (locations log)) f ca = replay cid (locations log) f ca).
Proof.
  intros Hex Hl Hc. split; [|intros; apply MetaDataScrubFacts.replay_live].
  rewrite MetaDataScrubFacts.metadata_scrub_locations by apply (sl_loc _ Hl). by apply MetaDataScrubFacts.metadata_scrub_live.
Qed.

Lemma metadata_scrub_exact_witness :
  MetaDataScrub.metadata_scrub 1 ex_log =
    Ok ([mkEntry 1 (loc 1 1); mkEntry 0 (loc 2 0); mkEntry 2 (loc 2 1); mkEntry 3 (loc 3 0)], clusterLocation (loc 3 0),
        [mkSCOData (SCO.make 1 0 0) 1 2 Unknown; mkSCOData (SCO.make 2 0 0) 2 2 Unknown; mkSCOData (SCO.make 3 0 0) 1 1 Unknown]).
Proof.
  refine (eq_trans (proj1 (metadata_scrub_exact 1 ex_log _ ex_sane _)) _); [lia| |vm_compute; reflexivity].
  intros s. eapply Z.le_lt_trans; [apply count_length|]. by vm_compute.
Defined.

(** merging TLogs always ends, with every entry of every input once and the
    entries of an input in their order; inputs sorted by place give a sorted TLog. *)
Theorem merge_exact (inputs : list (list Entry)) : Forall loc_entry (concat inputs) ->
  exists out, TLogMerger.merge inputs = Ok (out, last_location out) /\ out ≡ₚ concat inputs /\
    Forall (fun l => l `sublist_of` out) inputs /\
    (Forall (StronglySorted loc_le) inputs -> StronglySorted loc_le out).
Proof. apply merge_spec. Qed.

Lemma merge_exact_witness : exists out,
  TLogMerger.merge [[mkEntry 0 (loc 1 0); mkEntry 9 (loc 4 0)]; [mkEntry 5 (loc 2 3)]] = Ok (out, last_location out) /\
  out ≡ₚ [mkEntry 0 (loc 1 0); mkEntry 9 (loc 4 0); mkEntry 5 (loc 2 3)].
Proof.
  destruct (merge_exact [[mkEntry 0 (loc 1 0); mkEntry 9 (loc 4 0)]; [mkEntry 5 (loc 2 3)]]) as (out & E & Hp & _); [by_decide|].
  exists out. split; [exact E|exact Hp].
Defined.

Section Cutters.
Context {O : Type} `{OSI : ObjectStore O} {SP : ObjectStoreSpec O}.

(** TLogCutter writes the log in pieces that are, one after the other, the log;
    each is in the backend under the id of its TLog, which says so and has the size
    of its clusters; nothing else in the backend changes; and a piece ends only when
    it is full and the next cluster is in another SCO. *)
Theorem tlog_cutter_exact (o : O) (new_id : nat -> TLogId) (max cluster_size : Z) (file : list Entry) :
  (forall i j, new_id i = new_id j -> i = j) -> (forall i, objects o !! new_id i = None) -> 0 < max < 2 ^ 64 ->
  Forall loc_entry file -> Z.of_nat (length file) < 2 ^ 64 ->
  runs (TLogCutter.cut max cluster_size new_id file) (TLogCutter.mkCutter o None []) (fun tlogs c => exists gs, concat gs = file /\ gs <> [] /\
    tlogs = imap (fun i g => TLog.mkTLog (new_id i) true (u64 (Z.of_nat (length g) * cluster_size))) gs /\
    (forall i g, gs !! i = Some g -> objects (TLogCutter.bi_ c) !! new_id i = Some g) /\
    (forall k : TLogId, (forall i, new_id i <> k) -> objects (TLogCutter.bi_ c) !! k = objects o !! k) /\
    (forall i g g', gs !! i = Some g -> gs !! S i = Some g' -> max <= Z.of_nat (length g) /\
      exists e e', last g = Some e /\ head g' = Some e' /\ number (clusterLocation_ e) <> number (clusterLocation_ e'))).
Proof.
  intros Hinj Hfresh Hmax Hloc Hlen. eapply runs_mono; [by apply (cut_runs o new_id Hinj Hfresh max cluster_size)|].
  intros tlogs c [Ht Ho]. exists (chunks (full max) file). split_and!; [apply chunks_concat|by unfold chunks; destruct (fst (chunk (full max) [] file))|done| | |].
  - intros i g Hi. rewrite Ho. by apply stored_lookup.
  - intros k Hk. rewrite Ho. by apply stored_other.
  - intros i g g' Hi Hi'. destruct (chunk_cut _ _ _ _ _ _ Hi Hi') as (e' & He' & Hf). unfold full in Hf.
    apply andb_true_iff in Hf as [Hm%Z.leb_le Hn]. split; [done|]. destruct (last g) as [e|] eqn:E.
    + exists e, e'. split_and!; [done|done|]. by apply Z.eqb_neq, negb_true_iff.
    + apply last_None in E. subst g. cbn in Hm. lia.
Qed.

(** the relocations are cut between relocations: every object that
    TheSonOfTLogCutter writes has both entries of each of its relocations, and the
    objects are, one after the other, the relocations. *)
Theorem reloc_cutter_exact (o : O) (new_id : nat -> TLogId) (max : Z) (ps : list (Entry * Entry)) :
  (forall i j, new_id i = new_id j -> i = j) -> (forall i, objects o !! new_id i = None) -> 0 < max ->
  Forall reloc_ok ps -> 2 * Z.of_nat (length ps) < 2 ^ 64 ->
  runs (TheSonOfTLogCutter.cut max new_id (unpair ps)) (TheSonOfTLogCutter.mkCutter o None []) (fun _ c => exists pss, concat pss = ps /\ pss <> [] /\
    TheSonOfTLogCutter.tlog_names_ c = new_id <$> seq 0 (length pss) /\
    (forall i qs, pss !! i = Some qs -> objects (TheSonOfTLogCutter.bi_ c) !! new_id i = Some (unpair qs)) /\
    (forall k : TLogId, (forall i, new_id i <> k) -> objects (TheSonOfTLogCutter.bi_ c) !! k = objects o !! k)).
Proof.
  intros Hinj Hfresh Hmax Hok Hlen.
  destruct (unpair_chunks max ps) as (pss & Hcat & Hne & Hch); [done|].
  eapply runs_mono; [apply (son_cut_runs o new_id Hinj Hfresh max)|].
  - by apply unpair_loc.
  - rewrite length_unpair. lia.
  - intros ? c [Hn Ho]. rewrite Hch in Hn, Ho. rewrite length_fmap in Hn. exists pss. split_and!; [done|done|done| |].
    + intros i qs Hi. rewrite Ho. apply stored_lookup; [done|]. by rewrite list_lookup_fmap, Hi.
    + intros k Hk. rewrite Ho. by apply stored_other.
Qed.
End Cutters.

Lemma tlog_cutter_exact_witness :
  runs (TLogCutter.cut 1 2 ex_id ex_log) (TLogCutter.mkCutter (∅ : gmap TLogId (list Entry)) None []) (fun tlogs c => exists gs, concat gs = ex_log /\ gs <> [] /\
    tlogs = imap (fun i g => TLog.mkTLog (ex_id i) true (u64 (Z.of_nat (length g) * 2))) gs /\
    (forall i g, gs !! i = Some g -> TLogCutter.bi_ c !! ex_id i = Some g)).
Proof.
  eapply runs_mono; [apply (tlog_cutter_exact (∅ : gmap TLogId (list Entry)) ex_id 1 2 ex_log)|].
  - unfold ex_id. intros. lia.
  - intros i. reflexivity.
  - lia.
  - by_decide.
  - by vm_compute.
  - intros tlogs c (gs & H1 & H2 & H3 & H4 & _). exists gs. split_and!; [exact H1|exact H2|exact H3|exact H4].
Defined.

Lemma reloc_cutter_exact_witness :
  runs (TheSonOfTLogCutter.cut 1 ex_id (unpair [(mkEntry 1 (loc 1 1), mkEntry 1 (loc 2 0)); (mkEntry 2 (loc 1 2), mkEntry 2 (loc 2 1))]))
    (TheSonOfTLogCutter.mkCutter (∅ : gmap TLogId (list Entry)) None []) (fun _ c => exists pss,
    concat pss = [(mkEntry 1 (loc 1 1), mkEntry 1 (loc 2 0)); (mkEntry 2 (loc 1 2), mkEntry 2 (loc 2 1))] /\
    TheSonOfTLogCutter.tlog_names_ c = ex_id <$> seq 0 (length pss)).
Proof.
  eapply runs_mono; [apply (reloc_cutter_exact (∅ : gmap TLogId (list Entry)) ex_id 1 [(mkEntry 1 (loc 1 1), mkEntry 1 (loc 2 0)); (mkEntry 2 (loc 1 2), mkEntry 2 (loc 2 1))])|].
  - unfold ex_id. intros. lia.
  - intros i. reflexivity.
  - lia.
  - repeat constructor; by vm_compute.
  - by vm_compute.
  - intros ? c (pss & H1 & _ & H2 & _). exists pss. split; [exact H1|exact H2].
Defined.

(** *** The scrubber *)
Section Scrub.
Context {TS OS : Type} `{OI : ObjectStore TS} {OSP : ObjectStoreSpec TS} `{SI : SCOStore OS} {SSP : SCOStoreSpec OS}.
Variable max : Z.
Variable new_id new_reloc_id : nat -> TLogId.
Variable args : ScrubberArgs.
Variable minu : Z.
Variable access : list (SCO.SCO * spec_float).
Variable sp : SnapshotPersistor.SnapshotPersistor.
Variable ns0 : Namespace TS OS.
Variable num : Snapshot.SnapshotNum.
Variable log : list Entry.

(** C4: the scrubber completes, and what the snapshot holds is what it held: reading
    any cluster through the TLogs it returns gives the data it had, with the SCOs it
    reports as deleted already gone; and no cluster is in those TLogs twice. *)
Theorem scrub_preserves_data : scrubbable max new_id new_reloc_id args minu sp ns0 num log ->
  runs (scrub max new_id new_reloc_id args minu access sp) ns0 (fun r ns1 => exists out,
    read_tlogs (TLog.uuid <$> tlogs_out r) (ns_tlogs ns1) = Ok out /\ NoDup (addresses out) /\
    forall ca, contents (csz args) out (without (scos_of (ns_scos ns1)) (sconames_to_be_deleted r)) ca =
               contents (csz args) (locations log) (scos_of (ns_scos ns0)) ca).
Proof.
  intros HS. eapply runs_mono; [by apply scrub_runs with (num := num) (log := log)|].
  intros r ns1 (gs & out & HR). exists out. split_and!; [apply (r_log _ _ _ _ _ _ _ _ _ _ _ _ _ HR)|by eapply out_NoDup|].
  intros ca. rewrite (r_scos _ _ _ _ _ _ _ _ _ _ _ _ _ HR), (r_deleted _ _ _ _ _ _ _ _ _ _ _ _ _ HR).
  eapply contents_preserved; [done|apply HR|apply HR].
Qed.

(** C28: the relocations a scrub returns, as many as it says, each for a cluster of
    its own, bring a map by the old TLogs to the map by the new ones, whatever was
    there before and whichever clone of the volume the map is of. *)
Theorem scrub_relocations_exact : scrubbable max new_id new_reloc_id args minu sp ns0 num log ->
  runs (scrub max new_id new_reloc_id args minu access sp) ns0 (fun r ns1 => exists out ps,
    read_tlogs (TLog.uuid <$> tlogs_out r) (ns_tlogs ns1) = Ok out /\ read_tlogs (relocs r) (ns_tlogs ns1) = Ok (unpair ps) /\
    relocNum r = Z.of_nat (length ps) /\ Forall reloc_ok ps /\ NoDup ((fun p => clusteraddress_ (fst p)) <$> ps) /\
    forall cid f ca, fold_left (relocate cid) ps (replay cid (locations log) f) ca = replay cid out f ca).
Proof.
  intros HS. eapply runs_mono; [by apply scrub_runs with (num := num) (log := log)|].
  intros r ns1 (gs & out & HR). destruct (scrub_reloc_pairs _ _ _ _ _ _ _ _ _ HS _ _ _ _ HR) as (ps & Hp & Hl & Eps & Hok & Hnd).
  exists out, ps. split_and!; [apply (r_log _ _ _ _ _ _ _ _ _ _ _ _ _ HR)| | |done|done|].
  - by rewrite (r_relocs _ _ _ _ _ _ _ _ _ _ _ _ _ HR), Hp.
  - by rewrite (r_num _ _ _ _ _ _ _ _ _ _ _ _ _ HR), Hl.
  - intros cid f ca. rewrite Eps. by eapply relocations_follow.
Qed.


(** The scrubber writes new SCOs, as many as the moved clusters fill, but its
    result never names them: when a result is not applied, what
    [Volume::cleanupScrubbingOnError_] removes has none of them. *)
Theorem scrub_forgets_new_scos (referenced : TLogId -> bool) : scrubbable max new_id new_reloc_id args minu sp ns0 num log ->
  runs (scrub max new_id new_reloc_id args minu access sp) ns0 (fun r ns1 => exists new,
    NoDup new /\ relocNum r <= Z.of_nat (length new) * sco_size args < relocNum r + sco_size args /\
    (forall s, s ∈ new <-> is_Some (scos_of (ns_scos ns1) !! s) /\ scos_of (ns_scos ns0) !! s = None) /\
    (forall s, s ∈ new -> GarbageSCO s ∉ cleanup_garbage referenced r)).
Proof.
  intros HS. eapply runs_mono; [by apply scrub_runs with (num := num) (log := log)|].
  intros r ns1 (gs & out & HR). destruct (new_scos_spec _ _ _ _ _ _ _ _ _ HS _ _ _ _ HR) as (new & Hnd & Hlen & Hnew).
  exists new. split; [done|]. split; [rewrite Hlen; by eapply groups_number|]. split; [done|].
  intros s _. unfold cleanup_garbage. rewrite (r_new _ _ _ _ _ _ _ _ _ _ _ _ _ HR). cbn [fmap list_fmap app].
  destruct (existsb _ _); [apply not_elem_of_nil|]. rewrite !elem_of_app, !list_elem_of_fmap, list_elem_of_singleton.
  intros [(? & [=] & _)|[(? & [=] & _)|[=]]].
Qed.
End Scrub.

Lemma scrub_preserves_data_witness : runs ex_scrub ex_ns (fun r ns1 => exists out,
  read_tlogs (TLog.uuid <$> tlogs_out r) (ns_tlogs ns1) = Ok out /\
  contents 2 out (without (ns_scos ns1) (sconames_to_be_deleted r)) 1 = Some [12; 13] /\
  contents 2 out (without (ns_scos ns1) (sconames_to_be_deleted r)) 0 = Some [20; 21]).
Proof.
  eapply runs_mono; [apply (scrub_preserves_data 10 ex_id ex_reloc_id ex_args 2 [] ex_sp ex_ns 0 ex_log ex_scrubbable)|].
  intros r ns1 (out & H1 & _ & H2). exists out. split; [exact H1|]. split.
  - refine (eq_trans (H2 1) _). vm_compute. reflexivity.
  - refine (eq_trans (H2 0) _). vm_compute. reflexivity.
Defined.

Lemma scrub_relocations_exact_witness : runs ex_scrub ex_ns (fun r ns1 => exists out ps,
  read_tlogs (TLog.uuid <$> tlogs_out r) (ns_tlogs ns1) = Ok out /\ read_tlogs (relocs r) (ns_tlogs ns1) = Ok (unpair ps) /\
  relocNum r = Z.of_nat (length ps) /\
  fold_left (relocate 0) ps (replay 0 ex_log (fun _ => loc 0 0)) 1 = replay 0 out (fun _ => loc 0 0) 1).
Proof.
  eapply runs_mono; [apply (scrub_relocations_exact 10 ex_id ex_reloc_id ex_args 2 [] ex_sp ex_ns 0 ex_log ex_scrubbable)|].
  intros r ns1 (out & ps & H1 & H2 & H3 & _ & _ & H4). exists out, ps. split; [exact H1|]. split; [exact H2|]. split; [exact H3|]. apply H4.
Defined.


Lemma scrub_forgets_new_scos_witness : runs ex_scrub ex_ns (fun r ns1 => exists new,
  relocNum r <= Z.of_nat (length new) * 2 < relocNum r + 2 /\
  (forall s, s ∈ new <-> is_Some (ns_scos ns1 !! s) /\ ex_scos !! s = None) /\
  (forall s, s ∈ new -> GarbageSCO s ∉ cleanup_garbage (fun _ => false) r)).
Proof.
  eapply runs_mono; [apply (scrub_forgets_new_scos 10 ex_id ex_reloc_id ex_args 2 [] ex_sp ex_ns 0 ex_log (fun _ => false) ex_scrubbable)|].
  intros r ns1 (new & _ & H1 & H2 & H3). exists new. split; [exact H1|]. split; [exact H2|exact H3].
Defined.
End ScrubbingClaims.
