(* ===== verification/ScrubApply.v ===== *)
(** * The scrubber: a result that is applied at once

    [Scrubber::operator()] as a whole, on a backend with the snapshots file: what is
    left when the result is applied immediately, and when it is stored. *)

From stdpp Require Import sorting.
From Stdlib Require Import SpecFloat.
From S2P Require Import Prelude CheckSum Addressing TLogEntry TLogs Snapshots SnapshotPersistor SnapshotFacts SnapshotTheorems SnapshotQueries MetaDataStore Scrubbing SCOPool Scrubber ScrubbingFacts ScrubbingTheorems SCOPoolFacts CutterFacts ScrubberTheorems ScrubbingClaims.

Module PersistorApply.
Import TLog TLogs Snapshot SnapshotPersistor TLogsFacts PersistorFacts.

Lemma same_ids_refl l : same_ids l (ids l) = true.
Proof. unfold ids. induction l as [|t l IH]; [done|]. cbn. by rewrite Z.eqb_refl, IH. Qed.

(** Replacing the TLogs of a snapshot and marking it as scrubbed. *)
Lemma replace_runs p a s b out cork : snapshots p = a ++ s :: b -> Forall (fun x => Snapshots.by_num (num s) x = false) a ->
  forallb written_to_backend out = true -> out <> [] ->
  exists p1, replace p (ids (tlogs s)) out (num s) cork = Ok (cork, p1) /\
    setSnapshotScrubbed p1 (num s) true = Ok (mkSP (current p) (a ++ set_scrubbed true (set_tlogs out s) :: b) (parent_ p) cork).
Proof.
  intros Hss Ha Hw Hne.
  assert (Snapshots.by_num (num s) s = true) as Hs by apply Z.eqb_refl.
  assert (exists q, replace p (ids (tlogs s)) out (num s) cork = Ok q) as [[u p1] E].
  { unfold replace, Snapshots.replace, Snapshots.find_or_throw_. rewrite Hw, Hss, find_app by done. cbn [rbind]. rewrite lookup_mid.
    destruct (Snapshots.already_replaced out (tlogs s)); [by eexists|]. unfold TLogs.replace.
    rewrite (proj2 (Nat.eqb_eq (length (ids (tlogs s))) (length (tlogs s)))) by apply length_fmap. rewrite same_ids_refl.
    rewrite (proj2 (Nat.eqb_neq (length out) 0)) by (by destruct out). by eexists. }
  pose proof E as E'. apply replace_split in E as (a' & s' & b' & Hss' & Hn & Ha' & _ & _ & _ & -> & ->).
  assert (a' = a /\ s' = s /\ b' = b) as (-> & -> & ->).
  { pose proof (find_app (Snapshots.by_num (num s)) a s b Ha Hs) as F1.
    pose proof (find_app (Snapshots.by_num (num s)) a' s' b' Ha' ltac:(unfold Snapshots.by_num; by rewrite Hn, Z.eqb_refl)) as F2.
    rewrite Hss in Hss'. rewrite <- Hss', F1 in F2. injection F2 as Hlen. by apply app_inj_1 in Hss' as [-> [= -> ->]]. }
  eexists. split; [exact E'|]. unfold setSnapshotScrubbed, Snapshots.setSnapshotScrubbed, Snapshots.find_or_throw_. spcbn.
  rewrite (find_app _ a (set_tlogs out s) b) by done. cbn [rbind]. unfold with_snapshots. spcbn. do 2 f_equal.
  by rewrite alter_app_r_alt, Nat.sub_diag by done.
Qed.
End PersistorApply.

Module ScrubApply.
Import TLog ObjectStore SCOStore Entry EntryFile Scrubber CutterFacts ScrubberTheorems LogFacts PersistorFacts TLogsFacts PersistorApply SnapshotPersistor.

Lemma without_delete m dl s : without (delete s m) dl = delete s (without m dl).
Proof. unfold without. induction dl as [|d dl IH]; [done|]. cbn. rewrite IH. apply delete_delete. Qed.

Section Stores.
Context {TS OS F R : Type} `{OI : ObjectStore TS} {OSP : ObjectStoreSpec TS} `{SI : SCOStore OS} {SSP : SCOStoreSpec OS}.
Context `{SF : SnapshotsFile F} {SFP : SnapshotsFileSpec F} `{RI : ResultStore R} {RSP : ResultStoreSpec R}.
Implicit Types b : Backend TS OS F R.

Lemma runs_on_ns {A} (m : M (Namespace TS OS) A) b (Q : A -> Backend TS OS F R -> Prop) :
  runs m (b_ns b) (fun a n => Q a (mkBackend n (b_snapshots b) (b_results b))) -> runs (on_ns m) b Q.
Proof. intros (a & n & E & HQ). exists a, (mkBackend n (b_snapshots b) (b_results b)). unfold on_ns. by rewrite E. Qed.

(** Removing SCOs, or TLogs, that are all there. *)
Lemma remove_scos_runs dl b (Q : unit -> Backend TS OS F R -> Prop) : NoDup dl -> (forall s, s ∈ dl -> is_Some (scos_of (ns_scos (b_ns b)) !! s)) ->
  (forall b', b_snapshots b' = b_snapshots b -> b_results b' = b_results b -> ns_tlogs (b_ns b') = ns_tlogs (b_ns b) ->
    scos_of (ns_scos (b_ns b')) = without (scos_of (ns_scos (b_ns b))) dl -> Q tt b') ->
  runs (miter (fun s => on_ns (on_scos (sco_remove s))) dl) b Q.
Proof.
  revert b. induction dl as [|s dl IH]; intros b Hnd Hin HQ; [by apply runs_ret, HQ|].
  apply NoDup_cons in Hnd as [Hs Hnd]. cbn [miter]. apply runs_bind, runs_on_ns.
  destruct (sco_remove_spec s (ns_scos (b_ns b)) (Hin s ltac:(left))) as (o' & E & Ho').
  exists tt, (mkNS (ns_tlogs (b_ns b)) o'). unfold on_scos. rewrite E. split; [done|]. apply IH; [done| |].
  - intros t Ht. cbn. rewrite Ho', lookup_delete_ne by (intros ->; done). apply Hin. by right.
  - intros b' H1 H2 H3 H4. apply HQ; [done..|]. rewrite H4. cbn. by rewrite Ho', without_delete.
Qed.

Lemma remove_tlogs_runs dl b (Q : unit -> Backend TS OS F R -> Prop) : NoDup dl -> (forall i, i ∈ dl -> is_Some (objects (ns_tlogs (b_ns b)) !! i)) ->
  (forall b', b_snapshots b' = b_snapshots b -> b_results b' = b_results b -> ns_scos (b_ns b') = ns_scos (b_ns b) ->
    (forall i, i ∈ dl -> objects (ns_tlogs (b_ns b')) !! i = None) ->
    (forall i, i ∉ dl -> objects (ns_tlogs (b_ns b')) !! i = objects (ns_tlogs (b_ns b)) !! i) -> Q tt b') ->
  runs (miter (fun i => on_ns (on_tlogs (os_remove i))) dl) b Q.
Proof.
  revert b. induction dl as [|s dl IH]; intros b Hnd Hin HQ; [apply runs_ret, HQ; [done..| |done]; by intros i Hi%elem_of_nil|].
  apply NoDup_cons in Hnd as [Hs Hnd]. cbn [miter]. apply runs_bind, runs_on_ns.
  destruct (os_remove_spec s (ns_tlogs (b_ns b)) (Hin s ltac:(left))) as (o' & E & Ho').
  exists tt, (mkNS o' (ns_scos (b_ns b))). unfold on_tlogs. rewrite E. split; [done|]. apply IH; [done| |].
  - intros t Ht. cbn. rewrite Ho', lookup_delete_ne by (intros ->; done). apply Hin. by right.
  - intros b' H1 H2 H3 H4 H5. cbn in *. rewrite Ho' in H5. apply HQ; [done..| |].
    + intros i [->|Hi]%elem_of_cons; [|by apply H4]. by rewrite H5, lookup_delete_eq by done.
    + intros i [Hne Hi]%not_elem_of_cons. by rewrite H5, lookup_delete_ne by done.
Qed.

Lemma read_tlogs_spec l o log : read_tlogs l o = Ok log -> forall i, i ∈ l -> is_Some (objects o !! i).
Proof.
  revert log. induction l as [|j l IH]; intros log; cbn; [by intros _ i Hi%elem_of_nil|].
  destruct (os_read j o) as [f|] eqn:E; cbn [rbind]; [|done]. destruct (read_tlogs l o) as [r|] eqn:Er; [|done].
  intros _ i [->|Hi]%elem_of_cons; [apply os_read_spec in E; by eexists|by eapply IH].
Qed.

Lemma read_tlogs_same l (o o' : TS) : (forall i, i ∈ l -> objects o' !! i = objects o !! i) -> forall log, read_tlogs l o = Ok log -> read_tlogs l o' = Ok log.
Proof.
  induction l as [|j l IH]; intros Ho log; [done|]. cbn. destruct (os_read j o) as [f|] eqn:E; cbn [rbind]; [|done].
  apply os_read_spec in E. rewrite <- (Ho j ltac:(left)) in E. apply os_read_spec in E. rewrite E. cbn [rbind].
  destruct (read_tlogs l o) as [r|] eqn:Er; [|done]. by rewrite (IH ltac:(intros; apply Ho; by right) r).
Qed.

Variable max : Z.
Variable new_id new_reloc_id : nat -> TLogId.
Variable args : ScrubberArgs.
Variable minu : Z.
Variable access : list (SCO.SCO * spec_float).
Variable sp : SnapshotPersistor.
Variable b0 : Backend TS OS F R.
Variable num : Snapshot.SnapshotNum.
Variable log : list Entry.
Variable result_id cork : UUID.

(** What the run relies on besides [scrubbable]: the snapshots file is sound, the
    snapshot is in the backend, and drawn ids are new. *)
Record applicable : Prop := mkApplicable {
  a_scrubbable : scrubbable max new_id new_reloc_id args minu sp (b_ns b0) num log;
  a_snapshots : snapshots_in (b_snapshots b0) = Some sp;
  a_inv : inv sp;
  a_backend : isSnapshotInBackend sp num = Ok true;
  a_new : forall i, new_id i ∉ TLogs.ids (flat sp);
  a_reloc : forall i, new_reloc_id i ∉ TLogs.ids (flat sp);
  a_result : results (b_results b0) !! result_id = None }.

Hypothesis HA : applicable.

Lemma load_runs : runs load_snapshots b0 (fun p b => p = sp /\ b = b0).
Proof.
  unfold load_snapshots. apply runs_bind, runs_get. eapply runs_lift; [|done].
  rewrite (proj2 (snapshots_read_spec _ _) (a_snapshots HA)). cbn [rbind]. rewrite PersistorSteps.verify_flat, (inv_sane _ (a_inv HA)). done.
Qed.

(** The snapshot, in its place. *)
Lemma snapshot_place : exists a s a', snapshots sp = a ++ s :: a' /\ Snapshot.num s = num /\
  Forall (fun x => Snapshots.by_num num x = false) a /\ ids sp num = TLogs.ids (Snapshot.tlogs s).
Proof.
  pose proof (a_backend HA) as Hb. unfold isSnapshotInBackend, Snapshots.getSnapshot, Snapshots.find_or_throw_ in Hb.
  destruct (Snapshots.find_ (Snapshots.by_num num) (snapshots sp)) as [k|] eqn:E; [|done].
  apply find_split in E as (a & s & a' & Hss & _ & Hn%Z.eqb_eq & Ha). exists a, s, a'. split_and!; [done..|].
  unfold ids, getTLogsInSnapshot. rewrite <- Hn in Ha |- *. by rewrite Hss, QueryFacts.in_snapshot.
Qed.

Lemma ids_in_flat : forall i, i ∈ ids sp num -> i ∈ TLogs.ids (flat sp).
Proof.
  destruct snapshot_place as (a & s & a' & Hss & _ & _ & ->). intros i Hi. unfold flat. rewrite Hss, flats_app, flats_cons, !ids_app.
  rewrite !elem_of_app. tauto.
Qed.

Lemma ids_NoDup : NoDup (ids sp num).
Proof.
  pose proof (inv_ids _ (a_inv HA)) as Hnd. destruct snapshot_place as (a & s & a' & Hss & _ & _ & ->).
  unfold flat in Hnd. rewrite Hss, flats_app, flats_cons, !ids_app in Hnd.
  apply NoDup_app in Hnd as ((_ & _ & (Hnd & _)%NoDup_app)%NoDup_app & _). done.
Qed.

Lemma in_log_scos r ns1 gs out : scrubbed max new_id new_reloc_id args minu sp (b_ns b0) num log gs out r ns1 ->
  NoDup (sconames_to_be_deleted r) /\ (forall s, s ∈ sconames_to_be_deleted r -> s ∈ scos (locations log)) /\
  (forall s d, scos_of (ns_scos (b_ns b0)) !! s = Some d -> scos_of (ns_scos ns1) !! s = Some d).
Proof.
  intros HR. pose proof (a_scrubbable HA) as HS. rewrite (r_deleted _ _ _ _ _ _ _ _ _ _ _ _ _ HR). split_and!.
  - apply (sublist_NoDup _ (scos (locations log))); [|apply lfilter_sublist].
    apply num_sorted_NoDup, (scos_spec _ (s_sane _ _ _ _ _ _ _ _ _ HS)).
  - intros s [Hs _]%elem_of_lfilter. done.
  - intros s d Hs. rewrite (r_scos _ _ _ _ _ _ _ _ _ _ _ _ _ HR). by eapply scos1_keep.
Qed.

(** What is left when the result was applied: the snapshot [s] of the file has its new
    TLogs, which hold [out]. *)
Record applied (b1 : Backend TS OS F R) (sp1 : SnapshotPersistor) (s : Snapshot.Snapshot) (new : list TLog) (out : list Entry) : Prop := mkApplied {
  d_snapshots : snapshots_in (b_snapshots b1) = Some sp1;
  d_place : exists a a', snapshots sp = a ++ s :: a' /\ snapshots sp1 = a ++ Snapshot.set_scrubbed true (Snapshot.set_tlogs new s) :: a';
  d_num : Snapshot.num s = num;
  d_current : current sp1 = current sp;
  d_inv : inv sp1;
  d_log : read_tlogs (TLogs.ids new) (ns_tlogs (b_ns b1)) = Ok out;
  d_contents : forall ca, contents (csz args) out (scos_of (ns_scos (b_ns b1))) ca = contents (csz args) (locations log) (scos_of (ns_scos (b_ns b0))) ca;
  d_gone : forall i, i ∈ TLogs.ids (Snapshot.tlogs s) -> objects (ns_tlogs (b_ns b1)) !! i = None;
  d_tlogs : forall i, i ∈ TLogs.ids (flat sp) -> i ∉ TLogs.ids (Snapshot.tlogs s) ->
    objects (ns_tlogs (b_ns b1)) !! i = objects (ns_tlogs (b_ns b0)) !! i;
  d_scos : forall n d, scos_of (ns_scos (b_ns b0)) !! n = Some d -> n ∉ scos (locations log) -> scos_of (ns_scos (b_ns b1)) !! n = Some d }.

Lemma new_ids gs : NoDup (TLogs.ids (imap (tlog_of new_id (csz args) true) gs)) /\
  (forall i, i ∈ TLogs.ids (imap (tlog_of new_id (csz args) true) gs) -> exists j, i = new_id j) /\
  forallb written_to_backend (imap (tlog_of new_id (csz args) true) gs) = true.
Proof.
  assert (TLogs.ids (imap (tlog_of new_id (csz args) true) gs) = new_id <$> seq 0 (length gs)) as -> by (apply uuid_tlogs).
  split_and!.
  - apply NoDup_fmap_2_strong; [|apply NoDup_seq]. intros i j _ _. apply (s_inj _ _ _ _ _ _ _ _ _ (a_scrubbable HA)).
  - intros i (j & -> & _)%list_elem_of_fmap. by exists j.
  - apply forallb_forall. intros t Ht. apply list_elem_of_In, list_elem_of_lookup in Ht as [j Hj]. rewrite list_lookup_imap in Hj.
    destruct (gs !! j); [|done]. by injection Hj as <-.
Qed.

Lemma kept_tlogs r ns1 gs out : scrubbed max new_id new_reloc_id args minu sp (b_ns b0) num log gs out r ns1 ->
  forall i, i ∈ TLogs.ids (flat sp) -> objects (ns_tlogs ns1) !! i = objects (ns_tlogs (b_ns b0)) !! i.
Proof. intros HR i Hi. apply (r_keep _ _ _ _ _ _ _ _ _ _ _ _ _ HR); intros j <-; [by apply (a_new HA j)|by apply (a_reloc HA j)]. Qed.

Lemma apply_runs r ns1 gs out : scrubbed max new_id new_reloc_id args minu sp (b_ns b0) num log gs out r ns1 ->
  runs (apply_result cork num sp r) (mkBackend ns1 (b_snapshots b0) (b_results b0)) (fun name b1 => name = None /\ exists sp1 s new out, applied b1 sp1 s new out).
Proof.
  intros HR. pose proof (a_scrubbable HA) as HS. destruct (in_log_scos _ _ _ _ HR) as (Hd1 & Hd2 & Hd3).
  destruct snapshot_place as (a & s & a' & Hss & Hn & Ha & Hids).
  pose proof (r_tlogs _ _ _ _ _ _ _ _ _ _ _ _ _ HR) as Hout. destruct (new_ids (chunks (full max) out)) as (Hnd & Hnew & Hw).
  rewrite <- Hout in Hnd, Hnew, Hw.
  assert (tlogs_out r <> []) as Hne.
  { rewrite Hout. unfold chunks. destruct (fst (chunk (full max) [] out)); [done|]. done. }
  rewrite <- Hn in Ha. destruct (replace_runs sp a s a' (tlogs_out r) cork Hss Ha Hw Hne) as (p1 & E1 & E2).
  unfold apply_result. apply runs_bind. eapply runs_lift; [rewrite (r_ids _ _ _ _ _ _ _ _ _ _ _ _ _ HR), Hids, <- Hn; exact E1|].
  apply runs_bind. eapply runs_lift; [rewrite <- Hn; exact E2|].
  destruct (snapshots_write_spec (mkSP (current sp) (a ++ Snapshot.set_scrubbed true (Snapshot.set_tlogs (tlogs_out r) s) :: a') (parent_ sp) cork) (b_snapshots b0)) as (f & Ef & Hf).
  apply runs_bind. exists tt, (mkBackend ns1 f (b_results b0)). unfold on_snapshots. cbn [b_snapshots b_ns b_results]. rewrite Ef. split; [done|].
  apply runs_bind. apply remove_scos_runs; [done| |].
  { intros n Hin. destruct (proj1 (proj2 (scos_spec _ (s_sane _ _ _ _ _ _ _ _ _ HS)) n) (Hd2 n Hin)) as (e & He & <-).
    destruct (s_data _ _ _ _ _ _ _ _ _ HS e He) as (d & Hdd & _). cbn. rewrite (Hd3 _ _ Hdd). done. }
  intros b1 Hb1 _ Ht1 Hs1. cbn [b_snapshots b_ns] in *.
  pose proof (kept_tlogs _ _ _ _ HR) as Hkeep.
  apply runs_bind. rewrite (r_ids _ _ _ _ _ _ _ _ _ _ _ _ _ HR). apply remove_tlogs_runs; [apply ids_NoDup| |].
  { intros i Hi. rewrite Ht1, Hkeep by (by apply ids_in_flat). eapply read_tlogs_spec; [apply (s_read _ _ _ _ _ _ _ _ _ HS)|done]. }
  intros b2 Hb2 _ Hs2 Hgone Hstay. rewrite Ht1 in Hstay. apply runs_ret. split; [done|].
  eexists _, s, (tlogs_out r), out. split.
  - by rewrite Hb2, Hb1, Hf.
  - by exists a, a'.
  - done.
  - done.
  - eapply (PersistorSteps.inv_scrubbed p1); [|exact E2]. eapply (PersistorSteps.inv_replace sp); [apply (a_inv HA)| |exact E1].
    cbn. rewrite Hn. split; [apply (a_backend HA)|]. split; [rewrite <- Hids; apply (s_ids _ _ _ _ _ _ _ _ _ HS)|]. left. split; [done|].
    intros i (j & ->)%Hnew. apply (a_new HA).
  - eapply read_tlogs_same; [|apply (r_log _ _ _ _ _ _ _ _ _ _ _ _ _ HR)]. intros i Hi. apply Hstay.
    destruct (Hnew i Hi) as [j ->]. intros Hin%ids_in_flat. by apply (a_new HA j).
  - intros ca. rewrite Hs2, Hs1, (r_scos _ _ _ _ _ _ _ _ _ _ _ _ _ HR), (r_deleted _ _ _ _ _ _ _ _ _ _ _ _ _ HR).
    eapply contents_preserved; [done|apply HR|apply HR].
  - intros i Hi. apply Hgone. by rewrite Hids.
  - intros i Hi Hni. rewrite Hstay by (by rewrite Hids). by apply Hkeep.
  - intros n d Hd Hni. rewrite Hs2, Hs1, without_lookup; [by apply Hd3|]. by intros Hin%Hd2.
Qed.

Lemma scrubbed_runs {A} (k : SnapshotPersistor -> ScrubberResult -> M (Backend TS OS F R) A) (Q : A -> Backend TS OS F R -> Prop) :
  (forall r ns1 gs out, scrubbed max new_id new_reloc_id args minu sp (b_ns b0) num log gs out r ns1 ->
    runs (k sp r) (mkBackend ns1 (b_snapshots b0) (b_results b0)) Q) ->
  runs (let! p := load_snapshots in let! r := on_ns (scrub max new_id new_reloc_id args minu access p) in k p r) b0 Q.
Proof.
  intros HQ. apply runs_bind. eapply runs_mono; [apply load_runs|]. intros ? ? [-> ->].
  apply runs_bind, runs_on_ns. eapply runs_mono; [by apply scrub_runs with (num := num) (log := log), HA|].
  intros r ns1 (gs & out & HR). by eapply HQ.
Qed.

(** C29: a run of the scrubber that applies its result at once leaves, in the
    snapshots file, the snapshot scrubbed and with new TLogs and all else as it was,
    in a state the driver accepts; every cluster of the snapshot reads as before;
    the old TLogs are gone, and TLogs and SCOs of other snapshots are untouched.  A
    run that does not apply its result stores it under the name that it returns and
    takes nothing away. *)
Theorem scrub_run_exact :
  runs (run max new_id new_reloc_id args true minu access result_id cork) b0
    (fun name b1 => name = None /\ exists sp1 s new out, applied b1 sp1 s new out) /\
  runs (run max new_id new_reloc_id args false minu access result_id cork) b0
    (fun name b1 => name = Some result_id /\ b_snapshots b1 = b_snapshots b0 /\
      (exists r, results (b_results b1) = <[result_id := r]> (results (b_results b0)) /\ tlog_names_in r = ids sp num) /\
      (forall i, i ∈ TLogs.ids (flat sp) -> objects (ns_tlogs (b_ns b1)) !! i = objects (ns_tlogs (b_ns b0)) !! i) /\
      (forall n d, scos_of (ns_scos (b_ns b0)) !! n = Some d -> scos_of (ns_scos (b_ns b1)) !! n = Some d)).
Proof.
  split; unfold run; apply scrubbed_runs; intros r ns1 gs out HR; cbn iota.
  - apply runs_bind. eapply runs_lift; [apply (s_snapshot _ _ _ _ _ _ _ _ _ (a_scrubbable HA))|]. by eapply apply_runs.
  - unfold store_result. apply runs_bind, runs_get. cbn [b_results]. rewrite result_exists_spec, (a_result HA).
    destruct (result_write_spec result_id r (b_results b0)) as (o' & E & Ho').
    apply runs_bind, runs_ret, runs_bind. exists tt, (mkBackend ns1 (b_snapshots b0) o'). unfold on_results. cbn [b_results b_ns b_snapshots].
    rewrite E. split; [done|]. apply runs_ret. cbn [b_results b_ns b_snapshots]. split_and!; [done|done| |by eapply kept_tlogs|].
    + exists r. split; [done|]. apply (r_ids _ _ _ _ _ _ _ _ _ _ _ _ _ HR).
    + by apply (in_log_scos _ _ _ _ HR).
Qed.
End Stores.

(** *** On the backend in memory *)
#[export] Instance mem_snapshots : SnapshotsFile (option SnapshotPersistor) := {
  snapshots_read f := match f with Some p => Ok p | None => Throw BackendException end;
  snapshots_write p f := (Some p, Ok tt) }.

#[export, refine] Instance mem_snapshots_spec : SnapshotsFileSpec (option SnapshotPersistor) := { snapshots_in f := f }.
Proof.
  - intros [q|] p; cbn; [|done]. by split; intros [= ->].
  - intros p f. by eexists.
Defined.

#[export] Instance mem_results : ResultStore (gmap UUID ScrubberResult) := {
  result_exists n o := bool_decide (is_Some (o !! n));
  result_write n r o := (<[n := r]> o, Ok tt) }.

#[export, refine] Instance mem_results_spec : ResultStoreSpec (gmap UUID ScrubberResult) := { results o := o }.
Proof.
  - done.
  - intros n r o. by eexists.
Defined.

Import MemBackend ScrubbingClaims.

Definition ex_backend : Backend (gmap TLogId (list Entry)) (gmap SCO.SCO (list Z)) (option SnapshotPersistor) (gmap UUID ScrubberResult) :=
  mkBackend ex_ns (Some ex_sp) ∅.

Lemma ex_applicable : applicable 10 ex_id ex_reloc_id ex_args 2 ex_sp ex_backend 0 ex_log 77.
Proof.
  assert (forall i, ex_id i ∉ TLogs.ids (flat ex_sp)) as H1.
  { intros i. change (TLogs.ids (flat ex_sp)) with [1; 2]. unfold ex_id. rewrite !elem_of_cons, elem_of_nil. lia. }
  assert (forall i, ex_reloc_id i ∉ TLogs.ids (flat ex_sp)) as H2.
  { intros i. change (TLogs.ids (flat ex_sp)) with [1; 2]. unfold ex_reloc_id. rewrite !elem_of_cons, elem_of_nil. lia. }
  split; [exact ex_scrubbable|done| |vm_compute; reflexivity|exact H1|exact H2|done].
  split; [vm_compute; reflexivity|by_decide|repeat constructor|by_decide|by_decide|done].
Qed.

Lemma scrub_run_exact_witness :
  runs (run 10 ex_id ex_reloc_id ex_args true 2 [] 77 78) ex_backend (fun name b1 => name = None /\ exists sp1 s new out,
    applied ex_args ex_sp ex_backend 0 ex_log b1 sp1 s new out /\ contents (csz ex_args) out (ns_scos (b_ns b1)) 1 = Some [12; 13]).
Proof.
  eapply runs_mono; [apply (proj1 (scrub_run_exact 10 ex_id ex_reloc_id ex_args 2 [] ex_sp ex_backend 0 ex_log 77 78 ex_applicable))|].
  intros name b1 (Hn & sp1 & s & new & out & HA). split; [exact Hn|]. exists sp1, s, new, out. split; [exact HA|].
  refine (eq_trans (d_contents _ _ _ _ _ _ _ _ _ _ HA 1) _). vm_compute. reflexivity.
Defined.
End ScrubApply.
