(* ===== verification/ClusterCacheMap.v ===== *)
(** * The hash map of the cluster cache

    ClusterCacheKey.h and ClusterCacheMap.h of src/src/volumedriver.  The map has its
    entries in bins, by the lower bits of the first word of their keys.  It is
    intrusive: it holds addresses of entries, whose keys are read through [key_of]. *)

From Stdlib Require Import SpecFloat.
From S2P Require Import Prelude.

Module ClusterCacheKey.

(** The union of a 16-byte weed and a cluster address with a handle: two words. *)
Record ClusterCacheKey : Type := mkKey { ca : Z; tag : Z }.

#[global] Instance key_eq_dec : EqDecision ClusterCacheKey.
Proof. solve_decision. Defined.

Definition of_weed (w : Z) : ClusterCacheKey := mkKey (u64 w) (Z.shiftr w 64).
Definition of_location (handle a : Z) : ClusterCacheKey := mkKey a handle.
Definition eqb (a b : ClusterCacheKey) : bool := (ca a =? ca b) && (tag a =? tag b).
Definition cluster_cache_handle (k : ClusterCacheKey) : Z := tag k.
Definition cluster_address (k : ClusterCacheKey) : Z := ca k.

Lemma eqb_eq a b : eqb a b = true <-> a = b.
Proof.
  destruct a as [a1 a2], b as [b1 b2]. unfold eqb. cbn. rewrite andb_true_iff, !Z.eqb_eq. split; [by intros [-> ->]|by intros [= -> ->]].
Qed.
End ClusterCacheKey.

Module ClusterCacheMap.
Import ClusterCacheKey.

Record ClusterCacheMap (P : Type) : Type := mkMap {
  vec_ : list (list P);
  mask_ : Z;
  stats_ : gmap Z Z;
  num_entries_ : Z }.
Arguments mkMap {P}.
Arguments vec_ {P}.
Arguments mask_ {P}.
Arguments stats_ {P}.
Arguments num_entries_ {P}.

Definition stat (stats : gmap Z Z) (k : Z) : Z := default 0 (stats !! k).

(** [stats[from]--; stats[to]++] *)
Definition move_stat (from to : Z) (stats : gmap Z Z) : gmap Z Z :=
  let stats := <[from := u64 (stat stats from - 1)]> stats in
  <[to := u64 (stat stats to + 1)]> stats.

(** [ilogb] of a [double] *)
Definition ilogb (f : spec_float) : Z :=
  match f with
  | S754_finite _ m e => Z.log2 (Z.pos m) + e
  | S754_zero _ => - 2 ^ 31
  | _ => 2 ^ 31 - 1
  end.
Definition double (z : Z) : spec_float := binary_normalize 53 1024 z 0 false.

Definition best_size (expected_entries_per_bin read_cache_size_in_clusters : Z) : Z :=
  if expected_entries_per_bin <? read_cache_size_in_clusters
  then u64 (ilogb (SFdiv 53 1024 (double read_cache_size_in_clusters) (double expected_entries_per_bin)))
  else 0.

Section Map.
Context {P : Type} `{EqDecision P}.
Variable key_of : P -> ClusterCacheKey.
Abbreviation cmap := (ClusterCacheMap P).

Definition new_map : cmap := mkMap [] 0 ∅ 0.

Definition index_ (key : ClusterCacheKey) (vec : list (list P)) (mask : Z) : res nat :=
  let retval := Z.land (ca key) mask in
  verify (retval <? Z.of_nat (length vec)) in Ok (Z.to_nat retval).

Definition insert_ (entry : P) (vec : list (list P)) (stats : gmap Z Z) (mask : Z) : res (list (list P) * gmap Z Z) :=
  let? ind := index_ (key_of entry) vec mask in
  let lst := (vec !!! ind) ++ [entry] in
  let size := Z.of_nat (length lst) in
  verify (0 <? size) in
  Ok (<[ind := lst]> vec, move_stat (size - 1) size stats).

(** [std::find_if] with [HasKey]: the position in a bin. *)
Fixpoint find_if (key : ClusterCacheKey) (lst : list P) : option nat :=
  match lst with
  | [] => None
  | p :: lst' => if eqb (key_of p) key then Some 0%nat else S <$> find_if key lst'
  end.

Definition find (key : ClusterCacheKey) (m : cmap) : res (option P) :=
  let? ind := index_ key (vec_ m) (mask_ m) in
  let lst := vec_ m !!! ind in
  Ok (find_if key lst ≫= fun i => lst !! i).

Definition insert (entry : P) (m : cmap) : res cmap :=
  let? (vec, stats) := insert_ entry (vec_ m) (stats_ m) (mask_ m) in
  Ok (mkMap vec (mask_ m) stats (u64 (num_entries_ m + 1))).

Definition remove (entry : P) (m : cmap) : res (bool * cmap) :=
  let? ind := index_ (key_of entry) (vec_ m) (mask_ m) in
  let lst := vec_ m !!! ind in
  match find_if (key_of entry) lst with
  | None => Ok (false, m)
  | Some i =>
      let size := Z.of_nat (length lst) in
      verify (0 <? size) in
      Ok (true, mkMap (<[ind := take i lst ++ drop (S i) lst]> (vec_ m)) (mask_ m) (move_stat size (size - 1) (stats_ m)) (u64 (num_entries_ m - 1)))
  end.

(** The bins in order. *)
Definition all (m : cmap) : list P := concat (vec_ m).

(** [1 << size] is computed in [int]. *)
Definition resize (size : Z) (m : cmap) : res cmap :=
  verify (size <? 64) in
  let mask := Z.shiftl 1 size - 1 in
  let? (vec, stats) := rfold (fun vs e => insert_ e (fst vs) (snd vs) mask) (replicate (Z.to_nat (Z.shiftl 1 size)) [], ∅) (all m) in
  if 31 <=? size then Throw UndefinedBehaviour
  else Ok (mkMap vec mask (<[0 := Z.shiftl 1 size]> stats) (num_entries_ m)).

(** [entries()] of a debug build, with its check. *)
Definition stats_sum (stats : gmap Z Z) : Z := map_fold (fun k v acc => u64 (acc + k * v)) 0 stats.
Definition entries (m : cmap) : res Z :=
  verify (stats_sum (stats_ m) =? num_entries_ m) in Ok (num_entries_ m).

Definition empty (m : cmap) : res bool := let? n := entries m in Ok (n =? 0).
Definition spine_size (m : cmap) : Z := Z.of_nat (length (vec_ m)).
End Map.
End ClusterCacheMap.
