(* ===== verification/ClusterCacheMapFacts.v ===== *)
(** * The hash map of the cluster cache: facts

    The map as the list of its entries: what is found, inserted, removed and moved to
    other bins, and the count that the statistics have to agree with. *)

From S2P Require Import Prelude ClusterCacheMap.

Module StatFacts.
Import ClusterCacheMap.

Definition ssum (stats : gmap Z Z) : Z := map_fold (fun k v acc => acc + k * v) 0 stats.

Lemma stats_sum_mod stats : stats_sum stats = u64 (ssum stats).
Proof.
  unfold stats_sum, ssum. induction stats as [|k v m Hk Hfst IH] using map_first_key_ind; [done|].
  rewrite !map_fold_insert_first_key by done. rewrite IH. apply wrap_add_l.
Qed.

Lemma ssum_insert_new m k v : m !! k = None -> ssum (<[k := v]> m) = ssum m + k * v.
Proof. intros Hk. unfold ssum. rewrite map_fold_insert_L; [done| |done]. intros. lia. Qed.

Lemma ssum_insert m k v : ssum (<[k := v]> m) = ssum m + k * (v - stat m k).
Proof.
  unfold stat. destruct (m !! k) as [v'|] eqn:E; cbn.
  - assert (ssum m = ssum (delete k m) + k * v') as H1.
    { rewrite <- (insert_delete_id m k v' E) at 1. apply ssum_insert_new, lookup_delete_eq. }
    rewrite <- (insert_delete_eq m k v), ssum_insert_new by apply lookup_delete_eq. lia.
  - rewrite ssum_insert_new by done. lia.
Qed.

(** Moving one bin from a size to another changes the sum by the difference. *)
Lemma u64_mul k a b : u64 a = u64 b -> u64 (k * a) = u64 (k * b).
Proof. unfold wrap. intros E. rewrite <- (Zmult_mod_idemp_r a), <- (Zmult_mod_idemp_r b), E. done. Qed.

Lemma move_stat_sum from to m : from <> to -> stats_sum (move_stat from to m) = u64 (stats_sum m + (to - from)).
Proof.
  intros Hne. rewrite !stats_sum_mod. unfold move_stat. rewrite ssum_insert, ssum_insert.
  replace (stat (<[from:=_]> m) to) with (stat m to) by (unfold stat; by rewrite lookup_insert_ne).
  rewrite wrap_add_l. unfold wrap.
  set (a := stat m from). set (b := stat m to). set (S := ssum m).
  rewrite (Z.mod_eq (a - 1) (2 ^ 64)), (Z.mod_eq (b + 1) (2 ^ 64)) by lia.
  set (q1 := (a - 1) / 2 ^ 64). set (q2 := (b + 1) / 2 ^ 64).
  replace (S + from * (a - 1 - 2 ^ 64 * q1 - a) + to * (b + 1 - 2 ^ 64 * q2 - b)) with (S + (to - from) + (- from * q1 - to * q2) * 2 ^ 64) by ring.
  apply Z_mod_plus_full.
Qed.

Lemma stats_sum_zero m v : stats_sum (<[0 := v]> m) = stats_sum m.
Proof. rewrite !stats_sum_mod, ssum_insert. f_equal. lia. Qed.
End StatFacts.

Module MapFacts.
Import ClusterCacheKey ClusterCacheMap StatFacts.

Section Facts.
Context {P : Type} `{EqDecision P}.
Variable key_of : P -> ClusterCacheKey.
Abbreviation cmap := (ClusterCacheMap P).

(** Every entry is in the bin of its key. *)
Definition binned (vec : list (list P)) (mask : Z) : Prop :=
  forall i l p, vec !! i = Some l -> p ∈ l -> Z.land (ca (key_of p)) mask = Z.of_nat i.

Record wf (m : cmap) : Prop := mkWf {
  wf_spine : exists n : Z, 0 <= n < 31 /\ mask_ m = 2 ^ n - 1 /\ length (vec_ m) = Z.to_nat (2 ^ n);
  wf_binned : binned (vec_ m) (mask_ m);
  wf_keys : NoDup (key_of <$> all m);
  wf_num : num_entries_ m = u64 (Z.of_nat (length (all m)));
  wf_stats : stats_sum (stats_ m) = num_entries_ m }.

Lemma land_mask a n : 0 <= n -> 0 <= Z.land a (2 ^ n - 1) < 2 ^ n.
Proof. intros Hn. rewrite Z.sub_1_r, <- Z.ones_equiv, Z.land_ones by done. apply Z.mod_pos_bound, Z.pow_pos_nonneg; lia. Qed.

Lemma index_ok k (vec : list (list P)) n : 0 <= n -> length vec = Z.to_nat (2 ^ n) ->
  index_ k vec (2 ^ n - 1) = Ok (Z.to_nat (Z.land (ca k) (2 ^ n - 1))) /\
  exists l, vec !! Z.to_nat (Z.land (ca k) (2 ^ n - 1)) = Some l.
Proof.
  intros Hn Hl. pose proof (land_mask (ca k) n Hn) as Hb. unfold index_. rewrite (proj2 (Z.ltb_lt _ _)) by lia. split; [done|].
  apply lookup_lt_is_Some. lia.
Qed.

Lemma find_if_spec k l : match find_if key_of k l with
  | Some i => exists p a b, l = a ++ p :: b /\ length a = i /\ key_of p = k
  | None => forall p, p ∈ l -> key_of p <> k
  end.
Proof.
  induction l as [|p l IH]; cbn; [by intros p Hp%elem_of_nil|]. destruct (eqb (key_of p) k) eqn:E.
  - apply eqb_eq in E. by exists p, [], l.
  - destruct (find_if key_of k l) as [i|]; cbn.
    + destruct IH as (q & a & b & -> & <- & Hq). by exists q, (p :: a), b.
    + intros q [->|Hq]%elem_of_cons; [|by apply IH]. intros Hk. apply eqb_eq in Hk. congruence.
Qed.

Lemma concat_insert (vec : list (list P)) i l l' : vec !! i = Some l -> exists x, concat vec ≡ₚ l ++ x /\ concat (<[i := l']> vec) ≡ₚ l' ++ x.
Proof.
  intros Hi. exists (concat (take i vec) ++ concat (drop (S i) vec)).
  rewrite <- (take_drop_middle vec i l Hi) at 1. rewrite (insert_take_drop vec i l') by (by apply lookup_lt_Some in Hi).
  rewrite !concat_app. cbn. split; apply Permutation_app_swap_app.
Qed.

Lemma in_bin m p : wf m -> p ∈ all m -> exists l, vec_ m !! Z.to_nat (Z.land (ca (key_of p)) (mask_ m)) = Some l /\ p ∈ l.
Proof.
  intros Hw (l & Hl & Hp)%elem_of_concat. apply list_elem_of_lookup in Hl as [i Hi]. exists l.
  rewrite (wf_binned m Hw i l p Hi Hp), Nat2Z.id. done.
Qed.

Lemma key_inj m p q : wf m -> p ∈ all m -> q ∈ all m -> key_of p = key_of q -> p = q.
Proof.
  intros Hw [i Hi]%list_elem_of_lookup [j Hj]%list_elem_of_lookup E.
  assert (i = j) as ->; [|congruence]. eapply NoDup_lookup; [apply (wf_keys m Hw)| |]; rewrite list_lookup_fmap; [by rewrite Hi|rewrite Hj, E; done].
Qed.

Lemma find_spec m k : wf m -> exists o, find key_of k m = Ok o /\
  match o with Some p => p ∈ all m /\ key_of p = k | None => forall p, p ∈ all m -> key_of p <> k end.
Proof.
  intros Hw. destruct (wf_spine m Hw) as (n & Hn & Hm & Hl). unfold find. rewrite Hm.
  destruct (index_ok k (vec_ m) n ltac:(lia) Hl) as [-> [l Hi]]. cbn [rbind]. rewrite (list_lookup_total_correct _ _ _ Hi).
  pose proof (find_if_spec k l) as Hf. eexists. split; [done|]. destruct (find_if key_of k l) as [i|]; cbn.
  - destruct Hf as (p & a & b & -> & <- & Hp). rewrite lookup_app_r, Nat.sub_diag by done. cbn. split; [|done].
    apply elem_of_concat. eexists. split; [by eapply list_elem_of_lookup_2|]. apply elem_of_app. right. left.
  - intros p Hp <-. destruct (in_bin m p Hw Hp) as (l' & Hl' & Hp'). rewrite Hm in Hl'. rewrite Hi in Hl'. injection Hl' as <-. by apply (Hf p Hp').
Qed.

Lemma insert__spec e vec stats n : 0 <= n -> length vec = Z.to_nat (2 ^ n) -> binned vec (2 ^ n - 1) ->
  exists vec' stats', insert_ key_of e vec stats (2 ^ n - 1) = Ok (vec', stats') /\ length vec' = length vec /\ binned vec' (2 ^ n - 1) /\
    concat vec' ≡ₚ e :: concat vec /\ stats_sum stats' = u64 (stats_sum stats + 1).
Proof.
  intros Hn Hl Hb. unfold insert_. destruct (index_ok (key_of e) vec n Hn Hl) as [-> [l Hi]]. cbn [rbind].
  rewrite (list_lookup_total_correct _ _ _ Hi), (proj2 (Z.ltb_lt _ _)) by (rewrite length_app; cbn; lia).
  eexists _, _. split; [done|]. split; [apply length_insert|]. split; [|split].
  - intros j l' p Hj Hp. apply list_lookup_insert_Some in Hj as [(<- & <- & _)|[_ Hj]]; [|by eapply Hb].
    apply elem_of_app in Hp as [Hp| ->%list_elem_of_singleton]; [by eapply Hb|]. pose proof (land_mask (ca (key_of e)) n Hn). lia.
  - destruct (concat_insert vec _ l (l ++ [e]) Hi) as (x & H1 & H2). rewrite H1, H2, <- app_assoc. cbn. symmetry. apply Permutation_middle.
  - rewrite move_stat_sum by lia. f_equal. lia.
Qed.

Lemma insert_spec e m : wf m -> (forall p, p ∈ all m -> key_of p <> key_of e) ->
  exists m', insert key_of e m = Ok m' /\ wf m' /\ all m' ≡ₚ e :: all m.
Proof.
  intros Hw Hnew. destruct (wf_spine m Hw) as (n & Hn & Hm & Hl). unfold insert. rewrite Hm. pose proof (wf_binned m Hw) as Hb. rewrite Hm in Hb.
  destruct (insert__spec e (vec_ m) (stats_ m) n ltac:(lia) Hl Hb) as (vec' & stats' & -> & Hl' & Hb' & Hp & Hs). cbn [rbind].
  eexists. split; [done|]. split; [|done]. split; cbn [vec_ mask_ stats_ num_entries_].
  - exists n. by rewrite Hl'.
  - done.
  - unfold all. cbn [vec_]. rewrite Hp. cbn. constructor; [|apply (wf_keys m Hw)]. intros (p & Hk & Hin)%list_elem_of_fmap. by apply (Hnew p Hin).
  - unfold all. cbn [vec_]. rewrite Hp. cbn [length]. rewrite (wf_num m Hw), wrap_add_l. f_equal. unfold all. lia.
  - by rewrite Hs, (wf_stats m Hw).
Qed.

Lemma remove_spec p m : wf m -> p ∈ all m -> exists m', remove key_of p m = Ok (true, m') /\ wf m' /\ all m ≡ₚ p :: all m'.
Proof.
  intros Hw Hp. destruct (wf_spine m Hw) as (n & Hn & Hm & Hl). unfold remove. rewrite Hm.
  destruct (index_ok (key_of p) (vec_ m) n ltac:(lia) Hl) as [-> [l Hi]]. cbn [rbind]. rewrite (list_lookup_total_correct _ _ _ Hi).
  destruct (in_bin m p Hw Hp) as (l' & Hl' & Hp'). rewrite Hm, Hi in Hl'. injection Hl' as <-.
  pose proof (find_if_spec (key_of p) l) as Hf. destruct (find_if key_of (key_of p) l) as [i|]; [|by destruct (Hf p Hp')].
  destruct Hf as (q & a & b & -> & <- & Hq).
  assert (q = p) as ->.
  { apply (key_inj m); [done| |done|done]. apply elem_of_concat. eexists. split; [by eapply list_elem_of_lookup_2|]. apply elem_of_app. right. left. }
  rewrite take_app_length, cons_middle, app_assoc, drop_app_length' by (rewrite length_app; cbn; lia). rewrite <- app_assoc.
  rewrite (proj2 (Z.ltb_lt _ _)) by (rewrite length_app; cbn; lia). eexists. split; [done|].
  destruct (concat_insert (vec_ m) _ _ (a ++ b) Hi) as (x & H1 & H2).
  assert (all m ≡ₚ p :: concat (<[Z.to_nat (Z.land (ca (key_of p)) (2 ^ n - 1)) := a ++ b]> (vec_ m))) as Hperm.
  { unfold all. rewrite H1, H2. cbn. by rewrite <- Permutation_middle. }
  split; [|done]. split; cbn [vec_ mask_ stats_ num_entries_].
  - exists n. by rewrite length_insert.
  - intros j l' q Hj Hq'. apply list_lookup_insert_Some in Hj as [(<- & <- & _)|[_ Hj]].
    + pose proof (wf_binned m Hw _ _ q Hi) as E. rewrite Hm in E. apply E. apply elem_of_app in Hq' as [?|?]; apply elem_of_app; [by left|right; by right].
    + pose proof (wf_binned m Hw _ _ q Hj Hq') as E. by rewrite Hm in E.
  - pose proof (wf_keys m Hw) as Hk. rewrite Hperm in Hk. by apply NoDup_cons in Hk as [_ ?].
  - unfold all. cbn [vec_]. pose proof (Permutation_length Hperm) as E. cbn [length] in E. rewrite (wf_num m Hw), E.
    replace (u64 (Z.of_nat (S _))) with (u64 (Z.of_nat (length (concat (<[Z.to_nat (Z.land (ca (key_of p)) (2 ^ n - 1)):=a ++ b]> (vec_ m)))) + 1)) by (f_equal; lia).
    rewrite <- Z.add_opp_r, wrap_add_l. f_equal. lia.
  - rewrite move_stat_sum, (wf_stats m Hw), length_app by lia. f_equal. cbn [length]. lia.
Qed.

Lemma remove_absent p m : wf m -> (forall q, q ∈ all m -> key_of q <> key_of p) -> remove key_of p m = Ok (false, m).
Proof.
  intros Hw Hn. destruct (wf_spine m Hw) as (n & H0 & Hm & Hl). unfold remove. rewrite Hm.
  destruct (index_ok (key_of p) (vec_ m) n ltac:(lia) Hl) as [-> [l Hi]]. cbn [rbind]. rewrite (list_lookup_total_correct _ _ _ Hi).
  pose proof (find_if_spec (key_of p) l) as Hf. destruct (find_if key_of (key_of p) l) as [i|]; [|done].
  destruct Hf as (q & a & b & -> & _ & Hq). destruct (Hn q); [|done].
  apply elem_of_concat. eexists. split; [by eapply list_elem_of_lookup_2|]. apply elem_of_app. right. left.
Qed.

Lemma entries_spec m : wf m -> entries m = Ok (u64 (Z.of_nat (length (all m)))).
Proof. intros Hw. unfold entries. by rewrite (wf_stats m Hw), Z.eqb_refl, (wf_num m Hw). Qed.

Lemma insert_all es vec stats n : 0 <= n -> length vec = Z.to_nat (2 ^ n) -> binned vec (2 ^ n - 1) ->
  exists vec' stats', rfold (fun vs e => insert_ key_of e (fst vs) (snd vs) (2 ^ n - 1)) (vec, stats) es = Ok (vec', stats') /\
    length vec' = length vec /\ binned vec' (2 ^ n - 1) /\ concat vec' ≡ₚ es ++ concat vec /\
    stats_sum stats' = u64 (stats_sum stats + Z.of_nat (length es)).
Proof.
  intros Hn. revert vec stats. induction es as [|e es IH]; intros vec stats Hl Hb; cbn [rfold].
  - eexists _, _. split; [done|]. split_and!; [done|done|done|]. rewrite stats_sum_mod, wrap_add_l. f_equal. cbn. lia.
  - destruct (insert__spec e vec stats n Hn Hl Hb) as (vec1 & stats1 & E & Hl1 & Hb1 & Hp1 & Hs1). cbn [fst snd]. rewrite E. cbn [rbind].
    destruct (IH vec1 stats1) as (vec' & stats' & E' & Hl' & Hb' & Hp' & Hs'); [by rewrite Hl1|done|].
    exists vec', stats'. split_and!; [done|congruence|done| |].
    + rewrite Hp', Hp1. cbn. symmetry. apply Permutation_middle.
    + rewrite Hs', Hs1, wrap_add_l. f_equal. cbn [length]. lia.
Qed.

(** Another number of bins: the same entries. *)
Lemma resize_entries size m : 0 <= size < 31 -> NoDup (key_of <$> all m) -> num_entries_ m = u64 (Z.of_nat (length (all m))) ->
  exists m', resize key_of size m = Ok m' /\ wf m' /\ all m' ≡ₚ all m.
Proof.
  intros Hs Hk Hnum. unfold resize. rewrite (proj2 (Z.ltb_lt size 64)), Z.shiftl_mul_pow2, Z.mul_1_l by lia.
  destruct (insert_all (all m) (replicate (Z.to_nat (2 ^ size)) []) ∅ size) as (vec' & stats' & -> & Hl & Hb & Hp & Hss);
    [lia|apply length_replicate| |].
  { intros i l p Hi Hp. apply lookup_replicate in Hi as [-> _]. by apply elem_of_nil in Hp. }
  assert (all m ++ concat (replicate (Z.to_nat (2 ^ size)) []) = all m) as E.
  { clear. induction (Z.to_nat (2 ^ size)) as [|k IH]; cbn; [apply app_nil_r|done]. }
  rewrite E in Hp. rewrite length_replicate in Hl. cbn [rbind]. rewrite (proj2 (Z.leb_gt 31 size)) by lia. eexists. split; [done|].
  assert (all (mkMap vec' (2 ^ size - 1) (<[0:=2 ^ size]> stats') (num_entries_ m)) = concat vec') as Ea by done.
  split; [|by rewrite Ea]. split; rewrite ?Ea; cbn [vec_ mask_ stats_ num_entries_].
  - by exists size.
  - done.
  - by rewrite Hp.
  - by rewrite Hp.
  - rewrite stats_sum_zero, Hss, Hnum. done.
Qed.

Lemma resize_spec size m : 0 <= size < 31 -> wf m -> exists m', resize key_of size m = Ok m' /\ wf m' /\ all m' ≡ₚ all m.
Proof. intros Hs Hw. apply resize_entries; [done|apply Hw..]. Qed.

Lemma new_map_spec size : 0 <= size < 31 -> exists m', resize key_of size new_map = Ok m' /\ wf m' /\ all m' = [].
Proof.
  intros Hs. destruct (resize_entries size new_map Hs) as (m' & E & Hw & Hp); [constructor|done|].
  exists m'. split_and!; [done|done|]. by apply Permutation_nil_r.
Qed.
End Facts.

(** The keys of other entries do not matter. *)
Lemma wf_ext {P} (key_of key_of' : P -> ClusterCacheKey) m : (forall p, p ∈ all m -> key_of' p = key_of p) -> wf key_of m -> wf key_of' m.
Proof.
  intros E Hw. split; [apply Hw| | |apply Hw..].
  - intros i l p Hi Hp. rewrite E; [by eapply (wf_binned _ m Hw)|]. apply elem_of_concat. exists l. split; [by eapply list_elem_of_lookup_2|done].
  - rewrite (list_fmap_ext key_of' key_of (all m)); [apply Hw|]. intros i p Hi. apply E. by eapply list_elem_of_lookup_2.
Qed.
End MapFacts.
