(* ===== verification/ClusterCache.v ===== *)
(** * The cluster cache

    ClusterCache.h, ClusterCacheEntry.h, ClusterCacheMode.h, ClusterCacheDeviceT.h,
    ClusterCacheDiskStore.h and ClusterCacheDeviceManagerT.h of src/src/volumedriver:
    a read cache of clusters on local devices, by content (for all volumes) or by
    location (for one).

    An entry lives in the memory of a device, its address is the device and an index.
    The lists of the cache are intrusive: an entry is in at most one, and
    [unlink_entry_from_dlist_] takes it out of whichever it is in.  Reads of a device
    get as argument whether all bytes were transferred, writes also what a short write
    leaves; opening a path, the file it leads to.  Reinstating a cache from its serialization is left out. *)

From stdpp Require Import sorting.
From S2P Require Import Prelude ClusterCacheMap.

Module ClusterCacheEntry.
Import ClusterCacheKey.

Inductive ClusterCacheMode : Type := ContentBased | LocationBased.

#[global] Instance mode_eq_dec : EqDecision ClusterCacheMode.
Proof. solve_decision. Defined.

Record ClusterCacheEntry : Type := mkCacheEntry { key : ClusterCacheKey; mode : ClusterCacheMode }.

(** The address of an entry: its device and its place in the memory there. *)
Definition ptr : Type := nat * nat.
End ClusterCacheEntry.

(** ** Devices *)
Module ClusterCacheDevice.
Import ClusterCacheKey ClusterCacheEntry.

Definition UUID : Type := Z.

(** The file behind a device: a guid in its first cluster, then the cached ones. *)
Record File : Type := mkFile { guid : option UUID; clusters : gmap Z (list Z) }.
Definition no_file : File := mkFile None ∅.

Record Device : Type := mkDevice {
  dev_id : nat;
  path_ : string;
  file_ : Z;
  total_size_ : Z;
  memory_ : list ClusterCacheEntry }.

Section Device.
Variable cluster_size_ : Z.

(** [ClusterCacheDiskStore]; [opened] is the file and, for a block device, its size. *)
Definition open_device (id : nat) (path : string) (size : Z) (opened : option (Z * Z)) : res Device :=
  match opened with
  | None => Throw IOException
  | Some (f, block_size) =>
      if negb (size =? 0) && negb (size mod cluster_size_ =? 0) then Throw IOException
      else
        let total := if size =? 0 then block_size else size in
        if negb ((cluster_size_ <? total) && (total mod cluster_size_ =? 0)) then Throw AssertFailed
        else Ok (mkDevice id path f (total - cluster_size_) [])
  end.

Definition hasEntry (p : ptr) (d : Device) : bool := (fst p =? dev_id d)%nat && (snd p <? length (memory_ d))%nat.

Definition getIndex (p : ptr) (d : Device) : res Z :=
  let index := u32 (Z.of_nat (snd p)) in
  verify (index <? Z.of_nat (length (memory_ d))) in Ok index.

(** The entry's cluster in the file; the first one is taken. *)
Definition block (index : Z) : Z := u32 (index + 1).

(** Room for one more entry. *)
Definition has_room (d : Device) : bool := u64 (Z.of_nat (length (memory_ d)) * cluster_size_) <? total_size_ d.
Definition getNextFreeCluster (k : ClusterCacheKey) (d : Device) : Device :=
  mkDevice (dev_id d) (path_ d) (file_ d) (total_size_ d) (memory_ d ++ [mkCacheEntry k ContentBased]).

Definition write_guid (u : UUID) (d : Device) (files : gmap Z File) : gmap Z File :=
  <[file_ d := mkFile (Some u) (clusters (default no_file (files !! file_ d)))]> files.
Definition check_guid (u : UUID) (d : Device) (files : gmap Z File) : bool :=
  bool_decide (guid (default no_file (files !! file_ d)) = Some u).
End Device.
End ClusterCacheDevice.

(** ** The cache *)
Module ClusterCache.
Import ClusterCacheKey ClusterCacheEntry ClusterCacheMap ClusterCacheDevice.

Record Namespace : Type := mkNamespace {
  map : ClusterCacheMap ptr;
  lru : list ptr;
  max_entries : option Z }.

Record Manager : Type := mkManager {
  devices : list Device;
  devices_iterator : nat;
  full : bool;
  uuid_ : UUID }.

Record Cache : Type := mkCache {
  manager_ : Manager;
  namespaces_ : gmap Z Namespace;
  invalidated_entries_ : list ptr;
  lru_ : list ptr;
  num_hits : Z;
  num_misses : Z;
  files : gmap Z File;
  drawn : nat }.

Definition content_based_handle : Z := 0.

(** *** The state in parts *)
Definition with_manager (m : Manager) (c : Cache) : Cache :=
  mkCache m (namespaces_ c) (invalidated_entries_ c) (lru_ c) (num_hits c) (num_misses c) (files c) (drawn c).
Definition with_devices (ds : list Device) (c : Cache) : Cache :=
  with_manager (mkManager ds (devices_iterator (manager_ c)) (full (manager_ c)) (uuid_ (manager_ c))) c.
Definition with_namespaces (ns : gmap Z Namespace) (c : Cache) : Cache :=
  mkCache (manager_ c) ns (invalidated_entries_ c) (lru_ c) (num_hits c) (num_misses c) (files c) (drawn c).
Definition with_invalidated (l : list ptr) (c : Cache) : Cache :=
  mkCache (manager_ c) (namespaces_ c) l (lru_ c) (num_hits c) (num_misses c) (files c) (drawn c).
Definition with_lru (l : list ptr) (c : Cache) : Cache :=
  mkCache (manager_ c) (namespaces_ c) (invalidated_entries_ c) l (num_hits c) (num_misses c) (files c) (drawn c).
Definition with_counts (h m : Z) (c : Cache) : Cache :=
  mkCache (manager_ c) (namespaces_ c) (invalidated_entries_ c) (lru_ c) h m (files c) (drawn c).
Definition with_files (f : gmap Z File) (c : Cache) : Cache :=
  mkCache (manager_ c) (namespaces_ c) (invalidated_entries_ c) (lru_ c) (num_hits c) (num_misses c) f (drawn c).

Definition with_ns_lru (l : list ptr) (n : Namespace) : Namespace := mkNamespace (map n) l (max_entries n).
Definition with_ns_map (m : ClusterCacheMap ptr) (n : Namespace) : Namespace := mkNamespace m (lru n) (max_entries n).
Definition with_max (m : option Z) (n : Namespace) : Namespace := mkNamespace (map n) (lru n) m.

(** *** Entries through their addresses *)
Definition getDeviceFromEntry (p : ptr) (ds : list Device) : option Device := List.find (hasEntry p) ds.
Definition entry_at (ds : list Device) (p : ptr) : option ClusterCacheEntry :=
  getDeviceFromEntry p ds ≫= fun d => memory_ d !! snd p.
Definition key_of (ds : list Device) (p : ptr) : ClusterCacheKey := from_option key (mkKey 0 0) (entry_at ds p).
Definition mode_of (ds : list Device) (p : ptr) : ClusterCacheMode := from_option mode ContentBased (entry_at ds p).

(** [new(entry) ClusterCacheEntry(key, mode)] *)
Definition set_entry (p : ptr) (e : ClusterCacheEntry) (ds : list Device) : list Device :=
  (fun d => if hasEntry p d then mkDevice (dev_id d) (path_ d) (file_ d) (total_size_ d) (<[snd p := e]> (memory_ d)) else d) <$> ds.

Definition make_handle_ (m : ClusterCacheMode) (k : ClusterCacheKey) : Z :=
  match m with ContentBased => content_based_handle | LocationBased => cluster_cache_handle k end.
Definition handle_of (ds : list Device) (p : ptr) : Z := make_handle_ (mode_of ds p) (key_of ds p).

Definition get_cache_entry_mode (handle : Z) : ClusterCacheMode := if handle =? content_based_handle then ContentBased else LocationBased.

Definition mverify (b : bool) : M Cache unit := if b then mret tt else mthrow VerifyFailed.

(** *** Lists *)
Definition without_ptr (p : ptr) (l : list ptr) : list ptr := List.filter (fun q => negb (bool_decide (q = p))) l.

Definition unlink_entry_from_dlist_ (p : ptr) (c : Cache) : Cache :=
  mkCache (manager_ c) ((fun n => with_ns_lru (without_ptr p (lru n)) n) <$> namespaces_ c)
    (without_ptr p (invalidated_entries_ c)) (without_ptr p (lru_ c)) (num_hits c) (num_misses c) (files c) (drawn c).

Definition get_invalidated_cache_entry_ : M Cache (option ptr) :=
  let! c := mget in
  match last (invalidated_entries_ c) with
  | Some p => mmodify (with_invalidated (removelast (invalidated_entries_ c))) ;! mret (Some p)
  | None => mret None
  end.

(** *** Namespaces *)
Definition find_namespace_ (handle : Z) (c : Cache) : option Namespace := namespaces_ c !! handle.

Definition find_namespace_or_throw_ (handle : Z) : M Cache Namespace :=
  let! c := mget in
  match find_namespace_ handle c with
  | Some n => mret n
  | None => mthrow InvalidClusterCacheHandle
  end.

Definition on_namespace (handle : Z) (f : Namespace -> Namespace) : M Cache unit :=
  mmodify (fun c => with_namespaces (alter f handle (namespaces_ c)) c).

(** [VERIFY(nspace)] on the result of [find_namespace_] *)
Definition namespace (handle : Z) : M Cache Namespace :=
  let! c := mget in
  match find_namespace_ handle c with
  | Some n => mret n
  | None => mthrow VerifyFailed
  end.

(** The map of a namespace, on the keys as they are now. *)
Definition map_remove (handle : Z) (p : ptr) : M Cache bool :=
  let! n := namespace handle in
  let! c := mget in
  let! (b, m) := mlift (remove (key_of (devices (manager_ c))) p (map n)) in
  on_namespace handle (with_ns_map m) ;! mret b.

Definition map_insert (handle : Z) (p : ptr) : M Cache unit :=
  let! n := namespace handle in
  let! c := mget in
  let! m := mlift (insert (key_of (devices (manager_ c))) p (map n)) in
  on_namespace handle (with_ns_map m).

Definition map_find (handle : Z) (k : ClusterCacheKey) : M Cache (option ptr) :=
  let! n := namespace handle in
  let! c := mget in
  mlift (find (key_of (devices (manager_ c))) k (map n)).

Definition map_entries (handle : Z) : M Cache Z :=
  let! n := namespace handle in mlift (entries (map n)).

Section Cache.
Variable cluster_size_ : Z.
Variable average_entries_per_bin : Z.
Variable draw : nat -> UUID.

Definition totalSizeInEntries (c : Cache) : Z :=
  u64 (foldr Z.add 0 (total_size_ <$> devices (manager_ c))) / cluster_size_.

Definition maybe_create_namespace_ (handle : Z) : M Cache unit :=
  let! c := mget in
  match find_namespace_ handle c with
  | Some _ => mret tt
  | None =>
      let! m := mlift (resize (key_of (devices (manager_ c))) (best_size average_entries_per_bin (totalSizeInEntries c)) new_map) in
      mmodify (fun c => with_namespaces (<[handle := mkNamespace m [] None]> (namespaces_ c)) c)
  end.

(** [push_front] to the list that the entries of a namespace are in. *)
Definition push_lru (handle : Z) (limited : bool) (p : ptr) : M Cache unit :=
  if limited then on_namespace handle (fun n => with_ns_lru (p :: lru n) n)
  else mmodify (fun c => with_lru (p :: lru_ c) c).

(** *** The device manager *)
Definition updateIterator : M Cache unit :=
  let! c := mget in
  let m := manager_ c in
  mverify (devices_iterator m <? length (devices m))%nat ;!
  mmodify (with_manager (mkManager (devices m)
    (if (S (devices_iterator m) =? length (devices m))%nat then 0%nat else S (devices_iterator m)) (full m) (uuid_ m))).

(** The first device with room, from the iterator on and around. *)
Definition device_order (m : Manager) : list nat :=
  seq (devices_iterator m) (length (devices m) - devices_iterator m) ++ seq 0 (devices_iterator m).
Definition device_with_room (m : Manager) : option nat :=
  List.find (fun i => match devices m !! i with Some d => has_room cluster_size_ d | None => false end) (device_order m).

Definition manager_getNextFreeCluster (k : ClusterCacheKey) : M Cache (option ptr) :=
  let! c := mget in
  let m := manager_ c in
  if full m then mret None
  else match device_with_room m with
  | Some i =>
      match devices m !! i with
      | Some d =>
          mmodify (with_devices (<[i := getNextFreeCluster k d]> (devices m))) ;!
          updateIterator ;!
          mret (Some (dev_id d, length (memory_ d)))
      | None => mret None
      end
  | None => mmodify (with_manager (mkManager (devices m) (devices_iterator m) true (uuid_ m))) ;! mret None
  end.

(** A new device; one that has the guid just written to all others is one of them. *)
Definition addDevice (path : string) (size : Z) (opened : option (Z * Z)) : M Cache bool :=
  let! c := mget in
  let! dev := mlift (open_device cluster_size_ (drawn c) path size opened) in
  let m := manager_ c in
  let u := draw (drawn c) in
  let fs := fold_left (fun fs d => write_guid u d fs) (devices m) (files c) in
  let c' := mkCache (mkManager (devices m) (devices_iterator m) (full m) u) (namespaces_ c) (invalidated_entries_ c) (lru_ c)
              (num_hits c) (num_misses c) fs (S (drawn c)) in
  mmodify (fun _ => c') ;!
  if check_guid u dev fs then mret false
  else
    mmodify (fun c => with_files (write_guid u dev (files c)) (with_manager (mkManager (devices m ++ [dev]) 0 false u) c)) ;!
    mret true.

Definition removeDevice (id : nat) : M Cache unit := mmodify (fun c =>
  let m := manager_ c in
  if existsb (fun d => dev_id d =? id)%nat (devices m) then
    with_manager (mkManager (List.filter (fun d => negb (dev_id d =? id)%nat) (devices m)) 0 (full m) (uuid_ m)) c
  else c).

Definition getDeviceFromPath (path : string) (c : Cache) : option Device :=
  List.find (fun d => bool_decide (path_ d = path)) (devices (manager_ c)).

Definition maybeAddDevice (path : string) (size : Z) (opened : option (Z * Z)) : M Cache bool :=
  let! c := mget in
  match getDeviceFromPath path c with
  | Some _ => mret false
  | None => addDevice path size opened
  end.

(** *** Taking a device offline *)
Definition on_device (id : nat) (c : Cache) (p : ptr) : bool :=
  match getDeviceFromEntry p (devices (manager_ c)) with Some d => (dev_id d =? id)%nat | None => false end.

Definition remove_entry (id : nat) (p : ptr) : M Cache unit :=
  let! c := mget in
  if on_device id c p then
    mmodify (unlink_entry_from_dlist_ p) ;!
    let! ignore := map_remove (handle_of (devices (manager_ c)) p) p in
    mverify ignore
  else mret tt.

Definition remove_device_from_list_and_delete (l : list ptr) (id : nat) : M Cache unit := miter (remove_entry id) l.

Definition handles (c : Cache) : list Z := merge_sort Z.le (elements (dom (namespaces_ c))).

Definition offlineDevice (id : nat) : M Cache unit :=
  let! c := mget in
  if negb (existsb (fun d => dev_id d =? id)%nat (devices (manager_ c))) then mret tt
  else
    remove_device_from_list_and_delete (lru_ c) id ;!
    remove_device_from_list_and_delete (invalidated_entries_ c) id ;!
    miter (fun h => let! c := mget in
                    match find_namespace_ h c with
                    | Some n => remove_device_from_list_and_delete (lru n) id
                    | None => mret tt
                    end) (handles c) ;!
    removeDevice id.

Definition offlineDevice_path (mount_points : list (string * Z)) (path : string) : M Cache unit :=
  if negb (existsb (fun mp => bool_decide (fst mp = path)) mount_points) then mthrow MountPointNotConfigured
  else
    let! c := mget in
    match getDeviceFromPath path c with
    | Some d => offlineDevice (dev_id d)
    | None => mret tt
    end.

Definition onlineDevice (mount_points : list (string * Z)) (path : string) (opened : option (Z * Z)) : M Cache unit :=
  match List.find (fun mp => bool_decide (fst mp = path)) mount_points with
  | None => mthrow MountPointNotConfigured
  | Some mp => maybeAddDevice (fst mp) (snd mp) opened ;! mret tt
  end.

(** *** Clusters in and out *)

(** A write that is not complete leaves the cluster as it was, or with something. *)
Inductive transfer : Type := Complete | Short (rest : option (list Z)).

Definition transferred (w : transfer) (b : Z) (buf : list Z) (m : gmap Z (list Z)) : gmap Z (list Z) :=
  match w with
  | Complete => <[b := buf]> m
  | Short None => m
  | Short (Some rest) => <[b := rest]> m
  end.

Definition device_write (p : ptr) (buf : list Z) (w : transfer) : M Cache (option nat) :=
  let! c := mget in
  match getDeviceFromEntry p (devices (manager_ c)) with
  | None => mthrow VerifyFailed
  | Some d =>
      let! index := mlift (getIndex p d) in
      mmodify (fun c => let f := default no_file (files c !! file_ d) in
        with_files (<[file_ d := mkFile (guid f) (transferred w (block index) buf (clusters f))]> (files c)) c) ;!
      mret (match w with Complete => None | Short _ => Some (dev_id d) end)
  end.

(** An entry for a new key: from the namespace's own list when it is full, else an
    invalidated one, a free one, or the least recently used of all. *)
Definition recycle_own (handle : Z) (n : Namespace) : M Cache (option ptr) :=
  match last (lru n) with
  | None => mthrow VerifyFailed
  | Some p =>
      on_namespace handle (fun n => with_ns_lru (removelast (lru n)) n) ;!
      let! ignore := map_remove handle p in
      mverify ignore ;!
      mret (Some p)
  end.

Definition recycle_global : M Cache (option ptr) :=
  let! c := mget in
  match last (lru_ c) with
  | None => mret None
  | Some p =>
      mmodify (with_lru (removelast (lru_ c))) ;!
      let! ignore := map_remove (handle_of (devices (manager_ c)) p) p in
      mverify ignore ;!
      mret (Some p)
  end.

Definition or_else (a b : M Cache (option ptr)) : M Cache (option ptr) :=
  let! e := a in match e with Some p => mret (Some p) | None => b end.

Definition allocate (k : ClusterCacheKey) : M Cache (option ptr) :=
  or_else get_invalidated_cache_entry_ (or_else (manager_getNextFreeCluster k) recycle_global).

Definition store (handle : Z) (reinit : bool) (k : ClusterCacheKey) (p : ptr) (buf : list Z) (w : transfer) : M Cache unit :=
  let! c := mget in
  (match getDeviceFromEntry p (devices (manager_ c)) with Some _ => mret tt | None => mthrow VerifyFailed end) ;!
  (if reinit then
     mmodify (fun c => with_devices (set_entry p (mkCacheEntry k (get_cache_entry_mode handle)) (devices (manager_ c))) c) ;!
     map_insert handle p
   else mret tt) ;!
  let! n := namespace handle in
  (match max_entries n with
   | Some m => let! e := map_entries handle in mverify (e <=? m) ;! push_lru handle true p
   | None => push_lru handle false p
   end) ;!
  let! failed := device_write p buf w in
  match failed with
  | Some id => offlineDevice id
  | None => mret tt
  end.

Definition add_key (handle : Z) (k : ClusterCacheKey) (buf : list Z) (w : transfer) : M Cache unit :=
  mverify (Z.of_nat (length buf) =? cluster_size_) ;!
  let! n := namespace handle in
  let! found := map_find handle k in
  match found with
  | Some p =>
      if handle =? content_based_handle then mret tt
      else mmodify (unlink_entry_from_dlist_ p) ;! store handle false k p buf w
  | None =>
      let! e := map_entries handle in
      if match max_entries n with Some m => e =? m | None => false end then
        if bool_decide (max_entries n = Some 0) then mret tt
        else let! entry := recycle_own handle n in
             match entry with Some p => store handle true k p buf w | None => mret tt end
      else
        let! entry := allocate k in
        match entry with Some p => store handle true k p buf w | None => mret tt end
  end.

Definition null_weed : Z := 0.

Definition add (handle a weed : Z) (buf : list Z) (w : transfer) : M Cache unit :=
  if negb (handle =? content_based_handle) then add_key handle (of_location handle a) buf w
  else if negb (weed =? null_weed) then add_key handle (of_weed weed) buf w
  else mret tt.

Definition read_key (handle : Z) (k : ClusterCacheKey) (bufsize : Z) (complete : bool) : M Cache (option (list Z)) :=
  mverify (bufsize =? cluster_size_) ;!
  let! n := namespace handle in
  let! found := map_find handle k in
  match found with
  | None => mmodify (fun c => with_counts (num_hits c) (u64 (num_misses c + 1)) c) ;! mret None
  | Some p =>
      let! c := mget in
      match getDeviceFromEntry p (devices (manager_ c)) with
      | None => mthrow AssertFailed
      | Some d =>
          let! index := mlift (getIndex p d) in
          if complete then
            mmodify (fun c => with_counts (u64 (num_hits c + 1)) (num_misses c) c) ;!
            mmodify (unlink_entry_from_dlist_ p) ;!
            push_lru handle (bool_decide (is_Some (max_entries n))) p ;!
            mret (Some (default [] (clusters (default no_file (files c !! file_ d)) !! block index)))
          else
            offlineDevice (dev_id d) ;!
            mmodify (fun c => with_counts (num_hits c) (u64 (num_misses c + 1)) c) ;!
            mret None
      end
  end.

Definition read (handle a weed bufsize : Z) (complete : bool) : M Cache (option (list Z)) :=
  if negb (handle =? content_based_handle) then read_key handle (of_location handle a) bufsize complete
  else if negb (weed =? null_weed) then read_key handle (of_weed weed) bufsize complete
  else mmodify (fun c => with_counts (num_hits c) (u64 (num_misses c + 1)) c) ;! mret None.

Definition invalidate_key (handle : Z) (k : ClusterCacheKey) : M Cache unit :=
  if negb (handle =? content_based_handle) then
    let! entry := map_find handle k in
    match entry with
    | Some p =>
        map_remove handle p ;!
        mmodify (unlink_entry_from_dlist_ p) ;!
        mmodify (fun c => with_invalidated (invalidated_entries_ c ++ [p]) c)
    | None => mret tt
    end
  else mret tt.

Definition invalidate (handle a weed : Z) : M Cache unit :=
  invalidate_key handle (if negb (handle =? content_based_handle) then of_location handle a else of_weed weed).

(** *** Volumes and limits *)

(** All entries of a namespace become invalid, and it is gone. *)
Definition deregister_ (handle : Z) : M Cache unit :=
  let! c := mget in
  match find_namespace_ handle c with
  | None => mret tt
  | Some n =>
      miter (fun p => mmodify (unlink_entry_from_dlist_ p) ;! mmodify (fun c => with_invalidated (p :: invalidated_entries_ c) c)) (all (map n)) ;!
      mmodify (fun c => with_namespaces (delete handle (namespaces_ c)) c)
  end.

Definition registerVolume (otag : Z) (m : ClusterCacheMode) : M Cache Z :=
  mverify (negb (otag =? 0)) ;!
  let handle := match m with LocationBased => otag | ContentBased => 0 end in
  match m with ContentBased => deregister_ otag | LocationBased => mret tt end ;!
  maybe_create_namespace_ handle ;!
  mret handle.

Definition deregisterVolume (otag : Z) : M Cache unit :=
  mverify (negb (otag =? 0)) ;! deregister_ otag.

Definition remove_namespace (handle : Z) : M Cache unit :=
  if handle =? content_based_handle then mthrow InvalidClusterCacheOperation else deregister_ handle.

(** [int64_t surplus = entries - limit] *)
Definition s64 (z : Z) : Z := let u := u64 z in if u <? 2 ^ 63 then u else u - 2 ^ 64.

(** The least recently used entries of a namespace become invalid. *)
Fixpoint shrink (handle : Z) (surplus : nat) : M Cache unit :=
  match surplus with
  | O => mret tt
  | S k =>
      let! n := namespace handle in
      match last (lru n) with
      | None => mthrow VerifyFailed
      | Some p =>
          on_namespace handle (fun n => with_ns_lru (removelast (lru n)) n) ;!
          map_remove handle p ;!
          mmodify (fun c => with_invalidated (p :: invalidated_entries_ c) c) ;!
          shrink handle k
      end
  end.

(** The entries of a namespace that gets a limit go to a list of its own, the
    first ones of the map out. *)
Fixpoint impose (handle : Z) (es : list ptr) (surplus : nat) (to_invalidate : list ptr) : M Cache (list ptr) :=
  match es with
  | [] => mret to_invalidate
  | p :: es' =>
      mmodify (unlink_entry_from_dlist_ p) ;!
      match surplus with
      | S k => impose handle es' k (p :: to_invalidate)
      | O => on_namespace handle (fun n => with_ns_lru (p :: lru n) n) ;! impose handle es' 0 to_invalidate
      end
  end.

Definition invalidate_removed (handle : Z) (p : ptr) : M Cache unit :=
  let! ok := map_remove handle p in
  mverify ok ;!
  mmodify (fun c => with_invalidated (p :: invalidated_entries_ c) c).

Definition surplus_over (handle limit : Z) : M Cache nat :=
  let! e := map_entries handle in mret (Z.to_nat (s64 (e - limit))).

Definition verify_limit (handle limit : Z) : M Cache unit :=
  let! e := map_entries handle in mverify (e <=? limit).

Definition set_max_entries (handle : Z) (limit : option Z) : M Cache unit :=
  (if bool_decide (limit = Some 0) then mthrow InvalidClusterCacheConfig else mret tt) ;!
  let! n := find_namespace_or_throw_ handle in
  (match max_entries n, limit with
   | Some _, Some l =>
       let! surplus := surplus_over handle l in
       shrink handle surplus ;!
       verify_limit handle l
   | Some _, None =>
       mmodify (fun c => with_lru (lru_ c ++ lru n) c) ;! on_namespace handle (with_ns_lru [])
   | None, Some l =>
       mverify (length (lru n) =? 0)%nat ;!
       let! surplus := surplus_over handle l in
       let! to_invalidate := impose handle (all (map n)) surplus [] in
       miter (invalidate_removed handle) to_invalidate ;!
       verify_limit handle l
   | None, None => mverify (length (lru n) =? 0)%nat
   end) ;!
  let! c := mget in
  let! n := namespace handle in
  let! m := mlift (resize (key_of (devices (manager_ c)))
    (best_size average_entries_per_bin (match limit with Some l => l | None => totalSizeInEntries c end)) (map n)) in
  on_namespace handle (with_ns_map m) ;!
  on_namespace handle (with_max limit).

Definition get_max_entries (handle : Z) : M Cache (option Z) :=
  let! n := find_namespace_or_throw_ handle in mret (max_entries n).

Definition list_namespaces (c : Cache) : list Z := handles c.

(** hits, misses and entries *)
Definition get_stats (c : Cache) : res (Z * Z * Z) :=
  let? e := rfold (fun acc h => match find_namespace_ h c with
                                | Some n => let? k := entries (map n) in Ok (u64 (acc + k))
                                | None => Ok acc
                                end) 0 (handles c) in
  Ok (num_hits c, num_misses c, e).

(** The constructor, for a cache without a serialization to reinstate. *)
Definition empty_cache : Cache := mkCache (mkManager [] 0 true 0) ∅ [] [] 0 0 ∅ 0.

Definition create (mount_points : list (string * Z * option (Z * Z))) (fs : gmap Z File) : res Cache :=
  let '(c, r) := (miter (fun '(path, size, opened) => maybeAddDevice path size opened ;! mret tt) mount_points ;!
                  maybe_create_namespace_ content_based_handle) (with_files fs empty_cache) in
  let? _ := r in Ok c.
End Cache.
End ClusterCache.
