(* ===== verification/ClusterCacheFacts.v ===== *)
(** * The cluster cache: invariant and operations

    Every entry in a map is in the list that goes with its namespace, and conversely;
    invalidated entries are in no map; what an entry's cluster holds was added under
    its key.  All operations keep this. *)

From stdpp Require Import sorting.
From S2P Require Import Prelude ClusterCacheMap ClusterCacheMapFacts ClusterCache.

(** ** Addresses and lists *)
Module PtrFacts.
Import ClusterCacheKey ClusterCacheEntry ClusterCacheMap ClusterCacheDevice ClusterCache.

Lemma elem_without p q l : q ∈ without_ptr p l <-> q ∈ l /\ q <> p.
Proof. unfold without_ptr. rewrite elem_of_lfilter, negb_true_iff, bool_decide_eq_false. done. Qed.

Lemma NoDup_without p l : NoDup l -> NoDup (without_ptr p l).
Proof. intros H. eapply sublist_NoDup; [exact H|apply lfilter_sublist]. Qed.

Lemma without_absent p l : p ∉ l -> without_ptr p l = l.
Proof.
  intros Hp. unfold without_ptr. induction l as [|q l IH]; [done|]. apply not_elem_of_cons in Hp as [Hne Hp]. cbn.
  rewrite bool_decide_eq_false_2 by done. cbn. by rewrite IH.
Qed.

Lemma without_cons p l : NoDup (p :: l) -> without_ptr p (p :: l) = l.
Proof. intros [Hp _]%NoDup_cons. unfold without_ptr. cbn. rewrite bool_decide_eq_true_2 by done. cbn. by apply without_absent. Qed.

Lemma without_perm p l : p ∈ l -> NoDup l -> l ≡ₚ p :: without_ptr p l.
Proof.
  intros (l1 & l2 & ->)%list_elem_of_split Hnd. assert (p ∉ l1 ++ l2) as Hp.
  { apply NoDup_app in Hnd as (_ & H1 & [H2 _]%NoDup_cons). intros [H|H]%elem_of_app; [|done]. apply (H1 p H). left. }
  transitivity (p :: l1 ++ l2); [symmetry; apply Permutation_middle|]. constructor. apply not_elem_of_app in Hp as [Hp1 Hp2].
  unfold without_ptr. rewrite List.filter_app. cbn. rewrite bool_decide_eq_true_2 by done. cbn.
  fold (without_ptr p l1) (without_ptr p l2). by rewrite !without_absent.
Qed.

Lemma snoc_cases {A} (l : list A) : match last l with Some p => l = removelast l ++ [p] | None => l = [] end.
Proof. destruct l as [|x l _] using rev_ind; [done|]. by rewrite last_snoc, removelast_last. Qed.

Lemma hasEntry_spec p d : hasEntry p d = true <-> fst p = dev_id d /\ (snd p < length (memory_ d))%nat.
Proof. unfold hasEntry. by rewrite andb_true_iff, Nat.eqb_eq, Nat.ltb_lt. Qed.

Section Devices.
Implicit Types ds : list Device.

Lemma device_spec p ds d : getDeviceFromEntry p ds = Some d -> d ∈ ds /\ fst p = dev_id d /\ (snd p < length (memory_ d))%nat.
Proof. intros [Hd Hp]%find_some. apply list_elem_of_In in Hd. apply hasEntry_spec in Hp. done. Qed.

Lemma device_intro p ds d : NoDup (dev_id <$> ds) -> d ∈ ds -> fst p = dev_id d -> (snd p < length (memory_ d))%nat -> getDeviceFromEntry p ds = Some d.
Proof.
  intros Hnd Hd Hid Hlen. unfold getDeviceFromEntry. destruct (List.find (hasEntry p) ds) as [d'|] eqn:E.
  - apply device_spec in E as (Hd' & Hid' & _). f_equal. apply list_elem_of_lookup in Hd as [i Hi], Hd' as [j Hj].
    assert (i = j) as ->; [|congruence]. eapply NoDup_lookup; [exact Hnd| |]; rewrite list_lookup_fmap; [by rewrite Hi|]. rewrite Hj. cbn. congruence.
  - assert (hasEntry p d = true) as Hp by (by apply hasEntry_spec). apply list_elem_of_In in Hd.
    pose proof (List.find_none _ _ E _ Hd). congruence.
Qed.

Lemma entry_device p ds e : entry_at ds p = Some e -> exists d, getDeviceFromEntry p ds = Some d /\ memory_ d !! snd p = Some e.
Proof. unfold entry_at. destruct (getDeviceFromEntry p ds) as [d|]; [|done]. intros H. by exists d. Qed.

Lemma entry_valid p ds d : getDeviceFromEntry p ds = Some d -> is_Some (entry_at ds p).
Proof. intros H. unfold entry_at. rewrite H. cbn. apply device_spec in H as (_ & _ & H). by apply lookup_lt_is_Some. Qed.

(** The heap after an entry was written. *)
Lemma device_set p e ds q : getDeviceFromEntry q (set_entry p e ds) =
  (fun d => if hasEntry p d then mkDevice (dev_id d) (path_ d) (file_ d) (total_size_ d) (<[snd p := e]> (memory_ d)) else d) <$> getDeviceFromEntry q ds.
Proof.
  unfold getDeviceFromEntry, set_entry. induction ds as [|d ds IH]; [done|]. cbn.
  assert (forall x, hasEntry q (if hasEntry p d then mkDevice (dev_id d) (path_ d) (file_ d) (total_size_ d) (<[snd p := x]> (memory_ d)) else d) = hasEntry q d) as E.
  { intros x. destruct (hasEntry p d); [|done]. unfold hasEntry. cbn. by rewrite length_insert. }
  rewrite E. destruct (hasEntry q d); [done|]. apply IH.
Qed.

Lemma entry_set p e ds q : is_Some (entry_at ds p) -> entry_at (set_entry p e ds) q = if decide (q = p) then Some e else entry_at ds q.
Proof.
  intros [e0 He0]. unfold entry_at. rewrite device_set. destruct (getDeviceFromEntry q ds) as [d|] eqn:E; cbn.
  - destruct (device_spec _ _ _ E) as (_ & Hid & Hlen). destruct (hasEntry p d) eqn:Hp; cbn.
    + apply hasEntry_spec in Hp as [Hid' _]. destruct (decide (q = p)) as [->|Hne].
      * rewrite list_lookup_insert_eq by done. done.
      * rewrite list_lookup_insert_ne; [done|]. intros E'. apply Hne. destruct p, q. cbn in *. congruence.
    + destruct (decide (q = p)) as [->|Hne]; [|done]. exfalso.
      assert (hasEntry p d = true) by (by apply hasEntry_spec). congruence.
  - destruct (decide (q = p)) as [->|]; [|done]. apply entry_device in He0 as (d & E' & _). congruence.
Qed.

Lemma set_entry_ids p e ds : dev_id <$> set_entry p e ds = dev_id <$> ds.
Proof. unfold set_entry. rewrite <- list_fmap_compose. apply list_fmap_ext. intros i d _. cbn. by destruct (hasEntry p d). Qed.

Lemma set_entry_files p e ds : file_ <$> set_entry p e ds = file_ <$> ds.
Proof. unfold set_entry. rewrite <- list_fmap_compose. apply list_fmap_ext. intros i d _. cbn. by destruct (hasEntry p d). Qed.
End Devices.
End PtrFacts.

(** ** The invariant *)
Module CacheInv.
Import ClusterCacheKey ClusterCacheEntry ClusterCacheMap ClusterCacheDevice ClusterCache MapFacts PtrFacts.

Abbreviation devs c := (devices (manager_ c)).

Section Inv.
Variable cs : Z.

(** A namespace: its entries carry its handle, are there, and are in its own list if
    it has a limit and in the common one if not. *)
Record ns_ok (c : Cache) (h : Z) (n : Namespace) : Prop := mkNsOk {
  n_wf : wf (key_of (devs c)) (map n);
  n_handle : forall p, p ∈ all (map n) -> handle_of (devs c) p = h;
  n_valid : forall p, p ∈ all (map n) -> is_Some (entry_at (devs c) p);
  n_lists : match max_entries n with
    | Some m => lru n ≡ₚ all (map n) /\ Z.of_nat (length (all (map n))) <= m < 2 ^ 64
    | None => lru n = [] /\ forall p, p ∈ all (map n) -> p ∈ lru_ c
    end }.

Record dev_ok (d : Device) : Prop := mkDevOk {
  v_total : 0 <= total_size_ d < 2 ^ 64;
  v_multiple : total_size_ d mod cs = 0;
  v_memory : Z.of_nat (length (memory_ d)) * cs <= total_size_ d;
  v_index : total_size_ d / cs < 2 ^ 32 }.

Record inv (c : Cache) : Prop := mkInv {
  i_ids : NoDup (dev_id <$> devs c);
  i_drawn : forall d, d ∈ devs c -> (dev_id d < drawn c)%nat;
  i_files : NoDup (file_ <$> devs c);
  i_devs : forall d, d ∈ devs c -> dev_ok d;
  i_iterator : devs c <> [] -> (devices_iterator (manager_ c) < length (devs c))%nat;
  i_ns : forall h n, namespaces_ c !! h = Some n -> ns_ok c h n;
  i_lru : NoDup (lru_ c);
  i_lru_in : forall p, p ∈ lru_ c -> exists n, namespaces_ c !! handle_of (devs c) p = Some n /\ max_entries n = None /\ p ∈ all (map n);
  i_inval : NoDup (invalidated_entries_ c);
  i_inval_valid : forall p, p ∈ invalidated_entries_ c -> is_Some (entry_at (devs c) p);
  i_inval_out : forall p h n, p ∈ invalidated_entries_ c -> namespaces_ c !! h = Some n -> p ∉ all (map n) }.

Lemma all_NoDup (k : ptr -> ClusterCacheKey) m : wf k m -> NoDup (all m).
Proof. intros Hw. eapply NoDup_fmap_1, (wf_keys k m Hw). Qed.

(** An entry that is in use is in exactly one list. *)
Lemma unlink_mapped c h n p : inv c -> namespaces_ c !! h = Some n -> p ∈ all (map n) ->
  unlink_entry_from_dlist_ p c =
    match max_entries n with
    | Some _ => with_namespaces (<[h := with_ns_lru (without_ptr p (lru n)) n]> (namespaces_ c)) c
    | None => with_lru (without_ptr p (lru_ c)) c
    end.
Proof.
  intros Hi Hn Hp. pose proof (i_ns c Hi h n Hn) as Hok. pose proof (n_handle _ _ _ Hok p Hp) as Hh.
  assert (without_ptr p (invalidated_entries_ c) = invalidated_entries_ c) as E1.
  { apply without_absent. intros H. by eapply (i_inval_out c Hi p h n). }
  assert (forall h' n', namespaces_ c !! h' = Some n' -> h' <> h -> with_ns_lru (without_ptr p (lru n')) n' = n') as E2.
  { intros h' n' Hn' Hne. pose proof (i_ns c Hi h' n' Hn') as Hok'. destruct n' as [m' l' x']. unfold with_ns_lru. cbn in *. f_equal.
    apply without_absent. intros Hl. pose proof (n_lists _ _ _ Hok') as HL. cbn in HL. destruct x'; [|destruct HL as [-> _]; by apply elem_of_nil in Hl].
    destruct HL as [HL _]. rewrite HL in Hl. apply Hne. rewrite <- Hh. symmetry. by apply (n_handle _ _ _ Hok'). }
  pose proof (n_lists _ _ _ Hok) as HL. unfold unlink_entry_from_dlist_. rewrite E1. destruct (max_entries n) as [m|] eqn:Em.
  - assert (without_ptr p (lru_ c) = lru_ c) as ->.
    { apply without_absent. intros (n' & Hn' & Hm & _)%(i_lru_in c Hi). rewrite Hh, Hn in Hn'. congruence. }
    unfold with_namespaces. f_equal. apply map_eq. intros h'. rewrite lookup_fmap. destruct (decide (h' = h)) as [->|Hne].
    + by rewrite Hn, lookup_insert_eq.
    + rewrite lookup_insert_ne by done. destruct (namespaces_ c !! h') as [n'|] eqn:Hn'; [|done]. cbn. by rewrite (E2 h' n').
  - unfold with_lru. f_equal. apply map_eq. intros h'. rewrite lookup_fmap. destruct (namespaces_ c !! h') as [n'|] eqn:Hn'; [|done]. cbn. f_equal.
    destruct (decide (h' = h)) as [->|Hne]; [|by apply (E2 h')]. rewrite Hn in Hn'. injection Hn' as <-. destruct HL as [HL _].
    destruct n as [m l x]. unfold with_ns_lru. cbn in *. by subst l.
Qed.

(** The entry at the front of its list. *)
Definition touched (h : Z) (n : Namespace) (p : ptr) (c : Cache) : Cache :=
  match max_entries n with
  | Some _ => with_namespaces (<[h := with_ns_lru (p :: without_ptr p (lru n)) n]> (namespaces_ c)) c
  | None => with_lru (p :: without_ptr p (lru_ c)) c
  end.

Lemma touched_eq c h n p : inv c -> namespaces_ c !! h = Some n -> p ∈ all (map n) ->
  push_lru h (bool_decide (is_Some (max_entries n))) p (unlink_entry_from_dlist_ p c) = (touched h n p c, Ok tt).
Proof.
  intros Hi Hn Hp. rewrite (unlink_mapped c h n p) by done. unfold touched, push_lru. destruct (max_entries n) as [m|] eqn:E.
  - rewrite bool_decide_eq_true_2 by done. unfold on_namespace, mmodify, with_namespaces. cbn. do 2 f_equal.
    rewrite alter_insert_eq. done.
  - rewrite bool_decide_eq_false_2 by (by intros []). done.
Qed.

Lemma touched_inv c h n p : inv c -> namespaces_ c !! h = Some n -> p ∈ all (map n) -> inv (touched h n p c).
Proof.
  intros Hi Hn Hp. pose proof (i_ns c Hi h n Hn) as Hok. pose proof (n_lists _ _ _ Hok) as HL. unfold touched.
  pose proof (all_NoDup _ _ (n_wf _ _ _ Hok)) as Hnd. destruct Hi as [H1 H2 H3 H4 H5 H6 H7 H8 H9 H10 H11].
  destruct (max_entries n) as [m|] eqn:Em.
  - destruct HL as [HL Hm].
    assert (forall h' n', <[h := with_ns_lru (p :: without_ptr p (lru n)) n]> (namespaces_ c) !! h' = Some n' ->
      exists n0, namespaces_ c !! h' = Some n0 /\ map n' = map n0 /\ max_entries n' = max_entries n0 /\ (n' = n0 \/ n0 = n /\ lru n' = p :: without_ptr p (lru n))) as Hlk.
    { intros h' n' [(<- & <-)|[Hne Hn']]%lookup_insert_Some; [exists n; cbn; by split_and!; [..|right]|exists n'; by split_and!; [..|left]]. }
    split; try done; cbn [namespaces_ with_namespaces lru_ invalidated_entries_ manager_ drawn].
    + intros h' n' (n0 & Hn0 & Em' & Ex & HLr)%Hlk. destruct (H6 h' n0 Hn0) as [W1 W2 W3 W4]. split; rewrite ?Em', ?Ex; try done.
      destruct HLr as [->|[-> ->]]; [done|]. rewrite Em in W4 |- *. split; [|done].
      rewrite <- without_perm; [done|by rewrite HL|by rewrite HL].
    + intros q (n0 & Hn0 & Hx & Hq)%H8. destruct (decide (handle_of (devs c) q = h)) as [E|Hne].
      * rewrite E in Hn0. congruence.
      * exists n0. by rewrite lookup_insert_ne by done.
    + intros q h' n' Hq (n0 & Hn0 & -> & _)%Hlk. by eapply H11.
  - destruct HL as [HL Hin]. pose proof (Hin p Hp) as Hpl. pose proof (without_perm p (lru_ c) Hpl H7) as Hperm.
    split; try done; cbn [namespaces_ with_lru lru_ invalidated_entries_ manager_ drawn].
    + intros h' n' Hn'. destruct (H6 h' n' Hn') as [W1 W2 W3 W4]. split; try done. cbn [lru_ with_lru].
      destruct (max_entries n'); [done|]. destruct W4 as [? W4]. split; [done|]. intros q Hq. rewrite <- Hperm. by apply W4.
    + by rewrite <- Hperm.
    + intros q Hq. rewrite <- Hperm in Hq. by apply H8.
Qed.

(** ** Entries out of use *)

(** An entry that is in no map and in no list. *)
Record spare (c : Cache) (p : ptr) : Prop := mkSpare {
  sp_valid : is_Some (entry_at (devs c) p);
  sp_out : forall h n, namespaces_ c !! h = Some n -> p ∉ all (map n);
  sp_inval : p ∉ invalidated_entries_ c }.

Definition dropped (h : Z) (n : Namespace) (m' : ClusterCacheMap ptr) (p : ptr) (c : Cache) : Cache :=
  match max_entries n with
  | Some _ => with_namespaces (<[h := mkNamespace m' (without_ptr p (lru n)) (max_entries n)]> (namespaces_ c)) c
  | None => with_lru (without_ptr p (lru_ c)) (with_namespaces (<[h := with_ns_map m' n]> (namespaces_ c)) c)
  end.

Lemma dropped_inv c h n m' p : inv c -> namespaces_ c !! h = Some n -> p ∈ all (map n) ->
  wf (key_of (devs c)) m' -> all (map n) ≡ₚ p :: all m' -> inv (dropped h n m' p c) /\ spare (dropped h n m' p c) p.
Proof.
  intros Hi Hn Hp Hw Hperm. pose proof (i_ns c Hi h n Hn) as Hok. pose proof (n_lists _ _ _ Hok) as HL.
  pose proof (all_NoDup _ _ (n_wf _ _ _ Hok)) as Hnd. pose proof (n_handle _ _ _ Hok p Hp) as Hhp. pose proof (n_valid _ _ _ Hok p Hp) as Hvp.
  assert (p ∉ all m') as Hpm by (rewrite Hperm in Hnd; by apply NoDup_cons in Hnd as [? _]).
  assert (forall q, q ∈ all m' -> q ∈ all (map n) /\ q <> p) as Hsub.
  { intros q Hq. split; [rewrite Hperm; by right|by intros ->]. }
  assert (p ∉ invalidated_entries_ c) as Hpi by (intros H; by eapply (i_inval_out c Hi)).
  assert (forall h' n', namespaces_ c !! h' = Some n' -> h' <> h -> p ∉ all (map n')) as Hother.
  { intros h' n' Hn' Hne H. apply Hne. rewrite <- Hhp. symmetry. by apply (n_handle _ _ _ (i_ns c Hi h' n' Hn')). }
  destruct Hi as [H1 H2 H3 H4 H5 H6 H7 H8 H9 H10 H11]. destruct Hok as [W1 W2 W3 _]. unfold dropped. destruct (max_entries n) as [m|] eqn:Em.
  - destruct HL as [HL Hm]. split.
    + split; try done; cbn [namespaces_ with_namespaces lru_ invalidated_entries_ manager_ drawn].
      * intros h' n' [(<- & <-)|[Hne Hn']]%lookup_insert_Some.
        -- split; cbn [map max_entries lru]; try done.
           ++ intros q [Hq _]%Hsub. by apply W2.
           ++ intros q [Hq _]%Hsub. by apply W3.
           ++ split; [|rewrite Hperm in Hm; cbn [length] in Hm; lia]. apply (Permutation_cons_inv (a := p)).
              rewrite <- without_perm; [by rewrite HL|by rewrite HL|by rewrite HL].
        -- destruct (H6 h' n' Hn') as [? ? ? ?]. by split.
      * intros q (n0 & Hn0 & Hx & Hq)%H8. exists n0. rewrite lookup_insert_ne; [done|]. intros E. rewrite <- E, Hn in Hn0. congruence.
      * intros q h' n' Hq [(<- & <-)|[Hne Hn']]%lookup_insert_Some; cbn [map]; [|by eapply H11]. intros [Hq' _]%Hsub. by eapply (H11 q h n).
    + split; cbn; [done| |done]. intros h' n' [(<- & <-)|[Hne Hn']]%lookup_insert_Some; [done|]. by eapply Hother.
  - destruct HL as [HL Hin]. split.
    + split; try done; cbn [namespaces_ with_namespaces with_lru lru_ invalidated_entries_ manager_ drawn].
      * intros h' n' [(<- & <-)|[Hne Hn']]%lookup_insert_Some.
        -- split; cbn [map max_entries lru with_ns_map]; try done.
           ++ intros q [Hq _]%Hsub. by apply W2.
           ++ intros q [Hq _]%Hsub. by apply W3.
           ++ rewrite Em. split; [done|]. intros q [Hq Hne]%Hsub. apply elem_without. split; [by apply Hin|done].
        -- destruct (H6 h' n' Hn') as [? ? ? W4]. split; try done. cbn [lru_ with_lru]. destruct (max_entries n'); [done|]. destruct W4 as [? W4]. split; [done|].
           intros q Hq. apply elem_without. split; [by apply W4|]. intros ->. by eapply Hother.
      * by apply NoDup_without.
      * intros q [Hq Hne]%elem_without. destruct (H8 q Hq) as (n0 & Hn0 & Hx & Hq0). destruct (decide (handle_of (devs c) q = h)) as [E|Hnh].
        -- rewrite E in Hn0 |- *. rewrite Hn in Hn0. injection Hn0 as <-. exists (with_ns_map m' n). rewrite lookup_insert_eq. split_and!; [done|done|]. cbn.
           rewrite Hperm in Hq0. by apply elem_of_cons in Hq0 as [?|?].
        -- exists n0. by rewrite lookup_insert_ne by done.
      * intros q h' n' Hq [(<- & <-)|[Hne Hn']]%lookup_insert_Some; cbn [map with_ns_map]; [|by eapply H11]. intros [Hq' _]%Hsub. by eapply (H11 q h n).
    + split; cbn; [done| |done]. intros h' n' [(<- & <-)|[Hne Hn']]%lookup_insert_Some; [done|]. by eapply Hother.
Qed.

Lemma invalidated_inv c p l : inv c -> spare c p -> l ≡ₚ p :: invalidated_entries_ c -> inv (with_invalidated l c).
Proof.
  intros [H1 H2 H3 H4 H5 H6 H7 H8 H9 H10 H11] [S1 S2 S3] Hl. split; try done; cbn [namespaces_ with_invalidated lru_ invalidated_entries_ manager_ drawn].
  - intros h n Hn. by destruct (H6 h n Hn).
  - rewrite Hl. by constructor.
  - intros q Hq. rewrite Hl in Hq. apply elem_of_cons in Hq as [->|Hq]; [done|by apply H10].
  - intros q h n Hq Hn. rewrite Hl in Hq. apply elem_of_cons in Hq as [->|Hq]; [by eapply S2|by eapply H11].
Qed.

Lemma popped_inv c l p : inv c -> invalidated_entries_ c ≡ₚ p :: l -> inv (with_invalidated l c) /\ spare (with_invalidated l c) p.
Proof.
  intros [H1 H2 H3 H4 H5 H6 H7 H8 H9 H10 H11] Hl.
  assert (forall q, q ∈ l -> q ∈ invalidated_entries_ c) as Hsub by (intros q Hq; rewrite Hl; by right).
  assert (p ∈ invalidated_entries_ c) as Hp by (rewrite Hl; left). rewrite Hl in H9. apply NoDup_cons in H9 as [Hpl H9]. split.
  - split; try done; cbn [namespaces_ with_invalidated lru_ invalidated_entries_ manager_ drawn].
    + intros h n Hn. by destruct (H6 h n Hn).
    + intros q Hq. by apply H10, Hsub.
    + intros q h n Hq. by apply H11, Hsub.
  - split; [by apply H10| |done]. intros h n. by apply H11.
Qed.
End Inv.
End CacheInv.

(** ** Taking entries out of use *)
Module CacheSteps.
Import ClusterCacheKey ClusterCacheEntry ClusterCacheMap ClusterCacheDevice ClusterCache MapFacts PtrFacts CacheInv.

Lemma alter_some {V} (f : V -> V) (i : Z) (m : gmap Z V) x : m !! i = Some x -> alter f i m = <[i := f x]> m.
Proof. intros H. apply map_eq. intros j. destruct (decide (j = i)) as [->|]; [by rewrite lookup_alter_eq, H, lookup_insert_eq|by rewrite lookup_alter_ne, lookup_insert_ne by done]. Qed.

Lemma without_snoc p (l : list ptr) : NoDup (l ++ [p]) -> without_ptr p (l ++ [p]) = l.
Proof.
  intros Hnd. unfold without_ptr. rewrite List.filter_app. cbn. rewrite bool_decide_eq_true_2 by done. cbn. rewrite app_nil_r.
  apply without_absent. apply NoDup_app in Hnd as (_ & H & _). intros Hp. apply (H p Hp). left.
Qed.

Lemma map_remove_eq c h n p : namespaces_ c !! h = Some n -> wf (key_of (devs c)) (map n) -> p ∈ all (map n) ->
  exists m', map_remove h p c = (with_namespaces (<[h := with_ns_map m' n]> (namespaces_ c)) c, Ok true) /\
    wf (key_of (devs c)) m' /\ all (map n) ≡ₚ p :: all m'.
Proof.
  intros Hn Hw Hp. destruct (remove_spec _ p _ Hw Hp) as (m' & E & Hw' & Hperm). exists m'. split; [|done].
  unfold map_remove, namespace, find_namespace_, mbind, mget, mret, mlift, on_namespace, mmodify. rewrite Hn, E. cbn. by rewrite (alter_some _ _ _ n Hn).
Qed.

Section Steps.
Variable cs : Z.
Abbreviation inv := (inv cs).

(** The entry [p] of namespace [h] goes. *)
Definition drops (c : Cache) (h : Z) (p : ptr) (c' : Cache) : Prop := exists n m', namespaces_ c !! h = Some n /\ p ∈ all (map n) /\
  c' = dropped h n m' p c /\ wf (key_of (devs c)) m' /\ all (map n) ≡ₚ p :: all m'.

Lemma drops_inv c h p c' : inv c -> drops c h p c' -> inv c' /\ spare c' p.
Proof. intros Hi (n & m' & Hn & Hp & -> & Hw & Hperm). by apply dropped_inv. Qed.

Lemma recycle_own_runs c h n m : inv c -> namespaces_ c !! h = Some n -> max_entries n = Some m -> lru n <> [] ->
  exists p c', recycle_own h n c = (c', Ok (Some p)) /\ drops c h p c'.
Proof.
  intros Hi Hn Hm Hne. pose proof (i_ns _ c Hi h n Hn) as Hok. pose proof (n_lists _ _ _ Hok) as HL. rewrite Hm in HL. destruct HL as [HL _].
  pose proof (snoc_cases (lru n)) as Hs. unfold recycle_own. destruct (last (lru n)) as [p|]; [|done].
  assert (p ∈ all (map n)) as Hp by (rewrite <- HL, Hs; apply elem_of_app; right; left).
  pose proof (all_NoDup _ _ (n_wf _ _ _ Hok)) as Hnd. rewrite <- HL, Hs in Hnd. apply without_snoc in Hnd. rewrite <- Hs in Hnd.
  unfold mbind, on_namespace, mmodify. rewrite (alter_some _ _ _ n Hn).
  set (c1 := with_namespaces (<[h := with_ns_lru (removelast (lru n)) n]> (namespaces_ c)) c).
  destruct (map_remove_eq c1 h (with_ns_lru (removelast (lru n)) n) p) as (m' & -> & Hw & Hperm); [apply lookup_insert_eq|apply Hok|done|].
  cbn. eexists p, _. split; [done|]. exists n, m'. split_and!; [done|done| |done|done].
  unfold dropped, c1, with_namespaces, with_ns_map, with_ns_lru. cbn. by rewrite insert_insert_eq, Hm, Hnd.
Qed.

Lemma recycle_global_runs c : inv c -> exists o c', recycle_global c = (c', Ok o) /\
  match o with Some p => drops c (handle_of (devs c) p) p c' | None => c' = c end.
Proof.
  intros Hi. unfold recycle_global, mbind at 1, mget. pose proof (snoc_cases (lru_ c)) as Hs. destruct (last (lru_ c)) as [p|].
  2: { by eexists None, c. }
  assert (p ∈ lru_ c) as Hp by (rewrite Hs; apply elem_of_app; right; left).
  pose proof (i_lru _ c Hi) as Hnd. rewrite Hs in Hnd. apply without_snoc in Hnd. rewrite <- Hs in Hnd.
  destruct (i_lru_in _ c Hi p Hp) as (n & Hn & Hm & Hpm). pose proof (i_ns _ c Hi _ n Hn) as Hok.
  unfold mbind, mmodify. set (c1 := with_lru (removelast (lru_ c)) c).
  destruct (map_remove_eq c1 _ n p Hn (n_wf _ _ _ Hok) Hpm) as (m' & -> & Hw & Hperm). cbn. eexists (Some p), _. split; [done|].
  exists n, m'. split_and!; [done|done| |done|done]. unfold dropped, c1, with_lru, with_namespaces. rewrite Hm. cbn. by rewrite Hnd.
Qed.

Lemma unlink_devs c p : devs (unlink_entry_from_dlist_ p c) = devs c.
Proof. done. Qed.

(** Unlinked, then removed from the map. *)
Lemma unlink_remove_runs c h n p : inv c -> namespaces_ c !! h = Some n -> p ∈ all (map n) ->
  exists c', map_remove h p (unlink_entry_from_dlist_ p c) = (c', Ok true) /\ drops c h p c'.
Proof.
  intros Hi Hn Hp. pose proof (i_ns _ c Hi h n Hn) as Hok. rewrite (unlink_mapped cs c h n p) by done.
  destruct (max_entries n) as [m|] eqn:Em.
  - destruct (map_remove_eq (with_namespaces (<[h := with_ns_lru (without_ptr p (lru n)) n]> (namespaces_ c)) c) h (with_ns_lru (without_ptr p (lru n)) n) p)
      as (m' & -> & Hw & Hperm); [apply lookup_insert_eq|apply Hok|done|]. eexists. split; [done|]. exists n, m'. split_and!; try done.
    unfold dropped, with_namespaces, with_ns_map, with_ns_lru. cbn. by rewrite insert_insert_eq, Em.
  - destruct (map_remove_eq (with_lru (without_ptr p (lru_ c)) c) h n p Hn (n_wf _ _ _ Hok) Hp) as (m' & -> & Hw & Hperm).
    eexists. split; [done|]. exists n, m'. split_and!; try done. unfold dropped. by rewrite Em.
Qed.

Lemma remove_entry_runs c p h n id : inv c -> namespaces_ c !! h = Some n -> p ∈ all (map n) -> on_device id c p = true ->
  exists c', remove_entry id p c = (c', Ok tt) /\ drops c h p c'.
Proof.
  intros Hi Hn Hp Hd. destruct (unlink_remove_runs c h n p Hi Hn Hp) as (c' & E & Hdr). exists c'. split; [|done].
  unfold remove_entry, mbind, mget. rewrite Hd. unfold mmodify. rewrite (n_handle _ _ _ (i_ns _ c Hi h n Hn) p Hp), E. done.
Qed.
End Steps.
End CacheSteps.

(** ** What the clusters hold *)
Module CacheData.
Import ClusterCacheKey ClusterCacheEntry ClusterCacheMap ClusterCacheDevice ClusterCache MapFacts PtrFacts CacheInv CacheSteps.

Definition content (c : Cache) (p : ptr) : option (list Z) :=
  getDeviceFromEntry p (devs c) ≫= fun d => clusters (default no_file (files c !! file_ d)) !! block (Z.of_nat (snd p)).

(** What was put into the cache: by location the last cluster since it was
    invalidated, by content all of them. *)
Record Spec : Type := mkSpec {
  latest : Z -> ClusterCacheKey -> option (list Z);
  contents : list (ClusterCacheKey * list Z) }.

Definition allowed (A : Spec) (h : Z) (k : ClusterCacheKey) (d : list Z) : Prop :=
  if h =? content_based_handle then (k, d) ∈ contents A else latest A h k = Some d.

Definition spec_empty : Spec := mkSpec (fun _ _ => None) [].
Definition spec_add (h : Z) (k : ClusterCacheKey) (d : list Z) (A : Spec) : Spec :=
  if h =? content_based_handle then mkSpec (latest A) ((k, d) :: contents A)
  else mkSpec (fun h' k' => if (h' =? h) && eqb k' k then Some d else latest A h' k') (contents A).
Definition spec_invalidate (h : Z) (k : ClusterCacheKey) (A : Spec) : Spec :=
  mkSpec (fun h' k' => if (h' =? h) && eqb k' k then None else latest A h' k') (contents A).
Definition spec_deregister (h : Z) (A : Spec) : Spec :=
  mkSpec (fun h' k' => if h' =? h then None else latest A h' k') (contents A).

(** Every entry in use, except those of [x], has the cluster of its key. *)
Definition holds (A : Spec) (x : ptr -> Prop) (c : Cache) : Prop :=
  forall h n p, namespaces_ c !! h = Some n -> p ∈ all (map n) -> ~ x p -> exists d, content c p = Some d /\ allowed A h (key_of (devs c) p) d.

Lemma holds_sub A x c c' : (forall h n' p, namespaces_ c' !! h = Some n' -> p ∈ all (map n') -> ~ x p ->
    exists n, namespaces_ c !! h = Some n /\ p ∈ all (map n) /\ content c' p = content c p /\ key_of (devs c') p = key_of (devs c) p) ->
  holds A x c -> holds A x c'.
Proof. intros Hs H h n' p Hn Hp Hx. destruct (Hs h n' p Hn Hp Hx) as (n & Hn0 & Hp0 & -> & ->). by eapply H. Qed.

Section Data.
Variable cs : Z.
Hypothesis Hcs : 0 < cs.
Abbreviation inv := (inv cs).

Lemma drops_frame c h p c' : drops c h p c' -> devs c' = devs c /\ files c' = files c /\ manager_ c' = manager_ c /\ drawn c' = drawn c /\
  invalidated_entries_ c' = invalidated_entries_ c /\
  (forall h' n', namespaces_ c' !! h' = Some n' -> exists n, namespaces_ c !! h' = Some n /\ max_entries n' = max_entries n /\
    (forall q, q ∈ all (map n') -> q ∈ all (map n)) /\ (length (all (map n')) <= length (all (map n)))%nat /\
    (h' = h -> length (all (map n)) = S (length (all (map n')))) /\ (forall q, q ∈ lru n' -> q ∈ lru n)) /\
  (forall h', is_Some (namespaces_ c !! h') -> is_Some (namespaces_ c' !! h')) /\ (forall q, q ∈ lru_ c' -> q ∈ lru_ c).
Proof.
  intros (n & m' & Hn & Hp & -> & Hw & Hperm). unfold dropped.
  assert (forall q, q ∈ all m' -> q ∈ all (map n)) as Hsub by (intros q Hq; rewrite Hperm; by right).
  pose proof (Permutation_length Hperm) as Hlen. cbn [length] in Hlen.
  destruct (max_entries n) as [m|] eqn:Em; cbn; (split; [done|]); (split; [done|]); (split; [done|]); (split; [done|]); (split; [done|]); (split; [|split]).
  - intros h' n' [(<- & <-)|[Hne Hn']]%lookup_insert_Some; cbn.
    + exists n. split_and!; [done|done|done|lia|lia|]. by intros q [? _]%elem_without.
    + exists n'. split_and!; [done|done|done|lia|done|done].
  - intros h' [n' Hn']. destruct (decide (h' = h)) as [->|]; [rewrite lookup_insert_eq; by eexists|rewrite lookup_insert_ne by done; by eexists].
  - done.
  - intros h' n' [(<- & <-)|[Hne Hn']]%lookup_insert_Some; cbn.
    + exists n. split_and!; [done|done|done|lia|lia|done].
    + exists n'. split_and!; [done|done|done|lia|done|done].
  - intros h' [n' Hn']. destruct (decide (h' = h)) as [->|]; [rewrite lookup_insert_eq; by eexists|rewrite lookup_insert_ne by done; by eexists].
  - by intros q [? _]%elem_without.
Qed.

Lemma drops_holds A x c h p c' : drops c h p c' -> holds A x c -> holds A x c'.
Proof.
  intros Hd. destruct (drops_frame _ _ _ _ Hd) as (E1 & E2 & _ & _ & _ & Hns & _). apply holds_sub. intros h' n' q Hn' Hq _.
  destruct (Hns h' n' Hn') as (n & Hn & _ & Hsub & _). exists n. unfold content. rewrite E1, E2. split_and!; [done|by apply Hsub|done|done].
Qed.

(** A namespace that is to get an entry for the key [k], which it has not; [W] says
    that nothing needs to be known of the invalidated entries. *)
Variable W : Prop.
Record pending (A : Spec) (x : ptr -> Prop) (h : Z) (k : ClusterCacheKey) (mx : option Z) (c : Cache) : Prop := mkPending {
  p_inv : inv c;
  p_holds : holds A x c;
  p_ns : exists n, namespaces_ c !! h = Some n /\ max_entries n = mx /\ (forall q, q ∈ all (map n) -> key_of (devs c) q <> k) /\
    (forall m, mx = Some m -> Z.of_nat (length (all (map n))) < m);
  p_clean : W \/ invalidated_entries_ c = [] }.

Definition given (A : Spec) (x : ptr -> Prop) (h : Z) (k : ClusterCacheKey) (mx : option Z) (o : option ptr) (c : Cache) : Prop :=
  pending A x h k mx c /\ match o with Some p => spare c p | None => True end.

Lemma drops_pending A x h k mx c h' p c' : pending A x h k mx c -> drops c h' p c' -> pending A x h k mx c' /\ spare c' p.
Proof.
  intros [Hi Hh (n & Hn & Hm & Hk & Hl) Hcl] Hd. destruct (drops_inv cs c h' p c' Hi Hd) as [Hi' Hs]. split; [|done].
  pose proof (drops_holds A x _ _ _ _ Hd Hh) as Hh'. destruct (drops_frame _ _ _ _ Hd) as (E1 & E2 & _ & _ & E5 & Hns & Hdom & _).
  split; [done|done| |by rewrite E5]. destruct (Hdom h) as [n' Hn']; [by eexists|]. exists n'. destruct (Hns h n' Hn') as (n0 & Hn0 & Hm0 & Hsub & Hle & _).
  rewrite Hn in Hn0. injection Hn0 as <-. rewrite E1. split_and!; [done|congruence|intros q Hq; by apply Hk, Hsub|].
  intros m Em. pose proof (Hl m Em). lia.
Qed.

Lemma invalidated_runs A x h k mx c : pending A x h k mx c -> runs get_invalidated_cache_entry_ c (given A x h k mx).
Proof.
  intros [Hi Hh Hn Hcl]. unfold get_invalidated_cache_entry_. apply runs_bind, runs_get. pose proof (snoc_cases (invalidated_entries_ c)) as Hs.
  destruct (last (invalidated_entries_ c)) as [p|].
  - apply runs_bind, runs_modify, runs_ret. destruct (popped_inv cs c (removelast (invalidated_entries_ c)) p Hi) as [Hi' Hsp].
    { rewrite Hs at 1. symmetry. apply Permutation_cons_append. }
    split; [|done]. split; [done|exact Hh|exact Hn|]. destruct Hcl as [?|E]; [by left|]. rewrite E in Hs. by destruct (removelast _).
  - apply runs_ret. by split.
Qed.

(** Other devices, as long as the entries in use stay. *)
Definition used (c : Cache) (q : ptr) : Prop := q ∈ invalidated_entries_ c \/ exists h n, namespaces_ c !! h = Some n /\ q ∈ all (map n).

Definition rebased (m : Manager) (fs : gmap Z File) (dr : nat) (c : Cache) : Cache :=
  mkCache m (namespaces_ c) (invalidated_entries_ c) (lru_ c) (num_hits c) (num_misses c) fs dr.

Record devices_ok (m : Manager) (dr : nat) : Prop := mkDevicesOk {
  o_ids : NoDup (dev_id <$> devices m);
  o_drawn : forall d, d ∈ devices m -> (dev_id d < dr)%nat;
  o_files : NoDup (file_ <$> devices m);
  o_devs : forall d, d ∈ devices m -> dev_ok cs d;
  o_iterator : devices m <> [] -> (devices_iterator m < length (devices m))%nat }.

Lemma inv_devices c : inv c -> devices_ok (manager_ c) (drawn c).
Proof. intros Hi. split; apply Hi. Qed.

Lemma rebased_inv c m fs dr : inv c -> devices_ok m dr -> (forall q, used c q -> entry_at (devices m) q = entry_at (devs c) q) -> inv (rebased m fs dr c).
Proof.
  intros [H1 H2 H3 H4 H5 H6 H7 H8 H9 H10 H11] [D1 D2 D3 D4 D5] Hu.
  assert (forall h n q, namespaces_ c !! h = Some n -> q ∈ all (map n) -> entry_at (devices m) q = entry_at (devs c) q) as Hm.
  { intros h n q Hn Hq. apply Hu. right. by exists h, n. }
  split; try done; cbn [rebased manager_ namespaces_ invalidated_entries_ lru_ drawn].
  - intros h n Hn. destruct (H6 h n Hn) as [W1 W2 W3 W4]. split; cbn [rebased manager_ lru_]; [| | |done].
    + apply (wf_ext (key_of (devs c))); [|done]. intros p Hp. unfold key_of. by rewrite (Hm h n).
    + intros p Hp. rewrite <- (W2 p Hp). unfold handle_of, mode_of, key_of. by rewrite (Hm h n).
    + intros p Hp. rewrite (Hm h n) by done. by apply W3.
  - intros p Hp. destruct (H8 p Hp) as (n & Hn & Hx & Hin). exists n.
    replace (handle_of (devices m) p) with (handle_of (devs c) p); [done|]. unfold handle_of, mode_of, key_of. by rewrite (Hm _ _ _ Hn Hin).
  - intros p Hp. rewrite Hu by (by left). by apply H10.
Qed.

Lemma rebased_holds A x c m fs dr : (forall h n q, namespaces_ c !! h = Some n -> q ∈ all (map n) -> entry_at (devices m) q = entry_at (devs c) q) ->
  (forall h n q, namespaces_ c !! h = Some n -> q ∈ all (map n) -> ~ x q -> content (rebased m fs dr c) q = content c q) ->
  holds A x c -> holds A x (rebased m fs dr c).
Proof.
  intros Hu Hc. apply holds_sub. intros h n q Hn Hq Hx. exists n. split_and!; [done|done|by apply (Hc h n)|].
  unfold key_of. cbn [rebased manager_]. by rewrite (Hu h n).
Qed.

Lemma used_valid c q : inv c -> used c q -> is_Some (entry_at (devs c) q).
Proof. intros Hi [H|(h & n & Hn & H)]; [by apply (i_inval_valid _ c Hi)|by apply (n_valid _ _ _ (i_ns _ c Hi h n Hn))]. Qed.

(** One more entry in the memory of a device. *)
Lemma push_device k d : dev_id (getNextFreeCluster k d) = dev_id d /\ file_ (getNextFreeCluster k d) = file_ d.
Proof. done. Qed.

Lemma push_lookup ds i d k q : NoDup (dev_id <$> ds) -> ds !! i = Some d -> is_Some (entry_at ds q) ->
  entry_at (<[i := getNextFreeCluster k d]> ds) q = entry_at ds q /\
  file_ <$> getDeviceFromEntry q (<[i := getNextFreeCluster k d]> ds) = file_ <$> getDeviceFromEntry q ds.
Proof.
  intros Hnd Hi [e He]. apply entry_device in He as (d0 & E0 & He0). destruct (device_spec _ _ _ E0) as (Hd0 & Hid & Hlen).
  assert (dev_id <$> <[i := getNextFreeCluster k d]> ds = dev_id <$> ds) as Eids.
  { rewrite list_fmap_insert. cbn. apply list_insert_id. by rewrite list_lookup_fmap, Hi. }
  apply list_elem_of_lookup in Hd0 as [j Hj]. destruct (decide (j = i)) as [->|Hne].
  - rewrite Hi in Hj. injection Hj as <-.
    assert (getDeviceFromEntry q (<[i := getNextFreeCluster k d]> ds) = Some (getNextFreeCluster k d)) as E.
    { apply device_intro; [by rewrite Eids| |done|cbn; rewrite length_app; cbn; lia].
      apply (list_elem_of_lookup_2 _ i), list_lookup_insert_eq. by apply lookup_lt_Some in Hi. }
    unfold entry_at. rewrite E, E0. cbn. by rewrite lookup_app_l by lia.
  - assert (getDeviceFromEntry q (<[i := getNextFreeCluster k d]> ds) = Some d0) as E.
    { apply device_intro; [by rewrite Eids| |done|done]. apply (list_elem_of_lookup_2 _ j). by rewrite list_lookup_insert_ne. }
    unfold entry_at. by rewrite E, E0.
Qed.

Lemma has_room_spec d : dev_ok cs d -> has_room cs d = true -> (Z.of_nat (length (memory_ d)) + 1) * cs <= total_size_ d.
Proof.
  intros [V1 V2 V3 V4]. unfold has_room. rewrite Z.ltb_lt. unfold wrap. rewrite Z.mod_small by (split; [apply Z.mul_nonneg_nonneg; lia|lia]). intros Hr.
  pose proof (Z.div_mod (total_size_ d) cs ltac:(lia)) as Hd. rewrite V2, Z.add_0_r in Hd. rewrite Hd in Hr |- *.
  rewrite (Z.mul_comm cs) in Hr |- *. apply Z.mul_lt_mono_pos_r in Hr; [|done]. apply Z.mul_le_mono_nonneg_r; lia.
Qed.

Lemma runs_mverify b (c : Cache) (Q : unit -> Cache -> Prop) : b = true -> Q tt c -> runs (mverify b) c Q.
Proof. intros -> HQ. by apply runs_ret. Qed.

Lemma rebased_pending A x h k mx c m fs dr : pending A x h k mx c -> devices_ok m dr ->
  (forall q, used c q -> entry_at (devices m) q = entry_at (devs c) q) ->
  (forall q, used c q -> ~ x q -> content (rebased m fs dr c) q = content c q) -> pending A x h k mx (rebased m fs dr c).
Proof.
  intros [Hi Hh (n & Hn & Hm & Hk & Hl) Hcl] Hd Hu Hc.
  assert (forall h n q, namespaces_ c !! h = Some n -> q ∈ all (map n) -> used c q) as Hmu by (intros h' n' q ? ?; right; by exists h', n').
  split; [by apply rebased_inv| | |done].
  - apply rebased_holds; [|intros; by apply Hc; [eapply Hmu|]|done]. intros h' n' q Hn' Hq. apply Hu. by eapply Hmu.
  - exists n. split_and!; try done. intros q Hq. unfold key_of. cbn [rebased manager_]. rewrite Hu by (by eapply Hmu). by apply Hk.
Qed.

(** The device that gets the entry, and the entry. *)
Lemma free_device_ok c i d k it b : inv c -> devs c !! i = Some d -> has_room cs d = true -> (it < length (devs c))%nat ->
  devices_ok (mkManager (<[i := getNextFreeCluster k d]> (devs c)) it b (uuid_ (manager_ c))) (drawn c) /\
  (forall q, used c q -> entry_at (<[i := getNextFreeCluster k d]> (devs c)) q = entry_at (devs c) q) /\
  entry_at (<[i := getNextFreeCluster k d]> (devs c)) (dev_id d, length (memory_ d)) = Some (mkCacheEntry k ContentBased) /\
  ~ used c (dev_id d, length (memory_ d)).
Proof.
  intros Hi Hd Hroom Hit. pose proof (list_elem_of_lookup_2 _ _ _ Hd) as Hin.
  assert (dev_id <$> <[i := getNextFreeCluster k d]> (devs c) = dev_id <$> devs c) as Eids.
  { rewrite list_fmap_insert. cbn. apply list_insert_id. by rewrite list_lookup_fmap, Hd. }
  assert (file_ <$> <[i := getNextFreeCluster k d]> (devs c) = file_ <$> devs c) as Efs.
  { rewrite list_fmap_insert. cbn. apply list_insert_id. by rewrite list_lookup_fmap, Hd. }
  split_and!.
  - split; cbn [devices devices_iterator].
    + rewrite Eids. apply Hi.
    + intros d' [j [(<- & <- & _)|[_ Hj]]%list_lookup_insert_Some]%list_elem_of_lookup; [by apply (i_drawn _ c Hi d)|].
      apply (i_drawn _ c Hi d'). by eapply list_elem_of_lookup_2.
    + rewrite Efs. apply Hi.
    + intros d' [j [(<- & <- & _)|[_ Hj]]%list_lookup_insert_Some]%list_elem_of_lookup; [|apply (i_devs _ c Hi d'); by eapply list_elem_of_lookup_2].
      pose proof (i_devs _ c Hi d Hin) as Hok. pose proof (has_room_spec d Hok Hroom). destruct Hok as [? ? ? ?]. split; try done. cbn.
      rewrite length_app. cbn. lia.
    + intros _. by rewrite length_insert.
  - intros q Hq. apply push_lookup; [apply Hi|done|by apply used_valid].
  - unfold entry_at. erewrite device_intro; [|by rewrite Eids; apply Hi|apply (list_elem_of_lookup_2 _ i), list_lookup_insert_eq; by apply lookup_lt_Some in Hd|done|].
    + cbn. rewrite lookup_app_r, Nat.sub_diag by done. done.
    + cbn. rewrite length_app. cbn. lia.
  - intros [e He]%(used_valid c _ Hi). apply entry_device in He as (d' & E & _). apply device_spec in E as (Hd' & Hid & Hlen). cbn in *.
    assert (d' = d) as ->; [|lia]. apply list_elem_of_lookup in Hd' as [j Hj]. assert (j = i) as ->; [|congruence].
    eapply NoDup_lookup; [apply (i_ids _ c Hi)| |]; rewrite list_lookup_fmap; [by rewrite Hj|]. rewrite Hd. cbn. by rewrite Hid.
Qed.

Lemma content_file c c' q : files c' = files c -> file_ <$> getDeviceFromEntry q (devs c') = file_ <$> getDeviceFromEntry q (devs c) -> content c' q = content c q.
Proof.
  unfold content. intros -> E. destruct (getDeviceFromEntry q (devs c')), (getDeviceFromEntry q (devs c)); cbn in *; try done. by injection E as ->.
Qed.

Lemma free_runs A x h k mx c k0 : pending A x h k mx c -> runs (manager_getNextFreeCluster cs k0) c (given A x h k mx).
Proof.
  intros Hp. pose proof (p_inv _ _ _ _ _ _ Hp) as Hi. unfold manager_getNextFreeCluster. apply runs_bind, runs_get.
  destruct (full (manager_ c)); [by apply runs_ret|]. destruct (device_with_room cs (manager_ c)) as [i|] eqn:Ei.
  - apply find_some in Ei as [_ Hroom]. destruct (devs c !! i) as [d|] eqn:Ed; [|done].
    assert (devices_iterator (manager_ c) < length (devs c))%nat as Hit by (apply (i_iterator _ c Hi); intros E; by rewrite E in Ed).
    apply runs_bind, runs_modify. unfold updateIterator. apply runs_bind, runs_bind, runs_get. apply runs_bind, runs_mverify.
    { apply Nat.ltb_lt. cbn. by rewrite length_insert. }
    apply runs_modify, runs_ret. cbn [with_devices with_manager manager_ devices devices_iterator full uuid_]. rewrite length_insert.
    set (it := if (S (devices_iterator (manager_ c)) =? length (devs c))%nat then 0%nat else S (devices_iterator (manager_ c))).
    assert (it < length (devs c))%nat as Hit' by (unfold it; destruct (Nat.eqb_spec (S (devices_iterator (manager_ c))) (length (devs c))); lia).
    destruct (free_device_ok c i d k0 it (full (manager_ c)) Hi Ed Hroom Hit') as (Hok & Hu & He & Hnu). split.
    + apply (rebased_pending A x h k mx c (mkManager (<[i := getNextFreeCluster k0 d]> (devs c)) it (full (manager_ c)) (uuid_ (manager_ c))) (files c) (drawn c)); [done..|].
      intros q Hq _. apply content_file; [done|]. apply push_lookup; [apply Hi|done|by apply used_valid].
    + split; [eexists; exact He| |].
      * intros h' n' Hn' Hin. apply Hnu. right. by exists h', n'.
      * intros Hin. apply Hnu. by left.
  - apply runs_bind, runs_modify, runs_ret. split; [|done].
    apply (rebased_pending A x h k mx c (mkManager (devs c) (devices_iterator (manager_ c)) true (uuid_ (manager_ c))) (files c) (drawn c)); try done.
    by destruct (inv_devices c Hi).
Qed.

Lemma runs_or_else (a b : M Cache (option ptr)) c (Q : option ptr -> Cache -> Prop) :
  runs a c (fun o c' => match o with Some p => Q (Some p) c' | None => runs b c' Q end) -> runs (or_else a b) c Q.
Proof. intros H. apply runs_bind. eapply runs_mono; [exact H|]. intros [p|] c' HQ; [by apply runs_ret|done]. Qed.

Lemma allocate_runs A x h k mx c k0 : pending A x h k mx c -> runs (allocate cs k0) c (given A x h k mx).
Proof.
  intros Hp. unfold allocate. apply runs_or_else. eapply runs_mono; [by eapply invalidated_runs|]. intros [p|] c1 [Hp1 H1]; [by split|].
  apply runs_or_else. eapply runs_mono; [by eapply free_runs|]. intros [p|] c2 [Hp2 H2]; [by split|].
  destruct (recycle_global_runs cs c2 (p_inv _ _ _ _ _ _ Hp2)) as ([p|] & c3 & E & Hd); eexists _, _; (split; [exact E|]).
  - by eapply drops_pending.
  - subst c3. by split.
Qed.

(** ** Storing a cluster *)
Lemma index_small c p d : inv c -> getDeviceFromEntry p (devs c) = Some d -> getIndex p d = Ok (Z.of_nat (snd p)) /\ block (Z.of_nat (snd p)) = Z.of_nat (snd p) + 1.
Proof.
  intros Hi (Hd & _ & Hlen)%device_spec. destruct (i_devs _ c Hi d Hd) as [V1 V2 V3 V4].
  assert (Z.of_nat (length (memory_ d)) < 2 ^ 32) as Hb by (eapply Z.le_lt_trans; [apply Z.div_le_lower_bound; [done|rewrite Z.mul_comm; exact V3]|done]).
  unfold getIndex, block, wrap. rewrite !Z.mod_small by lia. by rewrite (proj2 (Z.ltb_lt _ _)) by lia.
Qed.

(** The files after a write to the cluster of [p]. *)
Definition written_files (c : Cache) (p : ptr) (d : Device) (buf : list Z) (w : transfer) : gmap Z File :=
  let f := default no_file (files c !! file_ d) in
  <[file_ d := mkFile (guid f) (transferred w (block (Z.of_nat (snd p))) buf (clusters f))]> (files c).

Lemma device_write_eq c p d buf w : inv c -> getDeviceFromEntry p (devs c) = Some d ->
  device_write p buf w c = (with_files (written_files c p d buf w) c, Ok (match w with Complete => None | Short _ => Some (dev_id d) end)).
Proof.
  intros Hi Hd. destruct (index_small c p d Hi Hd) as [Hx _]. unfold device_write, mbind, mget. rewrite Hd. unfold mlift. rewrite Hx. done.
Qed.

Lemma content_other c p d buf w q : inv c -> getDeviceFromEntry p (devs c) = Some d -> q <> p ->
  content (with_files (written_files c p d buf w) c) q = content c q.
Proof.
  intros Hi Hp Hne. unfold content. cbn [with_files manager_ files]. destruct (getDeviceFromEntry q (devs c)) as [d'|] eqn:Hq; [|done]. cbn.
  unfold written_files. destruct (decide (file_ d' = file_ d)) as [E|Hnf].
  - rewrite E, lookup_insert_eq. cbn [default from_option id clusters].
    destruct (device_spec _ _ _ Hp) as (Hd & Hid & _), (device_spec _ _ _ Hq) as (Hd' & Hid' & _).
    assert (d' = d) as ->.
    { apply list_elem_of_lookup in Hd as [i Hi0], Hd' as [j Hj]. assert (j = i) as ->; [|congruence].
      eapply NoDup_lookup; [apply (i_files _ c Hi)| |]; rewrite list_lookup_fmap; [by rewrite Hj|]. rewrite Hi0. cbn. by rewrite E. }
    destruct (index_small c p d Hi Hp) as [_ E1], (index_small c q d Hi Hq) as [_ E2]. rewrite E1, E2.
    assert (snd q <> snd p) as Hs by (intros Es; apply Hne; destruct p, q; cbn in *; congruence).
    unfold transferred. destruct w as [|[r|]]; [| |done]; by rewrite lookup_insert_ne by lia.
  - by rewrite lookup_insert_ne by done.
Qed.

Lemma content_same c p d buf : inv c -> getDeviceFromEntry p (devs c) = Some d ->
  content (with_files (written_files c p d buf Complete) c) p = Some buf.
Proof.
  intros Hi Hp. unfold content. cbn [with_files manager_ files]. rewrite Hp. cbn. unfold written_files. rewrite lookup_insert_eq. cbn. apply lookup_insert_eq.
Qed.

(** A spare entry gets into use. *)
Definition inserted (h : Z) (n : Namespace) (m' : ClusterCacheMap ptr) (p : ptr) (c : Cache) : Cache :=
  match max_entries n with
  | Some _ => with_namespaces (<[h := mkNamespace m' (p :: lru n) (max_entries n)]> (namespaces_ c)) c
  | None => with_lru (p :: lru_ c) (with_namespaces (<[h := with_ns_map m' n]> (namespaces_ c)) c)
  end.

Lemma inserted_inv c h n m' p : inv c -> spare c p -> namespaces_ c !! h = Some n -> handle_of (devs c) p = h ->
  wf (key_of (devs c)) m' -> all m' ≡ₚ p :: all (map n) -> (forall m, max_entries n = Some m -> Z.of_nat (length (all (map n))) < m) -> inv (inserted h n m' p c).
Proof.
  intros Hi [S1 S2 S3] Hn Hh Hw Hperm Hroom. destruct (i_ns _ c Hi h n Hn) as [W1 W2 W3 W4].
  assert (p ∉ lru_ c) as Hpl.
  { intros (n0 & Hn0 & _ & Hin)%(i_lru_in _ c Hi). by eapply S2. }
  assert (forall q, q ∈ all m' -> q = p \/ q ∈ all (map n)) as Hsub by (intros q Hq; rewrite Hperm in Hq; by apply elem_of_cons in Hq).
  destruct Hi as [H1 H2 H3 H4 H5 H6 H7 H8 H9 H10 H11].
  assert (ns_ok_m : (forall q, q ∈ all m' -> handle_of (devs c) q = h) /\ (forall q, q ∈ all m' -> is_Some (entry_at (devs c) q))).
  { split; intros q [->|Hq]%Hsub; auto. }
  unfold inserted. destruct (max_entries n) as [m|] eqn:Em.
  - split; try done; cbn [namespaces_ with_namespaces lru_ invalidated_entries_ manager_ drawn].
    + intros h' n' [(<- & <-)|[Hne Hn']]%lookup_insert_Some; [|by destruct (H6 h' n' Hn')].
      split; cbn [map lru max_entries]; [done|apply ns_ok_m|apply ns_ok_m|]. destruct W4 as [W4 W5]. pose proof (Hroom m eq_refl). split; [by rewrite Hperm, W4|].
      rewrite Hperm. cbn [length]. lia.
    + intros q (n0 & Hn0 & Hx & Hq)%H8. exists n0. rewrite lookup_insert_ne; [done|]. intros E. rewrite <- E, Hn in Hn0. congruence.
    + intros q h' n' Hq [(<- & <-)|[Hne Hn']]%lookup_insert_Some; cbn [map]; [|by eapply H11]. intros [->|Hq']%Hsub; [done|by eapply (H11 q h n)].
  - split; try done; cbn [namespaces_ with_namespaces with_lru lru_ invalidated_entries_ manager_ drawn].
    + intros h' n' [(<- & <-)|[Hne Hn']]%lookup_insert_Some.
      * split; cbn [map lru max_entries with_ns_map]; [done|apply ns_ok_m|apply ns_ok_m|]. rewrite Em. destruct W4 as [W4 W5]. split; [done|].
        intros q [->|Hq]%Hsub; [left|right; by apply W5].
      * destruct (H6 h' n' Hn') as [? ? ? W0]. split; try done. cbn [lru_ with_lru]. destruct (max_entries n'); [done|]. destruct W0 as [? W0]. split; [done|].
        intros q Hq. right. by apply W0.
    + by constructor.
    + intros q [->|Hq]%elem_of_cons.
      * exists (with_ns_map m' n). rewrite Hh, lookup_insert_eq. split_and!; [done|done|]. cbn. rewrite Hperm. left.
      * destruct (H8 q Hq) as (n0 & Hn0 & Hx & Hin). destruct (decide (handle_of (devs c) q = h)) as [E|Hne].
        -- rewrite E in Hn0 |- *. rewrite Hn in Hn0. injection Hn0 as <-. exists (with_ns_map m' n). rewrite lookup_insert_eq. split_and!; [done|done|].
           cbn. rewrite Hperm. by right.
        -- exists n0. by rewrite lookup_insert_ne by done.
    + intros q h' n' Hq [(<- & <-)|[Hne Hn']]%lookup_insert_Some; cbn [map with_ns_map]; [|by eapply H11]. intros [->|Hq']%Hsub; [done|by eapply (H11 q h n)].
Qed.
End Data.
End CacheData.
