(* ===== verification/ClusterCacheOffline.v ===== *)
(** * The cluster cache: taking a device offline

    All entries of the device go out of use, the others stay. *)

From stdpp Require Import sorting.
From S2P Require Import Prelude ClusterCacheMap ClusterCacheMapFacts ClusterCache ClusterCacheFacts.

Module CacheOffline.
Import ClusterCacheKey ClusterCacheEntry ClusterCacheMap ClusterCacheDevice ClusterCache MapFacts PtrFacts CacheInv CacheSteps CacheData.

Definition mapped (c : Cache) (h : Z) (p : ptr) : Prop := exists n, namespaces_ c !! h = Some n /\ p ∈ all (map n).

Section Offline.
Variable cs : Z.
Hypothesis Hcs : 0 < cs.
Variable id : nat.
Abbreviation inv := (inv cs).

(** Nothing but entries of the device went. *)
Record shrunk (c c' : Cache) : Prop := mkShrunk {
  k_manager : manager_ c' = manager_ c;
  k_files : files c' = files c;
  k_drawn : drawn c' = drawn c;
  k_inval : invalidated_entries_ c' = invalidated_entries_ c;
  k_max : forall h, max_entries <$> namespaces_ c' !! h = max_entries <$> namespaces_ c !! h;
  k_sub : forall h q, mapped c' h q -> mapped c h q;
  k_stay : forall h q, mapped c h q -> on_device id c q = false -> mapped c' h q }.

Lemma shrunk_refl c : shrunk c c.
Proof. by split. Qed.

Lemma shrunk_device c c' p : shrunk c c' -> on_device id c' p = on_device id c p.
Proof. intros Hs. unfold on_device. by rewrite (k_manager _ _ Hs). Qed.

Lemma shrunk_trans c1 c2 c3 : shrunk c1 c2 -> shrunk c2 c3 -> shrunk c1 c3.
Proof.
  intros H1 H2. pose proof (shrunk_device c1 c2) as Hd. destruct H1 as [A1 A2 A3 A4 A5 A6 A7], H2 as [B1 B2 B3 B4 B5 B6 B7]. split; [congruence..| | |].
  - intros h. by rewrite B5.
  - auto.
  - intros h q Hq Hf. apply B7; [by apply A7|]. by rewrite Hd.
Qed.

Lemma mapped_in_use c h p : inv c -> mapped c h p -> handle_of (devs c) p = h.
Proof. intros Hi (n & Hn & Hp). by apply (n_handle _ _ _ (i_ns _ c Hi h n Hn)). Qed.

Lemma drops_shrunk c h p c' : inv c -> drops c h p c' -> on_device id c p = true -> shrunk c c' /\ forall h', ~ mapped c' h' p.
Proof.
  intros Hi Hd Hon. destruct (drops_inv cs c h p c' Hi Hd) as [_ Hsp]. destruct (drops_frame _ _ _ _ Hd) as (E1 & E2 & E3 & E4 & E5 & Hns & Hdom & _). split.
  - split; try done.
    + intros h'. destruct (namespaces_ c' !! h') as [n'|] eqn:En'.
      * destruct (Hns h' n' En') as (n & -> & Hm & _). cbn. by rewrite Hm.
      * destruct (namespaces_ c !! h') as [n|] eqn:En; [|done]. destruct (Hdom h') as [? Hx]; [by eexists|]. congruence.
    + intros h' q (n' & Hn' & Hq). destruct (Hns h' n' Hn') as (n & Hn & _ & Hsub & _). exists n. auto.
    + intros h' q (n & Hn & Hq) Hoff. destruct Hd as (n0 & m' & Hn0 & Hp & -> & Hw & Hperm). destruct (decide (h' = h)) as [->|Hne].
      * rewrite Hn0 in Hn. injection Hn as <-. rewrite Hperm in Hq. apply elem_of_cons in Hq as [->|Hq]; [congruence|].
        unfold mapped, dropped. destruct (max_entries n0); cbn; rewrite lookup_insert_eq; by eexists.
      * unfold mapped, dropped. destruct (max_entries n0); cbn; rewrite lookup_insert_ne by done; by exists n.
  - intros h' (n & Hn & Hq). by eapply (sp_out _ _ Hsp).
Qed.

Section Spec.
Variable A : Spec.
Variable x : ptr -> Prop.

Lemma remove_list_runs l c : inv c -> holds A x c -> NoDup l -> (forall p, p ∈ l -> exists h, mapped c h p) ->
  runs (remove_device_from_list_and_delete l id) c (fun _ c' => inv c' /\ holds A x c' /\ shrunk c c' /\
    forall p h, p ∈ l -> on_device id c p = true -> ~ mapped c' h p).
Proof.
  unfold remove_device_from_list_and_delete. revert c. induction l as [|p l IH]; intros c Hi Hh Hnd Hm.
  { apply runs_ret. split_and!; [done|done|apply shrunk_refl|]. by intros p h ?%elem_of_nil. }
  apply NoDup_cons in Hnd as [Hpl Hnd]. cbn [miter]. apply runs_bind. destruct (on_device id c p) eqn:Eon.
  - destruct (Hm p ltac:(left)) as (h & n & Hn & Hp). destruct (remove_entry_runs cs c p h n id Hi Hn Hp Eon) as (c1 & E & Hd).
    destruct (drops_inv cs c h p c1 Hi Hd) as [Hi1 _]. destruct (drops_shrunk c h p c1 Hi Hd Eon) as [Hs1 Hgone].
    exists tt, c1. split; [done|]. eapply runs_mono; [apply IH|].
    + done.
    + by eapply drops_holds.
    + done.
    + intros q Hq. destruct (Hm q ltac:(by right)) as (hq & Hmq). exists hq. destruct (on_device id c q) eqn:Eq; [|by apply (k_stay _ _ Hs1)].
      destruct Hmq as (nq & Hnq & Hq0). destruct Hd as (n0 & m' & Hn0 & _ & -> & _ & Hperm). unfold mapped, dropped.
      destruct (decide (hq = h)) as [->|Hne].
      * rewrite Hn0 in Hnq. injection Hnq as <-. rewrite Hperm in Hq0. apply elem_of_cons in Hq0 as [->|Hq0]; [done|].
        destruct (max_entries n0); cbn; rewrite lookup_insert_eq; by eexists.
      * destruct (max_entries n0); cbn; rewrite lookup_insert_ne by done; by exists nq.
    + intros [] c2 (Hi2 & Hh2 & Hs2 & Hg2). split_and!; [done|done|by eapply shrunk_trans|].
      intros q hq [->|Hq]%elem_of_cons Hon; [intros H; by eapply Hgone, (k_sub _ _ Hs2)|]. apply Hg2; [done|]. by rewrite (shrunk_device c c1).
  - exists tt, c. split; [unfold remove_entry, mbind, mget; by rewrite Eon|]. eapply runs_mono; [apply IH; [done|done|done|intros; apply Hm; by right]|].
    intros [] c2 (Hi2 & Hh2 & Hs2 & Hg2). split_and!; [done..|]. intros q hq [->|Hq]%elem_of_cons Hon; [congruence|by apply Hg2].
Qed.

(** The lists of the namespaces. *)
Lemma remove_namespaces_runs hs c : inv c -> holds A x c ->
  runs (miter (fun h => let! c := mget in
                        match find_namespace_ h c with
                        | Some n => remove_device_from_list_and_delete (lru n) id
                        | None => mret tt
                        end) hs) c (fun _ c' => inv c' /\ holds A x c' /\ shrunk c c' /\
    forall p h n, h ∈ hs -> namespaces_ c !! h = Some n -> is_Some (max_entries n) -> on_device id c p = true -> ~ mapped c' h p).
Proof.
  revert c. induction hs as [|h hs IH]; intros c Hi Hh.
  { apply runs_ret. split_and!; [done|done|apply shrunk_refl|]. by intros p h n ?%elem_of_nil. }
  cbn [miter]. apply runs_bind. apply runs_bind, runs_get.
  eapply (runs_mono _ _ (fun (_ : unit) c1 => inv c1 /\ holds A x c1 /\ shrunk c c1 /\
    forall p n, namespaces_ c !! h = Some n -> is_Some (max_entries n) -> on_device id c p = true -> ~ mapped c1 h p)).
  - unfold find_namespace_. destruct (namespaces_ c !! h) as [n|] eqn:En.
    + pose proof (i_ns _ c Hi h n En) as Hok. pose proof (n_lists _ _ _ Hok) as HL. pose proof (all_NoDup _ _ (n_wf _ _ _ Hok)) as Hnd.
      assert (NoDup (lru n) /\ forall p, p ∈ lru n -> p ∈ all (map n)) as [Hl1 Hl2].
      { destruct (max_entries n); [destruct HL as [HL _]; split; [by rewrite HL|intros p Hp; by rewrite <- HL]|].
        destruct HL as [-> _]. split; [constructor|by intros p ?%elem_of_nil]. }
      eapply runs_mono; [apply remove_list_runs; [done|done|done|]|].
      { intros p Hp. exists h, n. split; [done|by apply Hl2]. }
      intros [] c1 (Hi1 & Hh1 & Hs1 & Hg1). split_and!; [done..|]. intros p n' [= <-] [m Hm] Hon Hmp. apply (Hg1 p h); [|done|done].
      rewrite Hm in HL. destruct HL as [-> _]. destruct (k_sub _ _ Hs1 h p Hmp) as (n0 & Hn0 & Hp0). congruence.
    + apply runs_ret. split_and!; [done|done|apply shrunk_refl|]. intros; congruence.
  - intros [] c1 (Hi1 & Hh1 & Hs1 & Hg1). eapply runs_mono; [by apply IH|]. intros [] c2 (Hi2 & Hh2 & Hs2 & Hg2).
    split_and!; [done|done|by eapply shrunk_trans|]. intros p h' n [->|Hin]%elem_of_cons Hn Hx Hon Hmp.
    + by eapply (Hg1 p n), (k_sub _ _ Hs2).
    + pose proof (k_max _ _ Hs1 h') as Hmx. rewrite Hn in Hmx. destruct (namespaces_ c1 !! h') as [n1|] eqn:En1; [|done]. cbn in Hmx. injection Hmx as Hmx.
      apply (Hg2 p h' n1); [done|done|by rewrite Hmx|by rewrite (shrunk_device c c1)|done].
Qed.
End Spec.

Definition live (c : Cache) : bool := existsb (fun d => dev_id d =? id)%nat (devs c).

Lemma live_spec c : live c = true <-> exists d, d ∈ devs c /\ dev_id d = id.
Proof.
  unfold live. rewrite existsb_exists. split; intros (d & Hd & E); exists d; (split; [by apply list_elem_of_In|]); [by apply Nat.eqb_eq|by apply Nat.eqb_eq].
Qed.

(** The devices that are left. *)
Lemma without_device c q : on_device id c q = false ->
  getDeviceFromEntry q (List.filter (fun d => negb (dev_id d =? id)%nat) (devs c)) = getDeviceFromEntry q (devs c).
Proof.
  unfold on_device, getDeviceFromEntry. induction (devs c) as [|d ds IH]; [done|]. cbn. destruct (hasEntry q d) eqn:E.
  - intros Hid. rewrite Hid. cbn. by rewrite E.
  - intros Hq. destruct (dev_id d =? id)%nat; cbn; [|rewrite E]; by apply IH.
Qed.

Lemma on_device_valid c q : on_device id c q = true -> exists d, d ∈ devs c /\ dev_id d = id.
Proof.
  unfold on_device. destruct (getDeviceFromEntry q (devs c)) as [d|] eqn:E; [|done]. intros H%Nat.eqb_eq. apply device_spec in E as (Hd & _). by exists d.
Qed.

Definition nobody (q : ptr) : Prop := False.

Lemma removed_inv A c : inv c -> invalidated_entries_ c = [] -> (forall h q, mapped c h q -> on_device id c q = false) ->
  holds A (fun q => on_device id c q = true) c ->
  forall it b, let m := mkManager (List.filter (fun d => negb (dev_id d =? id)%nat) (devs c)) it b (uuid_ (manager_ c)) in
  it = 0%nat -> inv (with_manager m c) /\ holds A nobody (with_manager m c).
Proof.
  intros Hi He Hoff Hh it b m ->. change (with_manager m c) with (rebased m (files c) (drawn c) c).
  assert (forall q, used c q -> getDeviceFromEntry q (devices m) = getDeviceFromEntry q (devs c)) as Hu.
  { intros q [Hq|(h & n & Hn & Hq)]; [rewrite He in Hq; by apply elem_of_nil in Hq|]. apply without_device, (Hoff h). by exists n. }
  assert (devices m `sublist_of` devs c) as Hsub by apply lfilter_sublist.
  split.
  - apply rebased_inv; [done| |intros q Hq; unfold entry_at; by rewrite Hu]. split; cbn [devices m devices_iterator].
    + eapply sublist_NoDup; [apply (i_ids _ c Hi)|]. by apply fmap_sublist.
    + intros d Hd. apply (i_drawn _ c Hi). by eapply elem_of_sublist.
    + eapply sublist_NoDup; [apply (i_files _ c Hi)|]. by apply fmap_sublist.
    + intros d Hd. apply (i_devs _ c Hi). by eapply elem_of_sublist.
    + intros Hne. destruct (List.filter _ (devs c)); [done|]. cbn. lia.
  - apply rebased_holds.
    + intros h n q Hn Hq. unfold entry_at. rewrite Hu; [done|]. right. by exists h, n.
    + intros h n q Hn Hq _. apply content_file; [done|]. cbn [rebased manager_]. rewrite Hu; [done|]. right. by exists h, n.
    + intros h n q Hn Hq _. apply (Hh h n); [done|done|]. rewrite (Hoff h q); [done|]. by exists n.
Qed.

(** The device goes with all its entries, and with them what they did not hold. *)
Lemma offline_runs A c : inv c -> invalidated_entries_ c = [] -> holds A (fun q => on_device id c q = true) c ->
  runs (offlineDevice id) c (fun _ c' => inv c' /\ holds A nobody c' /\
    (forall h, max_entries <$> namespaces_ c' !! h = max_entries <$> namespaces_ c !! h) /\ (forall h q, mapped c' h q -> mapped c h q)).
Proof.
  intros Hi He Hh. unfold offlineDevice. apply runs_bind, runs_get. fold (live c). destruct (live c) eqn:El; cbn [negb].
  2: { apply runs_ret. split_and!; [done| |done|done]. intros h n q Hn Hq _. apply (Hh h n q Hn Hq). intros Hon%on_device_valid%live_spec. congruence. }
  apply runs_bind. eapply runs_mono; [apply (remove_list_runs A (fun q => on_device id c q = true)); [done|done|apply (i_lru _ c Hi)|]|].
  { intros p (n & Hn & _ & Hp)%(i_lru_in _ c Hi). by eexists _, n. }
  intros [] c1 (Hi1 & Hh1 & Hs1 & Hg1). rewrite He. apply runs_bind, runs_ret.
  apply runs_bind. eapply runs_mono; [by apply (remove_namespaces_runs A (fun q => on_device id c q = true))|].
  intros [] c2 (Hi2 & Hh2 & Hs2 & Hg2). pose proof (shrunk_trans _ _ _ Hs1 Hs2) as Hs.
  assert (forall h q, mapped c2 h q -> on_device id c2 q = false) as Hoff.
  { intros h q Hq. destruct (on_device id c2 q) eqn:Eon; [exfalso|done]. rewrite (shrunk_device c1 c2) in Eon by done.
    pose proof (k_sub _ _ Hs2 h q Hq) as (n1 & Hn1 & Hq1). destruct (max_entries n1) as [m|] eqn:Em.
    - apply (Hg2 q h n1); [|done|by rewrite Em|done|done]. unfold handles. rewrite merge_sort_Permutation, elem_of_elements, elem_of_dom.
      pose proof (k_max _ _ Hs1 h) as Hmx. rewrite Hn1 in Hmx. destruct (namespaces_ c !! h); [by eexists|done].
    - rewrite (shrunk_device c c1) in Eon by done. apply (Hg1 q h); [|done|by exists n1].
      destruct (k_sub _ _ Hs1 h q) as (n & Hn & Hqn); [by exists n1|]. pose proof (n_lists _ _ _ (i_ns _ c Hi h n Hn)) as HL.
      pose proof (k_max _ _ Hs1 h) as Hmx. rewrite Hn1, Hn in Hmx. cbn in Hmx. injection Hmx as Hmx. rewrite <- Hmx, Em in HL. by apply HL. }
  unfold removeDevice. apply runs_modify. cbv zeta. fold (live c2).
  assert (live c2 = true) as ->.
  { apply live_spec. apply live_spec in El as (d & Hd & E). exists d. by rewrite (k_manager _ _ Hs). }
  destruct (removed_inv A c2 Hi2) with (it := 0%nat) (b := full (manager_ c2)) as [Hi3 Hh3]; [by rewrite (k_inval _ _ Hs)|done| |done|].
  { intros h n q Hn Hq Hon. apply (Hh2 h n q Hn Hq). by rewrite <- (shrunk_device c c2). }
  split_and!; [done|done|apply Hs|apply Hs].
Qed.
End Offline.
End CacheOffline.
