(* ===== verification/ClusterCacheOps.v ===== *)
(** * The cluster cache: adding, reading and invalidating clusters *)

From stdpp Require Import sorting.
From S2P Require Import Prelude ClusterCacheMap ClusterCacheMapFacts ClusterCache ClusterCacheFacts ClusterCacheOffline.

Module CacheOps.
Import ClusterCacheKey ClusterCacheEntry ClusterCacheMap ClusterCacheDevice ClusterCache MapFacts PtrFacts CacheInv CacheSteps CacheData CacheOffline.

Lemma spec_add_same A h k b : allowed (spec_add h k b A) h k b.
Proof.
  unfold allowed, spec_add. destruct (h =? content_based_handle) eqn:E; [left|]. cbn. rewrite Z.eqb_refl. by rewrite (proj2 (eqb_eq k k)).
Qed.

Lemma spec_add_other A h k b h' k' d : (h' = h -> h <> content_based_handle -> k' <> k) -> allowed A h' k' d -> allowed (spec_add h k b A) h' k' d.
Proof.
  intros Hne. unfold allowed, spec_add. destruct (Z.eqb_spec h content_based_handle) as [->|Hh]; destruct (h' =? content_based_handle) eqn:E; cbn; try done.
  - by right.
  - intros Hl. destruct (Z.eqb_spec h' h) as [->|]; [|done]. destruct (eqb k' k) eqn:Ek; [|done]. apply eqb_eq in Ek. by destruct Hne.
Qed.

Section Ops.
Variable cs : Z.
Hypothesis Hcs : 0 < cs.
Abbreviation inv := (inv cs).

Definition good (A : Spec) (c : Cache) : Prop := inv c /\ holds A nobody c.

Definition cached (h : Z) (k : ClusterCacheKey) (c : Cache) : Prop := exists n q, namespaces_ c !! h = Some n /\ q ∈ all (map n) /\ key_of (devs c) q = k.

(** After a cluster was added, and is there if its write went well. *)
Definition added (A : Spec) (h : Z) (k : ClusterCacheKey) (buf : list Z) (w : transfer) (c : Cache) : Prop :=
  good (spec_add h k buf A) c /\ (w = Complete -> cached h k c).

Lemma namespace_runs c h n (Q : Namespace -> Cache -> Prop) : namespaces_ c !! h = Some n -> Q n c -> runs (namespace h) c Q.
Proof. intros Hn HQ. unfold namespace. apply runs_bind, runs_get. unfold find_namespace_. rewrite Hn. by apply runs_ret. Qed.

Lemma map_find_runs c h n k (Q : option ptr -> Cache -> Prop) : inv c -> namespaces_ c !! h = Some n ->
  (forall o, match o with Some p => p ∈ all (map n) /\ key_of (devs c) p = k | None => forall p, p ∈ all (map n) -> key_of (devs c) p <> k end -> Q o c) ->
  runs (map_find h k) c Q.
Proof.
  intros Hi Hn HQ. unfold map_find. apply runs_bind, (namespace_runs c h n); [done|]. apply runs_bind, runs_get.
  destruct (find_spec _ (map n) k (n_wf _ _ _ (i_ns _ c Hi h n Hn))) as (o & E & Ho). eapply runs_lift; [exact E|]. by apply HQ.
Qed.

Lemma map_entries_runs (c : Cache) h n (Q : Z -> Cache -> Prop) : namespaces_ c !! h = Some n -> wf (key_of (devs c)) (map n) ->
  Q (u64 (Z.of_nat (length (all (map n))))) c -> runs (map_entries h) c Q.
Proof.
  intros Hn Hw HQ. unfold map_entries. apply runs_bind, (namespace_runs c h n); [done|]. eapply runs_lift; [by apply entries_spec with (key_of := key_of (devs c))|done].
Qed.

(** All entries but [p] have what they should when [p] is written. *)
Lemma holds_add A c h n p k buf : inv c -> namespaces_ c !! h = Some n -> p ∈ all (map n) -> key_of (devs c) p = k ->
  (forall h' n' q, namespaces_ c !! h' = Some n' -> q ∈ all (map n') -> q <> p -> exists d, content c q = Some d /\ allowed A h' (key_of (devs c) q) d) ->
  holds (spec_add h k buf A) (fun q => q = p) c.
Proof.
  intros Hi Hn Hp Hk Hh h' n' q Hn' Hq Hne. destruct (Hh h' n' q Hn' Hq Hne) as (d & Hd & Ha). exists d. split; [done|]. apply spec_add_other; [|done].
  intros -> _ E. rewrite Hn in Hn'. injection Hn' as <-. apply Hne. apply (key_inj (key_of (devs c)) (map n)); [apply (n_wf _ _ _ (i_ns _ c Hi h n Hn))|done|done|congruence].
Qed.

Lemma write_runs A c h n p k buf w : inv c -> namespaces_ c !! h = Some n -> p ∈ all (map n) -> key_of (devs c) p = k ->
  holds (spec_add h k buf A) (fun q => q = p) c -> w = Complete \/ invalidated_entries_ c = [] ->
  runs (let! failed := device_write p buf w in match failed with Some id => offlineDevice id | None => mret tt end) c (fun _ => added A h k buf w).
Proof.
  intros Hi Hn Hp Hk Hh Hw. pose proof (n_valid _ _ _ (i_ns _ c Hi h n Hn) p Hp) as [e He]. apply entry_device in He as (d & Hd & _).
  apply runs_bind. eexists _, _. split; [by apply device_write_eq with (cs := cs)|].
  set (c4 := with_files (written_files c p d buf w) c).
  assert (inv c4) as Hi4 by (apply (rebased_inv cs c (manager_ c) (written_files c p d buf w) (drawn c)); [done|by apply inv_devices|done]).
  assert (forall q, q <> p -> content c4 q = content c q) as Hother by (intros q Hq; by apply content_other with (cs := cs)).
  destruct w as [|r].
  - apply runs_ret. split; [|intros _; by exists n, p]. split; [done|]. intros h' n' q Hn' Hq _. destruct (decide (q = p)) as [->|Hne].
    + assert (h' = h) as ->.
      { rewrite <- (n_handle _ _ _ (i_ns _ c Hi h n Hn) p Hp). symmetry. by apply (n_handle _ _ _ (i_ns _ c Hi h' n' Hn')). }
      exists buf. split; [by apply content_same with (cs := cs)|]. change (devs c4) with (devs c). rewrite Hk. apply spec_add_same.
    + rewrite Hother by done. by apply (Hh h' n' q).
  - destruct Hw as [?|Hinv]; [done|]. eapply runs_mono; [apply (offline_runs cs (dev_id d) (spec_add h k buf A) c4)|].
    + done.
    + done.
    + intros h' n' q Hn' Hq Hoff. assert (q <> p) as Hne.
      { intros ->. apply Hoff. unfold on_device. change (devs c4) with (devs c). by rewrite Hd, Nat.eqb_refl. }
      rewrite Hother by done. by apply (Hh h' n' q).
    + intros [] c5 (H1 & H2 & _). by split; [split|].
Qed.

(** A cluster that is there gets new data. *)
Lemma store_again_runs A h k p buf w c n : good A c -> h <> content_based_handle -> namespaces_ c !! h = Some n -> p ∈ all (map n) -> key_of (devs c) p = k ->
  w = Complete \/ invalidated_entries_ c = [] ->
  runs (mmodify (unlink_entry_from_dlist_ p) ;! store h false k p buf w) c (fun _ => added A h k buf w).
Proof.
  intros [Hi Hh] Hne Hn Hp Hk Hw. pose proof (i_ns _ c Hi h n Hn) as Hok. pose proof (n_valid _ _ _ Hok p Hp) as [e He].
  apply entry_device in He as (d & Hd & _). apply runs_bind, runs_modify. set (c1 := unlink_entry_from_dlist_ p c).
  unfold store. apply runs_bind, runs_get. change (devs c1) with (devs c). rewrite Hd. apply runs_bind, runs_ret, runs_bind, runs_ret.
  assert (namespaces_ c1 !! h = Some (with_ns_lru (without_ptr p (lru n)) n)) as Hn1 by (unfold c1; cbn; by rewrite lookup_fmap, Hn).
  apply runs_bind, (namespace_runs c1 h _ _ Hn1). cbn [max_entries with_ns_lru].
  apply runs_bind. eapply (runs_mono _ _ (fun _ c3 => c3 = touched h n p c)).
  - pose proof (touched_eq cs c h n p Hi Hn Hp) as Ht. pose proof (n_lists _ _ _ Hok) as HL. destruct (max_entries n) as [m|] eqn:Em.
    + apply runs_bind, (map_entries_runs c1 h _ _ Hn1); [apply Hok|]. cbn [map with_ns_lru]. apply runs_bind, runs_mverify.
      { apply Z.leb_le. destruct HL as [_ HL]. unfold wrap. rewrite Z.mod_small by lia. lia. }
      rewrite bool_decide_eq_true_2 in Ht by done. eexists _, _. split; [exact Ht|done].
    + rewrite bool_decide_eq_false_2 in Ht by (by intros []). eexists _, _. split; [exact Ht|done].
  - intros [] c3 ->. pose proof (touched_inv cs c h n p Hi Hn Hp) as Hi3.
    assert (exists n3, namespaces_ (touched h n p c) !! h = Some n3 /\ map n3 = map n) as (n3 & Hn3 & Em3).
    { unfold touched. destruct (max_entries n); cbn; [rewrite lookup_insert_eq; by eexists|by exists n]. }
    assert (devs (touched h n p c) = devs c /\ files (touched h n p c) = files c /\ invalidated_entries_ (touched h n p c) = invalidated_entries_ c) as (E1 & E2 & E3).
    { unfold touched. by destruct (max_entries n). }
    apply (write_runs A _ h n3); [done|done|by rewrite Em3|by rewrite E1| |by rewrite E3].
    apply (holds_add A _ h n3); [done|done|by rewrite Em3|by rewrite E1|]. intros h' n' q Hn' Hq Hqp.
    assert (exists n0, namespaces_ c !! h' = Some n0 /\ q ∈ all (map n0)) as (n0 & Hn0 & Hq0).
    { unfold touched in Hn'. destruct (max_entries n); cbn in Hn'; [|by exists n'].
      apply lookup_insert_Some in Hn' as [(<- & <-)|[_ Hn']]; [by exists n|by exists n']. }
    destruct (Hh h' n0 q Hn0 Hq0 (fun H => H)) as (dd & Hdd & Ha). exists dd. unfold content. rewrite E1, E2. done.
Qed.

(** An entry gets a new key while it is in no map. *)
Lemma set_entry_ok c p e : inv c -> devices_ok cs (mkManager (set_entry p e (devs c)) (devices_iterator (manager_ c)) (full (manager_ c)) (uuid_ (manager_ c))) (drawn c).
Proof.
  intros Hi. assert (forall d, d ∈ set_entry p e (devs c) -> exists d0, d0 ∈ devs c /\ dev_id d = dev_id d0 /\ total_size_ d = total_size_ d0 /\ length (memory_ d) = length (memory_ d0)) as Hd.
  { intros d (d0 & -> & Hd0)%list_elem_of_fmap. exists d0. destruct (hasEntry p d0); cbn; by rewrite ?length_insert. }
  split; cbn [devices devices_iterator].
  - rewrite set_entry_ids. apply Hi.
  - intros d (d0 & Hd0 & -> & _)%Hd. by apply (i_drawn _ c Hi).
  - rewrite set_entry_files. apply Hi.
  - intros d (d0 & Hd0 & _ & Et & El)%Hd. destruct (i_devs _ c Hi d0 Hd0) as [? ? ? ?]. split; rewrite Et; try done. by rewrite El.
  - intros Hne. unfold set_entry in *. rewrite length_fmap. apply (i_iterator _ c Hi). intros E. apply Hne. by rewrite E.
Qed.

Definition rekeyed (h : Z) (k : ClusterCacheKey) (p : ptr) (c : Cache) : Cache :=
  with_devices (set_entry p (mkCacheEntry k (get_cache_entry_mode h)) (devs c)) c.

Lemma rekeyed_pending W A h k mx p c : pending cs W A nobody h k mx c -> spare c p -> (h <> content_based_handle -> tag k = h) ->
  pending cs W A nobody h k mx (rekeyed h k p c) /\ spare (rekeyed h k p c) p /\ key_of (devs (rekeyed h k p c)) p = k /\ handle_of (devs (rekeyed h k p c)) p = h.
Proof.
  intros Hp [S1 S2 S3] Ht. pose proof (p_inv _ _ _ _ _ _ _ _ Hp) as Hi. set (e := mkCacheEntry k (get_cache_entry_mode h)).
  assert (entry_at (set_entry p e (devs c)) p = Some e) as Ep by (rewrite entry_set by done; by rewrite decide_True).
  assert (forall q, used c q -> q <> p) as Hne by (intros q [Hq|(h' & n' & Hn' & Hq)] ->; [done|by eapply S2]).
  split_and!.
  - apply (rebased_pending cs W A nobody h k mx c (mkManager (set_entry p e (devs c)) (devices_iterator (manager_ c)) (full (manager_ c)) (uuid_ (manager_ c))) (files c) (drawn c)).
    + done.
    + by apply set_entry_ok.
    + intros q Hq. cbn [devices]. rewrite entry_set by done. rewrite decide_False; [done|by apply Hne].
    + intros q _ _. apply content_file; [done|]. cbn [rebased manager_ devices]. rewrite device_set. destruct (getDeviceFromEntry q (devs c)) as [d|]; [|done]. cbn.
      by destruct (hasEntry p d).
  - split; [eexists; exact Ep|done|done].
  - change (devs (rekeyed h k p c)) with (set_entry p e (devs c)). unfold key_of. by rewrite Ep.
  - change (devs (rekeyed h k p c)) with (set_entry p e (devs c)). unfold handle_of, mode_of, key_of. rewrite Ep. cbn. unfold get_cache_entry_mode. destruct (Z.eqb_spec h content_based_handle) as [->|Hh]; [done|]. by apply Ht.
Qed.

Lemma store_new_runs A h k mx p buf w c : pending cs (w = Complete) A nobody h k mx c -> spare c p -> (h <> content_based_handle -> tag k = h) ->
  runs (store h true k p buf w) c (fun _ => added A h k buf w).
Proof.
  intros Hp Hsp Ht. destruct (rekeyed_pending _ A h k mx p c Hp Hsp Ht) as (Hp1 & Hsp1 & Hk & Hhd). pose proof (sp_valid _ _ Hsp) as [e0 He0].
  apply entry_device in He0 as (d & Hd & _). unfold store. apply runs_bind, runs_get. rewrite Hd. apply runs_bind, runs_ret.
  apply runs_bind, runs_bind, runs_modify. fold (rekeyed h k p c). set (c1 := rekeyed h k p c) in *.
  destruct Hp1 as [Hi1 Hh1 (n & Hn & Hm & Hkey & Hlen) Hcl]. pose proof (i_ns _ c1 Hi1 h n Hn) as Hok.
  destruct (insert_spec (key_of (devs c1)) p (map n) (n_wf _ _ _ Hok)) as (m' & Ei & Hw' & Hperm); [intros q Hq; rewrite Hk; by apply Hkey|].
  unfold map_insert. apply runs_bind, (namespace_runs c1 h n _ Hn). apply runs_bind, runs_get. apply runs_bind. eapply runs_lift; [exact Ei|].
  unfold on_namespace. apply runs_modify. rewrite (alter_some _ _ _ n Hn).
  set (c2 := with_namespaces (<[h := with_ns_map m' n]> (namespaces_ c1)) c1).
  assert (namespaces_ c2 !! h = Some (with_ns_map m' n)) as Hn2 by apply lookup_insert_eq.
  apply runs_bind, (namespace_runs c2 h _ _ Hn2). cbn [max_entries with_ns_map].
  apply runs_bind. eapply (runs_mono _ _ (fun _ c3 => c3 = inserted h n m' p c1)).
  - unfold inserted. rewrite Hm. destruct mx as [m|].
    + apply runs_bind, (map_entries_runs c2 h _ _ Hn2); [done|]. cbn [map with_ns_map]. pose proof (Hlen m eq_refl). pose proof (n_lists _ _ _ Hok) as HL. rewrite Hm in HL.
      apply runs_bind, runs_mverify.
      { apply Z.leb_le. rewrite Hperm. cbn [length]. unfold wrap. rewrite Z.mod_small by lia. lia. }
      unfold push_lru, on_namespace. apply runs_modify. unfold c2, with_namespaces, with_ns_map, with_ns_lru. cbn. by rewrite alter_insert_eq, Hm.
    + apply runs_modify. done.
  - intros [] c3 ->. assert (inv (inserted h n m' p c1)) as Hi3 by (apply inserted_inv; try done; by rewrite Hm).
    assert (exists n3, namespaces_ (inserted h n m' p c1) !! h = Some n3 /\ map n3 = m') as (n3 & Hn3 & Em3).
    { unfold inserted. destruct (max_entries n); cbn; rewrite lookup_insert_eq; by eexists. }
    assert (devs (inserted h n m' p c1) = devs c1 /\ files (inserted h n m' p c1) = files c1 /\ invalidated_entries_ (inserted h n m' p c1) = invalidated_entries_ c1) as (E1 & E2 & E3).
    { unfold inserted. by destruct (max_entries n). }
    assert (p ∈ all (map n3)) as Hpin by (rewrite Em3, Hperm; left).
    apply (write_runs A _ h n3); [done|done|done|by rewrite E1| |by rewrite E3].
    apply (holds_add A _ h n3); [done|done|done|by rewrite E1|]. intros h' n' q Hn' Hq Hqp.
    assert (exists n0, namespaces_ c1 !! h' = Some n0 /\ q ∈ all (map n0)) as (n0 & Hn0 & Hq0).
    { unfold inserted in Hn'. destruct (max_entries n); cbn in Hn'; (apply lookup_insert_Some in Hn' as [(<- & <-)|[_ Hn']]; [|by exists n']);
        cbn in Hq; rewrite Hperm in Hq; apply elem_of_cons in Hq as [->|Hq]; try done; by exists n. }
    destruct (Hh1 h' n0 q Hn0 Hq0 (fun H => H)) as (dd & Hdd & Ha). exists dd. unfold content. rewrite E1, E2. done.
Qed.

Lemma good_add_absent A h k buf c : good A c -> (forall n q, namespaces_ c !! h = Some n -> q ∈ all (map n) -> h <> content_based_handle -> key_of (devs c) q <> k) ->
  good (spec_add h k buf A) c.
Proof.
  intros [Hi Hh] Hk. split; [done|]. intros h' n' q Hn' Hq Hx. destruct (Hh h' n' q Hn' Hq Hx) as (d & Hd & Ha). exists d. split; [done|].
  apply spec_add_other; [|done]. intros -> Hne. by eapply Hk.
Qed.

(** Something can be had for a new cluster. *)
Definition can_allocate (c : Cache) : Prop :=
  invalidated_entries_ c <> [] \/ (full (manager_ c) = false /\ device_with_room cs (manager_ c) <> None) \/ lru_ c <> [].

Lemma or_else_none (a b : M Cache (option ptr)) c c' : or_else a b c = (c', Ok None) -> exists c1, a c = (c1, Ok None) /\ b c1 = (c', Ok None).
Proof. unfold or_else, mbind. destruct (a c) as [c1 [[p|]|e]]; [done| |done]. intros H. by exists c1. Qed.

Lemma invalidated_none c c1 : get_invalidated_cache_entry_ c = (c1, Ok None) -> c1 = c /\ invalidated_entries_ c = [].
Proof.
  unfold get_invalidated_cache_entry_, mbind at 1, mget. pose proof (snoc_cases (invalidated_entries_ c)) as Hs.
  destruct (last (invalidated_entries_ c)); [done|]. by intros [= <-].
Qed.

Lemma free_none k c c1 : manager_getNextFreeCluster cs k c = (c1, Ok None) -> lru_ c1 = lru_ c /\ (full (manager_ c) = true \/ device_with_room cs (manager_ c) = None).
Proof.
  unfold manager_getNextFreeCluster, mbind at 1, mget. destruct (full (manager_ c)); [intros [= <-]; split; [done|by left]|].
  destruct (device_with_room cs (manager_ c)) as [i|] eqn:Er.
  - apply find_some in Er as [_ Hr]. destruct (devs c !! i) as [d|]; [|done]. unfold mbind, mmodify. by destruct (updateIterator _) as [c2 [[]|e]].
  - unfold mbind, mmodify, mret. intros [= <-]. split; [done|by right].
Qed.

Lemma recycle_none c c1 : recycle_global c = (c1, Ok None) -> lru_ c = [].
Proof.
  unfold recycle_global, mbind at 1, mget. pose proof (snoc_cases (lru_ c)) as Hl. destruct (last (lru_ c)) as [q|]; [|intros _; exact Hl].
  unfold mbind, mmodify. destruct (map_remove _ _ _) as [c2 [b|]]; [|done]. unfold mverify. by destruct b.
Qed.

Lemma allocate_none k c c' : allocate cs k c = (c', Ok None) -> ~ can_allocate c.
Proof.
  intros (c1 & [-> H1]%invalidated_none & (c2 & [E2 H2]%free_none & H3%recycle_none)%or_else_none)%or_else_none.
  rewrite E2 in H3. intros [?|[[? ?]|?]]; [done| |done]. destruct H2; congruence.
Qed.

Lemma add_key_runs A h k buf w c n : good A c -> Z.of_nat (length buf) = cs -> namespaces_ c !! h = Some n -> (h <> content_based_handle -> tag k = h) ->
  w = Complete \/ invalidated_entries_ c = [] -> runs (add_key cs h k buf w) c (fun _ c' => good (spec_add h k buf A) c' /\
    (w = Complete -> max_entries n <> Some 0 -> can_allocate c -> cached h k c')).
Proof.
  intros Hg Hb Hn Ht Hw. pose proof Hg as [Hi Hh]. pose proof (i_ns _ c Hi h n Hn) as Hok. unfold add_key.
  assert (forall u c', added A h k buf w c' -> (fun (_ : unit) c' => good (spec_add h k buf A) c' /\
    (w = Complete -> max_entries n <> Some 0 -> can_allocate c -> cached h k c')) u c') as Hadded by (intros _ c' [H1 H2]; split; [done|auto]).
  apply runs_bind, runs_mverify; [by apply Z.eqb_eq|]. apply runs_bind, (namespace_runs c h n _ Hn). apply runs_bind, (map_find_runs c h n _ _ Hi Hn).
  intros [p|] Hf.
  - destruct Hf as [Hp Hk]. destruct (Z.eqb_spec h content_based_handle) as [->|Hne]; [|by eapply runs_mono; [apply store_again_runs with (n := n)|exact Hadded]].
    apply runs_ret. split; [by apply good_add_absent|]. intros _ _ _. by exists n, p.
  - assert (good (spec_add h k buf A) c) as Hnone.
    { apply good_add_absent; [done|]. intros n' q Hn' Hq _. rewrite Hn in Hn'. injection Hn' as <-. by apply Hf. }
    apply runs_bind, (map_entries_runs c h n _ Hn); [apply Hok|]. pose proof (n_lists _ _ _ Hok) as HL.
    destruct (match max_entries n with Some m => _ | None => false end) eqn:Efull.
    + destruct (max_entries n) as [m|] eqn:Em; [|done]. destruct HL as [HL Hm]. apply Z.eqb_eq in Efull. unfold wrap in Efull. rewrite Z.mod_small in Efull by lia.
      destruct (bool_decide (Some m = Some 0)) eqn:E0; [apply bool_decide_eq_true in E0; by apply runs_ret|]. apply bool_decide_eq_false in E0.
      destruct (recycle_own_runs cs c h n m Hi Hn Em) as (p & c1 & E & Hd).
      { intros E. rewrite E in HL. apply Permutation_length in HL. cbn in HL. apply E0. f_equal. lia. }
      apply runs_bind. eexists _, _. split; [exact E|]. destruct (drops_inv cs c h p c1 Hi Hd) as [Hi1 Hsp1].
      destruct (drops_frame _ _ _ _ Hd) as (E1 & E2 & _ & _ & E5 & Hns & Hdom & _). destruct (Hdom h) as [n1 Hn1]; [by eexists|].
      destruct (Hns h n1 Hn1) as (n0 & Hn0 & Hm0 & Hsub & _ & Hlen & _). rewrite Hn in Hn0. injection Hn0 as <-.
      eapply runs_mono; [apply (store_new_runs A h k (Some m)); [|done|done]|exact Hadded]. split; [done|by eapply drops_holds| |by rewrite E5].
      exists n1. rewrite E1. split_and!; [done|congruence|intros q Hq; by apply Hf, Hsub|]. intros m0 [= <-]. pose proof (Hlen eq_refl). lia.
    + assert (pending cs (w = Complete) A nobody h k (max_entries n) c) as Hp.
      { split; [done|done| |done]. exists n. split_and!; [done|done|done|]. intros m Em. rewrite Em in HL, Efull. apply Z.eqb_neq in Efull.
        unfold wrap in Efull. rewrite Z.mod_small in Efull by lia. lia. }
      apply runs_bind. destruct (allocate_runs cs Hcs (w = Complete) A nobody h k (max_entries n) c k Hp) as (o & c1 & Ea & Hp1 & Hsp1). exists o, c1. split; [exact Ea|].
      destruct o as [p|]; [by eapply runs_mono; [eapply store_new_runs|exact Hadded]|]. apply allocate_none in Ea.
      apply runs_ret. split; [|done]. destruct Hp1 as [Hi1 Hh1 (n1 & Hn1 & _ & Hk1 & _) _]. apply good_add_absent; [by split|].
      intros n' q Hn' Hq _. rewrite Hn1 in Hn'. injection Hn' as <-. by apply Hk1.
Qed.

Lemma counts_good A c h m : good A c -> good A (with_counts h m c).
Proof.
  intros [[H1 H2 H3 H4 H5 H6 H7 H8 H9 H10 H11] Hh]. split; [|exact Hh]. split; try done. intros h' n Hn. by destruct (H6 h' n Hn).
Qed.

Lemma touched_good A c h n p : good A c -> namespaces_ c !! h = Some n -> p ∈ all (map n) -> good A (touched h n p c).
Proof.
  intros [Hi Hh] Hn Hp. split; [by apply touched_inv|]. eapply holds_sub; [|exact Hh]. intros h' n' q Hn' Hq _.
  assert (devs (touched h n p c) = devs c /\ files (touched h n p c) = files c) as [E1 E2] by (unfold touched; by destruct (max_entries n)).
  assert (exists n0, namespaces_ c !! h' = Some n0 /\ q ∈ all (map n0)) as (n0 & Hn0 & Hq0).
  { unfold touched in Hn'. destruct (max_entries n); cbn in Hn'; [|by exists n'].
    apply lookup_insert_Some in Hn' as [(<- & <-)|[_ Hn']]; [by exists n|by exists n']. }
  exists n0. unfold content. by rewrite E1, E2.
Qed.

(** A read: a hit has an allowed cluster, and a cluster that is there is a hit. *)
Lemma read_key_runs A h k ok c n : good A c -> namespaces_ c !! h = Some n -> ok = true \/ invalidated_entries_ c = [] ->
  runs (read_key cs h k cs ok) c (fun o c' => good A c' /\ (forall d, o = Some d -> allowed A h k d) /\ (ok = true -> cached h k c -> is_Some o)).
Proof.
  intros Hg Hn Hok. pose proof Hg as [Hi Hh]. unfold read_key. apply runs_bind, runs_mverify; [apply Z.eqb_refl|].
  apply runs_bind, (namespace_runs c h n _ Hn). apply runs_bind, (map_find_runs c h n _ _ Hi Hn). intros [p|] Hf.
  2: { apply runs_bind, runs_modify, runs_ret. split; [by apply counts_good|]. split; [done|]. intros _ (n' & q & Hn' & Hq & Hk). rewrite Hn in Hn'. injection Hn' as <-. by destruct (Hf q Hq). }
  destruct Hf as [Hp Hk]. pose proof (n_valid _ _ _ (i_ns _ c Hi h n Hn) p Hp) as [e He]. apply entry_device in He as (d & Hd & _).
  apply runs_bind, runs_get. rewrite Hd. destruct (index_small cs Hcs c p d Hi Hd) as [Hx _]. apply runs_bind. eapply runs_lift; [exact Hx|].
  destruct (Hh h n p Hn Hp (fun H => H)) as (buf & Hbuf & Ha). rewrite Hk in Ha. destruct ok.
  - apply runs_bind, runs_modify. set (c1 := with_counts _ _ c). assert (good A c1) as Hg1 by (by apply counts_good).
    apply runs_bind, runs_modify, runs_bind. eexists tt, _. split; [by apply (touched_eq cs c1 h n p); [apply Hg1|..]|]. apply runs_ret.
    split; [by apply touched_good|]. split; [|by eexists]. intros d' [= <-].
    unfold content in Hbuf. rewrite Hd in Hbuf. cbn in Hbuf. change (files c1) with (files c). rewrite Hbuf. done.
  - destruct Hok as [?|Hinv]; [done|]. apply runs_bind. eapply runs_mono; [apply (offline_runs cs (dev_id d) A c Hi Hinv)|].
    { intros h' n' q Hn' Hq _. exact (Hh h' n' q Hn' Hq (fun H => H)). }
    intros [] c1 (Hi1 & Hh1 & _). apply runs_bind, runs_modify, runs_ret. split; [by apply counts_good|]. by split.
Qed.

Lemma spec_invalidate_other A h k h' k' d : h <> content_based_handle -> (h' = h -> k' <> k) -> allowed A h' k' d -> allowed (spec_invalidate h k A) h' k' d.
Proof.
  intros Hh Hne. unfold allowed, spec_invalidate. cbn. destruct (h' =? content_based_handle); [done|]. intros H.
  destruct (Z.eqb_spec h' h) as [->|]; [|done]. destruct (eqb k' k) eqn:Ek; [|done]. apply eqb_eq in Ek. by destruct Hne.
Qed.

Lemma invalidate_key_runs A h k c n : good A c -> namespaces_ c !! h = Some n -> h <> content_based_handle ->
  runs (invalidate_key h k) c (fun _ c' => good (spec_invalidate h k A) c' /\ ~ cached h k c').
Proof.
  intros [Hi Hh] Hn Hne. unfold invalidate_key. rewrite (proj2 (Z.eqb_neq _ _) Hne). cbn [negb].
  apply runs_bind, (map_find_runs c h n _ _ Hi Hn). intros [p|] Hf.
  - destruct Hf as [Hp Hk]. pose proof (i_ns _ c Hi h n Hn) as Hok. destruct (map_remove_eq c h n p Hn (n_wf _ _ _ Hok) Hp) as (m' & E & Hw & Hperm).
    apply runs_bind. eexists _, _. split; [exact E|]. apply runs_bind, runs_modify. set (c1 := with_namespaces _ c).
    assert (drops c h p (dropped h n m' p c)) as Hd by (exists n, m'; done).
    assert (unlink_entry_from_dlist_ p c1 = dropped h n m' p c) as ->.
    { pose proof (unlink_mapped cs c h n p Hi Hn Hp) as Hu. unfold unlink_entry_from_dlist_ in Hu |- *. unfold dropped, c1. destruct (max_entries n) as [m|] eqn:Em.
      - injection Hu as Hu1 Hu2 Hu3. unfold with_namespaces. cbn [manager_ namespaces_ invalidated_entries_ lru_ num_hits num_misses files drawn]. rewrite Hu2, Hu3. f_equal. rewrite fmap_insert. cbn [with_ns_lru with_ns_map map lru max_entries].
        apply map_eq. intros j. apply (f_equal (fun x => x !! j)) in Hu1. destruct (decide (j = h)) as [->|]; [rewrite !lookup_insert_eq; unfold with_ns_lru, with_ns_map; cbn [map lru max_entries]; by rewrite ?Em|].
        rewrite !lookup_insert_ne in * by done. done.
      - injection Hu as Hu1 Hu2. unfold with_lru, with_namespaces. cbn [manager_ namespaces_ invalidated_entries_ lru_ num_hits num_misses files drawn]. rewrite Hu2. f_equal. rewrite fmap_insert, Hu1. f_equal. unfold with_ns_lru, with_ns_map. cbn [map lru max_entries]. f_equal.
        pose proof (n_lists _ _ _ Hok) as HL. rewrite Em in HL. destruct HL as [-> _]. done. }
    destruct (drops_inv cs c h p _ Hi Hd) as [Hi1 Hsp]. pose proof (drops_holds A nobody _ _ _ _ Hd Hh) as Hh1.
    apply runs_modify. set (c2 := dropped h n m' p c) in *. destruct (drops_frame _ _ _ _ Hd) as (E1 & E2 & _ & _ & _ & Hns & Hdom & _). fold c2 in E1, E2, Hns, Hdom.
    assert (forall n2 q, namespaces_ c2 !! h = Some n2 -> q ∈ all (map n2) -> key_of (devs c2) q <> k) as Hgone.
    { intros n2 q Hn2 Hq Ek. destruct (Hns h n2 Hn2) as (n0 & Hn0 & _ & Hsub & _). rewrite Hn in Hn0. injection Hn0 as <-. rewrite E1 in Ek.
      assert (q = p) as -> by (apply (key_inj (key_of (devs c)) (map n)); [apply Hok|by apply Hsub|done|congruence]). by eapply (sp_out _ _ Hsp). }
    split; [split|].
    + apply (invalidated_inv cs c2 p); [done|done|]. symmetry. apply Permutation_cons_append.
    + intros h' n' q Hn' Hq Hx. destruct (Hh1 h' n' q Hn' Hq Hx) as (d & Hdd & Ha). exists d. split; [exact Hdd|]. apply spec_invalidate_other; [done| |exact Ha].
      intros ->. by eapply Hgone.
    + intros (n' & q & Hn' & Hq & Ek). by eapply Hgone.
  - apply runs_ret. split; [split; [done|]|].
    + intros h' n' q Hn' Hq Hx. destruct (Hh h' n' q Hn' Hq Hx) as (d & Hdd & Ha). exists d. split; [done|]. apply spec_invalidate_other; [done| |done].
      intros ->. rewrite Hn in Hn'. injection Hn' as <-. by apply Hf.
    + intros (n' & q & Hn' & Hq & Ek). rewrite Hn in Hn'. injection Hn' as <-. by apply (Hf q).
Qed.
End Ops.
End CacheOps.
