(* ===== verification/ClusterCacheAdmin.v ===== *)
(** * The cluster cache: namespaces, limits and devices *)

From stdpp Require Import sorting.
From S2P Require Import Prelude ClusterCacheMap ClusterCacheMapFacts ClusterCache ClusterCacheFacts ClusterCacheOffline ClusterCacheOps.

Module CacheAdmin.
Import ClusterCacheKey ClusterCacheEntry ClusterCacheMap ClusterCacheDevice ClusterCache MapFacts PtrFacts CacheInv CacheSteps CacheData CacheOffline CacheOps.

Section Admin.
Variable cs : Z.
Hypothesis Hcs : 0 < cs.
Variable avg : Z.
Abbreviation inv := (inv cs).
Abbreviation good := (good cs).

(** One namespace, and the lists of its entries, after a change. *)
Definition rebuilt (h : Z) (n' : Namespace) (I L : list ptr) (c : Cache) : Cache :=
  mkCache (manager_ c) (<[h := n']> (namespaces_ c)) I L (num_hits c) (num_misses c) (files c) (drawn c).

Record reshaped (c : Cache) (n n' : Namespace) (I L : list ptr) : Prop := mkReshaped {
  e_wf : wf (key_of (devs c)) (map n');
  e_sub : forall q, q ∈ all (map n') -> q ∈ all (map n);
  e_own : match max_entries n' with
    | Some m => lru n' ≡ₚ all (map n') /\ Z.of_nat (length (all (map n'))) <= m < 2 ^ 64
    | None => lru n' = []
    end;
  e_lru : NoDup L;
  e_lru_in : forall q, q ∈ L <-> (q ∈ lru_ c /\ q ∉ all (map n)) \/ (max_entries n' = None /\ q ∈ all (map n'));
  e_inval : NoDup I;
  e_inval_in : forall q, q ∈ I -> q ∈ invalidated_entries_ c \/ (q ∈ all (map n) /\ q ∉ all (map n')) }.

Lemma rebuilt_good A c h n n' I L : good A c -> namespaces_ c !! h = Some n -> reshaped c n n' I L -> good A (rebuilt h n' I L c).
Proof.
  intros [[H1 H2 H3 H4 H5 H6 H7 H8 H9 H10 H11] Hh] Hn [R1 R2 R3 R4 R5 R6 R7]. destruct (H6 h n Hn) as [W1 W2 W3 W4].
  assert (forall h' q n0, namespaces_ c !! h' = Some n0 -> q ∈ all (map n0) -> q ∈ all (map n) -> h' = h) as Hone.
  { intros h' q n0 Hn0 Hq Hqn. destruct (H6 h' n0 Hn0) as [_ W2' _ _]. rewrite <- (W2' q Hq). by apply W2. }
  split.
  - split; try done; cbn [rebuilt namespaces_ lru_ invalidated_entries_ manager_ drawn].
    + intros h' n0 [(<- & <-)|[Hne Hn0]]%lookup_insert_Some.
      * split; cbn [rebuilt manager_ lru_]; [done|intros q Hq; by apply W2, R2|intros q Hq; by apply W3, R2|].
        destruct (max_entries n') eqn:Em; [done|]. split; [done|]. intros q Hq. apply R5. by right.
      * destruct (H6 h' n0 Hn0) as [V1 V2 V3 V4]. split; try done. cbn [rebuilt lru_]. destruct (max_entries n0); [done|]. destruct V4 as [? V4]. split; [done|].
        intros q Hq. apply R5. left. split; [by apply V4|]. intros Hqn. by apply Hne, eq_sym, (Hone h' q n0).
    + intros q [[Hq Hqn]|[Hm Hq]]%R5.
      * destruct (H8 q Hq) as (n0 & Hn0 & Hx & Hin). exists n0. rewrite lookup_insert_ne; [done|]. intros E. rewrite <- E in Hn0. congruence.
      * exists n'. rewrite (W2 q (R2 q Hq)), lookup_insert_eq. done.
    + intros q [Hq|[Hq _]]%R7; [by apply H10|by apply W3].
    + intros q h' n0 HqI [(<- & <-)|[Hne Hn0]]%lookup_insert_Some Hq; destruct (R7 q HqI) as [Hqi|[Hqn Hqn']].
      * by apply (H11 q h n Hqi Hn), R2.
      * done.
      * by apply (H11 q h' n0 Hqi Hn0).
      * by apply Hne, eq_sym, (Hone h' q n0).
  - eapply holds_sub; [|exact Hh]. cbn [rebuilt namespaces_]. intros h' n0 q [(<- & <-)|[Hne Hn0]]%lookup_insert_Some Hq _; [exists n|exists n0]; split_and!; try done. by apply R2.
Qed.

(** The part of the invariant that the lists of one namespace give. *)
Lemma ns_lists c h n : inv c -> namespaces_ c !! h = Some n -> NoDup (all (map n)) /\ NoDup (lru_ c) /\ NoDup (invalidated_entries_ c) /\
  (forall q, q ∈ all (map n) -> q ∉ invalidated_entries_ c) /\
  match max_entries n with
  | Some m => lru n ≡ₚ all (map n) /\ Z.of_nat (length (all (map n))) <= m < 2 ^ 64 /\ forall q, q ∈ all (map n) -> q ∉ lru_ c
  | None => lru n = [] /\ forall q, q ∈ all (map n) -> q ∈ lru_ c
  end.
Proof.
  intros Hi Hn. pose proof (i_ns _ c Hi h n Hn) as [W1 W2 W3 W4]. split_and!; [by eapply all_NoDup|apply Hi|apply Hi| |].
  - intros q Hq Hqi. by eapply (i_inval_out _ c Hi).
  - destruct (max_entries n) as [m|] eqn:Em; [|done]. destruct W4 as [W4 W5]. split_and!; [done|lia|lia|]. intros q Hq Hl.
    destruct (i_lru_in _ c Hi q Hl) as (n0 & Hn0 & Hx & _). rewrite (W2 q Hq), Hn in Hn0. congruence.
Qed.

(** *** New namespaces *)
Lemma create_namespace_runs A h c : good A c -> 0 <= best_size avg (totalSizeInEntries cs c) < 31 ->
  runs (maybe_create_namespace_ cs avg h) c (fun _ c' => good A c' /\ is_Some (namespaces_ c' !! h) /\
    (forall h' n, namespaces_ c !! h' = Some n -> namespaces_ c' !! h' = Some n) /\ invalidated_entries_ c' = invalidated_entries_ c).
Proof.
  intros Hg Hb. pose proof Hg as [Hi Hh]. unfold maybe_create_namespace_. apply runs_bind, runs_get. unfold find_namespace_. destruct (namespaces_ c !! h) as [n|] eqn:Hn.
  { apply runs_ret. split_and!; [done|by eexists|done|done]. }
  destruct (new_map_spec (key_of (devs c)) _ Hb) as (m & E & Hw & Hall). apply runs_bind. eapply runs_lift; [exact E|]. apply runs_modify.
  split_and!; [|cbn; rewrite lookup_insert_eq; by eexists|intros h' n' Hn'; cbn; rewrite lookup_insert_ne; [done|]; intros ->; congruence|done].
  destruct Hi as [H1 H2 H3 H4 H5 H6 H7 H8 H9 H10 H11]. split.
  - split; try done; cbn [with_namespaces namespaces_ lru_ invalidated_entries_ manager_ drawn].
    + intros h' n' [(<- & <-)|[Hne Hn']]%lookup_insert_Some; [|by destruct (H6 h' n' Hn')].
      split; cbn [map max_entries lru]; [done|..]; rewrite Hall; [by intros p ?%elem_of_nil..|]. split; [done|]. by intros p ?%elem_of_nil.
    + intros q Hq. destruct (H8 q Hq) as (n' & Hn' & Hx & Hin). exists n'. rewrite lookup_insert_ne; [done|]. intros E'. congruence.
    + intros q h' n' Hq [(<- & <-)|[Hne Hn']]%lookup_insert_Some; cbn [map]; [rewrite Hall; apply not_elem_of_nil|by eapply H11].
  - unfold holds; cbn [with_namespaces namespaces_ manager_].
    intros h' n' q [(<- & <-)|[Hne Hn']]%lookup_insert_Some Hq Hx; [cbn [map] in Hq; rewrite Hall in Hq; by apply elem_of_nil in Hq|]. by apply (Hh h' n' q).
Qed.

(** *** Lists of one namespace *)
Definition without_all (es l : list ptr) : list ptr := List.filter (fun q => negb (bool_decide (q ∈ es))) l.

Lemma elem_without_all es l q : q ∈ without_all es l <-> q ∈ l /\ q ∉ es.
Proof. unfold without_all. rewrite elem_of_lfilter, negb_true_iff, bool_decide_eq_false. done. Qed.

Lemma without_all_cons p es l : without_all es (without_ptr p l) = without_all (p :: es) l.
Proof.
  unfold without_all, without_ptr. induction l as [|q l IH]; [done|]. cbn [List.filter]. destruct (decide (q = p)) as [->|Hne].
  - rewrite (bool_decide_eq_true_2 (p = p)), (bool_decide_eq_true_2 (p ∈ p :: es)) by first [done|left]. cbn. exact IH.
  - rewrite (bool_decide_eq_false_2 (q = p)) by done. cbn [negb List.filter]. rewrite IH.
    rewrite (bool_decide_ext (q ∈ p :: es) (q ∈ es)); [done|]. rewrite elem_of_cons. naive_solver.
Qed.

Lemma NoDup_without_all es l : NoDup l -> NoDup (without_all es l).
Proof. intros H. eapply sublist_NoDup; [exact H|apply lfilter_sublist]. Qed.

(** An entry that is at most in the lists of namespace [h] and the common one. *)
Definition loose (c : Cache) (h : Z) (p : ptr) : Prop :=
  p ∉ invalidated_entries_ c /\ forall h' n', h' <> h -> namespaces_ c !! h' = Some n' -> p ∉ lru n'.

Lemma mapped_loose c h n p : inv c -> namespaces_ c !! h = Some n -> p ∈ all (map n) -> loose c h p.
Proof.
  intros Hi Hn Hp. split; [by apply (ns_lists c h n Hi Hn)|]. intros h' n' Hne Hn' Hl. pose proof (i_ns _ c Hi h' n' Hn') as [_ V2 _ V4].
  destruct (max_entries n'); [|destruct V4 as [V4 _]; rewrite V4 in Hl; by apply elem_of_nil in Hl].
  destruct V4 as [V4 _]. rewrite V4 in Hl. apply Hne. rewrite <- (V2 p Hl). by apply (n_handle _ _ _ (i_ns _ c Hi h n Hn)).
Qed.

Lemma rebuilt_loose c h n' I L q : loose c h q -> q ∉ I -> loose (rebuilt h n' I L c) h q.
Proof. intros [H1 H2] HI. split; [done|]. intros h' n0 Hne Hn0. cbn in Hn0. rewrite lookup_insert_ne in Hn0 by done. by eapply H2. Qed.

Lemma rebuilt_twice h n1 I1 L1 n2 I2 L2 c : rebuilt h n2 I2 L2 (rebuilt h n1 I1 L1 c) = rebuilt h n2 I2 L2 c.
Proof. unfold rebuilt. cbn. by rewrite insert_insert_eq. Qed.

Lemma rebuilt_id h n c : namespaces_ c !! h = Some n -> rebuilt h n (invalidated_entries_ c) (lru_ c) c = c.
Proof. intros Hn. unfold rebuilt. rewrite insert_id by done. by destruct c. Qed.

Lemma unlink_loose c h n p : namespaces_ c !! h = Some n -> loose c h p ->
  unlink_entry_from_dlist_ p c = rebuilt h (with_ns_lru (without_ptr p (lru n)) n) (invalidated_entries_ c) (without_ptr p (lru_ c)) c.
Proof.
  intros Hn [Hpi Hpo]. unfold unlink_entry_from_dlist_, rebuilt. rewrite (without_absent p (invalidated_entries_ c)) by done. f_equal.
  apply map_eq. intros h'. rewrite lookup_fmap. destruct (decide (h' = h)) as [->|Hne]; [by rewrite Hn, lookup_insert_eq|].
  rewrite lookup_insert_ne by done. destruct (namespaces_ c !! h') as [n'|] eqn:En'; [|done]. cbn. f_equal.
  destruct n' as [m l x]. unfold with_ns_lru. cbn. f_equal. by apply without_absent, (Hpo h' _ Hne En').
Qed.

(** *** Deregistering *)
Lemma invalidate_all_eq es c h n : namespaces_ c !! h = Some n -> NoDup es -> (forall p, p ∈ es -> loose c h p) ->
  miter (fun p => mmodify (unlink_entry_from_dlist_ p) ;! mmodify (fun c => with_invalidated (p :: invalidated_entries_ c) c)) es c =
    (rebuilt h (with_ns_lru (without_all es (lru n)) n) (rev es ++ invalidated_entries_ c) (without_all es (lru_ c)) c, Ok tt).
Proof.
  revert c n. induction es as [|p es IH]; intros c n Hn Hnd Hl.
  - cbn. unfold mret. do 2 f_equal. assert (forall l, without_all [] l = l) as E.
    { intros l. unfold without_all. induction l as [|q l IHl]; [done|]. cbn [List.filter]. by rewrite IHl. }
    rewrite !E. rewrite <- (rebuilt_id h n c Hn) at 1. by destruct n.
  - apply NoDup_cons in Hnd as [Hp Hnd]. pose proof (unlink_loose c h n p Hn (Hl p ltac:(left))) as Hu. set (f := fun p => _) in *.
    set (n1 := with_ns_lru (without_ptr p (lru n)) n) in *. set (L1 := without_ptr p (lru_ c)) in *.
    assert (f p c = (rebuilt h n1 (p :: invalidated_entries_ c) L1 c, Ok tt)) as E by (unfold f, mbind, mmodify; by rewrite Hu).
    cbn [miter]. unfold mbind. rewrite E, (IH _ n1); [|apply lookup_insert_eq|done|].
    + rewrite rebuilt_twice. cbn [lru n1 with_ns_lru L1 rebuilt lru_ invalidated_entries_ rev]. unfold L1, n1. cbn [lru with_ns_lru]. rewrite !without_all_cons.
      unfold with_ns_lru. cbn [map max_entries]. by rewrite <- app_assoc.
    + intros q Hq. apply rebuilt_loose; [apply Hl; by right|]. intros [->|Hqi]%elem_of_cons; [done|]. by apply (proj1 (Hl q ltac:(by right))).
Qed.

Lemma spec_deregister_other A h h' k d : h' <> h -> allowed A h' k d -> allowed (spec_deregister h A) h' k d.
Proof. intros Hne. unfold allowed, spec_deregister. cbn. destruct (h' =? content_based_handle); [done|]. by rewrite (proj2 (Z.eqb_neq h' h)). Qed.

Lemma good_deregister A c h : good A c -> namespaces_ c !! h = None -> good (spec_deregister h A) c.
Proof.
  intros [Hi Hh] Hn. split; [done|]. intros h' n q Hn' Hq Hx. destruct (Hh h' n q Hn' Hq Hx) as (d & Hd & Ha). exists d. split; [done|].
  apply spec_deregister_other; [congruence|done].
Qed.

(** A namespace without entries goes. *)
Lemma delete_good A c h n : good A c -> namespaces_ c !! h = Some n -> all (map n) = [] -> good A (with_namespaces (delete h (namespaces_ c)) c).
Proof.
  intros [[H1 H2 H3 H4 H5 H6 H7 H8 H9 H10 H11] Hh] Hn He. split.
  - split; try done; cbn [with_namespaces namespaces_ lru_ invalidated_entries_ manager_ drawn].
    + intros h' n' [_ Hn']%lookup_delete_Some. by destruct (H6 h' n' Hn').
    + intros q Hq. destruct (H8 q Hq) as (n' & Hn' & Hx & Hin). exists n'. rewrite lookup_delete_ne; [done|]. intros E. rewrite <- E, Hn in Hn'. injection Hn' as <-.
      rewrite He in Hin. by apply elem_of_nil in Hin.
    + intros q h' n' Hq [_ Hn']%lookup_delete_Some. by eapply H11.
  - intros h' n' q Hn' Hq Hx. cbn in Hn'. apply lookup_delete_Some in Hn' as [_ Hn']. by apply (Hh h' n' q).
Qed.

Lemma empty_ns_reshaped c h n I L m : inv c -> namespaces_ c !! h = Some n -> wf (key_of (devs c)) m -> all m = [] ->
  I = rev (all (map n)) ++ invalidated_entries_ c -> L = without_all (all (map n)) (lru_ c) -> reshaped c n (mkNamespace m [] None) I L.
Proof.
  intros Hi Hn Hw He -> ->. destruct (ns_lists c h n Hi Hn) as (N1 & N2 & N3 & N4 & _). split; cbn [map max_entries lru]; rewrite ?He.
  - done.
  - by intros q ?%elem_of_nil.
  - done.
  - by apply NoDup_without_all.
  - intros q. rewrite elem_without_all, elem_of_nil. naive_solver.
  - apply NoDup_app. split_and!; [by rewrite <- Permutation_rev| |done]. intros q Hq. apply N4. by rewrite <- Permutation_rev in Hq.
  - intros q [Hq|Hq]%elem_of_app; [right|by left]. rewrite <- Permutation_rev in Hq. split; [done|apply not_elem_of_nil].
Qed.

Lemma deregister_runs A h c : good A c -> runs (deregister_ h) c (fun _ c' => good (spec_deregister h A) c' /\ namespaces_ c' !! h = None /\
  (forall h', h' <> h -> namespaces_ c' !! h' = namespaces_ c !! h') /\ manager_ c' = manager_ c).
Proof.
  intros Hg. pose proof Hg as [Hi Hh]. unfold deregister_. apply runs_bind, runs_get. unfold find_namespace_. destruct (namespaces_ c !! h) as [n|] eqn:Hn.
  2: { apply runs_ret. split_and!; [by apply good_deregister|done|done|done]. }
  apply runs_bind. eexists tt, _. split; [apply (invalidate_all_eq _ c h n Hn); [by apply (ns_lists c h n)|intros p Hp; by eapply mapped_loose]|].
  apply runs_modify. destruct (new_map_spec (key_of (devs c)) 0 ltac:(lia)) as (m & _ & Hw & He).
  set (I := rev _ ++ _). set (L := without_all _ (lru_ c)).
  pose proof (rebuilt_good A c h n _ I L Hg Hn (empty_ns_reshaped c h n I L m Hi Hn Hw He eq_refl eq_refl)) as Hg1.
  pose proof (delete_good A _ h _ Hg1 (lookup_insert_eq _ _ _) He) as Hg2. cbn [rebuilt namespaces_] in Hg2 |- *. rewrite delete_insert_eq in Hg2 |- *. split_and!.
  - apply good_deregister; [exact Hg2|apply lookup_delete_eq].
  - apply lookup_delete_eq.
  - intros h' Hne. cbn. by rewrite lookup_delete_ne.
  - done.
Qed.

(** *** Limits *)
Lemma shrink_runs A h k c n m : good A c -> namespaces_ c !! h = Some n -> max_entries n = Some m -> (k <= length (all (map n)))%nat ->
  runs (shrink h k) c (fun _ c' => good A c' /\ exists n', namespaces_ c' !! h = Some n' /\ max_entries n' = Some m /\
    length (all (map n')) = (length (all (map n)) - k)%nat /\ forall h', h' <> h -> namespaces_ c' !! h' = namespaces_ c !! h').
Proof.
  revert c n. induction k as [|k IH]; intros c n Hg Hn Hm Hk.
  { apply runs_ret. split; [done|]. exists n. split_and!; [done|done|lia|done]. }
  pose proof Hg as [Hi Hh]. pose proof (n_lists _ _ _ (i_ns _ c Hi h n Hn)) as HL. rewrite Hm in HL. destruct HL as [HL _].
  destruct (recycle_own_runs cs c h n m Hi Hn Hm) as (p & c1 & E & Hd).
  { intros E. rewrite E in HL. apply Permutation_length in HL. cbn in HL. lia. }
  cbn [shrink]. apply runs_bind, (namespace_runs c h n _ Hn). unfold recycle_own in E. destruct (last (lru n)) as [p0|]; [|done].
  unfold mbind at 1, on_namespace, mmodify in E. apply runs_bind. unfold on_namespace. apply runs_modify.
  apply runs_bind. unfold mbind in E. destruct (map_remove h p0 _) as [c2 [b|e]] eqn:Er; [|done]. eexists b, c2. split; [exact Er|].
  destruct b; [|done]. cbn in E. injection E as -> ->. destruct (drops_inv cs c h p c1 Hi Hd) as [Hi1 Hsp].
  destruct (drops_frame _ _ _ _ Hd) as (_ & _ & _ & _ & _ & Hns & Hdom & _). destruct (Hdom h) as [n1 Hn1]; [by eexists|].
  destruct (Hns h n1 Hn1) as (n0 & Hn0 & Hm0 & _ & _ & Hlen & _). rewrite Hn in Hn0. injection Hn0 as <-. specialize (Hlen eq_refl).
  apply runs_bind, runs_modify. eapply runs_mono; [apply (IH _ n1)|].
  - split; [apply (invalidated_inv cs c1 p); done|]. pose proof (drops_holds A nobody _ _ _ _ Hd Hh) as Hh1. exact Hh1.
  - done.
  - congruence.
  - lia.
  - intros [] c3 (Hg3 & n3 & Hn3 & Hm3 & Hl3 & Ho3). split; [done|]. exists n3. split_and!; [done|done|lia|]. intros h' Hne. rewrite (Ho3 h' Hne).
    destruct Hd as (n2 & m2 & _ & _ & -> & _). unfold dropped. cbn. destruct (max_entries n2); cbn; by rewrite lookup_insert_ne.
Qed.

Lemma impose_eq es h k acc c n : namespaces_ c !! h = Some n -> NoDup es -> (forall p, p ∈ es -> loose c h p /\ p ∉ lru n) ->
  impose h es k acc c =
    (rebuilt h (with_ns_lru (rev (drop k es) ++ lru n) n) (invalidated_entries_ c) (without_all es (lru_ c)) c, Ok (rev (take k es) ++ acc)).
Proof.
  revert k acc c n. induction es as [|p es IH]; intros k acc c n Hn Hnd Hl.
  - rewrite drop_nil, take_nil. cbn. unfold mret. do 2 f_equal. assert (without_all [] (lru_ c) = lru_ c) as ->.
    { unfold without_all. induction (lru_ c) as [|q l IHl]; [done|]. cbn [List.filter]. by rewrite IHl. }
    rewrite <- (rebuilt_id h n c Hn) at 1. by destruct n.
  - apply NoDup_cons in Hnd as [Hp Hnd]. destruct (Hl p ltac:(left)) as [Hlp Hpn]. pose proof (unlink_loose c h n p Hn Hlp) as Hu.
    rewrite (without_absent p (lru n) Hpn) in Hu. replace (with_ns_lru (lru n) n) with n in Hu by (by destruct n).
    cbn [impose]. unfold mbind at 1, mmodify at 1. rewrite Hu. set (L1 := without_ptr p (lru_ c)). set (c1 := rebuilt h n _ L1 c).
    assert (namespaces_ c1 !! h = Some n) as Hn1 by apply lookup_insert_eq.
    assert (forall q, q ∈ es -> loose c1 h q /\ q ∉ lru n) as Hl1.
    { intros q Hq. destruct (Hl q ltac:(by right)) as [Hlq Hqn]. split; [|done]. apply rebuilt_loose; [done|apply Hlq]. }
    destruct k as [|k].
    + unfold mbind, on_namespace, mmodify. rewrite (alter_some _ _ _ n Hn1).
      change (with_namespaces _ c1) with (rebuilt h (with_ns_lru (p :: lru n) n) (invalidated_entries_ c1) L1 c1).
      unfold c1. rewrite rebuilt_twice. cbn [invalidated_entries_ rebuilt]. rewrite (IH 0%nat acc _ (with_ns_lru (p :: lru n) n)).
      * rewrite rebuilt_twice. cbn [rebuilt invalidated_entries_ lru_ lru with_ns_lru map max_entries drop take rev]. unfold L1. rewrite without_all_cons.
        unfold with_ns_lru. cbn [map max_entries lru]. by rewrite drop_0, <- app_assoc.
      * apply lookup_insert_eq.
      * done.
      * intros q Hq. destruct (Hl q ltac:(by right)) as [Hlq Hqn]. split; [apply rebuilt_loose; [done|apply Hlq]|].
        cbn. intros [->|?]%elem_of_cons; [done|done].
    + rewrite (IH k (p :: acc) c1 n Hn1 Hnd Hl1). unfold c1. rewrite rebuilt_twice. cbn [rebuilt invalidated_entries_ lru_ drop take rev]. unfold L1. rewrite without_all_cons.
      by rewrite <- app_assoc.
Qed.

Lemma invalidate_removed_runs l h c n : namespaces_ c !! h = Some n -> wf (key_of (devs c)) (map n) -> NoDup l -> (forall p, p ∈ l -> p ∈ all (map n)) ->
  runs (miter (invalidate_removed h) l) c (fun _ c' => exists m', wf (key_of (devs c)) m' /\ all (map n) ≡ₚ l ++ all m' /\
    c' = rebuilt h (with_ns_map m' n) (rev l ++ invalidated_entries_ c) (lru_ c) c).
Proof.
  revert c n. induction l as [|p l IH]; intros c n Hn Hw Hnd Hl.
  { apply runs_ret. exists (map n). split_and!; [done|done|]. cbn. symmetry. replace (with_ns_map (map n) n) with n by (by destruct n). by apply rebuilt_id. }
  apply NoDup_cons in Hnd as [Hp Hnd]. cbn [miter]. apply runs_bind. destruct (map_remove_eq c h n p Hn Hw) as (m1 & E & Hw1 & Hperm); [apply Hl; left|].
  unfold invalidate_removed. apply runs_bind. eexists _, _. split; [exact E|]. apply runs_bind, runs_mverify; [done|]. apply runs_modify.
  change (with_invalidated _ (with_namespaces _ c)) with (rebuilt h (with_ns_map m1 n) (p :: invalidated_entries_ c) (lru_ c) c).
  eapply runs_mono; [apply (IH _ (with_ns_map m1 n))|].
  - apply lookup_insert_eq.
  - done.
  - done.
  - intros q Hq. cbn. pose proof (Hl q ltac:(by right)) as Hqn. rewrite Hperm in Hqn. apply elem_of_cons in Hqn as [->|?]; done.
  - intros [] c' (m' & Hw' & Hp' & ->). exists m'. split_and!; [done| |].
    + cbn [map with_ns_map] in Hp'. by rewrite Hperm, Hp'.
    + rewrite rebuilt_twice. cbn [rebuilt rev invalidated_entries_ lru_]. rewrite <- app_assoc. done.
Qed.

(** The lists are as the limit wants them. *)
Definition staged (A : Spec) (h : Z) (limit : option Z) (c c1 : Cache) : Prop :=
  exists c0 n0 n1 I L, good A c0 /\ namespaces_ c0 !! h = Some n0 /\ c1 = rebuilt h n1 I L c0 /\ reshaped c0 n0 (with_max limit n1) I L /\
    (forall h', h' <> h -> namespaces_ c0 !! h' = namespaces_ c !! h') /\ (limit = None -> manager_ c0 = manager_ c).

Definition limited (A : Spec) (h : Z) (limit : option Z) (c c' : Cache) : Prop :=
  good A c' /\ (exists n', namespaces_ c' !! h = Some n' /\ max_entries n' = limit) /\ forall h', h' <> h -> namespaces_ c' !! h' = namespaces_ c !! h'.

Lemma reshaped_perm c n n' m I L : reshaped c n n' I L -> wf (key_of (devs c)) m -> all m ≡ₚ all (map n') -> reshaped c n (with_ns_map m n') I L.
Proof.
  intros [R1 R2 R3 R4 R5 R6 R7] Hw Hp. split; cbn [with_ns_map map max_entries lru]; [done| | |done| |done|].
  - intros q. rewrite Hp. apply R2.
  - destruct (max_entries n'); [|done]. by rewrite Hp.
  - intros q. rewrite Hp. apply R5.
  - intros q Hq. rewrite Hp. by apply R7.
Qed.

Lemma staged_runs A h limit c c1 : staged A h limit c c1 -> 0 <= best_size avg (match limit with Some l => l | None => totalSizeInEntries cs c end) < 31 ->
  runs (let! c := mget in
        let! n := namespace h in
        let! m := mlift (resize (key_of (devices (manager_ c)))
          (best_size avg (match limit with Some l => l | None => totalSizeInEntries cs c end)) (map n)) in
        on_namespace h (with_ns_map m) ;!
        on_namespace h (with_max limit)) c1 (fun _ => limited A h limit c).
Proof.
  intros (c0 & n0 & n1 & I & L & Hg & Hn0 & -> & Hr & Ho & Hmg) Hb. apply runs_bind, runs_get. set (c1 := rebuilt h n1 I L c0).
  assert (namespaces_ c1 !! h = Some n1) as Hn1 by apply lookup_insert_eq. apply runs_bind, (namespace_runs c1 h n1 _ Hn1).
  assert (match limit with Some l => l | None => totalSizeInEntries cs c1 end = match limit with Some l => l | None => totalSizeInEntries cs c end) as ->.
  { destruct limit; [done|]. unfold totalSizeInEntries. cbn [c1 rebuilt manager_]. by rewrite Hmg. }
  destruct (resize_spec (key_of (devs c0)) _ (map n1) Hb (e_wf _ _ _ _ _ Hr)) as (m & E & Hw & Hp).
  apply runs_bind. eapply runs_lift; [exact E|]. apply runs_bind. unfold on_namespace. apply runs_modify, runs_modify. rewrite (alter_some _ _ _ n1 Hn1).
  set (n2 := with_max limit (with_ns_map m n1)).
  assert (with_namespaces (alter (with_max limit) h (namespaces_ (with_namespaces (<[h := with_ns_map m n1]> (namespaces_ c1)) c1)))
    (with_namespaces (<[h := with_ns_map m n1]> (namespaces_ c1)) c1) = rebuilt h n2 I L c0) as ->.
  { cbn [with_namespaces namespaces_]. rewrite alter_insert_eq. unfold c1, rebuilt, with_namespaces. cbn. by rewrite insert_insert_eq. }
  split_and!.
  - apply (rebuilt_good A c0 h n0); [done|done|]. by apply (reshaped_perm c0 n0 (with_max limit n1) m I L).
  - exists n2. split; [apply lookup_insert_eq|done].
  - intros h' Hne. cbn. rewrite lookup_insert_ne by done. by apply Ho.
Qed.

Lemma reshaped_id c h n limit : inv c -> namespaces_ c !! h = Some n ->
  match max_entries n, limit with Some _, Some l => Z.of_nat (length (all (map n))) <= l < 2 ^ 64 | None, None => True | _, _ => False end ->
  reshaped c n (with_max limit n) (invalidated_entries_ c) (lru_ c).
Proof.
  intros Hi Hn Hl. destruct (ns_lists c h n Hi Hn) as (N1 & N2 & N3 & N4 & N5). split; cbn [with_max map lru max_entries]; [|done| |done| |done|by left].
  - apply (i_ns _ c Hi h n Hn).
  - destruct (max_entries n), limit; try done; [|apply N5]. split; [apply N5|done].
  - intros q. destruct (max_entries n) as [m|], limit; try done.
    + split; [|naive_solver]. intros Hq. left. split; [done|]. intros Hqn. by apply (proj2 (proj2 N5) q).
    + split; [|intros [[? _]|[_ ?]]; [done|by apply N5]]. intros Hq. destruct (decide (q ∈ all (map n))); [by right|by left].
Qed.

Lemma surplus_runs c h n l (Q : nat -> Cache -> Prop) : namespaces_ c !! h = Some n -> wf (key_of (devs c)) (map n) -> 0 < l < 2 ^ 63 ->
  Z.of_nat (length (all (map n))) < 2 ^ 63 -> Q (length (all (map n)) - Z.to_nat l)%nat c -> runs (surplus_over h l) c Q.
Proof.
  intros Hn Hw Hl Hlen HQ. unfold surplus_over. apply runs_bind, (map_entries_runs c h n _ Hn Hw). apply runs_ret.
  replace (Z.to_nat _) with (length (all (map n)) - Z.to_nat l)%nat; [done|]. unfold s64, wrap. set (x := Z.of_nat (length (all (map n)))) in *.
  rewrite (Z.mod_small x) by lia. destruct (Z_le_gt_dec l x).
  - rewrite (Z.mod_small (x - l)) by lia. rewrite (proj2 (Z.ltb_lt _ _)) by lia. lia.
  - replace ((x - l) mod 2 ^ 64) with (x - l + 2 ^ 64) by (apply (Z.mod_unique_pos _ _ (-1)); lia). rewrite (proj2 (Z.ltb_ge _ _)) by lia. lia.
Qed.

Lemma verify_limit_runs c h n l (Q : unit -> Cache -> Prop) : namespaces_ c !! h = Some n -> wf (key_of (devs c)) (map n) ->
  Z.of_nat (length (all (map n))) <= l < 2 ^ 63 -> Q tt c -> runs (verify_limit h l) c Q.
Proof.
  intros Hn Hw Hl HQ. unfold verify_limit. apply runs_bind, (map_entries_runs c h n _ Hn Hw). apply runs_mverify; [|done].
  apply Z.leb_le. unfold wrap. rewrite Z.mod_small by lia. lia.
Qed.

Lemma lifted_reshaped c h n : inv c -> namespaces_ c !! h = Some n -> is_Some (max_entries n) ->
  reshaped c n (with_max None (with_ns_lru [] n)) (invalidated_entries_ c) (lru_ c ++ lru n).
Proof.
  intros Hi Hn [m Hm]. destruct (ns_lists c h n Hi Hn) as (N1 & N2 & N3 & N4 & N5). rewrite Hm in N5. destruct N5 as (N5 & _ & N6).
  split; cbn [with_max with_ns_lru map lru max_entries]; [|done|done| | |done|by left].
  - apply (i_ns _ c Hi h n Hn).
  - apply NoDup_app. split_and!; [done| |by rewrite N5]. intros q Hq Hl. rewrite N5 in Hl. by apply (N6 q).
  - intros q. rewrite elem_of_app, N5. split; [|naive_solver]. intros [Hq|Hq]; [|by right]. left. split; [done|]. intros Hqn. by apply (N6 q).
Qed.

Lemma imposed_reshaped c h n m' l k : inv c -> namespaces_ c !! h = Some n -> max_entries n = None -> wf (key_of (devs c)) m' ->
  all (map n) ≡ₚ rev (take k (all (map n))) ++ all m' -> Z.of_nat (length (drop k (all (map n)))) <= l < 2 ^ 64 ->
  reshaped c n (mkNamespace m' (rev (drop k (all (map n)))) (Some l)) (rev (rev (take k (all (map n)))) ++ invalidated_entries_ c) (without_all (all (map n)) (lru_ c)).
Proof.
  intros Hi Hn Hm Hw Hp Hl. destruct (ns_lists c h n Hi Hn) as (N1 & N2 & N3 & N4 & N5). set (es := all (map n)) in *.
  assert (all m' ≡ₚ drop k es) as Hd.
  { apply (Permutation_app_inv_l (rev (take k es))). rewrite <- Hp. rewrite <- (take_drop k es) at 1. apply Permutation_app_tail, Permutation_rev. }
  assert (forall q, q ∈ take k es -> q ∈ es /\ q ∉ all m') as Htk.
  { intros q Hq. rewrite <- (take_drop k es). split; [apply elem_of_app; by left|]. rewrite Hd. rewrite <- (take_drop k es) in N1. by apply NoDup_app in N1 as (_ & N1 & _); apply N1. }
  rewrite rev_involutive. split; cbn [map lru max_entries].
  - done.
  - intros q Hq. fold es. rewrite Hp. apply elem_of_app. by right.
  - rewrite <- Permutation_rev, Hd. done.
  - by apply NoDup_without_all.
  - intros q. rewrite elem_without_all. naive_solver.
  - apply NoDup_app. split_and!; [|intros q Hq; by apply N4, Htk|done]. eapply sublist_NoDup; [exact N1|apply sublist_take].
  - intros q [Hq|Hq]%elem_of_app; [right; by apply Htk|by left].
Qed.

Lemma impose_runs A h l c n : good A c -> namespaces_ c !! h = Some n -> max_entries n = None -> 0 < l < 2 ^ 63 -> Z.of_nat (length (all (map n))) < 2 ^ 63 ->
  runs (let! surplus := surplus_over h l in
        let! to_invalidate := impose h (all (map n)) surplus [] in
        miter (invalidate_removed h) to_invalidate ;!
        verify_limit h l) c (fun _ => staged A h (Some l) c).
Proof.
  intros Hg Hn Hm Hl Hlen. pose proof Hg as [Hi Hh]. pose proof (i_ns _ c Hi h n Hn) as Hok. destruct (ns_lists c h n Hi Hn) as (N1 & N2 & N3 & N4 & N5).
  rewrite Hm in N5. destruct N5 as [El _]. apply runs_bind, (surplus_runs c h n l _ Hn (n_wf _ _ _ Hok) Hl Hlen).
  set (es := all (map n)) in *. set (k := (length es - Z.to_nat l)%nat).
  apply runs_bind. eexists _, _. split; [apply (impose_eq es h k [] c n Hn N1)|].
  { intros p Hp. split; [by eapply mapped_loose|]. rewrite El. apply not_elem_of_nil. }
  rewrite El, !app_nil_r. set (n1 := with_ns_lru (rev (drop k es)) n). set (L := without_all es (lru_ c)). set (c1 := rebuilt h n1 _ L c).
  assert (namespaces_ c1 !! h = Some n1) as Hn1 by apply lookup_insert_eq. apply runs_bind.
  eapply runs_mono; [apply (invalidate_removed_runs _ h c1 n1 Hn1 (n_wf _ _ _ Hok))|].
  { rewrite <- Permutation_rev. eapply sublist_NoDup; [exact N1|apply sublist_take]. }
  { intros p Hp. rewrite <- Permutation_rev in Hp. cbn. fold es. rewrite <- (take_drop k es). apply elem_of_app. by left. }
  intros [] c2 (m' & Hw & Hp & ->). unfold c1. rewrite rebuilt_twice. cbn [map n1 with_ns_lru] in Hp. fold es in Hp.
  cbn [rebuilt invalidated_entries_ lru_]. set (I := rev (rev (take k es)) ++ invalidated_entries_ c).
  assert (Z.of_nat (length (drop k es)) <= l) as Hk by (rewrite length_drop; unfold k; lia).
  assert (length (all m') = length (drop k es)) as Elen.
  { apply Permutation_length in Hp. rewrite length_app, length_rev, length_take in Hp. rewrite length_drop. lia. }
  apply (verify_limit_runs _ h (with_ns_map m' n1)); [apply lookup_insert_eq|done|cbn [map with_ns_map]; rewrite Elen; lia|].
  exists c, n, (with_ns_map m' n1), I, L. split_and!; try done.
  apply (imposed_reshaped c h n m' l k); [done|done|done|done|done|fold es; lia].
Qed.

Lemma set_max_runs A h limit c n : good A c -> namespaces_ c !! h = Some n -> (forall l, limit = Some l -> 0 < l < 2 ^ 63) ->
  Z.of_nat (length (all (map n))) < 2 ^ 63 -> 0 <= best_size avg (match limit with Some l => l | None => totalSizeInEntries cs c end) < 31 ->
  runs (set_max_entries cs avg h limit) c (fun _ => limited A h limit c).
Proof.
  intros Hg Hn Hl Hlen Hb. pose proof Hg as [Hi Hh]. pose proof (i_ns _ c Hi h n Hn) as Hok. unfold set_max_entries. apply runs_bind.
  rewrite bool_decide_eq_false_2 by (intros E; pose proof (Hl 0 E); lia). apply runs_ret.
  apply runs_bind. unfold find_namespace_or_throw_. apply runs_bind, runs_get. unfold find_namespace_. rewrite Hn. apply runs_ret.
  apply runs_bind. eapply runs_mono; [|intros ? c1 Hc1; exact (staged_runs A h limit c c1 Hc1 Hb)]. pose proof (n_lists _ _ _ Hok) as HL.
  destruct (max_entries n) as [m|] eqn:Em, limit as [l|].
  - pose proof (Hl l eq_refl) as Hl'. apply runs_bind, (surplus_runs c h n l _ Hn (n_wf _ _ _ Hok) Hl' Hlen).
    apply runs_bind. eapply runs_mono; [apply (shrink_runs A h _ c n m Hg Hn Em); lia|]. intros [] c' (Hg' & n' & Hn' & Hm' & Hlen' & Ho').
    pose proof Hg' as [Hi' _]. pose proof (n_wf _ _ _ (i_ns _ c' Hi' h n' Hn')) as Hw'.
    apply (verify_limit_runs c' h n' l _ Hn' Hw'); [lia|]. exists c', n', n', (invalidated_entries_ c'), (lru_ c'). split_and!; [done|done| | |done|done].
    + symmetry. by apply rebuilt_id.
    + apply (reshaped_id c' h); [done|done|]. rewrite Hm'. lia.
  - apply runs_bind, runs_modify. unfold on_namespace. apply runs_modify. cbn [with_lru namespaces_]. rewrite (alter_some _ _ _ n Hn).
    exists c, n, (with_ns_lru [] n), (invalidated_entries_ c), (lru_ c ++ lru n). split_and!; try done. apply (lifted_reshaped c h); [done|done|by rewrite Em].
  - destruct HL as [El _]. rewrite El. apply runs_bind, runs_mverify; [done|]. by apply impose_runs; [..|apply Hl|].
  - destruct HL as [El _]. rewrite El. apply runs_mverify; [done|]. exists c, n, n, (invalidated_entries_ c), (lru_ c). split_and!; try done.
    + symmetry. by apply rebuilt_id.
    + apply (reshaped_id c h); [done|done|]. by rewrite Em.
Qed.
End Admin.
End CacheAdmin.
