(* ===== verification/ClusterCacheDevices.v ===== *)
(** * The cluster cache: devices that come and go *)

From stdpp Require Import sorting.
From S2P Require Import Prelude ClusterCacheMap ClusterCacheMapFacts ClusterCache ClusterCacheFacts ClusterCacheOffline ClusterCacheOps ClusterCacheAdmin.

Module CacheDevices.
Import ClusterCacheKey ClusterCacheEntry ClusterCacheMap ClusterCacheDevice ClusterCache MapFacts PtrFacts CacheInv CacheSteps CacheData CacheOffline CacheOps CacheAdmin.

Section Devices.
Variable cs : Z.
Hypothesis Hcs : 0 < cs.
Variable avg : Z.
Variable draw : nat -> UUID.
Abbreviation inv := (inv cs).
Abbreviation good := (good cs).

(** *** Guids *)
Definition guids (u : UUID) (ds : list Device) (fs : gmap Z File) : gmap Z File := fold_left (fun fs d => write_guid u d fs) ds fs.

Lemma guids_clusters u ds fs f : clusters (default no_file (guids u ds fs !! f)) = clusters (default no_file (fs !! f)).
Proof.
  revert fs. induction ds as [|d ds IH]; intros fs; [done|]. unfold guids. cbn. fold (guids u ds (write_guid u d fs)). rewrite IH. unfold write_guid.
  destruct (decide (f = file_ d)) as [->|Hne]; [by rewrite lookup_insert_eq|by rewrite lookup_insert_ne by done].
Qed.

Lemma guids_mark u ds fs d : d ∈ ds -> check_guid u d (guids u ds fs) = true.
Proof.
  intros Hd. unfold check_guid. apply bool_decide_eq_true. revert fs. induction ds as [|d0 ds IH]; intros fs; [by apply elem_of_nil in Hd|].
  unfold guids. cbn. fold (guids u ds (write_guid u d0 fs)). apply elem_of_cons in Hd as [->|Hd]; [|by apply IH]. clear IH.
  assert (guid (default no_file (write_guid u d0 fs !! file_ d0)) = Some u) as E by (unfold write_guid; by rewrite lookup_insert_eq).
  generalize dependent (write_guid u d0 fs). intros fs' E. revert fs' E. induction ds as [|d1 ds IH]; intros fs' E; [done|]. cbn. apply IH. unfold write_guid.
  destruct (decide (file_ d0 = file_ d1)) as [->|Hne]; [by rewrite lookup_insert_eq|by rewrite lookup_insert_ne by done].
Qed.

(** *** A new device *)

(** A device that can be opened is not too large for its counters. *)
Definition fits (path : string) (size : Z) (opened : option (Z * Z)) : Prop :=
  forall id d, open_device cs id path size opened = Ok d -> total_size_ d < 2 ^ 64 /\ total_size_ d / cs < 2 ^ 32.

Lemma open_device_spec id path size opened d : open_device cs id path size opened = Ok d ->
  dev_id d = id /\ memory_ d = [] /\ 0 <= total_size_ d /\ total_size_ d mod cs = 0.
Proof.
  unfold open_device. destruct opened as [[f b]|]; [|done]. destruct (_ && _); [done|]. set (t := if size =? 0 then b else size).
  destruct (negb ((cs <? t) && (t mod cs =? 0))) eqn:E; [done|]. intros [= <-]. apply negb_false_iff, andb_true_iff in E as [E1%Z.ltb_lt E2%Z.eqb_eq].
  cbn. split_and!; [done|done|lia|]. rewrite <- Z.add_opp_r, <- (Z.mul_1_l cs) at 1. rewrite <- Z.mul_opp_l, Z.mod_add by lia. exact E2.
Qed.

Lemma snoc_device ds d q : NoDup (dev_id <$> ds) -> memory_ d = [] -> getDeviceFromEntry q (ds ++ [d]) = getDeviceFromEntry q ds.
Proof.
  intros Hnd Hm. unfold getDeviceFromEntry. induction ds as [|d0 ds IH]; cbn.
  - unfold hasEntry. rewrite Hm. cbn. by rewrite andb_false_r.
  - destruct (hasEntry q d0); [done|]. apply IH. by apply NoDup_cons in Hnd as [_ ?].
Qed.

Lemma rebased_good A c m fs dr : good A c -> devices_ok cs m dr -> (forall q, getDeviceFromEntry q (devices m) = getDeviceFromEntry q (devs c)) ->
  (forall f, clusters (default no_file (fs !! f)) = clusters (default no_file (files c !! f))) -> good A (rebased m fs dr c).
Proof.
  intros [Hi Hh] Hd Hu Hf. assert (forall q, entry_at (devices m) q = entry_at (devs c) q) as He by (intros q; unfold entry_at; by rewrite Hu).
  split; [by apply rebased_inv|]. apply rebased_holds; [done| |done]. intros h n q _ _ _. unfold content. cbn [rebased manager_ files]. rewrite Hu.
  destruct (getDeviceFromEntry q (devs c)); [|done]. cbn. by rewrite Hf.
Qed.

Lemma new_device_ok c d it b u : inv c -> dev_id d = drawn c -> file_ d ∉ file_ <$> devs c -> dev_ok cs d -> it = 0%nat ->
  devices_ok cs (mkManager (devs c ++ [d]) it b u) (S (drawn c)).
Proof.
  intros Hi Hid Hf Hd ->. split; cbn [devices devices_iterator].
  - rewrite fmap_app. apply NoDup_app. split_and!; [apply Hi| |apply NoDup_singleton]. cbn. intros i (d0 & -> & Hd0)%list_elem_of_fmap E%list_elem_of_singleton.
    pose proof (i_drawn _ c Hi d0 Hd0). lia.
  - intros d0 [Hd0| ->%list_elem_of_singleton]%elem_of_app; [pose proof (i_drawn _ c Hi d0 Hd0)|]; lia.
  - rewrite fmap_app. apply NoDup_app. split_and!; [apply Hi| |apply NoDup_singleton]. cbn. intros i Hin ->%list_elem_of_singleton. done.
  - intros d0 [Hd0| ->%list_elem_of_singleton]%elem_of_app; [by apply (i_devs _ c Hi)|done].
  - intros _. rewrite length_app. cbn. lia.
Qed.

(** What a call may do: nothing went wrong, or the device could not be opened. *)
Definition survives {X} (A : Spec) (m : M Cache X) (c : Cache) : Prop :=
  exists c' r, m c = (c', r) /\ good A c' /\ match r with Ok _ => True | Throw e => e = IOException \/ e = AssertFailed end.

Lemma add_device_survives A path size opened c : good A c -> fits path size opened -> survives A (addDevice cs draw path size opened) c.
Proof.
  intros Hg Hfit. pose proof Hg as [Hi _]. unfold survives, addDevice, mbind, mget, mlift. destruct (open_device cs (drawn c) path size opened) as [d|e] eqn:Eo.
  2: { exists c, (Throw e). split; [reflexivity|]. split; [done|]. revert Eo. unfold open_device. destruct opened as [[f b]|]; [|intros [= <-]; by left].
       destruct (_ && _); [intros [= <-]; by left|]. destruct (negb _); [intros [= <-]; by right|done]. }
  destruct (open_device_spec _ _ _ _ _ Eo) as (Hid & Hmem & Ht0 & Htm). destruct (Hfit _ _ Eo) as [Ht1 Ht2]. set (u := draw (drawn c)).
  fold (guids u (devs c) (files c)). set (fs := guids u (devs c) (files c)). unfold mmodify. destruct (check_guid u d fs) eqn:Eg.
  - eexists _, _. split; [reflexivity|]. split; [|done].
    apply (rebased_good A c (mkManager (devs c) (devices_iterator (manager_ c)) (full (manager_ c)) u) fs (S (drawn c))); [done| |done|].
    + destruct (inv_devices cs c Hi) as [D1 D2 D3 D4 D5]. split; try done. intros d0 Hd0. pose proof (D2 d0 Hd0). cbn. lia.
    + intros f. apply guids_clusters.
  - eexists _, _. split; [reflexivity|]. split; [|done].
    apply (rebased_good A c (mkManager (devs c ++ [d]) 0 false u) (write_guid u d fs) (S (drawn c))); [done| | |].
    + apply new_device_ok; [done|done| |split; [lia|done|by rewrite Hmem|done]|done].
      intros (d0 & Ef & Hd0)%list_elem_of_fmap. pose proof (guids_mark u (devs c) (files c) d0 Hd0) as E. fold fs in E. unfold check_guid in E, Eg. rewrite Ef in Eg. congruence.
    + intros q. apply snoc_device; [apply Hi|done].
    + intros f. rewrite <- (guids_clusters u (devs c) (files c)). fold fs. exact (guids_clusters u [d] fs f).
Qed.

Lemma maybe_add_survives A path size opened c : good A c -> fits path size opened -> survives A (maybeAddDevice cs draw path size opened) c.
Proof.
  intros Hg Hf. unfold maybeAddDevice, mbind at 1, mget. unfold survives. destruct (getDeviceFromPath path c); [|by apply add_device_survives].
  exists c, (Ok false). done.
Qed.

(** *** A new cache *)
Lemma empty_good A fs : good A (with_files fs empty_cache).
Proof.
  split; [split; try (by constructor); cbn|]; try (by intros d ?%elem_of_nil).
  - done.
  - by intros p h n ?%elem_of_nil.
  - intros h n p Hn. cbn in Hn. by apply lookup_empty_Some in Hn.
Qed.

Lemma mounted_survives A mps c : good A c -> Forall (fun mp => fits (fst (fst mp)) (snd (fst mp)) (snd mp)) mps ->
  survives A (miter (fun '(path, size, opened) => maybeAddDevice cs draw path size opened ;! mret tt) mps) c.
Proof.
  intros Hg Hf. revert c Hg. induction Hf as [|[[path size] opened] mps Hfit Hf IH]; intros c Hg; [by exists c, (Ok tt)|].
  cbn [miter]. destruct (maybe_add_survives A path size opened c Hg Hfit) as (c1 & r & E & Hg1 & Hr). unfold survives, mbind at 1 2. rewrite E.
  destruct r as [b|e]; [|by exists c1, (Throw e)]. exact (IH c1 Hg1).
Qed.

Lemma create_good A mps fs c : create cs avg draw mps fs = Ok c -> Forall (fun mp => fits (fst (fst mp)) (snd (fst mp)) (snd mp)) mps ->
  0 <= best_size avg (totalSizeInEntries cs c) < 31 -> good A c /\ is_Some (namespaces_ c !! content_based_handle).
Proof.
  intros E Hf Hb. destruct (mounted_survives A mps _ (empty_good A fs) Hf) as (c1 & r & E1 & Hg1 & _).
  unfold create, mbind at 1 in E. rewrite E1 in E. destruct r as [[]|]; [|done].
  destruct (maybe_create_namespace_ cs avg content_based_handle c1) as [c2 r2] eqn:E2. destruct r2 as [[]|]; [|done]. injection E as ->.
  assert (manager_ c = manager_ c1) as Em.
  { revert E2. unfold maybe_create_namespace_, mbind, mget, mlift, mmodify, mret. destruct (find_namespace_ content_based_handle c1); [by intros [= ->]|].
    destruct (resize _ _ _); [|done]. by intros [= <-]. }
  assert (totalSizeInEntries cs c1 = totalSizeInEntries cs c) as Et by (unfold totalSizeInEntries; by rewrite Em).
  destruct (create_namespace_runs cs avg A content_based_handle c1 Hg1) as ([] & c' & E' & Hg' & Hs & _); [by rewrite Et|].
  rewrite E' in E2. by injection E2 as ->.
Qed.

(** *** Configured devices *)
Lemma online_survives A mps path opened c : good A c -> (forall mp, mp ∈ mps -> fits (fst mp) (snd mp) opened) -> path ∈ mps.*1 ->
  survives A (onlineDevice cs draw mps path opened) c.
Proof.
  intros Hg Hf Hp. unfold survives, onlineDevice. destruct (List.find _ mps) as [mp|] eqn:Ef.
  - apply find_some in Ef as [Hin%list_elem_of_In _]. destruct (maybe_add_survives A (fst mp) (snd mp) opened c Hg (Hf mp Hin)) as (c1 & r & E & Hg1 & Hr).
    unfold mbind. rewrite E. destruct r; by eexists _, _.
  - apply list_elem_of_fmap in Hp as (mp & -> & Hmp%list_elem_of_In). pose proof (List.find_none _ _ Ef mp Hmp) as H. cbn in H. by apply bool_decide_eq_false in H.
Qed.

Lemma offline_path_runs A mps path c : good A c -> path ∈ mps.*1 -> invalidated_entries_ c = [] ->
  runs (offlineDevice_path mps path) c (fun _ c' => good A c' /\ forall h, max_entries <$> namespaces_ c' !! h = max_entries <$> namespaces_ c !! h).
Proof.
  intros [Hi Hh] Hp He. unfold offlineDevice_path. assert (existsb (fun mp => bool_decide (fst mp = path)) mps = true) as ->.
  { apply existsb_exists. apply list_elem_of_fmap in Hp as (mp & -> & Hmp%list_elem_of_In). exists mp. split; [done|]. by apply bool_decide_eq_true. }
  cbn [negb]. apply runs_bind, runs_get. destruct (getDeviceFromPath path c) as [d|]; [|by apply runs_ret].
  eapply runs_mono; [apply (offline_runs cs (dev_id d) A c Hi He)|].
  - intros h n q Hn Hq _. exact (Hh h n q Hn Hq (fun H => H)).
  - intros [] c' (H1 & H2 & H3 & _). done.
Qed.

(** *** Invalidated entries on a device that goes *)
Lemma remove_invalid id p c : inv c -> p ∈ invalidated_entries_ c -> on_device id c p = true -> ~ cached (handle_of (devs c) p) (key_of (devs c) p) c ->
  exists c', remove_entry id p c = (c', Throw VerifyFailed).
Proof.
  intros Hi Hp Hd Hc. unfold remove_entry, mbind, mget. rewrite Hd. unfold mmodify.
  unfold map_remove, namespace, mbind, mget, find_namespace_. cbn [unlink_entry_from_dlist_ namespaces_ manager_]. rewrite lookup_fmap.
  destruct (namespaces_ c !! handle_of (devs c) p) as [n'|] eqn:En; [|by eexists]. cbn [fmap option_fmap option_map mret with_ns_lru map].
  unfold mret, mlift. rewrite remove_absent.
  - cbn. by eexists.
  - apply (i_ns _ c Hi _ n' En).
  - intros q Hq E. apply Hc. exists n', q. done.
Qed.

(** No entry in use has the key of an invalidated one of the device. *)
Definition forgotten (id : nat) (c : Cache) : Prop :=
  forall q, q ∈ invalidated_entries_ c -> on_device id c q = true -> ~ cached (handle_of (devs c) q) (key_of (devs c) q) c.

Lemma remove_invalid_list id l p c : inv c -> forgotten id c -> (forall q, q ∈ l -> q ∈ invalidated_entries_ c) -> p ∈ l -> on_device id c p = true ->
  exists c', remove_device_from_list_and_delete l id c = (c', Throw VerifyFailed).
Proof.
  intros Hi Hf Hl Hp Hd. unfold remove_device_from_list_and_delete. induction l as [|q l IH]; [by apply elem_of_nil in Hp|].
  cbn [miter]. unfold mbind at 1. destruct (on_device id c q) eqn:Eq.
  - pose proof (Hl q ltac:(left)) as Hq. destruct (remove_invalid id q c Hi Hq Eq (Hf q Hq Eq)) as (c' & ->). by exists c'.
  - assert (remove_entry id q c = (c, Ok tt)) as -> by (unfold remove_entry, mbind, mget; by rewrite Eq).
    apply elem_of_cons in Hp as [->|Hp]; [congruence|]. apply IH; [|done]. intros q' Hq'. apply Hl. by right.
Qed.

Lemma offline_fails id c p : inv c -> p ∈ invalidated_entries_ c -> on_device id c p = true -> forgotten id c ->
  exists c', offlineDevice id c = (c', Throw VerifyFailed).
Proof.
  intros Hi Hp Hd Hf. unfold offlineDevice, mbind at 1, mget. fold (live id c). assert (live id c = true) as -> by (by apply live_spec, (on_device_valid id c p)).
  cbn [negb]. destruct (remove_list_runs cs id spec_empty (fun _ => True) (lru_ c) c) as ([] & c1 & E1 & Hi1 & _ & Hs & _).
  - done.
  - intros h n q _ _ Hx. by destruct Hx.
  - apply Hi.
  - intros q (n & Hn & _ & Hq)%(i_lru_in _ c Hi). by eexists _, n.
  - unfold mbind at 1. rewrite E1. unfold mbind at 1. rewrite <- (k_inval _ _ _ Hs).
    destruct (remove_invalid_list id (invalidated_entries_ c1) p c1) as (c' & ->); [done| |done|by rewrite (k_inval _ _ _ Hs)|by rewrite (shrunk_device id c c1)|by exists c'].
    intros q Hq Eq (n & q' & Hn & Hq' & Ek). rewrite (shrunk_device id c c1) in Eq by done. rewrite (k_manager _ _ _ Hs) in Hn, Ek. rewrite (k_inval _ _ _ Hs) in Hq.
    apply (Hf q Hq Eq). destruct (k_sub _ _ _ Hs (handle_of (devs c) q) q') as (n0 & Hn0 & Hq0); [by exists n|]. by exists n0, q'.
Qed.
End Devices.
End CacheDevices.
