(* ===== verification/ClusterCacheClaims.v ===== *)
(** * The cluster cache: traces of operations

    A cache that is created and used in any way gives back what was added, and nothing
    that was overwritten, invalidated or deregistered since.  What is asked of the
    calls is in [admissible]; above all that no device goes while there are invalidated
    entries, for then [offlineDevice] fails, and stale clusters can be served. *)

From stdpp Require Import sorting.
From S2P Require Import Prelude ClusterCacheMap ClusterCacheMapFacts ClusterCache ClusterCacheFacts ClusterCacheOffline ClusterCacheOps ClusterCacheAdmin ClusterCacheDevices.

Module CacheClaims.
Import ClusterCacheKey ClusterCacheEntry ClusterCacheMap ClusterCacheDevice ClusterCache MapFacts PtrFacts CacheInv CacheSteps CacheData CacheOffline CacheOps CacheAdmin CacheDevices.

Inductive op : Type :=
  | Register (otag : Z) (m : ClusterCacheMode)
  | Deregister (otag : Z)
  | RemoveNamespace (handle : Z)
  | SetMaxEntries (handle : Z) (limit : option Z)
  | Add (handle a weed : Z) (buf : list Z) (w : transfer)
  | Read (handle a weed : Z) (complete : bool)
  | Invalidate (handle a weed : Z)
  | Offline (path : string)
  | Online (path : string) (opened : option (Z * Z)).

Section Traces.
Variable cs : Z.
Variable avg : Z.
Variable draw : nat -> UUID.
Variable mount_points : list (string * Z).

(** The call, with what a read got. *)
Definition call (o : op) : M Cache (option (list Z)) :=
  match o with
  | Register otag m => registerVolume cs avg otag m ;! mret None
  | Deregister otag => deregisterVolume otag ;! mret None
  | RemoveNamespace h => remove_namespace h ;! mret None
  | SetMaxEntries h l => set_max_entries cs avg h l ;! mret None
  | Add h a weed buf w => add cs h a weed buf w ;! mret None
  | Read h a weed ok => read cs h a weed cs ok
  | Invalidate h a weed => invalidate h a weed ;! mret None
  | Offline path => offlineDevice_path mount_points path ;! mret None
  | Online path opened => onlineDevice cs draw mount_points path opened ;! mret None
  end.

(** What it does to the clusters that may be there. *)
Definition spec_call (o : op) (A : Spec) : Spec :=
  match o with
  | Register otag ContentBased => spec_deregister otag A
  | Deregister otag => spec_deregister otag A
  | RemoveNamespace h => spec_deregister h A
  | Add h a weed buf _ =>
      if negb (h =? content_based_handle) then spec_add h (of_location h a) buf A
      else if negb (weed =? null_weed) then spec_add h (of_weed weed) buf A else A
  | Invalidate h a _ => if negb (h =? content_based_handle) then spec_invalidate h (of_location h a) A else A
  | _ => A
  end.

(** What it may have read. *)
Definition may_read (A : Spec) (o : op) (d : list Z) : Prop :=
  match o with
  | Read h a weed _ => if negb (h =? content_based_handle) then latest A h (of_location h a) = Some d else (of_weed weed, d) ∈ contents A
  | _ => False
  end.

Definition small_map (entries : Z) : Prop := 0 <= best_size avg entries < 31.
Definition tidy (b : bool) (c : Cache) : Prop := b = true \/ invalidated_entries_ c = [].

Definition admissible (o : op) (c : Cache) : Prop :=
  match o with
  | Register otag _ => otag <> 0 /\ small_map (totalSizeInEntries cs c)
  | Deregister otag => otag <> 0
  | RemoveNamespace h => h <> content_based_handle
  | SetMaxEntries h l => (exists n, namespaces_ c !! h = Some n /\ Z.of_nat (length (all (map n))) < 2 ^ 63) /\
      match l with Some l => 0 < l < 2 ^ 63 /\ small_map l | None => small_map (totalSizeInEntries cs c) end
  | Add h _ _ buf w => is_Some (namespaces_ c !! h) /\ Z.of_nat (length buf) = cs /\ tidy (match w with Complete => true | Short _ => false end) c
  | Read h _ _ ok => is_Some (namespaces_ c !! h) /\ tidy ok c
  | Invalidate h _ _ => is_Some (namespaces_ c !! h)
  | Offline path => path ∈ mount_points.*1 /\ invalidated_entries_ c = []
  | Online path opened => path ∈ mount_points.*1 /\ forall mp, mp ∈ mount_points -> fits cs (fst mp) (snd mp) opened
  end.

Fixpoint admissible_all (ops : list op) (c : Cache) : Prop :=
  match ops with
  | [] => True
  | o :: ops' => admissible o c /\ admissible_all ops' (fst (call o c))
  end.

(** Only a device that cannot be opened makes a call fail. *)
Definition answers (A : Spec) (o : op) (r : res (option (list Z))) : Prop :=
  match r with
  | Ok (Some d) => may_read A o d
  | Ok None => True
  | Throw e => (e = IOException \/ e = AssertFailed) /\ exists path opened, o = Online path opened
  end.

Fixpoint served (A : Spec) (ops : list op) (c : Cache) : Prop :=
  match ops with
  | [] => inv cs c
  | o :: ops' => answers A o (snd (call o c)) /\ served (spec_call o A) ops' (fst (call o c))
  end.

Section Steps.
Hypothesis Hcs : 0 < cs.
Abbreviation good := (good cs).

(** One call. *)
Definition well (A : Spec) (o : op) (c : Cache) : Prop := answers A o (snd (call o c)) /\ good (spec_call o A) (fst (call o c)).

Lemma well_runs {X} (m : M Cache X) A o c : call o = (m ;! mret None) -> runs m c (fun _ => good (spec_call o A)) -> well A o c.
Proof. intros E (x & c' & Ex & Hg). unfold well. rewrite E. unfold mbind. by rewrite Ex. Qed.

Lemma of_location_tag h a : h <> content_based_handle -> tag (of_location h a) = h.
Proof. done. Qed.

Lemma register_well A otag m c : good A c -> admissible (Register otag m) c -> well A (Register otag m) c.
Proof.
  intros Hg [Ho Hs]. eapply well_runs; [done|]. unfold registerVolume. apply runs_bind, runs_mverify; [by rewrite (proj2 (Z.eqb_neq _ _) Ho)|]. apply runs_bind. destruct m.
  - eapply runs_mono; [apply (deregister_runs cs A otag c Hg)|]. intros [] c1 (Hg1 & _ & _ & Em).
    apply runs_bind. eapply runs_mono; [apply (create_namespace_runs cs avg _ 0 c1 Hg1); unfold totalSizeInEntries; by rewrite Em|].
    intros [] c2 (Hg2 & _). by apply runs_ret.
  - apply runs_ret, runs_bind. eapply runs_mono; [by apply (create_namespace_runs cs avg A otag c)|]. intros [] c2 (Hg2 & _). by apply runs_ret.
Qed.

Lemma add_well A h a weed buf w c : good A c -> admissible (Add h a weed buf w) c -> well A (Add h a weed buf w) c.
Proof.
  intros Hg ([n Hn] & Hb & Ht). eapply well_runs; [done|]. unfold add, spec_call.
  assert (w = Complete \/ invalidated_entries_ c = []) as Hw by (destruct Ht as [Ht|?]; [destruct w; [by left|done]|by right]).
  destruct (Z.eqb_spec h content_based_handle) as [->|Hne]; cbn [negb]; [destruct (weed =? null_weed); cbn [negb]; [by apply runs_ret|]|];
    (eapply runs_mono; [by eapply add_key_runs|]); by intros [] c' [? _].
Qed.

Lemma read_well A h a weed ok c : good A c -> admissible (Read h a weed ok) c -> well A (Read h a weed ok) c.
Proof.
  intros Hg ([n Hn] & Ht). unfold well, call, spec_call, read, answers, may_read.
  assert (forall k, exists o c', read_key cs h k cs ok c = (c', Ok o) /\ good A c' /\ forall d, o = Some d -> allowed A h k d) as Hr.
  { intros k. destruct (read_key_runs cs Hcs A h k ok c n Hg Hn Ht) as (o & c' & E & Hg' & Ha & _). by exists o, c'. }
  destruct (Z.eqb_spec h content_based_handle) as [->|Hne]; cbn [negb].
  - destruct (weed =? null_weed); cbn [negb]; [cbn; split; [done|by apply counts_good]|].
    destruct (Hr (of_weed weed)) as (o & c' & -> & Hg' & Ha). split; [|done]. destruct o as [d|]; [|done]. exact (Ha d eq_refl).
  - destruct (Hr (of_location h a)) as (o & c' & -> & Hg' & Ha). split; [|done]. destruct o as [d|]; [|done]. specialize (Ha d eq_refl). unfold allowed in Ha.
    by rewrite (proj2 (Z.eqb_neq _ _) Hne) in Ha.
Qed.

Lemma invalidate_well A h a weed c : good A c -> admissible (Invalidate h a weed) c -> well A (Invalidate h a weed) c.
Proof.
  intros Hg [n Hn]. eapply well_runs; [done|]. unfold invalidate, spec_call. destruct (Z.eqb_spec h content_based_handle) as [->|Hne]; cbn [negb]; [by apply runs_ret|].
  eapply runs_mono; [by eapply invalidate_key_runs|]. by intros [] c' [? _].
Qed.

Lemma call_well A o c : good A c -> admissible o c -> well A o c.
Proof.
  intros Hg Ha. destruct o as [otag m|otag|h|h l|h a weed buf w|h a weed ok|h a weed|path|path opened].
  - by apply register_well.
  - eapply well_runs; [done|]. unfold deregisterVolume. apply runs_bind, runs_mverify; [by rewrite (proj2 (Z.eqb_neq _ _) Ha)|].
    eapply runs_mono; [by apply deregister_runs|]. by intros [] c' [? _].
  - eapply well_runs; [done|]. unfold remove_namespace. rewrite (proj2 (Z.eqb_neq _ _) Ha). eapply runs_mono; [by apply deregister_runs|]. by intros [] c' [? _].
  - destruct Ha as [(n & Hn & Hlen) Hl]. eapply well_runs; [done|]. eapply runs_mono; [apply (set_max_runs cs avg A h l c n Hg Hn)|]; [|done| |by intros [] c' [? _]].
    + intros x ->. apply Hl.
    + destruct l; [apply Hl|done].
  - by apply add_well.
  - by apply read_well.
  - by apply invalidate_well.
  - destruct Ha as [Hp He]. eapply well_runs; [done|]. eapply runs_mono; [by apply (offline_path_runs cs A)|]. by intros [] c' [? _].
  - destruct Ha as [Hp Hf]. destruct (online_survives cs Hcs draw A mount_points path opened c Hg Hf Hp) as (c' & r & E & Hg' & Hr).
    unfold well, call, mbind. rewrite E. destruct r as [[]|e]; cbn; [done|]. split; [|done]. split; [done|]. by eexists _, _.
Qed.

Lemma trace_served A ops c : good A c -> admissible_all ops c -> served A ops c.
Proof.
  revert A c. induction ops as [|o ops IH]; intros A c Hg Ha; [apply Hg|]. destruct Ha as [Ha Hrest]. destruct (call_well A o c Hg Ha) as [Hr Hg']. split; [done|by apply IH].
Qed.

Lemma trace_good A ops c : good A c -> admissible_all ops c -> exists A', good A' (fold_left (fun c o => fst (call o c)) ops c).
Proof.
  revert A c. induction ops as [|o ops IH]; intros A c Hg Ha; [by exists A|]. destruct Ha as [Ha Hrest]. destruct (call_well A o c Hg Ha) as [_ Hg']. by apply (IH (spec_call o A)).
Qed.
End Steps.
End Traces.

(** A cache that was created and used. *)
Record used_cache (cs avg : Z) (draw : nat -> UUID) (mounts : list (string * Z * option (Z * Z))) (ops : list op) (c c' : Cache) : Prop := mkUsed {
  u_size : 0 < cs;
  u_create : exists fs, create cs avg draw mounts fs = Ok c;
  u_fits : Forall (fun mp => fits cs (fst (fst mp)) (snd (fst mp)) (snd mp)) mounts;
  u_map : small_map avg (totalSizeInEntries cs c);
  u_ops : admissible_all cs avg draw (fst <$> mounts) ops c;
  u_after : c' = fold_left (fun c o => fst (call cs avg draw (fst <$> mounts) o c)) ops c }.

Lemma used_created cs avg draw mounts ops c c' : used_cache cs avg draw mounts ops c c' -> forall A, good cs A c.
Proof. intros [U1 [fs U2] U3 U4 U5 U6] A. by apply (create_good cs U1 avg draw A mounts fs). Qed.

Lemma used_good cs avg draw mounts ops c c' : used_cache cs avg draw mounts ops c c' -> exists A, good cs A c'.
Proof. intros H. pose proof (used_created _ _ _ _ _ _ _ H spec_empty) as Hg. destruct H as [U1 U2 U3 U4 U5 ->]. by eapply trace_good. Qed.

(** C9: A read of a cluster cache that was created and then used returns nothing, or the
    cluster: by location the last one added, if it was not invalidated and its volume not
    deregistered since; by content one that was added under that weed.  No call fails but
    to bring a device online that cannot be opened, and the invariant of entries, lists
    and maps holds at the end. *)
Theorem cache_never_stale cs avg draw mounts ops c c' : used_cache cs avg draw mounts ops c c' ->
  served cs avg draw (fst <$> mounts) spec_empty ops c.
Proof. intros H. pose proof (used_created _ _ _ _ _ _ _ H spec_empty). by apply trace_served; [apply H| |apply H]. Qed.

(** In a cluster cache in use, a cluster that is added by location is what a read of
    that location then gets, when there is an entry to be had for it: an invalidated one, a
    free one, or one in the common list. *)
Theorem added_is_read cs avg draw mounts ops c c' h n a weed buf : used_cache cs avg draw mounts ops c c' ->
  namespaces_ c' !! h = Some n -> h <> content_based_handle -> max_entries n <> Some 0 -> Z.of_nat (length buf) = cs -> can_allocate cs c' ->
  snd ((add cs h a weed buf Complete ;! read cs h a weed cs true) c') = Ok (Some buf).
Proof.
  intros Hu Hn Hh Hm Hb Hc. pose proof (u_size _ _ _ _ _ _ _ Hu) as Hcs. destruct (used_good _ _ _ _ _ _ _ Hu) as [A Hg].
  unfold add, read. rewrite (proj2 (Z.eqb_neq _ _) Hh). cbn [negb].
  destruct (add_key_runs cs Hcs A h (of_location h a) buf Complete c' n Hg Hb Hn (fun _ => eq_refl) (or_introl eq_refl)) as ([] & c1 & E1 & Hg1 & Hin).
  specialize (Hin eq_refl Hm Hc). unfold mbind. rewrite E1. pose proof Hin as (n1 & q & Hn1 & _).
  destruct (read_key_runs cs Hcs _ h (of_location h a) true c1 n1 Hg1 Hn1 (or_introl eq_refl)) as (o & c2 & -> & _ & Ha & Hs). cbn.
  destruct (Hs eq_refl Hin) as [d ->]. specialize (Ha d eq_refl). unfold allowed, spec_add in Ha. rewrite (proj2 (Z.eqb_neq _ _) Hh) in Ha. cbn in Ha.
  rewrite Z.eqb_refl, (proj2 (eqb_eq _ _) eq_refl) in Ha. cbn in Ha. congruence.
Qed.

(** Taking a device offline fails with a failed check when an invalidated entry is
    on it, unless an entry in use has the same key: the entry is looked for in the map of
    its namespace, which it left when it was invalidated. *)
Theorem offline_fails_on_invalidated cs avg draw mounts ops c c' id p : used_cache cs avg draw mounts ops c c' ->
  p ∈ invalidated_entries_ c' -> on_device id c' p = true -> forgotten id c' -> snd (offlineDevice id c') = Throw VerifyFailed.
Proof. intros Hu Hp Hd Hf. destruct (used_good _ _ _ _ _ _ _ Hu) as [A [Hi _]]. by destruct (offline_fails cs id c' p Hi Hp Hd Hf) as (c1 & ->). Qed.

(** *** A small cache *)
Definition two_mounts : list (string * Z * option (Z * Z)) := [("/d0", 10, Some (1, 0)); ("/d1", 10, Some (2, 0))].
Definition count_draw (n : nat) : UUID := Z.of_nat n + 100.
Definition two_devices : Cache := match create 2 2 count_draw two_mounts ∅ with Ok c => c | Throw _ => empty_cache end.
Definition calls (ops : list op) : Cache * list (res (option (list Z))) :=
  fold_left (fun '(c, rs) o => let '(c', r) := call 2 2 count_draw (fst <$> two_mounts) o c in (c', rs ++ [r])) ops (two_devices, []).

(** A write that fails can leave the old cluster in the cache, in a namespace with a
    limit: the device is not taken offline because an invalidated entry is on it, and the
    next read serves the cluster that was overwritten. *)
Theorem failed_write_serves_stale_cluster : snd (calls
    [Register 5 LocationBased; SetMaxEntries 5 (Some 4); Add 5 7 0 [1; 1] Complete; Add 5 8 0 [2; 2] Complete; Add 5 9 0 [3; 3] Complete;
     Invalidate 5 9 0; Add 5 7 0 [4; 4] (Short None); Read 5 7 0 true])
  = [Ok None; Ok None; Ok None; Ok None; Ok None; Ok None; Throw VerifyFailed; Ok (Some [1; 1])].
Proof. vm_compute. reflexivity. Qed.

(** A device that goes can take an entry of another one out of the map, when an
    invalidated entry has its key: the cluster is not found any more, and the other device
    cannot be taken offline. *)
Theorem offline_loses_other_device : snd (calls
    [Register 5 LocationBased; Add 5 7 0 [1; 1] Complete; Add 5 8 0 [2; 2] Complete; Invalidate 5 7 0; Invalidate 5 8 0;
     Add 5 7 0 [3; 3] Complete; Read 5 7 0 true; Offline "/d0"; Read 5 7 0 true; Offline "/d1"])
  = [Ok None; Ok None; Ok None; Ok None; Ok None; Ok None; Ok (Some [3; 3]); Ok None; Ok None; Throw VerifyFailed].
Proof. vm_compute. reflexivity. Qed.

Lemma some_is_Some {X} (o : option X) : (if o then true else false) = true -> is_Some o.
Proof. destruct o; [by eexists|done]. Qed.
Lemma between_b a b x : (a <=? x) && (x <? b) = true -> a <= x < b.
Proof. rewrite andb_true_iff, Z.leb_le, Z.ltb_lt. done. Qed.

Definition demo_ops : list op := [Register 5 LocationBased; SetMaxEntries 5 (Some 2); Add 5 7 0 [1; 1] Complete; Add 5 8 0 [2; 2] Complete; Read 5 7 0 true; Invalidate 5 8 0].

Lemma demo_fits : Forall (fun mp => fits 2 (fst (fst mp)) (snd (fst mp)) (snd mp)) two_mounts.
Proof. repeat constructor; cbn [fst snd]; cbv in H; injection H as <-; cbn; lia. Qed.

Lemma demo_used : used_cache 2 2 count_draw two_mounts demo_ops two_devices (fst (calls demo_ops)).
Proof.
  split; [lia|exists ∅; vm_compute; reflexivity|exact demo_fits|apply between_b; vm_compute; reflexivity| |vm_compute; reflexivity].
  cbn [demo_ops admissible_all admissible]. repeat match goal with |- _ /\ _ => split end.
  all: try (apply some_is_Some; vm_compute; reflexivity).
  all: try (apply between_b; vm_compute; reflexivity).
  all: try (left; reflexivity).
  all: try done.
  eexists. split; [vm_compute; reflexivity|vm_compute; reflexivity].
Qed.

Lemma cache_never_stale_witness : snd (calls demo_ops) = [Ok None; Ok None; Ok None; Ok None; Ok (Some [1; 1]); Ok None] /\
  served 2 2 count_draw (fst <$> two_mounts) spec_empty demo_ops two_devices.
Proof. split; [vm_compute; reflexivity|]. exact (cache_never_stale 2 2 count_draw two_mounts demo_ops two_devices _ demo_used). Defined.

Lemma added_is_read_witness : snd ((add 2 5 9 0 [6; 7] Complete ;! read 2 5 9 0 2 true) (fst (calls demo_ops))) = Ok (Some [6; 7]).
Proof.
  eapply (added_is_read 2 2 count_draw two_mounts demo_ops two_devices _ 5 _ 9 0 [6; 7] demo_used); [vm_compute; reflexivity|done|done|done|].
  left. vm_compute. discriminate.
Defined.

Lemma demo_forgotten : forgotten 1 (fst (calls demo_ops)).
Proof.
  intros q Hq _ (n & q' & Hn & Hq' & Ek). assert (q = (1, 0)%nat) as -> by (vm_compute in Hq; by apply list_elem_of_singleton in Hq).
  vm_compute in Hn. injection Hn as <-. vm_compute in Hq'. apply list_elem_of_singleton in Hq' as ->. by vm_compute in Ek.
Qed.

Lemma offline_fails_on_invalidated_witness : snd (offlineDevice 1 (fst (calls demo_ops))) = Throw VerifyFailed.
Proof.
  apply (offline_fails_on_invalidated 2 2 count_draw two_mounts demo_ops two_devices _ 1 (1, 0)%nat demo_used); [|vm_compute; reflexivity|exact demo_forgotten].
  vm_compute. left.
Defined.
End CacheClaims.
