(* ===== verification/DTLStream.v ===== *)
(** * The distributed transaction log: streams and messages

    The streams of src/src/volumedriver/failovercache/fungilib (IOBaseStream.{h,cpp},
    the buffered reading of Socket.cpp and Buffer.cpp, for TCP) and the messages of
    FailOverCacheStreamers.{h,cpp}.  Integers are little-endian, as the code copies the
    memory of the machine.  What is written between cork and uncork is one frame, with
    its length in front; [getCork] buffers a frame.  A stream is anything that reads:
    the operators are functions of [read], for sockets and files alike. *)

From S2P Require Import Prelude Addressing.

Module IOBaseStream.
Import SCO (SCO, mkSCO) ClusterLocation (ClusterLocation, mkCL).

Definition STREAM_MAX_STRING_SIZE : Z := 1024.
Definition STREAM_MAX_BYTEARRAY_SIZE : Z := 64 * 1024.

(** *** Writing *)
Definition put_u32 (z : Z) : list Z := le_store 4 z.
Definition put_u64 (z : Z) : list Z := le_store 8 z.
Definition put_long (z : Z) : list Z := le_store 8 z.
Definition put_string (s : list Z) : list Z := put_long (Z.of_nat (length s)) ++ s.
Definition put_bytearray (b : list Z) : list Z := put_long (Z.of_nat (length b)) ++ b.

Definition signed (w : Z) (z : Z) : Z := if z <? 2 ^ (w - 1) then z else z - 2 ^ w.

(** *** Reading *)
Section Reading.
Context {S : Type}.
Variable read : nat -> M S (list Z).

Definition get_uint (n : nat) : M S Z := let! b := read n in mret (le_load b).
Definition get_int : M S Z := let! z := get_uint 4 in mret (signed 32 z).
Definition get_long : M S Z := let! z := get_uint 8 in mret (signed 64 z).

Definition c_str (b : list Z) : list Z :=
  (fix go l := match l with [] => [] | x :: l' => if x =? 0 then [] else x :: go l' end) b.

(** A string of the largest size ends one byte behind the buffer. *)
Definition get_string : M S (list Z) :=
  let! l := get_long in
  if (l =? -1) || (l =? 0) then mret []
  else if (l <? 0) || (STREAM_MAX_STRING_SIZE <? l) then
    (if 0 <? l then read (Z.to_nat (STREAM_MAX_STRING_SIZE - 1)) ;! mret tt else mret tt) ;!
    mthrow IOException
  else if l =? STREAM_MAX_STRING_SIZE then mthrow UndefinedBehaviour
  else let! b := read (Z.to_nat l) in mret (c_str b).

Definition readIntoByteArray (size : Z) : M S (list Z) :=
  if STREAM_MAX_BYTEARRAY_SIZE <? size then mthrow IOException else read (Z.to_nat size).

Definition get_SCO : M S SCO :=
  let! v := get_uint 1 in
  let! n := get_uint 4 in
  let! c := get_uint 1 in
  mret (mkSCO v n c).

Definition get_ClusterLocation : M S ClusterLocation :=
  let! o := get_uint 2 in
  let! s := get_SCO in
  mret (mkCL o s).
End Reading.
End IOBaseStream.

(** ** Sockets *)
Module Socket.
Import IOBaseStream.

(** [size_] of the buffer is not what is left of it, but what it had. *)
Record Socket : Type := mkSocket { size_ : Z; rbuf_ : list Z; wire : list Z }.

Definition fresh : Socket := mkSocket 0 [] [].

Definition buffer_read (n : nat) : M Socket (list Z) := fun s =>
  if (length (rbuf_ s) <? n)%nat then (s, Throw IOException)
  else
    let rest := drop n (rbuf_ s) in
    (mkSocket (if (length rest =? 0)%nat then 0 else size_ s) rest (wire s), Ok (take n (rbuf_ s))).

(** [SocketWaits]: the peer has not sent as much. *)
Definition read (n : nat) : M Socket (list Z) := fun s =>
  if Z.of_nat n <=? size_ s then buffer_read n s
  else if (length (wire s) <? n)%nat then (s, Throw SocketWaits)
  else (mkSocket (size_ s) (rbuf_ s) (drop n (wire s)), Ok (take n (wire s))).

Definition getCork : M Socket unit :=
  let! corked := get_int read in
  if corked <? 0 then mthrow UndefinedBehaviour
  else
    let! b := read (Z.to_nat corked) in
    mmodify (fun s => mkSocket corked b (wire s)).

(** [setCork], the writes, [clearCork] *)
Definition frame (b : list Z) : list Z := put_u32 (Z.of_nat (length b)) ++ b.

Definition receive (b : list Z) (s : Socket) : Socket := mkSocket (size_ s) (rbuf_ s) (wire s ++ b).
End Socket.

(** ** Messages *)
Module FailOverCacheStreamers.
Import IOBaseStream ClusterLocation (ClusterLocation, sco_) SCO (SCO).

Inductive FailOverCacheCommand : Type :=
  | RemoveUpTo | GetSCO | Register | AddEntries | GetEntries | Flush | OkReply | NotOk | Unregister | Clear | GetSCORange.

Definition command_value (c : FailOverCacheCommand) : Z :=
  match c with
  | RemoveUpTo => 0x1 | GetSCO => 0x2 | Register => 0x3 | AddEntries => 0x4 | GetEntries => 0x5 | Flush => 0x6
  | OkReply => 0x7 | NotOk => 0x8 | Unregister => 0x9 | Clear => 0xA | GetSCORange => 0xB
  end.
Definition OUT_ENUM (c : FailOverCacheCommand) : list Z := put_u32 (command_value c).

Record FailOverCacheEntry : Type := mkEntry { cli_ : ClusterLocation; lba_ : Z; buffer_ : list Z }.

#[global] Instance foc_entry_eq_dec : EqDecision FailOverCacheEntry.
Proof. solve_decision. Defined.

Definition entry_sco (e : FailOverCacheEntry) : SCO := sco_ (cli_ e).

Definition put_entry (e : FailOverCacheEntry) : list Z :=
  ClusterLocation.to_bytes (cli_ e) ++ put_u64 (lba_ e) ++ put_bytearray (buffer_ e).

(** [VERIFY(front.sco == back.sco)] *)
Definition same_ends (es : list FailOverCacheEntry) : bool :=
  match es, last es with
  | e :: _, Some e' => SCO.eqb (entry_sco e) (entry_sco e')
  | _, _ => true
  end.

Definition put_AddEntries (es : list FailOverCacheEntry) : res (list Z) :=
  verify (same_ends es) in
  Ok (Socket.frame (OUT_ENUM AddEntries ++ put_u64 (Z.of_nat (length es)) ++ concat (put_entry <$> es))).

Definition put_Register (ns : list Z) (cluster_size : Z) : list Z :=
  Socket.frame (OUT_ENUM Register ++ put_string ns ++ put_u32 cluster_size).
Definition put_command (c : FailOverCacheCommand) : list Z := Socket.frame (OUT_ENUM c).
Definition put_SCO_command (c : FailOverCacheCommand) (s : SCO) : list Z := Socket.frame (OUT_ENUM c ++ SCO.to_bytes s).

Section Get.
Context {S : Type}.
Variable read : nat -> M S (list Z).

Definition mcheck (b : bool) : M S unit := if b then mret tt else mthrow VerifyFailed.

(** The first entry says how large all are; the buffer for them is allocated then. *)
Definition get_size (count : Z) (cluster_size : option Z) : M S Z :=
  let! sz := get_long read in
  mcheck (negb (sz =? 0)) ;!
  match cluster_size with
  | None =>
      let total := u64 (u64 sz * count) in
      if 2 ^ 63 <=? total then mthrow BadAlloc
      else if negb (u64 sz * count =? total) then mthrow UndefinedBehaviour
      else mret (u64 sz)
  | Some c => mcheck (signed 64 c =? sz) ;! mret c
  end.

Fixpoint get_entries (k : nat) (count : Z) (cluster_size : option Z) : M S (list FailOverCacheEntry) :=
  match k with
  | O => mret []
  | Datatypes.S k' =>
      let! cli := get_ClusterLocation read in
      let! lba := get_uint read 8 in
      let! sz := get_size count cluster_size in
      let! b := readIntoByteArray read (u32 sz) in
      let! es := get_entries k' count (Some sz) in
      mret (mkEntry cli lba b :: es)
  end.

Definition get_AddEntries : M S (list FailOverCacheEntry) :=
  let! count := get_uint read 8 in
  if 2 ^ 58 <=? count then mthrow BadAlloc
  else
    let! es := get_entries (Z.to_nat count) count None in
    mcheck (same_ends es) ;!
    mret es.

Definition get_Register : M S (list Z * Z) :=
  let! ns := get_string read in
  let! c := get_uint read 4 in
  mret (ns, c).
End Get.

(** [checkStreamOK] *)
Definition checkStreamOK : M Socket.Socket unit :=
  Socket.getCork ;!
  let! r := get_uint Socket.read 4 in
  if r =? command_value OkReply then mret tt else mthrow IOException.
End FailOverCacheStreamers.
