(* ===== verification/DTLStreamFacts.v ===== *)
(** * The distributed transaction log: messages are read back as they were written

    The contract of a stream ([reader]): from a stream that is at [b ++ rest], reading
    as many bytes as [b] has gives [b].  Sockets keep it within a frame; what is shown
    of the messages holds for every stream that keeps it. *)

From S2P Require Import Prelude Addressing DTLStream.

Module StreamFacts.
Import IOBaseStream FailOverCacheStreamers ClusterLocation (ClusterLocation, mkCL) SCO (SCO, mkSCO).

Class reader {S} (read : nat -> M S (list Z)) (pos : list Z -> S -> Prop) : Prop :=
  read_runs b rest s : pos (b ++ rest) s -> runs (read (length b)) s (fun x s' => x = b /\ pos rest s').

(** An entry as the volume makes it. *)
Record entry_ok (c : Z) (e : FailOverCacheEntry) : Prop := mkEntryOk {
  eo_cli : ClusterLocation.wf (cli_ e);
  eo_lba : fits 64 (lba_ e);
  eo_size : Z.of_nat (length (buffer_ e)) = c }.

Definition size_ok (c : Z) : Prop := 0 < c <= STREAM_MAX_BYTEARRAY_SIZE.

Section Reader.
Context {S : Type} {read : nat -> M S (list Z)} {pos : list Z -> S -> Prop} {Hread : reader read pos}.

Lemma get_uint_runs n z rest s : fits (8 * Z.of_nat n) z -> pos (le_store n z ++ rest) s ->
  runs (get_uint read n) s (fun x s' => x = z /\ pos rest s').
Proof.
  intros Hz Hp. unfold get_uint. apply runs_bind. pose proof (read_runs _ _ _ Hp) as Hr. rewrite length_le_store in Hr.
  eapply runs_mono; [exact Hr|]. intros x s' [-> Hp']. apply runs_ret. by rewrite le_load_store.
Qed.

Lemma get_long_runs z rest s : 0 <= z < 2 ^ 63 -> pos (put_long z ++ rest) s -> runs (get_long read) s (fun x s' => x = z /\ pos rest s').
Proof.
  intros Hz Hp. unfold get_long. apply runs_bind. eapply runs_mono; [apply (get_uint_runs 8 z rest); [unfold fits; lia|done]|].
  intros x s' [-> Hp']. apply runs_ret. unfold signed. by rewrite (proj2 (Z.ltb_lt _ _)) by lia.
Qed.

Lemma get_SCO_runs (o : SCO) rest s : SCO.wf o -> pos (SCO.to_bytes o ++ rest) s -> runs (get_SCO read) s (fun x s' => x = o /\ pos rest s').
Proof.
  intros (Hv & Hn & Hc) Hp. unfold SCO.to_bytes in Hp. rewrite <- !app_assoc in Hp. unfold get_SCO.
  apply runs_bind. eapply runs_mono; [by eapply (get_uint_runs 1 _ _ _ Hv)|]. intros v s1 [-> H1].
  apply runs_bind. eapply runs_mono; [by eapply (get_uint_runs 4 _ _ _ Hn)|]. intros n s2 [-> H2].
  apply runs_bind. eapply runs_mono; [by eapply (get_uint_runs 1 _ _ _ Hc)|]. intros c s3 [-> H3].
  apply runs_ret. split; [by destruct o|done].
Qed.

Lemma get_ClusterLocation_runs l rest s : ClusterLocation.wf l -> pos (ClusterLocation.to_bytes l ++ rest) s ->
  runs (get_ClusterLocation read) s (fun x s' => x = l /\ pos rest s').
Proof.
  intros [Ho Hs] Hp. unfold ClusterLocation.to_bytes in Hp. rewrite <- !app_assoc in Hp. unfold get_ClusterLocation.
  apply runs_bind. eapply runs_mono; [by eapply (get_uint_runs 2 _ _ _ Ho)|]. intros o s1 [-> H1].
  apply runs_bind. eapply runs_mono; [by eapply get_SCO_runs|]. intros x s2 [-> H2]. apply runs_ret. split; [by destruct l|done].
Qed.

Lemma get_string_runs b rest s : Z.of_nat (length b) < STREAM_MAX_STRING_SIZE -> Forall (fun x => x <> 0) b -> pos (put_string b ++ rest) s ->
  runs (get_string read) s (fun x s' => x = b /\ pos rest s').
Proof.
  unfold STREAM_MAX_STRING_SIZE. intros Hl Hb Hp. unfold put_string in Hp. rewrite <- app_assoc in Hp. unfold get_string.
  apply runs_bind. eapply runs_mono; [eapply (get_long_runs (Z.of_nat (length b))); [lia|exact Hp]|]. intros l s1 [-> H1].
  rewrite (proj2 (Z.eqb_neq (Z.of_nat (length b)) (-1))) by lia. cbn [orb]. destruct (Z.eqb_spec (Z.of_nat (length b)) 0) as [E|Hne].
  { apply runs_ret. destruct b; [done|cbn in E; lia]. }
  rewrite (proj2 (Z.ltb_ge _ 0)) by lia. rewrite (proj2 (Z.ltb_ge STREAM_MAX_STRING_SIZE _)) by (unfold STREAM_MAX_STRING_SIZE; lia). cbn [orb].
  rewrite (proj2 (Z.eqb_neq _ STREAM_MAX_STRING_SIZE)) by (unfold STREAM_MAX_STRING_SIZE; lia). rewrite Nat2Z.id.
  apply runs_bind. eapply runs_mono; [by eapply read_runs|]. intros x s2 [-> H2]. apply runs_ret. split; [|done].
  clear -Hb. induction Hb as [|x l Hx Hl IH]; [done|]. cbn. rewrite (proj2 (Z.eqb_neq _ _) Hx). f_equal. exact IH.
Qed.

Lemma get_size_runs c count o rest s : size_ok c -> 0 <= count -> count * c < 2 ^ 63 -> (o = None \/ o = Some c) -> pos (put_long c ++ rest) s ->
  runs (get_size read count o) s (fun x s' => x = c /\ pos rest s').
Proof.
  unfold size_ok, STREAM_MAX_BYTEARRAY_SIZE. intros Hc Hn Hnc Ho Hp. unfold get_size, mcheck. apply runs_bind.
  eapply runs_mono; [apply (get_long_runs c _ _ ltac:(lia) Hp)|]. intros x s1 [-> H1].
  rewrite (proj2 (Z.eqb_neq c 0)) by lia. cbn [negb]. apply runs_bind, runs_ret. destruct Ho as [->| ->].
  - unfold wrap. rewrite (Z.mod_small c) by lia. rewrite (Z.mul_comm c count). rewrite (Z.mod_small (count * c)) by lia.
    rewrite (proj2 (Z.leb_gt (2 ^ 63) _)) by lia. rewrite Z.eqb_refl. cbn [negb]. by apply runs_ret.
  - unfold signed. rewrite (proj2 (Z.ltb_lt c _)) by lia. rewrite Z.eqb_refl. apply runs_bind, runs_ret. by apply runs_ret.
Qed.

Lemma get_buffer_runs c b rest s : size_ok c -> Z.of_nat (length b) = c -> pos (b ++ rest) s ->
  runs (readIntoByteArray read (u32 c)) s (fun x s' => x = b /\ pos rest s').
Proof.
  unfold size_ok, readIntoByteArray, STREAM_MAX_BYTEARRAY_SIZE. intros Hc Hb Hp. unfold wrap. rewrite Z.mod_small by lia.
  rewrite (proj2 (Z.ltb_ge _ c)) by lia. rewrite <- Hb, Nat2Z.id. by apply read_runs.
Qed.

Lemma get_entries_runs c count es o rest s : size_ok c -> 0 <= count -> count * c < 2 ^ 63 -> (o = None \/ o = Some c) -> Forall (entry_ok c) es ->
  pos (concat (put_entry <$> es) ++ rest) s -> runs (get_entries read (length es) count o) s (fun x s' => x = es /\ pos rest s').
Proof.
  intros Hc Hn Hnc Ho Hes. revert o Ho s. induction Hes as [|e es [E1 E2 E3] Hes IH]; intros o Ho s Hp; [by apply runs_ret|].
  cbn [length get_entries]. cbn [fmap list_fmap concat] in Hp. unfold put_entry at 1, put_bytearray in Hp. rewrite E3, <- !app_assoc in Hp.
  apply runs_bind. eapply runs_mono; [by eapply get_ClusterLocation_runs|]. intros x s1 [-> H1].
  apply runs_bind. eapply runs_mono; [by eapply (get_uint_runs 8)|]. intros x s2 [-> H2].
  apply runs_bind. eapply runs_mono; [by eapply (get_size_runs c count o)|]. intros x s3 [-> H3].
  apply runs_bind. eapply runs_mono; [by eapply (get_buffer_runs c (buffer_ e))|]. intros x s4 [-> H4].
  apply runs_bind. eapply runs_mono; [apply (IH (Some c)); [by right|done]|]. intros x s5 [-> H5]. apply runs_ret. split; [by destruct e|done].
Qed.

Lemma get_AddEntries_runs c es rest s : size_ok c -> Z.of_nat (length es) < 2 ^ 32 -> Forall (entry_ok c) es -> same_ends es = true ->
  pos (put_u64 (Z.of_nat (length es)) ++ concat (put_entry <$> es) ++ rest) s -> runs (get_AddEntries read) s (fun x s' => x = es /\ pos rest s').
Proof.
  intros Hc Hl Hes Hs Hp. unfold get_AddEntries. apply runs_bind. eapply runs_mono; [eapply (get_uint_runs 8); [|exact Hp]; unfold fits; lia|].
  intros x s1 [-> H1]. rewrite (proj2 (Z.leb_gt _ _)) by lia. rewrite Nat2Z.id. apply runs_bind.
  eapply runs_mono; [eapply (get_entries_runs c); [done| | |by left|done|exact H1]; [lia|]|].
  - unfold size_ok, STREAM_MAX_BYTEARRAY_SIZE in Hc. nia.
  - intros x s2 [-> H2]. unfold mcheck. rewrite Hs. apply runs_bind, runs_ret. by apply runs_ret.
Qed.

Lemma get_Register_runs ns c rest s : Z.of_nat (length ns) < STREAM_MAX_STRING_SIZE -> Forall (fun x => x <> 0) ns -> fits 32 c ->
  pos (put_string ns ++ put_u32 c ++ rest) s -> runs (get_Register read) s (fun x s' => x = (ns, c) /\ pos rest s').
Proof.
  intros H1 H2 H3 Hp. unfold get_Register. apply runs_bind. eapply runs_mono; [by eapply get_string_runs|]. intros x s1 [-> Hp1].
  apply runs_bind. eapply runs_mono; [by eapply (get_uint_runs 4)|]. intros x s2 [-> Hp2]. by apply runs_ret.
Qed.
End Reader.

(** *** Sockets *)
Import Socket.

(** [rest] is left of the frame, [w] comes behind it. *)
Definition framed (w rest : list Z) (s : Socket) : Prop :=
  rbuf_ s = rest /\ wire s = w /\ Z.of_nat (length rest) <= size_ s /\ (rest = [] -> size_ s = 0).

#[global] Instance socket_reader w : reader Socket.read (framed w).
Proof.
  intros b rest s (E1 & E2 & E3 & E4). unfold runs, Socket.read. cbv beta. rewrite length_app in E3. rewrite (proj2 (Z.leb_le _ _)) by lia.
  unfold buffer_read. rewrite E1, length_app, (proj2 (Nat.ltb_ge _ _)) by lia. rewrite take_app_length, drop_app_length.
  eexists _, _. split; [done|]. split; [done|]. split_and!; cbn [rbuf_ wire size_]; [done|done| |].
  - destruct rest; cbn [length Nat.eqb] in *; lia.
  - by intros ->.
Qed.

Definition idle (w : list Z) (s : Socket) : Prop := framed w [] s.

Lemma idle_fresh : idle [] fresh.
Proof. by split_and!. Qed.

Lemma idle_receive b w s : idle w s -> idle (w ++ b) (receive b s).
Proof. intros (E1 & E2 & E3 & E4). split_and!; cbn; [done|by rewrite E2|done|done]. Qed.

Lemma getCork_runs b w s : Z.of_nat (length b) < 2 ^ 31 -> idle (frame b ++ w) s -> runs getCork s (fun _ s' => framed w b s').
Proof.
  intros Hb (E1 & E2 & E3 & E4). specialize (E4 eq_refl). destruct s as [sz rb wi]. cbn [rbuf_ wire size_] in *. subst. unfold getCork, get_int, get_uint.
  unfold frame, put_u32. rewrite <- app_assoc.
  assert (Socket.read 4 (mkSocket 0 [] (le_store 4 (Z.of_nat (length b)) ++ b ++ w)) = (mkSocket 0 [] (b ++ w), Ok (le_store 4 (Z.of_nat (length b))))) as Hr.
  { unfold Socket.read. cbn [size_ wire]. rewrite (proj2 (Z.leb_gt _ _)) by lia. rewrite length_app, length_le_store, (proj2 (Nat.ltb_ge _ _)) by lia.
    rewrite take_app_length', drop_app_length' by (by rewrite length_le_store). done. }
  apply runs_bind, runs_bind, runs_bind. eexists _, _. split; [exact Hr|]. apply runs_ret, runs_ret. rewrite le_load_store by (unfold fits; lia).
  unfold signed. rewrite (proj2 (Z.ltb_lt _ (2 ^ (32 - 1)))) by lia. rewrite (proj2 (Z.ltb_ge _ 0)) by lia. rewrite Nat2Z.id.
  apply runs_bind. exists b, (mkSocket 0 [] w). split.
  - unfold Socket.read. cbn [size_ wire]. destruct (Z.leb_spec (Z.of_nat (length b)) 0) as [Hz|Hz].
    + destruct b; [done|cbn in Hz; lia].
    + rewrite length_app, (proj2 (Nat.ltb_ge _ _)) by lia. by rewrite take_app_length, drop_app_length.
  - apply runs_modify. split_and!; cbn; [done|done|done|by intros ->].
Qed.

(** A frame that was read to its end. *)
Lemma framed_idle w s : framed w [] s <-> idle w s.
Proof. done. Qed.
End StreamFacts.
