(* ===== verification/DTLBackend.v ===== *)
(** * The distributed transaction log: what the server keeps

    Backend.{h,cpp}, MemoryBackend.{h,cpp} and FileBackend.{h,cpp} of
    src/src/volumedriver/failovercache.  The virtual methods of [Backend] are a class,
    [BackendStore]; the two backends are its instances.  [get_entries] returns what it
    hands to the caller's function, and how it ends. *)

From S2P Require Import Prelude Addressing DTLStream.

Module Backend.
Import FailOverCacheStreamers ClusterLocation (ClusterLocation, sco_, offset_) SCO (SCO, mkSCO, number_, version_, cloneID_).

#[global] Instance sco_countable : Countable SCO.
Proof.
  apply (inj_countable' (fun s => (version_ s, number_ s, cloneID_ s)) (fun '(v, n, c) => mkSCO v n c)). by intros [].
Defined.

(** The open file or vector, and the entries of all SCOs. *)
Class BackendStore (St : Type) : Type := {
  st_empty : St;
  st_open : SCO -> M St unit;
  st_close : St -> St;
  st_add_entries : list FailOverCacheEntry -> M St unit;
  st_get_entries : Z -> SCO -> St -> list FailOverCacheEntry * res unit;
  st_remove : SCO -> M St unit;
  st_flush : M St unit }.

Section Backend.
Context {St : Type} `{BackendStore St}.

Record Backend : Type := mkBackend {
  registered_ : bool;
  first_command_must_be_getEntries : bool;
  ns_ : list Z;
  scosdeque_ : list SCO;
  cluster_size_ : Z;
  check_offset_ : Z;
  store : St }.

Definition create (ns : list Z) (cluster_size : Z) : Backend := mkBackend false false ns [] cluster_size 0 st_empty.

Definition with_registered (r : bool) (b : Backend) : Backend :=
  mkBackend r (first_command_must_be_getEntries b) (ns_ b) (scosdeque_ b) (cluster_size_ b) (check_offset_ b) (store b).
Definition with_first (f : bool) (b : Backend) : Backend :=
  mkBackend (registered_ b) f (ns_ b) (scosdeque_ b) (cluster_size_ b) (check_offset_ b) (store b).
Definition with_deque (d : list SCO) (b : Backend) : Backend :=
  mkBackend (registered_ b) (first_command_must_be_getEntries b) (ns_ b) d (cluster_size_ b) (check_offset_ b) (store b).
Definition with_offset (o : Z) (b : Backend) : Backend :=
  mkBackend (registered_ b) (first_command_must_be_getEntries b) (ns_ b) (scosdeque_ b) (cluster_size_ b) o (store b).
Definition with_store (s : St) (b : Backend) : Backend :=
  mkBackend (registered_ b) (first_command_must_be_getEntries b) (ns_ b) (scosdeque_ b) (cluster_size_ b) (check_offset_ b) s.

Definition on_store {A} (m : M St A) : M Backend A := fun b => let '(s, r) := m (store b) in (with_store s b, r).
Definition close : M Backend unit := mmodify (fun b => with_store (st_close (store b)) b).

Definition register_ : M Backend unit := mmodify (with_registered true).
Definition setFirstCommandMustBeGetEntries : M Backend unit := mmodify (with_first true).
Definition flush : M Backend unit := on_store st_flush.

Definition clear_cache_ : M Backend unit :=
  let! b := mget in
  miter (fun s => on_store (st_remove s)) (scosdeque_ b) ;!
  close ;!
  mmodify (with_deque []).

Definition clear : M Backend unit := clear_cache_ ;! mmodify (with_first false).

(** [while (not empty and sconum >= front.number)] *)
Fixpoint remove_front (sconum : Z) (d : list SCO) : M Backend unit :=
  match d with
  | [] => mret tt
  | s :: d' =>
      if number_ s <=? sconum then
        on_store (st_remove s) ;! mmodify (with_deque d') ;! remove_front sconum d'
      else mret tt
  end.

Definition removeUpTo (sconame : SCO) : M Backend unit :=
  mcheck (version_ sconame =? 0) ;!
  mcheck (cloneID_ sconame =? 0) ;!
  let! b := mget in
  match scosdeque_ b, last (scosdeque_ b) with
  | oldest :: _, Some youngest =>
      if number_ sconame <? number_ oldest then mret tt
      else
        (if SCO.eqb sconame youngest then close else mret tt) ;!
        remove_front (number_ sconame) (scosdeque_ b)
  | _, _ => mret tt
  end.

Definition addEntries (es : list FailOverCacheEntry) : M Backend unit :=
  match es with
  | [] => mthrow VerifyFailed
  | e :: _ =>
      let sco := sco_ (cli_ e) in
      let offset := offset_ (cli_ e) in
      mcheck (same_ends es) ;!
      let! b := mget in
      (if first_command_must_be_getEntries b then clear_cache_ ;! mmodify (with_first false) else mret tt) ;!
      let! b := mget in
      (if bool_decide (last (scosdeque_ b) = Some sco) then mcheck (offset =? check_offset_ b)
       else
         close ;!
         on_store (st_open sco) ;!
         mmodify (fun b => with_deque (scosdeque_ b ++ [sco]) b) ;!
         mmodify (with_offset offset)) ;!
      on_store (st_add_entries es) ;!
      mmodify (fun b => with_offset (u64 (check_offset_ b + Z.of_nat (length es))) b)
  end.

(** The entries given to the caller so far, and how it ended. *)
Fixpoint collect (c : Z) (s : St) (d : list SCO) : list FailOverCacheEntry * res unit :=
  match d with
  | [] => ([], Ok tt)
  | sco :: d' =>
      let '(es, r) := st_get_entries c sco s in
      match r with
      | Throw e => (es, Throw e)
      | Ok _ => let '(es', r') := collect c s d' in (es ++ es', r')
      end
  end.

Definition getEntries (b : Backend) : Backend * list FailOverCacheEntry * res unit :=
  match flush b with
  | (b, Throw e) => (b, [], Throw e)
  | (b, Ok _) =>
      let '(es, r) := collect (cluster_size_ b) (store b) (scosdeque_ b) in
      match r with
      | Ok _ => (with_first false b, es, Ok tt)
      | Throw e => (b, es, Throw e)
      end
  end.

Definition getSCO (sconame : SCO) (b : Backend) : Backend * list FailOverCacheEntry * res unit :=
  if bool_decide (sconame ∈ scosdeque_ b) then
    match flush b with
    | (b, Throw e) => (b, [], Throw e)
    | (b, Ok _) => let '(es, r) := st_get_entries (cluster_size_ b) sconame (store b) in (b, es, r)
    end
  else (b, [], Ok tt).

Definition getSCORange (b : Backend) : SCO * SCO :=
  match scosdeque_ b, last (scosdeque_ b) with
  | oldest :: _, Some youngest => (oldest, youngest)
  | _, _ => (SCO.make 0 0 0, SCO.make 0 0 0)
  end.
End Backend.
End Backend.

(** ** [MemoryBackend]: vectors that the map and [current_] share *)
Module MemoryBackend.
Import FailOverCacheStreamers Backend SCO (SCO).

Record Memory : Type := mkMemory {
  vectors : gmap nat (list (list FailOverCacheEntry));
  entries_ : gmap SCO nat;
  current_ : option nat;
  made : nat }.

Definition mem_open (sco : SCO) : M Memory unit := fun m =>
  let m' := mkMemory (<[made m := []]> (vectors m)) (entries_ m) (current_ m) (S (made m)) in
  match entries_ m !! sco with
  | Some _ => (m', Throw VerifyFailed)
  | None => (mkMemory (vectors m') (<[sco := made m]> (entries_ m)) (Some (made m)) (made m'), Ok tt)
  end.

Definition mem_close (m : Memory) : Memory := mkMemory (vectors m) (entries_ m) None (made m).

Definition mem_add_entries (es : list FailOverCacheEntry) : M Memory unit := fun m =>
  match current_ m with
  | None => (m, Throw VerifyFailed)
  | Some v => (mkMemory (alter (fun l => l ++ [es]) v (vectors m)) (entries_ m) (current_ m) (made m), Ok tt)
  end.

Definition mem_get_entries (cluster_size : Z) (sco : SCO) (m : Memory) : list FailOverCacheEntry * res unit :=
  match entries_ m !! sco with
  | Some v => (concat (default [] (vectors m !! v)), Ok tt)
  | None => ([], Ok tt)
  end.

Definition mem_remove (sco : SCO) : M Memory unit :=
  mmodify (fun m => mkMemory (vectors m) (delete sco (entries_ m)) (current_ m) (made m)).

#[global] Instance MemoryBackend : BackendStore Memory := {|
  st_empty := mkMemory ∅ ∅ None 0;
  st_open := mem_open;
  st_close := mem_close;
  st_add_entries := mem_add_entries;
  st_get_entries := mem_get_entries;
  st_remove := mem_remove;
  st_flush := mret tt |}.
End MemoryBackend.

(** ** [FileBackend]: a file per SCO, the last one open with what is not yet written out *)
Module FileBackend.
Import IOBaseStream FailOverCacheStreamers Backend ClusterLocation (version, cloneID) SCO (SCO).

(** An open file lives on when its name is removed. *)
Record OpenFile : Type := mkOpenFile { name : SCO; pending : list Z; linked : bool }.
Record Files : Type := mkFiles { on_disk : gmap SCO (list Z); file_ : option OpenFile }.

Definition written (f : Files) : gmap SCO (list Z) :=
  match file_ f with
  | Some o => if linked o then alter (fun b => b ++ pending o) (name o) (on_disk f) else on_disk f
  | None => on_disk f
  end.

Definition file_flush : M Files unit := mmodify (fun f =>
  mkFiles (written f) ((fun o => mkOpenFile (name o) [] (linked o)) <$> file_ f)).
Definition file_close (f : Files) : Files := mkFiles (written f) None.

(** [fopen] in mode "a", after the file that was open is closed *)
Definition file_open (sco : SCO) : M Files unit := mmodify (fun f =>
  let d := written f in
  mkFiles (match d !! sco with Some _ => d | None => <[sco := []]> d end) (Some (mkOpenFile sco [] true))).

Definition file_append (b : list Z) (f : Files) : Files :=
  mkFiles (on_disk f) ((fun o => mkOpenFile (name o) (pending o ++ b) (linked o)) <$> file_ f).

Definition file_add_entries (es : list FailOverCacheEntry) : M Files unit :=
  let! f := mget in
  match file_ f with
  | None => mthrow VerifyFailed
  | Some _ =>
      miter (fun e =>
        mcheck (version (cli_ e) =? 0) ;!
        mcheck (cloneID (cli_ e) =? 0) ;!
        mmodify (file_append (put_entry e))) es
  end.

(** A file that ends too early leaves the variables that are read undefined. *)
Definition file_read (n : nat) : M (list Z) (list Z) := fun b =>
  if (length b <? n)%nat then ([], Throw UndefinedBehaviour) else (drop n b, Ok (take n b)).

Definition get_entry (cluster_size : Z) : M (list Z) FailOverCacheEntry :=
  let! cl := get_ClusterLocation file_read in
  let! lba := get_uint file_read 8 in
  let! bal := get_long file_read in
  let len := signed 32 (u32 bal) in
  mcheck (len =? signed 32 (u32 cluster_size)) ;!
  let! buf := file_read (Z.to_nat len) in
  mret (mkEntry cl lba buf).

Fixpoint get_until_eof (fuel : nat) (cluster_size : Z) (b : list Z) : list FailOverCacheEntry * res unit :=
  match b, fuel with
  | [], _ => ([], Ok tt)
  | _, O => ([], Throw OutOfFuel)
  | _, S fuel' =>
      match get_entry cluster_size b with
      | (b', Ok e) => let '(es, r) := get_until_eof fuel' cluster_size b' in (e :: es, r)
      | (_, Throw e) => ([], Throw e)
      end
  end.

Definition file_get_entries (cluster_size : Z) (sco : SCO) (f : Files) : list FailOverCacheEntry * res unit :=
  match on_disk f !! sco with
  | None => ([], Throw VerifyFailed)
  | Some b => get_until_eof (length b) cluster_size b
  end.

Definition file_remove (sco : SCO) : M Files unit := mmodify (fun f =>
  mkFiles (delete sco (on_disk f))
    ((fun o => mkOpenFile (name o) (pending o) (linked o && negb (bool_decide (name o = sco)))) <$> file_ f)).

#[global] Instance FileBackend : BackendStore Files := {|
  st_empty := mkFiles ∅ None;
  st_open := file_open;
  st_close := file_close;
  st_add_entries := file_add_entries;
  st_get_entries := file_get_entries;
  st_remove := file_remove;
  st_flush := file_flush |}.
End FileBackend.
