(* ===== verification/DTLBackendFacts.v ===== *)
(** * The distributed transaction log: the backends keep a log

    [BackendStoreSpec] is what [Backend] needs of its virtual methods: a map from SCOs to
    their entries, one of which may be open.  Both backends keep it; on it, a backend is
    a list of SCOs with their entries, in the order of their arrival. *)

From S2P Require Import Prelude Addressing DTLStream DTLStreamFacts DTLBackend.

Module StoreSpec.
Import FailOverCacheStreamers Backend StreamFacts SCO (SCO).

(** An entry of the volume itself, not of a parent, and never rewritten. *)
Record own_entry (c : Z) (e : FailOverCacheEntry) : Prop := mkOwn {
  oe_entry : entry_ok c e;
  oe_version : ClusterLocation.version (cli_ e) = 0;
  oe_clone : ClusterLocation.cloneID (cli_ e) = 0;
  oe_not_null : ClusterLocation.isNull (cli_ e) = false }.

Class BackendStoreSpec (c : Z) (St : Type) `{BackendStore St} : Type := {
  st_ok : St -> Prop;
  view : St -> gmap SCO (list FailOverCacheEntry);
  cur : St -> option SCO;
  closed : St -> Prop;
  synced : St -> Prop;
  law_empty : st_ok st_empty /\ view st_empty = ∅;
  law_close s : st_ok s -> st_ok (st_close s) /\ view (st_close s) = view s /\ closed (st_close s);
  law_open s sco : st_ok s -> closed s -> view s !! sco = None ->
    runs (st_open sco) s (fun _ s' => st_ok s' /\ view s' = <[sco := []]> (view s) /\ cur s' = Some sco);
  law_add s sco l es : st_ok s -> cur s = Some sco -> view s !! sco = Some l -> Forall (own_entry c) es ->
    runs (st_add_entries es) s (fun _ s' => st_ok s' /\ view s' = <[sco := l ++ es]> (view s) /\ cur s' = Some sco);
  law_remove s sco : st_ok s -> runs (st_remove sco) s (fun _ s' => st_ok s' /\ view s' = delete sco (view s) /\
    forall x, x <> sco -> cur s = Some x -> cur s' = Some x);
  law_flush s : st_ok s -> runs st_flush s (fun _ s' => st_ok s' /\ view s' = view s /\ cur s' = cur s /\ synced s');
  law_get s sco l : st_ok s -> synced s -> view s !! sco = Some l -> st_get_entries c sco s = (l, Ok tt) }.
End StoreSpec.

(** ** Vectors in memory *)
Module MemoryFacts.
Import FailOverCacheStreamers Backend MemoryBackend StoreSpec SCO (SCO).

Record mem_ok (m : Memory) : Prop := mkMemOk {
  mo_fresh : forall v, is_Some (vectors m !! v) -> (v < made m)%nat;
  mo_there : forall sco v, entries_ m !! sco = Some v -> is_Some (vectors m !! v);
  mo_inj : forall s1 s2 v, entries_ m !! s1 = Some v -> entries_ m !! s2 = Some v -> s1 = s2 }.

Definition mem_view (m : Memory) : gmap SCO (list FailOverCacheEntry) := (fun v => concat (default [] (vectors m !! v))) <$> entries_ m.

(** The SCO whose vector is the current one. *)
Definition mem_cur (m : Memory) : option SCO :=
  current_ m ≫= fun v => fst <$> List.find (fun p => (snd p =? v)%nat) (map_to_list (entries_ m)).

Lemma mem_cur_iff m sco : mem_ok m -> mem_cur m = Some sco <-> exists v, current_ m = Some v /\ entries_ m !! sco = Some v.
Proof.
  intros Hok. unfold mem_cur. destruct (current_ m) as [v|]; cbn; [|by split; [|intros (v & ? & _)]].
  destruct (List.find _ (map_to_list (entries_ m))) as [[s w]|] eqn:E; cbn.
  - apply find_some in E as [Hin%list_elem_of_In%elem_of_map_to_list Hv%Nat.eqb_eq]. cbn in Hv. subst w. split.
    + intros [= <-]. by exists v.
    + intros (v' & [= <-] & H'). f_equal. by apply (mo_inj m Hok s sco v).
  - split; [done|]. intros (v' & [= <-] & H'). exfalso. apply elem_of_map_to_list, list_elem_of_In in H'.
    pose proof (List.find_none _ _ E _ H') as Hn. cbn in Hn. by rewrite Nat.eqb_refl in Hn.
Qed.

Lemma mem_open_spec m sco : mem_ok m -> mem_view m !! sco = None ->
  runs (mem_open sco) m (fun _ m' => mem_ok m' /\ mem_view m' = <[sco := []]> (mem_view m) /\ mem_cur m' = Some sco).
Proof.
  intros Hok Hv. unfold mem_view in Hv. rewrite lookup_fmap in Hv. destruct (entries_ m !! sco) as [v|] eqn:E; [done|].
  unfold runs, mem_open. cbv beta. rewrite E. eexists tt, _. split; [done|]. set (m' := mkMemory _ _ _ _).
  assert (forall s v, entries_ m !! s = Some v -> v <> made m) as Hne.
  { intros s v Hs ->. apply (mo_there m Hok) in Hs. apply (mo_fresh m Hok) in Hs. lia. }
  assert (mem_ok m') as Hok'.
  { split; cbn [m' vectors entries_ made].
    - intros v [x [[-> _]|[_ Hx]]%lookup_insert_Some]; [lia|]. pose proof (mo_fresh m Hok v ltac:(by eexists)). lia.
    - intros s v [[<- <-]|[_ Hs]]%lookup_insert_Some; [rewrite lookup_insert_eq; by eexists|]. rewrite lookup_insert_ne; [by apply (mo_there m Hok s)|].
      intros E'. by apply (Hne s v Hs).
    - intros s1 s2 v [[<- <-]|[_ H1]]%lookup_insert_Some [[<- E2]|[_ H2]]%lookup_insert_Some; [done| | |by eapply (mo_inj m Hok)].
      + by destruct (Hne s2 (made m) H2).
      + subst v. by destruct (Hne s1 _ H1). }
  split_and!; [done| |].
  - unfold mem_view. cbn [m' entries_ vectors]. rewrite fmap_insert, lookup_insert_eq. cbn. f_equal. apply map_fmap_ext. intros s v Hs.
    rewrite lookup_insert_ne; [done|]. intros E'. by apply (Hne s v Hs).
  - apply mem_cur_iff; [done|]. exists (made m). cbn [m' current_ entries_]. by rewrite lookup_insert_eq.
Qed.

Lemma mem_add_spec m sco l es : mem_ok m -> mem_cur m = Some sco -> mem_view m !! sco = Some l ->
  runs (mem_add_entries es) m (fun _ m' => mem_ok m' /\ mem_view m' = <[sco := l ++ es]> (mem_view m) /\ mem_cur m' = Some sco).
Proof.
  intros Hok (v & Ec & Es)%mem_cur_iff Hv; [|done]. unfold mem_view in Hv. rewrite lookup_fmap, Es in Hv. cbn in Hv. injection Hv as Hv.
  destruct (mo_there m Hok sco v Es) as [x Hx]. rewrite Hx in Hv. cbn in Hv. unfold runs, mem_add_entries. cbv beta. rewrite Ec. eexists tt, _. split; [done|].
  set (m' := mkMemory _ _ _ _).
  assert (mem_ok m') as Hok'.
  { split; cbn [m' vectors entries_ made].
    - intros w [y Hy]. apply (mo_fresh m Hok). destruct (decide (w = v)) as [->|Hne]; [by eexists|]. rewrite lookup_alter_ne in Hy by done. by eexists.
    - intros s w Hs. destruct (decide (w = v)) as [->|Hne]; [rewrite lookup_alter_eq, Hx; by eexists|]. rewrite lookup_alter_ne by done. by eapply mo_there.
    - apply Hok. }
  split_and!; [done| |].
  - unfold mem_view. cbn [m' entries_ vectors]. apply map_eq. intros s. destruct (decide (s = sco)) as [->|Hne].
    + rewrite lookup_insert_eq, lookup_fmap, Es. cbn. rewrite lookup_alter_eq, Hx. cbn. by rewrite concat_app, Hv, concat_cons, app_nil_r.
    + rewrite lookup_insert_ne, !lookup_fmap by done. destruct (entries_ m !! s) as [w|] eqn:Ew; [|done]. cbn. rewrite lookup_alter_ne; [done|].
      intros ->. by apply Hne, (mo_inj m Hok s sco w).
  - apply mem_cur_iff; [done|]. exists v. done.
Qed.

Lemma mem_remove_spec m sco : mem_ok m -> runs (mem_remove sco) m (fun _ m' => mem_ok m' /\ mem_view m' = delete sco (mem_view m) /\
  forall x, x <> sco -> mem_cur m = Some x -> mem_cur m' = Some x).
Proof.
  intros Hok. apply runs_modify. set (m' := mkMemory _ _ _ _). assert (mem_ok m') as Hok'.
  { split; cbn [m' vectors entries_ made]; [apply Hok| |].
    - intros s v [_ Hs]%lookup_delete_Some. by eapply mo_there.
    - intros s1 s2 v [_ H1]%lookup_delete_Some [_ H2]%lookup_delete_Some. by eapply (mo_inj m Hok). }
  split_and!; [done|unfold mem_view; cbn [m' entries_ vectors]; by rewrite fmap_delete|].
  intros x Hne (v & Ec & Es)%mem_cur_iff; [|done]. apply mem_cur_iff; [done|]. exists v. cbn [m' current_ entries_]. by rewrite lookup_delete_ne.
Qed.

#[global] Instance MemoryBackendSpec c : BackendStoreSpec c Memory.
Proof.
  refine {| st_ok := mem_ok; view := mem_view; cur := mem_cur; closed := fun _ => True; synced := fun _ => True |}.
  - split; [|done]. split; cbn; [by intros v [? ?]|by intros sco v ?|by intros s1 s2 v ?].
  - intros s [H1 H2 H3]. done.
  - intros s sco Hok _. by apply mem_open_spec.
  - intros s sco l es Hok Hc Hv _. by apply mem_add_spec.
  - apply mem_remove_spec.
  - intros s Hok. by apply runs_ret.
  - intros s sco l Hok _ Hv. cbn. unfold mem_get_entries. unfold mem_view in Hv. rewrite lookup_fmap in Hv.
    destruct (entries_ s !! sco); [|done]. cbn in Hv. by injection Hv as ->.
Defined.
End MemoryFacts.

(** ** Files *)
Module FileFacts.
Import IOBaseStream FailOverCacheStreamers Backend FileBackend StoreSpec StreamFacts SCO (SCO).

#[global] Instance file_reader : reader file_read (fun b s => s = b).
Proof.
  intros b rest s ->. unfold runs, file_read. cbv beta. rewrite length_app, (proj2 (Nat.ltb_ge _ _)) by lia. rewrite take_app_length, drop_app_length.
  by eexists _, _.
Qed.

Section File.
Variable c : Z.
Hypothesis Hc : size_ok c.

Definition image (l : list FailOverCacheEntry) : list Z := concat (put_entry <$> l).

Lemma get_entry_runs e rest : entry_ok c e -> get_entry c (put_entry e ++ rest) = (rest, Ok e).
Proof.
  intros [E1 E2 E3]. assert (runs (get_entry c) (put_entry e ++ rest) (fun x s => x = e /\ s = rest)) as (x & s & E & -> & ->); [|exact E].
  unfold get_entry, put_entry, put_bytearray. rewrite E3, <- !app_assoc.
  apply runs_bind. eapply runs_mono; [by eapply get_ClusterLocation_runs|]. intros x s1 [-> ->].
  apply runs_bind. eapply runs_mono; [by eapply (get_uint_runs 8)|]. intros x s2 [-> ->].
  unfold size_ok, STREAM_MAX_BYTEARRAY_SIZE in Hc. apply runs_bind. eapply runs_mono; [eapply (get_long_runs c); [lia|done]|]. intros x s3 [-> ->].
  assert (signed 32 (u32 c) = c) as ->. { unfold signed, wrap. rewrite Z.mod_small by lia. by rewrite (proj2 (Z.ltb_lt _ _)) by lia. }
  unfold mcheck. rewrite Z.eqb_refl. apply runs_bind, runs_ret. rewrite <- E3, Nat2Z.id. apply runs_bind.
  eapply runs_mono; [by eapply read_runs|]. intros x s4 [-> ->]. apply runs_ret. by destruct e.
Qed.

Lemma put_entry_cons e : exists x l, put_entry e = x :: l.
Proof. unfold put_entry, ClusterLocation.to_bytes. cbn. by eexists _, _. Qed.

Lemma get_image fuel l : Forall (entry_ok c) l -> (length l <= fuel)%nat -> get_until_eof fuel c (image l) = (l, Ok tt).
Proof.
  intros Hl. revert fuel. induction Hl as [|e l He Hl IH]; intros fuel Hf; [by destruct fuel|]. destruct fuel as [|fuel]; [cbn in Hf; lia|].
  unfold image. cbn [fmap list_fmap concat]. fold (image l). pose proof (get_entry_runs e (image l) He) as E.
  destruct (put_entry_cons e) as (x & r & Ex). rewrite Ex in E |- *. cbn [app get_until_eof] in E |- *. rewrite E.
  cbn in Hf. by rewrite IH by lia.
Qed.

Lemma length_entry_image l : (length l <= length (image l))%nat.
Proof.
  induction l as [|e l IH]; [done|]. unfold image. cbn [fmap list_fmap concat]. fold (image l). destruct (put_entry_cons e) as (x & r & ->).
  rewrite length_app. cbn [length]. lia.
Qed.

Definition parsed (b : list Z) : list FailOverCacheEntry := fst (get_until_eof (length b) c b).

Lemma parsed_image l : Forall (own_entry c) l -> get_until_eof (length (image l)) c (image l) = (l, Ok tt).
Proof. intros Hl. apply get_image; [|apply length_entry_image]. eapply Forall_impl; [exact Hl|]. by intros e []. Qed.

Record file_ok (f : Files) : Prop := mkFileOk {
  fo_images : forall sco b, written f !! sco = Some b -> exists l, b = image l /\ Forall (own_entry c) l;
  fo_open : forall o, file_ f = Some o -> linked o = true -> is_Some (on_disk f !! name o) }.

Definition file_view (f : Files) : gmap SCO (list FailOverCacheEntry) := parsed <$> written f.
Definition file_cur (f : Files) : option SCO := file_ f ≫= fun o => if linked o then Some (name o) else None.

Lemma flushed f : written (mkFiles (written f) ((fun o => mkOpenFile (name o) [] (linked o)) <$> file_ f)) = written f.
Proof.
  unfold written at 1. cbn [file_ on_disk]. destruct (file_ f) as [o|]; cbn; [|done]. destruct (linked o); [|done].
  apply map_eq. intros s. destruct (decide (s = name o)) as [->|Hne]; [|by rewrite lookup_alter_ne]. rewrite lookup_alter_eq.
  destruct (written f !! name o); [|done]. cbn. by rewrite app_nil_r.
Qed.

Lemma written_dom f s : is_Some (written f !! s) <-> is_Some (on_disk f !! s).
Proof.
  unfold written. destruct (file_ f) as [o|]; [|done]. destruct (linked o); [|done]. by rewrite lookup_alter_is_Some.
Qed.

Lemma file_open_spec f sco : file_ok f -> file_ f = None -> file_view f !! sco = None ->
  runs (file_open sco) f (fun _ f' => file_ok f' /\ file_view f' = <[sco := []]> (file_view f) /\ file_cur f' = Some sco).
Proof.
  intros [H1 H2] Hn Hv. apply runs_modify. unfold file_view in Hv. rewrite lookup_fmap in Hv. destruct (written f !! sco) as [b|] eqn:E; [done|]. cbv zeta. rewrite E.
  set (f' := mkFiles (<[sco := []]> (written f)) (Some (mkOpenFile sco [] true))). assert (written f' = <[sco := []]> (written f)) as Ew.
  { unfold f', written at 1. cbn [file_ on_disk linked name pending]. by rewrite alter_insert_eq. }
  split_and!; [|unfold file_view; rewrite Ew, fmap_insert; done|done]. split.
  - intros s b. rewrite Ew. intros [[<- <-]|[_ Hs]]%lookup_insert_Some; [by exists []|by eapply H1].
  - intros o [= <-] _. cbn. rewrite lookup_insert_eq. by eexists.
Qed.

Lemma file_append_spec f sco l e : file_ok f -> file_cur f = Some sco -> file_view f !! sco = Some l -> own_entry c e ->
  file_ok (file_append (put_entry e) f) /\ file_view (file_append (put_entry e) f) = <[sco := l ++ [e]]> (file_view f) /\
  file_cur (file_append (put_entry e) f) = Some sco /\ is_Some (file_ (file_append (put_entry e) f)).
Proof.
  intros [H1 H2] Hcur Hv He. unfold file_cur in Hcur |- *. destruct (file_ f) as [o|] eqn:Eo; [|done]. cbn in Hcur. destruct (linked o) eqn:El; [|done]. injection Hcur as Hn.
  set (f' := file_append (put_entry e) f). assert (written f' = alter (fun b => b ++ put_entry e) sco (written f)) as Ew.
  { unfold f', written, file_append. cbn [file_ on_disk]. rewrite Eo. cbn. rewrite El, Hn. apply map_eq. intros s. destruct (decide (s = sco)) as [->|Hne]; [|by rewrite !lookup_alter_ne].
    rewrite !lookup_alter_eq. destruct (on_disk f !! sco); [|done]. cbn. by rewrite app_assoc. }
  destruct (H2 o eq_refl El) as [x Hx]. rewrite Hn in Hx. destruct (proj2 (written_dom f sco) ltac:(by eexists)) as [b Hb].
  destruct (H1 sco b Hb) as (l' & -> & Hl'). unfold file_view in Hv. rewrite lookup_fmap, Hb in Hv. cbn in Hv. unfold parsed in Hv. rewrite parsed_image in Hv by done. cbn in Hv. injection Hv as ->.
  assert (image l ++ put_entry e = image (l ++ [e])) as Ei by (unfold image; rewrite fmap_app, concat_app; cbn; by rewrite app_nil_r).
  assert (Forall (own_entry c) (l ++ [e])) as Hle by (apply Forall_app; split; [done|by constructor]).
  split_and!.
  - split.
    + intros s b'. rewrite Ew. destruct (decide (s = sco)) as [->|Hne]; [rewrite lookup_alter_eq, Hb|rewrite lookup_alter_ne by done; apply H1].
      cbn. intros [= <-]. exists (l ++ [e]). done.
    + intros o' Ho' Hl. unfold f', file_append in Ho' |- *. cbn in Ho' |- *. rewrite Eo in Ho'. injection Ho' as <-. cbn in Hl |- *. by apply H2.
  - unfold file_view. rewrite Ew. apply map_eq. intros s. rewrite lookup_fmap. destruct (decide (s = sco)) as [->|Hne].
    + rewrite lookup_alter_eq, lookup_insert_eq, Hb. cbn [fmap option_fmap option_map]. rewrite Ei. unfold parsed. by rewrite parsed_image.
    + by rewrite lookup_alter_ne, lookup_insert_ne, lookup_fmap by done.
  - unfold f', file_append. cbn. rewrite Eo. cbn. rewrite El. cbn. by rewrite Hn.
  - unfold f', file_append. cbn. rewrite Eo. by eexists.
Qed.

Lemma file_add_spec es f sco l : file_ok f -> file_cur f = Some sco -> file_view f !! sco = Some l -> Forall (own_entry c) es ->
  runs (file_add_entries es) f (fun _ f' => file_ok f' /\ file_view f' = <[sco := l ++ es]> (file_view f) /\ file_cur f' = Some sco).
Proof.
  intros Hok Hcur Hv Hes. unfold file_add_entries. apply runs_bind, runs_get. assert (is_Some (file_ f)) as [o Ho].
  { unfold file_cur in Hcur. destruct (file_ f); [by eexists|done]. }
  rewrite Ho. clear o Ho. revert l f Hok Hcur Hv. induction Hes as [|e es He Hes IH]; intros l f Hok Hcur Hv.
  { apply runs_ret. rewrite app_nil_r, insert_id by done. done. }
  cbn [miter]. apply runs_bind. unfold mcheck. rewrite (oe_version _ _ He), (oe_clone _ _ He). cbn. apply runs_bind, runs_ret, runs_bind, runs_ret, runs_modify.
  destruct (file_append_spec f sco l e Hok Hcur Hv He) as (Hok1 & Hv1 & Hcur1 & _).
  eapply runs_mono; [apply (IH (l ++ [e]) _ Hok1 Hcur1); rewrite Hv1; apply lookup_insert_eq|].
  intros [] f' (Hok' & Hv' & Hc'). split_and!; [done| |done]. by rewrite Hv', Hv1, insert_insert_eq, <- app_assoc.
Qed.

Lemma file_remove_spec f sco : file_ok f -> runs (file_remove sco) f (fun _ f' => file_ok f' /\ file_view f' = delete sco (file_view f) /\
  forall x, x <> sco -> file_cur f = Some x -> file_cur f' = Some x).
Proof.
  intros [H1 H2]. apply runs_modify. set (f' := mkFiles _ _). assert (written f' = delete sco (written f)) as Ew.
  { unfold f', written. cbn [file_ on_disk]. destruct (file_ f) as [o|]; [|done]. cbn. destruct (linked o); [|done]. cbn. destruct (decide (name o = sco)) as [->|Hne].
    - rewrite bool_decide_eq_true_2 by done. cbn. by rewrite delete_alter_eq.
    - rewrite bool_decide_eq_false_2 by done. cbn. by rewrite delete_alter_ne. }
  split_and!.
  - split.
    + intros s b. rewrite Ew. intros [_ Hs]%lookup_delete_Some. by eapply H1.
    + intros o Ho Hl. unfold f' in Ho |- *. cbn in Ho |- *. destruct (file_ f) as [o0|] eqn:Eo; [|done]. injection Ho as <-. cbn in Hl |- *.
      apply andb_true_iff in Hl as [Hl Hne%negb_true_iff%bool_decide_eq_false]. rewrite lookup_delete_ne by done. by apply H2.
  - unfold file_view. by rewrite Ew, fmap_delete.
  - intros x Hne. unfold f', file_cur. cbn. destruct (file_ f) as [o|]; [|done]. cbn. destruct (linked o); [|done]. cbn. intros [= ->].
    by rewrite bool_decide_eq_false_2 by done.
Qed.

#[global] Instance FileBackendSpec : BackendStoreSpec c Files.
Proof.
  refine {| st_ok := file_ok; view := file_view; cur := file_cur; closed := fun f => file_ f = None; synced := fun f => written f = on_disk f |}.
  - split; [|done]. split; cbn; [by intros sco b ?|done].
  - intros f [H1 H2]. unfold st_close; cbn. unfold file_close. split_and!; [|done|done]. split; [|done]. exact H1.
  - apply file_open_spec.
  - intros f sco l es. apply file_add_spec.
  - apply file_remove_spec.
  - intros f [H1 H2]. apply runs_modify. split_and!.
    + split; [by rewrite flushed|]. cbn. intros o Ho Hl. destruct (file_ f) as [o0|] eqn:Eo; [|done]. injection Ho as <-. cbn [name]. apply written_dom. by apply H2.
    + unfold file_view. by rewrite flushed.
    + unfold file_cur. cbn. by destruct (file_ f).
    + apply flushed.
  - intros f sco l [H1 H2] Hs Hv. unfold st_get_entries; cbn. unfold file_get_entries. rewrite <- Hs. unfold file_view in Hv. rewrite lookup_fmap in Hv.
    destruct (written f !! sco) as [b|] eqn:Eb; [|done]. cbn in Hv. injection Hv as Hv. destruct (H1 sco b Eb) as (l' & -> & Hl').
    unfold parsed in Hv. rewrite parsed_image in Hv |- * by done. cbn in Hv. by subst.
Defined.
End File.
End FileFacts.
