(* ===== verification/DTLLog.v ===== *)
(** * The distributed transaction log: a backend is a list of entries

    The contract of the server's side: what was added, in that order, less what was
    removed or cleared.  [refines] ties a backend to such a list; every operation of
    [Backend] keeps it and returns what the list says, with either store. *)

From stdpp Require Import sorting.
From S2P Require Import Prelude Addressing DTLStream DTLStreamFacts DTLBackend DTLBackendFacts.

Module LogSpec.
Import FailOverCacheStreamers Backend SCO (SCO, number_) ClusterLocation (offset_).

(** [must_get]: somebody registered again, and the first batch of a new owner clears the
    log unless the owner reads it first. *)
Record Log : Type := mkLog { items : list FailOverCacheEntry; must_get : bool }.

Inductive Op : Type :=
  | Reregister
  | Add (es : list FailOverCacheEntry)
  | RemoveTo (s : SCO)
  | ClearAll
  | GetAll
  | GetOne (s : SCO)
  | FlushAll.

Definition of_sco (s : SCO) (l : list FailOverCacheEntry) : list FailOverCacheEntry := List.filter (fun e => SCO.eqb (entry_sco e) s) l.

(** The offset that a batch must start at to extend the SCO at the end of the log. *)
Definition next_offset (g : list FailOverCacheEntry) : Z :=
  match g with e :: _ => u64 (offset_ (cli_ e) + Z.of_nat (length g)) | [] => 0 end.

Definition extends (l : list FailOverCacheEntry) (e : FailOverCacheEntry) : bool :=
  match last l with
  | Some e' => negb (SCO.eqb (entry_sco e') (entry_sco e)) || (offset_ (cli_ e) =? next_offset (of_sco (entry_sco e) l))
  | None => true
  end.

Definition log_add (es : list FailOverCacheEntry) (l : Log) : Log * res unit :=
  match es with
  | [] => (l, Throw VerifyFailed)
  | e :: _ =>
      let kept := if must_get l then [] else items l in
      if negb (same_ends es) then (l, Throw VerifyFailed)
      else if extends kept e then (mkLog (kept ++ es) false, Ok tt) else (mkLog kept false, Throw VerifyFailed)
  end.

Definition log_remove (s : SCO) (l : Log) : Log * res unit :=
  if (SCO.version_ s =? 0) && (SCO.cloneID_ s =? 0) then
    (mkLog (List.filter (fun e => number_ s <? number_ (entry_sco e)) (items l)) (must_get l), Ok tt)
  else (l, Throw VerifyFailed).

(** The log after the operation, the entries handed out, and how it ends. *)
Definition log_op (o : Op) (l : Log) : Log * (list FailOverCacheEntry * res unit) :=
  match o with
  | Reregister => (mkLog (items l) true, ([], Ok tt))
  | Add es => let '(l, r) := log_add es l in (l, ([], r))
  | RemoveTo s => let '(l, r) := log_remove s l in (l, ([], r))
  | ClearAll => (mkLog [] false, ([], Ok tt))
  | GetAll => (mkLog (items l) false, (items l, Ok tt))
  | GetOne s => (l, (of_sco s (items l), Ok tt))
  | FlushAll => (l, ([], Ok tt))
  end.

(** What a volume adds: clusters of one SCO of its own, never an older SCO than before. *)
Definition legal (c : Z) (o : Op) (l : Log) : Prop :=
  match o with
  | Add es =>
      Forall (StoreSpec.own_entry c) es /\
      (same_ends es = true -> forall e, head es = Some e -> Forall (fun e' => entry_sco e' = entry_sco e) es /\
        (must_get l = false -> Forall (fun e' => number_ (entry_sco e') <= number_ (entry_sco e)) (items l)))
  | _ => True
  end.

Fixpoint log_run (l : Log) (ops : list Op) : list (list FailOverCacheEntry * res unit) * Log :=
  match ops with
  | [] => ([], l)
  | o :: ops => let '(l, out) := log_op o l in let '(outs, l) := log_run l ops in (out :: outs, l)
  end.

Fixpoint legal_run (c : Z) (l : Log) (ops : list Op) : Prop :=
  match ops with
  | [] => True
  | o :: ops => legal c o l /\ legal_run c (fst (log_op o l)) ops
  end.

(** The oldest and the youngest SCO. *)
Definition log_range (l : Log) : SCO * SCO :=
  match items l, last (items l) with
  | e :: _, Some e' => (entry_sco e, entry_sco e')
  | _, _ => (SCO.make 0 0 0, SCO.make 0 0 0)
  end.

Section Run.
Context {St : Type} `{BackendStore St}.

Definition quiet (r : @Backend St * res unit) : @Backend St * (list FailOverCacheEntry * res unit) := (fst r, ([], snd r)).
Definition loud (r : @Backend St * list FailOverCacheEntry * res unit) : @Backend St * (list FailOverCacheEntry * res unit) :=
  let '(b, es, r) := r in (b, (es, r)).

Definition backend_op (o : Op) (b : @Backend St) : @Backend St * (list FailOverCacheEntry * res unit) :=
  match o with
  | Reregister => quiet ((setFirstCommandMustBeGetEntries ;! register_) b)
  | Add es => quiet (addEntries es b)
  | RemoveTo s => quiet (removeUpTo s b)
  | ClearAll => quiet (clear b)
  | GetAll => loud (getEntries b)
  | GetOne s => loud (getSCO s b)
  | FlushAll => quiet (flush b)
  end.

Fixpoint backend_run (b : @Backend St) (ops : list Op) : list (list FailOverCacheEntry * res unit) * @Backend St :=
  match ops with
  | [] => ([], b)
  | o :: ops => let '(b, out) := backend_op o b in let '(outs, b) := backend_run b ops in (out :: outs, b)
  end.
End Run.
End LogSpec.

Module LogFacts.
Import FailOverCacheStreamers Backend StoreSpec LogSpec SCO (SCO, number_) ClusterLocation (offset_).

Lemma sco_eqb_iff a b : SCO.eqb a b = true <-> a = b.
Proof.
  unfold SCO.eqb. rewrite !andb_true_iff, !Z.eqb_eq. split; [|by intros ->]. intros [[? ?] ?]. destruct a, b. cbn in *. by subst.
Qed.

Lemma own_sco c e : own_entry c e -> entry_sco e = SCO.make (number_ (entry_sco e)) 0 0.
Proof. intros [_ Hv Hc _]. unfold ClusterLocation.version, ClusterLocation.cloneID in *. unfold entry_sco, SCO.make. destruct (ClusterLocation.sco_ (cli_ e)). cbn in *. by subst. Qed.

Section Groups.
Variable c : Z.

Abbreviation group := (SCO * list FailOverCacheEntry)%type.
Definition newer (a b : SCO) : Prop := number_ a < number_ b.
Definition group_ok (g : group) : Prop := snd g <> [] /\ Forall (fun e => entry_sco e = fst g /\ own_entry c e) (snd g).
Definition flat (gs : list group) : list FailOverCacheEntry := concat (snd <$> gs).

Record groups_ok (gs : list group) : Prop := mkGroups {
  go_each : Forall group_ok gs;
  go_sorted : StronglySorted newer (fst <$> gs) }.

Lemma groups_NoDup gs : groups_ok gs -> NoDup (fst <$> gs).
Proof.
  intros [_ Hs]. induction Hs as [|x l Hl IH Hx]; constructor; [|done]. intros Hin. rewrite Forall_forall in Hx. apply Hx in Hin. unfold newer in Hin. lia.
Qed.

Lemma groups_cons g gs : groups_ok (g :: gs) -> groups_ok gs.
Proof. intros [H1 H2]. apply Forall_cons in H1 as [_ H1]. cbn in H2. apply StronglySorted_inv in H2 as [H2 _]. done. Qed.

Lemma flat_cons g gs : flat (g :: gs) = snd g ++ flat gs.
Proof. done. Qed.

Lemma flat_snoc gs g : flat (gs ++ [g]) = flat gs ++ snd g.
Proof. unfold flat. rewrite fmap_app, concat_app. cbn. by rewrite app_nil_r. Qed.

Lemma group_sco g e : group_ok g -> e ∈ snd g -> entry_sco e = fst g.
Proof. intros [_ Hg]. rewrite Forall_forall in Hg. intros He. by apply Hg. Qed.

Lemma of_sco_group gs s es : groups_ok gs -> (s, es) ∈ gs -> of_sco s (flat gs) = es.
Proof.
  intros Hok. induction gs as [|g gs IH]; [by intros ?%not_elem_of_nil|]. intros Hin. rewrite flat_cons. unfold of_sco. rewrite List.filter_app. fold (of_sco s (flat gs)).
  pose proof (groups_NoDup _ Hok) as Hnd. cbn in Hnd. apply NoDup_cons in Hnd as [Hni _]. pose proof (go_each _ Hok) as [Hg Hgs]%Forall_cons.
  apply elem_of_cons in Hin as [<-|Hin].
  - rewrite lfilter_all; [|intros e He; apply sco_eqb_iff; by apply (group_sco _ _ Hg)]. cbn. unfold of_sco. rewrite lfilter_none; [by rewrite app_nil_r|].
    intros e (l & (g' & -> & Hg')%list_elem_of_fmap & He)%elem_of_concat. apply not_true_iff_false. rewrite sco_eqb_iff. intros <-. apply Hni. cbn.
    rewrite Forall_forall in Hgs. rewrite (group_sco g' e (Hgs _ Hg') He). by apply list_elem_of_fmap_2.
  - rewrite lfilter_none; [by apply IH; [by eapply groups_cons|]|]. intros e He. apply not_true_iff_false. rewrite sco_eqb_iff, (group_sco g e Hg He).
    intros E. apply Hni. rewrite E. by apply (list_elem_of_fmap_2 fst _ (s, es)).
Qed.

Lemma of_sco_none gs s : groups_ok gs -> s ∉ fst <$> gs -> of_sco s (flat gs) = [].
Proof.
  intros Hok Hni. apply lfilter_none. intros e (l & (g & -> & Hg)%list_elem_of_fmap & He)%elem_of_concat. apply not_true_iff_false. rewrite sco_eqb_iff. intros <-.
  apply Hni. pose proof (go_each _ Hok) as Hgs. rewrite Forall_forall in Hgs. rewrite (group_sco g e (Hgs _ Hg) He). by apply list_elem_of_fmap_2.
Qed.

Lemma flat_last gs g : groups_ok (gs ++ [g]) -> exists e, last (flat (gs ++ [g])) = Some e /\ entry_sco e = fst g.
Proof.
  intros [Hg _]. apply Forall_app in Hg as [_ [Hg _]%Forall_cons]. rewrite flat_snoc. destruct (last (snd g)) as [e|] eqn:E.
  - exists e. rewrite last_app, E. split; [done|]. apply (group_sco g e Hg). by apply last_Some_elem_of.
  - apply last_None in E. by destruct Hg.
Qed.

Lemma flat_head g gs : group_ok g -> exists e l, flat (g :: gs) = e :: l /\ entry_sco e = fst g.
Proof.
  intros Hg. destruct (snd g) as [|e l] eqn:E; [by destruct Hg|]. exists e, (l ++ flat gs). rewrite flat_cons, E. split; [done|]. apply (group_sco g e Hg). rewrite E. by left.
Qed.

(** Dropping the leading SCOs whose number is at most [n]. *)
Fixpoint keep (n : Z) (gs : list group) : list group :=
  match gs with
  | [] => []
  | g :: gs' => if number_ (fst g) <=? n then keep n gs' else gs
  end.

Lemma keep_suffix n gs : keep n gs `suffix_of` gs.
Proof. induction gs as [|g gs IH]; [done|]. cbn. destruct (_ <=? n); [by apply suffix_cons_r|done]. Qed.

Lemma keep_flat n gs : groups_ok gs -> flat (keep n gs) = List.filter (fun e => n <? number_ (entry_sco e)) (flat gs).
Proof.
  intros Hok. induction gs as [|g gs IH]; [done|]. pose proof (go_each _ Hok) as [Hg Hgs]%Forall_cons. rewrite flat_cons, List.filter_app. cbn [keep].
  destruct (Z.leb_spec (number_ (fst g)) n).
  - rewrite (lfilter_none _ (snd g)); [apply IH; by eapply groups_cons|]. intros e He. rewrite (group_sco g e Hg He). by apply Z.ltb_ge.
  - rewrite (lfilter_all _ (snd g)), (lfilter_all _ (flat gs)); [done| |].
    + intros e (l & (g' & -> & Hg')%list_elem_of_fmap & He)%elem_of_concat. rewrite Forall_forall in Hgs. rewrite (group_sco g' e (Hgs _ Hg') He). apply Z.ltb_lt.
      pose proof (go_sorted _ Hok) as Hs. cbn in Hs. apply StronglySorted_inv in Hs as [_ Hs]. rewrite Forall_forall in Hs.
      pose proof (Hs (fst g') ltac:(by apply list_elem_of_fmap_2)). unfold newer in *. lia.
    + intros e He. rewrite (group_sco g e Hg He). by apply Z.ltb_lt.
Qed.

Lemma keep_none n gs g : groups_ok (gs ++ [g]) -> number_ (fst g) <= n -> keep n (gs ++ [g]) = [].
Proof.
  intros Hok Hn. induction gs as [|g' gs IH]; cbn [app keep]; [by rewrite (proj2 (Z.leb_le _ _) Hn)|].
  pose proof (go_sorted _ Hok) as Hs. cbn in Hs. apply StronglySorted_inv in Hs as [_ Hs]. rewrite Forall_forall in Hs.
  pose proof (Hs (fst g)) as Hlt. rewrite fmap_app in Hlt. specialize (Hlt ltac:(apply elem_of_app; right; by left)). unfold newer in Hlt.
  rewrite (proj2 (Z.leb_le _ _)) by lia. apply IH. by eapply groups_cons.
Qed.

Lemma groups_suffix gs' gs : gs' `suffix_of` gs -> groups_ok gs -> groups_ok gs'.
Proof. intros [l ->]. induction l as [|g l IH]; [done|]. intros Hok. apply IH. by eapply groups_cons. Qed.

(** A batch goes to the last SCO of the log or to a new one. *)
Lemma groups_grow gs s es es' : groups_ok (gs ++ [(s, es)]) -> Forall (fun e => entry_sco e = s /\ own_entry c e) es' -> groups_ok (gs ++ [(s, es ++ es')]).
Proof.
  intros [H1 H2] Hes. split; [|by rewrite fmap_app in *]. apply Forall_app in H1 as [H1 [[Hn Hg] _]%Forall_cons].
  apply Forall_app. split; [done|]. repeat constructor; cbn in *; [by destruct es|]. apply Forall_app. by split.
Qed.

Lemma groups_snoc {A} (R : A -> A -> Prop) l a : StronglySorted R l -> Forall (fun b => R b a) l -> StronglySorted R (l ++ [a]).
Proof.
  induction 1 as [|x l Hl IH Hx]; intros Hf; cbn; [by repeat constructor|]. apply Forall_cons in Hf as [Hxa Hf].
  constructor; [by apply IH|]. apply Forall_app. split; [done|by repeat constructor].
Qed.

Lemma groups_new gs s es : groups_ok gs -> es <> [] -> Forall (fun e => entry_sco e = s /\ own_entry c e) es ->
  Forall (fun g => number_ (fst g) < number_ s) gs -> groups_ok (gs ++ [(s, es)]).
Proof.
  intros [H1 H2] Hn Hes Hs. split; [apply Forall_app; split; [done|by repeat constructor]|]. rewrite fmap_app. apply groups_snoc; [done|]. by apply Forall_fmap.
Qed.

Lemma groups_bound gs (P : SCO -> Prop) : groups_ok gs -> Forall (fun e => P (entry_sco e)) (flat gs) -> Forall (fun g => P (fst g)) gs.
Proof.
  intros [H1 _]. induction H1 as [|g gs Hg Hgs IH]; [done|]. rewrite flat_cons, Forall_app. intros [Hf1 Hf2]. constructor; [|by apply IH].
  destruct (snd g) as [|e l] eqn:E; [by destruct Hg|]. apply Forall_cons in Hf1 as [Hf1 _]. rewrite (group_sco g e) in Hf1; [done|done|]. rewrite E. by left.
Qed.

Lemma lookup_groups gs s es : groups_ok gs -> (list_to_map gs : gmap SCO (list FailOverCacheEntry)) !! s = Some es <-> (s, es) ∈ gs.
Proof. intros Hok. symmetry. apply elem_of_list_to_map. by apply groups_NoDup. Qed.
End Groups.

(** ** Backends *)
Section Refine.
Context (c : Z) {St : Type} `{HB : BackendStore St} `{HS : !BackendStoreSpec c St}.

Record linked (b : @Backend St) (gs : list (SCO * list FailOverCacheEntry)) : Prop := mkLinked {
  li_ok : st_ok (store b);
  li_view : view (store b) = list_to_map gs;
  li_deque : scosdeque_ b = fst <$> gs;
  li_size : cluster_size_ b = c;
  li_groups : groups_ok c gs }.

(** The SCO that the next batch may extend. *)
Definition current (b : @Backend St) (gs : list (SCO * list FailOverCacheEntry)) : Prop :=
  forall s es, last gs = Some (s, es) -> cur (store b) = Some s /\ check_offset_ b = next_offset es.

Definition refines (b : @Backend St) (l : Log) : Prop :=
  exists gs, linked b gs /\ current b gs /\ items l = flat gs /\ first_command_must_be_getEntries b = must_get l.

Lemma refines_create ns : refines (create ns c) (mkLog [] false).
Proof.
  destruct law_empty as [Ho Hv]. exists []. split_and!; [|by intros ? ? ?|done|done]. split; [done|done|done|done|]. split; [done|constructor].
Qed.

Lemma runs_on_store {A} (m : M St A) b Q : runs m (store b) (fun a s => Q a (with_store s b)) -> runs (on_store m) b Q.
Proof. intros (a & s & E & HQ). exists a, (with_store s b). unfold on_store. by rewrite E. Qed.

Lemma remove_head b s es gs : st_ok (store b) -> view (store b) = list_to_map ((s, es) :: gs) -> groups_ok c ((s, es) :: gs) ->
  runs (on_store (st_remove s)) b (fun _ b' => exists st, b' = with_store st b /\ st_ok st /\ view st = list_to_map gs /\
    forall x, x <> s -> cur (store b) = Some x -> cur st = Some x).
Proof.
  intros Hok Hv Hg. apply runs_on_store. eapply runs_mono; [by apply law_remove|]. intros [] st (Hst & Hv' & Hcur). exists st. split_and!; [done|done| |done].
  rewrite Hv', Hv. cbn. rewrite delete_insert_id; [done|]. apply not_elem_of_list_to_map. apply groups_NoDup in Hg. cbn in Hg. by apply NoDup_cons in Hg as [? _].
Qed.

Lemma clear_cache_runs b gs : linked b gs ->
  runs clear_cache_ b (fun _ b' => linked b' [] /\ first_command_must_be_getEntries b' = first_command_must_be_getEntries b).
Proof.
  intros [H1 H2 H3 H4 H5]. unfold clear_cache_. apply runs_bind, runs_get, runs_bind. rewrite H3.
  eapply runs_mono; [apply (runs_iter _ (fun d b' => exists gs' st, b' = with_store st b /\ d = fst <$> gs' /\ groups_ok c gs' /\ st_ok st /\ view st = list_to_map gs'))|].
  - exists gs, (store b). destruct b. done.
  - intros s d t (gs' & st & -> & Ed & Hg & Hst & Hv). destruct gs' as [|[s' es] gs']; [done|]. injection Ed as -> ->.
    eapply runs_mono; [by apply (remove_head (with_store st b) s' es gs')|]. intros [] b' (st' & -> & Hst' & Hv' & _). exists gs', st'. split_and!; [done|done| |done|done].
    by eapply groups_cons.
  - intros [] b' (gs' & st & -> & Ed & Hg & Hst & Hv). destruct gs'; [|done]. apply runs_bind, runs_modify, runs_modify. destruct (law_close st Hst) as (Hst' & Hv' & _).
    split; [|done]. split; [done|by rewrite <- Hv|done|done|]. split; [done|constructor].
Qed.

Lemma remove_front_runs n gs b : linked b gs ->
  runs (remove_front n (fst <$> gs)) b (fun _ b' => linked b' (keep n gs) /\ (current b gs -> current b' (keep n gs)) /\
    first_command_must_be_getEntries b' = first_command_must_be_getEntries b).
Proof.
  revert b. induction gs as [|[s es] gs IH]; intros b Hl; cbn [fmap list_fmap remove_front keep fst]; [by apply runs_ret|].
  destruct (number_ s <=? n); [|by apply runs_ret]. destruct Hl as [H1 H2 H3 H4 H5]. apply runs_bind. eapply runs_mono; [by apply (remove_head b s es gs)|].
  intros [] b' (st & -> & Hst & Hv & Hcur). apply runs_bind, runs_modify. pose proof (groups_cons _ _ _ H5) as Hg.
  eapply runs_mono; [apply IH; by split|]. intros [] b' (Hl' & Hc' & Hf). split_and!; [done| |done]. intros Hc. apply Hc'. intros x xs Hx.
  destruct (Hc x xs) as [Hx1 Hx2]; [rewrite last_cons, Hx; done|]. split; [|done]. apply Hcur; [|done].
  pose proof (groups_NoDup _ _ H5) as [Hni _]%NoDup_cons. intros ->. apply Hni. apply last_Some_elem_of in Hx. by apply (list_elem_of_fmap_2 fst _ (s, xs)).
Qed.

Lemma close_linked b gs : linked b gs -> linked (with_store (st_close (store b)) b) gs.
Proof. intros [H1 H2 H3 H4 H5]. destruct (law_close _ H1) as (Hst & Hv & _). split; [done|by rewrite <- H2|done|done|done]. Qed.

Lemma keep_refines b b' gs n l : linked b gs -> items l = flat gs -> first_command_must_be_getEntries b = must_get l ->
  linked b' (keep n gs) -> current b' (keep n gs) -> first_command_must_be_getEntries b' = first_command_must_be_getEntries b ->
  refines b' (mkLog (List.filter (fun e => n <? number_ (entry_sco e)) (items l)) (must_get l)).
Proof. intros Hl Hi Hf Hl' Hc' Hf'. exists (keep n gs). split_and!; [done|done| |by rewrite Hf', Hf]. cbn. rewrite Hi. by rewrite <- (keep_flat c) by apply Hl. Qed.

Lemma removeUpTo_runs b l s : refines b l -> SCO.version_ s = 0 -> SCO.cloneID_ s = 0 ->
  runs (removeUpTo s) b (fun _ b' => refines b' (mkLog (List.filter (fun e => number_ s <? number_ (entry_sco e)) (items l)) (must_get l))).
Proof.
  intros (gs & Hl & Hc & Hi & Hf) Hv Hcl. unfold removeUpTo, mcheck. rewrite Hv, Hcl. cbn [Z.eqb]. apply runs_bind, runs_ret, runs_bind, runs_ret, runs_bind, runs_get.
  rewrite (li_deque _ _ Hl). destruct gs as [|[o oe] gs' _] using rev_ind; [apply runs_ret; by apply (keep_refines b b [])|].
  rewrite fmap_app. change (fst <$> [(o, oe)]) with [o]. rewrite last_snoc. destruct ((fst <$> gs') ++ [o]) as [|a d] eqn:Ed; [by destruct (fst <$> gs')|]. cbn [fst].
  destruct (Z.ltb_spec (number_ s) (number_ a)).
  - apply runs_ret. assert (keep (number_ s) (gs' ++ [(o, oe)]) = gs' ++ [(o, oe)]) as Ek; [|apply (keep_refines b b (gs' ++ [(o, oe)])); by rewrite ?Ek].
    destruct gs' as [|[a' ?] gs']; injection Ed as -> _; cbn; by rewrite (proj2 (Z.leb_gt _ _)).
  - rewrite <- Ed. change ([o]) with (fst <$> [(o, oe)]). rewrite <- fmap_app. apply runs_bind. destruct (SCO.eqb s o) eqn:Es.
    + apply sco_eqb_iff in Es as ->. apply runs_modify. eapply runs_mono; [by apply remove_front_runs, close_linked|]. intros [] b' (Hl' & _ & Hf').
      apply (keep_refines b b' (gs' ++ [(o, oe)])); [done..| |done]. rewrite (keep_none c); [by intros ? ? ?|apply Hl|cbn; lia].
    + apply runs_ret. eapply runs_mono; [by apply remove_front_runs|]. intros [] b' (Hl' & Hc' & Hf'). apply (keep_refines b b' (gs' ++ [(o, oe)])); auto.
Qed.

(** A batch for the SCO that is at the end of the log, and for another one. *)
Lemma extend_runs b gs s g e es : linked b (gs ++ [(s, g)]) -> current b (gs ++ [(s, g)]) -> Forall (fun e => entry_sco e = s /\ own_entry c e) (e :: es) ->
  runs (on_store (st_add_entries (e :: es)) ;! mmodify (fun b => with_offset (u64 (check_offset_ b + Z.of_nat (length (e :: es)))) b)) b
    (fun _ b' => linked b' (gs ++ [(s, g ++ e :: es)]) /\ current b' (gs ++ [(s, g ++ e :: es)]) /\
       first_command_must_be_getEntries b' = first_command_must_be_getEntries b).
Proof.
  intros [H1 H2 H3 H4 H5] Hc Hes. destruct (Hc s g) as [Hcur Hoff]; [by rewrite last_snoc|].
  pose proof (groups_grow c gs s g (e :: es) H5 Hes) as Hg'. apply runs_bind, runs_on_store.
  eapply runs_mono; [apply (law_add _ s g); [done|done| |]|].
  - rewrite H2. apply (lookup_groups c); [done|]. apply elem_of_app. right. by left.
  - eapply Forall_impl; [exact Hes|]. by intros ? [].
  - intros [] st (Hst & Hv & Hcur'). apply runs_modify. split_and!; [|  |done].
    + split; [done| | |done|done].
      * cbn. rewrite Hv, H2. apply map_eq. intros k. apply option_eq. intros x. rewrite (lookup_groups c) by done. rewrite lookup_insert_Some, (lookup_groups c) by done.
        rewrite !elem_of_app, !list_elem_of_singleton. pose proof (groups_NoDup _ _ H5) as Hnd. rewrite fmap_app in Hnd. apply NoDup_app in Hnd as (_ & Hnd & _).
        split; [intros [[<- <-]|[Hne [?|[= -> ->]]]]; by auto|]. intros [Hin|[= -> ->]]; [|by left]. right. split; [|by left].
        intros ->. apply (Hnd k); [by apply (list_elem_of_fmap_2 fst _ (k, x))|by left].
      * cbn. by rewrite H3, !fmap_app.
    + intros x xs. rewrite last_snoc. intros [= <- <-]. split; [done|]. cbn [with_offset with_store check_offset_]. rewrite Hoff.
      pose proof (go_each _ _ H5) as [_ [[Hn _] _]%Forall_cons]%Forall_app. destruct g as [|e0 g]; [done|]. cbn [next_offset app length]. rewrite wrap_add_l. f_equal. rewrite length_app. cbn [length]. lia.
Qed.

Lemma new_sco_runs b gs s e es : linked b gs -> Forall (fun g => number_ (fst g) < number_ s) gs -> Forall (fun e => entry_sco e = s /\ own_entry c e) (e :: es) ->
  runs ((close ;! on_store (st_open s) ;! mmodify (fun b => with_deque (scosdeque_ b ++ [s]) b) ;! mmodify (with_offset (offset_ (cli_ e)))) ;!
        on_store (st_add_entries (e :: es)) ;! mmodify (fun b => with_offset (u64 (check_offset_ b + Z.of_nat (length (e :: es)))) b)) b
    (fun _ b' => linked b' (gs ++ [(s, e :: es)]) /\ current b' (gs ++ [(s, e :: es)]) /\
       first_command_must_be_getEntries b' = first_command_must_be_getEntries b).
Proof.
  intros Hl Hs Hes. destruct Hl as [H1 H2 H3 H4 H5]. assert (s ∉ fst <$> gs) as Hni.
  { intros (g & -> & Hg)%list_elem_of_fmap. rewrite Forall_forall in Hs. specialize (Hs _ Hg). lia. }
  destruct (law_close _ H1) as (Hst & Hv & Hcl). apply runs_bind, runs_bind, runs_modify, runs_bind, runs_on_store.
  eapply runs_mono; [apply law_open; [done|done|]|]. { cbn. rewrite Hv, H2. by apply not_elem_of_list_to_map. }
  intros [] st (Hst1 & Hv1 & Hc1). apply runs_bind, runs_modify, runs_modify, runs_bind, runs_on_store. cbn [store with_store with_deque with_offset] in Hv1 |- *.
  eapply runs_mono; [apply (law_add _ s []); [done|done|rewrite Hv1; apply lookup_insert_eq|]|]. { eapply Forall_impl; [exact Hes|]. by intros ? []. }
  intros [] st2 (Hst2 & Hv2 & Hc2). apply runs_modify. split_and!; [| |done].
  - split; [done| | |done|by apply groups_new].
    + cbn. rewrite Hv2, Hv1, insert_insert_eq, list_to_map_snoc by done. by rewrite Hv, H2.
    + cbn. by rewrite H3, fmap_app.
  - intros x xs. rewrite last_snoc. intros [= <- <-]. done.
Qed.

Lemma last_fst (gs : list (SCO * list FailOverCacheEntry)) s es : last (fst <$> (gs ++ [(s, es)])) = Some s.
Proof. rewrite fmap_app. apply last_snoc. Qed.

Lemma older_groups gs y ye s : groups_ok c (gs ++ [(y, ye)]) -> s <> y -> s = SCO.make (number_ s) 0 0 ->
  Forall (fun g => number_ (fst g) <= number_ s) (gs ++ [(y, ye)]) -> Forall (fun g => number_ (fst g) < number_ s) (gs ++ [(y, ye)]).
Proof.
  intros Hok Hne Hs [Hgs [Hy _]%Forall_cons]%Forall_app. assert (number_ y < number_ s) as Hlt.
  { pose proof (go_each _ _ Hok) as [_ [Hg _]%Forall_cons]%Forall_app. destruct ye as [|e ye]; [by destruct Hg|]. destruct Hg as [_ [[He Hown] _]%Forall_cons].
    apply own_sco in Hown. cbn in He, Hy. subst y. destruct (Z.eq_dec (number_ (entry_sco e)) (number_ s)) as [E|]; [|lia]. destruct Hne. by rewrite Hs, Hown, E. }
  apply Forall_app. split; [|by repeat constructor]. apply Forall_forall. intros g Hg. pose proof (go_sorted _ _ Hok) as Hso. rewrite fmap_app in Hso.
  assert (newer (fst g) y); [|unfold newer in *; lia]. clear - Hso Hg. induction gs as [|g' gs IH]; [by apply not_elem_of_nil in Hg|]. cbn in Hso. apply StronglySorted_inv in Hso as [Hso Hf].
  apply elem_of_cons in Hg as [->|Hg]; [|by apply IH]. rewrite Forall_forall in Hf. apply Hf. apply elem_of_app. right. by left.
Qed.

(** What follows the clearing. *)
Definition append (e : FailOverCacheEntry) (es : list FailOverCacheEntry) : M (@Backend St) unit :=
  let! b := mget in
  (if bool_decide (last (scosdeque_ b) = Some (entry_sco e)) then mcheck (offset_ (cli_ e) =? check_offset_ b)
   else close ;! on_store (st_open (entry_sco e)) ;! mmodify (fun b => with_deque (scosdeque_ b ++ [entry_sco e]) b) ;! mmodify (with_offset (offset_ (cli_ e)))) ;!
  on_store (st_add_entries (e :: es)) ;! mmodify (fun b => with_offset (u64 (check_offset_ b + Z.of_nat (length (e :: es)))) b).

(** The batch arrives, when nothing has to be cleared first. *)
Lemma append_refines b l e es : refines b l -> must_get l = false -> Forall (own_entry c) (e :: es) -> Forall (fun e' => entry_sco e' = entry_sco e) (e :: es) ->
  Forall (fun e' => number_ (entry_sco e') <= number_ (entry_sco e)) (items l) ->
  if extends (items l) e then runs (append e es) b (fun _ b' => refines b' (mkLog (items l ++ e :: es) false)) else append e es b = (b, Throw VerifyFailed).
Proof.
  intros (gs & Hl & Hc & Hi & Hf) Hm Hown Hsco Hold. unfold append, extends. rewrite Hi, Hm in *. set (s := entry_sco e) in *.
  assert (Forall (fun e => entry_sco e = s /\ own_entry c e) (e :: es)) as Hes by (apply Forall_and; done). clear Hown Hsco.
  pose proof (groups_bound c gs (fun x => number_ x <= number_ s) (li_groups _ _ Hl) Hold) as Hle.
  destruct gs as [|[y ye] gs _] using rev_ind.
  - cbn [flat fmap list_fmap concat last]. apply runs_bind, runs_get. rewrite (li_deque _ _ Hl). cbn [fmap list_fmap last]. rewrite bool_decide_eq_false_2 by done.
    eapply runs_mono; [by apply (new_sco_runs b [] s e es)|]. intros [] b' (Hl' & Hc' & Hf'). exists [(s, e :: es)]. split_and!; [done|done| |by rewrite Hf'].
    cbn. by rewrite app_nil_r.
  - destruct (flat_last c gs (y, ye) (li_groups _ _ Hl)) as (ey & -> & ->). cbn [fst].
    destruct (decide (s = y)) as [E|Hne].
    + subst y. rewrite (proj2 (sco_eqb_iff s s) eq_refl). cbn [negb orb]. rewrite (of_sco_group c _ s ye (li_groups _ _ Hl)) by (apply elem_of_app; right; by left).
      destruct (Hc s ye) as [_ Hoff]; [by rewrite last_snoc|]. rewrite <- Hoff. destruct (offset_ (cli_ e) =? check_offset_ b) eqn:Eo.
      * apply runs_bind, runs_get. rewrite (li_deque _ _ Hl), last_fst, bool_decide_eq_true_2 by done. rewrite Eo. apply runs_bind, runs_ret.
        eapply runs_mono; [by apply (extend_runs b gs s ye e es)|]. intros [] b' (Hl' & Hc' & Hf'). exists (gs ++ [(s, ye ++ e :: es)]). split_and!; [done|done| |by rewrite Hf'].
        cbn [items]. rewrite !flat_snoc. cbn [snd]. by rewrite <- app_assoc.
      * unfold mbind, mget. rewrite (li_deque _ _ Hl), last_fst, bool_decide_eq_true_2 by done. unfold mcheck. by rewrite Eo.
    + assert (SCO.eqb y s = false) as -> by (apply not_true_iff_false; rewrite sco_eqb_iff; congruence). cbn [negb orb]. apply runs_bind, runs_get.
      rewrite (li_deque _ _ Hl), last_fst, bool_decide_eq_false_2 by congruence. assert (s = SCO.make (number_ s) 0 0) as Hs by (apply Forall_cons in Hes as [[_ Ho] _]; by apply (own_sco c)).
      eapply runs_mono; [apply (new_sco_runs b (gs ++ [(y, ye)]) s e es); [done|by apply older_groups; [apply Hl|..]|done]|].
      intros [] b' (Hl' & Hc' & Hf'). exists ((gs ++ [(y, ye)]) ++ [(s, e :: es)]). split_and!; [done|done| |by rewrite Hf']. cbn. by rewrite (flat_snoc (gs ++ [(y, ye)])).
Qed.

Lemma addEntries_refines b l es : refines b l -> legal c (Add es) l -> refines (fst (addEntries es b)) (fst (log_add es l)) /\ snd (addEntries es b) = snd (log_add es l).
Proof.
  intros Hr [Hown Hleg]. destruct es as [|e es]; [done|]. unfold log_add. destruct (same_ends (e :: es)) eqn:Es; cbn [negb]; [|unfold addEntries, mbind, mcheck; by rewrite Es].
  destruct (Hleg eq_refl e eq_refl) as [Hsco Hold]. destruct (must_get l) eqn:Hm.
  - cbn [extends last fst snd app]. assert (runs (addEntries (e :: es)) b (fun _ b' => refines b' (mkLog (e :: es) false))) as (a & b' & -> & Hb'); [|by destruct a].
    unfold addEntries, mcheck. rewrite Es. destruct Hr as (gs & Hl & Hc & Hi & Hf). rewrite Hm in Hf. apply runs_bind, runs_ret, runs_bind, runs_get, runs_bind. rewrite Hf.
    apply runs_bind. eapply runs_mono; [by eapply clear_cache_runs|]. intros [] b1 (Hl1 & _). apply runs_modify.
    apply (append_refines (with_first false b1) (mkLog [] false) e es); [|done..]. exists []. split_and!; [by destruct Hl1|by intros ? ? ?|done|done].
  - assert (addEntries (e :: es) b = append e es b) as ->.
    { unfold addEntries, mcheck. rewrite Es. unfold mbind at 1. cbn [mret]. unfold mbind at 1, mget at 1. cbv beta iota. destruct Hr as (gs & Hl & Hc & Hi & Hf). by rewrite Hf, Hm. }
    pose proof (append_refines b l e es Hr Hm Hown Hsco (Hold eq_refl)) as Ha. destruct (extends (items l) e).
    + destruct Ha as ([] & b' & -> & Hb'). done.
    + rewrite Ha. split; [|done]. cbn. destruct l. cbn in *. by subst.
Qed.

Lemma collect_groups st d gs : st_ok st -> synced st -> view st = list_to_map (d ++ gs) -> groups_ok c (d ++ gs) -> collect c st (fst <$> gs) = (flat gs, Ok tt).
Proof.
  intros Hst Hsy Hv Hg. revert d Hv Hg. induction gs as [|[s es] gs IH]; intros d Hv Hg; [done|]. cbn [fmap list_fmap collect fst].
  rewrite (law_get st s es Hst Hsy); [|rewrite Hv; apply (lookup_groups c); [done|]; apply elem_of_app; right; by left].
  rewrite cons_middle, app_assoc in Hv, Hg. by rewrite (IH _ Hv Hg).
Qed.

Lemma flush_linked b gs : linked b gs -> current b gs -> runs flush b (fun _ b' => linked b' gs /\ current b' gs /\ synced (store b') /\
  first_command_must_be_getEntries b' = first_command_must_be_getEntries b).
Proof.
  intros [H1 H2 H3 H4 H5] Hc. apply runs_on_store. eapply runs_mono; [by apply law_flush|]. intros [] st (Hst & Hv & Hcu & Hsy). split_and!; [|  |done|done].
  - split; [done|by rewrite <- H2|done|done|done].
  - intros s es Hs. destruct (Hc s es Hs) as [? ?]. split; [cbn; by rewrite Hcu|done].
Qed.

Lemma op_refines o b l : refines b l -> legal c o l -> refines (fst (backend_op o b)) (fst (log_op o l)) /\ snd (backend_op o b) = snd (log_op o l).
Proof.
  intros Hr Hleg. destruct o as [|es|s| | |s|]; cbn [backend_op log_op].
  - destruct Hr as (gs & Hl & Hc & Hi & Hf). split; [|done]. exists gs. split_and!; [by destruct Hl|done|done|done].
  - destruct (addEntries_refines b l es Hr Hleg) as [Hr' Hs]. destruct (log_add es l) as [l' r]. unfold quiet. cbn in *. by rewrite Hs.
  - unfold log_remove. destruct (_ && _) eqn:E.
    + apply andb_true_iff in E as [?%Z.eqb_eq ?%Z.eqb_eq]. destruct (removeUpTo_runs b l s Hr) as ([] & b' & E & Hb'); [done|done|]. by rewrite E.
    + assert (removeUpTo s b = (b, Throw VerifyFailed)) as ->; [|done]. unfold removeUpTo, mbind, mcheck. apply andb_false_iff in E as [->| ->]; [done|].
      by destruct (_ =? 0).
  - destruct Hr as (gs & Hl & Hc & Hi & Hf). assert (runs clear b (fun _ b' => refines b' (mkLog [] false))) as ([] & b' & E & Hb'); [|by rewrite E].
    apply runs_bind. eapply runs_mono; [by eapply clear_cache_runs|]. intros [] b1 [Hl1 _]. apply runs_modify. exists []. split_and!; [by destruct Hl1|by intros ? ? ?|done|done].
  - destruct Hr as (gs & Hl & Hc & Hi & Hf). destruct (flush_linked b gs Hl Hc) as ([] & b' & E & Hl' & Hc' & Hs' & Hf'). unfold getEntries. rewrite E.
    rewrite (li_size _ _ Hl'), (li_deque _ _ Hl'), (collect_groups _ [] gs) by apply Hl' || done. cbn. rewrite Hi. split; [|done]. exists gs. split_and!; [by destruct Hl'|done|done|done].
  - destruct Hr as (gs & Hl & Hc & Hi & Hf). rewrite Hi. unfold getSCO. rewrite (li_deque _ _ Hl). destruct (decide (s ∈ fst <$> gs)) as [Hin|Hni].
    + rewrite bool_decide_eq_true_2 by done. destruct (flush_linked b gs Hl Hc) as ([] & b' & E & Hl' & Hc' & Hs' & Hf'). rewrite E.
      apply list_elem_of_fmap in Hin as ([s' es] & -> & Hin). rewrite (li_size _ _ Hl'). cbn [fst]. rewrite (law_get _ s' es), (of_sco_group c gs s' es) by
        (apply Hl || apply Hl' || done || (rewrite (li_view _ _ Hl'); apply (lookup_groups c); [apply Hl|done])). split; [|done]. exists gs. split_and!; [done|done|done|cbn; by rewrite Hf'].
    + rewrite bool_decide_eq_false_2 by done. rewrite (of_sco_none c) by (apply Hl || done). split; [|done]. by exists gs.
  - destruct Hr as (gs & Hl & Hc & Hi & Hf). destruct (flush_linked b gs Hl Hc) as ([] & b' & E & Hl' & Hc' & Hs' & Hf'). rewrite E. split; [|done].
    exists gs. split_and!; [done|done|done|cbn; by rewrite Hf'].
Qed.

Lemma run_refines ops b l : refines b l -> legal_run c l ops ->
  refines (snd (backend_run b ops)) (snd (log_run l ops)) /\ fst (backend_run b ops) = fst (log_run l ops).
Proof.
  revert b l. induction ops as [|o ops IH]; intros b l Hr; [done|]. intros [Ho Hops]. destruct (op_refines o b l Hr Ho) as [Hr' Hout]. cbn [backend_run log_run].
  destruct (backend_op o b) as [b' out], (log_op o l) as [l' out']. cbn in Hr', Hout, Hops. subst out'. specialize (IH b' l' Hr' Hops) as [IH1 IH2].
  destruct (backend_run b' ops), (log_run l' ops). cbn in *. by subst.
Qed.

Lemma range_refines b l : refines b l -> getSCORange b = log_range l.
Proof.
  intros (gs & Hl & _ & Hi & _). unfold getSCORange, log_range. rewrite Hi, (li_deque _ _ Hl). pose proof (li_groups _ _ Hl) as Hg.
  destruct gs as [|[o oe] gs _] using rev_ind; [done|]. rewrite last_fst. destruct (flat_last c gs (o, oe) Hg) as (e & -> & ->).
  destruct gs as [|[a ae] gs]; cbn [app] in Hg |- *.
  - destruct (flat_head c (o, oe) [] (proj1 (proj1 (Forall_cons _ _ _) (go_each _ _ Hg)))) as (e' & l' & -> & ->). done.
  - destruct (flat_head c (a, ae) (gs ++ [(o, oe)]) (proj1 (proj1 (Forall_cons _ _ _) (go_each _ _ Hg)))) as (e' & l' & -> & ->). done.
Qed.
End Refine.
End LogFacts.
