(* ===== verification/DTLServer.v ===== *)
(** * The distributed transaction log: the server and the client's proxy

    failovercache/FailOverCacheProtocol.cpp, FailOverCacheAcceptor.{h,cpp}
    ([lookup], [remove]) and FailOverCacheProxy.{h,cpp} of src/src/volumedriver: a proxy
    with its connection, and the server's thread for that connection.

    The thread reads a command as a whole before it acts.  Where it has to wait for the
    rest of one ([SocketWaits]), the model leaves the bytes on the socket and starts
    over with them when more arrive.  For the proxy, waiting in vain is an
    [IOException], when the request timeout ends it or the connection is closed. *)

From S2P Require Import Prelude Addressing DTLStream DTLBackend.

Module FailOverCacheProtocol.
Import IOBaseStream FailOverCacheStreamers Backend ClusterLocation (ClusterLocation) SCO (SCO).

Section Server.
Context {St : Type} `{BackendStore St}.

(** Backends are shared, between the acceptor's map and the connections. *)
Record Server : Type := mkServer {
  heap : gmap nat (@Backend St);
  map_ : gmap (list Z) nat;
  made : nat;
  cache_ : option nat;
  sock_ : Socket.Socket;
  sent : list Z;
  running : bool }.

Definition with_sock (k : Socket.Socket) (s : Server) : Server := mkServer (heap s) (map_ s) (made s) (cache_ s) k (sent s) (running s).
Definition with_backend (p : nat) (b : @Backend St) (s : Server) : Server :=
  mkServer (<[p := b]> (heap s)) (map_ s) (made s) (cache_ s) (sock_ s) (sent s) (running s).
Definition with_cache (c : option nat) (s : Server) : Server := mkServer (heap s) (map_ s) (made s) c (sock_ s) (sent s) (running s).
Definition send_raw (b : list Z) (s : Server) : Server := mkServer (heap s) (map_ s) (made s) (cache_ s) (sock_ s) (sent s ++ b) (running s).
Definition exit_thread (s : Server) : Server := mkServer (heap s) (map_ s) (made s) (cache_ s) (sock_ s) (sent s) false.

Definition on_sock {A} (m : M Socket.Socket A) : M Server A := fun s => let '(k, r) := m (sock_ s) in (with_sock k s, r).
Definition reply (b : list Z) : M Server unit := mmodify (send_raw (Socket.frame b)).
Definition returnOk : M Server unit := reply (OUT_ENUM OkReply).
Definition returnNotOk : M Server unit := reply (OUT_ENUM NotOk).

(** [VERIFY(cache_)] *)
Definition the_cache : M Server nat := let! s := mget in match cache_ s with Some p => mret p | None => mthrow VerifyFailed end.

Definition on_backend {A} (p : nat) (m : M (@Backend St) A) : M Server A := fun s =>
  match heap s !! p with
  | Some b => let '(b', r) := m b in (with_backend p b' s, r)
  | None => (s, Throw UndefinedBehaviour)
  end.

(** *** [FailOverCacheAcceptor] *)
Definition lookup (ns : list Z) (clustersize : Z) : M Server (option nat) :=
  let! s := mget in
  let! w := match map_ s !! ns with
    | Some p =>
        let! b := on_backend p mget in
        if cluster_size_ b =? clustersize then on_backend p setFirstCommandMustBeGetEntries ;! mret (Some p) else mret None
    | None =>
        mmodify (fun s => mkServer (<[made s := create ns clustersize]> (heap s)) (<[ns := made s]> (map_ s)) (S (made s)) (cache_ s) (sock_ s) (sent s) (running s)) ;!
        mret (Some (made s))
    end in
  match w with
  | Some p => on_backend p Backend.register_ ;! mret (Some p)
  | None => mret None
  end.

Definition remove (p : nat) : M Server unit :=
  let! b := on_backend p mget in
  mmodify (fun s => mkServer (heap s) (delete (ns_ b) (map_ s)) (made s) (cache_ s) (sock_ s) (sent s) (running s)).

(** *** Commands *)
Definition register_ : M Server unit :=
  let! (ns, c) := on_sock (get_Register Socket.read) in
  let! w := lookup ns c in
  mmodify (with_cache w) ;!
  match w with
  | None => returnNotOk
  | Some p => let! b := on_backend p mget in mcheck (registered_ b) ;! returnOk
  end.

Definition unregister_ : M Server unit :=
  let! p := the_cache in
  remove p ;! mmodify (with_cache None) ;! returnOk.

Definition addEntries_ : M Server unit :=
  let! p := the_cache in
  let! es := on_sock (get_AddEntries Socket.read) in
  match es with
  | [] => mret tt
  | _ => on_backend p (addEntries es)
  end ;!
  returnOk.

Definition Flush_ : M Server unit := let! p := the_cache in on_backend p flush ;! returnOk.
Definition Clear_ : M Server unit := let! p := the_cache in on_backend p clear ;! returnOk.

Definition removeUpTo_ : M Server unit :=
  let! p := the_cache in
  let! sco := on_sock (get_SCO Socket.read) in
  fun s => match on_backend p (removeUpTo sco) s with
    | (s', Ok _) => returnOk s'
    | (s', Throw UndefinedBehaviour) => (s', Throw UndefinedBehaviour)
    | (s', Throw _) => returnNotOk s'
    end.

Definition end_cli : list Z := ClusterLocation.to_bytes (ClusterLocation.make 0 0 0 0).

(** A method of the backend that hands out entries. *)
Definition collected (p : nat) (m : @Backend St -> @Backend St * list FailOverCacheEntry * res unit) : M Server (list FailOverCacheEntry * res unit) :=
  on_backend p (fun b => let '(b', es, r) := m b in (b', Ok (es, r))).

(** The end marker is sent on every way out. *)
Definition getEntries_ : M Server unit :=
  let! p := the_cache in
  let! (es, r) := collected p getEntries in
  mmodify (send_raw (concat ((fun e => Socket.frame (put_entry e)) <$> es))) ;!
  reply end_cli ;!
  mlift r.

Definition getSCO_ : M Server unit :=
  let! p := the_cache in
  let! sco := on_sock (get_SCO Socket.read) in
  let! (es, r) := collected p (getSCO sco) in
  reply (concat (put_entry <$> es) ++ end_cli) ;!
  mlift r.

Definition getSCORange_ : M Server unit :=
  let! p := the_cache in
  let! b := on_backend p mget in
  let '(oldest, youngest) := getSCORange b in
  reply (SCO.to_bytes oldest ++ SCO.to_bytes youngest).

Definition poll_ : M Server Z := on_sock (Socket.getCork ;! get_int Socket.read).

Definition execute (com : Z) : M Server unit :=
  if com =? command_value Register then register_
  else if com =? command_value Unregister then unregister_
  else if com =? command_value AddEntries then addEntries_
  else if com =? command_value GetEntries then getEntries_
  else if com =? command_value Flush then Flush_
  else if com =? command_value Clear then Clear_
  else if com =? command_value GetSCORange then getSCORange_
  else if com =? command_value GetSCO then getSCO_
  else if com =? command_value RemoveUpTo then removeUpTo_
  else mthrow IOException.

(** [run]: until the thread exits, or has to wait *)
Fixpoint run (fuel : nat) (s : Server) : Server * res unit :=
  if negb (running s) then (s, Ok tt)
  else match fuel with
  | O => (s, Throw OutOfFuel)
  | Datatypes.S fuel' =>
      match poll_ s with
      | (_, Throw SocketWaits) => (s, Ok tt)
      | (s', Throw UndefinedBehaviour) => (s', Throw UndefinedBehaviour)
      | (s', Throw _) => (exit_thread s', Ok tt)
      | (s', Ok com) =>
          match execute com s' with
          | (_, Throw SocketWaits) => (s, Ok tt)
          | (s'', Throw UndefinedBehaviour) => (s'', Throw UndefinedBehaviour)
          | (s'', Throw _) => (exit_thread (fst (returnNotOk s'')), Ok tt)
          | (s'', Ok _) => run fuel' s''
          end
      end
  end.

(** A connection to a server that has these backends. *)
Definition accept (h : gmap nat (@Backend St)) (m : gmap (list Z) nat) (n : nat) : Server := mkServer h m n None Socket.fresh [] true.
End Server.
End FailOverCacheProtocol.

Module FailOverCacheProxy.
Import IOBaseStream FailOverCacheStreamers FailOverCacheProtocol Backend ClusterLocation (ClusterLocation) SCO (SCO).

Section Proxy.
Context {St : Type} `{BackendStore St}.

Record Proxy : Type := mkProxy {
  peer : @Server St;
  socket_ : Socket.Socket;
  delete_failover_dir_ : bool }.

Definition on_socket {A} (m : M Socket.Socket A) : M Proxy A := fun x =>
  let '(k, r) := m (socket_ x) in
  (mkProxy (peer x) k (delete_failover_dir_ x), match r with Throw SocketWaits => Throw IOException | _ => r end).

(** Every command reads at least its four bytes. *)
Definition send (b : list Z) : M Proxy unit := fun x =>
  let s := with_sock (Socket.receive b (sock_ (peer x))) (peer x) in
  let '(s', r) := run (S (length (Socket.rbuf_ (sock_ s)) + length (Socket.wire (sock_ s)))) s in
  (mkProxy (mkServer (heap s') (map_ s') (made s') (cache_ s') (sock_ s') [] (running s'))
     (Socket.receive (sent s') (socket_ x)) (delete_failover_dir_ x), r).

Definition checkStreamOK_ : M Proxy unit := on_socket checkStreamOK.

(** The constructor, [delete_failover_dir] and the destructor's call *)
Definition register_ (ns : list Z) (csize : Z) : M Proxy unit := send (put_Register ns (u32 csize)) ;! checkStreamOK_.
Definition connect (s : @Server St) (ns : list Z) (lba_size cluster_mult : Z) : Proxy * res unit :=
  register_ ns (u64 (cluster_mult * lba_size)) (mkProxy s Socket.fresh false).
Definition delete_failover_dir : M Proxy unit := mmodify (fun x => mkProxy (peer x) (socket_ x) true).
Definition unregister_ : M Proxy unit :=
  let! x := mget in
  if delete_failover_dir_ x then send (put_command Unregister) ;! checkStreamOK_ else mret tt.

(** Whatever it throws is logged. *)
Definition removeUpTo (sconame : SCO) : M Proxy unit := fun x =>
  match (send (put_SCO_command RemoveUpTo sconame) ;! checkStreamOK_) x with
  | (x', Throw UndefinedBehaviour) => (x', Throw UndefinedBehaviour)
  | (x', _) => (x', Ok tt)
  end.

(** The frame around the request timeout has no content. *)
Definition setRequestTimeout : M Proxy unit := send (Socket.frame []).

Definition addEntries (es : list FailOverCacheEntry) : M Proxy unit :=
  let! b := mlift (put_AddEntries es) in
  send b ;! checkStreamOK_.
Definition flush : M Proxy unit := send (put_command Flush) ;! checkStreamOK_.
Definition clear : M Proxy unit := send (put_command Clear) ;! checkStreamOK_.

Definition getSCORange : M Proxy (SCO * SCO) :=
  send (put_command GetSCORange) ;!
  on_socket Socket.getCork ;!
  let! oldest := on_socket (get_SCO Socket.read) in
  let! youngest := on_socket (get_SCO Socket.read) in
  mret (oldest, youngest).

(** An iteration of [getObject_] *)
Definition next_cluster (cork_per_cluster : bool) : M Socket.Socket (option FailOverCacheEntry) :=
  (if cork_per_cluster then Socket.getCork else mret tt) ;!
  let! cli := get_ClusterLocation Socket.read in
  if ClusterLocation.isNull cli then mret None
  else
    let! lba := get_uint Socket.read 8 in
    let! bal := get_long Socket.read in
    let size := signed 32 (u32 bal) in
    if size <? 0 then mthrow UndefinedBehaviour
    else
      let! b := Socket.read (Z.to_nat size) in
      mret (Some (mkEntry cli lba b)).

(** What the processor was called with, and what is returned. *)
Fixpoint getObject_ (fuel : nat) (cork_per_cluster : bool) (ret : Z) (k : Socket.Socket) : Socket.Socket * list FailOverCacheEntry * res Z :=
  match fuel with
  | O => (k, [], Throw OutOfFuel)
  | S fuel' =>
      match next_cluster cork_per_cluster k with
      | (k', Throw e) => (k', [], Throw e)
      | (k', Ok None) => (k', [], Ok ret)
      | (k', Ok (Some e)) =>
          let '(k'', es, r) := getObject_ fuel' cork_per_cluster (u64 (ret + Z.of_nat (length (buffer_ e)))) k' in (k'', e :: es, r)
      end
  end.

Definition received (k : Socket.Socket) : nat := S (length (Socket.rbuf_ k) + length (Socket.wire k)).

Definition getObject (cork_per_cluster : bool) (x : Proxy) : Proxy * list FailOverCacheEntry * res Z :=
  let '(k, es, r) := getObject_ (received (socket_ x)) cork_per_cluster 0 (socket_ x) in
  (mkProxy (peer x) k (delete_failover_dir_ x), es, match r with Throw SocketWaits => Throw IOException | _ => r end).

Definition getEntries (x : Proxy) : Proxy * list FailOverCacheEntry * res Z :=
  match send (put_command GetEntries) x with
  | (x', Ok _) => getObject true x'
  | (x', Throw e) => (x', [], Throw e)
  end.

Definition getSCOFromFailOver (a : SCO) (x : Proxy) : Proxy * list FailOverCacheEntry * res Z :=
  match (send (put_SCO_command GetSCO a) ;! on_socket Socket.getCork) x with
  | (x', Ok _) => getObject false x'
  | (x', Throw e) => (x', [], Throw e)
  end.
End Proxy.
End FailOverCacheProxy.
