(* ===== verification/DTLServerFacts.v ===== *)
(** * The distributed transaction log: a call over the wire is a call of the backend

    The server's handlers read a message to its end, call the backend and answer; the
    proxy reads the answer to its end.  Between calls nothing is left on the wire. *)

From S2P Require Import Prelude Addressing DTLStream DTLStreamFacts DTLBackend DTLBackendFacts DTLServer.

Module ServerFacts.
Import IOBaseStream FailOverCacheStreamers FailOverCacheProtocol Backend StreamFacts ClusterLocation (ClusterLocation) SCO (SCO).

Section Server.
Context {St : Type} `{BackendStore St}.

(** The thread runs for the backend [b] at [p]; [body] is left of the message, [out] was
    answered. *)
Record serving (s : @Server St) (m : gmap (list Z) nat) (p : nat) (b : @Backend St) (body out : list Z) : Prop := mkServing {
  sg_running : running s = true;
  sg_cache : cache_ s = Some p;
  sg_heap : heap s !! p = Some b;
  sg_sock : framed [] body (sock_ s);
  sg_sent : sent s = out;
  sg_map : map_ s = m }.

Lemma runs_the_cache s m p b body out Q : serving s m p b body out -> Q p s -> runs the_cache s Q.
Proof. intros [_ Hc _ _ _ _] HQ. unfold the_cache. apply runs_bind, runs_get. rewrite Hc. by apply runs_ret. Qed.

Lemma runs_on_backend {A} (f : M (@Backend St) A) s m p b body out b' a (Q : A -> Server -> Prop) : serving s m p b body out -> f b = (b', Ok a) ->
  (forall s', serving s' m p b' body out -> Q a s') -> runs (on_backend p f) s Q.
Proof.
  intros [H1 H2 H3 H4 H5 H6] Hf HQ. unfold runs, on_backend. cbv beta. rewrite H3, Hf. eexists _, _. split; [done|]. apply HQ. split; [done|done| |done|done|done].
  apply lookup_insert_eq.
Qed.

Lemma runs_on_sock {A} (f : M Socket.Socket A) s m p b body out v rest (Q : A -> Server -> Prop) : serving s m p b body out ->
  (forall k, framed [] body k -> runs f k (fun x k' => x = v /\ framed [] rest k')) ->
  (forall s', serving s' m p b rest out -> Q v s') -> runs (on_sock f) s Q.
Proof.
  intros [H1 H2 H3 H4 H5 H6] Hf HQ. destruct (Hf _ H4) as (x & k & E & -> & Hk). unfold runs, on_sock. cbv beta. rewrite E. eexists _, _. split; [done|]. by apply HQ.
Qed.

Lemma runs_reply r s m p b body out Q : serving s m p b body out -> (forall s', serving s' m p b body (out ++ Socket.frame r) -> Q tt s') -> runs (reply r) s Q.
Proof. intros [H1 H2 H3 H4 H5 H6] HQ. apply runs_modify, HQ. split; cbn; [done|done|done|done|by rewrite H5|done]. Qed.

Definition ok_frame : list Z := Socket.frame (OUT_ENUM OkReply).

(** A handler that ends with the answer [Ok]. *)
Definition answers (h : M (@Server St) unit) (p : nat) (b b' : @Backend St) (body out : list Z) : Prop :=
  forall s m, serving s m p b body [] -> runs h s (fun _ s' => serving s' m p b' [] out).

Lemma simple_answers (f : M (@Backend St) unit) p b b' : f b = (b', Ok tt) -> answers (let! q := the_cache in on_backend q f ;! returnOk) p b b' [] ok_frame.
Proof.
  intros Hf s m Hs. apply runs_bind. eapply runs_the_cache; [done|]. apply runs_bind. eapply runs_on_backend; [done|done|]. intros s1 H1.
  by eapply runs_reply; [done|].
Qed.

Lemma addEntries_answers p b b' c es : size_ok c -> es <> [] -> Z.of_nat (length es) < 2 ^ 32 -> Forall (entry_ok c) es -> same_ends es = true -> addEntries es b = (b', Ok tt) ->
  answers addEntries_ p b b' (put_u64 (Z.of_nat (length es)) ++ concat (put_entry <$> es)) ok_frame.
Proof.
  intros Hc Hne Hl Hes Hse Hf s m Hs. apply runs_bind. eapply runs_the_cache; [done|]. apply runs_bind.
  eapply (runs_on_sock _ _ _ _ _ _ _ es []); [done| |].
  - intros k Hk. eapply get_AddEntries_runs; try done. by rewrite app_nil_r.
  - intros s1 H1. destruct es as [|e es]; [done|]. apply runs_bind. eapply runs_on_backend; [done|done|]. intros s2 H2. by eapply runs_reply; [done|].
Qed.

Lemma removeUpTo_answers p b b' sco : SCO.wf sco -> removeUpTo sco b = (b', Ok tt) -> answers removeUpTo_ p b b' (SCO.to_bytes sco) ok_frame.
Proof.
  intros Hw Hf s m Hs. apply runs_bind. eapply runs_the_cache; [done|]. apply runs_bind. eapply (runs_on_sock _ _ _ _ _ _ _ sco []); [done| |].
  - intros k Hk. eapply get_SCO_runs; [done|]. by rewrite app_nil_r.
  - intros s1 H1. destruct (runs_on_backend (removeUpTo sco) s1 m p b [] [] b' tt (fun _ s2 => serving s2 m p b' [] []) H1 Hf) as ([] & s2 & E & H2); [done|].
    unfold runs. rewrite E. eapply (runs_reply _ s2); [done|]. done.
Qed.

Definition entry_frames (es : list FailOverCacheEntry) : list Z := concat ((fun e => Socket.frame (put_entry e)) <$> es).

Lemma collected_serving f s m p b b' es r Q : serving s m p b [] [] -> f b = (b', es, r) -> (forall s', serving s' m p b' [] [] -> Q (es, r) s') ->
  runs (collected p f) s Q.
Proof. intros Hs Hf HQ. eapply (runs_on_backend _ _ _ _ _ _ _ b' (es, r)); [done| |done]. by rewrite Hf. Qed.

Lemma getEntries_answers p b b' es : getEntries b = (b', es, Ok tt) -> answers getEntries_ p b b' [] (entry_frames es ++ Socket.frame end_cli).
Proof.
  intros Hf s m Hs. apply runs_bind. eapply runs_the_cache; [done|]. apply runs_bind. eapply collected_serving; [done|done|]. intros s1 [H1 H2 H3 H4 H5 H6].
  apply runs_bind, runs_modify, runs_bind. eapply (runs_reply _ _ m p b' [] (entry_frames es)); [|intros s2 Hs2; by eapply runs_lift].
  split; cbn; [done|done|done|done|by rewrite H5|done].
Qed.

Lemma getSCO_answers p b b' sco es : SCO.wf sco -> getSCO sco b = (b', es, Ok tt) ->
  answers getSCO_ p b b' (SCO.to_bytes sco) (Socket.frame (concat (put_entry <$> es) ++ end_cli)).
Proof.
  intros Hw Hf s m Hs. apply runs_bind. eapply runs_the_cache; [done|]. apply runs_bind. eapply (runs_on_sock _ _ _ _ _ _ _ sco []); [done| |].
  - intros k Hk. eapply get_SCO_runs; [done|]. by rewrite app_nil_r.
  - intros s1 H1. apply runs_bind. eapply collected_serving; [done|done|]. intros s2 H2. apply runs_bind. eapply runs_reply; [done|]. intros s3 H3. by eapply runs_lift.
Qed.

Lemma getSCORange_answers p b : answers getSCORange_ p b b [] (Socket.frame (SCO.to_bytes (fst (getSCORange b)) ++ SCO.to_bytes (snd (getSCORange b)))).
Proof.
  intros s m Hs. apply runs_bind. eapply runs_the_cache; [done|]. apply runs_bind. eapply (runs_on_backend mget); [done|done|]. intros s1 H1.
  destruct (getSCORange b) as [o y]. by eapply runs_reply; [done|].
Qed.

(** *** The thread *)
Lemma poll_runs (s : @Server St) cmd body : idle [] (sock_ s) -> fits 31 cmd -> Z.of_nat (length body) < 2 ^ 31 - 4 ->
  runs poll_ (with_sock (Socket.receive (Socket.frame (put_u32 cmd ++ body)) (sock_ s)) s) (fun x s' => x = cmd /\ exists k, s' = with_sock k s /\ framed [] body k).
Proof.
  intros H4 Hcmd Hb. unfold poll_. pose proof (idle_receive (Socket.frame (put_u32 cmd ++ body)) [] (sock_ s) H4) as Hi.
  rewrite app_nil_l in Hi. rewrite <- (app_nil_r (Socket.frame _)) in Hi at 1.
  assert (runs (Socket.getCork ;! get_int Socket.read) (Socket.receive (Socket.frame (put_u32 cmd ++ body)) (sock_ s)) (fun x k => x = cmd /\ framed [] body k)) as (x & k & E & -> & Hk).
  - apply runs_bind. eapply runs_mono; [eapply (getCork_runs (put_u32 cmd ++ body) []); [|exact Hi]|].
    + rewrite length_app. unfold put_u32. rewrite length_le_store. lia.
    + intros [] k Hk. unfold get_int. apply runs_bind. eapply runs_mono; [eapply (get_uint_runs 4 cmd body); [unfold fits in *; lia|exact Hk]|].
      intros x k' [-> Hk']. apply runs_ret. split; [|done]. unfold signed. by rewrite (proj2 (Z.ltb_lt _ _)) by (unfold fits in Hcmd; lia).
  - exists cmd. unfold on_sock. cbn [with_sock sock_]. rewrite E. eexists. split; [done|]. split; [done|]. by exists k.
Qed.

(** Without anything to read, the thread waits. *)
Lemma run_waits fuel (s : @Server St) : running s = true -> idle [] (sock_ s) -> run (S fuel) s = (s, Ok tt).
Proof.
  intros H1 (E1 & E2 & E3 & E4). cbn [run]. rewrite H1. cbn [negb]. unfold poll_, on_sock, mbind, Socket.getCork, get_int, get_uint, mbind, Socket.read.
  rewrite (E4 eq_refl), E2. done.
Qed.
End Server.
End ServerFacts.

(** ** The proxy *)
Module ProxyFacts.
Import IOBaseStream FailOverCacheStreamers Backend FailOverCacheProtocol FailOverCacheProxy StreamFacts ServerFacts StoreSpec ClusterLocation (ClusterLocation) SCO (SCO).

Section Proxy.
Context {St : Type} `{BackendStore St}.

Definition connected (x : @Proxy St) (m : gmap (list Z) nat) (p : nat) (b : @Backend St) : Prop :=
  serving (peer x) m p b [] [] /\ idle [] (socket_ x).

(** The run of the thread that a message sets off. *)
Lemma run_command (s : @Server St) cmd body n : running s = true -> idle [] (sock_ s) -> fits 31 cmd -> Z.of_nat (length body) < 2 ^ 31 - 4 ->
  let s1 := with_sock (Socket.receive (Socket.frame (put_u32 cmd ++ body)) (sock_ s)) s in
  exists k, framed [] body k /\ run (S n) s1 = match execute cmd (with_sock k s) with
    | (_, Throw SocketWaits) => (s1, Ok tt) | (s'', Throw UndefinedBehaviour) => (s'', Throw UndefinedBehaviour)
    | (s'', Throw _) => (exit_thread (fst (returnNotOk s'')), Ok tt) | (s'', Ok _) => run n s'' end.
Proof.
  intros Hr Hi Hcmd Hl s1. destruct (poll_runs s cmd body Hi Hcmd Hl) as (? & s2 & Ep & -> & k & -> & Hk). fold s1 in Ep. exists k. split; [done|].
  cbn [run]. rewrite Ep. change (running s1) with (running s). by rewrite Hr.
Qed.

Lemma exchange x cmd body out (P : @Server St -> Prop) : running (peer x) = true -> idle [] (sock_ (peer x)) -> idle [] (socket_ x) ->
  fits 31 cmd -> Z.of_nat (length body) < 2 ^ 31 - 4 ->
  (forall k, framed [] body k -> runs (execute cmd) (with_sock k (peer x)) (fun _ s => running s = true /\ idle [] (sock_ s) /\ sent s = out /\ P s)) ->
  runs (send (Socket.frame (put_u32 cmd ++ body))) x (fun _ x' => exists s, P s /\ idle out (socket_ x') /\
    x' = mkProxy (mkServer (heap s) (map_ s) (made s) (cache_ s) (sock_ s) [] (running s)) (socket_ x') (delete_failover_dir_ x)).
Proof.
  intros Hr Hi Hk Hcmd Hl Ha. unfold runs, send. cbv beta. set (s1 := with_sock _ (peer x)).
  assert (exists f, (length (Socket.rbuf_ (sock_ s1)) + length (Socket.wire (sock_ s1)) = S f)%nat) as [f ->].
  { cbn [s1 with_sock sock_ Socket.receive Socket.rbuf_ Socket.wire]. unfold Socket.frame, put_u32. rewrite !length_app, !length_le_store. cbn. eexists. rewrite Nat.add_succ_r. done. }
  destruct (run_command (peer x) cmd body (S f) Hr Hi Hcmd Hl) as (k & Hb & Er). fold s1 in Er. destruct (Ha k Hb) as ([] & s3 & Ee & H1 & H2 & H3 & HP). rewrite Er, Ee, run_waits by done.
  eexists _, _. split; [done|]. exists s3. split_and!; [done| |done]. cbn [socket_]. rewrite H3. apply (idle_receive out [] _ Hk).
Qed.

Lemma send_runs x m p b b' cmd body out : connected x m p b -> fits 31 cmd -> Z.of_nat (length body) < 2 ^ 31 - 4 -> answers (execute cmd) p b b' body out ->
  runs (send (Socket.frame (put_u32 cmd ++ body))) x (fun _ x' => serving (peer x') m p b' [] [] /\ idle out (socket_ x') /\ delete_failover_dir_ x' = delete_failover_dir_ x).
Proof.
  intros [[H1 H2 H3 H4 H5 H6] Hk] Hcmd Hl Ha. eapply runs_mono; [apply (exchange x cmd body out (fun s => serving s m p b' [] out)); [done|done|done|done|done|]|].
  - intros k Hb. eapply runs_mono; [apply (Ha _ m); by split|]. intros [] s Hs. destruct Hs as [S1 S2 S3 S4 S5 S6]. split_and!; [done|done|done|by split].
  - intros [] x' (s & [S1 S2 S3 S4 S5 S6] & Hk' & ->). split_and!; [by split|done|done].
Qed.

Lemma runs_on_socket {A} (f : M Socket.Socket A) (x : @Proxy St) v (P : Socket.Socket -> Prop) (Q : A -> Proxy -> Prop) : runs f (socket_ x) (fun a k => a = v /\ P k) ->
  (forall x', peer x' = peer x -> delete_failover_dir_ x' = delete_failover_dir_ x -> P (socket_ x') -> Q v x') -> runs (on_socket f) x Q.
Proof. intros (a & k & E & -> & HP) HQ. unfold runs, on_socket. cbv beta. rewrite E. eexists _, _. split; [done|]. by apply HQ. Qed.

Lemma checkStreamOK_runs k : idle ok_frame k -> runs checkStreamOK k (fun a k' => a = tt /\ idle [] k').
Proof.
  intros Hk. unfold checkStreamOK. apply runs_bind. unfold ok_frame in Hk. rewrite <- (app_nil_r (Socket.frame _)) in Hk. eapply runs_mono; [eapply (getCork_runs (OUT_ENUM OkReply) []); [reflexivity|exact Hk]|].
  intros [] k1 H1. apply runs_bind. rewrite <- (app_nil_r (OUT_ENUM OkReply)) in H1. eapply runs_mono; [eapply (get_uint_runs 4 (command_value OkReply) []); [done|exact H1]|].
  intros ? k2 [-> H2]. cbn. by apply runs_ret.
Qed.

(** A command that is answered by [Ok]. *)
Lemma command_runs x m p b b' cmd body : connected x m p b -> fits 31 cmd -> Z.of_nat (length body) < 2 ^ 31 - 4 -> answers (execute cmd) p b b' body ok_frame ->
  runs (send (Socket.frame (put_u32 cmd ++ body)) ;! checkStreamOK_) x (fun _ x' => connected x' m p b').
Proof.
  intros Hc H1 H2 Ha. apply runs_bind. eapply runs_mono; [by eapply send_runs|]. intros [] x1 (Hs & Hk & _). eapply runs_on_socket; [by apply checkStreamOK_runs|].
  intros x' Hp _ Hk'. split; [by rewrite Hp|done].
Qed.

Lemma put_command_frame c : put_command c = Socket.frame (put_u32 (command_value c) ++ []).
Proof. unfold put_command, OUT_ENUM. by rewrite app_nil_r. Qed.

Lemma flush_call x m p b b' : connected x m p b -> Backend.flush b = (b', Ok tt) -> runs flush x (fun _ x' => connected x' m p b').
Proof. intros Hc Hf. unfold flush. rewrite put_command_frame. eapply command_runs; [done|done|done|]. by apply simple_answers. Qed.

Lemma clear_call x m p b b' : connected x m p b -> Backend.clear b = (b', Ok tt) -> runs clear x (fun _ x' => connected x' m p b').
Proof. intros Hc Hf. unfold clear. rewrite put_command_frame. eapply command_runs; [done|done|done|]. by apply simple_answers. Qed.

Lemma length_sco s : length (SCO.to_bytes s) = 6%nat.
Proof. done. Qed.

Lemma removeUpTo_call x m p b b' sco : connected x m p b -> SCO.wf sco -> Backend.removeUpTo sco b = (b', Ok tt) -> runs (removeUpTo sco) x (fun _ x' => connected x' m p b').
Proof.
  intros Hc Hw Hf. destruct (command_runs x m p b b' (command_value RemoveUpTo) (SCO.to_bytes sco) Hc) as ([] & x' & E & Hx'); [done|done|by apply removeUpTo_answers|].
  unfold runs, removeUpTo. cbv beta. unfold put_SCO_command, OUT_ENUM. rewrite E. by eexists _, _.
Qed.

Lemma length_put_entry c e : entry_ok c e -> Z.of_nat (length (put_entry e)) = c + 24.
Proof.
  intros [_ _ Hb]. unfold put_entry, put_bytearray, put_u64, put_long, ClusterLocation.to_bytes, SCO.to_bytes. rewrite !length_app, !length_le_store. lia.
Qed.

Lemma length_entries c es : Forall (entry_ok c) es -> Z.of_nat (length (concat (put_entry <$> es))) = Z.of_nat (length es) * (c + 24).
Proof.
  induction 1 as [|e es He Hes IH]; [done|]. cbn [fmap list_fmap concat length]. rewrite length_app, Nat2Z.inj_add, (length_put_entry c e He), IH. lia.
Qed.

(** The size of a message is an [int32_t]. *)
Definition batch_fits (c : Z) (es : list FailOverCacheEntry) : Prop := Z.of_nat (length es) * (c + 24) + 12 < 2 ^ 31.

Lemma addEntries_call x m p b b' c es : connected x m p b -> size_ok c -> es <> [] -> batch_fits c es -> Forall (entry_ok c) es -> same_ends es = true ->
  Backend.addEntries es b = (b', Ok tt) -> runs (addEntries es) x (fun _ x' => connected x' m p b').
Proof.
  unfold batch_fits. intros Hc Hs Hne Hl Hes Hse Hf. unfold addEntries, put_AddEntries. rewrite Hse. apply runs_bind. eapply runs_lift; [done|].
  unfold size_ok in Hs. eapply (command_runs x m p b b' (command_value AddEntries)); [done|done| |].
  - rewrite length_app, Nat2Z.inj_add, (length_entries c) by done. unfold put_u64. rewrite length_le_store. lia.
  - eapply addEntries_answers; [exact Hs|done| |done|done|done]. nia.
Qed.

(** *** Entries that come back *)
Lemma signed_size c : size_ok c -> signed 32 (u32 c) = c.
Proof. unfold size_ok, STREAM_MAX_BYTEARRAY_SIZE. intros Hc. unfold signed, wrap. rewrite Z.mod_small by lia. by rewrite (proj2 (Z.ltb_lt _ _)) by lia. Qed.

Lemma cluster_runs c e w rest k : size_ok c -> entry_ok c e -> ClusterLocation.isNull (cli_ e) = false -> framed w (put_entry e ++ rest) k ->
  runs (next_cluster false) k (fun x k' => x = Some e /\ framed w rest k').
Proof.
  intros Hc [E1 E2 E3] Hn Hk. unfold next_cluster. apply runs_bind, runs_ret. unfold put_entry, put_bytearray in Hk. rewrite E3, <- !app_assoc in Hk.
  apply runs_bind. eapply runs_mono; [by eapply get_ClusterLocation_runs|]. intros x k1 [-> H1]. rewrite Hn.
  apply runs_bind. eapply runs_mono; [by eapply (get_uint_runs 8)|]. intros x k2 [-> H2]. pose proof Hc as Hc'. unfold size_ok, STREAM_MAX_BYTEARRAY_SIZE in Hc'.
  apply runs_bind. eapply runs_mono; [eapply (get_long_runs c); [lia|exact H2]|]. intros x k3 [-> H3]. rewrite (signed_size c Hc), (proj2 (Z.ltb_ge _ _)) by lia.
  rewrite <- E3, Nat2Z.id. apply runs_bind. eapply runs_mono; [by eapply read_runs|]. intros x k4 [-> H4]. apply runs_ret. by destruct e.
Qed.

Lemma end_runs w rest k : framed w (end_cli ++ rest) k -> runs (next_cluster false) k (fun x k' => x = None /\ framed w rest k').
Proof.
  intros Hk. unfold next_cluster. apply runs_bind, runs_ret. apply runs_bind. eapply runs_mono; [eapply (get_ClusterLocation_runs (ClusterLocation.make 0 0 0 0)); [done|exact Hk]|].
  intros x k1 [-> H1]. by apply runs_ret.
Qed.

Lemma corked_runs (Q : option FailOverCacheEntry -> Socket.Socket -> Prop) b w k : Z.of_nat (length b) < 2 ^ 31 -> idle (Socket.frame b ++ w) k ->
  (forall k', framed w b k' -> runs (next_cluster false) k' Q) -> runs (next_cluster true) k Q.
Proof.
  intros Hl Hk Hn. unfold next_cluster. apply runs_bind. eapply runs_mono; [by apply (getCork_runs b w)|]. intros [] k1 H1.
  destruct (Hn k1 H1) as (x & k2 & E & HQ). exists x, k2. split; [|done]. rewrite <- E. done.
Qed.

Definition total (ret : Z) (es : list FailOverCacheEntry) : Z := foldl (fun r e => u64 (r + Z.of_nat (length (buffer_ e)))) ret es.

Definition sendable (c : Z) (e : FailOverCacheEntry) : Prop := entry_ok c e /\ ClusterLocation.isNull (cli_ e) = false.

Lemma object_corked c es fuel ret k w : size_ok c -> Forall (sendable c) es -> (length es < fuel)%nat -> idle (entry_frames es ++ Socket.frame end_cli ++ w) k ->
  exists k', getObject_ fuel true ret k = (k', es, Ok (total ret es)) /\ idle w k'.
Proof.
  intros Hc Hes. revert fuel ret k. induction Hes as [|e es [He Hn] Hes IH]; intros fuel ret k Hf Hk; (destruct fuel as [|fuel]; [cbn in Hf; lia|]).
  - cbn [entry_frames fmap list_fmap concat app] in Hk.
    destruct (corked_runs (fun x k' => x = None /\ idle w k') end_cli w k) as (? & k' & E & -> & Hk'); [reflexivity|done| |].
    + intros k1 H1. apply end_runs. by rewrite app_nil_r.
    + exists k'. cbn [getObject_]. by rewrite E.
  - unfold entry_frames in Hk. cbn [fmap list_fmap concat] in Hk. fold (entry_frames es) in Hk. rewrite <- app_assoc in Hk.
    destruct (corked_runs (fun x k' => x = Some e /\ idle (entry_frames es ++ Socket.frame end_cli ++ w) k') (put_entry e) (entry_frames es ++ Socket.frame end_cli ++ w) k) as (? & k1 & E & -> & Hk1).
    + rewrite (length_put_entry c e He). unfold size_ok, STREAM_MAX_BYTEARRAY_SIZE in Hc. lia.
    + done.
    + intros k1 H1. rewrite <- (app_nil_r (put_entry e)) in H1. by eapply cluster_runs.
    + cbn in Hf. destruct (IH fuel (u64 (ret + Z.of_nat (length (buffer_ e)))) k1 ltac:(lia) Hk1) as (k2 & E2 & Hk2). exists k2. cbn [getObject_]. rewrite E, E2. done.
Qed.

Lemma object_framed c es fuel ret k : size_ok c -> Forall (sendable c) es -> (length es < fuel)%nat -> framed [] (concat (put_entry <$> es) ++ end_cli) k ->
  exists k', getObject_ fuel false ret k = (k', es, Ok (total ret es)) /\ idle [] k'.
Proof.
  intros Hc Hes. revert fuel ret k. induction Hes as [|e es [He Hn] Hes IH]; intros fuel ret k Hf Hk; (destruct fuel as [|fuel]; [cbn in Hf; lia|]).
  - cbn [fmap list_fmap concat app] in Hk. rewrite <- (app_nil_r end_cli) in Hk. destruct (end_runs _ _ _ Hk) as (? & k' & E & -> & Hk'). exists k'. cbn [getObject_]. by rewrite E.
  - cbn [fmap list_fmap concat] in Hk. rewrite <- app_assoc in Hk. destruct (cluster_runs c e _ _ _ Hc He Hn Hk) as (? & k1 & E & -> & Hk1).
    cbn in Hf. destruct (IH fuel (u64 (ret + Z.of_nat (length (buffer_ e)))) k1 ltac:(lia) Hk1) as (k2 & E2 & Hk2). exists k2. cbn [getObject_]. rewrite E, E2. done.
Qed.

Lemma length_frames es : (length es <= length (entry_frames es))%nat.
Proof.
  induction es as [|e es IH]; [done|]. unfold entry_frames. cbn [fmap list_fmap concat]. fold (entry_frames es). unfold Socket.frame, put_u32. rewrite !length_app, length_le_store. cbn [length]. lia.
Qed.

Lemma length_images es : (length es <= length (concat (put_entry <$> es)))%nat.
Proof. apply (FileFacts.length_entry_image es). Qed.

Lemma getEntries_call x m p b b' c es : connected x m p b -> size_ok c -> Forall (sendable c) es -> Backend.getEntries b = (b', es, Ok tt) ->
  exists x', getEntries x = (x', es, Ok (total 0 es)) /\ connected x' m p b'.
Proof.
  intros Hx Hc Hes Hf. unfold getEntries. rewrite put_command_frame.
  destruct (send_runs x m p b b' (command_value GetEntries) [] (entry_frames es ++ Socket.frame end_cli) Hx) as ([] & x1 & E & Hs & Hk & _); [done|done|by apply getEntries_answers|].
  rewrite E. unfold getObject. destruct (object_corked c es (received (socket_ x1)) 0 (socket_ x1) [] Hc Hes) as (k & Ek & Hk'); [|by rewrite app_nil_r|].
  - unfold received. destruct Hk as (E1 & E2 & _). rewrite E1, E2, length_app. pose proof (length_frames es). cbn [length]. lia.
  - rewrite Ek. by eexists.
Qed.

(** The entries of a SCO come in one message. *)
Definition answer_fits (c : Z) (es : list FailOverCacheEntry) : Prop := Z.of_nat (length es) * (c + 24) + 8 < 2 ^ 31.

Lemma getSCO_call x m p b b' c sco es : connected x m p b -> size_ok c -> SCO.wf sco -> Forall (sendable c) es -> answer_fits c es -> Backend.getSCO sco b = (b', es, Ok tt) ->
  exists x', getSCOFromFailOver sco x = (x', es, Ok (total 0 es)) /\ connected x' m p b'.
Proof.
  intros Hx Hc Hw Hes Hl Hf. unfold getSCOFromFailOver, put_SCO_command, OUT_ENUM.
  assert (runs (send (Socket.frame (put_u32 (command_value GetSCO) ++ SCO.to_bytes sco)) ;! on_socket Socket.getCork) x (fun _ x' =>
    serving (peer x') m p b' [] [] /\ framed [] (concat (put_entry <$> es) ++ end_cli) (socket_ x'))) as ([] & x1 & E & Hs & Hk).
  { apply runs_bind. eapply runs_mono; [eapply send_runs; [done|done|done|by apply getSCO_answers]|]. intros [] x1 (Hs & Hk & _).
    rewrite <- (app_nil_r (Socket.frame _)) in Hk. eapply (runs_on_socket _ _ tt (framed [] (concat (put_entry <$> es) ++ end_cli))); [|by intros x' -> _ Hk'].
    eapply runs_mono; [eapply getCork_runs; [|exact Hk]|by intros [] k' Hk']. rewrite length_app, Nat2Z.inj_add, (length_entries c); [unfold answer_fits in Hl; cbn; lia|].
    eapply Forall_impl; [exact Hes|]. by intros e []. }
  rewrite E. unfold getObject. destruct (object_framed c es (received (socket_ x1)) 0 (socket_ x1) Hc Hes) as (k & Ek & Hk'); [|done|].
  - unfold received. destruct Hk as (E1 & _). rewrite E1, length_app. pose proof (length_images es). lia.
  - rewrite Ek. by eexists.
Qed.

Lemma range_call x m p b o y : connected x m p b -> Backend.getSCORange b = (o, y) -> SCO.wf o -> SCO.wf y ->
  runs getSCORange x (fun r x' => r = (o, y) /\ connected x' m p b).
Proof.
  intros Hx Hr Ho Hy. unfold getSCORange. rewrite put_command_frame. apply runs_bind.
  eapply runs_mono; [eapply send_runs; [done|done|done|apply getSCORange_answers]|]. rewrite Hr. cbn [fst snd]. intros [] x1 (Hs & Hk & _).
  rewrite <- (app_nil_r (Socket.frame _)) in Hk. apply runs_bind. eapply (runs_on_socket _ _ tt (framed [] (SCO.to_bytes o ++ SCO.to_bytes y))).
  { eapply runs_mono; [eapply getCork_runs; [|exact Hk]|by intros [] k' Hk']. by rewrite length_app. }
  intros x2 H2 _ K2. apply runs_bind. eapply (runs_on_socket _ _ o (framed [] (SCO.to_bytes y))); [by eapply get_SCO_runs|].
  intros x3 H3 _ K3. apply runs_bind. rewrite <- (app_nil_r (SCO.to_bytes y)) in K3. eapply (runs_on_socket _ _ y (framed [] [])); [by eapply get_SCO_runs|].
  intros x4 H4 _ K4. apply runs_ret. split; [done|]. split; [by rewrite H4, H3, H2|done].
Qed.

(** *** Connecting *)
Definition ns_ok (ns : list Z) : Prop := Z.of_nat (length ns) < STREAM_MAX_STRING_SIZE /\ Forall (fun x => x <> 0) ns.

(** What the acceptor hands to a connection that registers [ns]. *)
Definition looked_up (h : gmap nat (@Backend St)) (m : gmap (list Z) nat) (n : nat) (ns : list Z) (c : Z) : option (gmap (list Z) nat * nat * @Backend St) :=
  match m !! ns with
  | Some p => match h !! p with
      | Some b => if cluster_size_ b =? c then Some (m, p, with_registered true (with_first true b)) else None
      | None => None
      end
  | None => Some (<[ns := n]> m, n, with_registered true (create ns c))
  end.

Lemma lookup_runs (s : @Server St) ns c m p b : looked_up (heap s) (map_ s) (made s) ns c = Some (m, p, b) ->
  runs (lookup ns c) s (fun w s' => w = Some p /\ heap s' !! p = Some b /\ map_ s' = m /\ sock_ s' = sock_ s /\ sent s' = sent s /\ running s' = running s).
Proof.
  unfold looked_up, lookup. intros Hl. apply runs_bind, runs_get, runs_bind. destruct (map_ s !! ns) as [q|].
  - destruct (heap s !! q) as [bq|] eqn:Eq; [|done]. destruct (cluster_size_ bq =? c) eqn:Ec; [|done]. injection Hl as <- <- <-.
    unfold runs at 1, mbind at 1, on_backend at 1. cbv beta. rewrite Eq. cbn [mget]. rewrite Ec. unfold mbind at 1, on_backend at 1. cbn [with_backend heap]. rewrite lookup_insert_eq. cbv iota beta.
    eexists _, _. split; [done|]. unfold runs, mbind, on_backend. cbv beta. cbn [with_backend heap]. rewrite lookup_insert_eq. cbv iota beta. eexists _, _. split; [done|].
    split_and!; [done| |done|done|done|done]. cbn [with_backend heap]. by rewrite lookup_insert_eq.
  - injection Hl as <- <- <-. apply runs_bind, runs_modify, runs_ret. unfold runs, mbind, on_backend. cbv beta. cbn [heap]. rewrite lookup_insert_eq. cbv iota beta. eexists _, _. split; [done|].
    split_and!; [done| |done|done|done|done]. cbn [with_backend heap]. by rewrite lookup_insert_eq.
Qed.

Lemma connect_runs (s : @Server St) ns lba_size mult c m p b : u64 (mult * lba_size) = c -> size_ok c -> ns_ok ns -> running s = true -> idle [] (sock_ s) -> sent s = [] ->
  looked_up (heap s) (map_ s) (made s) ns c = Some (m, p, b) -> exists x, connect s ns lba_size mult = (x, Ok tt) /\ connected x m p b.
Proof.
  intros Hc Hs [Hn1 Hn2] Hr Hi Hse Hl. unfold connect, register_. rewrite Hc. set (x0 := mkProxy s Socket.fresh false).
  assert (fits 32 c) as Hf by (unfold size_ok, STREAM_MAX_BYTEARRAY_SIZE, fits in *; lia). rewrite (wrap_id 32) by done.
  destruct (exchange x0 (command_value Register) (put_string ns ++ put_u32 c) ok_frame (fun s' => cache_ s' = Some p /\ heap s' !! p = Some b /\ map_ s' = m /\ idle [] (sock_ s') /\ running s' = true))
    as ([] & x1 & E1 & s1 & (S1 & S2 & S3 & S4 & S5) & Hk & Ex); [done|done|apply idle_fresh|done| | |].
  - unfold put_string, put_u32, put_long. rewrite !length_app, !length_le_store. unfold STREAM_MAX_STRING_SIZE in Hn1. lia.
  - intros k Hk. unfold execute. cbn [command_value Z.eqb Pos.eqb]. unfold FailOverCacheProtocol.register_. apply runs_bind.
    assert (runs (get_Register Socket.read) k (fun r k' => r = (ns, c) /\ framed [] [] k')) as (? & k' & Eg & -> & Hk') by (eapply get_Register_runs; [done|done|done|]; by rewrite app_nil_r).
    unfold runs at 1, on_sock. cbn [with_sock sock_]. rewrite Eg. eexists _, _. split; [done|]. cbv beta iota. apply runs_bind.
    eapply runs_mono; [by apply (lookup_runs _ ns c m p b)|]. intros ? s2 (-> & L1 & L2 & L3 & L4 & L5). apply runs_bind, runs_modify, runs_bind.
    unfold runs at 1, on_backend. cbn [with_cache heap]. rewrite L1. eexists _, _. split; [done|]. cbv beta.
    assert (registered_ b = true) as ->. { clear -Hl. unfold looked_up in Hl. destruct (map_ _ !! ns); [|by injection Hl as _ _ <-]. destruct (heap _ !! _); [|done]. destruct (_ =? c); [|done]. by injection Hl as _ _ <-. }
    apply runs_bind, runs_ret, runs_modify. cbn [with_backend with_cache send_raw running sock_ sent cache_ heap map_]. rewrite L3, L4, L5. cbn. split_and!; [done|done|by rewrite Hse|done| |done|done|done].
    by rewrite lookup_insert_eq.
  - assert (runs (send (put_Register ns c) ;! checkStreamOK_) x0 (fun _ x' => connected x' m p b)) as ([] & x' & Ex' & Hx'); [|by exists x'].
    apply runs_bind. exists tt, x1. split; [exact E1|]. eapply runs_on_socket; [by apply checkStreamOK_runs|]. intros x2 H2 _ K2. split; [|done]. rewrite H2, Ex. by split.
Qed.

(** *** When the server gives up *)

(** The answer [NotOk], and the thread is gone. *)
Lemma send_fails x m p b cmd body e : connected x m p b -> fits 31 cmd -> Z.of_nat (length body) < 2 ^ 31 - 4 -> e <> UndefinedBehaviour -> e <> SocketWaits ->
  forall b' out, (forall k, framed [] body k -> exists s, execute cmd (with_sock k (peer x)) = (s, Throw e) /\ sent s = out /\ heap s !! p = Some b') ->
  exists x', send (Socket.frame (put_u32 cmd ++ body)) x = (x', Ok tt) /\ running (peer x') = false /\ heap (peer x') !! p = Some b' /\ idle (out ++ Socket.frame (OUT_ENUM NotOk)) (socket_ x').
Proof.
  intros [[H1 H2 H3 H4 H5 H6] Hk] Hcmd Hl Hu Hw b' out Ha. unfold send. set (s1 := with_sock _ (peer x)).
  destruct (run_command (peer x) cmd body (length (Socket.rbuf_ (sock_ s1)) + length (Socket.wire (sock_ s1))) H1 H4 Hcmd Hl) as (k & Hb & Er). fold s1 in Er.
  destruct (Ha k Hb) as (s & Ee & Hs & Hh). rewrite Er, Ee.
  assert (match e with SocketWaits => (s1, Ok tt) | UndefinedBehaviour => (s, Throw UndefinedBehaviour) | _ => (exit_thread (fst (returnNotOk s)), Ok tt) end = (exit_thread (fst (returnNotOk s)), Ok tt)) as -> by (by destruct e).
  eexists. split; [done|]. split_and!; [done|done|]. cbn [socket_ exit_thread returnNotOk reply mmodify fst send_raw sent]. rewrite Hs. apply (idle_receive _ [] _ Hk).
Qed.

Lemma getEntries_cut x m p b b' c es e : connected x m p b -> size_ok c -> Forall (sendable c) es -> e <> UndefinedBehaviour -> e <> SocketWaits ->
  Backend.getEntries b = (b', es, Throw e) -> exists x', getEntries x = (x', es, Ok (total 0 es)) /\ running (peer x') = false.
Proof.
  intros Hx Hc Hes Hu Hw Hf. unfold getEntries. rewrite put_command_frame.
  destruct (send_fails x m p b (command_value GetEntries) [] e Hx ltac:(done) ltac:(done) Hu Hw b' (entry_frames es ++ Socket.frame end_cli)) as (x1 & E & Hr & _ & Hk).
  - intros k Hk. destruct Hx as [[H1 H2 H3 H4 H5 H6] _]. eexists. split; [|split].
    + unfold execute. cbn [command_value Z.eqb Pos.eqb]. unfold getEntries_, the_cache, collected, on_backend, mbind, mget, mret. cbn [with_sock cache_]. rewrite H2. cbv beta iota. cbn [with_sock heap]. rewrite H3, Hf. done.
    + cbn [send_raw sent with_backend with_sock]. by rewrite H5.
    + cbn [send_raw heap with_backend with_sock]. by rewrite lookup_insert_eq.
  - rewrite E. unfold getObject. rewrite <- app_assoc in Hk. destruct (object_corked c es (received (socket_ x1)) 0 (socket_ x1) (Socket.frame (OUT_ENUM NotOk)) Hc Hes) as (k & Ek & _); [|done|].
    + unfold received. destruct Hk as (E1 & E2 & _). rewrite E1, E2, !length_app. pose proof (length_frames es). cbn [length]. lia.
    + rewrite Ek. by eexists.
Qed.

(** *** A frame without content *)
Lemma empty_frame_waits : snd ((Socket.getCork ;! get_int Socket.read) (Socket.mkSocket 0 [] (Socket.frame []))) = Throw SocketWaits.
Proof. done. Qed.

(** Behind it, the length of the next frame is taken for a command, and what is in that
    frame for a frame. *)
Lemma shifted_command sco : (Socket.getCork ;! get_int Socket.read) (Socket.mkSocket 0 [] (Socket.frame [] ++ put_SCO_command RemoveUpTo sco)) =
  (Socket.mkSocket 0 [] (put_u32 (command_value RemoveUpTo) ++ SCO.to_bytes sco), Ok (command_value Clear)).
Proof. done. Qed.

Lemma shifted_next sco : fits 31 (SCO.number_ sco) -> exists k, (Socket.getCork ;! get_int Socket.read) (Socket.mkSocket 0 [] (put_u32 (command_value RemoveUpTo) ++ SCO.to_bytes sco)) = (k, Ok (SCO.number_ sco)).
Proof.
  intros Hn. eexists. assert (signed 32 (le_load (le_store 4 (SCO.number_ sco))) = SCO.number_ sco) as E.
  { rewrite le_load_store by (unfold fits in *; lia). unfold signed. by rewrite (proj2 (Z.ltb_lt _ _)) by (unfold fits in Hn; lia). }
  rewrite <- E. reflexivity.
Qed.

Lemma idle_socket k : idle [] k -> k = Socket.mkSocket 0 [] [].
Proof. destruct k as [z r w]. intros (E1 & E2 & _ & E4). cbn in *. subst. by rewrite (E4 eq_refl). Qed.

Lemma poll_eq (s : @Server St) k r : (Socket.getCork ;! get_int Socket.read) (sock_ s) = (k, r) -> poll_ s = (with_sock k s, r).
Proof. intros E. unfold poll_, on_sock. by rewrite E. Qed.

Lemma timeout_call x m p b : connected x m p b -> exists x', setRequestTimeout x = (x', Ok tt) /\ delete_failover_dir_ x' = delete_failover_dir_ x /\
  socket_ x' = Socket.mkSocket 0 [] [] /\ peer x' = with_sock (Socket.mkSocket 0 [] (Socket.frame [])) (peer x).
Proof.
  intros [[H1 H2 H3 H4 H5 H6] Hk]. unfold setRequestTimeout, send. set (s1 := with_sock _ (peer x)). apply idle_socket in H4, Hk.
  assert (sock_ s1 = Socket.mkSocket 0 [] (Socket.frame [])) as Es by (unfold s1; cbn [with_sock sock_]; by rewrite H4).
  assert (run (S (length (Socket.rbuf_ (sock_ s1)) + length (Socket.wire (sock_ s1)))) s1 = (s1, Ok tt)) as ->.
  { rewrite Es. cbn [run]. change (running s1) with (running (peer x)). rewrite H1. cbn [negb]. rewrite (poll_eq s1 _ _ ltac:(rewrite Es; reflexivity)). done. }
  eexists. split; [done|]. split_and!; [done| |].
  - cbn [socket_]. change (sent s1) with (sent (peer x)). by rewrite H5, Hk.
  - cbn [peer]. unfold with_sock. rewrite Es. destruct (peer x). cbn in *. by subst.
Qed.

(** Neither the thread's first command nor its second is the one that was sent. *)
Lemma shifted_run (s : @Server St) m p b b' sco n : serving s m p b [] [] -> Backend.clear b = (b', Ok tt) -> 11 < SCO.number_ sco < 2 ^ 31 ->
  exists s', run (S (S n)) (with_sock (Socket.mkSocket 0 [] (Socket.frame [] ++ put_SCO_command RemoveUpTo sco)) s) = (s', Ok tt) /\
    heap s' !! p = Some b' /\ running s' = false /\ sent s' = ok_frame ++ Socket.frame (OUT_ENUM NotOk).
Proof.
  intros [H1 H2 H3 H4 H5 H6] Hc Hn. set (s1 := with_sock _ s). set (k2 := Socket.mkSocket 0 [] (put_u32 (command_value RemoveUpTo) ++ SCO.to_bytes sco)).
  assert (poll_ s1 = (with_sock k2 s, Ok (command_value Clear))) as Ep by exact (poll_eq s1 _ _ (shifted_command sco)).
  assert (exists s2, Clear_ (with_sock k2 s) = (s2, Ok tt) /\ heap s2 !! p = Some b' /\ running s2 = true /\ sent s2 = ok_frame /\ sock_ s2 = k2) as (s2 & E2 & G1 & G2 & G3 & G4).
  { unfold Clear_, the_cache, mbind, mget, on_backend, mret. cbn [with_sock cache_]. rewrite H2. cbv beta iota. cbn [with_sock heap]. rewrite H3, Hc. eexists. split; [done|].
    cbn [send_raw with_backend with_sock heap running sent sock_]. rewrite lookup_insert_eq, H5. done. }
  destruct (shifted_next sco) as (k3 & E3); [unfold fits; lia|]. assert (poll_ s2 = (with_sock k3 s2, Ok (SCO.number_ sco))) as Ep2 by (apply poll_eq; by rewrite G4).
  assert (execute (SCO.number_ sco) (with_sock k3 s2) = (with_sock k3 s2, Throw IOException)) as Ee.
  { unfold execute. cbn [command_value]. do 9 (rewrite (proj2 (Z.eqb_neq (SCO.number_ sco) _)) by lia). done. }
  eexists. cbn [run]. change (running s1) with (running s). rewrite H1. cbn [negb]. rewrite Ep. change (execute (command_value Clear) (with_sock k2 s)) with (Clear_ (with_sock k2 s)). rewrite E2, G2. cbn [negb]. rewrite Ep2, Ee.
  split; [done|]. cbn [exit_thread returnNotOk reply mmodify fst send_raw heap running sent with_sock]. by rewrite G1, G3.
Qed.

(** The proxy sees the answer to the first one. *)
Lemma timeout_then_remove x m p b b' sco : connected x m p b -> Backend.clear b = (b', Ok tt) -> 11 < SCO.number_ sco < 2 ^ 31 ->
  exists x', (setRequestTimeout ;! removeUpTo sco) x = (x', Ok tt) /\ heap (peer x') !! p = Some b' /\ running (peer x') = false.
Proof.
  intros Hx Hc Hn. destruct (timeout_call x m p b Hx) as (x1 & E1 & _ & Hk1 & Hp1). destruct Hx as [Hs Hk]. unfold mbind at 1. rewrite E1. unfold removeUpTo.
  assert (exists x2, send (put_SCO_command RemoveUpTo sco) x1 = (x2, Ok tt) /\ heap (peer x2) !! p = Some b' /\ running (peer x2) = false /\ idle (ok_frame ++ Socket.frame (OUT_ENUM NotOk)) (socket_ x2)) as (x2 & E2 & G1 & G2 & G3).
  { unfold send. rewrite Hp1. set (s1 := with_sock _ (with_sock _ (peer x))). 
    assert (s1 = with_sock (Socket.mkSocket 0 [] (Socket.frame [] ++ put_SCO_command RemoveUpTo sco)) (peer x)) as Es by done.
    assert (length (Socket.rbuf_ (sock_ s1)) + length (Socket.wire (sock_ s1)) = S 17)%nat as -> by done.
    destruct (shifted_run (peer x) m p b b' sco 17 Hs Hc Hn) as (s' & Er & R1 & R2 & R3). rewrite Es, Er. eexists. split; [done|]. cbn [peer heap running socket_]. split_and!; [done|done|].
    rewrite R3, Hk1. apply (idle_receive _ []). by split_and!. }
  unfold mbind. rewrite E2. assert (runs checkStreamOK (socket_ x2) (fun _ k => True)) as ([] & k & Ek & _).
  { unfold checkStreamOK. apply runs_bind. eapply runs_mono; [eapply (getCork_runs (OUT_ENUM OkReply)); [reflexivity|exact G3]|]. intros [] k1 K1. apply runs_bind.
    rewrite <- (app_nil_r (OUT_ENUM OkReply)) in K1. eapply runs_mono; [eapply (get_uint_runs 4 (command_value OkReply) []); [done|exact K1]|]. intros ? k2 [-> K2]. by apply runs_ret. }
  unfold checkStreamOK_, on_socket. rewrite Ek. by eexists.
Qed.
End Proxy.
End ProxyFacts.
