(* ===== verification/DTLWire.v ===== *)
(** * The distributed transaction log: what a client sees of it

    A client's calls, each over the wire to a server with either backend, give what the
    list of entries ([LogSpec]) gives.  Registering again is a new connection to the same
    server. *)

From stdpp Require Import sorting.
From S2P Require Import Prelude Addressing DTLStream DTLStreamFacts DTLBackend DTLBackendFacts DTLLog DTLServer DTLServerFacts.

Module WireSpec.
Import FailOverCacheStreamers FailOverCacheProtocol Backend LogSpec ProxyFacts FailOverCacheProxy SCO (SCO).

Section Run.
Context {St : Type} `{BackendStore St}.
Variables (ns : list Z) (lba_size mult : Z).

Definition reconnect (x : @Proxy St) : Proxy * res unit := connect (accept (heap (peer x)) (map_ (peer x)) (made (peer x))) ns lba_size mult.

Definition silent (r : @Proxy St * res unit) : Proxy * (list FailOverCacheEntry * res Z) :=
  (fst r, ([], match snd r with Ok _ => Ok 0 | Throw e => Throw e end)).

Definition proxy_op (o : Op) (x : @Proxy St) : Proxy * (list FailOverCacheEntry * res Z) :=
  match o with
  | Reregister => silent (reconnect x)
  | Add es => silent (addEntries es x)
  | RemoveTo s => silent (removeUpTo s x)
  | ClearAll => silent (clear x)
  | GetAll => let '(x, es, r) := getEntries x in (x, (es, r))
  | GetOne s => let '(x, es, r) := getSCOFromFailOver s x in (x, (es, r))
  | FlushAll => silent (flush x)
  end.

Fixpoint proxy_run (x : @Proxy St) (ops : list Op) : list (list FailOverCacheEntry * res Z) * @Proxy St :=
  match ops with
  | [] => ([], x)
  | o :: ops => let '(x, out) := proxy_op o x in let '(outs, x) := proxy_run x ops in (out :: outs, x)
  end.
End Run.

(** With the number of bytes that the entries have. *)
Definition wire_output (o : list FailOverCacheEntry * res unit) : list FailOverCacheEntry * res Z :=
  (fst o, match snd o with Ok _ => Ok (total 0 (fst o)) | Throw e => Throw e end).

(** Calls that the log accepts, and whose messages have a size that is an [int32_t]. *)
Definition wire_ok (c : Z) (o : Op) (l : Log) : Prop :=
  snd (snd (log_op o l)) = Ok tt /\
  match o with
  | Add es => batch_fits c es
  | RemoveTo s => SCO.wf s
  | GetOne s => SCO.wf s /\ answer_fits c (of_sco s (items l))
  | _ => True
  end.

Fixpoint wire_run (c : Z) (l : Log) (ops : list Op) : Prop :=
  match ops with
  | [] => True
  | o :: ops => legal c o l /\ wire_ok c o l /\ wire_run c (fst (log_op o l)) ops
  end.
End WireSpec.

Module WireFacts.
Import FailOverCacheStreamers FailOverCacheProtocol Backend StoreSpec LogSpec LogFacts StreamFacts ServerFacts ProxyFacts WireSpec FailOverCacheProxy SCO (SCO).

Section Facts.
Context (c : Z) {St : Type} `{HB : BackendStore St} `{HS : !BackendStoreSpec c St}.
Hypothesis Hc : size_ok c.

Lemma own_sendable es : Forall (own_entry c) es -> Forall (sendable c) es.
Proof. intros Hes. eapply Forall_impl; [exact Hes|]. by intros e []. Qed.

Lemma refines_own b l : refines c b l -> Forall (own_entry c) (items l).
Proof.
  intros (gs & Hl & _ & -> & _). pose proof (go_each _ _ (li_groups _ _ _ Hl)) as Hg. apply Forall_concat, Forall_fmap. eapply Forall_impl; [exact Hg|].
  intros g [_ Hes]. cbn. eapply Forall_impl; [exact Hes|]. by intros e [].
Qed.

Lemma wire_step ns lba_size mult o x m p b l : connected x m p b -> refines c b l -> m !! ns = Some p -> u64 (mult * lba_size) = c -> ns_ok ns ->
  legal c o l -> wire_ok c o l ->
  exists x' b', proxy_op ns lba_size mult o x = (x', wire_output (snd (log_op o l))) /\ connected x' m p b' /\ refines c b' (fst (log_op o l)).
Proof.
  intros Hx Hr Hm Hmul Hns Hleg [Hok Hw]. destruct (op_refines c o b l Hr Hleg) as [Hr' Hout]. exists (fst (proxy_op ns lba_size mult o x)), (fst (backend_op o b)).
  destruct o as [|es|s| | |s|]; cbn [proxy_op backend_op] in *.
  - destruct Hx as [[S1 S2 S3 S4 S5 S6] Hk]. destruct (connect_runs (accept (heap (peer x)) (map_ (peer x)) (made (peer x))) ns lba_size mult c m p (with_registered true (with_first true b)))
      as (x' & E & Hx'); [done|done|done|done|apply idle_fresh|done| |unfold reconnect; by rewrite E].
    cbn [accept heap map_ made]. unfold looked_up. rewrite S6, Hm, S3. destruct Hr as (gs & Hl & _). by rewrite (li_size _ _ _ Hl), Z.eqb_refl.
  - unfold log_op in Hok, Hout, Hr' |- *. destruct (log_add es l) as [l' r] eqn:El. cbn in Hok. subst r. unfold quiet in Hout. cbn in Hout.
    destruct (Backend.addEntries es b) as [b' r] eqn:Eb. cbn in Hout, Hr'. injection Hout as ->. destruct Hleg as [Hown Hsame].
    assert (es <> [] /\ same_ends es = true) as [Hne Hse]. { clear -El. unfold log_add in El. destruct es; [done|]. by destruct (same_ends _). }
    destruct (addEntries_call x m p b b' c es Hx Hc Hne Hw) as ([] & x' & E & Hx'); [eapply Forall_impl; [exact Hown|]; by intros e []|done|done|]. rewrite E. done.
  - unfold log_op in *. destruct (log_remove s l) as [l' r]. cbn in Hok. subst r. unfold quiet in Hout. cbn in Hout. destruct (Backend.removeUpTo s b) as [b' r] eqn:Eb. cbn in Hout, Hr'. injection Hout as ->.
    destruct (removeUpTo_call x m p b b' s Hx Hw Eb) as ([] & x' & E & Hx'). rewrite E. done.
  - cbn in Hout. unfold quiet in Hout. destruct (Backend.clear b) as [b' r] eqn:Eb. cbn in Hout, Hr'. injection Hout as ->. destruct (clear_call x m p b b' Hx Eb) as ([] & x' & E & Hx'). rewrite E. done.
  - cbn in Hout. destruct (Backend.getEntries b) as [[b' es] r] eqn:Eb. cbn in Hout, Hr'. injection Hout as -> ->.
    destruct (getEntries_call x m p b b' c (items l) Hx Hc) as (x' & E & Hx'); [by apply own_sendable, (refines_own b)|done|]. rewrite E. done.
  - cbn in Hout, Hw. destruct Hw as [Hw Hf]. destruct (Backend.getSCO s b) as [[b' es] r] eqn:Eb. cbn in Hout, Hr'. injection Hout as -> ->.
    destruct (getSCO_call x m p b b' c s (of_sco s (items l)) Hx Hc Hw) as (x' & E & Hx'); [|done|done|rewrite E; done].
    apply own_sendable, Forall_lfilter. by apply (refines_own b).
  - cbn in Hout. unfold quiet in Hout. destruct (Backend.flush b) as [b' r] eqn:Eb. cbn in Hout, Hr'. injection Hout as ->. destruct (flush_call x m p b b' Hx Eb) as ([] & x' & E & Hx'). rewrite E. done.
Qed.

Lemma wire_trace ns lba_size mult ops x m p b l : connected x m p b -> refines c b l -> m !! ns = Some p -> u64 (mult * lba_size) = c -> ns_ok ns -> wire_run c l ops ->
  fst (proxy_run ns lba_size mult x ops) = wire_output <$> fst (log_run l ops).
Proof.
  intros Hx Hr Hm Hmul Hns. revert x b l Hx Hr. induction ops as [|o ops IH]; intros x b l Hx Hr; [done|]. intros (Hleg & Hok & Hrest).
  destruct (wire_step ns lba_size mult o x m p b l Hx Hr Hm Hmul Hns Hleg Hok) as (x' & b' & E & Hx' & Hr'). cbn [proxy_run log_run]. rewrite E.
  destruct (log_op o l) as [l' out]. cbn in Hr', Hrest |- *. specialize (IH x' b' l' Hx' Hr' Hrest). destruct (proxy_run ns lba_size mult x' ops), (log_run l' ops). cbn in *. by rewrite IH.
Qed.

(** A new connection to a server that has nothing. *)
Lemma first_connection ns lba_size mult : u64 (mult * lba_size) = c -> ns_ok ns ->
  exists x b, connect (St := St) (accept ∅ ∅ 0) ns lba_size mult = (x, Ok tt) /\ connected x {[ns := 0%nat]} 0 b /\ refines c b (mkLog [] false).
Proof.
  intros Hmul Hns. destruct (connect_runs (St := St) (accept ∅ ∅ 0) ns lba_size mult c {[ns := 0%nat]} 0 (with_registered true (create ns c))) as (x & E & Hx);
    [done|done|done|done|apply idle_fresh|done|by unfold looked_up|].
  exists x, (with_registered true (create ns c)). split_and!; [done|done|]. destruct (refines_create c (St := St) ns) as (gs & Hl & Hcur & Hi & Hf). exists gs. split_and!; [by destruct Hl|done|done|done].
Qed.
End Facts.
End WireFacts.
