(* ===== verification/DTLBridge.v ===== *)
(** * The distributed transaction log: the bridges of the volume

    FailOverCacheSyncBridge.{h,cpp} and FailOverCacheAsyncBridge.{h,cpp} of
    src/src/volumedriver.  What they use of [FailOverCacheProxy] is a class,
    [FailOverCache]; the proxy is an instance.

    The asynchronous bridge has a thread.  [mutex_] is held by the thread except while it
    waits on the condition variable; its loop is two steps: [wake], from the end of the
    wait to the test of [stop_], and [work], from there to the next wait.  Between these
    the volume may call [addEntries], which only tries to take [mutex_]; the other calls
    take it ([lock]): they go on when the thread waits. *)

From S2P Require Import Prelude Addressing DTLStream DTLBackend DTLServer.

Module Bridge.
Import FailOverCacheStreamers ClusterLocation (ClusterLocation, sco_) SCO (SCO).

Class FailOverCache (D : Type) : Type := {
  fc_addEntries : list FailOverCacheEntry -> M D unit;
  fc_flush : M D unit;
  fc_removeUpTo : SCO -> M D unit;
  fc_clear : M D unit;
  fc_setRequestTimeout : M D unit;
  fc_getSCO : SCO -> D -> D * list FailOverCacheEntry * res Z }.

#[global] Instance ProxyCache {St} `{Backend.BackendStore St} : FailOverCache (@FailOverCacheProxy.Proxy St) := {|
  fc_addEntries := FailOverCacheProxy.addEntries;
  fc_flush := FailOverCacheProxy.flush;
  fc_removeUpTo := FailOverCacheProxy.removeUpTo;
  fc_clear := FailOverCacheProxy.clear;
  fc_setRequestTimeout := FailOverCacheProxy.setRequestTimeout;
  fc_getSCO := FailOverCacheProxy.getSCOFromFailOver |}.

(** [n] bytes from [pos] on, where there are so many *)
Definition slice (pos n : nat) (data : list Z) : res (list Z) :=
  if (length data <? pos + n)%nat then Throw UndefinedBehaviour else Ok (take n (drop pos data)).
End Bridge.

(** ** Synchronous *)
Module FailOverCacheSyncBridge.
Import FailOverCacheStreamers Bridge ClusterLocation (ClusterLocation) SCO (SCO).

Section Sync.
Context {D : Type} `{FailOverCache D}.

(** How often the volume was told that it is degraded. *)
Record SyncBridge : Type := mkSync { cache_ : option D; degraded_fun_ : bool; degraded : nat }.

Definition initialize : M SyncBridge unit := fun b =>
  if degraded_fun_ b then (b, Throw AssertFailed) else (mkSync (cache_ b) true (degraded b), Ok tt).
Definition backup (b : SyncBridge) : bool := bool_decide (is_Some (cache_ b)).
(** The old cache goes, with its log. *)
Definition newCache (c : option D) : M SyncBridge unit := mmodify (fun b => mkSync c (degraded_fun_ b) (degraded b)).
Definition destroy : M SyncBridge unit := newCache None.

Definition handleException : M SyncBridge unit :=
  mmodify (fun b => mkSync None (degraded_fun_ b) (if degraded_fun_ b then S (degraded b) else degraded b)).

(** [if (cache_) try { m } catch (std::exception& e) { handleException } ] *)
Definition attempt (m : M D unit) : M SyncBridge unit := fun b =>
  match cache_ b with
  | None => (b, Ok tt)
  | Some d =>
      let '(d', r) := m d in
      let b' := mkSync (Some d') (degraded_fun_ b) (degraded b) in
      match r with
      | Ok _ => (b', Ok tt)
      | Throw UndefinedBehaviour => (b', Throw UndefinedBehaviour)
      | Throw _ => handleException b'
      end
  end.

Definition setRequestTimeout : M SyncBridge unit := attempt fc_setRequestTimeout.
Definition Flush : M SyncBridge unit := attempt fc_flush.
Definition removeUpTo (sconame : SCO) : M SyncBridge unit := attempt (fc_removeUpTo sconame).
Definition Clear : M SyncBridge unit := attempt fc_clear.

Fixpoint entries (csize mult : Z) (locs : list ClusterLocation) (num_locs : nat) (lba : Z) (data : list Z) : res (list FailOverCacheEntry) :=
  match num_locs with
  | O => Ok []
  | S n =>
      match locs with
      | [] => Throw UndefinedBehaviour
      | loc :: locs' =>
          let? b := slice 0 (Z.to_nat csize) data in
          let? es := entries csize mult locs' n (u64 (lba + mult)) (drop (Z.to_nat csize) data) in
          Ok (mkEntry loc lba b :: es)
      end
  end.

Definition addEntries (lba_size mult : Z) (locs : list ClusterLocation) (num_locs : nat) (start_address : Z) (data : list Z) : M SyncBridge bool :=
  let! b := mget in
  match cache_ b with
  | None => mret true
  | Some _ =>
      let! es := mlift (entries (u64 (lba_size * mult)) mult locs num_locs start_address data) in
      attempt (fc_addEntries es) ;! mret true
  end.

(** Behind [handleException] is [UNREACHABLE]. *)
Definition getSCOFromFailOver (sconame : SCO) (b : SyncBridge) : SyncBridge * list FailOverCacheEntry * res Z :=
  match cache_ b with
  | None => (b, [], Throw FailOverCacheNotConfiguredException)
  | Some d =>
      match fc_flush d with
      | (d', Ok _) =>
          let '(d'', es, r) := fc_getSCO sconame d' in
          let b' := mkSync (Some d'') (degraded_fun_ b) (degraded b) in
          match r with
          | Ok n => (b', es, Ok n)
          | Throw _ => (fst (handleException b'), es, Throw UndefinedBehaviour)
          end
      | (d', Throw _) => (fst (handleException (mkSync (Some d') (degraded_fun_ b) (degraded b))), [], Throw UndefinedBehaviour)
      end
  end.
End Sync.
End FailOverCacheSyncBridge.

(** ** Asynchronous *)
Module FailOverCacheAsyncBridge.
Import FailOverCacheStreamers Bridge ClusterLocation (ClusterLocation, sco_) SCO (SCO).

(** An entry points into one of the two areas. *)
Record Ref : Type := mkRef { r_cli : ClusterLocation; r_lba : Z; r_area : bool; r_pos : nat }.

(** [Waiting]: on the condition variable; [Working]: with [mutex_]; [Gone]: no thread *)
Inductive Thread : Type := Waiting | Working | Gone.

#[global] Instance thread_eq_dec : EqDecision Thread.
Proof. solve_decision. Defined.

Section Async.
Context {D : Type} `{FailOverCache D}.
Variables (csize max_entries write_trigger : nat) (mult : Z).

(** [newData] says which area belongs to [newOnes]; [oldData] is the other one. *)
Record AsyncBridge : Type := mkAsync {
  cache_ : option D;
  newOnes : list Ref;
  oldOnes : list Ref;
  newData : bool;
  areas : list Z * list Z;
  thread_ : Thread;
  stop_ : bool;
  throttling : bool;
  degraded_fun_ : bool;
  degraded : nat }.

Definition area (b : AsyncBridge) (w : bool) : list Z := if w then fst (areas b) else snd (areas b).

Definition with_cache (c : option D) (b : AsyncBridge) : AsyncBridge :=
  mkAsync c (newOnes b) (oldOnes b) (newData b) (areas b) (thread_ b) (stop_ b) (throttling b) (degraded_fun_ b) (degraded b).
Definition with_ones (n o : list Ref) (b : AsyncBridge) : AsyncBridge :=
  mkAsync (cache_ b) n o (newData b) (areas b) (thread_ b) (stop_ b) (throttling b) (degraded_fun_ b) (degraded b).
Definition with_thread (t : Thread) (b : AsyncBridge) : AsyncBridge :=
  mkAsync (cache_ b) (newOnes b) (oldOnes b) (newData b) (areas b) t (stop_ b) (throttling b) (degraded_fun_ b) (degraded b).
Definition with_stop (s : bool) (b : AsyncBridge) : AsyncBridge :=
  mkAsync (cache_ b) (newOnes b) (oldOnes b) (newData b) (areas b) (thread_ b) s (throttling b) (degraded_fun_ b) (degraded b).
Definition with_throttling (t : bool) (b : AsyncBridge) : AsyncBridge :=
  mkAsync (cache_ b) (newOnes b) (oldOnes b) (newData b) (areas b) (thread_ b) (stop_ b) t (degraded_fun_ b) (degraded b).
Definition tell_degraded (b : AsyncBridge) : AsyncBridge :=
  mkAsync (cache_ b) (newOnes b) (oldOnes b) (newData b) (areas b) (thread_ b) (stop_ b) (throttling b) (degraded_fun_ b)
    (if degraded_fun_ b then S (degraded b) else degraded b).
Definition swap (b : AsyncBridge) : AsyncBridge :=
  mkAsync (cache_ b) (oldOnes b) (newOnes b) (negb (newData b)) (areas b) (thread_ b) (stop_ b) (throttling b) (degraded_fun_ b) (degraded b).

Definition make : AsyncBridge :=
  mkAsync None [] [] true (replicate (csize * max_entries) 0, replicate (csize * max_entries) 0) Gone true false false 0.

(** The thread starts by looking at [stop_] and [oldOnes]. *)
Definition init_cache_ : M AsyncBridge unit := mmodify (fun b =>
  match cache_ b with Some _ => with_thread Working (with_stop false b) | None => b end).

Definition initialize : M AsyncBridge unit := fun b =>
  if degraded_fun_ b then (b, Throw AssertFailed)
  else init_cache_ (mkAsync (cache_ b) (newOnes b) (oldOnes b) (newData b) (areas b) (thread_ b) (stop_ b) (throttling b) true (degraded b)).

Definition backup (b : AsyncBridge) : bool := bool_decide (is_Some (cache_ b)).

(** What the pointers point to, when the entries are written to the stream. *)
Definition deref (b : AsyncBridge) (r : Ref) : FailOverCacheEntry := mkEntry (r_cli r) (r_lba r) (take csize (drop (r_pos r) (area b (r_area r)))).

Definition on_cache (m : M D unit) : M AsyncBridge unit := fun b =>
  match cache_ b with
  | Some d => let '(d', r) := m d in (with_cache (Some d') b, r)
  | None => (b, Throw UndefinedBehaviour)
  end.

(** *** [addEntries] *)
Definition addEntry (loc : ClusterLocation) (lba : Z) (buf : list Z) : M AsyncBridge unit := fun b =>
  let pos := (length (newOnes b) * csize)%nat in
  let a := area b (newData b) in
  if (length a <? pos + csize)%nat then (b, Throw UndefinedBehaviour)
  else
    let a' := take pos a ++ buf ++ drop (pos + csize) a in
    (mkAsync (cache_ b) (newOnes b ++ [mkRef loc lba (newData b) pos]) (oldOnes b) (newData b)
       (if newData b then (a', snd (areas b)) else (fst (areas b), a')) (thread_ b) (stop_ b) (throttling b) (degraded_fun_ b) (degraded b), Ok tt).

Definition maybe_swap_ (new_sco : bool) : M AsyncBridge unit := mmodify (fun b =>
  if (new_sco || (write_trigger <=? length (newOnes b))%nat) && negb (bool_decide (thread_ b = Working)) && (length (oldOnes b) =? 0)%nat then swap b else b).

Definition is_new_sco (locs : list ClusterLocation) (b : AsyncBridge) : bool :=
  match last (newOnes b), locs with
  | Some r, l :: _ => negb (SCO.eqb (sco_ (r_cli r)) (sco_ l))
  | _, _ => false
  end.

Definition addEntries (locs : list ClusterLocation) (num_locs : nat) (start_address : Z) (data : list Z) : M AsyncBridge bool :=
  mcheck (num_locs <=? max_entries)%nat ;!
  let! b := mget in
  if stop_ b then mret true
  else
    let new_sco := is_new_sco locs b in
    mmodify (with_throttling ((max_entries <? length (newOnes b) + num_locs)%nat || new_sco)) ;!
    let! b := mget in
    (if throttling b then mret tt
     else miter (fun i =>
       match locs !! i with
       | None => mthrow UndefinedBehaviour
       | Some loc => let! buf := mlift (slice (i * csize) csize data) in addEntry loc (u64 (start_address + Z.of_nat i * mult)) buf
       end) (seq 0 num_locs)) ;!
    maybe_swap_ new_sco ;!
    let! b := mget in
    mret (negb (throttling b)).

(** *** The thread *)
Definition wake : M AsyncBridge unit := mmodify (fun b =>
  let b := if (length (oldOnes b) =? 0)%nat then swap b else b in
  with_thread (if stop_ b then Gone else Working) b).

Definition written (b : AsyncBridge) : list FailOverCacheEntry := deref b <$> oldOnes b.

Definition work : M AsyncBridge unit := fun b =>
  let m := if (length (oldOnes b) =? 0)%nat then on_cache fc_flush
           else on_cache (fc_addEntries (written b)) ;! mmodify (fun b => with_ones (newOnes b) [] b) in
  match m b with
  | (b', Ok _) => (with_thread Waiting b', Ok tt)
  | (b', Throw UndefinedBehaviour) => (b', Throw UndefinedBehaviour)
  | (b', Throw _) => (with_cache None (with_thread Gone (with_ones [] [] (with_stop true (tell_degraded b')))), Ok tt)
  end.

(** *** The calls that take [mutex_] *)
Definition lock : M AsyncBridge unit := fun b => match thread_ b with Working => work b | _ => (b, Ok tt) end.

(** The entries are moved to the call of [addEntries], whether it succeeds or not. *)
Definition flush_ : M AsyncBridge unit := fun b =>
  match cache_ b with
  | None => (b, Ok tt)
  | Some _ =>
      let b1 := with_ones [] (oldOnes b ++ newOnes b) b in
      let b2 := with_ones [] [] b1 in
      match (on_cache (fc_addEntries (written b1)) ;! on_cache fc_flush) b2 with
      | (b', Throw UndefinedBehaviour) => (b', Throw UndefinedBehaviour)
      | (b', Throw _) => (tell_degraded b', Ok tt)
      | (b', Ok _) => (b', Ok tt)
      end
  end.

Definition Flush : M AsyncBridge unit := lock ;! flush_.

Definition if_cache (m : M D unit) : M AsyncBridge unit :=
  let! b := mget in match cache_ b with Some _ => on_cache m | None => mret tt end.
Definition removeUpTo (sconame : SCO) : M AsyncBridge unit := lock ;! if_cache (fc_removeUpTo sconame).
Definition Clear : M AsyncBridge unit := lock ;! if_cache fc_clear.
Definition setRequestTimeout : M AsyncBridge unit := lock ;! if_cache fc_setRequestTimeout.

Definition getSCOFromFailOver (sconame : SCO) (b : AsyncBridge) : AsyncBridge * list FailOverCacheEntry * res Z :=
  match (lock ;! flush_) b with
  | (b', Throw e) => (b', [], Throw e)
  | (b', Ok _) =>
      match cache_ b' with
      | None => (b', [], Throw FailOverCacheNotConfiguredException)
      | Some d => let '(d', es, r) := fc_getSCO sconame d in (with_cache (Some d') b', es, r)
      end
  end.

(** *** Shutting down: [stop_], then the thread is joined *)
Definition stop_thread : M AsyncBridge unit := lock ;! mmodify (with_stop true).
Definition join : M AsyncBridge unit := fun b => match thread_ b with Waiting => wake b | _ => (b, Ok tt) end.

(** [catch (fungi::IOException&)] *)
Definition last_batch (sync : bool) (es : list FailOverCacheEntry) : M AsyncBridge unit := fun b =>
  if sync && negb (length es =? 0)%nat then
    match on_cache (fc_addEntries es) b with
    | (b', Throw IOException) => (b', Ok tt)
    | r => r
    end
  else (b, Ok tt).

Definition destroy (sync : bool) : M AsyncBridge unit :=
  stop_thread ;!
  let! b := mget in
  match cache_ b with
  | None => mret tt
  | Some _ =>
      join ;!
      let! b := mget in
      last_batch sync (written b) ;!
      mmodify (fun b => with_ones (newOnes b) [] b) ;!
      let! b := mget in
      last_batch sync (deref b <$> newOnes b) ;!
      mmodify (fun b => with_ones [] (oldOnes b) b) ;!
      mmodify (with_cache None)
  end.

(** The new cache has the volume's cluster size; the old one goes, with its log. *)
Definition newCache (c : option D) : M AsyncBridge unit :=
  stop_thread ;!
  let! b := mget in
  (match cache_ b with
   | None => mret tt
   | Some _ => join ;! mmodify (with_ones [] [])
   end) ;!
  mmodify (with_cache c) ;!
  init_cache_.
End Async.
End FailOverCacheAsyncBridge.
