(* ===== verification/DTLBridgeFacts.v ===== *)
(** * The distributed transaction log: the asynchronous bridge keeps the order

    Whatever the thread and the volume do in turn, and however the cache answers: as long
    as the volume was not told that it is degraded, the entries that were delivered and
    those that are still queued are the accepted ones, in their order and with the data
    that they had when they were accepted. *)

From S2P Require Import Prelude Addressing DTLStream DTLBackend DTLServer DTLBridge.

Module BridgeSpec.
Import FailOverCacheStreamers Bridge FailOverCacheAsyncBridge ClusterLocation (ClusterLocation) SCO (SCO).

Inductive Action : Type :=
  | Add (locs : list ClusterLocation) (num_locs : nat) (start_address : Z) (data : list Z)
  | Wake
  | Work
  | Flushing
  | Removing (s : SCO)
  | Clearing.

Inductive Event : Type := Accepted (es : list FailOverCacheEntry) | Delivered (es : list FailOverCacheEntry).

Definition accepted (t : list Event) : list FailOverCacheEntry := concat ((fun e => match e with Accepted es => es | _ => [] end) <$> t).
Definition delivered (t : list Event) : list FailOverCacheEntry := concat ((fun e => match e with Delivered es => es | _ => [] end) <$> t).

Section Trace.
Context {D : Type} `{FailOverCache D}.
Variables (csize max_entries write_trigger : nat) (mult : Z).

Abbreviation AsyncBridge := (@AsyncBridge D).

(** The clusters of a call. *)
Definition batch (locs : list ClusterLocation) (num_locs : nat) (start_address : Z) (data : list Z) : list FailOverCacheEntry :=
  match FailOverCacheSyncBridge.entries (Z.of_nat csize) mult locs num_locs (u64 start_address) data with Ok es => es | Throw _ => [] end.

Definition valid (a : Action) : Prop :=
  match a with Add locs n _ data => (n <= max_entries)%nat /\ (n <= length locs)%nat /\ (n * csize <= length data)%nat | _ => True end.

Definition takes (es : list FailOverCacheEntry) (b : AsyncBridge) : bool :=
  match cache_ b with Some d => is_ok (snd (fc_addEntries es d)) | None => false end.

(** One turn, and what it did.  A turn that has to wait does nothing; [None] where the
    cache's code is undefined. *)
Definition turn {A} (r : AsyncBridge * res A) (t : A -> list Event) : option (AsyncBridge * list Event) :=
  match r with
  | (_, Throw UndefinedBehaviour) => None
  | (b, Throw _) => Some (b, [])
  | (b, Ok a) => Some (b, t a)
  end.

Definition act (a : Action) (b : AsyncBridge) : option (AsyncBridge * list Event) :=
  match a, thread_ b with
  | Add locs n start data, _ =>
      turn (addEntries csize max_entries write_trigger mult locs n start data b) (fun r => if r && negb (stop_ b) then [Accepted (batch locs n start data)] else [])
  | Wake, Waiting => turn (wake b) (fun _ => [])
  | Work, Working =>
      turn (work csize b) (fun _ => if negb (length (oldOnes b) =? 0)%nat && takes (written csize b) b then [Delivered (written csize b)] else [])
  | Flushing, (Waiting | Gone) =>
      let es := deref csize b <$> oldOnes b ++ newOnes b in turn (Flush csize b) (fun _ => if takes es b then [Delivered es] else [])
  | Removing s, (Waiting | Gone) => turn (removeUpTo csize s b) (fun _ => [])
  | Clearing, (Waiting | Gone) => turn (Clear csize b) (fun _ => [])
  | _, _ => Some (b, [])
  end.

(** Up to the first turn that is undefined. *)
Fixpoint act_all (b : AsyncBridge) (acts : list Action) : AsyncBridge * list Event :=
  match acts with
  | [] => (b, [])
  | a :: acts =>
      match act a b with
      | None => (b, [])
      | Some (b, t) => let '(b, t') := act_all b acts in (b, t ++ t')
      end
  end.

Definition pending (b : AsyncBridge) : list FailOverCacheEntry := deref csize b <$> oldOnes b ++ newOnes b.
End Trace.
End BridgeSpec.

Module BridgeFacts.
Import FailOverCacheStreamers Bridge FailOverCacheAsyncBridge BridgeSpec ClusterLocation (ClusterLocation) SCO (SCO).

(** *** The clusters of a call, by index and one after the other *)
Lemma entries_lookup z csize mult locs n lba data es i : Z.to_nat z = csize -> FailOverCacheSyncBridge.entries z mult locs n lba data = Ok es -> (i < n)%nat ->
  exists loc, locs !! i = Some loc /\ slice (i * csize) csize data = Ok (take csize (drop (i * csize) data)) /\
    es !! i = Some (mkEntry loc (if (i =? 0)%nat then lba else u64 (lba + Z.of_nat i * mult)) (take csize (drop (i * csize) data))).
Proof.
  intros Hz. revert locs lba data es i. induction n as [|n IH]; intros locs lba data es i; [lia|]. destruct locs as [|loc locs]; [done|]. cbn [FailOverCacheSyncBridge.entries].
  rewrite Hz. intros (b & Eb & He)%rbind_ok Hi. apply rbind_ok in He as (es' & Ees & [= <-]). unfold slice in Eb. cbn [Nat.add] in Eb.
  destruct (length data <? csize)%nat eqn:El; [done|]. apply Nat.ltb_ge in El. injection Eb as <-. rewrite drop_0. destruct i as [|i].
  - exists loc. cbn [Nat.mul lookup list_lookup Nat.eqb]. unfold slice. cbn [Nat.add]. rewrite (proj2 (Nat.ltb_ge _ _)) by lia. by rewrite drop_0.
  - destruct (IH _ _ _ _ i Ees ltac:(lia)) as (loc' & H1 & H2 & H3). exists loc'. rewrite drop_drop in H2, H3. unfold slice in H2 |- *. rewrite length_drop in H2.
    destruct (length data - csize <? i * csize + csize)%nat eqn:E2; [done|]. apply Nat.ltb_ge in E2. rewrite (proj2 (Nat.ltb_ge _ _)) by lia.
    split_and!; [done|by f_equal|]. cbn [lookup list_lookup]. change (es' !! i = Some (mkEntry loc' (u64 (lba + Z.of_nat (S i) * mult)) (take csize (drop (S i * csize) data)))).
    rewrite H3. do 2 f_equal. destruct i as [|i]; cbn [Nat.eqb]; [by rewrite Z.mul_1_l|]. rewrite wrap_add_l. f_equal. lia.
Qed.

Lemma entries_total z csize mult locs n lba data : Z.to_nat z = csize -> (n <= length locs)%nat -> (n * csize <= length data)%nat ->
  exists es, FailOverCacheSyncBridge.entries z mult locs n lba data = Ok es /\ length es = n.
Proof.
  intros Hz. revert locs lba data. induction n as [|n IH]; intros locs lba data Hl Hd; [exists []; by destruct locs|]. destruct locs as [|loc locs]; [cbn in Hl; lia|].
  cbn [FailOverCacheSyncBridge.entries]. rewrite Hz. unfold slice. cbn in Hl, Hd. rewrite (proj2 (Nat.ltb_ge _ _)) by lia. cbn [rbind].
  destruct (IH locs (u64 (lba + mult)) (drop csize data) ltac:(lia) ltac:(rewrite length_drop; lia)) as (es & -> & <-). cbn. by eexists.
Qed.

Section Facts.
Context {D : Type} `{HF : FailOverCache D}.
Variables (csize max_entries write_trigger : nat) (mult : Z).

Abbreviation deref := (deref csize).
Abbreviation written := (written csize).
Abbreviation pending := (pending csize).
Abbreviation addEntry := (addEntry csize).
Abbreviation addEntries := (addEntries csize max_entries write_trigger mult).
Abbreviation batch := (batch csize mult).

(** The queue that is filled is laid out in its area from the start; the other queue is
    in the other area. *)
Record queues_ok (b : @AsyncBridge D) : Prop := mkQueues {
  qo_areas : forall w, length (area b w) = (csize * max_entries)%nat;
  qo_new : forall i r, newOnes b !! i = Some r -> r_area r = newData b /\ r_pos r = (i * csize)%nat;
  qo_old : forall i r, oldOnes b !! i = Some r -> r_area r = negb (newData b) /\ r_pos r = (i * csize)%nat;
  qo_max : (length (newOnes b) <= max_entries)%nat }.

(** What a call that adds entries leaves alone. *)
Definition same_rest (b b' : @AsyncBridge D) : Prop :=
  cache_ b' = cache_ b /\ oldOnes b' = oldOnes b /\ newData b' = newData b /\ thread_ b' = thread_ b /\ stop_ b' = stop_ b /\
  throttling b' = throttling b /\ degraded_fun_ b' = degraded_fun_ b /\ degraded b' = degraded b.

Lemma addEntry_spec b loc lba buf : queues_ok b -> length buf = csize -> (length (newOnes b) < max_entries)%nat ->
  runs (addEntry loc lba buf) b (fun _ b' => queues_ok b' /\ same_rest b b' /\ length (newOnes b') = S (length (newOnes b)) /\ pending b' = pending b ++ [mkEntry loc lba buf]).
Proof.
  intros [H1 H2 H3 H4] Hb Hn. unfold runs, FailOverCacheAsyncBridge.addEntry. cbv beta. pose proof (H1 (newData b)) as Hl. set (pos := (length (newOnes b) * csize)%nat).
  assert (pos + csize <= csize * max_entries)%nat as Hpos by (unfold pos; nia). rewrite Hl, (proj2 (Nat.ltb_ge _ _)) by lia. eexists _, _. split; [done|].
  set (a := area b (newData b)) in *. set (a' := take pos a ++ buf ++ drop (pos + csize) a). set (b' := mkAsync _ _ _ _ _ _ _ _ _ _).
  assert (length a' = csize * max_entries)%nat as Hl' by (unfold a'; rewrite !length_app, length_take, length_drop; lia).
  assert (forall w, area b' w = if Bool.eqb w (newData b) then a' else area b w) as Ha.
  { intros w. unfold b', area. cbn [areas]. destruct (newData b), w; done. }
  assert (forall r, (r_area r = newData b -> (r_pos r + csize <= pos)%nat) -> deref b' r = deref b r) as Hd.
  { intros r Hr. unfold FailOverCacheAsyncBridge.deref. f_equal. rewrite Ha. destruct (Bool.eqb_spec (r_area r) (newData b)) as [E|]; [|done]. specialize (Hr E). rewrite E. fold a. unfold a'.
    rewrite drop_app_le by (rewrite length_take; lia). rewrite take_app_le by (rewrite length_drop, length_take; lia). rewrite !take_drop_commute, take_take. by rewrite Nat.min_l by lia. }
  assert (length (newOnes b') = S (length (newOnes b))) as Hlen by (cbn [b' newOnes]; rewrite length_app; cbn; lia).
  split_and!; [| |done|].
  - split.
    + intros w. rewrite Ha. by destruct (Bool.eqb w (newData b)).
    + intros i r. cbn [b' newOnes newData]. intros [Hi|[Hi Hr]]%lookup_app_Some; [by apply H2|]. apply list_lookup_singleton_Some in Hr as [Hz <-]. cbn. split; [done|].
      unfold pos. f_equal. lia.
    + exact H3.
    + rewrite Hlen. lia.
  - done.
  - unfold BridgeSpec.pending. cbn [b' newOnes oldOnes]. rewrite app_assoc, fmap_app. f_equal.
    + apply list_fmap_ext. intros i r Hi. apply Hd. intros Hw. apply lookup_app_Some in Hi as [Hi|[_ Hi]].
      * destruct (H3 i r Hi) as [E _]. rewrite Hw in E. by destruct (newData b).
      * destruct (H2 _ r Hi) as [_ ->]. apply lookup_lt_Some in Hi. unfold pos. nia.
    + cbn. do 2 f_equal. unfold FailOverCacheAsyncBridge.deref. cbn [r_cli r_lba r_area r_pos]. f_equal. rewrite Ha, Bool.eqb_reflx. unfold a'.
      rewrite drop_app_length', take_app_length' by (rewrite ?length_take; lia). done.
Qed.

Lemma sim_refl b : same_rest b b.
Proof. done. Qed.

Lemma same_trans b1 b2 b3 : same_rest b1 b2 -> same_rest b2 b3 -> same_rest b1 b3.
Proof. unfold same_rest. intros (?&?&?&?&?&?&?&?) (?&?&?&?&?&?&?&?). split_and!; congruence. Qed.

(** The loop of [addEntries], from the [k]-th cluster on. *)
Lemma add_loop locs n start data es k m b : batch locs n start data = es -> (n <= length locs)%nat -> (n * csize <= length data)%nat ->
  queues_ok b -> (k + m = n)%nat -> (length (newOnes b) + m <= max_entries)%nat ->
  runs (miter (fun i =>
       match locs !! i with
       | None => mthrow UndefinedBehaviour
       | Some loc => let! buf := mlift (slice (i * csize) csize data) in addEntry loc (u64 (start + Z.of_nat i * mult)) buf
       end) (seq k m)) b (fun _ b' => queues_ok b' /\ same_rest b b' /\ length (newOnes b') = (length (newOnes b) + m)%nat /\ pending b' = pending b ++ drop k es).
Proof.
  intros Hes Hl Hd. destruct (entries_total (Z.of_nat csize) csize mult locs n (u64 start) data (Nat2Z.id csize) Hl Hd) as (es' & Ee & He). unfold BridgeSpec.batch in Hes. rewrite Ee in Hes. subst es'.
  revert k b. induction m as [|m IH]; intros k b Hok Hk Hm.
  { apply runs_ret. split_and!; [done|done|lia|]. rewrite drop_ge by lia. by rewrite app_nil_r. }
  cbn [seq miter]. destruct (entries_lookup _ csize mult locs n (u64 start) data es k (Nat2Z.id csize) Ee ltac:(lia)) as (loc & E1 & E2 & E3). rewrite E1, E2.
  apply runs_bind, runs_bind. eapply runs_lift; [done|]. eapply runs_mono; [apply addEntry_spec; [done| |lia]|].
  { rewrite length_take, length_drop. nia. }
  intros [] b1 (Hok1 & Hs1 & Hl1 & Hp1). eapply runs_mono; [apply (IH (S k)); [done|lia|lia]|]. intros [] b2 (Hok2 & Hs2 & Hl2 & Hp2). split_and!; [done|by eapply same_trans|lia|].
  rewrite Hp2, Hp1, <- app_assoc. f_equal. rewrite (drop_S es _ k E3). cbn. do 2 f_equal. destruct k; cbn [Nat.eqb]; [|by rewrite wrap_add_l]. by rewrite Z.add_0_r.
Qed.

Lemma swap_ok b : queues_ok b -> oldOnes b = [] -> queues_ok (swap b) /\ pending (swap b) = pending b.
Proof.
  intros [H1 H2 H3 H4] Ho. split; [split|].
  - intros w. apply H1.
  - intros i r. cbn. by rewrite Ho.
  - intros i r Hi. cbn in Hi |- *. rewrite negb_involutive. by apply H2.
  - cbn. rewrite Ho. cbn. lia.
  - unfold BridgeSpec.pending. cbn. by rewrite Ho, app_nil_r.
Qed.

(** The queues are as they were, or the full one has changed places with the empty one. *)
Definition maybe_swapped (b b' : @AsyncBridge D) : Prop :=
  (newOnes b' = newOnes b /\ oldOnes b' = oldOnes b) \/ (oldOnes b = [] /\ newOnes b' = [] /\ oldOnes b' = newOnes b).

Definition kept (b b' : @AsyncBridge D) : Prop :=
  cache_ b' = cache_ b /\ thread_ b' = thread_ b /\ stop_ b' = stop_ b /\ degraded_fun_ b' = degraded_fun_ b /\ degraded b' = degraded b.

Lemma maybe_swap_spec new_sco b : queues_ok b ->
  runs (maybe_swap_ write_trigger new_sco) b (fun _ b' => queues_ok b' /\ pending b' = pending b /\ kept b b' /\ throttling b' = throttling b /\ maybe_swapped b b').
Proof.
  intros Hok. apply runs_modify. destruct (_ && (length (oldOnes b) =? 0)%nat) eqn:E; [|split_and!; [done..|by left]].
  apply andb_true_iff in E as [_ E%Nat.eqb_eq]. apply nil_length_inv in E. destruct (swap_ok b Hok E) as [Hs Hp]. split_and!; [done|done|done|done|]. right. by rewrite <- E at 2.
Qed.

Lemma addEntries_spec b locs n start data : queues_ok b -> valid csize max_entries (Add locs n start data) ->
  runs (addEntries locs n start data) b (fun r b' => queues_ok b' /\ kept b b' /\
    pending b' = pending b ++ (if r && negb (stop_ b) then batch locs n start data else []) /\
    (r = false -> stop_ b = false /\ newOnes b <> [] /\ maybe_swapped b b')).
Proof.
  intros Hok (Hn & Hl & Hd). unfold FailOverCacheAsyncBridge.addEntries. unfold mcheck. rewrite (proj2 (Nat.leb_le _ _) Hn). apply runs_bind, runs_ret, runs_bind, runs_get.
  destruct (stop_ b) eqn:Es. { apply runs_ret. cbn. split_and!; [done|done|by rewrite app_nil_r|done]. }
  set (ns := is_new_sco locs b). apply runs_bind, runs_modify, runs_bind, runs_get. set (t := _ || ns). cbn [with_throttling throttling].
  assert (queues_ok (with_throttling t b)) as Hok1 by (destruct Hok; by split). apply runs_bind. destruct t eqn:Et.
  - apply runs_ret, runs_bind. eapply runs_mono; [by apply maybe_swap_spec|]. intros [] b' (Hok' & Hp & Hk & Ht & Hm). apply runs_bind, runs_get, runs_ret. rewrite Ht. cbn.
    split_and!; [done|done|by rewrite app_nil_r|]. intros _. split_and!; [done| |done]. intros Hnil. unfold t, ns, is_new_sco in Et. rewrite Hnil in Et. cbn in Et.
    apply orb_true_iff in Et as [Et%Nat.ltb_lt|Et]; [lia|done].
  - apply orb_false_iff in Et as [Et%Nat.ltb_ge _]. eapply runs_mono; [by apply (add_loop locs n start data (batch locs n start data) 0 n)|].
    intros [] b1 (Hok2 & Hs & _ & Hp). apply runs_bind. eapply runs_mono; [by apply maybe_swap_spec|]. intros [] b' (Hok' & Hp' & Hk & Ht & Hm).
    apply runs_bind, runs_get, runs_ret. destruct Hs as (S1&S2&S3&S4&S5&S6&S7&S8). destruct Hk as (K1&K2&K3&K4&K5). rewrite Ht, S6. cbn.
    split_and!; [done| |by rewrite Hp', Hp, drop_0|done]. unfold kept. cbn in *. split_and!; congruence.
Qed.

Lemma wake_spec b : queues_ok b -> runs wake b (fun _ b' => queues_ok b' /\ pending b' = pending b /\ cache_ b' = cache_ b /\ stop_ b' = stop_ b /\
  thread_ b' = (if stop_ b then Gone else Working) /\ degraded_fun_ b' = degraded_fun_ b /\ degraded b' = degraded b /\
  oldOnes b' = (if (length (oldOnes b) =? 0)%nat then newOnes b else oldOnes b) /\ newOnes b' = (if (length (oldOnes b) =? 0)%nat then [] else newOnes b)).
Proof.
  intros Hok. apply runs_modify. destruct (length (oldOnes b) =? 0)%nat eqn:E.
  - apply Nat.eqb_eq, nil_length_inv in E. destruct (swap_ok b Hok E) as [[H1 H2 H3 H4] Hp]. split_and!; [by split|done..|]. cbn. by rewrite E.
  - split_and!; [by destruct Hok|done..].
Qed.

Lemma on_cache_eq m (b : @AsyncBridge D) d : cache_ b = Some d -> on_cache m b = (with_cache (Some (fst (m d))) b, snd (m d)).
Proof. intros E. unfold on_cache. rewrite E. by destruct (m d). Qed.

Lemma pending_split (b : @AsyncBridge D) : pending b = written b ++ (deref b <$> newOnes b).
Proof. unfold BridgeSpec.pending. by rewrite fmap_app. Qed.

Lemma clear_queues b n o c t : queues_ok b -> (n = [] \/ n = newOnes b) -> (o = [] \/ o = oldOnes b) -> queues_ok (with_thread t (with_ones n o (with_cache c b))).
Proof.
  intros [H1 H2 H3 H4] Hn Ho. split; [apply H1| | |].
  - intros i r. cbn. destruct Hn as [->| ->]; [done|apply H2].
  - intros i r. cbn. destruct Ho as [->| ->]; [done|apply H3].
  - cbn. destruct Hn as [->| ->]; [cbn; lia|done].
Qed.

(** A step: the volume is told of anything that is lost. *)
Definition good (b : @AsyncBridge D) : Prop := queues_ok b /\ degraded_fun_ b = true.

Definition step_ok (b b' : @AsyncBridge D) (t : list Event) : Prop :=
  good b' /\ (degraded b <= degraded b')%nat /\ (degraded b' = degraded b -> pending b ++ accepted t = delivered t ++ pending b').

Lemma step_same b b' t : good b' -> degraded b' = degraded b -> pending b ++ accepted t = delivered t ++ pending b' -> step_ok b b' t.
Proof. intros Hg Hd Hp. split_and!; [done|lia|done]. Qed.

Lemma is_ok_takes es (b : @AsyncBridge D) d : cache_ b = Some d -> takes es b = is_ok (snd (fc_addEntries es d)).
Proof. intros E. unfold takes. by rewrite E. Qed.

Lemma work_step b b' r : good b -> work csize b = (b', r) -> r <> Throw UndefinedBehaviour ->
  r = Ok tt /\ step_ok b b' (if negb (length (oldOnes b) =? 0)%nat && takes (written b) b then [Delivered (written b)] else []).
Proof.
  intros [Hok Hdf] Hw Hr. unfold work in Hw. destruct (cache_ b) as [d|] eqn:Ec.
  2:{ destruct (length (oldOnes b) =? 0)%nat; unfold mbind, on_cache in Hw; rewrite Ec in Hw; injection Hw as <- <-; done. }
  assert (forall b0, queues_ok b0 -> degraded_fun_ b0 = true -> degraded b0 = degraded b -> step_ok b (with_cache None (with_thread Gone (with_ones [] [] (with_stop true (tell_degraded b0))))) []) as Hfail.
  { intros b0 [Q1 Q2 Q3 Q4] Hf0 Hd0. assert (degraded (with_cache None (with_thread Gone (with_ones [] [] (with_stop true (tell_degraded b0))))) = S (degraded b)) as Ed by (cbn; by rewrite Hf0, Hd0).
    split_and!; [|lia|lia]. split; [split; [apply Q1|done|done|cbn; lia]|done]. }
  destruct (length (oldOnes b) =? 0)%nat eqn:Eo; cbn [negb andb].
  - rewrite (on_cache_eq _ b d Ec) in Hw. destruct (snd (fc_flush d)) as [[]|e] eqn:Ef.
    + injection Hw as <- <-. split; [done|]. apply step_same; [split; [by apply (clear_queues b (newOnes b) (oldOnes b)); auto|done]|done|]. cbn. by rewrite app_nil_r.
    + split; [destruct e; by injection Hw as <- <-|]. destruct e; injection Hw as <- <-; try done; (apply Hfail; [by destruct Hok|done|done]).
  - unfold mbind in Hw. rewrite (on_cache_eq _ b d Ec) in Hw. rewrite (is_ok_takes _ _ _ Ec). destruct (snd (fc_addEntries (written b) d)) as [[]|e] eqn:Ef; cbn [is_ok].
    + injection Hw as <- <-. split; [done|]. apply step_same; [split; [by apply (clear_queues b (newOnes b) []); auto|done]|done|]. rewrite (pending_split b).
      cbn. by rewrite !app_nil_r.
    + split; [destruct e; by injection Hw as <- <-|]. destruct e; injection Hw as <- <-; try done; (apply Hfail; [by destruct Hok|done|done]).
Qed.

Lemma flush_step b b' r : good b -> (cache_ b = None -> pending b = []) -> flush_ csize b = (b', r) -> r <> Throw UndefinedBehaviour ->
  r = Ok tt /\ step_ok b b' (if takes (pending b) b then [Delivered (pending b)] else []).
Proof.
  intros [Hok Hdf] Hn Hw Hr. unfold flush_ in Hw. destruct (cache_ b) as [d|] eqn:Ec.
  2:{ injection Hw as <- <-. unfold takes. rewrite Ec. split; [done|]. apply step_same; [done|done|]. by rewrite Hn. }
  rewrite (is_ok_takes _ _ _ Ec). change (written (with_ones [] (oldOnes b ++ newOnes b) b)) with (pending b) in Hw. unfold mbind in Hw.
  set (b2 := with_ones [] [] _) in Hw. rewrite (on_cache_eq _ b2 d Ec) in Hw.
  assert (forall c, queues_ok (with_cache c b2)) as Hq. { intros c. destruct Hok as [Q1 Q2 Q3 Q4]. split; [apply Q1|done|done|cbn; lia]. }
  assert (forall b0 t, queues_ok b0 -> degraded_fun_ b0 = true -> degraded b0 = degraded b -> step_ok b (tell_degraded b0) t) as Hfail.
  { intros b0 t [Q1 Q2 Q3 Q4] Hf0 Hd0. assert (degraded (tell_degraded b0) = S (degraded b)) as Ed by (cbn; by rewrite Hf0, Hd0). split_and!; [|lia|lia]. split; [by split|done]. }
  destruct (snd (fc_addEntries (pending b) d)) as [[]|e] eqn:Ef; cbn [is_ok].
  - rewrite (on_cache_eq _ (with_cache _ b2) _ eq_refl) in Hw. destruct (snd (fc_flush _)) as [[]|e] eqn:Eg.
    + injection Hw as <- <-. split; [done|]. apply step_same; [split; [apply Hq|done]|done|]. cbn. by rewrite !app_nil_r.
    + split; [destruct e; by injection Hw as <- <-|]. destruct e; injection Hw as <- <-; try done; (apply Hfail; [apply Hq|done|done]).
  - split; [destruct e; by injection Hw as <- <-|]. destruct e; injection Hw as <- <-; try done; (apply Hfail; [apply Hq|done|done]).
Qed.

(** Without a cache nothing is queued, and the bridge is stopped. *)
Definition alive (b : @AsyncBridge D) : Prop := cache_ b = None -> pending b = [] /\ stop_ b = true.

Lemma if_cache_step m b b' r : good b -> if_cache m b = (b', r) -> step_ok b b' [] /\ (alive b -> alive b').
Proof.
  intros [Hok Hdf] Hw. unfold if_cache, mbind, mget in Hw. destruct (cache_ b) as [d|] eqn:Ec; [|injection Hw as <- <-; split; [apply step_same; [done|done|by rewrite app_nil_r]|done]].
  rewrite (on_cache_eq _ b d Ec) in Hw. injection Hw as <- _. split; [|done]. apply step_same; [split; [by destruct Hok|done]|done|]. cbn. by rewrite app_nil_r.
Qed.

Lemma work_alive b b' r : alive b -> work csize b = (b', r) -> r <> Throw UndefinedBehaviour -> alive b'.
Proof.
  intros Ha Hw Hr. unfold work in Hw. destruct (cache_ b) as [d|] eqn:Ec.
  2:{ destruct (length (oldOnes b) =? 0)%nat; unfold mbind, on_cache in Hw; rewrite Ec in Hw; injection Hw as <- <-; done. }
  destruct (length (oldOnes b) =? 0)%nat; unfold mbind in Hw; rewrite (on_cache_eq _ b d Ec) in Hw.
  - destruct (snd (fc_flush d)) as [[]|e]; [by injection Hw as <- <-|]. destruct e; injection Hw as <- <-; done.
  - destruct (snd (fc_addEntries _ d)) as [[]|e]; [by injection Hw as <- <-|]. destruct e; injection Hw as <- <-; done.
Qed.

Lemma flush_alive b b' r : alive b -> flush_ csize b = (b', r) -> alive b'.
Proof.
  intros Ha Hw. unfold flush_ in Hw. destruct (cache_ b) as [d|] eqn:Ec; [|by injection Hw as <- <-]. unfold mbind in Hw. set (b2 := with_ones [] [] _) in Hw.
  rewrite (on_cache_eq _ b2 d Ec) in Hw. destruct (snd (fc_addEntries _ d)) as [[]|e]; [|destruct e; by injection Hw as <- <-].
  rewrite (on_cache_eq _ (with_cache _ b2) _ eq_refl) in Hw. destruct (snd (fc_flush _)) as [[]|e]; [by injection Hw as <- <-|destruct e; by injection Hw as <- <-].
Qed.

Lemma lock_free b : thread_ b <> Working -> lock csize b = (b, Ok tt).
Proof. intros Hne. unfold lock. by destruct (thread_ b). Qed.

Lemma locked_eq {A} (m : M (@AsyncBridge D) A) b : thread_ b <> Working -> (lock csize ;! m) b = m b.
Proof. intros Hne. unfold mbind. by rewrite lock_free. Qed.

Lemma turn_some {A} (r : @AsyncBridge D * res A) t b' ev : turn r t = Some (b', ev) -> exists x, r = (b', x) /\ x <> Throw UndefinedBehaviour /\
  ev = match x with Ok a => t a | Throw _ => [] end.
Proof. destruct r as [b0 [a|e]]; cbn; [intros [= <- <-]; by eexists|]. intros Ht. exists (Throw e). destruct e; try done; by injection Ht as <- <-. Qed.

Lemma act_step a b b' t : good b -> alive b -> valid csize max_entries a -> act csize max_entries write_trigger mult a b = Some (b', t) -> step_ok b b' t /\ alive b'.
Proof.
  intros Hg Ha Hv Hact. assert (step_ok b b [] /\ alive b) as Hid by (split; [apply step_same; [done|done|by rewrite app_nil_r]|done]).
  assert (forall r x, flush_ csize b = (b', r) -> r = x -> x <> Throw UndefinedBehaviour -> step_ok b b' (if takes (pending b) b then [Delivered (pending b)] else []) /\ alive b') as Hfl.
  { intros r x Hw -> Hx. split; [|by eapply flush_alive]. eapply flush_step; [done| |done|done]. intros E. by apply Ha. }
  unfold act in Hact. destruct a as [locs n start data| | | |s|].
  - apply turn_some in Hact as (x & E & Hx & ->). destruct (addEntries_spec b locs n start data (proj1 Hg) Hv) as (r & b1 & E1 & Hok & (K1&K2&K3&K4&K5) & Hp & _).
    rewrite E1 in E. injection E as <- <-. split; [apply step_same; [split; [done|by rewrite K4, (proj2 Hg)]|done|]|].
    + rewrite Hp. destruct (r && negb (stop_ b)); cbn; by rewrite ?app_nil_r.
    + intros E. rewrite K1 in E. destruct (Ha E) as [Hp0 Hs]. rewrite Hp, Hp0, Hs, K3, andb_false_r. done.
  - destruct (thread_ b) eqn:Et; [|by injection Hact as <- <-..]. apply turn_some in Hact as (x & E & Hx & ->).
    destruct (wake_spec b (proj1 Hg)) as ([] & b1 & E1 & Hok & Hp & Hc & Hs & _ & Hf & Hd & _). rewrite E1 in E. injection E as <- <-.
    split; [apply step_same; [split; [done|by rewrite Hf, (proj2 Hg)]|done|by rewrite Hp, app_nil_r]|]. intros E. rewrite Hp, Hs. apply Ha. by rewrite <- Hc.
  - destruct (thread_ b) eqn:Et; [by injection Hact as <- <-| |by injection Hact as <- <-]. apply turn_some in Hact as (x & E & Hx & ->).
    destruct (work_step b b' x Hg E Hx) as [-> Hs]. split; [done|]. by eapply work_alive.
  - assert (thread_ b <> Working -> turn (Flush csize b) (fun _ => if takes (pending b) b then [Delivered (pending b)] else []) = Some (b', t) -> step_ok b b' t /\ alive b') as Hf.
    { intros Hne Ht. apply turn_some in Ht as (x & E & Hx & ->). unfold Flush in E. rewrite locked_eq in E by done. destruct (Hfl x x E eq_refl Hx) as [Hs Hal].
      destruct (flush_step b b' x Hg ltac:(intros E0; by apply Ha) E Hx) as [-> _]. done. }
    destruct (thread_ b) eqn:Et; [by apply Hf|by injection Hact as <- <-|by apply Hf].
  - assert (thread_ b <> Working -> turn (removeUpTo csize s b) (fun _ => []) = Some (b', t) -> step_ok b b' t /\ alive b') as Hf.
    { intros Hne Ht. apply turn_some in Ht as (x & E & Hx & ->). unfold removeUpTo in E. rewrite locked_eq in E by done. destruct (if_cache_step _ b b' x Hg E) as [Hs Hal]. destruct x; auto. }
    destruct (thread_ b) eqn:Et; [by apply Hf|by injection Hact as <- <-|by apply Hf].
  - assert (thread_ b <> Working -> turn (Clear csize b) (fun _ => []) = Some (b', t) -> step_ok b b' t /\ alive b') as Hf.
    { intros Hne Ht. apply turn_some in Ht as (x & E & Hx & ->). unfold Clear in E. rewrite locked_eq in E by done. destruct (if_cache_step _ b b' x Hg E) as [Hs Hal]. destruct x; auto. }
    destruct (thread_ b) eqn:Et; [by apply Hf|by injection Hact as <- <-|by apply Hf].
Qed.

Lemma trace_ok acts b : good b -> alive b -> Forall (valid csize max_entries) acts ->
  let '(b', t) := act_all csize max_entries write_trigger mult b acts in step_ok b b' t.
Proof.
  revert b. induction acts as [|a acts IH]; intros b Hg Ha Hv; [apply step_same; [done|done|by rewrite app_nil_r]|]. apply Forall_cons in Hv as [Hva Hv]. cbn [act_all].
  destruct (act _ _ _ _ a b) as [[b1 t1]|] eqn:E; [|apply step_same; [done|done|by rewrite app_nil_r]]. destruct (act_step a b b1 t1 Hg Ha Hva E) as [(Hg1 & Hd1 & Hp1) Ha1].
  specialize (IH b1 Hg1 Ha1 Hv). destruct (act_all _ _ _ _ b1 acts) as [b2 t2]. destruct IH as (Hg2 & Hd2 & Hp2). split_and!; [done|lia|]. intros Hd.
  unfold accepted, delivered in *. rewrite !fmap_app, !concat_app, app_assoc, Hp1, <- !app_assoc by lia. by rewrite Hp2 by lia.
Qed.
End Facts.
End BridgeFacts.
