(* ===== verification/DTLBridgeLive.v ===== *)
(** * The distributed transaction log: the asynchronous bridge makes progress

    A batch that is refused is accepted after at most three turns of the thread.  With a
    proxy, what is queued is in the server's log after four. *)

From S2P Require Import Prelude Addressing DTLStream DTLStreamFacts DTLBackend DTLBackendFacts DTLLog DTLServer DTLServerFacts DTLWire DTLBridge DTLBridgeFacts.

Module BridgeLive.
Import FailOverCacheStreamers Bridge FailOverCacheAsyncBridge BridgeSpec BridgeFacts ClusterLocation (ClusterLocation) SCO (SCO).

Section Progress.
Context {D : Type} `{HF : FailOverCache D}.
Variables (csize max_entries write_trigger : nat) (mult : Z).

Abbreviation act := (act csize max_entries write_trigger mult).
Abbreviation good := (good csize max_entries).
Abbreviation alive := (alive csize).

(** The thread's next turn. *)
Definition tick (b : @AsyncBridge D) : option AsyncBridge := fst <$> act (match thread_ b with Waiting => Wake | _ => Work end) b.

(** The volume tries again and again to add the batch; the thread gets a turn in between
    where the schedule says so. *)
Fixpoint retry (again : @AsyncBridge D -> AsyncBridge * res bool) (sched : list bool) (b : @AsyncBridge D) : option (AsyncBridge * list (res bool)) :=
  match sched with
  | [] => Some (b, [])
  | true :: sched => tick b ≫= retry again sched
  | false :: sched => let '(b', r) := again b in prod_map id (cons r) <$> retry again sched b'
  end.

(** How many turns of the thread it takes to empty the queue that is filled. *)
Definition lag (b : @AsyncBridge D) : nat :=
  if stop_ b || (length (newOnes b) =? 0)%nat then 0
  else match thread_ b, (length (oldOnes b) =? 0)%nat with
  | Waiting, true => 1
  | Working, _ => 2
  | Waiting, false => 3
  | Gone, _ => 0
  end.

Definition threaded (b : @AsyncBridge D) : Prop := thread_ b = Gone -> stop_ b = true.

Lemma lag_three b : (lag b <= 3)%nat.
Proof. unfold lag. destruct (_ || _); [lia|]. destruct (thread_ b), (length (oldOnes b) =? 0)%nat; lia. Qed.

Lemma lag_zero b : threaded b -> lag b = 0%nat -> stop_ b = true \/ newOnes b = [].
Proof.
  unfold threaded, lag. intros Ht. destruct (stop_ b) eqn:Es; [by left|]. cbn [orb]. destruct (length (newOnes b) =? 0)%nat eqn:En; [right; by apply nil_length_inv, Nat.eqb_eq|].
  destruct (thread_ b) eqn:Et; [by destruct (length (oldOnes b) =? 0)%nat|done|]. discriminate (Ht eq_refl).
Qed.

(** What a turn of the thread does to the queues, if the bridge goes on. *)
Lemma work_queues b b' : work csize b = (b', Ok tt) -> thread_ b = Working ->
  stop_ b' = true \/ (stop_ b' = stop_ b /\ thread_ b' = Waiting /\ oldOnes b' = [] /\ newOnes b' = newOnes b).
Proof.
  intros Hw Ht. unfold work in Hw. destruct (length (oldOnes b) =? 0)%nat eqn:Eo.
  - unfold on_cache in Hw. destruct (cache_ b) as [d|]; [|done]. destruct (fc_flush d) as [d' [[]|e]]; [|left; destruct e; by injection Hw as <-].
    injection Hw as <-. right. split_and!; [done|done|by apply nil_length_inv, Nat.eqb_eq|done].
  - unfold mbind, on_cache in Hw. destruct (cache_ b) as [d|]; [|done]. destruct (fc_addEntries _ d) as [d' [[]|e]]; [|left; destruct e; by injection Hw as <-].
    injection Hw as <-. by right.
Qed.

Lemma tick_spec b b' : good b -> alive b -> threaded b -> tick b = Some b' -> good b' /\ alive b' /\ threaded b' /\ (lag b' <= lag b - 1)%nat.
Proof.
  intros Hg Ha Ht Hk. unfold tick in Hk. destruct (act _ b) as [[b1 t]|] eqn:E; [|done]. injection Hk as ->.
  pose proof E as E'. apply act_step in E' as [(Hg' & _) Ha']; [|done|done|by destruct (thread_ b)]. split; [done|]. split; [done|]. clear Hg' Ha'.
  destruct (thread_ b) eqn:Et.
  - unfold BridgeSpec.act in E. rewrite Et in E. apply turn_some in E as (x & E & _ & _).
    destruct (wake_spec csize max_entries b (proj1 Hg)) as ([] & b2 & E2 & _ & _ & _ & Hs & Hth & _ & _ & Ho & Hn). rewrite E2 in E. injection E as <- _.
    split; [intros Hgone; rewrite Hs; rewrite Hth in Hgone; by destruct (stop_ b)|]. unfold lag. rewrite Hs, Hth, Hn, Et. destruct (stop_ b) eqn:Es; [cbn; lia|]. cbn [orb].
    destruct (length (oldOnes b) =? 0)%nat; [cbn; lia|]. destruct (length (newOnes b) =? 0)%nat; lia.
  - unfold BridgeSpec.act in E. rewrite Et in E. apply turn_some in E as (x & E & Hx & _). destruct (work_step csize max_entries b b' x Hg E Hx) as [-> _].
    destruct (work_queues b b' E Et) as [Hs|(Hs & Hth & Ho & Hn)].
    + split; [by intros _|]. unfold lag. rewrite Hs. cbn. lia.
    + split; [intros Hgone; by rewrite Hth in Hgone|]. unfold lag. rewrite Hs, Hth, Ho, Hn, Et. destruct (stop_ b || _); [lia|]. cbn. lia.
  - unfold BridgeSpec.act in E. rewrite Et in E. injection E as <- _. split; [done|]. unfold lag. rewrite (Ht Et). cbn. lia.
Qed.

Lemma flush_thread b b' r : flush_ csize b = (b', r) -> thread_ b' = thread_ b /\ stop_ b' = stop_ b.
Proof.
  unfold flush_, mbind, on_cache. destruct (cache_ b) as [d|] eqn:Ec; [|by intros [= <- <-]]. cbn [with_ones cache_]. rewrite Ec. destruct (fc_addEntries _ d) as [d1 [[]|e]].
  - cbn [with_cache cache_]. destruct (fc_flush d1) as [d2 [[]|e]]; [by intros [= <- <-]|destruct e; intros Heq; by inversion Heq].
  - destruct e; intros Heq; by inversion Heq.
Qed.

Lemma if_cache_thread m (b b' : @AsyncBridge D) r : if_cache m b = (b', r) -> thread_ b' = thread_ b /\ stop_ b' = stop_ b.
Proof.
  unfold if_cache, mbind, mget, mret, on_cache. destruct (cache_ b) as [d|] eqn:Ec; [|by intros [= <- <-]]. rewrite Ec. destruct (m d) as [d1 x]. by intros [= <- <-].
Qed.

Lemma act_threaded a b b' t : good b -> alive b -> threaded b -> valid csize max_entries a -> act a b = Some (b', t) -> threaded b'.
Proof.
  intros Hg Ha Ht Hv E. assert (forall m : M (@AsyncBridge D) unit, thread_ b <> Working -> (forall b1 r, m b = (b1, r) -> thread_ b1 = thread_ b /\ stop_ b1 = stop_ b) ->
    forall f, turn ((lock csize ;! m) b) f = Some (b', t) -> threaded b') as Hlock.
  { intros m Hne Hm f Hf. apply turn_some in Hf as (x & Ex & _). rewrite locked_eq in Ex by done. destruct (Hm b' x Ex) as [E1 E2]. unfold threaded. by rewrite E1, E2. }
  destruct a as [locs n start data| | | |s|]; unfold BridgeSpec.act in E.
  - apply turn_some in E as (x & E & _). destruct (addEntries_spec csize max_entries write_trigger mult b locs n start data (proj1 Hg) Hv) as (r & b1 & E1 & _ & (_ & K2 & K3 & _) & _).
    rewrite E1 in E. injection E as <- _. unfold threaded. by rewrite K2, K3.
  - destruct (thread_ b) eqn:Et; [|by injection E as <- _..]. assert (tick b = Some b') as Hk by (unfold tick; rewrite Et; unfold BridgeSpec.act; by rewrite Et, E). by eapply tick_spec in Hk as (_ & _ & ? & _).
  - destruct (thread_ b) eqn:Et; [by injection E as <- _| |by injection E as <- _]. assert (tick b = Some b') as Hk by (unfold tick; rewrite Et; unfold BridgeSpec.act; by rewrite Et, E). by eapply tick_spec in Hk as (_ & _ & ? & _).
  - destruct (thread_ b) eqn:Et; [|by injection E as <- _|]; (eapply (Hlock (flush_ csize)); [congruence|intros b1 r; rewrite <- Et; apply flush_thread|exact E]).
  - destruct (thread_ b) eqn:Et; [|by injection E as <- _|]; (eapply (Hlock (if_cache (fc_removeUpTo s))); [congruence|intros b1 r; rewrite <- Et; apply if_cache_thread|exact E]).
  - destruct (thread_ b) eqn:Et; [|by injection E as <- _|]; (eapply (Hlock (if_cache fc_clear)); [congruence|intros b1 r; rewrite <- Et; apply if_cache_thread|exact E]).
Qed.

(** A bridge that has got its cache and its thread. *)
Definition started (d : D) : @AsyncBridge D := fst ((initialize ;! newCache csize (Some d)) (make csize max_entries)).

Lemma started_ok d : good (started d) /\ alive (started d) /\ threaded (started d) /\ degraded (started d) = 0%nat /\ pending csize (started d) = [].
Proof.
  split_and!; [|done|done|done|done]. split; [|done]. split; [|done|done|cbn; lia]. intros w. unfold started, area. cbn. destruct w; by rewrite length_replicate.
Qed.

Lemma reachable_ok acts b : good b -> alive b -> threaded b -> Forall (valid csize max_entries) acts ->
  good (fst (act_all csize max_entries write_trigger mult b acts)) /\ alive (fst (act_all csize max_entries write_trigger mult b acts)) /\ threaded (fst (act_all csize max_entries write_trigger mult b acts)).
Proof.
  revert b. induction acts as [|a acts IH]; intros b Hg Ha Ht Hv; [done|]. apply Forall_cons in Hv as [Hva Hv]. cbn [act_all]. destruct (BridgeSpec.act _ _ _ _ a b) as [[b1 t1]|] eqn:E; [|done].
  pose proof (act_threaded a b b1 t1 Hg Ha Ht Hva E) as Ht1. apply act_step in E as [(Hg1 & _) Ha1]; [|done..]. specialize (IH b1 Hg1 Ha1 Ht1 Hv). by destruct (act_all _ _ _ _ b1 acts).
Qed.

Section Retry.
Variables (locs : list ClusterLocation) (n : nat) (start : Z) (data : list Z).
Hypothesis Hv : valid csize max_entries (Add locs n start data).
Abbreviation again := (addEntries csize max_entries write_trigger mult locs n start data).

Lemma again_spec b : good b -> alive b -> threaded b -> exists b' r, again b = (b', Ok r) /\ good b' /\ alive b' /\ threaded b' /\
  (r = false -> (lag b' <= lag b)%nat /\ lag b <> 0%nat).
Proof.
  intros Hg Ha Ht. destruct (addEntries_spec csize max_entries write_trigger mult b locs n start data (proj1 Hg) Hv) as (r & b' & E & Hok & (K1&K2&K3&K4&K5) & Hp & Hf).
  exists b', r. split_and!; [done|split; [done|by rewrite K4, (proj2 Hg)]| |intros Hgone; rewrite K3; apply Ht; by rewrite <- K2|].
  - intros E0. rewrite K1 in E0. destruct (Ha E0) as [Hp0 Hs]. by rewrite Hp, Hp0, Hs, K3, andb_false_r.
  - intros ->. destruct (Hf eq_refl) as (Hs & Hn & Hm). split.
    + unfold lag. rewrite K3, Hs, K2. destruct Hm as [[-> ->]|(_ & -> & _)]; [done|cbn; lia].
    + intros Hz. destruct (lag_zero b Ht Hz) as [Hs'|Hn']; [by rewrite Hs in Hs'|done].
Qed.

Lemma retry_lag sched b b' rs : good b -> alive b -> threaded b -> retry again sched b = Some (b', rs) -> Forall (fun r => r = Ok false) rs ->
  good b' /\ alive b' /\ threaded b' /\ (lag b' <= lag b - length (List.filter id sched))%nat.
Proof.
  revert b rs. induction sched as [|[] sched IH]; intros b rs Hg Ha Ht; cbn [retry].
  - intros [= <- <-] _. split_and!; [done|done|done|cbn; lia].
  - destruct (tick b) as [b1|] eqn:Ek; [|done]. intros Hr Hrs. destruct (tick_spec b b1 Hg Ha Ht Ek) as (Hg1 & Ha1 & Ht1 & Hl1).
    destruct (IH b1 rs Hg1 Ha1 Ht1 Hr Hrs) as (? & ? & ? & ?). split_and!; [done|done|done|]. cbn [List.filter id length]. lia.
  - destruct (again_spec b Hg Ha Ht) as (b1 & r & -> & Hg1 & Ha1 & Ht1 & Hf). destruct (retry again sched b1) as [[b2 rs2]|] eqn:Er; [|done]. cbn. intros [= <- <-] [[= ->] Hrs]%Forall_cons.
    destruct (IH b1 rs2 Hg1 Ha1 Ht1 Er Hrs) as (? & ? & ? & ?). split_and!; [done|done|done|]. destruct (Hf eq_refl) as [Hl _]. cbn [List.filter id]. lia.
Qed.
End Retry.
End Progress.

(** ** What the bridge promises when the cache keeps a log *)
Import LogSpec (Log, mkLog, items, must_get, log_add) WireSpec (wire_ok).

Class CacheSpec (c : Z) (D : Type) `{FailOverCache D} : Type := {
  tracks : D -> Log -> Prop;
  law_cache_add d l es : tracks d l -> LogSpec.legal c (LogSpec.Add es) l -> wire_ok c (LogSpec.Add es) l ->
    runs (fc_addEntries es) d (fun _ d' => tracks d' (fst (log_add es l)));
  law_cache_flush d l : tracks d l -> runs fc_flush d (fun _ d' => tracks d' l) }.

#[global] Instance ProxyCacheSpec c (Hc : StreamFacts.size_ok c) {St} `{HB : Backend.BackendStore St} `{HS : !StoreSpec.BackendStoreSpec c St} :
  CacheSpec c (@FailOverCacheProxy.Proxy St).
Proof.
  refine {| tracks := fun x l => exists m p b, ProxyFacts.connected x m p b /\ LogFacts.refines c b l |}.
  - intros x l es (m & p & b & Hx & Hr) Hleg [Hok Hf]. destruct (LogFacts.addEntries_refines c b l es Hr Hleg) as [Hr' Hs]. cbn [LogSpec.log_op] in Hok. destruct (log_add es l) as [l' r] eqn:El.
    cbn in Hok, Hr', Hs. subst r. destruct (Backend.addEntries es b) as [b' r'] eqn:Eb. cbn in Hr', Hs. subst r'.
    assert (es <> [] /\ same_ends es = true) as [Hne Hse]. { clear -El. unfold log_add in El. destruct es; [done|]. by destruct (same_ends _). }
    cbn [fc_addEntries ProxyCache]. eapply runs_mono; [apply (ProxyFacts.addEntries_call x m p b b' c es Hx Hc Hne Hf); [|done|done]|].
    + eapply Forall_impl; [exact (proj1 Hleg)|]. by intros e [].
    + intros [] x' Hx'. by exists m, p, b'.
  - intros x l (m & p & b & Hx & Hr). destruct (LogFacts.op_refines c LogSpec.FlushAll b l Hr I) as [Hr' Hs]. cbn [LogSpec.backend_op LogSpec.log_op LogSpec.quiet fst snd] in Hr', Hs.
    destruct (Backend.flush b) as [b' r] eqn:Eb. cbn in Hr', Hs. injection Hs as ->. cbn [fc_flush ProxyCache]. eapply runs_mono; [exact (ProxyFacts.flush_call x m p b b' Hx Eb)|]. intros [] x' Hx'. by exists m, p, b'.
Defined.

Section Drain.
Context (c : Z) {D : Type} `{HF : FailOverCache D} `{HC : !CacheSpec c D}.
Variables (csize max_entries write_trigger : nat) (mult : Z).

Abbreviation good := (good csize max_entries).
Abbreviation tick := (tick csize max_entries write_trigger mult).
Abbreviation deref := (deref csize).

(** A batch that the log takes; the empty one is not sent. *)
Definition acceptable (l : Log) (es : list FailOverCacheEntry) : Prop :=
  es = [] \/ (LogSpec.legal c (LogSpec.Add es) l /\ wire_ok c (LogSpec.Add es) l).
Definition added (l : Log) (es : list FailOverCacheEntry) : Log := match es with [] => l | _ => fst (log_add es l) end.

Lemma added_items l es : acceptable l es -> must_get l = false -> items (added l es) = items l ++ es /\ must_get (added l es) = false.
Proof.
  intros [->|[_ [Hok _]]] Hm; [by rewrite app_nil_r|]. destruct es as [|e es]; [done|]. unfold added. cbn [LogSpec.log_op] in Hok. unfold log_add in *.
  destruct (negb _); [done|]. rewrite Hm in *. by destruct (LogSpec.extends _ _).
Qed.

(** The thread sleeps, the cache is there. *)
Record resting (b : @AsyncBridge D) (d : D) : Prop := mkResting {
  rs_good : good b;
  rs_thread : thread_ b = Waiting;
  rs_stop : stop_ b = false;
  rs_cache : cache_ b = Some d }.

Definition round (b : @AsyncBridge D) : option AsyncBridge := tick b ≫= tick.

Lemma wake_tick b d : resting b d -> exists b1, tick b = Some b1 /\ queues_ok csize max_entries b1 /\ degraded_fun_ b1 = true /\ thread_ b1 = Working /\ stop_ b1 = false /\
  cache_ b1 = Some d /\ degraded b1 = degraded b /\
  oldOnes b1 = (if (length (oldOnes b) =? 0)%nat then newOnes b else oldOnes b) /\ newOnes b1 = (if (length (oldOnes b) =? 0)%nat then [] else newOnes b) /\ areas b1 = areas b.
Proof.
  intros [Hg Ht Hs Hc]. destruct (wake_spec csize max_entries b (proj1 Hg)) as ([] & b1 & E & Hok & _ & K1 & K2 & K3 & K4 & K5 & K6 & K7). exists b1. unfold BridgeLive.tick, BridgeSpec.act. rewrite Ht, E.
  rewrite Hs in K2, K3. split_and!; [done|done|by rewrite K4, (proj2 Hg)|done|done|by rewrite K1|done|done|done|]. injection E as <-. by destruct (_ =? 0)%nat.
Qed.

Lemma deref_areas (b b' : @AsyncBridge D) : areas b' = areas b -> forall r, deref b' r = deref b r.
Proof. intros E r. unfold FailOverCacheAsyncBridge.deref, area. by rewrite E. Qed.

Lemma round_spec b d l : resting b d -> tracks d l -> acceptable l (deref b <$> (if (length (oldOnes b) =? 0)%nat then newOnes b else oldOnes b)) ->
  exists b' d', round b = Some b' /\ resting b' d' /\ tracks d' (added l (deref b <$> (if (length (oldOnes b) =? 0)%nat then newOnes b else oldOnes b))) /\
    degraded b' = degraded b /\ oldOnes b' = [] /\ newOnes b' = (if (length (oldOnes b) =? 0)%nat then [] else newOnes b) /\ areas b' = areas b.
Proof.
  intros Hb Hd Hacc. destruct (wake_tick b d Hb) as (b1 & E1 & Q1 & Q2 & Q3 & Q4 & Q5 & Q6 & Q7 & Q8 & Q9). unfold round. rewrite E1. change (Some b1 ≫= tick) with (tick b1).
  set (q := if (length (oldOnes b) =? 0)%nat then newOnes b else oldOnes b) in *. assert (written csize b1 = deref b <$> q) as Hw.
  { unfold written. rewrite Q7. apply list_fmap_ext. intros i r _. by apply deref_areas. }
  unfold BridgeLive.tick, BridgeSpec.act. rewrite Q3. unfold work. destruct (length (oldOnes b1) =? 0)%nat eqn:Eo.
  - apply Nat.eqb_eq, nil_length_inv in Eo. assert (q = []) as Hq by (by rewrite <- Q7). rewrite Hq. cbn [fmap list_fmap added].
    destruct (law_cache_flush d l Hd) as ([] & d' & Ef & Hd'). rewrite (on_cache_eq _ b1 d Q5), Ef. cbn [fst snd turn]. eexists _, d'. split; [done|]. split_and!; [|done|done|done|done|done].
    split; [|done|done|done]. split; [by destruct Q1|done].
  - destruct Hacc as [Hnil|[Hleg Hwire]]. { rewrite <- Hw in Hnil. unfold written in Hnil. apply fmap_nil_inv in Hnil. by rewrite Hnil in Eo. }
    unfold mbind. rewrite (on_cache_eq _ b1 d Q5), Hw. destruct (law_cache_add d l (deref b <$> q) Hd Hleg Hwire) as ([] & d' & Ef & Hd'). rewrite Ef. cbn [fst snd turn mmodify].
    eexists _, d'. split; [done|]. assert (added l (deref b <$> q) = fst (log_add (deref b <$> q) l)) as -> by (unfold added; by destruct (deref b <$> q)).
    split_and!; [|done|done|done|done|done]. split; [|done|done|done]. split; [|done]. by apply (clear_queues csize max_entries b1 (newOnes b1) []); auto.
Qed.

Lemma drained b d l : resting b d -> tracks d l -> must_get l = false -> acceptable l (written csize b) ->
  acceptable (added l (written csize b)) (deref b <$> newOnes b) ->
  exists b' d' l', (round b ≫= round) = Some b' /\ resting b' d' /\ tracks d' l' /\ items l' = items l ++ pending csize b /\ pending csize b' = [] /\ degraded b' = degraded b.
Proof.
  intros Hb Hd Hm Ho Hn. destruct (added_items _ _ Ho Hm) as [Hi1 Hm1]. destruct (added_items _ _ Hn Hm1) as [Hi2 _]. rewrite (pending_split csize b).
  destruct (length (oldOnes b) =? 0)%nat eqn:Eo.
  - pose proof (round_spec b d l Hb Hd) as R. rewrite Eo in R. apply Nat.eqb_eq, nil_length_inv in Eo. assert (written csize b = []) as Hw by (unfold written; by rewrite Eo). rewrite Hw in *.
    destruct (R Hn) as (b1 & d1 & E1 & Hb1 & Hd1 & G1 & O1 & N1 & A1). rewrite E1. change (Some b1 ≫= round) with (round b1).
    destruct (round_spec b1 d1 _ Hb1 Hd1) as (b2 & d2 & E2 & Hb2 & Hd2 & G2 & O2 & N2 & A2); [rewrite O1, N1; by left|]. rewrite O1, N1 in Hd2. cbn [length Nat.eqb fmap list_fmap added] in Hd2.
    exists b2, d2. eexists. split_and!; [done|done|exact Hd2|done| |congruence]. unfold pending. rewrite O2, N2, O1. done.
  - pose proof (round_spec b d l Hb Hd) as R. rewrite Eo in R. destruct (R Ho) as (b1 & d1 & E1 & Hb1 & Hd1 & G1 & O1 & N1 & A1). rewrite E1. change (Some b1 ≫= round) with (round b1).
    assert (deref b1 <$> newOnes b1 = deref b <$> newOnes b) as Hdn. { rewrite N1. apply list_fmap_ext. intros i r _. by apply deref_areas. }
    destruct (round_spec b1 d1 _ Hb1 Hd1) as (b2 & d2 & E2 & Hb2 & Hd2 & G2 & O2 & N2 & A2); [rewrite O1; cbn [length Nat.eqb]; by rewrite Hdn|].
    rewrite O1 in Hd2. cbn [length Nat.eqb] in Hd2. rewrite Hdn in Hd2. exists b2, d2. eexists. split_and!; [done|done|exact Hd2|rewrite app_assoc, <- Hi1; exact Hi2| |congruence].
    unfold pending. rewrite O2, N2, O1. done.
Qed.
End Drain.
End BridgeLive.
