(* ===== verification/DTLClaims.v ===== *)
(** * The distributed transaction log: properties *)

From stdpp Require Import sorting.
From S2P Require Import Prelude Addressing DTLStream DTLStreamFacts DTLBackend DTLBackendFacts DTLLog DTLServer DTLServerFacts DTLWire DTLBridge DTLBridgeFacts DTLBridgeLive.

Module LogClaims.
Import FailOverCacheStreamers Backend MemoryBackend FileBackend StreamFacts StoreSpec LogSpec LogFacts MemoryFacts FileFacts SCO (SCO).

(** Entries of two bytes, for the examples. *)
Definition entry (number offset lba x : Z) : FailOverCacheEntry := mkEntry (ClusterLocation.make number offset 0 0) lba [x; x].

#[global] Instance entry_ok_dec c e : Decision (entry_ok c e).
Proof.
  destruct (decide (ClusterLocation.wf (cli_ e) /\ fits 64 (lba_ e) /\ Z.of_nat (length (buffer_ e)) = c)) as [H|H]; [left; destruct_and!; by split|right; intros []; tauto].
Defined.

#[global] Instance own_entry_dec c e : Decision (own_entry c e).
Proof.
  destruct (decide (entry_ok c e /\ ClusterLocation.version (cli_ e) = 0 /\ ClusterLocation.cloneID (cli_ e) = 0 /\ ClusterLocation.isNull (cli_ e) = false)) as [H|H];
    [left; destruct_and!; by split|right; intros []; tauto].
Defined.

#[global] Instance legal_dec c o l : Decision (legal c o l).
Proof.
  destruct o as [|es|s| | |s|]; try (left; exact I).
  destruct es as [|e es]; [left; split; [constructor|by intros _ e He]|].
  destruct (decide (Forall (own_entry c) (e :: es) /\ (same_ends (e :: es) = true -> Forall (fun e' => entry_sco e' = entry_sco e) (e :: es) /\
    (must_get l = false -> Forall (fun e' => SCO.number_ (entry_sco e') <= SCO.number_ (entry_sco e)) (items l))))) as [[H1 H2]|H].
  - left. split; [done|]. intros Hs e0 [= <-]. by apply H2.
  - right. intros [H1 H2]. apply H. split; [done|]. intros Hs. by apply H2.
Defined.

#[global] Instance legal_run_dec c l ops : Decision (legal_run c l ops).
Proof. revert l. induction ops as [|o ops IH]; intros l; [left; exact I|]. cbn [legal_run]. apply and_dec; [apply legal_dec|apply IH]. Defined.

(** C12. Both backends are the list of entries that was added to them, less what was
    removed: for every sequence of calls that a volume may make (also with registering
    again in between) they hand out the same entries as the list, fail where the list
    does, and report the SCOs at its ends. *)
Theorem backends_keep_the_log c ns ops : size_ok c -> legal_run c (mkLog [] false) ops ->
  let '(outs, l) := log_run (mkLog [] false) ops in
  (let '(outs', b) := backend_run (St := Memory) (create ns c) ops in outs' = outs /\ getSCORange b = log_range l) /\
  (let '(outs', b) := backend_run (St := Files) (create ns c) ops in outs' = outs /\ getSCORange b = log_range l).
Proof.
  intros Hc Hl. destruct (run_refines c (HS := MemoryBackendSpec c) ops (create ns c) _ (refines_create c ns) Hl) as [Hm Em].
  destruct (run_refines c (HS := FileBackendSpec c Hc) ops (create ns c) _ (refines_create c ns) Hl) as [Hf Ef].
  destruct (log_run _ ops) as [outs l]. destruct (backend_run (St := Memory) _ ops), (backend_run (St := Files) _ ops). cbn in *.
  split; (split; [done|]); [by apply (range_refines c)|by apply (range_refines c (HS := FileBackendSpec c Hc))].
Qed.

(** Two batches of a SCO, one of the next, a new owner that reads first, removal, and a
    batch that does not fit behind the last one. *)
Definition example_ops : list Op :=
  [Add [entry 1 0 0 7; entry 1 1 8 8]; Add [entry 1 2 16 9]; Add [entry 2 0 24 10]; Reregister; GetAll; RemoveTo (SCO.make 1 0 0); GetOne (SCO.make 2 0 0);
   Add [entry 2 5 32 11]; Reregister; Add [entry 3 4 40 12]; GetAll].

Lemma backends_keep_the_log_witness :
  fst (backend_run (St := Files) (create [65] 2) example_ops) = fst (backend_run (St := Memory) (create [65] 2) example_ops) /\
  fst (log_run (mkLog [] false) example_ops) !! 10%nat = Some ([entry 3 4 40 12], Ok tt).
Proof.
  pose proof (backends_keep_the_log 2 [65] example_ops) as Hw. destruct (log_run _ example_ops) as [outs l] eqn:E. split; [|cbv in E; by injection E as <- <-].
  destruct (backend_run (St := Memory) _ example_ops), (backend_run (St := Files) _ example_ops). cbn. destruct Hw as [[-> _] [-> _]]; [done| |done].
  clear. by_decide.
Defined.
End LogClaims.

Module WireClaims.
Import FailOverCacheStreamers FailOverCacheProtocol Backend MemoryBackend FileBackend StreamFacts StoreSpec LogSpec LogFacts MemoryFacts FileFacts ServerFacts ProxyFacts WireSpec WireFacts LogClaims FailOverCacheProxy SCO (SCO).

#[global] Instance wire_ok_dec c o l : Decision (wire_ok c o l).
Proof.
  unfold wire_ok. apply and_dec; [destruct (snd (snd (log_op o l))) as [[]|e]; [by left|by right]|]. destruct o; unfold batch_fits, answer_fits; apply _.
Defined.

#[global] Instance wire_run_dec c l ops : Decision (wire_run c l ops).
Proof. revert l. induction ops as [|o ops IH]; intros l; [left; exact I|]. cbn [wire_run]. apply and_dec; [apply legal_dec|apply and_dec; [apply wire_ok_dec|apply IH]]. Defined.

(** C6. What a client reads over the wire is the log: it connects to a server that has
    nothing, with either backend, and calls the proxy (new connections included); every
    call returns, with the entries that the list of entries has and their size in
    bytes. *)
Theorem wire_serves_the_log c ns lba_size mult ops : size_ok c -> u64 (mult * lba_size) = c -> ns_ok ns -> wire_run c (mkLog [] false) ops ->
  (exists x, connect (St := Memory) (accept ∅ ∅ 0) ns lba_size mult = (x, Ok tt) /\
     fst (proxy_run ns lba_size mult x ops) = wire_output <$> fst (log_run (mkLog [] false) ops)) /\
  (exists x, connect (St := Files) (accept ∅ ∅ 0) ns lba_size mult = (x, Ok tt) /\
     fst (proxy_run ns lba_size mult x ops) = wire_output <$> fst (log_run (mkLog [] false) ops)).
Proof.
  intros Hc Hm Hn Hw. split.
  - destruct (first_connection c (HS := MemoryBackendSpec c) Hc ns lba_size mult Hm Hn) as (x & b & E & Hx & Hr). exists x. split; [done|].
    by apply (wire_trace c (HS := MemoryBackendSpec c) Hc ns lba_size mult ops x {[ns := 0%nat]} 0 b); [..|apply lookup_singleton_eq| | |].
  - destruct (first_connection c (HS := FileBackendSpec c Hc) Hc ns lba_size mult Hm Hn) as (x & b & E & Hx & Hr). exists x. split; [done|].
    by apply (wire_trace c (HS := FileBackendSpec c Hc) Hc ns lba_size mult ops x {[ns := 0%nat]} 0 b); [..|apply lookup_singleton_eq| | |].
Qed.

Definition wire_ops : list Op :=
  [Add [entry 1 0 0 7; entry 1 1 8 8]; Add [entry 2 0 24 10]; FlushAll; Reregister; GetAll; RemoveTo (SCO.make 1 0 0); GetOne (SCO.make 2 0 0); Reregister;
   Add [entry 3 4 40 12]; GetAll; ClearAll; GetAll].

Lemma wire_serves_the_log_witness :
  exists x, connect (St := Files) (accept ∅ ∅ 0) [65] 2 1 = (x, Ok tt) /\
    fst (proxy_run [65] 2 1 x wire_ops) !! 6%nat = Some ([entry 2 0 24 10], Ok 2) /\ fst (proxy_run [65] 2 1 x wire_ops) !! 9%nat = Some ([entry 3 4 40 12], Ok 2).
Proof.
  destruct (wire_serves_the_log 2 [65] 2 1 wire_ops) as [_ (x & E & Hx)]; [done|done|by_decide|by_decide|]. exists x. split; [exact E|]. rewrite Hx. split; vm_compute; reflexivity.
Defined.

(** C39. Changing the request timeout sends a frame without content, after which the server
    takes the length of the next frame for a command.  The frame of [removeUpTo] has
    length ten, the value of [Clear]: the call returns as if it had succeeded, the whole
    log is gone, and the connection's thread ends over the bytes that are left. *)
Theorem timeout_change_clears_log c {St} `{HB : BackendStore St} `{HS : !BackendStoreSpec c St} x m p b l sco : connected x m p b -> refines c b l ->
  11 < SCO.number_ sco < 2 ^ 31 ->
  exists x' b', (setRequestTimeout ;! removeUpTo sco) x = (x', Ok tt) /\ heap (peer x') !! p = Some b' /\ refines c b' (mkLog [] false) /\ running (peer x') = false.
Proof.
  intros Hx Hr Hn. destruct (op_refines c ClearAll b l Hr I) as [Hr' Hout]. cbn [backend_op log_op quiet fst snd] in Hr', Hout. destruct (Backend.clear b) as [b' r] eqn:Eb.
  cbn in Hr', Hout. injection Hout as ->. destruct (timeout_then_remove x m p b b' sco Hx Eb Hn) as (x' & E & Hh & Hrun). exists x', b'. done.
Qed.

(** SCO 20 is on the backend; SCO 21 is not, and is lost. *)
Definition before_timeout : @Proxy Memory := snd (proxy_run [65] 2 1 (fst (connect (accept ∅ ∅ 0) [65] 2 1)) [Add [entry 20 0 0 7]; Add [entry 21 0 8 8]]).

Lemma timeout_change_clears_log_witness :
  (let '(_, es, _) := getEntries before_timeout in es = [entry 20 0 0 7; entry 21 0 8 8]) /\
  exists x' b', (setRequestTimeout ;! removeUpTo (SCO.make 20 0 0)) before_timeout = (x', Ok tt) /\ heap (peer x') !! 0%nat = Some b' /\ refines 2 b' (mkLog [] false) /\ running (peer x') = false.
Proof.
  split; [vm_compute; reflexivity|].
  assert (size_ok 2) as Hc by done. destruct (first_connection 2 (HS := MemoryBackendSpec 2) Hc [65] 2 1 eq_refl ltac:(by_decide)) as (x & b & E & Hx & Hr).
  assert (exists b', connected before_timeout {[[65] := 0%nat]} 0 b' /\ refines 2 (HS := MemoryBackendSpec 2) b' (mkLog [entry 20 0 0 7; entry 21 0 8 8] false)) as (b' & Hx' & Hr').
  { unfold before_timeout. rewrite E. clear E. cbn [fst].
    destruct (wire_step 2 (HS := MemoryBackendSpec 2) Hc [65] 2 1 (Add [entry 20 0 0 7]) x _ _ b (mkLog [] false) Hx Hr) as (x1 & b1 & E1 & Hx1 & Hr1); [apply lookup_singleton_eq|reflexivity|by_decide|by_decide|by_decide|].
    cbn [proxy_run]. rewrite E1. clear E1.
    destruct (wire_step 2 (HS := MemoryBackendSpec 2) Hc [65] 2 1 (Add [entry 21 0 8 8]) x1 _ _ b1 (mkLog [entry 20 0 0 7] false) Hx1 Hr1) as (x2 & b2 & E2 & Hx2 & Hr2); [apply lookup_singleton_eq|reflexivity|by_decide|by_decide|by_decide|].
    rewrite E2. clear E2. cbn [snd]. by exists b2. }
  clear E. exact (timeout_change_clears_log 2 before_timeout _ _ b' _ (SCO.make 20 0 0) Hx' Hr' (conj eq_refl eq_refl)).
Defined.

(** A log that the server could not read to its end looks complete: when its backend
    fails in [getEntries], the end marker is sent all the same, and the client gets the
    entries up to there and returns normally. *)
Theorem truncated_log_looks_complete c {St} `{HB : BackendStore St} x m p b b' es e : connected x m p b -> size_ok c -> Forall (sendable c) es ->
  e <> UndefinedBehaviour -> e <> SocketWaits -> Backend.getEntries b = (b', es, Throw e) ->
  exists x', FailOverCacheProxy.getEntries x = (x', es, Ok (total 0 es)) /\ running (peer x') = false.
Proof. intros. by eapply (getEntries_cut x m p b b' c es e). Qed.

(** The file of the second SCO has disappeared. *)
Definition damaged : @Backend Files :=
  let b := snd (backend_run (create [65] 2) [Add [entry 1 0 0 7]; Add [entry 2 0 8 8]; FlushAll]) in
  with_store (mkFiles (delete (SCO.make 2 0 0) (on_disk (store b))) (file_ (store b))) b.
Definition damaged_server : @Proxy Files := mkProxy (mkServer {[0%nat := damaged]} {[[65] := 0%nat]} 1 (Some 0%nat) Socket.fresh [] true) Socket.fresh false.

Lemma truncated_log_looks_complete_witness : exists x', FailOverCacheProxy.getEntries damaged_server = (x', [entry 1 0 0 7], Ok 2) /\ running (peer x') = false.
Proof.
  destruct (truncated_log_looks_complete 2 damaged_server {[[65] := 0%nat]} 0 damaged (fst (fst (Backend.getEntries damaged))) [entry 1 0 0 7] VerifyFailed) as (x' & E & Hr); [| | |discriminate|discriminate| |exact (ex_intro _ x' (conj E Hr))].
  - split; [split; [reflexivity|reflexivity|apply lookup_singleton_eq|apply idle_fresh|reflexivity|reflexivity]|apply idle_fresh].
  - by_decide.
  - apply Forall_singleton. split; [by_decide|reflexivity].
  - vm_compute. reflexivity.
Defined.
End WireClaims.

Module BridgeClaims.
Import FailOverCacheStreamers Bridge FailOverCacheAsyncBridge BridgeSpec BridgeFacts BridgeLive ClusterLocation (ClusterLocation) SCO (SCO).
Import MemoryBackend (Memory) LogClaims (entry) LogSpec (Log, mkLog, items, must_get).

#[global] Instance valid_dec csize max_entries a : Decision (valid csize max_entries a).
Proof. destruct a; cbn; apply _. Defined.

(** C7. The asynchronous bridge neither loses, nor reorders, nor changes what it accepted:
    for every interleaving of the volume's calls with its thread, and whatever the cache
    answers, as long as the volume was not told that it is degraded, what was delivered
    followed by what is still queued is what was accepted; a queued entry has the data
    of its call, although the two areas are used over and over. *)
Theorem bridge_keeps_order {D} `{FailOverCache D} csize max_entries write_trigger mult d acts : Forall (valid csize max_entries) acts ->
  let '(b, t) := act_all csize max_entries write_trigger mult (started csize max_entries d) acts in
  degraded b = 0%nat -> accepted t = delivered t ++ pending csize b.
Proof.
  intros Hv. destruct (started_ok csize max_entries d) as (Hg & Ha & _ & Hd & Hp). pose proof (trace_ok csize max_entries write_trigger mult acts _ Hg Ha Hv) as Ht.
  destruct (act_all _ _ _ _ _ acts) as [b t]. destruct Ht as (_ & _ & Ht). rewrite Hd, Hp in Ht. done.
Qed.

(** A proxy that is connected to a server with the memory backend. *)
Definition proxy : @FailOverCacheProxy.Proxy Memory := fst (FailOverCacheProxy.connect (FailOverCacheProtocol.accept ∅ ∅ 0) [65] 2 1).
Definition loc (number offset : Z) : ClusterLocation := ClusterLocation.make number offset 0 0.

(** Clusters of SCO 1 and 2, of two bytes, at most four in a queue. *)
Definition busy : list Action :=
  [Work; Add [loc 1 0; loc 1 1] 2 0 [7; 7; 8; 8]; Wake; Add [loc 1 2] 1 16 [9; 9]; Work; Add [loc 2 0] 1 24 [10; 10]; Add [loc 2 0] 1 24 [10; 10]; Wake; Add [loc 2 1] 1 32 [11; 11]].

Lemma bridge_keeps_order_witness :
  let '(b, t) := act_all 2 4 3 1 (started 2 4 proxy) busy in
  accepted t = delivered t ++ pending 2 b /\ delivered t = [entry 1 0 0 7; entry 1 1 1 8] /\ pending 2 b = [entry 1 2 16 9; entry 2 0 24 10; entry 2 1 32 11].
Proof.
  pose proof (bridge_keeps_order 2 4 3 1 proxy busy ltac:(by_decide)) as Hw. destruct (act_all _ _ _ _ _ _) as [b t] eqn:E. vm_compute in E. injection E as <- <-.
  split; [apply Hw; vm_compute; reflexivity|]. split; vm_compute; reflexivity.
Defined.

(** C13. A batch that was refused gets in: from every state that the bridge can reach, when
    the volume keeps trying, however its attempts and the turns of the thread are
    interleaved, three turns of the thread are enough for the next attempt to succeed;
    unless the bridge has given up by then, the batch is queued behind all others. *)
Theorem throttled_batch_is_accepted {D} `{FailOverCache D} csize max_entries write_trigger mult d acts locs n start data sched b' rs :
  Forall (valid csize max_entries) acts -> valid csize max_entries (Add locs n start data) ->
  let again := addEntries csize max_entries write_trigger mult locs n start data in
  retry csize max_entries write_trigger mult again sched (fst (act_all csize max_entries write_trigger mult (started csize max_entries d) acts)) = Some (b', rs) ->
  Forall (fun r => r = Ok false) rs -> (3 <= length (List.filter id sched))%nat ->
  exists b'', again b' = (b'', Ok true) /\ (stop_ b' = false -> pending csize b'' = pending csize b' ++ batch csize mult locs n start data).
Proof.
  intros Hv Hb again Hr Hrs Hl. destruct (started_ok csize max_entries d) as (Hg & Ha & Ht & _).
  destruct (reachable_ok csize max_entries write_trigger mult acts _ Hg Ha Ht Hv) as (Hg1 & Ha1 & Ht1).
  destruct (retry_lag csize max_entries write_trigger mult locs n start data Hb sched _ b' rs Hg1 Ha1 Ht1 Hr Hrs) as (Hg2 & Ha2 & Ht2 & Hlag).
  assert (lag b' = 0%nat) as Hz by (pose proof (lag_three (fst (act_all csize max_entries write_trigger mult (started csize max_entries d) acts))); lia).
  destruct (addEntries_spec csize max_entries write_trigger mult b' locs n start data (proj1 Hg2) Hb) as (r & b'' & E & _ & _ & Hp & Hf). exists b''.
  destruct r; [split; [done|]; intros Hs; by rewrite Hp, Hs|]. destruct (Hf eq_refl) as (Hs & Hn & _). by destruct (lag_zero b' Ht2 Hz) as [Hs'|Hn']; [rewrite Hs in Hs'|].
Qed.

(** Both queues are full, and the thread is about to write. *)
Definition full : list Action := [Work; Add [loc 1 0; loc 1 1] 2 0 [7; 7; 8; 8]; Wake; Add [loc 1 2; loc 1 3] 2 16 [9; 9; 10; 10]].

Lemma throttled_batch_is_accepted_witness : exists b' rs b'',
  retry 2 2 2 1 (addEntries 2 2 2 1 [loc 2 0] 1 32 [11; 11]) [false; true; true; true] (fst (act_all 2 2 2 1 (started 2 2 proxy) full)) = Some (b', rs) /\
  rs = [Ok false] /\ addEntries 2 2 2 1 [loc 2 0] 1 32 [11; 11] b' = (b'', Ok true).
Proof.
  destruct (retry 2 2 2 1 (addEntries 2 2 2 1 [loc 2 0] 1 32 [11; 11]) [false; true; true; true] (fst (act_all 2 2 2 1 (started 2 2 proxy) full))) as [[b' rs]|] eqn:E; [|vm_compute in E; discriminate E].
  assert (rs = [Ok false]) as Hrs by (clear - E; vm_compute in E; injection E as _ <-; reflexivity).
  destruct (throttled_batch_is_accepted 2 2 2 1 proxy full [loc 2 0] 1 32 [11; 11] [false; true; true; true] b' rs ltac:(by_decide) ltac:(by_decide) E) as (b'' & Hb & _).
  - rewrite Hrs. repeat constructor.
  - apply Nat.le_refl.
  - exact (ex_intro _ b' (ex_intro _ rs (ex_intro _ b'' (conj eq_refl (conj Hrs Hb))))).
Defined.

(** C14. What is queued reaches the server: when the cache is a proxy that is connected to a
    server whose log is [l], and the queued batches fit behind it, then after two rounds
    of the thread the server's log is [l] with all queued entries behind it, in order,
    and the queues are empty. *)
Theorem queue_reaches_the_log c (Hc : StreamFacts.size_ok c) {St} `{HB : Backend.BackendStore St} `{HS : !StoreSpec.BackendStoreSpec c St} csize max_entries write_trigger mult
    (b : @AsyncBridge (@FailOverCacheProxy.Proxy St)) x m p s l :
  resting csize max_entries b x -> ProxyFacts.connected x m p s -> LogFacts.refines c s l -> must_get l = false ->
  acceptable c l (written csize b) -> acceptable c (added l (written csize b)) (deref csize b <$> newOnes b) ->
  exists b' x' m' p' s' l', (round csize max_entries write_trigger mult b ≫= round csize max_entries write_trigger mult) = Some b' /\ cache_ b' = Some x' /\
    ProxyFacts.connected x' m' p' s' /\ LogFacts.refines c s' l' /\ items l' = items l ++ pending csize b /\ pending csize b' = [] /\ degraded b' = degraded b.
Proof.
  intros Hb Hx Hr Hm Ho Hn. destruct (drained c (HC := ProxyCacheSpec c Hc) csize max_entries write_trigger mult b x l Hb (ex_intro _ m (ex_intro _ p (ex_intro _ s (conj Hx Hr)))) Hm Ho Hn)
    as (b' & x' & l' & E & Hb' & (m' & p' & s' & Hx' & Hr') & Hi & Hp & Hd). exists b', x', m', p', s', l'. split_and!; try done. apply Hb'.
Qed.

(** A batch of each of two SCOs is queued while the thread sleeps. *)
Definition waiting : @AsyncBridge (@FailOverCacheProxy.Proxy Memory) :=
  mkAsync (Some proxy) [mkRef (loc 2 0) 32 true 0] [mkRef (loc 1 0) 0 false 0; mkRef (loc 1 1) 8 false 2] true ([9; 9; 0; 0], [7; 7; 8; 8]) Waiting false false true 0.

Lemma queue_reaches_the_log_witness : exists b' x' m' p' s' l',
  (round 2 2 2 1 waiting ≫= round 2 2 2 1) = Some b' /\ cache_ b' = Some x' /\ ProxyFacts.connected x' m' p' s' /\
  LogFacts.refines 2 s' l' /\ items l' = [entry 1 0 0 7; entry 1 1 8 8; entry 2 0 32 9] /\ pending 2 b' = [] /\ degraded b' = 0%nat.
Proof.
  assert (StreamFacts.size_ok 2) as Hc by done.
  destruct (WireFacts.first_connection 2 (HS := MemoryFacts.MemoryBackendSpec 2) Hc [65] 2 1 eq_refl ltac:(by_decide)) as (x & s & E & Hx & Hr).
  assert (x = proxy) as -> by (unfold proxy; rewrite E; reflexivity). clear E.
  refine (queue_reaches_the_log 2 Hc 2 2 2 1 waiting proxy _ _ s (mkLog [] false) _ Hx Hr eq_refl _ _).
  - split; [|reflexivity|reflexivity|reflexivity]. split; [|reflexivity]. split.
    + intros []; reflexivity.
    + intros [|i] r Hi; [injection Hi as <-; split; reflexivity|destruct i; discriminate Hi].
    + intros [|[|i]] r Hi; [injection Hi as <-; split; reflexivity..|destruct i; discriminate Hi].
    + cbn. lia.
  - right. split; by_decide.
  - right. split; by_decide.
Defined.

(** Flushing merges the two queues into one batch.  When they hold clusters of different
    SCOs, as they do after a change of SCO that the thread has not yet worked off, the
    stream refuses the batch before anything is sent: all that is queued is dropped, the
    volume is told that it is degraded, and the bridge goes on with its cache as if
    nothing was missing. *)
Theorem flush_drops_two_scos {St} `{HB : Backend.BackendStore St} csize (b : @AsyncBridge (@FailOverCacheProxy.Proxy St)) x :
  cache_ b = Some x -> thread_ b = Waiting -> degraded_fun_ b = true -> same_ends (pending csize b) = false ->
  exists b', Flush csize b = (b', Ok tt) /\ pending csize b' = [] /\ cache_ b' = Some x /\ stop_ b' = stop_ b /\ thread_ b' = Waiting /\ degraded b' = S (degraded b).
Proof.
  intros Hx Ht Hf Hs. unfold Flush. rewrite (locked_eq csize) by congruence. unfold flush_. rewrite Hx. change (written csize (with_ones [] (oldOnes b ++ newOnes b) b)) with (pending csize b).
  assert (fc_addEntries (pending csize b) x = (x, Throw VerifyFailed)) as E.
  { cbn [fc_addEntries ProxyCache]. unfold FailOverCacheProxy.addEntries, put_AddEntries. rewrite Hs. reflexivity. }
  unfold mbind at 1, on_cache at 1. cbn [with_ones cache_]. rewrite Hx, E. eexists. split; [reflexivity|]. cbn. rewrite Hf. done.
Qed.

(** The second SCO was refused once, so that the first one waits in the other queue. *)
Definition two_scos : list Action := [Work; Add [loc 1 0] 1 0 [7; 7]; Add [loc 2 0] 1 8 [8; 8]; Add [loc 2 0] 1 8 [8; 8]].

Lemma flush_drops_two_scos_witness : exists b t b', act_all 2 4 4 1 (started 2 4 proxy) two_scos = (b, t) /\ accepted t = [entry 1 0 0 7; entry 2 0 8 8] /\ delivered t = [] /\
  Flush 2 b = (b', Ok tt) /\ pending 2 b' = [] /\ degraded b' = 1%nat /\ stop_ b' = false.
Proof.
  destruct (act_all 2 4 4 1 (started 2 4 proxy) two_scos) as [b t] eqn:E. exists b, t. vm_compute in E. injection E as <- <-.
  match goal with |- exists b', (?b, _) = _ /\ _ => destruct (flush_drops_two_scos 2 b _ eq_refl eq_refl eq_refl eq_refl) as (b' & H1 & H2 & _ & H4 & _ & H6) end.
  exists b'. split; [reflexivity|]. split; [vm_compute; reflexivity|]. split; [vm_compute; reflexivity|]. split; [exact H1|]. split; [exact H2|]. split; [exact H6|exact H4].
Defined.

(** In the synchronous bridge, fetching a SCO is undefined when the cache fails: behind
    the handling of the exception, which tells the volume that it is degraded and drops
    the cache, the code is declared unreachable although nothing is thrown. *)
Theorem sync_fetch_failure_is_undefined {D} `{FailOverCache D} sconame (b : @FailOverCacheSyncBridge.SyncBridge D) d :
  FailOverCacheSyncBridge.cache_ b = Some d -> FailOverCacheSyncBridge.degraded_fun_ b = true ->
  (exists e, snd (fc_flush d) = Throw e) \/ (exists e, snd (fc_getSCO sconame (fst (fc_flush d))) = Throw e) ->
  exists b' es, FailOverCacheSyncBridge.getSCOFromFailOver sconame b = (b', es, Throw UndefinedBehaviour) /\ FailOverCacheSyncBridge.cache_ b' = None /\
    FailOverCacheSyncBridge.degraded b' = S (FailOverCacheSyncBridge.degraded b).
Proof.
  intros Hc Hf Hfail. unfold FailOverCacheSyncBridge.getSCOFromFailOver. rewrite Hc. destruct (fc_flush d) as [d1 [[]|e1]]; cbn [fst snd] in Hfail.
  - destruct Hfail as [[e Hf']|[e Hf']]; [done|]. destruct (fc_getSCO sconame d1) as [[d2 es] r]. cbn in Hf'. subst r. eexists _, es. split; [reflexivity|]. cbn. by rewrite Hf.
  - eexists _, []. split; [reflexivity|]. cbn. by rewrite Hf.
Qed.

(** The server's thread is gone. *)
Definition cut : @FailOverCacheProxy.Proxy Memory :=
  FailOverCacheProxy.mkProxy (FailOverCacheProtocol.exit_thread (FailOverCacheProxy.peer proxy)) (FailOverCacheProxy.socket_ proxy) false.

Lemma sync_fetch_failure_is_undefined_witness : exists b' es,
  FailOverCacheSyncBridge.getSCOFromFailOver (SCO.make 1 0 0) (FailOverCacheSyncBridge.mkSync (Some cut) true 0) = (b', es, Throw UndefinedBehaviour) /\
  FailOverCacheSyncBridge.cache_ b' = None.
Proof.
  destruct (sync_fetch_failure_is_undefined (SCO.make 1 0 0) (FailOverCacheSyncBridge.mkSync (Some cut) true 0) cut eq_refl eq_refl) as (b' & es & E & Hc & _).
  - left. exists IOException. vm_compute. reflexivity.
  - exact (ex_intro _ b' (ex_intro _ es (conj E Hc))).
Defined.
End BridgeClaims.
