(* ===== verification/SCOCache.v ===== *)
(** * The SCO cache

    src/src/volumedriver/SCOCache.cpp with SCOCacheMountPoint.cpp,
    SCOCacheNamespace.cpp and CachedSCO.cpp: the SCO files on the mount points,
    in namespaces, that were not yet written to the backend or are kept for reading.
    [CachedSCO]s are shared objects with a reference count: they live in a heap
    and die with their last reference.  The file systems below the mount points are
    part of the state; each may stop accepting modifications ([read_only]) or
    stop answering at all ([dead]).  The locks of the code make each operation
    below (and each step of a cleanup) atomic. *)

From Stdlib Require Import SpecFloat.
From stdpp Require Import sorting.
From S2P Require Import Prelude CheckSum Addressing SCOPool.

(** ** [float] and [double] *)
Module XVal.
Definition one : spec_float := Float.of_Z 1.
Definition mul : spec_float -> spec_float -> spec_float := SFmul Float.prec Float.emax.
Definition dprec : Z := 53.
Definition demax : Z := 1024.
(** [double(z)] and the arithmetic on [double]s *)
Definition d_of_Z (z : Z) : spec_float := binary_normalize dprec demax z 0 false.
Definition d_div : spec_float -> spec_float -> spec_float := SFdiv dprec demax.
Definition d_mul : spec_float -> spec_float -> spec_float := SFmul dprec demax.
(** A [double] assigned to a [float]; a [float] is a [double] as it is. *)
Definition of_double (x : spec_float) : spec_float :=
  match x with
  | S754_finite s m e => binary_normalize Float.prec Float.emax (cond_Zopp s (Zpos m)) e s
  | _ => x
  end.
(** [uint32_t(x)] of a positive number *)
Definition trunc (x : spec_float) : Z :=
  match x with
  | S754_finite false m e => if 0 <=? e then Zpos m * 2 ^ e else Zpos m / 2 ^ (- e)
  | _ => 0
  end.
(** [std::numeric_limits<float>::max()] *)
Definition max : spec_float := S754_finite false (Z.to_pos (2 ^ 24 - 1)) 104.
(** [std::min<float>(a, b)] *)
Definition min (a b : spec_float) : spec_float := if SFltb b a then b else a.
End XVal.

Definition s64 (z : Z) : Z := let u := u64 z in if u <? 2 ^ 63 then u else u - 2 ^ 64.

(** The elements of a [std::map] in the order of its keys. *)
Section Ordered.
Context `{Countable K} {A : Type} (ltb : K -> K -> bool).
Definition key_le (x y : K * A) : Prop := ltb (fst y) (fst x) = false.
#[local] Instance key_le_dec x y : Decision (key_le x y) := decide (ltb (fst y) (fst x) = false).
Definition ordered (m : gmap K A) : list (K * A) := merge_sort key_le (map_to_list m).
End Ordered.

Module SCOCache.

(** ** Data *)
Abbreviation Ptr := nat (only parsing).
Abbreviation MPPtr := nat (only parsing).

(** A SCO file; [S_ISVTX], the sticky bit of its mode, marks it disposable. *)
Record File : Type := mkFile { data : list Z; s_isvtx : bool }.
Abbreviation st_size f := (Z.of_nat (length (data f))).

(** A file system: the directories of the namespaces with their SCO files, and
    the lock file with the [uuid_] and [errcount_] that were last written. *)
Record Disk : Type := mkDisk {
  read_only : bool;
  dead : bool;
  fs_size : Z;
  fs_free : Z;
  dirs : gmap string (gmap SCO.SCO File);
  lockfile : option (Z * Z) }.

#[global] Instance disk_inhabited : Inhabited Disk := populate (mkDisk false false 0 0 ∅ None).

Definition writable (d : Disk) : bool := negb (dead d) && negb (read_only d).

(** [path_] is the directory of the namespace on the mount point and the name. *)
Record CachedSCO : Type := mkCachedSCO {
  nspace_ : string;
  scoName_ : SCO.SCO;
  mntPoint_ : MPPtr;
  size_ : Z;
  xVal_ : spec_float;
  disposable_ : bool;
  unlink_on_destruction_ : bool;
  refcnt_ : Z }.

#[global] Instance cachedsco_inhabited : Inhabited CachedSCO :=
  populate (mkCachedSCO "" (SCO.mkSCO 0 0 0) 0 0 Float.zero false false 0).

(** The mount points in use have [initialised_] set, so that is not kept. *)
Record MountPoint : Type := mkMountPoint {
  path_ : string;
  capacity_ : Z;
  used_ : Z;
  choking_ : option Z;
  offline_ : bool;
  uuid_ : Z;
  errcount_ : Z }.

#[global] Instance mountpoint_inhabited : Inhabited MountPoint := populate (mkMountPoint "" 0 0 None false 0 0).

Record SCOCacheNamespaceEntry : Type := mkEntry { sco_ : Ptr; blocked_ : bool }.

Record SCOCacheNamespace : Type := mkNamespace {
  entries : gmap SCO.SCO SCOCacheNamespaceEntry;
  min_ : Z;
  max_non_disposable_ : Z;
  ns_choking_ : bool }.

Record MountPointConfig : Type := mkConfig { cfg_path : string; cfg_size : Z }.

#[global] Instance config_eq_dec : EqDecision MountPointConfig.
Proof. solve_decision. Defined.

Record Params : Type := mkParams {
  trigger_gap : Z;
  backoff_gap : Z;
  discount_factor : spec_float;
  datastore_throttle_usecs : Z;
  scocache_mount_points : list MountPointConfig }.

Record XVals : Type := mkXVals { cachedXValMin_ : spec_float; initialXVal_ : spec_float }.

(** The members, the heap ([mps], [scos]; [next_] is a fresh address), the file
    systems by path, and [to_delete], the set of the cleanup under way: the
    cleanup lock allows one at a time.  [currentMountPoint_] is [None] at the
    end of the list. *)
Record St : Type := mkSt {
  mps : gmap nat MountPoint;
  scos : gmap nat CachedSCO;
  next_ : nat;
  disks : gmap string Disk;
  mountPoints_ : list MPPtr;
  currentMountPoint_ : option MPPtr;
  nsMap_ : gmap string SCOCacheNamespace;
  xvals : XVals;
  mpErrorCount_ : Z;
  to_delete : list Ptr;
  params : Params }.

Definition set_mps x st := mkSt x (scos st) (next_ st) (disks st) (mountPoints_ st) (currentMountPoint_ st) (nsMap_ st) (xvals st) (mpErrorCount_ st) (to_delete st) (params st).
Definition set_scos x st := mkSt (mps st) x (next_ st) (disks st) (mountPoints_ st) (currentMountPoint_ st) (nsMap_ st) (xvals st) (mpErrorCount_ st) (to_delete st) (params st).
Definition set_next x st := mkSt (mps st) (scos st) x (disks st) (mountPoints_ st) (currentMountPoint_ st) (nsMap_ st) (xvals st) (mpErrorCount_ st) (to_delete st) (params st).
Definition set_disks x st := mkSt (mps st) (scos st) (next_ st) x (mountPoints_ st) (currentMountPoint_ st) (nsMap_ st) (xvals st) (mpErrorCount_ st) (to_delete st) (params st).
Definition set_list x c st := mkSt (mps st) (scos st) (next_ st) (disks st) x c (nsMap_ st) (xvals st) (mpErrorCount_ st) (to_delete st) (params st).
Definition set_nsMap x st := mkSt (mps st) (scos st) (next_ st) (disks st) (mountPoints_ st) (currentMountPoint_ st) x (xvals st) (mpErrorCount_ st) (to_delete st) (params st).
Definition set_xvals x st := mkSt (mps st) (scos st) (next_ st) (disks st) (mountPoints_ st) (currentMountPoint_ st) (nsMap_ st) x (mpErrorCount_ st) (to_delete st) (params st).
Definition set_errcount x st := mkSt (mps st) (scos st) (next_ st) (disks st) (mountPoints_ st) (currentMountPoint_ st) (nsMap_ st) (xvals st) x (to_delete st) (params st).
Definition set_to_delete x st := mkSt (mps st) (scos st) (next_ st) (disks st) (mountPoints_ st) (currentMountPoint_ st) (nsMap_ st) (xvals st) (mpErrorCount_ st) x (params st).
Definition set_params x st := mkSt (mps st) (scos st) (next_ st) (disks st) (mountPoints_ st) (currentMountPoint_ st) (nsMap_ st) (xvals st) (mpErrorCount_ st) (to_delete st) x.

(** Dereferencing; the pointers in use point to objects. *)
Definition mp (st : St) (p : MPPtr) : MountPoint := mps st !!! p.
Definition sco (st : St) (p : Ptr) : CachedSCO := scos st !!! p.
Definition disk (st : St) (p : MPPtr) : Disk := disks st !!! path_ (mp st p).

Definition on_mp (p : MPPtr) (f : MountPoint -> MountPoint) (st : St) : St := set_mps (alter f p (mps st)) st.
Definition on_sco (p : Ptr) (f : CachedSCO -> CachedSCO) (st : St) : St := set_scos (alter f p (scos st)) st.
Definition on_disk (p : MPPtr) (f : Disk -> Disk) (st : St) : St := set_disks (alter f (path_ (mp st p)) (disks st)) st.

Definition with_used u m := mkMountPoint (path_ m) (capacity_ m) u (choking_ m) (offline_ m) (uuid_ m) (errcount_ m).
Definition with_choking c m := mkMountPoint (path_ m) (capacity_ m) (used_ m) c (offline_ m) (uuid_ m) (errcount_ m).
Definition with_offline b m := mkMountPoint (path_ m) (capacity_ m) (used_ m) (choking_ m) b (uuid_ m) (errcount_ m).
Definition with_errcount e m := mkMountPoint (path_ m) (capacity_ m) (used_ m) (choking_ m) (offline_ m) (uuid_ m) e.
Definition with_xval x o := mkCachedSCO (nspace_ o) (scoName_ o) (mntPoint_ o) (size_ o) x (disposable_ o) (unlink_on_destruction_ o) (refcnt_ o).
Definition with_unlink b o := mkCachedSCO (nspace_ o) (scoName_ o) (mntPoint_ o) (size_ o) (xVal_ o) (disposable_ o) b (refcnt_ o).
Definition with_refcnt r o := mkCachedSCO (nspace_ o) (scoName_ o) (mntPoint_ o) (size_ o) (xVal_ o) (disposable_ o) (unlink_on_destruction_ o) r.
Definition with_disposable s o := mkCachedSCO (nspace_ o) (scoName_ o) (mntPoint_ o) s (xVal_ o) true (unlink_on_destruction_ o) (refcnt_ o).
Definition with_dirs x d := mkDisk (read_only d) (dead d) (fs_size d) (fs_free d) x (lockfile d).
Definition with_lockfile x d := mkDisk (read_only d) (dead d) (fs_size d) (fs_free d) (dirs d) x.
Definition with_entries x n := mkNamespace x (min_ n) (max_non_disposable_ n) (ns_choking_ n).

(** A [VERIFY] in the middle of a method, and a [throw] under a condition. *)
Definition mverify (b : bool) : M St unit := if b then mret tt else mthrow VerifyFailed.
Definition mthrow_if (b : bool) (e : exn) : M St unit := if b then mthrow e else mret tt.
(** What a handler does before it throws on. *)
Definition on_throw {A} (m : M St A) (h : exn -> M St A) : M St A := fun st =>
  match m st with (st', Throw e) => h e st' | r => r end.

(** ** Files *)
Definition file_of (st : St) (o : CachedSCO) : option File :=
  dirs (disk st (mntPoint_ o)) !! nspace_ o ≫= fun d => d !! scoName_ o.

Definition set_file (n : string) (s : SCO.SCO) (f : option File) (d : Disk) : Disk :=
  with_dirs (alter (partial_alter (fun _ => f) s) n (dirs d)) d.

(** [fs::rename] of the file to the garbage directory, where it is removed later. *)
Definition addToGarbage (o : CachedSCO) : M St unit := fun st =>
  if writable (disk st (mntPoint_ o)) && bool_decide (is_Some (file_of st o)) then
    (on_disk (mntPoint_ o) (set_file (nspace_ o) (scoName_ o) None) st, Ok tt)
  else (st, Throw IOException).

(** ** [SCOCacheMountPoint] *)
Definition updateUsedSize (p : MPPtr) (diff : Z) : M St unit := fun st =>
  let m := mp st p in
  if 0 <=? diff then
    if u64 (used_ m + diff) <=? capacity_ m then (on_mp p (with_used (u64 (used_ m + diff))) st, Ok tt)
    else (st, Throw VerifyFailed)
  else
    let diff := s64 (- diff) in
    if u64 diff <=? used_ m then (on_mp p (with_used (u64 (used_ m - diff))) st, Ok tt)
    else (st, Throw VerifyFailed).

Definition hasNamespace_ (p : MPPtr) (n : string) : M St bool := fun st =>
  if dead (disk st p) then (st, Throw IOException)
  else (st, Ok (bool_decide (is_Some (dirs (disk st p) !! n)))).

(** A failure to make the directory is logged and ignored. *)
Definition mp_addNamespace (p : MPPtr) (n : string) : M St unit :=
  mthrow_if (bool_decide (n = "lost+found"%string)) IOException ;!
  let! b := hasNamespace_ p n in
  mthrow_if b IOException ;!
  mmodify (fun st => if writable (disk st p) then on_disk p (fun d => with_dirs (<[n := ∅]> (dirs d)) d) st else st).

Definition mp_removeNamespace (p : MPPtr) (n : string) : M St unit :=
  let! b := hasNamespace_ p n in
  mthrow_if (negb b) IOException ;!
  mthrow_if (bool_decide (n = "lost+found"%string)) IOException ;!
  let! st := mget in
  mthrow_if (negb (writable (disk st p))) IOException ;!
  mmodify (on_disk p (fun d => with_dirs (delete n (dirs d)) d)).

Definition writeMetaData_ (p : MPPtr) : M St unit :=
  let! st := mget in
  mthrow_if (negb (writable (disk st p))) IOException ;!
  mmodify (on_disk p (with_lockfile (Some (uuid_ (mp st p), errcount_ (mp st p))))).

Definition setErrorCount (p : MPPtr) (errcount : Z) : M St unit :=
  mmodify (on_mp p (with_errcount errcount)) ;! writeMetaData_ p.

Definition getFreeDiskSpace (p : MPPtr) : M St Z := fun st =>
  if dead (disk st p) then (st, Throw IOException) else (st, Ok (fs_free (disk st p))).

(** ** [CachedSCO] *)

(** The destructor; what it throws is ignored.  A hook in an intrusive set
    unlinks itself. *)
Definition destroy_sco (p : Ptr) (st : St) : St :=
  let o := sco st p in
  let st := if unlink_on_destruction_ o
            then fst ((addToGarbage o ;! updateUsedSize (mntPoint_ o) (s64 (- size_ o))) st) else st in
  set_to_delete (List.filter (fun q => negb (q =? p)%nat) (to_delete st)) (set_scos (delete p (scos st)) st).

Definition intrusive_ptr_add_ref (p : Ptr) : St -> St := on_sco p (fun o => with_refcnt (refcnt_ o + 1) o).

Definition intrusive_ptr_release (p : Ptr) (st : St) : St :=
  let st := on_sco p (fun o => with_refcnt (refcnt_ o - 1) o) st in
  if refcnt_ (sco st p) =? 0 then destroy_sco p st else st.

(** A new object, with the reference of the pointer it is assigned to. *)
Definition new_object (o : CachedSCO) : M St Ptr := fun st =>
  (set_next (S (next_ st)) (set_scos (<[next_ st := o]> (scos st)) st), Ok (next_ st)).

(** The constructor for a new SCO ... *)
Definition new_CachedSCO (n : string) (s : SCO.SCO) (p : MPPtr) (maxSize : Z) (xVal : spec_float) : M St Ptr :=
  mthrow_if (maxSize =? 0) IOException ;!
  updateUsedSize p (s64 maxSize) ;!
  new_object (mkCachedSCO n s p maxSize xVal false false 1).

(** ... and the one for a file that was found. *)
Definition scan_CachedSCO (n : string) (s : SCO.SCO) (p : MPPtr) (f : File) : M St Ptr :=
  let! st := mget in
  mthrow_if (offline_ (mp st p)) IOException ;!
  mthrow_if (dead (disk st p)) IOException ;!
  new_object (mkCachedSCO n s p (st_size f) Float.zero (s_isvtx f) false 1).

(** [CachedSCO::setDisposable]; the mode is changed by exclusive or. *)
Definition setDisposable (p : Ptr) : M St unit :=
  let! st := mget in
  let o := sco st p in
  mthrow_if (offline_ (mp st (mntPoint_ o))) IOException ;!
  match (if dead (disk st (mntPoint_ o)) then None else file_of st o) with
  | None => mthrow IOException
  | Some f =>
      mthrow_if (st_size f =? 0) IOException ;!
      mthrow_if (negb (writable (disk st (mntPoint_ o)))) IOException ;!
      mmodify (on_disk (mntPoint_ o) (set_file (nspace_ o) (scoName_ o) (Some (mkFile (data f) (xorb (s_isvtx f) true))))) ;!
      mmodify (on_sco p (with_disposable (st_size f))) ;!
      updateUsedSize (mntPoint_ o) (s64 (st_size f - size_ o))
  end.

Definition getRealSize (st : St) (p : Ptr) : Z :=
  let o := sco st p in
  if disposable_ o then size_ o
  else match (if dead (disk st (mntPoint_ o)) then None else file_of st o) with
       | Some f => if st_size f =? 0 then size_ o else st_size f
       | None => size_ o
       end.

(** ** Namespaces *)
Definition on_ns (n : string) (f : SCOCacheNamespace -> SCOCacheNamespace) (st : St) : St :=
  set_nsMap (alter f n (nsMap_ st)) st.

Definition find_entry (st : St) (n : string) (s : SCO.SCO) : option SCOCacheNamespaceEntry :=
  nsMap_ st !! n ≫= fun ns => entries ns !! s.

Definition setBlocked (n : string) (s : SCO.SCO) (b : bool) : St -> St :=
  on_ns n (fun ns => with_entries (alter (fun e => mkEntry (sco_ e) b) s (entries ns)) ns).

(** [erase] on the map of a namespace drops the reference of the entry. *)
Definition ns_erase (n : string) (s : SCO.SCO) (st : St) : St :=
  match find_entry st n s with
  | Some e => intrusive_ptr_release (sco_ e) (on_ns n (fun ns => with_entries (delete s (entries ns)) ns) st)
  | None => st
  end.

Definition namespaces (st : St) : list (string * SCOCacheNamespace) := ordered String.ltb (nsMap_ st).
Definition entry_list (ns : SCOCacheNamespace) : list (SCO.SCO * SCOCacheNamespaceEntry) := ordered SCO.ltb (entries ns).

Definition findNamespace_throw_ (n : string) : M St SCOCacheNamespace := fun st =>
  match nsMap_ st !! n with Some ns => (st, Ok ns) | None => (st, Throw IOException) end.

(** ** SCOs in namespaces *)
Definition insertSCO_ (p : Ptr) (blocked : bool) : M St unit :=
  let! st := mget in
  let o := sco st p in
  match nsMap_ st !! nspace_ o with
  | None => mthrow VerifyFailed
  | Some ns =>
      mverify (negb (bool_decide (is_Some (entries ns !! scoName_ o)))) ;!
      mmodify (on_ns (nspace_ o) (fun ns => with_entries (<[scoName_ o := mkEntry p blocked]> (entries ns)) ns)) ;!
      mmodify (intrusive_ptr_add_ref p)
  end.

(** A local pointer goes out of scope when an exception passes. *)
Definition releasing {A} (p : Ptr) (m : M St A) : M St A :=
  on_throw m (fun e => mmodify (intrusive_ptr_release p) ;! mthrow e).

Definition insertScannedSCO (p : Ptr) : M St unit := insertSCO_ p true.

Definition scanNamespace (p : MPPtr) (n : string) : M St unit :=
  let! b := hasNamespace_ p n in
  (if b then mret tt else mthrow ThrowUnless) ;!
  let! st := mget in
  miter (fun '(s, f) =>
    let! q := scan_CachedSCO n s p f in
    releasing q (insertScannedSCO q) ;!
    mmodify (intrusive_ptr_release q)) (ordered SCO.ltb (default ∅ (dirs (disk st p) !! n))).

(** [CachedSCO::remove], which does not throw, only sets the flag. *)
Definition removeSCO_ (p : Ptr) (unlink : bool) : M St unit :=
  let! st := mget in
  let o := sco st p in
  let! _ := findNamespace_throw_ (nspace_ o) in
  mmodify (ns_erase (nspace_ o) (scoName_ o)) ;!
  if unlink then mmodify (on_sco p (with_unlink true)) else mret tt.

Definition findAndRemoveSCO_ (n : string) (s : SCO.SCO) (removeNonDisposable mustBeBlocked unlink : bool) : M St unit :=
  let! ns := findNamespace_throw_ n in
  match entries ns !! s with
  | None => mthrow IOException
  | Some e =>
      mthrow_if (negb mustBeBlocked && blocked_ e) TransientException ;!
      let p := sco_ e in
      mmodify (intrusive_ptr_add_ref p) ;!
      releasing p (
        let! st := mget in
        mthrow_if (negb (disposable_ (sco st p)) && negb removeNonDisposable) IOException ;!
        removeSCO_ p unlink) ;!
      mmodify (intrusive_ptr_release p)
  end.

(** ** Mount points going offline *)

(** [setErrorCount] on each mount point; where that fails the mount point goes
    offline and the loop starts again. *)
Fixpoint bump_loop (offline : MPPtr -> M St unit) (fuel : nat) (l : list MPPtr) : M St unit :=
  match l with
  | [] => mret tt
  | p :: l' =>
      match fuel with
      | O => mthrow OutOfFuel
      | S fuel => fun st =>
          match setErrorCount p (mpErrorCount_ st) st with
          | (st, Ok _) => bump_loop offline fuel l' st
          | (st, Throw _) =>
              (offline p ;!
               mmodify (fun st => set_list (mountPoints_ st) (head (mountPoints_ st)) st) ;!
               let! st := mget in bump_loop offline fuel (mountPoints_ st)) st
          end
      end
  end.

Definition bumpMountPointErrorCount_ (offline : MPPtr -> M St unit) (fuel : nat) : M St unit :=
  mmodify (fun st => set_errcount (u64 (mpErrorCount_ st + 1)) st) ;!
  let! st := mget in bump_loop offline fuel (mountPoints_ st).

(** The entries of a mount point, in the order of the loop that erases them. *)
Definition entries_on (st : St) (p : MPPtr) : list (string * SCO.SCO) :=
  concat ((fun '(n, ns) =>
    (fun '(s, _) => (n, s)) <$> List.filter (fun '(_, e) => (mntPoint_ (sco st (sco_ e)) =? p)%nat) (entry_list ns)) <$> namespaces st).

Definition erase_entries (l : list (string * SCO.SCO)) (st : St) : St :=
  fold_left (fun st '(n, s) => ns_erase n s st) l st.

Fixpoint offline_loop (fuel : nat) (p : MPPtr) : M St unit :=
  match fuel with
  | O => mthrow OutOfFuel
  | S fuel =>
      mmodify (on_mp p (with_offline true)) ;!
      let! st := mget in
      if negb (existsb (Nat.eqb p) (mountPoints_ st)) then mret tt
      else
        mmodify (fun st => set_list (List.filter (fun q => negb (q =? p)%nat) (mountPoints_ st)) (currentMountPoint_ st) st) ;!
        mmodify (fun st => erase_entries (entries_on st p) st) ;!
        mmodify (fun st => set_list (mountPoints_ st) (head (mountPoints_ st)) st) ;!
        let! st := mget in
        bumpMountPointErrorCount_ (offline_loop fuel) (S (length (mountPoints_ st)) * S (length (mountPoints_ st)))
  end.

(** Each recursive call has one mount point less. *)
Definition offlineMountPoint_ (p : MPPtr) : M St unit :=
  let! st := mget in offline_loop (S (S (length (mountPoints_ st)))) p.

Definition reportIOError_ (p : Ptr) : M St unit :=
  let! st := mget in offlineMountPoint_ (mntPoint_ (sco st p)).

(** ** Choosing a mount point for a new SCO *)

(** [++it] in the list [mountPoints_]; [None] is [end()]. *)
Fixpoint next_it (l : list MPPtr) (p : MPPtr) : option MPPtr :=
  match l with
  | [] => None
  | q :: l' => if (q =? p)%nat then head l' else next_it l' p
  end.

(** From [it] round the list to the current mount point or the first that is not skipped. *)
Fixpoint find_it (skip : MPPtr -> bool) (l : list MPPtr) (current it : option MPPtr) (fuel : nat) : res (option MPPtr) :=
  if bool_decide (current = it) then Ok it
  else match fuel with
       | O => Throw OutOfFuel
       | S fuel =>
           match it with
           | None => find_it skip l current (head l) fuel
           | Some p => if skip p then find_it skip l current (next_it l p) fuel else Ok it
           end
       end.

Definition no_room (st : St) (scoSize : Z) (p : MPPtr) : bool :=
  capacity_ (mp st p) <? u64 (used_ (mp st p) + scoSize).

Definition is_choking (st : St) (p : MPPtr) : bool := bool_decide (is_Some (choking_ (mp st p))).

Definition getWriteMountPoint_ (scoSize : Z) : M St MPPtr :=
  let! st := mget in
  match currentMountPoint_ st with
  | None => mthrow SCOCacheNoMountPointsException
  | Some c =>
      let l := mountPoints_ st in
      let fuel := S (length l) in
      let! it := mlift (find_it (is_choking st) l (Some c) (next_it l c) fuel) in
      let! it := mlift (if bool_decide (it = Some c) && is_choking st c
                        then find_it (no_room st scoSize) l (Some c) (next_it l c) fuel else Ok it) in
      match it with
      | None => mthrow UndefinedBehaviour
      | Some p =>
          mthrow_if (no_room st scoSize p) TransientException ;!
          mmodify (set_list l (Some p)) ;!
          mret p
      end
  end.

(** ** Access values *)
Definition getInitialXVal_ (st : St) : spec_float := initialXVal_ (xvals st).

Definition signalSCOAccessed (p : Ptr) (num : Z) (st : St) : St :=
  on_sco p (fun o => with_xval (Float.add (xVal_ o) (XVal.mul (Float.of_Z num) (discount_factor (params st)))) o) st.

(** The SCOs of all namespaces, in the order of the maps. *)
Definition all_scos (st : St) : list Ptr :=
  concat ((fun '(_, ns) => (fun '(_, e) => sco_ e) <$> entry_list ns) <$> namespaces st).

Definition scoCount_ (st : St) : Z := Z.of_nat (length (all_scos st)).

Definition rescaleXVals_ : M St unit :=
  let! st := mget in
  let ps := all_scos st in
  let xValSum := fold_left (fun t p => Float.add t (xVal_ (sco st p))) ps Float.zero in
  mverify (SFleb Float.zero xValSum) ;!
  let scoNum := scoCount_ st in
  let newVal p := if SFltb Float.zero xValSum then Float.div (xVal_ (sco st p)) xValSum
                  else XVal.of_double (XVal.d_div (XVal.d_of_Z 1) (XVal.d_of_Z scoNum)) in
  let min := fold_left (fun m p => XVal.min m (newVal p)) ps XVal.max in
  mmodify (fun st => fold_left (fun st p => on_sco p (with_xval (newVal p)) st) ps st) ;!
  mverify (SFleb Float.zero min) ;!
  mmodify (set_xvals (mkXVals
    (if scoNum =? 0 then Float.zero else min)
    (if 0 <? scoNum then XVal.of_double (XVal.d_div (XVal.d_of_Z 1) (XVal.d_of_Z scoNum)) else XVal.one))).

Definition initXVals_ (n : string) (sad : list (SCO.SCO * spec_float)) : M St unit :=
  mmodify (fun st => fold_left (fun st '(s, x) =>
    match find_entry st n s with
    | Some e => setBlocked n s false (on_sco (sco_ e) (with_xval x) st)
    | None => st
    end) sad st) ;!
  mmodify (fun st =>
    let avg := getInitialXVal_ st in
    fold_left (fun st '(s, e) =>
      if blocked_ e then setBlocked n s false (on_sco (sco_ e) (with_xval avg) st) else st)
      (from_option entry_list [] (nsMap_ st !! n)) st) ;!
  rescaleXVals_.

Definition fillSCOAccessData (n : string) : M St (list (SCO.SCO * spec_float)) :=
  let! ns := findNamespace_throw_ n in
  let! st := mget in
  mret ((fun '(_, e) => (scoName_ (sco st (sco_ e)), xVal_ (sco st (sco_ e)))) <$> entry_list ns).

(** ** Creating, finding and getting SCOs

    A function that returns a [CachedSCOPtr] leaves its caller a reference. *)
Definition createSCO_ (n : string) (s : SCO.SCO) (scoSize : Z) (xval : spec_float) (blocked : bool) : M St Ptr :=
  let! ns := findNamespace_throw_ n in
  mthrow_if (bool_decide (is_Some (entries ns !! s))) IOException ;!
  let! q := getWriteMountPoint_ scoSize in
  let! p := new_CachedSCO n s q scoSize xval in
  releasing p (insertSCO_ p blocked) ;!
  mret p.

Definition createSCO (n : string) (s : SCO.SCO) (scoSize : Z) : M St Ptr :=
  let! st := mget in createSCO_ n s scoSize (getInitialXVal_ st) false.

Definition findSCO_ (n : string) (s : SCO.SCO) : M St (option Ptr) :=
  let! ns := findNamespace_throw_ n in
  match entries ns !! s with
  | Some e =>
      mthrow_if (blocked_ e) TransientException ;!
      mmodify (intrusive_ptr_add_ref (sco_ e)) ;!
      mret (Some (sco_ e))
  | None => mret None
  end.

Definition findSCO : string -> SCO.SCO -> M St (option Ptr) := findSCO_.

Definition findSCO_throw (n : string) (s : SCO.SCO) : M St Ptr :=
  let! p := findSCO n s in
  match p with Some p => mret p | None => mthrow SCONotFoundException end.

Definition removeSCO (n : string) (s : SCO.SCO) (removeNonDisposable unlink : bool) : M St unit :=
  findAndRemoveSCO_ n s removeNonDisposable false unlink.

(** A fetcher, as far as the cache is concerned: it is told the path to write
    to, and runs without the lock, so that the state may have changed in any way
    when it is done. *)
Record SCOFetcher : Type := mkFetcher { fetch : Ptr -> M St unit; fetch_disposable : bool }.

(** [getSCO_] up to the fetch: the SCO that is there, or a new blocked one. *)
Definition getSCO_lookup (n : string) (s : SCO.SCO) (scoSize : Z) (xval : spec_float) : M St (Ptr * bool) :=
  let! r := findSCO_ n s in
  match r with
  | Some p => mret (p, true)
  | None => let! p := createSCO_ n s scoSize xval true in mret (p, false)
  end.

(** The handlers around the fetch. *)
Definition getSCO_failed (p : Ptr) (e : exn) : M St unit :=
  match e with
  | SCOCacheMountPointIOException => reportIOError_ p ;! mthrow TransientException
  | _ => removeSCO_ p false ;! mthrow e
  end.

(** What is left to do once the file is there; the namespace is looked up
    through the pointer, the entry by its name. *)
Definition getSCO_fetched (p : Ptr) (disposable : bool) : M St unit :=
  (if disposable then on_throw (setDisposable p) (fun e => reportIOError_ p ;! mthrow e) else mret tt) ;!
  let! st := mget in
  let o := sco st p in
  match nsMap_ st !! nspace_ o with
  | None => mthrow UndefinedBehaviour
  | Some ns =>
      mthrow_if (negb (bool_decide (is_Some (entries ns !! scoName_ o)))) IOException ;!
      mmodify (setBlocked (nspace_ o) (scoName_ o) false)
  end.

Definition getSCO_ (n : string) (s : SCO.SCO) (scoSize : Z) (f : SCOFetcher) (xval : spec_float) : M St (Ptr * bool) :=
  let! (p, cached) := getSCO_lookup n s scoSize xval in
  if cached : bool then mret (p, true)
  else
    releasing p (on_throw (fetch f p) (getSCO_failed p) ;! getSCO_fetched p (fetch_disposable f)) ;!
    mret (p, false).

(** With [*cached] as the second component. *)
Definition getSCO (n : string) (s : SCO.SCO) (scoSize : Z) (f : SCOFetcher) : M St (Ptr * bool) :=
  let! st := mget in getSCO_ n s scoSize f (getInitialXVal_ st).

Fixpoint softCacheFull_ (l : list MPPtr) : M St bool :=
  match l with
  | [] => mret true
  | p :: l =>
      let! free := getFreeDiskSpace p in
      let! st := mget in
      if backoff_gap (params st) <? free then mret false else softCacheFull_ l
  end.

(** The SCO pointer goes out of scope; all exceptions of the code are [std::exception]s. *)
Definition prefetchSCO (n : string) (s : SCO.SCO) (scoSize : Z) (sap : spec_float) (f : SCOFetcher) : M St bool :=
  let! st := mget in
  let! full := softCacheFull_ (mountPoints_ st) in
  let! st := mget in
  if full && SFltb sap (cachedXValMin_ (xvals st)) then mret false
  else on_throw (let! (p, _) := getSCO_ n s scoSize f sap in mmodify (intrusive_ptr_release p) ;! mret true)
                (fun _ => mret true).

Definition setSCODisposable (p : Ptr) : M St unit := setDisposable p.
Definition isSCODisposable (st : St) (p : Ptr) : bool := disposable_ (sco st p).
Definition reportIOError : Ptr -> M St unit := reportIOError_.

(** ** Managing namespaces *)
Definition hasNamespace (st : St) (n : string) : bool := bool_decide (is_Some (nsMap_ st !! n)).

Fixpoint on_any_mount_point (n : string) (l : list MPPtr) : M St bool :=
  match l with
  | [] => mret false
  | p :: l => let! b := hasNamespace_ p n in if b : bool then mret true else on_any_mount_point n l
  end.

Definition hasDisabledNamespace_ (n : string) : M St bool :=
  let! st := mget in
  if hasNamespace st n then mret false else on_any_mount_point n (mountPoints_ st).

Definition setNamespaceLimits (n : string) (min max : Z) : M St unit :=
  let! _ := findNamespace_throw_ n in
  mmodify (on_ns n (fun ns => mkNamespace (entries ns) min max (ns_choking_ ns))).

Definition setNamespaceLimitMax (n : string) (max : Z) : M St unit :=
  let! _ := findNamespace_throw_ n in
  mmodify (on_ns n (fun ns => mkNamespace (entries ns) (min_ ns) max (ns_choking_ ns))).

Definition addNamespaceToMountPointsInList_ (n : string) (l : list MPPtr) : M St unit :=
  miter (fun p => let! b := hasNamespace_ p n in if b : bool then mret tt else mp_addNamespace p n) l.

Definition removeNamespaceFromMountPointsInList_ (n : string) (l : list MPPtr) : M St unit :=
  miter (fun p => let! b := hasNamespace_ p n in if b : bool then mp_removeNamespace p n else mret tt) l.

Definition removeNamespaceFromMountPoints_ (n : string) : M St unit :=
  let! st := mget in removeNamespaceFromMountPointsInList_ n (mountPoints_ st).

Definition createAndInsertNamespace_ (n : string) (min max : Z) : M St unit :=
  let! st := mget in
  mverify (negb (hasNamespace st n)) ;!
  mmodify (set_nsMap (<[n := mkNamespace ∅ min max false]> (nsMap_ st))).

Definition addNamespace (n : string) (min max : Z) : M St unit :=
  let! st := mget in
  mthrow_if (hasNamespace st n) IOException ;!
  let! d := hasDisabledNamespace_ n in
  mthrow_if d IOException ;!
  on_throw (let! st := mget in addNamespaceToMountPointsInList_ n (mountPoints_ st))
           (fun e => removeNamespaceFromMountPoints_ n ;! mthrow e) ;!
  createAndInsertNamespace_ n min max.

(** The map of the namespace is cleared, which drops the references. *)
Definition disableNamespace_ (n : string) (st : St) : St :=
  match nsMap_ st !! n with
  | None => st
  | Some ns => fold_left (fun st '(_, e) => intrusive_ptr_release (sco_ e) st) (entry_list ns)
                 (set_nsMap (delete n (nsMap_ st)) st)
  end.

Definition disableNamespace (n : string) : M St unit :=
  let! _ := findNamespace_throw_ n in mmodify (disableNamespace_ n).

Definition enableNamespace (n : string) (min max : Z) (sad : list (SCO.SCO * spec_float)) : M St unit :=
  let! st := mget in
  mthrow_if (hasNamespace st n) IOException ;!
  createAndInsertNamespace_ n min max ;!
  on_throw (miter (fun p => let! b := hasNamespace_ p n in
                            if b : bool then scanNamespace p n else mp_addNamespace p n) (mountPoints_ st))
           (fun e => mmodify (disableNamespace_ n) ;! mthrow e) ;!
  initXVals_ n sad.

Definition getSCONameList (n : string) (disposable : bool) : M St (list SCO.SCO) :=
  let! ns := findNamespace_throw_ n in
  let! st := mget in
  mret ((fun '(_, e) => scoName_ (sco st (sco_ e))) <$>
        List.filter (fun '(_, e) => Bool.eqb (disposable_ (sco st (sco_ e))) disposable) (entry_list ns)).

Definition getSCONameListAll (n : string) : M St (list SCO.SCO) :=
  let! ns := findNamespace_throw_ n in
  let! st := mget in
  mret ((fun '(_, e) => scoName_ (sco st (sco_ e))) <$> entry_list ns).

(** The sums of [getNamespaceInfo]: disposable and not. *)
Definition getNamespaceInfo (n : string) : M St (Z * Z) :=
  let! ns := findNamespace_throw_ n in
  let! st := mget in
  mret (fold_left (fun '(d, nd) '(_, e) =>
    if disposable_ (sco st (sco_ e)) then (u64 (d + getRealSize st (sco_ e)), nd)
    else (d, u64 (nd + getRealSize st (sco_ e)))) (entry_list ns) (0, 0)).

(** ** Cleanup *)

(** Insertion into a [multiset] ordered by [getXVal]: after its equals. *)
Fixpoint set_insert (st : St) (p : Ptr) (l : list Ptr) : list Ptr :=
  match l with
  | [] => [p]
  | q :: l' => if SFltb (xVal_ (sco st p)) (xVal_ (sco st q)) then p :: l else q :: set_insert st p l'
  end.

Definition maybeChokeNamespaces_ (st : St) : St :=
  fold_left (fun st '(n, ns) =>
    let nondisposable := fold_left (fun t '(_, e) =>
      if disposable_ (sco st (sco_ e)) then t else u64 (t + size_ (sco st (sco_ e)))) (entry_list ns) 0 in
    on_ns n (fun ns => mkNamespace (entries ns) (min_ ns) (max_non_disposable_ ns) (max_non_disposable_ ns <? nondisposable)) st)
    (namespaces st) st.

(** Over a copy of the list of mount points. *)
Fixpoint checkForWork_loop (l : list MPPtr) (ret : bool) : M St bool :=
  match l with
  | [] => mret ret
  | p :: l => fun st =>
      if offline_ (mp st p) then checkForWork_loop l ret st
      else match getFreeDiskSpace p st with
           | (st, Throw _) => (offlineMountPoint_ p ;! checkForWork_loop l ret) st
           | (st, Ok freespace) =>
               let gap := Z.min freespace (u64 (capacity_ (mp st p) - used_ (mp st p))) in
               if gap <? trigger_gap (params st) then checkForWork_loop l true st
               else checkForWork_loop l ret (on_mp p (with_choking None) st)
           end
  end.

Definition checkForWork_ : M St bool := let! st := mget in checkForWork_loop (mountPoints_ st) false.

(** [preserve] is an [int64_t], the sizes are [uint64_t]s; the set is walked from its end. *)
Fixpoint preserve_loop (st : St) (preserve : Z) (rev_set : list Ptr) : list Ptr :=
  match rev_set with
  | [] => []
  | p :: l => if 0 <? preserve then preserve_loop st (s64 (preserve - size_ (sco st p))) l else rev_set
  end.

Definition ensureNamespaceMin_ (st : St) (min : Z) (scoSet : list Ptr) (totalSize disposableSize : Z) : list Ptr :=
  let nonDisposableSize := u64 (totalSize - disposableSize) in
  let preserve := if min <=? nonDisposableSize then 0 else s64 (u64 (min - nonDisposableSize)) in
  rev (preserve_loop st preserve (rev scoSet)).

(** One entry in the loop over a namespace; the local pointer counts as a use. *)
Definition collect (st : St) (acc : list Ptr * Z * Z) (q : SCO.SCO * SCOCacheNamespaceEntry) : res (list Ptr * Z * Z) :=
  let '(scoSet, totalSize, disposableSize) := acc in
  let e := snd q in
  let o := sco st (sco_ e) in
  let use_count := refcnt_ o + 1 in
  verify (2 <=? use_count) in
  let totalSize' := u64 (totalSize + size_ o) in
  Ok (if disposable_ o && (use_count =? 2) && negb (blocked_ e)
      then (set_insert st (sco_ e) scoSet, totalSize', u64 (disposableSize + size_ o))
      else (scoSet, totalSize', disposableSize)).

Definition namespace_set (st : St) (ns : SCOCacheNamespace) : res (list Ptr) :=
  let? (scoSet, totalSize, disposableSize) := rfold (collect st) ([], 0, 0) (entry_list ns) in
  Ok (ensureNamespaceMin_ st (min_ ns) scoSet totalSize disposableSize).

(** Moving a SCO from the set of its namespace to the set of its mount point. *)
Definition move_to_mp (st : St) (sets : list (MPPtr * list Ptr)) (p : Ptr) : res (list (MPPtr * list Ptr)) :=
  let o := sco st p in
  verify (disposable_ o) in
  verify (refcnt_ o =? 1) in
  verify (existsb (fun '(q, _) => (q =? mntPoint_ o)%nat) sets) in
  Ok ((fun '(q, l) => if (q =? mntPoint_ o)%nat then (q, set_insert st p l) else (q, l)) <$> sets).

Fixpoint trim_loop (l : list Ptr) (freespace : Z) : M St Z :=
  match l with
  | [] => mret freespace
  | p :: l' =>
      let! st := mget in
      if freespace <? backoff_gap (params st) then
        let o := sco st p in
        mverify (refcnt_ o =? 1) ;!
        mverify (disposable_ o) ;!
        mverify (bool_decide (is_Some (find_entry st (nspace_ o) (scoName_ o)))) ;!
        mmodify (setBlocked (nspace_ o) (scoName_ o) true) ;!
        mmodify (fun st => set_to_delete (set_insert st p (to_delete st)) st) ;!
        trim_loop l' (u64 (freespace + size_ o))
      else mret freespace
  end.

Definition adaptedThrottling (st : St) (freespace : Z) : Z :=
  if freespace =? 0 then 1000000
  else
    let factor := Float.div (Float.of_Z (trigger_gap (params st))) (Float.of_Z freespace) in
    let t := XVal.d_mul (XVal.d_of_Z (datastore_throttle_usecs (params st))) factor in
    let maxThrot := XVal.d_of_Z 1000000 in
    u32 (XVal.trunc (if SFltb t maxThrot then t else maxThrot)).

Definition trimMountPoint_ (p : MPPtr) (mpSCOSet : list Ptr) : M St unit :=
  let! free := getFreeDiskSpace p in
  let! st := mget in
  let freespace := Z.min free (u64 (capacity_ (mp st p) - used_ (mp st p))) in
  if freespace <? trigger_gap (params st) then
    let! freespace := trim_loop mpSCOSet freespace in
    let! st := mget in
    if freespace <? trigger_gap (params st)
    then mmodify (on_mp p (with_choking (Some (adaptedThrottling st freespace))))
    else mret tt
  else mret tt.

(** The sets are walked in the order of the namespaces and of the mount points;
    the code has them in maps ordered by address. *)
Definition trimMountPoints_ (nsSCOSets : list (list Ptr)) : M St unit :=
  let! st := mget in
  let! mpSCOSets := mlift (rfold (move_to_mp st) ((fun p => (p, [])) <$> mountPoints_ st) (concat nsSCOSets)) in
  miter (fun '(p, l) => trimMountPoint_ p l) mpSCOSets.

Definition prepareCleanup_ : M St unit :=
  let! st := mget in
  let! nsSCOSets := mlift (rfold (fun acc '(_, ns) => let? l := namespace_set st ns in Ok (acc ++ [l])) [] (namespaces st)) in
  trimMountPoints_ nsSCOSets.

Definition exists_ (p : MPPtr) (n : string) (s : SCO.SCO) : M St bool := fun st =>
  if dead (disk st p) then (st, Throw IOException)
  else (st, Ok (bool_decide (is_Some (dirs (disk st p) !! n ≫= fun d => d !! s)))).

Definition eraseSCOSetIterator_ (p : Ptr) (remove_non_disposable : bool) : M St Z :=
  let! st := mget in
  let o := sco st p in
  mverify (refcnt_ o =? 1) ;!
  mmodify (fun st => set_to_delete (List.filter (fun q => negb (q =? p)%nat) (to_delete st)) st) ;!
  findAndRemoveSCO_ (nspace_ o) (scoName_ o) remove_non_disposable true true ;!
  let! b := exists_ (mntPoint_ o) (nspace_ o) (scoName_ o) in
  if b : bool then offlineMountPoint_ (mntPoint_ o) ;! mret 0 else mret (size_ o).

(** Each round takes one SCO off the set. *)
Fixpoint doCleanup_loop (fuel : nat) (remove_non_disposable : bool) : M St unit :=
  let! st := mget in
  match to_delete st with
  | [] => mret tt
  | p :: _ =>
      match fuel with
      | O => mthrow OutOfFuel
      | S fuel => let! _ := eraseSCOSetIterator_ p remove_non_disposable in doCleanup_loop fuel remove_non_disposable
      end
  end.

Definition doCleanup_ (remove_non_disposable : bool) : M St unit :=
  let! st := mget in doCleanup_loop (length (to_delete st)) remove_non_disposable.

(** The part of [cleanup] under the lock. *)
Definition cleanup_prepare : M St unit :=
  mmodify maybeChokeNamespaces_ ;!
  let! work := checkForWork_ in
  (if work : bool then on_throw prepareCleanup_ (fun _ => mret tt) else mret tt) ;!
  rescaleXVals_.

(** When an exception leaves the function the set is destroyed. *)
Definition with_set {A} (m : M St A) : M St A :=
  on_throw m (fun e => mmodify (set_to_delete []) ;! mthrow e).

Definition cleanup : M St unit :=
  with_set (cleanup_prepare ;! doCleanup_ false) ;!
  let! _ := checkForWork_ in mret tt.

(** [removeNamespace_]: all SCOs of the namespace go to the set, ... *)
Definition removeNamespace_prepare (n : string) : M St unit :=
  let! ns := findNamespace_throw_ n in
  miter (fun '(s, e) => mmodify (setBlocked n s true) ;!
                        mmodify (fun st => set_to_delete (set_insert st (sco_ e) (to_delete st)) st)) (entry_list ns).

(** ... and when they are gone so does the namespace. *)
Definition removeNamespace_finish (n : string) : M St unit :=
  let! ns := findNamespace_throw_ n in
  mverify (bool_decide (entries ns = ∅)) ;!
  mmodify (fun st => set_nsMap (delete n (nsMap_ st)) st) ;!
  removeNamespaceFromMountPoints_ n.

Definition removeNamespace_ (n : string) : M St unit :=
  with_set (removeNamespace_prepare n ;! doCleanup_ true) ;!
  removeNamespace_finish n.

Definition removeNamespace : string -> M St unit := removeNamespace_.

Definition removeDisabledNamespace (n : string) : M St unit :=
  enableNamespace n 0 (2 ^ 64 - 1) [] ;! removeNamespace_ n.

(** ** Mount points: construction, addition, removal *)

(** The last component of a path. *)
Fixpoint leaf (s : string) : string :=
  match s with
  | EmptyString => EmptyString
  | String c r => if existsb (Ascii.eqb "/"%char) (chars r) then leaf r
                  else if Ascii.eqb c "/"%char then r else s
  end.

(** The capacity that is used. *)
Definition validateParams_ (cfg : MountPointConfig) (d : Disk) : res Z :=
  let capacity := u64 (cfg_size cfg) in
  let fsSize := u64 (fs_size d) in
  if bool_decide (leaf (cfg_path cfg) = "lost+found"%string) then Throw IOException
  else if capacity =? 0 then Throw IOException
  else if dead d then Throw IOException
  else if capacity =? 2 ^ 64 - 1 then Ok fsSize
  else if fsSize <? capacity then Throw IOException
  else Ok capacity.

Definition scan_ (capacity : Z) (d : Disk) : res Z :=
  rfold (fun used f => verify (u64 (used + st_size f) <=? capacity) in Ok (u64 (used + st_size f))) 0
        (concat ((fun '(_, m) => snd <$> ordered SCO.ltb m) <$> ordered String.ltb (dirs d))).

(** The directory of the remover of garbage is made in either case. *)
Definition restart_ (cfg : MountPointConfig) (d : Disk) : res MountPoint :=
  let? capacity := validateParams_ cfg d in
  match lockfile d with
  | None => Throw IOException
  | Some (uuid, errcount) =>
      let? used := scan_ capacity d in
      if writable d then Ok (mkMountPoint (cfg_path cfg) capacity used None false uuid errcount) else Throw IOException
  end.

Definition empty_ (d : Disk) : bool :=
  bool_decide (lockfile d = None) && forallb (fun '(n, _) => bool_decide (n = "lost+found"%string)) (ordered String.ltb (dirs d)).

(** [uuid] is the one that is drawn. *)
Definition newMountPointStage1_ (cfg : MountPointConfig) (d : Disk) (uuid : Z) : res MountPoint :=
  if dead d || negb (empty_ d) then Throw IOException
  else
    let? capacity := validateParams_ cfg d in
    if writable d then Ok (mkMountPoint (cfg_path cfg) capacity 0 None false uuid 0) else Throw IOException.

Definition new_mp (m : MountPoint) : M St MPPtr := fun st =>
  (set_next (S (next_ st)) (set_mps (<[next_ st := m]> (mps st)) st), Ok (next_ st)).

(** [SCOCacheMountPoint::exists] and the constructor; a path that is not there is an exception. *)
Definition construct (cfg : MountPointConfig) (restart : bool) (uuid : Z) : M St MPPtr :=
  let! st := mget in
  let! m := mlift (match disks st !! cfg_path cfg with
                   | None => Throw IOException
                   | Some d => if restart then restart_ cfg d else newMountPointStage1_ cfg d uuid
                   end) in
  new_mp m.

Definition mp_exists (st : St) (cfg : MountPointConfig) : res bool :=
  match disks st !! cfg_path cfg with
  | None => Ok false
  | Some d => if dead d then Throw IOException else Ok (bool_decide (is_Some (lockfile d)))
  end.

Definition newMountPointStage2 (p : MPPtr) (errcount : Z) : M St unit := setErrorCount p errcount.

Definition hasMountPoint (st : St) (path : string) : bool :=
  existsb (fun p => bool_decide (path_ (mp st p) = path)) (mountPoints_ st).

(** [removeMountPoint_], for one namespace: the SCOs that are looked at are
    collected, then they are removed. *)
Definition remove_from_namespace (p : MPPtr) (force : bool) (ns : SCOCacheNamespace) : M St unit :=
  let! st := mget in
  let! l := mlift (rfold (fun l '(_, e) =>
    let o := sco st (sco_ e) in
    if negb force && (mntPoint_ o =? p)%nat && negb (disposable_ o) then Throw IOException
    else if 2 <? refcnt_ o + 1 then Throw IOException
    else Ok (l ++ [sco_ e])) [] (entry_list ns)) in
  mmodify (fun st => fold_left (fun st q => intrusive_ptr_add_ref q st) l st) ;!
  miter (fun q => removeSCO_ q false) l ;!
  mmodify (fun st => fold_left (fun st q => intrusive_ptr_release q st) l st).

Definition removeMountPoint_ (path : string) (force : bool) : M St unit :=
  let! st := mget in
  match List.find (fun p => bool_decide (path_ (mp st p) = path)) (mountPoints_ st) with
  | None => mthrow IOException
  | Some p =>
      mthrow_if (negb force && (length (mountPoints_ st) =? 1)%nat) IOException ;!
      miter (fun '(_, ns) => remove_from_namespace p force ns) (namespaces st) ;!
      mmodify (fun st =>
        let cur := if bool_decide (currentMountPoint_ st = Some p)
                   then match next_it (mountPoints_ st) p with
                        | None => head (mountPoints_ st)
                        | it => it
                        end
                   else currentMountPoint_ st in
        set_list (List.filter (fun q => negb (q =? p)%nat) (mountPoints_ st)) cur st)
  end.

Definition removeMountPoint (path : string) : M St unit := removeMountPoint_ path false.

Definition _addMountPoint (cfg : MountPointConfig) (uuid : Z) : M St unit :=
  let! st := mget in
  mthrow_if (hasMountPoint st (cfg_path cfg)) IOException ;!
  let! p := construct cfg false uuid in
  newMountPointStage2 p (mpErrorCount_ st) ;!
  mmodify (fun st => set_list (mountPoints_ st ++ [p]) (currentMountPoint_ st) st) ;!
  miter (fun '(n, _) => on_throw (mp_addNamespace p n) (fun e => removeMountPoint_ (cfg_path cfg) false ;! mthrow e)) (namespaces st) ;!
  mmodify (fun st => if (length (mountPoints_ st) =? 1)%nat then set_list (mountPoints_ st) (head (mountPoints_ st)) st else st).

Definition addMountPoint (cfg : MountPointConfig) (uuid : Z) : M St unit :=
  mmodify (fun st => let q := params st in
    set_params (mkParams (trigger_gap q) (backoff_gap q) (discount_factor q) (datastore_throttle_usecs q) (scocache_mount_points q ++ [cfg])) st) ;!
  _addMountPoint cfg uuid.

(** *** Start *)
Definition ignore {A} (m : M St A) : M St (option A) :=
  on_throw (let! a := m in mret (Some a)) (fun _ => mret None).

(** One configured mount point: the list of restarted ones and of new ones grow. *)
Definition init_one (acc : list MPPtr) (cfg : MountPointConfig) (uuid : Z) : M St (list MPPtr) :=
  let! st := mget in
  let! r := ignore (let! restart := mlift (mp_exists st cfg) in
                    let! p := construct cfg restart uuid in mret (p, restart)) in
  match r with
  | None => mret acc
  | Some (p, true) =>
      mmodify (fun st => set_errcount (Z.max (mpErrorCount_ st) (errcount_ (mp st p)))
                         (set_list (mountPoints_ st ++ [p]) (currentMountPoint_ st) st)) ;!
      mret acc
  | Some (p, false) => mret (acc ++ [p])
  end.

Fixpoint init_all (acc : list MPPtr) (cfgs : list (MountPointConfig * Z)) : M St (list MPPtr) :=
  match cfgs with
  | [] => mret acc
  | (cfg, uuid) :: cfgs => let! acc := init_one acc cfg uuid in init_all acc cfgs
  end.

(** [NewMountPointInitialiser] *)
Fixpoint init_new (l : list MPPtr) : M St (list MPPtr) :=
  match l with
  | [] => mret []
  | p :: l =>
      let! st := mget in
      let! r := ignore (newMountPointStage2 p (mpErrorCount_ st)) in
      let! l := init_new l in
      mret (if r then p :: l else l)
  end.

(** [list::sort] with [MountPointCompare], which is stable, and [list::unique]. *)
Fixpoint insert_uuid (st : St) (p : MPPtr) (l : list MPPtr) : list MPPtr :=
  match l with
  | [] => [p]
  | q :: l' => if uuid_ (mp st p) <? uuid_ (mp st q) then p :: l else q :: insert_uuid st p l'
  end.

Definition sort_uuid (st : St) (l : list MPPtr) : list MPPtr := fold_left (fun s p => insert_uuid st p s) l [].

Fixpoint unique_uuid (st : St) (kept : option MPPtr) (l : list MPPtr) : list MPPtr :=
  match l with
  | [] => []
  | p :: l =>
      match kept with
      | Some q => if uuid_ (mp st q) =? uuid_ (mp st p) then unique_uuid st kept l else p :: unique_uuid st (Some p) l
      | None => p :: unique_uuid st (Some p) l
      end
  end.

Definition initMountPoints_ (uuids : list Z) : M St unit :=
  let! st := mget in
  let! newOnes := init_all [] (zip (scocache_mount_points (params st)) uuids) in
  let! newOnes := init_new newOnes in
  mmodify (fun st => set_list (unique_uuid st None (sort_uuid st (mountPoints_ st ++ newOnes))) (currentMountPoint_ st) st) ;!
  mmodify (fun st => set_list (List.filter (fun p => errcount_ (mp st p) =? mpErrorCount_ st) (mountPoints_ st)) (currentMountPoint_ st) st) ;!
  mmodify (fun st => set_list (mountPoints_ st) (head (mountPoints_ st)) st) ;!
  let! st := mget in
  let n := length (mountPoints_ st) in
  bumpMountPointErrorCount_ offlineMountPoint_ (S n * S n) ;!
  let! st := mget in
  mthrow_if (length (mountPoints_ st) =? 0)%nat IOException.

(** ** Configuration *)
Definition checkParameterConfig (q : Params) : bool :=
  negb (backoff_gap q =? 0) && negb (trigger_gap q =? 0) && negb (backoff_gap q <? trigger_gap q).

(** [std::find] between two iterators: an iterator. *)
Fixpoint std_find (l : list MountPointConfig) (first last : nat) (x : MountPointConfig) : nat :=
  match l, first with
  | [], _ => last
  | y :: l', O => if (last =? 0)%nat then last else if bool_decide (x = y) then 0%nat else S (std_find l' 0 (last - 1) x)
  | _ :: l', S f => S (std_find l' f (last - 1) x)
  end.

(** The new configuration [q] is compared with the present one. *)
Definition checkConfig (st : St) (q : Params) : bool :=
  fold_left (fun result c =>
    if (std_find (scocache_mount_points q) 0 0 c =? length (scocache_mount_points q))%nat then false else result)
    (scocache_mount_points (params st)) (checkParameterConfig q).

Definition update (q : Params) (uuids : list Z) : M St unit :=
  mmodify (fun st => set_params (mkParams (trigger_gap q) (backoff_gap q) (discount_factor q)
                                          (datastore_throttle_usecs (params st)) (scocache_mount_points q)) st) ;!
  miter (fun '(cfg, uuid) =>
    let! st := mget in
    if hasMountPoint st (cfg_path cfg) then mret tt
    else let! _ := ignore (_addMountPoint cfg uuid) in mret tt) (zip (scocache_mount_points q) uuids).

(** The constructor: the heap and the file systems are what they are. *)
Definition SCOCache_init (q : Params) (fss : gmap string Disk) : St :=
  mkSt ∅ ∅ 0 fss [] None ∅ (mkXVals Float.zero XVal.one) 0 [] q.

Definition SCOCache_ (q : Params) (fss : gmap string Disk) (uuids : list Z) : St * res unit :=
  if checkParameterConfig q then initMountPoints_ uuids (SCOCache_init q fss) else (SCOCache_init q fss, Throw IOException).

End SCOCache.
