(* ===== verification/SCOCacheFacts.v ===== *)
(** * Facts about the SCO cache

    Rules for the operations of SCOCache.v, the invariant of the cache and that
    every operation keeps it. *)

From Stdlib Require Import SpecFloat.
From stdpp Require Import sorting.
From S2P Require Import Prelude CheckSum Addressing SCOPool SCOCache.
Import SCOCache.

(** ** Rules: what holds after an operation, if it returns and if it throws *)
Definition wp {A} (m : M St A) (Q : A -> St -> Prop) (E : St -> Prop) (st : St) : Prop :=
  match m st with (st', Ok a) => Q a st' | (st', Throw _) => E st' end.

Section Wp.
Context {A B : Type}.

Lemma wp_ret (a : A) Q E st : Q a st -> wp (mret a) Q E st.
Proof. done. Qed.

Lemma wp_throw e (Q : A -> St -> Prop) (E : St -> Prop) st : E st -> wp (mthrow e) Q E st.
Proof. done. Qed.

Lemma wp_get (Q : St -> St -> Prop) E st : Q st st -> wp mget Q E st.
Proof. done. Qed.

Lemma wp_modify f (Q : unit -> St -> Prop) E st : Q tt (f st) -> wp (mmodify f) Q E st.
Proof. done. Qed.

Lemma wp_lift (r : res A) (Q : A -> St -> Prop) (E : St -> Prop) st :
  match r with Ok a => Q a st | Throw _ => E st end -> wp (mlift r) Q E st.
Proof. unfold wp, mlift. by destruct r. Qed.

Lemma wp_bind (m : M St A) (k : A -> M St B) Q E st :
  wp m (fun a => wp (k a) Q E) E st -> wp (mbind m k) Q E st.
Proof. unfold wp, mbind. by destruct (m st) as [st' []]. Qed.

Lemma wp_mono (m : M St A) (Q Q' : A -> St -> Prop) (E E' : St -> Prop) st :
  wp m Q E st -> (forall a st', Q a st' -> Q' a st') -> (forall st', E st' -> E' st') -> wp m Q' E' st.
Proof. unfold wp. destruct (m st) as [st' []]; auto. Qed.

Lemma wp_on_throw (m : M St A) h Q E st :
  wp m Q (fun st' => forall e, wp (h e) Q E st') st -> wp (on_throw m h) Q E st.
Proof. unfold wp, on_throw. destruct (m st) as [st' [a|e]]; [done|]. intros H. apply H. Qed.

Lemma wp_releasing p (m : M St A) Q (E : St -> Prop) st :
  wp m Q (fun st' => E (intrusive_ptr_release p st')) st -> wp (releasing p m) Q E st.
Proof. intros H. apply wp_on_throw. eapply wp_mono; [exact H|done|]. intros st' H' e. exact H'. Qed.

Lemma wp_throw_if b e Q (E : St -> Prop) st : (b = true -> E st) -> (b = false -> Q tt st) -> wp (mthrow_if b e) Q E st.
Proof. destruct b; unfold wp, mthrow_if; cbn; auto. Qed.

Lemma wp_verify b Q (E : St -> Prop) st : (b = false -> E st) -> (b = true -> Q tt st) -> wp (mverify b) Q E st.
Proof. destruct b; unfold wp, mverify; cbn; auto. Qed.

End Wp.

(** A loop whose body keeps [I]. *)
Lemma wp_iter {A} (f : A -> M St unit) (I : St -> Prop) l st :
  I st -> (forall a st, a ∈ l -> I st -> wp (f a) (fun _ => I) I st) -> wp (miter f l) (fun _ => I) I st.
Proof.
  revert st. induction l as [|a l IH]; intros st H Hf; cbn [miter]; [exact H|].
  apply wp_bind. eapply wp_mono; [apply Hf; [left|exact H]| |done].
  intros u st' H'. apply IH; [exact H'|]. intros b st'' Hb. apply Hf. by right.
Qed.

(** [fst (m st)] satisfies [P], whichever way [m] ends. *)
Abbreviation keeps m P st := (wp m (fun _ => P%function) P%function st).

(** ** The heap *)
Definition same_key (o o' : CachedSCO) : Prop :=
  nspace_ o' = nspace_ o /\ scoName_ o' = scoName_ o /\ mntPoint_ o' = mntPoint_ o.

Definition listed (st : St) (p : nat) (o : CachedSCO) : bool :=
  match find_entry st (nspace_ o) (scoName_ o) with
  | Some e => (sco_ e =? p)%nat
  | None => false
  end.

Fixpoint uses (p : nat) (l : list nat) : Z :=
  match l with
  | [] => 0
  | q :: l => (if (q =? p)%nat then 1 else 0) + uses p l
  end.

(** The invariant; [held] are the references outside of the cache and [x] is the
    mount point that is going offline, if one is. *)
Record wfx (x : option nat) (held : list nat) (st : St) : Prop := mkWf {
  wf_entry : forall n s e, find_entry st n s = Some e ->
    exists o, scos st !! sco_ e = Some o /\ nspace_ o = n /\ scoName_ o = s /\ (mntPoint_ o ∈ mountPoints_ st \/ x = Some (mntPoint_ o));
  wf_refs : forall p o, scos st !! p = Some o -> refcnt_ o = Z.b2z (listed st p o) + uses p held /\ 0 < refcnt_ o;
  wf_held : forall p, p ∈ held -> is_Some (scos st !! p);
  wf_fresh : forall p, (next_ st <= p)%nat -> scos st !! p = None /\ mps st !! p = None;
  wf_list : NoDup (mountPoints_ st);
  wf_online : forall p, p ∈ mountPoints_ st -> x = Some p \/ exists m, mps st !! p = Some m /\ offline_ m = false;
  wf_mp : forall p o, scos st !! p = Some o -> is_Some (mps st !! mntPoint_ o);
  wf_current : forall p, currentMountPoint_ st = Some p -> p ∈ mountPoints_ st \/ x = Some p;
  wf_used : forall p m, mps st !! p = Some m -> 0 <= used_ m <= capacity_ m;
  wf_delete : NoDup (to_delete st) /\ forall p, p ∈ to_delete st -> exists o e, scos st !! p = Some o /\
    find_entry st (nspace_ o) (scoName_ o) = Some e /\ sco_ e = p /\ blocked_ e = true /\ p ∉ held }.
Arguments wf_entry {x} held st _.
Arguments wf_refs {x} held st _.
Arguments wf_held {x} held st _.
Arguments wf_fresh {x} held st _.
Arguments wf_list {x} held st _.
Arguments wf_online {x} held st _.
Arguments wf_mp {x} held st _.
Arguments wf_current {x} held st _.
Arguments wf_used {x} held st _.
Arguments wf_delete {x} held st _.

Abbreviation wf := (wfx None).

Lemma uses_pos p l : 0 <= uses p l.
Proof. induction l as [|q l IH]; cbn; [lia|]. destruct (q =? p)%nat; lia. Qed.

Lemma uses_elem p l : p ∈ l <-> 0 < uses p l.
Proof.
  induction l as [|q l IH]; cbn; [split; [by intros ?%elem_of_nil|lia]|]. rewrite elem_of_cons, IH.
  pose proof (uses_pos p l). destruct (Nat.eqb_spec q p); split; [lia|by left|intros [->|?]; [done|lia]|intros; right; lia].
Qed.

Lemma uses_not p l : p ∉ l <-> uses p l = 0.
Proof. rewrite uses_elem. pose proof (uses_pos p l). lia. Qed.

Lemma sco_lookup st p o : scos st !! p = Some o -> sco st p = o.
Proof. unfold sco. by apply lookup_total_correct. Qed.

Lemma mp_lookup st p m : mps st !! p = Some m -> mp st p = m.
Proof. unfold mp. by apply lookup_total_correct. Qed.

(** ** Changes the invariant does not depend on *)
Definition soft_mp (m m' : MountPoint) : Prop :=
  path_ m' = path_ m /\ capacity_ m' = capacity_ m /\ offline_ m' = offline_ m /\ uuid_ m' = uuid_ m /\
  (0 <= used_ m <= capacity_ m -> 0 <= used_ m' <= capacity_ m).

Definition soft_sco (o o' : CachedSCO) : Prop := same_key o o' /\ refcnt_ o' = refcnt_ o.

Record soft (st st' : St) : Prop := mkSoft {
  soft_mps : forall q, option_relation soft_mp (fun _ => False) (fun _ => False) (mps st !! q) (mps st' !! q);
  soft_scos : forall p, option_relation soft_sco (fun _ => False) (fun _ => False) (scos st !! p) (scos st' !! p);
  soft_next : next_ st' = next_ st;
  soft_list : mountPoints_ st' = mountPoints_ st;
  soft_current : currentMountPoint_ st' = currentMountPoint_ st;
  soft_ns : forall n, is_Some (nsMap_ st' !! n) <-> is_Some (nsMap_ st !! n);
  soft_find : forall n s, find_entry st' n s = find_entry st n s;
  soft_delete : to_delete st' = to_delete st }.

Lemma soft_mp_refl m : soft_mp m m.
Proof. done. Qed.

Lemma soft_sco_refl o : soft_sco o o.
Proof. done. Qed.

Lemma opt_refl {A} (R : A -> A -> Prop) x : (forall a, R a a) -> option_relation R (fun _ => False) (fun _ => False) x x.
Proof. destruct x; cbn; auto. Qed.

Lemma opt_trans {A} (R : A -> A -> Prop) x y z : (forall a b c, R a b -> R b c -> R a c) ->
  option_relation R (fun _ => False) (fun _ => False) x y -> option_relation R (fun _ => False) (fun _ => False) y z ->
  option_relation R (fun _ => False) (fun _ => False) x z.
Proof. intros HR. destruct x, y, z; cbn; try done. apply HR. Qed.

Lemma opt_alter {A} (R : A -> A -> Prop) (m : gmap nat A) f i j : (forall a, R a a) -> (forall a, m !! i = Some a -> R a (f a)) ->
  option_relation R (fun _ => False) (fun _ => False) (m !! j) (alter f i m !! j).
Proof.
  intros Hr Hf. destruct (decide (i = j)) as [->|]; [rewrite lookup_alter_eq|rewrite lookup_alter_ne by done; by apply opt_refl].
  destruct (m !! j) eqn:E; cbn; [by apply Hf|done].
Qed.

#[global] Instance soft_refl : Reflexive soft.
Proof. intros st. split; try done; intros; apply opt_refl; done. Qed.

#[global] Instance soft_trans : Transitive soft.
Proof.
  intros a b c [] []. split; try congruence.
  - intros q. eapply opt_trans; [|done|done]. intros m1 m2 m3. unfold soft_mp. intros (-> & -> & -> & -> & H1) (-> & -> & -> & -> & H2). auto 10.
  - intros p. eapply opt_trans; [|done|done]. intros o1 o2 o3. unfold soft_sco, same_key. intuition congruence.
  - intros n. by rewrite soft_ns1.
Qed.

Lemma soft_lookup_sco st st' p o' : soft st st' -> scos st' !! p = Some o' ->
  exists o, scos st !! p = Some o /\ same_key o o' /\ refcnt_ o' = refcnt_ o.
Proof. intros H E. pose proof (soft_scos _ _ H p) as R. rewrite E in R. destruct (scos st !! p) as [o|]; [|done]. by exists o. Qed.

Lemma soft_lookup_sco_r st st' p o : soft st st' -> scos st !! p = Some o ->
  exists o', scos st' !! p = Some o' /\ same_key o o' /\ refcnt_ o' = refcnt_ o.
Proof. intros H E. pose proof (soft_scos _ _ H p) as R. rewrite E in R. destruct (scos st' !! p) as [o'|]; [|done]. by exists o'. Qed.

Lemma soft_lookup_mp st st' q m' : soft st st' -> mps st' !! q = Some m' -> exists m, mps st !! q = Some m /\ soft_mp m m'.
Proof. intros H E. pose proof (soft_mps _ _ H q) as R. rewrite E in R. destruct (mps st !! q) as [m|]; [|done]. by exists m. Qed.

Lemma soft_lookup_mp_r st st' q m : soft st st' -> mps st !! q = Some m -> exists m', mps st' !! q = Some m' /\ soft_mp m m'.
Proof. intros H E. pose proof (soft_mps _ _ H q) as R. rewrite E in R. destruct (mps st' !! q) as [m'|]; [|done]. by exists m'. Qed.

Lemma soft_listed st st' p o o' : soft st st' -> same_key o o' -> listed st' p o' = listed st p o.
Proof. intros H (Hn & Hs & _). unfold listed. by rewrite Hn, Hs, (soft_find _ _ H). Qed.

Section WfSoft.
Context {x : option nat}.
#[local] Abbreviation wf := (wfx x).

Lemma wf_soft held st st' : soft st st' -> wf held st -> wf held st'.
Proof.
  intros HS []. split.
  - intros n s e He. rewrite (soft_find _ _ HS) in He. destruct (wf_entry0 _ _ _ He) as (o & Ho & Hn & Hs & Hm).
    destruct (soft_lookup_sco_r _ _ _ _ HS Ho) as (o' & Ho' & (Hn' & Hs' & Hm') & _). exists o'. rewrite (soft_list _ _ HS), Hn', Hs', Hm'. auto.
  - intros p o' Ho'. destruct (soft_lookup_sco _ _ _ _ HS Ho') as (o & Ho & Hk & ->). rewrite (soft_listed _ _ _ _ _ HS Hk). auto.
  - intros p Hp. destruct (wf_held0 p Hp) as [o Ho]. destruct (soft_lookup_sco_r _ _ _ _ HS Ho) as (o' & Ho' & _). by exists o'.
  - intros p Hp. rewrite (soft_next _ _ HS) in Hp. destruct (wf_fresh0 p Hp) as [H1 H2].
    pose proof (soft_mps _ _ HS p) as R1. pose proof (soft_scos _ _ HS p) as R2. rewrite H1 in R2. rewrite H2 in R1.
    by destruct (mps st' !! p), (scos st' !! p).
  - by rewrite (soft_list _ _ HS).
  - intros q Hq. rewrite (soft_list _ _ HS) in Hq. destruct (wf_online0 q Hq) as [?|(m & Hm & Ho)]; [by left|right].
    destruct (soft_lookup_mp_r _ _ _ _ HS Hm) as (m' & Hm' & R). exists m'. destruct R as (_ & _ & -> & _). done.
  - intros p o' Ho'. destruct (soft_lookup_sco _ _ _ _ HS Ho') as (o & Ho & (_ & _ & ->) & _).
    destruct (wf_mp0 p o Ho) as [m Hm]. destruct (soft_lookup_mp_r _ _ _ _ HS Hm) as (m' & Hm' & _). by exists m'.
  - intros p Hp. rewrite (soft_current _ _ HS) in Hp. rewrite (soft_list _ _ HS). auto.
  - intros q m' Hm'. destruct (soft_lookup_mp _ _ _ _ HS Hm') as (m & Hm & (_ & -> & _ & _ & Hu)). apply Hu. by apply (wf_used0 q m).
  - rewrite (soft_delete _ _ HS). destruct wf_delete0 as [Hnd Hd]. split; [done|]. intros p Hp.
    destruct (Hd p Hp) as (o & e & Ho & He & Hrest). destruct (soft_lookup_sco_r _ _ _ _ HS Ho) as (o' & Ho' & (Hn & Hs & _) & _).
    exists o', e. rewrite Hn, Hs, (soft_find _ _ HS). auto.
Qed.

End WfSoft.

Ltac soft_field := intros; (reflexivity || apply opt_refl; (exact soft_mp_refl || exact soft_sco_refl)).

Lemma soft_on_mp p f st : (forall m, mps st !! p = Some m -> soft_mp m (f m)) -> soft st (on_mp p f st).
Proof. intros Hf. split; try soft_field. intros q. cbn. apply opt_alter; [exact soft_mp_refl|exact Hf]. Qed.

Lemma soft_on_sco p f st : (forall o, scos st !! p = Some o -> soft_sco o (f o)) -> soft st (on_sco p f st).
Proof. intros Hf. split; try soft_field. intros q. cbn. apply opt_alter; [exact soft_sco_refl|exact Hf]. Qed.

Lemma soft_on_disk p f st : soft st (on_disk p f st).
Proof. split; soft_field. Qed.

Lemma soft_set_disks d st : soft st (set_disks d st).
Proof. split; soft_field. Qed.

Lemma soft_set_xvals x st : soft st (set_xvals x st).
Proof. split; soft_field. Qed.

Lemma soft_set_errcount x st : soft st (set_errcount x st).
Proof. split; soft_field. Qed.

Lemma soft_set_params x st : soft st (set_params x st).
Proof. split; soft_field. Qed.

Lemma soft_on_ns n f st : (forall ns, entries (f ns) = entries ns) -> soft st (on_ns n f st).
Proof.
  intros Hf. split; try soft_field.
  - intros k. cbn. destruct (decide (n = k)) as [->|]; [rewrite lookup_alter_eq|by rewrite lookup_alter_ne].
    destruct (nsMap_ st !! k); cbn; split; intros [? [=]]; by eexists.
  - intros k s. unfold find_entry. cbn. destruct (decide (n = k)) as [->|]; [rewrite lookup_alter_eq|by rewrite lookup_alter_ne].
    destruct (nsMap_ st !! k) as [ns|]; cbn; [by rewrite Hf|done].
Qed.

#[export] Hint Resolve soft_on_disk soft_set_disks soft_set_xvals soft_set_errcount soft_set_params : vd.

Lemma s64_u64 z : u64 (s64 z) = u64 z.
Proof. unfold s64, wrap. destruct (z mod 2 ^ 64 <? 2 ^ 63); [apply Zmod_mod|]. rewrite Zminus_mod, Z_mod_same_full, Z.sub_0_r, !Zmod_mod. done. Qed.

Lemma soft_updateUsedSize p d st : keeps (updateUsedSize p d) (soft st) st.
Proof.
  unfold wp, updateUsedSize. destruct (0 <=? d).
  - destruct (Z.leb_spec (u64 (used_ (mp st p) + d)) (capacity_ (mp st p))) as [H|]; [|reflexivity].
    apply soft_on_mp. intros m Hm. rewrite (mp_lookup _ _ _ Hm) in *. repeat split; cbn; [|done].
    apply wrap_fits. lia.
  - destruct (Z.leb_spec (u64 (s64 (- d))) (used_ (mp st p))) as [H|]; [|reflexivity].
    apply soft_on_mp. intros m Hm. rewrite (mp_lookup _ _ _ Hm) in *. repeat split; cbn; [apply wrap_fits; lia|].
    rewrite <- wrap_sub_r. pose proof (wrap_fits 64 (s64 (- d)) ltac:(lia)) as [Hx _].
    set (x := u64 (s64 (- d))) in *. etrans; [apply Z.mod_le; lia|]. lia.
Qed.

Lemma soft_addToGarbage o st : keeps (addToGarbage o) (soft st) st.
Proof. unfold wp, addToGarbage. destruct (_ && _); [apply soft_on_disk|reflexivity]. Qed.

(** ** References *)

(** What the destructor does to the rest of the cache. *)
Lemma destroy_shape p st : exists st', soft st st' /\ scos st' = scos st /\
  destroy_sco p st = set_to_delete (List.filter (fun q => negb (q =? p)%nat) (to_delete st)) (set_scos (delete p (scos st)) st').
Proof.
  unfold destroy_sco. destruct (unlink_on_destruction_ (sco st p)); [|by exists st].
  set (m := addToGarbage _ ;! _). assert (soft st (fst (m st)) /\ scos (fst (m st)) = scos st) as [HS HE].
  { unfold m, mbind, addToGarbage. destruct (_ && _); [|done]. cbn.
    set (st1 := on_disk _ _ st). pose proof (soft_updateUsedSize (mntPoint_ (sco st p)) (s64 (- size_ (sco st p))) st1) as HU.
    unfold wp in HU. assert (scos (fst (updateUsedSize (mntPoint_ (sco st p)) (s64 (- size_ (sco st p))) st1)) = scos st) as HE.
    { unfold updateUsedSize. by repeat case_match. }
    destruct (updateUsedSize _ _ st1) as [st2 []]; cbn in *; split; try done; (etrans; [apply soft_on_disk|exact HU]). }
  exists (fst (m st)). rewrite (soft_delete _ _ HS), HE. done.
Qed.

Lemma uses_cons_eq p l : uses p (p :: l) = 1 + uses p l.
Proof. cbn. by rewrite Nat.eqb_refl. Qed.

Lemma uses_cons_ne p q l : q <> p -> uses p (q :: l) = uses p l.
Proof. intros. cbn. by rewrite (proj2 (Nat.eqb_neq _ _)). Qed.

Section WfRefs.
Context {x : option nat}.
#[local] Abbreviation wf := (wfx x).

(** A change of the references held, and of the counts accordingly. *)
Lemma wf_recount held held' f p st :
  wf held st -> (forall o, same_key o (f o)) ->
  (forall o, scos st !! p = Some o -> refcnt_ (f o) = Z.b2z (listed st p o) + uses p held' /\ 0 < refcnt_ (f o)) ->
  (forall q, q <> p -> uses q held' = uses q held) ->
  is_Some (scos st !! p) -> (p ∈ held' -> p ∉ to_delete st) ->
  wf held' (on_sco p f st).
Proof.
  intros [] Hf Hr Hu Hp Hd.
  assert (forall q o', scos (on_sco p f st) !! q = Some o' -> exists o, scos st !! q = Some o /\ same_key o o' /\
    (q <> p -> refcnt_ o' = refcnt_ o) /\ (q = p -> o' = f o)) as HL.
  { intros q o'. cbn. destruct (decide (p = q)) as [<-|Hne]; [rewrite lookup_alter_eq|rewrite lookup_alter_ne by done].
    - destruct (scos st !! p) as [o|]; cbn; [|done]. intros [= <-]. exists o. split_and!; [done|apply Hf|done|done].
    - intros H. exists o'. split_and!; [done|done|done|congruence]. }
  assert (forall q o, scos st !! q = Some o -> exists o', scos (on_sco p f st) !! q = Some o' /\ same_key o o') as HR.
  { intros q o H. cbn. destruct (decide (p = q)) as [<-|Hne]; [rewrite lookup_alter_eq, H|rewrite lookup_alter_ne, H by done]; eexists; done. }
  split; try done.
  - intros n s e He. destruct (wf_entry0 n s e He) as (o & Ho & Hn & Hs & Hm). destruct (HR _ _ Ho) as (o' & Ho' & Hn' & Hs' & Hm').
    exists o'. cbn. rewrite Hn', Hs', Hm'. auto.
  - intros q o' Ho'. destruct (HL _ _ Ho') as (o & Ho & (Hn & Hs & _) & H1 & H2).
    replace (listed _ q o') with (listed st q o) by (unfold listed; rewrite Hn, Hs; done).
    destruct (decide (q = p)) as [->|Hne]; [rewrite (H2 eq_refl); auto|]. rewrite (H1 Hne), (Hu q Hne). auto.
  - intros q Hq. apply uses_elem in Hq. destruct (decide (q = p)) as [->|Hne].
    + destruct Hp as [o Ho]. destruct (HR _ _ Ho) as (o' & Ho' & _). by exists o'.
    + rewrite (Hu q Hne) in Hq. apply uses_elem in Hq. destruct (wf_held0 q Hq) as [o Ho]. destruct (HR _ _ Ho) as (o' & Ho' & _). by exists o'.
  - intros q Hq. cbn in Hq. destruct (wf_fresh0 q Hq) as [H1 H2]. split; [|done]. cbn. destruct (decide (p = q)) as [<-|Hne]; [|by rewrite lookup_alter_ne].
    by rewrite lookup_alter_eq, H1.
  - intros q o' Ho'. destruct (HL _ _ Ho') as (o & Ho & (_ & _ & Hm) & _). rewrite Hm. apply (wf_mp0 q o Ho).
  - destruct wf_delete0 as [Hnd Hdel]. split; [done|]. intros q Hq. destruct (Hdel q Hq) as (o & e & Ho & He & Hs & Hb & Hh).
    destruct (HR _ _ Ho) as (o' & Ho' & Hn & Hs' & _). exists o', e. rewrite Hn, Hs'. repeat split; try done.
    intros Hq'. destruct (decide (q = p)) as [->|Hne]; [by apply Hd in Hq'|]. apply uses_elem in Hq'. rewrite (Hu q Hne) in Hq'. by apply uses_elem in Hq'.
Qed.

Lemma wf_add_ref held p st : wf held st -> is_Some (scos st !! p) -> p ∉ to_delete st -> wf (p :: held) (intrusive_ptr_add_ref p st).
Proof.
  intros H Hp Hd. eapply wf_recount; [exact H|done| |intros; by apply uses_cons_ne|done|done].
  intros o Ho. cbn [refcnt_ with_refcnt]. destruct (wf_refs _ _ H p o Ho) as [-> Hpos]. rewrite uses_cons_eq. pose proof (uses_pos p held). destruct (listed st p o); cbn; lia.
Qed.


(** An object that is not listed, not held and not to be deleted may die. *)
Lemma wf_destroy held p st :
  (forall f, (forall o, same_key o (f o) /\ refcnt_ (f o) = 1) -> wf (p :: held) (on_sco p f st)) ->
  (forall o, scos st !! p = Some o -> listed st p o = false) -> p ∉ held -> wf held (destroy_sco p st).
Proof.
  intros H Hl Hh. destruct (destroy_shape p st) as (st' & HS & HE & ->).
  assert (wf (p :: held) (on_sco p (with_refcnt 1) st)) as H1 by (apply H; done).
  assert (soft (on_sco p (with_refcnt 1) st) (on_sco p (with_refcnt 1) st')) as HS1.
  { destruct HS. split; try done. intros q. cbn. rewrite HE. by apply opt_refl. }
  apply (wf_soft _ _ _ HS1) in H1. clear HS1 H.
  assert (forall q o, (delete p (scos st) : gmap nat CachedSCO) !! q = Some o -> q <> p /\ scos (on_sco p (with_refcnt 1) st') !! q = Some o) as HL.
  { intros q o [Hne Hq]%lookup_delete_Some. cbn. rewrite HE, lookup_alter_ne by congruence. auto. }
  assert (forall q o, scos (on_sco p (with_refcnt 1) st') !! q = Some o -> q <> p -> (delete p (scos st) : gmap nat CachedSCO) !! q = Some o) as HR.
  { intros q o Hq Hne. cbn in Hq. rewrite HE, lookup_alter_ne in Hq by congruence. by rewrite lookup_delete_ne by congruence. }
  assert (forall n s e, find_entry st' n s = Some e -> sco_ e <> p) as HE'.
  { intros n s e He Hp. destruct (wf_entry _ _ H1 n s e He) as (o & Ho & Hn & Hs & _). cbn in Ho. rewrite HE, Hp, lookup_alter_eq in Ho.
    destruct (scos st !! p) as [o0|] eqn:Eo; [|done]. injection Ho as <-. specialize (Hl _ eq_refl). unfold listed in Hl. cbn in Hn, Hs.
    rewrite <- (soft_find _ _ HS), Hn, Hs, He in Hl. apply Nat.eqb_neq in Hl. done. }
  destruct H1. split; cbn [scos mps next_ mountPoints_ currentMountPoint_ to_delete set_to_delete set_scos]; try done.
  - intros n s e He. change (find_entry st' n s = Some e) in He. destruct (wf_entry0 n s e He) as (o & Ho & Hrest). exists o. split; [|done].
    apply HR; [done|]. by eapply HE'.
  - intros q o [Hne Hq]%HL. destruct (wf_refs0 q o Hq) as [Hr Hpos]. rewrite uses_cons_ne in Hr by congruence. split; [exact Hr|exact Hpos].
  - intros q Hq. destruct (decide (q = p)) as [->|Hne]; [done|]. destruct (wf_held0 q ltac:(by right)) as [o Ho]. exists o. by apply HR.
  - intros q Hq. destruct (wf_fresh0 q Hq) as [H1 H2]. split; [|done]. cbn in H1. rewrite HE in H1. destruct (decide (q = p)) as [->|]; [by rewrite lookup_delete_eq|].
    rewrite lookup_alter_ne in H1 by congruence. by rewrite lookup_delete_ne by congruence.
  - intros q o [Hne Hq]%HL. apply (wf_mp0 q o Hq).
  - destruct wf_delete0 as [Hnd Hd]. cbn in Hnd, Hd. rewrite (soft_delete _ _ HS) in *. split.
    + eapply sublist_NoDup; [exact Hnd|apply lfilter_sublist].
    + intros q [Hq Hne]%elem_of_lfilter. apply negb_true_iff, Nat.eqb_neq in Hne. destruct (Hd q Hq) as (o & e & Ho & He & Hs & Hb & Hnh).
      exists o, e. split_and!; try done; [by apply HR|]. intros ?. apply Hnh. by right.
Qed.

Lemma on_sco_twice p f g st : on_sco p f (on_sco p g st) = on_sco p (fun o => f (g o)) st.
Proof. unfold on_sco, set_scos. cbn. f_equal. apply map_eq. intros q. destruct (decide (p = q)) as [->|]; [rewrite !lookup_alter_eq; by destruct (scos st !! q)|by rewrite !lookup_alter_ne]. Qed.

Lemma wf_release held p st : wf (p :: held) st -> wf held (intrusive_ptr_release p st).
Proof.
  intros H. assert (p ∉ to_delete st) as Hd. { intros Hd. destruct (proj2 (wf_delete _ _ H) p Hd) as (? & ? & _ & _ & _ & _ & Hn). apply Hn. left. }
  destruct (wf_held _ _ H p ltac:(left)) as [o Ho]. destruct (wf_refs _ _ H p o Ho) as [Hr Hpos]. rewrite uses_cons_eq in Hr.
  unfold intrusive_ptr_release. set (f := fun o => with_refcnt (refcnt_ o - 1) o).
  assert (sco (on_sco p f st) p = f o) as ->. { apply sco_lookup. cbn. by rewrite lookup_alter_eq, Ho. }
  cbn [f with_refcnt refcnt_]. pose proof (uses_pos p held). destruct (Z.eqb_spec (refcnt_ o - 1) 0) as [E|E].
  - assert (listed st p o = false /\ uses p held = 0) as [Hl Hu] by (destruct (listed st p o); cbn in Hr; [lia|split; [done|lia]]).
    apply wf_destroy; [|intros o' Ho'|by apply uses_not].
    + intros g Hg. rewrite on_sco_twice. eapply wf_recount; [exact H|intros o'; exact (proj1 (Hg (f o')))| |done|done|done].
      intros o' Ho'. destruct (Hg (f o')) as [_ ->]. rewrite Ho in Ho'. injection Ho' as <-. rewrite Hl, uses_cons_eq, Hu. cbn. lia.
    + cbn in Ho'. rewrite lookup_alter_eq, Ho in Ho'. injection Ho' as <-. exact Hl.
  - eapply wf_recount; [exact H|done| |intros q Hq; by rewrite uses_cons_ne|done|done].
    intros o' Ho'. rewrite Ho in Ho'. injection Ho' as <-. unfold f. cbn. destruct (listed st p o); cbn in *; lia.
Qed.

End WfRefs.

(** ** Entries *)
Definition erase_entry (n : string) (s : SCO.SCO) : St -> St := on_ns n (fun ns => with_entries (delete s (entries ns)) ns).
Definition insert_entry (n : string) (s : SCO.SCO) (e : SCOCacheNamespaceEntry) : St -> St :=
  on_ns n (fun ns => with_entries (<[s := e]> (entries ns)) ns).

Lemma find_on_ns n f st k s : find_entry (on_ns n f st) k s =
  if bool_decide (n = k) then nsMap_ st !! n ≫= (fun ns => entries (f ns) !! s) else find_entry st k s.
Proof.
  unfold find_entry. cbn. case_bool_decide as H; [subst k; rewrite lookup_alter_eq|by rewrite lookup_alter_ne].
  by destruct (nsMap_ st !! n).
Qed.

Lemma find_erase n s st k t : find_entry (erase_entry n s st) k t =
  if bool_decide (n = k /\ s = t) then None else find_entry st k t.
Proof.
  unfold erase_entry. rewrite find_on_ns. repeat case_bool_decide; unfold find_entry; destruct_and?; subst; try done.
  - destruct (nsMap_ st !! k); cbn; [|done]. by rewrite lookup_delete_eq.
  - destruct (nsMap_ st !! k); cbn; [|done]. rewrite lookup_delete_ne; [done|]. intros ->. naive_solver.
Qed.

Lemma find_insert_entry n s e st k t : is_Some (nsMap_ st !! n) -> find_entry (insert_entry n s e st) k t =
  if bool_decide (n = k /\ s = t) then Some e else find_entry st k t.
Proof.
  intros [ns Hns]. unfold insert_entry. rewrite find_on_ns. repeat case_bool_decide; unfold find_entry; destruct_and?; subst; try done.
  - rewrite Hns; cbn. by rewrite lookup_insert_eq.
  - rewrite Hns; cbn. rewrite lookup_insert_ne; [done|]. intros ->. naive_solver.
Qed.

Lemma find_setBlocked n s b st k t : find_entry (setBlocked n s b st) k t =
  if bool_decide (n = k /\ s = t) then (fun e => mkEntry (sco_ e) b) <$> find_entry st k t else find_entry st k t.
Proof.
  unfold setBlocked. rewrite find_on_ns. repeat case_bool_decide; unfold find_entry; destruct_and?; subst; try done.
  - destruct (nsMap_ st !! k); cbn; [|done]. by rewrite lookup_alter_eq.
  - destruct (nsMap_ st !! k); cbn; [|done]. rewrite lookup_alter_ne; [done|]. intros ->. naive_solver.
Qed.

Section WfDelete.
Context {x : option nat}.
#[local] Abbreviation wf := (wfx x).

Lemma wf_sub_delete held l st : l `sublist_of` to_delete st -> wf held st -> wf held (set_to_delete l st).
Proof.
  intros Hl []. split; try done. destruct wf_delete0 as [Hnd Hd]. split; [by eapply sublist_NoDup|].
  intros p Hp. apply Hd. by eapply elem_of_sublist.
Qed.

End WfDelete.

(** What an operation does not look at. *)
Definition blind (g : St -> St) (m : M St unit) : Prop := forall st, m (g st) = (g (fst (m st)), snd (m st)).

Lemma bind_blind g m k : blind g m -> blind g k -> blind g (m ;! k).
Proof. intros Hm Hk st. unfold mbind. rewrite Hm. destruct (m st) as [st' [[]|e]]; cbn; [apply Hk|done]. Qed.

Lemma garbage_blind l o : blind (set_to_delete l) (addToGarbage o).
Proof. intros st. unfold addToGarbage. change (disk (set_to_delete l st)) with (disk st). change (file_of (set_to_delete l st)) with (file_of st). by destruct (_ && _). Qed.

Lemma used_blind l p d : blind (set_to_delete l) (updateUsedSize p d).
Proof.
  intros st. unfold updateUsedSize. change (mp (set_to_delete l st)) with (mp st).
  destruct (0 <=? d); [by destruct (u64 (used_ (mp st p) + d) <=? capacity_ (mp st p))|by destruct (u64 (s64 (- d)) <=? used_ (mp st p))].
Qed.

Lemma destroy_set_to_delete l p st :
  destroy_sco p (set_to_delete l st) = set_to_delete (List.filter (fun q => negb (q =? p)%nat) l) (destroy_sco p st).
Proof.
  unfold destroy_sco. change (sco (set_to_delete l st) p) with (sco st p). destruct (unlink_on_destruction_ (sco st p)); [|done].
  rewrite (bind_blind _ _ _ (garbage_blind _ _) (used_blind _ _ _)). done.
Qed.

Lemma release_set_to_delete l p st :
  intrusive_ptr_release p (set_to_delete l st) =
  set_to_delete (if refcnt_ (sco st p) - 1 =? 0 then List.filter (fun q => negb (q =? p)%nat) l else l) (intrusive_ptr_release p st)
  \/ scos st !! p = None.
Proof.
  destruct (scos st !! p) as [o|] eqn:Ho; [left|by right]. unfold intrusive_ptr_release.
  set (f := fun o => with_refcnt (refcnt_ o - 1) o).
  assert (sco (on_sco p f st) p = f o) as E by (apply sco_lookup; cbn; by rewrite lookup_alter_eq, Ho).
  assert (sco (on_sco p f (set_to_delete l st)) p = f o) as E' by (apply sco_lookup; cbn; by rewrite lookup_alter_eq, Ho).
  rewrite E, E', (sco_lookup _ _ _ Ho). cbn [f with_refcnt refcnt_]. destruct (_ =? 0); [|done].
  change (on_sco p f (set_to_delete l st)) with (set_to_delete l (on_sco p f st)). apply destroy_set_to_delete.
Qed.

Section WfEntries.
Context {x : option nat}.
#[local] Abbreviation wf := (wfx x).

(** Taking an entry out of its namespace turns its reference into one that is held. *)
Lemma wf_unlist held n s e st : wf held st -> find_entry st n s = Some e -> sco_ e ∉ to_delete st ->
  wf (sco_ e :: held) (erase_entry n s st).
Proof.
  intros H He Hd. destruct H. destruct (wf_entry0 n s e He) as (o & Ho & Hn & Hs & Hm). set (p := sco_ e) in *.
  split; try done.
  - intros k t e' He'. rewrite find_erase in He'. case_bool_decide; [done|]. exact (wf_entry0 k t e' He').
  - intros q o' Ho'. change (scos st !! q = Some o') in Ho'. destruct (wf_refs0 q o' Ho') as [Hr Hpos]. split; [|done].
    rewrite Hr. unfold listed. rewrite find_erase. destruct (decide (q = p)) as [->|Hne].
    + rewrite Ho in Ho'. injection Ho' as <-. rewrite uses_cons_eq, Hn, Hs, He, bool_decide_true by done. fold p. rewrite Nat.eqb_refl. cbn. lia.
    + rewrite uses_cons_ne by congruence. case_bool_decide as Hk; [|done]. destruct Hk as [<- <-]. rewrite He. fold p.
      by rewrite (proj2 (Nat.eqb_neq p q)) by congruence.
  - intros q [->|Hq]%elem_of_cons; [by exists o|by apply wf_held0].
  - destruct wf_delete0 as [Hnd Hdel]. split; [done|]. intros q Hq. change (q ∈ to_delete st) in Hq.
    destruct (Hdel q Hq) as (o' & e' & Ho' & He' & Hs' & Hb' & Hh'). exists o', e'.
    rewrite find_erase. rewrite bool_decide_false.
    + split_and!; try done. rewrite not_elem_of_cons. split; [congruence|done].
    + intros [Hk1 Hk2]. rewrite <- Hk1, <- Hk2, He in He'. injection He' as <-. apply Hd. unfold p. by rewrite Hs'.
Qed.

Lemma wf_ns_erase held n s st : wf held st -> wf held (ns_erase n s st).
Proof.
  intros H. unfold ns_erase. destruct (find_entry st n s) as [e|] eqn:He; [|done]. fold (erase_entry n s st).
  destruct (wf_entry _ _ H n s e He) as (o & Ho & Hn & Hs & Hm). set (p := sco_ e) in *.
  destruct (decide (p ∈ to_delete st)) as [Hd|Hd]; [|apply wf_release; by apply wf_unlist].
  destruct (proj2 (wf_delete _ _ H) p Hd) as (o' & e' & Ho' & He' & Hs' & Hb' & Hh'). rewrite Ho in Ho'. injection Ho' as <-.
  set (l := List.filter (fun q => negb (q =? p)%nat) (to_delete st)).
  assert (wf held (set_to_delete l st)) as H' by (apply wf_sub_delete; [apply lfilter_sublist|done]).
  assert (p ∉ l) as Hl. { intros [_ Hl]%elem_of_lfilter. by rewrite Nat.eqb_refl in Hl. }
  pose proof (wf_release _ _ _ (wf_unlist _ _ _ e _ H' He Hl)) as HW. change (erase_entry n s (set_to_delete l st)) with (set_to_delete l (erase_entry n s st)) in HW. fold p in HW.
  destruct (release_set_to_delete l p (erase_entry n s st)) as [E|E]; [|change (scos st !! p = None) in E; congruence].
  rewrite E in HW. destruct (wf_refs _ _ H p o Ho) as [Hr _].
  assert (listed st p o = true) as Hlist. { unfold listed. rewrite He', Hs'. apply Nat.eqb_refl. }
  rewrite Hlist, (proj1 (uses_not _ _) Hh') in Hr. cbn in Hr.
  change (sco (erase_entry n s st) p) with (sco st p) in HW. rewrite (sco_lookup _ _ _ Ho), Hr in HW. cbn in HW.
  destruct (release_set_to_delete (to_delete st) p (erase_entry n s st)) as [E2|E2]; [|change (scos st !! p = None) in E2; congruence].
  change (sco (erase_entry n s st) p) with (sco st p) in E2. rewrite (sco_lookup _ _ _ Ho), Hr in E2. cbn in E2.
  replace (set_to_delete (to_delete st) (erase_entry n s st)) with (erase_entry n s st) in E2 by (by destruct st). rewrite E2.
  replace (List.filter (fun q => negb (q =? p)%nat) l) with l in HW; [done|]. symmetry. unfold l. apply lfilter_all. by intros q [_ Hq]%elem_of_lfilter.
Qed.

Lemma wf_setBlocked_true held n s st : wf held st -> wf held (setBlocked n s true st).
Proof.
  intros []. split; try done.
  - intros k t e He. rewrite find_setBlocked in He. case_bool_decide; [|by apply wf_entry0].
    destruct (find_entry st k t) as [e'|] eqn:E; [|done]. injection He as <-. by apply (wf_entry0 k t e').
  - intros q o Ho. destruct (wf_refs0 q o Ho) as [Hr Hpos]. split; [|done]. rewrite Hr. unfold listed. rewrite find_setBlocked.
    case_bool_decide; [|done]. by destruct (find_entry st (nspace_ o) (scoName_ o)).
  - destruct wf_delete0 as [Hnd Hd]. split; [done|]. intros q Hq. destruct (Hd q Hq) as (o & e & Ho & He & Hs & Hb & Hh).
    exists o. rewrite find_setBlocked, He. case_bool_decide; eexists; split_and!; try done.
Qed.

(** Unblocking an entry that is not being deleted. *)
Lemma wf_setBlocked_false held n s st : wf held st -> (forall e, find_entry st n s = Some e -> sco_ e ∉ to_delete st) ->
  wf held (setBlocked n s false st).
Proof.
  intros [] Hno. split; try done.
  - intros k t e He. rewrite find_setBlocked in He. case_bool_decide; [|by apply wf_entry0].
    destruct (find_entry st k t) as [e'|] eqn:E; [|done]. injection He as <-. by apply (wf_entry0 k t e').
  - intros q o Ho. destruct (wf_refs0 q o Ho) as [Hr Hpos]. split; [|done]. rewrite Hr. unfold listed. rewrite find_setBlocked.
    case_bool_decide; [|done]. by destruct (find_entry st (nspace_ o) (scoName_ o)).
  - destruct wf_delete0 as [Hnd Hd]. split; [done|]. intros q Hq. destruct (Hd q Hq) as (o & e & Ho & He & Hs & Hb & Hh).
    exists o, e. rewrite find_setBlocked, bool_decide_false; [done|]. intros [-> ->]. apply (Hno e He). by rewrite Hs.
Qed.

(** A new entry takes over a reference. *)
Lemma wf_list_entry held p o b st : wf (p :: held) st -> scos st !! p = Some o -> find_entry st (nspace_ o) (scoName_ o) = None ->
  is_Some (nsMap_ st !! nspace_ o) -> mntPoint_ o ∈ mountPoints_ st ->
  wf held (insert_entry (nspace_ o) (scoName_ o) (mkEntry p b) st).
Proof.
  intros [] Ho He Hns Hm. split; try done.
  - intros k t e. rewrite find_insert_entry by done. case_bool_decide as Hk; [|apply wf_entry0]. destruct Hk as [<- <-].
    intros [= <-]. exists o. auto.
  - intros q o' Ho'. change (scos st !! q = Some o') in Ho'. destruct (wf_refs0 q o' Ho') as [Hr Hpos]. split; [|done].
    rewrite Hr. unfold listed. rewrite find_insert_entry by done. destruct (decide (q = p)) as [->|Hne].
    + rewrite Ho in Ho'. injection Ho' as <-. rewrite uses_cons_eq, He, bool_decide_true by done. cbn. rewrite Nat.eqb_refl. cbn. lia.
    + rewrite uses_cons_ne by congruence. case_bool_decide as Hk; [|done]. destruct Hk as [<- <-]. rewrite He. cbn [sco_].
      by rewrite (proj2 (Nat.eqb_neq p q)) by congruence.
  - intros q Hq. apply wf_held0. by right.
  - destruct wf_delete0 as [Hnd Hd]. split; [done|]. intros q Hq. destruct (Hd q Hq) as (o' & e & Ho' & He' & Hs & Hb & Hh).
    exists o', e. rewrite find_insert_entry, bool_decide_false by (done || (intros [Hk1 Hk2]; congruence)). split_and!; try done.
    intros Hq'. apply Hh. by right.
Qed.

Lemma wf_new_object held o st : wf held st -> refcnt_ o = 1 -> is_Some (mps st !! mntPoint_ o) ->
  wp (new_object o) (fun p st' => p = next_ st /\ wf (p :: held) st' /\ st' = set_next (S p) (set_scos (<[p := o]> (scos st)) st)) (fun _ => False) st.
Proof.
  intros H Hr Hm. unfold wp, new_object. split_and!; try done. set (p := next_ st).
  destruct (wf_fresh _ _ H p ltac:(done)) as [Hp _].
  assert (forall n s e, find_entry st n s = Some e -> sco_ e <> p) as HE.
  { intros n s e He E. destruct (wf_entry _ _ H n s e He) as (o' & Ho' & _). rewrite E in Ho'. congruence. }
  assert (uses p held = 0) as Hu. { apply uses_not. intros Hh. destruct (wf_held _ _ H p Hh) as [? ?]. congruence. }
  destruct H. split; try done; cbn [scos mps next_ set_next set_scos].
  - intros n s e He. destruct (wf_entry0 n s e He) as (o' & Ho' & Hrest). exists o'. split; [|done].
    rewrite lookup_insert_ne; [done|]. intros E. by eapply HE.
  - intros q o' Ho'. destruct (decide (q = p)) as [->|Hne].
    + rewrite lookup_insert_eq in Ho'. injection Ho' as <-. rewrite uses_cons_eq, Hu, Hr.
      replace (listed _ p o) with false; [cbn; lia|]. symmetry. unfold listed. change (find_entry _ (nspace_ o) (scoName_ o)) with (find_entry st (nspace_ o) (scoName_ o)).
      destruct (find_entry st (nspace_ o) (scoName_ o)) as [e|] eqn:He; [|done]. apply Nat.eqb_neq. by eapply HE.
    + rewrite lookup_insert_ne in Ho' by congruence. rewrite uses_cons_ne by congruence. exact (wf_refs0 q o' Ho').
  - intros q [->|Hq]%elem_of_cons; [rewrite lookup_insert_eq; by exists o|]. destruct (decide (q = p)) as [->|Hne]; [rewrite lookup_insert_eq; by exists o|].
    rewrite lookup_insert_ne by congruence. auto.
  - intros q Hq. destruct (wf_fresh0 q ltac:(unfold p in *; lia)) as [H1 H2]. split; [|done]. by rewrite lookup_insert_ne by lia.
  - intros q o' Ho'. destruct (decide (q = p)) as [->|Hne]; [rewrite lookup_insert_eq in Ho'; by injection Ho' as <-|].
    rewrite lookup_insert_ne in Ho' by congruence. by apply (wf_mp0 q).
  - destruct wf_delete0 as [Hnd Hd]. split; [done|]. intros q Hq. destruct (Hd q Hq) as (o' & e & Ho' & He & Hs & Hb & Hh).
    assert (q <> p) by congruence. exists o', e. rewrite lookup_insert_ne by congruence. split_and!; try done.
    rewrite not_elem_of_cons. done.
Qed.

(** The order of [held] does not matter. *)
Lemma wf_perm held held' st : (forall p, uses p held = uses p held') -> wf held st -> wf held' st.
Proof.
  intros Hu []. assert (forall p, p ∈ held <-> p ∈ held') as He by (intros; by rewrite !uses_elem, Hu).
  split; try done.
  - intros p o. rewrite <- Hu. apply wf_refs0.
  - intros p Hp. apply wf_held0. by apply He.
  - destruct wf_delete0 as [Hnd Hd]. split; [done|]. intros p Hp. destruct (Hd p Hp) as (o & e & ?). exists o, e. by rewrite <- He.
Qed.

(** What is listed and not to be deleted may be handed out. *)
Lemma wf_hand_out held n s e st : wf held st -> find_entry st n s = Some e -> blocked_ e = false ->
  wf (sco_ e :: held) (intrusive_ptr_add_ref (sco_ e) st).
Proof.
  intros H He Hb. destruct (wf_entry _ _ H n s e He) as (o & Ho & Hn & Hs & _). apply wf_add_ref; [done|by exists o|].
  intros Hd. destruct (proj2 (wf_delete _ _ H) _ Hd) as (o' & e' & Ho' & He' & Hs' & Hb' & _). rewrite Ho in Ho'. injection Ho' as <-.
  rewrite Hn, Hs, He in He'. injection He' as <-. congruence.
Qed.

(** ** The operations on SCOs *)
Lemma wp_insertSCO_ held p b st : wf held st -> p ∈ held -> mntPoint_ (sco st p) ∈ mountPoints_ st ->
  keeps (insertSCO_ p b) (wf held) st.
Proof.
  intros H Hp Hm. destruct (wf_held _ _ H p Hp) as [o Ho]. rewrite (sco_lookup _ _ _ Ho) in Hm.
  unfold insertSCO_. apply wp_bind, wp_get. rewrite (sco_lookup _ _ _ Ho).
  destruct (nsMap_ st !! nspace_ o) as [ns|] eqn:Hns; [|by apply wp_throw].
  apply wp_bind, wp_verify; [done|]. intros Hb%negb_true_iff. apply wp_bind, wp_modify. cbv beta. apply wp_modify.
  apply bool_decide_eq_false in Hb. apply eq_None_not_Some in Hb.
  assert (find_entry st (nspace_ o) (scoName_ o) = None) as He by (unfold find_entry; by rewrite Hns).
  assert (p ∉ to_delete st) as Hd. { intros Hd. destruct (proj2 (wf_delete _ _ H) p Hd) as (o' & e' & Ho' & He' & _). rewrite Ho in Ho'. injection Ho' as <-. congruence. }
  change (wf held (insert_entry (nspace_ (with_refcnt (refcnt_ o + 1) o)) (scoName_ (with_refcnt (refcnt_ o + 1) o)) (mkEntry p b) (intrusive_ptr_add_ref p st))).
  apply wf_list_entry; [apply wf_add_ref; [done|by exists o|done]| |done|by exists ns|done]. cbn. by rewrite lookup_alter_eq, Ho.
Qed.

Lemma wp_findNamespace n (Q : SCOCacheNamespace -> St -> Prop) (E : St -> Prop) st :
  (nsMap_ st !! n = None -> E st) -> (forall ns, nsMap_ st !! n = Some ns -> Q ns st) -> wp (findNamespace_throw_ n) Q E st.
Proof. intros H1 H2. unfold wp, findNamespace_throw_. destruct (nsMap_ st !! n); auto. Qed.

Lemma wp_removeSCO_ held p u st : wf held st -> p ∈ held -> keeps (removeSCO_ p u) (wf held) st.
Proof.
  intros H Hp. unfold removeSCO_. apply wp_bind, wp_get, wp_bind. apply wp_findNamespace; [done|]. intros ns Hns.
  apply wp_bind, wp_modify. assert (wf held (ns_erase (nspace_ (sco st p)) (scoName_ (sco st p)) st)) as H' by (by apply wf_ns_erase).
  destruct u; [|done]. apply wp_modify. eapply wf_soft; [|exact H']. apply soft_on_sco. done.
Qed.

(** The cleanup takes the SCO off its set before. *)
Lemma wp_findAndRemove held n s r mb u st : wf held st ->
  (mb = true -> forall e, find_entry st n s = Some e -> sco_ e ∉ to_delete st) ->
  keeps (findAndRemoveSCO_ n s r mb u) (wf held) st.
Proof.
  intros H Hmb. unfold findAndRemoveSCO_. apply wp_bind, wp_findNamespace; [done|]. intros ns Hns.
  destruct (entries ns !! s) as [e|] eqn:He; [|done]. apply wp_bind, wp_throw_if; [done|]. intros Hb.
  assert (find_entry st n s = Some e) as Hf by (unfold find_entry; by rewrite Hns).
  assert (wf (sco_ e :: held) (intrusive_ptr_add_ref (sco_ e) st)) as H1.
  { destruct mb; [|by eapply wf_hand_out]. destruct (wf_entry _ _ H n s e Hf) as (o & Ho & _). apply wf_add_ref; [done|by exists o|auto]. }
  apply wp_bind, wp_modify. apply wp_bind, wp_releasing. apply wp_bind, wp_get, wp_bind, wp_throw_if.
  - intros _. by apply wf_release.
  - intros _. eapply wp_mono; [apply (wp_removeSCO_ (sco_ e :: held)); [done|left]| |].
    + intros ? st' H'. apply wp_modify. by apply wf_release.
    + intros st' H'. by apply wf_release.
Qed.

Lemma wf_set_current held c st : wf held st -> (forall p, c = Some p -> p ∈ mountPoints_ st) -> wf held (set_list (mountPoints_ st) c st).
Proof. intros [] Hc. split; try done. intros p Hp. left. by apply Hc. Qed.

Lemma wf_erase_entries held l st : wf held st -> wf held (erase_entries l st).
Proof. revert st. induction l as [|[n s] l IH]; intros st H; cbn; [done|]. apply IH. by apply wf_ns_erase. Qed.

End WfEntries.

(** *** What the erasing of entries leaves alone *)
Record frame (st st' : St) : Prop := mkFrame {
  frame_list : mountPoints_ st' = mountPoints_ st;
  frame_current : currentMountPoint_ st' = currentMountPoint_ st;
  frame_mps : forall q, option_relation soft_mp (fun _ => False) (fun _ => False) (mps st !! q) (mps st' !! q);
  frame_errcount : mpErrorCount_ st' = mpErrorCount_ st;
  frame_params : params st' = params st;
  frame_next : next_ st' = next_ st }.

#[global] Instance frame_refl : Reflexive frame.
Proof. intros st. split; try done. intros. apply opt_refl, soft_mp_refl. Qed.

#[global] Instance frame_trans : Transitive frame.
Proof.
  intros a b c [] []. split; try congruence. intros q. eapply opt_trans; [|done|done].
  intros m1 m2 m3. unfold soft_mp. intros (-> & -> & -> & -> & H1) (-> & -> & -> & -> & H2). auto 10.
Qed.

Lemma frame_updateUsedSize p d st : keeps (updateUsedSize p d) (frame st) st.
Proof.
  pose proof (soft_updateUsedSize p d st) as H. unfold wp, updateUsedSize in *. repeat case_match; simplify_eq; try done;
  (split; try done; apply (soft_mps _ _ H)).
Qed.

Lemma frame_destroy p st : frame st (destroy_sco p st).
Proof.
  unfold destroy_sco. destruct (unlink_on_destruction_ (sco st p)); [|by split; try done; intros; apply opt_refl, soft_mp_refl].
  set (m := addToGarbage _ ;! _). assert (frame st (fst (m st))) as [].
  { unfold m, mbind, addToGarbage. destruct (_ && _); [|done]. cbn. set (st1 := on_disk _ _ st).
    pose proof (frame_updateUsedSize (mntPoint_ (sco st p)) (s64 (- size_ (sco st p))) st1) as HU. unfold wp in HU.
    assert (frame st st1) by (split; try done; intros; apply opt_refl, soft_mp_refl).
    destruct (updateUsedSize _ _ st1) as [st2 []]; by etrans. }
  by split.
Qed.

Lemma frame_release p st : frame st (intrusive_ptr_release p st).
Proof.
  unfold intrusive_ptr_release. set (st1 := on_sco _ _ st). assert (frame st st1) by (split; try done; intros; apply opt_refl, soft_mp_refl).
  destruct (_ =? 0); [|done]. etrans; [done|apply frame_destroy].
Qed.

Lemma frame_ns_erase n s st : frame st (ns_erase n s st).
Proof.
  unfold ns_erase. destruct (find_entry st n s); [|done]. etrans; [|apply frame_release].
  split; try done; intros; apply opt_refl, soft_mp_refl.
Qed.

Lemma frame_erase_entries l st : frame st (erase_entries l st).
Proof. revert st. induction l as [|[n s] l IH]; intros st; cbn; [done|]. etrans; [apply frame_ns_erase|apply IH]. Qed.

(** *** What is left after erasing *)
Definition heap_sub (st st' : St) : Prop := forall q o', scos st' !! q = Some o' -> exists o, scos st !! q = Some o /\ same_key o o'.

Lemma destroy_parts p st : nsMap_ (destroy_sco p st) = nsMap_ st /\ scos (destroy_sco p st) = delete p (scos st).
Proof.
  unfold destroy_sco. destruct (unlink_on_destruction_ (sco st p)); [|done]. set (m := addToGarbage _ ;! _).
  assert (nsMap_ (fst (m st)) = nsMap_ st /\ scos (fst (m st)) = scos st) as [H1 H2].
  { unfold m, mbind, addToGarbage, updateUsedSize. repeat case_match; simplify_eq; done. }
  cbn [nsMap_ scos set_to_delete set_scos]. by rewrite H1, H2.
Qed.

Lemma release_parts p st : nsMap_ (intrusive_ptr_release p st) = nsMap_ st /\ heap_sub st (intrusive_ptr_release p st).
Proof.
  unfold intrusive_ptr_release. set (f := fun o => with_refcnt (refcnt_ o - 1) o).
  assert (heap_sub st (on_sco p f st)) as Hs.
  { intros q o'. cbn. destruct (decide (p = q)) as [->|Hne]; [rewrite lookup_alter_eq|rewrite lookup_alter_ne by done; by exists o'].
    destruct (scos st !! q) as [o|]; cbn; [|done]. intros [= <-]. by exists o. }
  destruct (_ =? 0); [|done]. destruct (destroy_parts p (on_sco p f st)) as [-> E]. split; [done|].
  intros q o'. rewrite E. intros [_ Hq]%lookup_delete_Some. by apply Hs.
Qed.

Lemma heap_sub_trans a b c : heap_sub a b -> heap_sub b c -> heap_sub a c.
Proof.
  intros H1 H2 q o'' Hq. destruct (H2 q o'' Hq) as (o' & Ho' & Hk'). destruct (H1 q o' Ho') as (o & Ho & Hk). exists o. split; [done|].
  unfold same_key in *. intuition congruence.
Qed.

Lemma ns_erase_parts n s st : heap_sub st (ns_erase n s st) /\
  forall k t, find_entry (ns_erase n s st) k t = if bool_decide (n = k /\ s = t) then None else find_entry st k t.
Proof.
  unfold ns_erase. destruct (find_entry st n s) as [e|] eqn:He.
  - fold (erase_entry n s st). destruct (release_parts (sco_ e) (erase_entry n s st)) as [E H]. split; [exact H|].
    intros k t. rewrite <- find_erase. unfold find_entry. by rewrite E.
  - split; [intros q o' H; by exists o'|]. intros k t. case_bool_decide as Hk; [|done]. by destruct Hk as [<- <-].
Qed.

Lemma erase_entries_parts l st : heap_sub st (erase_entries l st) /\
  forall k t, find_entry (erase_entries l st) k t = if bool_decide ((k, t) ∈ l) then None else find_entry st k t.
Proof.
  revert st. induction l as [|[n s] l IH]; intros st; cbn [erase_entries fold_left].
  - split; [intros q o' H; by exists o'|done].
  - destruct (ns_erase_parts n s st) as [H1 H2]. destruct (IH (ns_erase n s st)) as [H3 H4]. split; [by eapply heap_sub_trans|].
    intros k t. fold (erase_entries l (ns_erase n s st)). rewrite H4, H2. repeat case_bool_decide; set_solver.
Qed.

(** *** Iteration in order visits all *)
Lemma elem_of_ordered `{Countable K} {A} ltb (m : gmap K A) k a : (k, a) ∈ ordered ltb m <-> m !! k = Some a.
Proof. unfold ordered. rewrite merge_sort_Permutation. apply elem_of_map_to_list. Qed.

Lemma elem_of_entries_on st p n s : (n, s) ∈ entries_on st p <->
  exists e, find_entry st n s = Some e /\ mntPoint_ (sco st (sco_ e)) = p.
Proof.
  unfold entries_on. rewrite elem_of_concat. split.
  - intros (l & ([k ns] & -> & Hns)%list_elem_of_fmap & ([t e] & [= <- <-] & Ht)%list_elem_of_fmap).
    apply elem_of_lfilter in Ht as [Ht Hp]. apply elem_of_ordered in Hns, Ht. exists e. split; [|by apply Nat.eqb_eq].
    unfold find_entry. by rewrite Hns.
  - intros (e & He & Hp). unfold find_entry in He. destruct (nsMap_ st !! n) as [ns|] eqn:Hns; [|done].
    eexists. split; [apply list_elem_of_fmap; exists (n, ns); split; [reflexivity|by apply elem_of_ordered]|].
    apply list_elem_of_fmap. exists (s, e). split; [done|]. apply elem_of_lfilter. split; [by apply elem_of_ordered|by apply Nat.eqb_eq].
Qed.
