(* ===== verification/SCOCacheOps.v ===== *)
(** * The operations of the SCO cache keep its invariant

    Mount points going offline, the choice of a mount point, and every operation
    of SCOCache.v: each keeps the invariant of SCOCacheFacts.v whether it returns
    or throws. *)

From Stdlib Require Import SpecFloat.
From stdpp Require Import sorting.
From S2P Require Import Prelude CheckSum Addressing SCOPool SCOCache SCOCacheFacts.
Import SCOCache.

Lemma sublist_shorter {A} (l1 l2 : list A) x : l1 `sublist_of` l2 -> x ∈ l2 -> x ∉ l1 -> (length l1 < length l2)%nat.
Proof.
  induction 1 as [|y l1 l2 Hs IH|y l1 l2 Hs IH]; intros H2 H1; [by apply elem_of_nil in H2| |]; cbn.
  - rewrite not_elem_of_cons in H1. apply elem_of_cons in H2 as [->|H2]; [tauto|]. specialize (IH H2 (proj2 H1)). lia.
  - pose proof (sublist_length _ _ Hs). lia.
Qed.

(** ** Mount points going offline *)

(** What is left: the SCOs on the mount points that are left. *)
Record off (st st' : St) : Prop := mkOff {
  off_list : mountPoints_ st' `sublist_of` mountPoints_ st;
  off_find : forall n s e, find_entry st' n s = Some e <->
    find_entry st n s = Some e /\ mntPoint_ (sco st (sco_ e)) ∈ mountPoints_ st';
  off_ns : forall n, is_Some (nsMap_ st' !! n) <-> is_Some (nsMap_ st !! n);
  off_heap : heap_sub st st';
  off_next : next_ st' = next_ st;
  off_params : params st' = params st;
  off_mps : forall q, option_relation (fun m m' => path_ m' = path_ m) (fun _ => False) (fun _ => False) (mps st !! q) (mps st' !! q) }.

Lemma wf_entry_sco held n s e st : wf held st -> find_entry st n s = Some e ->
  scos st !! sco_ e = Some (sco st (sco_ e)) /\ nspace_ (sco st (sco_ e)) = n /\ scoName_ (sco st (sco_ e)) = s /\
  mntPoint_ (sco st (sco_ e)) ∈ mountPoints_ st.
Proof.
  intros H He. destruct (wf_entry _ _ H n s e He) as (o & Ho & Hn & Hs & [Hm|[=]]). rewrite (sco_lookup _ _ _ Ho). auto.
Qed.

Lemma heap_sub_sco st st' p o' : heap_sub st st' -> scos st' !! p = Some o' -> same_key (sco st p) (sco st' p).
Proof. intros H Hp. destruct (H p o' Hp) as (o & Ho & Hk). by rewrite (sco_lookup _ _ _ Ho), (sco_lookup _ _ _ Hp). Qed.

Lemma off_refl held st : wf held st -> off st st.
Proof.
  intros H. split; try done.
  - intros n s e. split; [|tauto]. intros He. split; [done|]. by apply (wf_entry_sco _ _ _ _ _ H He).
  - intros q o Ho. by exists o.
  - intros q. by destruct (mps st !! q).
Qed.

Lemma off_trans held a b c : wf held b -> off a b -> off b c -> off a c.
Proof.
  intros Hb [] []. split; try congruence.
  - by etrans.
  - intros n s e. rewrite off_find1, off_find0. split; [intros [[H1 H2] H3]|intros [H1 H2]].
    + split; [done|]. assert (find_entry b n s = Some e) as He by (apply off_find0; auto).
      destruct (wf_entry_sco _ _ _ _ _ Hb He) as (Ho & _). destruct (heap_sub_sco _ _ _ _ off_heap0 Ho) as (_ & _ & Hm). congruence.
    + assert (find_entry b n s = Some e) as He by (apply off_find0; split; [done|]; by eapply elem_of_sublist).
      split; [by apply off_find0|]. destruct (wf_entry_sco _ _ _ _ _ Hb He) as (Ho & _). destruct (heap_sub_sco _ _ _ _ off_heap0 Ho) as (_ & _ & Hm). congruence.
  - intros n. by rewrite off_ns1.
  - by eapply heap_sub_trans.
  - intros q. eapply opt_trans; [|done|done]. congruence.
Qed.

Lemma soft_heap_sub st st' : soft st st' -> heap_sub st st'.
Proof. intros H q o' Ho'. destruct (soft_lookup_sco _ _ _ _ H Ho') as (o & Ho & Hk & _). by exists o. Qed.

Lemma soft_off held st st' : wf held st -> soft st st' -> params st' = params st -> off st st'.
Proof.
  intros H HS HP. pose proof (soft_heap_sub _ _ HS) as HH. split; try done.
  - by rewrite (soft_list _ _ HS).
  - intros n s e. rewrite (soft_find _ _ HS), (soft_list _ _ HS). split; [|tauto]. intros He. split; [done|]. by apply (wf_entry_sco _ _ _ _ _ H He).
  - apply (soft_ns _ _ HS).
  - apply (soft_next _ _ HS).
  - intros q. pose proof (soft_mps _ _ HS q) as R. destruct (mps st !! q), (mps st' !! q); try done. apply R.
Qed.

Lemma soft_setErrorCount p c st : wp (setErrorCount p c) (fun _ st' => soft st st' /\ params st' = params st) (fun st' => soft st st' /\ params st' = params st) st.
Proof.
  unfold setErrorCount. apply wp_bind, wp_modify. assert (soft st (on_mp p (with_errcount c) st)) as H1 by (apply soft_on_mp; done).
  unfold writeMetaData_. apply wp_bind, wp_get, wp_bind, wp_throw_if; intros _; [done|]. apply wp_modify. split; [|done].
  etrans; [exact H1|apply soft_on_disk].
Qed.

(** Any mount point but one that is used may be marked offline. *)
Lemma wf_offline_other held p st : wf held st -> p ∉ mountPoints_ st -> wf held (on_mp p (with_offline true) st).
Proof.
  intros [] Hp. split; try done.
  - intros q Hq. cbn in Hq. destruct (wf_fresh q Hq) as [H1 H2]. split; [done|]. cbn. destruct (decide (p = q)) as [->|]; [by rewrite lookup_alter_eq, H2|by rewrite lookup_alter_ne].
  - intros q Hq. right. destruct (wf_online q Hq) as [[=]|(m & Hm & Ho)]. exists m. cbn. rewrite lookup_alter_ne; [done|]. intros ->. done.
  - intros q o Ho. cbn. destruct (wf_mp q o Ho) as [m Hm]. destruct (decide (p = mntPoint_ o)) as [->|]; [rewrite lookup_alter_eq, Hm; by eexists|rewrite lookup_alter_ne by done; by exists m].
  - intros q m. cbn. destruct (decide (p = q)) as [->|]; [rewrite lookup_alter_eq|rewrite lookup_alter_ne by done; apply wf_used].
    destruct (mps st !! q) as [m'|] eqn:Hm; [|done]. cbn. intros [= <-]. by apply (wf_used q m').
Qed.

(** The state after [setOffline] and the removal from the list, before the SCOs are dropped. *)
Definition going_offline (p : nat) (st : St) : St :=
  set_list (List.filter (fun q => negb (q =? p)%nat) (mountPoints_ st)) (currentMountPoint_ st) (on_mp p (with_offline true) st).

Lemma elem_of_without (p q : nat) l : q ∈ List.filter (fun q => negb (q =? p)%nat) l <-> q ∈ l /\ q <> p.
Proof. by rewrite elem_of_lfilter, negb_true_iff, Nat.eqb_neq. Qed.

Lemma wf_going_offline held p st : wf held st -> wfx (Some p) held (going_offline p st).
Proof.
  intros []. split; try done; cbn [going_offline mps scos mountPoints_ set_list on_mp set_mps currentMountPoint_ next_].
  - intros n s e He. destruct (wf_entry n s e He) as (o & Ho & Hn & Hs & [Hm|[=]]). exists o. split_and!; try done.
    destruct (decide (mntPoint_ o = p)) as [->|]; [by right|left]. by apply elem_of_without.
  - intros q Hq. destruct (wf_fresh q Hq) as [H1 H2]. split; [done|]. destruct (decide (p = q)) as [->|]; [by rewrite lookup_alter_eq, H2|by rewrite lookup_alter_ne].
  - eapply sublist_NoDup; [exact wf_list|apply lfilter_sublist].
  - intros q [Hq Hne]%elem_of_without. right. destruct (wf_online q Hq) as [[=]|(m & Hm & Ho)]. exists m. by rewrite lookup_alter_ne by congruence.
  - intros q o Ho. destruct (wf_mp q o Ho) as [m Hm]. destruct (decide (p = mntPoint_ o)) as [->|]; [rewrite lookup_alter_eq, Hm; by eexists|rewrite lookup_alter_ne by done; by exists m].
  - intros q Hq. destruct (wf_current q Hq) as [Hl|[=]]. destruct (decide (q = p)) as [->|]; [by right|left]. by apply elem_of_without.
  - intros q m. destruct (decide (p = q)) as [->|]; [rewrite lookup_alter_eq|rewrite lookup_alter_ne by done; apply wf_used].
    destruct (mps st !! q) as [m'|] eqn:Hm; [|done]. cbn. intros [= <-]. by apply (wf_used q m').
Qed.

Lemma wf_gone held p st : wfx (Some p) held st -> (forall n s e, find_entry st n s = Some e -> mntPoint_ (sco st (sco_ e)) <> p) ->
  p ∉ mountPoints_ st -> (forall q, currentMountPoint_ st = Some q -> q ∈ mountPoints_ st) -> wf held st.
Proof.
  intros H He Hp Hc. destruct H. split; try done.
  - intros n s e Hf. destruct (wf_entry n s e Hf) as (o & Ho & Hn & Hs & [Hm|[= Hm]]); exists o; [by auto|].
    destruct (He n s e Hf). by rewrite (sco_lookup _ _ _ Ho).
  - intros q Hq. destruct (wf_online q Hq) as [[= <-]|Hm]; [done|by right].
  - intros q Hq. left. by apply Hc.
Qed.

Lemma wf_reset_current held st : wf held st -> wf held (set_list (mountPoints_ st) (head (mountPoints_ st)) st).
Proof. intros H. apply wf_set_current; [done|]. intros p Hp. by apply head_Some_elem_of. Qed.

Lemma off_reset_current held st : wf held st -> off st (set_list (mountPoints_ st) (head (mountPoints_ st)) st).
Proof. intros H. destruct (off_refl _ _ H). by split. Qed.

Lemma bump_loop_ok held k f fuel l st : wf held st -> (length (mountPoints_ st) <= k)%nat ->
  (forall p, p ∈ l -> p ∈ mountPoints_ st) -> (length l + length (mountPoints_ st) * length (mountPoints_ st) <= fuel)%nat ->
  (forall p st, p ∈ mountPoints_ st -> wf held st -> (length (mountPoints_ st) <= k)%nat ->
    wp (f p) (fun _ st' => wf held st' /\ off st st' /\ p ∉ mountPoints_ st') (fun _ => False) st) ->
  wp (bump_loop f fuel l) (fun _ st' => wf held st' /\ off st st') (fun _ => False) st.
Proof.
  intros H Hk Hl Hfuel Hf. revert st l H Hk Hl Hfuel. induction fuel as [|fuel IH]; intros st l H Hk Hl Hfuel.
  - destruct l; [|cbn in Hfuel; lia]. split; [done|exact (off_refl _ _ H)].
  - destruct l as [|p l]; cbn [bump_loop]; [split; [done|exact (off_refl _ _ H)]|].
    unfold wp. pose proof (soft_setErrorCount p (mpErrorCount_ st) st) as HS. unfold wp in HS.
    destruct (setErrorCount p (mpErrorCount_ st) st) as [st1 [u|e]]; destruct HS as [HS HP];
      pose proof (wf_soft _ _ _ HS H) as H1; pose proof (soft_off _ _ _ H HS HP) as O1; rewrite <- (soft_list _ _ HS) in Hk, Hl, Hfuel.
    + eapply wp_mono; [apply (IH st1 l)| |done]; [done|done|intros q Hq; apply Hl; by right|cbn in Hfuel; lia|].
      intros ? st2 [H2 O2]. split; [done|exact (off_trans _ _ _ _ H1 O1 O2)].
    + assert (p ∈ mountPoints_ st1) as Hp by (apply Hl; left).
      eapply wp_bind, wp_mono; [apply Hf; done| |done]. intros ? st2 (H2 & O2 & Hp2). apply wp_bind, wp_modify, wp_bind, wp_get.
      pose proof (wf_reset_current _ _ H2) as H3. pose proof (off_reset_current _ _ H2) as O3.
      assert (length (mountPoints_ st2) < length (mountPoints_ st1))%nat as Hlt.
      { eapply sublist_shorter; [apply (off_list _ _ O2)|exact Hp|exact Hp2]. }
      eapply wp_mono; [apply (IH _ _ H3)| |done]; cbn [mountPoints_ set_list]; [lia|done|cbn in Hfuel; nia|].
      intros ? st4 [H4 O4]. split; [done|]. exact (off_trans _ _ _ _ H1 O1 (off_trans _ _ _ _ H2 O2 (off_trans _ _ _ _ H3 O3 O4))).
Qed.

Lemma wf_set_errcount held c st : wf held st -> wf held (set_errcount c st) /\ off st (set_errcount c st).
Proof. intros H. split; [by apply (wf_soft _ _ _ (soft_set_errcount c st))|]. by apply (soft_off _ _ _ H (soft_set_errcount c st)). Qed.

Lemma erase_entries_ns l st n : is_Some (nsMap_ (erase_entries l st) !! n) <-> is_Some (nsMap_ st !! n).
Proof.
  revert st. induction l as [|[k s] l IH]; intros st; cbn; [done|]. fold (erase_entries l (ns_erase k s st)). rewrite IH.
  unfold ns_erase. destruct (find_entry st k s) as [e|]; [|done]. rewrite (proj1 (release_parts _ _)). cbn.
  destruct (decide (k = n)) as [->|]; [rewrite lookup_alter_eq|by rewrite lookup_alter_ne]. destruct (nsMap_ st !! n); cbn; split; intros [? [=]]; by eexists.
Qed.

(** A mount point goes, with its SCOs. *)
Lemma wf_offlined held p st : wf held st -> p ∈ mountPoints_ st ->
  let st1 := going_offline p st in
  let st2 := erase_entries (entries_on st1 p) st1 in
  let st3 := set_list (mountPoints_ st2) (head (mountPoints_ st2)) st2 in
  wf held st3 /\ off st st3 /\ mountPoints_ st3 = List.filter (fun q => negb (q =? p)%nat) (mountPoints_ st).
Proof.
  intros H Hp st1 st2 st3. pose proof (wf_going_offline _ p _ H) as H1. fold st1 in H1.
  pose proof (wf_erase_entries _ (entries_on st1 p) _ H1) as H2. fold st2 in H2.
  pose proof (frame_erase_entries (entries_on st1 p) st1) as F. fold st2 in F.
  destruct (erase_entries_parts (entries_on st1 p) st1) as [HS HF]. fold st2 in HS, HF.
  assert (mountPoints_ st3 = List.filter (fun q => negb (q =? p)%nat) (mountPoints_ st)) as EL by (cbn; by rewrite (frame_list _ _ F)).
  assert (forall n s e, find_entry st2 n s = Some e <-> find_entry st n s = Some e /\ mntPoint_ (sco st (sco_ e)) <> p) as HE.
  { intros n s e. rewrite HF. case_bool_decide as Hin; rewrite elem_of_entries_on in Hin.
    - destruct Hin as (e' & He' & Hm). change (find_entry st n s = Some e') in He'. change (mntPoint_ (sco st (sco_ e')) = p) in Hm.
      split; [done|]. intros [He Hne]. congruence.
    - change (find_entry st1 n s) with (find_entry st n s). split; [|tauto]. intros He. split; [done|]. intros Hm. apply Hin. by exists e. }
  assert (forall e o, scos st2 !! sco_ e = Some o -> same_key (sco st (sco_ e)) (sco st2 (sco_ e))) as HK.
  { intros e o Ho. apply (heap_sub_sco st1 st2 _ _ HS Ho). }
  split; [|split; [|done]].
  - apply (wf_gone _ p); [|intros n s e He| |].
    + apply wf_set_current; [done|]. intros q Hq. by apply head_Some_elem_of.
    + change (find_entry st2 n s = Some e) in He. destruct (wf_entry _ _ H2 n s e He) as (o & Ho & _). destruct (HK e o Ho) as (_ & _ & Hm).
      change (mntPoint_ (sco st2 (sco_ e)) <> p). rewrite Hm. apply HE in He as [_ Hne]. exact Hne.
    + rewrite EL, elem_of_without. tauto.
    + intros q Hq. by apply head_Some_elem_of.
  - split; [rewrite EL; apply lfilter_sublist| |intros k; exact (erase_entries_ns (entries_on st1 p) st1 k)|exact HS|apply (frame_next _ _ F)|apply (frame_params _ _ F)|].
    + intros n s e. rewrite EL, elem_of_without. change (find_entry st3 n s) with (find_entry st2 n s). rewrite HE. split; [|tauto].
      intros [He Hne]. split; [done|]. split; [|done]. by apply (wf_entry_sco _ _ _ _ _ H He).
    + intros q. pose proof (frame_mps _ _ F q) as R. change (mps st3 !! q) with (mps st2 !! q). cbn in R.
      destruct (decide (p = q)) as [->|]; [rewrite lookup_alter_eq in R|rewrite lookup_alter_ne in R by done];
      destruct (mps st !! q), (mps st2 !! q); try done; apply R.
Qed.

Lemma offline_loop_ok held fuel p st : wf held st -> (length (mountPoints_ st) < fuel)%nat ->
  wp (offline_loop fuel p) (fun _ st' => wf held st' /\ off st st' /\ p ∉ mountPoints_ st') (fun _ => False) st.
Proof.
  revert p st. induction fuel as [|fuel IH]; intros p st H Hfuel; [lia|]. cbn [offline_loop].
  apply wp_bind, wp_modify, wp_bind, wp_get. destruct (existsb _ _) eqn:Hex; cbn [negb].
  - apply existsb_exists in Hex as (q & Hq & ->%Nat.eqb_eq). apply list_elem_of_In in Hq. change (q ∈ mountPoints_ st) in Hq.
    destruct (wf_offlined _ _ _ H Hq) as (H3 & O3 & EL). apply wp_bind, wp_modify, wp_bind, wp_modify, wp_bind, wp_modify, wp_bind, wp_get.
    change (set_list (List.filter _ (mountPoints_ (on_mp q (with_offline true) st))) (currentMountPoint_ (on_mp q (with_offline true) st)) (on_mp q (with_offline true) st)) with (going_offline q st).
    set (st3 := set_list _ (head _) _) in *. unfold bumpMountPointErrorCount_. apply wp_bind, wp_modify, wp_bind, wp_get.
    destruct (wf_set_errcount _ (u64 (mpErrorCount_ st3 + 1)) _ H3) as [H4 O4]. set (st4 := set_errcount _ st3) in *.
    assert (length (mountPoints_ st3) < length (mountPoints_ st))%nat as Hlt.
    { rewrite EL. eapply sublist_shorter; [apply lfilter_sublist|exact Hq|]. rewrite elem_of_without. tauto. }
    eapply wp_mono; [apply (bump_loop_ok held (length (mountPoints_ st4)))| |done]; [done|done|done| | |].
    + change (mountPoints_ st4) with (mountPoints_ st3). lia.
    + intros r t Hr Ht Hle. apply IH; [done|]. change (mountPoints_ st4) with (mountPoints_ st3) in Hle. lia.
    + intros ? st5 [H5 O5]. split_and!; [done|exact (off_trans _ _ _ _ H3 O3 (off_trans _ _ _ _ H4 O4 O5))|].
      intros Hin. pose proof (elem_of_sublist _ _ _ Hin (off_list _ _ O5)) as Hin'. change (q ∈ mountPoints_ st3) in Hin'. rewrite EL, elem_of_without in Hin'. tauto.
  - apply wp_ret. assert (p ∉ mountPoints_ st) as Hp.
    { intros Hp. assert (existsb (Nat.eqb p) (mountPoints_ st) = true) as E; [|change (existsb (Nat.eqb p) (mountPoints_ st) = false) in Hex; congruence].
      apply existsb_exists. exists p. split; [by apply list_elem_of_In|apply Nat.eqb_refl]. }
    split_and!; [by apply wf_offline_other| |done]. destruct (off_refl _ _ H). split; try done.
    intros q. cbn. destruct (decide (p = q)) as [->|]; [rewrite lookup_alter_eq|rewrite lookup_alter_ne by done]; by destruct (mps st !! q).
Qed.

Lemma offlineMountPoint_ok held p st : wf held st ->
  wp (offlineMountPoint_ p) (fun _ st' => wf held st' /\ off st st' /\ p ∉ mountPoints_ st') (fun _ => False) st.
Proof. intros H. unfold offlineMountPoint_. apply wp_bind, wp_get. apply offline_loop_ok; [done|lia]. Qed.

Lemma reportIOError_ok held p st : wf held st ->
  wp (reportIOError_ p) (fun _ st' => wf held st' /\ off st st' /\ mntPoint_ (sco st p) ∉ mountPoints_ st') (fun _ => False) st.
Proof. intros H. unfold reportIOError_. apply wp_bind, wp_get. by apply offlineMountPoint_ok. Qed.

(** ** Choosing a mount point *)
Lemma next_it_app a p r : p ∉ a -> next_it (a ++ p :: r) p = head r.
Proof.
  induction a as [|q a IH]; cbn [app next_it]; [by rewrite Nat.eqb_refl|]. rewrite not_elem_of_cons. intros [Hne Ha].
  rewrite (proj2 (Nat.eqb_neq q p)) by congruence. by apply IH.
Qed.

Section FindIt.
Context (skip : nat -> bool) (l1 l2 : list nat) (c : nat).
#[local] Abbreviation l := (l1 ++ c :: l2).
#[local] Abbreviation pick := (List.find (fun p => negb (skip p))).
Hypothesis Hnd : NoDup l.

Lemma nodup_parts : c ∉ l1 /\ c ∉ l2 /\ NoDup l1 /\ NoDup l2 /\ (forall x, x ∈ l1 -> x ∉ l2).
Proof.
  apply NoDup_app in Hnd as (H1 & H2 & H3). apply NoDup_cons in H3 as [H3 H4]. split_and!; try done.
  - intros H. apply (H2 c H). left.
  - intros x Hx Hx2. apply (H2 x Hx). by right.
Qed.

(** From the start of the list: up to the current mount point. *)
Lemma find_it_front a b fuel : l1 = a ++ b -> (length b <= fuel)%nat ->
  find_it skip l (Some c) (head (b ++ [c])) fuel = Ok (Some (default c (pick b))).
Proof.
  destruct nodup_parts as (Hc1 & Hc2 & Hn1 & Hn2 & Hd). revert a fuel. induction b as [|x b IH]; intros a fuel Hl Hf; cbn [app head List.find].
  - destruct fuel; cbn [find_it]; by rewrite bool_decide_true.
  - assert (x <> c) as Hxc. { intros ->. apply Hc1. rewrite Hl. set_solver. }
    destruct fuel as [|fuel]; [cbn in Hf; lia|]. cbn [find_it]. rewrite bool_decide_false by congruence.
    destruct (skip x) eqn:Es; cbn [negb default]; [|done].
    replace (next_it l x) with (head (b ++ [c])); [apply (IH (a ++ [x])); [by rewrite Hl, <- app_assoc|cbn in Hf; lia]|].
    rewrite Hl. replace ((a ++ x :: b) ++ c :: l2) with (a ++ x :: (b ++ c :: l2)) by (by rewrite <- app_assoc).
    rewrite next_it_app; [by destruct b|]. rewrite Hl in Hn1. apply NoDup_app in Hn1 as (_ & Hn1 & _). intros Hx. apply (Hn1 x Hx). left.
Qed.

(** From behind the current mount point: to the end and round. *)
Lemma find_it_back a b fuel : l2 = a ++ b -> (length b + S (length l1) <= fuel)%nat ->
  find_it skip l (Some c) (head b) fuel = Ok (Some (default c (pick (b ++ l1)))).
Proof.
  destruct nodup_parts as (Hc1 & Hc2 & Hn1 & Hn2 & Hd). revert a fuel. induction b as [|x b IH]; intros a fuel Hl Hf; cbn [app head List.find].
  - destruct fuel as [|fuel]; [cbn in Hf; lia|]. cbn [find_it]. rewrite bool_decide_false by done.
    replace (head l) with (head (l1 ++ [c])) by (by destruct l1). apply (find_it_front []); [done|cbn in Hf; lia].
  - assert (x <> c) as Hxc. { intros ->. apply Hc2. rewrite Hl. set_solver. }
    destruct fuel as [|fuel]; [cbn in Hf; lia|]. cbn [find_it]. rewrite bool_decide_false by congruence.
    destruct (skip x) eqn:Es; cbn [negb default]; [|done].
    replace (next_it l x) with (head b); [apply (IH (a ++ [x])); [by rewrite Hl, <- app_assoc|cbn in Hf; lia]|].
    rewrite Hl. replace (l1 ++ c :: a ++ x :: b) with ((l1 ++ c :: a) ++ x :: b) by (by rewrite <- app_assoc).
    rewrite next_it_app; [done|]. rewrite elem_of_app, elem_of_cons. intros [Hx|[Hx|Hx]]; [|done|].
    + apply (Hd x Hx). rewrite Hl. set_solver.
    + rewrite Hl in Hn2. apply NoDup_app in Hn2 as (_ & Hn2 & _). apply (Hn2 x Hx). left.
Qed.

Lemma find_it_spec : find_it skip l (Some c) (next_it l c) (S (length l)) = Ok (Some (default c (pick (l2 ++ l1)))).
Proof.
  rewrite next_it_app by apply nodup_parts. apply (find_it_back []); [done|]. rewrite length_app. cbn. lia.
Qed.
End FindIt.

(** The mount points from behind the current one, round to it. *)
Fixpoint split_at (c : nat) (l : list nat) : list nat * list nat :=
  match l with
  | [] => ([], [])
  | q :: l' => if (q =? c)%nat then ([], l') else let '(a, b) := split_at c l' in (q :: a, b)
  end.

Definition rotation (c : nat) (l : list nat) : list nat := let '(a, b) := split_at c l in b ++ a.

Lemma split_at_spec c l : c ∈ l -> l = fst (split_at c l) ++ c :: snd (split_at c l).
Proof.
  induction l as [|q l IH]; intros Hc; [by apply elem_of_nil in Hc|]. cbn. destruct (Nat.eqb_spec q c) as [->|Hne]; [done|].
  apply elem_of_cons in Hc as [->|Hc]; [done|]. specialize (IH Hc). destruct (split_at c l). cbn in *. by f_equal.
Qed.

Lemma rotation_perm c l : c ∈ l -> rotation c l ++ [c] ≡ₚ l.
Proof.
  intros Hc. rewrite (split_at_spec c l Hc) at 2. unfold rotation. destruct (split_at c l) as [a b]. cbn.
  rewrite <- app_assoc, (Permutation_app_comm b), <- app_assoc. by apply Permutation_app_head.
Qed.

(** The choice: the first that is not choking; if all are, the first with room. *)
Definition chosen (st : St) (scoSize : Z) (c : nat) : nat :=
  let r := rotation c (mountPoints_ st) in
  let it := default c (List.find (fun p => negb (is_choking st p)) r) in
  if (it =? c)%nat && is_choking st c then default c (List.find (fun p => negb (no_room st scoSize p)) r) else it.

Lemma getWriteMountPoint_eq held scoSize c st : wf held st -> currentMountPoint_ st = Some c ->
  getWriteMountPoint_ scoSize st =
  (let p := chosen st scoSize c in
   if no_room st scoSize p then (st, Throw TransientException) else (set_list (mountPoints_ st) (Some p) st, Ok p)).
Proof.
  intros H Hc. destruct (wf_current _ _ H c Hc) as [Hin|[=]]. pose proof (split_at_spec _ _ Hin) as Hl. pose proof (wf_list _ _ H) as Hnd.
  unfold getWriteMountPoint_, chosen, rotation, mbind, mget, mlift. rewrite Hc. destruct (split_at c (mountPoints_ st)) as [a b]. cbn [fst snd] in Hl.
  rewrite Hl in Hnd |- *. rewrite !find_it_spec by exact Hnd. set (it := default c _).
  destruct (decide (it = c)) as [E|E]; [rewrite bool_decide_true, (proj2 (Nat.eqb_eq _ _) E) by congruence|rewrite bool_decide_false, (proj2 (Nat.eqb_neq _ _) E) by congruence];
  cbn [andb]; [destruct (is_choking st c)|]; unfold mthrow_if, mmodify, mret, mthrow; destruct (no_room _ _ _); done.
Qed.

Lemma chosen_in held scoSize c st : wf held st -> currentMountPoint_ st = Some c -> chosen st scoSize c ∈ mountPoints_ st.
Proof.
  intros H Hc. destruct (wf_current _ _ H c Hc) as [Hin|[=]]. pose proof (rotation_perm _ _ Hin) as HP.
  assert (forall f, default c (List.find f (rotation c (mountPoints_ st))) ∈ mountPoints_ st) as HF.
  { intros f. destruct (List.find f _) as [p|] eqn:E; cbn; [|done]. apply List.find_some in E as [E _]. apply list_elem_of_In in E.
    rewrite <- HP. apply elem_of_app. by left. }
  unfold chosen. destruct (_ && _); apply HF.
Qed.

Lemma wp_getWriteMountPoint_ held scoSize st : wf held st ->
  wp (getWriteMountPoint_ scoSize) (fun p st' => wf held st' /\ p ∈ mountPoints_ st' /\ no_room st scoSize p = false /\ st' = set_list (mountPoints_ st) (Some p) st)
    (fun st' => st' = st) st.
Proof.
  intros H. destruct (currentMountPoint_ st) as [c|] eqn:Hc.
  - unfold wp. rewrite (getWriteMountPoint_eq _ _ _ _ H Hc). cbn zeta. pose proof (chosen_in _ scoSize _ _ H Hc) as Hin.
    destruct (no_room _ _ _) eqn:Hr; [done|]. split_and!; try done. apply wf_set_current; [done|]. by intros p [= <-].
  - unfold getWriteMountPoint_. apply wp_bind, wp_get. rewrite Hc. done.
Qed.

(** ** Creating, finding and getting SCOs *)
Lemma wp_new_CachedSCO held n s q size x st : wf held st -> q ∈ mountPoints_ st ->
  wp (new_CachedSCO n s q size x)
    (fun p st' => wf (p :: held) st' /\ scos st' !! p = Some (mkCachedSCO n s q size x false false 1) /\ mountPoints_ st' = mountPoints_ st /\
       (forall k, nsMap_ st' !! k = nsMap_ st !! k))
    (wf held) st.
Proof.
  intros H Hq. unfold new_CachedSCO. apply wp_bind, wp_throw_if; [done|]. intros _.
  apply wp_bind. pose proof (soft_updateUsedSize q (s64 size) st) as HS. pose proof (frame_updateUsedSize q (s64 size) st) as HF. unfold wp in HS, HF |- *.
  assert (nsMap_ (fst (updateUsedSize q (s64 size) st)) = nsMap_ st) as HN by (unfold updateUsedSize; repeat case_match; done).
  destruct (updateUsedSize q (s64 size) st) as [st1 [u|e]]; cbn [fst] in HN; pose proof (wf_soft _ _ _ HS H) as H1; [|done].
  eapply wp_mono; [apply (wf_new_object held _ st1 H1); [done|]| |done].
  - cbn. destruct (wf_online _ _ H1 q) as [[=]|(m & Hm & _)]; [by rewrite (soft_list _ _ HS)|by exists m].
  - intros p st' (Ep & H' & ->). split_and!; [done|cbn; apply lookup_insert_eq|apply (soft_list _ _ HS)|]. intros k. cbn. by rewrite HN.
Qed.

Lemma wp_createSCO_ held n s size x b st : wf held st -> wp (createSCO_ n s size x b) (fun p => wf (p :: held)) (wf held) st.
Proof.
  intros H. unfold createSCO_. apply wp_bind, wp_findNamespace; [done|]. intros ns Hns.
  apply wp_bind, wp_throw_if; [done|]. intros He. apply wp_bind. eapply wp_mono; [apply (wp_getWriteMountPoint_ held); done| |by intros ? ->].
  intros q st1 (H1 & Hq & _ & E1). apply wp_bind. eapply wp_mono; [apply (wp_new_CachedSCO held n s q size x); [exact H1|exact Hq]| |done].
  intros p st2 (H2 & Ho & Hl & Hn2). apply wp_bind, wp_releasing.
  eapply wp_mono; [apply (@wp_insertSCO_ None (p :: held)); [exact H2|left|]| |].
  - rewrite (sco_lookup _ _ _ Ho). cbn. by rewrite Hl.
  - intros ? st3 H3. exact H3.
  - intros st3 H3. by apply wf_release.
Qed.

Lemma wp_createSCO held n s size st : wf held st -> wp (createSCO n s size) (fun p => wf (p :: held)) (wf held) st.
Proof. intros H. unfold createSCO. apply wp_bind, wp_get. by apply wp_createSCO_. Qed.

(** The references after a call that returns a pointer, or null. *)
Definition with_opt (p : option nat) (held : list nat) : list nat := match p with Some p => p :: held | None => held end.

Lemma wp_findSCO_ held n s st : wf held st -> wp (findSCO_ n s) (fun p => wf (with_opt p held)) (wf held) st.
Proof.
  intros H. unfold findSCO_. apply wp_bind, wp_findNamespace; [done|]. intros ns Hns. destruct (entries ns !! s) as [e|] eqn:He; [|done].
  apply wp_bind, wp_throw_if; [done|]. intros Hb. apply wp_bind, wp_modify, wp_ret. cbn. apply (wf_hand_out _ n s); [done| |done].
  unfold find_entry. by rewrite Hns.
Qed.

Lemma wp_getSCO_lookup held n s size x st : wf held st -> wp (getSCO_lookup n s size x) (fun r => wf (fst r :: held)) (wf held) st.
Proof.
  intros H. unfold getSCO_lookup. apply wp_bind. eapply wp_mono; [by apply (wp_findSCO_ held)| |done]. intros [p|] st1 H1; [done|].
  apply wp_bind. eapply wp_mono; [by apply (wp_createSCO_ held)| |done]. done.
Qed.

Lemma wp_getSCO_failed held p e st : wf held st -> p ∈ held -> keeps (getSCO_failed p e) (wf held) st.
Proof.
  intros H Hp. unfold getSCO_failed.
  assert (forall e, keeps (removeSCO_ p false ;! (mthrow e : M St unit)) (wf held) st) as HR.
  { intros e'. apply wp_bind. eapply wp_mono; [by apply (@wp_removeSCO_ None held)| |done]. done. }
  destruct e; try apply HR. apply wp_bind. eapply wp_mono; [by apply (reportIOError_ok held)| |done]. intros ? st' (H' & _). done.
Qed.

Lemma soft_setDisposable p st : keeps (setDisposable p) (soft st) st.
Proof.
  unfold setDisposable. apply wp_bind, wp_get, wp_bind, wp_throw_if; [done|]. intros _. destruct (if dead _ then _ else _) as [f|]; [|by apply wp_throw].
  apply wp_bind, wp_throw_if; [done|]. intros _. apply wp_bind, wp_throw_if; [done|]. intros _.
  apply wp_bind, wp_modify, wp_bind, wp_modify. set (st2 := on_sco _ _ _).
  assert (soft st st2) as H2. { etrans; [apply soft_on_disk|]. apply soft_on_sco. done. }
  eapply wp_mono; [apply soft_updateUsedSize| |]; [intros ? st'|intros st']; intros H'; by etrans.
Qed.

Lemma wp_setDisposable held p st : wf held st -> keeps (setDisposable p) (wf held) st.
Proof. intros H. eapply wp_mono; [apply soft_setDisposable| |]; [intros ? st'|intros st']; intros H'; by apply (wf_soft _ _ _ H'). Qed.

(** The entry that is unblocked is that of the SCO that was fetched, or none that is being deleted. *)
Lemma wp_getSCO_fetched held p d st : wf held st -> p ∈ held ->
  (forall e, find_entry st (nspace_ (sco st p)) (scoName_ (sco st p)) = Some e -> sco_ e ∉ to_delete st) ->
  keeps (getSCO_fetched p d) (wf held) st.
Proof.
  intros H Hp Hno. unfold getSCO_fetched.
  assert (wp (if d then on_throw (setDisposable p) (fun e => reportIOError_ p ;! mthrow e) else mret tt)
    (fun _ st' => soft st st') (wf held) st) as HD.
  { destruct d; [|by apply wp_ret]. apply wp_on_throw. eapply wp_mono; [apply soft_setDisposable|done|]. intros st' HS e.
    apply wp_bind. eapply wp_mono; [apply (reportIOError_ok held); by apply (wf_soft _ _ _ HS)| |done]. intros ? st'' (H'' & _). done. }
  apply wp_bind. eapply wp_mono; [exact HD| |done]. intros ? st1 HS. apply wp_bind, wp_get. pose proof (wf_soft _ _ _ HS H) as H1.
  destruct (wf_held _ _ H p Hp) as [o Ho]. destruct (soft_lookup_sco_r _ _ _ _ HS Ho) as (o1 & Ho1 & (Hn & Hs & _) & _).
  rewrite (sco_lookup _ _ _ Ho1), (sco_lookup _ _ _ Ho) in *. rewrite Hn, Hs. destruct (nsMap_ st1 !! nspace_ o); [|done].
  apply wp_bind, wp_throw_if; [done|]. intros _. apply wp_modify. apply wf_setBlocked_false; [done|]. intros e He.
  rewrite (soft_find _ _ HS) in He. rewrite (soft_delete _ _ HS). by apply Hno.
Qed.
