(* ===== verification/SCOCacheAdmin.v ===== *)
(** * Namespaces and mount points of the SCO cache

    Adding, enabling, disabling and removing namespaces, adding and removing mount
    points and the start of the cache keep the invariant of SCOCacheFacts.v. *)

From Stdlib Require Import SpecFloat.
From stdpp Require Import sorting.
From S2P Require Import Prelude CheckSum Addressing SCOPool SCOCache SCOCacheFacts SCOCacheOps.
Import SCOCache.

(** ** Namespaces without SCOs *)
Lemma wf_set_nsMap held m st : (forall n s, find_entry (set_nsMap m st) n s = find_entry st n s) -> wf held st -> wf held (set_nsMap m st).
Proof.
  intros HF []. split; try done.
  - intros n s e. rewrite HF. apply wf_entry.
  - intros p o Ho. destruct (wf_refs p o Ho) as [Hr Hpos]. split; [|done]. rewrite Hr. unfold listed. by rewrite HF.
  - destruct wf_delete as [Hnd Hd]. split; [done|]. intros p Hp. destruct (Hd p Hp) as (o & e & Ho & He & Hrest). exists o, e. by rewrite HF.
Qed.

Lemma soft_params_mono {A} (m : M St A) held st : wp m (fun _ => soft st) (soft st) st -> wf held st -> keeps m (wf held) st.
Proof. intros HS H. eapply wp_mono; [exact HS| |]; [intros ? st'|intros st']; intros H'; by apply (wf_soft _ _ _ H'). Qed.

Lemma soft_hasNamespace_ p n st : wp (hasNamespace_ p n) (fun _ st' => st' = st) (fun st' => st' = st) st.
Proof. unfold wp, hasNamespace_. by destruct (dead _). Qed.

Lemma soft_mp_addNamespace p n st : keeps (mp_addNamespace p n) (soft st) st.
Proof.
  unfold mp_addNamespace. apply wp_bind, wp_throw_if; [done|]. intros _. apply wp_bind. eapply wp_mono; [apply soft_hasNamespace_| |by intros ? ->].
  intros b ? ->. apply wp_bind, wp_throw_if; [done|]. intros _. apply wp_modify. destruct (writable _); [apply soft_on_disk|done].
Qed.

Lemma soft_mp_removeNamespace p n st : keeps (mp_removeNamespace p n) (soft st) st.
Proof.
  unfold mp_removeNamespace. apply wp_bind. eapply wp_mono; [apply soft_hasNamespace_| |by intros ? ->]. intros b ? ->.
  apply wp_bind, wp_throw_if; [done|]. intros _. apply wp_bind, wp_throw_if; [done|]. intros _. apply wp_bind, wp_get.
  apply wp_bind, wp_throw_if; [done|]. intros _. apply wp_modify, soft_on_disk.
Qed.

(** A loop over mount points that only changes what is soft. *)
Lemma soft_iter {A} (f : A -> M St unit) l st : (forall a st, keeps (f a) (soft st) st) -> keeps (miter f l) (soft st) st.
Proof.
  intros Hf. apply wp_iter; [done|]. intros a st' _ HS. eapply wp_mono; [apply Hf| |]; [intros ? st''|intros st'']; intros H'; by etrans.
Qed.

Lemma soft_addToList n l st : keeps (addNamespaceToMountPointsInList_ n l) (soft st) st.
Proof.
  apply soft_iter. intros p st'. apply wp_bind. eapply wp_mono; [apply soft_hasNamespace_| |by intros ? ->]. intros b ? ->.
  destruct b; [by apply wp_ret|apply soft_mp_addNamespace].
Qed.

Lemma soft_removeFromList n l st : keeps (removeNamespaceFromMountPointsInList_ n l) (soft st) st.
Proof.
  apply soft_iter. intros p st'. apply wp_bind. eapply wp_mono; [apply soft_hasNamespace_| |by intros ? ->]. intros b ? ->.
  destruct b; [apply soft_mp_removeNamespace|by apply wp_ret].
Qed.

Lemma soft_on_any n l st : wp (on_any_mount_point n l) (fun _ st' => st' = st) (fun st' => st' = st) st.
Proof.
  induction l as [|p l IH]; cbn [on_any_mount_point]; [done|]. apply wp_bind. eapply wp_mono; [apply soft_hasNamespace_| |done].
  intros b ? ->. by destruct b.
Qed.

Lemma soft_hasDisabled n st : wp (hasDisabledNamespace_ n) (fun _ st' => st' = st) (fun st' => st' = st) st.
Proof. unfold hasDisabledNamespace_. apply wp_bind, wp_get. destruct (hasNamespace st n); [done|apply soft_on_any]. Qed.

Lemma wp_createNamespace held n a b st : wf held st ->
  wp (createAndInsertNamespace_ n a b) (fun _ st' => wf held st' /\ st' = set_nsMap (<[n := mkNamespace ∅ a b false]> (nsMap_ st)) st /\ nsMap_ st !! n = None) (wf held) st.
Proof.
  intros H. unfold createAndInsertNamespace_. apply wp_bind, wp_get, wp_bind, wp_verify; [done|]. intros Hn%negb_true_iff.
  apply bool_decide_eq_false, eq_None_not_Some in Hn. apply wp_modify. split_and!; [|done|done]. apply wf_set_nsMap; [|done].
  intros k s. unfold find_entry. cbn. destruct (decide (n = k)) as [<-|]; [|by rewrite lookup_insert_ne]. rewrite lookup_insert_eq, Hn. apply lookup_empty.
Qed.

Lemma wp_addNamespace held n a b st : wf held st -> keeps (addNamespace n a b) (wf held) st.
Proof.
  intros H. unfold addNamespace. apply wp_bind, wp_get, wp_bind, wp_throw_if; [done|]. intros _.
  apply wp_bind. eapply wp_mono; [apply soft_hasDisabled| |by intros ? ->]. intros d ? ->. apply wp_bind, wp_throw_if; [done|]. intros _.
  apply wp_bind, wp_on_throw, wp_bind, wp_get. eapply wp_mono; [apply soft_addToList| |].
  - intros ? st' HS. eapply wp_mono; [apply (wp_createNamespace held); by apply (wf_soft _ _ _ HS)| |done]. by intros ? ? [].
  - intros st' HS e. apply wp_bind. pose proof (wf_soft _ _ _ HS H) as H'.
    eapply wp_mono; [apply (soft_params_mono _ held); [|exact H']|by intros ? ? ?|done].
    unfold removeNamespaceFromMountPoints_. apply wp_bind, wp_get. apply soft_removeFromList.
Qed.

(** ** Disabling a namespace *)
Definition on_nsMap (f : gmap string SCOCacheNamespace -> gmap string SCOCacheNamespace) (st : St) : St := set_nsMap (f (nsMap_ st)) st.

Lemma release_on_nsMap f p st : intrusive_ptr_release p (on_nsMap f st) = on_nsMap f (intrusive_ptr_release p st).
Proof.
  assert (forall q st, destroy_sco q (on_nsMap f st) = on_nsMap f (destroy_sco q st)) as HD.
  { intros q st0. unfold destroy_sco. change (sco (on_nsMap f st0) q) with (sco st0 q). destruct (unlink_on_destruction_ (sco st0 q)); [|done].
    rewrite (bind_blind (on_nsMap f)); [done| |].
    - intros st1. unfold addToGarbage. change (disk (on_nsMap f st1)) with (disk st1). change (file_of (on_nsMap f st1)) with (file_of st1). by destruct (_ && _).
    - intros st1. unfold updateUsedSize. change (mp (on_nsMap f st1)) with (mp st1).
      repeat match goal with |- context [if ?b then _ else _] => destruct b end; done. }
  unfold intrusive_ptr_release. change (on_sco p ?g (on_nsMap f st)) with (on_nsMap f (on_sco p g st)).
  change (sco (on_nsMap f ?s) p) with (sco s p). destruct (_ =? 0); [apply HD|done].
Qed.

Lemma ns_delete_erase n (l : list (SCO.SCO * SCOCacheNamespaceEntry)) st :
  NoDup l.*1 -> (forall s e, (s, e) ∈ l -> find_entry st n s = Some e) ->
  fold_left (fun st '(_, e) => intrusive_ptr_release (sco_ e) st) l (on_nsMap (delete n) st) =
  on_nsMap (delete n) (erase_entries ((fun q => (n, fst q)) <$> l) st).
Proof.
  revert st. induction l as [|[s e] l IH]; intros st Hnd Hl; [done|]. cbn [fold_left fmap list_fmap]. apply NoDup_cons in Hnd as [Hs Hnd].
  assert (find_entry st n s = Some e) as He by (apply Hl; left).
  assert (on_nsMap (delete n) (ns_erase n s st) = intrusive_ptr_release (sco_ e) (on_nsMap (delete n) st)) as <-.
  { unfold ns_erase. rewrite He, <- release_on_nsMap. f_equal. unfold on_nsMap, on_ns, set_nsMap. cbn. f_equal. apply delete_alter_eq. }
  rewrite IH; [done|done|]. intros t e' Ht. rewrite (proj2 (ns_erase_parts n s st)), bool_decide_false; [apply Hl; by right|].
  intros [_ ->]. apply Hs. apply list_elem_of_fmap. exists (t, e'). done.
Qed.

Lemma ordered_nodup `{Countable K} {A} ltb (m : gmap K A) : NoDup (ordered ltb m).*1.
Proof. unfold ordered. rewrite merge_sort_Permutation. apply NoDup_fst_map_to_list. Qed.

Lemma disable_eq n ns st : nsMap_ st !! n = Some ns ->
  disableNamespace_ n st = on_nsMap (delete n) (erase_entries ((fun q => (n, fst q)) <$> entry_list ns) st).
Proof.
  intros Hns. unfold disableNamespace_. rewrite Hns. apply (ns_delete_erase n (entry_list ns) st); [apply ordered_nodup|].
  intros s e Hs. apply elem_of_ordered in Hs. unfold find_entry. by rewrite Hns.
Qed.

Lemma find_delete_ns n st k s : find_entry (on_nsMap (delete n) st) k s = if bool_decide (n = k) then None else find_entry st k s.
Proof. unfold find_entry, on_nsMap. cbn. case_bool_decide as E; [subst; by rewrite lookup_delete_eq|by rewrite lookup_delete_ne]. Qed.

Lemma wf_delete_empty held n st : wf held st -> (forall s, find_entry st n s = None) -> wf held (on_nsMap (delete n) st).
Proof.
  intros H He. apply wf_set_nsMap; [|done]. intros k s. change (find_entry (on_nsMap (delete n) st) k s = find_entry st k s).
  rewrite find_delete_ns. case_bool_decide as E; [subst; by rewrite He|done].
Qed.

Lemma wf_disableNamespace_ held n st : wf held st -> wf held (disableNamespace_ n st).
Proof.
  intros H. destruct (nsMap_ st !! n) as [ns|] eqn:Hns; [|unfold disableNamespace_; by rewrite Hns].
  rewrite (disable_eq _ _ _ Hns). apply wf_delete_empty; [by apply wf_erase_entries|]. intros s.
  rewrite (proj2 (erase_entries_parts _ st)). case_bool_decide as Hin; [done|]. destruct (find_entry st n s) as [e|] eqn:He; [|done].
  destruct Hin. apply list_elem_of_fmap. exists (s, e). split; [done|]. apply elem_of_ordered. unfold find_entry in He. by rewrite Hns in He.
Qed.

(** ** Access values *)
Lemma soft_fold_xval g ps st : soft st (fold_left (fun st p => on_sco p (with_xval (g p)) st) ps st).
Proof. revert st. induction ps as [|p ps IH]; intros st; cbn; [done|]. etrans; [|apply IH]. apply soft_on_sco. done. Qed.

Lemma soft_rescaleXVals_ st : keeps rescaleXVals_ (soft st) st.
Proof.
  unfold rescaleXVals_. apply wp_bind, wp_get. cbv zeta. apply wp_bind, wp_verify; [done|]. intros _. apply wp_bind, wp_modify.
  match goal with |- context [fold_left ?f (all_scos st) st] =>
    lazymatch f with fun st p => _ => assert (soft st (fold_left f (all_scos st) st)) as HS by apply soft_fold_xval end end.
  apply wp_bind, wp_verify; intros _; [done|]. apply wp_modify. etrans; [exact HS|apply soft_set_xvals].
Qed.

(** ** Enabling a namespace *)

(** Nothing of the namespace is being deleted. *)
Definition undisturbed (n : string) (st : St) : Prop := forall q o, q ∈ to_delete st -> scos st !! q = Some o -> nspace_ o <> n.

Lemma undisturbed_entry held n s e st : wf held st -> undisturbed n st -> find_entry st n s = Some e -> sco_ e ∉ to_delete st.
Proof. intros H HU He Hd. destruct (wf_entry _ _ H n s e He) as (o & Ho & Hn & _). by apply (HU _ _ Hd Ho). Qed.

Lemma undisturbed_soft n st st' : soft st st' -> undisturbed n st -> undisturbed n st'.
Proof.
  intros HS HU q o' Hq Ho'. rewrite (soft_delete _ _ HS) in Hq. destruct (soft_lookup_sco _ _ _ _ HS Ho') as (o & Ho & (Hn & _) & _).
  rewrite Hn. by apply (HU q o).
Qed.

Lemma release_to_delete p st : to_delete (intrusive_ptr_release p st) `sublist_of` to_delete st.
Proof.
  unfold intrusive_ptr_release. destruct (_ =? 0); [|done]. unfold destroy_sco. set (st1 := on_sco _ _ st).
  destruct (unlink_on_destruction_ (sco st1 p)); [|apply lfilter_sublist]. set (m := addToGarbage _ ;! _).
  assert (to_delete (fst (m st1)) = to_delete st1) as E by (unfold m, mbind, addToGarbage, updateUsedSize; repeat case_match; simplify_eq; done).
  cbn [to_delete set_to_delete]. rewrite E. apply lfilter_sublist.
Qed.

(** The invariant of the loops over the files. *)
Definition scanning (held : list nat) (n : string) (L : list nat) (st : St) : Prop :=
  wf held st /\ undisturbed n st /\ mountPoints_ st = L.

Lemma scanning_release held n L p st : scanning (p :: held) n L st -> scanning held n L (intrusive_ptr_release p st).
Proof.
  intros (H & HU & HL). split_and!; [by apply wf_release| |by rewrite (frame_list _ _ (frame_release p st))].
  intros q o' Hq Ho'. destruct (proj2 (release_parts p st) q o' Ho') as (o & Ho & (Hn & _)). rewrite Hn.
  apply (HU q o); [|done]. eapply elem_of_sublist; [exact Hq|apply release_to_delete].
Qed.

Lemma scanning_scan held n s p f L st : scanning held n L st -> p ∈ L ->
  wp (scan_CachedSCO n s p f) (fun q st' => scanning (q :: held) n L st' /\ scos st' !! q = Some (mkCachedSCO n s p (st_size f) Float.zero (s_isvtx f) false 1))
    (scanning held n L) st.
Proof.
  intros (H & HU & HL) Hp. unfold scan_CachedSCO. apply wp_bind, wp_get, wp_bind, wp_throw_if; [done|]. intros _. apply wp_bind, wp_throw_if; [done|]. intros _.
  eapply wp_mono; [apply (wf_new_object held _ st H); [done|]| |done].
  - cbn. destruct (wf_online _ _ H p) as [[=]|(m & Hm & _)]; [by rewrite HL|by exists m].
  - intros q st' (Eq & H' & ->). split; [|cbn; apply lookup_insert_eq]. split_and!; [done| |done].
    intros r o Hr Ho. cbn in Ho. change (r ∈ to_delete st) in Hr. destruct (decide (q = r)) as [->|Hne].
    + destruct (proj2 (wf_delete _ _ H) r Hr) as (o' & _ & Ho' & _). rewrite (proj1 (wf_fresh _ _ H r ltac:(lia))) in Ho'. done.
    + rewrite lookup_insert_ne in Ho by done. by apply (HU r o).
Qed.

Lemma scanning_insert held n L p b o st : scanning held n L st -> p ∈ held -> scos st !! p = Some o -> mntPoint_ o ∈ L ->
  keeps (insertSCO_ p b) (scanning held n L) st.
Proof.
  intros (H & HU & HL) Hp Ho Hm. pose proof (@wp_insertSCO_ None held p b st H Hp) as HW. rewrite (sco_lookup _ _ _ Ho), HL in HW. specialize (HW Hm).
  assert (wp (insertSCO_ p b) (fun _ st' => undisturbed n st' /\ mountPoints_ st' = L) (fun st' => undisturbed n st' /\ mountPoints_ st' = L) st) as HX.
  { unfold insertSCO_. apply wp_bind, wp_get. destruct (nsMap_ st !! _); [|done]. apply wp_bind, wp_verify; [done|]. intros _.
    apply wp_bind, wp_modify, wp_modify. split; [|done]. intros r o' Hr Ho'. cbn in Ho'. change (r ∈ to_delete st) in Hr.
    destruct (decide (p = r)) as [->|Hne]; [rewrite lookup_alter_eq, Ho in Ho'; injection Ho' as <-; by apply (HU r o)|].
    rewrite lookup_alter_ne in Ho' by done. by apply (HU r o'). }
  unfold wp in *. destruct (insertSCO_ p b st) as [st' []]; unfold scanning; tauto.
Qed.

Lemma scanning_scanNamespace held n p L st : scanning held n L st -> p ∈ L -> keeps (scanNamespace p n) (scanning held n L) st.
Proof.
  intros H Hp. unfold scanNamespace. apply wp_bind. eapply wp_mono; [apply soft_hasNamespace_| |by intros ? ->]. intros b ? ->.
  apply wp_bind. destruct b; [|by apply wp_throw]. apply wp_ret, wp_bind, wp_get. apply wp_iter; [done|]. intros [s f] st1 _ H1.
  apply wp_bind. eapply wp_mono; [apply (scanning_scan held); [exact H1|exact Hp]| |done]. intros q st2 [H2 Ho].
  apply wp_bind, wp_releasing. eapply wp_mono; [eapply (scanning_insert (q :: held) n L q true _ st2 H2); [left|exact Ho|exact Hp]| |].
  - intros ? st3 H3. apply wp_modify. by apply scanning_release.
  - intros st3 H3. by apply scanning_release.
Qed.

(** [initXVals_] unblocks the SCOs of the namespace. *)
Lemma scanning_setBlocked held n L s b st : scanning held n L st -> scanning held n L (setBlocked n s b st).
Proof.
  intros (H & HU & HL). split_and!; [|done|done]. destruct b; [by apply wf_setBlocked_true|]. apply wf_setBlocked_false; [done|].
  intros e. by apply (undisturbed_entry held).
Qed.

Lemma scanning_soft held n L st st' : soft st st' -> scanning held n L st -> scanning held n L st'.
Proof. intros HS (H & HU & HL). split_and!; [by apply (wf_soft _ _ _ HS)|by apply (undisturbed_soft _ _ _ HS)|by rewrite (soft_list _ _ HS)]. Qed.

Lemma scanning_xval held n L q x st : scanning held n L st -> scanning held n L (on_sco q (with_xval x) st).
Proof. apply scanning_soft. apply soft_on_sco. done. Qed.

Lemma scanning_fold {A} held n L (f : St -> A -> St) l st : (forall st a, scanning held n L st -> scanning held n L (f st a)) ->
  scanning held n L st -> scanning held n L (fold_left f l st).
Proof. intros Hf. revert st. induction l as [|a l IH]; intros st H; cbn; [done|]. apply IH, Hf, H. Qed.

Lemma scanning_initXVals_ held n L sad st : scanning held n L st -> keeps (initXVals_ n sad) (scanning held n L) st.
Proof.
  intros H. unfold initXVals_. apply wp_bind, wp_modify, wp_bind, wp_modify. set (st1 := fold_left _ sad st).
  assert (scanning held n L st1) as H1.
  { apply scanning_fold; [|done]. intros st' [s x] H'. destruct (find_entry st' n s) as [e|]; [|done]. apply scanning_setBlocked, scanning_xval, H'. }
  cbv zeta. set (st2 := fold_left _ _ st1). assert (scanning held n L st2) as H2.
  { apply scanning_fold; [|done]. intros st' [s e] H'. destruct (blocked_ e); [|done]. apply scanning_setBlocked, scanning_xval, H'. }
  eapply wp_mono; [apply soft_rescaleXVals_| |]; [intros ? st'|intros st']; intros HS; by apply (scanning_soft _ _ _ _ _ HS).
Qed.

Lemma wp_enableNamespace held n a b sad st : wf held st -> keeps (enableNamespace n a b sad) (wf held) st.
Proof.
  intros H. unfold enableNamespace. apply wp_bind, wp_get, wp_bind, wp_throw_if; [done|]. intros Hn. apply bool_decide_eq_false, eq_None_not_Some in Hn.
  apply wp_bind. eapply wp_mono; [by apply (wp_createNamespace held)| |done]. intros ? st1 (H1 & -> & _).
  set (st1 := set_nsMap _ st) in *. assert (scanning held n (mountPoints_ st) st1) as HS.
  { split_and!; [done| |done]. intros q o Hq Ho E. destruct (proj2 (wf_delete _ _ H) q Hq) as (o' & e & Ho' & He & _).
    change (scos st !! q = Some o) in Ho. rewrite Ho' in Ho. injection Ho as <-. unfold find_entry in He. by rewrite E, Hn in He. }
  apply wp_bind, wp_on_throw. eapply wp_mono; [apply (wp_iter _ (scanning held n (mountPoints_ st))); [exact HS|]| |].
  - intros p st2 Hp H2. apply wp_bind. eapply wp_mono; [apply soft_hasNamespace_| |by intros ? ->]. intros c ? ->.
    destruct c; [apply (scanning_scanNamespace held n p); [exact H2|exact Hp]|]. eapply wp_mono; [apply soft_mp_addNamespace| |]; [intros ? st'|intros st']; intros HS'; by apply (scanning_soft _ _ _ _ _ HS').
  - intros ? st2 H2. eapply wp_mono; [apply (scanning_initXVals_ held n (mountPoints_ st)); exact H2| |]; [intros ? st'|intros st']; intros H'; apply H'.
  - intros st2 H2 e. apply wp_bind, wp_modify, wp_throw. apply wf_disableNamespace_, H2.
Qed.

Lemma wp_disableNamespace held n st : wf held st -> keeps (disableNamespace n) (wf held) st.
Proof. intros H. unfold disableNamespace. apply wp_bind, wp_findNamespace; [done|]. intros ns Hns. apply wp_modify. by apply wf_disableNamespace_. Qed.

Lemma wp_setNamespaceLimits held n a b st : wf held st -> keeps (setNamespaceLimits n a b) (wf held) st.
Proof.
  intros H. unfold setNamespaceLimits. apply wp_bind, wp_findNamespace; [done|]. intros ns Hns. apply wp_modify.
  apply (wf_soft _ st); [by apply soft_on_ns|done].
Qed.

Lemma wp_setNamespaceLimitMax held n b st : wf held st -> keeps (setNamespaceLimitMax n b) (wf held) st.
Proof.
  intros H. unfold setNamespaceLimitMax. apply wp_bind, wp_findNamespace; [done|]. intros ns Hns. apply wp_modify.
  apply (wf_soft _ st); [by apply soft_on_ns|done].
Qed.

(** ** Adding mount points *)
Lemma wf_new_list held l c st : wf held st -> NoDup l -> (forall n s e, find_entry st n s = Some e -> mntPoint_ (sco st (sco_ e)) ∈ l) ->
  (forall p, p ∈ l -> exists m, mps st !! p = Some m /\ offline_ m = false) -> (forall p, c = Some p -> p ∈ l) ->
  wf held (set_list l c st).
Proof.
  intros [] Hnd He Ho Hc. split; try done.
  - intros n s e Hf. destruct (wf_entry n s e Hf) as (o & Hp & Hn & Hs & _). exists o. split_and!; try done. left. rewrite <- (sco_lookup _ _ _ Hp). by eapply He.
  - intros p Hp. right. by apply Ho.
  - intros p Hp. left. by apply Hc.
Qed.

Lemma wf_new_mp held m st : wf held st -> 0 <= used_ m <= capacity_ m ->
  wp (new_mp m) (fun p st' => wf held st' /\ p = next_ st /\ st' = set_next (S p) (set_mps (<[p := m]> (mps st)) st)) (fun _ => False) st.
Proof.
  intros H Hu. unfold wp, new_mp. split_and!; try done. set (p := next_ st). destruct (wf_fresh _ _ H p ltac:(done)) as [_ Hp].
  destruct H. split; try done; cbn [mps scos next_ mountPoints_ set_next set_mps].
  - intros q Hq. destruct (wf_fresh q ltac:(unfold p in *; lia)) as [H1 H2]. split; [done|]. by rewrite lookup_insert_ne by lia.
  - intros q Hq. destruct (wf_online q Hq) as [[=]|(m' & Hm' & Ho)]. right. exists m'. rewrite lookup_insert_ne; [done|congruence].
  - intros q o Ho. destruct (wf_mp q o Ho) as [m' Hm']. exists m'. rewrite lookup_insert_ne; [done|congruence].
  - intros q m'. destruct (decide (p = q)) as [->|]; [rewrite lookup_insert_eq; by intros [= <-]|rewrite lookup_insert_ne by done; apply wf_used].
Qed.

Lemma validateParams_pos cfg d c : validateParams_ cfg d = Ok c -> 0 <= c.
Proof.
  unfold validateParams_. pose proof (wrap_fits 64 (cfg_size cfg) ltac:(lia)) as [H1 _]. pose proof (wrap_fits 64 (fs_size d) ltac:(lia)) as [H2 _].
  repeat case_match; intros; inv_ok; lia.
Qed.

Lemma scan_bound c d u : 0 <= c -> scan_ c d = Ok u -> 0 <= u <= c.
Proof.
  intros Hc. unfold scan_. apply (rfold_ind _ (fun _ u => 0 <= u <= c)); [lia|]. intros _ f t t' _ Hf.
  pose proof (wrap_fits 64 (t + st_size f) ltac:(lia)) as [H0 _]. destruct (Z.leb_spec (u64 (t + st_size f)) c); [|done]. inv_ok. lia.
Qed.

(** What the constructor makes is a mount point that is online. *)
Lemma wp_construct held cfg restart uuid st : wf held st ->
  wp (construct cfg restart uuid) (fun p st' => wf held st' /\ p = next_ st /\ exists m, offline_ m = false /\ st' = set_next (S p) (set_mps (<[p := m]> (mps st)) st)) (fun st' => st' = st) st.
Proof.
  intros H. unfold construct. apply wp_bind, wp_get, wp_bind, wp_lift. destruct (disks st !! cfg_path cfg) as [d|]; [|done].
  assert (match (if restart then restart_ cfg d else newMountPointStage1_ cfg d uuid) with Ok m => 0 <= used_ m <= capacity_ m /\ offline_ m = false | Throw _ => True end) as Hm.
  { destruct restart.
    - unfold restart_. destruct (validateParams_ cfg d) as [c|] eqn:Ec; cbn [rbind]; [|done]. apply validateParams_pos in Ec.
      destruct (lockfile d) as [[u e]|]; [|done]. destruct (scan_ c d) as [us|] eqn:Es; cbn [rbind]; [|done]. apply scan_bound in Es; [|done].
      destruct (writable d); [|done]. cbn. auto.
    - unfold newMountPointStage1_. destruct (_ || _); [done|]. destruct (validateParams_ cfg d) as [c|] eqn:Ec; cbn [rbind]; [|done]. apply validateParams_pos in Ec.
      destruct (writable d); [|done]. cbn. lia. }
  destruct (if restart then _ else _) as [m|e]; [|done]. destruct Hm as [Hu Ho].
  eapply wp_mono; [apply (wf_new_mp held m st H Hu)| |done]. intros p st' (H' & Ep & ->). split_and!; [done|done|]. by exists m.
Qed.

Lemma fresh_mp held st : wf held st -> next_ st ∉ mountPoints_ st.
Proof. intros H Hp. destruct (wf_online _ _ H _ Hp) as [[=]|(m & Hm & _)]. by rewrite (proj2 (wf_fresh _ _ H (next_ st) ltac:(done))) in Hm. Qed.

Lemma wf_push_mp held p st : wf held st -> p ∉ mountPoints_ st -> (exists m, mps st !! p = Some m /\ offline_ m = false) ->
  wf held (set_list (mountPoints_ st ++ [p]) (currentMountPoint_ st) st).
Proof.
  intros H Hp Hm. apply wf_new_list; [done| | | |].
  - apply NoDup_app. split_and!; [apply (wf_list _ _ H)|set_solver|apply NoDup_singleton].
  - intros n s e He. apply elem_of_app. left. by apply (wf_entry_sco _ _ _ _ _ H He).
  - intros q [Hq| ->%list_elem_of_singleton]%elem_of_app; [|done]. destruct (wf_online _ _ H q Hq) as [[=]|Hq']. done.
  - intros q Hq. apply elem_of_app. left. destruct (wf_current _ _ H q Hq) as [?|[=]]. done.
Qed.

(** ** Removing mount points, while no cleanup is under way *)
Lemma uses_app p l1 l2 : uses p (l1 ++ l2) = uses p l1 + uses p l2.
Proof. induction l1 as [|q l1 IH]; cbn [app uses]; [done|]. rewrite IH. lia. Qed.

Lemma wf_add_refs held l st : wf held st -> to_delete st = [] -> (forall p, p ∈ l -> is_Some (scos st !! p)) ->
  wf (l ++ held) (fold_left (fun st q => intrusive_ptr_add_ref q st) l st) /\ to_delete (fold_left (fun st q => intrusive_ptr_add_ref q st) l st) = [] /\
  (forall q, option_relation same_key (fun _ => False) (fun _ => False) (scos st !! q) (scos (fold_left (fun st q => intrusive_ptr_add_ref q st) l st) !! q)) /\
  nsMap_ (fold_left (fun st q => intrusive_ptr_add_ref q st) l st) = nsMap_ st.
Proof.
  revert held st. induction l as [|p l IH]; intros held st H Ht Hl; cbn [fold_left app].
  - split_and!; try done. intros q. apply opt_refl. done.
  - assert (wf (p :: held) (intrusive_ptr_add_ref p st)) as H1 by (apply wf_add_ref; [done|apply Hl; left|rewrite Ht; apply not_elem_of_nil]).
    assert (forall q, option_relation same_key (fun _ => False) (fun _ => False) (scos st !! q) (scos (intrusive_ptr_add_ref p st) !! q)) as HK.
    { intros q. cbn. apply opt_alter; done. }
    destruct (IH (p :: held) (intrusive_ptr_add_ref p st) H1 Ht) as (H2 & Ht2 & HK2 & HN2).
    { intros q Hq. specialize (HK q). destruct (Hl q ltac:(by right)) as [o Ho]. rewrite Ho in HK. destruct (scos _ !! q); [by eexists|done]. }
    split_and!; [|done| |done].
    + eapply wf_perm; [|exact H2]. intros q. rewrite uses_app. cbn [uses]. rewrite uses_app. lia.
    + intros q. eapply opt_trans; [|apply HK|apply HK2]. intros a b c. unfold same_key. intuition congruence.
Qed.

Lemma wf_releases held l st : wf (l ++ held) st -> wf held (fold_left (fun st q => intrusive_ptr_release q st) l st).
Proof. revert st. induction l as [|p l IH]; intros st H; cbn; [done|]. apply IH. by apply wf_release. Qed.

Lemma releases_parts l st : nsMap_ (fold_left (fun st q => intrusive_ptr_release q st) l st) = nsMap_ st /\
  heap_sub st (fold_left (fun st q => intrusive_ptr_release q st) l st) /\ frame st (fold_left (fun st q => intrusive_ptr_release q st) l st) /\
  to_delete (fold_left (fun st q => intrusive_ptr_release q st) l st) `sublist_of` to_delete st.
Proof.
  revert st. induction l as [|p l IH]; intros st; cbn [fold_left].
  - split_and!; try done. intros q o Ho. by exists o.
  - destruct (IH (intrusive_ptr_release p st)) as (E1 & E2 & E3 & E4). destruct (release_parts p st) as [E5 E6]. split_and!.
    + congruence.
    + by eapply heap_sub_trans.
    + etrans; [apply frame_release|done].
    + etrans; [done|apply release_to_delete].
Qed.

Lemma remove_iter held n (les : list (SCO.SCO * SCOCacheNamespaceEntry)) st : wf held st -> is_Some (nsMap_ st !! n) ->
  (forall s e, (s, e) ∈ les -> sco_ e ∈ held /\ nspace_ (sco st (sco_ e)) = n /\ scoName_ (sco st (sco_ e)) = s) ->
  miter (fun q => removeSCO_ q false) ((fun x => sco_ (snd x)) <$> les) st = (erase_entries ((fun x => (n, fst x)) <$> les) st, Ok tt).
Proof.
  revert st. induction les as [|[s e] les IH]; intros st H Hns Hk; [done|]. cbn [fmap list_fmap miter snd fst].
  destruct (Hk s e ltac:(left)) as (Hh & Hn & Hs). unfold mbind at 1, removeSCO_, mbind, mget, findNamespace_throw_, mmodify.
  rewrite Hn, Hs. destruct Hns as [ns Hns]. rewrite Hns. cbn [mret]. unfold mret.
  pose proof (wf_ns_erase _ n s _ H) as H1. destruct (ns_erase_parts n s st) as [HS _].
  rewrite IH; [done|done| |].
  - apply (erase_entries_ns [(n, s)]). by exists ns.
  - intros t e' Ht. destruct (Hk t e' ltac:(by right)) as (Hh' & Hn' & Hs'). destruct (wf_held _ _ H1 _ Hh') as [o Ho].
    destruct (heap_sub_sco _ _ _ _ HS Ho) as (E1 & E2 & _). rewrite E1, E2. auto.
Qed.

Lemma erase_entries_to_delete l st : to_delete (erase_entries l st) `sublist_of` to_delete st.
Proof.
  revert st. induction l as [|[k s] l IH]; intros st; cbn; [done|]. etrans; [apply IH|]. unfold ns_erase. destruct (find_entry st k s); [|done].
  etrans; [apply release_to_delete|done].
Qed.

Lemma erase_entries_other n (l : list SCO.SCO) k st : k <> n -> nsMap_ (erase_entries ((fun s => (n, s)) <$> l) st) !! k = nsMap_ st !! k.
Proof.
  intros Hne. revert st. induction l as [|s l IH]; intros st; cbn; [done|]. fold (erase_entries ((fun s => (n, s)) <$> l) (ns_erase n s st)). rewrite IH.
  unfold ns_erase. destruct (find_entry st n s); [|done]. rewrite (proj1 (release_parts _ _)). cbn. by rewrite lookup_alter_ne.
Qed.

(** All SCOs of the namespace go, whatever their mount point. *)
Lemma wp_remove_from_namespace held p force n ns st : wf held st -> to_delete st = [] -> nsMap_ st !! n = Some ns ->
  wp (remove_from_namespace p force ns)
    (fun _ st' => wf held st' /\ to_delete st' = [] /\ heap_sub st st' /\ frame st st' /\
       (forall k s, find_entry st' k s = if bool_decide (k = n) then None else find_entry st k s) /\
       (forall k, k <> n -> nsMap_ st' !! k = nsMap_ st !! k))
    (fun st' => st' = st) st.
Proof.
  intros H Ht Hns. unfold remove_from_namespace. apply wp_bind, wp_get, wp_bind, wp_lift.
  assert (forall s e, (s, e) ∈ entry_list ns -> find_entry st n s = Some e) as Hle.
  { intros s e Hs. apply elem_of_ordered in Hs. unfold find_entry. by rewrite Hns. }
  set (f := fun (l : list nat) '((_, e) : SCO.SCO * SCOCacheNamespaceEntry) => _).
  assert (forall les l l', rfold f l les = Ok l' -> l' = l ++ ((fun x => sco_ (snd x)) <$> les)) as HR.
  { clear. induction les as [|[s e] les IH]; intros l l' E; cbn [rfold fmap list_fmap snd] in *; [inv_ok; by rewrite app_nil_r|].
    inv_bind E. unfold f in E0. destruct (_ && _ && _); [done|]. destruct (2 <? _); [done|]. injection E0 as <-. apply IH in E1. by rewrite E1, <- app_assoc. }
  destruct (rfold f [] (entry_list ns)) as [l|e] eqn:El; [|done]. apply HR in El. cbn [app] in El. clear HR f.
  apply wp_bind, wp_modify.
  assert (forall q, q ∈ l -> is_Some (scos st !! q)) as Hlive.
  { intros q. rewrite El. intros ([s e] & -> & Hs)%list_elem_of_fmap. destruct (wf_entry_sco _ _ _ _ _ H (Hle s e Hs)) as (Ho & _). by eexists. }
  destruct (wf_add_refs held l st H Ht Hlive) as (H1 & Ht1 & HK1 & HN1). set (st1 := fold_left _ l st) in *.
  assert (frame st st1) as F1.
  { unfold st1. clear. revert st. induction l as [|q l IH]; intros st; cbn; [done|]. etrans; [|apply IH]. split; try done. intros. apply opt_refl, soft_mp_refl. }
  assert (heap_sub st st1) as S1.
  { intros q o' Ho'. specialize (HK1 q). rewrite Ho' in HK1. destruct (scos st !! q) as [o|]; [|done]. by exists o. }
  assert (forall k s, find_entry st1 k s = find_entry st k s) as E1 by (intros; unfold find_entry; by rewrite HN1).
  apply wp_bind. unfold wp. rewrite El, (remove_iter (l ++ held) n).
  2: exact H1. 2: { rewrite HN1. by exists ns. }
  2: { intros s e Hs. pose proof (Hle s e Hs) as He. rewrite <- E1 in He. destruct (wf_entry _ _ H1 n s e He) as (o & Ho & Hn & Hs' & _).
       rewrite (sco_lookup _ _ _ Ho). split_and!; try done. apply elem_of_app. left. rewrite El. apply list_elem_of_fmap. by exists (s, e). }
  rewrite <- El. set (st2 := erase_entries _ st1). pose proof (wf_erase_entries _ ((fun x => (n, fst x)) <$> entry_list ns) _ H1) as H2. fold st2 in H2.
  destruct (erase_entries_parts ((fun x => (n, fst x)) <$> entry_list ns) st1) as [S2 E2]. fold st2 in S2, E2.
  pose proof (frame_erase_entries ((fun x => (n, fst x)) <$> entry_list ns) st1) as F2. fold st2 in F2.
  destruct (releases_parts l st2) as (N3 & S3 & F3 & T3). unfold mmodify. set (st3 := fold_left _ l st2) in *. cbn beta iota.
  split_and!; [by apply wf_releases| |by eapply heap_sub_trans, heap_sub_trans|by etrans; [|etrans]| |].
  - pose proof (erase_entries_to_delete ((fun x => (n, fst x)) <$> entry_list ns) st1) as T2. fold st2 in T2.
    rewrite Ht1 in T2. apply sublist_nil_r in T2. rewrite T2 in T3. by apply sublist_nil_r in T3.
  - intros k s. unfold find_entry at 1. rewrite N3. fold (find_entry st2 k s). rewrite E2, E1. case_bool_decide as Hin; case_bool_decide as Hk; try done.
    + apply list_elem_of_fmap in Hin as ([t e] & [= -> ->] & _). done.
    + subst k. destruct (find_entry st n s) as [e|] eqn:He; [|done]. destruct Hin. apply list_elem_of_fmap. exists (s, e). split; [done|].
      apply elem_of_ordered. unfold find_entry in He. by rewrite Hns in He.
  - intros k Hk. rewrite N3. unfold st2. rewrite <- HN1.
    replace ((fun x => (n, fst x)) <$> entry_list ns) with ((fun s => (n, s)) <$> (entry_list ns).*1) by (by rewrite <- list_fmap_compose).
    by apply erase_entries_other.
Qed.

(** The loop over the namespaces: nothing is left in those that were visited. *)
Lemma wp_remove_all held p force (l : list (string * SCOCacheNamespace)) st : wf held st -> to_delete st = [] -> NoDup l.*1 ->
  (forall n ns, (n, ns) ∈ l -> nsMap_ st !! n = Some ns) ->
  wp (miter (fun '(_, ns) => remove_from_namespace p force ns) l)
    (fun _ st' => wf held st' /\ to_delete st' = [] /\ heap_sub st st' /\ frame st st' /\
       forall k s, find_entry st' k s = if bool_decide (k ∈ l.*1) then None else find_entry st k s)
    (fun st' => wf held st' /\ to_delete st' = []) st.
Proof.
  revert st. induction l as [|[n ns] l IH]; intros st H Ht Hnd Hl; cbn [miter].
  - apply wp_ret. split_and!; try done. intros q o Ho. by exists o.
  - cbn [fmap list_fmap fst] in Hnd. apply NoDup_cons in Hnd as [Hn Hnd]. apply wp_bind.
    eapply wp_mono; [apply (wp_remove_from_namespace held p force n ns st H Ht); apply Hl; left| |by intros ? ->].
    intros ? st1 (H1 & Ht1 & S1 & F1 & E1 & N1). eapply wp_mono; [apply (IH st1 H1 Ht1 Hnd)| |done].
    + intros k nsk Hk. rewrite N1; [apply Hl; by right|]. intros ->. apply Hn. apply list_elem_of_fmap. by exists (n, nsk).
    + intros ? st2 (H2 & Ht2 & S2 & F2 & E2). split_and!; [done|done|by eapply heap_sub_trans|by etrans|].
      intros k s. rewrite E2, E1. cbn [fmap list_fmap fst]. repeat case_bool_decide; set_solver.
Qed.

(** After the removal of a mount point no SCO of any mount point is in the cache. *)
Lemma wp_removeMountPoint_ held path force st : wf held st -> to_delete st = [] ->
  wp (removeMountPoint_ path force)
    (fun _ st' => ((force = false \/ (2 <= length (mountPoints_ st))%nat) -> wf held st') /\ to_delete st' = [] /\ (forall n s, find_entry st' n s = None))
    (fun st' => wf held st' /\ to_delete st' = []) st.
Proof.
  intros H Ht. unfold removeMountPoint_. apply wp_bind, wp_get. destruct (List.find _ _) as [p|] eqn:Ef; [|done].
  apply List.find_some in Ef as [Hp _]. apply list_elem_of_In in Hp. apply wp_bind, wp_throw_if; [done|]. intros Hlen. apply wp_bind.
  eapply wp_mono; [apply (wp_remove_all held p force (namespaces st) st H Ht); [apply ordered_nodup|intros n ns; apply elem_of_ordered]| |done].
  intros ? st1 (H1 & Ht1 & S1 & F1 & E1). apply wp_modify. pose proof (frame_list _ _ F1) as EL.
  assert (forall n s, find_entry st1 n s = None) as HE.
  { intros n s. rewrite E1. case_bool_decide as Hin; [done|]. destruct (find_entry st n s) as [e|] eqn:He; [|done]. destruct Hin.
    unfold find_entry in He. destruct (nsMap_ st !! n) as [ns|] eqn:Hns; [|done]. apply list_elem_of_fmap. exists (n, ns). split; [done|]. by apply elem_of_ordered. }
  split; [|split; [exact Ht1|exact HE]]. intros Hforce. apply wf_new_list; [done| | | |].
  - eapply sublist_NoDup; [apply (wf_list _ _ H1)|apply lfilter_sublist].
  - intros n s e He. by rewrite HE in He.
  - intros q [Hq _]%elem_of_without. destruct (wf_online _ _ H1 q Hq) as [[=]|?]. done.
  - intros q. rewrite elem_of_without. case_bool_decide as Hc.
    + rewrite EL. destruct (next_it (mountPoints_ st) p) as [r|] eqn:En.
      * intros [= <-]. rewrite (split_at_spec _ _ Hp) in En. pose proof (wf_list _ _ H) as Hnd. rewrite (split_at_spec _ _ Hp) in Hnd.
        destruct (nodup_parts _ _ _ Hnd) as (Hc1 & Hc2 & _). rewrite next_it_app in En by done. apply head_Some_elem_of in En.
        split; [|congruence]. rewrite (split_at_spec _ _ Hp). apply elem_of_app. right. by right.
      * intros Hh. pose proof (head_Some_elem_of _ _ Hh) as Hq. split; [done|]. intros ->.
        rewrite (split_at_spec _ _ Hp) in En. pose proof (wf_list _ _ H) as Hnd. rewrite (split_at_spec _ _ Hp) in Hnd.
        destruct (nodup_parts _ _ _ Hnd) as (Hc1 & Hc2 & _). rewrite next_it_app in En by done.
        destruct (snd (split_at p (mountPoints_ st))) eqn:Es; [|done]. rewrite (split_at_spec _ _ Hp), Es in Hh.
        destruct (fst (split_at p (mountPoints_ st))) as [|y r] eqn:Ea; [|cbn in Hh; injection Hh as ->; apply Hc1; left].
        rewrite (split_at_spec _ _ Hp), Ea, Es in Hlen, Hforce. cbn in Hlen, Hforce. destruct force; cbn in Hlen; [destruct Hforce; [done|lia]|done].
    + intros Hq. destruct (wf_current _ _ H1 q Hq) as [Hin|[=]]. split; [done|]. congruence.
Qed.

(** What is kept while no cleanup is under way. *)
Definition quiet (held : list nat) (st : St) : Prop := wf held st /\ to_delete st = [].

Lemma quiet_soft held st st' : soft st st' -> quiet held st -> quiet held st'.
Proof. intros HS [H Ht]. split; [by apply (wf_soft _ _ _ HS)|by rewrite (soft_delete _ _ HS)]. Qed.

Lemma wp_removeMountPoint held path st : quiet held st -> keeps (removeMountPoint path) (quiet held) st.
Proof. intros [H Ht]. eapply wp_mono; [by apply (wp_removeMountPoint_ held)| |done]. intros ? st' (H' & Ht' & _). split; [|done]. apply H'. by left. Qed.

Lemma wp_addMountPoint_ held cfg uuid st : quiet held st -> keeps (_addMountPoint cfg uuid) (quiet held) st.
Proof.
  intros [H Ht]. unfold _addMountPoint. apply wp_bind, wp_get, wp_bind, wp_throw_if; [done|]. intros _. apply wp_bind.
  eapply wp_mono; [by apply (wp_construct held)| |by intros ? ->]. intros p st1 (H1 & Ep & m & Hm & E1).
  assert (p ∉ mountPoints_ st1) as Hp. { rewrite E1, Ep. exact (fresh_mp held st H). }
  assert (mps st1 !! p = Some m) as Hm1. { rewrite E1. cbn. apply lookup_insert_eq. }
  assert (quiet held st1) as Q1 by (split; [done|by rewrite E1]). clear E1 H1.
  apply wp_bind. unfold newMountPointStage2. eapply wp_mono; [apply soft_setErrorCount| |].
  2: { intros st2 [HS _]. by apply (quiet_soft _ _ _ HS). }
  intros ? st2 [HS _]. pose proof (quiet_soft _ _ _ HS Q1) as [H2 Ht2]. destruct (soft_lookup_mp_r _ _ _ _ HS Hm1) as (m2 & Hm2 & (_ & _ & Ho2 & _)).
  apply wp_bind, wp_modify. set (st3 := set_list _ _ st2).
  assert (quiet held st3) as Q3. { split; [|done]. apply wf_push_mp; [done|by rewrite (soft_list _ _ HS)|]. exists m2. by rewrite Ho2. }
  apply wp_bind. eapply wp_mono; [apply (wp_iter _ (quiet held)); [exact Q3|]| |done].
  - intros [n ns] st4 _ Q4. apply wp_on_throw. eapply wp_mono; [apply soft_mp_addNamespace| |]; [intros ? st5|intros st5]; intros HS5; pose proof (quiet_soft _ _ _ HS5 Q4) as Q5; [done|].
    intros e. apply wp_bind. eapply wp_mono; [apply (wp_removeMountPoint held); exact Q5| |done]. done.
  - intros ? st4 [H4 Ht4]. apply wp_modify. destruct (_ =? 1)%nat; [|done]. split; [|done]. by apply wf_reset_current.
Qed.

Lemma wp_addMountPoint held cfg uuid st : quiet held st -> keeps (addMountPoint cfg uuid) (quiet held) st.
Proof. intros H. unfold addMountPoint. apply wp_bind, wp_modify. apply wp_addMountPoint_. eapply quiet_soft; [|exact H]. apply soft_set_params. Qed.

Lemma wp_ignore {A} (m : M St A) (P : St -> Prop) st : keeps m P st -> keeps (ignore m) P st.
Proof. intros H. unfold ignore. apply wp_on_throw, wp_bind. eapply wp_mono; [exact H|done|]. done. Qed.

Lemma wp_update held q uuids st : quiet held st -> keeps (update q uuids) (quiet held) st.
Proof.
  intros H. unfold update. apply wp_bind, wp_modify. apply wp_iter; [eapply quiet_soft; [|exact H]; apply soft_set_params|].
  intros [cfg uuid] st' _ H'. apply wp_bind, wp_get. destruct (hasMountPoint _ _); [done|]. apply wp_bind.
  eapply wp_mono; [apply (wp_ignore _ (quiet held)); by apply wp_addMountPoint_|done|done].
Qed.

(** ** The start *)
Lemma wp_ignore_spec {A} (m : M St A) (Q : option A -> St -> Prop) E st :
  wp m (fun a => Q (Some a)) (Q None) st -> wp (ignore m) Q E st.
Proof. intros H. unfold ignore. apply wp_on_throw, wp_bind. eapply wp_mono; [exact H|done|]. done. Qed.

Definition online (st : St) (p : nat) : Prop := exists m, mps st !! p = Some m /\ offline_ m = false.

(** While the mount points are made: no SCOs, and the new ones are not yet in the list. *)
Record starting (acc : list nat) (st : St) : Prop := mkStarting {
  starting_wf : wf [] st;
  starting_ns : nsMap_ st = ∅;
  starting_delete : to_delete st = [];
  starting_current : currentMountPoint_ st = None;
  starting_nodup : NoDup (mountPoints_ st ++ acc);
  starting_online : forall p, p ∈ acc -> online st p }.

Lemma starting_soft acc st st' : soft st st' -> nsMap_ st' = nsMap_ st -> starting acc st -> starting acc st'.
Proof.
  intros HS HN []. split; [by apply (wf_soft _ _ _ HS)|congruence|by rewrite (soft_delete _ _ HS)|by rewrite (soft_current _ _ HS)|by rewrite (soft_list _ _ HS)|].
  intros p Hp. destruct (starting_online0 p Hp) as (m & Hm & Ho). destruct (soft_lookup_mp_r _ _ _ _ HS Hm) as (m' & Hm' & (_ & _ & E & _)). exists m'. by rewrite E.
Qed.

(** A list of mount points that are there, none twice. *)
Lemma starting_list acc l st : starting acc st -> NoDup l -> (forall p, p ∈ l -> p ∈ mountPoints_ st ++ acc) ->
  starting [] (set_list l (currentMountPoint_ st) st).
Proof.
  intros [] Hnd Hl. split; try done; cbn; [|by rewrite app_nil_r|by intros p ?%elem_of_nil].
  apply wf_new_list; [done|done| | |].
  - intros n s e He. unfold find_entry in He. by rewrite starting_ns0, lookup_empty in He.
  - intros p Hp. apply Hl in Hp. apply elem_of_app in Hp as [Hp|Hp]; [|by apply starting_online0]. destruct (wf_online _ _ starting_wf0 p Hp) as [[=]|Ho]. done.
  - intros p Hp. congruence.
Qed.

Lemma starting_new held acc st p m : starting acc st -> wf held (set_next (S p) (set_mps (<[p := m]> (mps st)) st)) -> p = next_ st -> offline_ m = false -> held = [] ->
  starting (acc ++ [p]) (set_next (S p) (set_mps (<[p := m]> (mps st)) st)).
Proof.
  intros [] H -> Hm ->. assert (next_ st ∉ mountPoints_ st ++ acc) as Hp.
  { intros [Hp|Hp]%elem_of_app; [by apply (fresh_mp _ _ starting_wf0)|]. destruct (starting_online0 _ Hp) as (m' & Hm' & _).
    by rewrite (proj2 (wf_fresh _ _ starting_wf0 _ ltac:(done))) in Hm'. }
  split; try done.
  - cbn. rewrite app_assoc. apply NoDup_app. split_and!; [done|set_solver|apply NoDup_singleton].
  - intros q [Hq| ->%list_elem_of_singleton]%elem_of_app; [|exists m; cbn; by rewrite lookup_insert_eq].
    destruct (starting_online0 q Hq) as (m' & Hm' & Ho). exists m'. cbn. rewrite lookup_insert_ne; [done|]. intros <-. apply Hp. apply elem_of_app. by right.
Qed.

Lemma wp_init_one acc cfg uuid st : starting acc st -> wp (init_one acc cfg uuid) (fun acc' => starting acc') (fun _ => False) st.
Proof.
  intros H. unfold init_one. apply wp_bind, wp_get, wp_bind, wp_ignore_spec, wp_bind, wp_lift. destruct (mp_exists st cfg) as [restart|]; [|exact H].
  apply wp_bind. eapply wp_mono; [apply (wp_construct []); apply (starting_wf _ _ H)| |by intros ? ->].
  intros p st1 (H1 & Ep & m & Hm & E1). apply wp_ret. subst st1. pose proof (starting_new [] _ _ _ _ H H1 Ep Hm eq_refl) as H2.
  destruct restart; [|exact H2]. apply wp_bind, wp_modify, wp_ret. set (st1 := set_next _ _) in *.
  assert (starting acc (set_list (mountPoints_ st1 ++ [p]) (currentMountPoint_ st1) st1)) as H3.
  { destruct H2. split; try done.
    - apply wf_push_mp; [done| |].
      + rewrite app_assoc in starting_nodup0. apply NoDup_app in starting_nodup0 as (_ & Hd & _). intros Hp. apply (Hd p); [apply elem_of_app; by left|apply list_elem_of_singleton; done].
      + apply starting_online0. apply elem_of_app. right. by apply list_elem_of_singleton.
    - cbn. rewrite <- app_assoc. eapply NoDup_Permutation_proper; [|exact starting_nodup0]. apply Permutation_app_head, Permutation_app_comm.
    - intros q Hq. apply starting_online0. apply elem_of_app. by left. }
  eapply starting_soft; [apply soft_set_errcount| |exact H3]. done.
Qed.

Lemma wp_init_all acc cfgs st : starting acc st -> wp (init_all acc cfgs) (fun acc' => starting acc') (fun _ => False) st.
Proof.
  revert acc st. induction cfgs as [|[cfg uuid] cfgs IH]; intros acc st H; cbn [init_all]; [done|]. apply wp_bind.
  eapply wp_mono; [by apply wp_init_one| |done]. intros acc' st' H'. by apply IH.
Qed.

Lemma setErrorCount_ns p c st : nsMap_ (fst (setErrorCount p c st)) = nsMap_ st.
Proof. unfold setErrorCount, writeMetaData_, mbind, mmodify, mget, mthrow_if, mthrow, mret. by destruct (negb _). Qed.

Lemma wp_init_new acc l st : starting acc st -> l `sublist_of` acc -> wp (init_new l) (fun l' st' => starting acc st' /\ l' `sublist_of` l) (fun _ => False) st.
Proof.
  revert st. induction l as [|p l IH]; intros st H Hl; cbn [init_new]; [done|]. apply wp_bind, wp_get, wp_bind, wp_ignore_spec.
  assert (wp (newMountPointStage2 p (mpErrorCount_ st)) (fun _ => starting acc) (starting acc) st) as HS.
  { pose proof (soft_setErrorCount p (mpErrorCount_ st) st) as HS. pose proof (setErrorCount_ns p (mpErrorCount_ st) st) as HN.
    unfold wp, newMountPointStage2 in *. destruct (setErrorCount p (mpErrorCount_ st) st) as [st1 []]; destruct HS as [HS _]; by apply (starting_soft _ st). }
  eapply wp_mono; [exact HS| |].
  - intros ? st1 H1. apply wp_bind. eapply wp_mono; [apply IH; [exact H1|]| |done]; [etrans; [|exact Hl]; by apply sublist_cons|].
    intros l' st2 [H2 Hl']. apply wp_ret. split; [done|]. by apply sublist_skip.
  - intros st1 H1. apply wp_bind. eapply wp_mono; [apply IH; [exact H1|]| |done]; [etrans; [|exact Hl]; by apply sublist_cons|].
    intros l' st2 [H2 Hl']. apply wp_ret. split; [done|]. by apply sublist_cons.
Qed.

Lemma insert_uuid_perm st p l : insert_uuid st p l ≡ₚ p :: l.
Proof. induction l as [|q l IH]; cbn; [done|]. destruct (_ <? _); [done|]. rewrite IH. apply Permutation_swap. Qed.

Lemma sort_uuid_perm st l : sort_uuid st l ≡ₚ l.
Proof.
  unfold sort_uuid. enough (forall acc, fold_left (fun s p => insert_uuid st p s) l acc ≡ₚ acc ++ l) as H by apply (H []).
  induction l as [|p l IH]; intros acc; cbn; [by rewrite app_nil_r|]. rewrite IH, insert_uuid_perm. apply Permutation_middle.
Qed.

Lemma unique_sublist st k l : unique_uuid st k l `sublist_of` l.
Proof.
  revert k. induction l as [|p l IH]; intros k; cbn; [done|]. destruct k as [q|]; [|by apply sublist_skip].
  destruct (_ =? _); [by apply sublist_cons|by apply sublist_skip].
Qed.

Lemma wp_initMountPoints_ uuids st : starting [] st -> keeps (initMountPoints_ uuids) (quiet []) st.
Proof.
  intros H. unfold initMountPoints_. apply wp_bind, wp_get, wp_bind. eapply wp_mono; [by apply wp_init_all| |done]. intros acc st1 H1.
  apply wp_bind. eapply wp_mono; [by apply (wp_init_new acc)| |done]. intros acc' st2 [H2 Hacc].
  apply wp_bind, wp_modify. set (st3 := set_list _ _ st2).
  assert (mountPoints_ st2 ++ acc' `sublist_of` mountPoints_ st2 ++ acc) as Hsub by (by apply sublist_app).
  assert (starting [] st3) as H3.
  { apply (starting_list acc); [done| |].
    - eapply sublist_NoDup; [|apply unique_sublist]. rewrite sort_uuid_perm. eapply sublist_NoDup; [apply (starting_nodup _ _ H2)|done].
    - intros p Hp. eapply elem_of_sublist; [|exact Hsub]. rewrite <- (sort_uuid_perm st2). eapply elem_of_sublist; [exact Hp|apply unique_sublist]. }
  apply wp_bind, wp_modify. set (st4 := set_list _ _ st3). assert (starting [] st4) as H4.
  { apply (starting_list []); [done| |].
    - eapply sublist_NoDup; [apply (wf_list _ _ (starting_wf _ _ H3))|apply lfilter_sublist].
    - intros p Hp. rewrite app_nil_r. eapply elem_of_sublist; [exact Hp|apply lfilter_sublist]. }
  apply wp_bind, wp_modify. set (st5 := set_list _ _ st4). assert (wf [] st5) as H5 by (apply wf_reset_current, (starting_wf _ _ H4)).
  apply wp_bind, wp_get, wp_bind. unfold bumpMountPointErrorCount_. apply wp_bind, wp_modify, wp_bind, wp_get.
  destruct (wf_set_errcount _ (u64 (mpErrorCount_ st5 + 1)) _ H5) as [H6 _]. set (st6 := set_errcount _ st5) in *.
  eapply wp_mono; [apply (bump_loop_ok [] (length (mountPoints_ st6))); [done|done|done| |]| |done].
  - change (mountPoints_ st6) with (mountPoints_ st5). lia.
  - intros p st' Hp H' Hlen. by apply offlineMountPoint_ok.
  - intros ? st7 [H7 O7]. apply wp_bind, wp_get. assert (quiet [] st7) as Q7; [|apply wp_throw_if; done].
    split; [done|]. destruct (to_delete st7) as [|p l] eqn:Et; [done|]. destruct (proj2 (wf_delete _ _ H7) p) as (o & e & _ & He & _); [rewrite Et; left|].
    apply (off_find _ _ O7) in He as [He _]. unfold find_entry in He. change (nsMap_ st6) with (nsMap_ st4) in He. by rewrite (starting_ns _ _ H4), lookup_empty in He.
Qed.

Lemma starting_init q fss : starting [] (SCOCache_init q fss).
Proof.
  split; try done; [|apply NoDup_nil_2|by intros p ?%elem_of_nil]. split; try done; cbn.
  - intros p Hp. by apply elem_of_nil in Hp.
  - apply NoDup_nil_2.
  - intros p Hp. by apply elem_of_nil in Hp.
  - split; [apply NoDup_nil_2|]. intros p Hp. by apply elem_of_nil in Hp.
Qed.

Lemma quiet_start q fss uuids : quiet [] (fst (SCOCache_ q fss uuids)).
Proof.
  unfold SCOCache_. pose proof (starting_init q fss) as H. destruct (checkParameterConfig q); [|by split; [apply (starting_wf _ _ H)|]].
  pose proof (wp_initMountPoints_ uuids _ H) as HW. unfold wp in HW. by destruct (initMountPoints_ uuids _) as [st []].
Qed.
