(* ===== verification/SCOCacheClean.v ===== *)
(** * The cleanup of the SCO cache

    What the cleanup selects, that it keeps the invariant at every step, and what
    it leaves alone. *)

From Stdlib Require Import SpecFloat.
From stdpp Require Import sorting.
From S2P Require Import Prelude CheckSum Addressing SCOPool SCOCache SCOCacheFacts SCOCacheOps SCOCacheAdmin.
Import SCOCache.

(** ** Sets *)
Lemma set_insert_perm st p l : set_insert st p l ≡ₚ p :: l.
Proof. induction l as [|q l IH]; cbn; [done|]. destruct (SFltb _ _); [done|]. rewrite IH. apply Permutation_swap. Qed.

Lemma soft_maybeChoke st : soft st (maybeChokeNamespaces_ st).
Proof.
  unfold maybeChokeNamespaces_. generalize (namespaces st) as l. intros l. revert st. induction l as [|[n ns] l IH]; intros st; cbn [fold_left]; [done|].
  etrans; [|apply IH]. by apply soft_on_ns.
Qed.

(** SCOs that may be selected: listed once, not blocked. *)
Definition cand (st : St) (l : list nat) : Prop := NoDup l /\ forall p, p ∈ l -> exists n s e, find_entry st n s = Some e /\ sco_ e = p /\ blocked_ e = false.

Lemma cand_perm st l l' : l ≡ₚ l' -> cand st l -> cand st l'.
Proof. intros HP [Hn Hc]. split; [by rewrite <- HP|]. intros p. rewrite <- HP. apply Hc. Qed.

Lemma cand_sub st l l' : l' `sublist_of` l -> cand st l -> cand st l'.
Proof. intros HS [Hn Hc]. split; [by eapply sublist_NoDup|]. intros p Hp. apply Hc. by eapply elem_of_sublist. Qed.

Lemma cand_soft st st' l : (forall n s, find_entry st' n s = find_entry st n s) -> cand st l -> cand st' l.
Proof. intros HS [Hn Hc]. split; [done|]. intros p Hp. destruct (Hc p Hp) as (n & s & e & He & Hrest). exists n, s, e. by rewrite HS. Qed.

Lemma wf_add_delete held p o e st : wf held st -> scos st !! p = Some o -> find_entry st (nspace_ o) (scoName_ o) = Some e -> sco_ e = p -> blocked_ e = true ->
  p ∉ held -> p ∉ to_delete st -> wf held (set_to_delete (set_insert st p (to_delete st)) st).
Proof.
  intros [] Ho He Hs Hb Hh Hd. split; try done. destruct wf_delete as [Hnd Hdel]. split.
  - cbn. rewrite set_insert_perm. by apply NoDup_cons.
  - intros q. cbn. rewrite set_insert_perm, elem_of_cons. intros [->|Hq]; [|by apply Hdel]. by exists o, e.
Qed.

(** An entry with the object of another is that entry. *)
Lemma wf_entry_inj held n s e n' s' e' st : wf held st -> find_entry st n s = Some e -> find_entry st n' s' = Some e' -> sco_ e = sco_ e' -> n = n' /\ s = s'.
Proof.
  intros H He He' E. destruct (wf_entry _ _ H n s e He) as (o & Ho & Hn & Hs & _). destruct (wf_entry _ _ H n' s' e' He') as (o' & Ho' & Hn' & Hs' & _).
  rewrite E, Ho' in Ho. injection Ho as <-. split; congruence.
Qed.

(** Blocking a SCO that nobody else uses, and adding it to the set. *)
Lemma wf_select held p r st : wf held st -> cand st (p :: r) -> refcnt_ (sco st p) = 1 ->
  let o := sco st p in
  let st1 := setBlocked (nspace_ o) (scoName_ o) true st in
  let st2 := set_to_delete (set_insert st1 p (to_delete st1)) st1 in
  wf held st2 /\ cand st2 r.
Proof.
  intros H [Hnd Hc] Hr o st1 st2. destruct (Hc p ltac:(left)) as (n & s & e & He & Ep & Hb). apply NoDup_cons in Hnd as [Hpr Hnd].
  destruct (wf_entry_sco _ _ _ _ _ H He) as (Ho & Hn & Hs & Hm). rewrite Ep in Ho, Hn, Hs, Hm.
  assert (find_entry st1 (nspace_ o) (scoName_ o) = Some (mkEntry p true)) as He1.
  { unfold st1. rewrite find_setBlocked, bool_decide_true by done. subst o. rewrite Hn, Hs, He. cbn. by rewrite Ep. }
  assert (uses p held = 0) as Hu.
  { destruct (wf_refs _ _ H p _ Ho) as [Hrc _]. rewrite Hr in Hrc. pose proof (uses_pos p held). unfold listed in Hrc. rewrite Hn, Hs, He, Ep, Nat.eqb_refl in Hrc. cbn in Hrc. lia. }
  split.
  - apply (wf_add_delete held p o (mkEntry p true)); try done; [by apply wf_setBlocked_true|by apply uses_not|].
    intros Hd. destruct (proj2 (wf_delete _ _ H) p Hd) as (o' & e' & Ho' & He' & _ & Hb' & _). rewrite Ho in Ho'. injection Ho' as <-. rewrite Hn, Hs, He in He'. congruence.
  - split; [done|]. intros q Hq. destruct (Hc q ltac:(by right)) as (n' & s' & e' & He' & Eq & Hb'). exists n', s', e'. split; [|done].
    change (find_entry st1 n' s' = Some e'). unfold st1. rewrite find_setBlocked, bool_decide_false; [done|]. subst o. rewrite Hn, Hs. intros [<- <-]. rewrite He in He'. congruence.
Qed.

Lemma wp_trim_loop held l r f st : wf held st -> cand st (l ++ r) ->
  wp (trim_loop l f) (fun _ st' => wf held st' /\ cand st' r) (fun st' => wf held st' /\ cand st' r) st.
Proof.
  revert f st. induction l as [|p l IH]; intros f st H Hc; cbn [trim_loop]; [done|]. assert (cand st r) as Hr.
  { eapply cand_sub; [|exact Hc]. apply sublist_inserts_l. done. }
  apply wp_bind, wp_get. destruct (_ <? _); [|done]. cbv zeta. apply wp_bind, wp_verify; [done|]. intros Hrc%Z.eqb_eq.
  apply wp_bind, wp_verify; [done|]. intros _. apply wp_bind, wp_verify; [done|]. intros _. apply wp_bind, wp_modify, wp_bind, wp_modify.
  destruct (wf_select held p (l ++ r) st H Hc Hrc) as [H2 Hc2]. by apply IH.
Qed.

Lemma wp_trimMountPoint_ held p l r st : wf held st -> cand st (l ++ r) ->
  wp (trimMountPoint_ p l) (fun _ st' => wf held st' /\ cand st' r) (fun st' => wf held st' /\ cand st' r) st.
Proof.
  intros H Hc. assert (cand st r) as Hr by (eapply cand_sub; [|exact Hc]; by apply sublist_inserts_l).
  unfold trimMountPoint_, getFreeDiskSpace. apply wp_bind. unfold wp at 1. destruct (dead _); [done|]. apply wp_bind, wp_get. cbv zeta.
  destruct (_ <? _); [|done]. apply wp_bind. eapply wp_mono; [by apply (wp_trim_loop held l r)| |done]. intros f st1 [H1 Hc1]. apply wp_bind, wp_get.
  destruct (_ <? _); [|done]. apply wp_modify. split; [apply (wf_soft _ st1); [by apply soft_on_mp|done]|]. by eapply cand_soft.
Qed.

Lemma wp_trim_all held (sets : list (nat * list nat)) st : wf held st -> cand st (concat sets.*2) ->
  keeps (miter (fun '(p, l) => trimMountPoint_ p l) sets) (wf held) st.
Proof.
  revert st. induction sets as [|[p l] sets IH]; intros st H Hc; cbn [miter]; [done|]. apply wp_bind.
  eapply wp_mono; [by apply (wp_trimMountPoint_ held p l (concat sets.*2))| |by intros ? []]. intros ? st1 [H1 Hc1]. by apply IH.
Qed.

(** Moving the SCOs to the sets of the mount points loses none. *)
Lemma move_all st ps sets sets' : rfold (move_to_mp st) sets ps = Ok sets' -> NoDup sets.*1 ->
  concat sets'.*2 ≡ₚ concat sets.*2 ++ ps /\ sets'.*1 = sets.*1.
Proof.
  revert sets. induction ps as [|p ps IH]; intros sets E Hnd; cbn [rfold] in E; [inv_ok; by rewrite app_nil_r|].
  inv_bind E. unfold move_to_mp in E0. destruct (disposable_ _); [|done]. destruct (_ =? 1); [|done]. destruct (existsb _ _) eqn:Hex; [|done]. injection E0 as <-.
  assert (forall l : list (nat * list nat), ((fun '(q, l) => if (q =? mntPoint_ (sco st p))%nat then (q, set_insert st p l) else (q, l)) <$> l).*1 = l.*1) as HF.
  { clear. induction l as [|[q l'] l IH]; cbn; [done|]. rewrite IH. by destruct (_ =? _)%nat. }
  apply IH in E1; [|by rewrite HF]. destruct E1 as [E1 E2]. split; [|by rewrite E2, HF]. rewrite E1.
  enough (concat ((fun '(q, l) => if (q =? mntPoint_ (sco st p))%nat then (q, set_insert st p l) else (q, l)) <$> sets).*2 ≡ₚ p :: concat sets.*2) as ->; [apply Permutation_middle|].
  clear -Hex Hnd. induction sets as [|[q l] sets IH]; [done|]. cbn [fmap list_fmap fst snd] in *. apply NoDup_cons in Hnd as [Hq Hnd]. cbn in Hex.
  destruct (Nat.eqb_spec q (mntPoint_ (sco st p))) as [->|Hne]; cbn [concat fst snd].
  - rewrite set_insert_perm. cbn. f_equal. replace ((fun '(q, l) => if (q =? mntPoint_ (sco st p))%nat then (q, set_insert st p l) else (q, l)) <$> sets) with sets; [done|].
    clear -Hq. induction sets as [|[r l] sets IH]; [done|]. cbn in *. rewrite not_elem_of_cons in Hq. destruct Hq as [Hr Hq]. rewrite (proj2 (Nat.eqb_neq r _)) by congruence. f_equal. by apply IH.
  - rewrite (IH Hex Hnd). symmetry. apply Permutation_middle.
Qed.

(** ** What is selected in a namespace *)
Definition eligible (st : St) (q : SCO.SCO * SCOCacheNamespaceEntry) : bool :=
  let o := sco st (sco_ (snd q)) in disposable_ o && (refcnt_ o + 1 =? 2) && negb (blocked_ (snd q)).

Definition sizes (st : St) (l : list nat) : Z := fold_right (fun p t => size_ (sco st p) + t) 0 l.
Definition ptrs (l : list (SCO.SCO * SCOCacheNamespaceEntry)) : list nat := (fun q => sco_ (snd q)) <$> l.

Lemma sizes_perm st l l' : l ≡ₚ l' -> sizes st l = sizes st l'.
Proof. unfold sizes. induction 1; cbn; lia. Qed.

Lemma sizes_app st l l' : sizes st (l ++ l') = sizes st l + sizes st l'.
Proof. unfold sizes. induction l as [|p l IH]; cbn; lia. Qed.

Lemma collect_spec st les l t d : (forall s e, (s, e) ∈ les -> 0 < refcnt_ (sco st (sco_ e))) -> fits 64 t -> fits 64 d ->
  exists l', rfold (collect st) (l, t, d) les = Ok (l', u64 (t + sizes st (ptrs les)), u64 (d + sizes st (ptrs (List.filter (eligible st) les)))) /\
    l' ≡ₚ l ++ ptrs (List.filter (eligible st) les).
Proof.
  revert l t d. induction les as [|[s e] les IH]; intros l t d Hr Ht Hd; cbn [rfold].
  - exists l. cbn. rewrite !Z.add_0_r, !wrap_id, app_nil_r by done. done.
  - unfold collect at 1. cbn [snd]. rewrite (proj2 (Z.leb_le 2 _)) by (specialize (Hr s e ltac:(left)); lia). cbn [rbind].
    set (o := sco st (sco_ e)). assert (eligible st (s, e) = disposable_ o && (refcnt_ o + 1 =? 2) && negb (blocked_ e)) as EE by done.
    cbn [List.filter ptrs fmap list_fmap snd sizes fold_right]. rewrite EE. fold o. destruct (disposable_ o && _ && _).
    + destruct (IH (set_insert st (sco_ e) l) (u64 (t + size_ o)) (u64 (d + size_ o))) as (l' & E & HP); [intros s' e' H'; apply (Hr s' e'); by right|apply wrap_fits; lia|apply wrap_fits; lia|].
      exists l'. rewrite E, !wrap_add_l. split.
      * cbn [ptrs fmap list_fmap snd sizes fold_right]. fold o. do 2 f_equal; [f_equal|]; f_equal; unfold sizes, ptrs; lia.
      * rewrite HP, set_insert_perm. cbn. apply Permutation_middle.
    + destruct (IH l (u64 (t + size_ o)) d) as (l' & E & HP); [intros s' e' H'; apply (Hr s' e'); by right|apply wrap_fits; lia|done|].
      exists l'. rewrite E, !wrap_add_l. split; [|done]. do 3 f_equal. f_equal. unfold sizes, ptrs. lia.
Qed.

(** Which are left of the set: the ones with the lowest values. *)
Lemma preserve_loop_drop st k l : exists j, preserve_loop st k l = drop j l.
Proof.
  revert k. induction l as [|p l IH]; intros k; cbn [preserve_loop]; [by exists 0%nat|]. destruct (0 <? k); [|by exists 0%nat].
  destruct (IH (s64 (k - size_ (sco st p)))) as [j E]. exists (S j). exact E.
Qed.

Lemma ensureNamespaceMin_take st min l t d : exists j, ensureNamespaceMin_ st min l t d = take j l.
Proof.
  unfold ensureNamespaceMin_. destruct (preserve_loop_drop st (if min <=? u64 (t - d) then 0 else s64 (u64 (min - u64 (t - d)))) (rev l)) as [j ->].
  exists (length l - j)%nat. by rewrite skipn_rev, rev_involutive.
Qed.

Lemma namespace_set_spec held st n ns : wf held st -> nsMap_ st !! n = Some ns ->
  exists l, namespace_set st ns = Ok l /\ cand st l /\
    forall p, p ∈ l -> exists s e, find_entry st n s = Some e /\ sco_ e = p /\ eligible st (s, e) = true.
Proof.
  intros H Hns. unfold namespace_set.
  assert (forall s e, (s, e) ∈ entry_list ns -> find_entry st n s = Some e) as Hf.
  { intros s e Hs. apply elem_of_ordered in Hs. unfold find_entry. by rewrite Hns. }
  destruct (collect_spec st (entry_list ns) [] 0 0) as (l & E & HP).
  { intros s e Hs. destruct (wf_entry_sco _ _ _ _ _ H (Hf s e Hs)) as (Ho & _). apply (wf_refs _ _ H _ _ Ho). }
  { split; lia. } { split; lia. }
  rewrite E. cbn [rbind]. set (t := u64 _). set (d := u64 _). destruct (ensureNamespaceMin_take st (min_ ns) l t d) as [j ->]. exists (take j l). split; [done|].
  cbn [app] in HP.
  assert (forall p, p ∈ l -> exists s e, find_entry st n s = Some e /\ sco_ e = p /\ eligible st (s, e) = true) as Hel.
  { intros p. rewrite HP. intros ([s e] & -> & [Hs He]%elem_of_lfilter)%list_elem_of_fmap. exists s, e. cbn. auto. }
  split; [|intros p Hp; apply Hel; by eapply elem_of_sublist, sublist_take].
  apply (cand_sub _ l); [apply sublist_take|]. split.
  - rewrite HP. unfold ptrs. apply NoDup_fmap_2_strong.
    + intros [s e] [s' e'] [Hs _]%elem_of_lfilter [Hs' _]%elem_of_lfilter Eq. cbn in Eq.
      destruct (wf_entry_inj _ _ _ _ _ _ _ _ H (Hf _ _ Hs) (Hf _ _ Hs') Eq) as [_ ->]. pose proof (Hf _ _ Hs) as E1. rewrite (Hf _ _ Hs') in E1. congruence.
    + eapply sublist_NoDup; [|apply lfilter_sublist]. eapply NoDup_fmap_1, (ordered_nodup SCO.ltb).
  - intros p Hp. destruct (Hel p Hp) as (s & e & He & Ep & Hg). exists n, s, e. split_and!; try done.
    unfold eligible in Hg. cbn in Hg. apply andb_true_iff in Hg as [_ Hb]. by apply negb_true_iff.
Qed.

(** The sets of all namespaces. *)
Lemma all_sets_spec held st (l : list (string * SCOCacheNamespace)) acc : wf held st -> NoDup l.*1 -> (forall n ns, (n, ns) ∈ l -> nsMap_ st !! n = Some ns) ->
  cand st (concat acc) -> (forall p n s e, p ∈ concat acc -> find_entry st n s = Some e -> sco_ e = p -> n ∉ l.*1) ->
  exists sets, rfold (fun acc '(_, ns) => let? x := namespace_set st ns in Ok (acc ++ [x])) acc l = Ok (acc ++ sets) /\ cand st (concat (acc ++ sets)) /\
    (forall p, p ∈ concat sets -> exists n s e, find_entry st n s = Some e /\ sco_ e = p /\ eligible st (s, e) = true) /\
    Forall2 (fun '(_, ns) x => namespace_set st ns = Ok x) l sets.
Proof.
  intros H. revert acc. induction l as [|[n ns] l IH]; intros acc Hnd Hl Hc Hd; cbn [rfold].
  - exists []. rewrite app_nil_r. split_and!; try done. by intros p ?%elem_of_nil.
  - destruct (namespace_set_spec held st n ns H (Hl n ns ltac:(left))) as (x & E & Hcx & Hx). rewrite E. cbn [rbind].
    cbn [fmap list_fmap fst] in Hnd. apply NoDup_cons in Hnd as [Hn Hnd].
    assert (cand st (concat (acc ++ [x]))) as Hc'.
    { rewrite concat_app. cbn. rewrite app_nil_r. split.
      - apply NoDup_app. split_and!; [apply Hc| |apply Hcx]. intros p Hp Hp'. destruct (Hx p Hp') as (s & e & He & Ep & _). apply (Hd p n s e Hp He Ep). left.
      - intros p [Hp|Hp]%elem_of_app; [by apply Hc|by apply Hcx]. }
    destruct (IH (acc ++ [x]) Hnd) as (sets & E2 & Hcs & Hs & HF); [intros k nsk Hk; apply Hl; by right|exact Hc'| |].
    { intros p k s e. rewrite concat_app. cbn. rewrite app_nil_r, elem_of_app. intros [Hp|Hp] He Ep.
      - intros Hk. apply (Hd p k s e Hp He Ep). by right.
      - destruct (Hx p Hp) as (s' & e' & He' & Ep' & _). destruct (wf_entry_inj _ _ _ _ _ _ _ _ H He He' ltac:(congruence)) as [-> _]. done. }
    exists (x :: sets). rewrite E2. rewrite <- app_assoc in Hcs |- *. cbn [app] in *. split_and!; [done|done| |by constructor].
    intros p [Hp|Hp]%elem_of_app; [|by apply Hs]. destruct (Hx p Hp) as (s & e & Hrest). by exists n, s, e.
Qed.

Lemma wp_prepareCleanup_ held st : wf held st -> keeps prepareCleanup_ (wf held) st.
Proof.
  intros H. unfold prepareCleanup_. apply wp_bind, wp_get, wp_bind, wp_lift.
  destruct (all_sets_spec held st (namespaces st) [] H) as (sets & E & Hc & _); [apply ordered_nodup|intros n ns; apply elem_of_ordered|split; [apply NoDup_nil_2|by intros p ?%elem_of_nil]|by intros p n s e ?%elem_of_nil|].
  rewrite E. cbn [app]. unfold trimMountPoints_. apply wp_bind, wp_get, wp_bind, wp_lift.
  destruct (rfold (move_to_mp st) _ (concat sets)) as [sets'|e] eqn:Em; [|done]. destruct (move_all _ _ _ _ Em) as [HP _].
  { rewrite <- list_fmap_compose, list_fmap_id. apply (wf_list _ _ H). }
  apply (wp_trim_all held); [done|]. eapply cand_perm; [|exact Hc]. symmetry. rewrite HP. cbn [app].
  replace (concat ((fun p => (p, [])) <$> mountPoints_ st).*2) with ([] : list nat); [done|]. clear. induction (mountPoints_ st); cbn; done.
Qed.

Lemma wp_checkForWork_loop held l b st : wf held st -> wp (checkForWork_loop l b) (fun _ => wf held) (fun _ => False) st.
Proof.
  revert b st. induction l as [|p l IH]; intros b st H; cbn [checkForWork_loop]; [done|]. unfold wp. cbv beta.
  destruct (offline_ _); [by apply IH|]. unfold getFreeDiskSpace. destruct (dead _).
  - apply wp_bind. eapply wp_mono; [by apply (offlineMountPoint_ok held)| |done]. intros ? st' (H' & _). by apply IH.
  - cbv zeta. destruct (_ <? _); [by apply IH|]. apply IH. apply (wf_soft _ st); [by apply soft_on_mp|done].
Qed.

Lemma wp_checkForWork_ held st : wf held st -> wp checkForWork_ (fun _ => wf held) (fun _ => False) st.
Proof. intros H. unfold checkForWork_. apply wp_bind, wp_get. by apply wp_checkForWork_loop. Qed.

Lemma wp_cleanup_prepare held st : wf held st -> keeps cleanup_prepare (wf held) st.
Proof.
  intros H. unfold cleanup_prepare. apply wp_bind, wp_modify. pose proof (wf_soft _ _ _ (soft_maybeChoke st) H) as H1.
  apply wp_bind. eapply wp_mono; [by apply (wp_checkForWork_ held)| |done]. intros work st2 H2. apply wp_bind.
  assert (wp (if work then on_throw prepareCleanup_ (fun _ => mret tt) else mret tt) (fun _ => wf held) (fun _ => False) st2) as HP.
  { destruct work; [|done]. apply wp_on_throw. eapply wp_mono; [by apply (wp_prepareCleanup_ held)|done|]. done. }
  eapply wp_mono; [exact HP| |done]. intros ? st3 H3. eapply wp_mono; [apply soft_rescaleXVals_| |]; [intros ? st'|intros st']; intros HS; by apply (wf_soft _ _ _ HS).
Qed.

(** ** Erasing what was selected *)
Lemma findAndRemove_to_delete n s r mb u st : to_delete (fst (findAndRemoveSCO_ n s r mb u st)) `sublist_of` to_delete st.
Proof.
  enough (wp (findAndRemoveSCO_ n s r mb u) (fun _ st' => to_delete st' `sublist_of` to_delete st) (fun st' => to_delete st' `sublist_of` to_delete st) st) as H.
  { unfold wp in H. by destruct (findAndRemoveSCO_ n s r mb u st) as [st' []]. }
  unfold findAndRemoveSCO_. apply wp_bind, wp_findNamespace; [done|]. intros ns Hns. destruct (entries ns !! s) as [e|]; [|by apply wp_throw].
  apply wp_bind, wp_throw_if; [done|]. intros _. apply wp_bind, wp_modify, wp_bind, wp_releasing, wp_bind, wp_get.
  apply wp_bind, wp_throw_if; [intros _; exact (release_to_delete (sco_ e) (intrusive_ptr_add_ref (sco_ e) st))|]. intros _.
  set (st1 := intrusive_ptr_add_ref (sco_ e) st).
  assert (keeps (removeSCO_ (sco_ e) u) (fun st' => to_delete st' `sublist_of` to_delete st) st1) as HR.
  { unfold removeSCO_. apply wp_bind, wp_get, wp_bind, wp_findNamespace; [done|]. intros ? ?. apply wp_bind, wp_modify.
    assert (to_delete (ns_erase (nspace_ (sco st1 (sco_ e))) (scoName_ (sco st1 (sco_ e))) st1) `sublist_of` to_delete st) as HN.
    { exact (erase_entries_to_delete [(nspace_ (sco st1 (sco_ e)), scoName_ (sco st1 (sco_ e)))] st1). }
    destruct u; [by apply wp_modify|by apply wp_ret]. }
  eapply wp_mono; [exact HR| |]; [intros ? st' H'; apply wp_modify|intros st' H']; (etrans; [apply release_to_delete|exact H']).
Qed.

Lemma wp_eraseSCOSetIterator_ held p r st : wf held st -> p ∈ to_delete st -> keeps (eraseSCOSetIterator_ p r) (wf held) st.
Proof.
  intros H Hp. destruct (proj2 (wf_delete _ _ H) p Hp) as (o & e & Ho & He & Hs & Hb & Hh).
  unfold eraseSCOSetIterator_. apply wp_bind, wp_get. cbv zeta. rewrite (sco_lookup _ _ _ Ho). apply wp_bind, wp_verify; [done|]. intros _. apply wp_bind, wp_modify.
  set (st1 := set_to_delete _ st). assert (wf held st1) as H1 by (apply wf_sub_delete; [apply lfilter_sublist|done]).
  apply wp_bind. eapply wp_mono; [apply (@wp_findAndRemove None held); [exact H1|]| |done].
  - intros _ e' He'. change (find_entry st (nspace_ o) (scoName_ o) = Some e') in He'. rewrite He in He'. injection He' as <-. cbn. rewrite elem_of_without. intros [_ Hne]. done.
  - intros ? st2 H2. apply wp_bind. unfold exists_, wp at 1. destruct (dead _); [done|]. destruct (bool_decide _); [|done].
    apply wp_bind. eapply wp_mono; [by apply (offlineMountPoint_ok held)| |done]. by intros ? st3 (H3 & _).
Qed.

Lemma wp_doCleanup_loop held fuel r st : wf held st -> keeps (doCleanup_loop fuel r) (wf held) st.
Proof.
  revert st. induction fuel as [|fuel IH]; intros st H; cbn [doCleanup_loop]; apply wp_bind, wp_get.
  - by destruct (to_delete st).
  - destruct (to_delete st) as [|p l] eqn:Ed; [done|]. apply wp_bind. eapply wp_mono; [apply (wp_eraseSCOSetIterator_ held); [exact H|rewrite Ed; left]| |done].
    intros ? st' H'. by apply IH.
Qed.

Lemma wf_forget_set held st : wf held st -> wf held (set_to_delete [] st).
Proof. apply wf_sub_delete. apply sublist_nil_l. Qed.

Lemma wp_with_set {A} held (m : M St A) st : keeps m (wf held) st -> keeps (with_set m) (wf held) st.
Proof. intros H. apply wp_on_throw. eapply wp_mono; [exact H|done|]. intros st' H' e. apply wp_bind, wp_modify, wp_throw. by apply wf_forget_set. Qed.

Lemma wp_cleanup held st : wf held st -> keeps cleanup (wf held) st.
Proof.
  intros H. unfold cleanup. apply wp_bind. eapply wp_mono; [apply (wp_with_set held), wp_bind; eapply wp_mono; [by apply (wp_cleanup_prepare held)| |done]| |done].
  - intros ? st' H'. unfold doCleanup_. apply wp_bind, wp_get. by apply wp_doCleanup_loop.
  - intros ? st' H'. apply wp_bind. eapply wp_mono; [by apply (wp_checkForWork_ held)| |done]. done.
Qed.

(** ** Removing a namespace *)
Lemma wf_select_all held n (les : list (SCO.SCO * SCOCacheNamespaceEntry)) st : wf held st -> NoDup les.*1 ->
  (forall s e, (s, e) ∈ les -> exists e', find_entry st n s = Some e' /\ sco_ e' = sco_ e /\ sco_ e ∉ held /\ sco_ e ∉ to_delete st) ->
  keeps (miter (fun '(s, e) => mmodify (setBlocked n s true) ;! mmodify (fun st => set_to_delete (set_insert st (sco_ e) (to_delete st)) st)) les) (wf held) st.
Proof.
  revert st. induction les as [|[s e] les IH]; intros st H Hnd Hl; cbn [miter]; [done|]. cbn in Hnd. apply NoDup_cons in Hnd as [Hs Hnd].
  apply wp_bind, wp_bind, wp_modify, wp_modify. destruct (Hl s e ltac:(left)) as (e0 & He & Ee & Hh & Hd).
  set (st1 := setBlocked n s true st). destruct (wf_entry_sco _ _ _ _ _ H He) as (Ho & Hn & Hs' & _). rewrite Ee in Ho, Hn, Hs'.
  assert (wf held (set_to_delete (set_insert st1 (sco_ e) (to_delete st1)) st1)) as H1.
  { apply (wf_add_delete held _ (sco st (sco_ e)) (mkEntry (sco_ e) true)); try done; [by apply wf_setBlocked_true|].
    unfold st1. rewrite find_setBlocked, bool_decide_true, Hn, Hs', He by done. cbn. by rewrite Ee. }
  apply IH; [done|done|]. intros t e' Ht. destruct (Hl t e' ltac:(by right)) as (e1 & He1 & Ee1 & Hh1 & Hd1).
  assert (s <> t) as Hst by (intros ->; apply Hs, list_elem_of_fmap; by exists (t, e')).
  exists e1. split_and!; try done.
  - change (find_entry st1 n t = Some e1). unfold st1. rewrite find_setBlocked, bool_decide_false; [done|]. naive_solver.
  - cbn. rewrite set_insert_perm, not_elem_of_cons. split; [|done]. intros E. destruct (wf_entry_inj _ _ _ _ _ _ _ _ H He1 He ltac:(congruence)) as [_ ->]. done.
Qed.

(** The namespace is removed when none of its SCOs is used any more and no cleanup is under way. *)
Lemma wp_removeNamespace_prepare held n st : quiet held st -> (forall p, p ∈ held -> nspace_ (sco st p) <> n) ->
  keeps (removeNamespace_prepare n) (wf held) st.
Proof.
  intros [H Ht] Hh. unfold removeNamespace_prepare. apply wp_bind, wp_findNamespace; [done|]. intros ns Hns.
  apply wf_select_all; [done|apply ordered_nodup|]. intros s e Hs%elem_of_ordered. assert (find_entry st n s = Some e) as He by (unfold find_entry; by rewrite Hns).
  exists e. destruct (wf_entry_sco _ _ _ _ _ H He) as (_ & Hn & _). split_and!; try done; [|rewrite Ht; apply not_elem_of_nil]. intros Hp. by apply (Hh _ Hp).
Qed.

Lemma wp_removeNamespace_finish held n st : wf held st -> keeps (removeNamespace_finish n) (wf held) st.
Proof.
  intros H. unfold removeNamespace_finish. apply wp_bind, wp_findNamespace; [done|]. intros ns Hns. apply wp_bind, wp_verify; [done|]. intros He%bool_decide_eq_true.
  apply wp_bind, wp_modify. assert (wf held (on_nsMap (delete n) st)) as H1.
  { apply wf_delete_empty; [done|]. intros s. unfold find_entry. rewrite Hns. cbn. by rewrite He, lookup_empty. }
  unfold removeNamespaceFromMountPoints_. apply wp_bind, wp_get. apply (soft_params_mono _ held); [apply soft_removeFromList|exact H1].
Qed.

(** ** What a cleanup does to a healthy cache *)
Definition healthy (st : St) : Prop := forall q, q ∈ mountPoints_ st -> writable (disk st q) = true.

(** The flags of the file systems, through changes of files. *)
Definition same_flags (st st' : St) : Prop := forall k, dead (disks st' !!! k) = dead (disks st !!! k) /\ read_only (disks st' !!! k) = read_only (disks st !!! k).

Lemma flags_set_file k n s f st : same_flags st (set_disks (alter (set_file n s f) k (disks st)) st).
Proof.
  intros j. cbn. unfold lookup_total, map_lookup_total. destruct (decide (k = j)) as [->|]; [rewrite lookup_alter_eq|rewrite lookup_alter_ne by done; done].
  by destruct (disks st !! j).
Qed.

Lemma flags_destroy p st : same_flags st (destroy_sco p st).
Proof.
  unfold destroy_sco. destruct (unlink_on_destruction_ (sco st p)); [|done]. unfold mbind, addToGarbage, updateUsedSize, on_disk.
  destruct (writable _ && _); [|done]. repeat match goal with |- context [if ?b then _ else _] => destruct b end; apply flags_set_file.
Qed.

Lemma mp_path st st' q : option_relation soft_mp (fun _ => False) (fun _ => False) (mps st !! q) (mps st' !! q) -> path_ (mp st' q) = path_ (mp st q).
Proof. unfold mp, lookup_total, map_lookup_total. destruct (mps st !! q), (mps st' !! q); cbn; try done. intros H. apply H. Qed.

(** Dropping the last reference to a SCO whose file is to go: it is gone. *)
Lemma destroy_unlinks p st : unlink_on_destruction_ (sco st p) = true -> writable (disk st (mntPoint_ (sco st p))) = true ->
  forall d, disks (destroy_sco p st) !! path_ (mp st (mntPoint_ (sco st p))) = Some d -> dirs d !! nspace_ (sco st p) ≫= (fun m => m !! scoName_ (sco st p)) = None.
Proof.
  intros Hu Hw d. unfold destroy_sco. rewrite Hu. unfold mbind, addToGarbage. rewrite Hw. cbn [andb]. set (o := sco st p).
  case_bool_decide as Hf.
  - assert (forall st1 x, disks (fst (updateUsedSize (mntPoint_ o) x st1)) = disks st1) as HD by (intros; unfold updateUsedSize; repeat case_match; done).
    cbn [disks set_to_delete set_scos]. rewrite HD. unfold on_disk. cbn. rewrite lookup_alter_eq. destruct (disks st !! _) as [d0|]; [|done].
    cbn. intros [= <-]. unfold set_file, with_dirs. cbn. rewrite lookup_alter_eq. destruct (dirs d0 !! nspace_ o); cbn; [|done]. by rewrite lookup_partial_alter_eq.
  - cbn [fst]. intros Hd. apply eq_None_not_Some in Hf. unfold file_of, disk in Hf. cbn in Hd. change (disks (set_to_delete _ (set_scos _ st))) with (disks st) in Hd.
    rewrite (lookup_total_correct _ _ _ Hd) in Hf. exact Hf.
Qed.

(** What the erasing of a selected SCO does, exactly. *)
Record erased (p : nat) (st st' : St) : Prop := mkErased {
  erased_find : forall n s, find_entry st' n s = match find_entry st n s with Some e => if (sco_ e =? p)%nat then None else Some e | None => None end;
  erased_scos : scos st' = delete p (scos st);
  erased_frame : frame st st';
  erased_flags : same_flags st st';
  erased_delete : to_delete st' = List.filter (fun q => negb (q =? p)%nat) (to_delete st) }.

Lemma erase_exact held p r st : wf held st -> p ∈ to_delete st -> healthy st -> (r = true \/ disposable_ (sco st p) = true) ->
  exists st', eraseSCOSetIterator_ p r st = (st', Ok (size_ (sco st p))) /\ erased p st st'.
Proof.
  intros H Hp Hh Hr. destruct (proj2 (wf_delete _ _ H) p Hp) as (o & e & Ho & He & Hs & Hb & Hnh).
  destruct (wf_refs _ _ H p o Ho) as [Hrc _]. unfold listed in Hrc. rewrite He, Hs, Nat.eqb_refl, (proj1 (uses_not _ _) Hnh) in Hrc. change (refcnt_ o = 1) in Hrc.
  destruct (wf_entry_sco _ _ _ _ _ H He) as (_ & _ & _ & Hm). rewrite Hs, (sco_lookup _ _ _ Ho) in Hm.
  unfold eraseSCOSetIterator_, mbind, mget, mverify, mmodify, mret. rewrite (sco_lookup _ _ _ Ho) in *. rewrite Hrc. cbn [Z.eqb Pos.eqb].
  set (l := List.filter _ (to_delete st)). set (st1 := set_to_delete l st).
  unfold findAndRemoveSCO_, mbind at 1, findNamespace_throw_. change (nsMap_ st1) with (nsMap_ st).
  pose proof He as He'. unfold find_entry in He'. destruct (nsMap_ st !! nspace_ o) as [ns|] eqn:Hns; [|done]. cbn in He'. rewrite He'. rewrite Hs.
  unfold mbind, mthrow_if at 1. cbn [negb andb]. unfold mmodify, mret. set (st2 := intrusive_ptr_add_ref p st1).
  assert (scos st2 !! p = Some (with_refcnt 2 o)) as Ho2 by (cbn; rewrite lookup_alter_eq, Ho; cbn; rewrite Hrc; done).
  assert (negb (disposable_ (sco st2 p)) && negb r = false) as Hd.
  { rewrite (sco_lookup _ _ _ Ho2). cbn. destruct Hr as [->| ->]; [by rewrite andb_false_r|done]. }
  unfold releasing, on_throw, mget, mthrow_if. rewrite Hd. unfold removeSCO_, mbind, mget, findNamespace_throw_, mmodify, mret.
  rewrite (sco_lookup _ _ _ Ho2). cbn [nspace_ scoName_ with_refcnt]. change (nsMap_ st2) with (nsMap_ st). rewrite Hns.
  (* the entry goes, the local reference stays *)
  assert (ns_erase (nspace_ o) (scoName_ o) st2 = on_sco p (with_refcnt 1) (erase_entry (nspace_ o) (scoName_ o) st2)) as ->.
  { unfold ns_erase. change (find_entry st2 (nspace_ o) (scoName_ o)) with (find_entry st (nspace_ o) (scoName_ o)). rewrite He, Hs. fold (erase_entry (nspace_ o) (scoName_ o) st2).
    unfold intrusive_ptr_release. set (st3 := erase_entry _ _ st2).
    assert (on_sco p (fun o => with_refcnt (refcnt_ o - 1) o) st3 = on_sco p (with_refcnt 1) st3) as ->.
    { unfold on_sco, set_scos. f_equal. apply map_eq. intros q. destruct (decide (p = q)) as [<-|]; [|by rewrite !lookup_alter_ne].
      rewrite !lookup_alter_eq. change (scos st3) with (scos st2). by rewrite Ho2. }
    rewrite (sco_lookup _ p (with_refcnt 1 o)); [done|]. cbn [scos on_sco set_scos]. rewrite lookup_alter_eq. change (scos st3) with (scos st2). by rewrite Ho2. }
  set (st3 := on_sco p (with_refcnt 1) (erase_entry (nspace_ o) (scoName_ o) st2)). set (st4 := on_sco p (with_unlink true) st3).
  assert (scos st4 !! p = Some (with_unlink true (with_refcnt 1 o))) as Ho4.
  { cbn [scos st4 st3 on_sco set_scos]. rewrite !lookup_alter_eq. change (scos (erase_entry (nspace_ o) (scoName_ o) st2)) with (scos st2). by rewrite Ho2. }
  unfold intrusive_ptr_release. set (st5 := on_sco p _ st4).
  assert (scos st5 !! p = Some (with_unlink true (with_refcnt 0 o))) as Ho5 by (cbn [scos st5 on_sco set_scos]; rewrite lookup_alter_eq, Ho4; done).
  rewrite (sco_lookup _ _ _ Ho5). cbn [refcnt_ with_unlink with_refcnt Z.eqb].
  assert (scos st5 = <[p := with_unlink true (with_refcnt 0 o)]> (scos st)) as ES.
  { apply map_eq. intros q. destruct (decide (p = q)) as [<-|Hne]; [by rewrite lookup_insert_eq|]. rewrite lookup_insert_ne by done. cbn. by rewrite !lookup_alter_ne. }
  set (st6 := destroy_sco p st5). destruct (destroy_parts p st5) as [N6 S6]. fold st6 in N6, S6.
  pose proof (frame_destroy p st5) as F6. fold st6 in F6. pose proof (flags_destroy p st5) as FL6. fold st6 in FL6.
  assert (frame st st6) as F. { etrans; [|exact F6]. split; try done. intros. apply opt_refl, soft_mp_refl. }
  assert (same_flags st st6) as FL by exact FL6.
  assert (writable (disk st (mntPoint_ o)) = true) as Hw by (by apply Hh).
  unfold exists_. assert (path_ (mp st6 (mntPoint_ o)) = path_ (mp st (mntPoint_ o))) as EP by (apply mp_path, (frame_mps _ _ F)).
  unfold disk. rewrite EP. destruct (FL (path_ (mp st (mntPoint_ o)))) as [EF _]. unfold writable, disk in Hw. apply andb_true_iff in Hw as [Hw1 Hw2].
  apply negb_true_iff in Hw1. rewrite EF, Hw1. rewrite bool_decide_false.
  - exists st6. split; [done|]. split; [| |done|done|].
    + intros n s. unfold find_entry at 1. rewrite N6. change (nsMap_ st5) with (nsMap_ (erase_entry (nspace_ o) (scoName_ o) st)). fold (find_entry (erase_entry (nspace_ o) (scoName_ o) st) n s).
      rewrite find_erase. case_bool_decide as Hk; [destruct Hk as [<- <-]; by rewrite He, Hs, Nat.eqb_refl|]. destruct (find_entry st n s) as [e'|] eqn:He2; [|done].
      destruct (Nat.eqb_spec (sco_ e') p) as [E|]; [|done]. destruct Hk. by apply (wf_entry_inj _ _ _ _ _ _ _ _ H He He2); congruence.
    + rewrite S6, ES. apply delete_insert_eq.
    + unfold st6, destroy_sco. rewrite (sco_lookup _ _ _ Ho5). cbn [unlink_on_destruction_ with_unlink]. set (m := addToGarbage _ ;! _).
      assert (to_delete (fst (m st5)) = to_delete st5) as E by (unfold m, mbind, addToGarbage, updateUsedSize; repeat case_match; simplify_eq; done).
      cbn [to_delete set_to_delete]. rewrite E. change (to_delete st5) with l. unfold l. apply lfilter_all. by intros q [_ Hq]%elem_of_lfilter.
  - rewrite <- eq_None_not_Some. destruct (disks st6 !! path_ (mp st (mntPoint_ o))) as [d|] eqn:Ed.
    + rewrite (lookup_total_correct _ _ _ Ed). pose proof (destroy_unlinks p st5) as HU. rewrite (sco_lookup _ _ _ Ho5) in HU.
      apply (HU eq_refl); [|exact Ed]. change (disk st5 (mntPoint_ o)) with (disk st (mntPoint_ o)). by apply Hh.
    + unfold lookup_total, map_lookup_total. rewrite Ed. cbn. by rewrite lookup_empty.
Qed.

Lemma healthy_frame st st' : frame st st' -> same_flags st st' -> healthy st -> healthy st'.
Proof.
  intros F FL H q. rewrite (frame_list _ _ F). intros Hq. specialize (H q Hq). unfold writable, disk in *.
  rewrite (mp_path _ _ _ (frame_mps _ _ F q)). destruct (FL (path_ (mp st q))) as [-> ->]. exact H.
Qed.

(** A cleanup takes exactly what was selected out of the cache, and ends. *)
Lemma doCleanup_exact held r fuel st : wf held st -> healthy st -> (r = true \/ forall p, p ∈ to_delete st -> disposable_ (sco st p) = true) ->
  (length (to_delete st) <= fuel)%nat ->
  exists st', doCleanup_loop fuel r st = (st', Ok tt) /\ to_delete st' = [] /\ frame st st' /\ same_flags st st' /\
    (forall n s, find_entry st' n s = match find_entry st n s with Some e => if bool_decide (sco_ e ∈ to_delete st) then None else Some e | None => None end) /\
    (forall q, q ∉ to_delete st -> scos st' !! q = scos st !! q).
Proof.
  revert st. induction fuel as [|fuel IH]; intros st H Hh Hr Hf.
  - destruct (to_delete st) as [|p l] eqn:Ed; [|cbn in Hf; lia]. exists st. cbn [doCleanup_loop]. unfold mbind, mget. rewrite Ed.
    split_and!; try done. intros n s. destruct (find_entry st n s) as [e|]; [|done]. rewrite bool_decide_false; [done|]. by intros ?%elem_of_nil.
  - destruct (to_delete st) as [|p l] eqn:Ed.
    + exists st. cbn [doCleanup_loop]. unfold mbind, mget. rewrite Ed.
      split_and!; try done. intros n s. destruct (find_entry st n s) as [e|]; [|done]. rewrite bool_decide_false; [done|]. by intros ?%elem_of_nil.
    + assert (p ∈ to_delete st) as Hp by (rewrite Ed; left).
      destruct (erase_exact held p r st H Hp Hh) as (st1 & E1 & X1); [destruct Hr as [->|Hr]; [by left|right; apply Hr; rewrite Ed in Hp; done]|].
      pose proof (wp_eraseSCOSetIterator_ held p r st H Hp) as HW. unfold wp in HW. rewrite E1 in HW.
      assert (to_delete st1 = l) as Ed1.
      { rewrite (erased_delete _ _ _ X1), Ed. cbn. rewrite Nat.eqb_refl. cbn. apply lfilter_all. intros q Hq. apply negb_true_iff, Nat.eqb_neq. intros ->.
        pose proof (proj1 (wf_delete _ _ H)) as Hnd. rewrite Ed in Hnd. by apply NoDup_cons in Hnd as [? _]. }
      assert (p ∉ l) as Hpl. { pose proof (proj1 (wf_delete _ _ H)) as Hnd. rewrite Ed in Hnd. by apply NoDup_cons in Hnd as [? _]. }
      assert (forall q, q <> p -> scos st1 !! q = scos st !! q) as ES by (intros q Hq; rewrite (erased_scos _ _ _ X1); by rewrite lookup_delete_ne).
      destruct (IH st1 HW) as (st2 & E2 & Et & F2 & FL2 & Ef & Esc).
      * by apply (healthy_frame _ _ (erased_frame _ _ _ X1) (erased_flags _ _ _ X1)).
      * destruct Hr as [->|Hr]; [by left|right]. rewrite Ed1. intros q Hq. unfold sco, lookup_total, map_lookup_total. rewrite ES by congruence.
        apply (Hr q). by right.
      * rewrite Ed1. cbn in Hf. lia.
      * exists st2. split_and!; [|done|etrans; [apply (erased_frame _ _ _ X1)|done]| | |].
        -- cbn [doCleanup_loop]. unfold mbind, mget. rewrite Ed. rewrite E1. exact E2.
        -- intros k. destruct (FL2 k) as [-> ->]. apply (erased_flags _ _ _ X1).
        -- intros n s. rewrite Ef, (erased_find _ _ _ X1), Ed1. destruct (find_entry st n s) as [e|]; [|done].
           destruct (Nat.eqb_spec (sco_ e) p) as [->|Hne]; [rewrite bool_decide_true by left; done|]. repeat case_bool_decide; set_solver.
        -- intros q Hq. rewrite not_elem_of_cons in Hq. rewrite Esc by (rewrite Ed1; tauto). apply ES. tauto.
Qed.

(** ** What the selection leaves alone *)
Definition low (st : St) (q : nat) : bool :=
  Z.min (fs_free (disk st q)) (u64 (capacity_ (mp st q) - used_ (mp st q))) <? trigger_gap (params st).

Record prep (L : nat -> Prop) (st st' : St) : Prop := mkPrep {
  prep_scos : scos st' = scos st;
  prep_find : forall n s, sco_ <$> find_entry st' n s = sco_ <$> find_entry st n s;
  prep_list : mountPoints_ st' = mountPoints_ st;
  prep_disks : disks st' = disks st;
  prep_params : params st' = params st;
  prep_mps : forall q, option_relation (fun m m' => path_ m' = path_ m /\ capacity_ m' = capacity_ m /\ used_ m' = used_ m) (fun _ => False) (fun _ => False) (mps st !! q) (mps st' !! q);
  prep_ns : forall n, option_relation (fun a b => min_ b = min_ a) (fun _ => False) (fun _ => False) (nsMap_ st !! n) (nsMap_ st' !! n);
  prep_delete : forall p, p ∈ to_delete st' -> p ∈ to_delete st \/ L p }.

Lemma prep_refl L st : prep L st st.
Proof. split; try done; [intros q; apply opt_refl; done|intros q; apply opt_refl; done|by left]. Qed.

Lemma prep_trans L a b c : prep L a b -> prep L b c -> prep L a c.
Proof.
  intros [] []. split; try congruence.
  - intros q. eapply opt_trans; [|done|done]. intuition congruence.
  - intros q. eapply opt_trans; [|done|done]. congruence.
  - intros p Hp. apply prep_delete1 in Hp as [Hp|Hp]; [by apply prep_delete0|by right].
Qed.

Lemma prep_mono (L L' : nat -> Prop) a b : (forall p, L p -> L' p) -> prep L a b -> prep L' a b.
Proof. intros HL []. split; try done. intros p Hp. destruct (prep_delete0 p Hp); auto. Qed.

Lemma prep_mp L a b q : prep L a b -> path_ (mp b q) = path_ (mp a q) /\ capacity_ (mp b q) = capacity_ (mp a q) /\ used_ (mp b q) = used_ (mp a q).
Proof. intros H. pose proof (prep_mps _ _ _ H q) as R. unfold mp, lookup_total, map_lookup_total. destruct (mps a !! q), (mps b !! q); cbn; try done. Qed.

Lemma prep_low L a b q : prep L a b -> low b q = low a q.
Proof. intros H. destruct (prep_mp _ _ _ q H) as (E1 & E2 & E3). unfold low, disk. by rewrite E1, E2, E3, (prep_disks _ _ _ H), (prep_params _ _ _ H). Qed.

Lemma prep_on_mp (L : nat -> Prop) q f st : (forall m, path_ (f m) = path_ m /\ capacity_ (f m) = capacity_ m /\ used_ (f m) = used_ m) -> prep L st (on_mp q f st).
Proof. intros Hf. split; try done; [intros k; cbn; apply opt_alter; [done|intros m _; apply Hf]|intros n; by apply opt_refl|by left]. Qed.

Lemma prep_trim_loop l f st (L : nat -> Prop) : (forall p, p ∈ l -> L p) -> keeps (trim_loop l f) (prep L st) st.
Proof.
  intros HL. revert f st HL. induction l as [|p l IH]; intros f st HL; cbn [trim_loop]; [apply wp_ret, prep_refl|].
  apply wp_bind, wp_get. destruct (_ <? _); [|apply wp_ret, prep_refl]. cbv zeta.
  do 3 (apply wp_bind, wp_verify; [intros _; apply prep_refl|intros _]). apply wp_bind, wp_modify, wp_bind, wp_modify.
  set (st1 := setBlocked _ _ true st). set (st2 := set_to_delete _ st1).
  assert (prep L st st2) as P.
  { split; try done.
    - intros n s. change (find_entry st2 n s) with (find_entry st1 n s). unfold st1. rewrite find_setBlocked. case_bool_decide; [|done]. by destruct (find_entry st n s).
    - intros q. by apply opt_refl.
    - intros n. cbn. destruct (decide (nspace_ (sco st p) = n)) as [->|]; [rewrite lookup_alter_eq|rewrite lookup_alter_ne by done; by apply opt_refl]. by destruct (nsMap_ st !! n).
    - intros q. cbn. rewrite set_insert_perm, elem_of_cons. intros [->|Hq]; [right; apply HL; left|by left]. }
  eapply wp_mono; [apply IH; intros q Hq; apply HL; by right| |]; [intros ? st3 P3|intros st3 P3]; by eapply prep_trans.
Qed.

Lemma prep_trimMountPoint_ q l st (L : nat -> Prop) : (forall p, p ∈ l -> low st q = true -> L p) -> keeps (trimMountPoint_ q l) (prep L st) st.
Proof.
  intros HL. unfold trimMountPoint_, getFreeDiskSpace. apply wp_bind. unfold wp at 1. destruct (dead _); [apply prep_refl|]. apply wp_bind, wp_get. cbv zeta.
  fold (low st q). destruct (low st q) eqn:El; [|apply wp_ret, prep_refl]. apply wp_bind. eapply wp_mono; [apply (prep_trim_loop l _ st L); intros p Hp; by apply HL| |done].
  intros f st1 P1. apply wp_bind, wp_get. destruct (_ <? _); [|by apply wp_ret]. apply wp_modify. eapply prep_trans; [exact P1|]. by apply prep_on_mp.
Qed.

Lemma prep_trim_all (sets : list (nat * list nat)) st (L : nat -> Prop) : (forall q l p, (q, l) ∈ sets -> p ∈ l -> low st q = true -> L p) ->
  keeps (miter (fun '(q, l) => trimMountPoint_ q l) sets) (prep L st) st.
Proof.
  intros HL. apply wp_iter; [apply prep_refl|]. intros [q l] st1 Hin P1.
  eapply wp_mono; [apply (prep_trimMountPoint_ q l st1 L)| |]; [|intros ? st2 P2|intros st2 P2]; [|by eapply prep_trans|by eapply prep_trans].
  intros p Hp Hlow. rewrite (prep_low _ _ _ _ P1) in Hlow. by apply (HL q l).
Qed.

(** A SCO is in the set of its mount point, and disposable. *)
Lemma move_home st ps sets sets' : rfold (move_to_mp st) sets ps = Ok sets' ->
  (forall q l p, (q, l) ∈ sets -> p ∈ l -> mntPoint_ (sco st p) = q /\ disposable_ (sco st p) = true) ->
  forall q l p, (q, l) ∈ sets' -> p ∈ l -> mntPoint_ (sco st p) = q /\ disposable_ (sco st p) = true.
Proof.
  revert sets. induction ps as [|x ps IH]; intros sets E HI; cbn [rfold] in E; [by inv_ok|]. inv_bind E. apply (IH _ E1).
  unfold move_to_mp in E0. destruct (disposable_ (sco st x)) eqn:Ed; [|done]. destruct (_ =? 1); [|done]. destruct (existsb _ _); [|done]. injection E0 as <-.
  intros q l p ([q' l'] & Eq & Hin)%list_elem_of_fmap Hp. destruct (Nat.eqb_spec q' (mntPoint_ (sco st x))) as [E'|]; injection Eq as -> ->; [|by apply (HI q' l')].
  rewrite set_insert_perm, elem_of_cons in Hp. destruct Hp as [->|Hp]; [done|by apply (HI q' l')].
Qed.

(** What may be selected: in the set of its namespace, on a mount point with little space. *)
Definition selectable (st : St) (p : nat) : Prop :=
  (exists n ns x s e, nsMap_ st !! n = Some ns /\ namespace_set st ns = Ok x /\ p ∈ x /\ find_entry st n s = Some e /\ sco_ e = p /\ eligible st (s, e) = true) /\
  low st (mntPoint_ (sco st p)) = true.

Lemma prep_prepareCleanup_ held st : wf held st -> keeps prepareCleanup_ (prep (selectable st) st) st.
Proof.
  intros H. unfold prepareCleanup_. apply wp_bind, wp_get, wp_bind, wp_lift.
  destruct (all_sets_spec held st (namespaces st) [] H) as (sets & E & Hc & Hel & HF); [apply ordered_nodup|intros n ns; apply elem_of_ordered|split; [apply NoDup_nil_2|by intros p ?%elem_of_nil]|by intros p n s e ?%elem_of_nil|].
  rewrite E. cbn [app]. unfold trimMountPoints_. apply wp_bind, wp_get, wp_bind, wp_lift.
  destruct (rfold (move_to_mp st) _ (concat sets)) as [sets'|e] eqn:Em; [|apply prep_refl].
  destruct (move_all _ _ _ _ Em) as [HP _]. { rewrite <- list_fmap_compose, list_fmap_id. apply (wf_list _ _ H). }
  assert (concat ((fun p => (p, [])) <$> mountPoints_ st).*2 = ([] : list nat)) as EN. { clear. induction (mountPoints_ st); cbn; done. }
  rewrite EN in HP. cbn [app] in HP.
  apply prep_trim_all. intros q l p Hin Hp Hlow.
  assert (p ∈ concat sets) as Hps. { rewrite <- HP. apply elem_of_concat. exists l. split; [|done]. apply list_elem_of_fmap. by exists (q, l). }
  destruct (move_home _ _ _ _ Em) with (q := q) (l := l) (p := p) as [Hm _]; [|done|done|].
  { intros q' l' p' (y & [= -> ->] & _)%list_elem_of_fmap Hp'. by apply elem_of_nil in Hp'. }
  split; [|by rewrite Hm]. apply elem_of_concat in Hps as (x & Hx & Hpx).
  apply list_elem_of_lookup in Hx as [i Hi]. destruct (Forall2_lookup_r _ _ _ _ _ HF Hi) as ([n ns] & Hn & Ex).
  apply list_elem_of_lookup_2, elem_of_ordered in Hn. destruct (namespace_set_spec held st n ns H Hn) as (x' & Ex' & _ & Hx'). rewrite Ex in Ex'. injection Ex' as <-.
  destruct (Hx' p Hpx) as (s & e & He & Ep & Hg). by exists n, ns, x, s, e.
Qed.

Lemma prep_maybeChoke (L : nat -> Prop) st : prep L st (maybeChokeNamespaces_ st).
Proof.
  unfold maybeChokeNamespaces_. generalize (namespaces st) as l. intros l. revert st. induction l as [|[n ns] l IH]; intros st; cbn [fold_left]; [apply prep_refl|].
  eapply prep_trans; [|apply IH]. set (g := fun ns0 => mkNamespace _ _ _ _). pose proof (soft_on_ns n g st ltac:(done)) as HS.
  split; try done; [intros k s; by rewrite (soft_find _ _ HS)|intros q; by apply opt_refl|intros k|by left].
  cbn. destruct (decide (n = k)) as [->|]; [rewrite lookup_alter_eq|rewrite lookup_alter_ne by done; by apply opt_refl]. by destruct (nsMap_ st !! k).
Qed.

Lemma healthy_prep L a b : prep L a b -> healthy a -> healthy b.
Proof. intros P H q. rewrite (prep_list _ _ _ P). intros Hq. unfold disk. rewrite (prep_disks _ _ _ P). destruct (prep_mp _ _ _ q P) as (-> & _). by apply H. Qed.

Lemma prep_checkForWork_ (L : nat -> Prop) st : healthy st -> wp checkForWork_ (fun _ => prep L st) (fun _ => False) st.
Proof.
  intros Hh. unfold checkForWork_. apply wp_bind, wp_get.
  enough (forall l b st', prep L st st' -> (forall q, q ∈ l -> q ∈ mountPoints_ st) -> wp (checkForWork_loop l b) (fun _ => prep L st) (fun _ => False) st') as HE by (apply HE; [apply prep_refl|done]).
  induction l as [|q l IH]; intros b st' P Hl; cbn [checkForWork_loop]; [done|]. unfold wp. cbv beta.
  assert (forall b st', prep L st st' -> wp (checkForWork_loop l b) (fun _ => prep L st) (fun _ => False) st') as IH' by (intros; apply IH; [done|intros r Hr; apply Hl; by right]).
  destruct (offline_ _); [by apply IH'|]. unfold getFreeDiskSpace. assert (writable (disk st' q) = true) as Hw.
  { apply (healthy_prep _ _ _ P Hh). rewrite (prep_list _ _ _ P). apply Hl. left. }
  unfold writable in Hw. apply andb_true_iff in Hw as [Hw _]. apply negb_true_iff in Hw. rewrite Hw. cbv zeta.
  destruct (_ <? _); [by apply IH'|]. apply IH'. eapply prep_trans; [exact P|]. by apply prep_on_mp.
Qed.

(** ** The minimum of a namespace *)
Lemma s64_small z : - 2 ^ 63 <= z < 2 ^ 63 -> s64 z = z.
Proof. intros Hz. unfold s64, wrap. destruct (Z.ltb_spec (z mod 2 ^ 64) (2 ^ 63)); dm. Qed.

Lemma sizes_nonneg st l : (forall p, p ∈ l -> 0 <= size_ (sco st p)) -> 0 <= sizes st l.
Proof. unfold sizes. induction l as [|p l IH]; intros H; cbn; [lia|]. pose proof (H p ltac:(left)). specialize (IH ltac:(intros q Hq; apply H; by right)). lia. Qed.

Lemma preserve_enough st k l : 0 <= k < 2 ^ 63 -> (forall p, p ∈ l -> 0 <= size_ (sco st p)) -> sizes st l < 2 ^ 63 ->
  exists j, preserve_loop st k l = drop j l /\ (k <= sizes st (take j l) \/ drop j l = []).
Proof.
  intros Hk. assert (k < 2 ^ 63) as Hk2 by lia. assert (- 2 ^ 63 <= k) as Hk1 by lia. clear Hk. revert k Hk1 Hk2. induction l as [|p l IH]; intros k Hk1 Hk2 Hp Hs; cbn [preserve_loop].
  - exists 0%nat. auto.
  - destruct (Z.ltb_spec 0 k) as [H|H]; [|exists 0%nat; split; [done|left; cbn; lia]].
    assert (0 <= sizes st l) as Hl by (apply sizes_nonneg; intros q Hq; apply Hp; by right).
    pose proof (Hp p ltac:(left)) as Hp0. change (sizes st (p :: l)) with (size_ (sco st p) + sizes st l) in Hs. rewrite s64_small by lia.
    destruct (IH (k - size_ (sco st p))) as (j & E & HJ); [lia|lia|intros q Hq; apply Hp; by right|lia|].
    exists (S j). split; [exact E|]. destruct HJ as [HJ|HJ]; [left|by right]. cbn [take]. change (sizes st (p :: take j l)) with (size_ (sco st p) + sizes st (take j l)). lia.
Qed.

(** What the set of a namespace leaves is at least its minimum, or all there is. *)
Lemma namespace_min held st n ns x : wf held st -> nsMap_ st !! n = Some ns -> namespace_set st ns = Ok x ->
  (forall s e, (s, e) ∈ entry_list ns -> 0 <= size_ (sco st (sco_ e))) -> sizes st (ptrs (entry_list ns)) < 2 ^ 63 -> 0 <= min_ ns < 2 ^ 63 ->
  Z.min (min_ ns) (sizes st (ptrs (entry_list ns))) <=
  sizes st (ptrs (List.filter (fun q => negb (bool_decide (sco_ (snd q) ∈ x))) (entry_list ns))).
Proof.
  intros H Hns Ex Hsz Htot Hmin. set (les := entry_list ns) in *.
  assert (forall s e, (s, e) ∈ les -> find_entry st n s = Some e) as Hf. { intros s e Hs. apply elem_of_ordered in Hs. unfold find_entry. by rewrite Hns. }
  unfold namespace_set in Ex. destruct (collect_spec st les [] 0 0) as (l & E & HP).
  { intros s e Hs. destruct (wf_entry_sco _ _ _ _ _ H (Hf s e Hs)) as (Ho & _). apply (wf_refs _ _ H _ _ Ho). }
  { split; lia. } { split; lia. }
  unfold les in E at 1. rewrite E in Ex. cbn [rbind] in Ex. injection Ex as Ex. cbn [app] in HP. rewrite !Z.add_0_l in Ex.
  set (el := ptrs (List.filter (eligible st) les)) in *. set (nel := ptrs (List.filter (fun q => negb (eligible st q)) les)).
  assert (el ++ nel ≡ₚ ptrs les) as HPP. { unfold el, nel, ptrs. rewrite <- fmap_app. apply fmap_Permutation, lfilter_split. }
  assert (forall p, p ∈ ptrs les -> 0 <= size_ (sco st p)) as Hpos by (intros p ([s e] & -> & Hs)%list_elem_of_fmap; by apply (Hsz s e)).
  assert (0 <= sizes st el) as Hel by (apply sizes_nonneg; intros p Hp; apply Hpos; rewrite <- HPP; apply elem_of_app; by left).
  assert (0 <= sizes st nel) as Hnel by (apply sizes_nonneg; intros p Hp; apply Hpos; rewrite <- HPP; apply elem_of_app; by right).
  assert (sizes st (ptrs les) = sizes st el + sizes st nel) as Esum by (rewrite <- (sizes_perm st _ _ HPP); apply sizes_app).
  assert (NoDup (ptrs les)) as Hnd.
  { unfold ptrs. apply NoDup_fmap_2_strong; [|eapply NoDup_fmap_1, (ordered_nodup SCO.ltb)]. intros [s e] [s' e'] Hs Hs' Eq. cbn in Eq.
    destruct (wf_entry_inj _ _ _ _ _ _ _ _ H (Hf _ _ Hs) (Hf _ _ Hs') Eq) as [_ ->]. pose proof (Hf _ _ Hs) as E1. rewrite (Hf _ _ Hs') in E1. congruence. }
  assert (sizes st l = sizes st el) as El by (by apply sizes_perm).
  unfold ensureNamespaceMin_ in Ex. rewrite (wrap_id 64 (sizes st (ptrs les))), (wrap_id 64 (sizes st el)) in Ex by (split; lia).
  replace (sizes st (ptrs les) - sizes st el) with (sizes st nel) in Ex by lia. rewrite (wrap_id 64 (sizes st nel)) in Ex by (split; lia).
  set (k := if min_ ns <=? sizes st nel then 0 else s64 (u64 (min_ ns - sizes st nel))) in Ex.
  assert (0 <= k < 2 ^ 63 /\ min_ ns - sizes st nel <= k) as [Hk Hk'].
  { unfold k. destruct (Z.leb_spec (min_ ns) (sizes st nel)); [lia|]. rewrite wrap_id by (split; lia). rewrite s64_small by lia. lia. }
  destruct (preserve_enough st k (rev l) Hk) as (j & Ej & HJ).
  { intros p Hp. apply Hpos. rewrite <- HPP. apply elem_of_app. left. rewrite <- HP. apply list_elem_of_In. apply list_elem_of_In in Hp. by apply in_rev. }
  { rewrite (sizes_perm st (rev l) l) by (symmetry; apply Permutation_rev). lia. }
  rewrite Ej in Ex.
  assert (x ++ take j (rev l) ≡ₚ l) as Hx. { rewrite <- Ex, <- (Permutation_rev (drop j (rev l))), Permutation_app_comm, take_drop. symmetry. apply Permutation_rev. }
  assert (ptrs (List.filter (fun q => negb (bool_decide (sco_ (snd q) ∈ x))) les) ≡ₚ nel ++ take j (rev l)) as HK.
  { assert (ptrs (List.filter (fun q => negb (bool_decide (sco_ (snd q) ∈ x))) les) = List.filter (fun p => negb (bool_decide (p ∈ x))) (ptrs les)) as ->.
    { unfold ptrs. clear. induction les as [|[s e] les IH]; cbn; [done|]. case_bool_decide; cbn; by rewrite IH. }
    assert (ptrs les ≡ₚ x ++ (nel ++ take j (rev l))) as HQ.
    { rewrite <- HPP. etrans; [apply Permutation_app_tail; etrans; [symmetry; exact HP|symmetry; exact Hx]|]. rewrite <- app_assoc. apply Permutation_app_head, Permutation_app_comm. }
    rewrite HQ in Hnd. apply NoDup_app in Hnd as (_ & Hd & _).
    assert (forall a b : list nat, a ≡ₚ b -> List.filter (fun p => negb (bool_decide (p ∈ x))) a ≡ₚ List.filter (fun p => negb (bool_decide (p ∈ x))) b) as HFP.
    { intros a b Hab. induction Hab as [|y a b Hab IH|y z a|a b c _ IH1 _ IH2]; cbn; [done| | |by etrans]; repeat case_bool_decide; cbn; (done || by apply perm_skip) || apply perm_swap. }
    rewrite (HFP _ _ HQ), List.filter_app, lfilter_none, lfilter_all; [done| |]; intros p Hp.
    - rewrite bool_decide_false; [done|]. intros Hpx. by apply (Hd p).
    - by rewrite bool_decide_true. }
  rewrite (sizes_perm st _ _ HK), sizes_app. destruct HJ as [HJ|HJ]; [lia|].
  assert (sizes st (take j (rev l)) = sizes st l) as ->; [|lia]. apply sizes_perm. rewrite <- Ex, HJ in Hx. exact Hx.
Qed.

(** ** The stages of a cleanup *)

(** The checks before the selection change neither SCOs nor entries. *)
Record checked (st st' : St) : Prop := mkChecked {
  checked_prep : prep (fun _ => False) st st';
  checked_find : forall n s, find_entry st' n s = find_entry st n s;
  checked_ns : forall n, option_relation (fun a b => entries b = entries a /\ min_ b = min_ a) (fun _ => False) (fun _ => False) (nsMap_ st !! n) (nsMap_ st' !! n) }.

Lemma checked_maybeChoke st : checked st (maybeChokeNamespaces_ st).
Proof.
  split; [apply prep_maybeChoke|apply (soft_find _ _ (soft_maybeChoke st))|]. unfold maybeChokeNamespaces_. generalize (namespaces st) as l. intros l. revert st.
  induction l as [|[n ns] l IH]; intros st k; cbn [fold_left]; [by apply opt_refl|]. eapply opt_trans; [|clear IH|apply IH]; [intuition congruence|].
  cbn. destruct (decide (n = k)) as [->|]; [rewrite lookup_alter_eq|rewrite lookup_alter_ne by done; by apply opt_refl]. by destruct (nsMap_ st !! k).
Qed.

Lemma checkForWork_ns st : healthy st -> wp checkForWork_ (fun _ st' => nsMap_ st' = nsMap_ st) (fun _ => False) st.
Proof.
  intros Hh. unfold checkForWork_. apply wp_bind, wp_get.
  enough (forall l b st', prep (fun _ => False) st st' -> nsMap_ st' = nsMap_ st -> (forall q, q ∈ l -> q ∈ mountPoints_ st) -> wp (checkForWork_loop l b) (fun _ st'' => nsMap_ st'' = nsMap_ st) (fun _ => False) st') as HE by (apply HE; [apply prep_refl|done|done]).
  induction l as [|q l IH]; intros b st' P HN Hl; cbn [checkForWork_loop]; [done|]. unfold wp. cbv beta.
  assert (forall b st', prep (fun _ => False) st st' -> nsMap_ st' = nsMap_ st -> wp (checkForWork_loop l b) (fun _ st'' => nsMap_ st'' = nsMap_ st) (fun _ => False) st') as IH' by (intros; apply IH; [done|done|intros r Hr; apply Hl; by right]).
  destruct (offline_ _); [by apply IH'|]. unfold getFreeDiskSpace. assert (writable (disk st' q) = true) as Hw.
  { apply (healthy_prep _ _ _ P Hh). rewrite (prep_list _ _ _ P). apply Hl. left. }
  unfold writable in Hw. apply andb_true_iff in Hw as [Hw _]. apply negb_true_iff in Hw. rewrite Hw. cbv zeta.
  destruct (_ <? _); [by apply IH'|]. apply IH'; [|done]. eapply prep_trans; [exact P|]. by apply prep_on_mp.
Qed.

Lemma checked_checkForWork_ st : healthy st -> wp checkForWork_ (fun _ => checked st) (fun _ => False) st.
Proof.
  intros Hh. pose proof (prep_checkForWork_ (fun _ => False) st Hh) as HP. pose proof (checkForWork_ns st Hh) as HN. unfold wp in *.
  destruct (checkForWork_ st) as [st' []]; [|done]. split; [done| |].
  - intros n s. unfold find_entry. by rewrite HN.
  - intros n. rewrite HN. by apply opt_refl.
Qed.

Lemma checked_trans a b c : checked a b -> checked b c -> checked a c.
Proof.
  intros [P1 F1 N1] [P2 F2 N2]. split; [by eapply prep_trans|by intros; rewrite F2|]. intros n. eapply opt_trans; [|apply N1|apply N2]. intuition congruence.
Qed.

Lemma sco_ext a b p : scos b = scos a -> sco b p = sco a p.
Proof. unfold sco. by intros ->. Qed.

Lemma set_insert_ext a b p l : scos b = scos a -> set_insert b p l = set_insert a p l.
Proof. intros E. induction l as [|q l IH]; cbn; [done|]. by rewrite !(sco_ext a b) , IH by done. Qed.

Lemma namespace_set_ext a b x y : scos b = scos a -> entries y = entries x -> min_ y = min_ x -> namespace_set b y = namespace_set a x.
Proof.
  intros E1 E2 E3. unfold namespace_set, entry_list. rewrite E2, E3.
  assert (forall les acc, rfold (collect b) acc les = rfold (collect a) acc les) as ->.
  { induction les as [|q les IH]; intros acc; cbn [rfold]; [done|]. replace (collect b acc q) with (collect a acc q); [destruct (collect a acc q); cbn; [apply IH|done]|].
    unfold collect. destruct acc as [[l t] d]. by rewrite (sco_ext a b), (set_insert_ext a b) by done. }
  destruct (rfold (collect a) _ _) as [[[l t] d]|]; cbn; [|done]. f_equal. unfold ensureNamespaceMin_.
  assert (forall k l, preserve_loop b k l = preserve_loop a k l) as HPL; [|by rewrite HPL]. intros k l0. revert k. induction l0 as [|p l0 IH]; intros k; cbn; [done|].
  by rewrite (sco_ext a b), IH by done.
Qed.

Lemma checked_selectable st st' p : checked st st' -> selectable st' p -> selectable st p.
Proof.
  intros [P F N] [(n & ns & x & s & e & Hn & Hx & Hp & He & Ep & Hg) Hl]. pose proof (prep_scos _ _ _ P) as ES. split.
  - pose proof (N n) as R. rewrite Hn in R. destruct (nsMap_ st !! n) as [ns0|] eqn:Hn0; [|done]. destruct R as [Ee Em].
    exists n, ns0, x, s, e. rewrite F in He. rewrite (namespace_set_ext st st' ns0 ns) in Hx by done. split_and!; try done. unfold eligible in *. by rewrite <- (sco_ext st st').
  - rewrite (prep_low _ _ _ _ P), (sco_ext st st') in Hl by done. exact Hl.
Qed.

(** Rescaling changes the access values only. *)
Lemma rescale_same st : keeps rescaleXVals_ (fun st' => (forall p, with_xval Float.zero <$> scos st' !! p = with_xval Float.zero <$> scos st !! p) /\
  disks st' = disks st /\ mps st' = mps st /\ nsMap_ st' = nsMap_ st /\ params st' = params st) st.
Proof.
  assert (forall g ps st0, let st1 := fold_left (fun st p => on_sco p (with_xval (g p)) st) ps st0 in
    (forall p, with_xval Float.zero <$> scos st1 !! p = with_xval Float.zero <$> scos st0 !! p) /\ disks st1 = disks st0 /\ mps st1 = mps st0 /\ nsMap_ st1 = nsMap_ st0 /\ params st1 = params st0) as HF.
  { intros g ps. induction ps as [|q ps IH]; intros st0; cbn [fold_left]; [done|]. destruct (IH (on_sco q (with_xval (g q)) st0)) as (E1 & E2 & E3 & E4 & E5).
    split_and!; try done. intros p. rewrite E1. cbn. destruct (decide (q = p)) as [->|]; [rewrite lookup_alter_eq; by destruct (scos st0 !! p)|by rewrite lookup_alter_ne]. }
  unfold rescaleXVals_. apply wp_bind, wp_get. cbv zeta. apply wp_bind, wp_verify; [done|]. intros _. apply wp_bind, wp_modify.
  match goal with |- context [fold_left ?f (all_scos st) st] =>
    lazymatch f with fun st p => on_sco p (with_xval (@?g p)) st => pose proof (HF g (all_scos st) st) as HS end end.
  cbv zeta in HS. apply wp_bind, wp_verify; intros _; [exact HS|]. apply wp_modify. exact HS.
Qed.

Lemma sizes_ptrs_cons st s e les : sizes st (ptrs ((s, e) :: les)) = size_ (sco st (sco_ e)) + sizes st (ptrs les).
Proof. done. Qed.

Lemma sizes_filter_mono st (f g : SCO.SCO * SCOCacheNamespaceEntry -> bool) les : (forall s e, (s, e) ∈ les -> 0 <= size_ (sco st (sco_ e))) ->
  (forall q, q ∈ les -> f q = true -> g q = true) -> sizes st (ptrs (List.filter f les)) <= sizes st (ptrs (List.filter g les)).
Proof.
  induction les as [|[s e] les IH]; intros Hs Hfg; [done|]. cbn [List.filter]. pose proof (Hs s e ltac:(left)) as H0. pose proof (Hfg (s, e) ltac:(left)) as H1.
  specialize (IH ltac:(intros s' e' H'; apply (Hs s' e'); by right) ltac:(intros q Hq; apply Hfg; by right)).
  destruct (f (s, e)); [rewrite H1 by done|destruct (g (s, e))]; rewrite ?sizes_ptrs_cons; lia.
Qed.

(** The selection: what is on the set may be there, and everything else is as it was. *)
Record prepared (st st' : St) : Prop := mkPrepared {
  prepared_find : forall n s, sco_ <$> find_entry st' n s = sco_ <$> find_entry st n s;
  prepared_healthy : healthy st';
  prepared_sco : forall p, with_xval Float.zero <$> scos st' !! p = with_xval Float.zero <$> scos st !! p;
  prepared_delete : forall p, p ∈ to_delete st' -> selectable st p }.

Lemma prepared_rescale st : healthy st -> keeps rescaleXVals_ (fun st' => (forall n s, find_entry st' n s = find_entry st n s) /\ healthy st' /\
  (forall p, with_xval Float.zero <$> scos st' !! p = with_xval Float.zero <$> scos st !! p) /\ to_delete st' = to_delete st) st.
Proof.
  intros Hh. pose proof (rescale_same st) as HR. pose proof (soft_rescaleXVals_ st) as HS. unfold wp in *.
  destruct (rescaleXVals_ st) as [st' [a|a]]; destruct HR as (E1 & E2 & E3 & E4 & E5); (split_and!; [apply (soft_find _ _ HS)| |done|apply (soft_delete _ _ HS)]);
    intros q; rewrite (soft_list _ _ HS); unfold disk, mp; rewrite E2, E3; apply Hh.
Qed.

Lemma prepared_cleanup_prepare held st : wf held st -> to_delete st = [] -> healthy st -> keeps cleanup_prepare (prepared st) st.
Proof.
  intros H Hd Hh. unfold cleanup_prepare. apply wp_bind, wp_modify. pose proof (checked_maybeChoke st) as C1. pose proof (wf_soft _ _ _ (soft_maybeChoke st) H) as H1.
  set (st1 := maybeChokeNamespaces_ st) in *. pose proof (healthy_prep _ _ _ (checked_prep _ _ C1) Hh) as Hh1. apply wp_bind.
  pose proof (checked_checkForWork_ st1 Hh1) as C2. pose proof (wp_checkForWork_ held st1 H1) as H2. unfold wp in C2, H2 |- *.
  destruct (checkForWork_ st1) as [st2 [work|]]; [|done]. pose proof (checked_trans _ _ _ C1 C2) as C. pose proof (healthy_prep _ _ _ (checked_prep _ _ C) Hh) as Hh2.
  assert (forall st3, prep (selectable st2) st2 st3 -> keeps rescaleXVals_ (prepared st) st3) as HF.
  { intros st3 P. assert (healthy st3) as Hh3 by exact (healthy_prep _ _ _ P Hh2).
    assert (forall st', (forall n s, find_entry st' n s = find_entry st3 n s) /\ healthy st' /\
      (forall p, with_xval Float.zero <$> scos st' !! p = with_xval Float.zero <$> scos st3 !! p) /\ to_delete st' = to_delete st3 -> prepared st st') as HX.
    { intros st' (F & Hh' & S & D). split; [| |intros p; rewrite S|rewrite D].
      - intros n s. by rewrite F, (prep_find _ _ _ P), (checked_find _ _ C).
      - done.
      - by rewrite (prep_scos _ _ _ P), (prep_scos _ _ _ (checked_prep _ _ C)).
      - intros p Hp. apply (checked_selectable _ _ _ C). destruct (prep_delete _ _ _ P p Hp) as [Hp'|]; [|done].
        destruct (prep_delete _ _ _ (checked_prep _ _ C) p Hp') as [Hp2|[]]. rewrite Hd in Hp2. by apply elem_of_nil in Hp2. }
    eapply wp_mono; [by apply prepared_rescale| |]; intros; by apply HX. }
  change (keeps ((if work : bool then on_throw prepareCleanup_ (fun _ => mret tt) else mret tt) ;! rescaleXVals_) (prepared st) st2). apply wp_bind. destruct work; [|apply wp_ret, HF, prep_refl].
  apply wp_on_throw. eapply wp_mono; [exact (prep_prepareCleanup_ held st2 H2)| |]; [|intros st3 P e; apply wp_ret]; auto.
Qed.

(** What a whole cleanup of a healthy cache does to the entries. *)
Lemma cleanup_entries held st : wf held st -> to_delete st = [] -> healthy st ->
  exists D : list nat, (forall p, p ∈ D -> selectable st p) /\
    forall n s, sco_ <$> find_entry (fst (cleanup st)) n s =
      match find_entry st n s with Some e => if bool_decide (sco_ e ∈ D) then None else Some (sco_ e) | None => None end.
Proof.
  intros H Hd Hh. pose proof (prepared_cleanup_prepare held st H Hd Hh) as HP. pose proof (wp_cleanup_prepare held st H) as HW. unfold wp in HP, HW.
  unfold cleanup, with_set, on_throw, mbind. destruct (cleanup_prepare st) as [st1 [[]|e]].
  - exists (to_delete st1). split; [by apply (prepared_delete _ _ HP)|].
    unfold doCleanup_, mbind, mget. destruct (doCleanup_exact held false (length (to_delete st1)) st1 HW (prepared_healthy _ _ HP)) as (st2 & E & _ & F & FL & Ef & _); [right|done|].
    { intros p Hp. destruct (prepared_delete _ _ HP p Hp) as [(n & ns & x & s & e & _ & _ & _ & He & Ep & Hg) _]. unfold eligible in Hg. cbn in Hg. rewrite Ep in Hg.
      apply andb_true_iff in Hg as [[Hg _]%andb_true_iff _]. pose proof (prepared_sco _ _ HP p) as ES. unfold sco, lookup_total, map_lookup_total in *.
      destruct (scos st1 !! p), (scos st !! p); cbn in *; try done. injection ES as ES. congruence. }
    rewrite E. pose proof (prep_checkForWork_ (fun _ => False) st2) as P. unfold wp in P.
    specialize (P (healthy_frame _ _ F FL (prepared_healthy _ _ HP))). destruct (checkForWork_ st2) as [st3 [b|]]; [|done]. cbn [fst mret]. intros n s.
    rewrite (prep_find _ _ _ P), Ef. pose proof (prepared_find _ _ HP n s) as EF.
    destruct (find_entry st1 n s) as [e1|], (find_entry st n s) as [e0|]; cbn in EF; try done. injection EF as EF. rewrite <- EF. repeat case_bool_decide; cbn; congruence.
  - exists []. split; [by intros p ?%elem_of_nil|]. intros n s. cbn. change (find_entry (set_to_delete [] st1) n s) with (find_entry st1 n s).
    rewrite (prepared_find _ _ HP). by destruct (find_entry st n s).
Qed.

(** What is on the set of a namespace is exactly what may be selected of it. *)
Lemma selectable_in_set held st n ns x s e : wf held st -> nsMap_ st !! n = Some ns -> namespace_set st ns = Ok x -> find_entry st n s = Some e ->
  selectable st (sco_ e) -> sco_ e ∈ x.
Proof.
  intros H Hn Hx He [(n' & ns' & x' & s' & e' & Hn' & Hx' & Hp & He' & Ee & _) _].
  destruct (wf_entry_inj _ _ _ _ _ _ _ _ H He He') as [<- _]; [done|]. rewrite Hn in Hn'. injection Hn' as <-. congruence.
Qed.
