(* ===== verification/SCOCacheRestart.v ===== *)
(** * Error counts of the mount points, and restart

    When a mount point goes offline all others get a higher error count on their file
    systems, and a restart uses the mount points with the highest one. *)

From Stdlib Require Import SpecFloat.
From stdpp Require Import sorting.
From S2P Require Import Prelude CheckSum Addressing SCOPool SCOCache SCOCacheFacts SCOCacheOps SCOCacheAdmin.
Import SCOCache.

(** ** What going offline writes *)
Definition lock (st : St) (k : string) : option (Z * Z) := lockfile (disks st !!! k).

(** The mount points [l] have the present error count on their file systems. *)
Definition counted (l : list nat) (st : St) : Prop := forall q, q ∈ l -> exists u, lock st (path_ (mp st q)) = Some (u, mpErrorCount_ st).

Definition present (st : St) : Prop := forall q, q ∈ mountPoints_ st -> is_Some (disks st !! path_ (mp st q)).

(** The lock files of the paths that are not in [l] are left alone. *)
Record locks (l : list nat) (st st' : St) : Prop := mkLocks {
  locks_frame : forall k, (forall q, q ∈ l -> path_ (mp st q) <> k) -> lock st' k = lock st k;
  locks_dom : forall k, is_Some (disks st !! k) -> is_Some (disks st' !! k);
  locks_path : forall q, path_ (mp st' q) = path_ (mp st q) }.

Lemma locks_refl l st : locks l st st.
Proof. by split. Qed.

Lemma locks_trans l l' a b c : (forall q, q ∈ l' -> q ∈ l) -> locks l a b -> locks l' b c -> locks l a c.
Proof.
  intros HL [F1 D1 P1] [F2 D2 P2]. split; [|auto|by intros q; rewrite P2].
  intros k Hk. rewrite F2; [by apply F1|]. intros q Hq. rewrite P1. apply Hk. by apply HL.
Qed.

Lemma mp_alter p f st q : (forall m, path_ (f m) = path_ m) -> path_ (mp (on_mp p f st) q) = path_ (mp st q).
Proof.
  intros Hf. unfold mp, lookup_total, map_lookup_total. cbn. destruct (decide (p = q)) as [->|]; [rewrite lookup_alter_eq|by rewrite lookup_alter_ne].
  destruct (mps st !! q); cbn; [apply Hf|done].
Qed.

(** Destroying SCOs touches files only. *)
Lemma locks_set_file l p n s f st : locks l st (on_disk p (set_file n s f) st).
Proof.
  split; [| |done].
  - intros k _. unfold lock, lookup_total, map_lookup_total. cbn. destruct (decide (path_ (mp st p) = k)) as [->|]; [rewrite lookup_alter_eq|by rewrite lookup_alter_ne].
    by destruct (disks st !! k).
  - intros k Hk. cbn. destruct (decide (path_ (mp st p) = k)) as [->|]; [rewrite lookup_alter_eq|by rewrite lookup_alter_ne]. destruct Hk as [d ->]. by eexists.
Qed.

Lemma locks_ext l st st' : disks st' = disks st -> (forall q, path_ (mp st' q) = path_ (mp st q)) -> locks l st st'.
Proof. intros ED EM. split; [intros k _; unfold lock; by rewrite ED|by rewrite ED|done]. Qed.

Lemma locks_updateUsedSize l p d st : locks l st (fst (updateUsedSize p d st)).
Proof. unfold updateUsedSize. repeat case_match; cbn [fst]; try apply locks_refl; (apply locks_ext; [done|]; intros q; by apply mp_alter). Qed.

Lemma locks_destroy l p st : locks l st (destroy_sco p st) /\ mpErrorCount_ (destroy_sco p st) = mpErrorCount_ st.
Proof.
  unfold destroy_sco. destruct (unlink_on_destruction_ _); [|split; [by apply locks_ext|done]].
  unfold mbind, addToGarbage. destruct (_ && _); [|cbn; split; [by apply locks_ext|done]].
  set (st1 := on_disk _ _ st). pose proof (locks_updateUsedSize l (mntPoint_ (sco st p)) (s64 (- size_ (sco st p))) st1) as HL.
  assert (mpErrorCount_ (fst (updateUsedSize (mntPoint_ (sco st p)) (s64 (- size_ (sco st p))) st1)) = mpErrorCount_ st) as HE by (unfold updateUsedSize; repeat case_match; done).
  set (st2 := fst _) in *. split; [|done]. eapply locks_trans; [done|apply locks_set_file|]. eapply locks_trans; [done|exact HL|]. by apply locks_ext.
Qed.

Lemma locks_erase l es st : locks l st (erase_entries es st) /\ mpErrorCount_ (erase_entries es st) = mpErrorCount_ st.
Proof.
  revert st. induction es as [|[n s] es IH]; intros st; [split; [apply locks_refl|done]|]. cbn. fold (erase_entries es (ns_erase n s st)). destruct (IH (ns_erase n s st)) as [HL HE].
  assert (locks l st (ns_erase n s st) /\ mpErrorCount_ (ns_erase n s st) = mpErrorCount_ st) as [HL1 HE1].
  { unfold ns_erase. destruct (find_entry st n s) as [e|]; [|split; [apply locks_refl|done]]. set (st1 := on_ns _ _ st). unfold intrusive_ptr_release. set (st2 := on_sco _ _ st1).
    destruct (_ =? 0); [|split; [by apply locks_ext|done]]. destruct (locks_destroy l (sco_ e) st2) as [H1 H2]. split; [|exact H2]. eapply locks_trans; [done| |exact H1]. by apply locks_ext. }
  split; [|congruence]. by eapply locks_trans.
Qed.

(** Writing an error count. *)
Lemma setErrorCount_lock p c st : is_Some (mps st !! p) -> is_Some (disks st !! path_ (mp st p)) ->
  wp (setErrorCount p c) (fun _ st' => locks [p] st st' /\ mpErrorCount_ st' = mpErrorCount_ st /\ exists u, lock st' (path_ (mp st p)) = Some (u, c))
    (fun st' => locks [] st st' /\ mpErrorCount_ st' = mpErrorCount_ st) st.
Proof.
  intros [m Hm] Hd. unfold setErrorCount, writeMetaData_. apply wp_bind, wp_modify. set (st1 := on_mp _ _ st).
  assert (forall q, path_ (mp st1 q) = path_ (mp st q)) as EP by (intros q; by apply mp_alter).
  apply wp_bind, wp_get, wp_bind, wp_throw_if; intros _; [split; [by apply locks_ext|done]|]. apply wp_modify. split_and!; [split|done|].
  - intros k Hk. specialize (Hk p ltac:(left)). unfold lock, lookup_total, map_lookup_total. cbn. by rewrite EP, lookup_alter_ne.
  - intros k Hk. cbn. rewrite EP. destruct (decide (path_ (mp st p) = k)) as [->|]; [rewrite lookup_alter_eq|by rewrite lookup_alter_ne]. destruct Hk as [d ->]. by eexists.
  - intros q. apply EP.
  - unfold lock, lookup_total, map_lookup_total. cbn. rewrite EP, lookup_alter_eq. destruct Hd as [d ->]. cbn. eexists. do 2 f_equal.
    unfold mp, lookup_total, map_lookup_total. cbn. rewrite lookup_alter_eq. by rewrite Hm.
Qed.

Lemma locks_mono l l' st st' : (forall q, q ∈ l -> q ∈ l') -> locks l st st' -> locks l' st st'.
Proof. intros HL []. split; try done. intros k Hk. apply locks_frame0. intros q Hq. apply Hk. by apply HL. Qed.

(** What raising the error counts leaves. *)
Record raised (l : list nat) (st st' : St) : Prop := mkRaised {
  raised_counted : counted (mountPoints_ st') st';
  raised_locks : locks l st st';
  raised_sum : mpErrorCount_ st' + Z.of_nat (length (mountPoints_ st')) <= mpErrorCount_ st + Z.of_nat (length (mountPoints_ st));
  raised_more : mpErrorCount_ st <= mpErrorCount_ st' }.

(** No wrap-around is near. *)
Definition room (st : St) : Prop := 0 <= mpErrorCount_ st /\ mpErrorCount_ st + Z.of_nat (length (mountPoints_ st)) < 2 ^ 64.

Lemma present_after l st st' : off st st' -> locks l st st' -> present st -> present st'.
Proof. intros O L HP q Hq. rewrite (locks_path _ _ _ L). apply (locks_dom _ _ _ L), HP. eapply elem_of_sublist; [exact Hq|apply (off_list _ _ O)]. Qed.

Lemma counted_lock l st st' p : locks [p] st st' -> mpErrorCount_ st' = mpErrorCount_ st -> (exists u, lock st' (path_ (mp st p)) = Some (u, mpErrorCount_ st)) ->
  counted l st -> counted (p :: l) st'.
Proof.
  intros L E [u Hu] H q Hq. rewrite E, (locks_path _ _ _ L). destruct (decide (path_ (mp st q) = path_ (mp st p))) as [->|Hne]; [by exists u|].
  apply elem_of_cons in Hq as [->|Hq]; [done|]. destruct (H q Hq) as [v Hv]. exists v. rewrite (locks_frame _ _ _ L); [done|]. intros r ->%list_elem_of_singleton. congruence.
Qed.

Lemma bump_loop_counts held k f fuel l st : wf held st -> present st -> room st -> (length (mountPoints_ st) <= k)%nat ->
  (forall p, p ∈ l -> p ∈ mountPoints_ st) -> (length l + length (mountPoints_ st) * length (mountPoints_ st) <= fuel)%nat ->
  counted (List.filter (fun q => negb (bool_decide (q ∈ l))) (mountPoints_ st)) st ->
  (forall p st, p ∈ mountPoints_ st -> wf held st -> present st -> room st -> (length (mountPoints_ st) <= k)%nat ->
    wp (f p) (fun _ st' => wf held st' /\ off st st' /\ p ∉ mountPoints_ st' /\ raised (mountPoints_ st) st st') (fun _ => False) st) ->
  wp (bump_loop f fuel l) (fun _ st' => off st st' /\ raised (mountPoints_ st) st st') (fun _ => False) st.
Proof.
  intros H HP HR Hk Hl Hfuel HC Hf. revert st l H HP HR Hk Hl Hfuel HC.
  assert (forall st, counted (List.filter (fun q => negb (bool_decide (q ∈ ([] : list nat)))) (mountPoints_ st)) st -> raised (mountPoints_ st) st st) as Hend.
  { intros st HC. split; [|apply locks_refl|lia|lia]. intros q Hq. apply HC. apply elem_of_lfilter. split; [done|]. rewrite bool_decide_false; [done|]. by intros ?%elem_of_nil. }
  induction fuel as [|fuel IH]; intros st l H HP HR Hk Hl Hfuel HC.
  - destruct l; [|cbn in Hfuel; lia]. split; [exact (off_refl _ _ H)|by apply Hend].
  - destruct l as [|p l]; cbn [bump_loop]; [split; [exact (off_refl _ _ H)|by apply Hend]|].
    assert (p ∈ mountPoints_ st) as Hp by (apply Hl; left). destruct (wf_online _ _ H p Hp) as [[=]|(m & Hm & _)].
    pose proof (soft_setErrorCount p (mpErrorCount_ st) st) as HS. pose proof (setErrorCount_lock p (mpErrorCount_ st) st ltac:(by eexists) (HP p Hp)) as HL. unfold wp in HS, HL |- *.
    destruct (setErrorCount p (mpErrorCount_ st) st) as [st1 [u|e]]; destruct HS as [HS HPa];
      pose proof (wf_soft _ _ _ HS H) as H1; pose proof (soft_off _ _ _ H HS HPa) as O1; pose proof (soft_list _ _ HS) as EL.
    + destruct HL as (L & E & Hc). assert (locks (mountPoints_ st) st st1) as L'.
      { split; [|apply (locks_dom _ _ _ L)|apply (locks_path _ _ _ L)]. intros j Hj. apply (locks_frame _ _ _ L). intros q ->%list_elem_of_singleton. by apply Hj. }
      eapply wp_mono; [apply (IH st1 l)| |done]; [done|exact (present_after _ _ _ O1 L HP)|unfold room; by rewrite E, EL|by rewrite EL| |rewrite EL; cbn in Hfuel; lia| |].
      * intros q Hq. rewrite EL. apply Hl. by right.
      * rewrite EL. intros q [Hq Hql]%elem_of_lfilter. apply negb_true_iff, bool_decide_eq_false in Hql.
        apply (counted_lock (List.filter (fun q => negb (bool_decide (q ∈ p :: l))) (mountPoints_ st)) st st1 p L E Hc HC).
        destruct (decide (q = p)) as [->|Hne]; [left|right]. apply elem_of_lfilter. split; [done|]. rewrite bool_decide_false; [done|]. rewrite elem_of_cons. tauto.
      * intros ? st2 [O2 [C2 L2 S2 M2]]. rewrite E, EL in S2. rewrite E in M2. split; [exact (off_trans _ _ _ _ H1 O1 O2)|]. split; [done| |done|done].
        eapply locks_trans; [|exact L'|exact L2]. by rewrite EL.
    + destruct HL as (L & E). assert (p ∈ mountPoints_ st1) as Hp1 by (by rewrite EL).
      assert (room st1) as HR1 by (unfold room; by rewrite E, EL). assert (present st1) as HP1 by exact (present_after _ _ _ O1 L HP).
      eapply wp_bind, wp_mono; [apply Hf; [exact Hp1|done|done|done|by rewrite EL]| |done]. intros ? st2 (H2 & O2 & Hp2 & [C2 L2 S2 M2]). apply wp_bind, wp_modify, wp_bind, wp_get.
      pose proof (wf_reset_current _ _ H2) as H3. pose proof (off_reset_current _ _ H2) as O3. set (st3 := set_list _ _ st2) in *.
      assert (length (mountPoints_ st2) < length (mountPoints_ st1))%nat as Hlt. { eapply sublist_shorter; [apply (off_list _ _ O2)|exact Hp1|exact Hp2]. }
      assert (present st3) as HP3 by exact (present_after _ _ _ O2 L2 HP1).
      eapply wp_mono; [apply (IH st3 (mountPoints_ st3) H3 HP3)| |done]; change (mountPoints_ st3) with (mountPoints_ st2).
      * destruct HR1. split; change (mpErrorCount_ st3) with (mpErrorCount_ st2); change (mountPoints_ st3) with (mountPoints_ st2); lia.
      * rewrite EL in Hlt. lia.
      * done.
      * rewrite EL in Hlt. cbn in Hfuel. nia.
      * intros q [Hq Hn]%elem_of_lfilter. by rewrite bool_decide_true in Hn.
      * intros ? st4 [O4 [C4 L4 S4 M4]]. split; [exact (off_trans _ _ _ _ H1 O1 (off_trans _ _ _ _ H2 O2 (off_trans _ _ _ _ H3 O3 O4)))|].
        change (mpErrorCount_ st3) with (mpErrorCount_ st2) in *. change (mountPoints_ st3) with (mountPoints_ st2) in *. rewrite E, EL in S2. rewrite E in M2. split; [done| |lia|lia].
        assert (locks (mountPoints_ st) st st3) as L3.
        { eapply (locks_trans _ (mountPoints_ st)); [done|eapply locks_mono; [|exact L]; by intros q ?%elem_of_nil|]. eapply (locks_trans _ (mountPoints_ st)); [done|rewrite <- EL; exact L2|]. by apply (locks_ext (mountPoints_ st)). }
        eapply locks_trans; [|exact L3|exact L4]. intros q Hq. rewrite <- EL. eapply elem_of_sublist; [exact Hq|apply (off_list _ _ O2)].
Qed.

(** A mount point that goes offline keeps its error count; all others get a higher one. *)
Lemma offline_loop_counts held fuel p st : wf held st -> present st -> room st -> (length (mountPoints_ st) < fuel)%nat -> p ∈ mountPoints_ st ->
  wp (offline_loop fuel p) (fun _ st' => wf held st' /\ off st st' /\ p ∉ mountPoints_ st' /\
    raised (List.filter (fun q => negb (q =? p)%nat) (mountPoints_ st)) st st' /\ mpErrorCount_ st < mpErrorCount_ st') (fun _ => False) st.
Proof.
  revert p st. induction fuel as [|fuel IH]; intros p st H HP HR Hfuel Hp; [lia|].
  pose proof (offline_loop_ok held (S fuel) p st H Hfuel) as Hok. unfold wp in Hok.
  assert (wp (offline_loop (S fuel) p) (fun _ => raised (List.filter (fun q => negb (q =? p)%nat) (mountPoints_ st)) (set_errcount (mpErrorCount_ st + 1) (set_list (List.filter (fun q => negb (q =? p)%nat) (mountPoints_ st)) None st))) (fun _ => False) st) as HX.
  2: { unfold wp in *. destruct (offline_loop (S fuel) p st) as [st' [u|]]; [|done]. destruct Hok as (H' & O' & Hp'). destruct HX as [C L S M]. cbn [mpErrorCount_ set_errcount set_list mountPoints_] in S, M.
    assert (length (List.filter (fun q => negb (q =? p)%nat) (mountPoints_ st)) < length (mountPoints_ st))%nat as Hlt.
    { eapply sublist_shorter; [apply lfilter_sublist|exact Hp|]. rewrite elem_of_without. tauto. }
    split_and!; [done|done|done|split; [done| |lia|lia]|lia]. destruct L. by split. }
  cbn [offline_loop]. apply wp_bind, wp_modify, wp_bind, wp_get. destruct (existsb _ _) eqn:Hex; cbn [negb].
  2: { assert (existsb (Nat.eqb p) (mountPoints_ st) = true) as E; [|change (existsb (Nat.eqb p) (mountPoints_ st) = false) in Hex; congruence].
    apply existsb_exists. exists p. split; [by apply list_elem_of_In|apply Nat.eqb_refl]. }
  destruct (wf_offlined _ _ _ H Hp) as (H3 & O3 & EL). apply wp_bind, wp_modify, wp_bind, wp_modify, wp_bind, wp_modify, wp_bind, wp_get.
  change (set_list (List.filter _ (mountPoints_ (on_mp p (with_offline true) st))) (currentMountPoint_ (on_mp p (with_offline true) st)) (on_mp p (with_offline true) st)) with (going_offline p st).
  destruct (locks_erase (List.filter (fun q => negb (q =? p)%nat) (mountPoints_ st)) (entries_on (going_offline p st) p) (going_offline p st)) as [LE EE]. change (mpErrorCount_ (going_offline p st)) with (mpErrorCount_ st) in EE.
  set (st2 := erase_entries _ _) in *. set (st3 := set_list _ (head _) _) in *. change (mountPoints_ st3) with (mountPoints_ st2) in *.
  assert (length (mountPoints_ st2) < length (mountPoints_ st))%nat as Hlt.
  { rewrite EL. eapply sublist_shorter; [apply lfilter_sublist|exact Hp|]. rewrite elem_of_without. tauto. }
  unfold bumpMountPointErrorCount_. apply wp_bind, wp_modify, wp_bind, wp_get. change (mpErrorCount_ st3) with (mpErrorCount_ st2). rewrite EE. destruct HR as [HR1 HR2]. rewrite wrap_id by (split; lia).
  destruct (wf_set_errcount _ (mpErrorCount_ st + 1) _ H3) as [H4 O4]. set (st4 := set_errcount _ st3) in *. change (mountPoints_ st4) with (mountPoints_ st2).
  assert (locks (List.filter (fun q => negb (q =? p)%nat) (mountPoints_ st)) st st4) as L4.
  { eapply (locks_trans _ _ _ (going_offline p st)); [done|apply locks_ext; [done|intros q; by apply mp_alter]|]. eapply locks_trans; [done|exact LE|]. by apply locks_ext. }
  eapply wp_mono; [apply (bump_loop_counts held (length (mountPoints_ st4)) (offline_loop fuel) _ (mountPoints_ st2) st4 H4)| |done].
  - exact (present_after _ _ _ (off_trans _ _ _ _ H3 O3 O4) L4 HP).
  - split; change (mpErrorCount_ st4) with (mpErrorCount_ st + 1); change (mountPoints_ st4) with (mountPoints_ st2); lia.
  - done.
  - done.
  - change (mountPoints_ st4) with (mountPoints_ st2). lia.
  - change (mountPoints_ st4) with (mountPoints_ st2). intros q [Hq Hn]%elem_of_lfilter. by rewrite bool_decide_true in Hn.
  - intros r t Hr Ht HPt HRt Hle. change (mountPoints_ st4) with (mountPoints_ st2) in Hle. eapply wp_mono; [apply IH; [done|done|done|lia|done]| |done].
    intros ? t' (? & ? & ? & [] & ?). split_and!; [done|done|done|]. split; [done| |done|done]. eapply locks_mono; [|exact raised_locks0]. intros q [? _]%elem_of_without. done.
  - intros ? st5 [O5 [C5 L5 S5 M5]]. change (mountPoints_ st4) with (mountPoints_ st2) in *. change (mpErrorCount_ st4) with (mpErrorCount_ st + 1) in *.
    split; [done| | |exact M5].
    + eapply (locks_trans _ _ _ st); [done|by apply locks_ext|]. eapply locks_trans; [|exact L4|exact L5]. by rewrite EL.
    + cbn [mpErrorCount_ set_errcount set_list mountPoints_]. by rewrite <- EL.
Qed.

Lemma reportIOError_counts held p st : wf held st -> present st -> room st -> mntPoint_ (sco st p) ∈ mountPoints_ st ->
  wp (reportIOError_ p) (fun _ st' => off st st' /\ mntPoint_ (sco st p) ∉ mountPoints_ st' /\
    raised (List.filter (fun q => negb (q =? mntPoint_ (sco st p))%nat) (mountPoints_ st)) st st' /\ mpErrorCount_ st < mpErrorCount_ st') (fun _ => False) st.
Proof.
  intros H HP HR Hp. unfold reportIOError_, offlineMountPoint_. apply wp_bind, wp_get, wp_bind, wp_get. eapply wp_mono; [apply (offline_loop_counts held); [done|done|done|lia|done]| |done].
  by intros ? st' (_ & ?).
Qed.

(** ** Which mount points a start uses *)

(** While the mount points are made: [cfgs] were looked at, on the file systems [fss]. *)
Record inited (fss : gmap string Disk) (cfgs : list MountPointConfig) (acc : list nat) (st : St) : Prop := mkInited {
  inited_starting : starting acc st;
  inited_old : forall p, p ∈ mountPoints_ st -> exists cfg d, fss !! cfg_path cfg = Some d /\ restart_ cfg d = Ok (mp st p);
  inited_new : forall p, p ∈ acc -> exists d, fss !! path_ (mp st p) = Some d /\ lockfile d = None;
  inited_max : forall cfg d m, cfg ∈ cfgs -> fss !! cfg_path cfg = Some d -> restart_ cfg d = Ok m -> errcount_ m <= mpErrorCount_ st }.

Lemma restart_alive cfg d m : restart_ cfg d = Ok m -> dead d = false /\ path_ m = cfg_path cfg /\ exists u, lockfile d = Some (u, errcount_ m).
Proof.
  unfold restart_. destruct (validateParams_ cfg d) as [c|] eqn:E; [|done]. cbn [rbind]. destruct (lockfile d) as [[u c']|]; [|done]. destruct (scan_ c d); cbn; [|done].
  destruct (writable d) eqn:Ew; [|done]. intros [= <-]. split_and!; [|done|by eexists]. apply andb_true_iff in Ew as [Ew _]. by apply negb_true_iff.
Qed.

Lemma stage1_new cfg d u m : newMountPointStage1_ cfg d u = Ok m -> path_ m = cfg_path cfg /\ lockfile d = None.
Proof.
  unfold newMountPointStage1_, empty_. destruct (dead d); [done|]. cbn [orb]. case_bool_decide as Hl; [|done]. destruct (forallb _ _); [|done]. cbn.
  destruct (validateParams_ cfg d); cbn; [|done]. destruct (writable d); [|done]. by intros [= <-].
Qed.

Lemma mp_insert p m st q : mp (set_next (S p) (set_mps (<[p := m]> (mps st)) st)) q = if decide (q = p) then m else mp st q.
Proof. unfold mp, lookup_total, map_lookup_total. cbn. destruct (decide (q = p)) as [->|]; [by rewrite lookup_insert_eq|by rewrite lookup_insert_ne]. Qed.

Lemma starting_fresh acc st p : starting acc st -> p ∈ mountPoints_ st ++ acc -> p <> next_ st.
Proof.
  intros [] Hp ->. apply elem_of_app in Hp as [Hp|Hp]; [by apply (fresh_mp _ _ starting_wf)|]. destruct (starting_online _ Hp) as (m' & Hm' & _).
  by rewrite (proj2 (wf_fresh _ _ starting_wf _ ltac:(done))) in Hm'.
Qed.

Lemma inited_one cfgs acc cfg uuid st : inited (disks st) cfgs acc st ->
  wp (init_one acc cfg uuid) (fun acc' st' => disks st' = disks st /\ inited (disks st') (cfg :: cfgs) acc' st') (fun _ => False) st.
Proof.
  intros [HS HO HN HM]. pose proof (wp_init_one acc cfg uuid st HS) as HW. unfold wp in HW |- *.
  unfold init_one, ignore, construct, mp_exists, new_mp, on_throw, mbind, mget, mlift, mmodify, mret, mthrow in HW |- *.
  destruct (disks st !! cfg_path cfg) as [d|] eqn:Ed.
  2: { cbn in HW |- *. split; [done|]. split; try done. intros cfg' d m [->|Hc]%elem_of_cons; [congruence|by apply HM]. }
  destruct (dead d) eqn:Edd.
  { cbn in HW |- *. split; [done|]. split; try done. intros cfg' d' m [->|Hc]%elem_of_cons; [|by apply HM]. rewrite Ed. intros [= <-] Hr. destruct (restart_alive _ _ _ Hr) as (Hd' & _). congruence. }
  destruct (lockfile d) as [l|] eqn:El.
  - rewrite bool_decide_true in HW |- * by done. destruct (restart_ cfg d) as [m|] eqn:Er; cbn in HW |- *.
    2: { split; [done|]. split; try done. intros cfg' d' m [->|Hc]%elem_of_cons; [|by apply HM]. rewrite Ed. intros [= <-]. congruence. }
    split; [done|]. split; [done| | |].
    + cbn. intros p [Hp| ->%list_elem_of_singleton]%elem_of_app.
      * change (mp _ p) with (mp (set_next (S (next_ st)) (set_mps (<[next_ st := m]> (mps st)) st)) p). rewrite mp_insert, decide_False; [by apply HO|]. apply (starting_fresh acc); [done|]. apply elem_of_app. by left.
      * exists cfg, d. split; [done|]. change (mp _ (next_ st)) with (mp (set_next (S (next_ st)) (set_mps (<[next_ st := m]> (mps st)) st)) (next_ st)). by rewrite mp_insert, decide_True.
    + cbn. intros p Hp. change (mp _ p) with (mp (set_next (S (next_ st)) (set_mps (<[next_ st := m]> (mps st)) st)) p). rewrite mp_insert, decide_False; [by apply HN|].
      apply (starting_fresh acc); [done|]. apply elem_of_app. by right.
    + cbn. intros cfg' d' m' Hc Hd' Hr'. change (mp _ (next_ st)) with (mp (set_next (S (next_ st)) (set_mps (<[next_ st := m]> (mps st)) st)) (next_ st)). rewrite mp_insert, decide_True by done.
      apply elem_of_cons in Hc as [->|Hc]; [|pose proof (HM _ _ _ Hc Hd' Hr'); lia]. rewrite Ed in Hd'. injection Hd' as <-. rewrite Er in Hr'. injection Hr' as <-. lia.
  - rewrite bool_decide_false in HW |- * by (by intros [? [=]]).
    assert (forall cfg' d' m', cfg' ∈ cfg :: cfgs -> disks st !! cfg_path cfg' = Some d' -> restart_ cfg' d' = Ok m' -> errcount_ m' <= mpErrorCount_ st) as HM'.
    { intros cfg' d' m' Hc Hd' Hr'. apply elem_of_cons in Hc as [->|Hc]; [|by apply (HM cfg' d')]. rewrite Ed in Hd'. injection Hd' as <-. destruct (restart_alive _ _ _ Hr') as (_ & _ & u & Hu). congruence. }
    destruct (newMountPointStage1_ cfg d uuid) as [m|] eqn:Er; cbn in HW |- *; [|split; [done|]; by split].
    split; [done|]. split; [done| | |done].
    + intros p Hp. rewrite mp_insert, decide_False; [by apply HO|]. apply (starting_fresh acc); [done|]. apply elem_of_app. by left.
    + intros p [Hp| ->%list_elem_of_singleton]%elem_of_app; rewrite mp_insert; [rewrite decide_False; [by apply HN|]|].
      * apply (starting_fresh acc); [done|]. apply elem_of_app. by right.
      * rewrite decide_True by done. destruct (stage1_new _ _ _ _ Er) as [-> Hl]. by exists d.
Qed.

Lemma inited_all cfgs acc l st : inited (disks st) cfgs acc st ->
  wp (init_all acc l) (fun acc' st' => disks st' = disks st /\ inited (disks st') (rev l.*1 ++ cfgs) acc' st') (fun _ => False) st.
Proof.
  revert cfgs acc st. induction l as [|[cfg uuid] l IH]; intros cfgs acc st H; cbn [init_all]; [done|]. apply wp_bind.
  eapply wp_mono; [by apply inited_one| |done]. intros acc' st' [E H']. eapply wp_mono; [by apply (IH (cfg :: cfgs))| |done].
  intros acc'' st'' [E' H'']. split; [congruence|]. cbn. rewrite <- app_assoc. exact H''.
Qed.

Lemma setErrorCount_mp p c st q : p <> q -> mp (fst (setErrorCount p c st)) q = mp st q.
Proof.
  intros Hne. unfold setErrorCount, writeMetaData_, mbind, mmodify, mget, mthrow_if. destruct (negb _); unfold mp, lookup_total, map_lookup_total; cbn; by rewrite lookup_alter_ne.
Qed.

Lemma setErrorCount_path p c st q : path_ (mp (fst (setErrorCount p c st)) q) = path_ (mp st q).
Proof. unfold setErrorCount, writeMetaData_, mbind, mmodify, mget, mthrow_if. destruct (negb _); cbn [fst mthrow mret]; by apply (mp_alter p (with_errcount c)). Qed.

Lemma setErrorCount_list p c st : mountPoints_ (fst (setErrorCount p c st)) = mountPoints_ st /\ mpErrorCount_ (fst (setErrorCount p c st)) = mpErrorCount_ st.
Proof. unfold setErrorCount, writeMetaData_, mbind, mmodify, mget, mthrow_if. by destruct (negb _). Qed.

Lemma init_new_same l st : wp (init_new l) (fun l' st' => l' `sublist_of` l /\ (forall p, p ∉ l -> mp st' p = mp st p) /\ (forall p, path_ (mp st' p) = path_ (mp st p)) /\
  mountPoints_ st' = mountPoints_ st /\ mpErrorCount_ st' = mpErrorCount_ st) (fun _ => False) st.
Proof.
  revert st. induction l as [|p l IH]; intros st; cbn [init_new]; [apply wp_ret; done|]. apply wp_bind, wp_get, wp_bind.
  eapply wp_mono; [apply (wp_ignore_spec _ (fun r st1 => st1 = fst (setErrorCount p (mpErrorCount_ st) st)) (fun _ => False))| |done].
  { unfold wp, newMountPointStage2. by destruct (setErrorCount _ _ _) as [st1 []]. }
  intros r st1 ->. pose proof (setErrorCount_mp p (mpErrorCount_ st) st) as EM. pose proof (setErrorCount_path p (mpErrorCount_ st) st) as EP.
  destruct (setErrorCount_list p (mpErrorCount_ st) st) as [EL EC]. apply wp_bind. eapply wp_mono; [apply IH| |done]. intros l' st2 (HS & HM & HP & HL & HC). apply wp_ret.
  split_and!; [destruct r; [by apply sublist_skip|by apply sublist_cons]| |intros q; by rewrite HP|congruence|congruence].
  intros q Hq. rewrite not_elem_of_cons in Hq. rewrite HM by tauto. apply EM. naive_solver.
Qed.

Lemma wp_and {A} (m : M St A) (Q Q' : A -> St -> Prop) (E E' : St -> Prop) st :
  wp m Q E st -> wp m Q' E' st -> wp m (fun a st => Q a st /\ Q' a st) (fun st => E st /\ E' st) st.
Proof. unfold wp. by destruct (m st) as [st' []]. Qed.

(** Of the mount points that were used before, a start uses none with a lower
    error count than that of any that could be used again. *)
Definition latest (q : Params) (fss : gmap string Disk) (st : St) : Prop :=
  forall p d u c, p ∈ mountPoints_ st -> fss !! path_ (mp st p) = Some d -> lockfile d = Some (u, c) ->
  forall cfg d' m, cfg ∈ scocache_mount_points q -> fss !! cfg_path cfg = Some d' -> restart_ cfg d' = Ok m -> errcount_ m <= c.

Lemma start_counts q fss uuids st : SCOCache_ q fss uuids = (st, Ok tt) -> (length (scocache_mount_points q) <= length uuids)%nat -> latest q fss st.
Proof.
  intros E Hlen. unfold SCOCache_ in E. destruct (checkParameterConfig q); [|done]. set (st0 := SCOCache_init q fss) in E.
  assert (inited (disks st0) [] [] st0) as H0. { split; [apply starting_init|by intros p ?%elem_of_nil|by intros p ?%elem_of_nil|by intros ? ? ? ?%elem_of_nil]. }
  enough (wp (initMountPoints_ uuids) (fun _ => latest q fss) (fun _ => True) st0) as HW by (unfold wp in HW; by rewrite E in HW).
  unfold initMountPoints_. apply wp_bind, wp_get, wp_bind. eapply wp_mono; [by apply (inited_all [])| |done]. intros acc st1 [ED [HS HO HN HM]]. rewrite ED in *. change (disks st0) with fss in *.
  rewrite app_nil_r in HM. change (params st0) with q in HM. rewrite fst_zip in HM by exact Hlen.
  apply wp_bind. eapply wp_mono; [apply wp_and; [apply init_new_same|apply (wp_init_new acc acc st1 HS); done]| |done].
  intros acc' st2 [(Hsub & EM & EP & EL & EC) [HS2 _]].
  assert (NoDup (mountPoints_ st2 ++ acc')) as Hnd. { eapply sublist_NoDup; [apply (starting_nodup _ _ HS2)|]. by apply sublist_app. }
  apply wp_bind, wp_modify. set (st3 := set_list _ _ st2). apply wp_bind, wp_modify. set (st4 := set_list _ _ st3). apply wp_bind, wp_modify. set (st5 := set_list _ _ st4).
  assert (starting [] st3) as H3.
  { apply (starting_list acc); [done| |].
    - eapply sublist_NoDup; [|apply unique_sublist]. by rewrite sort_uuid_perm.
    - intros p Hp. eapply elem_of_sublist; [|apply sublist_app; [done|exact Hsub]]. rewrite <- (sort_uuid_perm st2). eapply elem_of_sublist; [exact Hp|apply unique_sublist]. }
  assert (starting [] st4) as H4.
  { apply (starting_list []); [done| |].
    - eapply sublist_NoDup; [apply (wf_list _ _ (starting_wf _ _ H3))|apply lfilter_sublist].
    - intros p Hp. rewrite app_nil_r. eapply elem_of_sublist; [exact Hp|apply lfilter_sublist]. }
  assert (wf [] st5) as H5 by (apply wf_reset_current, (starting_wf _ _ H4)).
  assert (latest q fss st5) as HL.
  { intros p d u c [Hp Hc]%elem_of_lfilter Hd Hl cfg d' m Hcfg Hd' Hr. change (mp st5 p) with (mp st2 p) in Hd. change (mp st3 p) with (mp st2 p) in Hc. change (mpErrorCount_ st3) with (mpErrorCount_ st2) in Hc. apply Z.eqb_eq in Hc.
    pose proof (HM cfg d' m ltac:(by rewrite list_elem_of_In, <- in_rev, <- list_elem_of_In) Hd' Hr) as Hle. rewrite EP in Hd.
    assert (p ∈ mountPoints_ st1 ++ acc) as Hin. { rewrite <- EL. eapply elem_of_sublist; [|apply sublist_app; [done|exact Hsub]]. rewrite <- (sort_uuid_perm st2). eapply elem_of_sublist; [exact Hp|apply unique_sublist]. }
    pose proof (starting_nodup _ _ HS) as Hnd1. apply NoDup_app in Hnd1 as (_ & Hdis & _).
    apply elem_of_app in Hin as [Hin|Hin]; [|destruct (HN p Hin) as (d2 & Hd2 & Hl2); congruence].
    destruct (HO p Hin) as (cfg2 & d2 & Hd2 & Hr2). destruct (restart_alive _ _ _ Hr2) as (_ & Hp2 & u2 & Hl2). rewrite Hp2, Hd2 in Hd. injection Hd as ->.
    rewrite Hl in Hl2. injection Hl2 as -> ->. rewrite EM in Hc by (by apply Hdis). lia. }
  apply wp_bind, wp_get, wp_bind. unfold bumpMountPointErrorCount_. apply wp_bind, wp_modify, wp_bind, wp_get.
  destruct (wf_set_errcount _ (u64 (mpErrorCount_ st5 + 1)) _ H5) as [H6 _]. set (st6 := set_errcount _ st5) in *.
  eapply wp_mono; [apply (bump_loop_ok [] (length (mountPoints_ st6))); [done|done|done| |]| |done].
  - change (mountPoints_ st6) with (mountPoints_ st5). lia.
  - intros p st' Hp H' Hle. by apply offlineMountPoint_ok.
  - intros ? st7 [H7 O7]. apply wp_bind, wp_get. apply wp_throw_if; [done|]. intros _ p d u c Hp. pose proof (elem_of_sublist _ _ _ Hp (off_list _ _ O7)) as Hp5. change (p ∈ mountPoints_ st5) in Hp5.
    replace (path_ (mp st7 p)) with (path_ (mp st5 p)); [by apply HL|]. pose proof (off_mps _ _ O7 p) as R. unfold mp, lookup_total, map_lookup_total. change (mps st6) with (mps st5) in R.
    by destruct (mps st5 !! p), (mps st7 !! p).
Qed.

(** ** A mount point that went offline is not used after a restart *)
Lemma offlined_count held p u c st : wf held st -> present st -> room st ->
  let m := mntPoint_ (sco st p) in
  m ∈ mountPoints_ st -> (forall q, q ∈ mountPoints_ st -> q <> m -> path_ (mp st q) <> path_ (mp st m)) ->
  lock st (path_ (mp st m)) = Some (u, c) -> c <= mpErrorCount_ st ->
  wp (reportIOError_ p) (fun _ st' => lock st' (path_ (mp st m)) = Some (u, c) /\ is_Some (disks st' !! path_ (mp st m)) /\
    forall q, q ∈ mountPoints_ st' -> exists v c', lock st' (path_ (mp st' q)) = Some (v, c') /\ c < c') (fun _ => False) st.
Proof.
  intros H HP HR m Hm Hd Hl Hc. eapply wp_mono; [by apply (reportIOError_counts held)| |done]. intros ? st' (O & Hn & [C L S M] & Hlt). split_and!.
  - rewrite (locks_frame _ _ _ L); [done|]. intros q [Hq Hne]%elem_of_without. by apply Hd.
  - apply (locks_dom _ _ _ L). by apply HP.
  - intros q Hq. destruct (C q Hq) as [v Hv]. exists v, (mpErrorCount_ st'). split; [done|lia].
Qed.
