(* ===== verification/SCOCacheTheorems.v ===== *)
(** * Theorems on the SCO cache

    The invariant of every reachable state, what a cleanup may remove, the choice
    of a mount point, and what removing a mount point, a failed fetch and two
    fetches of the same SCO do. *)

From Stdlib Require Import SpecFloat.
From stdpp Require Import sorting.
From S2P Require Import Prelude CheckSum Addressing SCOPool SCOCache SCOCacheFacts SCOCacheOps SCOCacheAdmin SCOCacheClean SCOCacheRestart.
Import SCOCache.

(** ** The cache and its clients, as a transition system

    A configuration is the state and the references the clients hold.  A client gets
    references from the functions that return a pointer, may copy and drop them, and
    passes only pointers it holds.  [getSCO_] is two steps, as the fetch runs without
    the lock; a cleanup is one step for the selection and one for each SCO.  The
    file systems may change in any way at any time. *)
Definition got (r : res nat) : list nat := match r with Ok p => [p] | Throw _ => [] end.
Definition got_opt (r : res (option nat)) : list nat := match r with Ok (Some p) => [p] | _ => [] end.
Definition got_pair (r : res (nat * bool)) : list nat := match r with Ok (p, _) => [p] | Throw _ => [] end.

Inductive step : list nat * St -> list nat * St -> Prop :=
  | step_createSCO held n s size st st' r : createSCO n s size st = (st', r) -> step (held, st) (got r ++ held, st')
  | step_findSCO held n s st st' r : findSCO n s st = (st', r) -> step (held, st) (got_opt r ++ held, st')
  | step_getSCO_lookup held n s size x st st' r : getSCO_lookup n s size x st = (st', r) -> step (held, st) (got_pair r ++ held, st')
  | step_getSCO_failed held held' p e st : held ≡ₚ p :: held' -> step (held, st) (held', fst (releasing p (getSCO_failed p e) st))
  | step_getSCO_fetched held p d st :
      p ∈ held -> (forall e, find_entry st (nspace_ (sco st p)) (scoName_ (sco st p)) = Some e -> sco_ e = p) ->
      step (held, st) (held, fst (getSCO_fetched p d st))
  | step_copy held p st : p ∈ held -> step (held, st) (p :: held, intrusive_ptr_add_ref p st)
  | step_drop held held' p st : held ≡ₚ p :: held' -> step (held, st) (held', intrusive_ptr_release p st)
  | step_removeSCO held n s r u st : step (held, st) (held, fst (removeSCO n s r u st))
  | step_setSCODisposable held p st : p ∈ held -> step (held, st) (held, fst (setSCODisposable p st))
  | step_signalSCOAccessed held p k st : p ∈ held -> step (held, st) (held, signalSCOAccessed p k st)
  | step_reportIOError held p st : p ∈ held -> step (held, st) (held, fst (reportIOError p st))
  | step_addNamespace held n a b st : step (held, st) (held, fst (addNamespace n a b st))
  | step_enableNamespace held n a b sad st : step (held, st) (held, fst (enableNamespace n a b sad st))
  | step_disableNamespace held n st : step (held, st) (held, fst (disableNamespace n st))
  | step_setNamespaceLimits held n a b st : step (held, st) (held, fst (setNamespaceLimits n a b st))
  | step_setNamespaceLimitMax held n b st : step (held, st) (held, fst (setNamespaceLimitMax n b st))
  | step_cleanup_prepare held st : to_delete st = [] -> step (held, st) (held, fst (cleanup_prepare st))
  | step_removeNamespace_prepare held n st : to_delete st = [] -> (forall p, p ∈ held -> nspace_ (sco st p) <> n) ->
      step (held, st) (held, fst (removeNamespace_prepare n st))
  | step_erase held p l r st : to_delete st = p :: l -> step (held, st) (held, fst (eraseSCOSetIterator_ p r st))
  | step_exception held st : step (held, st) (held, set_to_delete [] st)
  | step_checkForWork held st : step (held, st) (held, fst (checkForWork_ st))
  | step_removeNamespace_finish held n st : step (held, st) (held, fst (removeNamespace_finish n st))
  | step_addMountPoint held cfg uuid st : to_delete st = [] -> step (held, st) (held, fst (addMountPoint cfg uuid st))
  | step_removeMountPoint held path st : to_delete st = [] -> step (held, st) (held, fst (removeMountPoint path st))
  | step_update held q uuids st : to_delete st = [] -> step (held, st) (held, fst (update q uuids st))
  | step_file_systems held fss st : step (held, st) (held, set_disks fss st).

Lemma keeps_fst {A} (m : M St A) (P : St -> Prop) st : keeps m P st -> P (fst (m st)).
Proof. unfold wp. by destruct (m st) as [st' []]. Qed.

Lemma uses_permutation p l l' : l ≡ₚ l' -> uses p l = uses p l'.
Proof. induction 1; cbn; lia. Qed.

Lemma wf_permutation held held' st : held ≡ₚ held' -> wf held st -> wf held' st.
Proof. intros HP. apply wf_perm. intros p. by apply uses_permutation. Qed.

Lemma wf_copy held p st : wf held st -> p ∈ held -> wf (p :: held) (intrusive_ptr_add_ref p st).
Proof.
  intros H Hp. apply wf_add_ref; [done|by apply (wf_held _ _ H)|]. intros Hd. destruct (proj2 (wf_delete _ _ H) p Hd) as (? & ? & _ & _ & _ & _ & Hn). done.
Qed.

Lemma step_wf held st held' st' : step (held, st) (held', st') -> wf held st -> wf held' st'.
Proof.
  intros Hs H. inversion Hs; subst; clear Hs.
  - pose proof (wp_createSCO held n s size st H) as HW. unfold wp in HW. match goal with E : createSCO _ _ _ _ = _ |- _ => rewrite E in HW end. by destruct r.
  - pose proof (wp_findSCO_ held n s st H) as HW. unfold wp in HW. unfold findSCO in *. match goal with E : findSCO_ _ _ _ = _ |- _ => rewrite E in HW end. by destruct r as [[]|].
  - pose proof (wp_getSCO_lookup held n s size x st H) as HW. unfold wp in HW. match goal with E : getSCO_lookup _ _ _ _ _ = _ |- _ => rewrite E in HW end. by destruct r as [[]|].
  - match goal with E : held ≡ₚ _ |- _ => apply (wf_permutation _ _ _ E) in H end.
    apply keeps_fst. apply wp_releasing. unfold getSCO_failed.
    assert (forall e st', wf (p :: held') st' -> wp (removeSCO_ p false ;! (mthrow e : M St unit)) (fun _ => wf held') (fun st'' => wf held' (intrusive_ptr_release p st'')) st') as HR.
    { intros e' st' H'. apply wp_bind. eapply wp_mono; [apply (@wp_removeSCO_ None (p :: held')); [done|left]| |]; [intros ? st'' H''; apply wp_throw|intros st'' H'']; by apply wf_release. }
    destruct e; try (by apply HR). apply wp_bind. eapply wp_mono; [by apply (reportIOError_ok (p :: held'))| |done]. intros ? st'' (H'' & _). apply wp_throw. by apply wf_release.
  - apply keeps_fst, wp_getSCO_fetched; [done|done|]. intros e He Hd. match goal with E : forall e, _ |- _ => rewrite (E e He) in Hd end.
    destruct (proj2 (wf_delete _ _ H) p Hd) as (? & ? & _ & _ & _ & _ & Hn). done.
  - by apply wf_copy.
  - apply wf_release. by apply (wf_permutation held).
  - apply keeps_fst. by apply wp_findAndRemove.
  - apply keeps_fst. by apply wp_setDisposable.
  - apply (wf_soft _ st); [by apply soft_on_sco|done].
  - apply keeps_fst. eapply wp_mono; [by apply (reportIOError_ok held')| |done]. by intros ? ? (? & _).
  - apply keeps_fst. by apply wp_addNamespace.
  - apply keeps_fst. by apply wp_enableNamespace.
  - apply keeps_fst. by apply wp_disableNamespace.
  - apply keeps_fst. by apply wp_setNamespaceLimits.
  - apply keeps_fst. by apply wp_setNamespaceLimitMax.
  - apply keeps_fst. by apply wp_cleanup_prepare.
  - apply keeps_fst. by apply wp_removeNamespace_prepare.
  - apply keeps_fst. apply wp_eraseSCOSetIterator_; [done|]. match goal with E : to_delete st = _ |- _ => rewrite E end. left.
  - by apply wf_forget_set.
  - apply keeps_fst. eapply wp_mono; [by apply (wp_checkForWork_ held')|done|done].
  - apply keeps_fst. by apply wp_removeNamespace_finish.
  - apply keeps_fst. eapply wp_mono; [by apply (wp_addMountPoint held')| |]; [by intros ? ? []|by intros ? []].
  - apply keeps_fst. eapply wp_mono; [by apply (wp_removeMountPoint held')| |]; [by intros ? ? []|by intros ? []].
  - apply keeps_fst. eapply wp_mono; [by apply (wp_update held')| |]; [by intros ? ? []|by intros ? []].
  - apply (wf_soft _ st); [apply soft_set_disks|done].
Qed.

Lemma reachable_wf q fss uuids held st : rtc step ([], fst (SCOCache_ q fss uuids)) (held, st) -> wf held st.
Proof.
  intros Hr. remember (held, st) as c eqn:Ec. remember ([], fst (SCOCache_ q fss uuids)) as c0 eqn:E0. assert (wf (fst c0) (snd c0)) as H0 by (rewrite E0; apply quiet_start). clear E0.
  replace (wf held st) with (wf (fst c) (snd c)) by (by rewrite Ec). clear Ec. induction Hr as [|[h1 s1] [h2 s2] c Hs Hr IH]; [done|]. apply IH. by eapply step_wf.
Qed.

(** *** A run for the witnesses

    Two mount points of 500 bytes.  A SCO of 450 bytes is written on one, made
    disposable and no longer used; another one is in use on the other. *)
Module Sample.
Definition fs : Disk := mkDisk false false 1000 1000 ∅ None.
Definition config : Params := mkParams 100 200 (Float.of_Z 1) 4000 [mkConfig "/a" 500; mkConfig "/b" 500].
Definition name (n : Z) : SCO.SCO := SCO.mkSCO 0 n 0.
Definition file_systems : gmap string Disk := {[ "/a"%string := fs; "/b"%string := fs ]}.
Definition start : St := fst (SCOCache_ config file_systems [7; 5]).
Definition st1 : St := fst (addNamespace "n" 0 1000 start).
Definition st2 : St := fst (createSCO "n" (name 1) 450 st1).
Definition st3 : St := on_disk (mntPoint_ (sco st2 2)) (set_file "n" (name 1) (Some (mkFile (repeat 0 450) false))) st2.
Definition st4 : St := fst (setSCODisposable 2 st3).
Definition st5 : St := intrusive_ptr_release 2 st4.
Definition st6 : St := fst (createSCO "n" (name 2) 450 st5).
End Sample.

Lemma sample_run : rtc step ([], Sample.start) ([3%nat], Sample.st6).
Proof.
  eapply rtc_l; [apply (step_addNamespace [] "n" 0 1000)|].
  eapply rtc_l; [eapply (step_createSCO [] "n" (Sample.name 1) 450); apply surjective_pairing|].
  eapply rtc_l; [apply (step_file_systems _ (disks Sample.st3))|].
  eapply rtc_l; [apply (step_setSCODisposable _ 2); vm_compute; by left|].
  eapply rtc_l; [apply (step_drop _ [] 2); vm_compute; done|].
  eapply rtc_l; [eapply (step_createSCO [] "n" (Sample.name 2) 450); apply surjective_pairing|].
  vm_compute. apply rtc_refl.
Qed.



(** C11. a cleanup of a cache whose file systems work takes a SCO out of the cache only
    if it is disposable, nobody uses it, it is not being fetched, and its mount
    point has less space than the trigger; and it leaves each namespace at
    least its minimum, or all it had.  This holds however the cleanup ends. *)
Theorem cleanup_safe held st : wf held st -> to_delete st = [] -> healthy st -> (forall p o, scos st !! p = Some o -> 0 <= size_ o) ->
  let st' := fst (cleanup st) in
  (forall n s e, find_entry st n s = Some e ->
     sco_ <$> find_entry st' n s = Some (sco_ e) \/
     disposable_ (sco st (sco_ e)) = true /\ refcnt_ (sco st (sco_ e)) = 1 /\ blocked_ e = false /\ low st (mntPoint_ (sco st (sco_ e))) = true) /\
  (forall n ns, nsMap_ st !! n = Some ns -> sizes st (ptrs (entry_list ns)) < 2 ^ 63 -> 0 <= min_ ns < 2 ^ 63 ->
     Z.min (min_ ns) (sizes st (ptrs (entry_list ns))) <=
     sizes st (ptrs (List.filter (fun q => bool_decide (is_Some (find_entry st' n (fst q)))) (entry_list ns)))).
Proof.
  intros H Hd Hh Hsz st'. destruct (cleanup_entries held st H Hd Hh) as (D & HD & HE). fold st' in HE. split.
  - intros n s e He. rewrite HE, He. case_bool_decide as Hin; [right|by left].
    destruct (HD _ Hin) as [(n' & ns & x & s' & e' & _ & _ & _ & He' & Ee & Hg) Hl]. destruct (wf_entry_inj _ _ _ _ _ _ _ _ H He He') as [<- <-]; [done|].
    rewrite He in He'. injection He' as <-. unfold eligible in Hg. cbn in Hg. apply andb_true_iff in Hg as [[Hg Hr]%andb_true_iff Hb]. apply Z.eqb_eq in Hr. apply negb_true_iff in Hb.
    split_and!; [done|lia|done|done].
  - intros n ns Hn Htot Hmin. destruct (namespace_set_spec held st n ns H Hn) as (x & Ex & _).
    assert (forall s e, (s, e) ∈ entry_list ns -> find_entry st n s = Some e) as Hf by (intros s e Hs%elem_of_ordered; unfold find_entry; by rewrite Hn).
    assert (forall s e, (s, e) ∈ entry_list ns -> 0 <= size_ (sco st (sco_ e))) as Hpos.
    { intros s e Hs. destruct (wf_entry_sco _ _ _ _ _ H (Hf s e Hs)) as (Ho & _). by apply (Hsz _ _ Ho). }
    etrans; [by apply (namespace_min held st n ns x)|]. apply sizes_filter_mono; [done|]. intros [s e] Hs Hx. cbn [fst snd] in *. apply bool_decide_true.
    apply negb_true_iff, bool_decide_eq_false in Hx. pose proof (HE n s) as HE'. rewrite (Hf s e Hs), bool_decide_false in HE'.
    + by destruct (find_entry st' n s).
    + intros Hin. apply Hx. exact (selectable_in_set _ _ _ _ _ _ _ H Hn Ex (Hf s e Hs) (HD _ Hin)).
Qed.

(** The SCO that is not used goes, the other one stays. *)
Lemma cleanup_safe_witness :
  wf [3%nat] Sample.st6 /\
  let st' := fst (cleanup Sample.st6) in
  find_entry st' "n" (Sample.name 1) = None /\ sco_ <$> find_entry st' "n" (Sample.name 2) = Some 3%nat.
Proof.
  assert (wf [3%nat] Sample.st6) as H by exact (reachable_wf _ _ _ _ _ sample_run). split; [exact H|].
  assert (healthy Sample.st6) as Hh. { intros q Hq. vm_compute in Hq. repeat (apply elem_of_cons in Hq as [->|Hq]; [vm_compute; reflexivity|]). by apply elem_of_nil in Hq. }
  assert (forall p o, scos Sample.st6 !! p = Some o -> 0 <= size_ o) as Hs.
  { intros p o Ho. apply elem_of_map_to_list in Ho. vm_compute in Ho. repeat (apply elem_of_cons in Ho as [[= -> ->]|Ho]; [vm_compute; discriminate|]). by apply elem_of_nil in Ho. }
  split; [vm_compute; reflexivity|].
  destruct (proj1 (cleanup_safe [3%nat] Sample.st6 H ltac:(vm_compute; reflexivity) Hh Hs) "n" (Sample.name 2) (mkEntry 3 false) ltac:(vm_compute; reflexivity)) as [E|E]; [exact E|].
  vm_compute in E. destruct E as [E _]. discriminate E.
Defined.

(** ** Where a new SCO goes *)
Lemma list_find_app {A} (f : A -> bool) l l' : List.find f (l ++ l') = match List.find f l with Some a => Some a | None => List.find f l' end.
Proof. induction l as [|a l IH]; cbn; [done|]. by destruct (f a). Qed.

(** C23. [getWriteMountPoint_] always ends, and chooses as this says: it goes
    round the mount points from behind the current one to it, each once, and
    takes the first that is not choking; only if all are it takes the first
    with room.  Where that one has no room the cache is full for the caller, and nothing
    has changed; otherwise it is the new current one. *)
Theorem mount_point_choice held scoSize c st : wf held st -> currentMountPoint_ st = Some c ->
  let order := rotation c (mountPoints_ st) ++ [c] in
  let take p := if no_room st scoSize p then (st, Throw TransientException) else (set_list (mountPoints_ st) (Some p) st, Ok p) in
  order ≡ₚ mountPoints_ st /\
  getWriteMountPoint_ scoSize st =
    match List.find (fun p => negb (is_choking st p)) order with
    | Some p => take p
    | None => match List.find (fun p => negb (no_room st scoSize p)) order with Some p => take p | None => (st, Throw TransientException) end
    end.
Proof.
  intros H Hc order take. destruct (wf_current _ _ H c Hc) as [Hin|[=]]. pose proof (rotation_perm _ _ Hin) as HP. split; [exact HP|].
  rewrite (getWriteMountPoint_eq _ _ _ _ H Hc). cbv zeta. fold (take (chosen st scoSize c)). unfold chosen, order. rewrite !list_find_app.
  pose proof (wf_list _ _ H) as Hnd. rewrite <- HP in Hnd. apply NoDup_app in Hnd as (_ & Hd & _).
  destruct (List.find (fun p => negb (is_choking st p)) _) as [p|] eqn:E; [change (default c (Some p)) with p|change (default c None) with c].
  - apply List.find_some in E as [Hp _]. apply list_elem_of_In in Hp. rewrite (proj2 (Nat.eqb_neq p c)); [done|]. intros ->. apply (Hd c Hp). by left.
  - rewrite Nat.eqb_refl. cbn [List.find andb]. destruct (is_choking st c) eqn:Ec; cbn [negb andb]; [|done].
    destruct (List.find (fun p => negb (no_room st scoSize p)) _) as [p|] eqn:E'; [done|]. change (default c None) with c.
    unfold take. destruct (no_room st scoSize c) eqn:En; cbn [negb]; [done|by rewrite En].
Qed.

Lemma mount_point_choice_witness : currentMountPoint_ Sample.st6 = Some 1%nat /\ snd (getWriteMountPoint_ 40 Sample.st6) = Ok 0%nat.
Proof.
  split; [vm_compute; reflexivity|].
  rewrite (proj2 (mount_point_choice [3%nat] 40 1 Sample.st6 (reachable_wf _ _ _ _ _ sample_run) ltac:(vm_compute; reflexivity))). vm_compute. reflexivity.
Defined.

(** ** A mount point that fails *)

(** C25. reporting an input or output error always ends, although
    [offlineMountPoint_] and [bumpMountPointErrorCount_] call each other: the mount point
    of the SCO is no longer used, others may have gone as well, and the entries
    that are left are exactly those of SCOs on the mount points that are left. *)
Theorem offlining_ends held p st : wf held st ->
  exists st', reportIOError p st = (st', Ok tt) /\ wf held st' /\
    mountPoints_ st' `sublist_of` mountPoints_ st /\ mntPoint_ (sco st p) ∉ mountPoints_ st' /\
    (forall n s e, find_entry st' n s = Some e <-> find_entry st n s = Some e /\ mntPoint_ (sco st (sco_ e)) ∈ mountPoints_ st').
Proof.
  intros H. pose proof (reportIOError_ok held p st H) as HW. unfold wp in HW. unfold reportIOError.
  destruct (reportIOError_ p st) as [st' [[]|]]; [|done]. destruct HW as (H' & O & Hp). exists st'. split_and!; [done|done|apply (off_list _ _ O)|done|apply (off_find _ _ O)].
Qed.

(** Both file systems have failed: the report about the one takes the other with it. *)
Lemma offlining_ends_witness :
  let st := set_disks ((fun d => mkDisk true (dead d) (fs_size d) (fs_free d) (dirs d) (lockfile d)) <$> disks Sample.st6) Sample.st6 in
  wf [3%nat] st /\ exists st', reportIOError 3 st = (st', Ok tt) /\ mountPoints_ st' = [] /\ find_entry st' "n" (Sample.name 1) = None.
Proof.
  set (st := set_disks _ _). assert (wf [3%nat] st) as H. { apply (wf_soft _ Sample.st6); [apply soft_set_disks|exact (reachable_wf _ _ _ _ _ sample_run)]. }
  split; [exact H|]. destruct (offlining_ends [3%nat] 3 st H) as (st' & E & _ & _ & _ & HF). exists st'. split; [exact E|].
  assert (mountPoints_ st' = []) as El. { change (mountPoints_ (fst (st', Ok tt)) = []). rewrite <- E. vm_compute. reflexivity. }
  split; [exact El|]. destruct (find_entry st' "n" (Sample.name 1)) as [e|] eqn:He; [|reflexivity]. apply HF in He as [_ Hin]. rewrite El in Hin. destruct (not_elem_of_nil _ Hin).
Defined.

(** ** Removing a mount point *)

(** C36. when [removeMountPoint] succeeds the cache is empty: the SCOs of all
    mount points are dropped, not only those of the one that is removed, and of the
    others also those that are not in the backend yet.  Their files stay. *)
Theorem removeMountPoint_empties held path st st' : wf held st -> to_delete st = [] -> removeMountPoint path st = (st', Ok tt) ->
  forall n s, find_entry st' n s = None.
Proof.
  intros H Hd E. pose proof (wp_removeMountPoint_ held path false st H Hd) as HW. unfold wp in HW. unfold removeMountPoint in E. rewrite E in HW. apply HW.
Qed.

(** A SCO on [/b] that is not disposable is lost with the mount point [/a]. *)
Lemma removeMountPoint_empties_witness :
  let st := intrusive_ptr_release 3 Sample.st6 in
  wf [] st /\ path_ (mp st (mntPoint_ (sco st 3))) = "/b"%string /\ disposable_ (sco st 3) = false /\ find_entry st "n" (Sample.name 2) = Some (mkEntry 3 false) /\
  snd (removeMountPoint "/a" st) = Ok tt /\ find_entry (fst (removeMountPoint "/a" st)) "n" (Sample.name 2) = None.
Proof.
  set (st := intrusive_ptr_release 3 Sample.st6). assert (wf [] st) as H by (apply wf_release; exact (reachable_wf _ _ _ _ _ sample_run)).
  split; [exact H|]. split; [vm_compute; reflexivity|]. split; [vm_compute; reflexivity|]. split; [vm_compute; reflexivity|].
  assert (snd (removeMountPoint "/a" st) = Ok tt) as E by (vm_compute; reflexivity). split; [exact E|].
  apply (removeMountPoint_empties [] "/a" st); [exact H|vm_compute; reflexivity|]. rewrite <- E. apply surjective_pairing.
Defined.

(** ** A fetch that fails *)
Definition created (n : string) (s : SCO.SCO) (size : Z) (x : spec_float) (b : bool) (q : nat) (st : St) : St :=
  let p := next_ st in
  intrusive_ptr_add_ref p (insert_entry n s (mkEntry p b)
    (set_next (S p) (set_scos (<[p := mkCachedSCO n s q size x false false 1]> (scos st))
      (on_mp q (with_used (u64 (used_ (mp st q) + size))) (set_list (mountPoints_ st) (Some q) st))))).

(** What a creation that succeeds has done. *)
Lemma createSCO_exact held n s size x b st st1 p : wf held st -> 0 < size < 2 ^ 63 -> createSCO_ n s size x b st = (st1, Ok p) ->
  exists q, p = next_ st /\ q ∈ mountPoints_ st /\ find_entry st n s = None /\ is_Some (nsMap_ st !! n) /\ st1 = created n s size x b q st.
Proof.
  intros H Hs. unfold createSCO_, mbind, findNamespace_throw_. destruct (nsMap_ st !! n) as [ns|] eqn:Hn; [|done].
  unfold mthrow_if at 1. case_bool_decide as He; [done|]. apply eq_None_not_Some in He. unfold mret at 1.
  pose proof (wp_getWriteMountPoint_ held size st H) as HW. unfold wp in HW. destruct (getWriteMountPoint_ size st) as [st2 [q|]]; [|done].
  destruct HW as (_ & Hq & Hr & ->). unfold new_CachedSCO, mbind, mthrow_if, mret. rewrite (proj2 (Z.eqb_neq size 0)) by lia.
  unfold updateUsedSize. rewrite s64_small, (proj2 (Z.leb_le 0 size)) by lia. change (mp (set_list (mountPoints_ st) (Some q) st) q) with (mp st q).
  unfold no_room in Hr. apply Z.ltb_ge in Hr. rewrite (proj2 (Z.leb_le _ _) Hr). unfold new_object, releasing, on_throw, insertSCO_, mbind, mget.
  set (st3 := set_next _ _). assert (sco st3 (next_ st) = mkCachedSCO n s q size x false false 1) as Eo by (apply sco_lookup; cbn; apply lookup_insert_eq).
  change (next_ (on_mp _ _ _)) with (next_ st). rewrite Eo. cbn [nspace_ scoName_]. change (nsMap_ st3) with (nsMap_ st). rewrite Hn.
  rewrite bool_decide_false by (rewrite He; by intros [? [=]]). unfold mverify, negb, mret, mmodify.
  intros [= <- <-]. exists q. split_and!; [done|done| |by exists ns|done]. unfold find_entry. by rewrite Hn.
Qed.

Lemma release_count p o st : scos st !! p = Some o -> refcnt_ o <> 1 ->
  intrusive_ptr_release p st = on_sco p (fun o => with_refcnt (refcnt_ o - 1) o) st.
Proof.
  intros Ho Hr. unfold intrusive_ptr_release. rewrite (sco_lookup _ p (with_refcnt (refcnt_ o - 1) o)) by (cbn; by rewrite lookup_alter_eq, Ho). cbn [refcnt_ with_refcnt].
  rewrite (proj2 (Z.eqb_neq (refcnt_ o - 1) 0)) by lia. done.
Qed.

Lemma release_last p o st : scos st !! p = Some o -> refcnt_ o = 1 -> unlink_on_destruction_ o = false ->
  scos (intrusive_ptr_release p st) = delete p (scos st) /\ nsMap_ (intrusive_ptr_release p st) = nsMap_ st /\ mps (intrusive_ptr_release p st) = mps st.
Proof.
  intros Ho Hr Hu. unfold intrusive_ptr_release. pose proof (sco_lookup (on_sco p (fun o => with_refcnt (refcnt_ o - 1) o) st) p (with_refcnt (refcnt_ o - 1) o)) as E.
  rewrite E by (cbn; by rewrite lookup_alter_eq, Ho). cbn [refcnt_ with_refcnt]. rewrite (proj2 (Z.eqb_eq (refcnt_ o - 1) 0)) by lia.
  unfold destroy_sco. rewrite E by (cbn; by rewrite lookup_alter_eq, Ho). cbn [unlink_on_destruction_ with_refcnt]. rewrite Hu. cbn. split_and!; [|done|done].
  by rewrite delete_alter_eq.
Qed.

(** A fetch that fails, for any reason but an error of the mount point, leaves
    the cache as it was, with one exception: the space for the SCO that was
    never there stays in use on the mount point. *)
Theorem failed_fetch_leaks held n s size f fss e st st1 p : wf held st -> 0 < size < 2 ^ 63 ->
  getSCO_lookup n s size (getInitialXVal_ st) st = (st1, Ok (p, false)) -> fetch f p st1 = (set_disks fss st1, Throw e) -> e <> SCOCacheMountPointIOException ->
  exists st' q, getSCO n s size f st = (st', Throw e) /\ scos st' = scos st /\ (forall k t, find_entry st' k t = find_entry st k t) /\
    q ∈ mountPoints_ st /\ used_ (mp st' q) = u64 (used_ (mp st q) + size).
Proof.
  intros H Hs Hl Hf He. unfold getSCO, getSCO_, mbind, mget. rewrite Hl. unfold releasing, on_throw. rewrite Hf.
  unfold getSCO_lookup, mbind in Hl. destruct (findSCO_ n s st) as [st0 [[p0|]|]] eqn:Ef; [done| |done].
  assert (st0 = st) as ->. { unfold findSCO_, mbind, findNamespace_throw_, mthrow_if, mmodify, mret, mthrow in Ef. repeat (case_match; simplify_eq; try done). }
  destruct (createSCO_ n s size (getInitialXVal_ st) true st) as [st0 [p0|]] eqn:Ec; [|done]. injection Hl as <- <-.
  destruct (createSCO_exact held _ _ _ _ _ _ _ _ H Hs Ec) as (q & -> & Hq & Hno & [ns Hn] & ->). set (p := next_ st) in *. set (st1 := created _ _ _ _ _ _ _) in *.
  set (o := mkCachedSCO n s q size (getInitialXVal_ st) false false 2).
  assert (scos st1 !! p = Some o) as Ho by (cbn; by rewrite lookup_alter_eq, lookup_insert_eq).
  assert (forall k t, find_entry st1 k t = if bool_decide (n = k /\ s = t) then Some (mkEntry p true) else find_entry st k t) as Hfe.
  { intros k t. change (find_entry st1 k t) with (find_entry (insert_entry n s (mkEntry p true) st) k t). apply find_insert_entry. by exists ns. }
  assert (find_entry (set_disks fss st1) n s = Some (mkEntry p true)) as Hfn by (change (find_entry st1 n s = Some (mkEntry p true)); rewrite Hfe; by rewrite bool_decide_true).
  assert (exists ns1, nsMap_ st1 !! n = Some ns1) as [ns1 Hn1] by (unfold find_entry in Hfn; destruct (nsMap_ (set_disks fss st1) !! n) eqn:E1; [by eexists|done]).
  set (st3 := erase_entry n s (set_disks fss st1)). set (st4 := on_sco p (fun o => with_refcnt (refcnt_ o - 1) o) st3).
  assert (removeSCO_ p false (set_disks fss st1) = (st4, Ok tt)) as Er.
  { unfold removeSCO_, mbind, mget. rewrite (sco_lookup _ p o) by exact Ho. cbn [nspace_ scoName_ o]. unfold findNamespace_throw_. change (nsMap_ (set_disks fss st1)) with (nsMap_ st1). rewrite Hn1.
    unfold mmodify, mret, ns_erase. rewrite Hfn. cbn [sco_]. do 2 f_equal. apply (release_count p o st3); [exact Ho|done]. }
  assert (getSCO_failed p e (set_disks fss st1) = (st4, Throw e)) as E.
  { unfold getSCO_failed, mbind. destruct e; try (rewrite Er; done). done. }
  rewrite E. unfold mmodify, mthrow. destruct (release_last p (with_refcnt 1 o) st4) as (E1 & E2 & E3); [|done|done|].
  { cbn [scos st4 on_sco set_scos]. rewrite lookup_alter_eq. change (scos st3 !! p) with (scos st1 !! p). by rewrite Ho. }
  exists (intrusive_ptr_release p st4), q. split_and!; [done| | |done|].
  - rewrite E1. cbn. rewrite !delete_alter_eq, delete_insert_eq. apply delete_id. apply (wf_fresh _ _ H p). done.
  - intros k t. unfold find_entry at 1. rewrite E2. fold (find_entry st4 k t). change (find_entry st4 k t) with (find_entry (erase_entry n s (set_disks fss st1)) k t). rewrite find_erase.
    change (find_entry (set_disks fss st1) k t) with (find_entry st1 k t). rewrite Hfe. case_bool_decide as Hk; [|done]. destruct Hk as [<- <-]. by rewrite Hno.
  - unfold mp at 1, lookup_total, map_lookup_total. rewrite E3. cbn. rewrite lookup_alter_eq. destruct (wf_online _ _ H q Hq) as [[=]|(m & Hm & _)]. by rewrite Hm.
Qed.

(** A fetch that fails when the backend is not there: 40 bytes are gone. *)
Lemma failed_fetch_leaks_witness :
  let f := mkFetcher (fun _ => mthrow BackendConnectFailureException) true in
  exists st' q, getSCO "n" (Sample.name 9) 40 f Sample.st6 = (st', Throw BackendConnectFailureException) /\
    find_entry st' "n" (Sample.name 9) = None /\ used_ (mp st' q) = u64 (used_ (mp Sample.st6 q) + 40).
Proof.
  intros f. set (r := getSCO_lookup "n" (Sample.name 9) 40 (getInitialXVal_ Sample.st6) Sample.st6).
  destruct (failed_fetch_leaks [3%nat] "n" (Sample.name 9) 40 f (disks (fst r)) BackendConnectFailureException Sample.st6 (fst r) 4) as (st' & q & E & _ & HF & _ & Hu).
  - exact (reachable_wf _ _ _ _ _ sample_run).
  - lia.
  - unfold r. vm_compute. reflexivity.
  - vm_compute. reflexivity.
  - discriminate.
  - exists st', q. split; [exact E|]. split; [rewrite HF; vm_compute; reflexivity|exact Hu].
Defined.

(** ** A restart after a mount point failed *)

(** C24. a mount point that went offline, and so may lack SCOs that were written
    since, is not used after a restart, if one of those that were left can be
    used again: on these the error count was raised before the report of the
    error returned, and a start takes the mount points with the highest count only. *)
Theorem offlined_not_reused held p u c st st' q uuids st'' :
  let m := mntPoint_ (sco st p) in
  wf held st -> present st -> room st -> m ∈ mountPoints_ st ->
  (forall r, r ∈ mountPoints_ st -> r <> m -> path_ (mp st r) <> path_ (mp st m)) ->
  lock st (path_ (mp st m)) = Some (u, c) -> c <= mpErrorCount_ st ->
  reportIOError p st = (st', Ok tt) ->
  SCOCache_ q (disks st') uuids = (st'', Ok tt) -> (length (scocache_mount_points q) <= length uuids)%nat ->
  (exists r cfg d mr, r ∈ mountPoints_ st' /\ cfg ∈ scocache_mount_points q /\ cfg_path cfg = path_ (mp st' r) /\ disks st' !! cfg_path cfg = Some d /\ restart_ cfg d = Ok mr) ->
  forall r, r ∈ mountPoints_ st'' -> path_ (mp st'' r) <> path_ (mp st m).
Proof.
  intros m H HP HR Hm Hd Hl Hc E Es Hlen (r0 & cfg & d0 & mr & Hr0 & Hcfg & Ep & Hd0 & Hrs) r Hr Epath.
  pose proof (offlined_count held p u c st H HP HR Hm Hd Hl Hc) as HW. unfold wp in HW. unfold reportIOError in E. rewrite E in HW. destruct HW as (Hl' & [d Hd'] & HC).
  destruct (HC r0 Hr0) as (v & c' & Hlv & Hlt). destruct (restart_alive _ _ _ Hrs) as (_ & _ & w & Hw).
  unfold lock in Hlv, Hl'. rewrite <- Ep, (lookup_total_correct _ _ _ Hd0) in Hlv. fold m in Hd', Hl'. rewrite (lookup_total_correct _ _ _ Hd') in Hl'.
  pose proof (start_counts _ _ _ _ Es Hlen r d u c Hr ltac:(by rewrite Epath) Hl' cfg d0 mr Hcfg Hd0 Hrs) as Hle. rewrite Hw in Hlv. injection Hlv as _ Hlv. lia.
Qed.

(** The mount point [/b] fails, and [/a] alone is used after the restart. *)
Lemma offlined_not_reused_witness :
  let st' := fst (reportIOError 3 Sample.st6) in
  let st'' := fst (SCOCache_ Sample.config (disks st') [0; 0]) in
  snd (SCOCache_ Sample.config (disks st') [0; 0]) = Ok tt /\ mountPoints_ st'' = [0%nat] /\ path_ (mp st'' 0) <> "/b"%string.
Proof.
  intros st' st''. assert (snd (SCOCache_ Sample.config (disks st') [0; 0]) = Ok tt) as E by (vm_compute; reflexivity).
  assert (mountPoints_ st'' = [0%nat]) as El by (vm_compute; reflexivity). split; [exact E|]. split; [exact El|].
  assert (forall r, r ∈ mountPoints_ Sample.st6 -> r = 0%nat \/ r = 1%nat) as Hl.
  { intros r Hr. assert (mountPoints_ Sample.st6 = [1; 0]%nat) as E6 by (vm_compute; reflexivity). rewrite E6 in Hr. apply elem_of_cons in Hr as [->|Hr]; [right; reflexivity|].
    apply list_elem_of_singleton in Hr. left. exact Hr. }
  refine (offlined_not_reused [3%nat] 3 5 1 Sample.st6 st' Sample.config [0; 0] st'' _ _ _ _ _ _ _ _ _ _ _ 0%nat _).
  - exact (reachable_wf _ _ _ _ _ sample_run).
  - intros r Hr. destruct (Hl r Hr) as [-> | ->]; vm_compute; eexists; reflexivity.
  - split; vm_compute; [discriminate|reflexivity].
  - vm_compute. left.
  - intros r Hr. destruct (Hl r Hr) as [-> | ->]; vm_compute; [discriminate|]. intros Hne. destruct (Hne eq_refl).
  - vm_compute. reflexivity.
  - vm_compute. discriminate.
  - vm_compute. reflexivity.
  - vm_compute. reflexivity.
  - vm_compute. reflexivity.
  - exists 0%nat, (mkConfig "/a" 500), (disks st' !!! "/a"%string), (mkMountPoint "/a" 500 450 None false 7 2). split; [vm_compute; left|]. split; [left|]. split; [vm_compute; reflexivity|]. split; vm_compute; reflexivity.
  - rewrite El. left.
Defined.
