(* ===== verification/DataStore.v ===== *)
(** * [DataStoreNG]: the data of a volume in SCOs

    The source is [volumedriver/DataStoreNG.cpp], with [WriteSCOCache.cpp],
    [OpenSCO.cpp] and the fetchers of [SCOFetcher.cpp], over the SCO cache of
    [SCOCache.v].

    The write lock of the data store serialises the operations, so that they are functions on the
    state.  A [CachedSCOPtr] in a local variable is a reference, dropped at the end of
    the function.  An [OpenSCO] is identified with its SCO: those in [openSCOs_] are all
    open for reading and writing, and they keep a reference to it.  Its file is looked up
    by path: when it is no longer there what is written goes to a file without a name, and what is
    read from that is not modelled.  A file system that is dead or read-only fails
    writes and syncs, [FileDescriptor::pwrite] throws when it writes less than it should.
    Events, traces and times are left out. *)

From Stdlib Require Import SpecFloat.
From stdpp Require Import sorting.
From S2P Require Import Prelude CheckSum Addressing SCOPool SCOCache.
Import SCOCache CheckSum.

Module DataStoreNG.
Import ClusterLocation.

Inductive SCOWrittenToBackendAction : Type := SetDisposable | SetDisposableAndPurgeFromPageCache | PurgeFromSCOCache.

(** What is constant: the configuration, the objects in the backend of each
    clone, what the DTL returns for a SCO, and whether the backend does partial reads. *)
Record Conf : Type := mkConf {
  cluster_size_ : Z;
  ns_ : string;
  impl : implementation;
  action : SCOWrittenToBackendAction;
  backend : Z -> SCO.SCO -> res (list Z);
  getSCOFromFailOver : SCO.SCO -> res (list (ClusterLocation * list Z));
  partial_read_supported : bool }.

(** The members; [tasks] are the [WriteSCO] tasks that were scheduled, [halted] is
    what [halt] sets in the volume, and [memory] is where buffers are. *)
Record DS : Type := mkDS {
  cache : St;
  sco_mult_ : Z;
  currentClusterLoc_ : ClusterLocation;
  openSCOs_ : list (option Ptr);
  latestSCOnumberInBackend_ : Z;
  pendingTLogSCOs_ : list (SCO.SCO * unit);
  cacheHitCounter_ : Z;
  cacheMissCounter_ : Z;
  currentCheckSum_ : option CheckSum;
  tasks : list (SCO.SCO * CheckSum);
  halted : bool;
  memory : gmap Z Z }.

Definition set_cache x d := mkDS x (sco_mult_ d) (currentClusterLoc_ d) (openSCOs_ d) (latestSCOnumberInBackend_ d) (pendingTLogSCOs_ d) (cacheHitCounter_ d) (cacheMissCounter_ d) (currentCheckSum_ d) (tasks d) (halted d) (memory d).
Definition set_mult x d := mkDS (cache d) x (currentClusterLoc_ d) (openSCOs_ d) (latestSCOnumberInBackend_ d) (pendingTLogSCOs_ d) (cacheHitCounter_ d) (cacheMissCounter_ d) (currentCheckSum_ d) (tasks d) (halted d) (memory d).
Definition set_loc x d := mkDS (cache d) (sco_mult_ d) x (openSCOs_ d) (latestSCOnumberInBackend_ d) (pendingTLogSCOs_ d) (cacheHitCounter_ d) (cacheMissCounter_ d) (currentCheckSum_ d) (tasks d) (halted d) (memory d).
Definition set_open x d := mkDS (cache d) (sco_mult_ d) (currentClusterLoc_ d) x (latestSCOnumberInBackend_ d) (pendingTLogSCOs_ d) (cacheHitCounter_ d) (cacheMissCounter_ d) (currentCheckSum_ d) (tasks d) (halted d) (memory d).
Definition set_latest x d := mkDS (cache d) (sco_mult_ d) (currentClusterLoc_ d) (openSCOs_ d) x (pendingTLogSCOs_ d) (cacheHitCounter_ d) (cacheMissCounter_ d) (currentCheckSum_ d) (tasks d) (halted d) (memory d).
Definition set_pending x d := mkDS (cache d) (sco_mult_ d) (currentClusterLoc_ d) (openSCOs_ d) (latestSCOnumberInBackend_ d) x (cacheHitCounter_ d) (cacheMissCounter_ d) (currentCheckSum_ d) (tasks d) (halted d) (memory d).
Definition count (hits misses : Z) d := mkDS (cache d) (sco_mult_ d) (currentClusterLoc_ d) (openSCOs_ d) (latestSCOnumberInBackend_ d) (pendingTLogSCOs_ d) (u64 (cacheHitCounter_ d + hits)) (u64 (cacheMissCounter_ d + misses)) (currentCheckSum_ d) (tasks d) (halted d) (memory d).
Definition set_checksum x d := mkDS (cache d) (sco_mult_ d) (currentClusterLoc_ d) (openSCOs_ d) (latestSCOnumberInBackend_ d) (pendingTLogSCOs_ d) (cacheHitCounter_ d) (cacheMissCounter_ d) x (tasks d) (halted d) (memory d).
Definition add_task x d := mkDS (cache d) (sco_mult_ d) (currentClusterLoc_ d) (openSCOs_ d) (latestSCOnumberInBackend_ d) (pendingTLogSCOs_ d) (cacheHitCounter_ d) (cacheMissCounter_ d) (currentCheckSum_ d) (tasks d ++ [x]) (halted d) (memory d).
Definition halt d := mkDS (cache d) (sco_mult_ d) (currentClusterLoc_ d) (openSCOs_ d) (latestSCOnumberInBackend_ d) (pendingTLogSCOs_ d) (cacheHitCounter_ d) (cacheMissCounter_ d) (currentCheckSum_ d) (tasks d) true (memory d).
Definition set_memory x d := mkDS (cache d) (sco_mult_ d) (currentClusterLoc_ d) (openSCOs_ d) (latestSCOnumberInBackend_ d) (pendingTLogSCOs_ d) (cacheHitCounter_ d) (cacheMissCounter_ d) (currentCheckSum_ d) (tasks d) (halted d) x.

(** Calls of the cache, and control. *)
Definition on_cache {A} (m : M St A) : M DS A := fun d => let '(st, r) := m (cache d) in (set_cache st d, r).
Definition verify_ (b : bool) : M DS unit := if b then mret tt else mthrow VerifyFailed.
Definition throw_if (b : bool) (e : exn) : M DS unit := if b then mthrow e else mret tt.
Definition catch {A} (m : M DS A) (h : exn -> M DS A) : M DS A := fun d =>
  match m d with (d', Throw e) => h e d' | r => r end.
Definition catch_transient (m : M DS unit) : M DS unit :=
  catch m (fun e => if decide (e = TransientException) then mret tt else mthrow e).
Definition release (p : Ptr) : M DS unit := on_cache (mmodify (intrusive_ptr_release p)).
(** [m], with [p] in a local variable. *)
Definition scoped {A} (p : Ptr) (m : M DS A) : M DS A :=
  let! a := catch m (fun e => release p ;! mthrow e) in release p ;! mret a.

(** Bytes at an address. *)
Fixpoint store (a : Z) (bs : list Z) (mem : gmap Z Z) : gmap Z Z :=
  match bs with
  | [] => mem
  | b :: bs => store (a + 1) bs (<[a := b]> mem)
  end.

(** ** [OpenSCO] *)
Definition offline_of (d : DS) (p : Ptr) : bool := offline_ (mp (cache d) (mntPoint_ (sco (cache d) p))).
Definition disk_of (d : DS) (p : Ptr) : Disk := disk (cache d) (mntPoint_ (sco (cache d) p)).
Definition file (d : DS) (p : Ptr) : option File := file_of (cache d) (sco (cache d) p).
Definition put_file (p : Ptr) (f : File) : M DS unit := on_cache (mmodify (fun st =>
  on_disk (mntPoint_ (sco st p)) (set_file (nspace_ (sco st p)) (scoName_ (sco st p)) (Some f)) st)).

(** The constructor: the file is opened, made if necessary when it is to be
    written, and then the mount point is looked at.  It keeps a reference. *)
Definition open_sco (p : Ptr) (write : bool) : M DS unit :=
  let! d := mget in
  let o := sco (cache d) p in
  throw_if (dead (disk_of d p)) IOException ;!
  throw_if (write && read_only (disk_of d p)) IOException ;!
  throw_if (negb (bool_decide (is_Some (dirs (disk_of d p) !! nspace_ o)))) IOException ;!
  match file d p with
  | Some _ => mret tt
  | None => if write then put_file p (mkFile [] false) else mthrow IOException
  end ;!
  throw_if (offline_of d p) IOException ;!
  on_cache (mmodify (intrusive_ptr_add_ref p)).

Definition pread (p : Ptr) (size off : nat) : M DS (list Z) :=
  let! d := mget in
  throw_if (offline_of d p) IOException ;!
  throw_if (dead (disk_of d p)) IOException ;!
  match file d p with
  | None => mthrow UndefinedBehaviour
  | Some f => mret (take size (drop off (data f)))
  end.

(** [pwrite] on a file: a hole is filled with zeros. *)
Definition splice (f : File) (off : nat) (buf : list Z) : File :=
  mkFile (take off (data f) ++ replicate (off - length (data f)) 0 ++ buf ++ drop (off + length buf) (data f)) (s_isvtx f).

Definition throttle_usecs (d : DS) (p : Ptr) : Z :=
  let o := sco (cache d) p in
  match choking_ (mp (cache d) (mntPoint_ o)) with
  | Some t => t
  | None => if from_option ns_choking_ false (nsMap_ (cache d) !! nspace_ o) then datastore_throttle_usecs (params (cache d)) else 0
  end.

Definition pwrite (p : Ptr) (buf : list Z) (off : nat) : M DS Z :=
  let! d := mget in
  throw_if (offline_of d p) IOException ;!
  throw_if (negb (writable (disk_of d p))) IOException ;!
  match file d p with
  | None => mret tt
  | Some f => put_file p (splice f off buf)
  end ;!
  mret (throttle_usecs d p).

Definition osco_sync (p : Ptr) : M DS unit :=
  let! d := mget in
  throw_if (offline_of d p) IOException ;!
  throw_if (negb (writable (disk_of d p))) IOException.

(** ** [WriteSCOCache]: a vector, indexed by the SCO number *)
Definition index_ (d : DS) (s : SCO.SCO) : nat := Z.to_nat (SCO.number_ s mod Z.of_nat (length (openSCOs_ d))).

Definition bucket (d : DS) (s : SCO.SCO) : option Ptr := default None (openSCOs_ d !! index_ d s).

Definition find (d : DS) (s : SCO.SCO) : option Ptr :=
  match bucket d s with
  | Some p => if bool_decide (scoName_ (sco (cache d) p) = s) then Some p else None
  | None => None
  end.

Definition clear (i : nat) : M DS unit := mmodify (fun d => set_open (<[i := None]> (openSCOs_ d)) d).

Definition erase (s : SCO.SCO) (sync : bool) : M DS unit :=
  let! d := mget in
  match find d s with
  | None => mret tt
  | Some p => (if sync then osco_sync p else mret tt) ;! clear (index_ d s) ;! release p
  end.

Definition erase_bucket (s : SCO.SCO) : M DS unit :=
  let! d := mget in
  match bucket d s with
  | None => mret tt
  | Some p => osco_sync p ;! clear (index_ d s) ;! release p
  end.

(** [insert]; where it throws the [OpenSCO] goes. *)
Definition insert_open (p : Ptr) : M DS unit :=
  let! d := mget in
  let s := scoName_ (sco (cache d) p) in
  catch (erase_bucket s) (fun e => release p ;! mthrow e) ;!
  mmodify (fun d => set_open (<[index_ d s := Some p]> (openSCOs_ d)) d).

Definition currentSCO_ (d : DS) : option Ptr := find d (sco_ (currentClusterLoc_ d)).

Definition next_sco : M DS unit :=
  mmodify (fun d => set_loc (make (u32 (number (currentClusterLoc_ d) + 1)) 0 (cloneID (currentClusterLoc_ d)) 0) d).

Section DataStore.
Context (cf : Conf).
Abbreviation csize := (cluster_size_ cf).
Abbreviation nspace := (ns_ cf).

Definition validateConfig_ (sco_mult : Z) : res unit :=
  if sco_mult =? 0 then Throw IOException else if csize =? 0 then Throw IOException else Ok tt.

(** ** Fetchers *)

(** [BackendSCOFetcher]: of the backend interface of a clone. *)
Definition backend_fetch (bi : Z) (s : SCO.SCO) (p : Ptr) : M St unit := fun st =>
  let o := sco st p in
  if negb (writable (disk st (mntPoint_ o))) || negb (bool_decide (is_Some (dirs (disk st (mntPoint_ o)) !! nspace_ o))) then (st, Throw SCOCacheMountPointIOException)
  else match backend cf bi (SCO.set_cloneID 0 s) with
       | Throw BackendOutputException => (st, Throw SCOCacheMountPointIOException)
       | Throw e => (st, Throw e)
       | Ok bytes => (on_disk (mntPoint_ o) (set_file (nspace_ o) (scoName_ o) (Some (mkFile bytes false))) st, Ok tt)
       end.

(** [FailOverCacheSCOFetcher], with whether it halts the volume. *)
Definition foc_result (s : SCO.SCO) (cs : option CheckSum) : res (list Z) * bool :=
  match getSCOFromFailOver cf s with
  | Throw e => (Throw e, bool_decide (e = FailOverCacheNotConfiguredException))
  | Ok l =>
      if negb (forallb (fun q => SCO.eqb (sco_ (fst q)) s) l) then (Throw VerifyFailed, false)
      else
        let bytes := concat (snd <$> l) in
        if (length bytes =? 0)%nat then (Throw IOException, true)
        else match cs with
             | Some cs => if bool_decide (fold_left (update (impl cf)) (snd <$> l) CheckSum_default = cs) then (Ok bytes, false)
                          else (Throw CheckSumException, true)
             | None => (Ok bytes, false)
             end
  end.

Definition foc_ready (st : St) (p : Ptr) : bool :=
  let o := sco st p in writable (disk st (mntPoint_ o)) && bool_decide (is_Some (dirs (disk st (mntPoint_ o)) !! nspace_ o)).

Definition foc_fetch (s : SCO.SCO) (cs : option CheckSum) (p : Ptr) : M St unit := fun st =>
  let o := sco st p in
  if negb (foc_ready st p) then (st, Throw SCOCacheMountPointIOException)
  else match fst (foc_result s cs) with
       | Throw e => (st, Throw e)
       | Ok bytes => (on_disk (mntPoint_ o) (set_file (nspace_ o) (scoName_ o) (Some (mkFile bytes false))) st, Ok tt)
       end.

(** Whether the volume is halted when the cache has to fetch. *)
Definition foc_halts (s : SCO.SCO) (cs : option CheckSum) (scoSize : Z) (st : St) : bool :=
  match getSCO_lookup nspace s scoSize (getInitialXVal_ st) st with
  | (st1, Ok (p, false)) => foc_ready st1 p && snd (foc_result s cs)
  | _ => false
  end.

(** [sco_mult_.t * cluster_size_], and [offset() * cluster_size_]: of 32 bits. *)
Definition sco_size (d : DS) : Z := u32 (sco_mult_ d * csize).
Definition sco_offset (l : ClusterLocation) : nat := Z.to_nat (u32 (offset_ l * csize)).

(** [scoCache_->getSCO] with the fetcher from the DTL. *)
Definition get_from_foc (s : SCO.SCO) (cs : option CheckSum) : M DS (Ptr * bool) :=
  let! d := mget in
  verify_ (SCO.cloneID_ s =? 0) ;!
  (if foc_halts s cs (sco_size d) (cache d) then mmodify halt else mret tt) ;!
  on_cache (getSCO nspace s (sco_size d) (mkFetcher (foc_fetch s cs) false)).

Definition in_backend (d : DS) (s : SCO.SCO) : bool :=
  negb (SCO.cloneID_ s =? 0) || (SCO.number_ s <=? latestSCOnumberInBackend_ d) || bool_decide (is_Some (SMap.find s (pendingTLogSCOs_ d))).

Definition getSCO_ (s : SCO.SCO) (bi : option Z) (cs : option CheckSum) : M DS (Ptr * bool) :=
  let! d := mget in
  catch (if in_backend d s
         then match bi with
              | None => mthrow VerifyFailed
              | Some bi => on_cache (getSCO nspace s (sco_size d) (mkFetcher (backend_fetch bi s) true))
              end
         else get_from_foc s cs)
        (fun e => if decide (e = SCOCacheNoMountPointsException) then mmodify halt ;! mthrow e else mthrow e).

Definition getSCO_ptr (s : SCO.SCO) (bi : option Z) (cs : option CheckSum) : M DS Ptr :=
  let! (p, _) := getSCO_ s bi cs in mret p.

(** ** Errors *)

(** [reportIOError_] never returns; the pointer is passed by value. *)
Definition reportIOError_ {A} (p : Ptr) : M DS A :=
  on_cache (mmodify (intrusive_ptr_add_ref p)) ;!
  scoped p (
    let! d := mget in
    let s := scoName_ (sco (cache d) p) in
    on_cache (SCOCache.reportIOError p) ;!
    erase s false ;!
    let! d := mget in
    (if bool_decide (sco_ (currentClusterLoc_ d) = s) && negb (offset_ (currentClusterLoc_ d) =? 0)
     then let! (q, _) := getSCO_ s None None in scoped q (open_sco q true ;! insert_open q)
     else mret tt) ;!
    mthrow TransientException).

Definition reportIOError (s : SCO.SCO) : M DS unit :=
  catch_transient (let! p := on_cache (findSCO_throw nspace s) in scoped p (reportIOError_ p)).

(** ** The current SCO *)
Definition updateCurrentSCO_ : M DS unit :=
  mmodify (set_checksum (Some CheckSum_default)) ;!
  let! d := mget in
  let s := sco_ (currentClusterLoc_ d) in
  erase_bucket s ;!
  let! d := mget in
  let! p := catch (on_cache (createSCO nspace s (sco_size d)))
                  (fun e => if decide (e = SCOCacheNoMountPointsException) then mmodify halt ;! mthrow e else mthrow e) in
  scoped p (catch (open_sco p true ;! insert_open p) (fun _ => reportIOError_ p)) ;!
  let! d := mget in verify_ (bool_decide (is_Some (currentSCO_ d))).

Definition pushSCO_ (s : SCO.SCO) : M DS unit :=
  let! d := mget in
  match currentCheckSum_ d with
  | None => mthrow UndefinedBehaviour
  | Some cs => mmodify (add_task (s, cs))
  end.

Definition pushAndUpdateCurrentSCO_ (ignore_transient_errors : bool) : M DS (option CheckSum) :=
  let! d := mget in
  match currentSCO_ d with
  | None => mthrow VerifyFailed
  | Some p =>
      pushSCO_ (scoName_ (sco (cache d) p)) ;!
      next_sco ;!
      let! d := mget in
      verify_ (bool_decide (is_Some (currentCheckSum_ d))) ;!
      (if ignore_transient_errors then catch_transient updateCurrentSCO_ else updateCurrentSCO_) ;!
      mret (currentCheckSum_ d)
  end.

Definition finalizeCurrentSCO : M DS (option CheckSum) :=
  let! d := mget in
  if negb (offset_ (currentClusterLoc_ d) =? 0) then pushAndUpdateCurrentSCO_ true else mret None.

(** ** Writing *)

(** With the locations and [throttle_usecs]. *)
Definition writeClusters_ (buf : list Z) (num_locs : nat) : M DS (list ClusterLocation * Z) :=
  let! d := mget in
  (if bool_decide (currentSCO_ d = None) then updateCurrentSCO_ else mret tt) ;!
  let! d := mget in
  match currentSCO_ d with
  | None => mthrow VerifyFailed
  | Some p =>
      let! throttle := catch (pwrite p buf (sco_offset (currentClusterLoc_ d))) (fun _ => reportIOError_ p) in
      mmodify (fun d => set_checksum ((fun cs => update (impl cf) cs buf) <$> currentCheckSum_ d) d) ;!
      let l := currentClusterLoc_ d in
      mmodify (set_loc (set_offset (u16 (offset_ l + Z.of_nat num_locs)) l)) ;!
      mret ((fun i => make (number l) (u16 (offset_ l + Z.of_nat i)) 0 0) <$> seq 0 num_locs, throttle)
  end.

Definition writeClusters : list Z -> nat -> M DS (list ClusterLocation * Z) := writeClusters_.

Definition writeClusterToLocation (buf : list Z) (loc : ClusterLocation) : M DS Z :=
  let! d := mget in
  verify_ (cloneID loc =? 0) ;!
  verify_ (version loc =? 0) ;!
  throw_if (negb (ClusterLocation.eqb loc (currentClusterLoc_ d))) IOException ;!
  let! (locs, throttle) := writeClusters_ buf 1 in
  verify_ (bool_decide (locs = [loc])) ;!
  mret throttle.

(** The difference is one of [uint32_t], before it becomes a [ssize_t]. *)
Definition getRemainingSCOCapacity (d : DS) : Z := u32 (sco_mult_ d - offset_ (currentClusterLoc_ d)).

Definition setSCOMultiplier (m : Z) : M DS unit := verify_ (negb (m =? 0)) ;! mmodify (set_mult m).

(** ** Reading *)
Record ClusterReadDescriptor : Type := mkDesc { loc_ : ClusterLocation; buf_ : Z; bi_ : option Z }.

Definition readFromSCO_ (buf : Z) (p : Ptr) (read_size read_off : nat) : M DS unit :=
  let! bytes := pread p read_size read_off in
  throw_if (negb (length bytes =? read_size)%nat) IOException ;!
  mmodify (fun d => set_memory (store buf bytes (memory d)) d).

Definition touchCluster (l : ClusterLocation) : M DS unit :=
  let! p := on_cache (findSCO nspace (sco_ l)) in
  match p with
  | Some p => scoped p (on_cache (mmodify (signalSCOAccessed p 1)))
  | None => mret tt
  end.

(** The part from a SCO that is open. *)
Definition read_open (desc : ClusterReadDescriptor) (num_clusters : nat) (p : Ptr) : M DS bool :=
  catch (readFromSCO_ (buf_ desc) p (num_clusters * Z.to_nat csize) (sco_offset (loc_ desc)) ;!
         on_cache (mmodify (signalSCOAccessed p (Z.of_nat num_clusters))) ;!
         mret true)
        (fun _ => reportIOError_ p).

Definition read_adjacent_clusters_ (desc : ClusterReadDescriptor) (num_clusters : nat) (fetch_if_necessary : bool) : M DS bool :=
  let s := sco_ (loc_ desc) in
  let n := Z.of_nat num_clusters in
  let! d := mget in
  match find d s with
  | Some p => mmodify (count n 0) ;! read_open desc num_clusters p
  | None =>
      let! r := if fetch_if_necessary then let! r := getSCO_ s (bi_ desc) None in mret (Some r)
                else let! p := on_cache (findSCO nspace s) in mret ((fun p => (p, true)) <$> p) in
      match r with
      | None => mmodify (count 0 n) ;! mret false
      | Some (p, cached) =>
          scoped p (
            mmodify (if cached : bool then count n 0 else count (n - 1) 1) ;!
            catch (open_sco p false) (fun _ => reportIOError_ p) ;!
            scoped p (read_open desc num_clusters p))
      end
  end.

(** How many descriptors are read at once: adjacent in the SCO and in memory. *)
Fixpoint run_length (prev : ClusterLocation) (last_buf : Z) (i : Z) (descs : list ClusterReadDescriptor) : nat :=
  match descs with
  | [] => 0
  | desc :: descs =>
      let cur := loc_ desc in
      if (number prev =? number cur) && (version prev =? version cur) && (cloneID prev =? cloneID cur)
         && (offset_ prev + i =? offset_ cur) && (last_buf + csize =? buf_ desc)
      then S (run_length prev (buf_ desc) (i + 1) descs) else 0
  end.

(** [PartialReads] of each clone, in the order of the maps: slices of size, offset and buffer. *)
Definition Slice : Type := Z * Z * Z.
Definition PartialReads : Type := list (SCO.SCO * list Slice).

(** [emplace] into the set of slices, which are ordered by offset. *)
Fixpoint emplace (x : Slice) (l : list Slice) : option (list Slice) :=
  match l with
  | [] => Some [x]
  | y :: l' => if snd (fst x) <? snd (fst y) then Some (x :: l)
               else if snd (fst y) <? snd (fst x) then (fun l => y :: l) <$> emplace x l' else None
  end.

Fixpoint of_clone (cid : Z) (m : list (Z * PartialReads)) : PartialReads :=
  match m with
  | [] => []
  | (c, r) :: m => if c =? cid then r else of_clone cid m
  end.

Fixpoint put_clone (cid : Z) (r : PartialReads) (m : list (Z * PartialReads)) : list (Z * PartialReads) :=
  match m with
  | [] => [(cid, r)]
  | (c, r') :: m' => if cid <? c then (cid, r) :: m else if cid =? c then (cid, r) :: m' else (c, r') :: put_clone cid r m'
  end.

Definition add_slice (cid : Z) (s : SCO.SCO) (x : Slice) (m : list (Z * PartialReads)) : res (list (Z * PartialReads)) :=
  let reads := of_clone cid m in
  match emplace x (default [] (SMap.find s reads)) with
  | None => Throw VerifyFailed
  | Some l => Ok (put_clone cid (SMap.insert s l reads) m)
  end.

(** The loop over the descriptors; the fuel is their number. *)
Fixpoint read_local (fuel : nat) (descs : list ClusterReadDescriptor) (m : list (Z * PartialReads)) : M DS (list (Z * PartialReads)) :=
  match descs with
  | [] => mret m
  | desc :: rest =>
      match fuel with
      | O => mthrow OutOfFuel
      | S fuel =>
          let l := loc_ desc in
          let num_clusters := S (run_length l (buf_ desc) 1 rest) in
          let! hit := read_adjacent_clusters_ desc num_clusters false in
          let! m :=
            if hit : bool then mret m
            else
              let! d := mget in
              if (cloneID l =? 0) && (latestSCOnumberInBackend_ d <? number l)
                 && negb (bool_decide (is_Some (SMap.find (sco_ l) (pendingTLogSCOs_ d))))
              then let! hit := read_adjacent_clusters_ desc num_clusters true in verify_ hit ;! mret m
              else mlift (add_slice (cloneID l) (SCO.set_cloneID 0 (sco_ l))
                            (u32 (Z.of_nat num_clusters * csize), offset_ l * csize, buf_ desc) m) in
          read_local fuel (drop num_clusters descs) m
      end
  end.

(** Slices of an object, or of a file. *)
Definition read_slices (bytes : list Z) (l : list Slice) : M DS unit :=
  miter (fun '(size, off, buf) =>
    let x := take (Z.to_nat size) (drop (Z.to_nat off) bytes) in
    throw_if (negb (length x =? Z.to_nat size)%nat) BackendException ;!
    mmodify (fun d => set_memory (store buf x (memory d)) d)) l.

(** [partial_read], or the fallback of [BackendConnectionInterface::partial_read]: the SCO is
    fetched to the cache and read from there.  The pointers are kept until the end. *)
Definition fallback (cid : Z) (s : SCO.SCO) (l : list Slice) : M DS (Ptr * bool) :=
  let! (p, cached) := getSCO_ (SCO.set_cloneID cid s) (Some cid) None in
  catch (let! d := mget in
         match (if dead (disk_of d p) then None else file d p) with
         | None => mthrow IOException
         | Some f => read_slices (data f) l
         end) (fun e => release p ;! mthrow e) ;!
  mret (p, cached).

Fixpoint fallbacks (cid : Z) (reads : PartialReads) : M DS (Z * Z) :=
  match reads with
  | [] => mret (0, 0)
  | (s, l) :: reads =>
      let! (p, cached) := fallback cid s l in
      let! (hits, misses) := scoped p (fallbacks cid reads) in
      mret (if cached : bool then (hits + 1, misses) else (hits, misses + 1))
  end.

Definition partial_read (cid : Z) (reads : PartialReads) : M DS (Z * Z) :=
  if partial_read_supported cf
  then miter (fun '(s, l) => let! bytes := mlift (backend cf cid s) in read_slices bytes l) reads ;! mret (0, 0)
  else fallbacks cid reads.

Definition readClusters (descs : list ClusterReadDescriptor) : M DS unit :=
  let! m := read_local (length descs) descs [] in
  miter (fun '(cid, reads) =>
    let! (hits, misses) := catch (partial_read cid reads)
      (fun e => mthrow (if decide (e = BackendConnectFailureException) then TransientException else e)) in
    mmodify (count hits misses)) m.

(** ** Sync *)
Fixpoint sync_loop (i : nat) (l : list (option Ptr)) : M DS unit :=
  match l with
  | [] => mret tt
  | None :: l => sync_loop (S i) l
  | Some p :: l =>
      catch (osco_sync p ;!
             let! d := mget in
             if bool_decide (currentSCO_ d = Some p) then mret tt else clear i ;! release p)
            (fun _ => reportIOError_ p) ;!
      sync_loop (S i) l
  end.

Definition sync_ : M DS (option CheckSum) :=
  let! d := mget in
  sync_loop 0 (openSCOs_ d) ;!
  let! d := mget in
  if 0 <? offset_ (currentClusterLoc_ d)
  then verify_ (bool_decide (is_Some (currentCheckSum_ d))) ;! mret (currentCheckSum_ d)
  else mret None.

Definition sync : M DS (option CheckSum) := sync_.

(** The destructor. *)
Definition destroy_DataStoreNG : M DS unit :=
  catch (let! _ := sync_ in mret tt) (fun _ => mret tt) ;! mmodify (set_pending []).

(** ** SCOs that are in the backend *)
Definition writtenToBackend (s : SCO.SCO) : M DS unit := mmodify (fun d => set_pending (SMap.insert s tt (pendingTLogSCOs_ d)) d).

Definition written_action (s : SCO.SCO) (p : Ptr) (is_open : bool) : M DS unit :=
  match action cf with
  | SetDisposableAndPurgeFromPageCache =>
      (if is_open then mret tt else catch (open_sco p false ;! release p) (fun _ => mret tt)) ;!
      on_cache (setSCODisposable p)
  | SetDisposable => on_cache (setSCODisposable p)
  | PurgeFromSCOCache => on_cache (SCOCache.removeSCO nspace s false true)
  end.

Definition written_failed (p : Ptr) : M DS unit := catch (reportIOError_ p) (fun _ => mret tt).

Definition scoWrittenToBackend_ (s : SCO.SCO) : M DS unit :=
  let! d := mget in
  match find d s with
  | Some p =>
      on_cache (mmodify (intrusive_ptr_add_ref p)) ;!
      scoped p (catch (erase s true ;! written_action s p true) (fun _ => written_failed p))
  | None =>
      let! r := catch (on_cache (findSCO nspace s)) (fun _ => mret None) in
      match r with
      | None => mret tt
      | Some p => scoped p (catch (written_action s p false) (fun _ => written_failed p))
      end
  end.

Definition writtenToBackendUpTo (s : SCO.SCO) : M DS unit :=
  let! d := mget in
  let n := SCO.number_ s in
  mmodify (set_latest n) ;!
  mmodify (set_pending (List.filter (fun q => negb (SCO.number_ (fst q) <=? n)) (pendingTLogSCOs_ d))) ;!
  miter (fun q => scoWrittenToBackend_ (fst q)) (List.filter (fun q => SCO.number_ (fst q) <=? n) (pendingTLogSCOs_ d)).

(** ** Removing and listing *)
Definition removeSCO_ (s : SCO.SCO) (removeNonDisposable updateCurrentLOCandSCO : bool) : M DS unit :=
  let! r := on_cache (findSCO nspace s) in
  match r with
  | None => mret tt
  | Some p =>
      scoped p (
        let! d := mget in
        let disposable := isSCODisposable (cache d) p in
        on_cache (SCOCache.removeSCO nspace s removeNonDisposable true) ;!
        if negb disposable && removeNonDisposable then
          let! d := mget in
          if bool_decide (currentSCO_ d = Some p) then
            erase s false ;!
            if updateCurrentLOCandSCO then next_sco ;! catch_transient updateCurrentSCO_ else mret tt
          else erase s false
        else mret tt)
  end.

Definition removeSCO (s : SCO.SCO) (removeNonDisposable : bool) : M DS unit := removeSCO_ s removeNonDisposable true.

Definition destroy (delete_local_data : bool) : M DS unit :=
  let! _ := sync_ in
  let! d := mget in
  match currentSCO_ d with
  | Some p => erase (scoName_ (sco (cache d) p)) true
  | None => mret tt
  end ;!
  on_cache (if delete_local_data then removeNamespace nspace else disableNamespace nspace).

(** The sums; what is of the current SCO is what was written to it. *)
Definition used_of (write : bool) : M DS Z :=
  let! names := on_cache (getSCONameList nspace (negb write)) in
  (fix go (l : list SCO.SCO) (t : Z) : M DS Z :=
     match l with
     | [] => mret t
     | s :: l =>
         let! r := on_cache (findSCO nspace s) in
         match r with
         | None => go l t
         | Some p =>
             let! n := scoped p (let! d := mget in
               mret (if write && bool_decide (currentSCO_ d = Some p) then u32 (offset_ (currentClusterLoc_ d) * csize) else size_ (sco (cache d) p))) in
             go l (u64 (t + n))
         end
     end) names 0.

Definition getWriteUsed : M DS Z := used_of true.
Definition getReadUsed : M DS Z := used_of false.

Definition listSCOs (disposable : bool) : M DS (list SCO.SCO) :=
  let! d := mget in
  if hasNamespace (cache d) nspace then on_cache (getSCONameList nspace disposable) else mret [].

Definition getSCO (s : SCO.SCO) (bi : option Z) (cs : option CheckSum) : M DS Ptr :=
  let! (p, _) := getSCO_ s bi cs in mret p.

(** ** Starts *)

(** A failure to remove a SCO is ignored, but for one that is being fetched. *)
Definition remove_recent (m : M DS unit) : M DS unit :=
  catch m (fun e => if decide (e = TransientException) then mthrow VerifyFailed else mret tt).

Definition truncate_sco (p : Ptr) (size : nat) : M DS unit :=
  let! d := mget in
  throw_if (negb (writable (disk_of d p))) IOException ;!
  match file d p with
  | None => mthrow IOException
  | Some f => put_file p (mkFile (take size (data f) ++ replicate (size - length (data f)) 0) (s_isvtx f))
  end.

Definition localRestart (nspace_min nspace_max : Z) (sad : list (SCO.SCO * spec_float)) (lastSCOnumberInBackend : Z) (lastClusterLocation : ClusterLocation) : M DS ClusterLocation :=
  let! d := mget in
  verify_ (bool_decide (currentSCO_ d = None)) ;!
  mmodify (set_latest lastSCOnumberInBackend) ;!
  mmodify (set_loc (make (u32 (number lastClusterLocation + 1)) 0 0 0)) ;!
  on_cache (enableNamespace nspace nspace_min nspace_max sad) ;!
  let! names := on_cache (getSCONameListAll nspace) in
  miter (fun s =>
    if SCO.cloneID_ s =? 0 then
      if number lastClusterLocation <? SCO.number_ s then
        remove_recent (let! r := on_cache (findSCO nspace s) in
                       match r with Some p => release p | None => mret tt end ;!
                       removeSCO_ s true true)
      else if SCO.number_ s =? number lastClusterLocation then
        let! p := on_cache (findSCO_throw nspace s) in
        scoped p (truncate_sco p (Z.to_nat (csize * (offset_ lastClusterLocation + 1))))
      else mret tt
    else mret tt) names ;!
  let! names := on_cache (getSCONameList nspace false) in
  miter (fun s =>
    if (SCO.cloneID_ s =? 0) && (SCO.number_ s <=? lastSCOnumberInBackend)
    then catch (let! p := on_cache (findSCO_throw nspace s) in scoped p (on_cache (setSCODisposable p))) (fun _ => mret tt)
    else mret tt) names ;!
  let! d := mget in mret (currentClusterLoc_ d).

Definition restoreSnapshot (num : Z) : M DS unit :=
  mmodify (set_latest num) ;!
  mmodify (set_loc (make (u32 (num + 1)) 0 0 0)) ;!
  mmodify (set_pending []) ;!
  let! names := on_cache (getSCONameListAll nspace) in
  miter (fun s => if (SCO.cloneID_ s =? 0) && (num <? SCO.number_ s) then remove_recent (removeSCO_ s true false) else mret tt) names.

Definition newVolume (nspace_min nspace_max : Z) : M DS unit :=
  let! d := mget in
  verify_ (bool_decide (currentSCO_ d = None)) ;!
  verify_ (negb (hasNamespace (cache d) nspace)) ;!
  on_cache (addNamespace nspace nspace_min nspace_max) ;!
  mmodify (set_loc (make 1 0 0 0)) ;!
  catch_transient updateCurrentSCO_.

(** Whether a SCO that was found is of no use. *)
Definition delete_sco (lastSCOInBackend : Z) (is_disposable : bool) (s : SCO.SCO) : bool :=
  if negb (SCO.cloneID_ s =? 0) then negb is_disposable
  else if lastSCOInBackend <? SCO.number_ s then true else negb is_disposable.

(** A loop until there is no [TransientException]; what happens in the meantime is [env]. *)
Fixpoint retry {A} (env : list (St -> St)) (m : M DS A) : M DS A :=
  catch m (fun e => if decide (e = TransientException)
                    then match env with
                         | [] => mthrow OutOfFuel
                         | f :: env => on_cache (mmodify f) ;! retry env m
                         end
                    else mthrow e).

Definition scanSCOsForBackendRestart_ (env : list (St -> St)) (lastSCOInBackend : Z) : M DS unit :=
  let! names := on_cache (getSCONameListAll nspace) in
  miter (fun s =>
    let! r := on_cache (findSCO nspace s) in
    match r with
    | None => mret tt
    | Some p =>
        scoped p (
          let! d := mget in
          if delete_sco lastSCOInBackend (isSCODisposable (cache d) p) s
          then retry env (on_cache (SCOCache.removeSCO nspace s true true)) else mret tt)
    end) names.

(** [sad] is what is pulled from the backend. *)
Definition backend_restart (env : list (St -> St)) (sad : res (list (SCO.SCO * spec_float))) (lastSCOInBackend nspace_min nspace_max : Z) : M DS unit :=
  let! d := mget in
  verify_ (bool_decide (currentSCO_ d = None)) ;!
  verify_ (negb (hasNamespace (cache d) nspace)) ;!
  let! disabled := on_cache (hasDisabledNamespace_ nspace) in
  (if disabled : bool then let! sad := mlift sad in on_cache (enableNamespace nspace nspace_min nspace_max sad)
   else on_cache (addNamespace nspace nspace_min nspace_max)) ;!
  mmodify (set_loc (make (u32 (lastSCOInBackend + 1)) 0 0 0)) ;!
  mmodify (set_latest lastSCOInBackend) ;!
  scanSCOsForBackendRestart_ env lastSCOInBackend ;!
  catch_transient updateCurrentSCO_.

Definition getAndPushSCOForLocalRestart (env : list (St -> St)) (s : SCO.SCO) (cs : CheckSum) : M DS unit :=
  let! d := mget in
  verify_ (SCO.cloneID_ s =? 0) ;!
  verify_ (latestSCOnumberInBackend_ d <? SCO.number_ s) ;!
  let! (p, _) := retry env (get_from_foc s (Some cs)) in
  scoped p (mmodify (add_task (s, cs))).

End DataStore.
End DataStoreNG.
