(* ===== verification/DataStoreTheorems.v ===== *)
(** * Theorems on the data store

    What is written is read back, and what is sent to the backend has the check
    sum of what was written; the remaining capacity; and what errors do. *)

From Stdlib Require Import SpecFloat.
From stdpp Require Import sorting.
From S2P Require Import Prelude CheckSum Addressing SCOPool SCOCache SCOCacheFacts SCOCacheOps SCOCacheClean SCOCacheTheorems DataStore.
Import SCOCache DataStoreNG CheckSum.

Section Store.
Context (cf : Conf).
Abbreviation csize := (cluster_size_ cf).

(** ** Capacity *)


(** ** Writing *)

(** The current SCO is [p], open, on a file system that works, with the contents [cont]. *)
Record current (d : DS) (p : nat) (cont : list Z) : Prop := mkCurrent {
  current_open : currentSCO_ d = Some p;
  current_online : offline_of d p = false;
  current_disk : writable (disk_of d p) = true;
  current_file : data <$> file d p = Some cont;
  current_offset : Z.of_nat (length cont) = ClusterLocation.offset_ (currentClusterLoc_ d) * csize;
  current_checksum : currentCheckSum_ d = Some (update (impl cf) CheckSum_default cont) }.

Lemma splice_end f buf : splice f (length (data f)) buf = mkFile (data f ++ buf) (s_isvtx f).
Proof.
  unfold splice. f_equal. rewrite take_ge, Nat.sub_diag by done. cbn. f_equal. rewrite drop_ge by lia. by rewrite app_nil_r.
Qed.

(** A file that is written. *)
Lemma file_of_put st o g f : file_of st o = Some g -> file_of (on_disk (mntPoint_ o) (set_file (nspace_ o) (scoName_ o) (Some f)) st) o = Some f.
Proof.
  unfold file_of, disk, on_disk. cbn. change (mp (set_disks _ st) (mntPoint_ o)) with (mp st (mntPoint_ o)). unfold lookup_total, map_lookup_total. rewrite lookup_alter_eq.
  destruct (disks st !! path_ (mp st (mntPoint_ o))) as [k|]; cbn; [|by rewrite lookup_empty]. rewrite lookup_alter_eq.
  destruct (dirs k !! nspace_ o) as [m|]; cbn; [|done]. intros _. by rewrite lookup_partial_alter_eq.
Qed.

Lemma disk_put p n s f st q : writable (disk (on_disk p (set_file n s f) st) q) = writable (disk st q).
Proof.
  unfold disk, on_disk. cbn. change (mp (set_disks _ st) q) with (mp st q). unfold lookup_total, map_lookup_total.
  destruct (decide (path_ (mp st p) = path_ (mp st q))) as [<-|]; [rewrite lookup_alter_eq|by rewrite lookup_alter_ne]. by destruct (disks st !! path_ (mp st p)).
Qed.

(** The locations a write returns. *)
Definition locations (l : ClusterLocation.ClusterLocation) (n : nat) : list ClusterLocation.ClusterLocation :=
  (fun i => ClusterLocation.make (ClusterLocation.number l) (ClusterLocation.offset_ l + Z.of_nat i) 0 0) <$> seq 0 n.

(** The state after a write of [buf] behind [cont]. *)
Definition written (d : DS) (p : nat) (f : File) (n : nat) : DS :=
  let o := sco (cache d) p in
  set_loc (ClusterLocation.set_offset (ClusterLocation.offset_ (currentClusterLoc_ d) + Z.of_nat n) (currentClusterLoc_ d))
    (set_checksum (Some (update (impl cf) CheckSum_default (data f)))
      (set_cache (on_disk (mntPoint_ o) (set_file (nspace_ o) (scoName_ o) (Some f)) (cache d)) d)).

Lemma write_exact d p cont buf n : 0 < csize -> current d p cont -> bytes cont -> bytes buf -> Z.of_nat (length buf) = Z.of_nat n * csize ->
  ClusterLocation.offset_ (currentClusterLoc_ d) + Z.of_nat n < 2 ^ 16 -> Z.of_nat (length (cont ++ buf)) < 2 ^ 32 ->
  exists g, file d p = Some g /\ data g = cont /\
  writeClusters_ cf buf n d = (written d p (mkFile (cont ++ buf) (s_isvtx g)) n, Ok (locations (currentClusterLoc_ d) n, throttle_usecs d p)).
Proof.
  intros Hcs [Ho Hon Hdk Hf Hoff Hck] Hbc Hbb Hlen Hn Hmax. destruct (file d p) as [g|] eqn:Eg; [|done]. injection Hf as Hg. exists g. split_and!; [done|done|].
  rewrite length_app in Hmax. assert (0 <= ClusterLocation.offset_ (currentClusterLoc_ d)) as Hpos by nia.
  unfold writeClusters_, mbind, mget. rewrite Ho. rewrite bool_decide_false by done. unfold mret at 1. rewrite Ho.
  assert (sco_offset cf (currentClusterLoc_ d) = length (data g)) as Eoff.
  { unfold sco_offset. rewrite <- Hoff, wrap_id, Nat2Z.id by (split; lia). by rewrite Hg. }
  unfold catch, pwrite, mbind, mget, throw_if. rewrite Hon, Hdk. cbn [negb]. unfold mret at 1 2. rewrite Eg, Eoff, splice_end, Hg.
  unfold put_file, on_cache, mmodify, mret. cbn [cache set_cache currentCheckSum_]. rewrite Hck. cbn [fmap option_fmap option_map]. do 2 f_equal; [|f_equal].
  - unfold written. cbn [data]. rewrite (update_app (impl cf) (impl cf) (impl cf)) by (done || apply default_wf).
    unfold set_loc, set_checksum, set_cache. cbn. f_equal. unfold ClusterLocation.set_offset. by rewrite wrap_id by (split; lia).
  - f_equal. unfold locations. apply list_fmap_ext. intros i j Hj. apply lookup_seq in Hj as [-> Hi]. by rewrite wrap_id by (split; lia).
Qed.

Lemma written_current d p cont buf n g : 0 < csize -> current d p cont -> file d p = Some g -> data g = cont -> Z.of_nat (length buf) = Z.of_nat n * csize ->
  current (written d p (mkFile (cont ++ buf) (s_isvtx g)) n) p (cont ++ buf).
Proof.
  intros Hcs [Ho Hon Hdk Hf Hoff Hck] Eg Hg Hlen. split.
  - exact Ho.
  - exact Hon.
  - unfold disk_of, written. cbn [cache set_loc set_checksum set_cache]. change (sco (on_disk _ _ _) p) with (sco (cache d) p). by rewrite disk_put.
  - unfold file, written. cbn [cache set_loc set_checksum set_cache]. change (sco (on_disk _ _ _) p) with (sco (cache d) p). by rewrite (file_of_put _ _ g).
  - rewrite length_app. cbn. lia.
  - done.
Qed.

(** Any number of writes. *)
Fixpoint writes (l : list (list Z * nat)) : M DS unit :=
  match l with
  | [] => mret tt
  | (buf, n) :: l => let! _ := writeClusters cf buf n in writes l
  end.

Lemma writes_current l d p cont : 0 < csize -> current d p cont -> bytes cont ->
  (forall buf n, (buf, n) ∈ l -> bytes buf /\ Z.of_nat (length buf) = Z.of_nat n * csize) ->
  Z.of_nat (length (cont ++ concat l.*1)) < Z.min (2 ^ 32) (2 ^ 16 * csize) ->
  exists d', writes l d = (d', Ok tt) /\ current d' p (cont ++ concat l.*1) /\ tasks d' = tasks d /\ scos (cache d') = scos (cache d) /\
    ClusterLocation.sco_ (currentClusterLoc_ d') = ClusterLocation.sco_ (currentClusterLoc_ d).
Proof.
  intros Hcs. revert d cont. induction l as [|[buf n] l IH]; intros d cont HC Hb Hl Hmax; cbn [writes fmap list_fmap fst concat].
  - exists d. rewrite app_nil_r. done.
  - cbn [fmap list_fmap fst concat] in Hmax. rewrite app_assoc in Hmax |- *. destruct (Hl buf n ltac:(left)) as [Hbb Hlen].
    pose proof (current_offset _ _ _ HC) as Hoff. rewrite !length_app in Hmax.
    destruct (write_exact d p cont buf n Hcs HC Hb Hbb Hlen) as (g & Eg & Hg & Ew); [nia|rewrite length_app; lia|].
    pose proof (written_current d p cont buf n g Hcs HC Eg Hg Hlen) as HC'. set (d1 := written _ _ _ _) in *.
    destruct (IH d1 (cont ++ buf) HC') as (d' & E & HC2 & Et & Es & El); [by apply Forall_app|intros b k Hk; apply Hl; by right|rewrite !length_app; lia|].
    exists d'. split_and!; [|done|by rewrite Et|by rewrite Es|by rewrite El]. unfold mbind, writeClusters. rewrite Ew. exact E.
Qed.

(** ** What schedules no task *)
Definition no_task {A} (m : M DS A) : Prop := forall d, tasks (fst (m d)) = tasks d.

Lemma no_task_bind {A B} (m : M DS A) (k : A -> M DS B) : no_task m -> (forall a, no_task (k a)) -> no_task (mbind m k).
Proof. intros Hm Hk d. unfold mbind. specialize (Hm d). destruct (m d) as [d' [a|e]]; cbn in *; [by rewrite Hk|done]. Qed.

Lemma no_task_catch {A} (m : M DS A) h : no_task m -> (forall e, no_task (h e)) -> no_task (catch m h).
Proof. intros Hm Hk d. unfold catch. specialize (Hm d). destruct (m d) as [d' [a|e]]; cbn in *; [done|by rewrite Hk]. Qed.

Lemma no_task_ret {A} (a : A) : no_task (mret a).
Proof. done. Qed.
Lemma no_task_throw {A} e : no_task (mthrow e : M DS A).
Proof. done. Qed.
Lemma no_task_get : no_task mget.
Proof. done. Qed.
Lemma no_task_cache {A} (m : M St A) : no_task (on_cache m).
Proof. intros d. unfold on_cache. by destruct (m (cache d)). Qed.
Lemma no_task_modify f : (forall d, tasks (f d) = tasks d) -> no_task (mmodify f).
Proof. intros H d. apply H. Qed.

Create HintDb ds.
#[local] Hint Resolve no_task_ret no_task_throw no_task_get no_task_cache : ds.

Ltac no_task := repeat first
  [ done | progress auto with ds | apply no_task_bind; [|intros ?] | apply no_task_catch; [|intros ?] | apply no_task_modify; done
  | match goal with |- no_task (match ?x with _ => _ end) => destruct x end | match goal with |- no_task (let '(_, _) := ?x in _) => destruct x end ].

Lemma no_task_throw_if b e : no_task (throw_if b e).
Proof. unfold throw_if. no_task. Qed.
Lemma no_task_verify b : no_task (verify_ b).
Proof. unfold verify_. no_task. Qed.
#[local] Hint Resolve no_task_throw_if no_task_verify : ds.
Lemma no_task_scoped {A} p (m : M DS A) : no_task m -> no_task (scoped p m).
Proof. intros H. unfold scoped, release. no_task. Qed.
Lemma no_task_open p w : no_task (open_sco p w).
Proof. unfold open_sco, put_file. no_task. Qed.
Lemma no_task_sync p : no_task (osco_sync p).
Proof. unfold osco_sync. no_task. Qed.
#[local] Hint Resolve no_task_scoped no_task_open no_task_sync : ds.
Lemma no_task_erase s b : no_task (erase s b).
Proof. unfold erase, clear, release. no_task. Qed.
Lemma no_task_erase_bucket s : no_task (erase_bucket s).
Proof. unfold erase_bucket, clear, release. no_task. Qed.
#[local] Hint Resolve no_task_erase no_task_erase_bucket : ds.
Lemma no_task_insert p : no_task (insert_open p).
Proof. unfold insert_open, release. no_task. Qed.
Lemma no_task_getSCO_ s bi cs : no_task (getSCO_ cf s bi cs).
Proof. unfold getSCO_, get_from_foc. no_task. Qed.
#[local] Hint Resolve no_task_insert no_task_getSCO_ : ds.
Lemma no_task_report {A} p : no_task (reportIOError_ cf p : M DS A).
Proof. unfold reportIOError_. no_task. Qed.
#[local] Hint Resolve no_task_report : ds.
Lemma no_task_update : no_task (updateCurrentSCO_ cf).
Proof. unfold updateCurrentSCO_. no_task. Qed.

Lemma no_task_catch_transient m : no_task m -> no_task (catch_transient m).
Proof. intros H. unfold catch_transient. no_task. Qed.

Lemma current_name d p cont : current d p cont -> scoName_ (sco (cache d) p) = ClusterLocation.sco_ (currentClusterLoc_ d).
Proof. intros [Ho]. unfold currentSCO_, find in Ho. destruct (bucket _ _); [|done]. case_bool_decide; [|done]. by injection Ho as <-. Qed.

(** C26. the clusters that were written, by any number of writes, are in the file of the current SCO
    one behind the other, and the task that sends the SCO to the backend when it is
    finalized has the check sum of exactly that, whether or not the next SCO
    can be created. *)
Theorem pushed_checksum l d p : 0 < csize -> current d p [] ->
  (forall buf n, (buf, n) ∈ l -> bytes buf /\ Z.of_nat (length buf) = Z.of_nat n * csize) ->
  concat l.*1 <> [] -> Z.of_nat (length (concat l.*1)) < Z.min (2 ^ 32) (2 ^ 16 * csize) ->
  exists d1, writes l d = (d1, Ok tt) /\ data <$> file d1 p = Some (concat l.*1) /\
    tasks (fst (finalizeCurrentSCO cf d1)) = tasks d ++ [(ClusterLocation.sco_ (currentClusterLoc_ d), update (impl cf) CheckSum_default (concat l.*1))].
Proof.
  intros Hcs HC Hl Hne Hmax. destruct (writes_current l d p [] Hcs HC ltac:(apply List.Forall_nil) Hl Hmax) as (d1 & E & HC1 & Et & Es & El). cbn [app] in HC1.
  exists d1. split_and!; [done|apply (current_file _ _ _ HC1)|]. unfold finalizeCurrentSCO, mbind, mget. pose proof (current_offset _ _ _ HC1) as Hoff.
  assert (ClusterLocation.offset_ (currentClusterLoc_ d1) <> 0) as Hnz. { intros E0. rewrite E0 in Hoff. destruct (concat l.*1); [done|cbn in Hoff; lia]. }
  rewrite (proj2 (Z.eqb_neq _ _) Hnz). cbn [negb]. unfold pushAndUpdateCurrentSCO_, mbind, mget. rewrite (current_open _ _ _ HC1). unfold pushSCO_, mbind, mget.
  rewrite (current_checksum _ _ _ HC1), (current_name _ _ _ HC1), El. unfold mmodify at 1, next_sco, mmodify. cbn [currentCheckSum_ set_loc add_task]. rewrite (current_checksum _ _ _ HC1).
  unfold verify_. rewrite bool_decide_true by done. unfold mret at 1. set (d2 := set_loc _ _).
  assert (tasks d2 = tasks d ++ [(ClusterLocation.sco_ (currentClusterLoc_ d), update (impl cf) CheckSum_default (concat l.*1))]) as Et2 by (cbn; by rewrite Et).
  pose proof (no_task_catch_transient _ no_task_update d2) as HT. destruct (catch_transient (updateCurrentSCO_ cf) d2) as [d3 [u|e]]; cbn in HT |- *; by rewrite HT.
Qed.

(** ** Reading *)
Lemma set_scos_id st : set_scos (scos st) st = st.
Proof. by destruct st. Qed.

(** References that are taken and dropped. *)
Lemma release_ref (f : CachedSCO -> CachedSCO) p o st : scos st !! p = Some o -> 0 < refcnt_ o -> (forall o, refcnt_ (f o) = refcnt_ o) ->
  (forall o r, with_refcnt r (f o) = f (with_refcnt r o)) ->
  intrusive_ptr_release p (on_sco p f (intrusive_ptr_add_ref p st)) = on_sco p f st.
Proof.
  intros Ho Hr Hf Hc. unfold intrusive_ptr_release. set (g := fun o0 => with_refcnt (refcnt_ o0 - 1) o0).
  assert (on_sco p g (on_sco p f (intrusive_ptr_add_ref p st)) = on_sco p f st) as E.
  { unfold intrusive_ptr_add_ref. rewrite !on_sco_twice. unfold on_sco. f_equal. apply alter_ext. intros o' Ho'. unfold g. rewrite Hf, Hc. cbn [refcnt_ with_refcnt].
    f_equal. destruct o'; unfold with_refcnt; cbn. f_equal. lia. }
  rewrite E. rewrite (sco_lookup _ p (f o)) by (cbn; by rewrite lookup_alter_eq, Ho). rewrite Hf. by rewrite (proj2 (Z.eqb_neq (refcnt_ o) 0)) by lia.
Qed.

Lemma signal_ref p o n st : scos st !! p = Some o -> 0 < refcnt_ o ->
  intrusive_ptr_release p (signalSCOAccessed p n (intrusive_ptr_add_ref p st)) = signalSCOAccessed p n st.
Proof. intros Ho Hr. exact (release_ref (fun o => with_xval (Float.add (xVal_ o) (XVal.mul (Float.of_Z n) (discount_factor (params st)))) o) p o st Ho Hr ltac:(done) ltac:(done)). Qed.

Lemma add_ref_lookup p o st : scos st !! p = Some o -> scos (intrusive_ptr_add_ref p st) !! p = Some (with_refcnt (refcnt_ o + 1) o).
Proof. intros Ho. cbn. by rewrite lookup_alter_eq, Ho. Qed.

Lemma signal_sco st p n q : exists x, sco (signalSCOAccessed p n st) q = with_xval x (sco st q).
Proof.
  unfold sco, lookup_total, map_lookup_total. cbn. destruct (decide (p = q)) as [->|]; [rewrite lookup_alter_eq|rewrite lookup_alter_ne by done].
  - destruct (scos st !! q) as [o|]; [by eexists|]. by exists (xVal_ inhabitant).
  - destruct (scos st !! q) as [[]|]; [by eexists|]. by exists (xVal_ inhabitant).
Qed.

(** The SCO [s] is in the cache, as [p], and can be read. *)
Record readable (d : DS) (s : SCO.SCO) (p : nat) (f : File) : Prop := mkReadable {
  readable_found : DataStoreNG.find d s = Some p \/ DataStoreNG.find d s = None /\ find_entry (cache d) (ns_ cf) s = Some (mkEntry p false);
  readable_sco : exists o, scos (cache d) !! p = Some o /\ 0 < refcnt_ o;
  readable_online : offline_of d p = false;
  readable_disk : dead (disk_of d p) = false;
  readable_file : file d p = Some f }.

Definition read_done (d : DS) (p : nat) (n : nat) (buf : Z) (x : list Z) : DS :=
  set_memory (store buf x (memory d)) (count (Z.of_nat n) 0 (set_cache (signalSCOAccessed p (Z.of_nat n) (cache d)) d)).

Lemma read_open_exact d desc n p f x : offline_of d p = false -> dead (disk_of d p) = false -> file d p = Some f ->
  take (n * Z.to_nat csize) (drop (sco_offset cf (loc_ desc)) (data f)) = x -> length x = (n * Z.to_nat csize)%nat ->
  read_open cf desc n p d = (set_memory (store (buf_ desc) x (memory d)) (set_cache (signalSCOAccessed p (Z.of_nat n) (cache d)) d), Ok true).
Proof.
  intros Hon Hd Hf Hx Hl. unfold read_open, catch, readFromSCO_, pread, mbind, mget, throw_if. rewrite Hon, Hd. unfold mret at 1 2. rewrite Hf. unfold mret at 1. rewrite Hx, Hl, Nat.eqb_refl. done.
Qed.

Lemma read_hit d desc n p f x : readable d (ClusterLocation.sco_ (loc_ desc)) p f ->
  take (n * Z.to_nat csize) (drop (sco_offset cf (loc_ desc)) (data f)) = x -> length x = (n * Z.to_nat csize)%nat ->
  read_adjacent_clusters_ cf desc n false d = (read_done d p n (buf_ desc) x, Ok true).
Proof.
  intros [Hfo (o & Ho & Hr) Hon Hd Hf] Hx Hl. unfold read_adjacent_clusters_. cbv zeta. unfold mbind at 1, mget. destruct Hfo as [E|[E He]]; rewrite E.
  - unfold mbind, mmodify. by rewrite (read_open_exact _ desc n p f x) by done.
  - unfold on_cache at 1, findSCO, findSCO_, mbind, findNamespace_throw_. unfold find_entry in He. destruct (nsMap_ (cache d) !! ns_ cf) as [ns|] eqn:En; [|done]. cbn in He. rewrite He.
    unfold mthrow_if. cbn [blocked_ sco_]. unfold mret, mmodify, scoped, mbind, catch. cbn [fmap option_fmap option_map].
    set (d1 := count _ _ _). assert (scos (cache d1) !! p = Some (with_refcnt (refcnt_ o + 1) o)) as Ho1 by exact (add_ref_lookup _ _ _ Ho).
    assert (sco (cache d1) p = with_refcnt (refcnt_ o + 1) o) as Es1 by (by apply sco_lookup). assert (sco (cache d) p = o) as Es by (by apply sco_lookup).
    assert (offline_of d1 p = false) as Hon1. { unfold offline_of in *. rewrite Es1. rewrite Es in Hon. exact Hon. }
    assert (dead (disk_of d1 p) = false) as Hd1. { unfold disk_of in *. rewrite Es1. rewrite Es in Hd. exact Hd. }
    assert (file d1 p = Some f) as Hf1. { unfold file in *. rewrite Es1. rewrite Es in Hf. exact Hf. }
    assert (open_sco p false d1 = (set_cache (intrusive_ptr_add_ref p (cache d1)) d1, Ok tt)) as Eop.
    { unfold open_sco, mbind, mget, throw_if. rewrite Hd1. cbn [andb]. unfold mret. rewrite Hf1, Hon1. rewrite bool_decide_true; [done|].
      unfold file, file_of in Hf1. fold (disk_of d1 p) in Hf1. destruct (dirs (disk_of d1 p) !! nspace_ (sco (cache d1) p)); [by eexists|done]. }
    rewrite Eop. set (d2 := set_cache _ d1).
    assert (sco (cache d2) p = with_refcnt (refcnt_ o + 2) o) as Es2. { apply sco_lookup. replace (refcnt_ o + 2) with (refcnt_ o + 1 + 1) by lia. exact (add_ref_lookup _ _ _ Ho1). }
    rewrite (read_open_exact d2 desc n p f x); [|unfold offline_of in *; rewrite Es2; rewrite Es in Hon; exact Hon|unfold disk_of in *; rewrite Es2; rewrite Es in Hd; exact Hd|unfold file in *; rewrite Es2; rewrite Es in Hf; exact Hf|done|done].
    unfold release, on_cache, mmodify. cbn [cache set_memory set_cache d2].
    rewrite (signal_ref p _ _ (cache d1) Ho1) by (cbn; lia). change (cache d1) with (intrusive_ptr_add_ref p (cache d)). unfold mret.
    cbn [cache set_cache]. rewrite (signal_ref p _ _ (cache d) Ho Hr). done.
Qed.

Lemma readable_done d p n buf x s q f : readable d s q f -> readable (read_done d p n buf x) s q f.
Proof.
  intros [Hfo (o & Ho & Hr) Hon Hd Hf]. destruct (signal_sco (cache d) p (Z.of_nat n) q) as [v Ev].
  assert (forall r, scoName_ (sco (signalSCOAccessed p (Z.of_nat n) (cache d)) r) = scoName_ (sco (cache d) r)) as EN by (intros r; by destruct (signal_sco (cache d) p (Z.of_nat n) r) as [w ->]).
  split.
  - unfold DataStoreNG.find, bucket, index_ in *. cbn [cache openSCOs_ read_done set_memory count set_cache]. destruct (default None _) as [r|]; [|done]. by rewrite EN.
  - cbn. destruct (decide (p = q)) as [->|]; [rewrite lookup_alter_eq, Ho|rewrite lookup_alter_ne by done]; by eexists.
  - unfold offline_of in *. cbn [cache read_done set_memory count set_cache]. rewrite Ev. exact Hon.
  - unfold disk_of in *. cbn [cache read_done set_memory count set_cache]. rewrite Ev. exact Hd.
  - unfold file in *. cbn [cache read_done set_memory count set_cache]. rewrite Ev. exact Hf.
Qed.

(** *** Clusters that are read at once *)
Lemma store_app a x y mem : store a (x ++ y) mem = store (a + Z.of_nat (length x)) y (store a x mem).
Proof. revert a mem. induction x as [|b x IH]; intros a mem; [cbn; by rewrite Z.add_0_r|]. cbn [app store length]. rewrite IH. f_equal. lia. Qed.

(** One cluster after the other. *)
Fixpoint read_each (l : list (Z * list Z)) (mem : gmap Z Z) : gmap Z Z :=
  match l with
  | [] => mem
  | (a, x) :: l => read_each l (store a x mem)
  end.

Lemma read_each_app l l' mem : read_each (l ++ l') mem = read_each l' (read_each l mem).
Proof. revert mem. induction l as [|[a x] l IH]; intros mem; cbn; [done|apply IH]. Qed.

(** The contents of the cluster of a descriptor are [x]. *)
Definition content (d : DS) (desc : ClusterReadDescriptor) (x : list Z) : Prop :=
  (exists p f, readable d (ClusterLocation.sco_ (loc_ desc)) p f /\ take (Z.to_nat csize) (drop (sco_offset cf (loc_ desc)) (data f)) = x) /\
  length x = Z.to_nat csize /\ 0 <= ClusterLocation.offset_ (loc_ desc) /\ (ClusterLocation.offset_ (loc_ desc) + 1) * csize < 2 ^ 32.

Lemma readable_fun d s p f q g : readable d s p f -> readable d s q g -> p = q /\ f = g.
Proof.
  intros [[E|[E He]] _ _ _ Hf] [[E'|[E' He']] _ _ _ Hg]; rewrite E in E'; try done; [injection E' as <-|rewrite He in He'; injection He' as <-]; split; congruence.
Qed.

Lemma sco_eq (a b : SCO.SCO) : SCO.number_ a = SCO.number_ b -> SCO.version_ a = SCO.version_ b -> SCO.cloneID_ a = SCO.cloneID_ b -> a = b.
Proof. destruct a, b. cbn. congruence. Qed.

(** The descriptors of a run and their contents, behind the first [i] clusters of it. *)
Lemma run_spec d p f prev last i rest xs : 0 < csize -> 0 <= i -> 0 <= ClusterLocation.offset_ prev -> readable d (ClusterLocation.sco_ prev) p f ->
  Forall2 (content d) rest xs ->
  let k := run_length cf prev last i rest in
  let x := concat (take k xs) in
  x = take (k * Z.to_nat csize) (drop (Z.to_nat ((ClusterLocation.offset_ prev + i) * csize)) (data f)) /\ length x = (k * Z.to_nat csize)%nat /\
  forall mem, read_each (zip (buf_ <$> take k rest) (take k xs)) mem = store (last + csize) x mem.
Proof.
  intros Hcs Hi Hpo HR HF. revert last i Hi. induction HF as [|desc x rest xs HC HF IH]; intros last i Hi k; cbn zeta.
  - by rewrite take_nil.
  - subst k. cbn [run_length]. destruct (_ && _) eqn:Eq; [|done]. apply andb_true_iff in Eq as [[[[H1 H2]%andb_true_iff H3]%andb_true_iff H4]%andb_true_iff H5].
    apply Z.eqb_eq in H1, H2, H3, H4, H5. destruct (IH (buf_ desc) (i + 1) ltac:(lia)) as (E & L & EM).
    destruct HC as ((q & g & HRq & Ex) & Lx & Ho & Hmax). assert (ClusterLocation.sco_ (loc_ desc) = ClusterLocation.sco_ prev) as Es by (symmetry; by apply sco_eq).
    rewrite Es in HRq. destruct (readable_fun _ _ _ _ _ _ HR HRq) as [<- <-].
    set (k := run_length cf prev (buf_ desc) (i + 1) rest) in *. cbn [take concat fmap list_fmap zip zip_with]. cbn [zip zip_with] in EM.
    assert (sco_offset cf (loc_ desc) = Z.to_nat ((ClusterLocation.offset_ prev + i) * csize)) as Eo.
    { unfold sco_offset. rewrite <- H4. rewrite wrap_id; [done|]. split; nia. }
    rewrite Eo in Ex. assert ((ClusterLocation.offset_ prev + (i + 1)) * csize = (ClusterLocation.offset_ prev + i) * csize + csize) as Ei by lia. split_and!.
    + rewrite E, <- Ex. rewrite Ei, Z2Nat.inj_add, <- drop_drop by nia. change (S k * Z.to_nat csize)%nat with (Z.to_nat csize + k * Z.to_nat csize)%nat. by rewrite take_take_drop.
    + rewrite length_app, L, Lx. lia.
    + intros mem. cbn [read_each]. unfold zip in EM. rewrite EM, store_app, Lx. rewrite <- H5. f_equal. lia.
Qed.

Lemma content_done d p n buf x desc y : content d desc y -> content (read_done d p n buf x) desc y.
Proof. intros ((q & f & HR & E) & H). split; [|done]. exists q, f. split; [by apply readable_done|done]. Qed.

Lemma files_done d p n buf x q : file (read_done d p n buf x) q = file d q.
Proof. unfold file, read_done. cbn [cache set_memory count set_cache]. by destruct (signal_sco (cache d) p (Z.of_nat n) q) as [v ->]. Qed.

Lemma read_local_exact fuel descs xs d m : 0 < csize -> (length descs <= fuel)%nat -> Forall2 (content d) descs xs ->
  exists d', read_local cf fuel descs m d = (d', Ok m) /\ memory d' = read_each (zip (buf_ <$> descs) xs) (memory d) /\ forall q, file d' q = file d q.
Proof.
  intros Hcs. revert descs xs d. induction fuel as [|fuel IH]; intros descs xs d Hlen HF.
  - destruct descs; [|cbn in Hlen; lia]. by exists d.
  - destruct descs as [|desc rest]; [by exists d|]. apply Forall2_cons_inv_l in HF as (x & xs' & HC & HF & ->). cbn [read_local].
    destruct HC as ((p & f & HR & Ex) & Lx & Ho & Hmax). destruct (run_spec d p f (loc_ desc) (buf_ desc) 1 rest xs' Hcs ltac:(lia) Ho HR HF) as (E & L & EM).
    set (k := run_length cf (loc_ desc) (buf_ desc) 1 rest) in *. set (y := concat (take k xs')) in *.
    assert (sco_offset cf (loc_ desc) = Z.to_nat (ClusterLocation.offset_ (loc_ desc) * csize)) as Eo by (unfold sco_offset; rewrite wrap_id; [done|split; nia]).
    assert (take (S k * Z.to_nat csize) (drop (sco_offset cf (loc_ desc)) (data f)) = x ++ y) as Exy.
    { rewrite E, <- Ex, Eo. replace ((ClusterLocation.offset_ (loc_ desc) + 1) * csize) with (ClusterLocation.offset_ (loc_ desc) * csize + csize) by lia.
      rewrite Z2Nat.inj_add, <- drop_drop by nia. change (S k * Z.to_nat csize)%nat with (Z.to_nat csize + k * Z.to_nat csize)%nat. by rewrite take_take_drop. }
    pose proof (read_hit d desc (S k) p f (x ++ y) HR Exy ltac:(rewrite length_app, L, Lx; lia)) as Eh. unfold mbind at 1. rewrite Eh. unfold mbind at 1, mret at 1.
    set (d1 := read_done d p (S k) (buf_ desc) (x ++ y)). cbn [drop].
    destruct (IH (drop k rest) (drop k xs') d1) as (d' & E' & EM' & EF').
    { rewrite length_drop. cbn in Hlen. lia. }
    { apply Forall2_drop. eapply Forall2_impl; [exact HF|]. intros a b. apply content_done. }
    exists d'. split_and!; [exact E'| |intros q; rewrite EF'; apply files_done].
    rewrite EM'. cbn [fmap list_fmap zip zip_with read_each]. fold (buf_ <$> rest). fold (zip (buf_ <$> rest) xs').
    rewrite <- (take_drop k rest) at 2. rewrite <- (take_drop k xs') at 2. rewrite fmap_app, zip_with_app, read_each_app.
    2: { rewrite length_fmap, !length_take. apply Forall2_length in HF. by rewrite HF. }
    fold (zip (buf_ <$> take k rest) (take k xs')). rewrite EM. f_equal. unfold d1. cbn [memory read_done set_memory]. rewrite store_app, Lx. f_equal. lia.
Qed.

(** C22. reading clusters of SCOs that are in the cache succeeds, and what is in memory
    is as if the clusters had been read one by one, in order, although those
    that are adjacent in their SCO and in memory are read at once. *)
Theorem readClusters_exact descs xs d : 0 < csize -> Forall2 (content d) descs xs ->
  exists d', readClusters cf descs d = (d', Ok tt) /\ memory d' = read_each (zip (buf_ <$> descs) xs) (memory d).
Proof.
  intros Hcs HF. destruct (read_local_exact (length descs) descs xs d [] Hcs ltac:(done) HF) as (d' & E & EM & _). exists d'. split; [|done].
  unfold readClusters, mbind. by rewrite E.
Qed.

(** ** What was written *)
Definition clusters (n : nat) (buf : list Z) : list (list Z) := (fun i => take (Z.to_nat csize) (drop (i * Z.to_nat csize) buf)) <$> seq 0 n.

Definition descriptors (locs : list ClusterLocation.ClusterLocation) (addrs : list Z) : list ClusterReadDescriptor :=
  zip_with (fun l a => mkDesc l a (Some (ClusterLocation.cloneID l))) locs addrs.

Lemma descriptors_buf locs addrs : length locs = length addrs -> buf_ <$> descriptors locs addrs = addrs.
Proof. revert addrs. induction locs as [|l locs IH]; intros [|a addrs] H; try done. cbn. f_equal. apply IH. cbn in H. lia. Qed.

Lemma written_content d p cont buf n g addrs : 0 < csize -> current d p cont -> file d p = Some g -> data g = cont -> Z.of_nat (length buf) = Z.of_nat n * csize ->
  ClusterLocation.offset_ (currentClusterLoc_ d) + Z.of_nat n < 2 ^ 16 -> Z.of_nat (length (cont ++ buf)) < 2 ^ 32 ->
  ClusterLocation.cloneID (currentClusterLoc_ d) = 0 -> ClusterLocation.version (currentClusterLoc_ d) = 0 ->
  (exists o, scos (cache d) !! p = Some o /\ 0 < refcnt_ o) -> length addrs = n ->
  Forall2 (content (written d p (mkFile (cont ++ buf) (s_isvtx g)) n)) (descriptors (locations (currentClusterLoc_ d) n) addrs) (clusters n buf).
Proof.
  intros Hcs HC Eg Hg Hlen Hn Hmax Hcl Hve Ho Ha. pose proof (written_current d p cont buf n g Hcs HC Eg Hg Hlen) as HC'. set (d1 := written _ _ _ _) in *.
  rewrite length_app in Hmax. pose proof (current_offset _ _ _ HC) as Hoff. set (l := currentClusterLoc_ d) in *. assert (0 <= ClusterLocation.offset_ l) as Hpos by nia.
  assert (readable d1 (ClusterLocation.sco_ l) p (mkFile (cont ++ buf) (s_isvtx g))) as HR.
  { split; [left; exact (current_open _ _ _ HC')|exact Ho|apply (current_online _ _ _ HC')| |].
    - pose proof (current_disk _ _ _ HC') as Hw. unfold writable in Hw. apply andb_true_iff in Hw as [Hw _]. by apply negb_true_iff.
    - unfold file, d1, written. cbn [cache set_loc set_checksum set_cache]. change (sco (on_disk _ _ _) p) with (sco (cache d) p). by rewrite (file_of_put _ _ g). }
  apply Forall2_same_length_lookup_2.
  { unfold descriptors, locations, clusters. rewrite length_zip_with, !length_fmap, length_seq. lia. }
  intros i desc x Hd Hx. unfold descriptors, locations in Hd. rewrite lookup_zip_with, list_lookup_fmap in Hd. unfold clusters in Hx. rewrite list_lookup_fmap in Hx.
  destruct (seq 0 n !! i) as [j|] eqn:Ej; [|done]. apply lookup_seq in Ej as [-> Hi]. cbn in Hx, Hd. injection Hx as <-. destruct (addrs !! i) as [a|]; [|done]. cbn in Hd. injection Hd as <-.
  assert (ClusterLocation.sco_ (ClusterLocation.make (ClusterLocation.number l) (ClusterLocation.offset_ l + Z.of_nat i) 0 0) = ClusterLocation.sco_ l) as Es by (by apply sco_eq).
  assert (sco_offset cf (ClusterLocation.make (ClusterLocation.number l) (ClusterLocation.offset_ l + Z.of_nat i) 0 0) = length cont + i * Z.to_nat csize)%nat as Eo.
  { unfold sco_offset. cbn [ClusterLocation.offset_ ClusterLocation.make]. rewrite Z.mul_add_distr_r, <- Hoff, wrap_id by (split; nia). nia. }
  split; [|split_and!].
  - exists p, (mkFile (cont ++ buf) (s_isvtx g)). cbn [loc_ data]. rewrite Es, Eo. split; [done|]. rewrite drop_app_ge by lia. do 2 f_equal. lia.
  - rewrite length_take, length_drop. nia.
  - cbn. lia.
  - cbn. nia.
Qed.

(** C10. clusters that were written to the current SCO are read back from the
    locations that the write returned, to any addresses. *)
Theorem write_then_read d p cont buf n addrs : 0 < csize -> current d p cont -> bytes cont -> bytes buf -> Z.of_nat (length buf) = Z.of_nat n * csize ->
  ClusterLocation.offset_ (currentClusterLoc_ d) + Z.of_nat n < 2 ^ 16 -> Z.of_nat (length (cont ++ buf)) < 2 ^ 32 ->
  ClusterLocation.cloneID (currentClusterLoc_ d) = 0 -> ClusterLocation.version (currentClusterLoc_ d) = 0 ->
  (exists o, scos (cache d) !! p = Some o /\ 0 < refcnt_ o) -> length addrs = n ->
  exists d1 locs throttle d2, writeClusters cf buf n d = (d1, Ok (locs, throttle)) /\
    readClusters cf (descriptors locs addrs) d1 = (d2, Ok tt) /\ memory d2 = read_each (zip addrs (clusters n buf)) (memory d).
Proof.
  intros Hcs HC Hbc Hbb Hlen Hn Hmax Hcl Hve Ho Ha. destruct (write_exact d p cont buf n Hcs HC Hbc Hbb Hlen Hn Hmax) as (g & Eg & Hg & Ew).
  pose proof (written_content d p cont buf n g addrs Hcs HC Eg Hg Hlen Hn Hmax Hcl Hve Ho Ha) as HF. set (d1 := written _ _ _ _) in *.
  destruct (read_local_exact _ _ _ d1 [] Hcs ltac:(reflexivity) HF) as (d2 & E & EM & _). exists d1, (locations (currentClusterLoc_ d) n), (throttle_usecs d p), d2.
  split_and!; [exact Ew|unfold readClusters, mbind; by rewrite E|]. rewrite EM, descriptors_buf; [done|]. unfold locations. by rewrite length_fmap, length_seq.
Qed.

(** ** SCOs that are in the backend *)
Lemma release_frame p d : snd (release p d) = Ok tt /\ mountPoints_ (cache (fst (release p d))) = mountPoints_ (cache d) /\ nsMap_ (cache (fst (release p d))) = nsMap_ (cache d) /\
  currentClusterLoc_ (fst (release p d)) = currentClusterLoc_ d.
Proof. unfold release, on_cache, mmodify. cbn. split_and!; [done|apply (frame_list _ _ (frame_release p (cache d)))|apply release_parts|done]. Qed.

Lemma erase_frame s d : snd (erase s false d) = Ok tt /\ mountPoints_ (cache (fst (erase s false d))) = mountPoints_ (cache d) /\ nsMap_ (cache (fst (erase s false d))) = nsMap_ (cache d) /\
  currentClusterLoc_ (fst (erase s false d)) = currentClusterLoc_ d.
Proof.
  unfold erase, mbind, mget. destruct (DataStoreNG.find d s) as [p|]; [|done]. unfold mret, clear, mmodify. set (d1 := set_open _ d). exact (release_frame p d1).
Qed.

(** An error that is reported for a SCO that is not the current one. *)
Lemma report_other held s p o d : wfx None held (cache d) -> scos (cache d) !! p = Some o -> p ∉ to_delete (cache d) -> scoName_ o = s -> ClusterLocation.sco_ (currentClusterLoc_ d) <> s ->
  exists d', (reportIOError_ cf p : M DS unit) d = (d', Throw TransientException) /\ mntPoint_ o ∉ mountPoints_ (cache d') /\
    (forall e, find_entry (cache d) (nspace_ o) s = Some e -> sco_ e = p -> find_entry (cache d') (nspace_ o) s = None).
Proof.
  intros H Ho Ht Hs Hne. unfold reportIOError_, mbind, on_cache at 1, mmodify at 1, scoped, mbind, catch, mget. set (d1 := set_cache (intrusive_ptr_add_ref p (cache d)) d).
  assert (scos (cache d1) !! p = Some (with_refcnt (refcnt_ o + 1) o)) as Ho1 by exact (add_ref_lookup _ _ _ Ho).
  rewrite (sco_lookup _ _ _ Ho1). cbn [scoName_ with_refcnt]. rewrite Hs. pose proof (wf_add_ref held p (cache d) H ltac:(by eexists) Ht) as H1. change (intrusive_ptr_add_ref p (cache d)) with (cache d1) in H1.
  pose proof (reportIOError_ok (p :: held) p (cache d1) H1) as HW. unfold wp in HW. unfold on_cache at 1, SCOCache.reportIOError. destruct (SCOCache.reportIOError_ p (cache d1)) as [st2 [[]|]]; [|done].
  destruct HW as (H2 & O & Hm). rewrite (sco_lookup _ _ _ Ho1) in Hm. cbn [mntPoint_ with_refcnt] in Hm. set (d2 := set_cache st2 d1).
  destruct (erase_frame s d2) as (E1 & E2 & E3 & E4). destruct (erase s false d2) as [d3 r]; cbn [fst snd] in *. rewrite E1. rewrite E4. change (currentClusterLoc_ d2) with (currentClusterLoc_ d).
  rewrite (bool_decide_false (_ = s)) by done. cbn [andb]. unfold mret at 1, mthrow at 1. destruct (release_frame p d3) as (R1 & R2 & R3 & R4).
  destruct (release p d3) as [d4 r4]; cbn [fst snd] in *. rewrite R1. exists d4. split_and!; [done|by rewrite R2, E2|].
  intros e He Hp. unfold find_entry. rewrite R3, E3. fold (find_entry st2 (nspace_ o) s). destruct (find_entry st2 (nspace_ o) s) as [e'|] eqn:He'; [|done].
  apply (off_find _ _ O) in He' as [He' Hin]. change (find_entry (cache d1) (nspace_ o) s) with (find_entry (cache d) (nspace_ o) s) in He'. rewrite He in He'. injection He' as <-.
  rewrite Hp, (sco_lookup _ _ _ Ho1) in Hin. done.
Qed.

(** The attempt to remove a SCO that is not disposable. *)
Lemma remove_refused held n s e st : wfx None held st -> find_entry st n s = Some e -> blocked_ e = false -> disposable_ (sco st (sco_ e)) = false ->
  SCOCache.removeSCO n s false true st = (st, Throw IOException).
Proof.
  intros H He Hb Hd. destruct (wf_entry _ _ H n s e He) as (o & Ho & _). destruct (wf_refs _ _ H _ _ Ho) as [_ Hr].
  unfold find_entry in He. destruct (nsMap_ st !! n) as [ns|] eqn:En; [|done]. cbn in He.
  unfold SCOCache.removeSCO, findAndRemoveSCO_, mbind, findNamespace_throw_. rewrite En, He. unfold mthrow_if at 1. rewrite Hb. cbn [negb andb]. unfold mret at 1, mmodify at 1, releasing, on_throw, mbind, mget, mthrow_if.
  rewrite (sco_lookup _ _ _ (add_ref_lookup _ _ _ Ho)). cbn [disposable_ with_refcnt]. rewrite (sco_lookup _ _ _ Ho) in Hd. rewrite Hd. cbn [negb andb]. unfold mthrow, mmodify.
  rewrite <- (set_scos_id st) at 2. f_equal. pose proof (release_ref (fun o => o) (sco_ e) o st Ho Hr ltac:(done) ltac:(done)) as E.
  assert (forall st' : St, on_sco (sco_ e) (fun o => o) st' = st') as Eid.
  { intros st'. unfold on_sco. rewrite <- (set_scos_id st') at 3. f_equal. apply map_eq. intros i. destruct (decide (sco_ e = i)) as [->|]; [rewrite lookup_alter_eq; by destruct (scos st' !! i)|by rewrite lookup_alter_ne]. }
  rewrite !Eid in E. by rewrite E, set_scos_id.
Qed.


End Store.

(** ** A volume on the two mount points of [Sample]

    Clusters of 10 bytes, SCOs of 45 clusters; the DTL has the clusters of SCO 1. *)
Module StoreSample.
Definition seven : list Z := repeat 7 10.
Definition eight : list Z := repeat 8 10.
Definition dtl (s : SCO.SCO) : res (list (ClusterLocation.ClusterLocation * list Z)) := Ok [(ClusterLocation.mkCL 0 s, seven)].
Definition conf (a : SCOWrittenToBackendAction) : Conf := mkConf 10 "n" Crc32cHw a (fun _ _ => Throw BackendInputException) dtl false.
Definition cf : Conf := conf SetDisposable.
Definition fresh : DS := mkDS Sample.start 45 ClusterLocation.null [None; None] 0 [] 0 0 None [] false ∅.
Definition created : DS := fst (newVolume cf 0 1000 fresh).
Definition first : DS := fst (writeClusters cf seven 1 created).
Definition location : ClusterLocation.ClusterLocation := ClusterLocation.make 1 0 0 0.

(** Another volume fills the second mount point, and the first one becomes read-only. *)
Definition filled : DS := fst ((on_cache (addNamespace "m" 0 1000 ;! createSCO "m" (Sample.name 9) 450) ;! open_sco 3 true) first).
Definition read_only_a (st : St) : St :=
  set_disks (alter (fun k => mkDisk true (dead k) (fs_size k) (fs_free k) (dirs k) (lockfile k)) "/a"%string (disks st)) st.
Definition broken : DS := set_cache (read_only_a (cache filled)) filled.
Definition failed : DS := fst (writeClusters cf eight 1 broken).

(** The SCO of the other volume goes. *)
Definition room : DS := fst (on_cache (SCOCache.removeSCO "m" (Sample.name 9) true true ;! mmodify (intrusive_ptr_release 3) ;! mmodify (intrusive_ptr_release 3)) failed).
Definition second : DS := fst (writeClusters cf eight 1 room).
Definition back : DS := fst (readClusters cf [mkDesc location 100 (Some 0)] second).
End StoreSample.



Lemma sample_current : current StoreSample.cf StoreSample.created 2 [].
Proof. split; vm_compute; reflexivity. Qed.

Lemma pushed_checksum_witness :
  exists d1, writes StoreSample.cf [(StoreSample.seven, 1%nat); (StoreSample.eight ++ StoreSample.seven, 2%nat)] StoreSample.created = (d1, Ok tt) /\
    tasks (fst (finalizeCurrentSCO StoreSample.cf d1)) =
      [(SCO.make 1 0 0, update Crc32cHw CheckSum_default (StoreSample.seven ++ StoreSample.eight ++ StoreSample.seven))].
Proof.
  destruct (pushed_checksum StoreSample.cf [(StoreSample.seven, 1%nat); (StoreSample.eight ++ StoreSample.seven, 2%nat)] StoreSample.created 2) as (d1 & E & _ & Et).
  - reflexivity.
  - exact sample_current.
  - intros buf n Hin. repeat (apply elem_of_cons in Hin as [[= -> ->]|Hin]; [split; [vm_compute; repeat constructor; (discriminate || reflexivity)|reflexivity]|]). destruct (not_elem_of_nil _ Hin).
  - discriminate.
  - reflexivity.
  - exists d1. split; [exact E|exact Et].
Defined.

Lemma write_then_read_witness :
  exists d1 locs throttle d2, writeClusters StoreSample.cf (StoreSample.seven ++ StoreSample.eight) 2 StoreSample.created = (d1, Ok (locs, throttle)) /\
    readClusters StoreSample.cf (descriptors locs [200; 100]) d1 = (d2, Ok tt) /\ memory d2 = store 100 StoreSample.eight (store 200 StoreSample.seven ∅).
Proof.
  destruct (write_then_read StoreSample.cf StoreSample.created 2 [] (StoreSample.seven ++ StoreSample.eight) 2 [200; 100]) as (d1 & locs & t & d2 & E1 & E2 & E3).
  - reflexivity.
  - exact sample_current.
  - apply List.Forall_nil.
  - vm_compute. repeat constructor; (discriminate || reflexivity).
  - reflexivity.
  - reflexivity.
  - reflexivity.
  - reflexivity.
  - reflexivity.
  - eexists. split; vm_compute; reflexivity.
  - reflexivity.
  - exists d1, locs, t, d2. split; [exact E1|]. split; [exact E2|exact E3].
Defined.

Lemma readClusters_exact_witness :
  let descs := [mkDesc StoreSample.location 100 (Some 0); mkDesc (ClusterLocation.make 1 1 0 0) 110 (Some 0); mkDesc StoreSample.location 300 (Some 0)] in
  exists d', readClusters StoreSample.cf descs (fst (writeClusters StoreSample.cf StoreSample.eight 1 StoreSample.first)) = (d', Ok tt) /\
    memory d' = store 300 StoreSample.seven (store 110 StoreSample.eight (store 100 StoreSample.seven ∅)).
Proof.
  intros descs. destruct (readClusters_exact StoreSample.cf descs [StoreSample.seven; StoreSample.eight; StoreSample.seven]
    (fst (writeClusters StoreSample.cf StoreSample.eight 1 StoreSample.first))) as (d' & E & EM).
  - reflexivity.
  - assert (readable StoreSample.cf (fst (writeClusters StoreSample.cf StoreSample.eight 1 StoreSample.first)) (SCO.make 1 0 0) 2 (mkFile (StoreSample.seven ++ StoreSample.eight) false)) as HR.
    { split; [left; vm_compute; reflexivity|eexists; split; vm_compute; reflexivity|vm_compute; reflexivity|vm_compute; reflexivity|vm_compute; reflexivity]. }
    repeat constructor; try (vm_compute; (reflexivity || discriminate)); eexists _, _; (split; [exact HR|vm_compute; reflexivity]).
  - exists d'. split; [exact E|exact EM].
Defined.

(** SCO 1 is full and in the backend, SCO 2 is the current one. *)
Module PurgeSample.
Definition cf : Conf := StoreSample.conf PurgeFromSCOCache.
Definition ds : DS := fst ((newVolume cf 0 1000 ;! (let! _ := writeClusters cf StoreSample.seven 1 in let! _ := finalizeCurrentSCO cf in sync cf)) StoreSample.fresh).
End PurgeSample.

Lemma purge_sample_wf : wfx None [3%nat] (cache PurgeSample.ds).
Proof.
  apply (reachable_wf Sample.config Sample.file_systems [7; 5]).
  eapply rtc_l; [apply (step_addNamespace [] "n" 0 1000)|].
  eapply rtc_l; [eapply (step_createSCO [] "n" (Sample.name 1) 450); apply surjective_pairing|].
  eapply rtc_l; [apply (step_drop _ [] 2); vm_compute; done|].
  eapply rtc_l; [eapply (step_createSCO [] "n" (Sample.name 2) 450); apply surjective_pairing|].
  eapply rtc_l; [apply (step_file_systems _ (disks (cache PurgeSample.ds)))|].
  vm_compute. apply rtc_refl.
Qed.

