(* ===== verification/SnapshotManagement.v ===== *)
(** * [SnapshotManagement]: the log of a volume

    src/src/volumedriver/SnapshotManagement.{h,cpp}, with the tasks [WriteTLog] and
    [WriteSnapshot] of BackendTasks.cpp: entries go to the current TLog, TLogs are closed,
    sent to the backend, marked as written and removed, and the snapshots file is
    kept up to date, on disk and in the backend.

    The object keeps a pointer to its volume, whose methods it calls: that is the class
    [VolumeInterface] (after VolumeInterface.h), with the state of the volume in [vol].
    Directory and snapshots file are fields; [sp->saveToFile] does not fail.  [tasks] are
    the tasks that were given to the thread pool, in order.  UUIDs are drawn from the
    sequence [uuid_of].  [lock]s are left out: they serialise the operations. *)

From S2P Require Import Prelude CheckSum Addressing TLogEntry TLogIO TLogs Snapshots SnapshotPersistor.

Module SnapshotManagement.
Import TLog Snapshot SnapshotPersistor TLogWriter.

(** What is called of the volume.  [backend_write] is the write of a TLog file, which may be
    gone, with its check sum. *)
Class VolumeInterface (V : Type) : Type := {
  halt : V -> V;
  getClusterSize : V -> Z;
  cork : UUID -> M V unit;
  unCorkAndTrySync : UUID -> M V unit;
  writtenToBackendUpTo : SCO.SCO -> M V unit;
  removeUpToFromFailOverCache : SCO.SCO -> M V unit;
  checkState : TLogId -> M V unit;
  backend_write : TLogId -> option (list Z) -> CheckSum.CheckSum -> M V unit;
  backend_read : V -> TLogId -> res (list Z);
  backend_write_snapshots : SnapshotPersistor -> M V unit }.

Inductive Task : Type :=
  | WriteTLog (tlogid : TLogId) (sconame : SCO.SCO) (checksum : CheckSum.CheckSum)
  | WriteSnapshot.

Inductive RestartContext : Type := LocalRestart | BackendRestart | Cloning | Creation.

#[global] Instance RestartContext_eq_dec : EqDecision RestartContext.
Proof. solve_decision. Defined.

Section Management.
Context {V : Type} `{VolumeInterface V}.
(** [sysconf(_SC_PAGESIZE)], and the UUIDs that are drawn. *)
Variable page_size : nat.
Variable uuid_of : nat -> UUID.

Record SM : Type := mkSM {
  sp : SnapshotPersistor;
  currentTLog_ : option (TLogId * TLogWriter);
  currentTLogId_ : TLogId;
  maxTLogEntries_ : Z;
  numTLogEntries_ : Z;
  files : gmap TLogId (list Z);
  snapshots_file : option SnapshotPersistor;
  tasks : list Task;
  drawn : nat;
  vol : V }.

Definition set_sp x s := mkSM x (currentTLog_ s) (currentTLogId_ s) (maxTLogEntries_ s) (numTLogEntries_ s) (files s) (snapshots_file s) (tasks s) (drawn s) (vol s).
Definition set_tlog x s := mkSM (sp s) x (currentTLogId_ s) (maxTLogEntries_ s) (numTLogEntries_ s) (files s) (snapshots_file s) (tasks s) (drawn s) (vol s).
Definition set_id x s := mkSM (sp s) (currentTLog_ s) x (maxTLogEntries_ s) (numTLogEntries_ s) (files s) (snapshots_file s) (tasks s) (drawn s) (vol s).
Definition set_max x s := mkSM (sp s) (currentTLog_ s) (currentTLogId_ s) x (numTLogEntries_ s) (files s) (snapshots_file s) (tasks s) (drawn s) (vol s).
Definition set_num x s := mkSM (sp s) (currentTLog_ s) (currentTLogId_ s) (maxTLogEntries_ s) x (files s) (snapshots_file s) (tasks s) (drawn s) (vol s).
Definition set_files x s := mkSM (sp s) (currentTLog_ s) (currentTLogId_ s) (maxTLogEntries_ s) (numTLogEntries_ s) x (snapshots_file s) (tasks s) (drawn s) (vol s).
Definition set_snapshots x s := mkSM (sp s) (currentTLog_ s) (currentTLogId_ s) (maxTLogEntries_ s) (numTLogEntries_ s) (files s) x (tasks s) (drawn s) (vol s).
Definition add_task x s := mkSM (sp s) (currentTLog_ s) (currentTLogId_ s) (maxTLogEntries_ s) (numTLogEntries_ s) (files s) (snapshots_file s) (tasks s ++ [x]) (drawn s) (vol s).
Definition set_drawn x s := mkSM (sp s) (currentTLog_ s) (currentTLogId_ s) (maxTLogEntries_ s) (numTLogEntries_ s) (files s) (snapshots_file s) (tasks s) x (vol s).
Definition set_vol x s := mkSM (sp s) (currentTLog_ s) (currentTLogId_ s) (maxTLogEntries_ s) (numTLogEntries_ s) (files s) (snapshots_file s) (tasks s) (drawn s) x.

(** ** Control *)
Definition on_vol {A} (m : M V A) : M SM A := fun s => let '(v, r) := m (vol s) in (set_vol v s, r).
Definition halt_ : M SM unit := mmodify (fun s => set_vol (halt (vol s)) s).
Definition catch {A} (m : M SM A) (h : exn -> M SM A) : M SM A := fun s =>
  match m s with (s', Throw e) => h e s' | r => r end.
Definition mverify (b : bool) : M SM unit := if b then mret tt else mthrow VerifyFailed.

(** [CATCH_STD_ALL_VLOG_HALT_RETHROW] *)
Definition halt_rethrow {A} (m : M SM A) : M SM A := catch m (fun e => halt_ ;! mthrow e).
Definition ignore_errors (m : M SM unit) : M SM unit := catch m (fun _ => mret tt).

Definition draw : M SM UUID := fun s => (set_drawn (S (drawn s)) s, Ok (uuid_of (drawn s))).

(** [sp] after an operation on it that may throw, and its [saveToFile]. *)
Definition on_sp (f : SnapshotPersistor -> res SnapshotPersistor) : M SM unit :=
  let! s := mget in let! p := mlift (f (sp s)) in mmodify (set_sp p).
Definition saveToFile : M SM unit := mmodify (fun s => set_snapshots (Some (sp s)) s).
Definition sp_newTLog : M SM unit := let! u := draw in mmodify (fun s => set_sp (newTLog u (sp s)) s).

(** A call of [currentTLog_]: what it writes is in its file, as long as that has a name. *)
Definition on_tlog {A} (m : M TLogWriter A) : M SM A := fun s =>
  match currentTLog_ s with
  | None => (s, Throw UndefinedBehaviour)
  | Some (i, w) => let '(w', r) := m w in (set_files (alter (fun _ => file_ w') i (files s)) (set_tlog (Some (i, w')) s), r)
  end.
Definition reset_tlog : M SM unit := on_tlog (maybe_refresh_buffer_ true) ;! mmodify (set_tlog None).
Definition last_location : M SM ClusterLocation.ClusterLocation := on_tlog (let! w := mget in mret (getClusterLocation w)).
Definition add_maybe_crc (maybe_sco_crc : option CheckSum.CheckSum) : M SM unit :=
  match maybe_sco_crc with Some cs => on_tlog (add_crc cs) | None => mret tt end.

Definition require_current_tlog : M SM unit :=
  let! s := mget in if bool_decide (is_Some (currentTLog_ s)) then mret tt else mthrow IOException.

Definition halt_on_error_ {A} : M SM A -> M SM A := halt_rethrow.

(** ** TLogs *)
Definition set_max_tlog_entries (tm : option Z) (number_of_scos_in_tlog sm : Z) : M SM unit :=
  mmodify (set_max (u32 (from_option id number_of_scos_in_tlog tm * sm))).

Definition openTLog_ : M SM unit :=
  let! s := mget in
  on_vol (cork (currentTLogId_ s)) ;!
  mmodify (set_num 0) ;!
  mverify (negb (bool_decide (is_Some (currentTLog_ s)))) ;!
  let file := from_option id [] (files s !! currentTLogId_ s) in
  let! w := mlift (TLogWriter.open page_size file 64) in
  mmodify (fun s => set_files (<[currentTLogId_ s := file]> (files s)) (set_tlog (Some (currentTLogId_ s, w)) s)).

Definition syncTLog_ (maybe_sco_crc : option CheckSum.CheckSum) : M SM unit :=
  halt_on_error_ (add_maybe_crc maybe_sco_crc ;! on_tlog TLogWriter.sync).

Definition sync (maybe_sco_crc : option CheckSum.CheckSum) : M SM unit :=
  require_current_tlog ;! syncTLog_ maybe_sco_crc.

Definition closeTLog_ : M SM CheckSum.CheckSum :=
  let! s := mget in
  mverify (bool_decide (is_Some (currentTLog_ s))) ;!
  let! crc := on_tlog TLogWriter.close in
  reset_tlog ;! mret crc.

Definition maybeCloseTLog_ : M SM unit :=
  let! s := mget in
  if bool_decide (is_Some (currentTLog_ s)) then closeTLog_ ;! mret tt else mret tt.

(** [currentTLogId_ = sp->getCurrentTLog()] *)
Definition update_current_id : M SM unit :=
  let! s := mget in let! i := mlift (getCurrentTLog (sp s)) in mmodify (set_id i).

(** The constructor of the task refuses a file that is not there. *)
Definition scheduleWriteTLogToBackend (tlog_id : TLogId) (sconame : SCO.SCO) (tlog_crc : CheckSum.CheckSum) : M SM unit :=
  halt_rethrow
    (let! s := mget in
     if bool_decide (is_Some (files s !! tlog_id)) then mmodify (add_task (WriteTLog tlog_id sconame tlog_crc))
     else mthrow IOException).

Definition scheduleWriteSnapshotToBackend : M SM unit := mmodify (add_task WriteSnapshot).

(** ** The constructor, [initialize] and the end *)
Definition construct (context : RestartContext) (parent : option (string * SnapshotName)) (fs : gmap TLogId (list Z))
  (snapshots_file : option SnapshotPersistor) (drawn : nat) (v : V) : res SM :=
  match snapshots_file with
  | Some p =>
      verify bool_decide (context = LocalRestart \/ context = BackendRestart) in
      let? _ := verifySanity_ p in
      let? i := getCurrentTLog p in
      throw_unless bool_decide (is_Some (fs !! i)) || bool_decide (context = BackendRestart) in
      Ok (mkSM p None i 0 0 fs (Some p) [] drawn v)
  | None =>
      verify bool_decide (context = Cloning \/ context = Creation) in
      let p := create parent (uuid_of drawn) (uuid_of (S drawn)) in
      let? i := getCurrentTLog p in
      Ok (mkSM p None i 0 0 fs (Some p) [] (S (S drawn)) v)
  end.

Definition initialize (tm : option Z) (number_of_scos_in_tlog sm : Z) : M SM unit :=
  set_max_tlog_entries tm number_of_scos_in_tlog sm ;!
  let! s := mget in
  mverify (0 <? maxTLogEntries_ s) ;!
  openTLog_ ;! sync None.

Definition destructor : M SM unit := ignore_errors maybeCloseTLog_.

Definition destroy (delete_local_data : bool) : M SM unit :=
  maybeCloseTLog_ ;!
  if delete_local_data then mmodify (fun s => set_snapshots None (set_files ∅ s)) else mret tt.

(** ** Entries *)
Definition maybe_switch_tlog_ : M SM unit :=
  let! s := mget in
  if maxTLogEntries_ s <=? numTLogEntries_ s then
    let! tlog_id := mlift (getCurrentTLog (sp s)) in
    let! location := last_location in
    sp_newTLog ;!
    let! tlog_crc := closeTLog_ in
    update_current_id ;!
    openTLog_ ;!
    scheduleWriteTLogToBackend tlog_id (ClusterLocation.sco_ location) tlog_crc ;!
    saveToFile
  else mret tt.

Definition addSCOCRC (cs : CheckSum.CheckSum) : M SM unit :=
  require_current_tlog ;! halt_on_error_ (on_tlog (add_crc cs) ;! maybe_switch_tlog_).

Definition addClusterEntry (address : Z) (location_and_hash : CLH.ClusterLocationAndHash) : M SM unit :=
  require_current_tlog ;!
  halt_on_error_
    (on_tlog (TLogWriter.add address location_and_hash) ;!
     mmodify (fun s => set_num (u32 (numTLogEntries_ s + 1)) s) ;!
     let! s := mget in
     on_sp (fun p => addCurrentBackendSize p (getClusterSize (vol s)))).

(** ** Snapshots *)
Definition createSnapshot (name : SnapshotName) (maybe_sco_crc : option CheckSum.CheckSum) (metadata : SnapshotMetaData)
  (guid : UUID) (create_scrubbed : bool) (now : string) : M SM unit :=
  catch
    (let! s := mget in
     let! tlog_id := mlift (getCurrentTLog (sp s)) in
     on_sp (fun p => snapshot p name metadata guid create_scrubbed now (uuid_of (drawn s)) (uuid_of (S (drawn s)))) ;!
     mmodify (fun s => set_drawn (S (S (drawn s))) s) ;!
     let! location := last_location in
     add_maybe_crc maybe_sco_crc ;!
     let! tlog_crc := closeTLog_ in
     update_current_id ;!
     openTLog_ ;!
     saveToFile ;!
     let! s := mget in
     mlift (getSnapshotNum (sp s) name) ;!
     scheduleWriteTLogToBackend tlog_id (ClusterLocation.sco_ location) tlog_crc)
    (fun e => match e with
              | SnapshotNameAlreadyExists | ExcessiveMetaDataException => mthrow e
              | _ => halt_ ;! mthrow e
              end).

Definition scheduleBackendSync (maybe_sco_crc : option CheckSum.CheckSum) : M SM TLogId :=
  let! tlog_id := halt_on_error_
    (let! s := mget in
     let! i := mlift (getCurrentTLog (sp s)) in
     (if currentTLogId_ s =? i then mret tt else mthrow AssertFailed) ;!
     let tlog_id := currentTLogId_ s in
     sp_newTLog ;!
     add_maybe_crc maybe_sco_crc ;!
     let! location := last_location in
     let! tlog_crc := closeTLog_ in
     update_current_id ;!
     openTLog_ ;!
     saveToFile ;!
     scheduleWriteTLogToBackend tlog_id (ClusterLocation.sco_ location) tlog_crc ;!
     mret tlog_id) in
  mverify (negb (tlog_id =? 0)) ;!
  mret tlog_id.

Definition eraseSnapshotsAndTLogsAfterSnapshot (num : SnapshotNum) : M SM unit :=
  let! s := mget in
  let! tlog_ids := mlift (getTLogsAfterSnapshot (sp s) num []) in
  on_sp (fun p => deleteTLogsAndSnapshotsAfterSnapshot p num (uuid_of (drawn s))) ;!
  mmodify (fun s => set_drawn (S (drawn s)) s) ;!
  maybeCloseTLog_ ;!
  update_current_id ;!
  openTLog_ ;!
  saveToFile ;!
  mmodify (fun s => set_files (foldl (fun fs i => delete i fs) (files s) tlog_ids) s) ;!
  scheduleWriteSnapshotToBackend.

Definition deleteSnapshot (name : SnapshotName) : M SM unit :=
  on_sp (fun p => let? n := getSnapshotNum p name in SnapshotPersistor.deleteSnapshot p n) ;!
  saveToFile ;!
  scheduleWriteSnapshotToBackend.

Definition setAsTemplate (maybe_sco_crc : option CheckSum.CheckSum) (name_of : UUID -> SnapshotName) (now : string) : M SM unit :=
  let! s := mget in
  (if negb (getCurrentBackendSize (sp s) =? 0) || bool_decide (snapshots (sp s) = []) then
     let! u := draw in createSnapshot (name_of u) maybe_sco_crc [] u false now
   else mret tt) ;!
  on_sp deleteAllButLastSnapshot ;!
  saveToFile ;!
  scheduleWriteSnapshotToBackend.

Definition new_scrub_id : M SM UUID :=
  let! u := draw in
  mmodify (fun s => set_sp (mkSP (current (sp s)) (snapshots (sp s)) (parent_ (sp s)) u) s) ;!
  saveToFile ;!
  scheduleWriteSnapshotToBackend ;!
  mret u.

Definition replaceTLogsWithScrubbedOnes (ins : TLogs.OrderedTLogIds) (out : list TLog) (num : SnapshotNum) : M SM UUID :=
  let! s := mget in
  let! (scrub_id, p) := mlift (SnapshotPersistor.replace (sp s) ins out num (uuid_of (drawn s))) in
  mmodify (fun s => set_drawn (S (drawn s)) (set_sp p s)) ;!
  on_sp (fun p => SnapshotPersistor.setSnapshotScrubbed p num true) ;!
  saveToFile ;!
  scheduleWriteSnapshotToBackend ;!
  mret scrub_id.

Definition setSnapshotScrubbed (name : SnapshotName) : M SM unit :=
  on_sp (fun p => let? n := getSnapshotNum p name in SnapshotPersistor.setSnapshotScrubbed p n true).

(** ** The way to the backend *)
Definition tlogWrittenToBackendCallback (tlog_id : TLogId) (sconame : SCO.SCO) : M SM unit :=
  let! s := mget in
  let! tmp := mlift (SnapshotPersistor.setTLogWrittenToBackend (sp s) tlog_id true) in
  on_vol (backend_write_snapshots tmp) ;!
  halt_rethrow (on_sp (fun p => SnapshotPersistor.setTLogWrittenToBackend p tlog_id true) ;! saveToFile) ;!
  halt_rethrow (if SCO.asBool sconame then on_vol (writtenToBackendUpTo sconame) else mret tt) ;!
  halt_rethrow (on_vol (unCorkAndTrySync tlog_id)) ;!
  ignore_errors
    (mmodify (fun s => set_files (delete tlog_id (files s)) s) ;!
     (if SCO.asBool sconame then on_vol (removeUpToFromFailOverCache sconame) else mret tt) ;!
     on_vol (checkState tlog_id)) ;!
  let! s := mget in
  if SnapshotPersistor.isTLogWrittenToBackend (sp s) tlog_id then mret tt else mthrow AssertFailed.

(** [WriteTLog::run] *)
Definition run_WriteTLog (tlogid : TLogId) (sconame : SCO.SCO) (checksum : CheckSum.CheckSum) : M SM unit :=
  catch
    (let! s := mget in
     on_vol (backend_write tlogid (files s !! tlogid) checksum) ;!
     tlogWrittenToBackendCallback tlogid sconame)
    (fun e => match e with
              | OwnerTagMismatchException | BackendAssertionFailedException => halt_
              | BackendInputException =>
                  let! s := mget in
                  if bool_decide (is_Some (files s !! tlogid)) then halt_ ;! mthrow e else mret tt
              | _ => mthrow e
              end).

(** [WriteSnapshot::run] *)
Definition run_WriteSnapshot : M SM unit :=
  catch
    (let! s := mget in on_vol (backend_write_snapshots (sp s)))
    (fun e => match e with BackendAssertionFailedException => halt_ | _ => mthrow e end).

Definition run_task (t : Task) : M SM unit :=
  match t with
  | WriteTLog i n cs => run_WriteTLog i n cs
  | WriteSnapshot => run_WriteSnapshot
  end.

(** A file of the directory; the reader refuses one that is not there. *)
Definition local_file (s : SM) (i : TLogId) : res (list Z) :=
  match files s !! i with Some f => Ok f | None => Throw IOException end.

Definition schedule_one (i : TLogId) : M SM unit :=
  let! s := mget in
  let! f := mlift (local_file s i) in
  let! (location, _) := mlift (ReaderInterface.nextClusterLocation (BackwardTLogReader.open f TLogReader.max_num_cached)) in
  scheduleWriteTLogToBackend i (ClusterLocation.sco_ location) (calculate_checksum page_size f).

(** All but the last; the loop runs to [tlog_ids.size() - 1]. *)
Definition scheduleTLogsToBeWrittenToBackend : M SM unit :=
  let! s := mget in
  let! tlog_ids := mlift (getTLogsNotWrittenToBackend (sp s) []) in
  match tlog_ids with
  | [] => mthrow UndefinedBehaviour
  | _ => miter schedule_one (removelast tlog_ids)
  end.

(** ** Queries *)
Definition lastSnapshotOnBackend (s : SM) : res bool :=
  match last (getAllSnapshots (sp s) []) with
  | None => Ok true
  | Some n => SnapshotPersistor.isSnapshotInBackend (sp s) n
  end.

(** The TLog from its file or, if that is gone, from the backend. *)
Definition tlog_image (s : SM) (i : TLogId) : res (list Z) :=
  match files s !! i with Some f => Ok f | None => backend_read (vol s) i end.

Definition open_backward (s : SM) (i : TLogId) : res BackwardTLogReader.BackwardTLogReader :=
  let? f := tlog_image s i in Ok (BackwardTLogReader.open f TLogReader.max_num_cached).

Definition last_location_of (s : SM) (tlogs : TLogs.OrderedTLogIds) : res ClusterLocation.ClusterLocation :=
  let? c := CombinedTLogReader.create_backward_reader (open_backward s) tlogs in
  let? (l, _) := @ReaderInterface.nextClusterLocation _ (CombinedTLogReader.combined_interface (open_backward s)) c in
  Ok l.

Definition getLastSCOInBackend (s : SM) : res ClusterLocation.ClusterLocation :=
  let? tlogs_on_backend := getTLogsWrittenToBackend (sp s) [] in last_location_of s tlogs_on_backend.

Definition getLastSCO (s : SM) : res ClusterLocation.ClusterLocation := last_location_of s (getAllTLogs (sp s) [] true).

(** Whether a TLog file has a location. *)
Definition has_location (f : list Z) : res bool :=
  let? (oe, _) := ReaderInterface.nextLocation (TLogReader.open f TLogReader.max_num_cached) in
  Ok (bool_decide (is_Some oe)).

Definition currentTLogHasData : M SM bool :=
  sync None ;!
  let! s := mget in
  let! f := mlift (local_file s (currentTLogId_ s)) in
  mlift (has_location f).

Definition isSyncedToBackend : M SM bool :=
  let! s := mget in
  if negb (match last (snapshots (sp s)) with Some x => inBackend x | None => true end) then mret false
  else
    let cur := getCurrentTLogsNotWrittenToBackend (sp s) [] in
    mverify (0 <? length cur)%nat ;!
    if (1 <? length cur)%nat then mret false
    else
      require_current_tlog ;!
      syncTLog_ None ;!
      let! s := mget in
      let! f := mlift (local_file s (currentTLogId_ s)) in
      let! b := mlift (has_location f) in
      mret (negb b).

Definition tlog_size (s : SM) (total : Z) (i : TLogId) : res Z :=
  let? f := (if SnapshotPersistor.isTLogWrittenToBackend (sp s) i then backend_read (vol s) i else local_file s i) in
  let size := Z.of_nat (length f) in
  let entry := Z.of_nat Entry.getDataSize in
  Ok (if entry <? size then u64 (total + (size - entry)) else total).

Definition getTLogSizes (ins : TLogs.OrderedTLogIds) : M SM Z :=
  require_current_tlog ;!
  syncTLog_ None ;!
  let! s := mget in
  mlift (rfold (tlog_size s) 0 ins).

Definition listSnapshots (s : SM) : res (list SnapshotName) :=
  rfold (fun l n => let? name := getSnapshotName (sp s) n in Ok (l ++ [name])) [] (ZSort.sort (getAllSnapshots (sp s) [])).

Definition getLastSnapshotName (s : SM) : res SnapshotName :=
  match getAllSnapshots (sp s) [] with
  | [] => Ok ""%string
  | n :: l => getSnapshotName (sp s) (foldl Z.max n l)
  end.

End Management.
Arguments SM V : clear implicits.
End SnapshotManagement.
