(* ===== verification/SnapshotManagementFacts.v ===== *)
(** * The invariant of [SnapshotManagement]

    [holds] relates the state to the entries of each TLog, wherever they are: in the
    writer, in a file or in the backend.  Each operation keeps it. *)

From S2P Require Import Prelude CheckSum Addressing TLogEntry TLogIO TLogIOFacts TLogs Snapshots SnapshotPersistor SnapshotFacts SnapshotTheorems SnapshotQueries SnapshotManagement.
Import TLog TLogs Snapshot SnapshotPersistor TLogsFacts PersistorFacts PersistorSteps PersistorTheorems TLogWriter SnapshotManagement.

(** What the log needs of the volume: nothing but writing a TLog changes the TLogs in the
    backend, a write that succeeds stores the file, a file that is not there cannot be
    written, and a cork can be set. *)
Class VolumeSpec (V : Type) `{VolumeInterface V} : Prop := {
  cork_ok u v : exists v', cork u v = (v', Ok tt) /\ forall i, backend_read v' i = backend_read v i;
  halt_frame v i : backend_read (halt v) i = backend_read v i;
  uncork_frame u v i : backend_read (fst (unCorkAndTrySync u v)) i = backend_read v i;
  written_frame n v i : backend_read (fst (writtenToBackendUpTo n v)) i = backend_read v i;
  remove_frame n v i : backend_read (fst (removeUpToFromFailOverCache n v)) i = backend_read v i;
  check_frame t v i : backend_read (fst (checkState t v)) i = backend_read v i;
  snapshots_frame p v i : backend_read (fst (backend_write_snapshots p v)) i = backend_read v i;
  write_frame i f cs v j : j <> i -> backend_read (fst (backend_write i f cs v)) j = backend_read v j;
  write_stores i f cs v v' : backend_write i (Some f) cs v = (v', Ok tt) -> backend_read v' i = Ok f;
  write_nothing i cs v : exists e, snd (backend_write i None cs v) = Throw e /\
    backend_read (fst (backend_write i None cs v)) i = backend_read v i }.

Lemma Forall2_elem_impl {A B} (P Q : A -> B -> Prop) l k : Forall2 P l k -> (forall x y, x ∈ l -> P x y -> Q x y) -> Forall2 Q l k.
Proof. induction 1 as [|x y l k Hp Hf IH]; intros Hi; constructor; [apply Hi; [left|done]|]. apply IH. intros ? ? ?. apply Hi. by right. Qed.

Section Facts.
Context {V : Type} `{VI : VolumeInterface V} `{VS : !VolumeSpec V}.
Variable page_size : nat.
Variable uuid_of : nat -> UUID.
Hypothesis page_pos : (0 < page_size)%nat.
Hypothesis uuid_inj : forall m n, uuid_of m = uuid_of n -> m = n.
Hypothesis uuid_not_null : forall n, uuid_of n <> 0.

Implicit Types (s : SM V) (l : TLogs) (t : TLog) (L : list (list Entry.Entry)) (es : list Entry.Entry) (w : TLogWriter).

Abbreviation image := TLogFile.image.
Abbreviation winv := TLogWriterFacts.inv.

(** Persistors that differ in the sizes of TLogs and the scrubbed flags only. *)
Definition history (p : SnapshotPersistor) :=
  ((fun t => (uuid t, written_to_backend t)) <$> flat p, (fun x => (num x, name x, length (tlogs x))) <$> snapshots p).

Record holds s l t L es w : Prop := mkHolds {
  h_inv : inv (sp s);
  h_flat : flat (sp s) = l ++ [t];
  h_unwritten : written_to_backend t = false;
  h_id : currentTLogId_ s = uuid t;
  h_tlog : currentTLog_ s = Some (uuid t, w);
  h_writer : winv w es;
  h_file : files s !! uuid t = Some (file_ w);
  h_closed : Forall2 (fun t es => Forall Entry.wf es /\ tlog_image s (uuid t) = Ok (image es)) l L;
  h_drawn : forall i, i ∈ ids (flat (sp s)) \/ is_Some (files s !! i) \/ (exists n cs, WriteTLog i n cs ∈ tasks s) ->
    exists k, (k < drawn s)%nat /\ i = uuid_of k;
  h_tasks : forall i n cs, WriteTLog i n cs ∈ tasks s ->
    i <> uuid t /\ forall f, files s !! i = Some f -> calculate_checksum page_size f = cs;
  h_saved : exists p, snapshots_file s = Some p /\ inv p /\ history p = history (sp s) }.

Arguments h_inv {s l t L es w}.
Arguments h_flat {s l t L es w}.
Arguments h_unwritten {s l t L es w}.
Arguments h_id {s l t L es w}.
Arguments h_tlog {s l t L es w}.
Arguments h_writer {s l t L es w}.
Arguments h_file {s l t L es w}.
Arguments h_closed {s l t L es w}.
Arguments h_drawn {s l t L es w}.
Arguments h_tasks {s l t L es w}.
Arguments h_saved {s l t L es w}.

(** ** Parts of the state that do not matter *)
Lemma holds_frame s s' l t L es w : holds s l t L es w ->
  sp s' = sp s -> currentTLog_ s' = currentTLog_ s -> currentTLogId_ s' = currentTLogId_ s -> files s' = files s ->
  snapshots_file s' = snapshots_file s -> (drawn s <= drawn s')%nat -> (forall i n cs, WriteTLog i n cs ∈ tasks s' -> WriteTLog i n cs ∈ tasks s) ->
  (forall i, backend_read (vol s') i = backend_read (vol s) i) ->
  holds s' l t L es w.
Proof.
  intros [? ? ? ? ? ? ? Hc Hd Ht ?] E1 E2 E3 E4 E5 Hn E7 E8. constructor; rewrite ?E1, ?E2, ?E3, ?E4, ?E5; try done.
  - eapply Forall2_impl; [exact Hc|]. intros x y [? Hi]. split; [done|]. revert Hi. unfold tlog_image. rewrite E4. by case_match; [|rewrite E8].
  - intros i Hi. destruct (Hd i) as (k & Hk & ->); [|exists k; split; [by eapply Nat.lt_le_trans|done]]. destruct Hi as [|[|(n & cs & Hi)]]; [by left|by right; left|right; right; eauto].
  - intros i n cs Hi. eauto.
Qed.

Lemma holds_vol {s l t L es w} v : holds s l t L es w -> (forall i, backend_read v i = backend_read (vol s) i) -> holds (set_vol v s) l t L es w.
Proof. intros Hh Hv. by eapply holds_frame; [exact Hh|..]. Qed.

Lemma holds_num {s l t L es w} n : holds s l t L es w -> holds (set_num n s) l t L es w.
Proof. intros Hh. by eapply holds_frame; [exact Hh|..]. Qed.

Lemma holds_snapshot_task {s l t L es w} : holds s l t L es w -> holds (add_task WriteSnapshot s) l t L es w.
Proof.
  intros Hh. eapply holds_frame; [exact Hh|try done..]. cbn. intros i n cs Hi. apply elem_of_app in Hi as [|Hi]; [done|].
  by apply list_elem_of_singleton in Hi.
Qed.

(** ** The current TLog *)
Lemma current_new {s l t L es w} : holds s l t L es w -> uuid t ∉ ids l.
Proof. intros Hh. pose proof (inv_ids _ (h_inv Hh)) as Hn. rewrite (h_flat Hh), ids_app in Hn. apply NoDup_app in Hn as (_ & Hn & _). intros Hi. apply (Hn _ Hi). left. Qed.

Definition with_tlog s (i : TLogId) w : SM V := set_files (alter (fun _ => file_ w) i (files s)) (set_tlog (Some (i, w)) s).

Lemma on_tlog_eq {A} (m : M TLogWriter A) s i w w' r : currentTLog_ s = Some (i, w) -> m w = (w', r) -> on_tlog m s = (with_tlog s i w', r).
Proof. intros E1 E2. unfold on_tlog. by rewrite E1, E2. Qed.

Lemma holds_tlog {s l t L es w es' w'} : holds s l t L es w -> winv w' es' -> holds (with_tlog s (uuid t) w') l t L es' w'.
Proof.
  intros Hh Hw. pose proof (current_new Hh) as Hnew. destruct Hh as [? ? ? ? ? ? Hf Hc Hd Ht ?]. constructor; try done.
  - cbn. by rewrite lookup_alter_eq, Hf.
  - eapply Forall2_elem_impl; [exact Hc|]. intros x y Hx [? Hi]. split; [done|]. unfold tlog_image in *. cbn.
    rewrite lookup_alter_ne; [done|]. intros Eq. apply Hnew. rewrite Eq. by apply list_elem_of_fmap; exists x.
  - cbn. intros i [Hi|[Hi|Hi]]; apply Hd; [by left| |by right; right]. right. left. destruct (decide (i = uuid t)) as [->|Hne]; [eauto|].
    by rewrite lookup_alter_ne in Hi.
  - cbn. intros i n cs Hi. destruct (Ht _ _ _ Hi) as [Hne Hcs]. split; [done|]. intros f Ef. rewrite lookup_alter_ne in Ef by done. eauto.
Qed.

(** ** [sp] *)
Lemma history_flat p q : history p = history q -> (fun t => (uuid t, written_to_backend t)) <$> flat p = (fun t => (uuid t, written_to_backend t)) <$> flat q.
Proof. intros Hh. by injection Hh. Qed.

Lemma history_sizes z p p' : addCurrentBackendSize p z = Ok p' -> history p' = history p.
Proof.
  intros Ha. pose proof (run_effect p p' (OpAddSize z) Ha) as Hf. cbn in Hf. unfold history. rewrite Hf.
  unfold addCurrentBackendSize in Ha. case_match; [|done]. inv_ok. f_equal.
  clear. induction (flat p) as [|x l IH]; [done|]. cbn. destruct l as [|y l]; [by destruct x|]. cbn [fmap list_fmap] in *. f_equal. exact IH.
Qed.

Lemma add_to_last_snoc z l t : add_to_last z (l ++ [t]) = l ++ [TLog.add_to_backend_size z t].
Proof. by rewrite add_to_last_app. Qed.

Lemma holds_size {s l t L es w} z p : holds s l t L es w -> addCurrentBackendSize (sp s) z = Ok p ->
  holds (set_sp p s) l (TLog.add_to_backend_size z t) L es w.
Proof.
  intros Hh Ha. pose proof (run_effect _ _ (OpAddSize z) Ha) as Hf. cbn in Hf. pose proof (inv_add_size _ _ _ (h_inv Hh) Ha) as Hi.
  pose proof (history_sizes _ _ _ Ha) as Hhi. destruct Hh as [? Hfl ? ? ? ? ? Hc Hd Ht (q & ? & ? & ?)]. constructor; cbn; try done.
  - by rewrite Hf, Hfl, add_to_last_snoc.
  - intros i Hi'. apply Hd. cbn in Hi'. rewrite Hf, Hfl, add_to_last_snoc in Hi'. rewrite Hfl. by rewrite ids_app in Hi' |- *.
  - exists q. split_and!; [done|done|]. congruence.
Qed.

Lemma size_accepted {s l t L es w} z : holds s l t L es w -> exists p, addCurrentBackendSize (sp s) z = Ok p.
Proof.
  intros Hh. pose proof (inv_current _ (h_inv Hh)). unfold addCurrentBackendSize. destruct (current (sp s)); [done|]. cbn. eauto.
Qed.

(** ** Closing and opening *)
Abbreviation crc_of es := (CheckSum.update CheckSum.Crc32cHw CheckSum.CheckSum_default (image es)).

Lemma checksum_of_image es : calculate_checksum page_size (image es) = crc_of es.
Proof. unfold calculate_checksum. apply TLogWriterFacts.calculate_checksum_ok; [done|lia|apply CheckSum.default_wf|apply TLogFile.image_bytes]. Qed.

Lemma alter_twice (m : gmap TLogId (list Z)) i f g : is_Some (m !! i) -> alter (fun _ => g) i (alter (fun _ => f) i m) = <[i := g]> m.
Proof.
  intros [x Hx]. apply map_eq. intros j. destruct (decide (j = i)) as [->|Hne]; [by rewrite !lookup_alter_eq, Hx, lookup_insert_eq|].
  by rewrite !lookup_alter_ne, lookup_insert_ne.
Qed.

Lemma close_eq s i w es : currentTLog_ s = Some (i, w) -> winv w es -> is_Some (files s !! i) ->
  exists e, Forall Entry.wf (es ++ [e]) /\ Entry.isLocation e = false /\
    closeTLog_ s = (set_files (<[i := image (es ++ [e])]> (files s)) (set_tlog None s), Ok (crc_of (es ++ [e]))).
Proof.
  intros Et Hw Hf. assert (CheckSum.wf (checksum_ w)) as Hcs. { destruct Hw as (_ & _ & _ & -> & _). apply CheckSum.update_wf; [apply CheckSum.default_wf|apply TLogFile.image_bytes]. }
  destruct (TLogWriterFacts.place_crc true (checksum_ w) Entry.TLogCRC w es Hw Hcs) as (w1 & e & Ep & Hw1 & Hty & _); [by left|].
  destruct (TLogWriterFacts.refresh_inv true w1 _ Hw1) as (w2 & Er & Hw2 & _ & _ & _ & _ & H0). exists e. split_and!; [apply Hw1|unfold Entry.isLocation, Entry.is_type; by rewrite Hty|].
  assert (file_ w2 = image (es ++ [e])) as Ef. { destruct Hw2 as (Hc & _). unfold TLogWriterFacts.contents in Hc. rewrite H0, take_0, app_nil_r in Hc by done. done. }
  unfold closeTLog_, mbind, mget, mverify. rewrite Et. cbn [bool_decide]. rewrite bool_decide_true by eauto. unfold mret at 1.
  rewrite (on_tlog_eq TLogWriter.close s i w w1 (Ok (checksum_ w1)) Et) by (unfold TLogWriter.close, mbind, mget; by rewrite Ep).
  unfold reset_tlog, mbind. rewrite (on_tlog_eq (maybe_refresh_buffer_ true) (with_tlog s i w1) i w1 w2 (Ok tt)) by done.
  unfold mmodify, mret. f_equal; [|by destruct Hw1 as (_ & _ & _ & -> & _)].
  unfold with_tlog, set_tlog, set_files. cbn. by rewrite alter_twice, Ef.
Qed.

Lemma open_file file n w : TLogWriter.open page_size file n = Ok w -> file_ w = file.
Proof. unfold TLogWriter.open. intros Ho. inv_bind Ho. destruct a as [c b]. by inv_ok. Qed.

Lemma open_eq s es : currentTLog_ s = None -> Forall Entry.wf es -> from_option id [] (files s !! currentTLogId_ s) = image es ->
  exists v w, openTLog_ page_size s =
      (set_files (<[currentTLogId_ s := image es]> (files s)) (set_tlog (Some (currentTLogId_ s, w)) (set_num 0 (set_vol v s))), Ok tt) /\
    winv w es /\ file_ w = image es /\ forall i, backend_read v i = backend_read (vol s) i.
Proof.
  intros Et Hes Ef. destruct (cork_ok (currentTLogId_ s) (vol s)) as (v & Ec & Hv).
  destruct (TLogWriterFacts.open_inv page_size es 64 page_pos) as (w & Ew & Hw & _); [lia|done|]. exists v, w. split_and!; [|done|by apply open_file in Ew|done].
  unfold openTLog_, mbind, mget, on_vol. rewrite Ec, Et. unfold mmodify at 1. cbn [mverify is_Some negb bool_decide].
  rewrite bool_decide_false by by intros []. cbn [negb]. unfold mverify, mret at 1. rewrite Ef, Ew. unfold mlift, mmodify. cbn. done.
Qed.

Lemma update_id_eq s l t : flat (sp s) = l ++ [t] -> current (sp s) <> [] -> update_current_id s = (set_id (uuid t) s, Ok tt).
Proof.
  intros Ef Hc. unfold update_current_id, mbind, mget, mlift, getCurrentTLog. assert (last (current (sp s)) = Some t) as ->; [|done].
  destruct (current (sp s)) as [|c cs _] eqn:Ecur using rev_ind; [done|]. unfold flat in Ef. rewrite Ecur, app_assoc in Ef. apply app_inj_tail in Ef as [_ ->]. by rewrite last_snoc.
Qed.

(** The next TLog: the current one is closed with [e], and sent. *)
Lemma holds_roll s s' l t L es w e w' u n : holds s l t L es w -> Forall Entry.wf (es ++ [e]) ->
  inv (sp s') -> flat (sp s') = flat (sp s) ++ [TLog.make u] -> u ∉ ids (flat (sp s)) ->
  currentTLogId_ s' = u -> currentTLog_ s' = Some (u, w') -> winv w' [] -> file_ w' = [] ->
  files s' = <[u := []]> (<[uuid t := image (es ++ [e])]> (files s)) -> snapshots_file s' = Some (sp s') ->
  tasks s' = tasks s ++ [WriteTLog (uuid t) n (crc_of (es ++ [e]))] ->
  (exists k, (drawn s <= k < drawn s')%nat /\ u = uuid_of k) ->
  (forall i, backend_read (vol s') i = backend_read (vol s) i) ->
  holds s' (l ++ [t]) (TLog.make u) (L ++ [es ++ [e]]) [] w'.
Proof.
  intros Hh Hes Hi Ef Hu E1 E2 Hw' Efw E3 E4 E5 (k & Hk & Eu) Hv. pose proof (current_new Hh) as Hnew.
  destruct Hh as [? Hfl Hun ? ? ? Hf Hc Hd Ht ?].
  assert (forall i, i = uuid_of k -> ~ (i ∈ ids (flat (sp s)) \/ is_Some (files s !! i) \/ exists n cs, WriteTLog i n cs ∈ tasks s)) as Hfresh.
  { intros i -> Hin. destruct (Hd _ Hin) as (k' & ? & Ek%uuid_inj). lia. }
  assert (uuid t <> u) as Htu. { intros <-. apply Hu. rewrite Hfl, ids_app. apply elem_of_app. right. left. }
  constructor; try done.
  - by rewrite Ef, Hfl.
  - by rewrite E3, lookup_insert_eq, Efw.
  - apply Forall2_app.
    + eapply Forall2_elem_impl; [exact Hc|]. intros x y Hx [? Hi']. split; [done|]. unfold tlog_image in *.
      assert (uuid x ∈ ids l) as Hxl by by apply list_elem_of_fmap; exists x.
      rewrite E3, !lookup_insert_ne; [by case_match; [|rewrite Hv]|intros Eq; apply Hnew; by rewrite Eq|].
      intros ->. apply Hu. rewrite Hfl, ids_app. apply elem_of_app. by left.
    + constructor; [|constructor]. split; [done|]. unfold tlog_image. by rewrite E3, lookup_insert_ne, lookup_insert_eq.
  - intros i Hin. assert (i = u \/ i ∈ ids (flat (sp s)) \/ is_Some (files s !! i) \/ exists n cs, WriteTLog i n cs ∈ tasks s) as [->|Hin'].
    { rewrite Ef, ids_app, E3, E5 in Hin. destruct Hin as [Hin|[Hin|(m & cs & Hin)]].
      - apply elem_of_app in Hin as [|Hin]; [by right; left|]. left. by apply list_elem_of_singleton in Hin.
      - destruct (decide (i = u)) as [|Hne]; [by left|]. rewrite lookup_insert_ne in Hin by done.
        destruct (decide (i = uuid t)) as [->|]; [|right; right; left; by rewrite lookup_insert_ne in Hin]. right. left. rewrite Hfl, ids_app. apply elem_of_app. right. left.
      - apply elem_of_app in Hin as [|Hin]; [right; eauto 8|]. apply list_elem_of_singleton in Hin as [= -> -> ->]. right. left. rewrite Hfl, ids_app. apply elem_of_app. right. left. }
    + exists k. split; [lia|done].
    + destruct (Hd _ Hin') as (k' & ? & ->). exists k'. split; [lia|done].
  - intros i m cs Hin. rewrite E5 in Hin. cbn [TLog.make uuid]. apply elem_of_app in Hin as [Hin|Hin].
    + destruct (Ht _ _ _ Hin) as [Hne Hcs]. assert (i <> u) as Hiu by (intros ->; apply (Hfresh _ Eu); eauto 8). split; [done|].
      intros f. rewrite E3, !lookup_insert_ne by done. apply Hcs.
    + apply list_elem_of_singleton in Hin as [= -> -> ->]. split; [done|]. intros f. rewrite E3, lookup_insert_ne, lookup_insert_eq by done.
      intros [= <-]. apply checksum_of_image.
  - exists (sp s'). by split_and!.
Qed.

Lemma draw_fresh {s l t L es w} : holds s l t L es w -> uuid_of (drawn s) ∉ ids (flat (sp s)) /\ files s !! uuid_of (drawn s) = None.
Proof.
  intros Hh. assert (forall i, i = uuid_of (drawn s) -> ~ (i ∈ ids (flat (sp s)) \/ is_Some (files s !! i) \/ exists n cs, WriteTLog i n cs ∈ tasks s)) as Hfresh.
  { intros i -> Hin. destruct (h_drawn Hh _ Hin) as (k' & ? & Ek%uuid_inj). lia. }
  split; [intros Hi; eapply Hfresh; [done|by left]|]. destruct (files s !! uuid_of (drawn s)) eqn:E; [|done]. destruct (Hfresh _ eq_refl). right. left. eauto.
Qed.

End Facts.

Arguments h_inv {V VI page_size uuid_of s l t L es w}.
Arguments h_flat {V VI page_size uuid_of s l t L es w}.
Arguments h_unwritten {V VI page_size uuid_of s l t L es w}.
Arguments h_id {V VI page_size uuid_of s l t L es w}.
Arguments h_tlog {V VI page_size uuid_of s l t L es w}.
Arguments h_writer {V VI page_size uuid_of s l t L es w}.
Arguments h_file {V VI page_size uuid_of s l t L es w}.
Arguments h_closed {V VI page_size uuid_of s l t L es w}.
Arguments h_drawn {V VI page_size uuid_of s l t L es w}.
Arguments h_tasks {V VI page_size uuid_of s l t L es w}.
Arguments h_saved {V VI page_size uuid_of s l t L es w}.
Arguments current_new {V VI page_size uuid_of s l t L es w}.
Arguments holds_vol {V VI page_size uuid_of s l t L es w}.
Arguments holds_num {V VI page_size uuid_of s l t L es w}.
Arguments holds_snapshot_task {V VI page_size uuid_of s l t L es w}.
Arguments holds_tlog {V VI page_size uuid_of s l t L es w es' w'}.
Arguments holds_size {V VI page_size uuid_of s l t L es w}.
Arguments size_accepted {V VI page_size uuid_of s l t L es w}.
Arguments draw_fresh {V VI page_size uuid_of} page_pos uuid_inj {s l t L es w}.
