(* ===== verification/SnapshotManagementOps.v ===== *)
(** * What the operations of [SnapshotManagement] do to the log *)

From S2P Require Import Prelude CheckSum Addressing TLogEntry TLogIO TLogIOFacts TLogs Snapshots SnapshotPersistor SnapshotFacts SnapshotTheorems SnapshotQueries SnapshotManagement SnapshotManagementFacts.
Import TLog TLogs Snapshot SnapshotPersistor TLogsFacts PersistorFacts PersistorSteps PersistorTheorems TLogWriter SnapshotManagement QueryFacts.

Section Ops.
Context {V : Type} `{VI : VolumeInterface V} `{VS : !VolumeSpec V}.
Variable page_size : nat.
Variable uuid_of : nat -> UUID.
Hypothesis page_pos : (0 < page_size)%nat.
Hypothesis uuid_inj : forall m n, uuid_of m = uuid_of n -> m = n.
Hypothesis uuid_not_null : forall n, uuid_of n <> 0.

Implicit Types (s : SM V) (l : TLogs) (t : TLog) (T L : list (list Entry.Entry)) (es : list Entry.Entry) (w : TLogWriter).

Abbreviation holds := (holds page_size uuid_of).
Abbreviation image := TLogFile.image.
Abbreviation winv := TLogWriterFacts.inv.
Abbreviation crc_of es := (CheckSum.update CheckSum.Crc32cHw CheckSum.CheckSum_default (image es)).

(** The entries of each TLog, in order. *)
Definition logs s T : Prop := exists l t L es w, holds s l t L es w /\ T = L ++ [es].

Lemma logs_intro {s l t L es w} : holds s l t L es w -> logs s (L ++ [es]).
Proof. intros Hh. by exists l, t, L, es, w. Qed.

(** [m] leaves a log for which [Q] holds, whatever it returns. *)
Definition logging {A} (m : M (SM V) A) s (Q : res A -> list (list Entry.Entry) -> Prop) : Prop :=
  exists s' r T', m s = (s', r) /\ logs s' T' /\ Q r T'.

Lemma current_tlog s l t L es w : holds s l t L es w -> require_current_tlog s = (s, Ok tt).
Proof. intros Hh. unfold require_current_tlog, mbind, mget. rewrite (h_tlog Hh). by rewrite bool_decide_true by eauto. Qed.

Lemma current_id s l t L es w : holds s l t L es w -> getCurrentTLog (sp s) = Ok (uuid t).
Proof.
  intros Hh. pose proof (inv_current _ (h_inv Hh)) as Hc. pose proof (update_id_eq s l t (h_flat Hh) Hc) as E.
  unfold update_current_id, mbind, mget, mlift in E. destruct (getCurrentTLog (sp s)); [|done]. injection E as <-. done.
Qed.

(** ** Entries *)
Lemma addClusterEntry_log s T es a lh : logs s (T ++ [es]) -> fits 64 a -> CLH.wf lh ->
  logging (addClusterEntry a lh) s (fun r T' =>
    match Entry.Entry_loc a lh with
    | Ok e => r = Ok tt /\ T' = T ++ [es ++ [e]]
    | Throw x => r = Throw x /\ T' = T ++ [es]
    end).
Proof.
  intros (l & t & L & es' & w & Hh & [-> <-]%app_inj_tail) Ha Hl. unfold logging, addClusterEntry, mbind. rewrite (current_tlog _ _ _ _ _ _ Hh).
  pose proof (TLogWriterFacts.run_op_spec (OpLoc a lh) w es (h_writer Hh) (conj Ha Hl)) as Hr. cbn [run_op TLogWriterFacts.op_accepted TLogWriterFacts.is_entry_op] in Hr.
  destruct (Entry.Entry_loc a lh) as [e|x] eqn:Ee; cbn [is_ok] in Hr.
  - destruct Hr as (w' & Er & e' & Hw' & Ee'). cbn in Ee'. rewrite Ee in Ee'. injection Ee' as <-.
    pose proof (holds_tlog Hh Hw') as Hh1. set (s1 := with_tlog s (uuid t) w') in *.
    pose proof (holds_num (u32 (numTLogEntries_ s1 + 1)) Hh1) as Hh2. set (s2 := set_num _ s1) in *.
    destruct (size_accepted (getClusterSize (vol s2)) Hh2) as (p & Ep). pose proof (holds_size _ _ Hh2 Ep) as Hh3.
    exists (set_sp p s2), (Ok tt), (L ++ [es ++ [e]]). split_and!; [|exact (logs_intro Hh3)|done|done].
    unfold halt_on_error_, halt_rethrow, catch, mbind. rewrite (on_tlog_eq (TLogWriter.add a lh) s (uuid t) w w' (Ok tt) (h_tlog Hh) Er).
    unfold mmodify at 1. fold s1. fold s2. unfold mget at 1, on_sp, mbind, mget, mlift. rewrite Ep. done.
  - destruct Hr as (w' & x' & Er & Hw'). assert (x' = x) as ->.
    { revert Er. unfold add, mbind, mmodify. rewrite TLogWriterFacts.place_eq. clear -Ee. intros Er. rewrite Ee in Er. unfold mlift in Er. repeat case_match; simplify_eq; done. }
    pose proof (holds_tlog Hh Hw') as Hh1. set (s1 := with_tlog s (uuid t) w') in *.
    exists (set_vol (halt (vol s1)) s1), (Throw x), (L ++ [es]). split_and!; [|eapply logs_intro, holds_vol; [exact Hh1|apply halt_frame]|done|done].
    unfold halt_on_error_, halt_rethrow, catch, mbind. by rewrite (on_tlog_eq (TLogWriter.add a lh) s (uuid t) w w' (Throw x) (h_tlog Hh) Er).
Qed.

(** ** Parts of the operations *)
Lemma with_same s i w : currentTLog_ s = Some (i, w) -> files s !! i = Some (file_ w) -> with_tlog s i w = s.
Proof.
  intros Et Ef. unfold with_tlog, set_files, set_tlog. cbn. rewrite <- Et.
  assert (alter (fun _ => file_ w) i (files s) = files s) as ->; [|by destruct s]. apply map_eq. intros j.
  destruct (decide (j = i)) as [->|Hne]; [by rewrite lookup_alter_eq, Ef|by rewrite lookup_alter_ne].
Qed.

Lemma last_location_eq s i w : currentTLog_ s = Some (i, w) -> files s !! i = Some (file_ w) -> last_location s = (s, Ok (getClusterLocation w)).
Proof.
  intros Et Ef. unfold last_location. rewrite (on_tlog_eq (let! w := mget in mret (getClusterLocation w)) s i w w (Ok (getClusterLocation w)) Et) by done.
  by rewrite with_same.
Qed.

(** The entries of a check sum that may be there. *)
Definition crc_entries (maybe_sco_crc : option CheckSum.CheckSum) (new : list Entry.Entry) : Prop :=
  match maybe_sco_crc with
  | Some cs => exists e, new = [e] /\ Entry.type e = Ok Entry.SCOCRC /\ Entry.getCheckSum e = CheckSum.getValue cs
  | None => new = []
  end.

Lemma add_crc_eq i w es maybe_sco_crc : winv w es -> (forall cs, maybe_sco_crc = Some cs -> CheckSum.wf cs) ->
  exists w' new, crc_entries maybe_sco_crc new /\ winv w' (es ++ new) /\
    forall s, currentTLog_ s = Some (i, w) -> files s !! i = Some (file_ w) -> add_maybe_crc maybe_sco_crc s = (with_tlog s i w', Ok tt).
Proof.
  intros Hw Hcs. destruct maybe_sco_crc as [cs|].
  - destruct (TLogWriterFacts.place_crc false cs Entry.SCOCRC w es Hw (Hcs cs eq_refl)) as (w' & e & Ep & Hw' & Hty & Hv & _); [by right|].
    exists w', [e]. split_and!; [by exists e|done|]. intros s Et _. cbn. by apply on_tlog_eq with w.
  - exists w, []. rewrite app_nil_r. split_and!; [done|done|]. intros s Et Ef. cbn. by rewrite with_same.
Qed.

Lemma schedule_eq s i n cs : is_Some (files s !! i) -> scheduleWriteTLogToBackend i n cs s = (add_task (WriteTLog i n cs) s, Ok tt).
Proof. intros Hf. unfold scheduleWriteTLogToBackend, halt_rethrow, catch, mbind, mget. by rewrite bool_decide_true. Qed.

(** Closing the TLog and opening the next, for which [sp] has been prepared. *)
Definition next_state s t es p u d e v w' n : SM V :=
  mkSM p (Some (u, w')) u (maxTLogEntries_ s) 0 (<[u := []]> (<[uuid t := image (es ++ [e])]> (files s))) (Some p)
    (tasks s ++ [WriteTLog (uuid t) n (crc_of (es ++ [e]))]) d v.

Record rolled s l t L es p u d e v w' : Prop := mkRolled {
  r_crc : Entry.isLocation e = false;
  r_close : closeTLog_ (set_drawn d (set_sp p s)) =
    (set_files (<[uuid t := image (es ++ [e])]> (files s)) (set_tlog None (set_drawn d (set_sp p s))), Ok (crc_of (es ++ [e])));
  r_id : forall s', sp s' = p -> update_current_id s' = (set_id u s', Ok tt);
  r_open : forall s', s' = set_id u (set_files (<[uuid t := image (es ++ [e])]> (files s)) (set_tlog None (set_drawn d (set_sp p s)))) ->
    openTLog_ page_size s' = (set_files (<[u := []]> (files s')) (set_tlog (Some (u, w')) (set_num 0 (set_vol v s'))), Ok tt);
  r_holds : forall n, holds (next_state s t es p u d e v w' n) (l ++ [t]) (TLog.make u) (L ++ [es ++ [e]]) [] w' }.

Lemma roll s l t L es w p u k d : holds s l t L es w -> inv p -> flat p = flat (sp s) ++ [TLog.make u] ->
  u = uuid_of k -> (drawn s <= k < d)%nat -> exists e v w', rolled s l t L es p u d e v w'.
Proof.
  intros Hh Hp Ef Eu Hk.
  assert (forall i, i = u -> ~ (i ∈ ids (flat (sp s)) \/ is_Some (files s !! i) \/ exists n cs, WriteTLog i n cs ∈ tasks s)) as Hfresh.
  { intros i -> Hin. destruct (h_drawn Hh _ Hin) as (k' & ? & Ek). rewrite Eu in Ek. apply uuid_inj in Ek. lia. }
  assert (u ∉ ids (flat (sp s))) as Hu by (intros ?; apply (Hfresh u); auto).
  assert (uuid t <> u) as Htu. { intros <-. apply Hu. rewrite (h_flat Hh), ids_app. apply elem_of_app. right. left. }
  assert (files s !! u = None) as Hfu. { destruct (files s !! u) eqn:E; [|done]. destruct (Hfresh u eq_refl). right. left. eauto. }
  destruct (close_eq (set_drawn d (set_sp p s)) (uuid t) w es (h_tlog Hh) (h_writer Hh)) as (e & Hes & Hloc & Ec); [exists (file_ w); exact (h_file Hh)|].
  set (s1 := set_files (<[uuid t := image (es ++ [e])]> (files s)) (set_tlog None (set_drawn d (set_sp p s)))) in *.
  destruct (open_eq page_size page_pos (set_id u s1) []) as (v & w' & Eo & Hw' & Efw & Hv); [done|by constructor|cbn; by rewrite lookup_insert_ne, Hfu|].
  exists e, v, w'. constructor; [done|exact Ec| | |].
  - intros s' <-. rewrite (h_flat Hh) in Ef. exact (update_id_eq s' (l ++ [t]) (TLog.make u) Ef (inv_current _ Hp)).
  - intros s' ->. exact Eo.
  - intros n. eapply (holds_roll page_size uuid_of page_pos uuid_inj s); [exact Hh|try done..]; try reflexivity. exists k. split; [done|exact Eu].
Qed.

Lemma bind_ok {S A B} (m : M S A) (k : A -> M S B) st st' a : m st = (st', Ok a) -> mbind m k st = k a st'.
Proof. intros E. unfold mbind. by rewrite E. Qed.

Lemma halt_rethrow_ok {A} (m : M (SM V) A) s s' a : m s = (s', Ok a) -> halt_rethrow m s = (s', Ok a).
Proof. intros E. unfold halt_rethrow, catch. by rewrite E. Qed.

Lemma flat_newTLog u p : flat (newTLog u p) = flat p ++ [TLog.make u].
Proof. exact (run_effect p (newTLog u p) (OpNewTLog u) eq_refl). Qed.

(** ** Rollover *)
Lemma maybe_switch_log s T es : logs s (T ++ [es]) ->
  exists s' T', maybe_switch_tlog_ page_size uuid_of s = (s', Ok tt) /\ logs s' T' /\
    (T' = T ++ [es] \/ exists e, Entry.isLocation e = false /\ T' = T ++ [es ++ [e]; []]).
Proof.
  intros Hl. pose proof Hl as (l & t & L & es' & w & Hh & [-> <-]%app_inj_tail). unfold maybe_switch_tlog_. erewrite bind_ok by reflexivity.
  destruct (maxTLogEntries_ s <=? numTLogEntries_ s); [|exists s, (L ++ [es]); split_and!; [done|done|by left]].
  destruct (draw_fresh page_pos uuid_inj Hh) as [Hu _].
  destruct (roll s l t L es w (newTLog (uuid_of (drawn s)) (sp s)) _ (drawn s) (S (drawn s)) Hh (inv_newTLog _ _ (h_inv Hh) Hu) (flat_newTLog _ _) eq_refl) as (e & v & w' & R); [lia|].
  erewrite bind_ok by (unfold mlift; rewrite (current_id _ _ _ _ _ _ Hh); reflexivity).
  erewrite bind_ok by exact (last_location_eq _ _ _ (h_tlog Hh) (h_file Hh)).
  erewrite bind_ok by reflexivity. erewrite bind_ok by exact (r_close _ _ _ _ _ _ _ _ _ _ _ R). erewrite bind_ok by (apply (r_id _ _ _ _ _ _ _ _ _ _ _ R); reflexivity).
  erewrite bind_ok by (apply (r_open _ _ _ _ _ _ _ _ _ _ _ R); reflexivity).
  erewrite bind_ok by (apply schedule_eq; cbn; destruct (decide (uuid_of (drawn s) = uuid t)) as [->|]; [rewrite lookup_insert_eq; eauto|rewrite lookup_insert_ne, lookup_insert_eq by done; eauto]).
  eexists _, _. split_and!; [reflexivity|exact (logs_intro (r_holds _ _ _ _ _ _ _ _ _ _ _ R _))|]. right. exists e. split; [apply R|]. by rewrite <- app_assoc.
Qed.

Lemma addSCOCRC_log s T es cs : logs s (T ++ [es]) -> CheckSum.wf cs ->
  exists s' T' e, addSCOCRC page_size uuid_of cs s = (s', Ok tt) /\ logs s' T' /\ Entry.type e = Ok Entry.SCOCRC /\ Entry.getCheckSum e = CheckSum.getValue cs /\
    (T' = T ++ [es ++ [e]] \/ exists e', Entry.isLocation e' = false /\ T' = T ++ [es ++ [e; e']; []]).
Proof.
  intros (l & t & L & es' & w & Hh & [-> <-]%app_inj_tail) Hcs. unfold addSCOCRC. erewrite bind_ok by exact (current_tlog _ _ _ _ _ _ Hh).
  destruct (add_crc_eq (uuid t) w es (Some cs) (h_writer Hh)) as (w' & new & (e & -> & Hty & Hv) & Hw' & Ea); [by intros ? [= <-]|].
  destruct (maybe_switch_log (with_tlog s (uuid t) w') L (es ++ [e])) as (s' & T' & Em & Hl' & HT); [exact (logs_intro (holds_tlog Hh Hw'))|].
  exists s', T', e. split_and!; [|done|done|done|].
  - apply halt_rethrow_ok. erewrite bind_ok by exact (Ea s (h_tlog Hh) (h_file Hh)). exact Em.
  - destruct HT as [->|(e' & He' & ->)]; [by left|]. right. exists e'. split; [done|]. by rewrite <- app_assoc.
Qed.

(** ** Sync *)
Lemma sync_log s T es maybe_sco_crc : logs s (T ++ [es]) -> (forall cs, maybe_sco_crc = Some cs -> CheckSum.wf cs) ->
  exists s' new, sync maybe_sco_crc s = (s', Ok tt) /\ crc_entries maybe_sco_crc new /\ logs s' (T ++ [es ++ new]) /\
    sp s' = sp s /\ snapshots_file s' = snapshots_file s /\ local_file s' (currentTLogId_ s') = Ok (image (es ++ new)).
Proof.
  intros (l & t & L & es' & w & Hh & [-> <-]%app_inj_tail) Hcs. unfold sync. erewrite bind_ok by exact (current_tlog _ _ _ _ _ _ Hh).
  destruct (add_crc_eq (uuid t) w es maybe_sco_crc (h_writer Hh) Hcs) as (w1 & new & Hnew & Hw1 & Ea). pose proof (holds_tlog Hh Hw1) as Hh1.
  destruct (TLogWriterFacts.refresh_inv true w1 _ Hw1) as (w2 & Er & Hw2 & _ & _ & _ & _ & Hz). pose proof (holds_tlog Hh1 Hw2) as Hh2.
  exists (with_tlog (with_tlog s (uuid t) w1) (uuid t) w2), new. split_and!; [|done|exact (logs_intro Hh2)|done|done|].
  - apply halt_rethrow_ok. erewrite bind_ok by exact (Ea s (h_tlog Hh) (h_file Hh)). by apply on_tlog_eq with w1.
  - unfold local_file. rewrite (h_id Hh2), (h_file Hh2). destruct Hw2 as (Hc & _). unfold TLogWriterFacts.contents in Hc. rewrite Hz, take_0, app_nil_r in Hc by done. by rewrite Hc.
Qed.

(** ** Snapshots *)
Lemma refused_snapshot s l t L es w nm maybe_sco_crc md g sc now x : holds s l t L es w ->
  snapshot (sp s) nm md g sc now (uuid_of (drawn s)) (uuid_of (S (drawn s))) = Throw x ->
  createSnapshot page_size uuid_of nm maybe_sco_crc md g sc now s = (s, Throw x) /\ (x = SnapshotNameAlreadyExists \/ x = ExcessiveMetaDataException).
Proof.
  intros Hh Es. assert (x = SnapshotNameAlreadyExists \/ x = ExcessiveMetaDataException) as Hx. { revert Es. unfold snapshot. repeat case_match; intros [= <-]; auto. }
  split; [|done]. unfold createSnapshot, catch, mbind, mget, mlift, on_sp. rewrite (current_id _ _ _ _ _ _ Hh). unfold mbind, mget, mlift. rewrite Es. by destruct Hx as [-> | ->].
Qed.

Lemma createSnapshot_log s T es nm maybe_sco_crc md g sc now p : logs s (T ++ [es]) ->
  (forall cs, maybe_sco_crc = Some cs -> CheckSum.wf cs) -> Forall (fun n => n < 2 ^ 64 - 1) (nums (snapshots (sp s))) ->
  snapshot (sp s) nm md g sc now (uuid_of (drawn s)) (uuid_of (S (drawn s))) = Ok p ->
  exists s' new e, createSnapshot page_size uuid_of nm maybe_sco_crc md g sc now s = (s', Ok tt) /\ crc_entries maybe_sco_crc new /\
    Entry.isLocation e = false /\ sp s' = p /\ logs s' (T ++ [es ++ new ++ [e]; []]).
Proof.
  intros (l & t & L & es' & w & Hh & [-> <-]%app_inj_tail) Hcs Hn Es. destruct (draw_fresh page_pos uuid_inj Hh) as [Hu _].
  destruct (add_crc_eq (uuid t) w es maybe_sco_crc (h_writer Hh) Hcs) as (w1 & new & Hnew & Hw1 & Ea). pose proof (holds_tlog Hh Hw1) as Hh1. set (s1 := with_tlog s (uuid t) w1) in *.
  assert (uuid_of (S (drawn s)) ∉ ids (flat (sp s))) as Hu'. { intros Hi. destruct (h_drawn Hh _ (or_introl Hi)) as (k & ? & Ek%uuid_inj). lia. }
  pose proof (inv_snapshot _ _ _ _ _ _ _ _ _ (h_inv Hh) Hu' Hn Es) as Hp. pose proof (run_effect _ _ (OpSnapshot _ _ _ _ _ _ _) Es) as Ef. cbn in Ef.
  destruct (roll s1 l t L (es ++ new) w1 p (uuid_of (S (drawn s))) (S (drawn s)) (S (S (drawn s))) Hh1 Hp Ef eq_refl) as (e & v & w' & R); [cbn; lia|].
  assert (exists n, getSnapshotNum p nm = Ok n) as (n & En).
  { apply snapshot_split in Es as (Hni & x & Ess & Ename & _). unfold getSnapshotNum, getSnapshot. rewrite Ess, getSnapshot_app; [eexists; reflexivity| |by apply bool_decide_true].
    apply Forall_forall. intros y Hy. apply bool_decide_false. intros Ey. apply Hni. apply list_elem_of_fmap. by exists y. }
  exists (next_state s1 t (es ++ new) p (uuid_of (S (drawn s))) (S (S (drawn s))) e v w' (ClusterLocation.sco_ (getClusterLocation w))), new, e.
  split_and!; [|done|apply R|done|]; [|pose proof (logs_intro (r_holds _ _ _ _ _ _ _ _ _ _ _ R (ClusterLocation.sco_ (getClusterLocation w)))) as Hl; rewrite <- !app_assoc in Hl; exact Hl].
  unfold createSnapshot, catch. erewrite bind_ok by reflexivity. erewrite bind_ok by (unfold mlift; rewrite (current_id _ _ _ _ _ _ Hh); reflexivity).
  erewrite bind_ok by (unfold on_sp, mbind, mget, mlift; rewrite Es; reflexivity). erewrite bind_ok by reflexivity.
  erewrite bind_ok by (apply last_location_eq with (uuid t); [exact (h_tlog Hh)|exact (h_file Hh)]).
  erewrite bind_ok by (apply Ea; [exact (h_tlog Hh)|exact (h_file Hh)]).
  erewrite bind_ok by exact (r_close _ _ _ _ _ _ _ _ _ _ _ R). erewrite bind_ok by (apply (r_id _ _ _ _ _ _ _ _ _ _ _ R); reflexivity).
  erewrite bind_ok by (apply (r_open _ _ _ _ _ _ _ _ _ _ _ R); reflexivity). erewrite bind_ok by reflexivity. erewrite bind_ok by reflexivity.
  erewrite bind_ok by (unfold mlift; cbn; rewrite En; reflexivity).
  rewrite schedule_eq; [reflexivity|]. cbn. destruct (decide (uuid_of (S (drawn s)) = uuid t)) as [->|]; [rewrite lookup_insert_eq; eauto|rewrite lookup_insert_ne, lookup_insert_eq by done; eauto].
Qed.

Lemma scheduleBackendSync_log s T es maybe_sco_crc : logs s (T ++ [es]) -> (forall cs, maybe_sco_crc = Some cs -> CheckSum.wf cs) ->
  exists s' new e, scheduleBackendSync page_size uuid_of maybe_sco_crc s = (s', Ok (currentTLogId_ s)) /\ crc_entries maybe_sco_crc new /\
    Entry.isLocation e = false /\ sp s' = newTLog (uuid_of (drawn s)) (sp s) /\ logs s' (T ++ [es ++ new ++ [e]; []]).
Proof.
  intros (l & t & L & es' & w & Hh & [-> <-]%app_inj_tail) Hcs. destruct (draw_fresh page_pos uuid_inj Hh) as [Hu _].
  destruct (add_crc_eq (uuid t) w es maybe_sco_crc (h_writer Hh) Hcs) as (w1 & new & Hnew & Hw1 & Ea). pose proof (holds_tlog Hh Hw1) as Hh1. set (s1 := with_tlog s (uuid t) w1) in *.
  destruct (roll s1 l t L (es ++ new) w1 (newTLog (uuid_of (drawn s)) (sp s)) _ (drawn s) (S (drawn s)) Hh1 (inv_newTLog _ _ (h_inv Hh) Hu) (flat_newTLog _ _) eq_refl) as (e & v & w' & R); [cbn; lia|].
  assert (currentTLogId_ s <> 0) as H0. { rewrite (h_id Hh). destruct (h_drawn Hh (uuid t)) as (k & _ & ->); [left; rewrite (h_flat Hh), ids_app; apply elem_of_app; right; left|apply uuid_not_null]. }
  exists (next_state s1 t (es ++ new) (newTLog (uuid_of (drawn s)) (sp s)) (uuid_of (drawn s)) (S (drawn s)) e v w' (ClusterLocation.sco_ (getClusterLocation w1))), new, e.
  split_and!; [|done|apply R|done|]; [|pose proof (logs_intro (r_holds _ _ _ _ _ _ _ _ _ _ _ R (ClusterLocation.sco_ (getClusterLocation w1)))) as Hl; rewrite <- !app_assoc in Hl; exact Hl].
  unfold scheduleBackendSync. erewrite bind_ok; [by rewrite (proj2 (Z.eqb_neq _ _) H0)|]. apply halt_rethrow_ok.
  erewrite bind_ok by reflexivity. erewrite bind_ok by (unfold mlift; rewrite (current_id _ _ _ _ _ _ Hh); reflexivity).
  erewrite bind_ok by (rewrite (h_id Hh), Z.eqb_refl; reflexivity). erewrite bind_ok by reflexivity.
  erewrite bind_ok by (apply Ea; [exact (h_tlog Hh)|exact (h_file Hh)]).
  erewrite bind_ok by (apply last_location_eq with (uuid t); [exact (h_tlog Hh1)|exact (h_file Hh1)]).
  erewrite bind_ok by exact (r_close _ _ _ _ _ _ _ _ _ _ _ R). erewrite bind_ok by (apply (r_id _ _ _ _ _ _ _ _ _ _ _ R); reflexivity).
  erewrite bind_ok by (apply (r_open _ _ _ _ _ _ _ _ _ _ _ R); reflexivity). erewrite bind_ok by reflexivity.
  erewrite bind_ok; [rewrite (h_id Hh); reflexivity|]. rewrite (h_id Hh), schedule_eq; [reflexivity|]. cbn.
  destruct (decide (uuid_of (drawn s) = uuid t)) as [->|]; [rewrite lookup_insert_eq; eauto|rewrite lookup_insert_ne, lookup_insert_eq by done; eauto].
Qed.

(** ** Changes of [sp] that keep the TLogs *)
Lemma holds_sp {s l t L es w} p l' : holds s l t L es w -> inv p -> flat p = l' ++ [t] -> ids l' = ids l ->
  holds (set_snapshots (Some p) (set_sp p s)) l' t L es w.
Proof.
  intros [? Hf ? ? ? ? ? Hc Hd ? ?] Hp Ef Ei. constructor; cbn; try done.
  - clear -Hc Ei. revert l' Ei. induction Hc as [|x y l k Hxy Hc IH]; intros [|x' l'] Ei; try done; constructor.
    + destruct Hxy as [? Hi]. split; [done|]. unfold tlog_image in *. cbn. injection Ei as -> _. done.
    + apply IH. by injection Ei.
  - intros i Hi. apply Hd. rewrite Hf, ids_app, <- Ei, <- ids_app, <- Ef. done.
  - exists p. by split_and!.
Qed.

(** An operation on [sp] that leaves the TLogs alone, and is saved. *)
Lemma regrouped_log s T f p : logs s T -> f (sp s) = Ok p -> inv p -> flat p = flat (sp s) ->
  logs (add_task WriteSnapshot (set_snapshots (Some p) (set_sp p s))) T.
Proof.
  intros (l & t & L & es & w & Hh & ->) Ef Hp Efl. eapply logs_intro, holds_snapshot_task, holds_sp; [exact Hh|done| |done]. by rewrite Efl, (h_flat Hh).
Qed.

Lemma deleteSnapshot_log s T nm : logs s T ->
  exists s' r, deleteSnapshot nm s = (s', r) /\ logs s' T /\
    (s' = s /\ is_ok r = false \/ r = Ok tt /\ exists n, getSnapshotNum (sp s) nm = Ok n /\ SnapshotPersistor.deleteSnapshot (sp s) n = Ok (sp s')).
Proof.
  intros Hl. pose proof Hl as (l & t & L & es & w & Hh & E). unfold deleteSnapshot, mbind, on_sp, mbind, mget, mlift.
  destruct (getSnapshotNum (sp s) nm) as [n|x] eqn:En; cbn [rbind]; [|exists s, (Throw x); split_and!; [done|done|by left]].
  destruct (SnapshotPersistor.deleteSnapshot (sp s) n) as [p|x] eqn:Ed; [|exists s, (Throw x); split_and!; [done|done|by left]].
  exists (add_task WriteSnapshot (set_snapshots (Some p) (set_sp p s))), (Ok tt). split_and!; [done| |right; eauto].
  eapply (regrouped_log _ _ (fun q => SnapshotPersistor.deleteSnapshot q n)); [done|done|by eapply inv_delete; [exact (h_inv Hh)|]|].
  exact (run_effect _ _ (OpDelete n) Ed).
Qed.

Lemma new_scrub_id_log s T : logs s T -> exists s', new_scrub_id uuid_of s = (s', Ok (uuid_of (drawn s))) /\ logs s' T /\ scrub_id_ (sp s') = uuid_of (drawn s) /\ snapshots (sp s') = snapshots (sp s).
Proof.
  intros (l & t & L & es & w & Hh & ->). set (p := mkSP (current (sp s)) (snapshots (sp s)) (parent_ (sp s)) (uuid_of (drawn s))).
  exists (add_task WriteSnapshot (set_snapshots (Some p) (set_sp p (set_drawn (S (drawn s)) s)))). split_and!; [done| |done|done].
  eapply logs_intro, holds_snapshot_task, (holds_sp p l); [|by destruct (h_inv Hh)|exact (h_flat Hh)|done].
  eapply holds_frame; [exact Hh|try done..]. cbn. by apply Nat.le_succ_diag_r.
Qed.

(** ** The way to the backend *)
Lemma holds_forget {s l t L es w} i : holds s l t L es w -> i <> uuid t -> (forall f, files s !! i = Some f -> backend_read (vol s) i = Ok f) ->
  holds (set_files (delete i (files s)) s) l t L es w.
Proof.
  intros [? ? ? ? ? ? Hf Hc Hd Ht ?] Hne Hb. constructor; cbn; try done.
  - by rewrite lookup_delete_ne.
  - eapply Forall2_impl; [exact Hc|]. intros x y [? Hi]. split; [done|]. unfold tlog_image in *. cbn.
    destruct (decide (i = uuid x)) as [->|]; [|by rewrite lookup_delete_ne]. rewrite lookup_delete_eq. destruct (files s !! uuid x) eqn:E; [|done]. by rewrite (Hb _ eq_refl).
  - intros j Hj. apply Hd. destruct Hj as [|[[f Hj]|]]; [by left| |by right; right]. right. left. apply lookup_delete_Some in Hj as [_ Hj]. eauto.
  - intros j n cs Hj. destruct (Ht _ _ _ Hj) as [? Hcs]. split; [done|]. intros f [_ Hf']%lookup_delete_Some. eauto.
Qed.

Lemma set_written s l t L es w i p : holds s l t L es w -> i <> uuid t -> SnapshotPersistor.setTLogWrittenToBackend (sp s) i true = Ok p ->
  exists l', inv p /\ flat p = l' ++ [t] /\ ids l' = ids l.
Proof.
  intros Hh Hne Ep. pose proof (inv_written _ _ _ (h_inv Hh) Ep) as Hp. pose proof (set_flat (sp s) i true) as Hs. pose proof (set_true_exact i (flat (sp s))) as Hl.
  destruct (TLogs.setTLogWrittenToBackend (flat (sp s)) i true) as [[f fl]|]; [|congruence]. destruct Hs as (q & Eq & <- & _). rewrite Ep in Eq. injection Eq as <-.
  rewrite (h_flat Hh) in Hl. destruct Hl as [(l1 & x & l2 & El & <- & _ & E)|(_ & Hw & E)].
  - destruct l2 as [|y l2 _] using rev_ind; [apply app_inj_tail in El as [_ ->]; done|]. rewrite app_comm_cons, app_assoc in El. apply app_inj_tail in El as [-> ->].
    exists (l1 ++ set_writtenToBackend true x :: l2). split_and!; [done|by rewrite E, <- app_assoc|]. rewrite !ids_app. done.
  - exists l. split_and!; done.
Qed.

(** A call of the volume that halts it when it fails. *)
Lemma halting_log (m : M V unit) s l t L es w s' r : holds s l t L es w -> (forall v j, backend_read (fst (m v)) j = backend_read v j) ->
  halt_rethrow (on_vol m) s = (s', r) ->
  holds s' l t L es w /\ files s' = files s /\ sp s' = sp s /\ forall j, backend_read (vol s') j = backend_read (vol s) j.
Proof.
  intros Hh Fm. unfold halt_rethrow, catch, on_vol. specialize (Fm (vol s)). destruct (m (vol s)) as [v [a|x]]; cbn [fst] in Fm; unfold halt_, mbind, mmodify, mthrow; intros [= <- <-].
  - split_and!; [by apply holds_vol|done|done|done].
  - assert (forall j, backend_read (halt v) j = backend_read (vol s) j) as Fh by (intros j; rewrite halt_frame; apply Fm). split_and!; [by apply (holds_vol (s := s))|done|done|done].
Qed.

(** The last part of the callback, in which nothing matters. *)
Lemma trimming_log s l t L es w i n : holds s l t L es w -> i <> uuid t -> (forall f, files s !! i = Some f -> backend_read (vol s) i = Ok f) ->
  exists s', ignore_errors (mmodify (fun s => set_files (delete i (files s)) s) ;! (if SCO.asBool n then on_vol (removeUpToFromFailOverCache n) else mret tt) ;! on_vol (checkState i)) s = (s', Ok tt) /\
    holds s' l t L es w.
Proof.
  intros Hh Hne Hb. pose proof (holds_forget i Hh Hne Hb) as H4. set (s4 := set_files _ s) in *. unfold ignore_errors, catch, mbind, mmodify. fold s4.
  assert (exists s5 r5, (if SCO.asBool n then on_vol (removeUpToFromFailOverCache n) else mret tt) s4 = (s5, r5) /\ holds s5 l t L es w) as (s5 & r5 & -> & H5).
  { destruct (SCO.asBool n); [|by exists s4, (Ok tt)]. unfold on_vol. pose proof (remove_frame n (vol s4)) as Fm. destruct (removeUpToFromFailOverCache n (vol s4)) as [v5 r5]. exists (set_vol v5 s4), r5. split; [done|]. by apply holds_vol. }
  destruct r5 as [[]|x]; [|by exists s5]. unfold on_vol. pose proof (check_frame i (vol s5)) as Fm. destruct (checkState i (vol s5)) as [v6 [[]|x]]; exists (set_vol v6 s5); (split; [done|by apply holds_vol]).
Qed.

(** Whatever fails, the log is kept, if the TLog is in the backend. *)
Lemma callback_log s T i n : logs s T -> i <> currentTLogId_ s -> (forall f, files s !! i = Some f -> backend_read (vol s) i = Ok f) ->
  logging (tlogWrittenToBackendCallback i n) s (fun _ T' => T' = T).
Proof.
  intros (l & t & L & es & w & Hh & ->) Hne Hb. rewrite (h_id Hh) in Hne. unfold logging, tlogWrittenToBackendCallback. erewrite bind_ok by reflexivity.
  destruct (SnapshotPersistor.setTLogWrittenToBackend (sp s) i true) as [p|x] eqn:Ep; [|exists s, (Throw x), (L ++ [es]); split_and!; [done|exact (logs_intro Hh)|done]].
  erewrite bind_ok by reflexivity. destruct (set_written _ _ _ _ _ _ _ _ Hh Hne Ep) as (l' & Hp & Ef & Ei).
  assert (forall s1, holds s1 l t L es w \/ holds s1 l' t L es w -> logs s1 (L ++ [es])) as Hlog by (intros s1 [Hs1|Hs1]; exact (logs_intro Hs1)).
  unfold mbind at 1, on_vol at 1. pose proof (snapshots_frame p (vol s)) as Fr. destruct (backend_write_snapshots p (vol s)) as [v1 [[]|x]]; cbn [fst] in Fr;
    [|eexists _, _, _; split_and!; [reflexivity|apply Hlog; left; by apply holds_vol|done]].
  assert (holds (set_snapshots (Some p) (set_sp p (set_vol v1 s))) l' t L es w) as H1 by (eapply holds_sp; [by apply holds_vol|done|done|done]).
  erewrite bind_ok; [|apply halt_rethrow_ok; erewrite bind_ok; [reflexivity|unfold on_sp; erewrite bind_ok by reflexivity; unfold mbind, mlift; cbn [sp set_vol]; rewrite Ep; reflexivity]].
  cbv beta. set (s1 := set_snapshots _ _) in *. change (set_snapshots (Some (sp (set_sp p (set_vol v1 s)))) (set_sp p (set_vol v1 s))) with s1.
  assert (exists s2 r, halt_rethrow (if SCO.asBool n then on_vol (writtenToBackendUpTo n) else mret tt) s1 = (s2, r) /\ holds s2 l' t L es w /\ files s2 = files s /\ sp s2 = p /\
    (forall j, backend_read (vol s2) j = backend_read (vol s) j)) as (s2 & r2 & E2 & H2 & F2 & P2 & B2).
  { destruct (SCO.asBool n); [|exists s1, (Ok tt); by split_and!]. destruct (halt_rethrow (on_vol (writtenToBackendUpTo n)) s1) as [s2 r2] eqn:E2. exists s2, r2.
    destruct (halting_log _ _ _ _ _ _ _ _ _ H1 (written_frame n) E2) as (? & -> & -> & B). split_and!; try done. intros j. rewrite B. apply Fr. }
  unfold mbind at 1. rewrite E2. destruct r2 as [[]|x]; [|eexists _, _, _; split_and!; [reflexivity|apply Hlog; by right|done]].
  unfold mbind at 1. destruct (halt_rethrow (on_vol (unCorkAndTrySync i)) s2) as [s3 r3] eqn:E3. destruct (halting_log _ _ _ _ _ _ _ _ _ H2 (uncork_frame i) E3) as (H3 & F3 & P3 & B3).
  destruct r3 as [[]|x]; [|eexists _, _, _; split_and!; [reflexivity|apply Hlog; by right|done]].
  destruct (trimming_log s3 l' t L es w i n H3 Hne) as (s5 & E5 & H5); [rewrite F3, F2; intros f Hf; rewrite B3, B2; by apply Hb|].
  rewrite (bind_ok _ _ _ _ _ E5). unfold mbind, mget. destruct (SnapshotPersistor.isTLogWrittenToBackend (sp s5) i); eexists _, _, _; (split_and!; [reflexivity|apply Hlog; by right|done]).
Qed.

Lemma holds_stored {s l t L es w} v : holds s l t L es w -> (forall j, files s !! j = None -> backend_read v j = backend_read (vol s) j) -> holds (set_vol v s) l t L es w.
Proof.
  intros [? ? ? ? ? ? ? Hc ? ? ?] Hv. constructor; cbn; try done. eapply Forall2_impl; [exact Hc|]. intros x y [? Hi]. split; [done|].
  unfold tlog_image in *. cbn. destruct (files s !! uuid x) eqn:E; [done|]. by rewrite Hv.
Qed.

(** A task that was scheduled may run at any time, any number of times. *)
Lemma task_log s T tk : logs s T -> tk ∈ tasks s -> logging (run_task tk) s (fun _ T' => T' = T).
Proof.
  intros (l & t & L & es & w & Hh & ->) Htk. unfold logging. destruct tk as [i n cs|]; cbn [run_task].
  - destruct (h_tasks Hh _ _ _ Htk) as [Hne _]. unfold run_WriteTLog, catch. rewrite (bind_ok mget _ s s s eq_refl). unfold mbind, on_vol.
    pose proof (fun j => write_frame i (files s !! i) cs (vol s) j) as Fr. pose proof (fun f v => write_stores i f cs (vol s) v) as St. pose proof (write_nothing i cs (vol s)) as No.
    destruct (backend_write i (files s !! i) cs (vol s)) as [v r] eqn:Ew. cbn [fst] in Fr.
    assert (holds (set_vol v s) l t L es w) as H1.
    { apply holds_stored; [done|]. intros j Hj. destruct (decide (j = i)) as [->|]; [|by apply Fr]. rewrite Hj in Ew. rewrite Ew in No. by destruct No as (? & _ & ?). }
    assert (forall s1, logs s1 (L ++ [es]) -> logs (set_vol (halt (vol s1)) s1) (L ++ [es])) as Hhalt.
    { intros s1 (l1 & t1 & L1 & es1 & w1 & Hh1 & ->). eapply logs_intro, holds_vol; [exact Hh1|apply halt_frame]. }
    assert (exists s2 r2, (match r with Ok _ => tlogWrittenToBackendCallback i n (set_vol v s) | Throw e => (set_vol v s, Throw e) end) = (s2, r2) /\ logs s2 (L ++ [es])) as (s2 & r2 & E2 & H2).
    { destruct r as [[]|x]; [|exists (set_vol v s), (Throw x); split; [done|exact (logs_intro H1)]].
      destruct (callback_log (set_vol v s) (L ++ [es]) i n (logs_intro H1)) as (s2 & r2 & T' & E & Hl & ->); [by rewrite (h_id H1)| |eauto].
      intros f Hf. cbn in Hf |- *. rewrite Hf in Ew. by eapply St. }
    assert (exists s3 r3, match r2 with Ok a => (s2, Ok a) | Throw e => (match e with
        | OwnerTagMismatchException | BackendAssertionFailedException => halt_
        | BackendInputException => let! s := mget in if bool_decide (is_Some (files s !! i)) then halt_ ;! mthrow e else mret tt
        | _ => mthrow e end) s2 end = (s3, r3) /\ logs s3 (L ++ [es])) as (s3 & r3 & E3 & H3);
      [|exists s3, r3, (L ++ [es]); split_and!; [|done|done]; destruct r as [[]|x]; [by rewrite E2|by injection E2 as <- <-]].
    destruct r2 as [[]|y]; [by eexists _, _|].
    unfold halt_, mbind, mmodify, mthrow, mret, mget;
    destruct y; try (by eexists _, _; split_and!; [reflexivity|done]); try (by eexists _, _; split_and!; [reflexivity|apply Hhalt, H2]);
    destruct (bool_decide (is_Some (files s2 !! i))); (by eexists _, _; split_and!; [reflexivity|first [exact H2|apply Hhalt, H2]]).
  - unfold run_WriteSnapshot, catch. rewrite (bind_ok mget _ s s s eq_refl). unfold on_vol. pose proof (snapshots_frame (sp s) (vol s)) as Fr.
    destruct (backend_write_snapshots (sp s) (vol s)) as [v r]. cbn [fst] in Fr. pose proof (holds_vol v Hh Fr) as H1.
    assert (holds (set_vol (halt v) (set_vol v s)) l t L es w) as H2 by (apply holds_vol; [done|apply halt_frame]).
    destruct r as [[]|x]; [by eexists _, _, _; split_and!; [reflexivity|exact (logs_intro H1)|]|].
    destruct x; try (by eexists _, _, _; split_and!; [reflexivity|exact (logs_intro H1)|]). by eexists _, _, _; split_and!; [reflexivity|exact (logs_intro H2)|].
Qed.

(** ** Restoring *)
Lemma deleted_lookup (fs : gmap TLogId (list Z)) k j : foldl (fun fs i => delete i fs) fs k !! j = if bool_decide (j ∈ k) then None else fs !! j.
Proof.
  revert fs. induction k as [|i k IH]; intros fs; [done|]. cbn [foldl]. rewrite IH. destruct (decide (j = i)) as [->|Hne].
  - rewrite lookup_delete_eq, (bool_decide_true (i ∈ i :: k)) by left. by case_bool_decide.
  - rewrite lookup_delete_ne by done. rewrite (bool_decide_ext (j ∈ i :: k) (j ∈ k)); [done|]. rewrite elem_of_cons. intuition.
Qed.

(** What [holds] says after a restore, in which [m] and the current TLog are dropped. *)
Lemma holds_restored s s' l m t L1 L2 es w w' u f dropped : holds s (l ++ m) t (L1 ++ L2) es w -> length L1 = length l ->
  inv (sp s') -> flat (sp s') = l ++ [TLog.make u] -> u = uuid_of (drawn s) -> drawn s' = S (drawn s) ->
  currentTLogId_ s' = u -> currentTLog_ s' = Some (u, w') -> winv w' [] -> file_ w' = [] ->
  files s' = foldl (fun fs i => delete i fs) (<[u := []]> (<[uuid t := f]> (files s))) dropped ->
  dropped = ids (m ++ [t]) -> tasks s' = tasks s ++ [WriteSnapshot] -> snapshots_file s' = Some (sp s') ->
  (forall i, backend_read (vol s') i = backend_read (vol s) i) ->
  holds s' l (TLog.make u) L1 [] w'.
Proof.
  intros Hh Hlen Hi Ef Eu Ed E1 E2 Hw' Efw E3 Edr E5 E4 Hv. pose proof (inv_ids _ (h_inv Hh)) as Hn. rewrite (h_flat Hh), <- app_assoc, ids_app in Hn.
  apply NoDup_app in Hn as (Hnl & Hdis & _). rewrite <- Edr in Hdis.
  assert (forall i, i = u -> ~ (i ∈ ids (flat (sp s)) \/ is_Some (files s !! i) \/ exists n cs, WriteTLog i n cs ∈ tasks s)) as Hfresh.
  { intros i -> Hin. destruct (h_drawn Hh _ Hin) as (k' & ? & Ek). rewrite Eu in Ek. apply uuid_inj in Ek. lia. }
  assert (ids (flat (sp s)) = ids l ++ dropped) as Eids by (by rewrite (h_flat Hh), <- app_assoc, ids_app, Edr).
  assert (u ∉ dropped) as Hud by (intros ?; apply (Hfresh u eq_refl); left; rewrite Eids; apply elem_of_app; by right).
  assert (uuid t ∈ dropped) as Htd by (rewrite Edr, ids_app; apply elem_of_app; right; left).
  assert (forall j, j ∉ dropped -> j <> u -> files s' !! j = files s !! j) as Hfs.
  { intros j Hj Hju. rewrite E3, deleted_lookup, bool_decide_false, !lookup_insert_ne by (done || intros <-; done). done. }
  constructor; try done.
  - cbn. by rewrite E3, deleted_lookup, bool_decide_false, lookup_insert_eq, Efw.
  - pose proof (h_closed Hh) as Hc. apply Forall2_app_inv in Hc as [Hc _]; [|done]. eapply Forall2_elem_impl; [exact Hc|]. intros x y Hx [? Hi']. split; [done|].
    assert (uuid x ∈ ids l) as Hxl by (by apply list_elem_of_fmap; exists x).
    unfold tlog_image in *. rewrite Hfs; [by case_match; [|rewrite Hv]|by apply Hdis|]. intros Eq. apply (Hfresh u eq_refl). left. rewrite Eids, <- Eq. apply elem_of_app. by left.
  - intros i Hin. rewrite Ed. assert (i = u \/ i ∈ ids (flat (sp s)) \/ is_Some (files s !! i) \/ exists n cs, WriteTLog i n cs ∈ tasks s) as [->|Hin'].
    { rewrite Ef, ids_app, E5 in Hin. destruct Hin as [Hin|[Hin|(m' & cs & Hin)]].
      - apply elem_of_app in Hin as [|Hin]; [right; left; rewrite Eids; apply elem_of_app; by left|]. left. by apply list_elem_of_singleton in Hin.
      - destruct (decide (i = u)) as [|Hne]; [by left|]. destruct (decide (i ∈ dropped)) as [Hid|Hid]; [right; left; rewrite Eids; apply elem_of_app; by right|].
        right. right. left. by rewrite Hfs in Hin.
      - apply elem_of_app in Hin as [|Hin]; [right; eauto 8|]. by apply list_elem_of_singleton in Hin. }
    + exists (drawn s). split; [lia|done].
    + destruct (h_drawn Hh _ Hin') as (k' & ? & ->). exists k'. split; [lia|done].
  - intros i n cs Hin. rewrite E5 in Hin. apply elem_of_app in Hin as [Hin|Hin]; [|by apply list_elem_of_singleton in Hin]. destruct (h_tasks Hh _ _ _ Hin) as [Hne Hcs].
    assert (i <> u) as Hiu by (intros ->; apply (Hfresh u eq_refl); eauto 8). split; [done|]. intros g Hg. destruct (decide (i ∈ dropped)) as [Hid|Hid].
    + rewrite E3, deleted_lookup, bool_decide_true in Hg by done. done.
    + rewrite Hfs in Hg by done. eauto.
  - exists (sp s'). by split_and!.
Qed.

Lemma app_snoc_inv {A} (a b l : list A) x : a ++ b = l ++ [x] -> b <> [] -> exists c, b = c ++ [x] /\ l = a ++ c.
Proof.
  intros E Hb. destruct b as [|y b _] using rev_ind; [done|]. rewrite app_assoc in E. apply app_inj_tail in E as [<- ->]. by exists b.
Qed.

Lemma erase_log s T num : logs s T ->
  (exists x, eraseSnapshotsAndTLogsAfterSnapshot page_size uuid_of num s = (s, Throw x) /\ snapshotExists_num (sp s) num = false) \/
  exists s' a x b, eraseSnapshotsAndTLogsAfterSnapshot page_size uuid_of num s = (s', Ok tt) /\
    snapshots (sp s) = a ++ x :: b /\ Snapshot.num x = num /\ snapshots (sp s') = a ++ [x] /\ logs s' (take (length (flats (a ++ [x]))) T ++ [[]]).
Proof.
  intros (l & t & L & es & w & Hh & ->). unfold eraseSnapshotsAndTLogsAfterSnapshot. rewrite (bind_ok mget _ s s s eq_refl).
  destruct (snapshotExists_num (sp s) num) eqn:Hex.
  - right. destruct (draw_fresh page_pos uuid_inj Hh) as [Hu Hfu]. set (u := uuid_of (drawn s)) in *.
    destruct (deleteTLogsAndSnapshotsAfterSnapshot (sp s) num u) as [p|x] eqn:Ed.
    2: { exfalso. revert Ed Hex. unfold deleteTLogsAndSnapshotsAfterSnapshot, Snapshots.deleteTLogsAndSnapshotsAfterSnapshot, snapshotExists_num, Snapshots.snapshotExists_num, Snapshots.exists_, Snapshots.find_or_throw_.
         destruct (Snapshots.find_ _ _); cbn; done. }
    pose proof (inv_restore _ _ _ _ (h_inv Hh) Hu Ed) as Hp. destruct (restore_effect _ _ _ _ Ed) as (a & x & b & Ess & En & Ess' & Efl & Efl').
    assert (getTLogsAfterSnapshot (sp s) num [] = Ok (ids (flats b ++ current (sp s)))) as Ea.
    { unfold getTLogsAfterSnapshot. pose proof (inv_nums _ (h_inv Hh)) as Hs. rewrite Ess in Hs |- *. destruct (sorted_mid _ _ _ Hs) as (_ & Hb & _). rewrite <- En, after_spec by done. cbn. by rewrite ids_app. }
    destruct (app_snoc_inv (flats (a ++ [x])) (flats b ++ current (sp s)) l t) as (m & Em & ->); [by rewrite <- Efl, (h_flat Hh)|intros [_ ?]%app_nil; by apply (inv_current _ (h_inv Hh))|].
    set (s1 := set_drawn (S (drawn s)) (set_sp p s)).
    destruct (close_eq s1 (uuid t) w es (h_tlog Hh) (h_writer Hh)) as (e & Hes & _ & Ec); [exists (file_ w); exact (h_file Hh)|].
    change (files s1) with (files s) in Ec. set (s2 := set_files (<[uuid t := image (es ++ [e])]> (files s)) (set_tlog None s1)) in *.
    destruct (open_eq page_size page_pos (set_id u s2) []) as (v & w' & Eo & Hw' & Efw & Hv); [done|by constructor| |].
    { change (currentTLogId_ (set_id u s2)) with u. change (files (set_id u s2)) with (<[uuid t := image (es ++ [e])]> (files s)). destruct (decide (u = uuid t)) as [Eut|]; [|rewrite lookup_insert_ne by done; transitivity (from_option id [] (@None (list Z))); [f_equal; exact Hfu|done]].
      exfalso. apply Hu. rewrite Eut, (h_flat Hh), ids_app. apply elem_of_app. right. left. }
    set (s3 := set_files (<[u := []]> (files s2)) (set_tlog (Some (u, w')) (set_num 0 (set_vol v (set_id u s2))))) in *.
    set (s4 := add_task WriteSnapshot (set_files (foldl (fun fs i => delete i fs) (files s3) (ids (m ++ [t]))) (set_snapshots (Some p) s3))).
    pose proof (h_closed Hh) as Hc. apply Forall2_app_inv_l in Hc as (L1 & L2 & Hc1 & Hc2 & ->). apply Forall2_length in Hc1.
    exists s4, a, x, b. split_and!; [|done|done|done|].
    + erewrite bind_ok by (unfold mlift; rewrite Ea; reflexivity). erewrite bind_ok by (unfold on_sp, mbind, mget, mlift; rewrite Ed; reflexivity). erewrite bind_ok by reflexivity.
      erewrite bind_ok. 2: { unfold maybeCloseTLog_. erewrite bind_ok by reflexivity. cbn [currentTLog_ set_drawn set_sp]. rewrite (h_tlog Hh), bool_decide_true by eauto. erewrite bind_ok by exact Ec. reflexivity. }
      erewrite bind_ok by (apply (update_id_eq _ (flats (a ++ [x])) (TLog.make u)); [exact Efl'|exact (inv_current _ Hp)]). erewrite bind_ok by exact Eo.
      rewrite Em. reflexivity.
    + rewrite Hc1, <- app_assoc, take_app_length. eapply logs_intro. eapply (holds_restored s s4 (flats (a ++ [x])) m t L1 L2 es w w' u (image (es ++ [e])) (ids (m ++ [t]))); done.
  - left. assert (exists x, getTLogsAfterSnapshot (sp s) num [] = Throw x) as (x & Ex).
    { unfold getTLogsAfterSnapshot. apply not_true_iff_false in Hex. destruct (Snapshots.getTLogsAfterSnapshot (snapshots (sp s)) num []) eqn:E; [|by eexists].
      exfalso. apply Hex. clear -E. unfold Snapshots.getTLogsAfterSnapshot in E. unfold snapshotExists_num, Snapshots.snapshotExists_num, Snapshots.exists_.
      destruct (Snapshots.find_ (Snapshots.by_num num) (snapshots (sp s))) eqn:Ef; [done|]. apply find_none in Ef. apply Forall_rev in Ef. revert E. generalize (@nil TLogId). 
      induction Ef as [|y r Hy Hr IH]; intros k E; cbn in E; [done|]. unfold Snapshots.by_num in Hy. rewrite Hy in E. cbn in E. by eapply IH. }
    exists x. split; [|done]. unfold mbind, mlift. by rewrite Ex.
Qed.

End Ops.
