(* ===== verification/SnapshotManagementTheorems.v ===== *)
(** * Theorems on [SnapshotManagement]

    What was logged is in the TLogs, in order, wherever these are, and stays there over
    snapshots, rollovers, the way to the backend and a restart. *)

From S2P Require Import Prelude CheckSum Addressing TLogEntry TLogIO TLogIOFacts TLogs Snapshots SnapshotPersistor SnapshotFacts SnapshotTheorems SnapshotQueries SnapshotManagement SnapshotManagementFacts SnapshotManagementOps.
Import TLog TLogs Snapshot SnapshotPersistor TLogsFacts PersistorFacts PersistorSteps PersistorTheorems TLogWriter SnapshotManagement QueryFacts.

(** ** Calls *)
Inductive call : Type :=
  | AddClusterEntry (address : Z) (lh : CLH.ClusterLocationAndHash)
  | AddSCOCRC (cs : CheckSum.CheckSum)
  | Sync (maybe_sco_crc : option CheckSum.CheckSum)
  | CreateSnapshot (name : SnapshotName) (maybe_sco_crc : option CheckSum.CheckSum) (metadata : SnapshotMetaData) (guid : UUID) (scrubbed : bool) (now : string)
  | ScheduleBackendSync (maybe_sco_crc : option CheckSum.CheckSum)
  | DeleteSnapshot (name : SnapshotName)
  | NewScrubId
  | RunTask (t : Task).

(** The location that a call adds to the log. *)
Definition added (c : call) : list Entry.Entry :=
  match c with
  | AddClusterEntry a lh => match Entry.Entry_loc a lh with Ok e => [e] | Throw _ => [] end
  | _ => []
  end.

Definition locations (T : list (list Entry.Entry)) : list Entry.Entry := concat (List.filter Entry.isLocation <$> T).

Section Theorems.
Context {V : Type} `{VI : VolumeInterface V} `{VS : !VolumeSpec V}.
Variable page_size : nat.
Variable uuid_of : nat -> UUID.
Hypothesis page_pos : (0 < page_size)%nat.
Hypothesis uuid_inj : forall m n, uuid_of m = uuid_of n -> m = n.
Hypothesis uuid_not_null : forall n, uuid_of n <> 0.

Implicit Types (s : SM V) (T : list (list Entry.Entry)) (es : list Entry.Entry).

Abbreviation logs := (logs page_size uuid_of).
Abbreviation holds := (holds page_size uuid_of).
Abbreviation image := TLogFile.image.

Definition perform (c : call) : M (SM V) unit :=
  match c with
  | AddClusterEntry a lh => addClusterEntry a lh
  | AddSCOCRC cs => addSCOCRC page_size uuid_of cs
  | Sync cs => sync cs
  | CreateSnapshot nm cs md g sc now => createSnapshot page_size uuid_of nm cs md g sc now
  | ScheduleBackendSync cs => scheduleBackendSync page_size uuid_of cs ;! mret tt
  | DeleteSnapshot nm => deleteSnapshot nm
  | NewScrubId => new_scrub_id uuid_of ;! mret tt
  | RunTask t => run_task t
  end.

(** What callers provide: values of their width, snapshot numbers that have not run out, and
    tasks that were scheduled. *)
Definition admissible s (c : call) : Prop :=
  match c with
  | AddClusterEntry a lh => fits 64 a /\ CLH.wf lh
  | AddSCOCRC cs => CheckSum.wf cs
  | Sync cs | ScheduleBackendSync cs => from_option CheckSum.wf True cs
  | CreateSnapshot _ cs _ _ _ _ => from_option CheckSum.wf True cs /\ Forall (fun n => n < 2 ^ 64 - 1) (nums (snapshots (sp s)))
  | RunTask t => t ∈ tasks s
  | _ => True
  end.

(** The log [T'] has [new] behind [T]; only the last TLog of [T] may have grown. *)
Definition extends T T' (new : list Entry.Entry) : Prop :=
  exists X es Y, T = X ++ [es] /\ T' = X ++ Y /\ Y <> [] /\ locations Y = List.filter Entry.isLocation es ++ new.

Lemma locations_app T1 T2 : locations (T1 ++ T2) = locations T1 ++ locations T2.
Proof. unfold locations. by rewrite fmap_app, concat_app. Qed.

Lemma locations_one es : locations [es] = List.filter Entry.isLocation es.
Proof. unfold locations. cbn. by rewrite app_nil_r. Qed.

Lemma extends_locations T T' new : extends T T' new -> locations T' = locations T ++ new.
Proof. intros (X & es & Y & -> & -> & _ & E). by rewrite !locations_app, E, locations_one, app_assoc. Qed.

Lemma extends_refl X es : extends (X ++ [es]) (X ++ [es]) [].
Proof. exists X, es, [es]. by rewrite locations_one, app_nil_r. Qed.

Lemma extends_trans T1 T2 T3 n1 n2 : extends T1 T2 n1 -> extends T2 T3 n2 -> extends T1 T3 (n1 ++ n2).
Proof.
  intros (X & es & Y & -> & -> & HY & E) (X2 & es2 & Y2 & E2 & -> & HY2 & E3). destruct (app_snoc_inv _ _ _ _ E2 HY) as (Y' & -> & ->).
  exists X, es, (Y' ++ Y2). split_and!; [done|by rewrite <- app_assoc|intros [_ ?]%app_nil; done|].
  by rewrite locations_app, E3, app_assoc, <- (locations_one es2), <- locations_app, E, app_assoc.
Qed.

(** More entries in the last TLog, and perhaps an empty one behind it. *)
Lemma extends_last X es new : extends (X ++ [es]) (X ++ [es ++ new]) (List.filter Entry.isLocation new).
Proof. exists X, es, [es ++ new]. split_and!; [done|done|done|]. by rewrite locations_one, List.filter_app. Qed.

Lemma extends_roll X es new : extends (X ++ [es]) (X ++ [es ++ new; []]) (List.filter Entry.isLocation new).
Proof. exists X, es, [es ++ new; []]. split_and!; [done|done|done|]. unfold locations. cbn. by rewrite !app_nil_r, List.filter_app. Qed.

Lemma type_not_location e ty : Entry.type e = Ok ty -> ty <> Entry.LOC -> Entry.isLocation e = false.
Proof. intros Hty Hne. unfold Entry.isLocation, Entry.is_type. rewrite Hty. by destruct ty. Qed.

Lemma crc_entries_location cs new : crc_entries cs new -> List.filter Entry.isLocation new = [].
Proof. destruct cs; [|by intros ->]. intros (e & -> & Hty & _). cbn. by rewrite (type_not_location e _ Hty). Qed.

Lemma logs_last s T : logs s T -> exists X es, T = X ++ [es].
Proof. intros (l & t & L & es & w & _ & ->). by exists L, es. Qed.

(** One call. *)
Lemma call_log s T c : logs s T -> admissible s c ->
  exists s' r T', perform c s = (s', r) /\ logs s' T' /\ extends T T' (added c).
Proof.
  intros Hl Ha. destruct (logs_last _ _ Hl) as (X & es & ->). destruct c as [a lh|cs|cs|nm cs md g sc now|cs|nm| |tk]; cbn [perform admissible added] in *.
  - destruct (addClusterEntry_log page_size uuid_of s X es a lh Hl (proj1 Ha) (proj2 Ha)) as (s' & r & T' & E & Hl' & HQ). exists s', r, T'. split_and!; [done|done|].
    destruct (Entry.Entry_loc a lh) as [e|x] eqn:Ee; [|destruct HQ as [_ ->]; apply extends_refl]. destruct HQ as [_ ->]. apply EntryFacts.loc_entry in Ee as He.
    replace [e] with (List.filter Entry.isLocation [e]) at 2; [apply extends_last|]. cbn. unfold Entry.isLocation, Entry.is_type. by rewrite (proj1 (proj2 (proj2 (proj2 He)))).
  - destruct (addSCOCRC_log page_size uuid_of page_pos uuid_inj s X es cs Hl Ha) as (s' & T' & e & E & Hl' & Hty & _ & HT). exists s', (Ok tt), T'. split_and!; [done|done|].
    destruct HT as [->|(e' & He' & ->)]; [pose proof (extends_last X es [e]) as Hx|pose proof (extends_roll X es [e; e']) as Hx]; cbn in Hx; by rewrite (type_not_location e _ Hty), ?He' in Hx.
  - destruct (sync_log page_size uuid_of s X es cs Hl) as (s' & new & E & Hn & Hl' & _); [by intros c ->|]. exists s', (Ok tt), (X ++ [es ++ new]). split_and!; [done|done|].
    pose proof (extends_last X es new) as Hx. by rewrite (crc_entries_location _ _ Hn) in Hx.
  - destruct (snapshot (sp s) nm md g sc now (uuid_of (drawn s)) (uuid_of (S (drawn s)))) as [p|x] eqn:Es.
    + destruct (createSnapshot_log page_size uuid_of page_pos uuid_inj s X es nm cs md g sc now p Hl) as (s' & new & e & E & Hn & He & _ & Hl'); [by intros c ->; apply Ha|apply Ha|done|].
      exists s', (Ok tt), (X ++ [es ++ new ++ [e]; []]). split_and!; [done|done|]. pose proof (extends_roll X es (new ++ [e])) as Hx.
      rewrite List.filter_app, (crc_entries_location _ _ Hn) in Hx. cbn in Hx. by rewrite He in Hx.
    + pose proof Hl as (l & t & L & es' & w & Hh & _). destruct (refused_snapshot page_size uuid_of s l t L es' w nm cs md g sc now x Hh Es) as [E _]. exists s, (Throw x), (X ++ [es]). split_and!; [done|done|apply extends_refl].
  - destruct (scheduleBackendSync_log page_size uuid_of page_pos uuid_inj uuid_not_null s X es cs Hl) as (s' & new & e & E & Hn & He & _ & Hl'); [by intros c ->|].
    exists s', (Ok tt), (X ++ [es ++ new ++ [e]; []]). split_and!; [unfold mbind; by rewrite E|done|]. pose proof (extends_roll X es (new ++ [e])) as Hx.
    rewrite List.filter_app, (crc_entries_location _ _ Hn) in Hx. cbn in Hx. by rewrite He in Hx.
  - destruct (deleteSnapshot_log page_size uuid_of s (X ++ [es]) nm Hl) as (s' & r & E & Hl' & _). exists s', r, (X ++ [es]). split_and!; [done|done|apply extends_refl].
  - destruct (new_scrub_id_log page_size uuid_of s (X ++ [es]) Hl) as (s' & E & Hl' & _). exists s', (Ok tt), (X ++ [es]). split_and!; [unfold mbind; by rewrite E|done|apply extends_refl].
  - destruct (task_log page_size uuid_of s (X ++ [es]) tk Hl Ha) as (s' & r & T' & E & Hl' & ->). exists s', r, (X ++ [es]). split_and!; [done|done|apply extends_refl].
Qed.

(** Calls one after the other; a client goes on after an exception. *)
Definition performs (cs : list call) s : SM V := fold_left (fun s c => fst (perform c s)) cs s.

Fixpoint admissibles s (cs : list call) : Prop :=
  match cs with
  | [] => True
  | c :: cs => admissible s c /\ admissibles (fst (perform c s)) cs
  end.

Lemma calls_log cs s T : logs s T -> admissibles s cs -> exists T', logs (performs cs s) T' /\ extends T T' (concat (added <$> cs)).
Proof.
  revert s T. induction cs as [|c cs IH]; intros s T Hl Ha; cbn in *.
  - exists T. split; [done|]. destruct (logs_last _ _ Hl) as (X & es & ->). apply extends_refl.
  - destruct (call_log _ _ _ Hl (proj1 Ha)) as (s' & r & T1 & E & Hl1 & Hx). rewrite E in *. cbn [fst] in *. destruct (IH _ _ Hl1 (proj2 Ha)) as (T' & Hl' & Hx').
    exists T'. split; [done|]. by eapply extends_trans.
Qed.

(** ** What is logged: all locations in all TLogs, with those the writer holds. *)
Definition image_of s (i : TLogId) : res (list Z) :=
  match currentTLog_ s with
  | Some (j, w) => if i =? j then Ok (TLogWriter.destroy w) else tlog_image s i
  | None => tlog_image s i
  end.

Definition logged s : res (list Entry.Entry) :=
  rfold (fun out i => let? f := image_of s i in Ok (out ++ List.filter Entry.isLocation (TLogFile.entries_of f))) [] (getAllTLogs (sp s) [] true).

Lemma logged_exact s T : logs s T -> logged s = Ok (locations T).
Proof.
  intros (l & t & L & es & w & Hh & ->). unfold logged. rewrite (all_tlogs _ _ _ (h_inv Hh)). cbn [app]. rewrite <- ids_app. fold (flat (sp s)). rewrite (h_flat Hh), ids_app.
  rewrite rfold_app. pose proof (current_new Hh) as Hnew.
  assert (forall out, rfold (fun out i => let? f := image_of s i in Ok (out ++ List.filter Entry.isLocation (TLogFile.entries_of f))) out (ids l) = Ok (out ++ locations L)) as ->.
  { pose proof (h_closed Hh) as Hc. pose proof (h_tlog Hh) as Et. clear Hh. revert Hnew. induction Hc as [|x y l' L' [Hwf Hi] Hc IH]; intros Hnew out; [cbn; by rewrite app_nil_r|].
    change (ids (x :: l')) with (uuid x :: ids l') in *. apply not_elem_of_cons in Hnew as [Hx Hnew]. cbn [rfold]. unfold image_of at 1. rewrite Et, (proj2 (Z.eqb_neq _ _)) by (intros Eq; by apply Hx).
    rewrite Hi. cbn [rbind]. rewrite TLogFile.entries_of_image by done. rewrite IH by done. by rewrite <- app_assoc. }
  cbn [rbind app rfold ids fmap list_fmap]. unfold image_of. rewrite (h_tlog Hh), Z.eqb_refl. cbn [rbind]. rewrite (TLogWriterFacts.destroy_image _ _ (h_writer Hh)).
  rewrite TLogFile.entries_of_image by apply (h_writer Hh). by rewrite locations_app, locations_one.
Qed.

(** ** Start *)
Lemma initialize_log s p l t L es tm n sm : currentTLog_ s = None -> sp s = p -> inv p -> flat p = l ++ [t] -> written_to_backend t = false -> currentTLogId_ s = uuid t ->
  from_option id [] (files s !! uuid t) = image es -> Forall Entry.wf es ->
  Forall2 (fun t es => Forall Entry.wf es /\ tlog_image s (uuid t) = Ok (image es)) l L ->
  (forall i, i ∈ ids (flat p) \/ is_Some (files s !! i) -> exists k, (k < drawn s)%nat /\ i = uuid_of k) -> tasks s = [] -> snapshots_file s = Some p ->
  0 < u32 (from_option id n tm * sm) ->
  exists s', initialize page_size tm n sm s = (s', Ok tt) /\ logs s' (L ++ [es]).
Proof.
  intros Et Es Hp Ef Hun Ei Efile Hes Hc Hd Etk Esn Hmax. unfold initialize. erewrite bind_ok by reflexivity. erewrite bind_ok by reflexivity.
  erewrite bind_ok by (cbn [maxTLogEntries_ set_max mverify]; rewrite (proj2 (Z.ltb_lt _ _) Hmax); reflexivity).
  set (s1 := set_max _ s). destruct (open_eq page_size page_pos s1 es) as (v & w & Eo & Hw & Efw & Hv); [exact Et|exact Hes|cbn; by rewrite Ei|].
  erewrite bind_ok by exact Eo. change (files s1) with (files s) in *. change (currentTLogId_ s1) with (currentTLogId_ s) in *. rewrite Ei in *.
  set (s2 := set_files _ _). assert (uuid t ∉ ids l) as Hnew. { pose proof (inv_ids _ Hp) as Hn. rewrite Ef, ids_app in Hn. apply NoDup_app in Hn as (_ & Hn & _). intros Hi. apply (Hn _ Hi). left. }
  assert (holds s2 l t L es w) as Hh.
  { constructor; cbn; try done.
    - by rewrite Es.
    - by rewrite Es.
    - by rewrite lookup_insert_eq, Efw.
    - eapply Forall2_elem_impl; [exact Hc|]. intros x y Hx [? Hi]. split; [done|]. unfold tlog_image in *. cbn.
      rewrite lookup_insert_ne; [by case_match; [|rewrite Hv]|]. intros Eq. apply Hnew. rewrite Eq. by apply list_elem_of_fmap; exists x.
    - intros i [Hi|[Hi|(m & cs & Hi)]]; [apply Hd; left; by rewrite Es in Hi| |by rewrite Etk in Hi; apply not_elem_of_nil in Hi].
      apply Hd. destruct (decide (i = uuid t)) as [->|]; [left; rewrite Ef, ids_app; apply elem_of_app; right; left|]. right. by rewrite lookup_insert_ne in Hi.
    - intros i m cs Hi. rewrite Etk in Hi. by apply not_elem_of_nil in Hi.
    - exists p. by rewrite Es. }
  destruct (sync_log page_size uuid_of s2 L es None (logs_intro _ _ Hh)) as (s' & new & E & Hn & Hl & _); [done|]. exists s'. split; [exact E|]. cbn in Hn. by rewrite Hn, app_nil_r in Hl.
Qed.

Lemma start_log context parent d v tm n sm : context = Cloning \/ context = Creation -> 0 < u32 (from_option id n tm * sm) ->
  exists s0 s, construct uuid_of context parent ∅ None d v = Ok s0 /\ initialize page_size tm n sm s0 = (s, Ok tt) /\ logs s [[]].
Proof.
  intros Hc Hmax. set (p := create parent (uuid_of d) (uuid_of (S d))). set (s0 := mkSM p None (uuid_of (S d)) 0 0 ∅ (Some p) [] (S (S d)) v).
  destruct (initialize_log s0 p [] (TLog.make (uuid_of (S d))) [] [] tm n sm) as (s & E & Hl); try done.
  - apply inv_create.
  - cbn. intros i [Hi|[x Hi]]; [|by rewrite lookup_empty in Hi]. exists (S d). split; [lia|]. by apply list_elem_of_singleton in Hi.
  - exists s0, s. split_and!; [|done|done]. unfold construct. by rewrite bool_decide_true.
Qed.

(** ** A crash, and a local restart *)
Lemma image_prefix es f b : image es = f ++ image b -> exists es1, es = es1 ++ drop (length es1) es /\ f = image es1.
Proof.
  intros E. exists (take (length es - length b) es). pose proof (f_equal length E) as El. rewrite length_app, !TLogFile.length_image in El.
  assert (length b <= length es)%nat as Hle by (unfold Entry.getDataSize in El; lia).
  rewrite length_take, Nat.min_l by lia. split; [by rewrite take_drop|]. rewrite <- (take_drop (length es - length b) es), TLogFile.image_app in E.
  apply app_inj_1 in E as [E _]; [done|]. rewrite TLogFile.length_image, length_take. unfold Entry.getDataSize in *. lia.
Qed.

Lemma fmap_snoc_inv {A B} (f : A -> B) l k b : f <$> l = k ++ [b] -> exists l' a, l = l' ++ [a] /\ f <$> l' = k /\ f a = b.
Proof.
  destruct l as [|a l _] using rev_ind; intros E; [by destruct k|]. rewrite fmap_app in E. cbn in E. apply app_inj_tail in E as [E1 E2]. by exists l, a.
Qed.

Lemma restart_log s X es parent v tm n sm : logs s (X ++ [es]) -> (forall i, backend_read v i = backend_read (vol s) i) -> 0 < u32 (from_option id n tm * sm) ->
  exists s1 s2 es1, construct uuid_of LocalRestart parent (files s) (snapshots_file s) (drawn s) v = Ok s1 /\
    initialize page_size tm n sm s1 = (s2, Ok tt) /\ logs s2 (X ++ [es1]) /\ es = es1 ++ drop (length es1) es /\ local_file s (currentTLogId_ s) = Ok (image es1).
Proof.
  intros (l & t & L & es' & w & Hh & [-> <-]%app_inj_tail) Hv Hmax. destruct (h_saved Hh) as (p & Esn & Hp & Hhi).
  assert (exists l' t', flat p = l' ++ [t'] /\ uuid t' = uuid t /\ written_to_backend t' = false /\ uuid <$> l' = uuid <$> l) as (l' & t' & Ef & Et & Hw' & El).
  { apply history_flat in Hhi. rewrite (h_flat Hh), fmap_app in Hhi. cbn in Hhi. destruct (fmap_snoc_inv _ _ _ _ Hhi) as (l' & t' & Ef & El & E'). injection E' as Eu Ew. exists l', t'.
    rewrite (h_unwritten Hh) in Ew. split_and!; try done. apply (f_equal (fmap fst)) in El. by rewrite <- !list_fmap_compose in El. }
  destruct (h_writer Hh) as (Hcont & Hwf & _). unfold TLogWriterFacts.contents in Hcont. destruct (image_prefix es (file_ w) (take (current_entry_ w) (buf w)) (eq_sym Hcont)) as (es1 & Ees & Efile).
  set (s1 := mkSM p None (uuid t) 0 0 (files s) (Some p) [] (drawn s) v).
  destruct (initialize_log s1 p l' t' L es1 tm n sm) as (s2 & Ei & Hl); try done.
  - cbn. by rewrite Et, (h_file Hh).
  - rewrite Ees in Hwf. by apply Forall_app in Hwf as [? _].
  - pose proof (h_closed Hh) as Hc. clear -Hc El Hv. revert l' El. induction Hc as [|x y l k [Hwf Hi] Hc IH]; intros [|x' l'] El; try done; constructor; [|apply IH; by injection El].
    injection El as El _. split; [done|]. unfold tlog_image in *. cbn. rewrite El. by case_match; [|rewrite Hv].
  - cbn. intros i Hi. apply (h_drawn Hh). destruct Hi as [Hi|Hi]; [|by right; left]. left. rewrite (h_flat Hh), ids_app. rewrite Ef, ids_app in Hi. unfold ids in *. rewrite El in Hi. cbn in *. by rewrite Et in Hi.
  - exists s1, s2, es1. split_and!; [|done|done|done|].
    + unfold construct. rewrite Esn, bool_decide_true by by left. rewrite verify_flat, (inv_sane _ Hp). cbn [rbind].
      pose proof (update_id_eq (set_sp p s) l' t' Ef (inv_current _ Hp)) as Eu. unfold update_current_id, mbind, mget, mlift in Eu. cbn [sp set_sp] in Eu.
      destruct (getCurrentTLog p) as [i|] eqn:Eg; [|done]. injection Eu as ->. cbn [rbind]. rewrite Et. rewrite bool_decide_true by (rewrite (h_file Hh); eauto). done.
    + unfold local_file. by rewrite (h_id Hh), (h_file Hh), Efile.
Qed.

(** ** Where a snapshot was taken *)
Definition mark (p : SnapshotPersistor) (nm : SnapshotName) (k : OrderedTLogIds) : Prop :=
  exists a x b, snapshots p = a ++ x :: b /\ name x = nm /\ ids (flats (a ++ [x])) = k.

Lemma mark_same p p' nm k : snapshots p' = snapshots p -> mark p nm k -> mark p' nm k.
Proof. intros E (a & x & b & ? & ? & ?). exists a, x, b. by rewrite E. Qed.

Lemma mark_more p p' nm k m : snapshots p' = snapshots p ++ m -> mark p nm k -> mark p' nm k.
Proof. intros E (a & x & b & E' & ? & ?). exists a, x, (b ++ m). rewrite E, E', <- app_assoc. done. Qed.

Definition shape (ss : list Snapshot) := (fun x => (name x, ids (tlogs x))) <$> ss.

Lemma shape_flats a a' : shape a = shape a' -> ids (flats a) = ids (flats a').
Proof.
  revert a'. induction a as [|x a IH]; intros [|x' a'] E; try done. injection E as _ Et E. rewrite !flats_cons, !ids_app, Et. f_equal. by apply IH.
Qed.

Lemma mark_shape p p' nm k : shape (snapshots p') = shape (snapshots p) -> mark p nm k -> mark p' nm k.
Proof.
  intros E (a & x & b & E' & <- & <-). rewrite E' in E. unfold shape in E. rewrite fmap_app, fmap_cons in E. apply fmap_app_inv in E as (a' & r & Ea & Er & Ess).
  symmetry in Er. apply fmap_cons_inv in Er as (x' & b' & Ex & Eb & ->). injection Ex as En Et. exists a', x', b'. split_and!; [done|done|].
  apply shape_flats. unfold shape. rewrite !fmap_app. cbn. by rewrite Ea, En, Et.
Qed.

Lemma written_ids l i on f l' : TLogs.setTLogWrittenToBackend l i on = Ok (f, l') -> ids l' = ids l.
Proof.
  revert f l'. induction l as [|x l IH]; intros f l' E; cbn in E; [by inv_ok|]. repeat case_match; try done; [by inv_ok|]. inv_bind E. destruct a as [g k]. inv_ok. cbn. f_equal. by eapply IH.
Qed.

Lemma written_shape ss i on f ss' : Snapshots.setTLogWrittenToBackend ss i on = Ok (f, ss') -> shape ss' = shape ss.
Proof.
  revert f ss'. induction ss as [|x ss IH]; intros f ss' E; cbn in E; [by inv_ok|]. inv_bind E. destruct a as [g l]. apply written_ids in E0 as Ei. destruct g.
  - inv_ok. unfold shape. rewrite !fmap_cons. cbn [tlogs set_tlogs name]. by rewrite Ei.
  - inv_bind E1. destruct a as [g k]. inv_ok. unfold shape. rewrite !fmap_cons. cbn [tlogs set_tlogs name]. rewrite ?Ei. f_equal. by eapply IH.
Qed.

Lemma mark_written p i p' nm k : SnapshotPersistor.setTLogWrittenToBackend p i true = Ok p' -> mark p nm k -> mark p' nm k.
Proof.
  unfold SnapshotPersistor.setTLogWrittenToBackend. intros E. inv_bind E. destruct a as [f ss]. apply written_shape in E0. apply mark_shape. destruct f; [by inv_ok|]. inv_bind E1. destruct a as [g l]. by inv_ok.
Qed.

Lemma mark_snapshot p n md u sc now d fr p' nm k : snapshot p n md u sc now d fr = Ok p' -> mark p nm k -> mark p' nm k.
Proof. intros (_ & x & E & _)%snapshot_split. by apply mark_more with [x]. Qed.

Lemma mark_delete p n p' nm k : SnapshotPersistor.deleteSnapshot p n = Ok p' -> NoDup (nums (snapshots p)) -> getSnapshotNum p nm <> Ok n -> NoDup (names (snapshots p)) -> mark p nm k -> mark p' nm k.
Proof.
  intros Ed Hnum Hn Hnd (a & x & b & E & <- & <-). assert (num x <> n) as Hx.
  { intros <-. apply Hn. unfold getSnapshotNum, getSnapshot. rewrite E, getSnapshot_app; [done| |by apply bool_decide_true]. apply Forall_forall. intros y Hy. apply bool_decide_false. intros Ey.
    rewrite E in Hnd. unfold names in Hnd. rewrite fmap_app in Hnd. apply NoDup_app in Hnd as (_ & Hd & _). apply (Hd (name y)); [by apply list_elem_of_fmap; exists y|rewrite Ey; left]. }
  apply delete_split in Ed as (a2 & s2 & b2 & E2 & En & _ & _ & Hb). rewrite E in E2. apply app_eq_inv in E2 as [(c & -> & Ec)|(c & -> & Ec)].
  - destruct c as [|y c]; [cbn in Ec; injection Ec as -> _; done|]. cbn in Ec. injection Ec as <- ->. destruct c as [|y c].
    + cbn in Hb. destruct Hb as [Hb _]. exists a2, (Snapshots.splice_front x s2), b. split_and!; [done|done|]. rewrite !flats_app, !flats_cons, !ids_app. unfold Snapshots.splice_front. cbn. by rewrite ids_app, !app_nil_r, <- !app_assoc.
    + cbn in Hb. destruct Hb as [Hb _]. exists (a2 ++ Snapshots.splice_front y s2 :: c), x, b. split_and!; [by rewrite Hb, <- app_assoc|done|].
      rewrite !flats_app, !flats_cons, !ids_app. unfold Snapshots.splice_front. cbn [tlogs set_tlogs set_scrubbed]. by rewrite !ids_app, <- !app_assoc.
  - destruct c as [|y c]; [cbn in Ec; injection Ec as -> _; done|]. cbn in Ec. injection Ec as <- ->. destruct b2 as [|y2 b2].
    + destruct Hb as [Hb _]. exists a, x, c. by rewrite Hb.
    + destruct Hb as [Hb _]. exists a, x, (c ++ Snapshots.splice_front y2 s2 :: b2). by rewrite Hb, <- app_assoc.
Qed.

(** Code that keeps a property of the state, whatever it returns. *)
Definition keeps {A} (P : SM V -> Prop) (m : M (SM V) A) : Prop := forall s, P s -> P (fst (m s)).

Section Keeps.
Variables (nm : SnapshotName) (k : OrderedTLogIds).
Let P : SM V -> Prop := fun s => mark (sp s) nm k.

Lemma keeps_bind {A B} (m : M (SM V) A) (f : A -> M (SM V) B) : keeps P m -> (forall a, keeps P (f a)) -> keeps P (mbind m f).
Proof. intros Hm Hf s Hs. unfold mbind. specialize (Hm s Hs). destruct (m s) as [s' [a|x]]; [by apply Hf|done]. Qed.

Lemma keeps_catch {A} (m : M (SM V) A) h : keeps P m -> (forall e, keeps P (h e)) -> keeps P (catch m h).
Proof. intros Hm Hf s Hs. unfold catch. specialize (Hm s Hs). destruct (m s) as [s' [a|x]]; [done|by apply Hf]. Qed.

Lemma keeps_modify f : (forall s, sp (f s) = sp s) -> keeps P (mmodify f).
Proof. intros Hf s Hs. unfold P, mmodify. cbn. by rewrite Hf. Qed.

Lemma keeps_vol {A} (m : M V A) : keeps P (on_vol m).
Proof. intros s Hs. unfold on_vol. by destruct (m (vol s)). Qed.

Lemma keeps_tlog {A} (m : M TLogWriter A) : keeps P (on_tlog m).
Proof. intros s Hs. unfold on_tlog. destruct (currentTLog_ s) as [[i w]|]; [|done]. by destruct (m w). Qed.

Lemma keeps_sp f : (forall p p', f p = Ok p' -> mark p nm k -> mark p' nm k) -> keeps P (on_sp f).
Proof. intros Hf s Hs. unfold on_sp, mbind, mget, mlift. destruct (f (sp s)) as [p|] eqn:E; [|done]. exact (Hf _ _ E Hs). Qed.

Lemma keeps_newTLog : keeps P (sp_newTLog uuid_of).
Proof. intros s Hs. exact (mark_same _ _ _ _ eq_refl Hs). Qed.

Lemma keeps_const {A} (r : SM V -> res A) : keeps P (fun s => (s, r s)).
Proof. by intros s Hs. Qed.

(** Every [if] and [match] of the code, and its primitive steps. *)
Ltac keep := unfold halt_on_error_, halt_rethrow, ignore_errors, halt_; repeat match goal with
  | |- keeps _ (mbind _ _) => apply keeps_bind; [|intros ?]
  | |- keeps _ (catch _ _) => apply keeps_catch; [|intros ?]
  | |- keeps _ (on_vol _) => apply keeps_vol
  | |- keeps _ (on_tlog _) => apply keeps_tlog
  | |- keeps _ (sp_newTLog _) => apply keeps_newTLog
  | |- keeps _ (mmodify _) => apply keeps_modify; by intros ?
  | |- keeps _ (mret _) => exact (keeps_const _)
  | |- keeps _ (mthrow _) => exact (keeps_const _)
  | |- keeps _ (mlift _) => exact (keeps_const _)
  | |- keeps _ mget => exact (keeps_const _)
  | |- keeps _ (match ?x with _ => _ end) => destruct x
  end.

Lemma keeps_open : keeps P (openTLog_ page_size).
Proof. unfold openTLog_, mverify. keep. Qed.

Lemma keeps_close : keeps P closeTLog_.
Proof. unfold closeTLog_, reset_tlog, mverify. keep. Qed.

Lemma keeps_schedule i n cs : keeps P (scheduleWriteTLogToBackend i n cs).
Proof. unfold scheduleWriteTLogToBackend. keep. Qed.

Lemma keeps_add_crc cs : keeps P (add_maybe_crc cs).
Proof. destruct cs; cbn; keep. Qed.

Lemma keeps_sync cs : keeps P (sync cs).
Proof. unfold sync, require_current_tlog, syncTLog_. keep. apply keeps_add_crc. Qed.

Lemma keeps_addClusterEntry a lh : keeps P (addClusterEntry a lh).
Proof.
  unfold addClusterEntry, require_current_tlog. keep. apply keeps_sp. intros p p' E. apply mark_same. unfold addCurrentBackendSize in E. case_match; [|done]. by inv_ok.
Qed.

Lemma keeps_addSCOCRC cs : keeps P (addSCOCRC page_size uuid_of cs).
Proof.
  unfold addSCOCRC, require_current_tlog, maybe_switch_tlog_, last_location, update_current_id, saveToFile. keep; [apply keeps_close|apply keeps_open|apply keeps_schedule].
Qed.

Lemma keeps_scheduleBackendSync cs : keeps P (scheduleBackendSync page_size uuid_of cs).
Proof.
  unfold scheduleBackendSync, last_location, update_current_id, saveToFile, mverify. keep; [apply keeps_add_crc|apply keeps_close|apply keeps_open|apply keeps_schedule].
Qed.

Lemma keeps_createSnapshot n cs md g sc now : keeps P (createSnapshot page_size uuid_of n cs md g sc now).
Proof.
  unfold createSnapshot, last_location, update_current_id, saveToFile. keep; [|apply keeps_add_crc|apply keeps_close|apply keeps_open|apply keeps_schedule].
  apply keeps_sp. intros p p'. by apply mark_snapshot.
Qed.

Lemma keeps_task t : keeps P (run_task t).
Proof.
  destruct t; cbn [run_task]; unfold run_WriteTLog, run_WriteSnapshot, tlogWrittenToBackendCallback, saveToFile; keep.
  apply keeps_sp. intros p p'. by apply mark_written.
Qed.

Lemma keeps_scrub_id : keeps P (new_scrub_id uuid_of).
Proof. intros s Hs. exact (mark_same _ _ _ _ eq_refl Hs). Qed.
End Keeps.

Lemma same_num p nm nm' n : inv p -> getSnapshotNum p nm = Ok n -> getSnapshotNum p nm' = Ok n -> nm = nm'.
Proof.
  intros Hi. unfold getSnapshotNum, getSnapshot. pose proof (getSnapshot_split (Snapshots.by_name nm) (snapshots p)) as H1. pose proof (getSnapshot_split (Snapshots.by_name nm') (snapshots p)) as H2.
  destruct (Snapshots.getSnapshot (Snapshots.by_name nm) (snapshots p)) as [x|]; [|done]. destruct (Snapshots.getSnapshot (Snapshots.by_name nm') (snapshots p)) as [y|]; [|done]. cbn. intros [= <-] [= En].
  destruct H1 as (a & b & E1 & Hx & _), H2 as (a' & b' & E2 & Hy & _). apply bool_decide_eq_true in Hx as <-. apply bool_decide_eq_true in Hy as <-. f_equal.
  pose proof (inv_nums _ Hi) as Hs. rewrite E1 in Hs. destruct (sorted_mid _ _ _ Hs) as (Ha & Hb & _).
  assert (y ∈ snapshots p) as Hin by (rewrite E2; apply elem_of_app; right; left). rewrite E1 in Hin. apply elem_of_app in Hin as [Hin|[->|Hin]%elem_of_cons]; [|done|].
  - pose proof (proj1 (Forall_forall _ _) Ha _ Hin) as Hf. cbn in Hf. unfold Snapshots.by_num in Hf. rewrite En in Hf. by rewrite Z.eqb_refl in Hf.
  - pose proof (proj1 (Forall_forall _ _) Hb _ Hin) as Hf. cbn in Hf. unfold Snapshots.by_num in Hf. rewrite En in Hf. by rewrite Z.eqb_refl in Hf.
Qed.

Lemma call_mark s T c nm k : logs s T -> c <> DeleteSnapshot nm -> mark (sp s) nm k -> mark (sp (fst (perform c s))) nm k.
Proof.
  intros Hl Hc Hm. destruct c as [a lh|cs|cs|n cs md g sc now|cs|n| |tk]; cbn [perform].
  - by apply keeps_addClusterEntry.
  - by apply keeps_addSCOCRC.
  - by apply keeps_sync.
  - by apply keeps_createSnapshot.
  - apply (keeps_bind nm k); [apply keeps_scheduleBackendSync|intros ?; apply keeps_const|done].
  - pose proof Hl as (l & t & L & es & w & Hh & _). destruct (deleteSnapshot_log page_size uuid_of s T n Hl) as (s' & r & E & _ & [[-> _]|(_ & i & Ei & Ed)]); rewrite E; [done|]. cbn [fst].
    eapply mark_delete; [exact Ed| | |apply (inv_names _ (h_inv Hh))|done].
    + pose proof (inv_nums _ (h_inv Hh)) as Hs. clear -Hs. induction Hs as [|x l Hs IH Hf]; constructor; [|done]. intros Hi. pose proof (proj1 (Forall_forall _ _) Hf _ Hi). cbn in *. lia.
    + intros Ei'. apply Hc. f_equal. by eapply same_num; [exact (h_inv Hh)| |].
  - apply (keeps_bind nm k); [apply keeps_scrub_id|intros ?; apply keeps_const|done].
  - by apply keeps_task.
Qed.

Lemma calls_mark cs s T nm k : logs s T -> admissibles s cs -> DeleteSnapshot nm ∉ cs -> mark (sp s) nm k -> mark (sp (performs cs s)) nm k.
Proof.
  revert s T. induction cs as [|c cs IH]; intros s T Hl Ha Hc Hm; cbn in *; [done|]. apply not_elem_of_cons in Hc as [Hc Hcs].
  destruct (call_log _ _ _ Hl (proj1 Ha)) as (s' & r & T1 & E & Hl1 & _). pose proof (call_mark _ _ c _ _ Hl (not_eq_sym Hc) Hm) as Hm1. rewrite E in *. exact (IH s' T1 Hl1 (proj2 Ha) Hcs Hm1).
Qed.

Lemma mid_unique ss a x b a' x' b' : StronglySorted Z.lt (nums ss) -> ss = a ++ x :: b -> ss = a' ++ x' :: b' -> num x' = num x -> a' = a /\ x' = x.
Proof.
  intros Hs -> E En. destruct (sorted_mid _ _ _ Hs) as (Ha & Hb & _). apply app_eq_inv in E as [(c & -> & Ec)|(c & -> & Ec)]; destruct c as [|y c]; cbn in Ec.
  - injection Ec as -> _. by rewrite app_nil_r.
  - injection Ec as -> ->. apply Forall_app in Ha as [_ Ha]. apply Forall_cons in Ha as [Hy _]. exfalso. unfold Snapshots.by_num in Hy. by rewrite En, Z.eqb_refl in Hy.
  - injection Ec as -> _. by rewrite app_nil_r.
  - injection Ec as -> ->. apply Forall_app in Hb as [_ Hb]. apply Forall_cons in Hb as [Hy _]. exfalso. unfold Snapshots.by_num in Hy. by rewrite En, Z.eqb_refl in Hy.
Qed.

(** ** Reachable states *)
Inductive started : SM V -> Prop :=
  | start_new context parent d v tm n sm s0 s : context = Cloning \/ context = Creation -> 0 < u32 (from_option id n tm * sm) ->
      construct uuid_of context parent ∅ None d v = Ok s0 -> initialize page_size tm n sm s0 = (s, Ok tt) -> started s.

(** Calls, a restore of a snapshot, and a crash with a local restart. *)
Inductive step : SM V -> SM V -> Prop :=
  | step_call s c : admissible s c -> step s (fst (perform c s))
  | step_restore s n : step s (fst (eraseSnapshotsAndTLogsAfterSnapshot page_size uuid_of n s))
  | step_restart s parent v tm n sm s1 s2 : (forall i, backend_read v i = backend_read (vol s) i) -> 0 < u32 (from_option id n tm * sm) ->
      construct uuid_of LocalRestart parent (files s) (snapshots_file s) (drawn s) v = Ok s1 -> initialize page_size tm n sm s1 = (s2, Ok tt) -> step s s2.

Definition reachable s : Prop := exists s0, started s0 /\ rtc step s0 s.

Lemma started_logs s : started s -> logs s [[]].
Proof.
  intros [context parent d v tm n sm s0 s' Hc Hm E1 E2]. destruct (start_log context parent d v tm n sm Hc Hm) as (s0' & s'' & E1' & E2' & Hl). congruence.
Qed.

Lemma step_logs s s' T : step s s' -> logs s T -> exists T', logs s' T'.
Proof.
  intros [s1 c Ha|s1 n|s1 parent v tm n sm s2 s3 Hv Hm E1 E2] Hl.
  - destruct (call_log _ _ _ Hl Ha) as (s2 & r & T' & -> & Hl' & _). eauto.
  - destruct (erase_log page_size uuid_of page_pos uuid_inj s1 T n Hl) as [(x & -> & _)|(s2 & a & x & b & -> & _ & _ & _ & Hl')]; eauto.
  - destruct (logs_last _ _ Hl) as (X & es & ->). destruct (restart_log _ _ _ parent v tm n sm Hl Hv Hm) as (s2' & s3' & es1 & E1' & E2' & Hl' & _). exists (X ++ [es1]). congruence.
Qed.

Lemma reachable_logs s : reachable s -> exists T, logs s T.
Proof.
  intros (s0 & Hs & Hr). apply started_logs in Hs as Hl. clear Hs. assert (exists T, logs s0 T) as Hex by eauto. clear Hl. induction Hr as [|s1 s2 s3 Hst Hr IH]; [done|]. apply IH.
  destruct Hex as (T & Hl). by eapply step_logs.
Qed.

(** ** Claims *)

(** C3. the log of a new volume is empty, and in every state that can be reached any
    further calls, with rollovers, snapshots, tasks that run late or fail, and exceptions
    between them, add to the log exactly the locations they were given and that
    are valid, in order; nothing is lost or doubled when a TLog moves from the buffer of the writer to its file and from there to
    the backend. *)
Theorem management_keeps_log s cs :
  (started s -> logged s = Ok []) /\
  (reachable s -> admissibles s cs -> exists h, logged s = Ok h /\ logged (performs cs s) = Ok (h ++ concat (added <$> cs))).
Proof.
  split; [intros Hs; by rewrite (logged_exact _ _ (started_logs _ Hs))|]. intros (T & Hl)%reachable_logs Ha. destruct (calls_log _ _ _ Hl Ha) as (T' & Hl' & Hx).
  exists (locations T). split; [by apply logged_exact|]. rewrite (logged_exact _ _ Hl'). by rewrite (extends_locations _ _ _ Hx).
Qed.

(** C16. after a crash between two calls a local restart succeeds, from the directory
    and the snapshots file as they are; the log is a prefix of what it was, and all of it if the last call was [sync]. *)
Theorem restart_keeps_synced s parent v tm n sm : reachable s -> (forall i, backend_read v i = backend_read (vol s) i) -> 0 < u32 (from_option id n tm * sm) ->
  exists s1 s2 h h', construct uuid_of LocalRestart parent (files s) (snapshots_file s) (drawn s) v = Ok s1 /\ initialize page_size tm n sm s1 = (s2, Ok tt) /\
    logged s = Ok h /\ logged s2 = Ok h' /\ h' `prefix_of` h /\ (forall r, reachable r -> s = fst (sync None r) -> h' = h).
Proof.
  intros (T & Hl)%reachable_logs Hv Hm. destruct (logs_last _ _ Hl) as (X & es & ->). destruct (restart_log _ _ _ parent v tm n sm Hl Hv Hm) as (s1 & s2 & es1 & E1 & E2 & Hl2 & Ees & Ef).
  exists s1, s2, (locations (X ++ [es])), (locations (X ++ [es1])). split_and!; [done|done|by apply logged_exact|by apply logged_exact| |].
  - rewrite !locations_app, !locations_one, Ees, List.filter_app, app_assoc. by apply prefix_app_r.
  - intros r (Tr & Hr)%reachable_logs Es. destruct (logs_last _ _ Hr) as (X' & es' & ->). destruct (sync_log page_size uuid_of r X' es' None Hr) as (s' & new & E & Hn & Hl' & _ & _ & Ef'); [done|].
    rewrite E in Es. cbn in Es, Hn. subst s' new. rewrite Ef in Ef'. injection Ef' as Ei. pose proof (logged_exact _ _ Hl) as L1. rewrite (logged_exact _ _ Hl') in L1. injection L1 as L1.
    pose proof Hl as (l & t & L & es0 & w & Hh & [-> <-]%app_inj_tail). pose proof Hl' as (l' & t' & L' & es0' & w' & Hh' & [-> <-]%app_inj_tail).
    assert (w' = w) as -> by (pose proof (h_tlog Hh) as Q1; rewrite (h_tlog Hh') in Q1; by injection Q1 as _ ->).
    assert (Forall Entry.wf es) as Hwf by apply (h_writer Hh). assert (Forall Entry.wf (es' ++ [])) as Hwf' by apply (h_writer Hh').
    assert (image (es' ++ []) = image es) as Ei' by (destruct (h_writer Hh) as (<- & _); by destruct (h_writer Hh') as (<- & _)).
    assert (es1 = es) as ->; [|done]. rewrite Ees in Hwf. apply Forall_app in Hwf as [Hwf1 _]. rewrite <- (TLogFile.entries_of_image es1) by done. rewrite Ei, Ei'. apply TLogFile.entries_of_image. apply (h_writer Hh).
Qed.

(** C17. restoring a snapshot gives the log it was taken of: whatever was called between, as long as the
    snapshot was not deleted, the restore succeeds and the locations that are logged
    are those that were logged when it was created. *)
Theorem restore_exact s nm crc md g sc now s1 cs : reachable s -> admissible s (CreateSnapshot nm crc md g sc now) ->
  perform (CreateSnapshot nm crc md g sc now) s = (s1, Ok tt) -> admissibles s1 cs -> DeleteSnapshot nm ∉ cs ->
  exists n s2, getSnapshotNum (sp (performs cs s1)) nm = Ok n /\ eraseSnapshotsAndTLogsAfterSnapshot page_size uuid_of n (performs cs s1) = (s2, Ok tt) /\ logged s2 = logged s.
Proof.
  intros (T & Hl)%reachable_logs [Hcs Hnum] Ec Ha Hd. destruct (logs_last _ _ Hl) as (X & es & ->). pose proof Hl as (l & t & L & es' & w & Hh & [-> <-]%app_inj_tail). cbn [perform] in Ec.
  destruct (snapshot (sp s) nm md g sc now (uuid_of (drawn s)) (uuid_of (S (drawn s)))) as [p|x] eqn:Es.
  2: { destruct (refused_snapshot page_size uuid_of s l t L es w nm crc md g sc now x Hh Es) as [E _]. congruence. }
  destruct (createSnapshot_log page_size uuid_of page_pos uuid_inj s L es nm crc md g sc now p Hl) as (s1' & new & e & E & Hn & He & Ep & Hl1); [by intros c ->|done|done|]. rewrite E in Ec. injection Ec as ->.
  assert (mark (sp s1) nm (ids (flat (sp s)))) as Hm.
  { rewrite Ep. apply snapshot_split in Es as (_ & x & Ess & Enm & Et & _). exists (snapshots (sp s)), x, []. split_and!; [done|done|]. rewrite flats_app. unfold flats at 2. cbn. by rewrite app_nil_r, Et. }
  destruct (calls_log _ _ _ Hl1 Ha) as (T2 & Hl2 & X2 & es2 & Y & E2 & -> & HY & _). pose proof (calls_mark _ _ _ _ _ Hl1 Ha Hd Hm) as (a & x & b & Ess & Enm & Ek).
  change [es ++ new ++ [e]; []] with ([es ++ new ++ [e]] ++ [[]]) in E2. rewrite app_assoc in E2. apply app_inj_tail in E2 as [<- <-].
  set (s3 := performs cs s1) in *. pose proof Hl2 as (l3 & t3 & L3 & es3 & w3 & Hh3 & _).
  assert (getSnapshotNum (sp s3) nm = Ok (num x)) as Enum.
  { unfold getSnapshotNum, getSnapshot. rewrite Ess, getSnapshot_app; [done| |by apply bool_decide_true]. apply Forall_forall. intros y Hy. apply bool_decide_false. intros Ey.
    pose proof (inv_names _ (h_inv Hh3)) as Hnd. rewrite Ess, fmap_app in Hnd. apply NoDup_app in Hnd as (_ & Hnd & _). apply (Hnd (name y)); [by apply list_elem_of_fmap; exists y|rewrite Ey, <- Enm; left]. }
  exists (num x). destruct (erase_log page_size uuid_of page_pos uuid_inj s3 _ (num x) Hl2) as [(y & _ & Hex)|(s2 & a' & x' & b' & Er & Ess' & En' & _ & Hlr)].
  { exfalso. revert Hex. unfold snapshotExists_num, Snapshots.snapshotExists_num, Snapshots.exists_. destruct (Snapshots.find_ (Snapshots.by_num (num x)) (snapshots (sp s3))) eqn:Ef; [done|].
    apply find_none in Ef. rewrite Ess in Ef. apply Forall_app in Ef as [_ Ef]. apply Forall_cons in Ef as [Ef _]. unfold Snapshots.by_num in Ef. by rewrite Z.eqb_refl in Ef. }
  exists s2. split_and!; [done|done|]. rewrite (logged_exact _ _ Hlr), (logged_exact _ _ Hl). f_equal.
  assert (length (flats (a' ++ [x'])) = length (L ++ [es ++ new ++ [e]])) as Elen.
  { assert (a' = a /\ x' = x) as [-> ->]. { pose proof (inv_nums _ (h_inv Hh3)) as Hs. eapply mid_unique; [exact Hs|exact Ess|exact Ess'|done]. }
    apply (f_equal length) in Ek. unfold ids in Ek. rewrite !length_fmap in Ek. rewrite Ek, (h_flat Hh), !length_app. by rewrite (Forall2_length _ _ _ (h_closed Hh)). }
  rewrite Elen, take_app_length, !locations_app, !locations_one, !List.filter_app, (crc_entries_location _ _ Hn). cbn. rewrite He. by rewrite !app_nil_r.
Qed.

End Theorems.

(** ** Witnesses *)
Module ManagementSample.

(** A volume that does nothing but keep what is written to the backend. *)
Record Vol : Type := mkVol { stored : gmap Z (list Z); stored_snapshots : option SnapshotPersistor; is_halted : bool }.

#[global] Instance vol_interface : VolumeInterface Vol := {
  halt v := mkVol (stored v) (stored_snapshots v) true;
  getClusterSize _ := 4096;
  cork _ := mret tt;
  unCorkAndTrySync _ := mret tt;
  writtenToBackendUpTo _ := mret tt;
  removeUpToFromFailOverCache _ := mret tt;
  checkState _ := mret tt;
  backend_write i f cs v :=
    match f with
    | None => (v, Throw BackendInputException)
    | Some f => if CheckSum.getValue (calculate_checksum 4096 f) =? CheckSum.getValue cs
                then (mkVol (<[i := f]> (stored v)) (stored_snapshots v) (is_halted v), Ok tt) else (v, Throw BackendInputException)
    end;
  backend_read v i := match stored v !! i with Some f => Ok f | None => Throw BackendException end;
  backend_write_snapshots p v := (mkVol (stored v) (Some p) (is_halted v), Ok tt) }.

#[global] Instance vol_spec : VolumeSpec Vol.
Proof.
  constructor; try done.
  - intros u v. by exists v.
  - intros i [f|] cs v j Hj; cbn; [|done]. destruct (_ =? _); [|done]. cbn. by rewrite lookup_insert_ne.
  - intros i f cs v v'. cbn. destruct (_ =? _); [|done]. intros [= <-]. cbn. by rewrite lookup_insert_eq.
  - intros i cs v. by exists BackendInputException.
Qed.

Definition uuid (n : nat) : UUID := Z.of_nat n + 1.
Lemma uuid_inj m n : uuid m = uuid n -> m = n.
Proof. unfold uuid. lia. Qed.
Lemma uuid_not_null n : uuid n <> 0.
Proof. unfold uuid. lia. Qed.
Lemma page_pos : (0 < 4096)%nat.
Proof. lia. Qed.

Definition empty : Vol := mkVol ∅ None false.
Definition built : SM Vol := mkSM (create None 1 2) None 2 0 0 ∅ (Some (create None 1 2)) [] 2 empty.
Definition first : SM Vol := fst (initialize 4096 (Some 20) 0 16 built).

Definition loc (n off : Z) : CLH.ClusterLocationAndHash := CLH.mkCLH (ClusterLocation.make n off 0 0) 5.
Definition snap : call := CreateSnapshot "a" None [] 7 false "".
Definition before : SM Vol := fst (perform 4096 uuid (AddClusterEntry 3 (loc 1 0)) first).
Definition taken : SM Vol := fst (perform 4096 uuid snap before).
Definition task : Task := nth 0 (tasks taken) WriteSnapshot.
Definition later : list call := [RunTask task; AddClusterEntry 4 (loc 2 0); AddClusterEntry 3 (loc 2 1)].

Lemma first_started : started 4096 uuid first.
Proof. refine (start_new 4096 uuid Creation None 0 empty (Some 20) 0 16 built first (or_intror eq_refl) eq_refl eq_refl _). vm_compute. reflexivity. Qed.

Lemma first_reachable : reachable 4096 uuid first.
Proof. exists first. split; [exact first_started|apply rtc_refl]. Qed.

Lemma before_reachable : reachable 4096 uuid before.
Proof.
  exists first. split; [exact first_started|]. apply rtc_once. unfold before. apply step_call. split; by_decide.
Qed.

Lemma task_taken : task ∈ tasks taken.
Proof. apply list_elem_of_In, nth_In. vm_compute. lia. Qed.

Lemma later_admissible : admissibles 4096 uuid taken later.
Proof. split; [exact task_taken|]. split; [split; by_decide|]. split; [split; by_decide|exact I]. Qed.

Lemma snap_admissible : admissible before snap.
Proof. assert (snapshots (sp before) = []) as E by (vm_compute; reflexivity). split; [exact I|]. rewrite E. apply List.Forall_nil. Qed.
End ManagementSample.

Lemma management_keeps_log_witness :
  logged ManagementSample.first = Ok [] /\
  exists h, logged ManagementSample.before = Ok h /\
    logged (performs 4096 ManagementSample.uuid (ManagementSample.snap :: ManagementSample.later) ManagementSample.before) =
      Ok (h ++ concat (added <$> ManagementSample.snap :: ManagementSample.later)).
Proof.
  split.
  - apply (proj1 (management_keeps_log 4096 ManagementSample.uuid ManagementSample.page_pos ManagementSample.uuid_inj ManagementSample.uuid_not_null ManagementSample.first [])).
    exact ManagementSample.first_started.
  - apply (proj2 (management_keeps_log 4096 ManagementSample.uuid ManagementSample.page_pos ManagementSample.uuid_inj ManagementSample.uuid_not_null ManagementSample.before _)).
    + exact ManagementSample.before_reachable.
    + split; [exact ManagementSample.snap_admissible|exact ManagementSample.later_admissible].
Defined.

Lemma restart_keeps_synced_witness :
  exists s1 s2 h h', construct ManagementSample.uuid LocalRestart None (files ManagementSample.before) (snapshots_file ManagementSample.before) (drawn ManagementSample.before) ManagementSample.empty = Ok s1 /\
    initialize 4096 (Some 20) 0 16 s1 = (s2, Ok tt) /\ logged ManagementSample.before = Ok h /\ logged s2 = Ok h' /\ h' `prefix_of` h /\
    (forall r, reachable 4096 ManagementSample.uuid r -> ManagementSample.before = fst (sync None r) -> h' = h).
Proof.
  apply (restart_keeps_synced 4096 ManagementSample.uuid ManagementSample.page_pos ManagementSample.uuid_inj ManagementSample.uuid_not_null).
  - exact ManagementSample.before_reachable.
  - intros i. reflexivity.
  - reflexivity.
Defined.

Lemma restore_exact_witness :
  exists n s2, getSnapshotNum (sp (performs 4096 ManagementSample.uuid ManagementSample.later ManagementSample.taken)) "a" = Ok n /\
    eraseSnapshotsAndTLogsAfterSnapshot 4096 ManagementSample.uuid n (performs 4096 ManagementSample.uuid ManagementSample.later ManagementSample.taken) = (s2, Ok tt) /\
    logged s2 = logged ManagementSample.before.
Proof.
  apply (restore_exact 4096 ManagementSample.uuid ManagementSample.page_pos ManagementSample.uuid_inj ManagementSample.uuid_not_null ManagementSample.before "a" None [] 7 false "").
  - exact ManagementSample.before_reachable.
  - exact ManagementSample.snap_admissible.
  - vm_compute. reflexivity.
  - exact ManagementSample.later_admissible.
  - intros [H|[H|[H|H]%elem_of_cons]%elem_of_cons]%elem_of_cons; [discriminate H..|]. destruct (not_elem_of_nil _ H).
Defined.
