(* ===== verification/Volume.v ===== *)
(** * [Volume]: reading and writing

    The source is [volumedriver/Volume.cpp], with [VolumeFailOverState.h]: the way of a request through data
    store, metadata store, log, cluster cache and DTL, and the operations that act on all of
    them (sync, snapshots, rollover of the SCO, replay of the DTL, resize).

    The components a volume is made of are classes ([DataStore], [MetaDataStore],
    [FailOverCacheClient], [ClusterCacheClient], [BackendClient]), after the interfaces of the code;
    [SnapshotManagement] is that of [SnapshotManagement.v], whose
    [VolumeInterface] is implemented here by what the volume has besides ([Rest]).  Buffers that
    are written from are lists of bytes, those that are read into are addresses in
    the memory of the data store.

    Locks, tracing, counters of performance, sleeping, waiting for the backend and the writes of the
    configuration to the backend are left out. *)

From S2P Require Import Prelude CheckSum Addressing TLogEntry TLogIO TLogs Snapshots SnapshotPersistor SnapshotManagement ClusterCache SCOCache DataStore.

Module Volume.
Import ClusterLocation (ClusterLocation, sco_, isNull, offset_, cloneID) CLH SnapshotManagement ClusterCacheEntry (ClusterCacheMode (..)).
Import DataStoreNG (ClusterReadDescriptor (..), store).

(** ** The components *)
Class DataStore (D : Type) : Type := {
  writeClusters : list Z -> nat -> M D (list ClusterLocation * Z);
  writeClusterToLocation : list Z -> ClusterLocation -> M D Z;
  readClusters : list ClusterReadDescriptor -> M D unit;
  touchCluster : ClusterLocation -> M D unit;
  getRemainingSCOCapacity : D -> Z;
  finalizeCurrentSCO : M D (option CheckSum.CheckSum);
  ds_sync : M D (option CheckSum.CheckSum);
  ds_setSCOMultiplier : Z -> M D unit;
  ds_writtenToBackendUpTo : SCO.SCO -> M D unit;
  ds_halted : D -> bool;
  memory : D -> gmap Z Z;
  set_memory : gmap Z Z -> D -> D }.

Class MetaDataStore (MD : Type) : Type := {
  readCluster : Z -> M MD ClusterLocationAndHash;
  writeCluster : Z -> ClusterLocationAndHash -> M MD unit;
  md_cork : TLog.UUID -> M MD unit;
  md_unCork : TLog.UUID -> M MD unit;
  md_sync : M MD unit }.

(** [degraded] counts how often the volume was told that it is. *)
Class FailOverCacheClient (F : Type) : Type := {
  backup : F -> bool;
  addEntries : list ClusterLocation -> Z -> list Z -> M F bool;
  foc_flush : M F unit;
  foc_removeUpTo : SCO.SCO -> M F unit;
  synchronous : F -> bool;
  max_entries : F -> Z;
  degraded : F -> nat }.

(** The cluster cache, for the handle of the volume. *)
Class ClusterCacheClient (C : Type) : Type := {
  cache_cluster_size : C -> Z;
  cache_add : Z -> Weed -> list Z -> M C unit;
  cache_invalidate : Z -> Weed -> M C unit;
  cache_read : Z -> Weed -> M C (option (list Z)) }.

Class BackendClient (B : Type) : Type := {
  be_write : TLog.TLogId -> option (list Z) -> CheckSum.CheckSum -> M B unit;
  be_read : B -> TLog.TLogId -> res (list Z);
  be_write_snapshots : SnapshotPersistor.SnapshotPersistor -> M B unit }.

Inductive VolumeFailOverState : Type := OK_SYNC | OK_STANDALONE | KETCHUP | DEGRADED.
#[global] Instance fos_eq_dec : EqDecision VolumeFailOverState.
Proof. solve_decision. Defined.

Inductive ClusterCacheBehaviour : Type := CacheOnWrite | CacheOnRead | NoCache.
#[global] Instance ccb_eq_dec : EqDecision ClusterCacheBehaviour.
Proof. solve_decision. Defined.

(** What does not change: the configuration, and the digest of a cluster. *)
Record Config : Type := mkConfig {
  lba_size_ : Z;
  clusterSize_ : Z;
  volOffset_ : Z;
  volume_nullio : bool;
  readOnlyMode : bool;
  cluster_cache_behaviour_ : ClusterCacheBehaviour;
  cluster_cache_mode_ : ClusterCacheMode;
  number_of_syncs_to_ignore_ : Z;
  maximum_time_to_ignore_syncs_in_seconds_ : Z;
  number_of_scos_in_tlog : Z;
  real_max_volume_size : Z;
  weed_of : list Z -> Weed }.

(** Bytes in memory. *)
Definition load (a : Z) (n : nat) (mem : gmap Z Z) : list Z := (fun i => default 0 (mem !! (a + Z.of_nat i))) <$> seq 0 n.

Section Volume.
Context {D MD F C B : Type} `{DataStore D} `{MetaDataStore MD} `{FailOverCacheClient F} `{ClusterCacheClient C} `{BackendClient B}.
Variable cf : Config.
(** [sysconf(_SC_PAGESIZE)], the UUIDs drawn, where a bounce buffer is, and how often a
    batch is offered to the DTL. *)
Variable page_size : nat.
Variable uuid_of : nat -> TLog.UUID.
Variable bounce : Z.
Variable attempts : nat.

Record Rest : Type := mkRest {
  dataStore_ : D;
  metaDataStore_ : MD;
  failover_ : F;
  cluster_cache : C;
  backend : B;
  halted_ : bool;
  isVolumeTemplate : bool;
  failoverstate_ : VolumeFailOverState;
  last_tlog_not_on_failover_ : option TLog.TLogId;
  readcounter_ : Z;
  readCacheHits_ : Z;
  readCacheMisses_ : Z;
  number_of_syncs_ : Z;
  total_number_of_syncs_ : Z;
  lba_count_ : Z }.

Definition set_ds x r := mkRest x (metaDataStore_ r) (failover_ r) (cluster_cache r) (backend r) (halted_ r) (isVolumeTemplate r) (failoverstate_ r) (last_tlog_not_on_failover_ r) (readcounter_ r) (readCacheHits_ r) (readCacheMisses_ r) (number_of_syncs_ r) (total_number_of_syncs_ r) (lba_count_ r).
Definition set_md x r := mkRest (dataStore_ r) x (failover_ r) (cluster_cache r) (backend r) (halted_ r) (isVolumeTemplate r) (failoverstate_ r) (last_tlog_not_on_failover_ r) (readcounter_ r) (readCacheHits_ r) (readCacheMisses_ r) (number_of_syncs_ r) (total_number_of_syncs_ r) (lba_count_ r).
Definition set_foc x st r := mkRest (dataStore_ r) (metaDataStore_ r) x (cluster_cache r) (backend r) (halted_ r) (isVolumeTemplate r) st (last_tlog_not_on_failover_ r) (readcounter_ r) (readCacheHits_ r) (readCacheMisses_ r) (number_of_syncs_ r) (total_number_of_syncs_ r) (lba_count_ r).
Definition set_cc x r := mkRest (dataStore_ r) (metaDataStore_ r) (failover_ r) x (backend r) (halted_ r) (isVolumeTemplate r) (failoverstate_ r) (last_tlog_not_on_failover_ r) (readcounter_ r) (readCacheHits_ r) (readCacheMisses_ r) (number_of_syncs_ r) (total_number_of_syncs_ r) (lba_count_ r).
Definition set_be x r := mkRest (dataStore_ r) (metaDataStore_ r) (failover_ r) (cluster_cache r) x (halted_ r) (isVolumeTemplate r) (failoverstate_ r) (last_tlog_not_on_failover_ r) (readcounter_ r) (readCacheHits_ r) (readCacheMisses_ r) (number_of_syncs_ r) (total_number_of_syncs_ r) (lba_count_ r).
Definition set_halted r := mkRest (dataStore_ r) (metaDataStore_ r) (failover_ r) (cluster_cache r) (backend r) true (isVolumeTemplate r) (failoverstate_ r) (last_tlog_not_on_failover_ r) (readcounter_ r) (readCacheHits_ r) (readCacheMisses_ r) (number_of_syncs_ r) (total_number_of_syncs_ r) (lba_count_ r).
Definition set_template r := mkRest (dataStore_ r) (metaDataStore_ r) (failover_ r) (cluster_cache r) (backend r) (halted_ r) true (failoverstate_ r) (last_tlog_not_on_failover_ r) (readcounter_ r) (readCacheHits_ r) (readCacheMisses_ r) (number_of_syncs_ r) (total_number_of_syncs_ r) (lba_count_ r).
Definition count_reads (n hits misses : Z) r := mkRest (dataStore_ r) (metaDataStore_ r) (failover_ r) (cluster_cache r) (backend r) (halted_ r) (isVolumeTemplate r) (failoverstate_ r) (last_tlog_not_on_failover_ r) (u64 (readcounter_ r + n)) (u64 (readCacheHits_ r + hits)) (u64 (readCacheMisses_ r + misses)) (number_of_syncs_ r) (total_number_of_syncs_ r) (lba_count_ r).
Definition set_syncs (n total : Z) r := mkRest (dataStore_ r) (metaDataStore_ r) (failover_ r) (cluster_cache r) (backend r) (halted_ r) (isVolumeTemplate r) (failoverstate_ r) (last_tlog_not_on_failover_ r) (readcounter_ r) (readCacheHits_ r) (readCacheMisses_ r) n total (lba_count_ r).
Definition set_lba_count n r := mkRest (dataStore_ r) (metaDataStore_ r) (failover_ r) (cluster_cache r) (backend r) (halted_ r) (isVolumeTemplate r) (failoverstate_ r) (last_tlog_not_on_failover_ r) (readcounter_ r) (readCacheHits_ r) (readCacheMisses_ r) (number_of_syncs_ r) (total_number_of_syncs_ r) n.

(** Calls of the components.  The DTL tells the volume when it is degraded. *)
Definition on_ds {A} (m : M D A) : M Rest A := fun r => let '(x, a) := m (dataStore_ r) in (set_ds x r, a).
Definition on_md {A} (m : M MD A) : M Rest A := fun r => let '(x, a) := m (metaDataStore_ r) in (set_md x r, a).
Definition on_cc {A} (m : M C A) : M Rest A := fun r => let '(x, a) := m (cluster_cache r) in (set_cc x r, a).
Definition on_be {A} (m : M B A) : M Rest A := fun r => let '(x, a) := m (backend r) in (set_be x r, a).
Definition on_foc {A} (m : M F A) : M Rest A := fun r =>
  let '(x, a) := m (failover_ r) in
  (set_foc x (if (degraded x =? degraded (failover_ r))%nat then failoverstate_ r else DEGRADED) r, a).

Definition setVolumeFailOverState (st : VolumeFailOverState) : M Rest unit := mmodify (fun r => set_foc (failover_ r) st r).

(** ** What [SnapshotManagement] calls *)
Definition v_unCorkAndTrySync (c : TLog.UUID) : M Rest unit := fun r =>
  match on_md (md_unCork c) r with
  | (r', Ok _) => (fst (on_md md_sync r'), Ok tt)
  | (r', Throw e) => (r', Throw e)
  end.

Definition v_removeUpToFromFailOverCache (s : SCO.SCO) : M Rest unit :=
  let! r := mget in
  if backup (failover_ r) then on_foc foc_flush ;! on_foc (foc_removeUpTo s) else mret tt.

Definition v_checkState (tlog_id : TLog.TLogId) : M Rest unit :=
  let! r := mget in
  if bool_decide (last_tlog_not_on_failover_ r = Some tlog_id) then setVolumeFailOverState OK_SYNC else mret tt.

#[local] Instance rest_interface : VolumeInterface Rest := {
  halt := set_halted;
  getClusterSize _ := clusterSize_ cf;
  cork c := on_md (md_cork c);
  unCorkAndTrySync := v_unCorkAndTrySync;
  writtenToBackendUpTo s := on_ds (ds_writtenToBackendUpTo s);
  removeUpToFromFailOverCache := v_removeUpToFromFailOverCache;
  checkState := v_checkState;
  backend_write i f cs := on_be (be_write i f cs);
  backend_read r i := be_read (backend r) i;
  backend_write_snapshots p := on_be (be_write_snapshots p) }.

Definition Vol : Type := SM Rest.

(** ** Control *)
Definition on_rest {A} (m : M Rest A) : M Vol A := on_vol m.
Definition rest : M Vol Rest := let! s := mget in mret (vol s).
Definition throw_if (b : bool) (e : exn) : M Vol unit := if b then mthrow e else mret tt.
(** [CATCH_STD_ALL_EWHAT({ report; halt(); throw; })] *)
Definition halting {A} (m : M Vol A) : M Vol A := halt_rethrow m.

Definition is_halted (r : Rest) : bool := halted_ r || ds_halted (dataStore_ r).
Definition checkNotHalted_ : M Vol unit := let! r := rest in throw_if (is_halted r) VolumeHaltedException.
Definition checkNotReadOnly_ : M Vol unit := throw_if (readOnlyMode cf) IOException.

Definition addr2CA (addr : Z) : Z := addr / clusterSize_ cf.
Definition getSize (r : Rest) : Z := u64 (lba_size_ cf * lba_count_ r).

(** The sum is one of [uint64_t]. *)
Definition validateIOLength (off len : Z) : M Vol unit :=
  let! r := rest in
  throw_if (u64 (lba_count_ r * lba_size_ cf) <? u64 (off + len)) AccessBeyondEndOfVolumeException.

Definition validateIOAlignment (off len : Z) : M Vol unit :=
  throw_if (negb (len mod clusterSize_ cf =? 0)) IOException ;!
  throw_if (negb (off mod clusterSize_ cf =? 0)) IOException.

(** ** The cluster cache *)
Definition usable (ccmode : ClusterCacheMode) (c : C) : bool :=
  (use_hash || bool_decide (ccmode <> ContentBased)) && (cache_cluster_size c =? clusterSize_ cf).

Definition add_to_cluster_cache_ (ccmode : ClusterCacheMode) (ca : Z) (weed : Weed) (buf : list Z) : M Vol unit :=
  let! r := rest in
  if usable ccmode (cluster_cache r) then on_rest (on_cc (cache_add ca weed buf)) else mret tt.

Definition purge_from_cluster_cache_ (ca : Z) (weed : Weed) : M Vol unit :=
  let! r := rest in
  if cache_cluster_size (cluster_cache r) =? clusterSize_ cf then on_rest (on_cc (cache_invalidate ca weed)) else mret tt.

Definition find_in_cluster_cache_ (ccmode : ClusterCacheMode) (ca : Z) (weed : Weed) : M Vol (option (list Z)) :=
  let! r := rest in
  if usable ccmode (cluster_cache r) then on_rest (on_cc (cache_read ca weed)) else mret None.

Definition isCacheOnWrite : bool := bool_decide (cluster_cache_behaviour_ cf = CacheOnWrite).

(** ** Writing *)
Definition writeClusterMetaData_ (ca : Z) (lh : ClusterLocationAndHash) : M Vol unit :=
  addClusterEntry ca lh ;!
  halting (on_rest (on_md (writeCluster ca lh))).

(** A batch that is refused is offered again. *)
Fixpoint offer (fuel : nat) (locs : list ClusterLocation) (start_address : Z) (buf : list Z) : M Vol unit :=
  match fuel with
  | O => mthrow OutOfFuel
  | S f =>
      let! b := on_rest (on_foc (addEntries locs start_address buf)) in
      if b : bool then mret tt else offer f locs start_address buf
  end.

Definition writeClustersToFailOverCache_ (locs : list ClusterLocation) (start_address : Z) (buf : list Z) : M Vol bool :=
  let! r := rest in
  if backup (failover_ r) then
    offer attempts locs start_address buf ;!
    let! r := rest in
    mret (synchronous (failover_ r) && bool_decide (failoverstate_ r = OK_SYNC))
  else mret false.

Definition make_cluster_location_and_hash (loc : ClusterLocation) (ccmode : ClusterCacheMode) (buf : list Z) : ClusterLocationAndHash :=
  match ccmode with
  | ContentBased => mkCLH loc (weed_of cf buf)
  | LocationBased => mkCLH loc 0
  end.

(** One cluster of [writeClusters_]: log, metadata and cache. *)
Definition log_cluster (ccmode : ClusterCacheMode) (ca : Z) (loc : ClusterLocation) (data : list Z) : M Vol unit :=
  let lh := make_cluster_location_and_hash loc ccmode data in
  writeClusterMetaData_ ca lh ;!
  if isCacheOnWrite then add_to_cluster_cache_ ccmode ca (weed_ lh) data
  else match ccmode with
       | LocationBased => purge_from_cluster_cache_ ca (weed_ lh)
       | ContentBased => mret tt
       end.

Definition nth_cluster (buf : list Z) (i : nat) : list Z := take (Z.to_nat (clusterSize_ cf)) (drop (i * Z.to_nat (clusterSize_ cf)) buf).

Definition log_clusters (addr : Z) (buf : list Z) (locs : list ClusterLocation) : M Vol unit :=
  miter (fun '(i, loc) => log_cluster (cluster_cache_mode_ cf) (addr2CA (u64 (addr + Z.of_nat i * clusterSize_ cf))) loc (nth_cluster buf i))
        (imap (fun i loc => (i, loc)) locs).

(** The SCO is full: the next one, and its check sum to the log. *)
Definition maybe_rollover : M Vol unit :=
  let! r := rest in
  let sco_cap := getRemainingSCOCapacity (dataStore_ r) in
  mverify (0 <=? sco_cap) ;!
  if sco_cap =? 0 then
    let! cs := on_rest (on_ds finalizeCurrentSCO) in
    match cs with
    | None => mthrow VerifyFailed
    | Some cs => addSCOCRC page_size uuid_of cs
    end
  else mret tt.

Definition writeClusters_ (addr : Z) (buf : list Z) : M Vol bool :=
  let bufsize := Z.of_nat (length buf) in
  mverify (addr mod clusterSize_ cf =? 0) ;!
  mverify (bufsize mod clusterSize_ cf =? 0) ;!
  let num_locs := Z.to_nat (bufsize / clusterSize_ cf) in
  let! (locs, ds_throttle) := on_rest (on_ds (writeClusters buf num_locs)) in
  log_clusters addr buf locs ;!
  let! dtl_in_sync := writeClustersToFailOverCache_ locs (Z.shiftr addr (volOffset_ cf)) buf in
  maybe_rollover ;!
  mret dtl_in_sync.

(** The loop, on what is left of the buffer.  A SCO without capacity is rolled over by a round that
    writes nothing.  There is always a DTL client. *)
Fixpoint write_loop (fuel : nat) (off : Z) (buf : list Z) (dtl_in_sync : bool) : M Vol bool :=
  match fuel with
  | O => mthrow OutOfFuel
  | S f =>
      if (length buf =? 0)%nat then mret dtl_in_sync
      else
        let! r := rest in
        let sco_cap := u64 (getRemainingSCOCapacity (dataStore_ r) * clusterSize_ cf) in
        mverify (sco_cap <? 2 ^ 63) ;!
        let dtl_cap := u64 (max_entries (failover_ r) * clusterSize_ cf) in
        mverify (0 <? dtl_cap) ;!
        let chunksize := Z.to_nat (Z.min (Z.of_nat (length buf)) (Z.min dtl_cap sco_cap)) in
        let! in_sync := writeClusters_ off (take chunksize buf) in
        write_loop f (u64 (off + Z.of_nat chunksize)) (drop chunksize buf) (dtl_in_sync && in_sync)
  end.

Definition write_aligned_ (off : Z) (buf : list Z) : M Vol bool :=
  validateIOAlignment off (Z.of_nat (length buf)) ;!
  write_loop (S (S (length buf))) off buf true.

(** ** Reading *)
Definition set_bytes (a : Z) (bs : list Z) : M Vol unit :=
  on_rest (on_ds (mmodify (fun d => set_memory (store a bs (memory d)) d))).

(** One cluster of [readClusters_]: zeros, from the cache, or to be read from its SCO. *)
Definition lookup_cluster (ccmode : ClusterCacheMode) (ca buf : Z) : M Vol (list (Z * Weed * ClusterReadDescriptor)) :=
  on_rest (mmodify (count_reads 1 0 0)) ;!
  let! lh := halting (on_rest (on_md (readCluster ca))) in
  if isNull (clusterLocation lh) then
    set_bytes buf (replicate (Z.to_nat (clusterSize_ cf)) 0) ;! mret []
  else
    let! cached := find_in_cluster_cache_ ccmode ca (weed_ lh) in
    match cached with
    | Some bs =>
        set_bytes buf bs ;!
        on_rest (mmodify (count_reads 0 1 0)) ;!
        on_rest (on_ds (touchCluster (clusterLocation lh))) ;!
        mret []
    | None =>
        on_rest (mmodify (count_reads 0 0 1)) ;!
        mret [(ca, weed_ lh, DataStoreNG.mkDesc (clusterLocation lh) buf (Some (cloneID (clusterLocation lh))))]
    end.

Fixpoint lookup_clusters (ccmode : ClusterCacheMode) (n : nat) (addr buf : Z) : M Vol (list (Z * Weed * ClusterReadDescriptor)) :=
  match n with
  | O => mret []
  | S n =>
      let! x := lookup_cluster ccmode (addr2CA addr) buf in
      let! l := lookup_clusters ccmode n (u64 (addr + clusterSize_ cf)) (buf + clusterSize_ cf) in
      mret (x ++ l)
  end.

Definition readClusters_ (addr buf bufsize : Z) : M Vol unit :=
  let ccmode := cluster_cache_mode_ cf in
  let! descs := lookup_clusters ccmode (Z.to_nat (bufsize / clusterSize_ cf)) addr buf in
  on_rest (on_ds (readClusters (snd <$> descs))) ;!
  if bool_decide (cluster_cache_behaviour_ cf <> NoCache) then
    miter (fun '(ca, weed, desc) =>
      let! r := rest in
      add_to_cluster_cache_ ccmode ca weed (load (DataStoreNG.buf_ desc) (Z.to_nat (clusterSize_ cf)) (memory (dataStore_ r)))) descs
  else mret tt.

(** The clusters that a request touches. *)
Definition nclusters (off len : Z) : Z :=
  let n := u64 (off mod clusterSize_ cf + len) in
  n / clusterSize_ cf + (if n mod clusterSize_ cf =? 0 then 0 else 1).
Definition aligned_len (off len : Z) : Z := u64 (nclusters off len * clusterSize_ cf).
Definition aligned_off (off : Z) : Z := off / clusterSize_ cf * clusterSize_ cf.
Definition unaligned (off len : Z) : bool := negb (aligned_len off len =? len) || negb (aligned_off off =? off).

Definition read (off buf len : Z) : M Vol unit :=
  if volume_nullio cf then mret tt
  else
    checkNotHalted_ ;!
    validateIOLength off len ;!
    validateIOAlignment (aligned_off off) (aligned_len off len) ;!
    if unaligned off len then
      readClusters_ (aligned_off off) bounce (aligned_len off len) ;!
      let! r := rest in
      set_bytes buf (load (bounce + off mod clusterSize_ cf) (Z.to_nat len) (memory (dataStore_ r)))
    else readClusters_ (aligned_off off) buf (aligned_len off len).

(** An unaligned write reads the clusters it touches, changes them and writes them. *)
Definition write (off : Z) (buf : list Z) : M Vol bool :=
  if volume_nullio cf then mret true
  else
    let len := Z.of_nat (length buf) in
    let! r := rest in
    throw_if (isVolumeTemplate r) VolumeIsTemplateException ;!
    checkNotHalted_ ;!
    checkNotReadOnly_ ;!
    validateIOLength off len ;!
    if unaligned off len then
      read (aligned_off off) bounce (aligned_len off len) ;!
      let! r := rest in
      let coff := Z.to_nat (off mod clusterSize_ cf) in
      let old := load bounce (Z.to_nat (aligned_len off len)) (memory (dataStore_ r)) in
      write_aligned_ (aligned_off off) (take coff old ++ buf ++ drop (coff + length buf) old)
    else write_aligned_ (aligned_off off) buf.

(** ** The whole volume *)
Definition sync_ (append_chksum : bool) : M Vol bool :=
  checkNotHalted_ ;!
  let! maybe_sco_crc := on_rest (on_ds ds_sync) in
  SnapshotManagement.sync (if append_chksum then maybe_sco_crc else None) ;!
  on_rest (on_foc foc_flush) ;!
  let! r := rest in
  mret (backup (failover_ r) && bool_decide (failoverstate_ r = OK_SYNC)).

(** [elapsed]: the seconds since the last sync that was not ignored. *)
Definition sync (elapsed : Z) : M Vol bool :=
  if volume_nullio cf then mret true
  else
    let! r := rest in
    on_rest (mmodify (set_syncs (u64 (number_of_syncs_ r + 1)) (u64 (total_number_of_syncs_ r + 1)))) ;!
    let! r := rest in
    if (number_of_syncs_to_ignore_ cf <? number_of_syncs_ r) || (maximum_time_to_ignore_syncs_in_seconds_ cf <? elapsed) then
      on_rest (mmodify (fun r => set_syncs 0 (total_number_of_syncs_ r) r)) ;!
      sync_ false
    else mret false.

Definition createSnapshot (name : Snapshot.SnapshotName) (metadata : Snapshot.SnapshotMetaData) (uuid : TLog.UUID) (now : string) : M Vol unit :=
  let! r := rest in
  throw_if (isVolumeTemplate r) VolumeIsTemplateException ;!
  checkNotHalted_ ;!
  let! s := mget in
  let! b := mlift (lastSnapshotOnBackend s) in
  throw_if (negb b) PreviousSnapshotNotOnBackendException ;!
  sync_ false ;!
  let! maybe_sco_crc := on_rest (on_ds finalizeCurrentSCO) in
  SnapshotManagement.createSnapshot page_size uuid_of name maybe_sco_crc metadata uuid false now.

Definition scheduleBackendSync_ : M Vol TLog.TLogId :=
  sync_ false ;!
  let! maybe_sco_crc := on_rest (on_ds finalizeCurrentSCO) in
  SnapshotManagement.scheduleBackendSync page_size uuid_of maybe_sco_crc.

Definition scheduleBackendSync : M Vol TLog.TLogId := checkNotHalted_ ;! scheduleBackendSync_.

Definition setAsTemplate (name_of : TLog.UUID -> Snapshot.SnapshotName) (now : string) : M Vol unit :=
  checkNotHalted_ ;!
  sync_ false ;!
  let! maybe_sco_crc := on_rest (on_ds finalizeCurrentSCO) in
  SnapshotManagement.setAsTemplate page_size uuid_of maybe_sco_crc name_of now ;!
  on_rest (mmodify set_template) ;!
  sync_ true ;! mret tt.

(** [check]: what [VolManager::checkSCOAndTLogMultipliers] throws; [smin] and [smax]
    are the limits of the environment. *)
Definition setSCOMultiplier (check : res unit) (smin smax : Z) (tlog_mult : option Z) (sco_mult : Z) : M Vol unit :=
  checkNotHalted_ ;!
  let sco_size_new := u64 (clusterSize_ cf * sco_mult) in
  let limit := u64 (2 ^ 16 * clusterSize_ cf) in
  throw_if (sco_size_new <? Z.min limit smin) InvalidOperation ;!
  throw_if (Z.min limit smax <? sco_size_new) InvalidOperation ;!
  mlift check ;!
  on_rest (on_ds (ds_setSCOMultiplier sco_mult)) ;!
  set_max_tlog_entries tlog_mult (number_of_scos_in_tlog cf) sco_mult ;!
  scheduleBackendSync_ ;! mret tt.

Definition cluster_mult : Z := clusterSize_ cf / lba_size_ cf.

Definition resize (clusters : Z) : M Vol unit :=
  let! r := rest in
  mverify (lba_count_ r mod cluster_mult =? 0) ;!
  let ncl := lba_count_ r / cluster_mult in
  if clusters <? ncl then mthrow CannotShrinkVolumeException
  else if real_max_volume_size cf / clusterSize_ cf <? clusters then mthrow CannotGrowVolumeBeyondLimitException
  else if ncl <? clusters then on_rest (mmodify (set_lba_count (u64 (clusters * cluster_mult))))
  else mret tt.

(** ** Replay of the DTL *)
Definition replayClusterFromFailOverCache_ (ca : Z) (loc : ClusterLocation) (buf : list Z) : M Vol unit :=
  checkNotHalted_ ;!
  let! forced_rollover := (if offset_ loc =? 0 then on_rest (on_ds finalizeCurrentSCO) else mret None) in
  on_rest (on_ds (writeClusterToLocation buf loc)) ;!
  match forced_rollover with
  | Some cs => addSCOCRC page_size uuid_of cs
  | None => mret tt
  end ;!
  writeClusterMetaData_ ca (mkCLH loc (weed_of cf buf)).

(** A cluster is tried 256 times; [env] is what happens to the volume while one waits. *)
Fixpoint replay_one (env : list (Rest -> Rest)) (ca : Z) (loc : ClusterLocation) (buf : list Z) : M Vol unit :=
  match env with
  | [] => replayClusterFromFailOverCache_ ca loc buf
  | e :: env =>
      catch (replayClusterFromFailOverCache_ ca loc buf)
        (fun x => if decide (x = TransientException) then on_rest (mmodify e) ;! replay_one env ca loc buf else mthrow x)
  end.

(** [entries]: what the DTL hands out, with the address in LBAs. *)
Definition replayFOC_ (env : list (Rest -> Rest)) (entries : list (ClusterLocation * Z * list Z)) : M Vol unit :=
  catch
    (miter (fun '(loc, lba, buf) =>
       mverify (Z.of_nat (length buf) =? clusterSize_ cf) ;!
       let off := u64 (lba * lba_size_ cf) in
       validateIOAlignment off (Z.of_nat (length buf)) ;!
       replay_one env (addr2CA off) loc buf) entries ;!
     let! cs := on_rest (on_ds finalizeCurrentSCO) in
     let! b := currentTLogHasData in
     if b : bool then SnapshotManagement.scheduleBackendSync page_size uuid_of cs ;! mret tt else mret tt)
    (fun _ => mthrow IOException).

End Volume.
Arguments Rest D MD F C B : clear implicits.
Arguments Vol D MD F C B : clear implicits.
End Volume.
