(* ===== verification/VolumeFacts.v ===== *)
(** * What a volume needs of its components, and its invariant

    A class per component says what the volume relies on.  [sound] relates the state of the
    components to the bytes of a disk; [up] adds the log. *)

From stdpp Require Import sorting.
From S2P Require Import Prelude CheckSum Addressing TLogEntry TLogIO TLogIOFacts TLogs Snapshots SnapshotPersistor SnapshotManagement SnapshotManagementFacts SnapshotManagementOps SnapshotManagementTheorems ClusterCache SCOCache DataStore Volume.
Import ClusterLocation (ClusterLocation, isNull) CLH SnapshotManagement ClusterCacheEntry (ClusterCacheMode (..)) Volume.

Lemma match_mode {A} (x : ClusterCacheMode) (a b : A) : x = LocationBased -> match x with LocationBased => a | ContentBased => b end = a.
Proof. by intros ->. Qed.

(** ** Memory and disks *)
Definition at_ (mem : gmap Z Z) (x : Z) : Z := default 0 (mem !! x).

(** A disk maps offsets to bytes. *)
Definition upd (m : Z -> Z) (off : Z) (bs : list Z) : Z -> Z := fun x =>
  if bool_decide (off <= x < off + Z.of_nat (length bs)) then nth (Z.to_nat (x - off)) bs 0 else m x.

Definition bytes (m : Z -> Z) (off : Z) (n : nat) : list Z := (fun i => m (off + Z.of_nat i)) <$> seq 0 n.

Lemma load_bytes a n mem : load a n mem = bytes (at_ mem) a n.
Proof. done. Qed.

Lemma length_bytes m off n : length (bytes m off n) = n.
Proof. unfold bytes. by rewrite length_fmap, length_seq. Qed.

Lemma lookup_bytes m off n i : (i < n)%nat -> bytes m off n !! i = Some (m (off + Z.of_nat i)).
Proof. intros Hi. unfold bytes. rewrite list_lookup_fmap, lookup_seq_lt by done. done. Qed.

Lemma nth_bytes m off n i : (i < n)%nat -> nth i (bytes m off n) 0 = m (off + Z.of_nat i).
Proof. intros Hi. apply nth_lookup_Some. by apply lookup_bytes. Qed.

Lemma bytes_ext m m' off off' n : (forall i, (i < n)%nat -> m (off + Z.of_nat i) = m' (off' + Z.of_nat i)) -> bytes m off n = bytes m' off' n.
Proof. intros He. unfold bytes. apply list_fmap_ext. intros i x [-> Hi]%lookup_seq. by apply He. Qed.

Lemma bytes_of m off n bs : length bs = n -> (forall i, (i < n)%nat -> m (off + Z.of_nat i) = nth i bs 0) -> bytes m off n = bs.
Proof.
  intros <- He. apply list_eq_same_length with (length bs); [done|by rewrite length_bytes|]. intros i x y Hi Hx Hy. rewrite lookup_bytes in Hx by done.
  injection Hx as <-. rewrite He by done. by apply nth_lookup_Some.
Qed.

Lemma nth_take_lt (l : list Z) i k : (i < k)%nat -> nth i (take k l) 0 = nth i l 0.
Proof. revert l k. induction i as [|i IH]; intros [|x l] [|k] Hi; try done; try lia. cbn. apply IH. lia. Qed.

Lemma nth_drop (l : list Z) i k : nth i (drop k l) 0 = nth (k + i) l 0.
Proof. revert l. induction k as [|k IH]; intros [|x l]; cbn; try done. by destruct i. Qed.

Lemma upd_in m off bs i : (i < length bs)%nat -> upd m off bs (off + Z.of_nat i) = nth i bs 0.
Proof. intros Hi. unfold upd. rewrite bool_decide_true by lia. f_equal. lia. Qed.

Lemma upd_out m off bs x : ~ off <= x < off + Z.of_nat (length bs) -> upd m off bs x = m x.
Proof. intros Hx. unfold upd. by rewrite bool_decide_false. Qed.

Lemma upd_nil m off x : upd m off [] x = m x.
Proof. apply upd_out. cbn. lia. Qed.

Lemma upd_app m off a b x : upd (upd m off a) (off + Z.of_nat (length a)) b x = upd m off (a ++ b) x.
Proof.
  unfold upd. rewrite length_app. repeat case_bool_decide; try lia; try done; [rewrite app_nth2 by lia; f_equal; lia|by rewrite app_nth1 by lia].
Qed.

Lemma upd_ext m m' off bs x : m x = m' x -> upd m off bs x = upd m' off bs x.
Proof. intros He. unfold upd. by rewrite He. Qed.

Lemma store_at bs : forall a mem x, at_ (DataStoreNG.store a bs mem) x = upd (at_ mem) a bs x.
Proof.
  induction bs as [|b bs IH]; intros a mem x; cbn [DataStoreNG.store]; [by rewrite upd_nil|]. rewrite IH. unfold upd, at_. cbn [length].
  repeat case_bool_decide; try lia.
  - replace (Z.to_nat (x - a)) with (S (Z.to_nat (x - (a + 1)))) by lia. done.
  - assert (x = a) as -> by lia. rewrite lookup_insert_eq, Z.sub_diag. done.
  - by rewrite lookup_insert_ne by lia.
Qed.

(** ** The components *)
Section Classes.
Context {D MD F C B : Type} `{IDS : DataStore D} `{IMD : MetaDataStore MD} `{IFC : FailOverCacheClient F} `{ICC : ClusterCacheClient C} `{IBE : BackendClient B}.

(** Clusters are stored under new locations and stay, but for a failure that halts the store. *)
Class DataStoreSpec (cs : Z) : Type := {
  content : D -> ClusterLocation -> option (list Z);
  ds_inv : D -> Prop;
  retains (d d' : D) : Prop := forall l bs, content d l = Some bs -> content d' l = Some bs;
  (** How many more SCOs can be begun. *)
  scos_left : D -> Z;
  kept (ok : bool) (used : nat) (d d' : D) : Prop :=
    ds_inv d' /\ (ok = true -> scos_left d - Z.of_nat used <= scos_left d') /\ (ok = true \/ ds_halted d' = false -> retains d d') /\ (ds_halted d = true -> ds_halted d' = true);
  ds_bounds d : ds_inv d -> 0 <= getRemainingSCOCapacity d * cs < 2 ^ 63;
  ds_lengths d l bs : ds_inv d -> content d l = Some bs -> Z.of_nat (length bs) = cs;
  ds_memory x d : memory (set_memory x d) = x /\ content (set_memory x d) = content d /\ ds_halted (set_memory x d) = ds_halted d /\
    getRemainingSCOCapacity (set_memory x d) = getRemainingSCOCapacity d /\ scos_left (set_memory x d) = scos_left d /\ (ds_inv d -> ds_inv (set_memory x d));
  ds_write d buf n d' r : ds_inv d -> Z.of_nat (length buf) = Z.of_nat n * cs -> Z.of_nat n <= getRemainingSCOCapacity d ->
    writeClusters buf n d = (d', r) -> kept (is_ok r) 0 d d' /\ memory d' = memory d /\
    forall locs t, r = Ok (locs, t) -> getRemainingSCOCapacity d' = getRemainingSCOCapacity d - Z.of_nat n /\ length locs = n /\
      forall i l, locs !! i = Some l -> isNull l = false /\ ClusterLocation.wf l /\ content d' l = Some (take (Z.to_nat cs) (drop (i * Z.to_nat cs) buf));
  (** [descs]: with buffers one behind the other. *)
  ds_read d descs d' r : ds_inv d -> StronglySorted (fun x y => DataStoreNG.buf_ x + cs <= DataStoreNG.buf_ y) descs ->
    readClusters descs d = (d', r) -> kept (is_ok r) 0 d d' /\ getRemainingSCOCapacity d' = getRemainingSCOCapacity d /\ (r = Ok tt ->
      (forall x, (forall y, y ∈ descs -> ~ DataStoreNG.buf_ y <= x < DataStoreNG.buf_ y + cs) -> at_ (memory d') x = at_ (memory d) x) /\
      (forall y bs i, y ∈ descs -> content d (DataStoreNG.loc_ y) = Some bs -> (i < length bs)%nat ->
        at_ (memory d') (DataStoreNG.buf_ y + Z.of_nat i) = nth i bs 0));
  ds_touch d l d' r : ds_inv d -> touchCluster l d = (d', r) ->
    kept (is_ok r) 0 d d' /\ memory d' = memory d /\ getRemainingSCOCapacity d' = getRemainingSCOCapacity d;
  ds_finalize d d' r : ds_inv d -> finalizeCurrentSCO d = (d', r) -> kept (is_ok r) 1 d d' /\ memory d' = memory d /\
    forall c, r = Ok c -> 0 < getRemainingSCOCapacity d' /\ from_option CheckSum.wf True c /\ (getRemainingSCOCapacity d = 0 -> is_Some c);
  ds_synced d d' r : ds_inv d -> ds_sync d = (d', r) -> kept (is_ok r) 0 d d' /\ forall c, r = Ok c -> from_option CheckSum.wf True c;
  ds_written d s d' r : ds_inv d -> ds_writtenToBackendUpTo s d = (d', r) -> kept (is_ok r) 0 d d';
  ds_stays_halted d s : ds_halted d = true -> ds_halted (fst (ds_writtenToBackendUpTo s d)) = true }.

(** The metadata is a map; corks do not show. *)
Class MetaDataStoreSpec : Type := {
  entry : MD -> Z -> ClusterLocationAndHash;
  md_inv : MD -> Prop;
  same (x y : MD) : Prop := md_inv y /\ forall a, entry y a = entry x a;
  md_read x a y v : md_inv x -> readCluster a x = (y, Ok v) -> same x y /\ v = entry x a;
  md_write x a v y : md_inv x -> writeCluster a v x = (y, Ok tt) ->
    md_inv y /\ forall b, entry y b = if decide (b = a) then v else entry x b;
  md_corked x u : exists y, md_cork u x = (y, Ok tt) /\ (md_inv x -> same x y);
  md_uncorked x u y : md_inv x -> md_unCork u x = (y, Ok tt) -> same x y;
  md_synced x : md_inv x -> same x (fst (md_sync x)) }.

(** A read returns the cluster last added under the key, or nothing. *)
Definition same_key (mode : ClusterCacheMode) (ca : Z) (w : Weed) (ca' : Z) (w' : Weed) : Prop :=
  match mode with LocationBased => ca = ca' | ContentBased => w = w' end.

Class ClusterCacheSpec (mode : ClusterCacheMode) : Type := {
  cached : C -> Z -> Weed -> option (list Z);
  cc_add c ca w bs : exists c', cache_add ca w bs c = (c', Ok tt) /\ cache_cluster_size c' = cache_cluster_size c /\
    forall ca' w' x, cached c' ca' w' = Some x -> same_key mode ca w ca' w' /\ x = bs \/ ~ same_key mode ca w ca' w' /\ cached c ca' w' = Some x;
  cc_invalidate c ca w : exists c', cache_invalidate ca w c = (c', Ok tt) /\ cache_cluster_size c' = cache_cluster_size c /\
    forall ca' w' x, cached c' ca' w' = Some x -> ~ same_key mode ca w ca' w' /\ cached c ca' w' = Some x;
  cc_read c ca w : exists c' r, cache_read ca w c = (c', Ok r) /\ cache_cluster_size c' = cache_cluster_size c /\ (forall x, r = Some x -> cached c ca w = Some x) /\
    forall ca' w' x, cached c' ca' w' = Some x -> cached c ca' w' = Some x }.

(** A batch is refused a limited number of times, and the client takes at least one entry. *)
Class FailOverSpec (cs : Z) (attempts : nat) : Type := {
  patience : F -> nat;
  foc_patience f : (patience f < attempts)%nat;
  foc_refuses f locs a buf f' : addEntries locs a buf f = (f', Ok false) -> (patience f' < patience f)%nat;
  foc_entries f : 0 < max_entries f /\ max_entries f * cs < 2 ^ 63 }.

Class BackendSpec : Prop := {
  be_snapshots_frame p b i : be_read (fst (be_write_snapshots p b)) i = be_read b i;
  be_write_frame i f c b j : j <> i -> be_read (fst (be_write i f c b)) j = be_read b j;
  be_write_stores i f c b b' : be_write i (Some f) c b = (b', Ok tt) -> be_read b' i = Ok f;
  be_write_nothing i c b : exists e, snd (be_write i None c b) = Throw e /\ be_read (fst (be_write i None c b)) i = be_read b i }.

End Classes.
Arguments DataStoreSpec D {IDS} cs.
Arguments MetaDataStoreSpec MD {IMD}.
Arguments ClusterCacheSpec C {ICC} mode.
Arguments FailOverSpec F {IFC} cs attempts.
Arguments BackendSpec B {IBE}.

Section Facts.
Context {D MD F C B : Type} `{IDS : DataStore D} `{IMD : MetaDataStore MD} `{IFC : FailOverCacheClient F} `{ICC : ClusterCacheClient C} `{IBE : BackendClient B}.
Variable cf : Config.
Variable page_size : nat.
Variable uuid_of : nat -> TLog.UUID.
Variable bounce : Z.
Variable attempts : nat.
Abbreviation cs := (clusterSize_ cf).
Abbreviation mode := (cluster_cache_mode_ cf).
Context {SDS : DataStoreSpec D cs} {SMD : MetaDataStoreSpec MD} {SCC : ClusterCacheSpec C mode} {SFC : FailOverSpec F cs attempts} {SBE : BackendSpec B}.
Hypothesis page_pos : (0 < page_size)%nat.
Hypothesis uuid_inj : forall m n, uuid_of m = uuid_of n -> m = n.
Hypothesis uuid_not_null : forall n, uuid_of n <> 0.

Abbreviation Rest := (Rest D MD F C B).
Abbreviation Vol := (Vol D MD F C B).
#[local] Hint Extern 0 (VolumeInterface (Volume.Rest _ _ _ _ _)) => exact (rest_interface cf) : typeclass_instances.

Implicit Types (r : Rest) (s : Vol) (m : Z -> Z).

(** The size of the volume, in clusters, and what holds of the configuration. *)
Variable ncl : Z.
Record configured : Prop := mkConfigured {
  c_size : 0 < cs;
  c_lba : cs mod lba_size_ cf = 0 /\ 0 < lba_size_ cf;
  c_end : 0 <= ncl /\ ncl * cs < 2 ^ 63 /\ ncl <= Entry.max_valid_cluster_address;
  c_flags : volume_nullio cf = false /\ readOnlyMode cf = false;
  c_weed bs : fits 128 (weed_of cf bs);
  c_digest bs bs' : mode = ContentBased -> Z.of_nat (length bs) = cs -> Z.of_nat (length bs') = cs -> weed_of cf bs = weed_of cf bs' -> bs = bs' }.
Hypothesis cfg : configured.

#[local] Instance rest_spec : VolumeSpec Rest.
Proof.
  constructor.
  - intros u v. cbn. unfold on_md. destruct (md_corked (metaDataStore_ v) u) as (y & -> & _). by eexists.
  - done.
  - intros u v i. cbn. unfold v_unCorkAndTrySync, on_md. destruct (md_unCork u (metaDataStore_ v)) as [y [[]|e]]; [|done]. cbn. by destruct (md_sync y).
  - intros n v i. cbn. unfold on_ds. by destruct (ds_writtenToBackendUpTo n (dataStore_ v)).
  - intros n v i. cbn. unfold v_removeUpToFromFailOverCache, mbind, mget. destruct (backup (failover_ v)); [|done]. unfold on_foc.
    destruct (foc_flush (failover_ v)) as [y [[]|e]]; [|done]. cbn. by destruct (foc_removeUpTo n y).
  - intros t v i. cbn. unfold v_checkState, mbind, mget. by case_bool_decide.
  - intros p v i. cbn. unfold on_be. pose proof (be_snapshots_frame p (backend v) i) as E. by destruct (be_write_snapshots p (backend v)).
  - intros i f c v j Hj. cbn. unfold on_be. pose proof (be_write_frame i f c (backend v) j Hj) as E. by destruct (be_write i f c (backend v)).
  - intros i f c v v' E. cbn in *. unfold on_be in E. destruct (be_write i (Some f) c (backend v)) as [b' x] eqn:Eb. injection E as <- ->. by eapply be_write_stores.
  - intros i c v. cbn. unfold on_be. pose proof (be_write_nothing i c (backend v)) as E. by destruct (be_write i None c (backend v)).
Qed.

Abbreviation logs := (logs page_size uuid_of (VI := rest_interface cf)).

(** ** The invariant *)
Definition cluster m (ca : Z) : list Z := bytes m (ca * cs) (Z.to_nat cs).

Lemma length_cluster m ca : Z.of_nat (length (cluster m ca)) = cs.
Proof. unfold cluster. rewrite length_bytes. pose proof (c_size cfg). lia. Qed.

(** The locations of the log, the last one of each cluster. *)
Definition replayed (l : list Entry.Entry) : Z -> ClusterLocationAndHash :=
  fold_left (fun E e a => if decide (a = Entry.clusteraddress_ e) then Entry.loc_and_hash_ e else E a) l (fun _ => CLH.mkCLH ClusterLocation.null 0).

Definition holds_cluster (d : D) (lh : ClusterLocationAndHash) (data : list Z) : Prop :=
  if isNull (clusterLocation lh) then data = replicate (Z.to_nat cs) 0
  else content d (clusterLocation lh) = Some data /\ (mode = ContentBased -> weed_ lh = weed_of cf data).

(** Locations that read the same: those of clusters that were not written may differ in the hash. *)
Definition alike (x y : ClusterLocationAndHash) : Prop := x = y \/ isNull (clusterLocation x) = true /\ isNull (clusterLocation y) = true.

Lemma alike_holds d x y data : alike x y -> holds_cluster d y data -> holds_cluster d x data.
Proof. intros [->|[Hx Hy]]; [done|]. unfold holds_cluster. by rewrite Hx, Hy. Qed.

Record sound (l : list Entry.Entry) m r : Prop := mkSound {
  so_ds : ds_inv (dataStore_ r);
  so_md : md_inv (metaDataStore_ r);
  so_size : lba_count_ r * lba_size_ cf = ncl * cs;
  so_template : isVolumeTemplate r = false;
  so_entry ca : 0 <= ca < ncl -> alike (entry (metaDataStore_ r) ca) (replayed l ca);
  so_data ca : 0 <= ca < ncl -> holds_cluster (dataStore_ r) (replayed l ca) (cluster m ca);
  so_cache ca w bs : cache_cluster_size (cluster_cache r) = cs -> 0 <= ca < ncl -> cached (cluster_cache r) ca w = Some bs ->
    (mode = LocationBased -> bs = cluster m ca) /\ (mode = ContentBased -> weed_of cf bs = w /\ Z.of_nat (length bs) = cs) }.

(** No call of a component fails, but those that write to the backend, as long as there are SCOs left. *)
Record reliable : Prop := mkReliable {
  re_write (d : D) buf n : ds_inv d -> Z.of_nat (length buf) = Z.of_nat n * cs -> Z.of_nat n <= getRemainingSCOCapacity d ->
    is_ok (snd (writeClusters buf n d)) = true /\ ds_halted (fst (writeClusters buf n d)) = ds_halted d;
  re_read (d : D) descs : ds_inv d -> (forall y, y ∈ descs -> is_Some (content d (DataStoreNG.loc_ y))) ->
    is_ok (snd (readClusters descs d)) = true /\ ds_halted (fst (readClusters descs d)) = ds_halted d;
  re_touch (d : D) l : ds_inv d -> is_ok (snd (touchCluster l d)) = true /\ ds_halted (fst (touchCluster l d)) = ds_halted d;
  re_finalize (d : D) : ds_inv d -> 0 < scos_left d -> is_ok (snd (finalizeCurrentSCO d)) = true /\ ds_halted (fst (finalizeCurrentSCO d)) = ds_halted d;
  re_sync (d : D) : ds_inv d -> is_ok (snd (ds_sync d)) = true /\ ds_halted (fst (ds_sync d)) = ds_halted d;
  re_md_read (x : MD) a : md_inv x -> 0 <= a < ncl -> is_ok (snd (readCluster a x)) = true;
  re_md_write (x : MD) a v : md_inv x -> 0 <= a < ncl -> is_ok (snd (writeCluster a v x)) = true;
  re_add (f : F) locs a buf : is_ok (snd (addEntries locs a buf f)) = true;
  re_flush (f : F) : is_ok (snd (foc_flush f)) = true }.

(** What is assumed of a run in which nothing fails. *)
Variable Rel : Prop.
Hypothesis rel : Rel -> reliable.

(** [up]: the volume works, with the data store [d], and [g] more SCOs can be begun; [after]: what holds whatever happened. *)
Record up (g : nat) (d : D) m s : Prop := mkUp {
  up_log : exists T, logs s T /\ sound (locations T) m (vol s);
  up_ds : dataStore_ (vol s) = d;
  up_halted : Rel -> is_halted (vol s) = false;
  up_room : Rel -> Z.of_nat g <= scos_left d }.

Definition after m s : Prop := exists T, logs s T /\ (is_halted (vol s) = false -> sound (locations T) m (vol s)).

Lemma up_after {g} d m s : up g d m s -> after m s.
Proof. intros [(T & Hl & Hs) _ _ _]. by exists T. Qed.

Lemma after_halted m s T : logs s T -> is_halted (vol s) = true -> after m s.
Proof. intros Hl Hh. exists T. split; [done|congruence]. Qed.

(** ** Calls that return without touching the volume but for corks *)
Definition quiet {A} (f : M Vol A) : Prop := forall P : Rest -> Prop,
  (forall v u, P v -> P (fst (cork u v))) -> forall s s' a, P (vol s) -> f s = (s', Ok a) -> P (vol s').

Lemma quiet_bind {A A'} (f : M Vol A) (k : A -> M Vol A') : quiet f -> (forall a, quiet (k a)) -> quiet (mbind f k).
Proof. intros Hf Hk P HP s s' a Hv E. unfold mbind in E. destruct (f s) as [s1 [x|e]] eqn:Ef; [|done]. eapply Hk; [done| |done]. by eapply Hf. Qed.

Lemma quiet_frame {A} (f : M Vol A) : (forall s, vol (fst (f s)) = vol s) -> quiet f.
Proof. intros Hf P HP s s' a Hv E. specialize (Hf s). rewrite E in Hf. cbn in Hf. by rewrite Hf. Qed.

Lemma quiet_rethrow {A} (f : M Vol A) : quiet f -> quiet (halt_rethrow f).
Proof. intros Hf P HP s s' a Hv E. unfold halt_rethrow, catch in E. destruct (f s) as [s1 [x|e]] eqn:Ef; [|done]. injection E as <- <-. by eapply Hf. Qed.

Lemma quiet_cork u : quiet (on_vol (cork u)).
Proof. intros P HP s s' a Hv E. unfold on_vol in E. pose proof (HP (vol s) u Hv) as Hc. destruct (cork u (vol s)). by injection E as <- _. Qed.

Lemma quiet_tlog {A} (f : M TLogWriter.TLogWriter A) : quiet (on_tlog f).
Proof. apply quiet_frame. intros s. unfold on_tlog. destruct (currentTLog_ s) as [[i w]|]; [|done]. by destruct (f w). Qed.

Ltac quiet_step :=
  match goal with
  | |- quiet (mbind _ _) => apply quiet_bind; [|intros ?]
  | |- quiet (halt_rethrow _) => apply quiet_rethrow
  | |- quiet (halt_on_error_ _) => apply quiet_rethrow
  | |- quiet (on_tlog _) => apply quiet_tlog
  | |- quiet (on_vol (cork _)) => apply quiet_cork
  | |- quiet (if ?b then _ else _) => destruct b
  | |- quiet (match ?x with Some _ => _ | None => _ end) => destruct x
  | |- quiet (mmodify _) => by apply quiet_frame
  | |- quiet mget => by apply quiet_frame
  | |- quiet (draw _) => by apply quiet_frame
  | |- quiet (mlift _) => by apply quiet_frame
  | |- quiet (mret _) => by apply quiet_frame
  | |- quiet (mthrow _) => by apply quiet_frame
  | |- quiet (_ _) => progress unfold addClusterEntry, addSCOCRC, SnapshotManagement.sync, syncTLog_, SnapshotManagement.scheduleBackendSync, maybe_switch_tlog_, openTLog_, closeTLog_, reset_tlog,
      last_location, add_maybe_crc, require_current_tlog, update_current_id, sp_newTLog, saveToFile, scheduleWriteTLogToBackend, on_sp, mverify
  | |- quiet _ => progress unfold openTLog_, closeTLog_, require_current_tlog, maybe_switch_tlog_, reset_tlog, last_location, update_current_id, sp_newTLog, saveToFile
  end.

Lemma quiet_addClusterEntry a lh : quiet (addClusterEntry a lh).
Proof. repeat quiet_step. Qed.

Lemma quiet_addSCOCRC c : quiet (addSCOCRC page_size uuid_of c).
Proof. repeat quiet_step. Qed.

Lemma quiet_sync c : quiet (SnapshotManagement.sync c).
Proof. repeat quiet_step. Qed.

Lemma quiet_backendSync c : quiet (SnapshotManagement.scheduleBackendSync page_size uuid_of c).
Proof. repeat quiet_step. Qed.

(** ** Specifications

    [f] returns and [Q] holds, or it throws, which it does not when the components are reliable,
    and [X] holds. *)
Definition spec {A} (f : M Vol A) s (Q : A -> Vol -> Prop) (X : Vol -> Prop) : Prop :=
  match f s with (s', Ok a) => Q a s' | (s', Throw _) => ~ Rel /\ X s' end.

Lemma spec_bind {A A'} (f : M Vol A) (k : A -> M Vol A') s R Q X :
  spec f s R X -> (forall a s1, R a s1 -> spec (k a) s1 Q X) -> spec (mbind f k) s Q X.
Proof. unfold spec, mbind. intros Hf Hk. destruct (f s) as [s1 [a|e]]; [|done]. by apply Hk. Qed.

Lemma spec_weaken {A} (f : M Vol A) s (Q Q' : A -> Vol -> Prop) (X X' : Vol -> Prop) :
  spec f s Q X -> (forall a s', Q a s' -> Q' a s') -> (forall s', X s' -> X' s') -> spec f s Q' X'.
Proof. unfold spec. intros Hf HQ HX. destruct (f s) as [s1 [a|e]]; [by apply HQ|]. destruct Hf. auto. Qed.

Lemma spec_ok {A} (f : M Vol A) s s' a (Q : A -> Vol -> Prop) X : f s = (s', Ok a) -> Q a s' -> spec f s Q X.
Proof. intros E HQ. unfold spec. by rewrite E. Qed.

Lemma spec_ret {A} (a : A) s (Q : A -> Vol -> Prop) X : Q a s -> spec (mret a) s Q X.
Proof. done. Qed.

Lemma spec_rest {A} (k : Rest -> M Vol A) s Q X : spec (k (vol s)) s Q X -> spec (mbind rest k) s Q X.
Proof. done. Qed.

Lemma spec_verify b s (Q : unit -> Vol -> Prop) X : b = true -> Q tt s -> spec (mverify b) s Q X.
Proof. by intros ->. Qed.

Lemma spec_throw_if b e s (Q : unit -> Vol -> Prop) X : b = false -> Q tt s -> spec (throw_if b e) s Q X.
Proof. by intros ->. Qed.

(** ** The log *)
Lemma sound_cork l m r u : sound l m r -> sound l m (fst (cork u r)) /\ dataStore_ (fst (cork u r)) = dataStore_ r /\ is_halted (fst (cork u r)) = is_halted r.
Proof.
  intros [? Hm ? ? He ? ?]. cbn. unfold on_md. destruct (md_corked (metaDataStore_ r) u) as (y & -> & Hs). cbn. split_and!; [|done|done].
  destruct (Hs Hm) as [Hi Hy]. constructor; try done. intros ca Hca. cbn. rewrite Hy. by apply He.
Qed.

Lemma quiet_sound {A} (f : M Vol A) s s' a l m d : quiet f -> f s = (s', Ok a) -> sound l m (vol s) -> dataStore_ (vol s) = d -> (Rel -> is_halted (vol s) = false) ->
  sound l m (vol s') /\ dataStore_ (vol s') = d /\ (Rel -> is_halted (vol s') = false).
Proof.
  intros Hq E Hs Hd Hh. refine (Hq (fun v => sound l m v /\ dataStore_ v = d /\ (Rel -> is_halted v = false)) _ s s' a _ E); [|done].
  intros v u (Hv & Hd' & Hh'). destruct (sound_cork l m v u Hv) as (? & -> & ->). done.
Qed.

Lemma quiet_up {g} {A} (f : M Vol A) s s' a d m T T' : quiet f -> f s = (s', Ok a) -> dataStore_ (vol s) = d -> (Rel -> is_halted (vol s) = false) -> (Rel -> Z.of_nat g <= scos_left d) ->
  sound (locations T) m (vol s) -> logs s' T' -> locations T' = locations T -> up g d m s'.
Proof. intros Hq E Hd Hh Hg Hs Hl El. destruct (quiet_sound f s s' a _ _ _ Hq E Hs Hd Hh) as (? & ? & ?). constructor; [|done|done|done]. exists T'. by rewrite El. Qed.

Lemma spec_call {g} (f : M Vol unit) c s d m X : perform page_size uuid_of c = f -> quiet f -> added c = [] -> admissible s c -> is_ok (snd (f s)) = true ->
  up g d m s -> spec f s (fun _ => up g d m) X.
Proof.
  intros Ef Hq Ha Had Hok [(T & Hl & Hs) Hd Hh Hg]. destruct (call_log page_size uuid_of page_pos uuid_inj uuid_not_null s T c Hl Had) as (s' & r & T' & E & Hl' & Hx). rewrite Ef in E. rewrite E in Hok.
  destruct r as [[]|]; [|done]. eapply spec_ok; [done|]. eapply quiet_up; [done|done|done|done|done|exact Hs|done|]. by rewrite (extends_locations _ _ _ Hx), Ha, app_nil_r.
Qed.

Lemma spec_addSCOCRC {g} c s d m X : CheckSum.wf c -> up g d m s -> spec (addSCOCRC page_size uuid_of c) s (fun _ => up g d m) X.
Proof.
  intros Hc Hu. apply (spec_call _ (AddSCOCRC c)); try done; [apply quiet_addSCOCRC|]. destruct Hu as [(T & Hl & _) _ _ _]. destruct (logs_last _ _ _ _ Hl) as (Y & es & ->).
  destruct (addSCOCRC_log page_size uuid_of page_pos uuid_inj s Y es c Hl Hc) as (? & ? & ? & -> & _). done.
Qed.

Lemma spec_sm_sync {g} c s d m X : from_option CheckSum.wf True c -> up g d m s -> spec (SnapshotManagement.sync c) s (fun _ => up g d m) X.
Proof.
  intros Hc Hu. apply (spec_call _ (SnapshotManagementTheorems.Sync c)); try done; [apply quiet_sync|]. destruct Hu as [(T & Hl & _) _ _ _]. destruct (logs_last _ _ _ _ Hl) as (Y & es & ->).
  destruct (sync_log page_size uuid_of s Y es c Hl) as (? & ? & -> & _); [by intros ? ->|]. done.
Qed.

Lemma spec_sm_backendSync {g} c s d m X : from_option CheckSum.wf True c -> up g d m s -> spec (SnapshotManagement.scheduleBackendSync page_size uuid_of c) s (fun _ => up g d m) X.
Proof.
  intros Hc [(T & Hl & Hs) Hd Hh Hg]. destruct (logs_last _ _ _ _ Hl) as (Y & es & ->).
  destruct (scheduleBackendSync_log page_size uuid_of page_pos uuid_inj uuid_not_null s Y es c Hl) as (s' & new & e & E & Hn & He & _ & Hl'); [by intros ? ->|]. eapply spec_ok; [done|].
  eapply quiet_up; [apply quiet_backendSync|done|done|done|done|exact Hs|done|]. rewrite (extends_locations _ _ _ (extends_roll Y es (new ++ [e]))), List.filter_app, (crc_entries_location _ _ Hn).
  cbn. by rewrite He, app_nil_r.
Qed.

(** ** The data store *)
Lemma holds_cluster_kept d d' lh data : retains d d' -> holds_cluster d lh data -> holds_cluster d' lh data.
Proof. unfold holds_cluster. intros Hr. destruct (isNull _); [done|]. intros [Hc ?]. split; [by apply Hr|done]. Qed.

Lemma sound_ds l m r d' : sound l m r -> ds_inv d' -> retains (dataStore_ r) d' -> sound l m (set_ds d' r).
Proof. intros [? ? ? ? ? Hd ?] Hi Hr. constructor; try done. intros ca Hca. cbn. eapply holds_cluster_kept; [done|by apply Hd]. Qed.

Lemma logs_vol s v T : logs s T -> backend v = backend (vol s) -> logs (set_vol v s) T.
Proof. intros (l & t & L & es & w & Hh & ->) Eb. eapply logs_intro, holds_vol; [exact Hh|]. intros i. cbn. by rewrite Eb. Qed.

Lemma ds_halt_mono r d' : (ds_halted (dataStore_ r) = true -> ds_halted d' = true) -> is_halted (set_ds d' r) = false -> is_halted r = false /\ ds_halted d' = false.
Proof. unfold is_halted. cbn. intros Hm [? ?]%orb_false_iff. destruct (halted_ r), (ds_halted (dataStore_ r)); naive_solver. Qed.

Lemma spec_on_ds {g} {A} used (f : M D A) s d m : up (used + g) d m s -> (forall d' x, f d = (d', x) -> kept (is_ok x) used d d') ->
  (Rel -> is_ok (snd (f d)) = true /\ ds_halted (fst (f d)) = ds_halted d) ->
  spec (on_rest (on_ds f)) s (fun a s' => exists d', f d = (d', Ok a) /\ up g d' m s') (after m).
Proof.
  intros [(T & Hl & Hs) Hd Hh Hg] Hk Hr. unfold spec, on_rest, on_vol, on_ds. rewrite Hd. destruct (f d) as [d' r] eqn:Ef. destruct (Hk _ _ eq_refl) as (Hi & Hu & Hc & Hm). cbn [fst snd] in *. destruct r as [a|e].
  - exists d'. split; [done|]. constructor; [|done| |intros Hrel; specialize (Hu eq_refl); specialize (Hg Hrel); lia].
    + exists T. split; [by apply logs_vol|]. cbn. apply sound_ds; [done|done|]. rewrite Hd. apply Hc. by left.
    + intros Hrel. destruct (Hr Hrel) as [_ Eh]. specialize (Hh Hrel). unfold is_halted in *. cbn. by rewrite Eh, <- Hd.
  - split; [intros Hrel; by destruct (Hr Hrel)|]. exists T. split; [by apply logs_vol|]. cbn. intros Hn. apply ds_halt_mono in Hn as [? Hn]; [|by rewrite Hd].
    apply sound_ds; [done|done|]. rewrite Hd. apply Hc. by right.
Qed.

Lemma up_inv {g} d m s : up g d m s -> ds_inv d.
Proof. intros [(T & _ & Hs) <- _ _]. apply Hs. Qed.

Lemma spec_finalize {g} s d m : up (S g) d m s ->
  spec (on_rest (on_ds finalizeCurrentSCO)) s (fun c s' => exists d', up g d' m s' /\ memory d' = memory d /\ retains d d' /\
    0 < getRemainingSCOCapacity d' /\ from_option CheckSum.wf True c /\ (getRemainingSCOCapacity d = 0 -> is_Some c)) (after m).
Proof.
  intros Hu. pose proof (up_inv _ _ _ Hu) as Hi. eapply spec_weaken; [eapply (spec_on_ds 1 _ _ _ _ Hu)| |done].
  - intros d' r E. by destruct (ds_finalize _ _ _ Hi E).
  - intros Hr. apply (re_finalize (rel Hr)); [done|]. pose proof (up_room _ _ _ _ Hu Hr). lia.
  - intros c s' (d' & E & Hu'). destruct (ds_finalize _ _ _ Hi E) as ((_ & _ & Hk & _) & Hm & Hc). destruct (Hc c eq_refl) as (? & ? & ?). exists d'. split_and!; try done. apply Hk. by left.
Qed.

(** ** Memory *)
Lemma up_memory {g} s d m x : up g d m s -> up g (set_memory x d) m (set_vol (set_ds (set_memory x d) (vol s)) s).
Proof.
  intros [(T & Hl & Hs) Hd Hh Hg]. destruct (ds_memory (cs := cs) x d) as (_ & Ec & Eh & _ & El & Hi). constructor; [|done| |by rewrite El].
  - exists T. split; [by apply logs_vol|]. apply sound_ds; [done|apply Hi; rewrite <- Hd; apply Hs|]. rewrite Hd. intros l bs. by rewrite Ec.
  - intros Hr. specialize (Hh Hr). unfold is_halted in *. cbn. by rewrite Eh, <- Hd.
Qed.

Lemma spec_set_bytes {g} a bs s d m X : up g d m s ->
  spec (set_bytes a bs) s (fun _ s' => up g (set_memory (DataStoreNG.store a bs (memory d)) d) m s') X.
Proof.
  intros Hu. pose proof (up_ds _ _ _ _ Hu) as Hd. unfold set_bytes. eapply spec_ok; [unfold on_rest, on_vol, on_ds, mmodify; by rewrite Hd|]. by apply up_memory.
Qed.

(** ** The cluster cache *)
Lemma sound_cc l m r c : sound l m r -> cache_cluster_size c = cache_cluster_size (cluster_cache r) -> (forall ca w bs, 0 <= ca < ncl -> cached c ca w = Some bs -> cached (cluster_cache r) ca w = Some bs \/
    (mode = LocationBased -> bs = cluster m ca) /\ (mode = ContentBased -> weed_of cf bs = w /\ Z.of_nat (length bs) = cs)) -> sound l m (set_cc c r).
Proof. intros [? ? ? ? ? ? Hc] Ez Hn. constructor; try done. intros ca w bs Hz Hca Hb. cbn in Hz, Hb. destruct (Hn _ _ _ Hca Hb); [|done]. eapply Hc; [congruence|done|done]. Qed.

Lemma up_cc {g} s d m c : up g d m s -> (forall l, sound l m (vol s) -> sound l m (set_cc c (vol s))) -> up g d m (set_vol (set_cc c (vol s)) s).
Proof. intros [(T & Hl & Hs) Hd Hh Hg] Hc. constructor; [|done|done|done]. exists T. split; [by apply logs_vol|]. by apply Hc. Qed.

Lemma spec_add_cache {g} ca w bs s d m X : up g d m s -> 0 <= ca < ncl -> cluster m ca = bs -> (mode = ContentBased -> weed_of cf bs = w) ->
  spec (add_to_cluster_cache_ cf mode ca w bs) s (fun _ => up g d m) X.
Proof.
  intros Hu Hca Hb Hw. unfold add_to_cluster_cache_. apply spec_rest.
  destruct (usable cf mode (cluster_cache (vol s))); [|by apply spec_ret]. destruct (cc_add (cluster_cache (vol s)) ca w bs) as (c' & E & Ez & Hc').
  eapply spec_ok; [unfold on_rest, on_vol, on_cc; by rewrite E|]. apply up_cc; [done|]. intros l Hs. apply sound_cc; [done|done|]. intros ca' w' x Hca' Hx.
  destruct (Hc' _ _ _ Hx) as [[Hk ->]|[_ ?]]; [right|by left]. 
  split; intros Em; rewrite Em in Hk; cbn in Hk; subst; [done|]. split; [by apply Hw|by apply length_cluster].
Qed.

(** ** The metadata *)
Lemma halting_throw {A} (f : M Vol A) s s1 e T : f s = (s1, Throw e) -> logs s1 T -> exists s', halting cf f s = (s', Throw e) /\ forall m, after m s'.
Proof.
  intros E Hl. unfold halting, halt_rethrow, catch. rewrite E. unfold halt_, mbind, mmodify, mthrow. eexists. split; [done|]. intros m. eapply after_halted; [by apply logs_vol|]. done.
Qed.

Lemma spec_read_md {g} ca s d m : up g d m s -> 0 <= ca < ncl ->
  spec (halting cf (on_rest (on_md (readCluster ca)))) s (fun lh s' => up g d m s' /\ holds_cluster d lh (cluster m ca)) (after m).
Proof.
  intros [(T & Hl & Hs) Hd Hh Hg] Hca. unfold spec. destruct (readCluster ca (metaDataStore_ (vol s))) as [y [lh|e]] eqn:Er.
  - unfold halting, halt_rethrow, catch, on_rest, on_vol, on_md. rewrite Er. destruct (md_read _ _ _ _ (so_md _ _ _ Hs) Er) as [[Hy He] ->]. split.
    + constructor; [|done|done|done]. exists T. split; [by apply logs_vol|]. destruct Hs as [? ? ? ? Hen ? ?]. constructor; try done. intros a Ha. cbn. rewrite He. by apply Hen.
    + eapply alike_holds; [by apply (so_entry _ _ _ Hs)|]. rewrite <- Hd. by apply Hs.
  - destruct (halting_throw (on_rest (on_md (readCluster ca))) s (set_vol (set_md y (vol s)) s) e T) as (s' & -> & Ha); [unfold on_rest, on_vol, on_md; by rewrite Er|by apply logs_vol|].
    split; [|done]. intros Hr. pose proof (re_md_read (rel Hr) _ _ (so_md _ _ _ Hs) Hca) as Ho. by rewrite Er in Ho.
Qed.

Lemma replayed_snoc l e a : replayed (l ++ [e]) a = if decide (a = Entry.clusteraddress_ e) then Entry.loc_and_hash_ e else replayed l a.
Proof. unfold replayed. by rewrite fold_left_app. Qed.

Lemma cluster_ext m m' ca : (forall x, m x = m' x) -> cluster m ca = cluster m' ca.
Proof. intros He. apply bytes_ext. intros. apply He. Qed.

Lemma sound_ext l m m' r : (forall x, m x = m' x) -> sound l m r -> sound l m' r.
Proof.
  intros He [? ? ? ? ? Hd Hc]. constructor; try done.
  - intros ca Hca. rewrite <- (cluster_ext m m') by done. by apply Hd.
  - intros ca w bs. rewrite <- (cluster_ext m m') by done. apply Hc.
Qed.

Lemma up_ext {g} d m m' s : (forall x, m x = m' x) -> up g d m s -> up g d m' s.
Proof. intros He [(T & ? & ?) ? ? ?]. constructor; [|done|done|done]. exists T. split; [done|]. by eapply sound_ext. Qed.

Lemma after_ext m m' s : (forall x, m x = m' x) -> after m s -> after m' s.
Proof. intros He (T & ? & Hs). exists T. split; [done|]. intros Hn. eapply sound_ext; [done|auto]. Qed.

Lemma cluster_upd m ca data : Z.of_nat (length data) = cs -> cluster (upd m (ca * cs) data) ca = data.
Proof. intros Hl. apply bytes_of; [lia|]. intros i Hi. apply upd_in. lia. Qed.

Lemma cluster_upd_other m ca a data : Z.of_nat (length data) = cs -> a <> ca -> cluster (upd m (ca * cs) data) a = cluster m a.
Proof.
  intros Hl Hne. pose proof (c_size cfg). apply bytes_ext. intros i Hi. apply upd_out. rewrite Hl. destruct (Z.lt_total a ca) as [?|[?|?]]; [|done|]; nia.
Qed.

(** One more location in log and metadata, with its cluster cached or purged. *)
Lemma sound_logged l m r ca lh y c data : sound l m r -> 0 <= ca < ncl -> Z.of_nat (length data) = cs -> isNull (clusterLocation lh) = false ->
  holds_cluster (dataStore_ r) lh data -> md_inv y -> (forall b, entry y b = if decide (b = ca) then lh else entry (metaDataStore_ r) b) ->
  cache_cluster_size c = cache_cluster_size (cluster_cache r) ->
  (cache_cluster_size c = cs -> forall a w x, cached c a w = Some x -> (mode = LocationBased -> a = ca -> x = data) /\
    (mode = LocationBased -> a <> ca -> cached (cluster_cache r) a w = Some x) /\
    (mode = ContentBased -> cached (cluster_cache r) a w = Some x \/ x = data /\ w = weed_of cf data)) ->
  sound (l ++ [Entry.mkEntry ca lh]) (upd m (ca * cs) data) (set_cc c (set_md y r)).
Proof.
  intros [? ? ? ? He Hd Hc] Hca Hlen Hnn Hh Hy Hey Ez Hcc. constructor; try done.
  - intros a Ha. rewrite replayed_snoc. cbn. rewrite Hey. destruct (decide (a = ca)); [by left|]. by apply He.
  - intros a Ha. rewrite replayed_snoc. cbn. destruct (decide (a = ca)) as [->|Hne]; [by rewrite cluster_upd|]. rewrite cluster_upd_other by done. by apply Hd.
  - intros a w bs Hz Ha Hb. cbn in Hz, Hb. destruct (Hcc Hz _ _ _ Hb) as (H1 & H2 & H3). split.
    + intros Em. destruct (decide (a = ca)) as [->|Hne]; [rewrite cluster_upd by done; by apply H1|]. rewrite cluster_upd_other by done. eapply Hc; [congruence|done|by apply H2|done].
    + intros Em. destruct (H3 Em) as [Hb'|[-> ->]]; [|done]. eapply Hc; [congruence|exact Ha|exact Hb'|done].
Qed.

(** ** Writing *)
Lemma same_cc s : set_vol (set_cc (cluster_cache (vol s)) (vol s)) s = s.
Proof. by destruct s as [? ? ? ? ? ? ? ? ? []]. Qed.

Lemma rest_bind {A} (k : Rest -> M Vol A) s : mbind rest k s = k (vol s) s.
Proof. done. Qed.

Lemma usable_size c : usable cf mode c = (cache_cluster_size c =? cs).
Proof. done. Qed.

Lemma cache_written s ca loc data : let lh := make_cluster_location_and_hash cf loc mode data in
  exists c, (if isCacheOnWrite cf then add_to_cluster_cache_ cf mode ca (weed_ lh) data
       else match mode with LocationBased => purge_from_cluster_cache_ cf ca (weed_ lh) | ContentBased => mret tt end) s = (set_vol (set_cc c (vol s)) s, Ok tt) /\
    cache_cluster_size c = cache_cluster_size (cluster_cache (vol s)) /\
    (cache_cluster_size c = cs -> forall a w x, cached c a w = Some x -> (mode = LocationBased -> a = ca -> x = data) /\
      (mode = LocationBased -> a <> ca -> cached (cluster_cache (vol s)) a w = Some x) /\
      (mode = ContentBased -> cached (cluster_cache (vol s)) a w = Some x \/ x = data /\ w = weed_of cf data)).
Proof.
  intros lh. assert (mode = ContentBased -> weed_ lh = weed_of cf data) as Hw by (unfold lh; by intros ->).
  destruct (isCacheOnWrite cf).
  - unfold add_to_cluster_cache_. rewrite rest_bind, usable_size.
    destruct (Z.eqb_spec (cache_cluster_size (cluster_cache (vol s))) cs) as [Ez|Ez].
    + destruct (cc_add (cluster_cache (vol s)) ca (weed_ lh) data) as (c & E & Ec & Hc). exists c. split_and!; [unfold on_rest, on_vol, on_cc; by rewrite E|done|].
      intros _ a w x Hx. destruct (Hc _ _ _ Hx) as [[Hk ->]|[Hk Hx']]; split_and!; intros Em; rewrite Em in Hk; cbn in Hk; try done; [|by left]. right. split; [done|]. by rewrite <- Hw.
    + exists (cluster_cache (vol s)). rewrite same_cc. done.
  - destruct (decide (mode = ContentBased)) as [Em|Em].
    + exists (cluster_cache (vol s)). rewrite same_cc. split_and!; [by rewrite Em|done|]. intros _ a w x Hx. split_and!; intros Em'; try congruence. by left.
    + assert (mode = LocationBased) as El by (clear - Em; by destruct mode). clear Hw. clearbody lh. rewrite (match_mode _ _ _ El). unfold purge_from_cluster_cache_. rewrite rest_bind.
      destruct (Z.eqb_spec (cache_cluster_size (cluster_cache (vol s))) cs) as [Ez|Ez].
      * destruct (cc_invalidate (cluster_cache (vol s)) ca (weed_ lh)) as (c & E & Ec & Hc). exists c. split_and!; [unfold on_rest, on_vol, on_cc; by rewrite E|done|].
        intros _ a w x Hx. destruct (Hc _ _ _ Hx) as [Hk Hx']. rewrite El in Hk. cbn in Hk. split_and!; intros Em'; congruence.
      * exists (cluster_cache (vol s)). rewrite same_cc. done.
Qed.

Lemma made_clh loc data d : ClusterLocation.wf loc -> isNull loc = false -> content d loc = Some data ->
  let lh := make_cluster_location_and_hash cf loc mode data in CLH.wf lh /\ isNull (clusterLocation lh) = false /\ holds_cluster d lh data.
Proof.
  intros Hw Hn Hc lh. assert (clusterLocation lh = loc) as El by (unfold lh, make_cluster_location_and_hash; by destruct mode). rewrite El. split_and!; [|done|].
  - split; [by rewrite El|]. unfold lh, make_cluster_location_and_hash. destruct mode; [apply (c_weed cfg)|done].
  - unfold holds_cluster. rewrite El, Hn. split; [done|]. unfold lh. by intros ->.
Qed.

Lemma spec_log_cluster {g} ca loc data s d m : up g d m s -> 0 <= ca < ncl -> ClusterLocation.wf loc -> isNull loc = false -> content d loc = Some data ->
  spec (log_cluster cf mode ca loc data) s (fun _ => up g d (upd m (ca * cs) data)) (fun s' => forall m', after m' s').
Proof.
  intros Hu Hca Hw Hn Hc. pose proof (ds_lengths _ _ _ (up_inv _ _ _ Hu) Hc) as Hlen. destruct Hu as [(T & Hl & Hs) Hd Hh Hg]. destruct (made_clh loc data d Hw Hn Hc) as (Hwf & Hnn & Hhc).
  unfold spec, log_cluster. pose proof (cache_written) as Hcw. set (lh := make_cluster_location_and_hash cf loc mode data) in *.
  destruct (logs_last _ _ _ _ Hl) as (Y & es & ->). pose proof (c_end cfg) as (Hn0 & Hn1 & Hn2). pose proof (c_size cfg) as Hcs.
  destruct (addClusterEntry_log page_size uuid_of s Y es ca lh Hl) as (s1 & r1 & T1 & E1 & Hl1 & HQ); [unfold fits; nia|done|].
  unfold Entry.Entry_loc in HQ. rewrite Hnn in HQ. cbn [negb] in HQ. rewrite (proj2 (Z.leb_le _ _)) in HQ by lia. destruct HQ as [-> ->].
  destruct (quiet_sound _ _ _ _ _ _ _ (quiet_addClusterEntry ca lh) E1 Hs Hd Hh) as (Hs1 & Hd1 & Hh1).
  unfold writeClusterMetaData_. unfold mbind at 1 2. rewrite E1. destruct (writeCluster ca lh (metaDataStore_ (vol s1))) as [y [[]|e]] eqn:Ew.
  - unfold halting, halt_rethrow, catch, on_rest, on_vol, on_md. rewrite Ew. set (s2 := set_vol (set_md y (vol s1)) s1).
    destruct (Hcw s2 ca loc data) as (c & E & Ez & Hcc). fold lh in E. rewrite E. constructor; [|done|done|done].
    eexists. split; [by apply logs_vol; [apply logs_vol|]|]. cbn [vol set_vol s2]. rewrite locations_app, locations_one, List.filter_app. cbn [List.filter].
    assert (Entry.isLocation (Entry.mkEntry ca lh) = true) as ->. { unfold Entry.isLocation, Entry.is_type, Entry.type. cbn. by rewrite Hnn. }
    rewrite app_assoc. rewrite <- locations_one, <- locations_app. destruct (md_write _ _ _ _ (so_md _ _ _ Hs1) Ew) as [Hy Hey].
    apply sound_logged; try done. by rewrite Hd1.
  - destruct (halting_throw (on_rest (on_md (writeCluster ca lh))) s1 (set_vol (set_md y (vol s1)) s1) e (Y ++ [es ++ [Entry.mkEntry ca lh]])) as (s' & -> & Ha); [unfold on_rest, on_vol, on_md; by rewrite Ew|by apply logs_vol|].
    split. { intros Hr. pose proof (re_md_write (rel Hr) _ ca lh (so_md _ _ _ Hs1) Hca) as Ho. by rewrite Ew in Ho. } done.
Qed.

Lemma take_cluster buf k : take (k * Z.to_nat cs) buf ++ nth_cluster cf buf k = take (S k * Z.to_nat cs) buf.
Proof. unfold nth_cluster. rewrite take_take_drop. f_equal. lia. Qed.

Lemma spec_log_loop {g} ca0 n buf d m : 0 <= ca0 -> ca0 + Z.of_nat n <= ncl -> Z.of_nat (length buf) = Z.of_nat n * cs -> forall locs k s,
  (forall i l, locs !! i = Some l -> isNull l = false /\ ClusterLocation.wf l /\ content d l = Some (nth_cluster cf buf (k + i))) -> (k + length locs)%nat = n ->
  up g d (upd m (ca0 * cs) (take (k * Z.to_nat cs) buf)) s ->
  spec (miter (fun '(i, loc) => log_cluster cf mode (addr2CA cf (u64 (ca0 * cs + Z.of_nat i * cs))) loc (nth_cluster cf buf i)) (imap (fun i loc => ((k + i)%nat, loc)) locs)) s
    (fun _ => up g d (upd m (ca0 * cs) buf)) (fun s' => forall m', after m' s').
Proof.
  pose proof (c_size cfg) as Hcs. pose proof (c_end cfg) as (_ & Hend & _). intros H0 Hn Hbuf locs. induction locs as [|l locs IH]; intros k s Hlocs Hk Hu.
  - cbn in Hk. apply spec_ret. rewrite take_ge in Hu; [exact Hu|]. nia.
  - rewrite imap_cons. cbn [miter length] in *. rewrite Nat.add_0_r. destruct (Hlocs 0%nat l eq_refl) as (Hnull & Hwf & Hc). rewrite Nat.add_0_r in Hc.
    assert (addr2CA cf (u64 (ca0 * cs + Z.of_nat k * cs)) = ca0 + Z.of_nat k) as ->.
    { unfold addr2CA. rewrite wrap_id by (unfold fits; nia). rewrite <- Z.mul_add_distr_r, Z.div_mul by lia. done. }
    eapply spec_bind; [by eapply spec_log_cluster; [exact Hu|lia|..]|]. intros ? s1 Hu1.
    rewrite (imap_ext _ (fun i loc => ((S k + i)%nat, loc))) by (intros ? ? ?; cbn; f_equal; lia). apply IH; [|lia|].
    + intros i l' Hi. rewrite Nat.add_succ_comm. by apply Hlocs.
    + eapply up_ext; [|exact Hu1]. intros x. cbn beta. rewrite <- take_cluster, <- upd_app. f_equal. rewrite length_take. nia.
Qed.

(** ** The DTL *)
Lemma up_foc {g} s d m f st : up g d m s -> up g d m (set_vol (set_foc f st (vol s)) s).
Proof. intros [(T & Hl & Hs) Hd Hh Hg]. constructor; [|done|done|done]. exists T. split; [by apply logs_vol|]. by destruct Hs. Qed.

Lemma spec_on_foc {g} {A} (f : M F A) s d m : up g d m s -> (Rel -> is_ok (snd (f (failover_ (vol s)))) = true) ->
  spec (on_rest (on_foc f)) s (fun a s' => up g d m s' /\ f (failover_ (vol s)) = (failover_ (vol s'), Ok a)) (after m).
Proof.
  intros Hu Hr. unfold spec, on_rest, on_vol, on_foc. destruct (f (failover_ (vol s))) as [f' [a|e]]; [split; [by apply up_foc|done]|].
  split; [intros ?; by specialize (Hr ltac:(done))|]. eapply up_after, up_foc, Hu.
Qed.

Lemma spec_offer {g} locs a buf d m : forall fuel s, up g d m s -> (patience (failover_ (vol s)) < fuel)%nat ->
  spec (offer fuel locs a buf) s (fun _ => up g d m) (after m).
Proof.
  induction fuel as [|fuel IH]; intros s Hu Hp; [lia|]. cbn [offer]. eapply spec_bind; [eapply spec_on_foc; [exact Hu|intros Hr; apply (re_add (rel Hr))]|].
  intros [] s1 [Hu1 E]; [by apply spec_ret|]. apply IH; [done|]. apply foc_refuses in E. lia.
Qed.

Lemma spec_dtl {g} locs a buf s d m : up g d m s -> spec (writeClustersToFailOverCache_ attempts locs a buf) s (fun _ => up g d m) (after m).
Proof.
  intros Hu. unfold writeClustersToFailOverCache_. apply spec_rest. destruct (backup _); [|by apply spec_ret].
  eapply spec_bind; [eapply spec_offer; [exact Hu|apply foc_patience]|]. intros ? s1 Hu1. apply spec_rest. by apply spec_ret.
Qed.

Lemma capacity_pos {g} s d m : up g d m s -> 0 <= getRemainingSCOCapacity d.
Proof. intros Hu%up_inv. pose proof (ds_bounds _ Hu). pose proof (c_size cfg). nia. Qed.

Lemma up_le g g' d m s : (g' <= g)%nat -> up g d m s -> up g' d m s.
Proof. intros Hle [? ? ? Hg]. constructor; try done. intros Hr. specialize (Hg Hr). lia. Qed.

Lemma spec_rollover {g} s d m : up (S g) d m s -> spec (maybe_rollover cf page_size uuid_of) s (fun _ s' => exists d', up g d' m s' /\ 0 < getRemainingSCOCapacity d') (after m).
Proof.
  intros Hu. unfold maybe_rollover. apply spec_rest. rewrite (up_ds _ _ _ _ Hu). pose proof (capacity_pos _ _ _ Hu) as Hp. eapply spec_bind.
  { apply (spec_verify _ _ (fun _ => up (S g) d m)); [lia|done]. }
  intros ? s1 Hu1. destruct (Z.eqb_spec (getRemainingSCOCapacity d) 0) as [E|E]; [|apply spec_ret; exists d; split; [by eapply up_le; [|exact Hu1]; lia|lia]].
  eapply spec_bind; [eapply spec_finalize, Hu1|]. intros c s2 (d' & Hu2 & _ & _ & Hc & Hw & Hsome). destruct (Hsome E) as [x ->].
  eapply spec_weaken; [eapply spec_addSCOCRC; [exact Hw|exact Hu2]|intros ? ? Hu3; by exists d'|done].
Qed.

(** ** Chunks *)
Lemma spec_writeClusters {g} ca0 buf n s d m : up (S g) d m s -> 0 <= ca0 -> ca0 + Z.of_nat n <= ncl -> Z.of_nat (length buf) = Z.of_nat n * cs -> Z.of_nat n <= getRemainingSCOCapacity d ->
  spec (writeClusters_ cf page_size uuid_of attempts (ca0 * cs) buf) s (fun _ s' => exists d', up g d' (upd m (ca0 * cs) buf) s' /\ 0 < getRemainingSCOCapacity d')
    (fun s' => after m s' \/ after (upd m (ca0 * cs) buf) s').
Proof.
  intros Hu H0 Hn Hbuf Hcap. pose proof (c_size cfg) as Hcs. pose proof (up_inv _ _ _ Hu) as Hi. unfold writeClusters_.
  eapply spec_bind; [apply (spec_verify _ _ (fun _ => up (S g) d m)); [by rewrite Z.mod_mul by lia|done]|]. intros ? s1 Hu1.
  eapply spec_bind; [apply (spec_verify _ _ (fun _ => up (S g) d m)); [by rewrite Hbuf, Z.mod_mul by lia|done]|]. intros ? s2 Hu2.
  rewrite Hbuf, Z.div_mul, Nat2Z.id by lia. eapply spec_bind.
  { eapply spec_weaken; [apply (spec_on_ds 0 (writeClusters buf n) _ _ _ Hu2)|intros ? ?; exact id|by auto]; [|intros Hr; by apply (re_write (rel Hr))]. intros d' x E. by destruct (ds_write _ _ _ _ _ Hi Hbuf Hcap E). }
  intros [locs t] s3 (d' & E & Hu3). destruct (ds_write _ _ _ _ _ Hi Hbuf Hcap E) as (_ & _ & Hw). destruct (Hw _ _ eq_refl) as (_ & Hlen & Hlocs). eapply spec_bind.
  { unfold log_clusters. rewrite (imap_ext _ (fun i loc => ((0 + i)%nat, loc))) by done. eapply spec_weaken; [eapply (spec_log_loop ca0 n buf d' m); [done|done|done|exact Hlocs|exact Hlen|]|intros ? ?; exact id|by auto].
    eapply up_ext; [|exact Hu3]. intros x. cbn. by rewrite upd_nil. }
  intros ? s4 Hu4. eapply spec_bind; [eapply spec_weaken; [eapply spec_dtl, Hu4|intros ? ?; exact id|by auto]|]. intros b s5 Hu5.
  eapply spec_bind; [eapply spec_weaken; [eapply spec_rollover, Hu5|intros ? ?; exact id|by auto]|]. intros ? s6 Hu6. by apply spec_ret.
Qed.

(** What is on the disk when a write of [buf] has thrown: a part of it from the start. *)
Definition torn m off buf s : Prop := exists k, (k <= length buf)%nat /\ after (upd m off (take k buf)) s.

Lemma torn_none m off buf s : after m s -> torn m off buf s.
Proof. intros Ha. exists 0%nat. split; [lia|]. eapply after_ext; [|exact Ha]. intros x. cbn. by rewrite upd_nil. Qed.

Lemma torn_later m off buf a b s : buf = a ++ b -> torn (upd m off a) (off + Z.of_nat (length a)) b s -> torn m off buf s.
Proof.
  intros -> (k & Hk & Ha). exists (length a + k)%nat. rewrite length_app. split; [lia|]. eapply after_ext; [|exact Ha]. intros x. cbn. rewrite upd_app, take_app_add'; done.
Qed.

Lemma chunk_eq n me cap : 0 <= n -> 0 <= me -> 0 <= cap -> Z.min (n * cs) (Z.min (me * cs) (cap * cs)) = Z.min n (Z.min me cap) * cs.
Proof. pose proof (c_size cfg). intros. by rewrite !Z.mul_min_distr_nonneg_r by lia. Qed.

Lemma spec_write_loop {g} : forall fuel ca0 buf n s d m b, up (length buf + (if decide (getRemainingSCOCapacity d = 0%Z) then 1 else 0) + g) d m s -> 0 <= ca0 -> ca0 + Z.of_nat n <= ncl -> Z.of_nat (length buf) = Z.of_nat n * cs ->
  (length buf + (if decide (getRemainingSCOCapacity d = 0%Z) then 1 else 0) < fuel)%nat ->
  spec (write_loop cf page_size uuid_of attempts fuel (ca0 * cs) buf b) s (fun _ s' => exists d', up g d' (upd m (ca0 * cs) buf) s') (torn m (ca0 * cs) buf).
Proof.
  pose proof (c_size cfg) as Hcs. pose proof (c_end cfg) as (_ & Hend & _). induction fuel as [|fuel IH]; intros ca0 buf n s d m b Hu H0 Hn Hbuf Hfuel; [lia|]. cbn [write_loop].
  destruct (Nat.eqb_spec (length buf) 0) as [Hz|Hz].
  { apply spec_ret. exists d. eapply up_le; [|eapply up_ext; [|exact Hu]]; [lia|]. intros x. apply nil_length_inv in Hz as ->. by rewrite upd_nil. }
  pose proof (ds_bounds _ (up_inv _ _ _ Hu)) as Hb. pose proof (capacity_pos _ _ _ Hu) as Hcap. apply spec_rest. rewrite (up_ds _ _ _ _ Hu). destruct (foc_entries (failover_ (vol s))) as [Hme Hme'].
  rewrite !wrap_id by (unfold fits; nia). eapply spec_bind; [apply (spec_verify _ _ (fun _ => up (length buf + (if decide (getRemainingSCOCapacity d = 0%Z) then 1 else 0) + g) d m)); [lia|done]|]. intros ? s1 Hu1.
  eapply spec_bind; [apply (spec_verify _ _ (fun _ => up (length buf + (if decide (getRemainingSCOCapacity d = 0%Z) then 1 else 0) + g) d m)); [nia|done]|]. intros ? s2 Hu2. rewrite Hbuf, chunk_eq by lia.
  set (k := Z.to_nat (Z.min (Z.of_nat n) (Z.min (max_entries (failover_ (vol s))) (getRemainingSCOCapacity d)))).
  assert (Z.min (Z.of_nat n) (Z.min (max_entries (failover_ (vol s))) (getRemainingSCOCapacity d)) = Z.of_nat k) as -> by lia.
  assert (k <= n)%nat as Hkn by lia. assert (Z.of_nat k <= getRemainingSCOCapacity d) as Hkc by lia. assert (0 < getRemainingSCOCapacity d -> (0 < k)%nat) as Hk0 by nia. clearbody k.
  set (kc := Z.to_nat (Z.of_nat k * cs)). assert (Z.of_nat kc = Z.of_nat k * cs) as Ekc by lia. assert (kc <= length buf)%nat as Hle by nia.
  assert (length (take kc buf) = kc) as Elen by (rewrite length_take; lia). rewrite Ekc, <- Z.mul_add_distr_r.
  eapply spec_bind.
  - eapply spec_weaken; [eapply (spec_writeClusters (g := (length buf + (if decide (getRemainingSCOCapacity d = 0%Z) then 1 else 0) + g - 1)%nat) ca0 (take kc buf) k _ d m); [eapply up_le; [|exact Hu2]; lia|done|lia|lia|done]|intros ? ?; exact id|]. intros s' [Ha|Ha]; [by apply torn_none|by exists kc].
  - intros x s3 (d' & Hu3 & Hc'). assert ((ca0 + Z.of_nat k) * cs = ca0 * cs + Z.of_nat (length (take kc buf))) as Eoff by lia. eapply spec_weaken.
    + eapply (IH (ca0 + Z.of_nat k) (drop kc buf) (n - k)%nat _ d'); [eapply up_le; [|exact Hu3]; rewrite length_drop, decide_False by lia; destruct (decide (getRemainingSCOCapacity d = 0)); nia|lia|lia|rewrite length_drop; nia|]. rewrite length_drop, decide_False by lia. destruct (decide (getRemainingSCOCapacity d = 0)); nia.
    + intros ? s4 (d2 & Hu4). exists d2. eapply up_ext; [|exact Hu4]. intros y. cbn beta. rewrite Eoff, upd_app. by rewrite take_drop.
    + intros s4 Ht. rewrite Eoff in Ht. eapply torn_later; [|exact Ht]. by rewrite take_drop.
Qed.

Lemma spec_write_aligned {g} ca0 buf n s d m : up (S (length buf + g)) d m s -> 0 <= ca0 -> ca0 + Z.of_nat n <= ncl -> Z.of_nat (length buf) = Z.of_nat n * cs ->
  spec (write_aligned_ cf page_size uuid_of attempts (ca0 * cs) buf) s (fun _ s' => exists d', up g d' (upd m (ca0 * cs) buf) s') (torn m (ca0 * cs) buf).
Proof.
  intros Hu H0 Hn Hbuf. pose proof (c_size cfg) as Hcs. unfold write_aligned_, validateIOAlignment. rewrite Hbuf, !Z.mod_mul by lia. cbn [negb Z.eqb].
  eapply spec_bind; [by apply (spec_ok _ s s tt (fun _ => up (S (length buf + g)) d m))|]. intros ? s1 Hu1. eapply (spec_write_loop (g := g)); [eapply up_le; [|exact Hu1]|done|done|done|]; destruct (decide _); lia.
Qed.

(** ** Looking up clusters *)
Lemma spec_count {g} a b c s d m X : up g d m s -> spec (on_rest (mmodify (count_reads a b c))) s (fun _ => up g d m) X.
Proof.
  intros [(T & Hl & Hs) Hd Hh Hg]. eapply spec_ok; [done|]. constructor; [|done|done|done]. exists T. split; [by apply logs_vol|]. by destruct Hs.
Qed.

Lemma cached_exact l m r lh ca bs : sound l m r -> cache_cluster_size (cluster_cache r) = cs -> 0 <= ca < ncl -> isNull (clusterLocation lh) = false ->
  holds_cluster (dataStore_ r) lh (cluster m ca) -> cached (cluster_cache r) ca (weed_ lh) = Some bs -> bs = cluster m ca.
Proof.
  intros Hs Hz Hca Hn Hh Hb. unfold holds_cluster in Hh. rewrite Hn in Hh. destruct Hh as [_ Hw]. destruct (so_cache _ _ _ Hs _ _ _ Hz Hca Hb) as [H1 H2].
  destruct (decide (mode = LocationBased)) as [Em|Em]; [by apply H1|]. assert (mode = ContentBased) as Em' by (clear - Em; by destruct mode).
  destruct (H2 Em') as [H3 H4]. eapply (c_digest cfg); [done|done|apply length_cluster|]. by rewrite H3, Hw.
Qed.

Lemma spec_find {g} ca lh s d m X : up g d m s -> 0 <= ca < ncl -> isNull (clusterLocation lh) = false -> holds_cluster d lh (cluster m ca) ->
  spec (find_in_cluster_cache_ cf mode ca (weed_ lh)) s (fun o s' => up g d m s' /\ forall bs, o = Some bs -> bs = cluster m ca) X.
Proof.
  intros Hu Hca Hn Hh. unfold find_in_cluster_cache_. apply spec_rest. rewrite usable_size. destruct (Z.eqb_spec (cache_cluster_size (cluster_cache (vol s))) cs) as [Ez|Ez]; [|by apply spec_ret].
  destruct (cc_read (cluster_cache (vol s)) ca (weed_ lh)) as (c & o & E & Ec & Ho & Hc). eapply spec_ok; [unfold on_rest, on_vol, on_cc; by rewrite E|]. split.
  - apply up_cc; [done|]. intros l Hs. apply sound_cc; [done|done|]. intros a w x _ Hx. left. by apply Hc.
  - intros bs ->. pose proof Hu as [(T & _ & Hs) Hd _ _]. eapply cached_exact; [exact Hs|done|done|exact Hn|by rewrite Hd|by apply Ho].
Qed.

Lemma spec_touch {g} loc s d m : up g d m s -> spec (on_rest (on_ds (touchCluster loc))) s (fun _ s' => exists d', up g d' m s' /\ retains d d' /\ memory d' = memory d) (after m).
Proof.
  intros Hu. pose proof (up_inv _ _ _ Hu) as Hi. eapply spec_weaken; [eapply (spec_on_ds 0 _ _ _ _ Hu)| |done].
  - intros d' x E. by destruct (ds_touch _ _ _ _ Hi E).
  - intros Hr. by apply (re_touch (rel Hr)).
  - intros x s' (d' & E & Hu'). destruct (ds_touch _ _ _ _ Hi E) as ((_ & _ & Hk & _) & Hm & _). exists d'. split_and!; [done|apply Hk; by left|done].
Qed.

(** The buffer of cluster [ca] is at [ca * cs + delta]. *)
Definition desc_ok (d : D) m (delta : Z) (x : Z * Weed * DataStoreNG.ClusterReadDescriptor) : Prop :=
  let '(ca, w, y) := x in 0 <= ca < ncl /\ DataStoreNG.buf_ y = ca * cs + delta /\ content d (DataStoreNG.loc_ y) = Some (cluster m ca) /\ (mode = ContentBased -> weed_of cf (cluster m ca) = w).

Definition covers (x : Z) (y : Z * Weed * DataStoreNG.ClusterReadDescriptor) : Prop := DataStoreNG.buf_ (snd y) <= x < DataStoreNG.buf_ (snd y) + cs.

Record looked (d0 d : D) m (delta lo hi : Z) (ds : list (Z * Weed * DataStoreNG.ClusterReadDescriptor)) : Prop := mkLooked {
  lk_retains : retains d0 d;
  lk_descs : Forall (desc_ok d m delta) ds;
  lk_sorted : StronglySorted (fun x y => DataStoreNG.buf_ x + cs <= DataStoreNG.buf_ y) (snd <$> ds);
  lk_range : Forall (fun y => lo + delta <= DataStoreNG.buf_ (snd y) /\ DataStoreNG.buf_ (snd y) + cs <= hi + delta) ds;
  lk_memory x : lo <= x < hi -> at_ (memory d) (x + delta) = m x \/ Exists (covers (x + delta)) ds;
  lk_rest x : ~ lo <= x < hi -> at_ (memory d) (x + delta) = at_ (memory d0) (x + delta) }.

Lemma desc_ok_retains d d' m delta x : retains d d' -> desc_ok d m delta x -> desc_ok d' m delta x.
Proof. intros Hr. destruct x as [[ca w] y]. intros (Hca & ? & Hc & ?). split; [done|]. split_and!; [done|by apply Hr|done]. Qed.

Lemma retains_trans (d1 d2 d3 : D) : retains d1 d2 -> retains d2 d3 -> retains d1 d3.
Proof. intros H1 H2 l bs Hb. by apply H2, H1. Qed.

Lemma looked_bytes d0 d m delta ca bs : retains d0 d -> bs = cluster m ca -> memory d = DataStoreNG.store (ca * cs + delta) bs (memory d0) -> looked d0 d m delta (ca * cs) ((ca + 1) * cs) [].
Proof.
  intros Hr -> Em. pose proof (length_cluster m ca) as Hl. pose proof (c_size cfg). constructor; [done|constructor|constructor|constructor| |].
  - intros x Hx. left. rewrite Em, store_at. replace (x + delta) with (ca * cs + delta + Z.of_nat (Z.to_nat (x - ca * cs))) by lia. rewrite upd_in by lia.
    unfold cluster. rewrite nth_bytes by lia. f_equal. lia.
  - intros x Hx. rewrite Em, store_at, upd_out; [done|]. rewrite Hl. nia.
Qed.

Lemma memory_set x (d : D) : memory (set_memory x d) = x.
Proof. by destruct (ds_memory (cs := cs) x d). Qed.

Lemma memory_retains x (d : D) : retains d (set_memory x d).
Proof. destruct (ds_memory (cs := cs) x d) as (_ & Ec & _). intros l bs. by rewrite Ec. Qed.

Lemma spec_lookup {g} ca delta s d m : up g d m s -> 0 <= ca < ncl ->
  spec (lookup_cluster cf mode ca (ca * cs + delta)) s (fun ds s' => exists d', up g d' m s' /\ looked d d' m delta (ca * cs) ((ca + 1) * cs) ds) (after m).
Proof.
  intros Hu Hca. unfold lookup_cluster. eapply spec_bind; [eapply spec_count, Hu|]. intros ? s1 Hu1. eapply spec_bind; [by eapply spec_read_md; [exact Hu1|]|]. intros lh s2 [Hu2 Hh].
  destruct (isNull (clusterLocation lh)) eqn:En.
  - unfold holds_cluster in Hh. rewrite En in Hh. eapply spec_bind; [eapply spec_set_bytes, Hu2|]. intros ? s3 Hu3. apply spec_ret. eexists. split; [exact Hu3|].
    eapply looked_bytes; [apply memory_retains|done|]. by rewrite memory_set.
  - eapply spec_bind; [by eapply spec_find; [exact Hu2| |exact En|]|]. intros [bs|] s3 [Hu3 Hbs].
    + specialize (Hbs bs eq_refl). eapply spec_bind; [eapply spec_set_bytes, Hu3|]. intros ? s4 Hu4. eapply spec_bind; [eapply spec_count, Hu4|]. intros ? s5 Hu5.
      eapply spec_bind; [eapply spec_touch, Hu5|]. intros ? s6 (d6 & Hu6 & Hr6 & Em6). apply spec_ret. exists d6. split; [done|].
      eapply looked_bytes; [eapply retains_trans; [apply memory_retains|exact Hr6]|exact Hbs|]. by rewrite Em6, memory_set.
    + eapply spec_bind; [eapply spec_count, Hu3|]. intros ? s4 Hu4. apply spec_ret. exists d. split; [done|]. unfold holds_cluster in Hh. rewrite En in Hh. destruct Hh as [Hc Hw]. pose proof (c_size cfg).
      constructor; [by intros ? ?| | | | |done].
      * constructor; [|constructor]. split_and!; try done; [lia|lia|]. intros Em. by rewrite <- Hw.
      * repeat constructor.
      * constructor; [|constructor]. cbn. lia.
      * intros x Hx. right. constructor. unfold covers. cbn. lia.
Qed.

(** Two ranges, one behind the other. *)
Lemma looked_app d0 d1 d2 m delta a b c ds1 ds2 : a <= b -> b <= c -> looked d0 d1 m delta a b ds1 -> looked d1 d2 m delta b c ds2 -> looked d0 d2 m delta a c (ds1 ++ ds2).
Proof.
  intros Hab Hbc [R1 D1 S1 G1 M1 K1] [R2 D2 S2 G2 M2 K2]. constructor.
  - by eapply retains_trans.
  - apply Forall_app. split; [|done]. eapply Forall_impl; [exact D1|]. intros x. by apply desc_ok_retains.
  - rewrite fmap_app. apply StronglySorted_app_2; [|done|done]. intros x y (x' & -> & Hx)%list_elem_of_fmap (y' & -> & Hy)%list_elem_of_fmap.
    rewrite Forall_forall in G1, G2. specialize (G1 _ Hx). specialize (G2 _ Hy). lia.
  - apply Forall_app. split; [eapply Forall_impl; [exact G1|]|eapply Forall_impl; [exact G2|]]; cbn; lia.
  - intros x Hx. rewrite Exists_app. destruct (decide (x < b)).
    + rewrite K2 by lia. destruct (M1 x); [lia|by left|by right; left].
    + destruct (M2 x); [lia|by left|by right; right].
  - intros x Hx. rewrite K2 by lia. apply K1. lia.
Qed.

Lemma spec_lookups {g} delta m : forall n ca s d, up g d m s -> 0 <= ca -> ca + Z.of_nat n <= ncl ->
  spec (lookup_clusters cf mode n (ca * cs) (ca * cs + delta)) s (fun ds s' => exists d', up g d' m s' /\ looked d d' m delta (ca * cs) ((ca + Z.of_nat n) * cs) ds) (after m).
Proof.
  pose proof (c_size cfg) as Hcs. pose proof (c_end cfg) as (_ & Hend & _). induction n as [|n IH]; intros ca s d Hu H0 Hn; cbn [lookup_clusters].
  - apply spec_ret. exists d. split; [done|]. constructor; [by intros ? ?|constructor|constructor|constructor| |done]. intros x Hx. lia.
  - assert (addr2CA cf (ca * cs) = ca) as -> by (unfold addr2CA; by rewrite Z.div_mul by lia). rewrite wrap_id by (unfold fits; nia).
    replace (ca * cs + cs) with ((ca + 1) * cs) by lia. replace (ca * cs + delta + cs) with ((ca + 1) * cs + delta) by lia.
    eapply spec_bind; [eapply spec_lookup; [exact Hu|lia]|]. intros ds1 s1 (d1 & Hu1 & L1). eapply spec_bind; [eapply IH; [exact Hu1|lia|lia]|]. intros ds2 s2 (d2 & Hu2 & L2).
    apply spec_ret. exists d2. split; [done|]. replace (ca + Z.of_nat (S n)) with (ca + 1 + Z.of_nat n) by lia. eapply looked_app; [| |exact L1|exact L2]; nia.
Qed.

Lemma exists_covers x ds : Exists (covers x) ds \/ forall y, y ∈ snd <$> ds -> ~ DataStoreNG.buf_ y <= x < DataStoreNG.buf_ y + cs.
Proof.
  destruct (decide (Exists (fun y : Z * Weed * DataStoreNG.ClusterReadDescriptor => DataStoreNG.buf_ (snd y) <= x < DataStoreNG.buf_ (snd y) + cs) ds)) as [H|H]; [by left|]. right.
  intros y (y' & -> & Hy)%list_elem_of_fmap Hx. apply H. apply Exists_exists. by exists y'.
Qed.

Lemma spec_read_descs {g} delta lo hi ds s d0 d m : up g d m s -> looked d0 d m delta lo hi ds ->
  spec (on_rest (on_ds (readClusters (snd <$> ds)))) s (fun _ s' => exists d', up g d' m s' /\ (forall x, lo <= x < hi -> at_ (memory d') (x + delta) = m x)) (after m).
Proof.
  intros Hu [_ Ld Ls Lr Lm _]. pose proof (up_inv _ _ _ Hu) as Hi. rewrite Forall_forall in Ld. eapply spec_weaken; [eapply (spec_on_ds 0 _ _ _ _ Hu)| |done].
  - intros d' x E. by destruct (ds_read _ _ _ _ Hi Ls E).
  - intros Hr. apply (re_read (rel Hr)); [done|]. intros y ([[ca w] y'] & -> & Hy)%list_elem_of_fmap. destruct (Ld _ Hy) as (_ & _ & Hc & _). cbn. by rewrite Hc.
  - intros [] s' (d' & E & Hu'). exists d'. split; [done|]. destruct (ds_read _ _ _ _ Hi Ls E) as (_ & _ & Hm). destruct (Hm eq_refl) as [Hout Hin]. intros x Hx.
    destruct (exists_covers (x + delta) ds) as [Hc|Hc].
    + apply Exists_exists in Hc as ([[ca w] y] & Hy & Hc). unfold covers in Hc. cbn in Hc. destruct (Ld _ Hy) as (_ & Eb & Hcy & _). pose proof (length_cluster m ca) as Hlen. rewrite Eb in Hc.
      specialize (Hin y _ (Z.to_nat (x - ca * cs)) ltac:(apply list_elem_of_fmap; by exists (ca, w, y)) Hcy ltac:(lia)). rewrite Eb in Hin.
      replace (ca * cs + delta + Z.of_nat (Z.to_nat (x - ca * cs))) with (x + delta) in Hin by lia. rewrite Hin. unfold cluster. rewrite nth_bytes by lia. f_equal. lia.
    + rewrite Hout by done. destruct (Lm x Hx) as [|He]; [done|]. apply Exists_exists in He as (y & Hy & He). destruct (Hc (snd y)); [apply list_elem_of_fmap; by exists y|exact He].
Qed.

Lemma spec_cache_descs {g} delta lo hi m d X : (forall x, lo <= x < hi -> at_ (memory d) (x + delta) = m x) -> forall ds s, up g d m s ->
  Forall (fun '(ca, w, y) => 0 <= ca < ncl /\ lo <= ca * cs /\ (ca + 1) * cs <= hi /\ DataStoreNG.buf_ y = ca * cs + delta /\ (mode = ContentBased -> weed_of cf (cluster m ca) = w)) ds ->
  spec (miter (fun '(ca, weed, desc) => let! r := rest in add_to_cluster_cache_ cf mode ca weed (load (DataStoreNG.buf_ desc) (Z.to_nat cs) (memory (dataStore_ r)))) ds) s (fun _ => up g d m) X.
Proof.
  intros Hm ds. pose proof (c_size cfg) as Hcs. induction ds as [|[[ca w] y] ds IH]; intros s Hu Hds; cbn [miter]; [by apply spec_ret|]. apply Forall_cons in Hds as [(Hca & Hlo & Hhi & Eb & Hw) Hds].
  eapply spec_bind.
  - apply spec_rest. rewrite (up_ds _ _ _ _ Hu), load_bytes, Eb. assert (bytes (at_ (memory d)) (ca * cs + delta) (Z.to_nat cs) = cluster m ca) as ->.
    { apply bytes_ext. intros i Hi. rewrite <- Hm by lia. f_equal. lia. }
    eapply spec_add_cache; [exact Hu|done|done|exact Hw].
  - intros ? s1 Hu1. by apply IH.
Qed.

Lemma spec_readClusters {g} ca delta n s d m : up g d m s -> 0 <= ca -> ca + Z.of_nat n <= ncl ->
  spec (readClusters_ cf (ca * cs) (ca * cs + delta) (Z.of_nat n * cs)) s
    (fun _ s' => exists d', up g d' m s' /\ forall x, ca * cs <= x < (ca + Z.of_nat n) * cs -> at_ (memory d') (x + delta) = m x) (after m).
Proof.
  intros Hu H0 Hn. pose proof (c_size cfg) as Hcs. unfold readClusters_. rewrite Z.div_mul, Nat2Z.id by lia. eapply spec_bind; [by eapply spec_lookups|]. intros ds s1 (d1 & Hu1 & L1).
  eapply spec_bind; [eapply spec_read_descs; [exact Hu1|exact L1]|]. intros ? s2 (d2 & Hu2 & Hm). case_bool_decide; [|apply spec_ret; by exists d2].
  eapply spec_weaken; [eapply (spec_cache_descs _ _ _ _ _ _ Hm); [exact Hu2|]|intros ? ? ?; by exists d2|done]. destruct L1 as [_ Ld _ Lr _ _]. rewrite Forall_forall in Ld, Lr |- *.
  intros [[a' w] y] Hy. destruct (Ld _ Hy) as (Ha & Eb & _ & Hw). specialize (Lr _ Hy). cbn in Lr. split_and!; try done; lia.
Qed.

(** ** Requests *)
Lemma after_up {g} m s : after m s -> is_halted (vol s) = false -> (Rel -> Z.of_nat g <= scos_left (dataStore_ (vol s))) -> up g (dataStore_ (vol s)) m s.
Proof. intros (T & Hl & Hs) Hh Hg. constructor; [exists T; auto|done|done|done]. Qed.

Lemma spec_not_halted {g} s d m : up g d m s -> spec checkNotHalted_ s (fun _ => up g d m) (after m).
Proof.
  intros Hu. unfold checkNotHalted_. apply spec_rest. unfold throw_if. destruct (is_halted (vol s)) eqn:Eh; [|by apply spec_ret].
  split; [intros Hr; by rewrite (up_halted _ _ _ _ Hu Hr) in Eh|]. by eapply up_after.
Qed.

Lemma size_eq {g} s d m : up g d m s -> u64 (lba_count_ (vol s) * lba_size_ cf) = ncl * cs.
Proof. intros [(T & _ & Hs) _ _ _]. rewrite (so_size _ _ _ Hs). apply wrap_id. pose proof (c_end cfg). pose proof (c_size cfg). unfold fits. nia. Qed.

Lemma spec_length {g} off len s d m X : up g d m s -> 0 <= off -> 0 <= len -> off + len <= ncl * cs -> spec (validateIOLength cf off len) s (fun _ => up g d m) X.
Proof.
  intros Hu H0 Hl Hn. pose proof (c_end cfg). unfold validateIOLength. apply spec_rest. apply spec_throw_if; [|done]. rewrite (size_eq _ _ _ Hu), wrap_id by (unfold fits; lia). lia.
Qed.

(** The clusters of a request: [n] of them from [off / cs]. *)
Lemma aligned off len : 0 <= off -> 0 <= len -> off + len <= ncl * cs -> exists n : nat,
  aligned_off cf off = off / cs * cs /\ aligned_len cf off len = Z.of_nat n * cs /\ 0 <= off / cs /\ off / cs + Z.of_nat n <= ncl /\ off / cs * cs <= off /\ off + len <= (off / cs + Z.of_nat n) * cs /\
  off mod cs = off - off / cs * cs /\ (unaligned cf off len = false -> off mod cs = 0 /\ len = Z.of_nat n * cs).
Proof.
  intros H0 Hl Hn. pose proof (c_size cfg) as Hcs. pose proof (c_end cfg) as (Hn0 & Hend & _). pose proof (Z.div_mod off cs ltac:(lia)) as Hdm. pose proof (Z.mod_pos_bound off cs Hcs) as Hmb.
  pose proof (Z.div_pos off cs H0 Hcs) as Hq. set (q := off / cs) in *. set (c := off mod cs) in *.
  assert (nclusters cf off len = (c + len) / cs + (if (c + len) mod cs =? 0 then 0 else 1)) as En by (unfold nclusters; fold c; by rewrite wrap_id by (unfold fits; nia)).
  pose proof (Z.div_mod (c + len) cs ltac:(lia)) as Hdm2. pose proof (Z.mod_pos_bound (c + len) cs Hcs) as Hmb2. pose proof (Z.div_pos (c + len) cs ltac:(lia) Hcs) as Hq2.
  set (q2 := (c + len) / cs) in *. set (c2 := (c + len) mod cs) in *. set (n := q2 + (if c2 =? 0 then 0 else 1)) in *.
  assert (q + n <= ncl) as Hqn. { unfold n. destruct (Z.eqb_spec c2 0); nia. }
  assert (c + len <= n * cs) as Hcl. { unfold n. destruct (Z.eqb_spec c2 0); nia. }
  assert (0 <= n) as Hpos by (unfold n; destruct (c2 =? 0); lia). exists (Z.to_nat n). rewrite Z2Nat.id by done.
  assert (aligned_len cf off len = n * cs) as Ea by (unfold aligned_len; rewrite En, wrap_id; [done|unfold fits; nia]).
  split_and!; try done; try nia. unfold unaligned. rewrite Ea. unfold aligned_off. fold q. intros [E1 E2]%orb_false_iff.
  apply negb_false_iff, Z.eqb_eq in E1. apply negb_false_iff, Z.eqb_eq in E2. lia.
Qed.

Lemma spec_read {g} off buf len s d m : up g d m s -> 0 <= off -> 0 <= len -> off + len <= ncl * cs ->
  spec (read cf bounce off buf len) s (fun _ s' => exists d', up g d' m s' /\ bytes (at_ (memory d')) buf (Z.to_nat len) = bytes m off (Z.to_nat len)) (after m).
Proof.
  intros Hu H0 Hl Hn. pose proof (c_size cfg) as Hcs. destruct (aligned off len H0 Hl Hn) as (n & Eo & El & Hq & Hqn & Hlo & Hhi & Hmod & Hal). unfold read. rewrite (proj1 (c_flags cfg)).
  eapply spec_bind; [eapply spec_not_halted, Hu|]. intros ? s1 Hu1. eapply spec_bind; [eapply spec_length; [exact Hu1|done|done|done]|]. intros ? s2 Hu2.
  eapply spec_bind. { unfold validateIOAlignment. rewrite Eo, El, !Z.mod_mul by lia. by apply (spec_ok _ s2 s2 tt (fun _ => up g d m)). }
  intros ? s3 Hu3. rewrite Eo, El. destruct (unaligned cf off len).
  - pose proof (fun delta => spec_readClusters (off / cs) delta n s3 d m Hu3 Hq Hqn) as Hr. specialize (Hr (bounce - off / cs * cs)).
    replace (off / cs * cs + (bounce - off / cs * cs)) with bounce in Hr by lia. eapply spec_bind; [exact Hr|]. intros ? s4 (d4 & Hu4 & Hm). apply spec_rest.
    eapply spec_weaken; [eapply spec_set_bytes, Hu4| |done]. intros ? s5 Hu5. eexists. split; [exact Hu5|]. rewrite memory_set, (up_ds _ _ _ _ Hu4), load_bytes.
    apply bytes_of; [apply length_bytes|]. intros i Hi. rewrite store_at, upd_in by (rewrite length_bytes; lia). rewrite !nth_bytes by lia. rewrite <- Hm by lia. f_equal. lia.
  - pose proof (fun delta => spec_readClusters (off / cs) delta n s3 d m Hu3 Hq Hqn) as Hr. specialize (Hr (buf - off / cs * cs)). destruct (Hal eq_refl) as [Hz Hln].
    replace (off / cs * cs + (buf - off / cs * cs)) with buf in Hr by lia. eapply spec_weaken; [exact Hr| |done]. intros ? s4 (d4 & Hu4 & Hm). exists d4. split; [done|].
    apply bytes_ext. intros i Hi. rewrite <- Hm by lia. f_equal. lia.
Qed.

(** The clusters that are written for an unaligned request. *)
Lemma patched m a off buf n (Ha : a <= off) (Hn : off + Z.of_nat (length buf) <= a + Z.of_nat n) :
  take (Z.to_nat (off - a)) (bytes m a n) ++ buf ++ drop (Z.to_nat (off - a) + length buf) (bytes m a n) = bytes (upd m off buf) a n.
Proof.
  symmetry. apply bytes_of; [rewrite !length_app, length_take, length_drop, length_bytes; lia|]. intros i Hi. unfold upd. case_bool_decide as Hr.
  - rewrite app_nth2; rewrite length_take, length_bytes; [|lia]. rewrite app_nth1 by lia. f_equal. lia.
  - destruct (decide (a + Z.of_nat i < off)).
    + rewrite app_nth1 by (rewrite length_take, length_bytes; lia). rewrite nth_take_lt, nth_bytes by lia. done.
    + rewrite app_nth2; rewrite length_take, length_bytes; [|lia]. rewrite app_nth2 by lia. rewrite nth_drop, nth_bytes by lia. f_equal. lia.
Qed.

Lemma upd_bytes m f a n x : upd m a (bytes f a n) x = if bool_decide (a <= x < a + Z.of_nat n) then f x else m x.
Proof. unfold upd. rewrite length_bytes. case_bool_decide; [|done]. rewrite nth_bytes by lia. f_equal. lia. Qed.

Lemma take_bytes m a n k : take k (bytes m a n) = bytes m a (k `min` n).
Proof. unfold bytes. by rewrite <- fmap_take, take_seq. Qed.

Lemma patched_upd m a off buf n x : a <= off -> off + Z.of_nat (length buf) <= a + Z.of_nat n -> upd m a (bytes (upd m off buf) a n) x = upd m off buf x.
Proof. intros Ha Hn. rewrite upd_bytes. case_bool_decide; [done|]. symmetry. apply upd_out. lia. Qed.

Lemma patched_torn m a off buf n s : a <= off -> off + Z.of_nat (length buf) <= a + Z.of_nat n -> torn m a (bytes (upd m off buf) a n) s -> torn m off buf s.
Proof.
  intros Ha Hn (k & Hk & Haf). rewrite length_bytes in Hk. exists ((k - Z.to_nat (off - a)) `min` length buf)%nat. split; [lia|]. eapply after_ext; [|exact Haf]. intros x. cbn.
  rewrite take_bytes, upd_bytes. unfold upd. rewrite length_take. repeat case_bool_decide; try lia; try done. by rewrite nth_take_lt by lia.
Qed.

(** How many SCOs a request may begin: one per cluster at most, and one before the first. *)
Definition scos_needed (off len : Z) : nat := S (Z.to_nat (aligned_len cf off len)).

Lemma spec_write {g} off buf s d m : up (scos_needed off (Z.of_nat (length buf)) + g) d m s -> 0 <= off -> off + Z.of_nat (length buf) <= ncl * cs ->
  spec (write cf page_size uuid_of bounce attempts off buf) s (fun _ s' => exists d', up g d' (upd m off buf) s') (torn m off buf).
Proof.
  intros Hu H0 Hn. pose proof (c_size cfg) as Hcs. destruct (aligned off (Z.of_nat (length buf)) H0 ltac:(lia) Hn) as (n & Eo & El & Hq & Hqn & Hlo & Hhi & Hmod & Hal).
  assert (forall A (f : M Vol A) Q, spec f s Q (after m) -> spec f s Q (torn m off buf)) as Hw. { intros A f Q Hf. eapply spec_weaken; [exact Hf|done|]. intros ?. apply torn_none. }
  assert (scos_needed off (Z.of_nat (length buf)) + g = S (Z.to_nat (Z.of_nat n * cs) + g))%nat as Eg by (unfold scos_needed; by rewrite El).
  unfold write. rewrite (proj1 (c_flags cfg)). apply spec_rest. eapply spec_bind. { apply (spec_throw_if _ _ _ (fun _ s' => s' = s)); [|done]. destruct Hu as [(T & _ & Hs) _ _ _]. apply Hs. }
  intros ? s1 ->. eapply spec_bind; [apply Hw; eapply spec_not_halted, Hu|]. intros ? s2 Hu2. eapply spec_bind. { apply (spec_throw_if _ _ _ (fun _ => up (scos_needed off (Z.of_nat (length buf)) + g) d m)); [apply (c_flags cfg)|done]. }
  intros ? s3 Hu3. eapply spec_bind; [eapply spec_length; [exact Hu3|done|lia|done]|]. intros ? s4 Hu4. rewrite Eg in Hu4. clear Eg. rewrite Eo, El. destruct (unaligned cf off (Z.of_nat (length buf))).
  - eapply spec_bind. { eapply spec_weaken; [eapply (spec_read (off / cs * cs) bounce (Z.of_nat n * cs)); [exact Hu4|lia|lia|nia]|intros ? ?; exact id|intros ?; apply torn_none]. }
    intros ? s5 (d5 & Hu5 & Hm). apply spec_rest. rewrite (up_ds _ _ _ _ Hu5), load_bytes, Hm, Hmod, patched by lia. eapply spec_weaken.
    + eapply (spec_write_aligned (off / cs) _ n); [rewrite length_bytes; exact Hu5|done|done|rewrite length_bytes; lia].
    + intros ? s6 (d6 & Hu6). exists d6. eapply up_ext; [|exact Hu6]. intros x. apply patched_upd; lia.
    + intros s6. apply patched_torn; lia.
  - destruct (Hal eq_refl) as [Hz Hln]. assert (off / cs * cs = off) as Eoff by lia. rewrite <- Hln, Nat2Z.id in Hu4. pose proof (spec_write_aligned (off / cs) buf n s4 d m Hu4 Hq Hqn Hln) as Hf. by rewrite Eoff in Hf |- *.
Qed.

Lemma spec_foc_flush {g} s d m : up g d m s -> spec (on_rest (on_foc foc_flush)) s (fun _ => up g d m) (after m).
Proof. intros Hu. eapply spec_weaken; [eapply spec_on_foc; [exact Hu|]|by intros ? ? []|done]. intros Hr. apply (re_flush (rel Hr)). Qed.

Lemma spec_sync_ {g} b s d m : up g d m s -> spec (sync_ cf b) s (fun _ s' => exists d', up g d' m s') (after m).
Proof.
  intros Hu. pose proof (up_inv _ _ _ Hu) as Hi. unfold sync_. eapply spec_bind; [eapply spec_not_halted, Hu|]. intros ? s1 Hu1. eapply spec_bind.
  { eapply (spec_on_ds 0 ds_sync _ _ _ Hu1); [intros d' x E; by destruct (ds_synced _ _ _ Hi E)|intros Hr; by apply (re_sync (rel Hr))]. }
  intros c s2 (d2 & E & Hu2). destruct (ds_synced _ _ _ Hi E) as [_ Hc]. eapply spec_bind; [eapply spec_sm_sync; [|exact Hu2]|]. { destruct b; [by apply Hc|done]. }
  intros ? s3 Hu3. eapply spec_bind; [eapply spec_foc_flush, Hu3|]. intros ? s4 Hu4. apply spec_rest. apply spec_ret. by exists d2.
Qed.

Lemma spec_sync {g} elapsed s d m : up g d m s -> spec (sync cf elapsed) s (fun _ s' => exists d', up g d' m s') (after m).
Proof.
  intros Hu. unfold sync. rewrite (proj1 (c_flags cfg)). apply spec_rest. assert (forall f s, (forall r, exists a b, f r = set_syncs a b r) -> up g d m s -> up g d m (set_vol (f (vol s)) s)) as Hf.
  { intros f s0 Ef [(T & Hl & Hs) Hd Hh Hg]. destruct (Ef (vol s0)) as (a & b & ->). constructor; [|done|done|done]. exists T. split; [by apply logs_vol|]. by destruct Hs. }
  eapply spec_bind; [apply (spec_ok _ s _ tt (fun _ => up g d m) _ eq_refl); apply (Hf (set_syncs _ _)); [by eauto|done]|]. intros ? s1 Hu1. apply spec_rest.
  destruct (_ || _); [|apply spec_ret; by exists d]. eapply spec_bind; [apply (spec_ok _ s1 _ tt (fun _ => up g d m) _ eq_refl); apply (Hf (fun r => set_syncs 0 _ r)); [by eauto|done]|]. intros ? s2 Hu2. eapply spec_sync_, Hu2.
Qed.

Lemma spec_backendSync {g} s d m : up (S g) d m s -> spec (scheduleBackendSync cf page_size uuid_of) s (fun _ s' => exists d', up g d' m s') (after m).
Proof.
  intros Hu. unfold scheduleBackendSync, scheduleBackendSync_. eapply spec_bind; [eapply spec_not_halted, Hu|]. intros ? s1 Hu1. eapply spec_bind; [eapply spec_sync_, Hu1|]. intros ? s2 (d2 & Hu2).
  eapply spec_bind; [eapply spec_finalize, Hu2|]. intros c s3 (d3 & Hu3 & _ & _ & _ & Hc & _). eapply spec_weaken; [eapply spec_sm_backendSync; [exact Hc|exact Hu3]|intros ? ? ?; by exists d3|done].
Qed.

(** ** Tasks *)
Definition leaves {A} (P : Rest -> Prop) (f : M Vol A) : Prop := forall s, P (vol s) -> P (vol (fst (f s))).

Lemma leaves_bind {A A'} P (f : M Vol A) (k : A -> M Vol A') : leaves P f -> (forall a, leaves P (k a)) -> leaves P (mbind f k).
Proof. intros Hf Hk s Hs. unfold mbind. specialize (Hf s Hs). destruct (f s) as [s1 [a|e]]; [by apply Hk|done]. Qed.

Lemma leaves_catch {A} P (f : M Vol A) h : leaves P f -> (forall e, leaves P (h e)) -> leaves P (catch f h).
Proof. intros Hf Hh s Hs. unfold catch. specialize (Hf s Hs). destruct (f s) as [s1 [a|e]]; [done|by apply Hh]. Qed.

Lemma leaves_frame {A} P (f : M Vol A) : (forall s, vol (fst (f s)) = vol s) -> leaves P f.
Proof. intros Hf s Hs. by rewrite Hf. Qed.

Lemma leaves_on_vol {A} (P : Rest -> Prop) (f : M Rest A) : (forall v, P v -> P (fst (f v))) -> leaves P (on_vol f).
Proof. intros Hf s Hs. unfold on_vol. specialize (Hf _ Hs). by destruct (f (vol s)). Qed.

(** Sound unless it is halted. *)
Definition disk_or_halted l m r : Prop := is_halted r = false -> sound l m r.

Lemma disk_halt l m : leaves (disk_or_halted l m) halt_.
Proof. by intros s _ Hn. Qed.

Lemma disk_be {A} l m (f : M B A) v : disk_or_halted l m v -> disk_or_halted l m (fst (on_be f v)).
Proof. intros Hv. unfold on_be. destruct (f (backend v)). intros Hn. by destruct (Hv Hn). Qed.

Lemma disk_foc {A} l m (f : M F A) v : disk_or_halted l m v -> disk_or_halted l m (fst (on_foc f v)).
Proof. intros Hv. unfold on_foc. destruct (f (failover_ v)). intros Hn. by destruct (Hv Hn). Qed.

Lemma disk_written l m n : leaves (disk_or_halted l m) (on_vol (writtenToBackendUpTo n)).
Proof.
  apply leaves_on_vol. intros v Hv. cbn. unfold on_ds. pose proof (ds_stays_halted (cs := cs) (dataStore_ v) n) as Hst. destruct (ds_writtenToBackendUpTo n (dataStore_ v)) as [d' x] eqn:E.
  intros Hn. cbn [fst] in *. apply ds_halt_mono in Hn as [Hh Hd']; [|done]. destruct (ds_written _ _ _ _ (so_ds _ _ _ (Hv Hh)) E) as (Hi & _ & Hc & _). apply sound_ds; [auto|done|]. apply Hc. by right.
Qed.

Lemma disk_uncork l m u : leaves (disk_or_halted l m) (halt_rethrow (on_vol (unCorkAndTrySync u))).
Proof.
  intros s Hs. unfold halt_rethrow, catch, on_vol. cbn. unfold v_unCorkAndTrySync, on_md. destruct (md_unCork u (metaDataStore_ (vol s))) as [y [[]|e]] eqn:E; [|by intros Hn].
  cbn. destruct (md_sync y) as [z x] eqn:Ez. cbn. intros Hn. destruct (Hs Hn) as [? Hm ? ? He ? ?]. destruct (md_uncorked _ _ _ Hm E) as [Hy Hey]. pose proof (md_synced y Hy) as [Hz Hez]. rewrite Ez in Hz, Hez.
  constructor; try done. intros ca Hca. cbn. cbn in Hez. rewrite Hez, Hey. by apply He.
Qed.

Lemma disk_remove l m n : leaves (disk_or_halted l m) (on_vol (removeUpToFromFailOverCache n)).
Proof.
  apply leaves_on_vol. intros v Hv. cbn. unfold v_removeUpToFromFailOverCache, mbind, mget. destruct (backup _); [|done]. pose proof (disk_foc l m foc_flush v Hv) as Hf.
  destruct (on_foc foc_flush v) as [v1 [[]|e]]; [|done]. by apply disk_foc.
Qed.

Lemma disk_check l m i : leaves (disk_or_halted l m) (on_vol (checkState i)).
Proof.
  apply leaves_on_vol. intros v Hv. cbn. unfold v_checkState, mbind, mget. case_bool_decide; [|done]. intros Hn. by destruct (Hv Hn).
Qed.

Ltac leaves_step :=
  match goal with
  | |- leaves _ (halt_rethrow (on_vol (unCorkAndTrySync _))) => apply disk_uncork
  | |- leaves _ (halt_rethrow _) => apply leaves_catch; [|intros ?]
  | |- leaves _ (ignore_errors _) => apply leaves_catch; [|intros ?]
  | |- leaves _ (catch _ _) => apply leaves_catch; [|intros ?]
  | |- leaves _ (mbind _ _) => apply leaves_bind; [|intros ?]
  | |- leaves _ halt_ => apply disk_halt
  | |- leaves _ (on_vol (writtenToBackendUpTo _)) => apply disk_written
  | |- leaves _ (on_vol (removeUpToFromFailOverCache _)) => apply disk_remove
  | |- leaves _ (on_vol (checkState _)) => apply disk_check
  | |- leaves _ (on_vol (backend_write _ _ _)) => apply leaves_on_vol; intros ?; apply disk_be
  | |- leaves _ (on_vol (backend_write_snapshots _)) => apply leaves_on_vol; intros ?; apply disk_be
  | |- leaves _ (if ?b then _ else _) => destruct b
  | |- leaves _ (on_sp _) => unfold on_sp
  | |- leaves _ _ => by apply leaves_frame
  | |- leaves _ (match ?e with _ => _ end) => destruct e
  end.

Lemma disk_task l m t : leaves (disk_or_halted l m) (run_task t).
Proof. destruct t as [i n c|]; cbn [run_task]; unfold run_WriteTLog, run_WriteSnapshot, tlogWrittenToBackendCallback; repeat leaves_step. Qed.

Lemma task_after m s t : after m s -> t ∈ tasks s -> after m (fst (run_task t s)).
Proof.
  intros (T & Hl & Hs) Ht. destruct (task_log page_size uuid_of s T t Hl Ht) as (s' & r & T' & E & Hl' & ->). exists T. pose proof (disk_task (locations T) m t s Hs) as Hd. rewrite E in *. by split.
Qed.
End Facts.
