(* ===== verification/VolumeTheorems.v ===== *)
(** * A volume is a disk

    Reading returns what was written last, from the first byte to the last, over
    caches, rollovers of SCOs and TLogs, and the tasks that run besides; and the log
    alone tells where the clusters are. *)

From stdpp Require Import sorting.
From S2P Require Import Prelude CheckSum Addressing TLogEntry TLogIO TLogIOFacts TLogs Snapshots SnapshotPersistor SnapshotManagement SnapshotManagementFacts SnapshotManagementOps SnapshotManagementTheorems ClusterCache SCOCache DataStore Volume VolumeFacts.
Import ClusterLocation (ClusterLocation, isNull) CLH SnapshotManagement ClusterCacheEntry (ClusterCacheMode (..)) Volume.

(** ** Requests *)
Inductive request : Type :=
  | Write (off : Z) (buf : list Z)
  | Read (off buf len : Z)
  | SyncRequest (elapsed : Z)
  | BackendSync
  | Run (t : Task).

(** What a disk may answer, and what is on it then.  A write that throws has written
    some bytes from the start of its buffer. *)
Definition answers (m : Z -> Z) (q : request) (r : res (list Z)) (m' : Z -> Z) : Prop :=
  match q with
  | Write off buf => exists k, (k <= length buf)%nat /\ (is_ok r = true -> k = length buf) /\ forall x, m' x = upd m off (take k buf) x
  | Read off _ len => (forall x, m' x = m x) /\ forall bs, r = Ok bs -> bs = bytes m off (Z.to_nat len)
  | _ => forall x, m' x = m x
  end.

Fixpoint answered (m : Z -> Z) (qs : list request) (rs : list (res (list Z))) (m' : Z -> Z) : Prop :=
  match qs, rs with
  | [], [] => forall x, m' x = m x
  | q :: qs, r :: rs => exists m1, answers m q r m1 /\ answered m1 qs rs m'
  | _, _ => False
  end.

Section Theorems.
Context {D MD F C B : Type} `{IDS : DataStore D} `{IMD : MetaDataStore MD} `{IFC : FailOverCacheClient F} `{ICC : ClusterCacheClient C} `{IBE : BackendClient B}.
Variable cf : Config.
Variable page_size : nat.
Variable uuid_of : nat -> TLog.UUID.
Variable bounce : Z.
Variable attempts : nat.
Abbreviation cs := (clusterSize_ cf).
Context {SDS : DataStoreSpec D cs} {SMD : MetaDataStoreSpec MD} {SCC : ClusterCacheSpec C (cluster_cache_mode_ cf)} {SFC : FailOverSpec F cs attempts} {SBE : BackendSpec B}.
Hypothesis page_pos : (0 < page_size)%nat.
Hypothesis uuid_inj : forall m n, uuid_of m = uuid_of n -> m = n.
Hypothesis uuid_not_null : forall n, uuid_of n <> 0.
Variable ncl : Z.
Hypothesis cfg : configured cf ncl.

Abbreviation Vol := (Vol D MD F C B).
#[local] Hint Extern 0 (VolumeInterface (Volume.Rest _ _ _ _ _)) => exact (rest_interface cf) : typeclass_instances.
#[local] Hint Extern 0 (VolumeSpec (Volume.Rest _ _ _ _ _)) => exact (rest_spec cf) : typeclass_instances.
Implicit Types (s : Vol) (m : Z -> Z) (q : request).

Abbreviation logs := (logs page_size uuid_of (VI := rest_interface cf)).
Abbreviation after := (after cf page_size uuid_of ncl).
Abbreviation up := (up cf page_size uuid_of ncl).
Abbreviation reliable := (reliable cf ncl (D := D) (MD := MD) (F := F)).
Abbreviation spec := (spec (D := D) (MD := MD) (F := F) (C := C) (B := B)).

Definition serve q : M Vol (list Z) :=
  match q with
  | Write off buf => write cf page_size uuid_of bounce attempts off buf ;! mret []
  | Read off buf len => read cf bounce off buf len ;! let! r := rest in mret (load buf (Z.to_nat len) (memory (dataStore_ r)))
  | SyncRequest elapsed => sync cf elapsed ;! mret []
  | BackendSync => scheduleBackendSync cf page_size uuid_of ;! mret []
  | Run t => run_task t ;! mret []
  end.

(** Requests do not wrap around the address space, tasks were scheduled. *)
Definition valid s q : Prop :=
  match q with
  | Write off buf => 0 <= off /\ off + Z.of_nat (length buf) < 2 ^ 64
  | Read off _ len => 0 <= off /\ 0 <= len /\ off + len < 2 ^ 64
  | Run t => t ∈ tasks s
  | _ => True
  end.

Definition in_range q : Prop :=
  match q with
  | Write off buf => off + Z.of_nat (length buf) <= ncl * cs
  | Read off _ len => off + len <= ncl * cs
  | Run _ => False
  | _ => True
  end.

(** The SCOs that a request may begin. *)
Definition need q : nat :=
  match q with
  | Write off buf => scos_needed cf off (Z.of_nat (length buf))
  | BackendSync => 1
  | _ => 0
  end.

Definition room s : Z := scos_left (dataStore_ (vol s)).

Definition total s q s' (r : res (list Z)) : Prop := forall g, reliable -> is_halted (vol s) = false -> in_range q -> Z.of_nat (need q + g) <= room s ->
  is_ok r = true /\ is_halted (vol s') = false /\ Z.of_nat g <= room s'.

Lemma answers_throw m q e : answers m q (Throw e) m.
Proof. destruct q; cbn; try done. exists 0%nat. split_and!; [lia|done|]. intros x. cbn. by rewrite upd_nil. Qed.

(** A volume that is halted refuses everything but a sync that is ignored. *)
Lemma serve_halted s m q : after m s -> is_halted (vol s) = true -> (forall t, q <> Run t) ->
  exists s' r, serve q s = (s', r) /\ answers m q r m /\ after m s'.
Proof.
  intros Ha Hh Hq. pose proof (c_flags _ _ cfg) as [Hf _]. assert (checkNotHalted_ s = (s, Throw VolumeHaltedException)) as Ec by (unfold checkNotHalted_, mbind, rest, mbind, mget, mret, throw_if; by rewrite Hh).
  destruct q as [off buf|off buf len|el| |t]; cbn [serve].
  - unfold write. rewrite Hf. unfold mbind at 1. rewrite rest_bind. unfold throw_if at 1. destruct (isVolumeTemplate (vol s)).
    + exists s, (Throw VolumeIsTemplateException). split_and!; [done|apply answers_throw|done].
    + unfold mbind at 1. unfold mret at 1. unfold mbind at 1. rewrite Ec. exists s, (Throw VolumeHaltedException). split_and!; [done|apply answers_throw|done].
  - unfold read. rewrite Hf. unfold mbind at 1 2. rewrite Ec. exists s, (Throw VolumeHaltedException). split_and!; [done|apply answers_throw|done].
  - destruct Ha as (T & Hl & _). unfold sync. rewrite Hf. unfold mbind at 1. rewrite rest_bind. unfold mbind at 1. unfold on_rest at 1, on_vol at 1, mmodify at 1. rewrite rest_bind.
    set (s1 := set_vol _ s). assert (logs s1 T) as Hl1 by by apply logs_vol. assert (is_halted (vol s1) = true) as Hh1 by done. clearbody s1. destruct (_ || _).
    + unfold mbind at 1. unfold on_rest at 1, on_vol at 1, mmodify at 1. set (s2 := set_vol _ s1). assert (logs s2 T) as Hl2 by by apply logs_vol. assert (is_halted (vol s2) = true) as Hh2 by done. clearbody s2.
      unfold sync_, mbind at 1. unfold checkNotHalted_, throw_if. rewrite rest_bind, Hh2. exists s2, (Throw VolumeHaltedException). split_and!; [done|done|by eapply after_halted].
    + exists s1, (Ok []). split_and!; [done|done|by eapply after_halted].
  - unfold scheduleBackendSync. unfold mbind at 1 2. rewrite Ec. exists s, (Throw VolumeHaltedException). split_and!; [done|done|done].
  - by destruct (Hq t).
Qed.

Lemma serve_spec (Rel : Prop) g s d m q : (Rel -> reliable) -> up Rel (need q + g) d m s -> valid s q -> in_range q ->
  spec Rel (serve q) s (fun bs s' => exists d' m', up Rel g d' m' s' /\ answers m q (Ok bs) m') (fun s' => exists m', after m' s' /\ forall e, answers m q (Throw e) m').
Proof.
  intros rel Hu Hv Hr. assert (forall A (f : M Vol A) (q' : request), q' = q -> match q' with SyncRequest _ | BackendSync => True | _ => False end -> spec Rel f s (fun _ s' => exists d', up Rel g d' m s') (after m) ->
    spec Rel (f ;! mret []) s (fun bs s' => exists d' m', up Rel g d' m' s' /\ answers m q (Ok bs) m') (fun s' => exists m', after m' s' /\ forall e, answers m q (Throw e) m')) as Hs.
  { intros A f q' <- Hq Hf. eapply spec_bind; [eapply spec_weaken; [exact Hf|intros ? ?; exact id|]|].
    - intros s' Ha. exists m. split; [done|]. intros e. apply answers_throw.
    - intros a s' (d' & Hu'). apply spec_ret. exists d', m. split; [done|]. by destruct q'. }
  destruct q as [off buf|off buf len|el| |t]; cbn [serve valid in_range need] in *.
  - eapply spec_bind; [eapply spec_weaken; [eapply (spec_write cf page_size uuid_of bounce attempts page_pos uuid_inj uuid_not_null ncl cfg Rel rel); [exact Hu|apply Hv|done]|intros ? ?; exact id|]|].
    + intros s' (k & Hk & Ha). exists (upd m off (take k buf)). split; [done|]. intros e. by exists k.
    + intros a s' (d' & Hu'). apply spec_ret. exists d', (upd m off buf). split; [done|]. exists (length buf). split_and!; [done|done|]. intros x. by rewrite firstn_all.
  - eapply spec_bind; [eapply spec_weaken; [eapply (spec_read cf page_size uuid_of bounce page_pos ncl cfg Rel rel off buf len); [exact Hu|apply Hv|apply Hv|done]|intros ? ?; exact id|]|].
    + intros s' Ha. exists m. split; [done|]. intros e. apply answers_throw.
    + intros a s' (d' & Hu' & Hb). apply spec_rest. apply spec_ret. exists d', m. split; [done|]. split; [done|]. intros bs [= <-]. by rewrite (up_ds _ _ _ _ _ _ _ _ _ Hu'), load_bytes, Hb.
  - by eapply Hs; [reflexivity| |eapply (spec_sync cf page_size uuid_of page_pos uuid_inj uuid_not_null ncl cfg Rel rel), Hu].
  - by eapply Hs; [reflexivity| |eapply (spec_backendSync cf page_size uuid_of page_pos uuid_inj uuid_not_null ncl Rel rel), Hu].
  - done.
Qed.

Lemma serve_beyond s m q : after m s -> is_halted (vol s) = false -> valid s q -> ~ in_range q -> (forall t, q <> Run t) -> exists e, serve q s = (s, Throw e).
Proof.
  intros Ha Hh Hv Hr Hq. assert (up False 0 (dataStore_ (vol s)) m s) as Hu by by apply after_up. pose proof (c_flags _ _ cfg) as [Hf Hro].
  assert (checkNotHalted_ s = (s, Ok tt)) as Ec by (unfold checkNotHalted_, mbind, rest, mbind, mget, mret, throw_if; by rewrite Hh).
  assert (forall off len, 0 <= off + len < 2 ^ 64 -> ~ off + len <= ncl * cs -> validateIOLength cf off len s = (s, Throw AccessBeyondEndOfVolumeException)) as El.
  { intros off len Hb Hn. unfold validateIOLength. rewrite rest_bind, (size_eq _ _ _ page_pos _ cfg _ _ _ _ Hu), wrap_id by done. unfold throw_if. by rewrite (proj2 (Z.ltb_lt _ _)) by lia. }
  destruct q as [off buf|off buf len|el| |t]; cbn [serve valid in_range] in *; try done; exists AccessBeyondEndOfVolumeException.
  - unfold write. rewrite Hf. unfold mbind at 1. rewrite rest_bind. assert (isVolumeTemplate (vol s) = false) as -> by (destruct Hu as [(T & _ & Hs) _ _ _]; apply Hs).
    unfold throw_if at 1. unfold mbind at 1, mret at 1. unfold mbind at 1. rewrite Ec. unfold mbind at 1. unfold checkNotReadOnly_. rewrite Hro. unfold throw_if, mret at 1. unfold mbind at 1. by rewrite El by lia.
  - unfold read. rewrite Hf. unfold mbind at 1 2. rewrite Ec. unfold mbind at 1. by rewrite El by lia.
  - by destruct (Hq t).
Qed.

Lemma serve_one s m q : after m s -> valid s q -> exists s' r m', serve q s = (s', r) /\ answers m q r m' /\ after m' s' /\ total s q s' r.
Proof.
  intros Ha Hv. destruct (match q with Run _ => true | _ => false end) eqn:Eq.
  { destruct q as [| | | |t]; try done. pose proof (task_after _ _ _ _ _ _ _ Ha Hv) as Ht. cbn [serve]. unfold mbind. destruct (run_task t s) as [s' [[]|e]]; [exists s', (Ok []), m|exists s', (Throw e), m]; split_and!; done. }
  assert (forall t, q <> Run t) as Hq by (intros t ->; done). destruct (is_halted (vol s)) eqn:Eh.
  { destruct (serve_halted s m q Ha Eh Hq) as (s' & r & E & Hans & Ha'). exists s', r, m. split_and!; [done|done|done|]. intros g _ Hn. congruence. }
  assert (in_range q \/ ~ in_range q) as [Hr|Hr] by (destruct q; cbn; lia || tauto).
  - assert (forall (Rel : Prop) g, (Rel -> reliable) -> (Rel -> Z.of_nat (need q + g) <= room s) -> spec Rel (serve q) s (fun bs s' => exists d' m', up Rel g d' m' s' /\ answers m q (Ok bs) m') (fun s' => exists m', after m' s' /\ forall e, answers m q (Throw e) m')) as Hs.
    { intros Rel g rel Hg. eapply serve_spec; [exact rel|by apply after_up|done|done]. }
    pose proof (Hs False 0%nat ltac:(done) ltac:(done)) as H0. pose proof (fun g => Hs (reliable /\ Z.of_nat (need q + g) <= room s) g ltac:(tauto) ltac:(tauto)) as H1. clear Hs.
    unfold VolumeFacts.spec in H0, H1. destruct (serve q s) as [s' [bs|e]].
    + destruct H0 as (d' & m' & Hu' & Hans). exists s', (Ok bs), m'. split_and!; [done|done|by eapply up_after|]. intros g Hrel _ _ Hg. destruct (H1 g) as (d1 & m1 & Hu1 & _). split; [done|].
      split; [by apply (up_halted _ _ _ _ _ _ _ _ _ Hu1)|]. unfold room. rewrite (up_ds _ _ _ _ _ _ _ _ _ Hu1). by apply (up_room _ _ _ _ _ _ _ _ _ Hu1).
    + destruct H0 as (_ & m' & Ha' & Hans). exists s', (Throw e), m'. split_and!; [done|done|done|]. intros g Hrel _ _ Hg. destruct (H1 g) as [Hn _]. by destruct Hn.
  - destruct (serve_beyond _ _ _ Ha Eh Hv Hr Hq) as (e & E). exists s, (Throw e), m. split_and!; [done|apply answers_throw|done|]. by intros g _ _ Hi.
Qed.

(** ** Sequences of requests *)
Fixpoint serves (qs : list request) s : Vol * list (res (list Z)) :=
  match qs with
  | [] => (s, [])
  | q :: qs => let '(s1, r) := serve q s in let '(s', rs) := serves qs s1 in (s', r :: rs)
  end.

Fixpoint valids s (qs : list request) : Prop :=
  match qs with
  | [] => True
  | q :: qs => valid s q /\ valids (fst (serve q s)) qs
  end.

Lemma serves_disk qs : forall s m, after m s -> valids s qs -> exists s' rs m', serves qs s = (s', rs) /\ answered m qs rs m' /\ after m' s' /\
  (reliable -> is_halted (vol s) = false -> Forall in_range qs -> Z.of_nat (sum_list (need <$> qs)) <= room s -> Forall (fun r => is_ok r = true) rs).
Proof.
  induction qs as [|q qs IH]; intros s m Ha Hv; cbn [serves valids] in *.
  - exists s, [], m. split_and!; try done.
  - destruct Hv as [Hv Hvs]. destruct (serve_one s m q Ha Hv) as (s1 & r & m1 & E & Hans & Ha1 & Ht). rewrite E in *. cbn [fst] in Hvs. destruct (IH s1 m1 Ha1 Hvs) as (s' & rs & m' & E' & Hans' & Ha' & Ht').
    rewrite E'. exists s', (r :: rs), m'. split_and!; [done|by exists m1|done|]. intros Hrel Hh [Hq Hqs]%Forall_cons Hg. destruct (Ht _ Hrel Hh Hq Hg) as (Hok & Hh1 & Hg1). constructor; [done|]. by apply Ht'.
Qed.

(** ** New volumes *)
Record blank (r : Rest D MD F C B) : Prop := mkBlank {
  b_ds : ds_inv (dataStore_ r);
  b_md : md_inv (metaDataStore_ r);
  b_size : lba_count_ r * lba_size_ cf = ncl * cs;
  b_template : isVolumeTemplate r = false;
  b_entry ca : 0 <= ca < ncl -> isNull (clusterLocation (entry (metaDataStore_ r) ca)) = true;
  b_cache ca w : cached (cluster_cache r) ca w = None }.

Lemma bytes_zero a n : bytes (fun _ => 0) a n = replicate n 0.
Proof. apply bytes_of; [by rewrite length_replicate|]. intros i Hi. symmetry. apply nth_lookup_Some. by apply lookup_replicate_2. Qed.

Lemma blank_after s : started page_size uuid_of s -> blank (vol s) -> after (fun _ => 0) s.
Proof.
  intros Hs [? ? ? ? He Hc]. apply (started_logs _ _ page_pos) in Hs as Hl. exists [[]]. split; [done|]. intros _. constructor; try done.
  - intros ca Hca. right. split; [by apply He|done].
  - intros ca Hca. unfold holds_cluster, replayed. cbn. apply bytes_zero.
  - intros ca w bs _ _. by rewrite Hc.
Qed.


(** ** Requests that wrap around *)
Lemma rethrow_halts {A} (f : M Vol A) s s' e : halt_rethrow f s = (s', Throw e) -> is_halted (vol s') = true.
Proof. unfold halt_rethrow, catch. destruct (f s) as [s1 [a|x]]; [done|]. unfold halt_, mbind, mmodify, mthrow. by intros [= <- <-]. Qed.

Lemma refused_entry s T ca lh : logs s T -> fits 64 ca -> CLH.wf lh -> isNull (clusterLocation lh) = false -> Entry.max_valid_cluster_address < ca ->
  exists s', addClusterEntry ca lh s = (s', Throw ThrowUnless) /\ is_halted (vol s') = true.
Proof.
  intros Hl Hca Hw Hn Hlt. destruct (logs_last _ _ _ _ Hl) as (Y & es & ->). destruct (addClusterEntry_log page_size uuid_of s Y es ca lh Hl Hca Hw) as (s' & r & T' & E & _ & HQ).
  unfold Entry.Entry_loc in HQ. rewrite Hn in HQ. cbn [negb] in HQ. rewrite (proj2 (Z.leb_gt _ _)) in HQ by lia. destruct HQ as [-> _]. exists s'. split; [done|].
  destruct Hl as (l & t & L & es' & w & Hh & _). unfold addClusterEntry, mbind at 1 in E. rewrite (current_tlog _ _ _ _ _ _ _ _ Hh) in E. by eapply rethrow_halts.
Qed.

Lemma wrapped_chunk s d m ca buf k : up False 0 d m s -> reliable -> Entry.max_valid_cluster_address < ca -> 0 <= ca -> ca * cs < 2 ^ 64 -> Z.of_nat (length buf) = Z.of_nat k * cs -> (0 < k)%nat -> Z.of_nat k <= getRemainingSCOCapacity d ->
  exists s', writeClusters_ cf page_size uuid_of attempts (ca * cs) buf s = (s', Throw ThrowUnless) /\ is_halted (vol s') = true.
Proof.
  intros Hu Hr Hmax H0 Hca Hbuf Hk Hcap. pose proof (c_size _ _ cfg) as Hcs. pose proof (up_inv _ _ _ _ _ _ _ _ Hu) as Hi. unfold writeClusters_, mverify. rewrite Hbuf, !Z.mod_mul, Z.div_mul, Nat2Z.id by lia. cbn [Z.eqb]. unfold mbind at 1 2, mret at 1 2.
  destruct (re_write _ _ Hr d buf k Hi Hbuf Hcap) as [Hok _]. destruct (writeClusters buf k d) as [d' [[locs t]|e]] eqn:Ew; [|done]. destruct (ds_write _ _ _ _ _ Hi Hbuf Hcap Ew) as (_ & _ & Hw). destruct (Hw _ _ eq_refl) as (_ & Hlen & Hlocs).
  unfold mbind at 1.
  assert (on_rest (on_ds (writeClusters buf k)) s = (set_vol (set_ds d' (vol s)) s, Ok (locs, t))) as E by (unfold on_rest, on_vol, on_ds; by rewrite (up_ds _ _ _ _ _ _ _ _ _ Hu), Ew). rewrite E. clear E. unfold log_clusters. destruct locs as [|l locs]; [cbn in Hlen; lia|].
  rewrite imap_cons. cbn [miter]. unfold mbind at 1. unfold mbind at 1. rewrite Z.mul_0_l, Z.add_0_r, wrap_id by (unfold fits; nia). unfold addr2CA. rewrite Z.div_mul by lia.
  destruct (Hlocs 0%nat l eq_refl) as (Hnull & Hwf & Hc). destruct (made_clh cf ncl cfg l _ d' Hwf Hnull Hc) as (Hclh & Hnn & _). destruct Hu as [(T & Hl & _) _ _ _].
  destruct (refused_entry (set_vol (set_ds d' (vol s)) s) T ca _ ltac:(by apply logs_vol) ltac:(unfold fits; nia) Hclh Hnn Hmax) as (s' & E & Hh). exists s'. split; [|done].
  unfold log_cluster, writeClusterMetaData_, mbind at 1 2. unfold nth_cluster. rewrite Nat.mul_0_l in *. by rewrite E.
Qed.

Lemma wrapped_sum a b : 2 ^ 64 <= a + b < 2 ^ 65 -> u64 (a + b) = a + b - 2 ^ 64.
Proof. intros Hb. unfold wrap. symmetry. apply Z.mod_unique with 1; lia. Qed.

Lemma wrapped_loop fuel s d m ca buf n b : up False 0 d m s -> reliable -> Entry.max_valid_cluster_address < ca -> 0 <= ca -> ca * cs < 2 ^ 64 -> Z.of_nat (length buf) = Z.of_nat n * cs -> (0 < n)%nat -> 0 < getRemainingSCOCapacity d ->
  exists s', write_loop cf page_size uuid_of attempts (S fuel) (ca * cs) buf b s = (s', Throw ThrowUnless) /\ is_halted (vol s') = true.
Proof.
  intros Hu Hr Hmax H0 Hca Hbuf Hn Hcap. pose proof (c_size _ _ cfg) as Hcs. pose proof (ds_bounds _ (up_inv _ _ _ _ _ _ _ _ Hu)) as Hbd. destruct (foc_entries (failover_ (vol s))) as [Hme Hme'].
  cbn [write_loop]. destruct (Nat.eqb_spec (length buf) 0); [nia|]. rewrite rest_bind, (up_ds _ _ _ _ _ _ _ _ _ Hu), (wrap_id 64 (getRemainingSCOCapacity d * cs)), (wrap_id 64 (max_entries (failover_ (vol s)) * cs)) by (unfold fits; lia).
  unfold mverify. rewrite (proj2 (Z.ltb_lt (getRemainingSCOCapacity d * cs) _)), (proj2 (Z.ltb_lt 0 (max_entries (failover_ (vol s)) * cs))) by nia. unfold mbind at 1 2, mret at 1 2. rewrite Hbuf, (chunk_eq cf page_size page_pos ncl cfg) by lia.
  set (k := Z.to_nat (Z.min (Z.of_nat n) (Z.min (max_entries (failover_ (vol s))) (getRemainingSCOCapacity d)))).
  assert (Z.min (Z.of_nat n) (Z.min (max_entries (failover_ (vol s))) (getRemainingSCOCapacity d)) = Z.of_nat k) as -> by lia.
  destruct (wrapped_chunk s d m ca (take (Z.to_nat (Z.of_nat k * cs)) buf) k Hu Hr Hmax H0 Hca) as (s' & E & Hh); [rewrite length_take; nia|lia|lia|]. exists s'. unfold mbind. by rewrite E.
Qed.

Lemma reached_after s qs s' rs : started page_size uuid_of s -> blank (vol s) -> valids s qs -> serves qs s = (s', rs) -> exists m, after m s'.
Proof. intros Hs Hb Hv E. destruct (serves_disk qs s _ (blank_after s Hs Hb) Hv) as (s1 & rs1 & m & E1 & _ & Ha & _). rewrite E in E1. injection E1 as <- _. by exists m. Qed.

(** C35. a request behind the end of the volume is refused, unless its end wraps around the
    address space of 64 bits to an offset in the volume: an aligned write of that kind is accepted, the
    log refuses the address of its first cluster, and the volume is halted for good,
    although no component has failed. *)
Theorem wrapped_write_halts s qs s1 rs ca buf n : started page_size uuid_of s -> blank (vol s) -> valids s qs -> serves qs s = (s1, rs) -> reliable -> is_halted (vol s1) = false ->
  0 < getRemainingSCOCapacity (dataStore_ (vol s1)) -> Z.of_nat (length buf) = Z.of_nat n * cs -> Z.of_nat (length buf) < 2 ^ 64 -> Entry.max_valid_cluster_address < ca -> ca * cs < 2 ^ 64 ->
  2 ^ 64 <= ca * cs + Z.of_nat (length buf) <= 2 ^ 64 + ncl * cs ->
  exists s', write cf page_size uuid_of bounce attempts (ca * cs) buf s1 = (s', Throw ThrowUnless) /\ is_halted (vol s') = true.
Proof.
  intros Hs Hb Hv E Hr Hh Hcap Hbuf Hlen Hmax Hca Hwrap. destruct (reached_after _ _ _ _ Hs Hb Hv E) as (m & Ha). clear Hs Hb Hv E.
  pose proof (c_size _ _ cfg) as Hcs. pose proof (c_flags _ _ cfg) as [Hf Hro]. pose proof (c_end _ _ cfg) as (Hn0 & Hend & _). assert (0 <= ca) as H0 by (change Entry.max_valid_cluster_address with (2 ^ 35 - 1) in Hmax; lia).
  assert (up False 0 (dataStore_ (vol s1)) m s1) as Hu by by apply after_up. set (d := dataStore_ (vol s1)) in *. assert (isVolumeTemplate (vol s1) = false) as Ht by (destruct Hu as [(T & _ & Hs) _ _ _]; apply Hs).
  assert (checkNotHalted_ s1 = (s1, Ok tt)) as Ec by (unfold checkNotHalted_, mbind, rest, mbind, mget, mret, throw_if; by rewrite Hh).
  assert (validateIOLength cf (ca * cs) (Z.of_nat (length buf)) s1 = (s1, Ok tt)) as El.
  { unfold validateIOLength. rewrite rest_bind, (size_eq _ _ _ page_pos _ cfg _ _ _ _ Hu). rewrite (wrapped_sum (ca * cs) (Z.of_nat (length buf))) by lia. unfold throw_if. by rewrite (proj2 (Z.ltb_ge _ _)) by lia. }
  assert (aligned_off cf (ca * cs) = ca * cs /\ aligned_len cf (ca * cs) (Z.of_nat (length buf)) = Z.of_nat (length buf)) as [Eo Ea].
  { unfold aligned_off, aligned_len, nclusters. rewrite Z.div_mul, Z.mod_mul, Z.add_0_l, Hbuf by lia. rewrite !(wrap_id 64 (Z.of_nat n * cs)), Z.div_mul, Z.mod_mul by (unfold fits; lia). cbn [Z.eqb]. by rewrite Z.add_0_r, wrap_id by (unfold fits; lia). }
  unfold write. rewrite Hf, rest_bind, Ht. unfold throw_if at 1. unfold mbind at 1, mret at 1. unfold mbind at 1. rewrite Ec. unfold mbind at 1, checkNotReadOnly_ at 1. rewrite Hro. unfold throw_if at 1, mret at 1.
  unfold mbind at 1. rewrite El. unfold unaligned. rewrite Eo, Ea, !Z.eqb_refl. cbn [negb orb]. unfold write_aligned_, validateIOAlignment, throw_if. rewrite Hbuf, !Z.mod_mul by lia. cbn [Z.eqb negb]. unfold mbind at 1 2, mret at 1 2.
  apply wrapped_loop with d m n; try done. change Entry.max_valid_cluster_address with (2 ^ 35 - 1) in Hmax. nia.
Qed.
End Theorems.

(** ** A volume of four clusters of four bytes *)
Module VolumeSample.

(** A data store with one cluster per SCO. *)
Record TD : Type := mkTD { log_ : list (list Z); open_ : bool; mem_ : gmap Z Z }.
Definition loc_of (i : nat) : ClusterLocation := ClusterLocation.make (Z.of_nat i + 1) 0 0 0.
Definition index_of (l : ClusterLocation) : nat := Z.to_nat (SCO.number_ (ClusterLocation.sco_ l) - 1).
Definition td_content (d : TD) (l : ClusterLocation) : option (list Z) := if decide (l = loc_of (index_of l)) then log_ d !! index_of l else None.

Definition td_read (d : TD) (y : DataStoreNG.ClusterReadDescriptor) : TD :=
  match td_content d (DataStoreNG.loc_ y) with
  | Some bs => mkTD (log_ d) (open_ d) (DataStoreNG.store (DataStoreNG.buf_ y) bs (mem_ d))
  | None => d
  end.

#[global] Instance td_store : DataStore TD := {
  writeClusters buf n d := match n with
    | O => (d, Ok ([], 0))
    | _ => (mkTD (log_ d ++ [buf]) false (mem_ d), Ok ([loc_of (length (log_ d))], 0))
    end;
  writeClusterToLocation _ _ := mret 0;
  readClusters descs d := (fold_left td_read descs d, Ok tt);
  touchCluster _ := mret tt;
  getRemainingSCOCapacity d := if open_ d then 1 else 0;
  finalizeCurrentSCO d :=
    if open_ d then (d, Ok None)
    else if bool_decide (Z.of_nat (length (log_ d)) < 2 ^ 31) then (mkTD (log_ d) true (mem_ d), Ok (Some CheckSum.CheckSum_default)) else (d, Throw IOException);
  ds_sync := mret None;
  ds_setSCOMultiplier _ := mret tt;
  ds_writtenToBackendUpTo _ := mret tt;
  ds_halted _ := false;
  memory := mem_;
  set_memory x d := mkTD (log_ d) (open_ d) x }.

#[global] Instance tm_store : MetaDataStore (gmap Z ClusterLocationAndHash) := {
  readCluster a m := (m, Ok (default (mkCLH ClusterLocation.null 0) (m !! a)));
  writeCluster a v m := (<[a := v]> m, Ok tt);
  md_cork _ := mret tt;
  md_unCork _ := mret tt;
  md_sync := mret tt }.

#[global] Instance tf_client : FailOverCacheClient unit := {
  backup _ := true;
  addEntries _ _ _ := mret true;
  foc_flush := mret tt;
  foc_removeUpTo _ := mret tt;
  synchronous _ := true;
  max_entries _ := 2;
  degraded _ := 0%nat }.

#[global] Instance tc_client : ClusterCacheClient (gmap Z (list Z)) := {
  cache_cluster_size _ := 4;
  cache_add ca _ bs c := (<[ca := bs]> c, Ok tt);
  cache_invalidate ca _ c := (delete ca c, Ok tt);
  cache_read ca _ c := (c, Ok (c !! ca)) }.

#[global] Instance tb_client : BackendClient (gmap Z (list Z)) := {
  be_write i f _ b := match f with Some f => (<[i := f]> b, Ok tt) | None => (b, Throw BackendInputException) end;
  be_read b i := match b !! i with Some f => Ok f | None => Throw BackendException end;
  be_write_snapshots _ := mret tt }.

Definition cfg : Config := mkConfig 2 4 1 false false CacheOnRead LocationBased 0 0 20 1024 (fun _ => 0).

Lemma loc_of_index i : index_of (loc_of i) = i.
Proof. unfold index_of, loc_of. cbn. lia. Qed.

Lemma td_content_loc d i : td_content d (loc_of i) = log_ d !! i.
Proof. unfold td_content. rewrite loc_of_index. by rewrite decide_True. Qed.

Lemma td_reads descs : forall d, log_ (fold_left td_read descs d) = log_ d /\ open_ (fold_left td_read descs d) = open_ d.
Proof.
  induction descs as [|y descs IH]; intros d; [done|]. cbn. destruct (IH (td_read d y)) as [-> ->]. unfold td_read. by destruct (td_content d _).
Qed.

Lemma td_content_log d d' l : log_ d = log_ d' -> td_content d l = td_content d' l.
Proof. unfold td_content. by intros ->. Qed.

Definition td_inv (d : TD) : Prop := Forall (fun bs => Z.of_nat (length bs) = 4) (log_ d) /\ Z.of_nat (length (log_ d)) + (if open_ d then 1 else 0) <= 2 ^ 31.

Lemma td_length d l bs : td_inv d -> td_content d l = Some bs -> length bs = 4%nat.
Proof. intros [Hf _] Hc. unfold td_content in Hc. case_decide; [|done]. apply (Forall_lookup_1 _ _ _ _ Hf) in Hc. lia. Qed.

Lemma td_memory descs : forall d, td_inv d -> StronglySorted (fun x y => DataStoreNG.buf_ x + 4 <= DataStoreNG.buf_ y) descs ->
  (forall x, (forall y, y ∈ descs -> ~ DataStoreNG.buf_ y <= x < DataStoreNG.buf_ y + 4) -> at_ (mem_ (fold_left td_read descs d)) x = at_ (mem_ d) x) /\
  (forall y bs i, y ∈ descs -> td_content d (DataStoreNG.loc_ y) = Some bs -> (i < length bs)%nat -> at_ (mem_ (fold_left td_read descs d)) (DataStoreNG.buf_ y + Z.of_nat i) = nth i bs 0).
Proof.
  induction descs as [|y descs IH]; intros d Hi Hs; [split; [done|]; intros ? ? ? []%not_elem_of_nil|]. apply StronglySorted_cons in Hs as [Hy Hs]. cbn [fold_left].
  destruct (td_reads [y] d) as [El Eo]. cbn [fold_left] in El, Eo. assert (td_inv (td_read d y)) as Hi' by (unfold td_inv; by rewrite El, Eo). destruct (IH _ Hi' Hs) as [Hout Hin].
  assert (forall x, ~ DataStoreNG.buf_ y <= x < DataStoreNG.buf_ y + 4 -> at_ (mem_ (td_read d y)) x = at_ (mem_ d) x) as Hone.
  { intros x Hx. unfold td_read. destruct (td_content d (DataStoreNG.loc_ y)) as [bs|] eqn:Ec; [|done]. cbn. rewrite store_at. apply upd_out. rewrite (td_length _ _ _ Hi Ec). lia. }
  rewrite Forall_forall in Hy. split.
  - intros x Hx. rewrite Hout; [apply Hone, Hx; left|]. intros z Hz. apply Hx. by right.
  - intros z bs i Hz Hc Hlen. pose proof (td_length _ _ _ Hi Hc) as H4. apply elem_of_cons in Hz as [->|Hz]; [|apply Hin; [done|by rewrite (td_content_log _ d)|done]].
    rewrite Hout. { unfold td_read. rewrite Hc. cbn. rewrite store_at. by apply upd_in. } intros z' Hz'. specialize (Hy _ Hz'). lia.
Qed.

#[global] Program Instance td_spec : DataStoreSpec TD (clusterSize_ cfg) := {
  content := td_content;
  ds_inv := td_inv;
  scos_left d := 2 ^ 31 - Z.of_nat (length (log_ d)) - (if open_ d then 1 else 0) }.
Next Obligation. intros d _. cbn. destruct (open_ d); lia. Qed.
Next Obligation. intros d l bs Hi Hc. cbn. rewrite (td_length _ _ _ Hi Hc). done. Qed.
Next Obligation. intros x d. cbn. split_and!; try done. Qed.
Next Obligation.
  intros d buf n d' r [Hf Hl] Hbuf Hn E. cbn in *. unfold td_inv. destruct n as [|[|n]]; [| |destruct (open_ d); lia].
  - injection E as <- <-. split_and!; try done; try (intros _; lia). intros locs t [= <- _]. split_and!; [lia|done|]. intros i l Hi. by destruct i.
  - injection E as <- <-. cbn. destruct (open_ d) eqn:Eo; [|lia]. rewrite length_app. cbn [length]. split_and!; try done; try lia.
    + apply Forall_app. split; [done|]. constructor; [lia|constructor].
    + intros _ l bs Hc. cbn. unfold td_content in *. case_decide; [|done]. cbn. by apply lookup_app_l_Some.
    + intros locs t [= <- _]. split_and!; [lia|done|]. intros [|i] l Hi; [|done]. injection Hi as <-.
      split_and!.
      * unfold loc_of, isNull, ClusterLocation.number. cbn. lia.
      * unfold loc_of, ClusterLocation.wf, SCO.wf, fits. cbn. lia.
      * rewrite td_content_loc. cbn. rewrite lookup_app_r, Nat.sub_diag by done. cbn. rewrite drop_0, take_ge by lia. done.
Qed.
Next Obligation.
  intros d descs d' r Hi Hs E. pose proof Hi as [Hf Hl]. cbn in *. injection E as <- <-. destruct (td_reads descs d) as [El Eo]. unfold td_inv. rewrite El, Eo. split_and!; try done; try (intros _; lia).
  - intros _ l bs. by rewrite (td_content_log (fold_left td_read descs d) d l El).
  - intros _. by apply td_memory.
Qed.
Next Obligation. intros d l d' r [Hf Hl] E. cbn in *. injection E as <- <-. split_and!; try done. intros _. lia. Qed.
Next Obligation.
  intros d d' r [Hf Hl] E. cbn in *. destruct (open_ d) eqn:Eo; [|case_bool_decide as Hlt]; injection E as <- <-; cbn; unfold td_inv; rewrite ?Eo; split_and!; try done; cbn; try lia.
  - intros c [= <-]. split_and!; [lia|done|lia].
  - intros c [= <-]. split_and!; [lia|apply CheckSum.default_wf|done].
Qed.
Next Obligation. intros d d' r [Hf Hl] E. cbn in *. injection E as <- <-. split_and!; try done; [intros _; lia|]. by intros c [= <-]. Qed.
Next Obligation. intros d s d' r [Hf Hl] E. cbn in *. injection E as <- <-. split_and!; try done. intros _. lia. Qed.
Next Obligation. done. Qed.

#[global] Program Instance tm_spec : MetaDataStoreSpec (gmap Z ClusterLocationAndHash) := {
  entry m a := default (mkCLH ClusterLocation.null 0) (m !! a);
  md_inv _ := True }.
Next Obligation. intros x a y v _ E. cbn in E. by injection E as <- <-. Qed.
Next Obligation. intros x a v y _ E. cbn in E. injection E as <-. split; [done|]. intros b. case_decide as Hb; [subst; by rewrite lookup_insert_eq|by rewrite lookup_insert_ne]. Qed.
Next Obligation. intros x u. by exists x. Qed.
Next Obligation. intros x u y _ E. cbn in E. by injection E as <-. Qed.
Next Obligation. done. Qed.

#[global] Program Instance tc_spec : ClusterCacheSpec (gmap Z (list Z)) (cluster_cache_mode_ cfg) := { cached c ca _ := c !! ca }.
Next Obligation.
  intros c ca w bs. eexists. split_and!; [done|done|]. intros ca' w' x Hx. cbn. destruct (decide (ca = ca')) as [->|Hne]; [rewrite lookup_insert_eq in Hx|rewrite lookup_insert_ne in Hx by done; by right].
  injection Hx as <-. by left.
Qed.
Next Obligation.
  intros c ca w. eexists. split_and!; [done|done|]. intros ca' w' x Hx. cbn. destruct (decide (ca = ca')) as [->|Hne]; [by rewrite lookup_delete_eq in Hx|]. by rewrite lookup_delete_ne in Hx.
Qed.
Next Obligation. intros c ca w. by eexists c, (c !! ca). Qed.

#[global] Program Instance tf_spec : FailOverSpec unit (clusterSize_ cfg) 1 := { patience _ := 0%nat }.
Next Obligation. intros. cbn. lia. Qed.
Next Obligation. intros f locs a buf f' E. done. Qed.
Next Obligation. intros f. cbn. lia. Qed.

#[global] Instance tb_spec : BackendSpec (gmap Z (list Z)).
Proof.
  constructor; try done.
  - intros i [f|] c b j Hj; cbn; [by rewrite lookup_insert_ne|done].
  - intros i f c b b' E. cbn in E. injection E as <-. cbn. by rewrite lookup_insert_eq.
  - intros i c b. by exists BackendInputException.
Qed.

Lemma sample_configured : configured cfg 4.
Proof.
  constructor; cbn; try done; lia.
Qed.

(** The components do not fail. *)
Lemma sample_reliable : reliable cfg 4 (D := TD) (MD := gmap Z ClusterLocationAndHash) (F := unit).
Proof.
  constructor; cbn; try done.
  - intros d buf n _ _ Hn. by destruct n.
  - intros d [_ Hl] Hp. destruct (open_ d); [done|]. rewrite bool_decide_true by lia. done.
Qed.

Abbreviation TRest := (Rest TD (gmap Z ClusterLocationAndHash) unit (gmap Z (list Z)) (gmap Z (list Z))).
#[local] Hint Extern 0 (VolumeInterface (Volume.Rest _ _ _ _ _)) => exact (rest_interface cfg) : typeclass_instances.

Definition uuid (n : nat) : TLog.UUID := Z.of_nat n + 1.
Definition new_rest : TRest := mkRest (mkTD [] true ∅) ∅ tt ∅ ∅ false false OK_SYNC None 0 0 0 0 0 8.
Definition built : SM TRest := mkSM (SnapshotPersistor.create None 1 2) None 2 0 0 ∅ (Some (SnapshotPersistor.create None 1 2)) [] 2 new_rest.
Definition first : SM TRest := fst (initialize 4096 (Some 20) 0 16 built).

(** Unaligned writes over each other, a read, the log sent to the backend, and a read that is served from the cache. *)
Definition before : list request := [Write 1 [1; 2; 3; 4; 5]; Write 3 [7; 8]; Read 0 100 8; BackendSync].
Definition task : Task := nth 0 (tasks (fst (serves cfg 4096 uuid 1000 1 before first))) WriteSnapshot.
Definition requests : list request := before ++ [Run task; Read 2 200 4; Read 9 300 2].

Lemma new_started : started 4096 uuid first.
Proof. refine (start_new 4096 uuid Creation None 0 new_rest (Some 20) 0 16 built first (or_intror eq_refl) eq_refl eq_refl _). vm_compute. reflexivity. Qed.

Lemma first_rest : vol first = new_rest.
Proof. vm_compute. reflexivity. Qed.

Lemma first_blank : blank cfg 4 (vol first).
Proof. rewrite first_rest. constructor; try done. Qed.

Example sample_answers : snd (serves cfg 4096 uuid 1000 1 requests first) = [Ok []; Ok []; Ok [0; 1; 2; 7; 8; 5; 0; 0]; Ok []; Ok []; Ok [2; 7; 8; 5]; Ok [0; 0]].
Proof. vm_compute. reflexivity. Qed.

(** Where a request is valid in every state. *)
Lemma valid_static q s : match q with Write off buf => 0 <= off /\ off + Z.of_nat (length buf) < 2 ^ 64 | Read off _ len => 0 <= off /\ 0 <= len /\ off + len < 2 ^ 64 | Run _ => False | _ => True end ->
  valid (s : SM TRest) q.
Proof. by destruct q. Qed.

Lemma valids_cons q qs s : valid s q -> valids cfg 4096 uuid 1000 1 (fst (serve cfg 4096 uuid 1000 1 q s)) qs -> valids cfg 4096 uuid 1000 1 s (q :: qs).
Proof. by split. Qed.

Lemma sample_valids : valids cfg 4096 uuid 1000 1 first requests.
Proof.
  unfold requests, before. cbn [app]. do 4 (apply valids_cons; [apply valid_static; cbn; lia|]). apply valids_cons; [|do 2 (apply valids_cons; [apply valid_static; cbn; lia|]); exact I].
  apply (list_elem_of_lookup_2 _ 0). vm_compute. reflexivity.
Qed.

Lemma before_valids : valids cfg 4096 uuid 1000 1 first before.
Proof. unfold before. do 4 (apply valids_cons; [apply valid_static; cbn; lia|]). exact I. Qed.

Lemma before_in_range : Forall (in_range cfg 4) before.
Proof. repeat constructor; cbn; lia. Qed.
End VolumeSample.


Lemma wrapped_write_halts_witness : exists s', write VolumeSample.cfg 4096 VolumeSample.uuid 1000 1 ((2 ^ 62 - 1) * 4) [1; 2; 3; 4; 5; 6; 7; 8] VolumeSample.first = (s', Throw ThrowUnless) /\ is_halted (vol s') = true.
Proof.
  apply (wrapped_write_halts VolumeSample.cfg 4096 VolumeSample.uuid 1000 1 ltac:(lia) ltac:(unfold VolumeSample.uuid; lia) ltac:(unfold VolumeSample.uuid; lia) 4 VolumeSample.sample_configured
    VolumeSample.first [] VolumeSample.first [] (2 ^ 62 - 1) [1; 2; 3; 4; 5; 6; 7; 8] 2 VolumeSample.new_started VolumeSample.first_blank I eq_refl VolumeSample.sample_reliable);
    rewrite ?VolumeSample.first_rest; cbn; try lia; by_decide.
Defined.
